(* ===== verification/_CoqProject ===== *)
-Q . S2P
Prelude.v
Util.v
Alloc.v
ListHead.v
ListHeadMain.v
Hlist.v
HlistMain.v
Ring.v
Fifo.v
FifoSpsc.v
Base64.v
Base64Android.v
Hash.v
HashSpec.v
AesTables.v
Aes.v
AesSpec.v
AesCbc.v
DhcpMsg.v
DhcpMsgSpec.v
DhcpPacket.v
DhcpPacketSpec.v
DhcpClient.v
Merkle.v
Sha1.v
Sha1Spec.v
Md5.v
Md5Spec.v
Json.v
JsonSafe.v
JsonNum.v
JsonPrint.v
JsonRender.v
JsonRoundTrip.v
Epoll.v
EpollSpec.v
EpollRun.v
EpollKernel.v
Hex.v
HexSpec.v
Driver.v
JsonTree.v
JsonTreeSpec.v
JsonTreeEdit.v
JsonTreeNames.v
JsonTreeMain.v
JsonTreeCopy.v
JsonMinify.v
Queue.v
QueueSpec.v
QueueMain.v
Uuid.v
GattDb.v
GattAccess.v
GattSpec.v
GattDestroy.v
GattServices.v
GattAttrs.v
GattFind.v
GattObserve.v
GattRequests.v
GattMain.v
GattRun.v
GattLook.v
ServerState.v
ServerFind.v
ServerAccess.v
ServerSteps.v
ServerPermit.v
ServerReads.v
ServerSearch.v
ServerEncode.v
ServerGroups.v
ServerByValue.v
ServerMulti.v
ServerPrep.v
ServerMain.v
ServerSession.v
ServerWrites.v
ServerDemo.v
