(* ===== verification/Prelude.v ===== *)
(** * IdearNiu: a verification library

    IdearNiu is a collection of C code for embedded Linux devices.  Its own parts are small libraries
    that the programs of the repository call: a byte FIFO and a hash table, encodings and ciphers, a
    JSON library, a DHCP client, an event loop, a table of drivers and utilities.  Beside them it
    carries third-party programs as released, among them a Bluetooth GATT server with its attribute
    database.  This library models the own parts, that database and that server, from the source, and proves
    what makes them correct.

    ** How the code is modelled

    - Integers are [Z]; every operation that can leave its width is followed by the wrap-around of
      that width ([u8], [u32], [s32], ... below).
    - Memory is a list of bytes, with [mem_get], [mem_set], [mem_read] and [mem_write] checked
      against its length.  A function that can go wrong is in the type [outcome]: [Ret] of a result,
      [Undef] for undefined behaviour (an access outside a block, the use of freed memory) or [Exit]
      for a call of [exit].  A theorem that says a call is [Ret] of something says that it
      ends, stays in its memory and gives that result.
    - State is passed explicitly; the event loop, the JSON trees and the queues have a state monad over
      [outcome] and a heap of blocks that can be freed.
    - Code that is not part of the repository is a parameter: [malloc], the operating system (class
      [Kernel] of [Epoll], events and packets of [DhcpClient]), doubles and [strtod]/[sprintf]
      (class in [Json] and [JsonPrint]), each with named laws and a concrete instance.

    ** Parts, files and what is shown

    - src/fifo/fifo.c, include/fifo.h: [Ring] (arithmetic of the free-running indices), [Fifo] (every
      operation; any sequence of calls behaves as a bounded queue of bytes, also when the indices
      wrap around), [FifoSpsc] (put and get as interleaved steps on one byte each: one reader and one
      writer without a lock keep the order; the reset in [kfifo_get] does not).  [Util] is [xmalloc].
    - src/hash/hash.c: [Hash] (open addressing with linear probing, growth by a table of primes, removal with
      re-insertion, iteration), [HashSpec] (refinement of an association list for any hash and test
      functions that fit together; the hash functions of the source fit; iteration visits every
      entry once).
    - src/util/base64.c: [Base64] and [Base64Android] (both coders: round trips, memory safety on any
      input, the fast path of the second decoder changes nothing).
    - src/crypto/aes_cbc.c: [AesTables] (the tables of the source), [Aes] (key schedule, block cipher,
      CBC mode), [AesSpec] and [AesCbc] (equal to FIPS 197 written over bytes and the field
      GF(2^8), decryption inverts encryption).
    - src/crypto/sha1.c, md5.c: [Merkle] (iterated hashing of a message in pieces), [Sha1], [Sha1Spec], [Md5],
      [Md5Spec] (any split of a message into updates gives the digest of the standard).
    - src/dhcpc: [DhcpMsg], [DhcpMsgSpec] (dhcpmsg.c and the decoding of options: well-formed
      requests, every option found, no read outside the message), [DhcpPacket], [DhcpPacketSpec]
      (packet.c: checksums, sending and receiving are inverse), [DhcpClient] (the state machine of
      dhcpclient.c over events, with the log it writes of received messages: it stays in its memory and
      ends, and an address it configures comes from a reply).
    - src/json/cJSON.c: [Json], [JsonSafe] (the parser ends inside its buffers on any string),
      [JsonPrint], [JsonRender] (the printer in its three kinds of buffer writes one text and stays
      inside), [JsonNum] (an instance of doubles), [JsonRoundTrip] (parsing a printed tree gives
      the tree).
    - src/json/cJSON.c, trees in memory: [JsonTree] (every function that creates, links, finds,
      removes, replaces, copies and compares nodes, on a heap), [JsonTreeSpec] (chains of siblings and
      what each function does to them), [JsonTreeEdit] (deletion; any sequence of edits against lists of
      children), [JsonTreeNames] and [JsonTreeMain] (members by name; the theorems and runs),
      [JsonTreeCopy] (deep copies, with their undoing when memory runs out),
      [JsonMinify] (white space and comments removed in place; minified formatted text is the unformatted
      text).
    - src/epoll: [Epoll] (epoll_loop.c and timeout.c), [EpollSpec], [EpollRun] (table, heap and
      interest list of the kernel agree; the loop never touches freed memory when its callbacks
      remove nothing but their own descriptors, and those of timers nothing; it ends when asked to), [EpollKernel] (an instance of the kernel,
      and two runs that use freed memory).
    - src/util/utils.c: [Hex], [HexSpec] (hexadecimal strings, tokens, exchange).
    - src/dm/driver_model.c: [Driver] (registration and lookup of drivers).
    - src/bt/btgatt_server/src/shared/queue.c: [Queue] (reference-counted linked lists whose functions may
      use the queue they are called from), [QueueSpec] (chains of entries on a heap, a weakest precondition and
      one lemma per operation), [QueueMain] (any sequence of operations on any number of queues against lists;
      what [queue_foreach] allows its function to do, and a run that uses a freed entry).
    - src/bt/btgatt_server/lib/uuid.c: [Uuid] (comparison by the 128-bit form, little-endian forms).
    - src/bt/btgatt_server/src/shared/gatt-db.c, the attribute database on those queues: [GattDb] (services,
      characteristics, descriptors, observers), [GattAccess] (searches, reads, writes, timeouts), [GattSpec]
      (the invariant of heap and queues; insertion of services), [GattDestroy] and [GattServices] (removal of
      services with all they own), [GattAttrs] (new attributes), [GattFind] (order of handles and searches by
      handle), [GattObserve] (observers), [GattRequests] (pending requests and stored values), [GattMain] and
      [GattRun] (every sequence of calls keeps the database intact, and in the order of its handles when they are
      left to it; functions of attributes may answer requests while they are called), [GattLook] (what a
      client finds and reads back, and what goes wrong at the edges).  [Alloc] is the allocator of the trees,
      queues and databases.
    - src/bt/btgatt_server/src/shared/gatt-server.c, the server on that database: [ServerState] (its blocks, the
      class [Transport] for att.c, permissions), [ServerFind] (requests that search the database) and
      [ServerAccess] (reads, writes, prepared writes, life of the server, the dispatch of calls of the database
      back into the server) are the model.  [ServerSteps] has one lemma per step, [ServerPermit] what the
      permissions mean, and [ServerReads], [ServerSearch], [ServerEncode], [ServerGroups], [ServerByValue],
      [ServerMulti] and [ServerPrep] what each request is answered.
      [ServerMain] puts them together: [answer] is the specification of the requests that change nothing, and
      class [Connection] what the server relies on; [ServerSession] is the server from its start to its end,
      [ServerWrites] what a peer writes and reads back, at once or in pieces, and [ServerDemo] a connection, a
      database and runs.
    - include/list.h and include/hlist.h: [ListHead] and [Hlist] (each function on a heap of nodes, with pointers
      that may not be set), [ListHeadMain] (rings of nodes) and [HlistMain] (chains with back pointers): any
      sequence of operations on any number of lists has the results it has on lists of entries.

    The FIFO calls [xmalloc] of [Util], as does the base64 coder; the DHCP client is composed of
    its messages and packets; the printers and parsers of JSON share the tree of [Json]; the timers of
    timeout.c run on the loop of epoll_loop.c; the attribute database keeps its services, observers and
    requests in queues, and its theorems are proved from those of the queues; the server calls the database, which
    calls the server back, and the theorems on a request are proved from those of both.

    ** Fuel and bounds

    Loops that are not structural carry fuel, and the theorems show that the fuel of the model is
    enough: probing takes at most as many steps as there are cells, block loops as many as there are blocks, the
    text loops as many as there are characters, and nesting stops at [CJSON_NESTING_LIMIT].  Running
    out of fuel is [Undef], so a theorem that gives a [Ret] excludes it.  The exception is
    [epoll_run], which may run for ever: its fuel counts the waits, the safety theorem holds for every number
    of them and the theorem on its end says when one wait is enough.  The DHCP client runs over
    a finite sequence of events, and the theorem on its end bounds the timeouts in it.  The walks over
    queues that call functions take fuel as an argument; a number above that of the entries in use is
    enough, or above that of the calls when the functions add entries.  The GATT server has at most 65535 attributes and handles in a request, and 65538 is enough for
    every request.

    ** Not modelled

    Third-party code carried as released (mbedtls, madplay with libmad and libid3tag, wget, the rest of
    BlueZ (att.c, of which the server sees the class [Transport], the client, mgmt and crypto), wpa_supplicant, tinyalsa), the C++ daemons of Android, and the wrappers of system calls (sockets, threads,
    uart, input events, files, processes, logging, interface control by ioctl), which keep no state of
    their own.  Of the modelled files: freeing whole structures ([kfifo_free], [hash_table_destroy]),
    the text forms of UUIDs, indications of the GATT server, printing of debug output (but for the log of received messages in dhcpclient.c) and, in
    cJSON.c, the error pointer and the version text.  The theorems on the server are for attributes whose values are in the database; functions
    of the application are in the model, and in the theorems on the database.  The C locale is assumed for numbers. *)

From stdpp Require Export prelude numbers list.
From Stdlib Require Export ZArith Lia.

#[export] Set Default Goal Selector "!".
#[global] Open Scope Z_scope.

(** ** Machine integers

    A [w]-bit unsigned C integer is a [Z] in [[0, 2^w)]; every C operation that
    can leave that range is followed by an explicit wrap-around. *)

Definition wrap (w z : Z) : Z := z mod 2 ^ w.

Definition u8 (z : Z) : Z := wrap 8 z.
Definition u16 (z : Z) : Z := wrap 16 z.
Definition u32 (z : Z) : Z := wrap 32 z.
Definition u64 (z : Z) : Z := wrap 64 z.

(** Conversion to a signed [int] (two's complement, as gcc defines it). *)
Definition s32 (z : Z) : Z := wrap 32 (z + 2 ^ 31) - 2 ^ 31.
Definition s8 (z : Z) : Z := wrap 8 (z + 2 ^ 7) - 2 ^ 7.

Declare Scope word_scope.
Delimit Scope word_scope with word.
(** 32-bit unsigned arithmetic of the C sources. *)
Notation "x ⊞ y" := (u32 (x + y)) (at level 50, left associativity) : word_scope.
Notation "x ⊟ y" := (u32 (x - y)) (at level 50, left associativity) : word_scope.
Notation "x ⊻ y" := (Z.lxor x y) (at level 48, left associativity) : word_scope.
Notation "x .& y" := (Z.land x y) (at level 44, left associativity) : word_scope.
Notation "x .| y" := (Z.lor x y) (at level 49, left associativity) : word_scope.

Definition in_range (w z : Z) : Prop := 0 <= z < 2 ^ w.
Abbreviation is_u8 := (in_range 8).
Abbreviation is_u16 := (in_range 16).
Abbreviation is_u32 := (in_range 32).
Abbreviation is_u64 := (in_range 64).

#[export] Instance in_range_dec w z : Decision (in_range w z).
Proof. unfold in_range. apply _. Defined.

(** ** Outcomes of C code

    [Ret] is a normal return, [Exit c] is a call of [exit(c)] (the [BUG_ON] and
    [panic] paths) and [Undef] is undefined behaviour: a read or a write outside
    the object it addresses. *)

Inductive outcome (A : Type) : Type :=
| Ret (a : A)
| Exit (code : Z)
| Undef.
Arguments Ret {A} a.
Arguments Exit {A} code.
Arguments Undef {A}.

#[export] Instance outcome_ret : MRet outcome := fun A a => Ret a.
#[export] Instance outcome_bind : MBind outcome := fun A B f m =>
  match m with Ret a => f a | Exit c => Exit c | Undef => Undef end.

Lemma bind_Ret {A B} (m : outcome A) (f : A -> outcome B) b :
  (m ≫= f) = Ret b <-> exists a, m = Ret a /\ f a = Ret b.
Proof.
  destruct m; cbn; split.
  all: first [by eauto | by intros (a' & [= ->] & ?) | by intros (? & ? & ?) | done].
Qed.

Lemma bind_ret_l {A B} (a : A) (f : A -> outcome B) : (Ret a ≫= f) = f a.
Proof. done. Qed.
Lemma bind_assoc {A B C} (m : outcome A) (f : A -> outcome B) (g : B -> outcome C) :
  ((m ≫= f) ≫= g) = (m ≫= (fun x => f x ≫= g)).
Proof. by destruct m. Qed.

Definition of_option {A} (o : option A) : outcome A :=
  match o with Some a => Ret a | None => Undef end.

(** ** Byte buffers *)

Abbreviation bytes := (list Z).
Definition is_bytes (l : bytes) : Prop := Forall (in_range 8) l.

(** Length of a buffer as a C size. *)
Definition zlen {A} (l : list A) : Z := Z.of_nat (length l).

(** [*(p + i)]: a read of one element of a buffer. *)
Definition mem_get {A} (l : list A) (i : Z) : outcome A :=
  if i <? 0 then Undef else of_option (l !! Z.to_nat i).

(** [p[i] = x]: a write of one element of a buffer. *)
Definition mem_set {A} (l : list A) (i : Z) (x : A) : outcome (list A) :=
  if (0 <=? i) && (i <? zlen l) then Ret (<[Z.to_nat i := x]> l) else Undef.

(** The bytes a [memcpy] of [n] bytes reads from [src + off]. *)
Definition mem_read {A} (src : list A) (off n : Z) : outcome (list A) :=
  if (0 <=? off) && (0 <=? n) && (off + n <=? zlen src)
  then Ret (take (Z.to_nat n) (drop (Z.to_nat off) src)) else Undef.

(** The buffer a [memcpy] of the bytes [data] to [dst + off] leaves. *)
Definition mem_write {A} (dst : list A) (off : Z) (data : list A) : outcome (list A) :=
  if (0 <=? off) && (off + zlen data <=? zlen dst)
  then Ret (take (Z.to_nat off) dst ++ data ++ drop (Z.to_nat off + length data) dst)
  else Undef.

(** [memset(dst + off, v, n)]. *)
Definition mem_fill (dst : bytes) (off v n : Z) : outcome bytes :=
  if 0 <=? n then mem_write dst off (replicate (Z.to_nat n) v) else Undef.

Arguments mem_get : simpl never.
Arguments mem_set : simpl never.
Arguments mem_read : simpl never.
Arguments mem_write : simpl never.
Arguments mem_fill : simpl never.
Arguments wrap : simpl never.
Arguments zlen : simpl never.

(** ** Arithmetic lemmas *)

Lemma pow2_pos w : 0 <= w -> 0 < 2 ^ w.
Proof. intros. apply Z.pow_pos_nonneg; lia. Qed.

Lemma wrap_range w z : 0 <= w -> in_range w (wrap w z).
Proof. intros. apply Z.mod_pos_bound, pow2_pos; lia. Qed.

Lemma wrap_small w z : in_range w z -> wrap w z = z.
Proof. apply Z.mod_small. Qed.

Lemma u8_small z : 0 <= z < 2 ^ 8 -> u8 z = z.
Proof. apply wrap_small. Qed.
Lemma u16_small z : 0 <= z < 2 ^ 16 -> u16 z = z.
Proof. apply wrap_small. Qed.
Lemma u32_small z : 0 <= z < 2 ^ 32 -> u32 z = z.
Proof. apply wrap_small. Qed.
Lemma u64_small z : 0 <= z < 2 ^ 64 -> u64 z = z.
Proof. apply wrap_small. Qed.

Lemma wrap_add_l w x y : wrap w (wrap w x + y) = wrap w (x + y).
Proof. unfold wrap. apply Zplus_mod_idemp_l. Qed.
Lemma wrap_add_r w x y : wrap w (x + wrap w y) = wrap w (x + y).
Proof. unfold wrap. apply Zplus_mod_idemp_r. Qed.
Lemma wrap_sub_l w x y : wrap w (wrap w x - y) = wrap w (x - y).
Proof. unfold wrap. apply Zminus_mod_idemp_l. Qed.
Lemma wrap_sub_r w x y : wrap w (x - wrap w y) = wrap w (x - y).
Proof. unfold wrap. apply Zminus_mod_idemp_r. Qed.
Lemma wrap_wrap w x : wrap w (wrap w x) = wrap w x.
Proof. unfold wrap. apply Zmod_mod. Qed.

Create Rewrite HintDb wrap.
#[export] Hint Rewrite wrap_add_l wrap_add_r wrap_sub_l wrap_sub_r wrap_wrap : wrap.

(** [x & (2^k - 1)] is [x mod 2^k]. *)
Lemma land_mask x k : 0 <= k -> Z.land x (2 ^ k - 1) = x mod 2 ^ k.
Proof. intros. rewrite <-Z.land_ones, Z.ones_equiv by lia. f_equal; lia. Qed.

(** Disjoint bit ranges: [lor] is addition. *)
Lemma lor_add x y n : 0 <= n -> 0 <= y < 2 ^ n -> Z.lor (x ≪ n) y = x * 2 ^ n + y.
Proof.
  intros Hn Hy. rewrite <-Z.shiftl_mul_pow2 by lia.
  assert (Z.land (x ≪ n) y = 0) as Hd.
  { apply Z.bits_inj'. intros i Hi. rewrite Z.land_spec, Z.bits_0.
    destruct (decide (i < n)); [by rewrite Z.shiftl_spec_low by lia|].
    rewrite <-(Z.mod_small y (2 ^ n)), Z.mod_pow2_bits_high, andb_false_r by lia. done. }
  rewrite <-Z.lxor_lor by done. symmetry. by apply Z.add_nocarry_lxor.
Qed.

(** Exclusive or is computed bit by bit, so it stays within a word and commutes with
    truncation and shifts. *)
Lemma wrap_lxor w x y : 0 <= w -> wrap w (Z.lxor x y) = Z.lxor (wrap w x) (wrap w y).
Proof.
  intros Hw. apply Z.bits_inj'. intros i Hi. unfold wrap. rewrite Z.lxor_spec.
  destruct (decide (i < w)).
  - rewrite !Z.mod_pow2_bits_low by lia. apply Z.lxor_spec.
  - by rewrite !Z.mod_pow2_bits_high by lia.
Qed.

Lemma lxor_range w x y : 0 <= w -> in_range w x -> in_range w y -> in_range w (Z.lxor x y).
Proof.
  intros Hw Hx Hy. rewrite <-(wrap_small w x), <-(wrap_small w y), <-wrap_lxor by done.
  by apply wrap_range.
Qed.

Lemma shiftr_range w x n : 0 <= n -> in_range w x -> in_range w (x ≫ n).
Proof.
  unfold in_range. intros Hn Hx. rewrite Z.shiftr_div_pow2 by done.
  pose proof (pow2_pos n Hn). split; [apply Z.div_pos; lia|].
  apply Z.div_lt_upper_bound; [done|]. nia.
Qed.

(** Evaluates the bits at known positions of shifts, masks and truncations. *)
Ltac eval_bits :=
  repeat match goal with
  | |- context [Z.testbit (Z.lxor ?a ?b) ?i] => rewrite (Z.lxor_spec a b i)
  | |- context [Z.testbit (Z.lor ?a ?b) ?i] => rewrite (Z.lor_spec a b i)
  | |- context [Z.testbit (Z.land ?a ?b) ?i] => rewrite (Z.land_spec a b i)
  | |- context [Z.testbit (Z.shiftr ?a ?n) ?i] => rewrite (Z.shiftr_spec a n i) by lia
  | |- context [Z.testbit (Z.shiftl ?a ?n) ?i] => rewrite (Z.shiftl_spec a n i) by lia
  | |- context [Z.testbit (?a mod 2 ^ ?n) ?i] =>
      first [rewrite (Z.mod_pow2_bits_low a n i) by lia | rewrite (Z.mod_pow2_bits_high a n i) by lia]
  | |- context [Z.testbit ?a ?i] =>
      let v := eval vm_compute in i in progress change (Z.testbit a i) with (Z.testbit a v)
  | |- context [Z.testbit ?a (Zneg ?p)] => rewrite (Z.testbit_neg_r a (Zneg p)) by lia
  | |- context [Z.testbit (Zpos ?p) ?i] =>
      let b := eval vm_compute in (Z.testbit (Zpos p) i) in change (Z.testbit (Zpos p) i) with b
  end.

Lemma bits_eq w x y :
  0 <= w -> in_range w x -> in_range w y ->
  (forall n, (n < Z.to_nat w)%nat -> Z.testbit x (Z.of_nat n) = Z.testbit y (Z.of_nat n)) -> x = y.
Proof.
  intros Hw Hx Hy H. apply Z.bits_inj'. intros i Hi. destruct (decide (i < w)).
  - specialize (H (Z.to_nat i) ltac:(lia)). by rewrite Z2Nat.id in H by lia.
  - rewrite <-(wrap_small w x Hx), <-(wrap_small w y Hy). unfold wrap.
    by rewrite !Z.mod_pow2_bits_high by lia.
Qed.

Lemma lor_range w x y : 0 <= w -> in_range w x -> in_range w y -> in_range w (Z.lor x y).
Proof.
  intros Hw Hx Hy. assert (Z.lor x y = wrap w (Z.lor x y)) as ->; [|by apply wrap_range].
  apply Z.bits_inj'. intros i Hi. unfold wrap. destruct (decide (i < w)).
  - by rewrite Z.mod_pow2_bits_low by lia.
  - rewrite Z.mod_pow2_bits_high by lia. rewrite Z.lor_spec.
    rewrite <-(wrap_small w x Hx), <-(wrap_small w y Hy). unfold wrap.
    by rewrite !Z.mod_pow2_bits_high by lia.
Qed.

Lemma land_range w x m : 0 <= w -> 0 <= x -> in_range w m -> in_range w (Z.land x m).
Proof.
  intros Hw Hx Hm. assert (Z.land x m = wrap w (Z.land x m)) as ->; [|by apply wrap_range].
  apply Z.bits_inj'. intros i Hi. unfold wrap. destruct (decide (i < w)).
  - by rewrite Z.mod_pow2_bits_low by lia.
  - rewrite Z.mod_pow2_bits_high by lia. rewrite Z.land_spec.
    rewrite <-(wrap_small w m Hm). unfold wrap. rewrite Z.mod_pow2_bits_high by lia. apply andb_false_r.
Qed.

(** A modulus that divides the word size may be taken before or after the wrap. *)
Lemma wrap_mod_divides w z m : (m | 2 ^ w) -> wrap w z mod m = z mod m.
Proof. apply Z.mod_mod_divide. Qed.

Lemma pow2_divide k w : 0 <= k <= w -> (2 ^ k | 2 ^ w).
Proof.
  intros. exists (2 ^ (w - k)). rewrite <-Z.pow_add_r by lia. f_equal; lia.
Qed.

(** The position [x] steps after [p] in a ring of [n] slots, without division. *)
Lemma mod_wrap_once n x : 0 <= x < 2 * n -> x mod n = if x <? n then x else x - n.
Proof.
  intros Hx. destruct (Z.ltb_spec x n); [apply Z.mod_small; lia|].
  rewrite <-(Z.mod_small (x - n) n) by lia.
  rewrite <-(Z_mod_plus_full (x - n) 1 n). f_equal; lia.
Qed.

Lemma mod_wrap_below n x : - n <= x < n -> x mod n = if 0 <=? x then x else x + n.
Proof.
  intros Hx. destruct (Z.leb_spec 0 x); [apply Z.mod_small; lia|].
  rewrite <-(Z.mod_small (x + n) n) by lia.
  rewrite <-(Z_mod_plus_full x 1 n). f_equal; lia.
Qed.

(** ** Buffer lemmas *)

Lemma zlen_nonneg {A} (l : list A) : 0 <= zlen l.
Proof. unfold zlen. lia. Qed.

Lemma zlen_app {A} (l k : list A) : zlen (l ++ k) = zlen l + zlen k.
Proof. unfold zlen. rewrite length_app. lia. Qed.

Lemma zlen_take {A} (l : list A) n : zlen (take n l) = Z.min (Z.of_nat n) (zlen l).
Proof. unfold zlen. rewrite length_take. lia. Qed.

Lemma zlen_drop {A} (l : list A) n : zlen (drop n l) = Z.max 0 (zlen l - Z.of_nat n).
Proof. unfold zlen. rewrite length_drop. lia. Qed.

Lemma zlen_replicate {A} n (x : A) : zlen (replicate n x) = Z.of_nat n.
Proof. unfold zlen. by rewrite length_replicate. Qed.

Lemma zlen_nat {A} (l : list A) : Z.to_nat (zlen l) = length l.
Proof. unfold zlen. lia. Qed.

Lemma zlen_cons {A} (x : A) l : zlen (x :: l) = 1 + zlen l.
Proof. unfold zlen. cbn. lia. Qed.

Lemma zlen_nil {A} : zlen (@nil A) = 0.
Proof. done. Qed.

Lemma zlen_insert {A} i (x : A) l : zlen (<[i:=x]> l) = zlen l.
Proof. unfold zlen. by rewrite length_insert. Qed.

Create Rewrite HintDb zlen.
#[export] Hint Rewrite @zlen_app @zlen_take @zlen_drop @zlen_replicate @zlen_nat @zlen_cons
  @zlen_nil @zlen_insert : zlen.

(** Arithmetic over buffer lengths. *)
Ltac zlia := autorewrite with zlen in *; unfold zlen, in_range in *; lia.

(** Linear arithmetic with division and modulo by constants. *)
Ltac dlia := Z.div_mod_to_equations; lia.

(** Turns the boolean tests among the hypotheses into propositions. *)
Ltac bools :=
  repeat match goal with
  | H : (_ && _)%bool = true |- _ => apply andb_true_iff in H as [? ?]
  | H : (_ =? _)%Z = true |- _ => apply Z.eqb_eq in H
  | H : (_ <=? _)%Z = true |- _ => apply Z.leb_le in H
  | H : (_ <? _)%Z = true |- _ => apply Z.ltb_lt in H
  end.

Lemma mem_read_ok {A} (src : list A) off n :
  0 <= off -> 0 <= n -> off + n <= zlen src ->
  mem_read src off n = Ret (take (Z.to_nat n) (drop (Z.to_nat off) src)).
Proof. intros. unfold mem_read. by rewrite !(proj2 (Z.leb_le _ _)) by lia. Qed.

Lemma mem_write_ok {A} (dst : list A) off data :
  0 <= off -> off + zlen data <= zlen dst ->
  mem_write dst off data =
    Ret (take (Z.to_nat off) dst ++ data ++ drop (Z.to_nat off + length data) dst).
Proof. intros. unfold mem_write. by rewrite !(proj2 (Z.leb_le _ _)) by lia. Qed.

Lemma mem_write_len {A} (dst dst' : list A) off data :
  mem_write dst off data = Ret dst' -> length dst' = length dst.
Proof.
  unfold mem_write. case_match eqn:E; intros; simplify_eq.
  rewrite !length_app, length_take, length_drop. zlia.
Qed.

Lemma mem_write_lookup {A} (dst dst' : list A) off data (i : nat) :
  mem_write dst off data = Ret dst' ->
  dst' !! i = if decide (off <= Z.of_nat i < off + zlen data)
              then data !! (i - Z.to_nat off)%nat else dst !! i.
Proof.
  unfold mem_write. case_match eqn:E; intros; simplify_eq.
  case_decide.
  - rewrite lookup_app_r by (rewrite length_take; zlia).
    rewrite length_take. rewrite lookup_app_l by zlia. f_equal. zlia.
  - destruct (decide (Z.of_nat i < off)).
    + rewrite lookup_app_l by (rewrite length_take; zlia).
      by rewrite lookup_take_lt by lia.
    + rewrite !lookup_app_r by (rewrite ?length_take; zlia).
      rewrite lookup_drop. f_equal. rewrite length_take. zlia.
Qed.

(** Reads and writes of a buffer given by its parts. *)
Lemma mem_read_app {A} (pre d post : list A) off n :
  off = zlen pre -> n = zlen d -> mem_read (pre ++ d ++ post) off n = Ret d.
Proof.
  intros -> ->. pose proof (zlen_nonneg pre). pose proof (zlen_nonneg d). pose proof (zlen_nonneg post).
  rewrite mem_read_ok by (rewrite ?zlen_app; lia).
  by rewrite !zlen_nat, drop_app_length, take_app_length.
Qed.

Lemma mem_write_app {A} (pre d d' post : list A) off :
  off = zlen pre -> length d' = length d -> mem_write (pre ++ d ++ post) off d' = Ret (pre ++ d' ++ post).
Proof.
  intros -> Hd. pose proof (zlen_nonneg pre). pose proof (zlen_nonneg post).
  rewrite mem_write_ok by (rewrite ?zlen_app; unfold zlen; lia).
  rewrite zlen_nat, take_app_length, Hd. by rewrite <-drop_drop, !drop_app_length.
Qed.

Lemma mem_write_0 {A} (dst d : list A) :
  zlen d <= zlen dst -> mem_write dst 0 d = Ret (d ++ drop (length d) dst).
Proof. intros. rewrite mem_write_ok by lia. change (Z.to_nat 0) with 0%nat. by rewrite take_0. Qed.

Lemma mem_fill_app (pre post : bytes) v n :
  0 <= n <= zlen post ->
  mem_fill (pre ++ post) (zlen pre) v n =
    Ret (pre ++ replicate (Z.to_nat n) v ++ drop (Z.to_nat n) post).
Proof.
  intros Hn. unfold mem_fill. rewrite (proj2 (Z.leb_le 0 n)) by lia.
  rewrite <-(take_drop (Z.to_nat n) post) at 1. apply mem_write_app; [done|].
  rewrite length_replicate, length_take. unfold zlen in Hn. lia.
Qed.

Lemma mem_get_ok {A} (l : list A) i x : 0 <= i -> l !! Z.to_nat i = Some x -> mem_get l i = Ret x.
Proof. intros ? Hx. unfold mem_get. rewrite (proj2 (Z.ltb_ge _ _)) by lia. by rewrite Hx. Qed.

Lemma mem_set_ok {A} (l : list A) i x :
  0 <= i < zlen l -> mem_set l i x = Ret (<[Z.to_nat i := x]> l).
Proof.
  intros. unfold mem_set. rewrite (proj2 (Z.leb_le _ _)), (proj2 (Z.ltb_lt _ _)) by lia. done.
Qed.

(** The same at an index that is a natural number. *)
Lemma mem_get_nat {A} (l : list A) (i : nat) x : l !! i = Some x -> mem_get l (Z.of_nat i) = Ret x.
Proof. intros. apply mem_get_ok; [lia|]. by rewrite Nat2Z.id. Qed.

Lemma mem_set_nat {A} (l : list A) (i : nat) x :
  (i < length l)%nat -> mem_set l (Z.of_nat i) x = Ret (<[i := x]> l).
Proof. intros. rewrite mem_set_ok by (unfold zlen; lia). by rewrite Nat2Z.id. Qed.

(** Two buffers of one length with the same elements are equal. *)
Lemma list_eq_len {A} (l k : list A) :
  length l = length k -> (forall i, (i < length l)%nat -> l !! i = k !! i) -> l = k.
Proof.
  intros Hlen H. apply list_eq. intros i.
  destruct (decide (i < length l)%nat); [auto|].
  rewrite !lookup_ge_None_2; [done|lia|lia].
Qed.

(** ** Checks over small ranges *)

Definition zrange (n : nat) : list Z := Z.of_nat <$> seq 0 n.

(** A boolean test that holds of [0 .. n-1] holds of every integer in that range. *)
Lemma zrange_forall n (P : Z -> bool) :
  forallb P (zrange n) = true -> forall z, 0 <= z < Z.of_nat n -> P z = true.
Proof.
  rewrite forallb_forall. intros H z Hz. apply H, list_elem_of_In, list_elem_of_fmap.
  exists (Z.to_nat z). split; [lia|]. apply elem_of_seq. lia.
Qed.

Lemma zrange_forall2 n m (P : Z -> Z -> bool) :
  forallb (fun x => forallb (P x) (zrange m)) (zrange n) = true ->
  forall x y, 0 <= x < Z.of_nat n -> 0 <= y < Z.of_nat m -> P x y = true.
Proof.
  intros H x y Hx Hy. refine (zrange_forall m (P x) _ y Hy).
  exact (zrange_forall n (fun x => forallb (P x) (zrange m)) H x Hx).
Qed.

(** A filter that keeps every element. *)
Lemma list_filter_all {A} (P : A -> Prop) `{!forall x, Decision (P x)} (l : list A) :
  Forall P l -> filter P l = l.
Proof. induction 1; [done|]. rewrite filter_cons_True by done. by f_equal. Qed.

(** A pair among pairs with different components. *)
Lemma pairs_apart {A B} (E1 E2 : list (A * B)) a b : NoDup (E1 ++ (a, b) :: E2).*1 -> NoDup (E1 ++ (a, b) :: E2).*2 -> forall e, e ∈ E1 \/ e ∈ E2 -> e.1 <> a /\ e.2 <> b.
Proof.
  rewrite !fmap_app, !fmap_cons, !NoDup_app, !NoDup_cons. intros (_ & D1 & N1 & _) (_ & D2 & N2 & _) e He. split; intros <-; destruct He as [He|He].
  - apply (D1 e.1); [by apply list_elem_of_fmap_2|by left].
  - by apply (list_elem_of_fmap_2 fst) in He.
  - apply (D2 e.2); [by apply list_elem_of_fmap_2|by left].
  - by apply (list_elem_of_fmap_2 snd) in He.
Qed.

(** Induction on a list two elements at a time. *)
Lemma list_ind2 {A} (P : list A -> Prop) :
  P [] -> (forall a, P [a]) -> (forall a b l, P l -> P (a :: b :: l)) -> forall l, P l.
Proof. intros H0 H1 H2. fix IH 1. intros [|a [|b l]]; [done|done|]. apply H2, IH. Qed.

(** Induction on a list three elements at a time. *)
Lemma list_ind3 {A} (P : list A -> Prop) :
  P [] -> (forall a, P [a]) -> (forall a b, P [a; b]) ->
  (forall a b c l, P l -> P (a :: b :: c :: l)) -> forall l, P l.
Proof.
  intros H0 H1 H2 H3. fix IH 1. intros [|a [|b [|c l]]]; [done|done|done|].
  apply H3, IH.
Qed.

(** ** Runs of programs that pass a state and may go wrong *)

Section Runs.
Context {S : Type}.

(** [x] returns from the state [s], and [P] holds of what it leaves. *)
Definition runs {A} (x : S -> outcome (A * S)) (s : S) (P : A -> S -> Prop) : Prop := exists a s', x s = Ret (a, s') /\ P a s'.

Lemma runs_then {A B} (x : S -> outcome (A * S)) (f : A -> S -> outcome (B * S)) s P : runs x s (fun a s' => runs (f a) s' P) -> runs (fun s => '(a, s) ← x s; f a s) s P.
Proof. intros (a & s1 & E & b & s2 & E2 & HP). exists b, s2. split; [|done]. by rewrite E. Qed.
Lemma runs_mono {A} (x : S -> outcome (A * S)) s (P P' : A -> S -> Prop) : runs x s P -> (forall a s', P a s' -> P' a s') -> runs x s P'.
Proof. intros (a & s' & E & HP) HP'. exists a, s'. auto. Qed.
Lemma runs_eq {A} (x y : S -> outcome (A * S)) s P : x s = y s -> runs y s P -> runs x s P.
Proof. intros E (a & s' & H & HP). exists a, s'. by rewrite E. Qed.
Lemma runs_is {A} (x : S -> outcome (A * S)) s a s' (P : A -> S -> Prop) : x s = Ret (a, s') -> P a s' -> runs x s P.
Proof. intros E HP. by exists a, s'. Qed.
End Runs.
