(* ===== verification/Util.v ===== *)
(** Helpers of src/util/utils.c that the other components call. *)

From S2P Require Import Prelude.

(** ** Allocation (xmalloc of src/util/utils.c)

    [malloc] of the C library is a parameter: it gives a block or [NULL]. *)

Class MallocSpec (malloc : Z -> option bytes) : Prop :=
  malloc_length : forall n mem, malloc n = Some mem -> zlen mem = n.

(** [void *xmalloc(int size)]: the argument is converted to [int], a request of
    zero bytes becomes one byte, and a failed [malloc] ends the process through
    [panic], which calls [exit(4)]. *)
Definition xmalloc (malloc : Z -> option bytes) (size : Z) : outcome bytes :=
  let size := s32 size in
  let size := if size =? 0 then size + 1 else size in
  match malloc (u64 size) with
  | Some mem => Ret mem
  | None => Exit 4
  end.

(** A heap that always has room: every request gives a zeroed block. *)
Definition demo_malloc (n : Z) : option bytes :=
  if 0 <=? n then Some (replicate (Z.to_nat n) 0) else None.

#[export] Instance demo_malloc_spec : MallocSpec demo_malloc.
Proof.
  intros n mem. unfold demo_malloc. destruct (Z.leb_spec 0 n); intros [= <-].
  rewrite zlen_replicate. lia.
Qed.

Lemma demo_malloc_total n : 0 < n < 2 ^ 31 -> is_Some (demo_malloc n).
Proof. intros. unfold demo_malloc. rewrite (proj2 (Z.leb_le 0 n)) by lia. eauto. Qed.

Lemma s32_small z : - 2 ^ 31 <= z < 2 ^ 31 -> s32 z = z.
Proof. intros. unfold s32. rewrite wrap_small; unfold in_range; lia. Qed.

Lemma xmalloc_length malloc `{MallocSpec malloc} size mem :
  0 < size < 2 ^ 31 -> xmalloc malloc size = Ret mem -> zlen mem = size.
Proof.
  intros Hs. unfold xmalloc. rewrite s32_small by lia.
  destruct (Z.eqb_spec size 0); [lia|].
  destruct (malloc _) eqn:E; intros [= <-].
  apply malloc_length in E. rewrite E. apply wrap_small. unfold in_range. lia.
Qed.

(** With room on the heap, a request below [2^31] bytes gives a block of that size. *)
Lemma xmalloc_total malloc `{MallocSpec malloc} :
  (forall n, 0 < n < 2 ^ 31 -> is_Some (malloc n)) ->
  forall n, 0 < n < 2 ^ 31 -> exists mem, xmalloc malloc n = Ret mem /\ zlen mem = n.
Proof.
  intros Hmalloc n Hn. destruct (Hmalloc n Hn) as [mem Hm].
  assert (xmalloc malloc n = Ret mem) as Hx.
  { unfold xmalloc. rewrite s32_small by lia. destruct (Z.eqb_spec n 0); [lia|].
    rewrite u64_small by lia. by rewrite Hm. }
  exists mem. split; [done|]. by eapply xmalloc_length.
Qed.
