(* ===== verification/Alloc.v ===== *)
(** What the models with a heap share: the interface to the memory allocator, with two instances, and insertion and
    removal in lists of blocks. *)

From stdpp Require Import gmap.
From S2P Require Import Prelude.

Abbreviation ptr := nat.

(** [place n used] is the answer to request [n] when the blocks [used] are in use. *)
Class Allocator := {
  place : nat -> gset ptr -> option ptr;
  place_fresh n used p : place n used = Some p -> p ∉ used
}.

(** An allocator that always has room, and one that never has. *)
Definition roomy : Allocator := {| place _ used := Some (fresh used); place_fresh := ltac:(intros ? ? ? [= <-]; apply is_fresh) |}.
Definition exhausted : Allocator := {| place _ _ := None; place_fresh := ltac:(done) |}.

(** Different blocks in use are at most as many as the blocks. *)
Lemma nodup_size {A} (N : gmap ptr A) l : NoDup l -> (forall q, q ∈ l -> is_Some (N !! q)) -> (length l <= size N)%nat.
Proof.
  intros Hnd Hl. rewrite <-size_dom, <-(size_list_to_set (C := gset ptr) l Hnd). apply subseteq_size. intros q Hq.
  apply elem_of_dom, Hl. by apply elem_of_list_to_set in Hq.
Qed.

(** ** Lists of blocks *)

Fixpoint after (a n : ptr) (l : list ptr) : list ptr := match l with [] => [] | y :: l => if decide (y = a) then y :: n :: l else y :: after a n l end.
Fixpoint before (b n : ptr) (l : list ptr) : list ptr := match l with [] => [] | y :: l => if decide (y = b) then n :: y :: l else y :: before b n l end.
Definition without (e : ptr) (l : list ptr) : list ptr := filter (fun y => y <> e) l.

(** A change of each list, which knows its head. *)
Definition each (f : ptr -> list ptr -> list ptr) (A : gmap ptr (list ptr)) : gmap ptr (list ptr) := map_imap (fun x l => Some (f x l)) A.

Lemma each_one f A x l : A !! x = Some l -> (forall y k, A !! y = Some k -> y <> x -> f y k = k) -> each f A = <[x := f x l]> A.
Proof.
  intros Hx Hother. apply map_eq. intros y. unfold each. rewrite map_lookup_imap. destruct (decide (y = x)) as [->|Hne]; [by rewrite Hx, lookup_insert_eq|]. rewrite lookup_insert_ne by done. destruct (A !! y) as [k|] eqn:Hy; [|done]. cbn. f_equal. by apply Hother.
Qed.

Lemma after_other a n l : a ∉ l -> after a n l = l.
Proof. induction l as [|y l IH]; [done|]. intros Hn. cbn. rewrite decide_False by set_solver. f_equal. apply IH. set_solver. Qed.
Lemma before_other a n l : a ∉ l -> before a n l = l.
Proof. induction l as [|y l IH]; [done|]. intros Hn. cbn. rewrite decide_False by set_solver. f_equal. apply IH. set_solver. Qed.
Lemma without_other e l : e ∉ l -> without e l = l.
Proof. intros He. apply list_filter_all, Forall_forall. intros y Hy ->. done. Qed.

Lemma after_split a n l : a ∈ l -> exists l1 l2, l = l1 ++ a :: l2 /\ after a n l = (l1 ++ [a]) ++ n :: l2.
Proof.
  induction l as [|y l IH]; [by intros ?%elem_of_nil|]. intros Ha. cbn. destruct (decide (y = a)) as [->|Hne]; [by exists [], l|]. destruct IH as (l1 & l2 & -> & ->); [set_solver|]. by exists (y :: l1), l2.
Qed.
Lemma before_split b n l : b ∈ l -> exists l1 l2, l = l1 ++ b :: l2 /\ before b n l = l1 ++ n :: b :: l2.
Proof.
  induction l as [|y l IH]; [by intros ?%elem_of_nil|]. intros Ha. cbn. destruct (decide (y = b)) as [->|Hne]; [by exists [], l|]. destruct IH as (l1 & l2 & -> & ->); [set_solver|]. by exists (y :: l1), l2.
Qed.
Lemma without_middle l1 e l2 : NoDup (l1 ++ e :: l2) -> without e (l1 ++ e :: l2) = l1 ++ l2.
Proof.
  intros (_ & Hd & [He _]%NoDup_cons)%NoDup_app. unfold without. rewrite filter_app, filter_cons, decide_False by (intros ?; by auto). f_equal; apply without_other; [|done]. intros Hin. apply (Hd e Hin). by left.
Qed.
