(* ===== verification/ListHead.v ===== *)
(** The circular doubly linked lists of include/list.h.

    A node is a block of a heap with the two pointers of [struct list_head]; a read of a pointer that was not
    set, or an access to a block that is not there, is [Undef].  An entry is the address of its node. *)

From stdpp Require Import gmap.
From S2P Require Import Prelude Alloc.

Record list_head := mk_node {
  next : option ptr;
  prev : option ptr
}.

Abbreviation heap := (gmap ptr list_head).
Definition M (A : Type) : Type := heap -> outcome (A * heap).
#[export] Instance M_ret : MRet M := fun A a h => Ret (a, h).
#[export] Instance M_bind : MBind M := fun A B f x h => '(a, h) ← x h; f a h.

Definition nxt (h : heap) (p : ptr) : option ptr := h !! p ≫= next.
Definition prv (h : heap) (p : ptr) : option ptr := h !! p ≫= prev.
Definition upd_next (p q : ptr) (h : heap) : heap := alter (fun x => mk_node (Some q) (prev x)) p h.
Definition upd_prev (p q : ptr) (h : heap) : heap := alter (fun x => mk_node (next x) (Some q)) p h.

Definition get_next (p : ptr) : M ptr := fun h => q ← of_option (nxt h p); Ret (q, h).
Definition get_prev (p : ptr) : M ptr := fun h => q ← of_option (prv h p); Ret (q, h).
Definition set_next (p q : ptr) : M () := fun h => _ ← of_option (h !! p); Ret ((), upd_next p q h).
Definition set_prev (p q : ptr) : M () := fun h => _ ← of_option (h !! p); Ret ((), upd_prev p q h).

(** ** The functions *)

Definition INIT_LIST_HEAD (list : ptr) : M () :=
  _ ← set_next list list;
  set_prev list list.

Definition __list_add (new prev next : ptr) : M () :=
  _ ← set_prev next new;
  _ ← set_next new next;
  _ ← set_prev new prev;
  set_next prev new.

Definition list_add (new head : ptr) : M () := n ← get_next head; __list_add new head n.
Definition list_add_tail (new head : ptr) : M () := p ← get_prev head; __list_add new p head.

Definition __list_del (prev next : ptr) : M () :=
  _ ← set_prev next prev;
  set_next prev next.

Definition __list_del_entry (entry : ptr) : M () := p ← get_prev entry; n ← get_next entry; __list_del p n.

Definition list_del (entry : ptr) : M () :=
  p ← get_prev entry;
  n ← get_next entry;
  _ ← __list_del p n;
  _ ← set_next entry entry;
  set_prev entry entry.

Definition list_replace (old new : ptr) : M () :=
  n ← get_next old;
  _ ← set_next new n;
  n ← get_next new;
  _ ← set_prev n new;
  p ← get_prev old;
  _ ← set_prev new p;
  p ← get_prev new;
  set_next p new.

Definition list_replace_init (old new : ptr) : M () := _ ← list_replace old new; INIT_LIST_HEAD old.
Definition list_del_init (entry : ptr) : M () := _ ← list_del entry; INIT_LIST_HEAD entry.
Definition list_move (list head : ptr) : M () := _ ← __list_del_entry list; list_add list head.
Definition list_move_tail (list head : ptr) : M () := _ ← __list_del_entry list; list_add_tail list head.

Definition list_is_last (list head : ptr) : M bool := n ← get_next list; mret (bool_decide (n = head)).
Definition list_empty (head : ptr) : M bool := n ← get_next head; mret (bool_decide (n = head)).
Definition list_empty_careful (head : ptr) : M bool :=
  n ← get_next head;
  if bool_decide (n = head) then p ← get_prev head; mret (bool_decide (n = p)) else mret false.

Definition list_rotate_left (head : ptr) : M () :=
  list_empty head ≫= fun empty : bool =>
  if negb empty then first ← get_next head; list_move_tail first head else mret ().

Definition list_is_singular (head : ptr) : M bool :=
  list_empty head ≫= fun empty : bool =>
  if negb empty then n ← get_next head; p ← get_prev head; mret (bool_decide (n = p)) else mret false.

Definition __list_cut_position (list head entry : ptr) : M () :=
  new_first ← get_next entry;
  n ← get_next head;
  _ ← set_next list n;
  n ← get_next list;
  _ ← set_prev n list;
  _ ← set_prev list entry;
  _ ← set_next entry list;
  _ ← set_next head new_first;
  set_prev new_first head.

(** The nodes that [list_for_each] and [list_for_each_prev] visit. *)
Fixpoint walk (step : ptr -> M ptr) (fuel : nat) (head pos : ptr) : M (list ptr) :=
  if bool_decide (pos = head) then mret []
  else
    match fuel with
    | O => fun _ => Undef
    | S fuel => n ← step pos; l ← walk step fuel head n; mret (pos :: l)
    end.
Definition list_for_each (fuel : nat) (head : ptr) : M (list ptr) := n ← get_next head; walk get_next fuel head n.
Definition list_for_each_prev (fuel : nat) (head : ptr) : M (list ptr) := p ← get_prev head; walk get_prev fuel head p.

(** ** Links *)

Definition link (h : heap) (e : ptr * ptr) : Prop := nxt h e.1 = Some e.2 /\ prv h e.2 = Some e.1.

Lemma nxt_upd_next h p q : is_Some (h !! p) -> nxt (upd_next p q h) p = Some q.
Proof. intros [x Hx]. unfold nxt, upd_next. by rewrite lookup_alter_eq, Hx. Qed.
Lemma nxt_upd_next_ne h p q p' : p' <> p -> nxt (upd_next p q h) p' = nxt h p'.
Proof. intros Hne. unfold nxt, upd_next. by rewrite lookup_alter_ne. Qed.
Lemma nxt_upd_prev h p q p' : nxt (upd_prev p q h) p' = nxt h p'.
Proof. unfold nxt, upd_prev. destruct (decide (p' = p)) as [->|]; [rewrite lookup_alter_eq; by destruct (h !! p)|by rewrite lookup_alter_ne]. Qed.
Lemma prv_upd_prev h p q : is_Some (h !! p) -> prv (upd_prev p q h) p = Some q.
Proof. intros [x Hx]. unfold prv, upd_prev. by rewrite lookup_alter_eq, Hx. Qed.
Lemma prv_upd_prev_ne h p q p' : p' <> p -> prv (upd_prev p q h) p' = prv h p'.
Proof. intros Hne. unfold prv, upd_prev. by rewrite lookup_alter_ne. Qed.
Lemma prv_upd_next h p q p' : prv (upd_next p q h) p' = prv h p'.
Proof. unfold prv, upd_next. destruct (decide (p' = p)) as [->|]; [rewrite lookup_alter_eq; by destruct (h !! p)|by rewrite lookup_alter_ne]. Qed.
Lemma there_upd_next h p q p' : is_Some (upd_next p q h !! p') <-> is_Some (h !! p').
Proof. unfold upd_next. rewrite lookup_alter_is_Some. done. Qed.
Lemma there_upd_prev h p q p' : is_Some (upd_prev p q h !! p') <-> is_Some (h !! p').
Proof. unfold upd_prev. rewrite lookup_alter_is_Some. done. Qed.

Lemma nxt_there h p q : nxt h p = Some q -> is_Some (h !! p).
Proof. unfold nxt. destruct (h !! p); [by eexists|done]. Qed.
Lemma prv_there h p q : prv h p = Some q -> is_Some (h !! p).
Proof. unfold prv. destruct (h !! p); [by eexists|done]. Qed.
