(* ===== verification/ListHeadMain.v ===== *)
(** What include/list.h promises: rings of nodes behave as lists, for any sequence of operations. *)

From stdpp Require Import gmap.
From S2P Require Import Prelude Alloc ListHead.

(** ** Runs *)

Lemma runs_ret {A} (a : A) h (P : A -> heap -> Prop) : P a h -> runs (mret a : M A) h P.
Proof. by apply runs_is. Qed.
Lemma runs_bind {A B} (x : M A) (f : A -> M B) h P : runs x h (fun a h' => runs (f a) h' P) -> runs (x ≫= f) h P.
Proof. apply runs_then. Qed.
Lemma runs_get_next p q h (P : ptr -> heap -> Prop) : nxt h p = Some q -> P q h -> runs (get_next p) h P.
Proof. intros E. apply runs_is. unfold get_next. by rewrite E. Qed.
Lemma runs_get_prev p q h (P : ptr -> heap -> Prop) : prv h p = Some q -> P q h -> runs (get_prev p) h P.
Proof. intros E. apply runs_is. unfold get_prev. by rewrite E. Qed.
Lemma runs_set_next p q h (P : () -> heap -> Prop) : is_Some (h !! p) -> P () (upd_next p q h) -> runs (set_next p q) h P.
Proof. intros [x E]. apply runs_is. unfold set_next. by rewrite E. Qed.
Lemma runs_set_prev p q h (P : () -> heap -> Prop) : is_Some (h !! p) -> P () (upd_prev p q h) -> runs (set_prev p q) h P.
Proof. intros [x E]. apply runs_is. unfold set_prev. by rewrite E. Qed.

Create Rewrite HintDb fields.
#[export] Hint Rewrite nxt_upd_prev prv_upd_next there_upd_next there_upd_prev : fields.

(** A field of a heap after some assignments. *)
Ltac field :=
  autorewrite with fields;
  repeat first [rewrite nxt_upd_next by (autorewrite with fields; eauto) | rewrite nxt_upd_next_ne by congruence
    | rewrite prv_upd_prev by (autorewrite with fields; eauto) | rewrite prv_upd_prev_ne by congruence | progress autorewrite with fields]; try done; eauto.

(** One step of a function. *)
Ltac run :=
  lazymatch goal with
  | |- runs (_ ≫= _) _ _ => apply runs_bind
  | |- runs (mret _) _ _ => apply runs_ret
  | |- runs (get_next _) _ _ => eapply runs_get_next; [field|]
  | |- runs (get_prev _) _ _ => eapply runs_get_prev; [field|]
  | |- runs (set_next _ _) _ _ => apply runs_set_next; [field|]
  | |- runs (set_prev _ _) _ _ => apply runs_set_prev; [field|]
  end.

(** ** Changes of a few links *)

Definition same_nodes (h h' : heap) : Prop := forall p, is_Some (h' !! p) <-> is_Some (h !! p).
#[export] Hint Resolve nxt_there prv_there : core.

Lemma add_runs n a b h (P : () -> heap -> Prop) : link h (a, b) -> is_Some (h !! n) -> n <> a -> n <> b ->
  (forall h', link h' (a, n) -> link h' (n, b) -> (forall e, link h e -> e.1 <> a -> e.1 <> n -> e.2 <> b -> e.2 <> n -> link h' e) -> same_nodes h h' -> P () h') ->
  runs (__list_add n a b) h P.
Proof.
  intros [Hn Hp] Ht Ha Hb HP. cbn [fst snd] in *. unfold __list_add. do 7 run. apply HP; unfold link, same_nodes; cbn [fst snd].
  - split; field.
  - split; field.
  - intros [c d] [E1 E2] ? ? ? ?. cbn [fst snd] in *. split; field.
  - intros p. by autorewrite with fields.
Qed.

Lemma del_runs a b h (P : () -> heap -> Prop) : is_Some (h !! a) -> is_Some (h !! b) ->
  (forall h', link h' (a, b) -> (forall p, p <> a -> nxt h' p = nxt h p) -> (forall p, p <> b -> prv h' p = prv h p) -> same_nodes h h' -> P () h') -> runs (__list_del a b) h P.
Proof.
  intros Ha Hb HP. unfold __list_del. do 3 run. apply HP; unfold link, same_nodes; cbn [fst snd].
  - split; field.
  - intros p ?. field.
  - intros p ?. field.
  - intros p. by autorewrite with fields.
Qed.

(** A node takes the place of another between its neighbours. *)
Lemma replace_runs old n a b h (P : () -> heap -> Prop) : link h (a, old) -> link h (old, b) -> old <> a -> old <> b -> is_Some (h !! n) -> n <> a -> n <> b -> n <> old ->
  (forall h', link h' (a, n) -> link h' (n, b) -> (forall e, link h e -> e.1 <> a -> e.1 <> n -> e.2 <> b -> e.2 <> n -> link h' e) -> same_nodes h h' -> P () h') -> runs (list_replace old n) h P.
Proof.
  intros [H1 H2] [H3 H4] Hoa Hob Ht Ha Hb Ho HP. cbn [fst snd] in *. unfold list_replace. do 15 run. apply HP; unfold link, same_nodes; cbn [fst snd].
  - split; field.
  - split; field.
  - intros [c d] [E1 E2] ? ? ? ?. cbn [fst snd] in *. split; field.
  - intros p. by autorewrite with fields.
Qed.
(** An empty list is replaced. *)
Lemma replace_alone old n h (P : () -> heap -> Prop) : link h (old, old) -> is_Some (h !! n) -> n <> old ->
  (forall h', link h' (n, n) -> (forall e, link h e -> e.1 <> old -> e.1 <> n -> e.2 <> old -> e.2 <> n -> link h' e) -> same_nodes h h' -> P () h') -> runs (list_replace old n) h P.
Proof.
  intros [H1 H2] Ht Ho HP. cbn [fst snd] in *. unfold list_replace. do 15 run. apply HP; unfold link, same_nodes; cbn [fst snd].
  - split; field.
  - intros [c d] [E1 E2] ? ? ? ?. cbn [fst snd] in *. split; field.
  - intros p. by autorewrite with fields.
Qed.

Lemma init_runs n h (P : () -> heap -> Prop) : is_Some (h !! n) ->
  (forall h', link h' (n, n) -> (forall e, link h e -> e.1 <> n -> e.2 <> n -> link h' e) -> same_nodes h h' -> P () h') -> runs (INIT_LIST_HEAD n) h P.
Proof.
  intros Ht HP. unfold INIT_LIST_HEAD. do 3 run. apply HP; unfold link, same_nodes; cbn [fst snd].
  - split; field.
  - intros [c d] [E1 E2] ? ?. cbn [fst snd] in *. split; field.
  - intros p. by autorewrite with fields.
Qed.

(** The ring is cut behind [entry]; its first part goes to [list]. *)
Lemma cut_runs list x entry f b h (P : () -> heap -> Prop) : link h (x, f) -> link h (entry, b) -> x <> entry -> is_Some (h !! list) -> list <> x -> list <> entry -> list <> f -> list <> b -> f <> b ->
  (forall h', link h' (list, f) -> link h' (entry, list) -> link h' (x, b) -> (forall e, link h e -> e.1 <> x -> e.1 <> entry -> e.1 <> list -> e.2 <> f -> e.2 <> b -> e.2 <> list -> link h' e) -> same_nodes h h' -> P () h') ->
  runs (__list_cut_position list x entry) h P.
Proof.
  intros [H1 H2] [H3 H4] Hxe Ht N1 N2 N3 N4 N5 HP. cbn [fst snd] in *. unfold __list_cut_position. do 17 run. apply HP; unfold link, same_nodes; cbn [fst snd].
  - split; field.
  - split; field.
  - split; field.
  - intros [c d] [E1 E2] ? ? ? ? ? ?. cbn [fst snd] in *. split; field.
  - intros p. by autorewrite with fields.
Qed.

(** ** Rings *)

(** The links of the nodes [a], ..., [l] in this order. *)
Fixpoint edges (a : ptr) (l : list ptr) : list (ptr * ptr) := match l with [] => [] | x :: l => (a, x) :: edges x l end.
Definition end_of (a : ptr) (l : list ptr) : ptr := default a (last l).
Definition ring_edges (x : ptr) (l : list ptr) : list (ptr * ptr) := edges x (l ++ [x]).

Lemma end_of_cons a x l : end_of a (x :: l) = end_of x l.
Proof. unfold end_of. destruct l as [|y l] using rev_ind; [done|]. change (x :: l ++ [y]) with ((x :: l) ++ [y]). by rewrite !last_snoc. Qed.
Lemma end_of_snoc a l x : end_of a (l ++ [x]) = x.
Proof. unfold end_of. by rewrite last_snoc. Qed.
Lemma edges_app a l k : edges a (l ++ k) = edges a l ++ edges (end_of a l) k.
Proof. revert a. induction l as [|x l IH]; intros a; [done|]. cbn. by rewrite IH, end_of_cons. Qed.
Lemma edges_snd a l : (edges a l).*2 = l.
Proof. revert a. induction l as [|x l IH]; intros a; [done|]. cbn. by rewrite IH. Qed.
Lemma edges_fst a l b : (edges a (l ++ [b])).*1 = a :: l.
Proof. revert a. induction l as [|x l IH]; intros a; [done|]. cbn in *. by rewrite IH. Qed.
Lemma ring_ends x l e : e ∈ ring_edges x l -> e.1 ∈ x :: l /\ e.2 ∈ x :: l.
Proof.
  intros He. split.
  - rewrite <-(edges_fst x l x). by apply list_elem_of_fmap_2.
  - assert (e.2 ∈ l ++ [x]) as H by (rewrite <-(edges_snd x (l ++ [x])); by apply list_elem_of_fmap_2). set_solver.
Qed.

(** The lists by their heads, and all their nodes. *)
Definition lists : Type := gmap ptr (list ptr).
Definition nodes_in (R : list (ptr * list ptr)) : list ptr := R ≫= fun xl => xl.1 :: xl.2.
Definition nodes (A : gmap ptr (list ptr)) : list ptr := nodes_in (map_to_list A).

Record rings (h : heap) (A : gmap ptr (list ptr)) : Prop := {
  rings_apart : NoDup (nodes A);
  rings_linked x l e : A !! x = Some l -> e ∈ ring_edges x l -> link h e
}.

Lemma nodes_in_perm R R' : R ≡ₚ R' -> nodes_in R ≡ₚ nodes_in R'.
Proof. intros HR. unfold nodes_in. by rewrite HR. Qed.
Lemma nodes_insert A x l : A !! x = None -> nodes (<[x := l]> A) ≡ₚ x :: l ++ nodes A.
Proof. intros Hx. unfold nodes. rewrite (nodes_in_perm _ _ (map_to_list_insert A x l Hx)). done. Qed.
Lemma nodes_split A x l : A !! x = Some l -> nodes A ≡ₚ x :: l ++ nodes (delete x A).
Proof. intros Hx. rewrite <-(insert_delete_id A x l Hx) at 1. apply nodes_insert, lookup_delete_eq. Qed.
Lemma nodes_put A x l l' : A !! x = Some l -> nodes (<[x := l']> A) ≡ₚ x :: l' ++ nodes (delete x A).
Proof. intros Hx. rewrite <-insert_delete_eq. apply nodes_insert, lookup_delete_eq. Qed.
Lemma nodes_elem A p : p ∈ nodes A <-> exists x l, A !! x = Some l /\ p ∈ x :: l.
Proof.
  unfold nodes, nodes_in. rewrite list_elem_of_bind. split.
  - intros ([x l] & Hp & Hin). exists x, l. split; [by apply elem_of_map_to_list|done].
  - intros (x & l & Hx & Hp). exists (x, l). split; [done|by apply elem_of_map_to_list].
Qed.

Lemma ring_nodup h A x l : rings h A -> A !! x = Some l -> NoDup (x :: l).
Proof. intros [Hnd _] Hx. rewrite (nodes_split A x l Hx) in Hnd. change (NoDup ((x :: l) ++ nodes (delete x A))) in Hnd. by apply NoDup_app in Hnd as (? & _). Qed.
Lemma ring_unique h A x y l k p : rings h A -> A !! x = Some l -> A !! y = Some k -> p ∈ x :: l -> p ∈ y :: k -> x = y.
Proof.
  intros [Hnd _] Hx Hy Hp Hq. destruct (decide (x = y)) as [|Hne]; [done|]. exfalso. rewrite (nodes_split A x l Hx) in Hnd. change (NoDup ((x :: l) ++ nodes (delete x A))) in Hnd. apply NoDup_app in Hnd as (_ & Hd & _).
  apply (Hd p Hp), nodes_elem. exists y, k. by rewrite lookup_delete_ne.
Qed.
Lemma rings_there h A p : rings h A -> p ∈ nodes A -> is_Some (h !! p).
Proof.
  intros [_ Hl] (x & l & Hx & Hp)%nodes_elem. rewrite <-(edges_fst x l x) in Hp. apply list_elem_of_fmap in Hp as (e & -> & He). destruct (Hl x l e Hx He). eauto.
Qed.
Lemma rings_delete h A x : rings h A -> rings h (delete x A).
Proof.
  intros Hr. destruct (A !! x) as [l|] eqn:Hx; [|by rewrite delete_id]. destruct Hr as [Hnd Hl]. split.
  - rewrite (nodes_split A x l Hx) in Hnd. change (NoDup ((x :: l) ++ nodes (delete x A))) in Hnd. by apply NoDup_app in Hnd as (_ & _ & ?).
  - intros y k e [_ Hy]%lookup_delete_Some. by apply Hl.
Qed.

(** A ring gets another list; the other rings keep their links. *)
Lemma rings_put h h' A x l l' : rings h A -> A !! x = Some l -> NoDup (x :: l') -> (forall p, p ∈ l' -> p ∈ l \/ p ∉ nodes A) -> (forall e, e ∈ ring_edges x l' -> link h' e) ->
  (forall e, link h e -> e.1 ∉ x :: l -> e.2 ∉ x :: l -> e.1 ∈ nodes A -> e.2 ∈ nodes A -> link h' e) -> rings h' (<[x := l']> A).
Proof.
  intros Hr Hx Hnd' Hin Hnew Hkeep. pose proof Hr as [Hnd Hl]. split.
  - rewrite (nodes_put A x l l' Hx). change (NoDup ((x :: l') ++ nodes (delete x A))). pose proof (nodes_split A x l Hx) as Hp. rewrite Hp in Hnd. change (NoDup ((x :: l) ++ nodes (delete x A))) in Hnd. apply NoDup_app in Hnd as (_ & Hd & Hnd). apply NoDup_app. split_and!; [done| |done].
    intros p [->|Hpl]%elem_of_cons Hpn; [apply (Hd x); [by left|done]|]. destruct (Hin p Hpl) as [?|Hno]; [apply (Hd p); [by right|done]|]. apply Hno. rewrite Hp. right. apply elem_of_app. by right.
  - intros y k e [[-> <-]|[Hne Hy]]%lookup_insert_Some He; [by apply Hnew|]. destruct (ring_ends y k e He) as [H1 H2]. apply Hkeep; [by apply (Hl y k)|..].
    + intros Hc. apply Hne. by apply (ring_unique h A x y l k e.1).
    + intros Hc. apply Hne. by apply (ring_unique h A x y l k e.2).
    + apply nodes_elem. by exists y, k.
    + apply nodes_elem. by exists y, k.
Qed.

Definition start_of (x : ptr) (l : list ptr) : ptr := default x (head l).

Lemma ring_cut x l1 l2 : exists r, l2 ++ [x] = start_of x l2 :: r /\ ring_edges x (l1 ++ l2) = edges x l1 ++ (end_of x l1, start_of x l2) :: edges (start_of x l2) r /\
  forall n, ring_edges x (l1 ++ n :: l2) = edges x l1 ++ (end_of x l1, n) :: (n, start_of x l2) :: edges (start_of x l2) r.
Proof.
  exists (tail (l2 ++ [x])). assert (l2 ++ [x] = start_of x l2 :: tail (l2 ++ [x])) as E by (by destruct l2). split; [done|]. unfold ring_edges. rewrite <-!app_assoc, edges_app. split; [by rewrite E at 1|].
  intros n. rewrite <-app_assoc, edges_app. cbn. by rewrite E at 1.
Qed.

Lemma ring_edges_nodup x l : NoDup (x :: l) -> NoDup (ring_edges x l).*1 /\ NoDup (ring_edges x l).*2.
Proof. intros Hnd. unfold ring_edges. rewrite edges_fst, edges_snd. split; [done|]. by rewrite (Permutation_app_comm l [x]). Qed.

Lemma end_of_elem x l : end_of x l ∈ x :: l.
Proof. unfold end_of. destruct l as [|y l _] using rev_ind; [by left|]. rewrite last_snoc. cbn. set_solver. Qed.
Lemma start_of_elem x l : start_of x l ∈ x :: l.
Proof. destruct l; cbn; set_solver. Qed.

(** The two links of a place in a ring. *)
Lemma place_linked h A x l1 l2 : rings h A -> A !! x = Some (l1 ++ l2) -> link h (end_of x l1, start_of x l2).
Proof. intros [_ Hl] Hx. apply (Hl x (l1 ++ l2) _ Hx). destruct (ring_cut x l1 l2) as (r & _ & -> & _). set_solver. Qed.

Lemma insert_rings h A x l1 l2 n (P : () -> heap -> Prop) : rings h A -> A !! x = Some (l1 ++ l2) -> n ∉ nodes A -> is_Some (h !! n) ->
  (forall h', rings h' (<[x := l1 ++ n :: l2]> A) -> same_nodes h h' -> P () h') -> runs (__list_add n (end_of x l1) (start_of x l2)) h P.
Proof.
  intros Hr Hx Hn Ht HP. pose proof (ring_nodup h A x _ Hr Hx) as Hnd. assert (forall p, p ∈ x :: l1 ++ l2 -> p <> n) as Hne by (intros p Hp ->; apply Hn, nodes_elem; by exists x, (l1 ++ l2)).
  pose proof (end_of_elem x l1) as Ha. pose proof (start_of_elem x l2) as Hb. assert (end_of x l1 ∈ x :: l1 ++ l2) as Ha' by set_solver. assert (start_of x l2 ∈ x :: l1 ++ l2) as Hb' by set_solver.
  eapply add_runs; [by eapply place_linked|done|intros E; by apply (Hne _ Ha')|intros E; by apply (Hne _ Hb')|]. intros h' L1 L2 Hkeep Hsame. apply HP; [|done].
  destruct (ring_cut x l1 l2) as (r & _ & E & En). destruct (ring_edges_nodup x _ Hnd) as [N1 N2]. rewrite E in N1, N2. pose proof (pairs_apart _ _ _ _ N1 N2) as Hap.
  assert (forall e, e ∈ ring_edges x (l1 ++ l2) -> e.1 <> n /\ e.2 <> n) as Hends by (intros e [H1 H2]%ring_ends; split; by apply Hne).
  eapply (rings_put h); [done|done|..].
  - apply NoDup_cons in Hnd as [Hx1 Hnd]. apply NoDup_cons. split; [|].
    + intros Hin. apply elem_of_app in Hin as [?|[->|?]%elem_of_cons]; [apply Hx1; set_solver|by apply (Hne n); [left|]|apply Hx1; set_solver].
    + rewrite <-Permutation_middle. apply NoDup_cons. split; [|done]. intros Hin. by apply (Hne n); [right|].
  - intros p Hp. destruct (decide (p = n)) as [->|]; [by right|left; set_solver].
  - intros e He. rewrite En in He. assert (e ∈ edges x l1 \/ e = (end_of x l1, n) \/ e = (n, start_of x l2) \/ e ∈ edges (start_of x l2) r) as [He'|[->|[->|He']]] by set_solver; [|done|done|].
    + destruct (Hap e ltac:(by left)). assert (e ∈ ring_edges x (l1 ++ l2)) as Hin by (rewrite E; set_solver). destruct (Hends e Hin). apply Hkeep; [by apply (rings_linked h A Hr x _ e Hx)|done..].
    + destruct (Hap e ltac:(by right)). assert (e ∈ ring_edges x (l1 ++ l2)) as Hin by (rewrite E; set_solver). destruct (Hends e Hin). apply Hkeep; [by apply (rings_linked h A Hr x _ e Hx)|done..].
  - intros e Hl H1 H2 N3 N4. apply Hkeep; [done|..]; congruence.
Qed.

(** The neighbours of an entry. *)
Lemma entry_linked h A x l1 e l2 : rings h A -> A !! x = Some (l1 ++ e :: l2) -> link h (end_of x l1, e) /\ link h (e, start_of x l2).
Proof.
  intros [_ Hl] Hx. destruct (ring_cut x l1 l2) as (r & _ & _ & En). split; apply (Hl x _ _ Hx); rewrite En; set_solver.
Qed.

Lemma remove_rings h A x l1 e l2 (P : () -> heap -> Prop) : rings h A -> A !! x = Some (l1 ++ e :: l2) ->
  (forall h', rings h' (<[x := l1 ++ l2]> A) -> same_nodes h h' -> P () h') -> runs (__list_del (end_of x l1) (start_of x l2)) h P.
Proof.
  intros Hr Hx HP. pose proof (ring_nodup h A x _ Hr Hx) as Hnd. destruct (entry_linked h A x l1 e l2 Hr Hx) as [[La _] [_ Lb]]. cbn [fst snd] in *.
  eapply del_runs; [eauto|eauto|]. intros h' L Hn Hp Hsame. apply HP; [|done]. destruct (ring_cut x l1 l2) as (r & _ & E & En). specialize (En e). destruct (ring_edges_nodup x _ Hnd) as [N1 N2]. rewrite En in N1, N2.
  assert (forall e', e' ∈ edges x l1 \/ e' ∈ edges (start_of x l2) r -> e'.1 <> end_of x l1 /\ e'.2 <> start_of x l2) as Hap.
  { intros e' He'. split; [apply (pairs_apart _ _ _ _ N1 N2 e'); set_solver|]. rewrite (cons_middle (end_of x l1, e)), app_assoc in N1, N2. apply (pairs_apart _ _ _ _ N1 N2 e'). set_solver. }
  assert (NoDup (x :: l1 ++ l2)) as Hnd'. { apply NoDup_cons in Hnd as [Hx1 Hnd]. rewrite <-Permutation_middle in Hnd. apply NoDup_cons in Hnd as [_ Hnd]. apply NoDup_cons. split; [set_solver|done]. }
  eapply (rings_put h); [done|done|done|set_solver|..].
  - intros e' He'. rewrite E in He'. assert (e' ∈ edges x l1 \/ e' = (end_of x l1, start_of x l2) \/ e' ∈ edges (start_of x l2) r) as Hc by set_solver. assert (e' = (end_of x l1, start_of x l2) \/ ((e' ∈ edges x l1 \/ e' ∈ edges (start_of x l2) r) /\ e' ∈ ring_edges x (l1 ++ e :: l2))) as [->|[Hin Hold]] by (rewrite En; set_solver); [done|].
    destruct (Hap e' Hin) as [D1 D2]. destruct (rings_linked h A Hr x _ e' Hx Hold) as [K1 K2]. split; [by rewrite Hn|by rewrite Hp].
  - intros e' [K1 K2] H1 H2 _ _. assert (end_of x l1 ∈ x :: l1) by apply end_of_elem. assert (start_of x l2 ∈ x :: l2) by apply start_of_elem. split; [rewrite Hn; [done|]|rewrite Hp; [done|]]; intros Heq; [apply H1|apply H2]; rewrite Heq; set_solver.
Qed.

Lemma unlink_rings h A x l1 e l2 (P : () -> heap -> Prop) : rings h A -> A !! x = Some (l1 ++ e :: l2) ->
  (forall h', rings h' (<[x := l1 ++ l2]> A) -> same_nodes h h' -> P () h') -> runs (__list_del_entry e) h P.
Proof.
  intros Hr Hx HP. destruct (entry_linked h A x l1 e l2 Hr Hx) as [[_ La] [Lb _]]. cbn [fst snd] in *. unfold __list_del_entry. do 4 run. by eapply remove_rings.
Qed.

(** ** Operations on lists *)

Fixpoint upto (e : ptr) (l : list ptr) : list ptr := match l with [] => [] | y :: l => if decide (y = e) then [y] else y :: upto e l end.
Fixpoint beyond (e : ptr) (l : list ptr) : list ptr := match l with [] => [] | y :: l => if decide (y = e) then l else beyond e l end.
Definition renamed (old new y : ptr) : ptr := if decide (y = old) then new else y.
Definition rotated (l : list ptr) : list ptr := match l with [] => [] | y :: l => l ++ [y] end.

Definition put_after (n a x : ptr) (l : list ptr) : list ptr := if decide (x = a) then n :: l else after a n l.
Definition put_before (n b x : ptr) (l : list ptr) : list ptr := if decide (x = b) then l ++ [n] else before b n l.

Lemma put_after_split n a x l : a ∈ x :: l -> exists l1 l2, l = l1 ++ l2 /\ end_of x l1 = a /\ put_after n a x l = l1 ++ n :: l2.
Proof.
  intros Ha. unfold put_after. destruct (decide (x = a)) as [->|Hne]; [by exists [], l|]. destruct (after_split a n l) as (l1 & l2 & -> & ->); [set_solver|]. exists (l1 ++ [a]), l2. by rewrite <-!app_assoc, end_of_snoc.
Qed.
Lemma put_before_split n b x l : b ∈ x :: l -> exists l1 l2, l = l1 ++ l2 /\ start_of x l2 = b /\ put_before n b x l = l1 ++ n :: l2.
Proof.
  intros Hb. unfold put_before. destruct (decide (x = b)) as [->|Hne]; [exists l, []; by rewrite app_nil_r|]. destruct (before_split b n l) as (l1 & l2 & -> & ->); [set_solver|]. by exists l1, (b :: l2).
Qed.
(** What may be linked in: a block that is in no list, or the head of an empty one. *)
Definition loose (A : gmap ptr (list ptr)) (p : ptr) : Prop := p ∉ nodes A \/ A !! p = Some [].
Definition entry_of (A : gmap ptr (list ptr)) (e : ptr) : Prop := exists x l, A !! x = Some l /\ e ∈ l.

Lemma loose_delete h A p : rings h A -> loose A p -> p ∉ nodes (delete p A).
Proof.
  intros [Hnd _] [Hn|Hp].
  - rewrite delete_id; [done|]. destruct (A !! p) as [l|] eqn:E; [|done]. destruct Hn. apply nodes_elem. exists p, l. split; [done|by left].
  - rewrite (nodes_split A p [] Hp) in Hnd. by apply NoDup_cons in Hnd as [? _].
Qed.
Lemma loose_other h A p q : rings h A -> loose A p -> q ∈ nodes A -> q <> p -> q ∈ nodes (delete p A).
Proof.
  intros _ Hl (x & l & Hx & Hq)%nodes_elem Hne. apply nodes_elem. exists x, l. split; [|done]. rewrite lookup_delete_ne; [done|]. intros <-. destruct Hl as [Hn|Hp]; [destruct Hn; apply nodes_elem; exists p, l; split; [done|by left]|]. assert (l = []) as -> by congruence. set_solver.
Qed.

Lemma each_put_after h A x l n a : rings h A -> A !! x = Some l -> a ∈ x :: l -> each (put_after n a) A = <[x := put_after n a x l]> A.
Proof.
  intros Hr Hx Ha. apply each_one; [done|]. intros y k Hy Hne. assert (a ∉ y :: k) as Hn by (intros Hin; apply Hne; symmetry; by eapply (ring_unique h A x y l k a)). unfold put_after. rewrite decide_False by set_solver. apply after_other. set_solver.
Qed.
Lemma each_put_before h A x l n a : rings h A -> A !! x = Some l -> a ∈ x :: l -> each (put_before n a) A = <[x := put_before n a x l]> A.
Proof.
  intros Hr Hx Ha. apply each_one; [done|]. intros y k Hy Hne. assert (a ∉ y :: k) as Hn by (intros Hin; apply Hne; symmetry; by eapply (ring_unique h A x y l k a)). unfold put_before. rewrite decide_False by set_solver. apply before_other. set_solver.
Qed.
Lemma each_without h A x l e : rings h A -> A !! x = Some l -> e ∈ l -> each (fun _ => without e) A = <[x := without e l]> A.
Proof.
  intros Hr Hx He. apply (each_one (fun _ => without e)); [done|]. intros y k Hy Hne. apply without_other. intros Hin. apply Hne. symmetry. eapply (ring_unique h A x y l k e); [done..|set_solver|set_solver].
Qed.

(** ** One operation *)

Lemma same_there h h' p : same_nodes h h' -> is_Some (h !! p) -> is_Some (h' !! p).
Proof. intros Hs Hp. by apply Hs. Qed.
Lemma same_trans h1 h2 h3 : same_nodes h1 h2 -> same_nodes h2 h3 -> same_nodes h1 h3.
Proof. intros H1 H2 p. by rewrite (H2 p), (H1 p). Qed.

Lemma rings_new h h' A p : rings h A -> p ∉ nodes A -> link h' (p, p) -> (forall e, link h e -> e.1 ∈ nodes A -> e.2 ∈ nodes A -> link h' e) -> rings h' (<[p := []]> A).
Proof.
  intros [Hnd Hl] Hp L Hkeep. assert (A !! p = None) as Hno. { destruct (A !! p) as [l|] eqn:E; [|done]. destruct Hp. apply nodes_elem. exists p, l. split; [done|by left]. } split.
  - rewrite nodes_insert by done. apply NoDup_cons. done.
  - intros y k e [[<- <-]|[Hne Hy]]%lookup_insert_Some He; [assert (e = (p, p)) as -> by (cbn in He; set_solver); done|]. destruct (ring_ends y k e He) as [H1 H2].
    apply Hkeep; [by apply (Hl y k)|..]; apply nodes_elem; by exists y, k.
Qed.

(** The head of a new list: the nodes of the others are not touched. *)
Lemma init_rings h A p (P : () -> heap -> Prop) : rings h A -> loose A p -> is_Some (h !! p) -> (forall h', rings h' (<[p := []]> A) -> same_nodes h h' -> P () h') -> runs (INIT_LIST_HEAD p) h P.
Proof.
  intros Hr Hp Ht HP. apply init_runs; [done|]. intros h' L Hkeep Hs. apply HP; [|done]. rewrite <-insert_delete_eq. pose proof (loose_delete h A p Hr Hp) as Hno. eapply (rings_new h); [by apply rings_delete|done|done|]. intros e He H1 H2. apply Hkeep; congruence.
Qed.

Lemma add_rings h A n a (P : () -> heap -> Prop) : rings h A -> loose A n -> is_Some (h !! n) -> a ∈ nodes A -> n <> a -> (forall h', rings h' (each (put_after n a) (delete n A)) -> same_nodes h h' -> P () h') -> runs (list_add n a) h P.
Proof.
  intros Hr Hn Ht Ha Hne HP. assert (rings h (delete n A)) as Hr' by (by apply rings_delete). pose proof (loose_delete h A n Hr Hn) as Hno. apply (loose_other h A n) in Ha; [|done..]. apply nodes_elem in Ha as (x & l & Hx & Ha).
  rewrite (each_put_after h _ x l n a) in HP by done. destruct (put_after_split n a x l Ha) as (l1 & l2 & -> & <- & E). rewrite E in HP. unfold list_add. run. destruct (place_linked h _ x l1 l2 Hr' Hx) as [L _]. cbn [fst snd] in L. run. by eapply insert_rings.
Qed.
Lemma add_tail_rings h A n a (P : () -> heap -> Prop) : rings h A -> loose A n -> is_Some (h !! n) -> a ∈ nodes A -> n <> a -> (forall h', rings h' (each (put_before n a) (delete n A)) -> same_nodes h h' -> P () h') -> runs (list_add_tail n a) h P.
Proof.
  intros Hr Hn Ht Ha Hne HP. assert (rings h (delete n A)) as Hr' by (by apply rings_delete). pose proof (loose_delete h A n Hr Hn) as Hno. apply (loose_other h A n) in Ha; [|done..]. apply nodes_elem in Ha as (x & l & Hx & Ha).
  rewrite (each_put_before h _ x l n a) in HP by done. destruct (put_before_split n a x l Ha) as (l1 & l2 & -> & <- & E). rewrite E in HP. unfold list_add_tail. run. destruct (place_linked h _ x l1 l2 Hr' Hx) as [_ L]. cbn [fst snd] in L. run. by eapply insert_rings.
Qed.

(** An entry leaves its list; the head of an empty list stays alone. *)
Lemma detach_rings h A e (P : () -> heap -> Prop) : rings h A -> entry_of A e \/ A !! e = Some [] ->
  (forall h', rings h' (delete e (each (fun _ => without e) A)) -> e ∉ nodes (delete e (each (fun _ => without e) A)) -> is_Some (h' !! e) -> same_nodes h h' -> P () h') ->
  runs (__list_del_entry e) h P.
Proof.
  intros Hr [(x & l & Hx & He)|Hx] HP.
  - rewrite (each_without h A x l e) in HP by done. apply list_elem_of_split in He as (l1 & l2 & ->). pose proof (ring_nodup h A x _ Hr Hx) as Hnd. pose proof (rings_apart h A Hr) as Hall. rewrite (nodes_split A x _ Hx) in Hall. rewrite without_middle in HP by (by apply NoDup_cons in Hnd as [_ ?]).
    assert (is_Some (h !! e)) as Ht. { eapply rings_there; [done|]. apply nodes_elem. exists x, (l1 ++ e :: l2). split; [done|set_solver]. }
    eapply unlink_rings; [done|done|]. intros h' Hr' Hs. assert (e ∉ nodes (<[x := l1 ++ l2]> A)) as Hno. { rewrite (nodes_put A x _ _ Hx). apply NoDup_cons in Hall as [Hx1 Hall]. rewrite <-app_assoc in Hall. cbn in Hall. rewrite <-Permutation_middle, app_assoc in Hall. apply NoDup_cons in Hall as [Hn _]. set_solver. }
    assert (<[x := l1 ++ l2]> A !! e = None) as Hnone. { destruct (<[x := l1 ++ l2]> A !! e) as [k|] eqn:E; [|done]. destruct Hno. apply nodes_elem. exists e, k. split; [done|by left]. }
    apply HP; rewrite ?delete_id by done; [done|done|by apply Hs|done].
  - assert (each (fun _ => without e) A = A) as E. { rewrite (each_one (fun _ => without e) A e []); [by apply insert_id|done|]. intros y k Hy Hne. apply without_other. intros Hin. apply Hne. symmetry. eapply (ring_unique h A e y [] k e); [done..|by left|by right]. }
    rewrite E in HP. assert (link h (e, e)) as [L1 L2] by (apply (rings_linked h A Hr e [] (e, e) Hx); by left). cbn [fst snd] in *. unfold __list_del_entry. do 4 run. apply del_runs; [eauto|eauto|]. intros h' [K1 K2] Kn Kp Hs.
    apply HP; [|by eapply loose_delete; [done|by right]|by eauto|done]. split; [by apply (rings_delete h A e Hr)|]. intros y k e' Hy He'. destruct (ring_ends y k e' He') as [D1 D2]. apply lookup_delete_Some in Hy as [Hne Hy]. destruct (rings_linked h A Hr y k e' Hy He') as [M1 M2].
    split; [rewrite Kn; [done|]|rewrite Kp; [done|]]; intros E'; apply Hne; [eapply (ring_unique h A e y [] k e'.1)|eapply (ring_unique h A e y [] k e'.2)]; rewrite ?E'; (done || by left || by rewrite <-E').
Qed.

(** [list_del] leaves the entry as an empty list. *)
Lemma list_del_parts e h : list_del e h = (_ ← __list_del_entry e; INIT_LIST_HEAD e) h.
Proof.
  unfold list_del, __list_del_entry, INIT_LIST_HEAD, mbind, M_bind. destruct (get_prev e h) as [[p h1]| |]; [|done|done]. rewrite !bind_ret_l. destruct (get_next e h1) as [[n h2]| |]; [|done|done]. rewrite !bind_ret_l. done.
Qed.
Lemma del_rings h A e (P : () -> heap -> Prop) : rings h A -> entry_of A e \/ A !! e = Some [] -> (forall h', rings h' (<[e := []]> (each (fun _ => without e) A)) -> same_nodes h h' -> P () h') -> runs (list_del e) h P.
Proof.
  intros Hr He HP. eapply runs_eq; [apply list_del_parts|]. run. eapply detach_rings; [done|done|]. intros h1 Hr1 Hno Ht Hs. eapply init_rings; [exact Hr1|by left|done|]. intros h2 Hr2 Hs2. apply HP; [|by eapply same_trans]. by rewrite insert_delete_eq in Hr2.
Qed.

Lemma detached_node h A e a : rings h A -> entry_of A e \/ A !! e = Some [] -> a ∈ nodes A -> a <> e -> a ∈ nodes (delete e (each (fun _ => without e) A)).
Proof.
  intros Hr He Ha Hne. apply nodes_elem in Ha as (x & l & Hx & Ha). apply nodes_elem. destruct (decide (x = e)) as [->|Hxe].
  - exfalso. apply elem_of_cons in Ha as [->|Ha]; [done|]. destruct He as [(y & k & Hy & He)|He]; [|assert (l = []) as -> by congruence; by apply elem_of_nil in Ha]. assert (e = y) as -> by (eapply (ring_unique h A e y l k e); [done..|by left|by right]). pose proof (ring_nodup h A y k Hr Hy) as [Hn _]%NoDup_cons. done.
  - exists x, (without e l). split; [rewrite lookup_delete_ne by done; unfold each; rewrite map_lookup_imap, Hx; done|]. apply elem_of_cons in Ha as [->|Ha]; [by left|right]. apply list_elem_of_filter. done.
Qed.
Lemma move_rings h A e a (P : () -> heap -> Prop) : rings h A -> entry_of A e \/ A !! e = Some [] -> a ∈ nodes A -> a <> e ->
  (forall h', rings h' (each (put_after e a) (delete e (each (fun _ => without e) A))) -> same_nodes h h' -> P () h') -> runs (list_move e a) h P.
Proof.
  intros Hr He Ha Hne HP. unfold list_move. run. eapply detach_rings; [done|done|]. intros h1 Hr1 Hno Ht Hs. eapply (add_rings h1 _ e a); [exact Hr1|by left|done|by eapply detached_node|done|].
  intros h2 Hr2 Hs2. apply HP; [|by eapply same_trans]. by rewrite (delete_id (delete e _) e) in Hr2 by apply lookup_delete_eq.
Qed.
Lemma move_tail_rings h A e a (P : () -> heap -> Prop) : rings h A -> entry_of A e \/ A !! e = Some [] -> a ∈ nodes A -> a <> e ->
  (forall h', rings h' (each (put_before e a) (delete e (each (fun _ => without e) A))) -> same_nodes h h' -> P () h') -> runs (list_move_tail e a) h P.
Proof.
  intros Hr He Ha Hne HP. unfold list_move_tail. run. eapply detach_rings; [done|done|]. intros h1 Hr1 Hno Ht Hs. eapply (add_tail_rings h1 _ e a); [exact Hr1|by left|done|by eapply detached_node|done|].
  intros h2 Hr2 Hs2. apply HP; [|by eapply same_trans]. by rewrite (delete_id (delete e _) e) in Hr2 by apply lookup_delete_eq.
Qed.

(** ** Replacement *)

Definition replaced (old n : ptr) (A : gmap ptr (list ptr)) : gmap ptr (list ptr) :=
  match A !! old with Some l => <[n := l]> (delete old A) | None => each (fun _ l => renamed old n <$> l) A end.

Lemma renamed_other old n (l : list ptr) : old ∉ l -> renamed old n <$> l = l.
Proof. intros Ho. induction l as [|y l IH]; [done|]. cbn. rewrite IH by set_solver. unfold renamed. by rewrite decide_False by set_solver. Qed.

(** The head of a list is replaced. *)
Lemma replace_head h A old n b m (P : () -> heap -> Prop) : rings h A -> A !! old = Some (b :: m) -> n ∉ nodes A -> is_Some (h !! n) ->
  (forall h', rings h' (<[n := b :: m]> (delete old A)) -> same_nodes h h' -> P () h') -> runs (list_replace old n) h P.
Proof.
  intros Hr Ho Hn Ht HP. pose proof (ring_nodup h A old _ Hr Ho) as Hnd. assert (forall p, p ∈ old :: b :: m -> p <> n) as Hne by (intros p Hp ->; apply Hn, nodes_elem; by exists old, (b :: m)).
  assert (forall x, ring_edges x (b :: m) = (x, b) :: edges b m ++ [(end_of b m, x)]) as Er by (intros x; unfold ring_edges; cbn; by rewrite edges_app).
  destruct (ring_edges_nodup old _ Hnd) as [N1 N2]. rewrite Er in N1, N2. pose proof (pairs_apart [] _ _ _ N1 N2) as Hap1. rewrite app_comm_cons in N1, N2. pose proof (pairs_apart _ _ _ _ N1 N2) as Hap2.
  assert (forall e, e ∈ ring_edges old (b :: m) -> link h e) as Hl by (intros e; by apply (rings_linked h A Hr)). assert (link h (end_of b m, old)) as La by (apply Hl; rewrite Er; set_solver). assert (link h (old, b)) as Lb by (apply Hl; rewrite Er; set_solver).
  pose proof (end_of_elem b m) as Hend. apply NoDup_cons in Hnd as [Hold Hnd]. eapply (replace_runs old n (end_of b m) b); [done|done|intros E; by rewrite <-E in Hend|set_solver|done|intros E; apply (Hne (end_of b m)); [by right|done]|intros E; apply (Hne b); [set_solver|done]|intros E; apply (Hne old); [by left|done]|].
  intros h' L1 L2 Hkeep Hs. apply HP; [|done]. pose proof (rings_apart h A Hr) as Hall. rewrite (nodes_split A old _ Ho) in Hall. apply NoDup_cons in Hall as [Ho1 Hall]. assert (n ∉ (b :: m) ++ nodes (delete old A)) as Hn1 by (intros Hin; apply Hn; rewrite (nodes_split A old _ Ho); by right).
  assert (delete old A !! n = None) as Hnone. { destruct (delete old A !! n) as [k|] eqn:E; [|done]. destruct Hn1. apply elem_of_app. right. apply nodes_elem. exists n, k. split; [done|by left]. } split.
  - rewrite nodes_insert by done. by apply NoDup_cons.
  - intros y k e [[<- <-]|[Hne' Hy]]%lookup_insert_Some He.
    + rewrite Er in He. assert (e = (n, b) \/ e = (end_of b m, n) \/ e ∈ edges b m) as [->|[->|Hin]] by set_solver; [done|done|]. assert (e ∈ ring_edges old (b :: m)) as Hin' by (rewrite Er; set_solver). destruct (ring_ends _ _ _ Hin') as [E1 E2]. destruct (Hap1 e ltac:(right; set_solver)), (Hap2 e ltac:(left; set_solver)).
      apply Hkeep; [by apply Hl|done|by apply Hne|done|by apply Hne].
    + destruct (ring_ends y k e He) as [E1 E2]. apply NoDup_app in Hall as (_ & Hd & _). assert (e.1 ∈ nodes (delete old A)) as I1 by (apply nodes_elem; by exists y, k). assert (e.2 ∈ nodes (delete old A)) as I2 by (apply nodes_elem; by exists y, k).
      apply Hkeep; [by apply (rings_linked h _ (rings_delete h A old Hr) y k)|intros E; apply (Hd e.1); [by rewrite E|done]|intros E; apply Hn1; rewrite <-E; set_solver|intros E; apply (Hd e.2); [rewrite E; by left|done]|intros E; apply Hn1; rewrite <-E; set_solver].
Qed.

Lemma replace_entry h A x l1 old l2 n (P : () -> heap -> Prop) : rings h A -> A !! x = Some (l1 ++ old :: l2) -> n ∉ nodes A -> is_Some (h !! n) ->
  (forall h', rings h' (<[x := l1 ++ n :: l2]> A) -> same_nodes h h' -> P () h') -> runs (list_replace old n) h P.
Proof.
  intros Hr Hx Hn Ht HP. pose proof (ring_nodup h A x _ Hr Hx) as Hnd. assert (forall p, p ∈ x :: l1 ++ old :: l2 -> p <> n) as Hne by (intros p Hp ->; apply Hn, nodes_elem; by exists x, (l1 ++ old :: l2)).
  destruct (entry_linked h A x l1 old l2 Hr Hx) as [La Lb]. pose proof (end_of_elem x l1) as Ha. pose proof (start_of_elem x l2) as Hb. pose proof Hnd as Hnd0. apply NoDup_cons in Hnd0 as [Hx1 Hnd0]. rewrite <-Permutation_middle in Hnd0. apply NoDup_cons in Hnd0 as [Ho1 Hnd0].
  destruct (ring_cut x l1 l2) as (r & _ & _ & En). destruct (ring_edges_nodup x _ Hnd) as [N1 N2]. rewrite En in N1, N2.
  assert (forall e', e' ∈ edges x l1 \/ e' ∈ edges (start_of x l2) r -> e'.1 <> end_of x l1 /\ e'.2 <> start_of x l2) as Hap.
  { intros e' He'. split; [apply (pairs_apart _ _ _ _ N1 N2 e'); set_solver|]. rewrite (cons_middle (end_of x l1, old)), app_assoc in N1, N2. apply (pairs_apart _ _ _ _ N1 N2 e'). set_solver. }
  eapply (replace_runs old n (end_of x l1) (start_of x l2)); [done|done|intros E; rewrite <-E in Ha; set_solver|intros E; rewrite <-E in Hb; set_solver|done|intros E; apply (Hne (end_of x l1)); [set_solver|done]|intros E; apply (Hne (start_of x l2)); [set_solver|done]|intros E; apply (Hne old); [set_solver|done]|].
  intros h' L1 L2 Hkeep Hs. apply HP; [|done]. eapply (rings_put h); [done|done|..].
  - apply NoDup_cons. split; [intros Hin; assert (x = n \/ x ∈ l1 ++ old :: l2) as [->|?] by set_solver; [by apply (Hne n); [left|]|done]|]. rewrite <-Permutation_middle. apply NoDup_cons. split; [|done]. intros Hin. apply (Hne n); [set_solver|done].
  - intros p Hp. destruct (decide (p = n)) as [->|]; [by right|left; set_solver].
  - intros e He. rewrite En in He. assert (e = (end_of x l1, n) \/ e = (n, start_of x l2) \/ ((e ∈ edges x l1 \/ e ∈ edges (start_of x l2) r) /\ e ∈ ring_edges x (l1 ++ old :: l2))) as [->|[->|[Hin Hold]]] by (rewrite (En old); set_solver); [done|done|].
    destruct (Hap e Hin) as [D1 D2]. destruct (ring_ends _ _ _ Hold) as [E1 E2]. apply Hkeep; [by apply (rings_linked h A Hr x _ e Hx)|done|by apply Hne|done|by apply Hne].
  - intros e Hl H1 H2 I1 I2. apply Hkeep; [done|intros E; apply H1; rewrite E; set_solver|intros E; by rewrite E in I1|intros E; apply H2; rewrite E; set_solver|intros E; by rewrite E in I2].
Qed.

Lemma replace_rings h A old n (P : () -> heap -> Prop) : rings h A -> old ∈ nodes A -> loose A n -> is_Some (h !! n) -> old <> n ->
  (forall h', rings h' (replaced old n (delete n A)) -> same_nodes h h' -> P () h') -> runs (list_replace old n) h P.
Proof.
  intros Hr Ho Hn Ht Hne HP. pose proof (loose_delete h A n Hr Hn) as Hno. apply (loose_other h A n) in Ho; [|done..]. assert (rings h (delete n A)) as Hr' by (by apply rings_delete). clear Hr. set (B := delete n A) in *. unfold replaced in HP. destruct (B !! old) as [[|b m]|] eqn:E.
  - assert (link h (old, old)) as L by (apply (rings_linked h B Hr' old [] (old, old) E); by left). eapply replace_alone; [done|done|done|]. intros h' L1 Hkeep Hs. apply HP; [|done]. pose proof (rings_apart h B Hr') as Hall. rewrite (nodes_split B old [] E) in Hall. apply NoDup_cons in Hall as [Ho1 _].
    assert (n ∉ nodes (delete old B)) as Hn1 by (intros Hin; apply Hno; rewrite (nodes_split B old [] E); by right). eapply (rings_new h); [by apply rings_delete|done|done|]. intros e He I1 I2. cbn in Ho1. apply Hkeep; congruence.
  - by eapply replace_head.
  - apply nodes_elem in Ho as (x & l & Hx & Ho). assert (x <> old) as Hxo by congruence. assert (old ∈ l) as Hol by set_solver. pose proof Hol as (l1 & l2 & ->)%list_elem_of_split. pose proof (ring_nodup h B x _ Hr' Hx) as [_ Hnd]%NoDup_cons. rewrite <-Permutation_middle in Hnd. apply NoDup_cons in Hnd as [Hol' _].
    assert (each (fun _ l => renamed old n <$> l) B = <[x := l1 ++ n :: l2]> B) as Eb.
    { rewrite (each_one (fun _ l => renamed old n <$> l) B x _ Hx).
      - f_equal. rewrite fmap_app, fmap_cons, !renamed_other by set_solver. unfold renamed. by rewrite decide_True.
      - intros y k Hy Hyx. apply renamed_other. intros Hin. apply Hyx. symmetry. eapply (ring_unique h B x y _ k old); [done|done|done|set_solver|by right]. }
    rewrite Eb in HP. by eapply replace_entry.
Qed.

(** ** Cutting *)

Lemma upto_beyond e l : e ∈ l -> exists l1 l2, l = l1 ++ e :: l2 /\ upto e l = l1 ++ [e] /\ beyond e l = l2.
Proof.
  induction l as [|y l IH]; [by intros ?%elem_of_nil|]. intros He. cbn. destruct (decide (y = e)) as [->|]; [by exists [], l|]. destruct IH as (l1 & l2 & -> & -> & ->); [set_solver|]. by exists (y :: l1), l2.
Qed.

Lemma cut_rings h A x l entry n (P : () -> heap -> Prop) : rings h A -> A !! x = Some l -> entry ∈ l -> loose A n -> n <> x -> is_Some (h !! n) ->
  (forall h', rings h' (<[n := upto entry l]> (<[x := beyond entry l]> A)) -> same_nodes h h' -> P () h') -> runs (__list_cut_position n x entry) h P.
Proof.
  intros Hr Hx He Hn Hnx Ht HP. destruct (upto_beyond entry l He) as (l1 & l2 & -> & E1 & E2). rewrite E1, E2 in HP. clear E1 E2 He. pose proof (loose_delete h A n Hr Hn) as Hno. pose proof (rings_delete h A n Hr) as Hr'. rewrite <-(insert_delete_eq (<[x := l2]> A)), delete_insert_ne in HP by done. assert (delete n A !! x = Some (l1 ++ entry :: l2)) as Hx' by (by rewrite lookup_delete_ne). clear Hx Hr Hn. set (B := delete n A) in *.
  pose proof (ring_nodup h B x _ Hr' Hx') as Hnd. assert (forall p, p ∈ x :: l1 ++ entry :: l2 -> p <> n) as Hne by (intros p Hp ->; apply Hno, nodes_elem; by exists x, (l1 ++ entry :: l2)).
  set (f := start_of entry l1). set (b := start_of x l2). destruct (ring_cut x l1 l2) as (r & Er & _ & En). specialize (En entry).
  assert (exists q, l1 ++ [entry] = f :: q) as [q Eq] by (exists (tail (l1 ++ [entry])); by destruct l1).
  assert (ring_edges x (l1 ++ entry :: l2) = (x, f) :: edges f q ++ (entry, b) :: edges b r) as Eold.
  { unfold ring_edges. rewrite <-app_assoc. cbn [app]. rewrite (cons_middle entry l1), app_assoc, Eq, Er. cbn. rewrite edges_app. f_equal. f_equal. assert (end_of f q = entry) as -> by (rewrite <-(end_of_cons x f q), <-Eq; apply end_of_snoc). done. }
  assert (f ∈ l1 ++ [entry]) as Hf by (rewrite Eq; by left). pose proof (start_of_elem x l2 : b ∈ x :: l2) as Hb. pose proof Hnd as Hnd0. apply NoDup_cons in Hnd0 as [Hx1 Hnd0]. rewrite cons_middle, app_assoc in Hnd0. pose proof Hnd0 as (Hn1 & Hd & Hn2)%NoDup_app.
  assert (forall e, e ∈ ring_edges x (l1 ++ entry :: l2) -> link h e) as Hl by (intros e; by apply (rings_linked h B Hr')).
  destruct (ring_edges_nodup x _ Hnd) as [N1 N2]. rewrite Eold in N1, N2. pose proof (pairs_apart [] _ _ _ N1 N2) as Hap1. rewrite app_comm_cons in N1, N2. pose proof (pairs_apart _ _ _ _ N1 N2) as Hap2.
  eapply (cut_runs n x entry f b); [apply Hl; rewrite Eold; set_solver|apply Hl; rewrite Eold; set_solver|set_solver|done|done|intros E; apply (Hne entry); [set_solver|done]|intros E; apply (Hne f); [set_solver|done]|intros E; apply (Hne b); [set_solver|done]|intros E; rewrite E in Hf; set_solver|].
  intros h' L1 L2 L3 Hkeep Hs. apply HP; [|done].
  assert (forall e, e ∈ ring_edges x (l1 ++ entry :: l2) -> e.1 <> n /\ e.2 <> n) as Hends by (intros e [? ?]%ring_ends; split; by apply Hne). pose proof (rings_apart h B Hr') as Hall.
  assert (<[x := l2]> B !! n = None) as Hnone. { rewrite lookup_insert_ne by done. apply lookup_delete_eq. }
  assert (nodes (<[n := l1 ++ [entry]]> (<[x := l2]> B)) ≡ₚ n :: nodes B) as Hperm.
  { rewrite nodes_insert by done. rewrite (nodes_put B x _ l2 Hx'), (nodes_split B x _ Hx'). f_equiv. rewrite <-Permutation_middle. f_equiv. rewrite <-!app_assoc. done. }
  split; [rewrite Hperm; by apply NoDup_cons|]. intros y k e [[<- <-]|[Hny [[<- <-]|[Hxy Hy]]%lookup_insert_Some]]%lookup_insert_Some Hin.
  - assert (ring_edges n (l1 ++ [entry]) = (n, f) :: edges f q ++ [(entry, n)]) as En'. { unfold ring_edges. rewrite Eq. cbn. rewrite edges_app. assert (end_of f q = entry) as -> by (rewrite <-(end_of_cons x f q), <-Eq; apply end_of_snoc). done. }
    rewrite En' in Hin. assert (e = (n, f) \/ e = (entry, n) \/ (e ∈ edges f q /\ e ∈ ring_edges x (l1 ++ entry :: l2))) as [->|[->|[Hin' Hold]]] by (rewrite Eold; set_solver); [done|done|].
    destruct (Hap1 e ltac:(right; set_solver)), (Hap2 e ltac:(left; set_solver)), (Hends e Hold). apply Hkeep; auto.
  - assert (ring_edges x l2 = (x, b) :: edges b r) as Ex by (unfold ring_edges; by rewrite Er). rewrite Ex in Hin. assert (e = (x, b) \/ (e ∈ edges b r /\ e ∈ ring_edges x (l1 ++ entry :: l2))) as [->|[Hin' Hold]] by (rewrite Eold; set_solver); [done|].
    destruct (Hap1 e ltac:(right; set_solver)), (Hap2 e ltac:(right; set_solver)), (Hends e Hold). apply Hkeep; auto.
  - destruct (ring_ends y k e Hin) as [I1 I2]. assert (forall p, p ∈ y :: k -> p ∉ x :: l1 ++ entry :: l2) as Hother by (intros p Hp Hq; apply Hxy; eapply (ring_unique h B x y _ k p); done). assert (forall p, p ∈ y :: k -> p <> n) as Hn' by (intros p Hp ->; apply Hno, nodes_elem; by exists y, k).
    apply Hkeep; [by apply (rings_linked h B Hr' y k)|..]; intros E; [apply (Hother _ I1)|apply (Hother _ I1)|by apply (Hn' _ I1)|apply (Hother _ I2)|apply (Hother _ I2)|by apply (Hn' _ I2)]; rewrite E; set_solver.
Qed.

(** ** Questions and walks *)

Lemma head_links h A x l : rings h A -> A !! x = Some l -> nxt h x = Some (start_of x l) /\ prv h x = Some (end_of x l).
Proof.
  intros Hr Hx. destruct (place_linked h A x [] l Hr Hx) as [H1 _]. assert (A !! x = Some (l ++ [])) as Hx' by (by rewrite app_nil_r). destruct (place_linked h A x l [] Hr Hx') as [_ H2]. done.
Qed.
Lemma start_is_head x l : NoDup (x :: l) -> start_of x l = x <-> l = [].
Proof. intros [Hx _]%NoDup_cons. destruct l as [|y l]; [done|]. cbn. split; [|done]. intros ->. destruct Hx. by left. Qed.
Lemma end_is_head x l : NoDup (x :: l) -> end_of x l = x <-> l = [].
Proof. intros [Hx _]%NoDup_cons. destruct l as [|y l _] using rev_ind; [done|]. rewrite end_of_snoc. split; [|by destruct l]. intros ->. destruct Hx. apply elem_of_app. right. by left. Qed.
Lemma ends_meet x l : NoDup (x :: l) -> l <> [] -> start_of x l = end_of x l <-> length l = 1%nat.
Proof.
  intros [_ Hnd]%NoDup_cons Hl. destruct l as [|y l]; [done|]. rewrite end_of_cons. cbn. destruct l as [|z l _] using rev_ind; [done|]. rewrite end_of_snoc, length_app. cbn. split; [|lia]. intros ->. apply NoDup_cons in Hnd as [Hz _]. destruct Hz. apply elem_of_app. right. by left.
Qed.

Lemma walk_next h A x l : rings h A -> A !! x = Some l -> forall k l1, l = l1 ++ k -> forall fuel P, (length k <= fuel)%nat -> P k h -> runs (walk get_next fuel x (start_of x k)) h P.
Proof.
  intros Hr Hx. pose proof (ring_nodup h A x l Hr Hx) as [Hxl _]%NoDup_cons. induction k as [|y k IH]; intros l1 E fuel P Hf HP.
  - destruct fuel; cbn; rewrite bool_decide_true by done; by run.
  - destruct fuel as [|fuel]; [cbn in Hf; lia|]. cbn. rewrite bool_decide_false by (intros ->; apply Hxl; rewrite E; set_solver). subst l. destruct (entry_linked h A x l1 y k Hr Hx) as [_ [L _]]. cbn [fst snd] in L. run. run. run. eapply (IH (l1 ++ [y])); [by rewrite <-app_assoc|cbn in Hf; lia|]. by run.
Qed.
Lemma walk_prev h A x l : rings h A -> A !! x = Some l -> forall k l2, l = k ++ l2 -> forall fuel P, (length k <= fuel)%nat -> P (reverse k) h -> runs (walk get_prev fuel x (end_of x k)) h P.
Proof.
  intros Hr Hx. pose proof (ring_nodup h A x l Hr Hx) as [Hxl _]%NoDup_cons. induction k as [|y k IH] using rev_ind; intros l2 E fuel P Hf HP.
  - destruct fuel; cbn; rewrite bool_decide_true by done; by run.
  - rewrite end_of_snoc. rewrite length_app in Hf. destruct fuel as [|fuel]; [cbn in Hf; lia|]. cbn. rewrite bool_decide_false by (intros ->; apply Hxl; rewrite E; set_solver). subst l. rewrite <-app_assoc in Hx. destruct (entry_linked h A x k y l2 Hr Hx) as [[_ L] _]. cbn [fst snd] in L. run. run. run. eapply (IH (y :: l2)); [by rewrite <-app_assoc|cbn in Hf; lia|]. run. rewrite reverse_snoc in HP. exact HP.
Qed.

(** ** Sequences of operations *)

Inductive operation :=
| Init (p : ptr)
| Add (n a : ptr)
| AddTail (n a : ptr)
| Del (e : ptr)
| DelInit (e : ptr)
| Move (e a : ptr)
| MoveTail (e a : ptr)
| Replace (old n : ptr)
| ReplaceInit (old n : ptr)
| RotateLeft (x : ptr)
| CutPosition (n x e : ptr)
| IsLast (e x : ptr)
| Empty (x : ptr)
| EmptyCareful (x : ptr)
| IsSingular (x : ptr)
| ForEach (x : ptr)
| ForEachPrev (x : ptr).

Inductive result := Done | Flag (b : bool) | Nodes (l : list ptr).

Definition quiet (x : M ()) : M result := _ ← x; mret Done.
Definition asked (x : M bool) : M result := b ← x; mret (Flag b).
Definition walked (x : M (list ptr)) : M result := l ← x; mret (Nodes l).

(** A walk visits each block at most once. *)
Definition exec (o : operation) : M result :=
  match o with
  | Init p => quiet (INIT_LIST_HEAD p)
  | Add n a => quiet (list_add n a)
  | AddTail n a => quiet (list_add_tail n a)
  | Del e => quiet (list_del e)
  | DelInit e => quiet (list_del_init e)
  | Move e a => quiet (list_move e a)
  | MoveTail e a => quiet (list_move_tail e a)
  | Replace old n => quiet (list_replace old n)
  | ReplaceInit old n => quiet (list_replace_init old n)
  | RotateLeft x => quiet (list_rotate_left x)
  | CutPosition n x e => quiet (__list_cut_position n x e)
  | IsLast e x => asked (list_is_last e x)
  | Empty x => asked (list_empty x)
  | EmptyCareful x => asked (list_empty_careful x)
  | IsSingular x => asked (list_is_singular x)
  | ForEach x => fun h => walked (list_for_each (size h) x) h
  | ForEachPrev x => fun h => walked (list_for_each_prev (size h) x) h
  end.

(** The same on lists. *)
Definition at_head (A : gmap ptr (list ptr)) (x : ptr) : list ptr := default [] (A !! x).
Definition applied (o : operation) (A : gmap ptr (list ptr)) : result * gmap ptr (list ptr) :=
  match o with
  | Init p => (Done, <[p := []]> A)
  | Add n a => (Done, each (put_after n a) (delete n A))
  | AddTail n a => (Done, each (put_before n a) (delete n A))
  | Del e => (Done, delete e (each (fun _ => without e) A))
  | DelInit e => (Done, <[e := []]> (each (fun _ => without e) A))
  | Move e a => (Done, each (put_after e a) (delete e (each (fun _ => without e) A)))
  | MoveTail e a => (Done, each (put_before e a) (delete e (each (fun _ => without e) A)))
  | Replace old n => (Done, replaced old n (delete n A))
  | ReplaceInit old n => (Done, <[old := []]> (replaced old n (delete n A)))
  | RotateLeft x => (Done, <[x := rotated (at_head A x)]> A)
  | CutPosition n x e => (Done, <[n := upto e (at_head A x)]> (<[x := beyond e (at_head A x)]> A))
  | IsLast e x => (Flag (bool_decide (end_of x (at_head A x) = e)), A)
  | Empty x | EmptyCareful x => (Flag (bool_decide (at_head A x = [])), A)
  | IsSingular x => (Flag (bool_decide (length (at_head A x) = 1%nat)), A)
  | ForEach x => (Nodes (at_head A x), A)
  | ForEachPrev x => (Nodes (reverse (at_head A x)), A)
  end.

(** What a caller must keep to: a new node is a block in no list, or the head of an empty one; an entry to be
    removed is in a list or alone; the other arguments are nodes or heads of lists.  After [Del] an entry is in an
    undefined state, as the comment of [list_del] says: it can be added or initialised, not asked. *)
Definition permitted (h : heap) (A : gmap ptr (list ptr)) (o : operation) : Prop :=
  match o with
  | Init p => loose A p /\ is_Some (h !! p)
  | Add n a | AddTail n a => loose A n /\ is_Some (h !! n) /\ a ∈ nodes A /\ n <> a
  | Del e | DelInit e => entry_of A e \/ A !! e = Some []
  | Move e a | MoveTail e a => (entry_of A e \/ A !! e = Some []) /\ a ∈ nodes A /\ a <> e
  | Replace old n | ReplaceInit old n => old ∈ nodes A /\ loose A n /\ is_Some (h !! n) /\ old <> n
  | CutPosition n x e => is_Some (A !! x) /\ e ∈ at_head A x /\ loose A n /\ n <> x /\ is_Some (h !! n)
  | IsLast e x => is_Some (A !! x) /\ e ∈ x :: at_head A x
  | RotateLeft x | Empty x | EmptyCareful x | IsSingular x | ForEach x | ForEachPrev x => is_Some (A !! x)
  end.

(** ** Refinement *)

Lemma replaced_gone h A old n : rings h A -> old ∈ nodes A -> old <> n -> n ∉ nodes A -> old ∉ nodes (replaced old n A).
Proof.
  intros Hr Ho Hne Hn. pose proof (rings_apart h A Hr) as Hall. unfold replaced. destruct (A !! old) as [l|] eqn:E.
  - rewrite (nodes_split A old l E) in Hall. apply NoDup_cons in Hall as [Ho1 _]. assert (delete old A !! n = None) as Hnone. { destruct (delete old A !! n) as [k|] eqn:E'; [|done]. destruct Hn. apply nodes_elem. apply lookup_delete_Some in E' as [_ E']. exists n, k. split; [done|by left]. } rewrite nodes_insert by done. set_solver.
  - intros (x & k & Hx & Hin)%nodes_elem. unfold each in Hx. rewrite map_lookup_imap in Hx. destruct (A !! x) as [l|] eqn:Hl; [|done]. injection Hx as <-. apply elem_of_cons in Hin as [->|(y & Ey & _)%list_elem_of_fmap]; [congruence|]. unfold renamed in Ey. destruct (decide (y = old)); congruence.
Qed.

Lemma rotate_rings h A x l (P : () -> heap -> Prop) : rings h A -> A !! x = Some l -> (forall h', rings h' (<[x := rotated l]> A) -> same_nodes h h' -> P () h') -> runs (list_rotate_left x) h P.
Proof.
  intros Hr Hx HP. pose proof (ring_nodup h A x l Hr Hx) as Hnd. destruct (head_links h A x l Hr Hx) as [Hn _]. unfold list_rotate_left, list_empty. do 4 run. destruct l as [|y l]; cbn in Hn |- *.
  - rewrite bool_decide_true by done. cbn. run. apply HP; [cbn; by rewrite insert_id|done].
  - assert (y <> x) as Hyx by (apply NoDup_cons in Hnd as [? _]; set_solver). rewrite bool_decide_false by done. cbn. do 2 run. unfold list_move_tail. run. assert (is_Some (h !! y)) as Ht. { eapply rings_there; [done|]. apply nodes_elem. exists x, (y :: l). split; [done|set_solver]. }
    eapply (unlink_rings h A x [] y l); [done|done|]. intros h1 Hr1 Hs1. cbn in Hr1. set (B := <[x := l]> A) in *. assert (y ∉ nodes B) as Hno. { unfold B. rewrite (nodes_put A x _ l Hx). pose proof (rings_apart h A Hr) as Hall. rewrite (nodes_split A x _ Hx) in Hall. apply NoDup_cons in Hall as [_ Hall]. cbn in Hall. apply NoDup_cons in Hall as [? _]. set_solver. }
    assert (B !! x = Some l) as HBx by apply lookup_insert_eq. assert (x ∈ nodes B) as HxB by (apply nodes_elem; exists x, l; split; [done|by left]).
    eapply (add_tail_rings h1 B y x); [done|by left|by apply Hs1|done|done|]. intros h2 Hr2 Hs2. apply HP; [|by eapply same_trans].
    assert (delete y B = B) as EB. { apply delete_id. destruct (B !! y) as [k|] eqn:E; [|done]. destruct Hno. apply nodes_elem. exists y, k. split; [done|by left]. }
    rewrite EB, (each_put_before h1 B x l y x) in Hr2 by (done || by left). unfold put_before in Hr2. rewrite decide_True in Hr2 by done. unfold B in Hr2. by rewrite insert_insert_eq in Hr2.
Qed.

Lemma runs_quiet (x : M ()) h (P : result -> heap -> Prop) : runs x h (fun _ h' => P Done h') -> runs (quiet x) h P.
Proof. intros Hx. unfold quiet. run. eapply runs_mono; [exact Hx|]. intros a h' HP. by run. Qed.

Lemma exec_refines h A o : rings h A -> permitted h A o -> runs (exec o) h (fun r h' => r = (applied o A).1 /\ rings h' (applied o A).2 /\ same_nodes h h').
Proof.
  intros Hr Hp. assert (forall x l, A !! x = Some l -> NoDup (x :: l) /\ nxt h x = Some (start_of x l) /\ prv h x = Some (end_of x l) /\ at_head A x = l /\ (length l <= size h)%nat) as Hhead.
  { intros x l Hx. pose proof (ring_nodup h A x l Hr Hx) as Hnd. destruct (head_links h A x l Hr Hx). split_and!; [done..|unfold at_head; by rewrite Hx|]. apply nodup_size; [by apply NoDup_cons in Hnd as [_ ?]|]. intros q Hq. eapply rings_there; [done|]. apply nodes_elem. exists x, l. split; [done|by right]. }
  assert (same_nodes h h) as Hsame by done. destruct o as [p|n a|n a|e|e|e a|e a|old n|old n|x|n x e|e x|x|x|x|x|x]; unfold exec; cbn [applied fst snd permitted] in *; try (apply runs_quiet).
  - destruct Hp. by eapply init_rings.
  - destruct Hp as (? & ? & ? & ?). by eapply add_rings.
  - destruct Hp as (? & ? & ? & ?). by eapply add_tail_rings.
  - eapply del_rings; [done|done|]. intros h1 Hr1 Hs1. apply (rings_delete h1 _ e) in Hr1. rewrite delete_insert_eq in Hr1. done.
  - unfold list_del_init. run. eapply del_rings; [done|done|]. intros h1 Hr1 Hs1. assert (is_Some (h1 !! e)) as Ht. { eapply rings_there; [exact Hr1|]. apply nodes_elem. exists e, []. split; [apply lookup_insert_eq|by left]. }
    eapply init_rings; [exact Hr1|right; apply lookup_insert_eq|done|]. intros h2 Hr2 Hs2. rewrite insert_insert_eq in Hr2. split_and!; [done|done|by eapply same_trans].
  - destruct Hp as (? & ? & ?). by eapply move_rings.
  - destruct Hp as (? & ? & ?). by eapply move_tail_rings.
  - destruct Hp as (? & ? & ? & ?). by eapply replace_rings.
  - destruct Hp as (Ho & Hn & Ht & Hne). unfold list_replace_init. run. eapply replace_rings; [done..|]. intros h1 Hr1 Hs1. assert (is_Some (h1 !! old)) as Hto by (apply Hs1; by eapply rings_there).
    eapply init_rings; [exact Hr1|left|done|]. { eapply replaced_gone; [by apply rings_delete|by eapply loose_other|done|by eapply loose_delete]. } intros h2 Hr2 Hs2. split_and!; [done|done|by eapply same_trans].
  - destruct Hp as [l Hx]. destruct (Hhead x l Hx) as (_ & _ & _ & -> & _). by eapply rotate_rings.
  - destruct Hp as ([l Hx] & He & Hn & Hnx & Ht). destruct (Hhead x l Hx) as (_ & _ & _ & El & _). rewrite El in *. by eapply cut_rings.
  - destruct Hp as [[l Hx] He]. destruct (Hhead x l Hx) as (Hnd & Hn & _ & El & _). rewrite El in *. unfold asked, list_is_last. run. run. apply elem_of_cons in He as [->|He].
    + do 3 run. split_and!; [|done|done]. f_equal. apply bool_decide_ext. by rewrite start_is_head, end_is_head.
    + pose proof He as (l1 & l2 & ->)%list_elem_of_split. destruct (entry_linked h A x l1 e l2 Hr Hx) as [_ [L _]]. cbn [fst snd] in L. do 3 run. split_and!; [|done|done]. f_equal. apply bool_decide_ext. apply NoDup_cons in Hnd as [Hx1 (_ & _ & [He2 _]%NoDup_cons)%NoDup_app].
      destruct l2 as [|y l2 _] using rev_ind; [by rewrite end_of_snoc|]. rewrite (cons_middle e), app_assoc, app_assoc, end_of_snoc. split; [intros E|intros ->; destruct He2; set_solver]. exfalso. apply Hx1. pose proof (start_of_elem x (l2 ++ [y])) as Hs. destruct l2 as [|z l2]; cbn in E; subst; set_solver.
  - destruct Hp as [l Hx]. destruct (Hhead x l Hx) as (Hnd & Hn & _ & El & _). rewrite El. unfold asked, list_empty. repeat run. split_and!; [|done|done]. f_equal. apply bool_decide_ext. by apply start_is_head.
  - destruct Hp as [l Hx]. destruct (Hhead x l Hx) as (Hnd & Hn & Hpv & El & _). rewrite El. unfold asked, list_empty_careful. repeat run. destruct (decide (start_of x l = x)) as [E|E].
    + rewrite bool_decide_true by done. repeat run. assert (l = []) as -> by (by apply (start_is_head x l)). split_and!; [by rewrite !bool_decide_true|done|done].
    + rewrite bool_decide_false by done. repeat run. split_and!; [|done|done]. rewrite bool_decide_false; [done|]. intros ->. done.
  - destruct Hp as [l Hx]. destruct (Hhead x l Hx) as (Hnd & Hn & Hpv & El & _). rewrite El. unfold asked, list_is_singular, list_empty. repeat run. destruct (decide (start_of x l = x)) as [E|E].
    + rewrite bool_decide_true by done. cbn. repeat run. assert (l = []) as -> by (by apply (start_is_head x l)). done.
    + rewrite bool_decide_false by done. cbn. repeat run. split_and!; [|done|done]. f_equal. apply bool_decide_ext. apply ends_meet; [done|]. intros ->. done.
  - destruct Hp as [l Hx]. destruct (Hhead x l Hx) as (Hnd & Hn & Hpv & El & Hsz). rewrite El. eapply (runs_eq _ (walked (list_for_each (size h) x))); [done|]. unfold walked, list_for_each. repeat run. eapply (walk_next h A x l Hr Hx l []); [done|done|]. by run.
  - destruct Hp as [l Hx]. destruct (Hhead x l Hx) as (Hnd & Hn & Hpv & El & Hsz). rewrite El. eapply (runs_eq _ (walked (list_for_each_prev (size h) x))); [done|]. unfold walked, list_for_each_prev. repeat run. eapply (walk_prev h A x l Hr Hx l []); [by rewrite app_nil_r|done|]. by run.
Qed.

Fixpoint exec_all (os : list operation) : M (list result) :=
  match os with [] => mret [] | o :: os => r ← exec o; rs ← exec_all os; mret (r :: rs) end.
Fixpoint applied_all (os : list operation) (A : gmap ptr (list ptr)) : list result * gmap ptr (list ptr) :=
  match os with [] => ([], A) | o :: os => let (r, A) := applied o A in let (rs, A) := applied_all os A in (r :: rs, A) end.
Fixpoint permitted_all (h : heap) (os : list operation) (A : gmap ptr (list ptr)) : Prop :=
  match os with [] => True | o :: os => permitted h A o /\ permitted_all h os (applied o A).2 end.

Lemma permitted_same h h' A o : same_nodes h h' -> permitted h A o -> permitted h' A o.
Proof. intros Hs. destruct o; cbn; rewrite ?(Hs _); tauto. Qed.
Lemma permitted_all_same h h' os : same_nodes h h' -> forall A, permitted_all h os A -> permitted_all h' os A.
Proof. intros Hs. induction os as [|o os IH]; intros A; [done|]. cbn. intros [Hp Hps]. split; [by eapply permitted_same|by apply IH]. Qed.

(** C10: Any sequence of the operations of list.h on nodes in any number of circular lists gives the results that
    the same operations on lists of entries give, and leaves the nodes linked as those lists say; no pointer that
    was not set is followed, and the walks end. *)
Theorem list_refines_lists os : forall h A, rings h A -> permitted_all h os A ->
  exists h', exec_all os h = Ret ((applied_all os A).1, h') /\ rings h' (applied_all os A).2.
Proof.
  induction os as [|o os IH]; intros h A Hr Hp; [by exists h|]. destruct Hp as [Hp Hps]. destruct (exec_refines h A o Hr Hp) as (r & h1 & E1 & -> & Hr1 & Hs). apply (permitted_all_same h h1) in Hps; [|done]. destruct (IH h1 _ Hr1 Hps) as (h2 & E2 & Hr2). cbn [applied_all]. destruct (applied o A) as [r A1] eqn:Eo. cbn [fst snd] in *.
  destruct (applied_all os A1) as [rs A2]. cbn [fst snd] in *. exists h2. split; [|done]. cbn [exec_all]. unfold mbind, M_bind. rewrite E1, bind_ret_l, E2, bind_ret_l. done.
Qed.

(** ** A run *)

Definition blocks : heap := list_to_map ((fun p => (p, mk_node None None)) <$> [1; 2; 3; 4]%nat).
Definition script : list operation := [Init 1; AddTail 2 1; AddTail 3 1; Add 4 1; ForEach 1; RotateLeft 1; IsLast 4 1; DelInit 3; Empty 3; Del 2; AddTail 2 1; MoveTail 2 1; ForEachPrev 1]%nat.

Lemma rings_none h : rings h ∅.
Proof. split; [constructor|]. intros x l e E. by rewrite lookup_empty in E. Qed.

Lemma script_permitted : permitted_all blocks script ∅.
Proof.
  unfold script. cbn [permitted_all permitted]. split_and!; try exact I; try (eexists; vm_compute; reflexivity); try (by apply (bool_decide_unpack _); vm_compute);
    try (left; by apply (bool_decide_unpack _); vm_compute).
Qed.

Lemma list_refines_lists_witness :
  exists h', exec_all script blocks = Ret ([Done; Done; Done; Done; Nodes [4; 2; 3]%nat; Done; Flag true; Done; Flag true; Done; Done; Done; Nodes [2; 4]%nat], h') /\ rings h' (applied_all script ∅).2.
Proof. exact (list_refines_lists script blocks ∅ (rings_none blocks) script_permitted). Defined.

(** The comment of [list_del] says that [list_empty] of the entry does not return true afterwards, but [list_del]
    makes the entry a list of its own, as [list_del_init] does. *)
Example deleted_is_empty :
  match (_ ← INIT_LIST_HEAD 1; _ ← list_add 2 1; _ ← list_del 2; list_empty 2)%nat blocks with Ret (b, _) => b | _ => false end = true.
Proof. vm_compute. reflexivity. Qed.
