(* ===== verification/Hlist.v ===== *)
(** The lists with a single head pointer of include/hlist.h.

    A node has the next node and [pprev], the address of the pointer to it: that of a head or of the node before.
    A read of a field that was not set, or an access to a block that is not there, is [Undef].  Memory barriers do
    nothing here. *)

From stdpp Require Import gmap.
From S2P Require Import Prelude Alloc.

(** An address of a pointer to a node: [&h->first] or [&n->next]. *)
Inductive place := First (h : ptr) | Next (n : ptr).
#[export] Instance place_eq_dec : EqDecision place.
Proof. solve_decision. Defined.

(** [None] is a field that was not set; a null pointer is [Some None]. *)
Record hlist_node := mk_node {
  next : option (option ptr);
  pprev : option (option place)
}.

Record mem := mk_mem {
  firsts : gmap ptr (option (option ptr));
  hnodes : gmap ptr hlist_node
}.

Definition M (A : Type) : Type := mem -> outcome (A * mem).
#[export] Instance M_ret : MRet M := fun A a h => Ret (a, h).
#[export] Instance M_bind : MBind M := fun A B f x h => '(a, h) ← x h; f a h.

(** The pointer at an address, and the address in a node. *)
Definition at_place (m : mem) (a : place) : option (option ptr) :=
  match a with First h => mjoin (firsts m !! h) | Next n => hnodes m !! n ≫= next end.
Definition back (m : mem) (n : ptr) : option (option place) := hnodes m !! n ≫= pprev.
Definition has_place (m : mem) (a : place) : Prop := match a with First h => is_Some (firsts m !! h) | Next n => is_Some (hnodes m !! n) end.
#[export] Instance has_place_dec m a : Decision (has_place m a).
Proof. destruct a; apply _. Defined.

Definition upd_place (a : place) (x : option ptr) (m : mem) : mem :=
  match a with
  | First h => mk_mem (alter (fun _ => Some x) h (firsts m)) (hnodes m)
  | Next n => mk_mem (firsts m) (alter (fun y => mk_node (Some x) (pprev y)) n (hnodes m))
  end.
Definition upd_back (n : ptr) (x : option place) (m : mem) : mem := mk_mem (firsts m) (alter (fun y => mk_node (next y) (Some x)) n (hnodes m)).

Definition load (a : place) : M (option ptr) := fun m => x ← of_option (at_place m a); Ret (x, m).
Definition store (a : place) (x : option ptr) : M () := fun m => if decide (has_place m a) then Ret ((), upd_place a x m) else Undef.
Definition get_pprev (n : ptr) : M (option place) := fun m => x ← of_option (back m n); Ret (x, m).
Definition set_pprev (n : ptr) (x : option place) : M () := fun m => _ ← of_option (hnodes m !! n); Ret ((), upd_back n x m).
(** [*p] for a pointer [p] that must not be null. *)
Definition deref {A} (o : option A) : M A := fun m => x ← of_option o; Ret (x, m).

(** ** The functions *)

Definition INIT_HLIST_HEAD (h : ptr) : M () := store (First h) None.

Definition INIT_HLIST_NODE (h : ptr) : M () :=
  _ ← store (Next h) None;
  set_pprev h None.

Definition hlist_unhashed (h : ptr) : M bool := p ← get_pprev h; mret (bool_decide (p = None)).
Definition hlist_empty (h : ptr) : M bool := f ← load (First h); mret (bool_decide (f = None)).

Definition __hlist_del (n : ptr) : M () :=
  next ← load (Next n);
  pprev ← get_pprev n;
  a ← deref pprev;
  _ ← store a next;
  match next with Some next => set_pprev next pprev | None => mret () end.

Definition hlist_del (n : ptr) : M () :=
  _ ← __hlist_del n;
  _ ← store (Next n) None;
  set_pprev n None.

Definition hlist_del_init (n : ptr) : M () :=
  hlist_unhashed n ≫= fun unhashed : bool =>
  if negb unhashed then _ ← __hlist_del n; INIT_HLIST_NODE n else mret ().

Definition hlist_replace_rcu (old new : ptr) : M () :=
  next ← load (Next old);
  _ ← store (Next new) (Some new);
  pprev ← get_pprev old;
  _ ← set_pprev new pprev;
  _ ← match next with
      | Some _ => n ← load (Next new); n ← deref n; set_pprev n (Some (Next new))
      | None => mret ()
      end;
  pprev ← get_pprev new;
  a ← deref pprev;
  _ ← store a (Some new);
  set_pprev old None.

Definition hlist_add_head (n h : ptr) : M () :=
  first ← load (First h);
  _ ← store (Next n) first;
  _ ← match first with Some first => set_pprev first (Some (Next n)) | None => mret () end;
  _ ← store (First h) (Some n);
  set_pprev n (Some (First h)).

Definition hlist_add_head_rcu (n h : ptr) : M () :=
  first ← load (First h);
  _ ← store (Next n) first;
  _ ← set_pprev n (Some (First h));
  _ ← match first with Some first => set_pprev first (Some (Next n)) | None => mret () end;
  store (First h) (Some n).

Definition hlist_add_before (n next : ptr) : M () :=
  pprev ← get_pprev next;
  _ ← set_pprev n pprev;
  _ ← store (Next n) (Some next);
  _ ← set_pprev next (Some (Next n));
  pprev ← get_pprev n;
  a ← deref pprev;
  store a (Some n).

(** [next] is added after [n]. *)
Definition hlist_add_after (n next : ptr) : M () :=
  x ← load (Next n);
  _ ← store (Next next) x;
  _ ← store (Next n) (Some next);
  _ ← set_pprev next (Some (Next n));
  x ← load (Next next);
  match x with Some x => set_pprev x (Some (Next next)) | None => mret () end.

Definition hlist_add_before_rcu (n next : ptr) : M () :=
  pprev ← get_pprev next;
  _ ← set_pprev n pprev;
  _ ← store (Next n) (Some next);
  _ ← set_pprev next (Some (Next n));
  pprev ← get_pprev n;
  a ← deref pprev;
  store a (Some n).

Definition hlist_add_after_rcu (prev n : ptr) : M () :=
  x ← load (Next prev);
  _ ← store (Next n) x;
  _ ← set_pprev n (Some (Next prev));
  _ ← store (Next prev) (Some n);
  x ← load (Next n);
  match x with Some x => set_pprev x (Some (Next n)) | None => mret () end.

(** The nodes that [hlist_for_each] visits. *)
Fixpoint walk (fuel : nat) (pos : option ptr) : M (list ptr) :=
  match pos, fuel with
  | None, _ => mret []
  | Some _, O => fun _ => Undef
  | Some pos, S fuel => n ← load (Next pos); l ← walk fuel n; mret (pos :: l)
  end.
Definition hlist_for_each (fuel : nat) (head : ptr) : M (list ptr) := first ← load (First head); walk fuel first.
