(* ===== verification/HlistMain.v ===== *)
(** What include/hlist.h promises: chains of nodes behave as lists, for any sequence of operations. *)

From stdpp Require Import gmap.
From S2P Require Import Prelude Alloc Hlist.

(** ** Runs *)

Lemma hruns_ret {A} (a : A) m (P : A -> mem -> Prop) : P a m -> runs (mret a : M A) m P.
Proof. by apply runs_is. Qed.
Lemma hruns_bind {A B} (x : M A) (f : A -> M B) m P : runs x m (fun a m' => runs (f a) m' P) -> runs (x ≫= f) m P.
Proof. apply runs_then. Qed.
Lemma hruns_load a o m (P : option ptr -> mem -> Prop) : at_place m a = Some o -> P o m -> runs (load a) m P.
Proof. intros E. apply runs_is. unfold load. by rewrite E. Qed.
Lemma hruns_store a o m (P : () -> mem -> Prop) : has_place m a -> P () (upd_place a o m) -> runs (store a o) m P.
Proof. intros E. apply runs_is. unfold store. by rewrite decide_True. Qed.
Lemma hruns_get_pprev n o m (P : option place -> mem -> Prop) : back m n = Some o -> P o m -> runs (get_pprev n) m P.
Proof. intros E. apply runs_is. unfold get_pprev. by rewrite E. Qed.
Lemma hruns_set_pprev n o m (P : () -> mem -> Prop) : has_place m (Next n) -> P () (upd_back n o m) -> runs (set_pprev n o) m P.
Proof. intros [x E]. apply runs_is. unfold set_pprev. by rewrite E. Qed.
Lemma hruns_deref {A} (x : A) m (P : A -> mem -> Prop) : P x m -> runs (deref (Some x)) m P.
Proof. by apply runs_is. Qed.

(** ** Fields *)

Lemma at_upd_place m a o : has_place m a -> at_place (upd_place a o m) a = Some o.
Proof. destruct a; cbn; intros [x E]; by rewrite lookup_alter_eq, E. Qed.
Lemma at_upd_place_ne m a o b : b <> a -> at_place (upd_place a o m) b = at_place m b.
Proof. intros Hne. destruct a as [h|n], b as [h'|n']; cbn; try done; rewrite lookup_alter_ne; congruence. Qed.
Lemma at_upd_back m n x b : at_place (upd_back n x m) b = at_place m b.
Proof. destruct b as [h|n']; [done|]. cbn. destruct (decide (n' = n)) as [->|]; [rewrite lookup_alter_eq; by destruct (hnodes m !! n)|by rewrite lookup_alter_ne]. Qed.
Lemma back_upd_back m n x : has_place m (Next n) -> back (upd_back n x m) n = Some x.
Proof. intros [y E]. unfold back. cbn. by rewrite lookup_alter_eq, E. Qed.
Lemma back_upd_back_ne m n x n' : n' <> n -> back (upd_back n x m) n' = back m n'.
Proof. intros Hne. unfold back. cbn. by rewrite lookup_alter_ne. Qed.
Lemma back_upd_place m a o n : back (upd_place a o m) n = back m n.
Proof. destruct a as [h|n']; [done|]. unfold back. cbn. destruct (decide (n = n')) as [->|]; [rewrite lookup_alter_eq; by destruct (hnodes m !! n')|by rewrite lookup_alter_ne]. Qed.
Lemma has_upd_place m a o b : has_place (upd_place a o m) b <-> has_place m b.
Proof. destruct a, b; cbn; rewrite ?lookup_alter_is_Some; done. Qed.
Lemma has_upd_back m n x b : has_place (upd_back n x m) b <-> has_place m b.
Proof. destruct b; cbn; rewrite ?lookup_alter_is_Some; done. Qed.
Lemma at_has m a o : at_place m a = Some o -> has_place m a.
Proof. destruct a as [h|n]; cbn; [destruct (firsts m !! h)|destruct (hnodes m !! n)]; done || by eexists. Qed.
Lemma back_has m n o : back m n = Some o -> has_place m (Next n).
Proof. unfold back. cbn. destruct (hnodes m !! n); done || by eexists. Qed.
#[export] Hint Resolve at_has back_has : core.

Create Rewrite HintDb hfields.
#[export] Hint Rewrite at_upd_back back_upd_place has_upd_place has_upd_back : hfields.
Ltac hfield :=
  autorewrite with hfields;
  repeat first [rewrite at_upd_place by (autorewrite with hfields; eauto) | rewrite at_upd_place_ne by congruence
    | rewrite back_upd_back by (autorewrite with hfields; eauto) | rewrite back_upd_back_ne by congruence | progress autorewrite with hfields]; try done; eauto.
Ltac hrun :=
  lazymatch goal with
  | |- runs (_ ≫= _) _ _ => apply hruns_bind
  | |- runs (mret _) _ _ => apply hruns_ret
  | |- runs (load _) _ _ => eapply hruns_load; [hfield|]
  | |- runs (store _ _) _ _ => apply hruns_store; [hfield|]
  | |- runs (get_pprev _) _ _ => eapply hruns_get_pprev; [hfield|]
  | |- runs (set_pprev _ _) _ _ => apply hruns_set_pprev; [hfield|]
  | |- runs (deref (Some _)) _ _ => apply hruns_deref
  | |- runs (match Some _ with Some _ => _ | None => _ end) _ _ => cbv iota
  | |- runs (match None with Some _ => _ | None => _ end) _ _ => cbv iota
  end.

(** ** Changes of a few links *)

(** The pointer at [e.1] is [e.2], and the node there points back. *)
Definition hlink (m : mem) (e : place * option ptr) : Prop := at_place m e.1 = Some e.2 /\ match e.2 with Some n => back m n = Some (Some e.1) | None => True end.
Definition same_places (m m' : mem) : Prop := forall a, has_place m' a <-> has_place m a.

(** The node [n] was linked in between the place [a] and what is at it. *)
Definition spliced (m m' : mem) (a : place) (n : ptr) (o : option ptr) : Prop :=
  hlink m' (a, Some n) /\ hlink m' (Next n, o) /\ (forall e, hlink m e -> e.1 <> a -> e.1 <> Next n -> (forall x, e.2 = Some x -> Some x <> o /\ x <> n) -> hlink m' e) /\
  (forall p, back m p = Some None -> p <> n -> Some p <> o -> back m' p = Some None) /\ same_places m m'.

Ltac splices :=
  unfold spliced, hlink, same_places; cbn [fst snd];
  split; [split; hfield|]; split; [split; hfield|]; split; [intros [c [d|]] [? ?] ? ? Hd; cbn [fst snd] in *; [destruct (Hd d eq_refl)|]; split; hfield|];
  split; [intros p ? ? ?; hfield | intros b; by autorewrite with hfields].

Lemma add_head_spliced n h o m (P : () -> mem -> Prop) : hlink m (First h, o) -> has_place m (Next n) -> Some n <> o -> (forall m', spliced m m' (First h) n o -> P () m') ->
  runs (hlist_add_head n h) m P /\ runs (hlist_add_head_rcu n h) m P.
Proof.
  intros [H1 H2] Ht Hne HP. cbn [fst snd] in *. split; [unfold hlist_add_head|unfold hlist_add_head_rcu]; destruct o as [f|]; repeat hrun; apply HP; splices.
Qed.

Lemma add_before_spliced n x a m (P : () -> mem -> Prop) : hlink m (a, Some x) -> has_place m (Next n) -> n <> x -> a <> Next n -> (forall m', spliced m m' a n (Some x) -> P () m') ->
  runs (hlist_add_before n x) m P /\ runs (hlist_add_before_rcu n x) m P.
Proof. intros [H1 H2] Ht Hne Ha HP. cbn [fst snd] in *. split; [unfold hlist_add_before|unfold hlist_add_before_rcu]; repeat hrun; apply HP; splices. Qed.

Lemma add_after_spliced x n o m (P : () -> mem -> Prop) : hlink m (Next x, o) -> has_place m (Next n) -> n <> x -> Some n <> o -> (forall m', spliced m m' (Next x) n o -> P () m') ->
  runs (hlist_add_after x n) m P /\ runs (hlist_add_after_rcu x n) m P.
Proof. intros [H1 H2] Ht Hne Ho HP. cbn [fst snd] in *. split; [unfold hlist_add_after|unfold hlist_add_after_rcu]; destruct o as [f|]; repeat hrun; apply HP; splices. Qed.

(** The node [n] was taken out; its fields are as before. *)
Definition bypassed (m m' : mem) (a : place) (n : ptr) (o : option ptr) : Prop :=
  hlink m' (a, o) /\ (forall e, hlink m e -> e.1 <> a -> (forall x, e.2 = Some x -> Some x <> o) -> hlink m' e) /\ (forall p, back m p = Some None -> Some p <> o -> back m' p = Some None) /\ same_places m m'.

Lemma del_bypassed n a o m (P : () -> mem -> Prop) : hlink m (a, Some n) -> hlink m (Next n, o) -> a <> Next n -> (forall m', bypassed m m' a n o -> P () m') -> runs (__hlist_del n) m P.
Proof.
  intros [H1 H2] [H3 H4] Ha HP. cbn [fst snd] in *. unfold __hlist_del. destruct o as [f|]; repeat hrun; apply HP; unfold bypassed, hlink, same_places; cbn [fst snd].
  all: split; [split; hfield|]; split; [intros [c [d|]] [? ?] ? Hd; cbn [fst snd] in *; [pose proof (Hd d eq_refl)|]; split; hfield|]; split; [intros p ? ?; hfield|intros b; by autorewrite with hfields].
Qed.

(** ** Lists *)

(** The links of a list from the place [a] on, and those between its nodes. *)
Fixpoint edges (a : place) (l : list ptr) : list (place * option ptr) := match l with [] => [(a, None)] | x :: l => (a, Some x) :: edges (Next x) l end.
Fixpoint chain (a : place) (l : list ptr) : list (place * option ptr) := match l with [] => [] | x :: l => (a, Some x) :: chain (Next x) l end.
Definition spot (a : place) (l : list ptr) : place := match last l with Some y => Next y | None => a end.
Definition rest (l : list ptr) : list (place * option ptr) := match l with [] => [] | x :: l => edges (Next x) l end.

Lemma spot_cons a x l : spot a (x :: l) = spot (Next x) l.
Proof. unfold spot. destruct l as [|y l] using rev_ind; [done|]. change (x :: l ++ [y]) with ((x :: l) ++ [y]). by rewrite !last_snoc. Qed.
Lemma spot_snoc a l x : spot a (l ++ [x]) = Next x.
Proof. unfold spot. by rewrite last_snoc. Qed.
Lemma edges_cut a l1 l2 : edges a (l1 ++ l2) = chain a l1 ++ (spot a l1, head l2) :: rest l2.
Proof. revert a. induction l1 as [|x l1 IH]; intros a; [by destruct l2|]. cbn. by rewrite IH, spot_cons. Qed.
Lemma hedges_fst a l : (edges a l).*1 = a :: (Next <$> l).
Proof. revert a. induction l as [|x l IH]; intros a; [done|]. cbn. by rewrite IH. Qed.
Lemma hedges_snd a l : (edges a l).*2 = (Some <$> l) ++ [None].
Proof. revert a. induction l as [|x l IH]; intros a; [done|]. cbn. by rewrite IH. Qed.
Lemma edges_ends h l e : e ∈ edges (First h) l -> (e.1 = First h \/ exists p, e.1 = Next p /\ p ∈ l) /\ (e.2 = None \/ exists p, e.2 = Some p /\ p ∈ l).
Proof.
  intros He. split.
  - apply (list_elem_of_fmap_2 fst) in He. rewrite hedges_fst in He. apply elem_of_cons in He as [->|(p & -> & Hp)%list_elem_of_fmap]; [by left|right; by exists p].
  - apply (list_elem_of_fmap_2 snd) in He. rewrite hedges_snd in He. apply elem_of_app in He as [(p & -> & Hp)%list_elem_of_fmap| ->%list_elem_of_singleton]; [right; by exists p|by left].
Qed.
Lemma edges_nodup h l : NoDup l -> NoDup (edges (First h) l).*1 /\ NoDup (edges (First h) l).*2.
Proof.
  intros Hnd. rewrite hedges_fst, hedges_snd. split.
  - apply NoDup_cons. split; [by intros (p & E & _)%list_elem_of_fmap|]. apply NoDup_fmap; [by intros ? ? [= ->]|done].
  - apply NoDup_app. split_and!; [apply NoDup_fmap; [by intros ? ? [= ->]|done]| |apply NoDup_singleton]. by intros o (p & -> & _)%list_elem_of_fmap ?%list_elem_of_singleton.
Qed.

Definition members (A : gmap ptr (list ptr)) : list ptr := map_to_list A ≫= snd.

(** The lists [A] by their heads, and nodes [U] that are in no list and say so. *)
Record hlists (m : mem) (A : gmap ptr (list ptr)) (U : gset ptr) : Prop := {
  hl_apart : NoDup (members A);
  hl_linked h l e : A !! h = Some l -> e ∈ edges (First h) l -> hlink m e;
  hl_unhashed p : p ∈ U -> back m p = Some None /\ p ∉ members A
}.

Lemma members_insert A h l : A !! h = None -> members (<[h := l]> A) ≡ₚ l ++ members A.
Proof. intros Hh. unfold members. by rewrite (map_to_list_insert A h l Hh). Qed.
Lemma members_split A h l : A !! h = Some l -> members A ≡ₚ l ++ members (delete h A).
Proof. intros Hh. rewrite <-(insert_delete_id A h l Hh) at 1. apply members_insert, lookup_delete_eq. Qed.
Lemma members_put A h l l' : A !! h = Some l -> members (<[h := l']> A) ≡ₚ l' ++ members (delete h A).
Proof. intros Hh. rewrite <-insert_delete_eq. apply members_insert, lookup_delete_eq. Qed.
Lemma members_elem A p : p ∈ members A <-> exists h l, A !! h = Some l /\ p ∈ l.
Proof.
  unfold members. rewrite list_elem_of_bind. split.
  - intros ([h l] & Hp & Hin). exists h, l. split; [by apply elem_of_map_to_list|done].
  - intros (h & l & Hh & Hp). exists (h, l). split; [done|by apply elem_of_map_to_list].
Qed.
Lemma list_nodup m A U h l : hlists m A U -> A !! h = Some l -> NoDup l.
Proof. intros [Hnd _ _] Hh. rewrite (members_split A h l Hh) in Hnd. by apply NoDup_app in Hnd as (? & _). Qed.
Lemma list_unique m A U h g l k p : hlists m A U -> A !! h = Some l -> A !! g = Some k -> p ∈ l -> p ∈ k -> h = g.
Proof.
  intros [Hnd _ _] Hh Hg Hp Hq. destruct (decide (h = g)) as [|Hne]; [done|]. exfalso. rewrite (members_split A h l Hh) in Hnd. apply NoDup_app in Hnd as (_ & Hd & _). apply (Hd p Hp), members_elem. exists g, k. by rewrite lookup_delete_ne.
Qed.

(** A list changes; the others keep their links. *)
Lemma hlists_put m m' A U U' h l l' : hlists m A U -> A !! h = Some l -> NoDup l' -> (forall p, p ∈ l' -> p ∈ l \/ p ∉ members A) -> (forall e, e ∈ edges (First h) l' -> hlink m' e) ->
  (forall e, hlink m e -> e.1 <> First h -> (forall p, e.1 = Next p -> p ∈ members A /\ p ∉ l) -> (forall p, e.2 = Some p -> p ∈ members A /\ p ∉ l) -> hlink m' e) ->
  (forall p, p ∈ U' -> back m' p = Some None /\ p ∉ l' /\ (p ∈ l \/ p ∉ members A)) -> hlists m' (<[h := l']> A) U'.
Proof.
  intros Hr Hh Hnd' Hin Hnew Hkeep HU. pose proof Hr as [Hnd Hl _]. pose proof (members_split A h l Hh) as Hp. rewrite Hp in Hnd. apply NoDup_app in Hnd as (_ & Hd & Hnd). assert (forall p, p ∈ members (delete h A) -> p ∈ members A) as Hsub by (intros p Hq; rewrite Hp; set_solver). split.
  - rewrite (members_put A h l l' Hh). apply NoDup_app. split_and!; [done| |done]. intros p Hpl Hpn. destruct (Hin p Hpl) as [?|Hno]; [by apply (Hd p)|]. by apply Hno, Hsub.
  - intros g k e [[-> <-]|[Hne Hg]]%lookup_insert_Some He; [by apply Hnew|]. destruct (edges_ends g k e He) as [H1 H2]. assert (forall p, p ∈ k -> p ∈ members A /\ p ∉ l) as Hk. { intros p Hpk. split; [apply members_elem; by exists g, k|]. intros Hpl. apply Hne. by eapply (list_unique m A U h g l k p). }
    apply Hkeep; [by apply (Hl g k)|..].
    + destruct H1 as [->|(p & -> & _)]; [congruence|done].
    + intros p E. destruct H1 as [E'|(p' & E' & ?)]; [congruence|]. assert (p' = p) as <- by congruence. by apply Hk.
    + intros p E. destruct H2 as [E'|(p' & E' & ?)]; [congruence|]. assert (p' = p) as <- by congruence. by apply Hk.
  - intros p (Hb & Hnl & Hc)%HU. split; [done|]. rewrite (members_put A h l l' Hh), elem_of_app. intros [?|Hq]; [done|]. destruct Hc as [?|Hc]; [by apply (Hd p)|by apply Hc, Hsub].
Qed.

Lemma spot_linked m A U h l1 l2 : hlists m A U -> A !! h = Some (l1 ++ l2) -> hlink m (spot (First h) l1, head l2).
Proof. intros Hr Hh. apply (hl_linked m A U Hr h _ _ Hh). rewrite edges_cut. set_solver. Qed.
Lemma spot_elem h l p : spot (First h) l = Next p -> p ∈ l.
Proof. unfold spot. destruct (last l) as [y|] eqn:E; [|done]. intros [= ->]. apply last_Some in E as [l' ->]. set_solver. Qed.
Lemma head_elem (l : list ptr) p : Some p = head l -> p ∈ l.
Proof. destruct l; [done|]. intros [= ->]. by left. Qed.

(** The other links of a list are apart from the one that changes. *)
Lemma edges_apart h l1 l2 : NoDup (l1 ++ l2) -> forall e, e ∈ chain (First h) l1 \/ e ∈ rest l2 -> e.1 <> spot (First h) l1 /\ e.2 <> head l2.
Proof. intros Hnd. destruct (edges_nodup h _ Hnd) as [N1 N2]. rewrite edges_cut in N1, N2. by apply pairs_apart. Qed.

Lemma insert_hlists m m' A U h l1 l2 n : hlists m A U -> A !! h = Some (l1 ++ l2) -> n ∉ members A -> spliced m m' (spot (First h) l1) n (head l2) -> hlists m' (<[h := l1 ++ n :: l2]> A) (U ∖ {[n]}).
Proof.
  intros Hr Hh Hn (L1 & L2 & Hkeep & Hback & _). pose proof (list_nodup m A U h _ Hr Hh) as Hnd. assert (forall p, p ∈ l1 ++ l2 -> p <> n) as Hne by (intros p Hp ->; apply Hn, members_elem; by exists h, (l1 ++ l2)). eapply (hlists_put m); [done|done|..].
  - rewrite <-Permutation_middle. apply NoDup_cons. split; [|done]. intros Hin. by apply (Hne n).
  - intros p Hp. destruct (decide (p = n)) as [->|]; [by right|left; set_solver].
  - intros e He. rewrite edges_cut in He. cbn [rest head] in He. assert (rest (n :: l2) = (Next n, head l2) :: rest l2) as Er by (by destruct l2). change (edges (Next n) l2) with (rest (n :: l2)) in He. rewrite Er in He.
    assert (e = (spot (First h) l1, Some n) \/ e = (Next n, head l2) \/ ((e ∈ chain (First h) l1 \/ e ∈ rest l2) /\ e ∈ edges (First h) (l1 ++ l2))) as [->|[->|[Hin Hold]]] by (rewrite edges_cut; set_solver); [done|done|].
    destruct (edges_apart h l1 l2 Hnd e Hin) as [D1 D2]. destruct (edges_ends h _ e Hold) as [E1 E2]. apply Hkeep; [by apply (hl_linked m A U Hr h _ e Hh)|done|..].
    + intros E. destruct E1 as [E'|(p & E' & Hp)]; [congruence|]. apply (Hne p Hp). congruence.
    + intros x E. split; [congruence|]. destruct E2 as [E'|(p & E' & Hp)]; [congruence|]. assert (p = x) as <- by congruence. by apply Hne.
  - intros e Hl H1 H2 H3. apply Hkeep; [done|..].
    + intros E. destruct (spot (First h) l1) as [g|p] eqn:Es; [unfold spot in Es; destruct (last l1); congruence|]. apply (H2 p E). apply spot_elem in Es. set_solver.
    + intros E. by destruct (H2 n E).
    + intros x E. destruct (H3 x E) as [Hx Hx']. split; [|congruence]. intros Ho%head_elem. set_solver.
  - intros p [HpU Hpn]%elem_of_difference. apply not_elem_of_singleton in Hpn. destruct (hl_unhashed m A U Hr p HpU) as [Hb Hpm]. assert (p ∉ l1 ++ l2) as Hpl by (intros Hin; apply Hpm, members_elem; by exists h, (l1 ++ l2)). split_and!; [|set_solver|by right]. apply Hback; [done|done|]. intros E%head_elem. set_solver.
Qed.

Lemma remove_hlists m m' A U h l1 n l2 : hlists m A U -> A !! h = Some (l1 ++ n :: l2) -> bypassed m m' (spot (First h) l1) n (head l2) -> hlists m' (<[h := l1 ++ l2]> A) U.
Proof.
  intros Hr Hh (L & Hkeep & Hback & _). pose proof (list_nodup m A U h _ Hr Hh) as Hnd. pose proof Hnd as Hnd'. rewrite <-Permutation_middle in Hnd'. apply NoDup_cons in Hnd' as [Hn Hnd'].
  assert (edges (First h) (l1 ++ n :: l2) = chain (First h) l1 ++ (spot (First h) l1, Some n) :: (Next n, head l2) :: rest l2) as Eold by (rewrite edges_cut; by destruct l2).
  eapply (hlists_put m); [done|done|done|set_solver|..].
  - intros e He. rewrite edges_cut in He. assert (e = (spot (First h) l1, head l2) \/ ((e ∈ chain (First h) l1 \/ e ∈ rest l2) /\ e ∈ edges (First h) (l1 ++ n :: l2))) as [->|[Hin Hold]] by (rewrite Eold; set_solver); [done|].
    destruct (edges_apart h l1 l2 Hnd' e Hin) as [D1 D2]. apply Hkeep; [by apply (hl_linked m A U Hr h _ e Hh)|done|congruence].
  - intros e Hl H1 H2 H3. apply Hkeep; [done|..].
    + intros E. destruct (spot (First h) l1) as [g|p] eqn:Es; [unfold spot in Es; destruct (last l1); congruence|]. apply (H2 p E). apply spot_elem in Es. set_solver.
    + intros x E Ho%head_elem. destruct (H3 x E) as [_ Hx]. set_solver.
  - intros p HpU. destruct (hl_unhashed m A U Hr p HpU) as [Hb Hpm]. assert (p ∉ l1 ++ n :: l2) as Hpl by (intros Hin; apply Hpm, members_elem; by exists h, (l1 ++ n :: l2)). split_and!; [|set_solver|by right]. apply Hback; [done|]. intros E%head_elem. set_solver.
Qed.

(** ** One operation *)

Lemma same_places_trans m1 m2 m3 : same_places m1 m2 -> same_places m2 m3 -> same_places m1 m3.
Proof. intros H1 H2 a. by rewrite (H2 a), (H1 a). Qed.
Lemma member_there m A U p : hlists m A U -> p ∈ members A -> has_place m (Next p).
Proof. intros Hr (h & l & Hh & Hp)%members_elem. pose proof Hp as (l1 & l2 & ->)%list_elem_of_split. destruct (spot_linked m A U h l1 _ Hr Hh) as [_ Hb]. cbn in Hb. by eapply back_has. Qed.

Lemma node_cleared m A U n (P : () -> mem -> Prop) : hlists m A U -> n ∉ members A -> has_place m (Next n) -> (forall m', hlists m' A (U ∪ {[n]}) -> same_places m m' -> P () m') -> runs (INIT_HLIST_NODE n) m P.
Proof.
  intros [Hnd Hl HU] Hn Ht HP. unfold INIT_HLIST_NODE. repeat hrun. apply HP; [|intros b; by autorewrite with hfields]. split; [done|..].
  - intros h l e Hh He. destruct (Hl h l e Hh He) as [L1 L2]. destruct (edges_ends h l e He) as [E1 E2]. assert (forall p, p ∈ l -> p <> n) as Hne by (intros p Hp ->; apply Hn, members_elem; by exists h, l). assert (e.1 <> Next n) as Hs. { intros E. destruct E1 as [E'|(p & E' & Hp)]; [congruence|]. apply (Hne p Hp). congruence. }
    split; [hfield|]. destruct E2 as [E'|(p & E' & Hp)]; rewrite E' in *; [done|]. assert (p <> n) by (by apply Hne). hfield.
  - intros p [Hp|Hp%elem_of_singleton]%elem_of_union; [destruct (HU p Hp) as [Hb Hm]|subst p]; (split; [|done]); [destruct (decide (p = n)) as [->|]; hfield|hfield].
Qed.

Lemma hinit_rings m A U h (P : () -> mem -> Prop) : hlists m A U -> A !! h = None \/ A !! h = Some [] -> has_place m (First h) -> (forall m', hlists m' (<[h := []]> A) U -> same_places m m' -> P () m') -> runs (INIT_HLIST_HEAD h) m P.
Proof.
  intros [Hnd Hl HU] Hh Ht HP. unfold INIT_HLIST_HEAD. hrun. apply HP; [|intros b; by autorewrite with hfields]. assert (members (<[h := []]> A) ≡ₚ members A) as Hm by (destruct Hh as [Hh|Hh]; [by rewrite members_insert|by rewrite insert_id]). split.
  - by rewrite Hm.
  - intros g k e [[<- <-]|[Hne Hg]]%lookup_insert_Some He; [apply list_elem_of_singleton in He as ->; split; [cbn [fst snd]; hfield|done]|]. destruct (Hl g k e Hg He) as [L1 L2]. destruct (edges_ends g k e He) as [E1 _]. assert (e.1 <> First h) by (destruct E1 as [->|(p & -> & _)]; congruence). split; [hfield|]. destruct e.2; hfield.
  - intros p Hp. destruct (HU p Hp) as [Hb Hn]. split; [hfield|by rewrite Hm].
Qed.

Lemma each_other m A U h l n f : hlists m A U -> A !! h = Some l -> n ∈ l -> (forall k, n ∉ k -> f k = k) -> each (fun _ => f) A = <[h := f l]> A.
Proof. intros Hr Hh Hn Hf. apply (each_one (fun _ => f)); [done|]. intros g k Hg Hne. apply Hf. intros Hin. apply Hne. symmetry. by eapply (list_unique m A U h g l k n). Qed.

Lemma unlink_hlists m A U n (P : () -> mem -> Prop) : hlists m A U -> n ∈ members A -> (forall m', hlists m' (each (fun _ => without n) A) U -> n ∉ members (each (fun _ => without n) A) -> same_places m m' -> P () m') -> runs (__hlist_del n) m P.
Proof.
  intros Hr (h & l & Hh & Hn)%members_elem HP. rewrite (each_other m A U h l n (without n) Hr Hh Hn) in HP by (intros k; apply without_other). pose proof (list_nodup m A U h l Hr Hh) as Hnd. pose proof Hn as (l1 & l2 & ->)%list_elem_of_split. rewrite without_middle in HP by done.
  pose proof Hnd as Hnd'. rewrite <-Permutation_middle in Hnd'. apply NoDup_cons in Hnd' as [Hn' _]. assert (hlink m (Next n, head l2)) as L2. { apply (hl_linked m A U Hr h _ _ Hh). rewrite edges_cut. cbn. destruct l2; set_solver. }
  eapply (del_bypassed n (spot (First h) l1) (head l2)); [exact (spot_linked m A U h l1 (n :: l2) Hr Hh)|done|intros E%spot_elem; set_solver|]. intros m' Hb. apply HP; [by eapply remove_hlists| |apply Hb].
  rewrite (members_put A h _ _ Hh). pose proof (hl_apart m A U Hr) as Hall. rewrite (members_split A h _ Hh) in Hall. apply NoDup_app in Hall as (_ & Hd & _). specialize (Hd n Hn). set_solver.
Qed.

(** ** Sequences of operations *)

(** The flag chooses the variant for concurrent readers. *)
Inductive operation :=
| InitHead (h : ptr)
| InitNode (n : ptr)
| AddHead (rcu : bool) (n h : ptr)
| AddBefore (rcu : bool) (n x : ptr)
| AddAfter (rcu : bool) (x n : ptr)
| Del (n : ptr)
| DelInit (n : ptr)
| Unhashed (n : ptr)
| Empty (h : ptr)
| ForEach (h : ptr).

Inductive result := Done | Flag (b : bool) | Nodes (l : list ptr).
Definition quiet (x : M ()) : M result := _ ← x; mret Done.

Definition exec (o : operation) : M result :=
  match o with
  | InitHead h => quiet (INIT_HLIST_HEAD h)
  | InitNode n => quiet (INIT_HLIST_NODE n)
  | AddHead rcu n h => quiet (if rcu then hlist_add_head_rcu n h else hlist_add_head n h)
  | AddBefore rcu n x => quiet (if rcu then hlist_add_before_rcu n x else hlist_add_before n x)
  | AddAfter rcu x n => quiet (if rcu then hlist_add_after_rcu x n else hlist_add_after x n)
  | Del n => quiet (hlist_del n)
  | DelInit n => quiet (hlist_del_init n)
  | Unhashed n => b ← hlist_unhashed n; mret (Flag b)
  | Empty h => b ← hlist_empty h; mret (Flag b)
  | ForEach h => fun m => (l ← hlist_for_each (size (hnodes m)) h; mret (Nodes l)) m
  end.

(** The same on lists [A] and a set [U] of nodes that are marked as being in no list. *)
Definition at_head (A : gmap ptr (list ptr)) (h : ptr) : list ptr := default [] (A !! h).
Definition applied (o : operation) (S : gmap ptr (list ptr) * gset ptr) : result * (gmap ptr (list ptr) * gset ptr) :=
  let (A, U) := S in
  match o with
  | InitHead h => (Done, (<[h := []]> A, U))
  | InitNode n => (Done, (A, U ∪ {[n]}))
  | AddHead _ n h => (Done, (<[h := n :: at_head A h]> A, U ∖ {[n]}))
  | AddBefore _ n x => (Done, (each (fun _ => before x n) A, U ∖ {[n]}))
  | AddAfter _ x n => (Done, (each (fun _ => after x n) A, U ∖ {[n]}))
  | Del n | DelInit n => (Done, (each (fun _ => without n) A, U ∪ {[n]}))
  | Unhashed n => (Flag (bool_decide (n ∉ members A)), S)
  | Empty h => (Flag (bool_decide (at_head A h = [])), S)
  | ForEach h => (Nodes (at_head A h), S)
  end.

Definition permitted (m : mem) (S : gmap ptr (list ptr) * gset ptr) (o : operation) : Prop :=
  let (A, U) := S in
  match o with
  | InitHead h => (A !! h = None \/ A !! h = Some []) /\ has_place m (First h)
  | InitNode n => n ∉ members A /\ has_place m (Next n)
  | AddHead _ n h => n ∉ members A /\ has_place m (Next n) /\ is_Some (A !! h)
  | AddBefore _ n x | AddAfter _ x n => n ∉ members A /\ has_place m (Next n) /\ x ∈ members A
  | Del n => n ∈ members A
  | DelInit n | Unhashed n => n ∈ members A \/ n ∈ U
  | Empty h | ForEach h => is_Some (A !! h)
  end.

(** ** Refinement *)

Lemma hruns_quiet (x : M ()) m (P : result -> mem -> Prop) : runs x m (fun _ m' => P Done m') -> runs (quiet x) m P.
Proof. intros Hx. unfold quiet. hrun. eapply runs_mono; [exact Hx|]. intros a m' HP. by hrun. Qed.

Lemma hwalk_list m A U h l : hlists m A U -> A !! h = Some l -> forall k l1, l = l1 ++ k -> forall fuel P, (length k <= fuel)%nat -> P k m -> runs (walk fuel (head k)) m P.
Proof.
  intros Hr Hh. induction k as [|x k IH]; intros l1 E fuel P Hf HP; [destruct fuel; cbn; by hrun|]. destruct fuel as [|fuel]; [cbn in Hf; lia|]. cbn. subst l. assert (A !! h = Some ((l1 ++ [x]) ++ k)) as Hh' by (by rewrite <-app_assoc). destruct (spot_linked m A U h _ k Hr Hh') as [L _]. rewrite spot_snoc in L. cbn [fst snd] in L.
  hrun. hrun. hrun. eapply (IH (l1 ++ [x])); [by rewrite <-app_assoc|cbn in Hf; lia|]. by hrun.
Qed.

Lemma hexec_refines m A U o : hlists m A U -> permitted m (A, U) o ->
  runs (exec o) m (fun r m' => r = (applied o (A, U)).1 /\ hlists m' (applied o (A, U)).2.1 (applied o (A, U)).2.2 /\ same_places m m').
Proof.
  intros Hr Hp. assert (same_places m m) as Hsame by done. destruct o as [h|n|rcu n h|rcu n x|rcu x n|n|n|n|h|h]; cbn [exec applied permitted fst snd] in *; try apply hruns_quiet.
  - destruct Hp. by eapply hinit_rings.
  - destruct Hp. by eapply node_cleared.
  - destruct Hp as (Hn & Ht & [l Hh]). unfold at_head. rewrite Hh. cbn. pose proof (spot_linked m A U h [] l Hr Hh) as L. assert (Some n <> head l) as Hne by (intros E%head_elem; apply Hn, members_elem; by exists h, l).
    destruct (add_head_spliced n h (head l) m (fun _ m' => Done = Done /\ hlists m' (<[h := n :: l]> A) (U ∖ {[n]}) /\ same_places m m') L Ht Hne) as [R1 R2]; [|by destruct rcu]. intros m' Hs. split_and!; [done|by eapply (insert_hlists m m' A U h [] l)|apply Hs].
  - destruct Hp as (Hn & Ht & Hx). apply members_elem in Hx as (h & l & Hh & Hx). rewrite (each_other m A U h l x (before x n) Hr Hh Hx) by (intros k; apply before_other). destruct (before_split x n l Hx) as (l1 & l2 & -> & ->). pose proof (spot_linked m A U h l1 (x :: l2) Hr Hh) as L.
    assert (forall p, p ∈ l1 ++ x :: l2 -> p <> n) as Hne by (intros p Hp ->; apply Hn, members_elem; by exists h, (l1 ++ x :: l2)).
    destruct (add_before_spliced n x (spot (First h) l1) m (fun _ m' => Done = Done /\ hlists m' (<[h := l1 ++ n :: x :: l2]> A) (U ∖ {[n]}) /\ same_places m m') L Ht) as [R1 R2]; [intros E; apply (Hne x); [set_solver|done]|intros E%spot_elem; apply (Hne n); [set_solver|done]| |by destruct rcu].
    intros m' Hs. split_and!; [done|by eapply (insert_hlists m m' A U h l1 (x :: l2))|apply Hs].
  - destruct Hp as (Hn & Ht & Hx). apply members_elem in Hx as (h & l & Hh & Hx). rewrite (each_other m A U h l x (after x n) Hr Hh Hx) by (intros k; apply after_other). destruct (after_split x n l Hx) as (l1 & l2 & -> & ->). rewrite (cons_middle x l1 l2), app_assoc in Hh.
    pose proof (spot_linked m A U h (l1 ++ [x]) l2 Hr Hh) as L. rewrite spot_snoc in L. assert (forall p, p ∈ (l1 ++ [x]) ++ l2 -> p <> n) as Hne by (intros p Hp ->; apply Hn, members_elem; by exists h, ((l1 ++ [x]) ++ l2)).
    destruct (add_after_spliced x n (head l2) m (fun _ m' => Done = Done /\ hlists m' (<[h := (l1 ++ [x]) ++ n :: l2]> A) (U ∖ {[n]}) /\ same_places m m') L Ht) as [R1 R2]; [intros E; apply (Hne x); [set_solver|done]|intros E%head_elem; apply (Hne n); [set_solver|done]| |by destruct rcu].
    intros m' Hs. split_and!; [done|eapply (insert_hlists m m' A U h (l1 ++ [x]) l2); [done..|by rewrite spot_snoc]|apply Hs].
  - pose proof (member_there m A U n Hr Hp) as Ht. unfold hlist_del. hrun. eapply unlink_hlists; [done|done|]. intros m1 Hr1 Hn1 Hs1. change (runs (INIT_HLIST_NODE n) m1 (fun _ m' => Done = Done /\ hlists m' (each (fun _ => without n) A) (U ∪ {[n]}) /\ same_places m m')).
    eapply node_cleared; [done|done|by apply Hs1|]. intros m2 Hr2 Hs2. split_and!; [done|done|by eapply same_places_trans].
  - unfold hlist_del_init, hlist_unhashed. destruct (decide (n ∈ members A)) as [Hn|Hn].
    + pose proof (member_there m A U n Hr Hn) as Ht. pose proof Hn as (h & l & Hh & Hin)%members_elem. apply list_elem_of_split in Hin as (l1 & l2 & ->). destruct (spot_linked m A U h l1 (n :: l2) Hr Hh) as [_ Hb]. cbn in Hb. do 4 hrun. rewrite bool_decide_false by done. cbn. hrun. eapply unlink_hlists; [done|done|]. intros m1 Hr1 Hn1 Hs1. eapply node_cleared; [done|done|by apply Hs1|]. intros m2 Hr2 Hs2. split_and!; [done|done|by eapply same_places_trans].
    + destruct Hp as [?|HU]; [done|]. destruct (hl_unhashed m A U Hr n HU) as [Hb _]. do 4 hrun. rewrite bool_decide_true by done. cbn. hrun. assert (each (fun _ => without n) A = A) as ->. { apply map_eq. intros g. unfold each. rewrite map_lookup_imap. destruct (A !! g) as [k|] eqn:Hg; [|done]. cbn. f_equal. apply without_other. intros Hin. apply Hn, members_elem. by exists g, k. }
      assert (U ∪ {[n]} = U) as -> by set_solver. done.
  - unfold hlist_unhashed. hrun. destruct (decide (n ∈ members A)) as [Hn|Hn].
    + pose proof Hn as (h & l & Hh & Hin)%members_elem. apply list_elem_of_split in Hin as (l1 & l2 & ->). destruct (spot_linked m A U h l1 (n :: l2) Hr Hh) as [_ Hb]. cbn in Hb. repeat hrun. split_and!; [|done|done]. f_equal. rewrite bool_decide_false by done. symmetry. apply bool_decide_eq_false. tauto.
    + destruct Hp as [?|HU]; [done|]. destruct (hl_unhashed m A U Hr n HU) as [Hb _]. repeat hrun. split_and!; [|done|done]. f_equal. by rewrite !bool_decide_true.
  - destruct Hp as [l Hh]. unfold at_head. rewrite Hh. cbn. destruct (spot_linked m A U h [] l Hr Hh) as [L _]. cbn [fst snd spot last] in L. unfold hlist_empty. repeat hrun. split_and!; [|done|done]. f_equal. apply bool_decide_ext. by destruct l.
  - destruct Hp as [l Hh]. unfold at_head. rewrite Hh. cbn. destruct (spot_linked m A U h [] l Hr Hh) as [L _]. cbn [fst snd spot last] in L. eapply (runs_eq _ (l ← hlist_for_each (size (hnodes m)) h; mret (Nodes l))); [done|]. unfold hlist_for_each. repeat hrun. eapply (hwalk_list m A U h l Hr Hh l []); [done| |by hrun].
    apply nodup_size; [by eapply list_nodup|]. intros q Hq. apply (member_there m A U q Hr), members_elem. by exists h, l.
Qed.

Fixpoint exec_all (os : list operation) : M (list result) :=
  match os with [] => mret [] | o :: os => r ← exec o; rs ← exec_all os; mret (r :: rs) end.
Fixpoint applied_all (os : list operation) (S : gmap ptr (list ptr) * gset ptr) : list result * (gmap ptr (list ptr) * gset ptr) :=
  match os with [] => ([], S) | o :: os => let (r, S) := applied o S in let (rs, S) := applied_all os S in (r :: rs, S) end.
Fixpoint permitted_all (m : mem) (os : list operation) (S : gmap ptr (list ptr) * gset ptr) : Prop :=
  match os with [] => True | o :: os => permitted m S o /\ permitted_all m os (applied o S).2 end.

Lemma hpermitted_same m m' os : same_places m m' -> forall S, permitted_all m os S -> permitted_all m' os S.
Proof.
  intros Hs. induction os as [|o os IH]; intros S; [done|]. cbn. intros [Hp Hps]. split; [|by apply IH]. destruct S as [A U]. pose proof (fun a => proj2 (Hs a)) as Hs'. destruct o; cbn [permitted] in *; intuition eauto.
Qed.

(** C11: Any sequence of the operations of hlist.h on nodes in any number of lists gives the results that the same
    operations on lists give, and leaves each pointer and each address of a pointer as those lists say; no null
    pointer and no pointer that was not set is followed, and the walks end.  Replacement is left out: it breaks the
    list ([replacement_loops], [replacement_lost]). *)
Theorem hlist_refines_lists os : forall m A U, hlists m A U -> permitted_all m os (A, U) ->
  exists m', exec_all os m = Ret ((applied_all os (A, U)).1, m') /\ hlists m' (applied_all os (A, U)).2.1 (applied_all os (A, U)).2.2.
Proof.
  induction os as [|o os IH]; intros m A U Hr Hp; [by exists m|]. destruct Hp as [Hp Hps]. destruct (hexec_refines m A U o Hr Hp) as (r & m1 & E1 & -> & Hr1 & Hs). apply (hpermitted_same m m1) in Hps; [|done]. cbn [applied_all]. destruct (applied o (A, U)) as [r [A1 U1]] eqn:Eo. cbn [fst snd] in *.
  destruct (IH m1 A1 U1 Hr1 Hps) as (m2 & E2 & Hr2). destruct (applied_all os (A1, U1)) as [rs S2]. cbn [fst snd] in *. exists m2. split; [|done]. cbn [exec_all]. unfold mbind, M_bind. rewrite E1, bind_ret_l, E2, bind_ret_l. done.
Qed.

(** ** Runs *)

Definition blocks : mem := mk_mem (list_to_map [(1%nat, None)]) (list_to_map ((fun p => (p, mk_node None None)) <$> [1; 2; 3; 4]%nat)).
Definition script : list operation := [InitHead 1; AddHead false 2 1; AddAfter false 2 3; AddBefore true 4 3; ForEach 1; Del 4; Unhashed 4; Unhashed 3; DelInit 2; DelInit 2; ForEach 1; Empty 1]%nat.

Lemma hlists_none m : hlists m ∅ ∅.
Proof. split; [constructor|intros h l e E; by rewrite lookup_empty in E|set_solver]. Qed.
Lemma hscript_permitted : permitted_all blocks script (∅, ∅).
Proof.
  unfold script. cbn [permitted_all permitted]. split_and!; try exact I; try (eexists; vm_compute; reflexivity); try (by apply (bool_decide_unpack _); vm_compute); try (left; vm_compute; reflexivity); try (left; by apply (bool_decide_unpack _); vm_compute); try (right; by apply (bool_decide_unpack _); vm_compute).
Qed.
Lemma hlist_refines_lists_witness :
  exists m', exec_all script blocks = Ret ([Done; Done; Done; Done; Nodes [2; 4; 3]%nat; Done; Flag true; Flag false; Done; Done; Nodes [3]%nat; Flag false], m') /\ hlists m' (applied_all script (∅, ∅)).2.1 (applied_all script (∅, ∅)).2.2.
Proof. exact (hlist_refines_lists script blocks ∅ ∅ (hlists_none blocks) hscript_permitted). Defined.

(** [hlist_replace_rcu] makes the new node its own successor.  In the place of the last node of a list it is a loop,
    so that a walk over the list never ends; in the place of another node it is not linked in at all: the stores
    meant for the neighbours go to the new node itself, and the old node stays in the list, marked as unhashed. *)
Definition replaced (x : ptr) : mem :=
  match (_ ← INIT_HLIST_HEAD 1; _ ← hlist_add_head 2 1; _ ← hlist_add_head 3 1; hlist_replace_rcu x 4)%nat blocks with Ret (_, m) => m | _ => blocks end.
Lemma walk_loop m n : at_place m (Next n) = Some (Some n) -> forall fuel, walk fuel (Some n) m = Undef.
Proof. intros E. induction fuel as [|fuel IH]; [done|]. cbn [walk]. unfold mbind, M_bind, load. rewrite E. cbn. by rewrite IH. Qed.
Example replacement_loops fuel : hlist_for_each fuel 1 (replaced 2) = Undef.
Proof.
  unfold hlist_for_each, mbind, M_bind, load. replace (at_place (replaced 2) (First 1)) with (Some (Some 3%nat)) by (vm_compute; reflexivity). cbn. destruct fuel as [|fuel]; [done|]. cbn [walk]. unfold mbind, M_bind, load.
  replace (at_place (replaced 2) (Next 3)) with (Some (Some 4%nat)) by (vm_compute; reflexivity). cbn. rewrite walk_loop; [done|]. vm_compute. reflexivity.
Qed.
Example replacement_lost : hlist_for_each 4 1 (replaced 3) = Ret ([3; 2]%nat, replaced 3) /\ hlist_unhashed 3 (replaced 3) = Ret (true, replaced 3).
Proof. by vm_compute. Qed.
