(* ===== verification/Ring.v ===== *)
(** Ring buffers: what the two-part copies of a circular buffer read and write.

    Both circular buffers of the repository (src/fifo/fifo.c and the BlueZ ring
    buffer) copy a run of bytes that may wrap as two [memcpy] calls, one up to the
    end of the storage and one from its start.  This file gives those copies once,
    with the lemmas that relate them to the logical contents of the ring. *)

From S2P Require Import Prelude.

(** Copy [len] bytes of [src] into the ring [buf] at offset [pos]: [l] bytes up to
    the end of the storage, the rest at its start. *)
Definition ring_put (buf : bytes) (pos : Z) (src : bytes) (l len : Z) : outcome bytes :=
  d1 ← mem_read src 0 l;
  buf1 ← mem_write buf pos d1;
  d2 ← mem_read src l (len - l);
  mem_write buf1 0 d2.

(** Copy [len] bytes of the ring [buf] from offset [pos] to the start of [dst]. *)
Definition ring_get (buf : bytes) (pos : Z) (dst : bytes) (l len : Z) : outcome bytes :=
  d1 ← mem_read buf pos l;
  dst1 ← mem_write dst 0 d1;
  d2 ← mem_read buf 0 (len - l);
  mem_write dst1 l d2.

(** The [n] bytes of the ring from the free-running index [start] on. *)
Definition ring_window (buf : bytes) (start n : Z) : bytes :=
  (fun i => buf !!! Z.to_nat ((start + Z.of_nat i) mod zlen buf)) <$> seq 0 (Z.to_nat n).

Lemma ring_window_length buf start n : length (ring_window buf start n) = Z.to_nat n.
Proof. unfold ring_window. by rewrite length_fmap, length_seq. Qed.

Lemma ring_window_lookup buf start n i :
  0 < zlen buf -> (i < Z.to_nat n)%nat ->
  ring_window buf start n !! i = buf !! Z.to_nat ((start + Z.of_nat i) mod zlen buf).
Proof.
  intros Hb Hi. unfold ring_window.
  rewrite list_lookup_fmap, lookup_seq_lt by done. cbn.
  symmetry. apply list_lookup_lookup_total_lt.
  pose proof (Z.mod_pos_bound (start + Z.of_nat i) (zlen buf) Hb). zlia.
Qed.

(** The window only depends on the start index modulo the capacity. *)
Lemma ring_window_mod buf s1 s2 n :
  s1 mod zlen buf = s2 mod zlen buf -> ring_window buf s1 n = ring_window buf s2 n.
Proof.
  intros H. unfold ring_window. apply list_fmap_ext. intros i j _. do 2 f_equal.
  rewrite <-Zplus_mod_idemp_l, H. apply Zplus_mod_idemp_l.
Qed.

Lemma ring_window_drop buf start n k :
  0 < zlen buf -> 0 <= k <= n ->
  drop (Z.to_nat k) (ring_window buf start n) = ring_window buf (start + k) (n - k).
Proof.
  intros Hb Hk. apply list_eq_len.
  - rewrite length_drop, !ring_window_length. lia.
  - intros i Hi. rewrite length_drop, ring_window_length in Hi.
    rewrite lookup_drop, !ring_window_lookup by lia. do 3 f_equal. lia.
Qed.

Section ring.
Context (buf : bytes) (pos len l : Z).
Context (Hpos : 0 <= pos < zlen buf) (Hlen : 0 <= len <= zlen buf).
Context (Hl : l = Z.min len (zlen buf - pos)).

Lemma ring_put_ok src :
  len <= zlen src ->
  exists buf', ring_put buf pos src l len = Ret buf' /\ length buf' = length buf /\
    forall p, (p < length buf)%nat ->
      buf' !! p = let d := (Z.of_nat p - pos) mod zlen buf in
                  if decide (d < len) then src !! Z.to_nat d else buf !! p.
Proof.
  intros Hsrc. unfold ring_put.
  rewrite (mem_read_ok src 0), (mem_read_ok src l) by zlia. cbn -[take drop].
  destruct (mem_write buf pos _) as [buf1| |] eqn:E1.
  2,3: rewrite mem_write_ok in E1 by zlia; done.
  cbn -[take drop].
  pose proof (mem_write_len _ _ _ _ E1) as L1.
  destruct (mem_write buf1 0 _) as [buf2| |] eqn:E2.
  2,3: rewrite mem_write_ok in E2 by zlia; done.
  exists buf2. split; [done|]. pose proof (mem_write_len _ _ _ _ E2).
  split; [lia|]. intros p Hp. cbn zeta.
  rewrite mod_wrap_below by zlia.
  rewrite (mem_write_lookup _ _ _ _ _ E2), (mem_write_lookup _ _ _ _ _ E1).
  autorewrite with zlen.
  repeat case_decide; destruct (Z.leb_spec 0 (Z.of_nat p - pos)); try zlia; try done.
  - rewrite lookup_take_lt, lookup_drop by lia. f_equal. lia.
  - rewrite lookup_take_lt, lookup_drop by lia. f_equal. lia.
Qed.

Lemma ring_get_ok dst :
  len <= zlen dst ->
  ring_get buf pos dst l len = Ret (ring_window buf pos len ++ drop (Z.to_nat len) dst).
Proof.
  intros Hdst. unfold ring_get.
  rewrite (mem_read_ok buf pos), (mem_read_ok buf 0) by zlia. cbn -[take drop].
  destruct (mem_write dst 0 _) as [dst1| |] eqn:E1.
  2,3: rewrite mem_write_ok in E1 by zlia; done.
  cbn -[take drop].
  pose proof (mem_write_len _ _ _ _ E1) as L1.
  destruct (mem_write dst1 l _) as [dst2| |] eqn:E2.
  2,3: rewrite mem_write_ok in E2 by zlia; done.
  f_equal. pose proof (mem_write_len _ _ _ _ E2) as L2. apply list_eq_len.
  { rewrite length_app, ring_window_length, length_drop. zlia. }
  intros i Hi.
  rewrite (mem_write_lookup _ _ _ _ _ E2), (mem_write_lookup _ _ _ _ _ E1).
  autorewrite with zlen.
  destruct (decide (Z.of_nat i < len)).
  - rewrite lookup_app_l by (rewrite ring_window_length; lia).
    rewrite ring_window_lookup by lia. rewrite mod_wrap_once by lia.
    repeat case_decide; destruct (Z.ltb_spec (pos + Z.of_nat i) (zlen buf)); try zlia.
    all: rewrite lookup_take_lt, lookup_drop by lia; f_equal; lia.
  - rewrite lookup_app_r, ring_window_length, lookup_drop by (rewrite ring_window_length; lia).
    repeat case_decide; try zlia. f_equal. lia.
Qed.
End ring.

(** Writing [len] bytes after the [n] bytes of a window extends the window. *)
Lemma ring_put_window buf start n src len :
  0 < zlen buf -> 0 <= n -> 0 <= len <= zlen src -> n + len <= zlen buf ->
  let pos := (start + n) mod zlen buf in
  exists buf', ring_put buf pos src (Z.min len (zlen buf - pos)) len = Ret buf' /\
    length buf' = length buf /\
    ring_window buf' start (n + len) = ring_window buf start n ++ take (Z.to_nat len) src.
Proof.
  intros Hb Hn Hlen Hcap pos.
  pose proof (Z.mod_pos_bound (start + n) (zlen buf) Hb) as Hpos. fold pos in Hpos.
  destruct (ring_put_ok buf pos len _ Hpos ltac:(lia) eq_refl src ltac:(lia))
    as (buf' & Hput & Hlen' & Hlook).
  exists buf'. split_and!; [done..|].
  assert (zlen buf' = zlen buf) as Hz by zlia.
  apply list_eq_len.
  { rewrite length_app, !ring_window_length, length_take. zlia. }
  intros i Hi. rewrite ring_window_length in Hi.
  rewrite ring_window_lookup, Hz by zlia.
  pose proof (Z.mod_pos_bound (start + Z.of_nat i) (zlen buf) Hb).
  rewrite Hlook by zlia. cbn zeta. rewrite Z2Nat.id by lia.
  unfold pos. rewrite <-Zminus_mod.
  replace (start + Z.of_nat i - (start + n)) with (Z.of_nat i - n) by lia.
  rewrite mod_wrap_below by lia.
  destruct (Z.leb_spec 0 (Z.of_nat i - n)).
  - rewrite lookup_app_r by (rewrite ring_window_length; lia).
    rewrite ring_window_length, lookup_take_lt by lia.
    case_decide; [|lia]. f_equal. lia.
  - rewrite lookup_app_l by (rewrite ring_window_length; lia).
    rewrite ring_window_lookup by lia. case_decide; [lia|done].
Qed.
