(* ===== verification/Fifo.v ===== *)
(** The kernel-style byte FIFO of src/fifo/fifo.c and include/fifo.h.

    [kfifo] is the C structure; every operation of the header and of the C file is
    a definition with the machine arithmetic written out.  [contents] is the
    logical content of a FIFO, and the theorems show that the operations implement
    a bounded byte queue for every position of the free-running 32-bit indices,
    wrap-around included, with every [memcpy] in bounds. *)

From S2P Require Import Prelude Util Ring.

Record kfifo := mk_kfifo {
  buffer : bytes;   (* the buffer holding the data *)
  size : Z;         (* the size of the allocated buffer *)
  in_ : Z;          (* data is added at offset (in % size) *)
  out : Z;          (* data is extracted from off. (out % size) *)
  lock : Z          (* address of the lock; the lock macros expand to nothing *)
}.

(** ** Operations *)

(** [unsigned long n]. *)
Definition is_power_of_2 (n : Z) : bool :=
  negb (n =? 0) && (Z.land n (u64 (n - 1)) =? 0).

(** [BUG_ON(condition)]: prints and calls [exit(-1)]. *)
Definition BUG_ON (condition : bool) : outcome unit :=
  if condition then Exit (-1) else Ret tt.

Definition sizeof_kfifo : Z := 32.

Section alloc.
Context (malloc : Z -> option bytes).

Definition kfifo_init (buffer : bytes) (size lock : Z) : outcome kfifo :=
  _ ← BUG_ON (negb (is_power_of_2 size));
  _ ← xmalloc malloc sizeof_kfifo;
  Ret (mk_kfifo buffer size 0 0 lock).

Definition kfifo_alloc (size lock : Z) : outcome kfifo :=
  _ ← BUG_ON (negb (is_power_of_2 size));
  buffer ← xmalloc malloc size;
  kfifo_init buffer size lock.
End alloc.

(** [__kfifo_put(fifo, buffer, len)]; the result is the new FIFO and the count. *)
Definition __kfifo_put (fifo : kfifo) (data : bytes) (len : Z) : outcome (kfifo * Z) :=
  let len := Z.min len (u32 (u32 (size fifo - in_ fifo) + out fifo)) in
  let l := Z.min len (u32 (size fifo - Z.land (in_ fifo) (u32 (size fifo - 1)))) in
  d1 ← mem_read data 0 l;
  buffer1 ← mem_write (buffer fifo) (Z.land (in_ fifo) (u32 (size fifo - 1))) d1;
  d2 ← mem_read data l (u32 (len - l));
  buffer2 ← mem_write buffer1 0 d2;
  Ret (mk_kfifo buffer2 (size fifo) (u32 (in_ fifo + len)) (out fifo) (lock fifo), len).

(** [__kfifo_get(fifo, buffer, len)]; the result also has the caller's buffer. *)
Definition __kfifo_get (fifo : kfifo) (data : bytes) (len : Z) : outcome (kfifo * bytes * Z) :=
  let len := Z.min len (u32 (in_ fifo - out fifo)) in
  let l := Z.min len (u32 (size fifo - Z.land (out fifo) (u32 (size fifo - 1)))) in
  d1 ← mem_read (buffer fifo) (Z.land (out fifo) (u32 (size fifo - 1))) l;
  data1 ← mem_write data 0 d1;
  d2 ← mem_read (buffer fifo) 0 (u32 (len - l));
  data2 ← mem_write data1 l d2;
  Ret (mk_kfifo (buffer fifo) (size fifo) (in_ fifo) (u32 (out fifo + len)) (lock fifo), data2, len).

Definition __kfifo_reset (fifo : kfifo) : kfifo :=
  mk_kfifo (buffer fifo) (size fifo) 0 0 (lock fifo).

(** The locked versions: [spin_lock_irqsave] and [spin_unlock_irqrestore] are
    macros that expand to nothing. *)
Definition kfifo_reset (fifo : kfifo) : kfifo := __kfifo_reset fifo.

Definition kfifo_put (fifo : kfifo) (data : bytes) (len : Z) : outcome (kfifo * Z) :=
  __kfifo_put fifo data len.

Definition kfifo_get (fifo : kfifo) (data : bytes) (len : Z) : outcome (kfifo * bytes * Z) :=
  '(fifo, data, ret) ← __kfifo_get fifo data len;
  (* optimization: if the FIFO is empty, set the indices to 0 *)
  let fifo := if in_ fifo =? out fifo
              then mk_kfifo (buffer fifo) (size fifo) 0 0 (lock fifo) else fifo in
  Ret (fifo, data, ret).

Definition __kfifo_len (fifo : kfifo) : Z := u32 (in_ fifo - out fifo).
Definition kfifo_len (fifo : kfifo) : Z := __kfifo_len fifo.
Definition kfifo_is_empty (fifo : kfifo) : bool := __kfifo_len fifo =? 0.

(** ** Invariant and logical contents *)

Record kfifo_wf (f : kfifo) : Prop := {
  wf_size : exists k, 0 <= k <= 31 /\ size f = 2 ^ k;
  wf_buffer : zlen (buffer f) = size f;
  wf_in : is_u32 (in_ f);
  wf_out : is_u32 (out f);
  wf_len : __kfifo_len f <= size f
}.

Definition contents (f : kfifo) : bytes := ring_window (buffer f) (out f) (__kfifo_len f).

(** ** The specification: a byte queue of bounded capacity *)

Definition queue_put (cap : Z) (q data : bytes) (len : Z) : bytes * Z :=
  let n := Z.min len (cap - zlen q) in (q ++ take (Z.to_nat n) data, n).

Definition queue_get (q data : bytes) (len : Z) : bytes * bytes * Z :=
  let n := Z.min len (zlen q) in
  (drop (Z.to_nat n) q, take (Z.to_nat n) q ++ drop (Z.to_nat n) data, n).

(** ** Lemmas *)

Lemma is_power_of_2_spec n :
  is_u32 n -> is_power_of_2 n = true <-> exists k, 0 <= k <= 31 /\ n = 2 ^ k.
Proof.
  intros Hn. unfold is_power_of_2, in_range in *. rewrite andb_true_iff, negb_true_iff.
  rewrite Z.eqb_neq, Z.eqb_eq. unfold u64.
  split.
  - intros [Hnz Hland]. rewrite wrap_small in Hland by (unfold in_range; lia).
    pose proof (Z.log2_spec n ltac:(lia)) as Hlog. set (k := Z.log2 n) in *.
    exists k. assert (0 <= k) by apply Z.log2_nonneg. split.
    { enough (k < 32) by lia. apply Z.log2_lt_pow2; lia. }
    destruct (decide (n = 2 ^ k)) as [|Hne]; [done|exfalso].
    assert (Z.testbit (Z.land n (n - 1)) k = true) as Hbit; [|by rewrite Hland, Z.bits_0 in Hbit].
    rewrite Z.land_spec. apply andb_true_iff.
    assert (Z.log2 (n - 1) = k) as Hk by (apply Z.log2_unique; lia).
    split; [apply Z.bit_log2; lia|]. rewrite <-Hk. apply Z.bit_log2. lia.
  - intros (k & Hk & ->). pose proof (pow2_pos k ltac:(lia)). split; [lia|].
    rewrite wrap_small by (unfold in_range; lia).
    rewrite land_mask by lia. apply Z.mod_same. lia.
Qed.

(** A FIFO freshly initialised on a buffer of the right size is well formed and empty. *)
Lemma kfifo_init_wf malloc buf size lock f :
  is_u32 size -> zlen buf = size -> kfifo_init malloc buf size lock = Ret f ->
  kfifo_wf f /\ contents f = [].
Proof.
  intros Hs Hb. unfold kfifo_init, BUG_ON.
  destruct (is_power_of_2 size) eqn:Hp; cbn; [|done].
  destruct (xmalloc _ _); cbn; [|done..]. intros [= <-].
  split; [|done]. apply is_power_of_2_spec in Hp; [|done].
  split; cbn; [done|done|done|done|]. change (0 <= size). apply Hs.
Qed.

Section wf.
Context (f : kfifo) (Hf : kfifo_wf f).

Lemma wf_size_range : 0 < size f <= 2 ^ 31.
Proof.
  destruct (wf_size f Hf) as (k & Hk & ->). split; [apply pow2_pos; lia|].
  apply Z.pow_le_mono_r; lia.
Qed.

(** The mask is the capacity minus one, so the offset is the index modulo it. *)
Lemma wf_offset x : Z.land x (u32 (size f - 1)) = x mod size f.
Proof.
  pose proof wf_size_range. unfold u32. rewrite wrap_small by (unfold in_range; lia).
  destruct (wf_size f Hf) as (k & Hk & ->). apply land_mask; lia.
Qed.

Lemma wf_size_divides : (size f | 2 ^ 32).
Proof. destruct (wf_size f Hf) as (k & Hk & ->). apply pow2_divide; lia. Qed.

Lemma wf_len_range : 0 <= __kfifo_len f <= size f.
Proof. split; [apply wrap_range; lia|apply wf_len, Hf]. Qed.

(** The write index is the read index plus the length, modulo the capacity. *)
Lemma wf_in_mod : in_ f mod size f = (out f + __kfifo_len f) mod size f.
Proof.
  unfold __kfifo_len, u32. rewrite <-Zplus_mod_idemp_r.
  rewrite (wrap_mod_divides 32 _ (size f)) by apply wf_size_divides.
  rewrite Zplus_mod_idemp_r. f_equal. lia.
Qed.

Lemma wf_room x : u32 (size f - x mod size f) = size f - x mod size f.
Proof.
  pose proof wf_size_range. pose proof (Z.mod_pos_bound x (size f) ltac:(lia)).
  apply wrap_small. unfold in_range. lia.
Qed.

Lemma wf_free : u32 (u32 (size f - in_ f) + out f) = size f - __kfifo_len f.
Proof.
  pose proof wf_size_range. pose proof wf_len_range. unfold __kfifo_len, u32 in *.
  rewrite wrap_add_l.
  rewrite <-(wrap_small 32 (size f - wrap 32 (in_ f - out f))) by (unfold in_range; lia).
  rewrite wrap_sub_r. f_equal. lia.
Qed.

Lemma contents_len : zlen (contents f) = __kfifo_len f.
Proof. unfold contents, zlen. rewrite ring_window_length. pose proof wf_len_range. lia. Qed.
End wf.

Lemma contents_reset f : contents (__kfifo_reset f) = [].
Proof. done. Qed.

Lemma __kfifo_reset_wf f : kfifo_wf f -> kfifo_wf (__kfifo_reset f).
Proof.
  intros Hf. pose proof (wf_size_range f Hf). destruct Hf.
  split; cbn; [done|done|done|done|]. change (0 <= size f). lia.
Qed.

(** [__kfifo_put] implements the put of the bounded queue. *)
Lemma __kfifo_put_spec f data len :
  kfifo_wf f -> is_u32 len -> len <= zlen data ->
  exists f' n, __kfifo_put f data len = Ret (f', n) /\ kfifo_wf f' /\ size f' = size f /\
    queue_put (size f) (contents f) data len = (contents f', n).
Proof.
  intros Hf Hlen Hdata. pose proof (wf_size_range f Hf) as Hs.
  pose proof (wf_len_range f Hf) as Hl. unfold in_range in Hlen.
  set (n := Z.min len (size f - __kfifo_len f)).
  destruct (ring_put_window (buffer f) (out f) (__kfifo_len f) data n) as (buf' & Hput & Hb' & Hw).
  1-4: rewrite ?(wf_buffer f Hf); lia.
  rewrite (wf_buffer f Hf), <-wf_in_mod in Hput by done.
  set (l := Z.min n (size f - in_ f mod size f)) in *.
  assert (0 <= l <= n) as Hln.
  { pose proof (Z.mod_pos_bound (in_ f) (size f) ltac:(lia)). lia. }
  set (f' := mk_kfifo buf' (size f) (u32 (in_ f + n)) (out f) (lock f)).
  assert (__kfifo_len f' = __kfifo_len f + n) as Hlen'.
  { unfold __kfifo_len, u32 in *; cbn. rewrite wrap_sub_l.
    rewrite <-(wrap_small 32 (wrap 32 (in_ f - out f) + n)) by (unfold in_range; lia).
    rewrite wrap_add_l. f_equal. lia. }
  exists f', n. split_and!.
  - unfold __kfifo_put. rewrite wf_free, wf_offset, wf_room by done. fold n. fold l.
    rewrite (u32_small (n - l)) by lia.
    unfold ring_put in Hput.
    apply bind_Ret in Hput as (d1 & -> & Hput). cbn.
    apply bind_Ret in Hput as (b1 & -> & Hput). cbn.
    apply bind_Ret in Hput as (d2 & -> & Hput). cbn. by rewrite Hput.
  - destruct Hf. split; cbn; [done|unfold zlen in *; lia|apply wrap_range; lia|done|].
    rewrite Hlen'. lia.
  - done.
  - unfold queue_put. rewrite contents_len by done. fold n. f_equal.
    unfold contents. rewrite Hlen'. cbn. by rewrite Hw.
Qed.

(** [__kfifo_get] implements the get of the bounded queue. *)
Lemma __kfifo_get_spec f data len :
  kfifo_wf f -> is_u32 len -> len <= zlen data ->
  exists f' data' n, __kfifo_get f data len = Ret (f', data', n) /\ kfifo_wf f' /\
    size f' = size f /\ queue_get (contents f) data len = (contents f', data', n).
Proof.
  intros Hf Hlen Hdata. pose proof (wf_size_range f Hf) as Hs.
  pose proof (wf_len_range f Hf) as Hl. unfold in_range in Hlen.
  set (n := Z.min len (__kfifo_len f)).
  pose proof (Z.mod_pos_bound (out f) (size f) ltac:(lia)) as Hpos.
  assert (ring_get (buffer f) (out f mod size f) data (Z.min n (size f - out f mod size f)) n
          = Ret (ring_window (buffer f) (out f mod size f) n ++ drop (Z.to_nat n) data)) as Hget.
  { apply ring_get_ok; rewrite ?(wf_buffer f Hf); lia. }
  set (l := Z.min n (size f - out f mod size f)) in *.
  set (f' := mk_kfifo (buffer f) (size f) (in_ f) (u32 (out f + n)) (lock f)).
  assert (__kfifo_len f' = __kfifo_len f - n) as Hlen'.
  { unfold __kfifo_len, u32 in *; cbn. rewrite wrap_sub_r.
    rewrite <-(wrap_small 32 (wrap 32 (in_ f - out f) - n)) by (unfold in_range; lia).
    rewrite wrap_sub_l. f_equal. lia. }
  exists f', (ring_window (buffer f) (out f mod size f) n ++ drop (Z.to_nat n) data), n.
  assert (ring_window (buffer f) (out f mod size f) n = take (Z.to_nat n) (contents f)) as Hwin.
  { unfold contents. rewrite (ring_window_mod _ (out f mod size f) (out f)).
    2: by rewrite (wf_buffer f Hf), Z.mod_mod by lia.
    apply list_eq_len. { rewrite length_take, !ring_window_length. lia. }
    intros i Hi. rewrite ring_window_length in Hi. rewrite lookup_take_lt by lia.
    rewrite !ring_window_lookup; rewrite ?(wf_buffer f Hf); try lia. done. }
  split_and!.
  - unfold __kfifo_get. rewrite wf_offset, wf_room by done. fold (__kfifo_len f). fold n. fold l.
    rewrite (u32_small (n - l)) by lia.
    unfold ring_get in Hget.
    apply bind_Ret in Hget as (d1 & -> & Hget). cbn.
    apply bind_Ret in Hget as (b1 & -> & Hget). cbn.
    apply bind_Ret in Hget as (d2 & -> & Hget). cbn. by rewrite Hget.
  - destruct Hf. split; cbn; [done|done|done|apply wrap_range; lia|]. rewrite Hlen'. lia.
  - done.
  - unfold queue_get. rewrite contents_len by done. fold n. rewrite <-Hwin. f_equal. f_equal.
    unfold contents at 1. rewrite ring_window_drop by (rewrite ?(wf_buffer f Hf); lia).
    unfold contents. rewrite Hlen'. cbn.
    apply ring_window_mod. rewrite (wf_buffer f Hf). unfold u32.
    by rewrite (wrap_mod_divides 32 _ (size f)) by (by apply wf_size_divides).
Qed.

(** ** Sequences of operations *)

Inductive fifo_op :=
| OpPut (data : bytes) (len : Z)
| OpGet (data : bytes) (len : Z)
| OpReset.

Inductive fifo_res :=
| ResPut (n : Z)
| ResGet (data : bytes) (n : Z)
| ResReset.

Definition fifo_step (f : kfifo) (op : fifo_op) : outcome (kfifo * fifo_res) :=
  match op with
  | OpPut data len => '(f, n) ← kfifo_put f data len; Ret (f, ResPut n)
  | OpGet data len => '(f, d, n) ← kfifo_get f data len; Ret (f, ResGet d n)
  | OpReset => Ret (kfifo_reset f, ResReset)
  end.

Fixpoint fifo_run (f : kfifo) (ops : list fifo_op) : outcome (kfifo * list fifo_res) :=
  match ops with
  | [] => Ret (f, [])
  | op :: ops => '(f, r) ← fifo_step f op; '(f, rs) ← fifo_run f ops; Ret (f, r :: rs)
  end.

Definition queue_step (cap : Z) (q : bytes) (op : fifo_op) : bytes * fifo_res :=
  match op with
  | OpPut data len => let '(q, n) := queue_put cap q data len in (q, ResPut n)
  | OpGet data len => let '(q, d, n) := queue_get q data len in (q, ResGet d n)
  | OpReset => ([], ResReset)
  end.

Fixpoint queue_run (cap : Z) (q : bytes) (ops : list fifo_op) : bytes * list fifo_res :=
  match ops with
  | [] => (q, [])
  | op :: ops => let '(q, r) := queue_step cap q op in
                 let '(q, rs) := queue_run cap q ops in (q, r :: rs)
  end.

(** The caller's buffer holds at least the [len] bytes that are passed. *)
Definition op_ok (op : fifo_op) : Prop :=
  match op with
  | OpPut data len | OpGet data len => is_u32 len /\ len <= zlen data
  | OpReset => True
  end.

(** [kfifo_get] only differs from [__kfifo_get] in the indices of an empty FIFO. *)
Lemma kfifo_get_spec f data len :
  kfifo_wf f -> is_u32 len -> len <= zlen data ->
  exists f' data' n, kfifo_get f data len = Ret (f', data', n) /\ kfifo_wf f' /\
    size f' = size f /\ queue_get (contents f) data len = (contents f', data', n).
Proof.
  intros Hf Hlen Hdata.
  destruct (__kfifo_get_spec f data len Hf Hlen Hdata) as (f' & data' & n & Hg & Hf' & Hs & Hq).
  unfold kfifo_get. rewrite Hg. cbn.
  destruct (Z.eqb_spec (in_ f') (out f')) as [Heq|]; [|by eauto 10].
  exists (__kfifo_reset f'), data', n. split_and!; [done|by apply __kfifo_reset_wf|done|].
  rewrite Hq. do 2 f_equal. rewrite contents_reset. unfold contents, __kfifo_len.
  by rewrite Heq, Z.sub_diag.
Qed.

Lemma fifo_step_refines f op :
  kfifo_wf f -> op_ok op ->
  exists f' r, fifo_step f op = Ret (f', r) /\ kfifo_wf f' /\ size f' = size f /\
    queue_step (size f) (contents f) op = (contents f', r).
Proof.
  intros Hf Hop. destruct op as [data len|data len|]; cbn [fifo_step queue_step op_ok] in *.
  - destruct Hop. destruct (__kfifo_put_spec f data len) as (f' & n & Hp & ? & ? & Hq); [done..|].
    exists f', (ResPut n). unfold kfifo_put. rewrite Hp, Hq. done.
  - destruct Hop. destruct (kfifo_get_spec f data len) as (f' & d & n & Hp & ? & ? & Hq); [done..|].
    exists f', (ResGet d n). rewrite Hp, Hq. done.
  - exists (kfifo_reset f), ResReset. split_and!; [done|by apply __kfifo_reset_wf|done..].
Qed.

(** C1: for every sequence of puts, gets and resets on a well-formed FIFO, the C
    operations run without an out-of-bounds access, keep the FIFO well formed, and
    give exactly the counts, the bytes and the final contents of a bounded byte
    queue whose capacity is the size of the buffer, whatever the position of the
    32-bit indices and however often they wrap. *)
Theorem kfifo_refines_queue f ops :
  kfifo_wf f -> Forall op_ok ops ->
  exists f' rs, fifo_run f ops = Ret (f', rs) /\ kfifo_wf f' /\
    queue_run (size f) (contents f) ops = (contents f', rs).
Proof.
  intros Hf Hops. revert f Hf. induction Hops as [|op ops Hop _ IH]; intros f Hf; cbn.
  { by eauto. }
  destruct (fifo_step_refines f op Hf Hop) as (f1 & r & -> & Hf1 & Hs1 & ->). cbn.
  destruct (IH f1 Hf1) as (f2 & rs & -> & Hf2 & Hq). rewrite Hs1 in Hq. cbn.
  rewrite Hq. by eauto.
Qed.

(** A FIFO of four bytes whose indices are two steps before their wrap-around. *)
Definition demo_fifo : kfifo := mk_kfifo [10; 11; 12; 13] 4 (2 ^ 32 - 1) (2 ^ 32 - 2) 0.

Lemma demo_fifo_wf : kfifo_wf demo_fifo.
Proof.
  split; cbn; [by exists 2|done|by compute|by compute|]. by vm_compute.
Defined.

Lemma kfifo_refines_queue_witness :
  exists f' rs, fifo_run demo_fifo [OpPut [1; 2; 3; 4; 5] 5; OpGet [0; 0; 0] 3] = Ret (f', rs) /\
    kfifo_wf f' /\ queue_run 4 (contents demo_fifo)
      [OpPut [1; 2; 3; 4; 5] 5; OpGet [0; 0; 0] 3] = (contents f', rs).
Proof.
  apply (kfifo_refines_queue demo_fifo); [exact demo_fifo_wf|].
  repeat constructor; by vm_compute.
Defined.

(** [kfifo_alloc] either ends the process (a size that is not a power of two,
    or no memory) or gives a well-formed empty FIFO of exactly the requested size;
    with memory available it does return for every power of two below 2^31. *)
Theorem kfifo_alloc_correct malloc `{MallocSpec malloc} size lock :
  0 <= size < 2 ^ 31 -> (forall n, 0 < n < 2 ^ 31 -> is_Some (malloc n)) ->
  match kfifo_alloc malloc size lock with
  | Ret f => is_power_of_2 size = true /\ kfifo_wf f /\ contents f = [] /\ Fifo.size f = size
  | Exit c => is_power_of_2 size = false /\ c = -1
  | Undef => False
  end.
Proof.
  intros Hs Hm. unfold kfifo_alloc, BUG_ON.
  destruct (is_power_of_2 size) eqn:Hp; cbn; [|done].
  assert (is_u32 size) as Hu by (unfold in_range; lia).
  assert (0 < size) as Hpos.
  { apply is_power_of_2_spec in Hp as (k & Hk & ->); [|done]. apply pow2_pos. lia. }
  assert (forall n, 0 < n < 2 ^ 31 -> exists mem, xmalloc malloc n = Ret mem) as Hx.
  { intros n Hn. unfold xmalloc. rewrite s32_small by lia.
    destruct (Z.eqb_spec n 0); [lia|]. rewrite u64_small by lia.
    destruct (Hm n Hn) as [mem ->]. eauto. }
  destruct (Hx size ltac:(lia)) as [mem Hmem]. rewrite Hmem. cbn.
  destruct (Hx sizeof_kfifo ltac:(unfold sizeof_kfifo; lia)) as [mem' Hmem'].
  assert (kfifo_init malloc mem size lock = Ret (mk_kfifo mem size 0 0 lock)) as Hi.
  { unfold kfifo_init, BUG_ON. rewrite Hp. cbn. by rewrite Hmem'. }
  rewrite Hi. apply xmalloc_length in Hmem; [|done|lia].
  destruct (kfifo_init_wf _ _ _ _ _ Hu Hmem Hi). done.
Qed.

Lemma kfifo_alloc_correct_witness :
  match kfifo_alloc demo_malloc 8 0 with
  | Ret f => is_power_of_2 8 = true /\ kfifo_wf f /\ contents f = [] /\ Fifo.size f = 8
  | Exit c => is_power_of_2 8 = false /\ c = -1
  | Undef => False
  end.
Proof. apply (kfifo_alloc_correct demo_malloc 8 0); [lia|exact demo_malloc_total]. Defined.
