(* ===== verification/FifoSpsc.v ===== *)
(** One reader and one writer on a FIFO without a lock.

    The comments of [__kfifo_put] and [__kfifo_get] in src/fifo/fifo.c say that one
    concurrent reader and one concurrent writer need no locking.  Here both calls
    are split into their atomic steps (sample the indices, copy one byte, publish
    the index) and interleaved arbitrarily under sequential consistency; the ghost
    logs record what was published and what was read. *)

From stdpp Require Import relations.
From S2P Require Import Prelude Util Ring Fifo.

(** Where byte [i] of a transfer of [n] bytes that starts at index [x] lives: the
    first [memcpy] covers [l] bytes from the masked offset, the second the rest. *)
Definition copy_addr (f : kfifo) (x n i : Z) : Z :=
  let off := Z.land x (u32 (size f - 1)) in
  let l := Z.min n (u32 (size f - off)) in
  if i <? l then off + i else i - l.

(** Local state of the thread inside [__kfifo_put]: the call has computed [len = n]
    and copied [i] bytes of [data]. *)
Inductive writer := WIdle | WCopy (data : bytes) (n i : Z).

(** Local state of the thread inside [__kfifo_get]: [acc] is what was copied.  In
    [RReset] a [kfifo_get] is back from [__kfifo_get] and about to test for empty. *)
Inductive reader := RIdle | RCopy (n : Z) (acc : bytes) | RReset.

Record spsc := mk_spsc {
  shared : kfifo;
  wr : writer;
  rd : reader;
  wlog : bytes;   (* ghost: bytes of the completed puts *)
  rlog : bytes    (* ghost: bytes of the completed gets *)
}.

Definition set_buffer (f : kfifo) (b : bytes) : kfifo := mk_kfifo b (size f) (in_ f) (out f) (lock f).
Definition set_in (f : kfifo) (x : Z) : kfifo := mk_kfifo (buffer f) (size f) x (out f) (lock f).
Definition set_out (f : kfifo) (x : Z) : kfifo := mk_kfifo (buffer f) (size f) (in_ f) x (lock f).

(** The atomic steps of [__kfifo_put] on the shared structure. *)
Inductive put_step : kfifo -> writer -> bytes -> kfifo -> writer -> bytes -> Prop :=
| put_start f log data len :
    is_u32 len -> len <= zlen data ->
    put_step f WIdle log f (WCopy data (Z.min len (u32 (u32 (size f - in_ f) + out f))) 0) log
| put_copy f log data n i b buf' :
    i < n -> mem_get data i = Ret b ->
    mem_set (buffer f) (copy_addr f (in_ f) n i) b = Ret buf' ->
    put_step f (WCopy data n i) log (set_buffer f buf') (WCopy data n (i + 1)) log
| put_publish f log data n :
    put_step f (WCopy data n n) log
      (set_in f (u32 (in_ f + n))) WIdle (log ++ take (Z.to_nat n) data).

(** The atomic steps of [__kfifo_get] on the shared structure. *)
Inductive get_step : kfifo -> reader -> bytes -> kfifo -> reader -> bytes -> Prop :=
| get_start f log len :
    is_u32 len -> get_step f RIdle log f (RCopy (Z.min len (u32 (in_ f - out f))) []) log
| get_copy f log n acc b :
    zlen acc < n -> mem_get (buffer f) (copy_addr f (out f) n (zlen acc)) = Ret b ->
    get_step f (RCopy n acc) log f (RCopy n (acc ++ [b])) log
| get_publish f log n acc :
    zlen acc = n ->
    get_step f (RCopy n acc) log (set_out f (u32 (out f + n))) RIdle (log ++ acc).

(** The atomic steps of the header's [kfifo_get]: those of [__kfifo_get], then the
    test for an empty FIFO with the reset of both indices.  The [spin_lock_irqsave]
    around them expands to nothing. *)
Inductive kget_step : kfifo -> reader -> bytes -> kfifo -> reader -> bytes -> Prop :=
| kget_inner f r log f' r' log' :
    get_step f r log f' r' log' -> r' <> RIdle -> kget_step f r log f' r' log'
| kget_publish f n acc log f' log' :
    get_step f (RCopy n acc) log f' RIdle log' -> kget_step f (RCopy n acc) log f' RReset log'
| kget_reset f log :
    kget_step f RReset log
      (if in_ f =? out f then __kfifo_reset f else f) RIdle log.

Inductive spsc_step : spsc -> spsc -> Prop :=
| spsc_put f w r wl rl f' w' wl' :
    put_step f w wl f' w' wl' -> spsc_step (mk_spsc f w r wl rl) (mk_spsc f' w' r wl' rl)
| spsc_get f w r wl rl f' r' rl' :
    get_step f r rl f' r' rl' -> spsc_step (mk_spsc f w r wl rl) (mk_spsc f' w r' wl rl').

(** A writer in [kfifo_put] and a reader in [kfifo_get]. *)
Inductive locked_step : spsc -> spsc -> Prop :=
| locked_put f w r wl rl f' w' wl' :
    put_step f w wl f' w' wl' -> locked_step (mk_spsc f w r wl rl) (mk_spsc f' w' r wl' rl)
| locked_get f w r wl rl f' r' rl' :
    kget_step f r rl f' r' rl' -> locked_step (mk_spsc f w r wl rl) (mk_spsc f' w r' wl rl').

(** Both threads idle on a well-formed FIFO; its contents count as written. *)
Definition spsc_init (f : kfifo) : spsc := mk_spsc f WIdle RIdle (contents f) [].

(** ** The invariant *)

Definition writer_ok (f : kfifo) (w : writer) : Prop :=
  match w with
  | WIdle => True
  | WCopy data n i =>
      0 <= i <= n /\ n <= zlen data /\ __kfifo_len f + n <= size f /\
      forall j, 0 <= j < i ->
        buffer f !! Z.to_nat ((in_ f + j) mod size f) = data !! Z.to_nat j
  end.

Definition reader_ok (f : kfifo) (r : reader) : Prop :=
  match r with
  | RIdle => True
  | RCopy n acc => zlen acc <= n <= __kfifo_len f /\ acc = take (length acc) (contents f)
  | RReset => False
  end.

Record spsc_inv (s : spsc) : Prop := {
  inv_wf : kfifo_wf (shared s);
  inv_log : wlog s = rlog s ++ contents (shared s);
  inv_writer : writer_ok (shared s) (wr s);
  inv_reader : reader_ok (shared s) (rd s)
}.

Lemma copy_addr_mod f x n i :
  kfifo_wf f -> 0 <= i < n -> n <= size f -> copy_addr f x n i = (x + i) mod size f.
Proof.
  intros Hf Hi Hn. pose proof (wf_size_range f Hf) as Hs. unfold copy_addr.
  rewrite wf_offset, wf_room by done.
  pose proof (Z.mod_pos_bound x (size f) ltac:(lia)).
  rewrite <-(Zplus_mod_idemp_l x i (size f)), (mod_wrap_once (size f) (x mod size f + i)) by lia.
  destruct (Z.ltb_spec i (Z.min n (size f - x mod size f)));
    destruct (Z.ltb_spec (x mod size f + i) (size f)); lia.
Qed.

(** Two indices less than one turn apart address different slots. *)
Lemma slot_ne n x y : 0 < x - y < n -> x mod n <> y mod n.
Proof.
  intros H Heq. assert ((x - y) mod n = 0) as Hz.
  { rewrite Zminus_mod, Heq, Z.sub_diag. apply Z.mod_0_l. lia. }
  rewrite Z.mod_small in Hz; lia.
Qed.

Lemma contents_set_buffer f b buf' p :
  kfifo_wf f -> mem_set (buffer f) p b = Ret buf' ->
  (forall j, 0 <= j < __kfifo_len f -> (out f + j) mod size f <> p) ->
  contents (set_buffer f buf') = contents f.
Proof.
  intros Hf Hset Hp. pose proof (wf_len_range f Hf). pose proof (wf_size_range f Hf).
  unfold mem_set in Hset. destruct (_ && _) eqn:E; simplify_eq.
  rewrite (wf_buffer f Hf) in E.
  change (ring_window (<[Z.to_nat p:=b]> (buffer f)) (out f) (__kfifo_len f) = contents f).
  apply list_eq_len; [by unfold contents; rewrite !ring_window_length|].
  intros i Hi. rewrite ring_window_length in Hi. unfold contents.
  rewrite !ring_window_lookup by (rewrite ?zlen_insert, ?(wf_buffer f Hf); lia).
  rewrite zlen_insert, (wf_buffer f Hf).
  pose proof (Z.mod_pos_bound (out f + Z.of_nat i) (size f) ltac:(lia)).
  specialize (Hp (Z.of_nat i) ltac:(lia)). rewrite list_lookup_insert_ne; [done|]. lia.
Qed.

Lemma kfifo_len_publish_in f n :
  kfifo_wf f -> 0 <= n <= size f - __kfifo_len f ->
  __kfifo_len (set_in f (u32 (in_ f + n))) = __kfifo_len f + n.
Proof.
  intros Hf Hn. pose proof (wf_len_range f Hf). pose proof (wf_size_range f Hf).
  unfold __kfifo_len, u32 in *; cbn. rewrite wrap_sub_l.
  rewrite <-(wrap_small 32 (wrap 32 (in_ f - out f) + n)) by (unfold in_range; lia).
  rewrite wrap_add_l. f_equal. lia.
Qed.

(** Publishing [n] bytes that were copied behind the write index appends them. *)
Lemma contents_publish f n data :
  kfifo_wf f -> 0 <= n <= size f - __kfifo_len f -> n <= zlen data ->
  (forall j, 0 <= j < n -> buffer f !! Z.to_nat ((in_ f + j) mod size f) = data !! Z.to_nat j) ->
  contents (set_in f (u32 (in_ f + n))) = contents f ++ take (Z.to_nat n) data.
Proof.
  intros Hf Hn Hd Hcopied. pose proof (wf_len_range f Hf). pose proof (wf_size_range f Hf).
  unfold contents. rewrite kfifo_len_publish_in by done. cbn.
  apply list_eq_len. { rewrite length_app, !ring_window_length, length_take. zlia. }
  intros i Hi. rewrite ring_window_length in Hi.
  rewrite ring_window_lookup by (rewrite ?(wf_buffer f Hf); lia). rewrite (wf_buffer f Hf).
  destruct (decide (Z.of_nat i < __kfifo_len f)).
  - rewrite lookup_app_l by (rewrite ring_window_length; lia).
    by rewrite ring_window_lookup, (wf_buffer f Hf) by (rewrite ?(wf_buffer f Hf); lia).
  - rewrite lookup_app_r, ring_window_length, lookup_take_lt by (rewrite ?ring_window_length; lia).
    replace (i - Z.to_nat (__kfifo_len f))%nat with (Z.to_nat (Z.of_nat i - __kfifo_len f)) by lia.
    rewrite <-Hcopied by lia.
    rewrite <-(Zplus_mod_idemp_l (in_ f)), wf_in_mod, Zplus_mod_idemp_l by done.
    do 3 f_equal. lia.
Qed.

Lemma put_step_inv f w wl f' w' wl' r rl :
  put_step f w wl f' w' wl' ->
  spsc_inv (mk_spsc f w r wl rl) -> spsc_inv (mk_spsc f' w' r wl' rl).
Proof.
  intros Hstep [Hf Hlog Hw Hr]. cbn in *.
  pose proof (wf_len_range f Hf) as Hl. pose proof (wf_size_range f Hf) as Hs.
  destruct Hstep as [f log data len Hlen Hd|f log data n i b buf' Hi Hb Hset|f log data n].
  - split; cbn; [done|done| |done]. rewrite wf_free by done. unfold in_range in Hlen.
    split_and!; [lia..|]. intros; lia.
  - destruct Hw as (Hi' & Hn & Hcap & Hcopied).
    rewrite copy_addr_mod in Hset by (try done; lia).
    assert (contents (set_buffer f buf') = contents f) as Hc.
    { eapply contents_set_buffer; [done|exact Hset|]. intros j Hj.
      rewrite <-(Zplus_mod_idemp_l (in_ f) i), wf_in_mod, Zplus_mod_idemp_l by done.
      apply not_eq_sym, slot_ne. lia. }
    unfold mem_set in Hset. destruct (_ && _) eqn:E; simplify_eq.
    rewrite (wf_buffer f Hf) in E.
    split; cbn -[contents]; [|by rewrite Hc| |].
    + destruct Hf. split; cbn; [done|by rewrite zlen_insert|done|done|done].
    + split_and!; [lia|lia|done|done|]. intros j Hj. cbn.
      destruct (decide (j = i)) as [->|Hne].
      * rewrite list_lookup_insert_eq by (pose proof (wf_buffer f Hf); zlia).
        unfold mem_get in Hb. destruct (Z.ltb_spec i 0); [lia|].
        by destruct (data !! Z.to_nat i); simplify_eq/=.
      * rewrite list_lookup_insert_ne; [apply Hcopied; lia|].
        pose proof (slot_ne (size f) (in_ f + i) (in_ f + j) ltac:(lia)).
        pose proof (Z.mod_pos_bound (in_ f + i) (size f) ltac:(lia)).
        pose proof (Z.mod_pos_bound (in_ f + j) (size f) ltac:(lia)). lia.
    + destruct r; [done| |done]. cbn -[contents]. by rewrite Hc.
  - destruct Hw as (Hi' & Hn & Hcap & Hcopied).
    assert (__kfifo_len (set_in f (u32 (in_ f + n))) = __kfifo_len f + n) as Hlen'.
    { apply kfifo_len_publish_in; [done|lia]. }
    assert (contents (set_in f (u32 (in_ f + n))) = contents f ++ take (Z.to_nat n) data) as Hc.
    { apply contents_publish; [done|lia|done|done]. }
    split; cbn -[contents]; [|by rewrite Hc, Hlog, app_assoc|done|].
    + destruct Hf. split; cbn; [done|done|apply wrap_range; lia|done|].
      rewrite Hlen'. lia.
    + destruct r as [|n' acc|]; [done| |done]. destruct Hr as [Hacc Heq]. cbn -[contents].
      rewrite Hlen', Hc. split; [lia|].
      rewrite take_app_le; [done|]. pose proof (contents_len f Hf). zlia.
Qed.

Lemma get_step_inv f r rl f' r' rl' w wl :
  get_step f r rl f' r' rl' ->
  spsc_inv (mk_spsc f w r wl rl) -> spsc_inv (mk_spsc f' w r' wl rl').
Proof.
  intros Hstep [Hf Hlog Hw Hr]. cbn in *.
  pose proof (wf_len_range f Hf) as Hl. pose proof (wf_size_range f Hf) as Hs.
  destruct Hstep as [f log len Hlen|f log n acc b Hacc Hb|f log n acc Hacc].
  - split; cbn; [done..|]. unfold in_range in Hlen. fold (__kfifo_len f).
    split; [|done]. rewrite zlen_nil. lia.
  - destruct Hr as [Hn Heq]. split; cbn -[contents]; [done..|].
    autorewrite with zlen. split; [lia|].
    rewrite copy_addr_mod in Hb by (try done; pose proof (zlen_nonneg acc); lia).
    unfold mem_get in Hb. destruct (_ <? 0) eqn:?; [done|].
    destruct (buffer f !! _) as [b'|] eqn:Hb'; simplify_eq/=.
    assert (contents f !! length acc = Some b) as Hc.
    { unfold contents. rewrite ring_window_lookup by (rewrite ?(wf_buffer f Hf); zlia).
      by rewrite (wf_buffer f Hf). }
    rewrite length_app. cbn. rewrite Nat.add_1_r, (take_S_r _ _ b) by done. by rewrite <-Heq.
  - destruct Hr as [Hn Heq]. subst n. pose proof (zlen_nonneg acc).
    assert (__kfifo_len (set_out f (u32 (out f + zlen acc))) = __kfifo_len f - zlen acc) as Hlen'.
    { unfold __kfifo_len, u32 in *; cbn. rewrite wrap_sub_r.
      rewrite <-(wrap_small 32 (wrap 32 (in_ f - out f) - zlen acc)) by (unfold in_range; lia).
      rewrite wrap_sub_l. f_equal. lia. }
    assert (contents (set_out f (u32 (out f + zlen acc))) = drop (length acc) (contents f)) as Hc.
    { rewrite <-(zlen_nat acc). unfold contents at 2.
      rewrite ring_window_drop by (rewrite ?(wf_buffer f Hf); zlia).
      unfold contents. rewrite Hlen'. cbn. apply ring_window_mod. rewrite (wf_buffer f Hf).
      unfold u32. by rewrite (wrap_mod_divides 32 _ (size f)) by (by apply wf_size_divides). }
    split; cbn -[contents].
    + destruct Hf. split; cbn; [done|done|done|apply wrap_range; lia|]. rewrite Hlen'. zlia.
    + rewrite Hc, Hlog, <-app_assoc. f_equal. rewrite Heq at 1. symmetry. apply take_drop.
    + destruct w; [done|]. destruct Hw as (? & ? & ? & Hcopied).
      split_and!; [lia|lia|done| |done]. rewrite Hlen'. cbn. zlia.
    + done.
Qed.

Lemma spsc_step_inv s s' : spsc_step s s' -> spsc_inv s -> spsc_inv s'.
Proof. intros [] ?; eauto using put_step_inv, get_step_inv. Qed.

Lemma spsc_reachable_inv f s : kfifo_wf f -> rtc spsc_step (spsc_init f) s -> spsc_inv s.
Proof.
  intros Hf. generalize (spsc_init f) as s0, (Build_spsc_inv (spsc_init f) Hf eq_refl I I).
  intros s0 Hinv Hsteps. induction Hsteps; eauto using spsc_step_inv.
Qed.

(** A thread that is inside a call is never stuck: the next address is in bounds. *)
Lemma spsc_progress_put f w r wl rl :
  spsc_inv (mk_spsc f w r wl rl) -> w <> WIdle -> exists f' w' wl', put_step f w wl f' w' wl'.
Proof.
  intros [Hf _ Hw _] Hne. destruct w as [|data n i]; [done|]. cbn in *.
  pose proof (wf_len_range f Hf). pose proof (wf_size_range f Hf).
  destruct Hw as (Hi & Hn & Hcap & _). destruct (decide (i = n)) as [->|].
  { eauto using put_publish. }
  destruct (lookup_lt_is_Some_2 data (Z.to_nat i)) as [b Hb]; [zlia|].
  eexists _, _, _. eapply put_copy; [lia|apply mem_get_ok; [lia|exact Hb]|].
  apply mem_set_ok. rewrite copy_addr_mod, (wf_buffer f Hf) by (done || lia).
  apply Z.mod_pos_bound. lia.
Qed.

Lemma spsc_progress_get f w r wl rl :
  spsc_inv (mk_spsc f w r wl rl) -> r <> RIdle -> exists f' r' rl', get_step f r rl f' r' rl'.
Proof.
  intros [Hf _ _ Hr] Hne. destruct r as [|n acc|]; [done| |done]. cbn in *.
  pose proof (wf_len_range f Hf). pose proof (wf_size_range f Hf). pose proof (zlen_nonneg acc).
  destruct Hr as [Hn _]. destruct (decide (zlen acc = n)).
  { eauto using get_publish. }
  pose proof (Z.mod_pos_bound (out f + zlen acc) (size f) ltac:(lia)).
  destruct (lookup_lt_is_Some_2 (buffer f) (Z.to_nat ((out f + zlen acc) mod size f))) as [b Hb].
  { pose proof (wf_buffer f Hf). zlia. }
  eexists _, _, _. eapply get_copy; [lia|].
  rewrite copy_addr_mod by (done || lia). apply mem_get_ok; [lia|exact Hb].
Qed.

(** C21: the lock-free claim of the source comments.  Under every interleaving of the
    byte-level steps of one [__kfifo_put] caller and one [__kfifo_get] caller, the
    bytes read so far are a prefix of the bytes written so far, the unread rest is
    the content of the FIFO, and a thread that is inside a call can always take its
    next step, so no copy leaves the buffer. *)
Theorem spsc_fifo_order f s :
  kfifo_wf f -> rtc spsc_step (spsc_init f) s ->
  wlog s = rlog s ++ contents (shared s) /\ kfifo_wf (shared s) /\
  (wr s <> WIdle -> exists f' w' wl', put_step (shared s) (wr s) (wlog s) f' w' wl') /\
  (rd s <> RIdle -> exists f' r' rl', get_step (shared s) (rd s) (rlog s) f' r' rl').
Proof.
  intros Hf Hs. pose proof (spsc_reachable_inv f s Hf Hs) as Hinv. destruct s. split_and!.
  - apply (inv_log _ Hinv).
  - apply (inv_wf _ Hinv).
  - intros. by eapply spsc_progress_put.
  - intros. by eapply spsc_progress_get.
Qed.

(** A put of one byte, caught between its copy and its publication. *)
Definition demo_mid_put : spsc :=
  mk_spsc (set_buffer demo_fifo [10; 11; 12; 7]) (WCopy [7] 1 1) RIdle [12] [].

Lemma demo_mid_put_reachable : rtc spsc_step (spsc_init demo_fifo) demo_mid_put.
Proof.
  eapply rtc_l.
  { apply spsc_put, (put_start demo_fifo _ [7] 1); by vm_compute. }
  eapply rtc_l.
  { apply spsc_put. eapply put_copy; [by vm_compute|reflexivity|reflexivity]. }
  vm_compute. apply rtc_refl.
Defined.

Lemma spsc_fifo_order_witness :
  wlog demo_mid_put = rlog demo_mid_put ++ contents (shared demo_mid_put) /\
  kfifo_wf (shared demo_mid_put) /\
  (wr demo_mid_put <> WIdle -> exists f' w' wl',
     put_step (shared demo_mid_put) (wr demo_mid_put) (wlog demo_mid_put) f' w' wl') /\
  (rd demo_mid_put <> RIdle -> exists f' r' rl',
     get_step (shared demo_mid_put) (rd demo_mid_put) (rlog demo_mid_put) f' r' rl').
Proof.
  apply (spsc_fifo_order demo_fifo); [exact demo_fifo_wf|exact demo_mid_put_reachable].
Defined.

Definition demo_empty : kfifo := mk_kfifo [10; 11; 12; 13] 4 1 1 0.

(** the header's [kfifo_put] and [kfifo_get] are not safe for a concurrent reader
    and writer, because their lock macros expand to nothing: a [kfifo_get] that finds
    the FIFO empty resets both indices under a writer that has copied its byte and
    not yet published it, and the published FIFO then holds a stale byte instead of
    the byte that was put. *)
Theorem kfifo_get_reset_race :
  exists s, rtc locked_step (spsc_init demo_empty) s /\ wr s = WIdle /\ rd s = RIdle /\
    wlog s = [7] /\ rlog s = [] /\ contents (shared s) = [10].
Proof.
  eexists. split_and!.
  - eapply rtc_l.
    { apply locked_put, (put_start demo_empty _ [7] 1); by vm_compute. }
    eapply rtc_l.
    { apply locked_put. eapply put_copy; [by vm_compute|reflexivity|reflexivity]. }
    eapply rtc_l.
    { apply locked_get. eapply kget_inner; [apply (get_start _ _ 1); by vm_compute|done]. }
    eapply rtc_l. { apply locked_get, kget_publish. apply get_publish. by vm_compute. }
    eapply rtc_l. { apply locked_get, kget_reset. }
    eapply rtc_l. { apply locked_put, put_publish. }
    vm_compute. apply rtc_refl.
  - done.
  - done.
  - done.
  - done.
  - done.
Qed.
