(* ===== verification/Base64.v ===== *)
(** Base64 of src/util/base64.c, the variant that is compiled ([BASE64_ANDROID] is 0).

    [base64_encode] and [base64_decode] follow the C functions: the size computation
    in 64-bit arithmetic, the allocation through [xmalloc], whose parameter is an
    [int], and the bytes stored through [pos], which are checked against the
    allocated block.  The theorems give the round trip, the memory safety of both
    directions and the sizes for which the allocation is too small. *)

From S2P Require Import Prelude Util.

(** ["ABC...xyz0123456789+/"] with its terminating NUL. *)
Definition base64_table : bytes :=
  ((fun i => 65 + Z.of_nat i) <$> seq 0 26) ++ ((fun i => 97 + Z.of_nat i) <$> seq 0 26) ++
  ((fun i => 48 + Z.of_nat i) <$> seq 0 10) ++ [43; 47] ++ [0].

Definition tbl (i : Z) : Z := base64_table !!! Z.to_nat i.

(** ** Encoding *)

(** The [while (end - in >= 3)] loop: the bytes it stores, the bytes that are left,
    and [line_len]. *)
Fixpoint encode_blocks (src : bytes) (line_len : Z) : bytes * bytes * Z :=
  match src with
  | a :: b :: c :: rest =>
      let quad := [tbl (Z.land (a ≫ 2) 0x3f);
                   tbl (Z.land (Z.lor (Z.land a 0x03 ≪ 4) (b ≫ 4)) 0x3f);
                   tbl (Z.land (Z.lor (Z.land b 0x0f ≪ 2) (c ≫ 6)) 0x3f);
                   tbl (Z.land c 0x3f)] in
      let line_len := line_len + 4 in
      let '(nl, line_len) := if 72 <=? line_len then ([10], 0) else ([], line_len) in
      let '(out, rest0, line_len) := encode_blocks rest line_len in
      (quad ++ nl ++ out, rest0, line_len)
  | _ => ([], src, line_len)
  end.

(** The tail after the loop: the last one or two bytes with their padding. *)
Definition encode_tail (rest0 : bytes) (line_len : Z) : bytes * Z :=
  match rest0 with
  | [] => ([], line_len)
  | a :: rest =>
      let first := tbl (Z.land (a ≫ 2) 0x3f) in
      let mid := match rest with
                 | [] => [tbl (Z.land (Z.land a 0x03 ≪ 4) 0x3f); 61]
                 | b :: _ => [tbl (Z.land (Z.lor (Z.land a 0x03 ≪ 4) (b ≫ 4)) 0x3f);
                              tbl (Z.land (Z.land b 0x0f ≪ 2) 0x3f)]
                 end in
      ([first] ++ mid ++ [61], line_len + 4)
  end.

(** All bytes stored before the terminating NUL. *)
Definition encode_text (src : bytes) : bytes :=
  let '(out, rest0, line_len) := encode_blocks src 0 in
  let '(tail, line_len) := encode_tail rest0 line_len in
  out ++ tail ++ (if line_len =? 0 then [] else [10]).

(** [olen] after the three statements that compute it. *)
Definition encode_olen (len : Z) : Z :=
  let olen := u64 (u64 (len * 4) / 3 + 4) in
  let olen := u64 (olen + olen / 72) in
  u64 (olen + 1).

(** The result is [None] for [NULL], else the block and [*out_len]. *)
Definition base64_encode (malloc : Z -> option bytes) (src : bytes) : outcome (option (bytes * Z)) :=
  let len := zlen src in
  let olen := encode_olen len in
  if olen <? len then Ret None else
  out ← xmalloc malloc olen;
  let text := encode_text src in
  out ← mem_write out 0 (text ++ [0]);
  Ret (Some (out, zlen text)).

(** ** Decoding *)

(** [memset], the loop over the table, and the entry of ['=']. *)
Definition dtable : bytes :=
  let t := foldl (fun t i => <[Z.to_nat (base64_table !!! i) := Z.of_nat i]> t)
             (replicate 256 0x80) (seq 0 64) in
  <[61%nat := 0]> t.

Definition dec (c : Z) : Z := dtable !!! Z.to_nat c.

(** The first pass: characters that are in the table. *)
Definition decode_count (src : bytes) : Z :=
  foldl (fun count c => if dec c =? 0x80 then count else count + 1) 0 src.

(** The three bytes of a full [block[4]]. *)
Definition block_bytes (block : bytes) : bytes :=
  match block with
  | [b0; b1; b2; b3] =>
      [u8 (Z.lor (b0 ≪ 2) (b1 ≫ 4)); u8 (Z.lor (b1 ≪ 4) (b2 ≫ 2)); u8 (Z.lor (b2 ≪ 6) b3)]
  | _ => []
  end.

(** The second pass.  [block] holds [block[0..count)], [out] the bytes stored so far;
    the result is those bytes with [pos - out], or [None] on invalid padding. *)
Fixpoint decode_loop (src : bytes) (pad : Z) (block out : bytes) : option (bytes * Z) :=
  match src with
  | [] => Some (out, zlen out)
  | c :: src =>
      let tmp := dec c in
      if tmp =? 0x80 then decode_loop src pad block out else
      let pad := if c =? 61 then pad + 1 else pad in
      let block := block ++ [tmp] in
      if zlen block =? 4 then
        let out := out ++ block_bytes block in
        if pad =? 0 then decode_loop src pad [] out
        else if pad =? 1 then Some (out, zlen out - 1)
        else if pad =? 2 then Some (out, zlen out - 2)
        else None
      else decode_loop src pad block out
  end.

Definition base64_decode (malloc : Z -> option bytes) (src : bytes) : outcome (option (bytes * Z)) :=
  let count := decode_count src in
  if (count =? 0) || negb (count mod 4 =? 0) then Ret None else
  out ← xmalloc malloc (count / 4 * 3);
  match decode_loop src 0 [] [] with
  | None => Ret None
  | Some (written, n) => out ← mem_write out 0 written; Ret (Some (out, n))
  end.

Arguments tbl : simpl never.
Arguments dec : simpl never.
Arguments decode_count : simpl never.

(** ** The alphabet *)

Lemma tbl_spec i : 0 <= i < 64 -> dec (tbl i) = i /\ tbl i <> 61 /\ tbl i <> 10.
Proof.
  intros Hi.
  assert (forallb (fun n => let i := Z.of_nat n in
    (dec (tbl i) =? i) && negb (tbl i =? 61) && negb (tbl i =? 10)) (seq 0 64) = true) as H
    by (vm_compute; reflexivity).
  rewrite forallb_forall in H. specialize (H (Z.to_nat i)).
  rewrite Z2Nat.id in H by lia.
  assert (In (Z.to_nat i) (seq 0 64)) as Hin by (apply in_seq; lia).
  specialize (H Hin). rewrite !andb_true_iff, !negb_true_iff in H. lia.
Qed.

Lemma dec_newline : dec 10 = 0x80.
Proof. vm_compute. reflexivity. Qed.
Lemma dec_pad : dec 61 = 0.
Proof. vm_compute. reflexivity. Qed.

Lemma sextet_range x : 0 <= Z.land x 0x3f < 64.
Proof. change 0x3f with (2 ^ 6 - 1). rewrite land_mask by lia. apply Z.mod_pos_bound. lia. Qed.

(** ** Arithmetic of the encoder *)

(** Line feeds the main loop stores for [q] blocks, [k] blocks into a line. *)
Lemma encode_blocks_len src k :
  (k < 18)%nat ->
  let '(out, rest0, line_len) := encode_blocks src (4 * Z.of_nat k) in
  let q := zlen src / 3 in
  zlen out = 4 * q + (Z.of_nat k + q) / 18 /\ zlen rest0 = zlen src mod 3 /\
  line_len = 4 * ((Z.of_nat k + q) mod 18).
Proof.
  revert k. induction src as [|a|a b|a b c src IH] using list_ind3; intros k Hk; cbn [encode_blocks].
  1-3: rewrite ?zlen_cons, ?zlen_nil; dlia.
  destruct (Z.leb_spec 72 (4 * Z.of_nat k + 4)).
  - specialize (IH 0%nat ltac:(lia)). rewrite Z.mul_0_r in IH.
    destruct (encode_blocks src 0) as [[out rest0] ll]. cbn zeta in IH. autorewrite with zlen. dlia.
  - specialize (IH (S k) ltac:(lia)).
    replace (4 * Z.of_nat k + 4) with (4 * Z.of_nat (S k)) by lia.
    destruct (encode_blocks src _) as [[out rest0] ll]. cbn zeta in IH. autorewrite with zlen. dlia.
Qed.

Lemma encode_tail_len rest0 ll :
  let '(tail, ll') := encode_tail rest0 ll in
  zlen rest0 < 3 -> zlen tail = (if zlen rest0 =? 0 then 0 else 4) /\
  ll' = (if zlen rest0 =? 0 then ll else ll + 4).
Proof.
  destruct rest0 as [|a [|b [|c rest0]]]; cbn [encode_tail app]; intros;
    autorewrite with zlen in *; unfold zlen in *; repeat case_match; lia.
Qed.

Lemma encode_text_len src :
  let q := zlen src / 3 in
  let r := zlen src mod 3 in
  zlen (encode_text src) = 4 * ((zlen src + 2) / 3) + q / 18
    + (if (q mod 18 =? 0) && (r =? 0) then 0 else 1).
Proof.
  pose proof (encode_blocks_len src 0 ltac:(lia)) as H. unfold encode_text.
  rewrite Z.mul_0_r in H. destruct (encode_blocks src 0) as [[out rest0] ll].
  pose proof (encode_tail_len rest0 ll) as Ht. destruct (encode_tail rest0 ll) as [tail ll'].
  cbn zeta in *. destruct H as (Ho & Hr & Hl).
  destruct Ht as [Ht Hl']; [dlia|]. autorewrite with zlen.
  pose proof (zlen_nonneg src).
  destruct (Z.eqb_spec (zlen rest0) 0), (Z.eqb_spec ll' 0), (Z.eqb_spec (zlen src / 3 mod 18) 0),
    (Z.eqb_spec (zlen src mod 3) 0); cbn [andb]; rewrite ?zlen_cons, ?zlen_nil; dlia.
Qed.

(** The size that is computed has room for the text and its NUL. *)
Lemma encode_text_fits src :
  zlen src < 2 ^ 61 -> zlen (encode_text src) + 1 <= encode_olen (zlen src) < 2 ^ 63 /\
  zlen src <= encode_olen (zlen src).
Proof.
  intros Hs. pose proof (zlen_nonneg src). rewrite encode_text_len. unfold encode_olen.
  rewrite (u64_small (zlen src * 4)) by lia.
  rewrite (u64_small (zlen src * 4 / 3 + 4)) by dlia.
  rewrite (u64_small (_ + _ / 72)) by dlia. rewrite u64_small by dlia.
  destruct (_ && _); dlia.
Qed.

(** ** Decoding an encoded text *)

Lemma decode_skip src pad block out : decode_loop (10 :: src) pad block out = decode_loop src pad block out.
Proof. cbn. by rewrite dec_newline. Qed.

Lemma decode_char i src pad block out :
  0 <= i < 64 -> zlen block < 3 ->
  decode_loop (tbl i :: src) pad block out = decode_loop src pad (block ++ [i]) out.
Proof.
  intros Hi Hb. cbn. destruct (tbl_spec i Hi) as (-> & Hp & _).
  destruct (Z.eqb_spec i 0x80); [lia|]. destruct (Z.eqb_spec (tbl i) 61); [done|].
  destruct (Z.eqb_spec (zlen (block ++ [i])) 4); [zlia|done].
Qed.

Lemma decode_last i src b0 b1 b2 out :
  0 <= i < 64 ->
  decode_loop (tbl i :: src) 0 [b0; b1; b2] out =
    decode_loop src 0 [] (out ++ block_bytes [b0; b1; b2; i]).
Proof.
  intros Hi. cbn. destruct (tbl_spec i Hi) as (-> & Hp & _).
  destruct (Z.eqb_spec i 0x80); [lia|]. destruct (Z.eqb_spec (tbl i) 61); [done|]. done.
Qed.

(** Four characters of the alphabet decode to the three bytes they were made from. *)
Lemma block_bytes_encode a b c :
  is_u8 a -> is_u8 b -> is_u8 c ->
  block_bytes [Z.land (a ≫ 2) 0x3f; Z.land (Z.lor (Z.land a 0x03 ≪ 4) (b ≫ 4)) 0x3f;
               Z.land (Z.lor (Z.land b 0x0f ≪ 2) (c ≫ 6)) 0x3f; Z.land c 0x3f] = [a; b; c].
Proof.
  intros Ha Hb Hc. unfold in_range in *. cbn [block_bytes].
  assert (u8 (Z.lor (Z.land (a ≫ 2) 0x3f ≪ 2)
            (Z.land (Z.lor (Z.land a 0x03 ≪ 4) (b ≫ 4)) 0x3f ≫ 4)) = a) as ->.
  { apply Z.eqb_eq. revert a b Ha Hb. apply (zrange_forall2 256 256). vm_compute. reflexivity. }
  assert (u8 (Z.lor (Z.land (Z.lor (Z.land b 0x0f ≪ 2) (c ≫ 6)) 0x3f ≪ 6) (Z.land c 0x3f)) = c) as ->.
  { apply Z.eqb_eq. revert b c Hb Hc. apply (zrange_forall2 256 256). vm_compute. reflexivity. }
  do 2 f_equal. (* the middle byte only sees two bits of [a] and of [c] *)
  assert (0 <= Z.land a 3 < 4) as Hx.
  { change 3 with (2 ^ 2 - 1). rewrite land_mask by lia. apply Z.mod_pos_bound. lia. }
  assert (0 <= c ≫ 6 < 4) as Hz by (rewrite Z.shiftr_div_pow2 by lia; dlia).
  revert Hx Hz. generalize (Z.land a 3), (c ≫ 6). intros x z Hx Hz.
  apply Z.eqb_eq. revert b Hb. apply (zrange_forall 256).
  revert x z Hx Hz. apply (zrange_forall2 4 4). vm_compute. reflexivity.
Qed.

(** The main loop's text decodes to the blocks it consumed. *)
Lemma decode_encode_blocks src ll :
  is_bytes src ->
  let '(o, r, _) := encode_blocks src ll in
  exists pre, src = pre ++ r /\ zlen r < 3 /\
    forall tl out, decode_loop (o ++ tl) 0 [] out = decode_loop tl 0 [] (out ++ pre).
Proof.
  intros Hb. revert ll Hb. induction src as [|a|a b|a b c src IH] using list_ind3; intros ll Hb;
    cbn [encode_blocks].
  1-3: exists []; split_and!; [done|done|intros; by rewrite app_nil_r].
  inversion Hb as [|? ? Ha Hb1]; subst. inversion Hb1 as [|? ? Hb2 Hb3]; subst.
  inversion Hb3 as [|? ? Hc Hs]; subst.
  destruct (if 72 <=? ll + 4 then _ else _) as [nl ll'] eqn:Hnl.
  specialize (IH ll' Hs). destruct (encode_blocks src ll') as [[o r] ll''].
  destruct IH as (pre & -> & Hr & IH). exists (a :: b :: c :: pre). split_and!; [done|done|].
  intros tl out. rewrite <-!app_assoc. cbn [app].
  do 3 (rewrite decode_char by (try apply sextet_range; zlia); cbn [app]).
  rewrite decode_last by apply sextet_range.
  rewrite block_bytes_encode by done.
  assert (forall l blk, decode_loop (nl ++ l) 0 [] blk = decode_loop l 0 [] blk) as ->.
  { intros l blk. destruct (72 <=? ll + 4); injection Hnl as <- <-; [apply decode_skip|done]. }
  rewrite IH. by rewrite <-app_assoc.
Qed.

(** The tail decodes to the last one or two bytes. *)
Lemma decode_encode_tail r ll tl out :
  is_bytes r -> 0 < zlen r < 3 ->
  exists w, decode_loop ((encode_tail r ll).1 ++ tl) 0 [] out = Some (out ++ w, zlen (out ++ r)) /\
    take (length r) w = r /\ zlen w = 3.
Proof.
  intros Hb Hr. destruct r as [|a [|b [|c r]]]; [zlia| | |zlia].
  all: inversion Hb as [|? ? Ha Hb1]; subst; cbn [encode_tail fst app].
  - do 2 (rewrite decode_char by (try apply sextet_range; zlia); cbn [app]).
    pose proof (block_bytes_encode a 0 0 Ha ltac:(done) ltac:(done)) as Hblk.
    rewrite !Z.shiftr_0_l, !Z.lor_0_r in Hblk.
    exists [a; 0; 0]. split_and!; [|done|done].
    cbn -[block_bytes]. rewrite dec_pad. cbn -[block_bytes].
    change (Z.land (Z.land 0 15 ≪ 2) 63) with 0 in Hblk. change (Z.land 0 63) with 0 in Hblk.
    rewrite Hblk. do 2 f_equal. zlia.
  - inversion Hb1 as [|? ? Hb2 _]; subst.
    do 3 (rewrite decode_char by (try apply sextet_range; zlia); cbn [app]).
    pose proof (block_bytes_encode a b 0 Ha Hb2 ltac:(done)) as Hblk.
    rewrite Z.shiftr_0_l, Z.lor_0_r in Hblk. change (Z.land 0 63) with 0 in Hblk.
    exists [a; b; 0]. split_and!; [|done|done].
    cbn -[block_bytes]. rewrite dec_pad. cbn -[block_bytes]. rewrite Hblk.
    do 2 f_equal. zlia.
Qed.

(** The whole text decodes to the source: the bytes stored start with it and the
    length that is returned is its length. *)
Lemma decode_encode_text src :
  is_bytes src ->
  exists w, decode_loop (encode_text src) 0 [] [] = Some (w, zlen src) /\
    take (length src) w = src /\ zlen w = (zlen src + 2) / 3 * 3.
Proof.
  intros Hb. pose proof (decode_encode_blocks src 0 Hb) as H.
  pose proof (encode_blocks_len src 0 ltac:(lia)) as Hl. rewrite Z.mul_0_r in Hl.
  unfold encode_text. destruct (encode_blocks src 0) as [[o r] ll].
  cbn zeta in Hl. destruct Hl as (_ & Hr & _).
  destruct H as (pre & -> & Hr3 & H).
  assert (zlen pre mod 3 = 0) as Hp by (autorewrite with zlen in Hr; pose proof (zlen_nonneg r); dlia).
  apply Forall_app in Hb as [_ Hbr]. pose proof (zlen_nonneg r).
  destruct r as [|x r'] eqn:Er.
  - cbn [encode_tail app]. rewrite H. exists pre. rewrite app_nil_r.
    split_and!; [|by rewrite take_ge by lia|dlia].
    case_match; cbn; rewrite ?dec_newline; done.
  - rewrite <-Er in *.
    destruct (decode_encode_tail r ll (if (encode_tail r ll).2 =? 0 then [] else [10]) pre Hbr)
      as (w & Hw & Htk & Hz).
    { subst r. rewrite zlen_cons. pose proof (zlen_nonneg r'). rewrite zlen_cons in Hr3. lia. }
    destruct (encode_tail r ll) as [tail ll']. rewrite H. cbn [app fst snd] in *. rewrite Hw.
    exists (pre ++ w). split_and!; [done| |].
    + rewrite length_app, take_app_add. by rewrite Htk.
    + autorewrite with zlen. subst r. rewrite zlen_cons in *. pose proof (zlen_nonneg r'). dlia.
Qed.

(** ** The first pass, and memory safety of the decoder *)

#[local] Opaque dtable.

Lemma decode_count_acc src n :
  foldl (fun count c => if dec c =? 0x80 then count else count + 1) n src = n + decode_count src.
Proof.
  unfold decode_count. revert n. induction src as [|x src IH]; intros n; cbn [foldl]; [lia|].
  destruct (dec x =? 0x80); [apply IH|]. rewrite (IH (n + 1)), (IH (0 + 1)). lia.
Qed.

Lemma decode_count_cons c src :
  decode_count (c :: src) = (if dec c =? 0x80 then 0 else 1) + decode_count src.
Proof.
  unfold decode_count at 1. cbn. rewrite decode_count_acc. destruct (dec c =? 0x80); lia.
Qed.

Lemma decode_count_app s1 s2 : decode_count (s1 ++ s2) = decode_count s1 + decode_count s2.
Proof. unfold decode_count at 1. rewrite foldl_app. apply decode_count_acc. Qed.

Lemma decode_count_nonneg src : 0 <= decode_count src.
Proof. induction src; [done|]. rewrite decode_count_cons. case_match; lia. Qed.

Lemma decode_count_tbl i src : 0 <= i < 64 -> decode_count (tbl i :: src) = 1 + decode_count src.
Proof.
  intros Hi. rewrite decode_count_cons. destruct (tbl_spec i Hi) as (-> & _).
  destruct (Z.eqb_spec i 0x80); [lia|done].
Qed.

Lemma block_bytes_len block : zlen block = 4 -> zlen (block_bytes block) = 3.
Proof.
  intros. destruct block as [|? [|? [|? [|? [|? ?]]]]]; autorewrite with zlen in *; done || zlia.
Qed.

(** Every group of four counted characters stores three bytes, so the bytes stored
    never exceed [count / 4 * 3]. *)
Lemma decode_loop_bound src pad block out w n :
  0 <= pad -> zlen block < 4 -> decode_loop src pad block out = Some (w, n) ->
  zlen w <= zlen out + (zlen block + decode_count src) / 4 * 3 /\ 0 <= n <= zlen w.
Proof.
  revert pad block out. induction src as [|c src IH]; intros pad block out Hp Hb; cbn [decode_loop].
  { intros [= -> <-]. pose proof (zlen_nonneg block). pose proof (zlen_nonneg w).
    change (decode_count []) with 0. dlia. }
  rewrite decode_count_cons. pose proof (decode_count_nonneg src).
  destruct (dec c =? 0x80); [intros HL; apply IH in HL; done|].
  assert (0 <= (if c =? 61 then pad + 1 else pad)) as Hp' by (destruct (c =? 61); lia).
  revert Hp'. generalize (if c =? 61 then pad + 1 else pad). intros pad' Hp'.
  destruct (Z.eqb_spec (zlen (block ++ [dec c])) 4) as [H4|H4].
  - pose proof (block_bytes_len _ H4). pose proof (zlen_nonneg out).
    destruct (pad' =? 0); [intros HL; apply IH in HL; [|done|done]|].
    { autorewrite with zlen in *. dlia. }
    repeat case_match; intros; simplify_eq; autorewrite with zlen in *; dlia.
  - intros HL. apply IH in HL; [|done|]; autorewrite with zlen in *; [|lia]. dlia.
Qed.

(** The characters that are counted in an encoded text. *)
Lemma decode_count_encode src : decode_count (encode_text src) = 4 * ((zlen src + 2) / 3).
Proof.
  assert (forall ll, let '(o, r, _) := encode_blocks src ll in
    decode_count o = 4 * (zlen src / 3) /\ zlen r = zlen src mod 3) as H.
  { induction src as [|a|a b|a b c src IH] using list_ind3; intros ll; cbn [encode_blocks].
    1-3: autorewrite with zlen; change (decode_count []) with 0; dlia.
    destruct (if 72 <=? ll + 4 then _ else _) as [nl ll'] eqn:Hnl.
    specialize (IH ll'). destruct (encode_blocks src ll') as [[o r] ll''].
    cbn [app]. rewrite !decode_count_tbl by apply sextet_range. rewrite decode_count_app.
    assert (decode_count nl = 0) as ->.
    { destruct (72 <=? ll + 4); injection Hnl as <- <-; done. }
    rewrite !zlen_cons. dlia. }
  specialize (H 0). unfold encode_text. destruct (encode_blocks src 0) as [[o r] ll].
  destruct H as [Ho Hr].
  assert (decode_count (encode_tail r ll).1 = if zlen r =? 0 then 0 else 4) as Ht.
  { pose proof (zlen_nonneg src).
    destruct r as [|a [|b [|c r]]]; [done| | |autorewrite with zlen in Hr; unfold zlen in *; dlia].
    all: cbn [encode_tail fst app]; rewrite !decode_count_tbl by apply sextet_range; done. }
  destruct (encode_tail r ll) as [tail ll']. cbn [fst] in Ht.
  rewrite !decode_count_app, Ho, Ht.
  assert (decode_count (if ll' =? 0 then [] else [10]) = 0) as ->.
  { by destruct (ll' =? 0). }
  pose proof (zlen_nonneg src). destruct (Z.eqb_spec (zlen r) 0); dlia.
Qed.

(** ** Properties *)

Section with_malloc.
Context (malloc : Z -> option bytes) `{!MallocSpec malloc}.
Context (Hmalloc : forall n, 0 < n < 2 ^ 31 -> is_Some (malloc n)).

Lemma base64_encode_ok src :
  zlen src <= 1500000000 ->
  exists out rest0, base64_encode malloc src = Ret (Some (out, zlen (encode_text src))) /\
    out = encode_text src ++ [0] ++ rest0 /\ zlen out = encode_olen (zlen src).
Proof.
  intros Hs. destruct (encode_text_fits src ltac:(lia)) as [Hfit Hge]. unfold base64_encode.
  assert (encode_olen (zlen src) < 2 ^ 31) as Hsmall.
  { pose proof (zlen_nonneg src). unfold encode_olen.
    rewrite (u64_small (zlen src * 4)) by lia.
    rewrite (u64_small (zlen src * 4 / 3 + 4)) by dlia.
    rewrite (u64_small (_ + _ / 72)) by dlia. rewrite u64_small by dlia. dlia. }
  destruct (Z.ltb_spec (encode_olen (zlen src)) (zlen src)); [lia|].
  pose proof (zlen_nonneg (encode_text src)).
  destruct (xmalloc_total malloc Hmalloc (encode_olen (zlen src)) ltac:(lia)) as (mem & -> & Hm). cbn -[encode_text].
  rewrite mem_write_ok by zlia. cbn -[encode_text take drop].
  eexists _, _. split_and!; [done| |].
  - rewrite <-app_assoc. cbn [take app]. reflexivity.
  - autorewrite with zlen. rewrite length_app. cbn [length]. zlia.
Qed.

Lemma base64_decode_ok src w n :
  0 < decode_count src < 2 ^ 31 -> decode_count src mod 4 = 0 ->
  decode_loop src 0 [] [] = Some (w, n) ->
  exists out, base64_decode malloc src = Ret (Some (out, n)) /\ take (length w) out = w /\
    0 <= n <= zlen w /\ zlen w <= zlen out.
Proof.
  intros Hc Hm Hd. unfold base64_decode.
  destruct (Z.eqb_spec (decode_count src) 0); [lia|]. rewrite Hm. cbn -[decode_loop mem_write].
  destruct (xmalloc_total malloc Hmalloc (decode_count src / 4 * 3) ltac:(dlia)) as (mem & -> & Hz).
  cbn -[decode_loop mem_write]. rewrite Hd.
  apply decode_loop_bound in Hd as [Hw Hn]; [|done|done]. autorewrite with zlen in Hw.
  rewrite !Z.add_0_l in Hw. rewrite mem_write_ok by lia. cbn -[take drop].
  eexists. split_and!; [done| |lia|lia|].
  - change (take (length w) (w ++ drop (length w) mem) = w). apply take_app_length.
  - autorewrite with zlen. pose proof (zlen_nonneg mem). lia.
Qed.

(** C22: encoding then decoding gives back the source.  For every source of at most 1.5 GB, whose text has a size
    that the [int] of [xmalloc] can hold, and a heap with room, [base64_encode] stores a NUL-terminated text inside
    the block it allocated, and [base64_decode] of that text returns a block whose first [*out_len] bytes are the
    source; the text of the empty source is empty, and for that it returns [NULL]. *)
Theorem base64_roundtrip src :
  is_bytes src -> zlen src <= 1500000000 ->
  exists enc n, base64_encode malloc src = Ret (Some (enc, n)) /\ enc !! Z.to_nat n = Some 0 /\
    if bool_decide (src = []) then n = 0 /\ base64_decode malloc (take (Z.to_nat n) enc) = Ret None
    else exists dec m, base64_decode malloc (take (Z.to_nat n) enc) = Ret (Some (dec, m)) /\ take (Z.to_nat m) dec = src.
Proof.
  intros Hb Hs. destruct (base64_encode_ok src ltac:(lia)) as (enc & rest0 & He & Henc & _).
  exists enc, (zlen (encode_text src)). rewrite !zlen_nat. split_and!; [done|rewrite Henc; by apply list_lookup_middle|].
  rewrite Henc, take_app_length. case_bool_decide as Hne; [by subst src|].
  assert (0 < zlen src) as Hpos by (destruct src; [done|unfold zlen; cbn; lia]).
  destruct (decode_encode_text src Hb) as (w & Hd & Hw & Hz). pose proof (decode_count_encode src) as Hc.
  destruct (base64_decode_ok (encode_text src) w (zlen src)) as (dec & Hdec & Ht & Hn & _).
  1-3: first [done|dlia].
  exists dec, (zlen src). split; [done|]. rewrite zlen_nat.
  rewrite <-Ht in Hw. rewrite take_take in Hw. rewrite <-Hw at 2. f_equal. zlia.
Qed.

(** decoding never leaves its buffers.  For every input, well formed or not,
    with fewer than 2^31 counted characters, [base64_decode] returns [NULL] or a
    block with at least the [*out_len] bytes it announces. *)
Theorem base64_decode_safe src :
  decode_count src < 2 ^ 31 ->
  match base64_decode malloc src with
  | Ret None => True
  | Ret (Some (out, n)) => 0 <= n <= zlen out
  | _ => False
  end.
Proof.
  intros Hc. pose proof (decode_count_nonneg src).
  destruct (decide (decode_count src = 0 \/ decode_count src mod 4 <> 0)) as [Hbad|Hok].
  { unfold base64_decode.
    destruct (Z.eqb_spec (decode_count src) 0), (Z.eqb_spec (decode_count src mod 4) 0);
      cbn; done || lia. }
  destruct (decode_loop src 0 [] []) as [[w n]|] eqn:Hd.
  - destruct (base64_decode_ok src w n) as (out & -> & _ & ? & ?); [lia|lia|done|lia].
  - unfold base64_decode. rewrite Hd.
    destruct (_ || _); [done|].
    destruct (xmalloc_total malloc Hmalloc (decode_count src / 4 * 3) ltac:(dlia)) as (mem & -> & Hz). done.
Qed.
End with_malloc.

Lemma base64_roundtrip_witness :
  exists enc n, base64_encode demo_malloc [77; 97; 110; 33] = Ret (Some (enc, n)) /\ enc !! Z.to_nat n = Some 0 /\
    if bool_decide ([77; 97; 110; 33] = []) then n = 0 /\ base64_decode demo_malloc (take (Z.to_nat n) enc) = Ret None
    else exists dec m, base64_decode demo_malloc (take (Z.to_nat n) enc) = Ret (Some (dec, m)) /\ take (Z.to_nat m) dec = [77; 97; 110; 33].
Proof.
  apply (base64_roundtrip demo_malloc demo_malloc_total); [|by vm_compute].
  repeat constructor; by vm_compute.
Defined.

Lemma base64_decode_safe_witness :
  match base64_decode demo_malloc [61; 61; 61; 61; 65] with
  | Ret None => True
  | Ret (Some (out, n)) => 0 <= n <= zlen out
  | _ => False
  end.
Proof. apply (base64_decode_safe demo_malloc demo_malloc_total). by vm_compute. Defined.

(** Characters outside the alphabet (line feeds, blanks, anything else) do not
    change what is decoded. *)
Theorem base64_decode_skips malloc src :
  base64_decode malloc src = base64_decode malloc (filter (fun c => dec c <> 0x80) src).
Proof.
  assert (decode_count (filter (fun c => dec c <> 0x80) src) = decode_count src) as Hc.
  { induction src as [|c src IH]; [done|]. rewrite filter_cons.
    destruct (decide (dec c <> 0x80)); rewrite !decode_count_cons, IH; [done|].
    destruct (Z.eqb_spec (dec c) 0x80); [done|tauto]. }
  assert (forall pad block out, decode_loop (filter (fun c => dec c <> 0x80) src) pad block out
    = decode_loop src pad block out) as Hl.
  { clear Hc. induction src as [|c src IH]; intros pad block out; [done|].
    rewrite filter_cons. destruct (decide (dec c <> 0x80)); cbn [decode_loop]; rewrite ?IH.
    - destruct (Z.eqb_spec (dec c) 0x80); [done|]. by repeat case_match.
    - destruct (Z.eqb_spec (dec c) 0x80); [done|tauto]. }
  unfold base64_decode. by rewrite Hc, Hl.
Qed.

(** [olen] is a [size_t] but [xmalloc] takes an [int]: for a source of 3 GiB the
    overflow test passes, the size 2^32 + 59652328 is cut to 59652328 bytes, and the
    encoder writes past the block. *)
Theorem base64_encode_int_truncation malloc `{!MallocSpec malloc} src :
  (forall n, 0 < n < 2 ^ 31 -> is_Some (malloc n)) -> zlen src = 3 * 2 ^ 30 ->
  base64_encode malloc src = Undef.
Proof.
  intros Hm Hs. unfold base64_encode.
  assert (encode_olen (zlen src) = 2 ^ 32 + 59652328) as -> by (by rewrite Hs).
  destruct (Z.ltb_spec (2 ^ 32 + 59652328) (zlen src)); [lia|].
  destruct (xmalloc_total malloc Hm 59652328 ltac:(lia)) as (mem & Hx & Hz).
  assert (xmalloc malloc (2 ^ 32 + 59652328) = xmalloc malloc 59652328) as -> by done.
  rewrite Hx. cbn -[encode_text]. unfold mem_write.
  pose proof (encode_text_len src) as Hl. cbn zeta in Hl.
  rewrite (proj2 (Z.leb_gt _ (zlen mem))); [done|].
  rewrite zlen_app, Hl, Hs, Hz. by vm_compute.
Qed.

Lemma base64_encode_int_truncation_witness :
  base64_encode demo_malloc (replicate (Z.to_nat (3 * 2 ^ 30)) 0) = Undef.
Proof.
  apply (base64_encode_int_truncation demo_malloc).
  - exact demo_malloc_total.
  - rewrite zlen_replicate. apply Z2Nat.id. lia.
Defined.
