(* ===== verification/Base64Android.v ===== *)
(** Base64 of src/util/base64.c, the Android variant ([BASE64_ANDROID] is 1).

    The encoder ([do_encode], [base64_encode]) and the decoder ([do_decode],
    [base64_decode]) with their four tables.  The caller passes the output array, so
    the stores are checked against it.  The theorems show that the announced length
    is the number of bytes stored, that the fast path of the decoder can be removed,
    as its comment says, and that decoding inverts encoding.  Lengths are C [int]s
    kept as mathematical integers: the model is of inputs of less than [2^28] bytes,
    where none of the length computations overflows. *)

From S2P Require Import Prelude Util.

Definition BASE64_NO_PADDING : Z := 1.
Definition BASE64_NO_WRAP : Z := 2.
Definition BASE64_CRLF : Z := 4.
Definition BASE64_URL_SAFE : Z := 8.

Definition LINE_GROUPS : Z := 19.

(** ['A'..'Z'], ['a'..'z'], ['0'..'9'], ['+'], ['/']. *)
Definition ENCODE : list Z := [
   65; 66; 67; 68; 69; 70; 71; 72; 73; 74; 75; 76; 77; 78; 79; 80;
   81; 82; 83; 84; 85; 86; 87; 88; 89; 90; 97; 98; 99; 100; 101; 102;
   103; 104; 105; 106; 107; 108; 109; 110; 111; 112; 113; 114; 115; 116; 117; 118;
   119; 120; 121; 122; 48; 49; 50; 51; 52; 53; 54; 55; 56; 57; 43; 47].

(** The same with ['-'] and ['_']. *)
Definition ENCODE_WEBSAFE : list Z := [
   65; 66; 67; 68; 69; 70; 71; 72; 73; 74; 75; 76; 77; 78; 79; 80;
   81; 82; 83; 84; 85; 86; 87; 88; 89; 90; 97; 98; 99; 100; 101; 102;
   103; 104; 105; 106; 107; 108; 109; 110; 111; 112; 113; 114; 115; 116; 117; 118;
   119; 120; 121; 122; 48; 49; 50; 51; 52; 53; 54; 55; 56; 57; 45; 95].

(** Positions in the alphabet; [-1] is SKIP and [-2] is EQUALS. *)
Definition DECODE : list Z := [
   (-1); (-1); (-1); (-1); (-1); (-1); (-1); (-1); (-1); (-1); (-1); (-1); (-1); (-1); (-1); (-1);
   (-1); (-1); (-1); (-1); (-1); (-1); (-1); (-1); (-1); (-1); (-1); (-1); (-1); (-1); (-1); (-1);
   (-1); (-1); (-1); (-1); (-1); (-1); (-1); (-1); (-1); (-1); (-1); 62; (-1); (-1); (-1); 63;
   52; 53; 54; 55; 56; 57; 58; 59; 60; 61; (-1); (-1); (-1); (-2); (-1); (-1);
   (-1); 0; 1; 2; 3; 4; 5; 6; 7; 8; 9; 10; 11; 12; 13; 14;
   15; 16; 17; 18; 19; 20; 21; 22; 23; 24; 25; (-1); (-1); (-1); (-1); (-1);
   (-1); 26; 27; 28; 29; 30; 31; 32; 33; 34; 35; 36; 37; 38; 39; 40;
   41; 42; 43; 44; 45; 46; 47; 48; 49; 50; 51; (-1); (-1); (-1); (-1); (-1);
   (-1); (-1); (-1); (-1); (-1); (-1); (-1); (-1); (-1); (-1); (-1); (-1); (-1); (-1); (-1); (-1);
   (-1); (-1); (-1); (-1); (-1); (-1); (-1); (-1); (-1); (-1); (-1); (-1); (-1); (-1); (-1); (-1);
   (-1); (-1); (-1); (-1); (-1); (-1); (-1); (-1); (-1); (-1); (-1); (-1); (-1); (-1); (-1); (-1);
   (-1); (-1); (-1); (-1); (-1); (-1); (-1); (-1); (-1); (-1); (-1); (-1); (-1); (-1); (-1); (-1);
   (-1); (-1); (-1); (-1); (-1); (-1); (-1); (-1); (-1); (-1); (-1); (-1); (-1); (-1); (-1); (-1);
   (-1); (-1); (-1); (-1); (-1); (-1); (-1); (-1); (-1); (-1); (-1); (-1); (-1); (-1); (-1); (-1);
   (-1); (-1); (-1); (-1); (-1); (-1); (-1); (-1); (-1); (-1); (-1); (-1); (-1); (-1); (-1); (-1);
   (-1); (-1); (-1); (-1); (-1); (-1); (-1); (-1); (-1); (-1); (-1); (-1); (-1); (-1); (-1); (-1)].

Definition DECODE_WEBSAFE : list Z := [
   (-1); (-1); (-1); (-1); (-1); (-1); (-1); (-1); (-1); (-1); (-1); (-1); (-1); (-1); (-1); (-1);
   (-1); (-1); (-1); (-1); (-1); (-1); (-1); (-1); (-1); (-1); (-1); (-1); (-1); (-1); (-1); (-1);
   (-1); (-1); (-1); (-1); (-1); (-1); (-1); (-1); (-1); (-1); (-1); (-1); (-1); 62; (-1); (-1);
   52; 53; 54; 55; 56; 57; 58; 59; 60; 61; (-1); (-1); (-1); (-2); (-1); (-1);
   (-1); 0; 1; 2; 3; 4; 5; 6; 7; 8; 9; 10; 11; 12; 13; 14;
   15; 16; 17; 18; 19; 20; 21; 22; 23; 24; 25; (-1); (-1); (-1); (-1); 63;
   (-1); 26; 27; 28; 29; 30; 31; 32; 33; 34; 35; 36; 37; 38; 39; 40;
   41; 42; 43; 44; 45; 46; 47; 48; 49; 50; 51; (-1); (-1); (-1); (-1); (-1);
   (-1); (-1); (-1); (-1); (-1); (-1); (-1); (-1); (-1); (-1); (-1); (-1); (-1); (-1); (-1); (-1);
   (-1); (-1); (-1); (-1); (-1); (-1); (-1); (-1); (-1); (-1); (-1); (-1); (-1); (-1); (-1); (-1);
   (-1); (-1); (-1); (-1); (-1); (-1); (-1); (-1); (-1); (-1); (-1); (-1); (-1); (-1); (-1); (-1);
   (-1); (-1); (-1); (-1); (-1); (-1); (-1); (-1); (-1); (-1); (-1); (-1); (-1); (-1); (-1); (-1);
   (-1); (-1); (-1); (-1); (-1); (-1); (-1); (-1); (-1); (-1); (-1); (-1); (-1); (-1); (-1); (-1);
   (-1); (-1); (-1); (-1); (-1); (-1); (-1); (-1); (-1); (-1); (-1); (-1); (-1); (-1); (-1); (-1);
   (-1); (-1); (-1); (-1); (-1); (-1); (-1); (-1); (-1); (-1); (-1); (-1); (-1); (-1); (-1); (-1);
   (-1); (-1); (-1); (-1); (-1); (-1); (-1); (-1); (-1); (-1); (-1); (-1); (-1); (-1); (-1); (-1)].

Definition SKIP : Z := -1.
Definition EQUALS : Z := -2.

(** ** Encoder *)

Definition flag (flags f : Z) : bool := negb (Z.land flags f =? 0).

Definition enc_alphabet (flags : Z) : list Z :=
  if negb (flag flags BASE64_URL_SAFE) then ENCODE else ENCODE_WEBSAFE.

Definition at_enc (alphabet : list Z) (v : Z) : Z := alphabet !!! Z.to_nat (Z.land v 0x3f).

(** The line terminator, with the optional carriage return. *)
Definition eol (do_cr : bool) : bytes := (if do_cr then [13] else []) ++ [10].

(** The main loop [while ((p + 3) <= len)]: bytes stored, input left, [count]. *)
Fixpoint encode_groups (alphabet : list Z) (do_cr : bool) (input : bytes) (count : Z)
    : bytes * bytes * Z :=
  match input with
  | a :: b :: c :: rest =>
      let v := Z.lor (Z.lor (Z.land a 0xff ≪ 16) (Z.land b 0xff ≪ 8)) (Z.land c 0xff) in
      let quad := [at_enc alphabet (v ≫ 18); at_enc alphabet (v ≫ 12);
                   at_enc alphabet (v ≫ 6); at_enc alphabet v] in
      let count := count - 1 in
      let '(nl, count) := if count =? 0 then (eol do_cr, LINE_GROUPS) else ([], count) in
      let '(out, rest0, count) := encode_groups alphabet do_cr rest count in
      (quad ++ nl ++ out, rest0, count)
  | _ => ([], input, count)
  end.

(** [do_encode]: the bytes stored in [output]; [tail_len] is zero throughout, so the
    tail is read from [input]. *)
Definition do_encode (do_padding do_newline do_cr : bool) (input : bytes) (flags : Z) : bytes :=
  let count := if do_newline then LINE_GROUPS else -1 in
  let alphabet := enc_alphabet flags in
  let '(out, rest0, count) := encode_groups alphabet do_cr input count in
  match rest0 with
  | [a] =>
      let v := Z.land a 0xff ≪ 4 in
      out ++ [at_enc alphabet (v ≫ 6); at_enc alphabet v]
        ++ (if do_padding then [61; 61] else [])
        ++ (if do_newline then eol do_cr else [])
  | [a; b] =>
      let v := Z.lor (Z.land a 0xff ≪ 10) (Z.land b 0xff ≪ 2) in
      out ++ [at_enc alphabet (v ≫ 12); at_enc alphabet (v ≫ 6); at_enc alphabet v]
        ++ (if do_padding then [61] else [])
        ++ (if do_newline then eol do_cr else [])
  | _ =>
      out ++ (if do_newline && (0 <? zlen out) && negb (count =? LINE_GROUPS)
              then eol do_cr else [])
  end.

(** The length that [base64_encode] announces. *)
Definition encode_len (len flags : Z) : Z :=
  let do_padding := negb (flag flags BASE64_NO_PADDING) in
  let do_newline := negb (flag flags BASE64_NO_WRAP) in
  let do_cr := flag flags BASE64_CRLF in
  let output_len := len / 3 * 4 in
  let output_len :=
    if do_padding then (if 0 <? len mod 3 then output_len + 4 else output_len)
    else if len mod 3 =? 1 then output_len + 2
    else if len mod 3 =? 2 then output_len + 3 else output_len in
  if do_newline && (0 <? len)
  then output_len + ((len - 1) / (3 * LINE_GROUPS) + 1) * (if do_cr then 2 else 1)
  else output_len.

(** [base64_encode]: the output array after the stores, and the announced length. *)
Definition base64_encode (input output : bytes) (flags : Z) : outcome (bytes * Z) :=
  let do_padding := negb (flag flags BASE64_NO_PADDING) in
  let do_newline := negb (flag flags BASE64_NO_WRAP) in
  let do_cr := flag flags BASE64_CRLF in
  output ← mem_write output 0 (do_encode do_padding do_newline do_cr input flags);
  Ret (output, encode_len (zlen input) flags).

(** ** Decoder *)

Definition dec_alphabet (flags : Z) : list Z :=
  if negb (flag flags BASE64_URL_SAFE) then DECODE else DECODE_WEBSAFE.

Definition at_dec (alphabet : list Z) (c : Z) : Z := alphabet !!! Z.to_nat (Z.land c 0xff).

(** The stores of a full tuple. *)
Definition triple (value : Z) : bytes := [u8 (value ≫ 16); u8 (value ≫ 8); u8 value].

(** The fast path: while four more bytes are all data, store their triple. *)
Fixpoint fast_path (alphabet : list Z) (input : bytes) (value : Z) : bytes * bytes * Z :=
  match input with
  | a :: b :: c :: d :: rest =>
      let value := Z.lor (Z.lor (Z.lor (at_dec alphabet a ≪ 18) (at_dec alphabet b ≪ 12))
                      (at_dec alphabet c ≪ 6)) (at_dec alphabet d) in
      if 0 <=? value then
        let '(out, rest0, value') := fast_path alphabet rest value in
        (triple value ++ out, rest0, value')
      else ([], input, value)
  | _ => ([], input, value)
  end.

(** One character through the [switch (state)]: the stores, the new state and the
    new value; [None] for state 6, where the function returns false. *)
Definition slow_step (state value d : Z) : option (bytes * Z * Z) :=
  if state =? 0 then
    if 0 <=? d then Some ([], 1, d) else if d =? SKIP then Some ([], 0, value) else None
  else if state =? 1 then
    if 0 <=? d then Some ([], 2, Z.lor (value ≪ 6) d)
    else if d =? SKIP then Some ([], 1, value) else None
  else if state =? 2 then
    if 0 <=? d then Some ([], 3, Z.lor (value ≪ 6) d)
    else if d =? EQUALS then Some ([u8 (value ≫ 4)], 4, value)
    else if d =? SKIP then Some ([], 2, value) else None
  else if state =? 3 then
    if 0 <=? d then let value := Z.lor (value ≪ 6) d in Some (triple value, 0, value)
    else if d =? EQUALS then Some ([u8 (value ≫ 10); u8 (value ≫ 2)], 5, value)
    else if d =? SKIP then Some ([], 3, value) else None
  else if state =? 4 then
    if d =? EQUALS then Some ([], 5, value) else if d =? SKIP then Some ([], 4, value) else None
  else
    if d =? SKIP then Some ([], state, value) else None.

(** The outer loop.  [fast] says whether the fast-path block is there; each round
    takes at least one byte, so the length of the input is enough fuel.  The result
    is the bytes stored and, unless the function returned false, state and value. *)
Fixpoint decode_rounds (fast : bool) (fuel : nat) (alphabet : list Z) (input : bytes)
    (state value : Z) : bytes * option (Z * Z) :=
  match fuel with
  | O => ([], Some (state, value))
  | S fuel =>
      let '(o1, input, value) :=
        if fast && (state =? 0) then fast_path alphabet input value else ([], input, value) in
      match input with
      | [] => (o1, Some (state, value))
      | c :: input =>
          match slow_step state value (at_dec alphabet c) with
          | None => (o1, None)
          | Some (o2, state, value) =>
              let '(o3, r) := decode_rounds fast fuel alphabet input state value in
              (o1 ++ o2 ++ o3, r)
          end
      end
  end.

(** The final [switch (state)]: the stores, or [None] when it returns false. *)
Definition decode_final (state value : Z) : option bytes :=
  if state =? 1 then None
  else if state =? 2 then Some [u8 (value ≫ 4)]
  else if state =? 3 then Some [u8 (value ≫ 10); u8 (value ≫ 2)]
  else if state =? 4 then None
  else Some [].

(** The bytes stored and the returned [int] ([false] is 0). *)
Definition decode_all (fast : bool) (input : bytes) (flags : Z) : bytes * Z :=
  match decode_rounds fast (S (length input)) (dec_alphabet flags) input 0 0 with
  | (out, None) => (out, 0)
  | (out, Some (state, value)) =>
      match decode_final state value with
      | None => (out, 0)
      | Some fin => (out ++ fin, zlen input * 3 / 4)
      end
  end.

Definition do_decode (input output : bytes) (flags : Z) : outcome (bytes * Z) :=
  let '(stored, ret) := decode_all true input flags in
  output ← mem_write output 0 stored; Ret (output, ret).

Definition base64_decode (input output : bytes) (flags : Z) : outcome (bytes * Z) :=
  do_decode input output flags.

(** ** The fast path *)

(** The character-by-character machine, by recursion on the input. *)
Fixpoint slow_run (alphabet : list Z) (input : bytes) (state value : Z) : bytes * option (Z * Z) :=
  match input with
  | [] => ([], Some (state, value))
  | c :: input =>
      match slow_step state value (at_dec alphabet c) with
      | None => ([], None)
      | Some (o, state, value) =>
          let '(o', r) := slow_run alphabet input state value in (o ++ o', r)
      end
  end.

Lemma decode_rounds_slow alphabet fuel input state value :
  (length input < fuel)%nat ->
  decode_rounds false fuel alphabet input state value = slow_run alphabet input state value.
Proof.
  revert fuel state value. induction input as [|c input IH]; intros [|fuel] state value Hf;
    cbn in Hf; try lia; cbn; [done|].
  destruct (slow_step _ _ _) as [[[o s] v]|]; [|done]. by rewrite IH by lia.
Qed.

(** In state 0 the value is dead. *)
Definition same_state (r r' : option (Z * Z)) : Prop :=
  match r, r' with
  | None, None => True
  | Some (s, v), Some (s', v') => s = s' /\ (s <> 0 -> v = v')
  | _, _ => False
  end.

Lemma slow_step_dead value value' d :
  match slow_step 0 value d, slow_step 0 value' d with
  | None, None => True
  | Some (o, s, v), Some (o', s', v') => o = o' /\ s = s' /\ (s <> 0 -> v = v')
  | _, _ => False
  end.
Proof. unfold slow_step. cbn. repeat case_match; simplify_eq; done. Qed.

Lemma slow_run_tuple alphabet a b c d rest value :
  0 <= at_dec alphabet a -> 0 <= at_dec alphabet b -> 0 <= at_dec alphabet c ->
  0 <= at_dec alphabet d ->
  slow_run alphabet (a :: b :: c :: d :: rest) 0 value =
    let v := Z.lor (Z.lor (Z.lor (at_dec alphabet a ≪ 18) (at_dec alphabet b ≪ 12))
               (at_dec alphabet c ≪ 6)) (at_dec alphabet d) in
    let '(o, r) := slow_run alphabet rest 0 v in (triple v ++ o, r).
Proof.
  intros Ha Hb Hc Hd. cbn [slow_run]. unfold slow_step.
  rewrite !(proj2 (Z.leb_le 0 _)) by done. cbn -[Z.shiftl triple at_dec slow_run].
  rewrite !Z.shiftl_lor, !Z.shiftl_shiftl by lia.
  by destruct (slow_run _ _ _ _).
Qed.

Lemma fast_path_slow alphabet input value value' :
  exists value'',
    let '(o1, rest, v1) := fast_path alphabet input value in
    (length rest <= length input)%nat /\
    slow_run alphabet input 0 value' =
      let '(o, r) := slow_run alphabet rest 0 value'' in (o1 ++ o, r).
Proof.
  revert value value'. induction input as [input IH] using (induction_ltof1 _ (@length Z)).
  unfold ltof in IH. intros value value'.
  assert (forall v, exists value'', (length input <= length input)%nat /\
    slow_run alphabet input 0 v =
      let '(o, r) := slow_run alphabet input 0 value'' in ([] ++ o, r)) as Hstop.
  { intros v. exists v. split; [lia|]. by destruct (slow_run _ _ _ _). }
  destruct input as [|a [|b [|c [|d rest]]]]; [apply Hstop..|].
  cbn [fast_path]. destruct (Z.leb_spec 0 (Z.lor (Z.lor (Z.lor (at_dec alphabet a ≪ 18)
    (at_dec alphabet b ≪ 12)) (at_dec alphabet c ≪ 6)) (at_dec alphabet d))) as [Hv|]; [|apply Hstop].
  rewrite !Z.lor_nonneg, !Z.shiftl_nonneg in Hv. destruct Hv as [[[Ha Hb] Hc] Hd].
  clear Hstop. set (v := Z.lor _ _).
  destruct (IH rest ltac:(cbn; lia) v v) as [v'' Hrest]. exists v''.
  destruct (fast_path alphabet rest v) as [[o1 rest'] v1]. destruct Hrest as [Hlen Hrun].
  split; [cbn; lia|]. rewrite slow_run_tuple by done. cbn zeta. fold v. rewrite Hrun.
  destruct (slow_run alphabet rest' 0 v'') as [o r]. by rewrite app_assoc.
Qed.

Lemma decode_rounds_fast alphabet fuel input state value value' :
  (length input < fuel)%nat -> (state <> 0 -> value = value') ->
  let '(o, r) := decode_rounds true fuel alphabet input state value in
  let '(o', r') := slow_run alphabet input state value' in
  o = o' /\ same_state r r'.
Proof.
  revert input state value value'. induction fuel as [|fuel IH]; intros input state value value' Hf Hv;
    [lia|]. cbn [decode_rounds andb].
  destruct (Z.eqb_spec state 0) as [->|Hs].
  - destruct (fast_path_slow alphabet input value value') as [v'' Hfast].
    destruct (fast_path alphabet input value) as [[o1 rest] v1]. destruct Hfast as [Hlen ->].
    destruct rest as [|c rest]; [cbn; by rewrite app_nil_r|].
    cbn [slow_run]. pose proof (slow_step_dead v1 v'' (at_dec alphabet c)) as Hstep.
    destruct (slow_step 0 v1 _) as [[[o s] v]|], (slow_step 0 v'' _) as [[[o' s'] v']|]; try done.
    2: { cbn. by rewrite app_nil_r. }
    destruct Hstep as (<- & <- & Hsv).
    specialize (IH rest s v v' ltac:(cbn in Hlen; lia) Hsv).
    destruct (decode_rounds true fuel alphabet rest s v) as [o3 r3], (slow_run alphabet rest s v') as [o4 r4].
    destruct IH as [-> ?]. done.
  - specialize (Hv Hs). subst value'. destruct input as [|c input]; [done|].
    cbn [slow_run]. destruct (slow_step state value _) as [[[o s] v]|]; [|done].
    specialize (IH input s v v ltac:(cbn in Hf; lia) ltac:(done)).
    destruct (decode_rounds true fuel alphabet input s v) as [o3 r3], (slow_run alphabet input s v) as [o4 r4].
    destruct IH as [-> ?]. done.
Qed.

(** "You can remove this whole block and the output should be the same": for
    every input and every flag, well formed or not, the decoder with the fast path
    stores the same bytes and returns the same value as the decoder without it. *)
Theorem decode_fast_path_redundant input flags :
  decode_all true input flags = decode_all false input flags.
Proof.
  unfold decode_all.
  pose proof (decode_rounds_fast (dec_alphabet flags) (S (length input)) input 0 0 0
    ltac:(lia) ltac:(done)) as H.
  rewrite (decode_rounds_slow _ (S (length input))) by lia.
  destruct (decode_rounds true _ _ _ _ _) as [o r], (slow_run _ _ _ _) as [o' r'].
  destruct H as [-> Hr]. destruct r as [[s v]|], r' as [[s' v']|]; try done.
  destruct Hr as [<- Hv]. destruct (decide (s = 0)) as [->|Hs]; [done|]. by rewrite Hv.
Qed.

(** ** Round trip *)

Lemma at_dec_enc flags v : at_dec (dec_alphabet flags) (at_enc (enc_alphabet flags) v) = Z.land v 63.
Proof.
  unfold dec_alphabet, enc_alphabet. destruct (flag flags BASE64_URL_SAFE); cbn [negb].
  all: apply Z.eqb_eq; unfold at_enc; change 63 with (2 ^ 6 - 1); rewrite land_mask by lia;
    pose proof (Z.mod_pos_bound v (2 ^ 6) ltac:(lia)) as Hv; revert Hv;
    generalize (v mod 2 ^ 6); apply (zrange_forall 64); vm_compute; reflexivity.
Qed.

Lemma at_dec_skip flags : at_dec (dec_alphabet flags) 13 = SKIP /\ at_dec (dec_alphabet flags) 10 = SKIP.
Proof. unfold dec_alphabet. destruct (negb _); by vm_compute. Qed.

Lemma at_dec_equals flags : at_dec (dec_alphabet flags) 61 = EQUALS.
Proof. unfold dec_alphabet. destruct (negb _); by vm_compute. Qed.

Lemma slow_step_skip state value : slow_step state value SKIP = Some ([], state, value).
Proof.
  unfold slow_step. cbn.
  repeat match goal with |- context [state =? ?k] => destruct (Z.eqb_spec state k); subst end; done.
Qed.

Lemma slow_run_eol flags do_cr tl state value :
  slow_run (dec_alphabet flags) (eol do_cr ++ tl) state value =
  slow_run (dec_alphabet flags) tl state value.
Proof.
  destruct (at_dec_skip flags) as [H13 H10]. unfold eol. destruct do_cr; cbn [app slow_run].
  - rewrite H13, slow_step_skip, H10, slow_step_skip. by destruct (slow_run _ _ _ _).
  - rewrite H10, slow_step_skip. by destruct (slow_run _ _ _ _).
Qed.

Lemma land63_range v : 0 <= Z.land v 63.
Proof. apply Z.land_nonneg. lia. Qed.

(** Six-bit digits recombine. *)
Lemma join_digit v n : 0 <= n -> Z.lor ((v ≫ (n + 6)) ≪ 6) (Z.land (v ≫ n) 63) = v ≫ n.
Proof.
  intros Hn. change 63 with (2 ^ 6 - 1). rewrite land_mask by lia.
  rewrite lor_add by (try lia; apply Z.mod_pos_bound; lia).
  rewrite <-Z.shiftr_shiftr, (Z.shiftr_div_pow2 (v ≫ n) 6) by lia.
  change (2 ^ 6) with 64. dlia.
Qed.

Lemma triple_bytes a b c :
  is_u8 a -> is_u8 b -> is_u8 c ->
  let v := Z.lor (Z.lor (Z.land a 0xff ≪ 16) (Z.land b 0xff ≪ 8)) (Z.land c 0xff) in
  triple v = [a; b; c] /\ 0 <= v < 2 ^ 24.
Proof.
  unfold in_range. intros Ha Hb Hc. change 0xff with (2 ^ 8 - 1).
  rewrite !land_mask by lia. rewrite !Z.mod_small by lia. cbn zeta.
  replace (a ≪ 16) with ((a ≪ 8) ≪ 8) by (by rewrite Z.shiftl_shiftl).
  rewrite <-Z.shiftl_lor. rewrite (lor_add a b), lor_add by lia.
  unfold triple, u8, wrap. rewrite !Z.shiftr_div_pow2 by lia.
  split; [|lia]. f_equal; [|f_equal; [|f_equal]]; dlia.
Qed.

Lemma slow_run_group flags v tl value :
  0 <= v < 2 ^ 24 ->
  let E := enc_alphabet flags in
  slow_run (dec_alphabet flags)
    (at_enc E (v ≫ 18) :: at_enc E (v ≫ 12) :: at_enc E (v ≫ 6) :: at_enc E v :: tl) 0 value =
  let '(o, r) := slow_run (dec_alphabet flags) tl 0 v in (triple v ++ o, r).
Proof.
  intros Hv E. unfold E. rewrite slow_run_tuple by (rewrite at_dec_enc; apply land63_range).
  rewrite !at_dec_enc. cbn zeta.
  assert (Z.lor (Z.lor (Z.lor (Z.land (v ≫ 18) 63 ≪ 18) (Z.land (v ≫ 12) 63 ≪ 12))
    (Z.land (v ≫ 6) 63 ≪ 6)) (Z.land v 63) = v) as ->; [|done].
  pose proof (join_digit v 0 ltac:(lia)) as J0. pose proof (join_digit v 6 ltac:(lia)) as J6.
  pose proof (join_digit v 12 ltac:(lia)) as J12. rewrite Z.shiftr_0_r in J0.
  assert (Z.land (v ≫ 18) 63 = v ≫ 18) as ->.
  { change 63 with (2 ^ 6 - 1). rewrite land_mask, Z.shiftr_div_pow2 by lia.
    apply Z.mod_small. dlia. }
  change (0 + 6) with 6 in J0. change (6 + 6) with 12 in J6. change (12 + 6) with 18 in J12.
  generalize dependent (Z.land v 63). generalize dependent (Z.land (v ≫ 6) 63).
  generalize dependent (Z.land (v ≫ 12) 63). intros d12 J12 d6 J6 d0 J0. generalize dependent (v ≫ 12). generalize dependent (v ≫ 6).
  generalize (v ≫ 18). intros x18 x6 J0 x12 J12 J6. rewrite <-J0, <-J6, <-J12.
  by rewrite !Z.shiftl_lor, !Z.shiftl_shiftl by lia.
Qed.

(** The main loop's text decodes to the groups it consumed. *)
Lemma slow_run_groups flags do_cr input count :
  is_bytes input ->
  let '(o, rest0, _) := encode_groups (enc_alphabet flags) do_cr input count in
  exists pre, input = pre ++ rest0 /\ (length rest0 < 3)%nat /\
    forall tl value, exists value',
      slow_run (dec_alphabet flags) (o ++ tl) 0 value =
      let '(o', r) := slow_run (dec_alphabet flags) tl 0 value' in (pre ++ o', r).
Proof.
  revert count. induction input as [|a|a b|a b c input IH] using list_ind3; intros count Hb;
    cbn [encode_groups].
  1-3: exists []; split_and!; [done|cbn; lia|]; intros tl value; exists value;
    by destruct (slow_run _ _ _ _).
  inversion Hb as [|? ? Ha Hb1]; subst. inversion Hb1 as [|? ? Hb2 Hb3]; subst.
  inversion Hb3 as [|? ? Hc Hs]; subst.
  destruct (triple_bytes a b c Ha Hb2 Hc) as [Htr Hv].
  revert Htr Hv. cbn zeta. set (v := Z.lor _ _). intros Htr Hv.
  destruct (if count - 1 =? 0 then _ else _) as [nl count'] eqn:Hnl.
  specialize (IH count' Hs).
  destruct (encode_groups _ do_cr input count') as [[o rest0] count''].
  destruct IH as (pre & -> & Hr & IH). exists (a :: b :: c :: pre). split_and!; [done|done|].
  intros tl value. destruct (IH tl v) as [value' Hrun]. exists value'.
  rewrite <-!app_assoc. cbn [app]. rewrite slow_run_group by done.
  assert (slow_run (dec_alphabet flags) (nl ++ o ++ tl) 0 v =
    slow_run (dec_alphabet flags) (o ++ tl) 0 v) as ->.
  { destruct (count - 1 =? 0); injection Hnl as <- <-; [apply slow_run_eol|done]. }
  rewrite Hrun, Htr. destruct (slow_run (dec_alphabet flags) tl 0 value') as [o' r']. reflexivity.
Qed.

(** What the decoder stores in all, as a function of the machine's final state. *)
Definition finish (r : bytes * option (Z * Z)) : option bytes :=
  match r with
  | (out, Some (s, v)) => fin ← decode_final s v; Some (out ++ fin)
  | (_, None) => None
  end.

Lemma decode_all_finish input flags out :
  finish (slow_run (dec_alphabet flags) input 0 0) = Some out ->
  decode_all true input flags = (out, zlen input * 3 / 4).
Proof.
  intros Hf. pose proof (decode_rounds_fast (dec_alphabet flags) (S (length input)) input 0 0 0
    ltac:(lia) ltac:(done)) as H. unfold decode_all.
  destruct (decode_rounds true _ _ _ _ _) as [o r], (slow_run _ _ _ _) as [o' r'].
  destruct H as [-> Hr]. unfold finish in Hf.
  destruct r as [[s v]|], r' as [[s' v']|]; try done. destruct Hr as [<- Hv].
  assert (decode_final s v = decode_final s v') as ->.
  { destruct (decide (s = 0)) as [->|Hs]; [done|]. by rewrite Hv. }
  destruct (decode_final s v'); cbn in Hf; by simplify_eq.
Qed.

Lemma finish_prefix pre r :
  finish (let '(o', r') := r in (pre ++ o', r')) = app pre <$> finish r.
Proof.
  destruct r as [o [[s v]|]]; cbn; [|done]. destruct (decode_final s v); cbn; [|done].
  by rewrite <-app_assoc.
Qed.

(** Machine steps on a character of the alphabet in the states of a tuple. *)
Lemma slow_run_char flags x tl state value :
  0 <= state <= 2 ->
  slow_run (dec_alphabet flags) (at_enc (enc_alphabet flags) x :: tl) state value =
  slow_run (dec_alphabet flags) tl (state + 1)
    (if state =? 0 then Z.land x 63 else Z.lor (value ≪ 6) (Z.land x 63)).
Proof.
  intros Hs. cbn [slow_run]. rewrite at_dec_enc. pose proof (land63_range x).
  unfold slow_step. rewrite (proj2 (Z.leb_le 0 (Z.land x 63))) by done.
  assert (state = 0 \/ state = 1 \/ state = 2) as [->|[->| ->]] by lia; cbn -[slow_run];
    [change (0 + 1) with 1|change (1 + 1) with 2|change (2 + 1) with 3].
  all: by match goal with |- context [slow_run ?d ?t ?s ?v] => destruct (slow_run d t s v) end.
Qed.

Lemma slow_run_nl flags (do_newline do_cr : bool) state value :
  slow_run (dec_alphabet flags) (if do_newline then eol do_cr else []) state value =
  ([], Some (state, value)).
Proof.
  destruct do_newline; [|done]. rewrite <-(app_nil_r (eol do_cr)). by rewrite slow_run_eol.
Qed.

Lemma u8_shift a x n : is_u8 a -> 0 <= n -> x = a * 2 ^ n -> u8 (x ≫ n) = a.
Proof.
  intros Ha Hn ->. rewrite Z.shiftr_div_pow2, Z.div_mul by (pose proof (pow2_pos n Hn); lia).
  by apply u8_small.
Qed.

(** The two forms of the tail. *)
Lemma slow_run_tail1 flags (do_padding do_newline do_cr : bool) a value :
  is_u8 a ->
  let E := enc_alphabet flags in
  let v := Z.land a 0xff ≪ 4 in
  finish (slow_run (dec_alphabet flags)
    ([at_enc E (v ≫ 6); at_enc E v] ++ (if do_padding then [61; 61] else [])
      ++ (if do_newline then eol do_cr else [])) 0 value) = Some [a].
Proof.
  intros Ha E v. unfold in_range in Ha.
  assert (v = a * 2 ^ 4) as Hv.
  { unfold v. change 0xff with (2 ^ 8 - 1). rewrite land_mask, Z.mod_small by lia.
    apply Z.shiftl_mul_pow2. lia. }
  cbn [app]. unfold E. rewrite !slow_run_char by lia. cbn [Z.eqb].
  assert (Z.land (v ≫ 6) 63 = v ≫ 6) as ->.
  { change 63 with (2 ^ 6 - 1). rewrite land_mask, Z.shiftr_div_pow2 by lia.
    apply Z.mod_small. dlia. }
  pose proof (join_digit v 0 ltac:(lia)) as J. rewrite Z.shiftr_0_r in J. change (0 + 6) with 6 in J.
  change (0 + 1 + 1) with 2. change (0 + 1 =? 0) with false. cbn iota. rewrite J.
  destruct do_padding; cbn [app].
  - cbn [slow_run]. rewrite !at_dec_equals. cbn -[slow_run eol u8].
    rewrite slow_run_nl. cbn -[u8].
    by rewrite (u8_shift a) by done.
  - rewrite slow_run_nl. cbn -[u8]. by rewrite (u8_shift a) by done.
Qed.

Lemma slow_run_tail2 flags (do_padding do_newline do_cr : bool) a b value :
  is_u8 a -> is_u8 b ->
  let E := enc_alphabet flags in
  let v := Z.lor (Z.land a 0xff ≪ 10) (Z.land b 0xff ≪ 2) in
  finish (slow_run (dec_alphabet flags)
    ([at_enc E (v ≫ 12); at_enc E (v ≫ 6); at_enc E v] ++ (if do_padding then [61] else [])
      ++ (if do_newline then eol do_cr else [])) 0 value) = Some [a; b].
Proof.
  intros Ha Hb E v. unfold in_range in Ha, Hb.
  assert (v = (a * 256 + b) * 2 ^ 2) as Hv.
  { unfold v. change 0xff with (2 ^ 8 - 1). rewrite !land_mask, !Z.mod_small by lia.
    rewrite lor_add by (rewrite ?Z.shiftl_mul_pow2 by lia; lia).
    rewrite Z.shiftl_mul_pow2 by lia. lia. }
  cbn [app]. unfold E. rewrite !slow_run_char by lia. cbn [Z.eqb].
  assert (Z.land (v ≫ 12) 63 = v ≫ 12) as ->.
  { change 63 with (2 ^ 6 - 1). rewrite land_mask, Z.shiftr_div_pow2 by lia.
    apply Z.mod_small. dlia. }
  pose proof (join_digit v 0 ltac:(lia)) as J. rewrite Z.shiftr_0_r in J. change (0 + 6) with 6 in J.
  pose proof (join_digit v 6 ltac:(lia)) as J6. change (6 + 6) with 12 in J6.
  change (0 + 1 + 1 + 1) with 3. change (0 + 1 =? 0) with false. change (0 + 1 + 1 =? 0) with false.
  cbn iota. rewrite J6, J.
  assert (u8 (v ≫ 10) = a /\ u8 (v ≫ 2) = b) as [Hu1 Hu2].
  { unfold u8, wrap. rewrite !Z.shiftr_div_pow2 by lia. dlia. }
  destruct do_padding; cbn [app].
  - cbn [slow_run]. rewrite !at_dec_equals. cbn -[slow_run eol u8].
    rewrite slow_run_nl. cbn -[u8]. by rewrite Hu1, Hu2.
  - rewrite slow_run_nl. cbn -[u8]. by rewrite Hu1, Hu2.
Qed.

Lemma decode_encode_all (p n c : bool) input flags :
  is_bytes input ->
  decode_all true (do_encode p n c input flags) flags =
    (input, zlen (do_encode p n c input flags) * 3 / 4).
Proof.
  intros Hb. apply decode_all_finish. unfold do_encode.
  pose proof (slow_run_groups flags c input (if n then LINE_GROUPS else -1) Hb) as H.
  destruct (encode_groups _ c input _) as [[o r] count].
  destruct H as (pre & -> & Hr & Hrun). apply Forall_app in Hb as [_ Hb].
  destruct r as [|a [|b [|x r]]]; [| | |cbn in Hr; lia].
  - destruct (Hrun (if n && (0 <? zlen o) && negb (count =? LINE_GROUPS) then eol c else []) 0) as [v ->].
    rewrite slow_run_nl. cbn. by rewrite !app_nil_r.
  - inversion Hb; subst.
    match goal with |- context [slow_run _ (o ++ ?t) 0 0] => destruct (Hrun t 0) as [v ->] end.
    rewrite finish_prefix, slow_run_tail1 by done. done.
  - inversion Hb as [|? ? ? Hb']; subst. inversion Hb'; subst.
    match goal with |- context [slow_run _ (o ++ ?t) 0 0] => destruct (Hrun t 0) as [v ->] end.
    rewrite finish_prefix, slow_run_tail2 by done. done.
Qed.

(** ** The announced length *)

Lemma zlen_eol (do_cr : bool) : zlen (eol do_cr) = if do_cr then 2 else 1.
Proof. by destruct do_cr. Qed.

Lemma encode_groups_len alphabet do_cr input k :
  0 <= k < 19 ->
  let '(o, r, count) := encode_groups alphabet do_cr input (LINE_GROUPS - k) in
  zlen o = 4 * (zlen input / 3) + zlen (eol do_cr) * ((k + zlen input / 3) / 19) /\
  zlen r = zlen input mod 3 /\ count = LINE_GROUPS - (k + zlen input / 3) mod 19.
Proof.
  unfold LINE_GROUPS. revert k. induction input as [|a|a b|a b c input IH] using list_ind3;
    intros k Hk; cbn [encode_groups].
  1-3: autorewrite with zlen; rewrite zlen_eol; destruct do_cr; dlia.
  destruct (Z.eqb_spec (19 - k - 1) 0).
  - specialize (IH 0 ltac:(lia)). unfold LINE_GROUPS. rewrite Z.sub_0_r in IH.
    destruct (encode_groups alphabet do_cr input 19) as [[o r] count].
    rewrite !zlen_app, !zlen_cons, zlen_eol in *. rewrite @zlen_nil. destruct do_cr; dlia.
  - specialize (IH (k + 1) ltac:(lia)).
    replace (19 - (k + 1)) with (19 - k - 1) in IH by lia.
    destruct (encode_groups alphabet do_cr input _) as [[o r] count].
    autorewrite with zlen. rewrite !zlen_eol in *. destruct do_cr; dlia.
Qed.

Lemma encode_groups_len_nowrap alphabet do_cr input count :
  count < 0 ->
  let '(o, r, _) := encode_groups alphabet do_cr input count in
  zlen o = 4 * (zlen input / 3) /\ zlen r = zlen input mod 3.
Proof.
  revert count. induction input as [|a|a b|a b c input IH] using list_ind3;
    intros count Hc; cbn [encode_groups].
  1-3: autorewrite with zlen; dlia.
  destruct (Z.eqb_spec (count - 1) 0); [lia|].
  specialize (IH (count - 1) ltac:(lia)).
  destruct (encode_groups alphabet do_cr input _) as [[o r] count'].
  autorewrite with zlen. dlia.
Qed.

Lemma encode_len_correct input flags :
  let p := negb (flag flags BASE64_NO_PADDING) in
  let n := negb (flag flags BASE64_NO_WRAP) in
  let c := flag flags BASE64_CRLF in
  zlen (do_encode p n c input flags) = encode_len (zlen input) flags.
Proof.
  cbn zeta. unfold do_encode, encode_len.
  generalize (negb (flag flags BASE64_NO_PADDING)), (flag flags BASE64_CRLF). intros p c.
  pose proof (zlen_nonneg input). change (3 * LINE_GROUPS) with 57.
  destruct (negb (flag flags BASE64_NO_WRAP)); cbn [andb].
  - pose proof (encode_groups_len (enc_alphabet flags) c input 0 ltac:(lia)) as Hg.
    rewrite Z.sub_0_r in Hg.
    destruct (encode_groups _ c input LINE_GROUPS) as [[o r] count].
    destruct Hg as (Ho & Hr & Hc). pose proof (zlen_eol c) as He.
    assert (zlen (eol c) = 1 \/ zlen (eol c) = 2) as Hcase by (destruct c; auto).
    rewrite <-He. unfold LINE_GROUPS in *. rewrite Z.add_0_l in Ho, Hc.
    destruct r as [|a [|b [|x r]]]; autorewrite with zlen in Hr;
      [| | |pose proof (zlen_nonneg r); exfalso; dlia].
    all: rewrite !zlen_app, Ho;
      destruct (Z.ltb_spec 0 (zlen input mod 3)), (Z.eqb_spec (zlen input mod 3) 1),
        (Z.eqb_spec (zlen input mod 3) 2), (Z.ltb_spec 0 (zlen input)), p; try lia.
    all: try destruct (Z.eqb_spec count 19).
    all: try match goal with |- context [0 <? ?e] => destruct (Z.ltb_spec 0 e) end.
    all: cbn [andb negb]; autorewrite with zlen; destruct Hcase as [Hc1 | Hc1]; rewrite Hc1 in *; dlia.
  - pose proof (encode_groups_len_nowrap (enc_alphabet flags) c input (-1) ltac:(lia)) as Hg.
    destruct (encode_groups _ c input (-1)) as [[o r] count]. destruct Hg as (Ho & Hr).
    destruct r as [|a [|b [|x r]]]; autorewrite with zlen in Hr;
      [| | |pose proof (zlen_nonneg r); exfalso; dlia].
    all: rewrite !zlen_app, Ho;
      destruct (Z.ltb_spec 0 (zlen input mod 3)), (Z.eqb_spec (zlen input mod 3) 1),
        (Z.eqb_spec (zlen input mod 3) 2), p; autorewrite with zlen; dlia.
Qed.

(** C37: with an output array of at least the announced length, [base64_encode] stays
    inside it, stores exactly the announced number of bytes, and [base64_decode] of
    those bytes under the same flags stores the input again, whatever the padding,
    wrapping, CRLF and URL-safe flags. *)
Theorem android_base64_roundtrip input output output2 flags :
  is_bytes input -> zlen input < 2 ^ 28 ->
  encode_len (zlen input) flags <= zlen output -> zlen input <= zlen output2 ->
  exists enc n dec ret, base64_encode input output flags = Ret (enc, n) /\
    n = encode_len (zlen input) flags /\
    base64_decode (take (Z.to_nat n) enc) output2 flags = Ret (dec, ret) /\
    take (length input) dec = input /\ drop (length input) dec = drop (length input) output2.
Proof.
  intros Hb _ Ho Ho2. unfold base64_encode, base64_decode, do_decode.
  pose proof (encode_len_correct input flags) as Hl. cbn zeta in Hl.
  pose proof (decode_encode_all (negb (flag flags BASE64_NO_PADDING))
    (negb (flag flags BASE64_NO_WRAP)) (flag flags BASE64_CRLF) input flags Hb) as Hd.
  set (text := do_encode _ _ _ _ _) in *. rewrite mem_write_ok by lia. cbn -[take drop].
  eexists _, _, _, _. split_and!; [done|done| |..].
  - rewrite <-Hl, zlen_nat. change (Z.to_nat 0) with 0%nat. rewrite take_0.
    change ([] ++ ?l) with l. rewrite take_app_length, Hd. rewrite mem_write_ok by lia. done.
  - change (take (length input) (input ++ drop (length input) output2) = input).
    apply take_app_length.
  - change (drop (length input) (input ++ drop (length input) output2) = drop (length input) output2).
    apply drop_app_length.
Qed.

Lemma android_base64_roundtrip_witness :
  exists enc n dec ret, base64_encode [77; 97] (replicate 6 0) BASE64_CRLF = Ret (enc, n) /\
    n = encode_len (zlen [77; 97]) BASE64_CRLF /\
    base64_decode (take (Z.to_nat n) enc) [0; 0; 9] BASE64_CRLF = Ret (dec, ret) /\
    take (length [77; 97]) dec = [77; 97] /\
    drop (length [77; 97]) dec = drop (length [77; 97]) [0; 0; 9].
Proof.
  apply android_base64_roundtrip; [|by vm_compute..].
  repeat constructor; by vm_compute.
Defined.

(** the value that [base64_decode] returns on success is three quarters of the
    length of its input, not the number of bytes it stored: the text "TQ==" and a
    line feed, the encoding of the single byte 77, stores one byte and returns 3. *)
Theorem android_decode_length_wrong :
  base64_encode [77] (replicate 5 0) 0 = Ret ([84; 81; 61; 61; 10], 5) /\
  base64_decode [84; 81; 61; 61; 10] (replicate 5 0) 0 = Ret ([77; 0; 0; 0; 0], 3).
Proof. split; vm_compute; reflexivity. Qed.
