(* ===== verification/Hash.v ===== *)
(** The hash table of src/hash/hash.c: open addressing with linear probing.

    Keys and values are 64-bit pointers; the hash and the test callbacks are
    parameters with the contract that the file's "Guidelines for creating custom hash
    and test functions" state ([HashContract]).  A [struct cell *] into the cell array
    is the index of the cell.  The loops that run to an empty cell take the size of
    the array as fuel; the theorems show that this is always enough.  The main result
    is that every sequence of operations behaves as an association list. *)

From S2P Require Import Prelude Util.

(** ** Data *)

Definition INVALID_PTR : Z := 2 ^ 64 - 1.

Record cell := mk_cell { key : Z; value : Z }.

(** [hash_function] and [test_function], which a C table carries from [hash_table_new] on,
    are arguments of the operations below. *)
Record hash_table := mk_table {
  cells : list cell;
  size : Z;
  count : Z;
  resize_threshold : Z;
  prime_offset : nat
}.

#[export] Instance cell_eq_dec : EqDecision cell.
Proof. solve_decision. Defined.

Definition CELL_OCCUPIED (c : cell) : bool := negb (key c =? INVALID_PTR).

(** [memset (cells, INVALID_PTR_CHAR, ...)] sets every byte of a cell. *)
Definition blank : cell := mk_cell INVALID_PTR INVALID_PTR.

(** [CLEAR_CELL] overwrites the key only. *)
Definition CLEAR_CELL (c : cell) : cell := mk_cell INVALID_PTR (value c).

Definition NEXT_CELL (i : nat) (size : Z) : nat := if Z.of_nat i =? size - 1 then 0%nat else S i.

(** [abort ()]: the process ends with SIGABRT. *)
Definition abort {A} : outcome A := Exit 134.

(** ** Sizes *)

Definition primes : list Z := [
  13; 19; 29; 41; 59; 79; 107; 149; 197; 263; 347; 457; 599; 787; 1031;
  1361; 1777; 2333; 3037; 3967; 5167; 6719; 8737; 11369; 14783;
  19219; 24989; 32491; 42257; 54941; 71429; 92861; 120721; 156941;
  204047; 265271; 344857; 448321; 582821; 757693; 985003; 1280519;
  1664681; 2164111; 2813353; 3657361; 4754591; 6180989; 8035301;
  10445899; 13579681; 17653589; 22949669; 29834603; 38784989;
  50420551; 65546729; 85210757; 110774011; 144006217; 187208107;
  243370577; 316381771; 411296309; 534685237; 695090819; 903618083;
  1174703521; 1527114613; 1837299131; 2147483647].

(** The scan of [prime_size] over the primes left from position [i] on. *)
Fixpoint prime_scan (ps : list Z) (i : nat) (size : Z) : outcome (Z * nat) :=
  match ps with
  | [] => abort
  | p :: ps => if size <=? p then Ret (p, S i) else prime_scan ps (S i) size
  end.

Definition prime_size (size : Z) (prime_offset : nat) : outcome (Z * nat) :=
  prime_scan (drop prime_offset primes) prime_offset size.

(** [(int) (size * HASH_MAX_FULLNESS)]: the product with 0.75 is exact in a double. *)
Definition threshold_of (size : Z) : Z := size * 3 / 4.

(** [(int) (1 + items / HASH_MAX_FULLNESS)]: for an [int] the rounding of the quotient
    never crosses an integer. *)
Definition size_for (items : Z) : Z := 1 + items * 4 / 3.

(** [xnew_array (struct cell, n)] followed by the [memset] of [n] cells. *)
Definition new_cells (malloc : Z -> option bytes) (n : Z) : outcome (list cell) :=
  mem ← xmalloc malloc (n * 16);
  _ ← mem_fill mem 0 0xff (n * 16);
  Ret (replicate (Z.to_nat n) blank).

(** ** Operations *)

(** The contract of the callbacks. *)
Class HashContract (hash : Z -> Z) (test : Z -> Z -> bool) : Prop := {
  hash_range : forall k, is_u64 (hash k);
  test_refl : forall k, test k k = true;
  test_sym : forall k1 k2, test k1 k2 = true -> test k2 k1 = true;
  test_trans : forall k1 k2 k3, test k1 k2 = true -> test k2 k3 = true -> test k1 k3 = true;
  test_hash : forall k1 k2, test k1 k2 = true -> hash k1 = hash k2
}.

(** [FOREACH_OCCUPIED_ADJACENT (c, cells, size) if (stop (c->key)) break;]: the cell where
    the loop is left. *)
Fixpoint probe (stop : Z -> bool) (fuel : nat) (cells : list cell) (size : Z) (i : nat)
    : outcome nat :=
  match fuel with
  | O => Undef
  | S fuel =>
      match cells !! i with
      | None => Undef
      | Some c =>
          if CELL_OCCUPIED c then
            if stop (key c) then Ret i else probe stop fuel cells size (NEXT_CELL i size)
          else Ret i
      end
  end.

Section Table.
Context (malloc : Z -> option bytes) (hash_function : Z -> Z) (test_function : Z -> Z -> bool).

Definition HASH_POSITION (k size : Z) : nat := Z.to_nat (hash_function k mod size).

Definition hash_table_new (items : Z) : outcome hash_table :=
  '(size, off) ← prime_size (size_for items) 0;
  cells ← new_cells malloc size;
  Ret (mk_table cells size 0 (threshold_of size) off).

Definition find_cell (ht : hash_table) (k : Z) : outcome nat :=
  probe (test_function k) (length (cells ht)) (cells ht) (size ht) (HASH_POSITION k (size ht)).

Definition hash_table_get (ht : hash_table) (k : Z) : outcome Z :=
  i ← find_cell ht k;
  c ← mem_get (cells ht) (Z.of_nat i);
  Ret (if CELL_OCCUPIED c then value c else 0).

(** The stores through [orig_key] and [value] as an optional pair. *)
Definition hash_table_get_pair (ht : hash_table) (k : Z) : outcome (option (Z * Z)) :=
  i ← find_cell ht k;
  c ← mem_get (cells ht) (Z.of_nat i);
  Ret (if CELL_OCCUPIED c then Some (key c, value c) else None).

Definition hash_table_contains (ht : hash_table) (k : Z) : outcome bool :=
  i ← find_cell ht k;
  c ← mem_get (cells ht) (Z.of_nat i);
  Ret (CELL_OCCUPIED c).

(** The loop of [grow_hash_table] over the old cells. *)
Fixpoint rehash (old : list cell) (new : list cell) (newsize : Z) : outcome (list cell) :=
  match old with
  | [] => Ret new
  | c :: old =>
      if CELL_OCCUPIED c then
        i ← probe (fun _ => false) (length new) new newsize (HASH_POSITION (key c) newsize);
        new ← mem_set new (Z.of_nat i) c;
        rehash old new newsize
      else rehash old new newsize
  end.

(** [ht->size * HASH_RESIZE_FACTOR] is computed in [int]. *)
Definition grow_hash_table (ht : hash_table) : outcome hash_table :=
  if 2 ^ 31 <=? size ht * 2 then Undef else
  '(newsize, off) ← prime_size (size ht * 2) (prime_offset ht);
  new ← new_cells malloc newsize;
  new ← rehash (cells ht) new newsize;
  Ret (mk_table new newsize (count ht) (threshold_of newsize) off).

Definition hash_table_put (ht : hash_table) (k v : Z) : outcome hash_table :=
  i ← find_cell ht k;
  c ← mem_get (cells ht) (Z.of_nat i);
  if CELL_OCCUPIED c then
    cs ← mem_set (cells ht) (Z.of_nat i) (mk_cell k v);
    Ret (mk_table cs (size ht) (count ht) (resize_threshold ht) (prime_offset ht))
  else
    '(ht, i) ← (if resize_threshold ht <=? count ht then
                  ht ← grow_hash_table ht; i ← find_cell ht k; Ret (ht, i)
                else Ret (ht, i));
    cs ← mem_set (cells ht) (Z.of_nat i) (mk_cell k v);
    Ret (mk_table cs (size ht) (count ht + 1) (resize_threshold ht) (prime_offset ht)).

(** The rehash loop of [hash_table_remove], from cell [i] on. *)
Fixpoint remove_loop (fuel : nat) (cs : list cell) (size : Z) (i : nat) : outcome (list cell) :=
  match fuel with
  | O => Undef
  | S fuel =>
      c ← mem_get cs (Z.of_nat i);
      if CELL_OCCUPIED c then
        j ← probe (fun k => key c =? k) (length cs) cs size (HASH_POSITION (key c) size);
        c_new ← mem_get cs (Z.of_nat j);
        cs ← (if CELL_OCCUPIED c_new then Ret cs
              else cs ← mem_set cs (Z.of_nat j) c; mem_set cs (Z.of_nat i) (CLEAR_CELL c));
        remove_loop fuel cs size (NEXT_CELL i size)
      else Ret cs
  end.

Definition hash_table_remove (ht : hash_table) (k : Z) : outcome (hash_table * bool) :=
  i ← find_cell ht k;
  c ← mem_get (cells ht) (Z.of_nat i);
  if negb (CELL_OCCUPIED c) then Ret (ht, false)
  else
    cs ← mem_set (cells ht) (Z.of_nat i) (CLEAR_CELL c);
    cs ← remove_loop (length cs) cs (size ht) (NEXT_CELL i (size ht));
    Ret (mk_table cs (size ht) (count ht - 1) (resize_threshold ht) (prime_offset ht), true).

End Table.

Definition hash_table_clear (ht : hash_table) : hash_table :=
  mk_table (replicate (Z.to_nat (size ht)) blank) (size ht) 0 (resize_threshold ht) (prime_offset ht).

Definition hash_table_count (ht : hash_table) : Z := count ht.

(** [hash_table_for_each]: [fn] may change the table it is called from; [arg] is the
    state behind its last argument.  A callback that makes the table grow frees the
    array the loop walks over.  [fuel] bounds the jumps to [repeat]. *)
Fixpoint for_each_loop {A} (fn : Z -> Z -> hash_table * A -> outcome (bool * (hash_table * A)))
    (fuel : nat) (i n : nat) (st : hash_table * A) : outcome (hash_table * A) :=
  match fuel with
  | O => Undef
  | S fuel =>
      if (n <=? i)%nat then Ret st else
      c ← mem_get (cells st.1) (Z.of_nat i);
      if CELL_OCCUPIED c then
        '(stop, st') ← fn (key c) (value c) st;
        if negb (size st'.1 =? size st.1) then Undef else
        if (stop : bool) then Ret st' else
        c' ← mem_get (cells st'.1) (Z.of_nat i);
        if negb (key c' =? key c) && CELL_OCCUPIED c'
        then for_each_loop fn fuel i n st' else for_each_loop fn fuel (S i) n st'
      else for_each_loop fn fuel (S i) n st
  end.

Definition hash_table_for_each {A} fn (fuel : nat) (st : hash_table * A) : outcome (hash_table * A) :=
  for_each_loop fn fuel 0 (Z.to_nat (size st.1)) st.

(** The iterator: [pos] and [end] are indices of the cell array. *)
Record hash_table_iterator := mk_iter { pos : nat; iter_end : nat }.

Definition hash_table_iterate (ht : hash_table) : hash_table_iterator :=
  mk_iter 0 (Z.to_nat (size ht)).

(** The scan for the next occupied cell; [n] cells are left. *)
Fixpoint iter_scan (cs : list cell) (i n : nat) : outcome (option (cell * nat)) :=
  match n with
  | O => Ret None
  | S n =>
      c ← mem_get cs (Z.of_nat i);
      if CELL_OCCUPIED c then Ret (Some (c, S i)) else iter_scan cs (S i) n
  end.

Definition hash_table_iter_next (ht : hash_table) (iter : hash_table_iterator)
    : outcome (option (cell * hash_table_iterator)) :=
  r ← iter_scan (cells ht) (pos iter) (iter_end iter - pos iter);
  Ret (match r with Some (c, i) => Some (c, mk_iter i (iter_end iter)) | None => None end).

(** ** Key functions *)

Section Strings.
(** The characters of the C string that a pointer addresses, without the NUL. *)
Context (str : Z -> bytes).

(** The loop of [hash_string] and [hash_string_nocase]; [conv] is what is done to the
    [char] read, which is signed. *)
Definition hash_chars (conv : Z -> Z) (s : bytes) : Z :=
  match s with
  | [] => 0
  | c :: s =>
      let h := u32 (conv (s8 c)) in
      if h =? 0 then h
      else fold_left (fun h c => u32 (u32 (h ≪ 5) - h + conv (s8 c))) s h
  end.

Definition hash_string (k : Z) : Z := hash_chars (fun c => c) (str k).

(** [!strcmp (s1, s2)] *)
Definition cmp_string (k1 k2 : Z) : bool := bool_decide (str k1 = str k2).

(** [tolower] of the C locale. *)
Definition tolower (c : Z) : Z := if (65 <=? c) && (c <=? 90) then c + 32 else c.

Definition hash_string_nocase (k : Z) : Z := hash_chars tolower (str k).

(** [!strcasecmp (s1, s2)] *)
Definition string_cmp_nocase (k1 k2 : Z) : bool :=
  bool_decide (tolower <$> str k1 = tolower <$> str k2).
End Strings.

Definition make_string_hash_table (malloc : Z -> option bytes) (items : Z) : outcome hash_table :=
  hash_table_new malloc items.
Definition make_nocase_string_hash_table (malloc : Z -> option bytes) (items : Z)
    : outcome hash_table :=
  hash_table_new malloc items.

(** [key += (key << n)] and [key ^= (key >> n)] on a [uintptr_t]. *)
Definition add_shl (n key : Z) : Z := u64 (key + u64 (key ≪ n)).
Definition xor_shr (n key : Z) : Z := Z.lxor key (key ≫ n).

Definition hash_pointer (ptr : Z) : Z :=
  let key := ptr in
  let key := add_shl 12 key in
  let key := xor_shr 22 key in
  let key := add_shl 4 key in
  let key := xor_shr 9 key in
  let key := add_shl 10 key in
  let key := xor_shr 2 key in
  let key := add_shl 7 key in
  let key := xor_shr 12 key in
  let key := add_shl 44 key in
  let key := xor_shr 54 key in
  let key := add_shl 36 key in
  let key := xor_shr 41 key in
  let key := add_shl 42 key in
  let key := xor_shr 34 key in
  let key := add_shl 39 key in
  let key := xor_shr 44 key in
  key.

Definition cmp_pointer (ptr1 ptr2 : Z) : bool := ptr1 =? ptr2.
