(* ===== verification/HashSpec.v ===== *)
(** Correctness of the hash table of src/hash/hash.c ([Hash]).

    The invariant ([wf]) says that every entry can be reached by probing from its home
    position, that no two entries have equal keys and that the table keeps a free cell.
    Every operation is shown to end, to stay inside the cell array, to preserve the
    invariant and to act on the set of entries as the same operation on an association
    list does. *)

From S2P Require Import Prelude Util Hash.

(** ** Ring positions *)

(** The cell [d] steps after [h] in a table of [n] cells. *)
Definition slot (n h d : nat) : nat := ((h + d) mod n)%nat.

Lemma slot_case n h d : (h < n)%nat -> (d <= n)%nat ->
  slot n h d = if (h + d <? n)%nat then (h + d)%nat else (h + d - n)%nat.
Proof.
  intros Hh Hd. unfold slot. destruct (Nat.ltb_spec (h + d) n).
  - by apply Nat.mod_small.
  - replace (h + d)%nat with (h + d - n + 1 * n)%nat at 1 by lia.
    rewrite Nat.Div0.mod_add. apply Nat.mod_small. lia.
Qed.

Lemma slot_lt n h d : (0 < n)%nat -> (slot n h d < n)%nat.
Proof. intros. apply Nat.mod_upper_bound. lia. Qed.

Lemma slot_slot n h a b : slot n (slot n h a) b = slot n h (a + b).
Proof. unfold slot. rewrite Nat.Div0.add_mod_idemp_l. f_equal. lia. Qed.

Lemma slot_0 n h : (h < n)%nat -> slot n h 0 = h.
Proof. intros. rewrite slot_case by lia. destruct (Nat.ltb_spec (h + 0) n); lia. Qed.

Lemma slot_inj n h a b :
  (h < n)%nat -> (a < n)%nat -> (b < n)%nat -> slot n h a = slot n h b -> a = b.
Proof.
  intros Hh Ha Hb. rewrite !slot_case by lia.
  destruct (Nat.ltb_spec (h + a) n), (Nat.ltb_spec (h + b) n); lia.
Qed.

Lemma slot_reach n h e : (h < n)%nat -> (e < n)%nat -> exists d, (d < n)%nat /\ e = slot n h d.
Proof.
  intros Hh He. exists (if (h <=? e)%nat then e - h else e + n - h)%nat.
  destruct (Nat.leb_spec h e); (split; [lia|]); rewrite slot_case by lia.
  - rewrite (proj2 (Nat.ltb_lt _ _)); lia.
  - rewrite (proj2 (Nat.ltb_ge _ _)); lia.
Qed.

Lemma NEXT_CELL_slot n i : (i < n)%nat -> NEXT_CELL i (Z.of_nat n) = slot n i 1.
Proof.
  intros Hi. unfold NEXT_CELL. rewrite slot_case by lia.
  destruct (Z.eqb_spec (Z.of_nat i) (Z.of_nat n - 1)), (Nat.ltb_spec (i + 1) n); lia.
Qed.

(** ** Probing *)

Definition occb (cs : list cell) (i : nat) : bool :=
  match cs !! i with Some c => CELL_OCCUPIED c | None => false end.

(** The loop stops at cell [i]: it is empty or its key satisfies [stop]. *)
Definition halts (stop : Z -> bool) (cs : list cell) (i : nat) : bool :=
  match cs !! i with Some c => negb (CELL_OCCUPIED c) || stop (key c) | None => false end.

Lemma halts_occb stop cs i :
  (i < length cs)%nat -> occb cs i = false -> halts stop cs i = true.
Proof.
  intros Hi. unfold occb, halts. destruct (lookup_lt_is_Some_2 cs i Hi) as [c ->]. by intros ->.
Qed.

Lemma halts_false stop cs i : (i < length cs)%nat -> halts stop cs i = false -> occb cs i = true.
Proof.
  intros Hi. unfold occb, halts. destruct (lookup_lt_is_Some_2 cs i Hi) as [c ->].
  by destruct (CELL_OCCUPIED c).
Qed.

(** A probe ends at the first cell, in probing order, where the loop stops. *)
Lemma probe_first stop cs n d fuel h :
  length cs = n -> (h < n)%nat -> (d < fuel)%nat -> halts stop cs (slot n h d) = true ->
  exists m, (m <= d)%nat /\ probe stop fuel cs (Z.of_nat n) h = Ret (slot n h m) /\
    halts stop cs (slot n h m) = true /\
    forall d', (d' < m)%nat -> halts stop cs (slot n h d') = false.
Proof.
  intros Hn. revert h fuel. induction d as [|d IH]; intros h [|fuel] Hh Hf Hd; try lia; cbn [probe].
  all: destruct (lookup_lt_is_Some_2 cs h) as [c Hc]; [lia|]; rewrite Hc.
  - exists 0%nat. rewrite slot_0 in * by done. unfold halts in *. rewrite Hc in *.
    destruct (CELL_OCCUPIED c); [destruct (stop (key c)); [|done]|].
    all: split_and!; try done; intros; lia.
  - destruct (halts stop cs h) eqn:Ehalt.
    + exists 0%nat. rewrite slot_0 in * by done. unfold halts in *. rewrite Hc in *.
      destruct (CELL_OCCUPIED c); [destruct (stop (key c)); [|done]|].
      all: split_and!; try done; intros; lia.
    + destruct (IH (slot n h 1) fuel) as (m & Hm & Hp & Hend & Hbefore).
      { apply slot_lt. lia. } { lia. } { by rewrite slot_slot. }
      rewrite slot_slot in Hp, Hend. exists (S m). split_and!; [lia| |done|].
      * unfold halts in Ehalt. rewrite Hc in Ehalt. destruct (CELL_OCCUPIED c); [|done].
        cbn in Ehalt. rewrite Ehalt. by rewrite NEXT_CELL_slot.
      * intros [|d'] Hd'; [by rewrite slot_0|].
        specialize (Hbefore d' ltac:(lia)). by rewrite slot_slot in Hbefore.
Qed.

(** ** Entries *)

(** The entries of the table. *)
Definition occ (cs : list cell) : list cell := filter (fun c => CELL_OCCUPIED c = true) cs.

Definition opt_entry (c : cell) : list cell := if CELL_OCCUPIED c then [c] else [].

Lemma occ_insert cs i c c' :
  cs !! i = Some c -> occ (<[i:=c']> cs) ++ opt_entry c ≡ₚ occ cs ++ opt_entry c'.
Proof.
  intros Hi. pose proof (lookup_lt_Some _ _ _ Hi) as Hlt.
  rewrite insert_take_drop by done. rewrite <-(take_drop_middle cs i c Hi) at 3.
  unfold occ, opt_entry. rewrite !filter_app, !filter_cons.
  destruct (CELL_OCCUPIED c) eqn:E, (CELL_OCCUPIED c') eqn:E'; cbn [decide].
  all: rewrite ?decide_True, ?decide_False by done.
  all: rewrite ?app_nil_r; solve_Permutation.
Qed.

Lemma occ_lookup cs c : c ∈ occ cs <-> exists i, cs !! i = Some c /\ CELL_OCCUPIED c = true.
Proof.
  unfold occ. rewrite list_elem_of_filter, list_elem_of_lookup. naive_solver.
Qed.

Lemma occ_full cs : (forall i, (i < length cs)%nat -> occb cs i = true) -> occ cs = cs.
Proof.
  induction cs as [|c cs IH]; [done|]. intros H. unfold occ in *. rewrite filter_cons.
  pose proof (H 0%nat ltac:(cbn; lia)) as H0. cbn in H0. rewrite decide_True by done.
  f_equal. apply IH. intros i Hi. apply (H (S i)). cbn. lia.
Qed.

(** A table with fewer entries than cells has an empty cell. *)
Lemma empty_exists cs :
  (length (occ cs) < length cs)%nat -> exists e, (e < length cs)%nat /\ occb cs e = false.
Proof.
  intros H. destruct (decide (Exists (fun i => occb cs i = false) (seq 0 (length cs)))) as [He|He].
  - apply Exists_exists in He as (e & He & Hf). apply elem_of_seq in He. exists e. split; [lia|done].
  - exfalso. rewrite occ_full in H; [lia|]. intros i Hi.
    destruct (occb cs i) eqn:E; [done|]. destruct He. apply Exists_exists. exists i.
    split; [apply elem_of_seq; lia|done].
Qed.

(** ** Sizes *)

Lemma prime_scan_spec ps i k x sz :
  ps !! k = Some x -> sz <= x ->
  exists j y, prime_scan ps i sz = Ret (y, S (i + j)) /\ (j <= k)%nat /\ ps !! j = Some y /\ sz <= y.
Proof.
  revert i k. induction ps as [|p ps IH]; intros i k Hk Hs; [done|]. cbn [prime_scan].
  destruct (Z.leb_spec sz p).
  - exists 0%nat, p. split_and!; [by rewrite Nat.add_0_r|lia|done|done].
  - destruct k as [|k]; [cbn in Hk; simplify_eq; lia|].
    destruct (IH (S i) k Hk Hs) as (j & y & -> & Hj & Hy & Hsy).
    exists (S j), y. split_and!; [|lia|done|done]. do 2 f_equal. lia.
Qed.

(** The largest size whose cell array [xmalloc] can be asked for. *)
Definition max_size : Z := 110774011.

Lemma primes_range p x : primes !! p = Some x -> 13 <= x /\ ((p <= 58)%nat -> x <= max_size).
Proof.
  intros Hp. pose proof (lookup_lt_Some _ _ _ Hp) as Hlt. revert Hp.
  assert (forallb (fun p => (13 <=? primes !!! p) &&
    ((58 <? p)%nat || (primes !!! p <=? max_size))) (seq 0 (length primes)) = true) as H
    by (by vm_compute).
  rewrite forallb_forall in H. specialize (H p ltac:(apply in_seq; lia)).
  apply andb_true_iff in H as [H1 H2]. intros Hp. apply list_lookup_total_correct in Hp as <-.
  split; [lia|]. intros. rewrite (proj2 (Nat.ltb_ge _ _)) in H2 by lia. cbn in H2. lia.
Qed.

Lemma prime_size_spec sz :
  sz <= max_size ->
  exists p y, prime_size sz 0 = Ret (y, S p) /\ primes !! p = Some y /\ sz <= y <= max_size.
Proof.
  intros Hs. destruct (prime_scan_spec primes 0 58 max_size sz eq_refl Hs) as (j & y & Hp & Hj & Hy & ?).
  exists j, y. split_and!; [done|done|done|]. by apply (primes_range j).
Qed.

(** The size a table grows to. *)
Lemma prime_size_grow p x :
  primes !! p = Some x -> x < 44739243 ->
  exists q y, prime_size (x * 2) (S p) = Ret (y, S q) /\ primes !! q = Some y /\ 2 * x <= y <= max_size.
Proof.
  intros Hp Hx. pose proof (lookup_lt_Some _ _ _ Hp) as Hlt.
  assert (forallb (fun p => (44739243 <=? primes !!! p) ||
    match prime_size ((primes !!! p) * 2) (S p) with
    | Ret (y, S q) => bool_decide (primes !! q = Some y) && (2 * (primes !!! p) <=? y) && (y <=? max_size)
    | _ => false end) (seq 0 (length primes)) = true) as H by (by vm_compute).
  rewrite forallb_forall in H. specialize (H p ltac:(apply in_seq; lia)).
  apply list_lookup_total_correct in Hp as Hpt. rewrite Hpt in H.
  rewrite (proj2 (Z.leb_gt _ _) Hx) in H. cbn [orb] in H.
  destruct (prime_size _ _) as [[y [|q]]| |]; [done| |done|done].
  apply andb_true_iff in H as [H1 H3]. apply andb_true_iff in H1 as [H1 H2].
  apply bool_decide_eq_true in H1. exists q, y. split_and!; [done|done|lia|lia].
Qed.

Lemma new_cells_ok malloc `{!MallocSpec malloc} n :
  (forall m, 0 < m < 2 ^ 31 -> is_Some (malloc m)) -> 0 < n <= max_size ->
  new_cells malloc n = Ret (replicate (Z.to_nat n) blank).
Proof.
  intros Hm Hn. unfold max_size in Hn. unfold new_cells.
  destruct (xmalloc_total malloc Hm (n * 16) ltac:(lia)) as (mem & -> & Hz). cbn [mbind outcome_bind].
  unfold mem_fill. rewrite (proj2 (Z.leb_le 0 (n * 16))) by lia.
  rewrite mem_write_ok by (rewrite ?zlen_replicate; lia). done.
Qed.

Lemma occ_blank n : occ (replicate n blank) = [].
Proof. induction n as [|n IH]; [done|]. unfold occ in *. cbn [replicate]. by rewrite filter_cons_False. Qed.

(** ** The invariant *)

Section Invariant.
Context (hash : Z -> Z) (test : Z -> Z -> bool) `{!HashContract hash test}.

Definition home (n : nat) (k : Z) : nat := HASH_POSITION hash k (Z.of_nat n).

Lemma home_lt n k : (0 < n)%nat -> (home n k < n)%nat.
Proof.
  intros Hn. unfold home, HASH_POSITION.
  pose proof (Z.mod_pos_bound (hash k) (Z.of_nat n) ltac:(lia)). lia.
Qed.

Lemma home_test n k1 k2 : test k1 k2 = true -> home n k1 = home n k2.
Proof. intros H. unfold home, HASH_POSITION. by rewrite (test_hash (hash:=hash) k1 k2 H). Qed.

(** Probing from the home of [k] comes to cell [j]. *)
Definition placed (cs : list cell) (k : Z) (j : nat) : Prop :=
  exists d, (d < length cs)%nat /\ j = slot (length cs) (home (length cs) k) d /\
    forall d', (d' < d)%nat -> occb cs (slot (length cs) (home (length cs) k) d') = true.

Definition all_placed (cs : list cell) : Prop :=
  forall j c, cs !! j = Some c -> CELL_OCCUPIED c = true -> placed cs (key c) j.

(** No two entries have equal keys. *)
Definition unique (l : list cell) : Prop :=
  forall i j ci cj, l !! i = Some ci -> l !! j = Some cj ->
    CELL_OCCUPIED ci = true -> CELL_OCCUPIED cj = true -> test (key ci) (key cj) = true -> i = j.

Record wf_cells (cs : list cell) : Prop := {
  wf_placed : all_placed cs;
  wf_unique : unique cs;
  wf_room : (length (occ cs) < length cs)%nat
}.

(** The entry that [k] finds by inspecting every entry. *)
Definition lookup_entry (l : list cell) (k : Z) : option cell :=
  head (filter (fun c => test k (key c) = true) l).

Lemma lookup_entry_Some l k c : lookup_entry l k = Some c -> c ∈ l /\ test k (key c) = true.
Proof.
  unfold lookup_entry. intros H. apply head_Some_elem_of in H.
  apply list_elem_of_filter in H. tauto.
Qed.

Lemma lookup_entry_None l k : lookup_entry l k = None <-> forall c, c ∈ l -> test k (key c) = false.
Proof.
  unfold lookup_entry. split.
  - intros H c Hc. destruct (test k (key c)) eqn:E; [|done].
    assert (c ∈ filter (fun c => test k (key c) = true) l) by by apply list_elem_of_filter.
    destruct (filter _ l); [by apply not_elem_of_nil in H0|done].
  - intros H. destruct (filter _ l) as [|c f] eqn:E; [done|].
    assert (c ∈ filter (fun c => test k (key c) = true) l) as Hc by (rewrite E; left).
    apply list_elem_of_filter in Hc as [Ht Hc]. by rewrite H in Ht.
Qed.

(** ** Finding, updating and adding an entry *)

Lemma placed_mono cs cs' k j :
  length cs' = length cs -> (forall i, occb cs i = true -> occb cs' i = true) ->
  placed cs k j -> placed cs' k j.
Proof.
  intros Hlen Hmono (d & Hd & -> & Hb). exists d. rewrite Hlen. split_and!; [done|done|auto].
Qed.

Lemma occb_insert cs i c j :
  (i < length cs)%nat ->
  occb (<[i:=c]> cs) j = if decide (i = j) then CELL_OCCUPIED c else occb cs j.
Proof.
  intros Hi. unfold occb. case_decide; subst.
  - by rewrite list_lookup_insert_eq.
  - by rewrite list_lookup_insert_ne.
Qed.

Lemma occb_mono_insert cs i c j :
  (i < length cs)%nat -> CELL_OCCUPIED c = true -> occb cs j = true -> occb (<[i:=c]> cs) j = true.
Proof. intros. rewrite occb_insert by done. by case_decide. Qed.

(** A probe with any [stop] in a table with an empty cell. *)
Lemma probe_home stop cs n k :
  n = length cs -> (length (occ cs) < n)%nat ->
  exists m, (m < n)%nat /\ probe stop n cs (Z.of_nat n) (home n k) = Ret (slot n (home n k) m) /\
    halts stop cs (slot n (home n k) m) = true /\
    forall d', (d' < m)%nat -> halts stop cs (slot n (home n k) d') = false.
Proof.
  intros -> Hroom. destruct (empty_exists cs Hroom) as (e & He & Hemp).
  pose proof (home_lt (length cs) k ltac:(lia)) as Hh.
  destruct (slot_reach _ _ e Hh He) as (d & Hd & ->).
  destruct (probe_first stop cs _ d (length cs) _ eq_refl Hh Hd) as (m & ? & ? & ? & ?).
  { by apply halts_occb. }
  exists m. split_and!; auto with lia.
Qed.

(** What [find_cell] finds: the entry of an equal key, or the free cell where such an
    entry belongs. *)
Lemma find_cell_spec ht k :
  wf_cells (cells ht) -> size ht = zlen (cells ht) ->
  exists i c, find_cell hash test ht k = Ret i /\ cells ht !! i = Some c /\
    ((CELL_OCCUPIED c = true /\ test k (key c) = true) \/
     (CELL_OCCUPIED c = false /\ placed (cells ht) k i /\
      forall c', c' ∈ occ (cells ht) -> test k (key c') = false)).
Proof.
  intros [Hpl Huq Hroom] Hsz. unfold find_cell. rewrite Hsz.
  destruct (probe_home (test k) (cells ht) _ k eq_refl Hroom) as (m & Hm & Hp & Hend & Hbefore).
  assert (0 < length (cells ht))%nat as Hpos by lia.
  destruct (lookup_lt_is_Some_2 (cells ht) (slot (length (cells ht)) (home (length (cells ht)) k) m))
    as [c Hc]; [by apply slot_lt|].
  exists (slot (length (cells ht)) (home (length (cells ht)) k) m), c. split_and!; [done|done|].
  unfold halts in Hend. rewrite Hc in Hend.
  destruct (CELL_OCCUPIED c) eqn:Eo; [left; auto|right].
  assert (forall d', (d' < m)%nat -> occb (cells ht) (slot (length (cells ht)) (home (length (cells ht)) k) d') = true) as Hocc.
  { intros d' Hd'. eapply halts_false; [by apply slot_lt|]. by apply Hbefore. }
  split_and!; [done|by exists m|]. intros c' Hc'. apply occ_lookup in Hc' as (j & Hj & Ho').
  destruct (test k (key c')) eqn:Et; [exfalso|done].
  destruct (Hpl j c' Hj Ho') as (d & Hd & -> & Hb).
  assert (home (length (cells ht)) (key c') = home (length (cells ht)) k) as Hhome.
  { symmetry. by apply home_test. }
  rewrite Hhome in *. destruct (decide (d < m)%nat) as [Hlt|Hge].
  - specialize (Hbefore d Hlt). unfold halts in Hbefore. rewrite Hj, Et, Ho' in Hbefore. done.
  - destruct (decide (d = m)) as [->|Hne]; [congruence|].
    specialize (Hb m ltac:(lia)). unfold occb in Hb. rewrite Hc in Hb. congruence.
Qed.

Lemma occ_cons cs i c c' :
  cs !! i = Some c -> CELL_OCCUPIED c = false -> CELL_OCCUPIED c' = true ->
  occ (<[i:=c']> cs) ≡ₚ c' :: occ cs.
Proof.
  intros Hi Ho Ho'. pose proof (occ_insert cs i c c' Hi) as H. unfold opt_entry in H.
  rewrite Ho, Ho', app_nil_r in H. rewrite H. symmetry. apply Permutation_cons_append.
Qed.

Lemma occ_replace cs i c c' :
  cs !! i = Some c -> CELL_OCCUPIED c = true -> CELL_OCCUPIED c' = true ->
  c :: occ (<[i:=c']> cs) ≡ₚ c' :: occ cs.
Proof.
  intros Hi Ho Ho'. pose proof (occ_insert cs i c c' Hi) as H. unfold opt_entry in H.
  rewrite Ho, Ho' in H. etrans; [apply Permutation_cons_append|].
  rewrite H. symmetry. apply Permutation_cons_append.
Qed.

Lemma occ_remove cs i c c' :
  cs !! i = Some c -> CELL_OCCUPIED c = true -> CELL_OCCUPIED c' = false ->
  c :: occ (<[i:=c']> cs) ≡ₚ occ cs.
Proof.
  intros Hi Ho Ho'. pose proof (occ_insert cs i c c' Hi) as H. unfold opt_entry in H.
  rewrite Ho, Ho', app_nil_r in H. rewrite <-H. apply Permutation_cons_append.
Qed.

Lemma unique_insert cs i c :
  unique cs -> (forall j c', cs !! j = Some c' -> j <> i -> CELL_OCCUPIED c' = true ->
    CELL_OCCUPIED c = true -> test (key c) (key c') = false) ->
  unique (<[i:=c]> cs).
Proof.
  intros Huq Hne j1 j2 c1 c2 H1 H2 Ho1 Ho2 Ht.
  apply list_lookup_insert_Some in H1 as [(<- & <- & ?)|[Hn1 H1]];
    apply list_lookup_insert_Some in H2 as [(<- & <- & ?)|[Hn2 H2]]; [done|..].
  - by rewrite (Hne j2 c2) in Ht.
  - apply test_sym in Ht. by rewrite (Hne j1 c1) in Ht.
  - eauto.
Qed.

(** Adding an entry in the free cell where its key belongs. *)
Lemma insert_wf cs i c0 c :
  wf_cells cs -> cs !! i = Some c0 -> CELL_OCCUPIED c0 = false -> CELL_OCCUPIED c = true ->
  placed cs (key c) i -> (forall c', c' ∈ occ cs -> test (key c) (key c') = false) ->
  (S (length (occ cs)) < length cs)%nat -> wf_cells (<[i:=c]> cs).
Proof.
  intros [Hpl Huq Hroom] Hi Ho0 Ho Hp Hnew Hlen. pose proof (lookup_lt_Some _ _ _ Hi) as Hlt.
  assert (forall k j, placed cs k j -> placed (<[i:=c]> cs) k j) as Hmono.
  { intros k j. apply placed_mono; [apply length_insert|]. intros. by apply occb_mono_insert. }
  split.
  - intros j c' Hj Ho'. apply Hmono. apply list_lookup_insert_Some in Hj as [(<- & <- & ?)|[? ?]]; auto.
  - apply unique_insert; [done|]. intros j c' Hj _ Ho' _. apply Hnew, occ_lookup. eauto.
  - rewrite length_insert, (occ_cons _ _ _ _ Hi Ho0 Ho). done.
Qed.

(** Overwriting the entry of an equal key. *)
Lemma update_wf cs i c0 c :
  wf_cells cs -> cs !! i = Some c0 -> CELL_OCCUPIED c0 = true -> CELL_OCCUPIED c = true ->
  test (key c) (key c0) = true -> wf_cells (<[i:=c]> cs).
Proof.
  intros [Hpl Huq Hroom] Hi Ho0 Ho Ht. pose proof (lookup_lt_Some _ _ _ Hi) as Hlt.
  split.
  - intros j c' Hj Ho'. eapply (placed_mono cs); [apply length_insert|intros; by apply occb_mono_insert|].
    apply list_lookup_insert_Some in Hj as [(<- & <- & ?)|[? ?]]; [|auto].
    specialize (Hpl i c0 Hi Ho0). unfold placed in *. by rewrite (home_test _ _ _ Ht).
  - apply unique_insert; [done|]. intros j c' Hj Hji Ho' _.
    destruct (test (key c) (key c')) eqn:E; [|done]. destruct Hji.
    apply (Huq j i c' c0); try done. apply test_sym. eapply test_trans; [|exact E]. by apply test_sym.
  - rewrite length_insert. pose proof (occ_replace _ _ _ _ Hi Ho0 Ho) as H.
    apply Permutation_length in H. cbn in H. lia.
Qed.

(** ** Growing *)

Lemma rehash_spec old new :
  wf_cells new -> unique old ->
  (forall c c', c ∈ occ old -> c' ∈ occ new -> test (key c) (key c') = false) ->
  (length (occ old) + length (occ new) < length new)%nat ->
  exists new', rehash hash old new (zlen new) = Ret new' /\ wf_cells new' /\
    length new' = length new /\ occ new' ≡ₚ occ old ++ occ new.
Proof.
  revert new. induction old as [|c old IH]; intros new Hwf Huq Hsep Hlen; cbn [rehash].
  { exists new. done. }
  assert (unique old) as Huq'.
  { intros i j ci cj Hi Hj Hoi Hoj Ht. specialize (Huq (S i) (S j) ci cj Hi Hj Hoi Hoj Ht). lia. }
  unfold occ in Hsep, Hlen |- *. rewrite filter_cons in Hsep, Hlen |- *. fold (occ old) (occ new) in *.
  destruct (CELL_OCCUPIED c) eqn:Eo; cbn [decide].
  2: { rewrite decide_False in Hsep, Hlen |- * by done. by apply IH. }
  rewrite decide_True in Hsep, Hlen |- * by done. cbn [length] in Hlen.
  destruct (probe_home (fun _ => false) new _ (key c) eq_refl ltac:(lia))
    as (m & Hm & Hp & Hend & Hbefore).
  set (j := slot _ _ m) in *. assert (0 < length new)%nat as Hpos by lia.
  assert (j < length new)%nat as Hj by by apply slot_lt.
  change (HASH_POSITION hash (key c) (zlen new)) with (home (length new) (key c)).
  unfold zlen. rewrite Hp. cbn [mbind outcome_bind].
  rewrite mem_set_nat by done. cbn [mbind outcome_bind].
  destruct (lookup_lt_is_Some_2 new j Hj) as [c0 Hc0].
  assert (CELL_OCCUPIED c0 = false) as Eo0.
  { unfold halts in Hend. rewrite Hc0, orb_false_r in Hend. by destruct (CELL_OCCUPIED c0). }
  assert (wf_cells (<[j:=c]> new)) as Hwf'.
  { apply (insert_wf new j c0 c); try done.
    - exists m. split_and!; [done|done|]. intros d' Hd'.
      apply (halts_false (fun _ => false)); [by apply slot_lt|by apply Hbefore].
    - intros c' Hc'. apply Hsep; [left|done].
    - lia. }
  pose proof (occ_cons _ _ _ _ Hc0 Eo0 Eo) as Hperm.
  destruct (IH (<[j:=c]> new) Hwf' Huq') as (new' & Hr & Hw & Hl & Hocc).
  - intros c1 c2 H1 H2. rewrite Hperm in H2. apply elem_of_cons in H2 as [->|H2].
    + destruct (test (key c1) (key c)) eqn:Et; [exfalso|done].
      apply occ_lookup in H1 as (i & Hi & Hoi).
      specialize (Huq (S i) 0%nat c1 c Hi eq_refl Hoi Eo Et). lia.
    + apply Hsep; [by right|done].
  - rewrite length_insert, Hperm. cbn. lia.
  - rewrite zlen_insert in Hr. unfold zlen in Hr. exists new'. rewrite length_insert in Hl.
    split_and!; [done|done|done|]. rewrite Hocc, Hperm. cbn. symmetry. apply Permutation_middle.
Qed.

(** ** Removing *)

(** Clearing the cell [slot i t] of a run of entries that ends before the empty cell
    [slot i L] breaks only the probe sequences of entries further on in that run. *)
Lemma path_avoids cs i t L h d1 :
  let n := length cs in
  (t <= L)%nat -> occb cs (slot n i L) = false -> occb cs (slot n h d1) = true ->
  (forall d', (d' < d1)%nat -> occb cs (slot n h d') = true) ->
  (forall s, (t < s < L)%nat -> slot n h d1 <> slot n i s) ->
  forall d', (d' < d1)%nat -> slot n h d' <> slot n i t.
Proof.
  intros n Ht He Hj Hpath Hpend d' Hd' Heq.
  assert (forall x, slot n h (d' + x) = slot n i (t + x)) as Hshift.
  { intros x. by rewrite <-!slot_slot, Heq. }
  destruct (decide (t + (d1 - d') < L)%nat) as [Hlt|Hge].
  - apply (Hpend (t + (d1 - d'))%nat); [lia|]. rewrite <-Hshift. f_equal. lia.
  - specialize (Hshift (L - t)%nat). replace (t + (L - t))%nat with L in Hshift by lia.
    rewrite <-Hshift in He. destruct (decide (d' + (L - t) = d1)%nat) as [Hd|Hne].
    + rewrite Hd in He. congruence.
    + rewrite Hpath in He by lia. done.
Qed.

(** The state of the rehash loop at the cell [slot i t]: [cs0] is the table before the
    removal of the entry in cell [i], whose run ends at the empty cell [slot i L]. *)
Record rehash_inv (cs0 : list cell) (i L t : nat) (cs : list cell) : Prop := {
  ri_len : length cs = length cs0;
  ri_same : forall s, (t <= s < length cs0)%nat ->
    cs !! slot (length cs0) i s = cs0 !! slot (length cs0) i s;
  ri_placed : forall j c, cs !! j = Some c -> CELL_OCCUPIED c = true ->
    (forall s, (t <= s < L)%nat -> j <> slot (length cs0) i s) -> placed cs (key c) j;
  ri_unique : unique cs
}.

Section Run.
Context (cs0 : list cell) (i L : nat).
Abbreviation n := (length cs0).
Hypothesis Hi : (i < n)%nat.
Hypothesis HL : (0 < L < n)%nat.
Hypothesis Hwf0 : all_placed cs0.
Hypothesis Hrun : forall s, (s < L)%nat -> occb cs0 (slot n i s) = true.
Hypothesis Hend : occb cs0 (slot n i L) = false.

Lemma rehash_inv_end t cs : (t <= L)%nat -> rehash_inv cs0 i L t cs -> occb cs (slot n i L) = false.
Proof. intros Ht [? Hsame ? ?]. unfold occb. by rewrite Hsame by lia. Qed.

(** After the loop step that finds the entry where probing finds it. *)
Lemma rehash_inv_keep t cs c :
  (t < L)%nat -> rehash_inv cs0 i L t cs -> cs !! slot n i t = Some c ->
  placed cs (key c) (slot n i t) -> rehash_inv cs0 i L (S t) cs.
Proof.
  intros Ht [Hlen Hsame Hpl Huq] Hc Hp. split; [done| | |done].
  - intros s Hs. apply Hsame. lia.
  - intros j c' Hj Ho' Hnp. destruct (decide (j = slot n i t)) as [->|Hne].
    + congruence.
    + apply Hpl; [done|done|]. intros s Hs. destruct (decide (s = t)) as [->|]; [done|].
      apply Hnp. lia.
Qed.

(** After clearing the cell [slot i t], before the entry is stored elsewhere. *)
Lemma rehash_inv_clear t cs c :
  (t < L)%nat -> rehash_inv cs0 i L t cs -> cs !! slot n i t = Some c ->
  rehash_inv cs0 i L (S t) (<[slot n i t := CLEAR_CELL c]> cs).
Proof.
  intros Ht [Hlen Hsame Hpl Huq] Hc.
  assert (slot n i t < length cs)%nat as Hlt by by apply lookup_lt_Some in Hc.
  split.
  - by rewrite length_insert.
  - intros s Hs. rewrite list_lookup_insert_ne; [apply Hsame; lia|].
    intros He. apply slot_inj in He; lia.
  - intros j c' Hj Ho' Hnp. apply list_lookup_insert_Some in Hj as [(<- & <- & _)|[Hne Hj]]; [done|].
    destruct (Hpl j c' Hj Ho') as (d & Hd & Hjd & Hpath).
    { intros s Hs. destruct (decide (s = t)) as [->|]; [done|]. apply Hnp. lia. }
    exists d. rewrite length_insert. split_and!; [done|done|]. intros d' Hd'.
    rewrite occb_insert by done. rewrite decide_False; [by apply Hpath|].
    intros He. symmetry in He. revert He. rewrite <-Hlen.
    apply (path_avoids cs i t L (home (length cs) (key c')) d); [lia| | |done| |done].
    + unfold occb. rewrite Hlen, Hsame by lia. exact Hend.
    + rewrite <-Hjd. unfold occb. by rewrite Hj.
    + intros s Hs. rewrite <-Hjd, Hlen. apply Hnp. lia.
  - apply unique_insert; [done|]. by intros ????? [=].
Qed.

(** Storing an entry in the first free cell of its probe sequence. *)
Lemma rehash_inv_store t cs j c c0 :
  rehash_inv cs0 i L t cs -> cs !! j = Some c0 -> CELL_OCCUPIED c0 = false ->
  CELL_OCCUPIED c = true -> placed cs (key c) j ->
  (forall s, (t <= s < n)%nat -> j <> slot n i s) ->
  (forall c', c' ∈ occ cs -> test (key c) (key c') = false) ->
  rehash_inv cs0 i L t (<[j:=c]> cs).
Proof.
  intros [Hlen Hsame Hpl Huq] Hc0 Ho0 Ho Hp Hbefore Hnew.
  pose proof (lookup_lt_Some _ _ _ Hc0) as Hlt.
  assert (forall k j', placed cs k j' -> placed (<[j:=c]> cs) k j') as Hmono.
  { intros k j'. apply placed_mono; [apply length_insert|]. intros. by apply occb_mono_insert. }
  split.
  - by rewrite length_insert.
  - intros s Hs. rewrite list_lookup_insert_ne; [by apply Hsame|]. by apply Hbefore.
  - intros j' c' Hj Ho' Hnp. apply Hmono.
    apply list_lookup_insert_Some in Hj as [(<- & <- & _)|[Hne Hj]]; [done|]. by apply Hpl.
  - apply unique_insert; [done|]. intros j' c' Hj' _ Ho' _. apply Hnew, occ_lookup. eauto.
Qed.

(** The probe for the new place of the entry [c] in cell [slot i t]: it comes to the
    entry itself, or to a free cell that the loop has passed. *)
Lemma rehash_probe t cs c :
  (0 < t < L)%nat -> rehash_inv cs0 i L t cs -> cs !! slot n i t = Some c ->
  exists j c', probe (fun k => key c =? k) n cs (Z.of_nat n) (home n (key c)) = Ret j /\
    cs !! j = Some c' /\ placed cs (key c) j /\
    ((CELL_OCCUPIED c' = true /\ j = slot n i t) \/
     (CELL_OCCUPIED c' = false /\ (forall s, (t <= s < n)%nat -> j <> slot n i s) /\
      placed (<[slot n i t := CLEAR_CELL c]> cs) (key c) j)).
Proof.
  intros Ht [Hlen Hsame Hpl Huq] Hc.
  assert (CELL_OCCUPIED c = true) as Ho.
  { specialize (Hrun t ltac:(lia)). unfold occb in Hrun. rewrite <-Hsame in Hrun by lia.
    by rewrite Hc in Hrun. }
  assert (cs0 !! slot n i t = Some c) as Hc0 by (by rewrite <-Hsame by lia).
  destruct (Hwf0 _ _ Hc0 Ho) as (d & Hd & Hjd & Hpath).
  pose proof (home_lt n (key c) ltac:(lia)) as Hh. assert (0 < n)%nat as Hpos by lia.
  destruct (probe_first (fun k => key c =? k) cs n d n (home n (key c)) Hlen Hh Hd)
    as (m & Hm & Hp & Hhalt & Hbefore).
  { unfold halts. rewrite <-Hjd, Hc, Z.eqb_refl. apply orb_true_r. }
  assert (forall d', (d' < m)%nat -> occb cs (slot n (home n (key c)) d') = true) as Hocc.
  { intros d' Hd'. eapply halts_false; [rewrite Hlen; by apply slot_lt|by apply Hbefore]. }
  destruct (lookup_lt_is_Some_2 cs (slot n (home n (key c)) m)) as [c' Hc'].
  { rewrite Hlen. by apply slot_lt. }
  exists (slot n (home n (key c)) m), c'. split_and!; [done|done| |].
  { exists m. rewrite Hlen. split_and!; [lia|done|done]. }
  destruct (decide (m = d)) as [->|Hmd].
  { left. rewrite <-Hjd in *. split; congruence. }
  right. assert (CELL_OCCUPIED c' = false) as Ho'.
  { destruct (CELL_OCCUPIED c') eqn:E; [exfalso|done]. unfold halts in Hhalt.
    rewrite Hc', E in Hhalt. cbn in Hhalt. apply Z.eqb_eq in Hhalt.
    apply Hmd. apply (slot_inj n (home n (key c))); [done|lia|done|]. rewrite <-Hjd.
    apply (Huq _ _ c' c); try done. rewrite Hhalt. apply (test_refl (hash:=hash)). }
  split_and!; [done| |].
  - intros s Hs Heq. specialize (Hpath m ltac:(lia)). unfold occb in Hpath.
    rewrite Heq, <-Hsame, <-Heq, Hc' in Hpath by lia. congruence.
  - exists m. rewrite length_insert, Hlen. split_and!; [lia|done|].
    intros d' Hd'. rewrite occb_insert by (rewrite Hlen; by apply slot_lt).
    rewrite decide_False; [by apply Hocc|]. rewrite Hjd. intros He. apply slot_inj in He; lia.
Qed.

Lemma remove_loop_spec fuel t cs :
  (0 < t <= L)%nat -> (L - t < fuel)%nat -> rehash_inv cs0 i L t cs ->
  exists cs', remove_loop hash fuel cs (Z.of_nat n) (slot n i t) = Ret cs' /\
    rehash_inv cs0 i L L cs' /\ occ cs' ≡ₚ occ cs.
Proof.
  assert (0 < n)%nat as Hpos by lia.
  revert t cs. induction fuel as [|fuel IH]; intros t cs Ht Hf Hinv; [lia|].
  pose proof Hinv as [Hlen Hsame Hpl Huq]. cbn [remove_loop].
  destruct (lookup_lt_is_Some_2 cs (slot n i t)) as [c Hc]; [rewrite Hlen; by apply slot_lt|].
  rewrite (mem_get_nat _ _ _ Hc). cbn [mbind outcome_bind].
  destruct (decide (t = L)) as [->|HtL].
  { assert (CELL_OCCUPIED c = false) as ->.
    { pose proof (rehash_inv_end L cs ltac:(lia) Hinv) as H. unfold occb in H. by rewrite Hc in H. }
    by exists cs. }
  assert (CELL_OCCUPIED c = true) as Ho.
  { specialize (Hrun t ltac:(lia)). unfold occb in Hrun. rewrite <-Hsame in Hrun by lia.
    by rewrite Hc in Hrun. }
  rewrite Ho. destruct (rehash_probe t cs c ltac:(lia) Hinv Hc)
    as (j & c' & Hp & Hj & Hplaced & Hcase).
  change (HASH_POSITION hash (key c) (Z.of_nat n)) with (home n (key c)).
  rewrite Hlen, Hp. cbn [mbind outcome_bind].
  rewrite (mem_get_nat _ _ _ Hj). cbn [mbind outcome_bind].
  rewrite NEXT_CELL_slot, slot_slot, Nat.add_1_r by by apply slot_lt.
  destruct Hcase as [[Ho' ->]|(Ho' & Hpast & Hplaced')]; rewrite Ho'; cbn [mbind outcome_bind].
  { apply (IH (S t)); [lia|lia|]. by apply (rehash_inv_keep t cs c ltac:(lia)). }
  assert (j <> slot n i t) as Hjt by (apply Hpast; lia).
  assert (j < length cs)%nat as Hjlt by by apply lookup_lt_Some in Hj.
  rewrite mem_set_nat by done. cbn [mbind outcome_bind].
  rewrite mem_set_nat by (rewrite length_insert, Hlen; by apply slot_lt).
  cbn [mbind outcome_bind]. rewrite list_insert_insert_ne by done.
  set (cleared := <[slot n i t:=CLEAR_CELL c]> cs).
  assert (cleared !! j = Some c') as Hjc by (unfold cleared; by rewrite list_lookup_insert_ne).
  destruct (IH (S t) (<[j:=c]> cleared)) as (cs' & Hr & Hinv' & Hperm); [lia|lia| |].
  - apply (rehash_inv_store (S t) cleared j c c'); try done.
    + apply (rehash_inv_clear t cs c ltac:(lia) Hinv Hc).
    + intros s Hs. apply Hpast. lia.
    + intros c2 Hc2. apply occ_lookup in Hc2 as (j2 & Hj2 & Ho2).
      apply list_lookup_insert_Some in Hj2 as [(<- & <- & _)|[Hne2 Hj2]]; [done|].
      destruct (test (key c) (key c2)) eqn:Et; [|done]. destruct Hne2. by apply (Huq _ _ c c2).
  - exists cs'. split_and!; [done|done|]. rewrite Hperm, (occ_cons _ _ _ _ Hjc Ho' Ho).
    by apply occ_remove.
Qed.
End Run.

(** Removing the entry in cell [i]. *)
Lemma remove_spec cs i c :
  wf_cells cs -> cs !! i = Some c -> CELL_OCCUPIED c = true ->
  exists cs', remove_loop hash (length cs) (<[i:=CLEAR_CELL c]> cs) (zlen cs) (NEXT_CELL i (zlen cs))
      = Ret cs' /\
    wf_cells cs' /\ length cs' = length cs /\ c :: occ cs' ≡ₚ occ cs.
Proof.
  intros [Hpl Huq Hroom] Hc Ho. pose proof (lookup_lt_Some _ _ _ Hc) as Hi.
  destruct (empty_exists cs Hroom) as (e & He & Hemp).
  destruct (slot_reach _ _ e Hi He) as (d & Hd & ->).
  destruct (probe_first (fun _ => false) cs _ d (length cs) i eq_refl Hi Hd)
    as (L & HLd & _ & HL & Hrun); [by apply halts_occb|].
  assert (forall s, (s < L)%nat -> occb cs (slot (length cs) i s) = true) as Hrun'.
  { intros s Hs. eapply halts_false; [apply slot_lt; lia|by apply Hrun]. }
  assert (occb cs (slot (length cs) i L) = false) as Hend.
  { unfold halts in HL. unfold occb. destruct (cs !! slot _ _ _) as [c'|]; [|done].
    rewrite orb_false_r in HL. by destruct (CELL_OCCUPIED c'). }
  assert (L <> 0%nat).
  { intros ->. rewrite slot_0 in Hend by done. unfold occb in Hend. rewrite Hc in Hend. congruence. }
  assert (rehash_inv cs i L 0 cs) as Hinv0 by (split; auto).
  pose proof (rehash_inv_clear cs i L Hi ltac:(lia) Hend 0 cs c ltac:(lia) Hinv0) as Hinv.
  rewrite slot_0 in Hinv by done. specialize (Hinv Hc).
  unfold zlen. rewrite NEXT_CELL_slot by done.
  destruct (remove_loop_spec cs i L Hi ltac:(lia) Hpl Hrun' Hend (length cs) 1
    (<[i:=CLEAR_CELL c]> cs) ltac:(lia) ltac:(lia) Hinv) as (cs' & Hr & [Hlen _ Hpl' Huq'] & Hperm).
  assert (c :: occ cs' ≡ₚ occ cs) as Hocc.
  { rewrite Hperm. by apply occ_remove. }
  exists cs'. split_and!; [done| |done|done]. split; [|done|].
  - intros j c' Hj Ho'. apply Hpl'; [done|done|]. intros s Hs. lia.
  - apply Permutation_length in Hocc. cbn in Hocc. lia.
Qed.

(** ** Tables *)

Record wf (ht : hash_table) : Prop := {
  wf_cs : wf_cells (cells ht);
  wf_size : size ht = zlen (cells ht);
  wf_count : count ht = zlen (occ (cells ht));
  wf_threshold : resize_threshold ht = threshold_of (size ht);
  wf_full : count ht <= resize_threshold ht;
  wf_prime : exists p, prime_offset ht = S p /\ primes !! p = Some (size ht)
}.

(** The table [ht] holds the entries [al]. *)
Definition holds (ht : hash_table) (al : list cell) : Prop := wf ht /\ occ (cells ht) ≡ₚ al.

(** The operations on an association list. *)
Definition ref_put (al : list cell) (k v : Z) : list cell :=
  mk_cell k v :: filter (fun c => test k (key c) = false) al.
Definition ref_remove (al : list cell) (k : Z) : list cell :=
  filter (fun c => test k (key c) = false) al.

Lemma found_entry cs al i c k :
  unique cs -> occ cs ≡ₚ al -> cs !! i = Some c -> CELL_OCCUPIED c = true -> test k (key c) = true ->
  lookup_entry al k = Some c.
Proof.
  intros Huq Hal Hi Ho Ht. destruct (lookup_entry al k) as [c'|] eqn:E.
  - apply lookup_entry_Some in E as [Hin Ht']. rewrite <-Hal in Hin.
    apply occ_lookup in Hin as (j & Hj & Ho').
    assert (i = j) as -> by (apply (Huq i j c c'); try done; eapply test_trans; [by apply test_sym|done]).
    congruence.
  - rewrite lookup_entry_None in E. rewrite E in Ht; [done|].
    rewrite <-Hal. apply occ_lookup. eauto.
Qed.

(** What an operation sees when it looks for [k]. *)
Lemma holds_find ht al k :
  holds ht al ->
  exists i c, find_cell hash test ht k = Ret i /\ mem_get (cells ht) (Z.of_nat i) = Ret c /\
    cells ht !! i = Some c /\
    ((CELL_OCCUPIED c = true /\ test k (key c) = true /\ lookup_entry al k = Some c) \/
     (CELL_OCCUPIED c = false /\ placed (cells ht) k i /\ lookup_entry al k = None)).
Proof.
  intros [[Hcs Hsz _ _ _ _] Hal].
  destruct (find_cell_spec ht k Hcs Hsz) as (i & c & Hf & Hc & Hcase).
  exists i, c. split_and!; [done|by apply mem_get_nat|done|].
  destruct Hcase as [[Ho Ht]|(Ho & Hp & Hnone)]; [left|right]; split_and!; try done.
  - eapply found_entry; try done. apply Hcs.
  - apply lookup_entry_None. intros c' Hc'. apply Hnone. by rewrite Hal.
Qed.

Lemma filter_none al k :
  lookup_entry al k = None -> filter (fun c => test k (key c) = false) al = al.
Proof. rewrite lookup_entry_None. intros H. by apply list_filter_all, Forall_forall. Qed.

(** The entries other than the one of key [k]. *)
Lemma filter_other cs al cs' i c k :
  unique cs -> occ cs ≡ₚ al -> cs !! i = Some c -> CELL_OCCUPIED c = true -> test k (key c) = true ->
  c :: cs' ≡ₚ occ cs -> ref_remove al k ≡ₚ cs'.
Proof.
  intros Huq Hal Hi Ho Ht Hperm. unfold ref_remove. rewrite <-Hal, <-Hperm, filter_cons.
  rewrite decide_False by congruence. rewrite (list_filter_all _ cs'); [done|].
  apply Forall_forall. intros c' Hc'. destruct (test k (key c')) eqn:Et; [exfalso|done].
  (* two entries with equal keys in two cells *)
  pose proof (occ_remove cs i c (CLEAR_CELL c) Hi Ho eq_refl) as Hrem.
  rewrite <-Hrem in Hperm. apply (inj (cons c)) in Hperm. rewrite Hperm in Hc'.
  apply occ_lookup in Hc' as (j & Hj & Ho').
  apply list_lookup_insert_Some in Hj as [(<- & <- & _)|[Hne Hj]]; [done|].
  destruct Hne. apply (Huq i j c c'); try done. eapply test_trans; [by apply test_sym|done].
Qed.

(** ** The operations *)

Context (malloc : Z -> option bytes) `{!MallocSpec malloc}.
Hypothesis heap_room : forall m, 0 < m < 2 ^ 31 -> is_Some (malloc m).

Lemma wf_cells_blank n : (0 < n)%nat -> wf_cells (replicate n blank).
Proof.
  intros Hn. assert (forall j c, replicate n blank !! j = Some c -> CELL_OCCUPIED c = false) as Hb.
  { intros j c Hj. by apply lookup_replicate in Hj as [-> _]. }
  split.
  - intros j c Hj Ho. apply Hb in Hj. congruence.
  - intros i j ci cj Hi Hj Ho. apply Hb in Hi. congruence.
  - rewrite occ_blank, length_replicate. cbn. lia.
Qed.

Lemma hash_table_new_spec items :
  0 <= items -> size_for items <= max_size ->
  exists ht, hash_table_new malloc items = Ret ht /\ holds ht [] /\ items <= resize_threshold ht.
Proof.
  intros Hi Hs. unfold hash_table_new.
  destruct (prime_size_spec _ Hs) as (p & y & -> & Hp & Hy). cbn [mbind outcome_bind].
  pose proof (primes_range p y Hp) as [H13 _].
  rewrite new_cells_ok by (done || lia). cbn [mbind outcome_bind].
  eexists. split; [done|]. unfold size_for, threshold_of in *. split; [split|]; cbn.
  - split.
    + apply wf_cells_blank. lia.
    + cbn. rewrite zlen_replicate. lia.
    + cbn. by rewrite occ_blank.
    + done.
    + cbn. unfold threshold_of. dlia.
    + cbn. eauto.
  - by rewrite occ_blank.
  - dlia.
Qed.

Lemma hash_table_get_spec ht al k :
  holds ht al -> hash_table_get hash test ht k = Ret (from_option value 0 (lookup_entry al k)).
Proof.
  intros H. destruct (holds_find ht al k H) as (i & c & Hf & Hg & Hc & Hcase).
  unfold hash_table_get. rewrite Hf. cbn [mbind outcome_bind]. rewrite Hg. cbn [mbind outcome_bind].
  by destruct Hcase as [(-> & _ & ->)|(-> & _ & ->)].
Qed.

Lemma hash_table_get_pair_spec ht al k :
  holds ht al -> hash_table_get_pair hash test ht k =
    Ret ((fun c => (key c, value c)) <$> lookup_entry al k).
Proof.
  intros H. destruct (holds_find ht al k H) as (i & c & Hf & Hg & Hc & Hcase).
  unfold hash_table_get_pair. rewrite Hf. cbn [mbind outcome_bind]. rewrite Hg. cbn [mbind outcome_bind].
  by destruct Hcase as [(-> & _ & ->)|(-> & _ & ->)].
Qed.

Lemma hash_table_contains_spec ht al k :
  holds ht al -> hash_table_contains hash test ht k = Ret (bool_decide (is_Some (lookup_entry al k))).
Proof.
  intros H. destruct (holds_find ht al k H) as (i & c & Hf & Hg & Hc & Hcase).
  unfold hash_table_contains. rewrite Hf. cbn [mbind outcome_bind]. rewrite Hg. cbn [mbind outcome_bind].
  by destruct Hcase as [(-> & _ & ->)|(-> & _ & ->)].
Qed.

Lemma grow_hash_table_spec ht al :
  holds ht al -> resize_threshold ht <= count ht < 2 ^ 25 ->
  exists ht', grow_hash_table malloc hash ht = Ret ht' /\ holds ht' al /\
    count ht' = count ht /\ count ht' < resize_threshold ht'.
Proof.
  intros [[[Hpl Huq Hroom] Hsz Hcnt Hth Hfull (p & Hoff & Hp)] Hal] Hc. unfold grow_hash_table.
  rewrite Hth in Hc, Hfull. unfold threshold_of in Hc, Hfull.
  pose proof (primes_range p _ Hp) as [H13 _].
  destruct (Z.leb_spec (2 ^ 31) (size ht * 2)); [dlia|]. rewrite Hoff.
  destruct (prime_size_grow p (size ht) Hp ltac:(dlia)) as (q & y & -> & Hq & Hy).
  cbn [mbind outcome_bind]. rewrite new_cells_ok by (done || lia). cbn [mbind outcome_bind].
  destruct (rehash_spec (cells ht) (replicate (Z.to_nat y) blank)) as (new' & Hr & Hwf' & Hlen & Hocc).
  - apply wf_cells_blank. lia.
  - done.
  - intros c c' _ Hb. rewrite occ_blank in Hb. by apply not_elem_of_nil in Hb.
  - rewrite occ_blank, length_replicate. unfold zlen in Hcnt. cbn. dlia.
  - rewrite zlen_replicate, Z2Nat.id in Hr by lia. rewrite Hr. cbn [mbind outcome_bind].
    rewrite length_replicate in Hlen. rewrite occ_blank, app_nil_r in Hocc.
    eexists. split_and!; [done| |done|cbn; unfold threshold_of; dlia].
    split; [split|]; cbn; [done|unfold zlen; lia| |done| |eauto|by rewrite Hocc].
    + rewrite Hcnt. unfold zlen. by rewrite Hocc.
    + unfold threshold_of. dlia.
Qed.

(** Storing the entry of a new key in the cell that [find_cell] gives. *)
Lemma put_new ht al k v :
  holds ht al -> k <> INVALID_PTR -> lookup_entry al k = None -> count ht < resize_threshold ht ->
  exists i, find_cell hash test ht k = Ret i /\ (i < length (cells ht))%nat /\
    holds (mk_table (<[i := mk_cell k v]> (cells ht)) (size ht) (count ht + 1)
      (resize_threshold ht) (prime_offset ht)) (mk_cell k v :: al).
Proof.
  intros H Hk Hnone Hc. destruct (holds_find ht al k H) as (i & c & Hf & Hg & Hi & Hcase).
  destruct H as [[Hcs Hsz Hcnt Hth Hfull Hpr] Hal].
  destruct Hcase as [(_ & _ & ?)|(Ho & Hp & _)]; [congruence|].
  assert (CELL_OCCUPIED (mk_cell k v) = true) as Ho'.
  { unfold CELL_OCCUPIED. cbn. by rewrite (proj2 (Z.eqb_neq _ _)). }
  pose proof (occ_cons _ _ _ _ Hi Ho Ho') as Hocc.
  exists i. split_and!; [done|by apply lookup_lt_Some in Hi|].
  split; [split|]; cbn [cells size count resize_threshold prime_offset].
  - apply (insert_wf _ i c); try done.
    + intros c' Hc'. rewrite Hal in Hc'. rewrite lookup_entry_None in Hnone. by apply Hnone.
    + rewrite Hth in Hc. unfold threshold_of, zlen in *. dlia.
  - by rewrite zlen_insert.
  - unfold zlen in *. rewrite Hocc. cbn. lia.
  - done.
  - lia.
  - done.
  - by rewrite Hocc, Hal.
Qed.

Lemma hash_table_put_spec ht al k v :
  holds ht al -> k <> INVALID_PTR -> count ht < 2 ^ 25 ->
  exists ht', hash_table_put malloc hash test ht k v = Ret ht' /\ holds ht' (ref_put al k v) /\
    (count ht < resize_threshold ht -> size ht' = size ht /\ resize_threshold ht' = resize_threshold ht) /\
    count ht' <= count ht + 1.
Proof.
  intros H Hk Hc. destruct (holds_find ht al k H) as (i & c & Hf & Hg & Hi & Hcase).
  unfold hash_table_put, ref_put. rewrite Hf. cbn [mbind outcome_bind]. rewrite Hg. cbn [mbind outcome_bind].
  assert (CELL_OCCUPIED (mk_cell k v) = true) as Ho'.
  { unfold CELL_OCCUPIED. cbn. by rewrite (proj2 (Z.eqb_neq _ _)). }
  destruct Hcase as [(Ho & Ht & _)|(Ho & Hp & Hnone)]; rewrite Ho.
  - rewrite mem_set_nat by by apply lookup_lt_Some in Hi. cbn [mbind outcome_bind].
    destruct H as [[Hcs Hsz Hcnt Hth Hfull Hpr] Hal].
    pose proof (occ_replace _ _ _ _ Hi Ho Ho') as Hocc.
    pose proof (occ_remove _ _ _ (CLEAR_CELL c) Hi Ho eq_refl) as Hrest.
    eexists. split_and!; [done| |done|cbn; lia].
    split; [split|]; cbn [cells size count resize_threshold prime_offset]; try done.
    + by apply (update_wf _ i c).
    + by rewrite zlen_insert.
    + rewrite Hcnt. unfold zlen. apply Permutation_length in Hocc. cbn in Hocc. lia.
    + pose proof (filter_other _ _ _ _ _ k (wf_unique _ Hcs) Hal Hi Ho Ht Hrest) as Hf'.
      unfold ref_remove in Hf'. rewrite Hf'. apply (inj (cons c)). rewrite Hocc, <-Hrest.
      apply perm_swap.
  - rewrite filter_none by done. destruct (Z.leb_spec (resize_threshold ht) (count ht)).
    + destruct (grow_hash_table_spec ht al H ltac:(lia)) as (ht' & -> & Hh' & Hc' & Hlt).
      cbn [mbind outcome_bind].
      destruct (put_new ht' al k v Hh' Hk Hnone Hlt) as (i' & -> & Hi' & Hh'').
      cbn [mbind outcome_bind]. rewrite mem_set_nat by done. cbn [mbind outcome_bind].
      eexists. split_and!; [done|done|lia|cbn; lia].
    + cbn [mbind outcome_bind].
      destruct (put_new ht al k v H Hk Hnone ltac:(lia)) as (i' & Hi' & Hlt & Hh'').
      rewrite Hf in Hi'. simplify_eq. rewrite mem_set_nat by done. cbn [mbind outcome_bind].
      eexists. split_and!; [done|done|done|cbn; lia].
Qed.

Lemma hash_table_remove_spec ht al k :
  holds ht al ->
  exists ht' b, hash_table_remove hash test ht k = Ret (ht', b) /\ holds ht' (ref_remove al k) /\
    b = bool_decide (is_Some (lookup_entry al k)) /\
    size ht' = size ht /\ resize_threshold ht' = resize_threshold ht /\ count ht' <= count ht.
Proof.
  intros H. destruct (holds_find ht al k H) as (i & c & Hf & Hg & Hi & Hcase).
  unfold hash_table_remove. rewrite Hf. cbn [mbind outcome_bind]. rewrite Hg. cbn [mbind outcome_bind].
  destruct Hcase as [(Ho & Ht & ->)|(Ho & Hp & Hnone)]; rewrite Ho; cbn [negb].
  - pose proof H as [[Hcs Hsz Hcnt Hth Hfull Hpr] Hal].
    rewrite mem_set_nat by by apply lookup_lt_Some in Hi. cbn [mbind outcome_bind].
    destruct (remove_spec _ i c Hcs Hi Ho) as (cs' & Hr & Hwf' & Hlen & Hperm).
    rewrite length_insert, Hsz, Hr. cbn [mbind outcome_bind].
    eexists _, _. split_and!; [done| |done|done|done|cbn; lia].
    split; [split|]; cbn [cells size count resize_threshold prime_offset]; try done.
    + unfold zlen. by rewrite Hlen.
    + rewrite Hcnt. unfold zlen. apply Permutation_length in Hperm. cbn in Hperm. lia.
    + by rewrite Hth, Hsz.
    + lia.
    + by rewrite <-Hsz.
    + symmetry. by apply (filter_other (cells ht) al _ i c k (wf_unique _ Hcs)).
  - eexists _, _. rewrite Hnone. unfold ref_remove. rewrite filter_none by done.
    split_and!; try done; lia.
Qed.

Lemma hash_table_clear_spec ht al : holds ht al -> holds (hash_table_clear ht) [].
Proof.
  intros [[[Hpl Huq Hroom] Hsz Hcnt Hth Hfull Hpr] Hal]. split; [split|]; cbn.
  - apply wf_cells_blank. unfold zlen in Hsz. lia.
  - rewrite zlen_replicate. unfold zlen in Hsz. lia.
  - by rewrite occ_blank.
  - done.
  - unfold zlen in Hcnt. lia.
  - done.
  - by rewrite occ_blank.
Qed.
End Invariant.

(** ** Sequences of operations *)

Inductive op :=
| Put (k v : Z) | Remove (k : Z) | Clear | Get (k : Z) | GetPair (k : Z) | Contains (k : Z) | Count.

(** What the caller of an operation sees. *)
Inductive obs :=
| Done | Value (v : Z) | Pair (p : option (Z * Z)) | Bool (b : bool) | Number (n : Z).

Section Sequences.
Context (malloc : Z -> option bytes) (hash : Z -> Z) (test : Z -> Z -> bool).

Definition step (ht : hash_table) (o : op) : outcome (hash_table * obs) :=
  match o with
  | Put k v => ht ← hash_table_put malloc hash test ht k v; Ret (ht, Done)
  | Remove k => '(ht, b) ← hash_table_remove hash test ht k; Ret (ht, Bool b)
  | Clear => Ret (hash_table_clear ht, Done)
  | Get k => v ← hash_table_get hash test ht k; Ret (ht, Value v)
  | GetPair k => p ← hash_table_get_pair hash test ht k; Ret (ht, Pair p)
  | Contains k => b ← hash_table_contains hash test ht k; Ret (ht, Bool b)
  | Count => Ret (ht, Number (hash_table_count ht))
  end.

Fixpoint run (ht : hash_table) (ops : list op) : outcome (hash_table * list obs) :=
  match ops with
  | [] => Ret (ht, [])
  | o :: ops => '(ht, b) ← step ht o; '(ht, bs) ← run ht ops; Ret (ht, b :: bs)
  end.

(** The same operations on an association list. *)
Definition ref_step (al : list cell) (o : op) : list cell * obs :=
  match o with
  | Put k v => (ref_put test al k v, Done)
  | Remove k => (ref_remove test al k, Bool (bool_decide (is_Some (lookup_entry test al k))))
  | Clear => ([], Done)
  | Get k => (al, Value (from_option value 0 (lookup_entry test al k)))
  | GetPair k => (al, Pair ((fun c => (key c, value c)) <$> lookup_entry test al k))
  | Contains k => (al, Bool (bool_decide (is_Some (lookup_entry test al k))))
  | Count => (al, Number (zlen al))
  end.

Fixpoint ref_run (al : list cell) (ops : list op) : list cell * list obs :=
  match ops with
  | [] => (al, [])
  | o :: ops =>
      let '(al, b) := ref_step al o in let '(al, bs) := ref_run al ops in (al, b :: bs)
  end.

(** The key that marks an empty cell cannot be stored. *)
Definition valid_op (o : op) : Prop :=
  match o with Put k _ => k <> INVALID_PTR | _ => True end.

Definition is_put (o : op) : Z := match o with Put _ _ => 1 | _ => 0 end.
Definition puts (ops : list op) : Z := foldr (fun o n => is_put o + n) 0 ops.

Lemma puts_nonneg ops : 0 <= puts ops.
Proof. unfold puts. induction ops as [|[] ops IH]; cbn [foldr is_put]; lia. Qed.

Context `{!MallocSpec malloc} `{!HashContract hash test}.
Hypothesis heap_room : forall m, 0 < m < 2 ^ 31 -> is_Some (malloc m).

Lemma step_spec ht al o :
  holds hash test ht al -> valid_op o -> count ht < 2 ^ 25 ->
  exists ht', step ht o = Ret (ht', (ref_step al o).2) /\ holds hash test ht' (ref_step al o).1 /\
    count ht' <= count ht + is_put o /\
    (count ht + is_put o <= resize_threshold ht ->
      size ht' = size ht /\ resize_threshold ht' = resize_threshold ht).
Proof.
  intros H Hv Hc. pose proof H as [Hwf Hal].
  assert (0 <= count ht) as Hpos by (rewrite (wf_count _ _ _ Hwf); apply zlen_nonneg).
  destruct o as [k v|k| |k|k|k|]; cbn [step ref_step fst snd is_put valid_op] in *.
  - destruct (hash_table_put_spec hash test malloc heap_room ht al k v H Hv Hc)
      as (ht' & -> & Hh & Hsz & Hcnt).
    exists ht'. split_and!; [done|done|lia|]. intros. apply Hsz. lia.
  - destruct (hash_table_remove_spec hash test ht al k H) as (ht' & b & -> & Hh & -> & ? & ? & ?).
    exists ht'. split_and!; [done|done|lia|done].
  - exists (hash_table_clear ht). split_and!; [done|by eapply hash_table_clear_spec|cbn; lia|done].
  - rewrite (hash_table_get_spec hash test ht al k H). exists ht. split_and!; [done|done|lia|done].
  - rewrite (hash_table_get_pair_spec hash test ht al k H). exists ht. split_and!; [done|done|lia|done].
  - rewrite (hash_table_contains_spec hash test ht al k H). exists ht. split_and!; [done|done|lia|done].
  - exists ht. unfold hash_table_count. rewrite (wf_count _ _ _ Hwf). unfold zlen. rewrite Hal.
    split_and!; [done|done|lia|done].
Qed.

Lemma run_spec ops ht al :
  holds hash test ht al -> Forall valid_op ops -> count ht + puts ops < 2 ^ 25 ->
  exists ht', run ht ops = Ret (ht', (ref_run al ops).2) /\ holds hash test ht' (ref_run al ops).1 /\
    (count ht + puts ops <= resize_threshold ht -> size ht' = size ht).
Proof.
  revert ht al. induction ops as [|o ops IH]; intros ht al H Hv Hc.
  { exists ht. cbn. done. }
  apply Forall_cons in Hv as [Hvo Hv]. cbn [run ref_run puts foldr] in *. fold (puts ops) in *.
  pose proof (puts_nonneg ops).
  destruct (step_spec ht al o H Hvo) as (ht1 & Hs & Hh1 & Hc1 & Hsz1); [destruct o; cbn in *; lia|].
  destruct (ref_step al o) as [al1 b]. rewrite Hs. cbn [mbind outcome_bind fst snd] in *.
  destruct (IH ht1 al1 Hh1 Hv ltac:(lia)) as (ht2 & Hr & Hh2 & Hsz2).
  destruct (ref_run al1 ops) as [al2 bs]. rewrite Hr. cbn [mbind outcome_bind fst snd] in *.
  exists ht2. split_and!; [done|done|]. intros Hle.
  destruct (Hsz1 ltac:(lia)) as [<- Hth]. apply Hsz2. lia.
Qed.
End Sequences.

(** ** The key functions meet the contract *)

Lemma xor_shr_range n key : 0 <= n -> is_u64 key -> is_u64 (xor_shr n key).
Proof. intros Hn Hk. apply lxor_range; [lia|done|by apply shiftr_range]. Qed.

Lemma add_shl_range n key : is_u64 (add_shl n key).
Proof. apply wrap_range. lia. Qed.

Lemma hash_pointer_range k : is_u64 (hash_pointer k).
Proof. unfold hash_pointer. do 8 (apply xor_shr_range; [lia|]; try apply add_shl_range). Qed.

#[export] Instance pointer_contract : HashContract hash_pointer cmp_pointer.
Proof.
  unfold cmp_pointer. split.
  - apply hash_pointer_range.
  - intros k. apply Z.eqb_refl.
  - intros k1 k2. rewrite !Z.eqb_eq. congruence.
  - intros k1 k2 k3. rewrite !Z.eqb_eq. congruence.
  - intros k1 k2. rewrite !Z.eqb_eq. by intros ->.
Qed.

Lemma xor_shr_inj n a b : 0 < n -> 0 <= a -> 0 <= b -> xor_shr n a = xor_shr n b -> a = b.
Proof.
  unfold xor_shr. intros Hn Ha Hb H. apply Z.lxor_eq.
  assert (Z.lxor a b = Z.lxor a b ≫ n) as Hx.
  { rewrite Z.shiftr_lxor. apply Z.lxor_eq.
    rewrite Z.lxor_assoc, <-(Z.lxor_assoc b), (Z.lxor_comm b (a ≫ n)), Z.lxor_assoc, <-Z.lxor_assoc, H.
    apply Z.lxor_nilpotent. }
  assert (0 <= Z.lxor a b) by (by apply Z.lxor_nonneg).
  rewrite Z.shiftr_div_pow2 in Hx by lia.
  destruct (decide (Z.lxor a b = 0)) as [|Hne]; [done|exfalso].
  assert (1 < 2 ^ n) by (apply Z.pow_gt_1; lia).
  pose proof (Z.div_lt (Z.lxor a b) (2 ^ n) ltac:(lia) ltac:(lia)). lia.
Qed.

Lemma add_shl_mul n key : 0 <= n -> add_shl n key = (key * (1 + 2 ^ n)) mod 2 ^ 64.
Proof.
  intros Hn. unfold add_shl, u64. rewrite wrap_add_r, Z.shiftl_mul_pow2 by done.
  unfold wrap. f_equal. lia.
Qed.

Lemma add_shl_inj n a b :
  0 <= n -> Z.gcd (2 ^ 64) (1 + 2 ^ n) = 1 -> is_u64 a -> is_u64 b ->
  add_shl n a = add_shl n b -> a = b.
Proof.
  intros Hn Hg Ha Hb. rewrite !add_shl_mul by done. intros H.
  assert ((2 ^ 64 | (1 + 2 ^ n) * (a - b))) as Hd.
  { apply Z.mod_divide; [lia|]. replace ((1 + 2 ^ n) * (a - b)) with
      (a * (1 + 2 ^ n) - b * (1 + 2 ^ n)) by lia. rewrite Zminus_mod, H, Z.sub_diag. done. }
  apply Z.gauss in Hd; [|done]. destruct Hd as [q Hq]. unfold in_range in *. nia.
Qed.

Lemma fold_hash_range (g : Z -> Z -> Z) s h :
  is_u64 h -> is_u64 (fold_left (fun h c => u32 (g h c)) s h).
Proof.
  revert h. induction s as [|c s IH]; intros h Hh; [done|]. apply IH.
  pose proof (wrap_range 32 (g h c) ltac:(lia)). unfold u32, in_range in *. lia.
Qed.

Lemma hash_chars_range conv s : is_u64 (hash_chars conv s).
Proof.
  assert (forall z, is_u64 (u32 z)) as H32.
  { intros z. pose proof (wrap_range 32 z ltac:(lia)). unfold u32, in_range in *. lia. }
  destruct s as [|c s]; [done|]. cbn [hash_chars]. case_match; [done|]. apply fold_hash_range, H32.
Qed.

(** Strings that agree after [conv] have one hash. *)
Lemma hash_chars_ext conv s s' :
  conv ∘ s8 <$> s = conv ∘ s8 <$> s' -> hash_chars conv s = hash_chars conv s'.
Proof.
  assert (forall s s' h, conv ∘ s8 <$> s = conv ∘ s8 <$> s' ->
    fold_left (fun h c => u32 (u32 (h ≪ 5) - h + conv (s8 c))) s h =
    fold_left (fun h c => u32 (u32 (h ≪ 5) - h + conv (s8 c))) s' h) as Hf.
  { intros t. induction t as [|c t IH]; intros [|c' t'] h [=]; [done|].
    cbn [fold_left]. cbn in H0. rewrite H0. by apply IH. }
  destruct s as [|c s], s' as [|c' s']; intros [=]; [done|]. cbn [hash_chars].
  cbn in H0. rewrite H0. case_match; [done|]. by apply Hf.
Qed.

(** The sign extension of a [char] commutes with [tolower]. *)
Lemma tolower_s8 c : is_u8 c -> tolower (s8 c) = s8 (tolower c).
Proof.
  intros Hc. unfold in_range in Hc.
  assert (forallb (fun c => tolower (s8 c) =? s8 (tolower c)) (zrange 256) = true) as H by (by vm_compute).
  apply Z.eqb_eq. apply (zrange_forall 256 (fun c => tolower (s8 c) =? s8 (tolower c)) H). lia.
Qed.

#[export] Instance string_contract str : HashContract (hash_string str) (cmp_string str).
Proof.
  unfold cmp_string. split.
  - intros k. apply hash_chars_range.
  - intros k. by apply bool_decide_eq_true.
  - intros k1 k2. rewrite !bool_decide_eq_true. congruence.
  - intros k1 k2 k3. rewrite !bool_decide_eq_true. congruence.
  - intros k1 k2. rewrite bool_decide_eq_true. unfold hash_string. by intros ->.
Qed.

Lemma nocase_contract str :
  (forall p, is_bytes (str p)) -> HashContract (hash_string_nocase str) (string_cmp_nocase str).
Proof.
  intros Hb. unfold string_cmp_nocase. split.
  - intros k. apply hash_chars_range.
  - intros k. by apply bool_decide_eq_true.
  - intros k1 k2. rewrite !bool_decide_eq_true. congruence.
  - intros k1 k2 k3. rewrite !bool_decide_eq_true. congruence.
  - intros k1 k2. rewrite bool_decide_eq_true. intros He. apply hash_chars_ext.
    assert (forall p, tolower ∘ s8 <$> str p = s8 <$> (tolower <$> str p)) as Hc.
    { intros p. rewrite <-list_fmap_compose. apply list_fmap_ext. intros i c Hi. cbn.
      apply tolower_s8. exact (Forall_lookup_1 _ _ _ _ (Hb p) Hi). }
    by rewrite !Hc, He.
Qed.

(** ** Walking over the entries *)

(** The loop [for (hash_table_iterate (ht, &iter); hash_table_iter_next (&iter); )]. *)
Fixpoint iter_collect (fuel : nat) (ht : hash_table) (iter : hash_table_iterator)
    : outcome (list cell) :=
  match fuel with
  | O => Undef
  | S fuel =>
      r ← hash_table_iter_next ht iter;
      match r with
      | None => Ret []
      | Some (c, iter) => l ← iter_collect fuel ht iter; Ret (c :: l)
      end
  end.

Lemma occ_drop cs i c :
  cs !! i = Some c -> occ (drop i cs) = opt_entry c ++ occ (drop (S i) cs).
Proof.
  intros Hi. rewrite (drop_S _ _ _ Hi). unfold occ, opt_entry. rewrite filter_cons.
  destruct (CELL_OCCUPIED c) eqn:E; [by rewrite decide_True|by rewrite decide_False].
Qed.

Lemma iter_scan_spec cs i n :
  (i + n = length cs)%nat ->
  exists r, iter_scan cs i n = Ret r /\
    match r with
    | None => occ (drop i cs) = []
    | Some (c, j) => (i < j <= length cs)%nat /\ occ (drop i cs) = c :: occ (drop j cs)
    end.
Proof.
  revert i. induction n as [|n IH]; intros i Hi; cbn [iter_scan].
  { exists None. split; [done|]. rewrite drop_ge by lia. done. }
  destruct (lookup_lt_is_Some_2 cs i) as [c Hc]; [lia|].
  rewrite (mem_get_nat _ _ _ Hc). cbn [mbind outcome_bind]. rewrite (occ_drop _ _ _ Hc). unfold opt_entry.
  destruct (CELL_OCCUPIED c).
  - exists (Some (c, S i)). split_and!; [done|lia|lia|done].
  - destruct (IH (S i) ltac:(lia)) as (r & -> & Hr). exists r. split; [done|].
    destruct r as [[c' j]|]; [|done]. destruct Hr as [? ->]. split; [lia|done].
Qed.

Lemma iter_collect_spec fuel ht i :
  (i <= length (cells ht))%nat -> (length (cells ht) - i < fuel)%nat ->
  iter_collect fuel ht (mk_iter i (length (cells ht))) = Ret (occ (drop i (cells ht))).
Proof.
  revert i. induction fuel as [|fuel IH]; intros i Hi Hf; [lia|]. cbn [iter_collect].
  unfold hash_table_iter_next. cbn [pos iter_end].
  destruct (iter_scan_spec (cells ht) i (length (cells ht) - i) ltac:(lia)) as (r & -> & Hr).
  cbn [mbind outcome_bind]. destruct r as [[c j]|]; [|by rewrite Hr].
  destruct Hr as [Hj ->]. rewrite IH by lia. done.
Qed.

(** A callback that looks at the entries only. *)
Definition pure_fn {A} (f : Z -> Z -> A -> bool * A) :
    Z -> Z -> hash_table * A -> outcome (bool * (hash_table * A)) :=
  fun k v st => let '(stop, a) := f k v st.2 in Ret (stop, (st.1, a)).

(** Calls [f] on each entry until it answers non-zero. *)
Fixpoint each_until {A} (f : Z -> Z -> A -> bool * A) (l : list cell) (a : A) : A :=
  match l with
  | [] => a
  | c :: l => let '(stop, a) := f (key c) (value c) a in if (stop : bool) then a else each_until f l a
  end.

Lemma for_each_loop_pure {A} (f : Z -> Z -> A -> bool * A) fuel ht i a :
  (i <= length (cells ht))%nat -> (length (cells ht) - i < fuel)%nat ->
  for_each_loop (pure_fn f) fuel i (length (cells ht)) (ht, a) =
    Ret (ht, each_until f (occ (drop i (cells ht))) a).
Proof.
  revert i a. induction fuel as [|fuel IH]; intros i a Hi Hf; [lia|]. cbn [for_each_loop].
  destruct (Nat.leb_spec (length (cells ht)) i); [by rewrite drop_ge by lia|].
  destruct (lookup_lt_is_Some_2 (cells ht) i) as [c Hc]; [lia|]. cbn [fst].
  rewrite (mem_get_nat _ _ _ Hc). cbn [mbind outcome_bind]. rewrite (occ_drop _ _ _ Hc). unfold opt_entry.
  destruct (CELL_OCCUPIED c) eqn:Eo; [|by rewrite IH by lia].
  change (pure_fn f (key c) (value c) (ht, a))
    with (let '(stop, a) := f (key c) (value c) a in Ret (stop, (ht, a))).
  cbn [app each_until snd fst]. destruct (f (key c) (value c) a) as [stop a'].
  cbn [mbind outcome_bind fst]. rewrite Z.eqb_refl. cbn [negb]. destruct stop; [done|].
  rewrite (mem_get_nat _ _ _ Hc). cbn [mbind outcome_bind]. rewrite Z.eqb_refl. cbn [negb andb].
  by rewrite IH by lia.
Qed.

(** ** Claims *)

(** C4: a table from [hash_table_new] behaves as an association list: any sequence of
    [hash_table_put], [hash_table_remove], [hash_table_clear], [hash_table_get],
    [hash_table_get_pair], [hash_table_contains] and [hash_table_count] ends, stays inside
    the cell array, and gives the caller what the list gives, through collisions,
    wrap-around, growth and the rehashing that a removal does. *)
Theorem hash_table_refines_assoc malloc `{!MallocSpec malloc} hash test `{!HashContract hash test}
    items ops :
  (forall m, 0 < m < 2 ^ 31 -> is_Some (malloc m)) ->
  0 <= items < 2 ^ 26 -> Forall valid_op ops -> puts ops < 2 ^ 25 ->
  exists ht0 ht, hash_table_new malloc items = Ret ht0 /\
    run malloc hash test ht0 ops = Ret (ht, (ref_run test [] ops).2) /\
    occ (cells ht) ≡ₚ (ref_run test [] ops).1.
Proof.
  intros Hm Hi Hv Hp.
  destruct (hash_table_new_spec hash test malloc Hm items) as (ht0 & Hnew & Hh0 & _);
    [lia|unfold size_for, max_size; dlia|].
  assert (count ht0 = 0) as Hc0.
  { destruct Hh0 as [Hwf Hal]. rewrite (wf_count _ _ _ Hwf). unfold zlen. by rewrite Hal. }
  destruct (run_spec malloc hash test Hm ops ht0 [] Hh0 Hv ltac:(lia)) as (ht & Hr & [_ Hal] & _).
  by exists ht0, ht.
Qed.

Lemma hash_table_refines_assoc_witness :
  exists ht0 ht, hash_table_new demo_malloc 0 = Ret ht0 /\
    run demo_malloc (fun k => Z.abs k mod 2) Z.eqb ht0 [Put 5 1; Put 7 2; Put 9 3; Remove 5; Get 9; Count] =
      Ret (ht, (ref_run Z.eqb [] [Put 5 1; Put 7 2; Put 9 3; Remove 5; Get 9; Count]).2) /\
    occ (cells ht) ≡ₚ (ref_run Z.eqb [] [Put 5 1; Put 7 2; Put 9 3; Remove 5; Get 9; Count]).1.
Proof.
  assert (HashContract (fun k => Z.abs k mod 2) Z.eqb) as Hk.
  { split.
    - intros k. pose proof (Z.mod_pos_bound (Z.abs k) 2 ltac:(lia)). unfold in_range. lia.
    - intros k. apply Z.eqb_refl.
    - intros k1 k2. rewrite !Z.eqb_eq. congruence.
    - intros k1 k2 k3. rewrite !Z.eqb_eq. congruence.
    - intros k1 k2. rewrite !Z.eqb_eq. by intros ->. }
  apply (hash_table_refines_assoc demo_malloc (fun k => Z.abs k mod 2) Z.eqb); [|lia| |by vm_compute].
  - apply demo_malloc_total.
  - repeat constructor; by vm_compute.
Defined.

(** a table created for [items] entries accepts that many [hash_table_put] calls, among
    any other operations, without being resized, as the comment of [hash_table_new] says. *)
Theorem hash_table_new_capacity malloc `{!MallocSpec malloc} hash test `{!HashContract hash test}
    items ops :
  (forall m, 0 < m < 2 ^ 31 -> is_Some (malloc m)) ->
  0 <= items < 2 ^ 25 -> Forall valid_op ops -> puts ops <= items ->
  exists ht0 ht bs, hash_table_new malloc items = Ret ht0 /\
    run malloc hash test ht0 ops = Ret (ht, bs) /\ size ht = size ht0.
Proof.
  intros Hm Hi Hv Hp.
  destruct (hash_table_new_spec hash test malloc Hm items) as (ht0 & Hnew & Hh0 & Hth);
    [lia|unfold size_for, max_size; dlia|].
  assert (count ht0 = 0) as Hc0.
  { destruct Hh0 as [Hwf Hal]. rewrite (wf_count _ _ _ Hwf). unfold zlen. by rewrite Hal. }
  destruct (run_spec malloc hash test Hm ops ht0 [] Hh0 Hv ltac:(lia)) as (ht & Hr & _ & Hsz).
  exists ht0, ht, (ref_run test [] ops).2. split_and!; [done|done|apply Hsz; lia].
Qed.

Lemma hash_table_new_capacity_witness :
  exists ht0 ht bs, hash_table_new demo_malloc 2 = Ret ht0 /\
    run demo_malloc hash_pointer cmp_pointer ht0 [Put 5 1; Remove 5; Put 9 3] = Ret (ht, bs) /\
    size ht = size ht0.
Proof.
  apply (hash_table_new_capacity demo_malloc hash_pointer cmp_pointer 2); [|lia| |by vm_compute].
  - apply demo_malloc_total.
  - repeat constructor; by vm_compute.
Defined.

(** C39: the iterator gives every entry of the table exactly once and then ends. *)
Theorem hash_iterate_complete ht :
  size ht = zlen (cells ht) ->
  iter_collect (S (length (cells ht))) ht (hash_table_iterate ht) = Ret (occ (cells ht)).
Proof.
  intros Hsz. unfold hash_table_iterate. rewrite Hsz, zlen_nat.
  by rewrite iter_collect_spec by lia.
Qed.

Lemma hash_iterate_complete_witness :
  iter_collect 4 (mk_table [mk_cell 9 1; blank; mk_cell 4 2] 3 2 2 1)
    (hash_table_iterate (mk_table [mk_cell 9 1; blank; mk_cell 4 2] 3 2 2 1)) =
  Ret [mk_cell 9 1; mk_cell 4 2].
Proof. apply (hash_iterate_complete (mk_table [mk_cell 9 1; blank; mk_cell 4 2] 3 2 2 1)). done. Defined.

(** [hash_table_for_each] with a callback that leaves the table alone calls it on every
    entry, in the order of the cells, until it returns non-zero. *)
Theorem hash_for_each_pure {A} (f : Z -> Z -> A -> bool * A) ht (a : A) :
  size ht = zlen (cells ht) ->
  hash_table_for_each (pure_fn f) (S (length (cells ht))) (ht, a) =
    Ret (ht, each_until f (occ (cells ht)) a).
Proof.
  intros Hsz. unfold hash_table_for_each. cbn [fst]. rewrite Hsz, zlen_nat.
  by rewrite for_each_loop_pure by lia.
Qed.

Lemma hash_for_each_pure_witness :
  hash_table_for_each (pure_fn (fun k v a => (k =? 4, a + v))) 4
    (mk_table [mk_cell 9 1; mk_cell 4 2; mk_cell 5 3] 3 2 2 1, 0) =
  Ret (mk_table [mk_cell 9 1; mk_cell 4 2; mk_cell 5 3] 3 2 2 1, 3).
Proof.
  apply (hash_for_each_pure (fun k v a => (k =? 4, a + v))
    (mk_table [mk_cell 9 1; mk_cell 4 2; mk_cell 5 3] 3 2 2 1)). done.
Defined.

(** [hash_pointer] mixes 64-bit pointers without losing information: two different
    pointers never have the same hash. *)
Theorem hash_pointer_injective a b :
  is_u64 a -> is_u64 b -> hash_pointer a = hash_pointer b -> a = b.
Proof.
  intros Ha Hb. unfold hash_pointer. intros H.
  do 8 (apply xor_shr_inj in H; [|lia|apply add_shl_range|apply add_shl_range];
    apply add_shl_inj in H; [|lia|by vm_compute| |];
    [|first [assumption|apply xor_shr_range; [lia|]; repeat (apply add_shl_range || (apply xor_shr_range; [lia|]))]..]).
  done.
Qed.

Lemma hash_pointer_injective_witness : hash_pointer 8 = hash_pointer (16 - 8) /\ 8 = 16 - 8.
Proof. split; [done|]. by apply (hash_pointer_injective 8 (16 - 8)). Defined.

(** C38: the string key functions meet the contract of the table: [cmp_string] and
    [string_cmp_nocase] are equivalences, and strings they call equal (also up to case) have
    the same [hash_string] and [hash_string_nocase]. *)
Theorem string_hash_contracts str :
  (forall p, is_bytes (str p)) ->
  HashContract (hash_string str) (cmp_string str) /\
  HashContract (hash_string_nocase str) (string_cmp_nocase str).
Proof. intros Hb. split; [apply string_contract|by apply nocase_contract]. Qed.

Lemma string_hash_contracts_witness :
  HashContract (hash_string (fun p => [Z.abs p mod 256])) (cmp_string (fun p => [Z.abs p mod 256])) /\
  HashContract (hash_string_nocase (fun p => [Z.abs p mod 256]))
    (string_cmp_nocase (fun p => [Z.abs p mod 256])).
Proof.
  apply string_hash_contracts. intros p. constructor; [|constructor].
  apply (Z.mod_pos_bound (Z.abs p) 256). lia.
Defined.

(** [hash_table_for_each] with a callback that removes the entry it is called on, which
    its comment allows, may call it twice on another entry: the removal of the key 12
    from the last cell moves the key 25, already visited in cell 0, into that cell. *)
Theorem for_each_visits_twice :
  exists ht, run demo_malloc (fun k => k) Z.eqb
      (mk_table (replicate 13 blank) 13 0 9 1) [Put 12 0; Put 25 0] = Ret (ht, [Done; Done]) /\
    exists ht', hash_table_for_each (fun k _ st =>
        if k =? 12 then '(h, _) ← hash_table_remove (fun k => k) Z.eqb st.1 k; Ret (false, (h, st.2 ++ [k]))
        else Ret (false, (st.1, st.2 ++ [k]))) 20 (ht, []) = Ret (ht', [25; 12; 25]).
Proof.
  eexists. split; [by vm_compute|]. eexists. by vm_compute.
Qed.
