(* ===== verification/Aes.v ===== *)
(** AES in CBC mode: src/crypto/aes_cbc.c on the little-endian build
    ([LITTLE_ENDIAN_ORDER]), with its table-driven rounds.

    [struct Aes] keeps its 60 round-key words as a list; [reg] and [tmp], which the code
    only accesses through byte pointers, are byte lists.  The buffers that the caller
    passes are checked at every access.  The proofs are in [AesSpec]. *)

From S2P Require Import Prelude AesTables.

Definition AES_BLOCK_SIZE : Z := 16.
Definition BAD_FUNC_ARG : Z := -173.

Inductive direction := AES_ENCRYPTION | AES_DECRYPTION.

Record Aes := mk_Aes {
  aes_key : list Z;
  aes_rounds : Z;
  aes_reg : bytes;
  aes_tmp : bytes
}.

(** ** Words and bytes *)

Definition GETBYTE (x y : Z) : Z := u8 (x ≫ (8 * y)).

(** A table entry; the index is a byte and the tables have 256 entries. *)
Definition tab (t : list Z) (i : Z) : Z := t !!! Z.to_nat i.

Definition rotlFixed (x y : Z) : Z := Z.lor (u32 (x ≪ y)) (x ≫ (32 - y)).

Definition ByteReverseWord32 (value : Z) : Z :=
  let value := Z.lor (Z.land value 0xFF00FF00 ≫ 8) (u32 (Z.land value 0x00FF00FF ≪ 8)) in
  rotlFixed value 16.

(** A 32-bit load and store of the little-endian machine. *)
Definition load32 (b : bytes) : Z :=
  match b with
  | [b0; b1; b2; b3] => Z.lor (Z.lor (Z.lor b0 (b1 ≪ 8)) (b2 ≪ 16)) (b3 ≪ 24)
  | _ => 0
  end.
Definition store32 (w : Z) : bytes := [GETBYTE w 0; GETBYTE w 1; GETBYTE w 2; GETBYTE w 3].

(** [xorbuf]: the word loop and the byte loop store the same bytes. *)
Definition xorbuf (buf mask : bytes) : bytes := zip_with Z.lxor buf mask.

(** ** Key schedule *)

(** [(Te[4][b] & 0xff000000) ^ ...] of four bytes. *)
Definition sub4 (b3 b2 b1 b0 : Z) : Z :=
  Z.lxor (Z.lxor (Z.lxor (Z.land (tab Te4 b3) 0xff000000) (Z.land (tab Te4 b2) 0x00ff0000))
    (Z.land (tab Te4 b1) 0x0000ff00)) (Z.land (tab Te4 b0) 0x000000ff).

(** The word at [rk + off]; every offset used is below the 60 words of [key]. *)
Definition at_key (key : list Z) (off : nat) : Z := key !!! off.

(** [rk[off] = a ^ b ...]: a store to the key array. *)
Definition set_key (key : list Z) (off : nat) (w : Z) : list Z := <[off := w]> key.

(** The first word of a group: [rk[n] = rk[0] ^ sub(rot(temp)) ^ rcon[i]]. *)
Definition next_word (key : list Z) (base n : nat) (i : nat) : list Z :=
  let temp := at_key key (base + n - 1) in
  set_key key (base + n)
    (Z.lxor (Z.lxor (at_key key base)
       (sub4 (GETBYTE temp 2) (GETBYTE temp 1) (GETBYTE temp 0) (GETBYTE temp 3))) (rcon !!! i)).

(** [rk[m] = rk[m - n] ^ rk[m - 1]]. *)
Definition chain (key : list Z) (base n m : nat) : list Z :=
  set_key key (base + m) (Z.lxor (at_key key (base + m - n)) (at_key key (base + m - 1))).

(** The three loops, [k] iterations before the one that breaks. *)
Fixpoint expand128 (k : nat) (i base : nat) (key : list Z) : list Z :=
  let key := next_word key base 4 i in
  let key := chain key base 4 5 in
  let key := chain key base 4 6 in
  let key := chain key base 4 7 in
  match k with
  | O => key
  | S k => expand128 k (S i) (base + 4) key
  end.

Fixpoint expand192 (k : nat) (i base : nat) (key : list Z) : list Z :=
  let key := next_word key base 6 i in
  let key := chain key base 6 7 in
  let key := chain key base 6 8 in
  let key := chain key base 6 9 in
  match k with
  | O => key
  | S k =>
      let key := chain key base 6 10 in
      let key := chain key base 6 11 in
      expand192 k (S i) (base + 6) key
  end.

Fixpoint expand256 (k : nat) (i base : nat) (key : list Z) : list Z :=
  let key := next_word key base 8 i in
  let key := chain key base 8 9 in
  let key := chain key base 8 10 in
  let key := chain key base 8 11 in
  match k with
  | O => key
  | S k =>
      let temp := at_key key (base + 11) in
      let key := set_key key (base + 12) (Z.lxor (at_key key (base + 4))
        (sub4 (GETBYTE temp 3) (GETBYTE temp 2) (GETBYTE temp 1) (GETBYTE temp 0))) in
      let key := chain key base 8 13 in
      let key := chain key base 8 14 in
      let key := chain key base 8 15 in
      expand256 k (S i) (base + 8) key
  end.

(** [temp = rk[i]; rk[i] = rk[j]; rk[j] = temp] *)
Definition swap_words (key : list Z) (i j : nat) : list Z :=
  let temp := at_key key i in set_key (set_key key i (at_key key j)) j temp.

(** [for (i = ..., j = ...; i < j; i += 4, j -= 4)] of the inversion of the order;
    half of [j] iterations at most. *)
Fixpoint invert_order (fuel : nat) (i j : nat) (key : list Z) : list Z :=
  match fuel with
  | O => key
  | S fuel =>
      if (i <? j)%nat then
        let key := swap_words key i j in
        let key := swap_words key (i + 1) (j + 1) in
        let key := swap_words key (i + 2) (j + 2) in
        let key := swap_words key (i + 3) (j + 3) in
        invert_order fuel (i + 4) (j - 4) key
      else key
  end.

(** The inverse MixColumn transform of one word. *)
Definition inv_mix (w : Z) : Z :=
  Z.lxor (Z.lxor (Z.lxor
    (tab Td0 (Z.land (tab Te4 (GETBYTE w 3)) 0xff)) (tab Td1 (Z.land (tab Te4 (GETBYTE w 2)) 0xff)))
    (tab Td2 (Z.land (tab Te4 (GETBYTE w 1)) 0xff))) (tab Td3 (Z.land (tab Te4 (GETBYTE w 0)) 0xff)).

Definition mix_word (key : list Z) (off : nat) : list Z := set_key key off (inv_mix (at_key key off)).

(** [for (i = 1; i < aes->rounds; i++) { rk += 4; ... }]: [n] iterations from word [off]. *)
Fixpoint mix_keys (n : nat) (off : nat) (key : list Z) : list Z :=
  match n with
  | O => key
  | S n =>
      let key := mix_word key off in
      let key := mix_word key (off + 1) in
      let key := mix_word key (off + 2) in
      let key := mix_word key (off + 3) in
      mix_keys n (off + 4) key
  end.

(** The words of the user key after [XMEMCPY] and [ByteReverseWords]. *)
Fixpoint load_words (b : bytes) : list Z :=
  match b with
  | b0 :: b1 :: b2 :: b3 :: b => ByteReverseWord32 (load32 [b0; b1; b2; b3]) :: load_words b
  | _ => []
  end.

Definition AesSetIV (aes : option Aes) (iv : option bytes) : outcome (option Aes * Z) :=
  match aes, iv with
  | None, _ => Ret (None, BAD_FUNC_ARG)
  | Some aes, Some iv =>
      reg ← mem_read iv 0 AES_BLOCK_SIZE;
      Ret (Some (mk_Aes (aes_key aes) (aes_rounds aes) reg (aes_tmp aes)), 0)
  | Some aes, None => Ret (Some aes, 0)
  end.

(** [AesSetKeyLocal]: the structure and the returned value.  The key is stored through [aes] at once, which is
    never null then. *)
Definition AesSetKeyLocal (aes : Aes) (userKey : bytes) (keylen : Z) (iv : option bytes) (dir : direction)
    : outcome (Aes * Z) :=
  let rounds := keylen / 4 + 6 in
  user ← mem_read userKey 0 keylen;
  rk ← mem_write (aes_key aes) 0 (load_words user);
  match
    (if keylen =? 16 then Some (expand128 9 0 0 rk)
     else if keylen =? 24 then Some (expand192 7 0 0 rk)
     else if keylen =? 32 then Some (expand256 6 0 0 rk)
     else None)
  with
  | None => Ret (mk_Aes rk rounds (aes_reg aes) (aes_tmp aes), BAD_FUNC_ARG)
  | Some rk =>
      let rk :=
        match dir with
        | AES_ENCRYPTION => rk
        | AES_DECRYPTION =>
            let n := Z.to_nat rounds in
            mix_keys (n - 1) 4 (invert_order n 0 (4 * n) rk)
        end in
      let aes := mk_Aes rk rounds (aes_reg aes) (aes_tmp aes) in
      '(aes', err) ← AesSetIV (Some aes) iv;
      Ret (default aes aes', err)
  end.

Definition AesSetKey (aes : Aes) (userKey : bytes) (keylen : Z) (iv : option bytes) (dir : direction)
    : outcome (Aes * Z) :=
  if negb ((keylen =? 16) || (keylen =? 24) || (keylen =? 32)) then Ret (aes, BAD_FUNC_ARG)
  else AesSetKeyLocal aes userKey keylen iv dir.

(** ** The block cipher *)

Definition state : Type := Z * Z * Z * Z.

(** [Te[0][GETBYTE(a, 3)] ^ Te[1][GETBYTE(b, 2)] ^ Te[2][GETBYTE(c, 1)] ^ Te[3][GETBYTE(d, 0)]] *)
Definition te_word (a b c d : Z) : Z :=
  Z.lxor (Z.lxor (Z.lxor (tab Te0 (GETBYTE a 3)) (tab Te1 (GETBYTE b 2))) (tab Te2 (GETBYTE c 1)))
    (tab Te3 (GETBYTE d 0)).
Definition td_word (a b c d : Z) : Z :=
  Z.lxor (Z.lxor (Z.lxor (tab Td0 (GETBYTE a 3)) (tab Td1 (GETBYTE b 2))) (tab Td2 (GETBYTE c 1)))
    (tab Td3 (GETBYTE d 0)).

(** The four assignments of a full round with the round keys at [rk + off]. *)
Definition te_round (key : list Z) (off : nat) (s : state) : state :=
  let '(s0, s1, s2, s3) := s in
  (Z.lxor (te_word s0 s1 s2 s3) (at_key key off),
   Z.lxor (te_word s1 s2 s3 s0) (at_key key (off + 1)),
   Z.lxor (te_word s2 s3 s0 s1) (at_key key (off + 2)),
   Z.lxor (te_word s3 s0 s1 s2) (at_key key (off + 3))).
Definition td_round (key : list Z) (off : nat) (s : state) : state :=
  let '(s0, s1, s2, s3) := s in
  (Z.lxor (td_word s0 s3 s2 s1) (at_key key off),
   Z.lxor (td_word s1 s0 s3 s2) (at_key key (off + 1)),
   Z.lxor (td_word s2 s1 s0 s3) (at_key key (off + 2)),
   Z.lxor (td_word s3 s2 s1 s0) (at_key key (off + 3))).

(** The loop [for (;;)], [S k] iterations; it leaves [t0] .. [t3] and the position of [rk]. *)
Fixpoint te_loop (k : nat) (key : list Z) (off : nat) (s : state) : state * nat :=
  let t := te_round key (off + 4) s in
  let off := (off + 8)%nat in
  match k with
  | O => (t, off)
  | S k => te_loop k key off (te_round key off t)
  end.
Fixpoint td_loop (k : nat) (key : list Z) (off : nat) (s : state) : state * nat :=
  let t := td_round key (off + 4) s in
  let off := (off + 8)%nat in
  match k with
  | O => (t, off)
  | S k => td_loop k key off (td_round key off t)
  end.

(** The last round. *)
Definition td4 (b3 b2 b1 b0 : Z) : Z :=
  Z.lxor (Z.lxor (Z.lxor (Z.land (tab Td4 b3) 0xff000000) (Z.land (tab Td4 b2) 0x00ff0000))
    (Z.land (tab Td4 b1) 0x0000ff00)) (Z.land (tab Td4 b0) 0x000000ff).
Definition te_last (key : list Z) (off : nat) (t : state) : state :=
  let '(t0, t1, t2, t3) := t in
  let f a b c d := sub4 (GETBYTE a 3) (GETBYTE b 2) (GETBYTE c 1) (GETBYTE d 0) in
  (Z.lxor (f t0 t1 t2 t3) (at_key key off), Z.lxor (f t1 t2 t3 t0) (at_key key (off + 1)),
   Z.lxor (f t2 t3 t0 t1) (at_key key (off + 2)), Z.lxor (f t3 t0 t1 t2) (at_key key (off + 3))).
Definition td_last (key : list Z) (off : nat) (t : state) : state :=
  let '(t0, t1, t2, t3) := t in
  let f a b c d := td4 (GETBYTE a 3) (GETBYTE b 2) (GETBYTE c 1) (GETBYTE d 0) in
  (Z.lxor (f t0 t3 t2 t1) (at_key key off), Z.lxor (f t1 t0 t3 t2) (at_key key (off + 1)),
   Z.lxor (f t2 t1 t0 t3) (at_key key (off + 2)), Z.lxor (f t3 t2 t1 t0) (at_key key (off + 3))).

Definition add_key (key : list Z) (s : state) : state :=
  let '(s0, s1, s2, s3) := s in
  (Z.lxor s0 (at_key key 0), Z.lxor s1 (at_key key 1), Z.lxor s2 (at_key key 2), Z.lxor s3 (at_key key 3)).

(** The four loads of a block, byte-reversed, and the four stores. *)
Definition load_block (b : bytes) : state :=
  let w n := ByteReverseWord32 (load32 (take 4 (drop n b))) in (w 0%nat, w 4%nat, w 8%nat, w 12%nat).
Definition store_block (s : state) : bytes :=
  let '(s0, s1, s2, s3) := s in
  store32 (ByteReverseWord32 s0) ++ store32 (ByteReverseWord32 s1)
    ++ store32 (ByteReverseWord32 s2) ++ store32 (ByteReverseWord32 s3).

(** [AesEncrypt] and [AesDecrypt] of the 16 bytes [inBlock]: the bytes stored to
    [outBlock], or [None] when the number of rounds is improper and nothing is stored. *)
Definition AesEncrypt (aes : Aes) (inBlock : bytes) : option bytes :=
  let r := aes_rounds aes ≫ 1 in
  if (7 <? r) || (r =? 0) then None else
  let s := add_key (aes_key aes) (load_block inBlock) in
  let '(t, off) := te_loop (Z.to_nat r - 1) (aes_key aes) 0 s in
  Some (store_block (te_last (aes_key aes) off t)).

Definition AesDecrypt (aes : Aes) (inBlock : bytes) : option bytes :=
  let r := aes_rounds aes ≫ 1 in
  if (7 <? r) || (r =? 0) then None else
  let s := add_key (aes_key aes) (load_block inBlock) in
  let '(t, off) := td_loop (Z.to_nat r - 1) (aes_key aes) 0 s in
  Some (store_block (td_last (aes_key aes) off t)).

(** ** CBC mode *)

(** [blocks] iterations of the loop of [AesCbcEncrypt] at byte [pos] of the buffers.  The input is a buffer of its
    own, or [None] when it is the buffer [out] itself, as in [aes_encrypt]. *)
Fixpoint AesCbcEncrypt (blocks : nat) (aes : Aes) (out : bytes) (input : option bytes) (pos : Z)
    : outcome (Aes * bytes) :=
  match blocks with
  | O => Ret (aes, out)
  | S blocks =>
      plain ← mem_read (default out input) pos AES_BLOCK_SIZE;
      let reg := xorbuf (aes_reg aes) plain in
      let reg := default reg (AesEncrypt aes reg) in
      out ← mem_write out pos reg;
      AesCbcEncrypt blocks (mk_Aes (aes_key aes) (aes_rounds aes) reg (aes_tmp aes)) out input
        (pos + AES_BLOCK_SIZE)
  end.

Fixpoint AesCbcDecrypt (blocks : nat) (aes : Aes) (out input : bytes) (pos : Z)
    : outcome (Aes * bytes) :=
  match blocks with
  | O => Ret (aes, out)
  | S blocks =>
      tmp ← mem_read input pos AES_BLOCK_SIZE;
      out ← match AesDecrypt aes tmp with Some b => mem_write out pos b | None => Ret out end;
      plain ← mem_read out pos AES_BLOCK_SIZE;
      out ← mem_write out pos (xorbuf plain (aes_reg aes));
      AesCbcDecrypt blocks (mk_Aes (aes_key aes) (aes_rounds aes) tmp tmp) out input
        (pos + AES_BLOCK_SIZE)
  end.

(** ** The exported functions

    [enc] and [dec] are uninitialised automatic variables: [junk] is what they hold.  When
    [AesSetKey] refuses the key its result is not looked at, and the rounds that the
    cipher then reads are indeterminate. *)

Definition aes_encrypt (junk : Aes) (key : bytes) (keyLength : Z) (iv plain : bytes)
    (out : bytes) (maxOutLen : Z) : outcome (bytes * Z) :=
  let plainLength := zlen plain in
  '(enc, err) ← AesSetKey junk key keyLength (Some iv) AES_ENCRYPTION;
  let dat_len :=
    if negb (plainLength =? plainLength / AES_BLOCK_SIZE * AES_BLOCK_SIZE)
    then (plainLength / AES_BLOCK_SIZE + 1) * AES_BLOCK_SIZE else plainLength in
  if maxOutLen <? dat_len then Ret (out, -1) else
  out ← mem_write out 0 plain;
  '(out, dat_len) ←
    (if 0 <? dat_len - plainLength then
       out ← mem_fill out plainLength (u8 (dat_len - plainLength)) (dat_len - plainLength);
       Ret (out, dat_len)
     else
       let dat_len := dat_len + 0x10 in
       out ← mem_fill out plainLength 0x10 (dat_len + 16 - plainLength);
       Ret (out, dat_len));
  if err =? 0 then
    '(_, out) ← AesCbcEncrypt (Z.to_nat (dat_len / AES_BLOCK_SIZE)) enc out None 0;
    Ret (out, dat_len)
  else Undef.

Definition aes_decrypt (junk : Aes) (key : bytes) (keyLength : Z) (iv enc : bytes)
    (out : bytes) (maxOutLen : Z) : outcome (bytes * Z) :=
  let encLength := zlen enc in
  if maxOutLen <? encLength then Ret (out, -1) else
  '(dec, err) ← AesSetKey junk key keyLength (Some iv) AES_DECRYPTION;
  let blocks := Z.to_nat (encLength / AES_BLOCK_SIZE) in
  if negb (err =? 0) && (0 <? blocks)%nat then Undef else
  '(_, out) ← AesCbcDecrypt blocks dec out enc 0;
  pad ← mem_get out (encLength - 1);
  Ret (out, encLength - pad).
