(* ===== verification/AesSpec.v ===== *)
(** Correctness of the AES of src/crypto/aes_cbc.c ([Aes]).

    The table-driven cipher is shown to be the cipher of FIPS-197, defined here from the
    arithmetic of GF(2^8); decryption with the inverted key schedule is shown to undo
    it, and the exported functions to be inverses of each other with PKCS#7 padding.
    Facts about the tables are checked entry by entry. *)

From S2P Require Import Prelude AesTables Aes.

Declare Scope aes_scope.
Local Notation "x ⊕ y" := (Z.lxor x y) (at level 50, left associativity) : aes_scope.
Local Open Scope aes_scope.

(** Equations of exclusive or. *)
Ltac xor_ring :=
  apply Z.bits_inj'; intros ? _; rewrite !Z.lxor_spec, ?Z.bits_0;
  repeat match goal with |- context [Z.testbit ?a ?i] => case (Z.testbit a i) end; reflexivity.

(** ** Bytes of words *)

Arguments GETBYTE : simpl never.
Arguments tab : simpl never.

Lemma GETBYTE_range w y : is_u8 (GETBYTE w y).
Proof. apply wrap_range. lia. Qed.

Lemma GETBYTE_lxor a b y : 0 <= y -> GETBYTE (a ⊕ b) y = GETBYTE a y ⊕ GETBYTE b y.
Proof. intros. unfold GETBYTE, u8. by rewrite Z.shiftr_lxor, wrap_lxor by lia. Qed.

(** The word with the bytes [b3] (most significant) to [b0]. *)
Definition wb (b3 b2 b1 b0 : Z) : Z := (b3 ≪ 24) ⊕ (b2 ≪ 16) ⊕ (b1 ≪ 8) ⊕ b0.

Lemma lxor_add x y n : 0 <= n -> 0 <= y < 2 ^ n -> (x ≪ n) ⊕ y = x * 2 ^ n + y.
Proof.
  intros Hn Hy. rewrite <-lor_add by done. apply Z.lxor_lor.
  apply Z.bits_inj'. intros i Hi. rewrite Z.land_spec, Z.bits_0.
  destruct (decide (i < n)); [by rewrite Z.shiftl_spec_low by lia|].
  rewrite <-(Z.mod_small y (2 ^ n)), Z.mod_pow2_bits_high, andb_false_r by lia. done.
Qed.

Lemma wb_add b3 b2 b1 b0 :
  is_u8 b3 -> is_u8 b2 -> is_u8 b1 -> is_u8 b0 ->
  wb b3 b2 b1 b0 = b3 * 2 ^ 24 + b2 * 2 ^ 16 + b1 * 2 ^ 8 + b0.
Proof.
  unfold in_range, wb. intros H3 H2 H1 H0. rewrite !Z.lxor_assoc.
  rewrite (lxor_add b1 b0 8), (lxor_add b2 _ 16), (lxor_add b3 _ 24) by lia. lia.
Qed.

Lemma wb_range b3 b2 b1 b0 :
  is_u8 b3 -> is_u8 b2 -> is_u8 b1 -> is_u8 b0 -> is_u32 (wb b3 b2 b1 b0).
Proof. intros H3 H2 H1 H0. rewrite wb_add by done. unfold in_range in *. lia. Qed.

Lemma GETBYTE_wb b3 b2 b1 b0 :
  is_u8 b3 -> is_u8 b2 -> is_u8 b1 -> is_u8 b0 ->
  GETBYTE (wb b3 b2 b1 b0) 3 = b3 /\ GETBYTE (wb b3 b2 b1 b0) 2 = b2 /\
  GETBYTE (wb b3 b2 b1 b0) 1 = b1 /\ GETBYTE (wb b3 b2 b1 b0) 0 = b0.
Proof.
  intros H3 H2 H1 H0. rewrite wb_add by done. unfold GETBYTE, u8, wrap, in_range in *.
  rewrite !Z.shiftr_div_pow2 by lia. split_and!; dlia.
Qed.

Lemma wb_GETBYTE w : is_u32 w -> wb (GETBYTE w 3) (GETBYTE w 2) (GETBYTE w 1) (GETBYTE w 0) = w.
Proof.
  intros Hw. rewrite wb_add by apply GETBYTE_range. unfold GETBYTE, u8, wrap, in_range in *.
  rewrite !Z.shiftr_div_pow2 by lia. dlia.
Qed.

(** [ByteReverseWord32] reverses the bytes. *)
Lemma ByteReverseWord32_spec w :
  is_u32 w -> ByteReverseWord32 w = wb (GETBYTE w 0) (GETBYTE w 1) (GETBYTE w 2) (GETBYTE w 3).
Proof.
  intros Hw. apply (bits_eq 32); [lia| |apply wb_range; apply GETBYTE_range|].
  - unfold ByteReverseWord32, rotlFixed. apply lor_range; [lia|apply wrap_range; lia|].
    apply shiftr_range; [lia|]. apply lor_range; [lia| |apply wrap_range; lia].
    apply shiftr_range; [lia|]. apply land_range; [lia|unfold in_range in Hw; lia|done].
  - intros n Hn. unfold ByteReverseWord32, rotlFixed, wb, GETBYTE, u8, u32, wrap.
    do 32 (destruct n as [|n]; [clear Hn; eval_bits; by repeat case (Z.testbit w _)|]).
    exfalso. lia.
Qed.

Lemma ByteReverseWord32_wb b3 b2 b1 b0 :
  is_u8 b3 -> is_u8 b2 -> is_u8 b1 -> is_u8 b0 ->
  ByteReverseWord32 (wb b3 b2 b1 b0) = wb b0 b1 b2 b3.
Proof.
  intros H3 H2 H1 H0. rewrite ByteReverseWord32_spec by by apply wb_range.
  by destruct (GETBYTE_wb b3 b2 b1 b0) as (-> & -> & -> & ->).
Qed.

(** ** The arithmetic of FIPS-197 *)

(** Multiplication by [x] and by a polynomial, modulo x^8 + x^4 + x^3 + x + 1. *)
Definition xtime (b : Z) : Z := if b <? 128 then 2 * b else (2 * b - 256) ⊕ 0x1b.
Fixpoint gmul_steps (n : nat) (a b : Z) : Z :=
  match n with
  | O => 0
  | S n => (if Z.odd b then a else 0) ⊕ gmul_steps n (xtime a) (b / 2)
  end.
Definition gmul (a b : Z) : Z := gmul_steps 8 a b.

(** The inverse of a byte is its 254th power: the product of its 2nd, 4th, .., 128th. *)
Fixpoint ginv_steps (n : nat) (x : Z) : Z :=
  match n with
  | O => 1
  | S n => let x := gmul x x in gmul x (ginv_steps n x)
  end.
Definition ginv (x : Z) : Z := ginv_steps 7 x.

Definition rotl8 (b n : Z) : Z := u8 (b ≪ n) ⊕ (b ≫ (8 - n)).

(** The S-box: the affine transformation of the inverse. *)
Definition sbox (x : Z) : Z :=
  let b := ginv x in b ⊕ rotl8 b 1 ⊕ rotl8 b 2 ⊕ rotl8 b 3 ⊕ rotl8 b 4 ⊕ 0x63.

(** ** The tables *)

Definition te_check (x : Z) : bool :=
  let s := sbox x in let s2 := gmul s 2 in let s3 := gmul s 3 in
  (0 <=? s) && (s <? 256) &&
  (tab Te0 x =? wb s2 s s s3) && (tab Te1 x =? wb s3 s2 s s) &&
  (tab Te2 x =? wb s s3 s2 s) && (tab Te3 x =? wb s s s3 s2) && (tab Te4 x =? wb s s s s).

Lemma te_checked : forallb te_check (zrange 256) = true.
Proof. by vm_compute. Qed.

#[local] Opaque sbox gmul wb.

Lemma te_tables x :
  is_u8 x -> is_u8 (sbox x) /\
  tab Te0 x = wb (gmul (sbox x) 2) (sbox x) (sbox x) (gmul (sbox x) 3) /\
  tab Te1 x = wb (gmul (sbox x) 3) (gmul (sbox x) 2) (sbox x) (sbox x) /\
  tab Te2 x = wb (sbox x) (gmul (sbox x) 3) (gmul (sbox x) 2) (sbox x) /\
  tab Te3 x = wb (sbox x) (sbox x) (gmul (sbox x) 3) (gmul (sbox x) 2) /\
  tab Te4 x = wb (sbox x) (sbox x) (sbox x) (sbox x).
Proof.
  unfold in_range. intros Hx. pose proof (zrange_forall 256 te_check te_checked x ltac:(lia)) as H.
  unfold te_check in H. cbn zeta in H. bools. split_and!; assumption.
Qed.

(** The columns of the inverse MixColumn transform, on bytes: [D i x] is the contribution
    of the byte [x] at row [i]. *)
Definition invmix_tab (t : list Z) (x : Z) : Z := tab t (Z.land (tab Te4 x) 0xff).

(** A map on bytes that is linear in the bits. *)
Fixpoint lin (basis : list Z) (j x : Z) : Z :=
  match basis with
  | [] => 0
  | b :: basis => (if Z.testbit x j then b else 0) ⊕ lin basis (j + 1) x
  end.

Lemma lin_lxor basis j x y : lin basis j (x ⊕ y) = lin basis j x ⊕ lin basis j y.
Proof.
  revert j. induction basis as [|b basis IH]; intros j; cbn [lin]; [done|].
  rewrite IH, Z.lxor_spec.
  destruct (Z.testbit x j), (Z.testbit y j); cbn [xorb]; xor_ring.
Qed.

Definition basis_of (f : Z -> Z) : list Z := f <$> [1; 2; 4; 8; 16; 32; 64; 128].

Definition linear_check (t : list Z) (x : Z) : bool :=
  invmix_tab t x =? lin (basis_of (invmix_tab t)) 0 x.

Lemma invmix_linear t :
  forallb (linear_check t) (zrange 256) = true ->
  forall x y, is_u8 x -> is_u8 y -> invmix_tab t (x ⊕ y) = invmix_tab t x ⊕ invmix_tab t y.
Proof.
  intros H x y Hx Hy. pose proof (lxor_range 8 x y ltac:(lia) Hx Hy) as Hxy. unfold in_range in *.
  pose proof (zrange_forall 256 _ H) as HL. unfold linear_check in HL.
  rewrite (proj1 (Z.eqb_eq _ _) (HL x ltac:(lia))), (proj1 (Z.eqb_eq _ _) (HL y ltac:(lia))).
  rewrite (proj1 (Z.eqb_eq _ _) (HL (x ⊕ y) ltac:(lia))). apply lin_lxor.
Qed.

Lemma invmix_checked :
  forallb (fun x => linear_check Td0 x && linear_check Td1 x && linear_check Td2 x && linear_check Td3 x)
    (zrange 256) = true.
Proof. by vm_compute. Qed.

Lemma inv_mix_tabs w :
  inv_mix w = invmix_tab Td0 (GETBYTE w 3) ⊕ invmix_tab Td1 (GETBYTE w 2)
    ⊕ invmix_tab Td2 (GETBYTE w 1) ⊕ invmix_tab Td3 (GETBYTE w 0).
Proof. done. Qed.

Lemma inv_mix_lxor a b : inv_mix (a ⊕ b) = inv_mix a ⊕ inv_mix b.
Proof.
  pose proof invmix_checked as H. rewrite forallb_forall in H.
  assert (forall t, (forall x, In x (zrange 256) -> linear_check t x = true) ->
    forall y, 0 <= y -> invmix_tab t (GETBYTE (a ⊕ b) y)
      = invmix_tab t (GETBYTE a y) ⊕ invmix_tab t (GETBYTE b y)) as HL.
  { intros t Ht y Hy. rewrite GETBYTE_lxor by done.
    apply invmix_linear; [by apply forallb_forall|apply GETBYTE_range..]. }
  rewrite !inv_mix_tabs, !HL.
  2-9: first [lia|intros x Hx; specialize (H x Hx); cbv beta in H; bools; assumption].
  xor_ring.
Qed.

(** The inverse MixColumn transform undoes the columns of the encryption tables, and the
    last decryption table holds the inverse S-box. *)
Definition inv_check (x : Z) : bool :=
  (inv_mix (tab Te0 x) =? wb (sbox x) 0 0 0) && (inv_mix (tab Te1 x) =? wb 0 (sbox x) 0 0) &&
  (inv_mix (tab Te2 x) =? wb 0 0 (sbox x) 0) && (inv_mix (tab Te3 x) =? wb 0 0 0 (sbox x)) &&
  (tab Td4 (sbox x) =? wb x x x x) && (Z.land (tab Te4 x) 0xff =? sbox x).

Lemma inv_checked : forallb inv_check (zrange 256) = true.
Proof. by vm_compute. Qed.

Lemma inv_tables x :
  is_u8 x ->
  inv_mix (tab Te0 x) = wb (sbox x) 0 0 0 /\ inv_mix (tab Te1 x) = wb 0 (sbox x) 0 0 /\
  inv_mix (tab Te2 x) = wb 0 0 (sbox x) 0 /\ inv_mix (tab Te3 x) = wb 0 0 0 (sbox x) /\
  tab Td4 (sbox x) = wb x x x x /\ Z.land (tab Te4 x) 0xff = sbox x.
Proof.
  unfold in_range. intros Hx. pose proof (zrange_forall 256 inv_check inv_checked x ltac:(lia)) as H.
  unfold inv_check in H. bools. split_and!; assumption.
Qed.

(** The masks of the last round pick the bytes of the S-box and of its inverse. *)
Definition last_check (x : Z) : bool :=
  (Z.land (tab Te4 x) 0xff000000 =? wb (sbox x) 0 0 0) && (Z.land (tab Te4 x) 0x00ff0000 =? wb 0 (sbox x) 0 0) &&
  (Z.land (tab Te4 x) 0x0000ff00 =? wb 0 0 (sbox x) 0) && (Z.land (tab Te4 x) 0x000000ff =? wb 0 0 0 (sbox x)) &&
  (Z.land (tab Td4 (sbox x)) 0xff000000 =? wb x 0 0 0) && (Z.land (tab Td4 (sbox x)) 0x00ff0000 =? wb 0 x 0 0) &&
  (Z.land (tab Td4 (sbox x)) 0x0000ff00 =? wb 0 0 x 0) && (Z.land (tab Td4 (sbox x)) 0x000000ff =? wb 0 0 0 x).

Lemma last_checked : forallb last_check (zrange 256) = true.
Proof. by vm_compute. Qed.

Lemma last_tables x :
  is_u8 x ->
  (Z.land (tab Te4 x) 0xff000000 = wb (sbox x) 0 0 0 /\ Z.land (tab Te4 x) 0x00ff0000 = wb 0 (sbox x) 0 0 /\
   Z.land (tab Te4 x) 0x0000ff00 = wb 0 0 (sbox x) 0 /\ Z.land (tab Te4 x) 0x000000ff = wb 0 0 0 (sbox x)) /\
  (Z.land (tab Td4 (sbox x)) 0xff000000 = wb x 0 0 0 /\ Z.land (tab Td4 (sbox x)) 0x00ff0000 = wb 0 x 0 0 /\
   Z.land (tab Td4 (sbox x)) 0x0000ff00 = wb 0 0 x 0 /\ Z.land (tab Td4 (sbox x)) 0x000000ff = wb 0 0 0 x).
Proof.
  unfold in_range. intros Hx. pose proof (zrange_forall 256 last_check last_checked x ltac:(lia)) as H.
  unfold last_check in H. bools. split_and!; assumption.
Qed.

Lemma wb_lxor a b c d a' b' c' d' :
  wb a b c d ⊕ wb a' b' c' d' = wb (a ⊕ a') (b ⊕ b') (c ⊕ c') (d ⊕ d').
Proof. Transparent wb. unfold wb. rewrite !Z.shiftl_lxor. xor_ring. Qed.
#[local] Opaque wb.

Lemma sbox_range x : is_u8 x -> is_u8 (sbox x).
Proof. intros Hx. by apply te_tables. Qed.

Lemma sub4_sbox b3 b2 b1 b0 :
  is_u8 b3 -> is_u8 b2 -> is_u8 b1 -> is_u8 b0 ->
  sub4 b3 b2 b1 b0 = wb (sbox b3) (sbox b2) (sbox b1) (sbox b0).
Proof.
  intros H3 H2 H1 H0. unfold sub4.
  destruct (last_tables b3 H3) as [(-> & _) _], (last_tables b2 H2) as [(_ & -> & _) _],
    (last_tables b1 H1) as [(_ & _ & -> & _) _], (last_tables b0 H0) as [(_ & _ & _ & ->) _].
  rewrite !wb_lxor, ?Z.lxor_0_l, ?Z.lxor_0_r. done.
Qed.

Lemma td4_sbox b3 b2 b1 b0 :
  is_u8 b3 -> is_u8 b2 -> is_u8 b1 -> is_u8 b0 ->
  td4 (sbox b3) (sbox b2) (sbox b1) (sbox b0) = wb b3 b2 b1 b0.
Proof.
  intros H3 H2 H1 H0. unfold td4.
  destruct (last_tables b3 H3) as [_ (-> & _)], (last_tables b2 H2) as [_ (_ & -> & _)],
    (last_tables b1 H1) as [_ (_ & _ & -> & _)], (last_tables b0 H0) as [_ (_ & _ & _ & ->)].
  rewrite !wb_lxor, ?Z.lxor_0_l, ?Z.lxor_0_r. done.
Qed.

(** ** The cipher of FIPS-197, on states of four column words *)

Definition map_state (f : Z -> Z) (s : state) : state :=
  let '(s0, s1, s2, s3) := s in (f s0, f s1, f s2, f s3).

Definition SubBytes (s : state) : state :=
  map_state (fun w => wb (sbox (GETBYTE w 3)) (sbox (GETBYTE w 2)) (sbox (GETBYTE w 1)) (sbox (GETBYTE w 0))) s.

Definition ShiftRows (s : state) : state :=
  let '(s0, s1, s2, s3) := s in
  let row a b c d := wb (GETBYTE a 3) (GETBYTE b 2) (GETBYTE c 1) (GETBYTE d 0) in
  (row s0 s1 s2 s3, row s1 s2 s3 s0, row s2 s3 s0 s1, row s3 s0 s1 s2).

Definition MixColumns (s : state) : state :=
  map_state (fun w =>
    let a := GETBYTE w 3 in let b := GETBYTE w 2 in let c := GETBYTE w 1 in let d := GETBYTE w 0 in
    wb (gmul a 2 ⊕ gmul b 3 ⊕ c ⊕ d) (a ⊕ gmul b 2 ⊕ gmul c 3 ⊕ d)
       (a ⊕ b ⊕ gmul c 2 ⊕ gmul d 3) (gmul a 3 ⊕ b ⊕ c ⊕ gmul d 2)) s.

(** The round key of round [r]: the words [4r] to [4r + 3]. *)
Definition AddRoundKey (key : list Z) (r : nat) (s : state) : state :=
  let '(s0, s1, s2, s3) := s in
  (s0 ⊕ key !!! (4 * r)%nat, s1 ⊕ key !!! (4 * r + 1)%nat, s2 ⊕ key !!! (4 * r + 2)%nat,
   s3 ⊕ key !!! (4 * r + 3)%nat).

Definition fips_round (key : list Z) (r : nat) (s : state) : state :=
  AddRoundKey key r (MixColumns (ShiftRows (SubBytes s))).

Definition Cipher (Nr : nat) (key : list Z) (s : state) : state :=
  let s := AddRoundKey key 0 s in
  let s := fold_left (fun s r => fips_round key r s) (seq 1 (Nr - 1)) s in
  AddRoundKey key Nr (ShiftRows (SubBytes s)).

(** The bytes after SubBytes and ShiftRows. *)
Definition srsb_word (a b c d : Z) : Z :=
  wb (sbox (GETBYTE a 3)) (sbox (GETBYTE b 2)) (sbox (GETBYTE c 1)) (sbox (GETBYTE d 0)).

Definition srsb (s : state) : state :=
  let '(s0, s1, s2, s3) := s in
  (srsb_word s0 s1 s2 s3, srsb_word s1 s2 s3 s0, srsb_word s2 s3 s0 s1, srsb_word s3 s0 s1 s2).

Lemma GETBYTE_wb_sbox a b c d :
  let w := wb (sbox (GETBYTE a 3)) (sbox (GETBYTE b 2)) (sbox (GETBYTE c 1)) (sbox (GETBYTE d 0)) in
  GETBYTE w 3 = sbox (GETBYTE a 3) /\ GETBYTE w 2 = sbox (GETBYTE b 2) /\
  GETBYTE w 1 = sbox (GETBYTE c 1) /\ GETBYTE w 0 = sbox (GETBYTE d 0).
Proof. apply GETBYTE_wb; apply sbox_range, GETBYTE_range. Qed.

Lemma srsb_spec s : ShiftRows (SubBytes s) = srsb s.
Proof.
  destruct s as [[[s0 s1] s2] s3]. unfold ShiftRows, SubBytes, map_state, srsb, srsb_word.
  destruct (GETBYTE_wb_sbox s0 s0 s0 s0) as (-> & -> & -> & ->),
    (GETBYTE_wb_sbox s1 s1 s1 s1) as (-> & -> & -> & ->),
    (GETBYTE_wb_sbox s2 s2 s2 s2) as (-> & -> & -> & ->),
    (GETBYTE_wb_sbox s3 s3 s3 s3) as (-> & -> & -> & ->). done.
Qed.

(** One table-driven word is one mixed column. *)
Lemma te_word_spec a b c d :
  let w := srsb_word a b c d in
  te_word a b c d =
    wb (gmul (GETBYTE w 3) 2 ⊕ gmul (GETBYTE w 2) 3 ⊕ GETBYTE w 1 ⊕ GETBYTE w 0)
       (GETBYTE w 3 ⊕ gmul (GETBYTE w 2) 2 ⊕ gmul (GETBYTE w 1) 3 ⊕ GETBYTE w 0)
       (GETBYTE w 3 ⊕ GETBYTE w 2 ⊕ gmul (GETBYTE w 1) 2 ⊕ gmul (GETBYTE w 0) 3)
       (gmul (GETBYTE w 3) 3 ⊕ GETBYTE w 2 ⊕ GETBYTE w 1 ⊕ gmul (GETBYTE w 0) 2).
Proof.
  cbn zeta. unfold srsb_word. destruct (GETBYTE_wb_sbox a b c d) as (-> & -> & -> & ->). unfold te_word.
  destruct (te_tables (GETBYTE a 3) (GETBYTE_range _ _)) as (_ & -> & _),
    (te_tables (GETBYTE b 2) (GETBYTE_range _ _)) as (_ & _ & -> & _),
    (te_tables (GETBYTE c 1) (GETBYTE_range _ _)) as (_ & _ & _ & -> & _),
    (te_tables (GETBYTE d 0) (GETBYTE_range _ _)) as (_ & _ & _ & _ & -> & _).
  by rewrite !wb_lxor.
Qed.

Lemma te_round_spec key r s : te_round key (4 * r) s = fips_round key r s.
Proof.
  unfold fips_round. rewrite srsb_spec. destruct s as [[[s0 s1] s2] s3].
  unfold te_round, AddRoundKey, MixColumns, srsb, map_state, at_key. by rewrite !te_word_spec.
Qed.

Lemma te_last_spec key r s : te_last key (4 * r) s = AddRoundKey key r (ShiftRows (SubBytes s)).
Proof.
  rewrite srsb_spec. destruct s as [[[s0 s1] s2] s3].
  unfold te_last, AddRoundKey, srsb, srsb_word, at_key.
  by rewrite !sub4_sbox by apply GETBYTE_range.
Qed.

(** ** The loops *)

(** [n] rounds with the round keys from word [off] on. *)
Fixpoint te_rounds (n : nat) (key : list Z) (off : nat) (s : state) : state :=
  match n with O => s | S n => te_rounds n key (off + 4) (te_round key off s) end.
Fixpoint td_rounds (n : nat) (key : list Z) (off : nat) (s : state) : state :=
  match n with O => s | S n => td_rounds n key (off + 4) (td_round key off s) end.

Lemma te_rounds_snoc n key off s :
  te_rounds (S n) key off s = te_round key (off + 4 * n) (te_rounds n key off s).
Proof.
  revert off s. induction n as [|n IH]; intros off s.
  { cbn [te_rounds]. by rewrite Nat.mul_0_r, Nat.add_0_r. }
  change (te_rounds (S (S n)) key off s) with (te_rounds (S n) key (off + 4) (te_round key off s)).
  rewrite IH. cbn [te_rounds]. by replace (off + 4 + 4 * n)%nat with (off + 4 * S n)%nat by lia.
Qed.

Lemma te_loop_rounds k key off s :
  te_loop k key off s = (te_rounds (2 * k + 1) key (off + 4) s, (off + 8 * (k + 1))%nat).
Proof.
  revert off s. induction k as [|k IH]; intros off s; [done|]. cbn [te_loop]. rewrite IH.
  replace (2 * S k + 1)%nat with (S (S (2 * k + 1))) by lia. cbn [te_rounds].
  replace (off + 8)%nat with (off + 4 + 4)%nat by lia. apply pair_eq. split; [done|lia].
Qed.

Lemma td_loop_rounds k key off s :
  td_loop k key off s = (td_rounds (2 * k + 1) key (off + 4) s, (off + 8 * (k + 1))%nat).
Proof.
  revert off s. induction k as [|k IH]; intros off s; [done|]. cbn [td_loop]. rewrite IH.
  replace (2 * S k + 1)%nat with (S (S (2 * k + 1))) by lia. cbn [td_rounds].
  replace (off + 8)%nat with (off + 4 + 4)%nat by lia. apply pair_eq. split; [done|lia].
Qed.

Lemma te_rounds_fold n r key s :
  te_rounds n key (4 * r) s = fold_left (fun s r => fips_round key r s) (seq r n) s.
Proof.
  revert r s. induction n as [|n IH]; intros r s; [done|]. cbn [te_rounds seq fold_left].
  rewrite te_round_spec, <-IH. by replace (4 * r + 4)%nat with (4 * S r)%nat by lia.
Qed.

(** The number of rounds of a key that [AesSetKey] accepted. *)
Definition good_rounds (n : nat) : Prop := n = 10%nat \/ n = 12%nat \/ n = 14%nat.

Lemma AesEncrypt_rounds aes n b :
  good_rounds n -> aes_rounds aes = Z.of_nat n ->
  AesEncrypt aes b = Some (store_block (te_last (aes_key aes) (4 * n)
    (te_rounds (n - 1) (aes_key aes) 4 (add_key (aes_key aes) (load_block b))))).
Proof.
  intros Hn Hr. unfold AesEncrypt. rewrite Hr.
  destruct Hn as [-> | [-> | ->]]; cbn [Z.shiftr Z.shiftl Z.of_nat Pos.of_succ_nat Pos.succ Z.div2 Pos.div2
    Z.ltb Z.eqb Z.compare Pos.compare Pos.compare_cont orb];
    rewrite te_loop_rounds; reflexivity.
Qed.

Lemma AesDecrypt_rounds aes n b :
  good_rounds n -> aes_rounds aes = Z.of_nat n ->
  AesDecrypt aes b = Some (store_block (td_last (aes_key aes) (4 * n)
    (td_rounds (n - 1) (aes_key aes) 4 (add_key (aes_key aes) (load_block b))))).
Proof.
  intros Hn Hr. unfold AesDecrypt. rewrite Hr.
  destruct Hn as [-> | [-> | ->]]; cbn [Z.shiftr Z.shiftl Z.of_nat Pos.of_succ_nat Pos.succ Z.div2 Pos.div2
    Z.ltb Z.eqb Z.compare Pos.compare Pos.compare_cont orb];
    rewrite td_loop_rounds; reflexivity.
Qed.

(** ** Decryption undoes encryption *)

Lemma u32_lxor a b : is_u32 a -> is_u32 b -> is_u32 (a ⊕ b).
Proof. by apply lxor_range. Qed.

Definition state_ok (s : state) : Prop :=
  let '(s0, s1, s2, s3) := s in is_u32 s0 /\ is_u32 s1 /\ is_u32 s2 /\ is_u32 s3.

(** The round keys of a schedule are words. *)
Definition keys_ok (key : list Z) : Prop := length key = 60%nat /\ Forall is_u32 key.

Lemma keys_ok_at key n : keys_ok key -> is_u32 (key !!! n).
Proof.
  intros [Hl Hk]. destruct (decide (n < length key)%nat) as [Hlt|Hge].
  - apply (Forall_lookup_1 _ key n); [done|]. by apply list_lookup_lookup_total_lt.
  - rewrite list_lookup_total_alt, lookup_ge_None_2 by lia. by vm_compute.
Qed.

Lemma srsb_word_range a b c d : is_u32 (srsb_word a b c d).
Proof. apply wb_range; apply sbox_range, GETBYTE_range. Qed.

Lemma inv_mix_te_word a b c d : inv_mix (te_word a b c d) = srsb_word a b c d.
Proof.
  unfold te_word. rewrite !inv_mix_lxor. unfold srsb_word.
  destruct (inv_tables (GETBYTE a 3) (GETBYTE_range _ _)) as (-> & _),
    (inv_tables (GETBYTE b 2) (GETBYTE_range _ _)) as (_ & -> & _),
    (inv_tables (GETBYTE c 1) (GETBYTE_range _ _)) as (_ & _ & -> & _),
    (inv_tables (GETBYTE d 0) (GETBYTE_range _ _)) as (_ & _ & _ & -> & _).
  by rewrite !wb_lxor, ?Z.lxor_0_l, ?Z.lxor_0_r.
Qed.

Lemma srsb_byte a b c d :
  GETBYTE (srsb_word a b c d) 3 = sbox (GETBYTE a 3) /\ GETBYTE (srsb_word a b c d) 2 = sbox (GETBYTE b 2) /\
  GETBYTE (srsb_word a b c d) 1 = sbox (GETBYTE c 1) /\ GETBYTE (srsb_word a b c d) 0 = sbox (GETBYTE d 0).
Proof. apply GETBYTE_wb_sbox. Qed.

#[local] Opaque tab GETBYTE srsb_word.

(** Decrypting a word of the S-box image of a state mixes the word back. *)
Lemma td_word_srsb a b c d s :
  GETBYTE a 3 = sbox (GETBYTE s 3) -> GETBYTE b 2 = sbox (GETBYTE s 2) ->
  GETBYTE c 1 = sbox (GETBYTE s 1) -> GETBYTE d 0 = sbox (GETBYTE s 0) ->
  td_word a b c d = inv_mix s.
Proof.
  intros Ha Hb Hc Hd. unfold td_word, inv_mix. rewrite Ha, Hb, Hc, Hd.
  destruct (inv_tables (GETBYTE s 3) (GETBYTE_range _ _)) as (_ & _ & _ & _ & _ & ->),
    (inv_tables (GETBYTE s 2) (GETBYTE_range _ _)) as (_ & _ & _ & _ & _ & ->),
    (inv_tables (GETBYTE s 1) (GETBYTE_range _ _)) as (_ & _ & _ & _ & _ & ->),
    (inv_tables (GETBYTE s 0) (GETBYTE_range _ _)) as (_ & _ & _ & _ & _ & ->). reflexivity.
Qed.

Lemma td_round_srsb key off s0 s1 s2 s3 :
  td_round key off (srsb (s0, s1, s2, s3)) =
    (inv_mix s0 ⊕ at_key key off, inv_mix s1 ⊕ at_key key (off + 1),
     inv_mix s2 ⊕ at_key key (off + 2), inv_mix s3 ⊕ at_key key (off + 3)).
Proof.
  unfold td_round, srsb.
  rewrite (td_word_srsb (srsb_word s0 s1 s2 s3) _ _ _ s0), (td_word_srsb (srsb_word s1 s2 s3 s0) _ _ _ s1),
    (td_word_srsb (srsb_word s2 s3 s0 s1) _ _ _ s2), (td_word_srsb (srsb_word s3 s0 s1 s2) _ _ _ s3);
    [reflexivity|apply srsb_byte..].
Qed.

(** The decryption key of a round matches the encryption key of a round. *)
Definition inverse_keys (dk : list Z) (offd : nat) (key : list Z) (offe : nat) : Prop :=
  forall c, (c < 4)%nat -> dk !!! (offd + c)%nat = inv_mix (key !!! (offe + c)%nat).

Lemma td_te_round dk key offd offe s :
  inverse_keys dk offd key offe -> td_round dk offd (srsb (te_round key offe s)) = srsb s.
Proof.
  intros Hk. destruct s as [[[s0 s1] s2] s3].
  pose proof (Hk 0%nat ltac:(lia)) as H0. rewrite !Nat.add_0_r in H0.
  unfold te_round. rewrite td_round_srsb, !inv_mix_lxor, !inv_mix_te_word. unfold at_key.
  rewrite H0, !Hk by lia. unfold srsb.
  assert (forall x k, x ⊕ k ⊕ k = x) as Hc by (intros; xor_ring). by rewrite !Hc.
Qed.

Lemma td_te_rounds n dk key offd offe s :
  (forall i, (i < n)%nat -> inverse_keys dk (offd + 4 * i) key (offe + 4 * (n - 1 - i))) ->
  td_rounds n dk offd (srsb (te_rounds n key offe s)) = srsb s.
Proof.
  revert offd. induction n as [|n IH]; intros offd Hk; [done|].
  rewrite te_rounds_snoc. cbn [td_rounds]. rewrite td_te_round.
  - apply IH. intros i Hi. specialize (Hk (S i) ltac:(lia)).
    replace (offd + 4 + 4 * i)%nat with (offd + 4 * S i)%nat by lia.
    by replace (n - 1 - i)%nat with (S n - 1 - S i)%nat by lia.
  - specialize (Hk 0%nat ltac:(lia)). rewrite Nat.add_0_r in Hk.
    by replace (S n - 1 - 0)%nat with n in Hk by lia.
Qed.

(** ** Blocks *)

Lemma store32_reverse w :
  is_u32 w -> store32 (ByteReverseWord32 w) = [GETBYTE w 3; GETBYTE w 2; GETBYTE w 1; GETBYTE w 0].
Proof.
  intros Hw. unfold store32. rewrite ByteReverseWord32_spec by done.
  by destruct (GETBYTE_wb (GETBYTE w 0) (GETBYTE w 1) (GETBYTE w 2) (GETBYTE w 3)
    (GETBYTE_range _ _) (GETBYTE_range _ _) (GETBYTE_range _ _) (GETBYTE_range _ _)) as (-> & -> & -> & ->).
Qed.

Lemma load32_wb a b c d :
  is_u8 a -> is_u8 b -> is_u8 c -> is_u8 d -> load32 [a; b; c; d] = wb d c b a.
Proof.
  intros Ha Hb Hc Hd. rewrite wb_add by done. unfold load32, in_range in *.
  rewrite (Z.lor_comm a), (lor_add b a 8) by lia.
  rewrite (Z.lor_comm _ (c ≪ 16)), (lor_add c _ 16) by lia.
  rewrite (Z.lor_comm _ (d ≪ 24)), (lor_add d _ 24) by lia. lia.
Qed.

Lemma load_reverse a b c d :
  is_u8 a -> is_u8 b -> is_u8 c -> is_u8 d -> ByteReverseWord32 (load32 [a; b; c; d]) = wb a b c d.
Proof. intros. rewrite load32_wb, ByteReverseWord32_wb by done. done. Qed.

(** The bytes of a state, most significant first. *)
Definition word_bytes (w : Z) : bytes := [GETBYTE w 3; GETBYTE w 2; GETBYTE w 1; GETBYTE w 0].

Lemma store_block_bytes s0 s1 s2 s3 :
  state_ok (s0, s1, s2, s3) ->
  store_block (s0, s1, s2, s3) = word_bytes s0 ++ word_bytes s1 ++ word_bytes s2 ++ word_bytes s3.
Proof. intros (H0 & H1 & H2 & H3). unfold store_block. by rewrite !store32_reverse. Qed.

Lemma load_store_block s : state_ok s -> load_block (store_block s) = s.
Proof.
  destruct s as [[[s0 s1] s2] s3]. intros Hs. rewrite store_block_bytes by done.
  destruct Hs as (H0 & H1 & H2 & H3). unfold load_block, word_bytes. cbn [app drop take].
  rewrite !load_reverse by apply GETBYTE_range. by rewrite !wb_GETBYTE.
Qed.

Lemma store_block_ok s : state_ok s -> zlen (store_block s) = 16 /\ is_bytes (store_block s).
Proof.
  destruct s as [[[s0 s1] s2] s3]. intros Hs. rewrite store_block_bytes by done. split; [done|].
  repeat constructor; apply GETBYTE_range.
Qed.

(** A block is sixteen bytes. *)
Definition block (b : bytes) : Prop := length b = 16%nat /\ is_bytes b.

Lemma block_inv b : block b -> exists b0 b1 b2 b3 b4 b5 b6 b7 b8 b9 b10 b11 b12 b13 b14 b15,
  b = [b0; b1; b2; b3; b4; b5; b6; b7; b8; b9; b10; b11; b12; b13; b14; b15] /\
  (is_u8 b0 /\ is_u8 b1 /\ is_u8 b2 /\ is_u8 b3) /\ (is_u8 b4 /\ is_u8 b5 /\ is_u8 b6 /\ is_u8 b7) /\
  (is_u8 b8 /\ is_u8 b9 /\ is_u8 b10 /\ is_u8 b11) /\ (is_u8 b12 /\ is_u8 b13 /\ is_u8 b14 /\ is_u8 b15).
Proof.
  intros [Hl Hb]. do 16 (destruct b as [|? b]; [done|]). destruct b; [|done].
  unfold is_bytes in Hb.
  repeat match goal with H : Forall _ (_ :: _) |- _ => apply Forall_cons in H as [? H] end.
  do 16 eexists. split; [reflexivity|].
  repeat match goal with |- _ /\ _ => split end; assumption.
Qed.

Lemma store_load_block b : block b -> state_ok (load_block b) /\ store_block (load_block b) = b.
Proof.
  intros Hb. destruct (block_inv b Hb) as (b0 & b1 & b2 & b3 & b4 & b5 & b6 & b7 & b8 & b9 & b10 & b11
    & b12 & b13 & b14 & b15 & -> & (? & ? & ? & ?) & (? & ? & ? & ?) & (? & ? & ? & ?) & (? & ? & ? & ?)).
  unfold load_block. cbn [drop take]. rewrite !load_reverse by done.
  assert (state_ok (wb b0 b1 b2 b3, wb b4 b5 b6 b7, wb b8 b9 b10 b11, wb b12 b13 b14 b15)) as Hs
    by (split_and!; by apply wb_range).
  split; [exact Hs|]. rewrite store_block_bytes by exact Hs. unfold word_bytes.
  destruct (GETBYTE_wb b0 b1 b2 b3) as (-> & -> & -> & ->); try done.
  destruct (GETBYTE_wb b4 b5 b6 b7) as (-> & -> & -> & ->); try done.
  destruct (GETBYTE_wb b8 b9 b10 b11) as (-> & -> & -> & ->); try done.
  by destruct (GETBYTE_wb b12 b13 b14 b15) as (-> & -> & -> & ->).
Qed.

(** ** Ranges *)

Lemma te_word_range a b c d : is_u32 (te_word a b c d).
Proof.
  assert (forallb (fun x => (0 <=? tab Te0 x) && (tab Te0 x <? 2 ^ 32) && (0 <=? tab Te1 x) && (tab Te1 x <? 2 ^ 32)
    && (0 <=? tab Te2 x) && (tab Te2 x <? 2 ^ 32) && (0 <=? tab Te3 x) && (tab Te3 x <? 2 ^ 32))
    (zrange 256) = true) as H by (by vm_compute).
  assert (forall x, is_u8 x -> is_u32 (tab Te0 x) /\ is_u32 (tab Te1 x) /\ is_u32 (tab Te2 x) /\ is_u32 (tab Te3 x)) as Ht.
  { unfold in_range. intros x Hx. pose proof (zrange_forall 256 _ H x ltac:(lia)) as Hc. cbv beta in Hc.
    bools. split_and!; assumption. }
  unfold te_word. repeat apply u32_lxor; apply Ht, GETBYTE_range.
Qed.

Lemma te_round_range key off s : keys_ok key -> state_ok (te_round key off s).
Proof.
  intros Hk. destruct s as [[[s0 s1] s2] s3]. unfold te_round, at_key.
  split_and!; apply u32_lxor; try apply te_word_range; by apply keys_ok_at.
Qed.

Lemma te_rounds_range n key off s : keys_ok key -> state_ok s -> state_ok (te_rounds n key off s).
Proof.
  intros Hk. revert off s. induction n as [|n IH]; intros off s Hs; [done|]. by apply IH, te_round_range.
Qed.

Lemma add_key_range key s : keys_ok key -> state_ok s -> state_ok (add_key key s).
Proof.
  intros Hk. destruct s as [[[s0 s1] s2] s3]. intros (? & ? & ? & ?). unfold add_key, at_key.
  split_and!; apply u32_lxor; try done; by apply keys_ok_at.
Qed.

(** The last round, and what the first key addition of decryption makes of it. *)
Lemma te_last_srsb key off s0 s1 s2 s3 :
  te_last key off (s0, s1, s2, s3) =
    (srsb_word s0 s1 s2 s3 ⊕ at_key key off, srsb_word s1 s2 s3 s0 ⊕ at_key key (off + 1),
     srsb_word s2 s3 s0 s1 ⊕ at_key key (off + 2), srsb_word s3 s0 s1 s2 ⊕ at_key key (off + 3)).
Proof. Transparent srsb_word. unfold te_last, srsb_word. by rewrite !sub4_sbox by apply GETBYTE_range. Qed.
#[local] Opaque srsb_word.

Lemma te_last_range key off s : keys_ok key -> state_ok (te_last key off s).
Proof.
  intros Hk. destruct s as [[[s0 s1] s2] s3]. rewrite te_last_srsb. unfold at_key.
  split_and!; apply u32_lxor; try apply srsb_word_range; by apply keys_ok_at.
Qed.

Lemma td_last_srsb key off s0 s1 s2 s3 :
  state_ok (s0, s1, s2, s3) ->
  td_last key off (srsb (s0, s1, s2, s3)) =
    (s0 ⊕ at_key key off, s1 ⊕ at_key key (off + 1), s2 ⊕ at_key key (off + 2), s3 ⊕ at_key key (off + 3)).
Proof.
  intros (H0 & H1 & H2 & H3). unfold td_last, srsb.
  destruct (srsb_byte s0 s1 s2 s3) as (-> & -> & -> & ->), (srsb_byte s1 s2 s3 s0) as (-> & -> & -> & ->),
    (srsb_byte s2 s3 s0 s1) as (-> & -> & -> & ->), (srsb_byte s3 s0 s1 s2) as (-> & -> & -> & ->).
  rewrite !td4_sbox by apply GETBYTE_range. by rewrite !wb_GETBYTE.
Qed.

(** ** The key schedule *)

Lemma set_key_ok key off w : keys_ok key -> is_u32 w -> keys_ok (set_key key off w).
Proof. intros [Hl Hk] Hw. split; [by unfold set_key; rewrite length_insert|by apply Forall_insert]. Qed.

Lemma at_key_ok key off : keys_ok key -> is_u32 (at_key key off).
Proof. apply keys_ok_at. Qed.

Lemma sub4_range b3 b2 b1 b0 :
  is_u8 b3 -> is_u8 b2 -> is_u8 b1 -> is_u8 b0 -> is_u32 (sub4 b3 b2 b1 b0).
Proof. intros. rewrite sub4_sbox by done. apply wb_range; by apply sbox_range. Qed.

Lemma rcon_range i : is_u32 (rcon !!! i).
Proof.
  destruct (decide (i < 10)%nat) as [Hi|Hi].
  - do 10 (destruct i as [|i]; [by vm_compute|]). lia.
  - rewrite list_lookup_total_alt, lookup_ge_None_2 by (cbn; lia). by vm_compute.
Qed.

Lemma next_word_ok key base n i : keys_ok key -> keys_ok (next_word key base n i).
Proof.
  intros Hk. apply set_key_ok; [done|]. apply u32_lxor; [apply u32_lxor|].
  - by apply at_key_ok.
  - apply sub4_range; apply GETBYTE_range.
  - apply rcon_range.
Qed.

Lemma chain_ok key base n m : keys_ok key -> keys_ok (chain key base n m).
Proof. intros Hk. apply set_key_ok; [done|]. apply u32_lxor; by apply at_key_ok. Qed.

Lemma expand128_ok k i base key : keys_ok key -> keys_ok (expand128 k i base key).
Proof.
  revert i base key. induction k as [|k IH]; intros i base key Hk; cbn [expand128]; [|apply IH].
  all: repeat apply chain_ok; by apply next_word_ok.
Qed.

Lemma expand192_ok k i base key : keys_ok key -> keys_ok (expand192 k i base key).
Proof.
  revert i base key. induction k as [|k IH]; intros i base key Hk; cbn [expand192]; [|apply IH].
  all: repeat apply chain_ok; by apply next_word_ok.
Qed.

Lemma expand256_ok k i base key : keys_ok key -> keys_ok (expand256 k i base key).
Proof.
  revert i base key. induction k as [|k IH]; intros i base key Hk; cbn [expand256].
  { repeat apply chain_ok. by apply next_word_ok. }
  set (key1 := chain (chain (chain (next_word key base 8 i) base 8 9) base 8 10) base 8 11).
  assert (keys_ok key1) by (repeat apply chain_ok; by apply next_word_ok).
  apply IH. repeat apply chain_ok. apply set_key_ok; [done|].
  apply u32_lxor; [by apply at_key_ok|]. apply sub4_range; apply GETBYTE_range.
Qed.

(** A store to the key array, seen through a read. *)
Lemma set_key_lookup key off w x :
  (off < length key)%nat -> set_key key off w !!! x = if decide (x = off) then w else key !!! x.
Proof.
  intros Hlt. unfold set_key. case_decide; subst.
  - by apply list_lookup_total_insert_eq.
  - by apply list_lookup_total_insert_ne.
Qed.

Lemma swap_words_lookup key i j x :
  (i < length key)%nat -> (j < length key)%nat -> i <> j ->
  swap_words key i j !!! x =
    if decide (x = i) then key !!! j else if decide (x = j) then key !!! i else key !!! x.
Proof.
  intros Hi Hj Hne. unfold swap_words, at_key.
  rewrite set_key_lookup by (unfold set_key; by rewrite length_insert).
  rewrite set_key_lookup by done. repeat case_decide; congruence.
Qed.

Lemma swap_words_length key i j : length (swap_words key i j) = length key.
Proof. unfold swap_words, set_key. by rewrite !length_insert. Qed.

(** The four swaps of one iteration exchange two groups of four words. *)
Definition swap_groups (key : list Z) (i j : nat) : list Z :=
  swap_words (swap_words (swap_words (swap_words key i j) (i + 1) (j + 1)) (i + 2) (j + 2)) (i + 3) (j + 3).

Lemma swap_groups_length key i j : length (swap_groups key i j) = length key.
Proof. unfold swap_groups. by rewrite !swap_words_length. Qed.

Lemma swap_groups_lookup key a b g c :
  (a < b)%nat -> (4 * b + 3 < length key)%nat -> (c < 4)%nat ->
  swap_groups key (4 * a) (4 * b) !!! (4 * g + c)%nat =
    key !!! (4 * (if decide (g = a) then b else if decide (g = b) then a else g) + c)%nat.
Proof.
  intros Hab Hb Hc. unfold swap_groups.
  rewrite !swap_words_lookup by (rewrite ?swap_words_length; lia).
  repeat case_decide; subst; try lia; f_equal; lia.
Qed.

Lemma invert_order_lookup fuel a b key g c :
  (b <= a + 2 * fuel)%nat -> (4 * b + 3 < length key)%nat -> (c < 4)%nat ->
  invert_order fuel (4 * a) (4 * b) key !!! (4 * g + c)%nat =
    key !!! (4 * (if decide (a <= g <= b)%nat then a + b - g else g) + c)%nat.
Proof.
  revert a b key. induction fuel as [|fuel IH]; intros a b key Hf Hlen Hc; cbn [invert_order].
  { case_decide; [|done]. f_equal. lia. }
  destruct (Nat.ltb_spec (4 * a) (4 * b)).
  - fold (swap_groups key (4 * a) (4 * b)).
    replace (4 * a + 4)%nat with (4 * (a + 1))%nat by lia.
    replace (4 * b - 4)%nat with (4 * (b - 1))%nat by lia.
    rewrite IH by (rewrite ?swap_groups_length; lia).
    rewrite swap_groups_lookup by lia. repeat case_decide; subst; try lia; f_equal; lia.
  - case_decide; [|done]. f_equal. lia.
Qed.

Lemma invert_order_length fuel i j key : length (invert_order fuel i j key) = length key.
Proof.
  revert i j key. induction fuel as [|fuel IH]; intros i j key; [done|]. cbn [invert_order].
  case_match; [|done]. by rewrite IH, !swap_words_length.
Qed.

Lemma mix_word_lookup key off x :
  (off < length key)%nat ->
  mix_word key off !!! x = if decide (x = off) then inv_mix (key !!! off) else key !!! x.
Proof. intros. unfold mix_word, at_key. by rewrite set_key_lookup. Qed.

Lemma mix_word_length key off : length (mix_word key off) = length key.
Proof. unfold mix_word, set_key. by rewrite length_insert. Qed.

Lemma mix_keys_lookup n a key g c :
  (4 * (a + n) <= length key)%nat -> (c < 4)%nat ->
  mix_keys n (4 * a) key !!! (4 * g + c)%nat =
    if decide (a <= g < a + n)%nat then inv_mix (key !!! (4 * g + c)%nat) else key !!! (4 * g + c)%nat.
Proof.
  revert a key. induction n as [|n IH]; intros a key Hlen Hc; cbn [mix_keys].
  { case_decide; [lia|done]. }
  replace (4 * a + 4)%nat with (4 * (a + 1))%nat by lia.
  rewrite IH by (rewrite ?mix_word_length; lia).
  rewrite !mix_word_lookup by (rewrite ?mix_word_length; lia).
  repeat case_decide; subst; try lia; try done; do 2 f_equal; lia.
Qed.

(** [dk] is the decryption schedule of the encryption schedule [key] of [n] rounds. *)
Record decryption_keys (n : nat) (key dk : list Z) : Prop := {
  dk_first : forall c, (c < 4)%nat -> dk !!! c = key !!! (4 * n + c)%nat;
  dk_inner : forall g, (1 <= g < n)%nat -> inverse_keys dk (4 * g) key (4 * (n - g));
  dk_last : forall c, (c < 4)%nat -> dk !!! (4 * n + c)%nat = key !!! c
}.

Lemma decryption_schedule n key :
  good_rounds n -> keys_ok key -> decryption_keys n key (mix_keys (n - 1) 4 (invert_order n 0 (4 * n) key)).
Proof.
  intros Hn [Hl _]. assert (10 <= n <= 14)%nat as Hn' by (unfold good_rounds in Hn; lia).
  set (inv := invert_order n 0 (4 * n) key).
  assert (length inv = 60%nat) as Hli by (unfold inv; by rewrite invert_order_length).
  assert (forall g c, (g <= n)%nat -> (c < 4)%nat -> inv !!! (4 * g + c)%nat = key !!! (4 * (n - g) + c)%nat) as Hinv.
  { intros g c Hg Hc. etrans; [apply (invert_order_lookup n 0 n key g c); lia|].
    by rewrite decide_True by lia. }
  assert (forall g c, (g <= n)%nat -> (c < 4)%nat -> mix_keys (n - 1) 4 inv !!! (4 * g + c)%nat =
    if decide (1 <= g < n)%nat then inv_mix (key !!! (4 * (n - g) + c)%nat) else key !!! (4 * (n - g) + c)%nat) as Hmix.
  { intros g c Hg Hc. etrans; [apply (mix_keys_lookup (n - 1) 1 inv g c); lia|].
    rewrite Hinv by lia. repeat case_decide; try lia; done. }
  split.
  - intros c Hc. specialize (Hmix 0%nat c ltac:(lia) Hc). rewrite decide_False in Hmix by lia.
    rewrite Nat.sub_0_r in Hmix. exact Hmix.
  - intros g Hg c Hc. rewrite Hmix by lia. by rewrite decide_True by lia.
  - intros c Hc. rewrite Hmix by lia. rewrite decide_False by lia. by rewrite Nat.sub_diag.
Qed.

(** The schedule does not depend on what the array held before: two arrays that agree on
    the words written so far still agree after the next store. *)
Definition agree (m : nat) (k1 k2 : list Z) : Prop :=
  length k1 = 60%nat /\ length k2 = 60%nat /\ forall x, (x < m)%nat -> k1 !!! x = k2 !!! x.

Lemma set_key_agree m k1 k2 w1 w2 :
  agree m k1 k2 -> (m < 60)%nat -> w1 = w2 -> agree (S m) (set_key k1 m w1) (set_key k2 m w2).
Proof.
  intros (H1 & H2 & H) Hm <-. split_and!; [unfold set_key; by rewrite length_insert..|].
  intros x Hx. rewrite !set_key_lookup by lia. case_decide; [done|]. apply H. lia.
Qed.

Lemma next_word_agree base n i k1 k2 :
  (1 <= n)%nat -> (base + n < 60)%nat -> agree (base + n) k1 k2 ->
  agree (S (base + n)) (next_word k1 base n i) (next_word k2 base n i).
Proof.
  intros Hn Hb Ha. pose proof Ha as (_ & _ & H). unfold next_word, at_key.
  apply set_key_agree; [done|done|]. by rewrite !H by lia.
Qed.

Lemma chain_agree base n m k1 k2 :
  (1 <= n <= m)%nat -> (base + m < 60)%nat -> agree (base + m) k1 k2 ->
  agree (S (base + m)) (chain k1 base n m) (chain k2 base n m).
Proof.
  intros Hn Hb Ha. pose proof Ha as (_ & _ & H). unfold chain, at_key.
  apply set_key_agree; [done|done|]. by rewrite !H by lia.
Qed.

(** Chains the two lemmas above along a group of stores. *)
Ltac solve_agree :=
  repeat match goal with
  | |- agree (?b + S ?m) (chain _ _ _ _) _ => replace (b + S m)%nat with (S (b + m)) by lia
  | |- agree (S (_ + _)) (chain _ _ _ _) _ => apply chain_agree; [lia|lia|]
  | |- agree (?b + S ?m) (next_word _ _ _ _) _ => replace (b + S m)%nat with (S (b + m)) by lia
  | |- agree (S (_ + _)) (next_word _ _ _ _) _ => apply next_word_agree; [lia|lia|]
  end; try assumption.

Lemma expand128_agree k i base k1 k2 :
  (base + 8 + 4 * k <= 60)%nat -> agree (base + 4) k1 k2 ->
  agree (base + 8 + 4 * k) (expand128 k i base k1) (expand128 k i base k2).
Proof.
  revert i base k1 k2. induction k as [|k IH]; intros i base k1 k2 Hb Ha; cbn [expand128].
  - rewrite Nat.add_0_r. solve_agree.
  - replace (base + 8 + 4 * S k)%nat with (base + 4 + 8 + 4 * k)%nat by lia. apply IH; [lia|].
    replace (base + 4 + 4)%nat with (base + 8)%nat by lia. solve_agree.
Qed.

Lemma expand192_agree k i base k1 k2 :
  (base + 10 + 6 * k <= 60)%nat -> agree (base + 6) k1 k2 ->
  agree (base + 10 + 6 * k) (expand192 k i base k1) (expand192 k i base k2).
Proof.
  revert i base k1 k2. induction k as [|k IH]; intros i base k1 k2 Hb Ha; cbn [expand192].
  - rewrite Nat.add_0_r. solve_agree.
  - replace (base + 10 + 6 * S k)%nat with (base + 6 + 10 + 6 * k)%nat by lia. apply IH; [lia|].
    replace (base + 6 + 6)%nat with (base + 12)%nat by lia. solve_agree.
Qed.

Lemma expand256_agree k i base k1 k2 :
  (base + 12 + 8 * k <= 60)%nat -> agree (base + 8) k1 k2 ->
  agree (base + 12 + 8 * k) (expand256 k i base k1) (expand256 k i base k2).
Proof.
  revert i base k1 k2. induction k as [|k IH]; intros i base k1 k2 Hb Ha; cbn [expand256].
  { rewrite Nat.add_0_r. solve_agree. }
  replace (base + 12 + 8 * S k)%nat with (base + 8 + 12 + 8 * k)%nat by lia. apply IH; [lia|].
  replace (base + 8 + 8)%nat with (base + 16)%nat by lia. solve_agree.
  match goal with |- agree _ (set_key ?a _ _) (set_key ?b _ _) => assert (agree (base + 12) a b) as H12 by solve_agree end.
  pose proof H12 as (_ & _ & H). replace (base + 13)%nat with (S (base + 12)) by lia.
  apply set_key_agree; [done|lia|]. unfold at_key. by rewrite !H by lia.
Qed.

Lemma load_words_spec m b :
  length b = (4 * m)%nat -> is_bytes b -> length (load_words b) = m /\ Forall is_u32 (load_words b).
Proof.
  revert b. induction m as [|m IH]; intros b Hl Hb.
  { destruct b; [done|]. cbn in Hl. lia. }
  destruct b as [|b0 [|b1 [|b2 [|b3 b]]]]; [cbn in Hl; lia..|]. cbn [length] in Hl.
  unfold is_bytes in Hb. rewrite !Forall_cons in Hb. destruct Hb as (H0 & H1 & H2 & H3 & Hb).
  cbn [load_words]. destruct (IH b ltac:(lia) Hb) as [Hlen Hall]. split; [cbn; lia|].
  constructor; [|done]. rewrite load_reverse by done. by apply wb_range.
Qed.

(** A key length that [AesSetKey] accepts, with its number of rounds. *)
Definition key_len (keylen : Z) (n : nat) : Prop :=
  (keylen = 16 /\ n = 10%nat) \/ (keylen = 24 /\ n = 12%nat) \/ (keylen = 32 /\ n = 14%nat).

Lemma key_len_words keylen n :
  key_len keylen n ->
  Z.to_nat keylen = (4 * (Z.to_nat keylen / 4))%nat /\ (Z.to_nat keylen / 4 <= 8)%nat /\ 0 <= keylen.
Proof. intros [[-> _]|[[-> _]|[-> _]]]; vm_compute; repeat split; by repeat constructor. Qed.

Definition expand (keylen : Z) (rk : list Z) : list Z :=
  if keylen =? 16 then expand128 9 0 0 rk else if keylen =? 24 then expand192 7 0 0 rk else expand256 6 0 0 rk.

Lemma expand_ok keylen rk : keys_ok rk -> keys_ok (expand keylen rk).
Proof.
  intros. unfold expand. repeat case_match; [by apply expand128_ok|by apply expand192_ok|by apply expand256_ok].
Qed.

Lemma expand_agree keylen n k1 k2 :
  key_len keylen n -> agree (Z.to_nat keylen / 4) k1 k2 ->
  agree (4 * n + 4) (expand keylen k1) (expand keylen k2).
Proof.
  intros [[-> ->]|[[-> ->]|[-> ->]]] Ha; unfold expand; cbn [Z.eqb Pos.eqb].
  - apply (expand128_agree 9 0 0); [lia|exact Ha].
  - apply (expand192_agree 7 0 0); [lia|exact Ha].
  - apply (expand256_agree 6 0 0); [lia|exact Ha].
Qed.

(** What [AesSetKey] leaves in the structure. *)
Lemma AesSetKey_spec junk key keylen n iv dir :
  key_len keylen n -> keys_ok (aes_key junk) -> is_bytes key -> keylen <= zlen key -> 16 <= zlen iv ->
  let rk := load_words (take (Z.to_nat keylen) key) ++ drop (Z.to_nat keylen / 4) (aes_key junk) in
  keys_ok rk /\
  AesSetKey junk key keylen (Some iv) dir =
    Ret (mk_Aes (match dir with
                 | AES_ENCRYPTION => expand keylen rk
                 | AES_DECRYPTION => mix_keys (n - 1) 4 (invert_order n 0 (4 * n) (expand keylen rk))
                 end) (Z.of_nat n) (take 16 iv) (aes_tmp junk), 0).
Proof.
  intros Hk [Hlen Hall] Hb Hl Hiv rk. destruct (key_len_words _ _ Hk) as (Hq & Hq8 & Hk0).
  assert (length (load_words (take (Z.to_nat keylen) key)) = (Z.to_nat keylen / 4)%nat /\
    Forall is_u32 (load_words (take (Z.to_nat keylen) key))) as [Hw1 Hw2].
  { apply load_words_spec; [|by apply Forall_take].
    rewrite length_take. unfold zlen in Hl. lia. }
  assert (keys_ok rk) as Hrk.
  { split.
    - unfold rk. rewrite length_app, length_drop, Hw1, Hlen. lia.
    - apply Forall_app. split; [done|]. by apply Forall_drop. }
  split; [exact Hrk|].
  assert (mem_read key 0 keylen = Ret (take (Z.to_nat keylen) key)) as Hr.
  { by rewrite mem_read_ok by lia. }
  assert (mem_write (aes_key junk) 0 (load_words (take (Z.to_nat keylen) key)) = Ret rk) as Hwr.
  { rewrite mem_write_ok.
    - change (Z.to_nat 0) with 0%nat. unfold rk. by rewrite take_0, Hw1.
    - lia.
    - unfold zlen. rewrite Hw1, Hlen. lia. }
  assert (mem_read iv 0 AES_BLOCK_SIZE = Ret (take 16 iv)) as Hri.
  { unfold AES_BLOCK_SIZE. by rewrite mem_read_ok by lia. }
  unfold AesSetKey, AesSetKeyLocal. rewrite Hr. cbn [mbind outcome_bind]. rewrite Hwr. cbn [mbind outcome_bind].
  unfold AesSetIV, expand.
  destruct Hk as [[-> ->]|[[-> ->]|[-> ->]]]; cbn [Z.eqb Pos.eqb orb negb].
  all: rewrite Hri; cbn [mbind outcome_bind aes_key aes_rounds aes_tmp]; by destruct dir.
Qed.

(** The decryption schedule of any structure inverts the encryption schedule of any other. *)
Lemma schedules_match junk junk' key keylen n iv :
  key_len keylen n -> keys_ok (aes_key junk) -> keys_ok (aes_key junk') ->
  is_bytes key -> keylen <= zlen key -> 16 <= zlen iv ->
  exists K DK, keys_ok K /\ decryption_keys n K DK /\
    AesSetKey junk key keylen (Some iv) AES_ENCRYPTION = Ret (mk_Aes K (Z.of_nat n) (take 16 iv) (aes_tmp junk), 0) /\
    AesSetKey junk' key keylen (Some iv) AES_DECRYPTION = Ret (mk_Aes DK (Z.of_nat n) (take 16 iv) (aes_tmp junk'), 0).
Proof.
  intros Hk Hj Hj' Hb Hl Hiv.
  destruct (AesSetKey_spec junk key keylen n iv AES_ENCRYPTION Hk Hj Hb Hl Hiv) as [Hok1 He].
  destruct (AesSetKey_spec junk' key keylen n iv AES_DECRYPTION Hk Hj' Hb Hl Hiv) as [Hok2 Hd].
  set (rk1 := load_words (take (Z.to_nat keylen) key) ++ drop (Z.to_nat keylen / 4) (aes_key junk)) in *.
  set (rk2 := load_words (take (Z.to_nat keylen) key) ++ drop (Z.to_nat keylen / 4) (aes_key junk')) in *.
  assert (good_rounds n) as Hn by (unfold good_rounds; destruct Hk as [[_ ->]|[[_ ->]|[_ ->]]]; auto).
  assert (agree (Z.to_nat keylen / 4) rk1 rk2) as Ha.
  { split_and!; [apply Hok1|apply Hok2|]. intros x Hx. unfold rk1, rk2.
    assert (length (load_words (take (Z.to_nat keylen) key)) = (Z.to_nat keylen / 4)%nat) as Hw.
    { apply load_words_spec; [|by apply Forall_take].
      rewrite length_take. unfold zlen in Hl. pose proof (key_len_words _ _ Hk). lia. }
    rewrite !list_lookup_total_alt, !lookup_app_l by lia. done. }
  destruct (expand_agree keylen n rk1 rk2 Hk Ha) as (_ & _ & Hag).
  destruct (decryption_schedule n (expand keylen rk2) Hn (expand_ok _ _ Hok2)) as [H1 H2 H3].
  exists (expand keylen rk1), (mix_keys (n - 1) 4 (invert_order n 0 (4 * n) (expand keylen rk2))).
  split_and!; [|split|exact He|exact Hd].
  - exact (expand_ok keylen rk1 Hok1).
  - intros c Hc. by rewrite H1, Hag by lia.
  - intros g Hg c Hc. specialize (H2 g Hg c Hc). by rewrite H2, Hag by lia.
  - intros c Hc. by rewrite H3, Hag by lia.
Qed.

(** ** One block *)

Lemma decrypt_encrypt_block K DK n reg reg' tmp tmp' b :
  good_rounds n -> keys_ok K -> decryption_keys n K DK -> block b ->
  exists c, AesEncrypt (mk_Aes K (Z.of_nat n) reg tmp) b = Some c /\ block c /\
    AesDecrypt (mk_Aes DK (Z.of_nat n) reg' tmp') c = Some b.
Proof.
  intros Hn HK [H1 H2 H3] Hb. rewrite (AesEncrypt_rounds _ n) by done. cbn [aes_key].
  destruct (store_load_block b Hb) as [Hs Hsb]. eexists. split; [reflexivity|].
  set (s0 := add_key K (load_block b)). assert (state_ok s0) as Hs0 by by apply add_key_range.
  set (e := te_rounds (n - 1) K 4 s0). assert (state_ok e) as He by by apply te_rounds_range.
  split.
  { pose proof (store_block_ok _ (te_last_range K (4 * n) e HK)) as [Hz Hbb]. split; [unfold zlen in Hz; lia|done]. }
  rewrite (AesDecrypt_rounds _ n) by done. cbn [aes_key].
  rewrite load_store_block by by apply te_last_range.
  assert (add_key DK (te_last K (4 * n) e) = srsb e) as ->.
  { destruct e as [[[e0 e1] e2] e3]. rewrite te_last_srsb. unfold add_key, at_key, srsb.
    pose proof (H1 0%nat ltac:(lia)) as H10. rewrite Nat.add_0_r in H10. rewrite H10, !H1 by lia.
    assert (forall x k, x ⊕ k ⊕ k = x) as Hc by (intros; xor_ring). by rewrite !Hc. }
  unfold e. rewrite (td_te_rounds (n - 1) DK K 4 4).
  - pose proof Hsb as Hsb'. destruct (load_block b) as [[[w0 w1] w2] w3] eqn:El. unfold s0, add_key.
    rewrite td_last_srsb by exact Hs0. unfold at_key.
    pose proof (H3 0%nat ltac:(lia)) as H30. rewrite Nat.add_0_r in H30. rewrite H30, !H3 by lia.
    assert (forall x k, x ⊕ k ⊕ k = x) as Hc by (intros; xor_ring). by rewrite !Hc, Hsb.
  - assert (10 <= n)%nat by (unfold good_rounds in Hn; lia). intros i Hi.
    specialize (H2 (S i) ltac:(lia)).
    replace (4 + 4 * i)%nat with (4 * S i)%nat by lia.
    by replace (4 + 4 * (n - 1 - 1 - i))%nat with (4 * (n - S i))%nat by lia.
Qed.
