(* ===== verification/AesCbc.v ===== *)
(** The schedule and the CBC mode of src/crypto/aes_cbc.c: the properties of the exported
    functions.

    [AesSpec] relates the rounds to FIPS-197 and shows that decryption of a block undoes
    encryption; here the key schedule is related to KeyExpansion of FIPS-197, and the
    buffers of [aes_encrypt] and [aes_decrypt] are treated. *)

From S2P Require Import Prelude AesTables Aes AesSpec.

#[local] Opaque sbox gmul wb tab GETBYTE.

(** ** Key expansion of FIPS-197 *)

Definition SubWord (w : Z) : Z :=
  wb (sbox (GETBYTE w 3)) (sbox (GETBYTE w 2)) (sbox (GETBYTE w 1)) (sbox (GETBYTE w 0)).
Definition RotWord (w : Z) : Z := wb (GETBYTE w 2) (GETBYTE w 1) (GETBYTE w 0) (GETBYTE w 3).

(** The round constant x^(j-1) in the most significant byte. *)
Fixpoint gpow (j : nat) : Z := match j with O => 1 | S j => xtime (gpow j) end.
Definition Rcon (j : nat) : Z := wb (gpow (j - 1)) 0 0 0.

(** The word [i] of the schedule from the words before it. *)
Definition next_key (Nk : nat) (K : list Z) (i : nat) : Z :=
  let temp := K !!! (i - 1)%nat in
  Z.lxor (K !!! (i - Nk)%nat)
    (if (i mod Nk =? 0)%nat then Z.lxor (SubWord (RotWord temp)) (Rcon (i / Nk))
     else if (6 <? Nk)%nat && (i mod Nk =? 4)%nat then SubWord temp else temp).

(** The first [Nk] words of [K] are those of the key and the words [Nk] to [m - 1] follow
    the recurrence. *)
Definition expanded (user : list Z) (Nk m : nat) (K : list Z) : Prop :=
  length K = 60%nat /\ (forall i, (i < Nk)%nat -> K !!! i = user !!! i) /\
  forall i, (Nk <= i < m)%nat -> K !!! i = next_key Nk K i.

Section Expansion.
Context (user : list Z).

Lemma expanded_set Nk m K w :
  (1 <= Nk <= m)%nat -> (m < 60)%nat -> expanded user Nk m K -> w = next_key Nk K m ->
  expanded user Nk (S m) (set_key K m w).
Proof.
  intros HN Hm (Hl & Hu & He) Hw. split_and!; [unfold set_key; by rewrite length_insert|..].
  { intros i Hi. rewrite set_key_lookup, decide_False by lia. by apply Hu. }
  intros i Hi. unfold next_key. rewrite !set_key_lookup by lia.
  rewrite !(decide_False (P:=(i - _)%nat = m)) by lia. case_decide as Hd.
  - subst i. exact Hw.
  - rewrite He by lia. done.
Qed.

Lemma Rcon_rcon i : (i < 10)%nat -> Rcon (S i) = rcon !!! i.
Proof. intros Hi. do 10 (destruct i as [|i]; [by vm_compute|]). lia. Qed.

Lemma next_word_expanded Nk b K :
  (1 <= Nk)%nat -> (b < 10)%nat -> (Nk * b + Nk < 60)%nat -> expanded user Nk (Nk * b + Nk) K ->
  expanded user Nk (S (Nk * b + Nk)) (next_word K (Nk * b) Nk b).
Proof.
  intros HN Hb Hm He. unfold next_word. apply expanded_set; [nia|done|done|].
  unfold next_key, at_key. replace (Nk * b + Nk)%nat with (S b * Nk)%nat by lia.
  rewrite Nat.Div0.mod_mul, Nat.div_mul by lia. cbn [Nat.eqb].
  replace (S b * Nk - Nk)%nat with (Nk * b)%nat by lia. set (temp := K !!! (S b * Nk - 1)%nat).
  rewrite Rcon_rcon by done. rewrite sub4_sbox by apply GETBYTE_range. unfold SubWord, RotWord.
  destruct (GETBYTE_wb (GETBYTE temp 2) (GETBYTE temp 1) (GETBYTE temp 0) (GETBYTE temp 3)
    (GETBYTE_range _ _) (GETBYTE_range _ _) (GETBYTE_range _ _) (GETBYTE_range _ _)) as (-> & -> & -> & ->).
  apply Z.lxor_assoc.
Qed.

Lemma chain_expanded Nk b m K :
  (1 <= Nk)%nat -> (Nk < m < 2 * Nk)%nat -> (Nk <= 6 \/ m <> Nk + 4)%nat -> (Nk * b + m < 60)%nat ->
  expanded user Nk (Nk * b + m) K -> expanded user Nk (S (Nk * b + m)) (chain K (Nk * b) Nk m).
Proof.
  intros HN Hm H4 Hlt He. unfold chain. apply expanded_set; [nia|done|done|].
  unfold next_key, at_key.
  assert ((Nk * b + m) mod Nk = m - Nk)%nat as ->.
  { replace (Nk * b + m)%nat with (m - Nk + (b + 1) * Nk)%nat by nia.
    rewrite Nat.Div0.mod_add. apply Nat.mod_small. lia. }
  rewrite (proj2 (Nat.eqb_neq (m - Nk) 0)) by lia.
  destruct (Nat.ltb_spec 6 Nk), (Nat.eqb_spec (m - Nk) 4); [lia|done..].
Qed.

Lemma sub_word_expanded b K :
  (8 * b + 12 < 60)%nat -> expanded user 8 (8 * b + 12) K ->
  expanded user 8 (S (8 * b + 12)) (set_key K (8 * b + 12) (Z.lxor (at_key K (8 * b + 4))
    (sub4 (GETBYTE (at_key K (8 * b + 11)) 3) (GETBYTE (at_key K (8 * b + 11)) 2)
       (GETBYTE (at_key K (8 * b + 11)) 1) (GETBYTE (at_key K (8 * b + 11)) 0)))).
Proof.
  intros Hlt He. apply expanded_set; [lia|done|done|]. unfold next_key, at_key.
  assert ((8 * b + 12) mod 8 = 4)%nat as ->.
  { replace (8 * b + 12)%nat with (4 + (b + 1) * 8)%nat by lia. by rewrite Nat.Div0.mod_add. }
  cbn [Nat.eqb Nat.ltb Nat.leb andb]. rewrite sub4_sbox by apply GETBYTE_range.
  replace (8 * b + 12 - 8)%nat with (8 * b + 4)%nat by lia.
  unfold SubWord. by replace (8 * b + 12 - 1)%nat with (8 * b + 11)%nat by lia.
Qed.

(** Chains the lemmas above along a group of stores. *)
Ltac solve_expanded :=
  repeat match goal with
  | |- expanded _ _ (?b + S ?m) (chain _ _ _ _) => replace (b + S m)%nat with (S (b + m)) by lia
  | |- expanded _ _ (S (_ + _)) (chain _ _ _ _) => apply chain_expanded; [lia|lia|lia|lia|]
  | |- expanded _ _ (?b + S ?m) (next_word _ _ _ _) => replace (b + S m)%nat with (S (b + m)) by lia
  | |- expanded _ _ (S (_ + _)) (next_word _ _ _ _) => apply next_word_expanded; [lia|lia|lia|]
  end; try assumption.

Lemma expand128_expanded k b K :
  (b + k < 10)%nat -> expanded user 4 (4 * b + 4) K -> expanded user 4 (4 * (b + k) + 8) (expand128 k b (4 * b) K).
Proof.
  revert b K. induction k as [|k IH]; intros b K Hb He; cbn [expand128].
  - rewrite Nat.add_0_r. solve_expanded.
  - replace (4 * b + 4)%nat with (4 * S b)%nat by lia.
    replace (b + S k)%nat with (S b + k)%nat by lia. apply IH; [lia|].
    replace (4 * S b + 4)%nat with (4 * b + 8)%nat by lia. solve_expanded.
Qed.

Lemma expand192_expanded k b K :
  (b + k < 8)%nat -> expanded user 6 (6 * b + 6) K -> expanded user 6 (6 * (b + k) + 10) (expand192 k b (6 * b) K).
Proof.
  revert b K. induction k as [|k IH]; intros b K Hb He; cbn [expand192].
  - rewrite Nat.add_0_r. solve_expanded.
  - replace (6 * b + 6)%nat with (6 * S b)%nat by lia.
    replace (b + S k)%nat with (S b + k)%nat by lia. apply IH; [lia|].
    replace (6 * S b + 6)%nat with (6 * b + 12)%nat by lia. solve_expanded.
Qed.

Lemma expand256_expanded k b K :
  (b + k < 7)%nat -> expanded user 8 (8 * b + 8) K -> expanded user 8 (8 * (b + k) + 12) (expand256 k b (8 * b) K).
Proof.
  revert b K. induction k as [|k IH]; intros b K Hb He; cbn [expand256].
  - rewrite Nat.add_0_r. solve_expanded.
  - replace (8 * b + 8)%nat with (8 * S b)%nat by lia.
    replace (b + S k)%nat with (S b + k)%nat by lia. apply IH; [lia|].
    replace (8 * S b + 8)%nat with (8 * b + 16)%nat by lia. solve_expanded.
    replace (8 * b + 13)%nat with (S (8 * b + 12)) by lia. apply sub_word_expanded; [lia|]. solve_expanded.
Qed.
End Expansion.

(** The words of a byte string, most significant byte first. *)
Fixpoint be_words (b : bytes) : list Z :=
  match b with
  | b0 :: b1 :: b2 :: b3 :: b => wb b0 b1 b2 b3 :: be_words b
  | _ => []
  end.

Lemma load_words_be m b : length b = (4 * m)%nat -> is_bytes b -> load_words b = be_words b.
Proof.
  revert b. induction m as [|m IH]; intros b Hl Hb.
  { destruct b; [done|]. cbn in Hl. lia. }
  destruct b as [|b0 [|b1 [|b2 [|b3 b]]]]; [cbn in Hl; lia..|]. cbn [length] in Hl.
  unfold is_bytes in Hb. rewrite !Forall_cons in Hb. destruct Hb as (H0 & H1 & H2 & H3 & Hb).
  cbn [load_words be_words]. rewrite load_reverse by done. f_equal. apply IH; [lia|done].
Qed.

(** The state of an input block and the output block of a state. *)
Definition fips_state (b : bytes) : state :=
  let w := be_words b in (w !!! 0%nat, w !!! 1%nat, w !!! 2%nat, w !!! 3%nat).
Definition fips_bytes (s : state) : bytes :=
  let '(s0, s1, s2, s3) := s in word_bytes s0 ++ word_bytes s1 ++ word_bytes s2 ++ word_bytes s3.

Lemma load_block_fips b : block b -> load_block b = fips_state b.
Proof.
  intros Hb. destruct (block_inv b Hb) as (b0 & b1 & b2 & b3 & b4 & b5 & b6 & b7 & b8 & b9 & b10 & b11
    & b12 & b13 & b14 & b15 & -> & (? & ? & ? & ?) & (? & ? & ? & ?) & (? & ? & ? & ?) & (? & ? & ? & ?)).
  unfold load_block. cbn [drop take]. rewrite !load_reverse by done. reflexivity.
Qed.

Lemma expand_expanded keylen n rk :
  key_len keylen n -> length rk = 60%nat ->
  expanded rk (Z.to_nat keylen / 4) (4 * n + 4) (expand keylen rk).
Proof.
  intros Hk Hl. assert (forall m, expanded rk m m rk) as H0 by (intros m; split_and!; [done|done|lia]).
  destruct Hk as [[-> ->]|[[-> ->]|[-> ->]]]; unfold expand; cbn [Z.eqb Pos.eqb].
  - apply (expand128_expanded rk 9 0); [lia|apply H0].
  - apply (expand192_expanded rk 7 0); [lia|apply H0].
  - apply (expand256_expanded rk 6 0); [lia|apply H0].
Qed.

Lemma AesEncrypt_cipher aes n b :
  good_rounds n -> aes_rounds aes = Z.of_nat n -> keys_ok (aes_key aes) -> block b ->
  AesEncrypt aes b = Some (fips_bytes (Cipher n (aes_key aes) (fips_state b))).
Proof.
  intros Hn Hr Hk Hb. rewrite (AesEncrypt_rounds aes n) by done. f_equal. unfold Cipher.
  rewrite load_block_fips by done.
  change 4%nat with (4 * 1)%nat at 2. rewrite te_rounds_fold, <-te_last_spec.
  assert (forall s, add_key (aes_key aes) s = AddRoundKey (aes_key aes) 0 s) as -> by done.
  match goal with |- store_block ?s = _ => assert (state_ok s) as Hs by by apply te_last_range end.
  destruct (te_last _ _ _) as [[[s0 s1] s2] s3]. by apply store_block_bytes.
Qed.

(** ** Chaining *)

(** CBC over a list of blocks. *)
Fixpoint cbc_enc (E : bytes -> bytes) (reg : bytes) (bs : list bytes) : list bytes :=
  match bs with
  | [] => []
  | b :: bs => let c := E (xorbuf reg b) in c :: cbc_enc E c bs
  end.
Fixpoint cbc_dec (D : bytes -> bytes) (reg : bytes) (cs : list bytes) : list bytes :=
  match cs with
  | [] => []
  | c :: cs => xorbuf (D c) reg :: cbc_dec D c cs
  end.

Lemma xorbuf_block a b : block a -> block b -> block (xorbuf a b).
Proof.
  intros [Ha Hba] [Hb Hbb]. unfold xorbuf. split; [by rewrite length_zip_with, Ha, Hb|].
  clear Ha Hb. unfold is_bytes in *. revert b Hbb. induction Hba as [|x a Hx Hba IH]; intros [|y b] Hbb; [by constructor..|].
  apply Forall_cons in Hbb as [Hy Hbb]. cbn [zip_with]. constructor; [by apply lxor_range|by apply IH].
Qed.

Lemma xorbuf_cancel a b : length a = length b -> xorbuf (xorbuf a b) a = b.
Proof.
  unfold xorbuf. revert b. induction a as [|x a IH]; intros [|y b] Hl; [done|done|done|].
  cbn [zip_with]. f_equal; [xor_ring|]. apply IH. cbn in Hl. lia.
Qed.

(** What holds of every encrypted block holds of the blocks of the chain. *)
Lemma cbc_enc_all (P : bytes -> Prop) E reg bs :
  (forall b, block b -> block (E b) /\ P (E b)) -> block reg -> Forall block bs ->
  length (cbc_enc E reg bs) = length bs /\ Forall block (cbc_enc E reg bs) /\ Forall P (cbc_enc E reg bs).
Proof.
  intros HE Hr Hbs. revert reg Hr. induction Hbs as [|b bs Hb Hbs IH]; intros reg Hr; [by split_and!; [|constructor..]|].
  cbn [cbc_enc length]. destruct (HE (xorbuf reg b)) as [Hc HP]; [by apply xorbuf_block|].
  destruct (IH _ Hc) as (Hl & H1 & H2). split_and!; [by rewrite Hl|by constructor..].
Qed.

Lemma cbc_dec_enc E D reg bs :
  (forall b, block b -> block (E b) /\ D (E b) = b) -> block reg -> Forall block bs ->
  cbc_dec D reg (cbc_enc E reg bs) = bs.
Proof.
  intros HE Hr Hbs. revert reg Hr. induction Hbs as [|b bs Hb Hbs IH]; intros reg Hr; [done|].
  cbn [cbc_enc cbc_dec]. destruct (HE (xorbuf reg b)) as [Hc ->]; [by apply xorbuf_block|].
  rewrite xorbuf_cancel by (destruct Hr, Hb; congruence). f_equal. by apply IH.
Qed.

(** The cipher of a schedule, as a function on blocks. *)
Definition enc_fn (K : list Z) (n : nat) (b : bytes) : bytes :=
  default b (AesEncrypt (mk_Aes K (Z.of_nat n) [] []) b).
Definition dec_fn (K : list Z) (n : nat) (b : bytes) : bytes :=
  default b (AesDecrypt (mk_Aes K (Z.of_nat n) [] []) b).

Lemma AesCbcEncrypt_spec K n bs reg tmp pre post :
  (forall b, block b -> block (enc_fn K n b)) -> block reg -> Forall block bs ->
  exists aes, AesCbcEncrypt (length bs) (mk_Aes K (Z.of_nat n) reg tmp) (pre ++ concat bs ++ post) None (zlen pre)
    = Ret (aes, pre ++ concat (cbc_enc (enc_fn K n) reg bs) ++ post).
Proof.
  intros HE Hr Hbs. revert reg pre Hr. induction Hbs as [|b bs Hb Hbs IH]; intros reg pre Hr; [by eexists|].
  cbn [length AesCbcEncrypt concat cbc_enc aes_reg aes_key aes_rounds aes_tmp]. rewrite <-!app_assoc.
  assert (zlen b = AES_BLOCK_SIZE) as Hz by (destruct Hb as [Hl _]; unfold zlen; by rewrite Hl).
  cbn [default]. rewrite (mem_read_app pre b) by done. cbn [mbind outcome_bind].
  change (default (xorbuf reg b) (AesEncrypt (mk_Aes K (Z.of_nat n) reg tmp) (xorbuf reg b)))
    with (enc_fn K n (xorbuf reg b)).
  assert (block (enc_fn K n (xorbuf reg b))) as Hc by by apply HE, xorbuf_block.
  set (c := enc_fn K n (xorbuf reg b)) in *.
  rewrite (mem_write_app pre b c) by (try done; destruct Hc, Hb; congruence). cbn [mbind outcome_bind].
  replace (zlen pre + AES_BLOCK_SIZE) with (zlen (pre ++ c))
    by (rewrite zlen_app; destruct Hc as [Hl _]; unfold zlen at 2; by rewrite Hl).
  destruct (IH c (pre ++ c) Hc) as [aes Ha]. rewrite <-!app_assoc in Ha. exists aes. exact Ha.
Qed.

(** The same with an input buffer of its own. *)
Lemma AesCbcEncrypt_apart K n bs os reg tmp pre post pre' post' :
  (forall b, block b -> block (enc_fn K n b)) -> block reg -> Forall block bs ->
  Forall (fun o => length o = 16%nat) os -> length os = length bs -> zlen pre' = zlen pre ->
  exists aes, AesCbcEncrypt (length bs) (mk_Aes K (Z.of_nat n) reg tmp) (pre' ++ concat os ++ post')
      (Some (pre ++ concat bs ++ post)) (zlen pre)
    = Ret (aes, pre' ++ concat (cbc_enc (enc_fn K n) reg bs) ++ post').
Proof.
  intros HE Hr Hbs. revert os reg pre pre' Hr. induction Hbs as [|b bs Hb Hbs IH]; intros os reg pre pre' Hr Hos Hlen Hpre.
  { destruct os; [by eexists|done]. }
  destruct os as [|o os]; [done|]. apply Forall_cons in Hos as [Ho Hos]. cbn in Hlen.
  cbn [length AesCbcEncrypt concat cbc_enc aes_reg aes_key aes_rounds aes_tmp]. rewrite <-!app_assoc.
  assert (forall x, block x -> zlen x = AES_BLOCK_SIZE) as Hz by (intros x [Hl _]; unfold zlen; by rewrite Hl).
  cbn [from_option]. change (id (pre ++ ?x)) with (pre ++ x). rewrite (mem_read_app pre b) by (try done; symmetry; by apply Hz). cbn [mbind outcome_bind].
  change (default (xorbuf reg b) (AesEncrypt (mk_Aes K (Z.of_nat n) reg tmp) (xorbuf reg b)))
    with (enc_fn K n (xorbuf reg b)).
  assert (block (enc_fn K n (xorbuf reg b))) as Hc by by apply HE, xorbuf_block.
  set (c := enc_fn K n (xorbuf reg b)) in *. rewrite <-Hpre.
  rewrite (mem_write_app pre' o c) by (try done; destruct Hc; congruence). cbn [mbind outcome_bind]. rewrite Hpre.
  replace (zlen pre + AES_BLOCK_SIZE) with (zlen (pre ++ b)) by by rewrite zlen_app, (Hz b Hb).
  destruct (IH os c (pre ++ b) (pre' ++ c) Hc Hos) as [aes Ha]; [lia|rewrite !zlen_app, (Hz b Hb), (Hz c Hc); lia|].
  rewrite <-!app_assoc in Ha. exists aes. exact Ha.
Qed.

Lemma AesCbcDecrypt_spec K n cs os reg tmp pre post pre' post' :
  Forall (fun c => exists p, AesDecrypt (mk_Aes K (Z.of_nat n) [] []) c = Some p /\ block p) cs ->
  block reg -> Forall block cs -> Forall (fun o => length o = 16%nat) os -> length os = length cs -> zlen pre' = zlen pre ->
  exists aes, AesCbcDecrypt (length cs) (mk_Aes K (Z.of_nat n) reg tmp) (pre' ++ concat os ++ post')
      (pre ++ concat cs ++ post) (zlen pre)
    = Ret (aes, pre' ++ concat (cbc_dec (dec_fn K n) reg cs) ++ post').
Proof.
  intros HD Hr Hcs. revert os reg tmp pre pre' Hr HD.
  induction Hcs as [|c cs Hc Hcs IH]; intros os reg tmp pre pre' Hr HD Hos Hlen Hpre.
  { destruct os; [by eexists|done]. }
  destruct os as [|o os]; [done|]. apply Forall_cons in Hos as [Ho Hos]. cbn in Hlen.
  cbn [length AesCbcDecrypt concat cbc_dec aes_reg aes_key aes_rounds aes_tmp]. rewrite <-!app_assoc.
  assert (forall x, block x -> zlen x = AES_BLOCK_SIZE) as Hz by (intros x [Hl _]; unfold zlen; by rewrite Hl).
  rewrite (mem_read_app pre c) by (try done; symmetry; by apply Hz). cbn [mbind outcome_bind].
  apply Forall_cons in HD as [(p & Hp & Hbp) HD].
  change (AesDecrypt (mk_Aes K (Z.of_nat n) reg tmp) c) with (AesDecrypt (mk_Aes K (Z.of_nat n) [] []) c).
  assert (dec_fn K n c = p) as -> by (unfold dec_fn; by rewrite Hp). rewrite Hp. rewrite <-Hpre.
  rewrite (mem_write_app pre' o p) by (try done; destruct Hbp; congruence). cbn [mbind outcome_bind].
  rewrite (mem_read_app pre' p) by (try done; symmetry; by apply Hz). cbn [mbind outcome_bind].
  assert (block (xorbuf p reg)) as Hx by by apply xorbuf_block.
  rewrite (mem_write_app pre' p (xorbuf p reg)) by (try done; destruct Hbp, Hx; congruence).
  cbn [mbind outcome_bind]. rewrite Hpre.
  replace (zlen pre + AES_BLOCK_SIZE) with (zlen (pre ++ c)) by by rewrite zlen_app, (Hz c Hc).
  destruct (IH os c c (pre ++ c) (pre' ++ xorbuf p reg) Hc HD Hos) as [aes Ha]; [lia| |].
  { rewrite !zlen_app, (Hz c Hc), (Hz _ Hx). lia. }
  rewrite <-!app_assoc in Ha. exists aes. exact Ha.
Qed.

(** Cutting a buffer into blocks. *)
Lemma cut_blocks m (data : bytes) :
  length data = (16 * m)%nat -> exists bs, data = concat bs /\ length bs = m /\
    Forall (fun b => length b = 16%nat) bs.
Proof.
  revert data. induction m as [|m IH]; intros data Hl.
  { destruct data; [|cbn in Hl; lia]. exists []. split_and!; [done|done|constructor]. }
  destruct (IH (drop 16 data)) as (bs & Hd & Hlen & Hb); [rewrite length_drop; lia|].
  exists (take 16 data :: bs). split_and!.
  - cbn [concat]. by rewrite <-Hd, take_drop.
  - cbn. lia.
  - constructor; [rewrite length_take; lia|done].
Qed.

Lemma concat_blocks_len bs : Forall block bs -> length (concat bs) = (16 * length bs)%nat.
Proof. induction 1 as [|b bs [Hl _] _ IH]; [done|]. cbn [concat length]. rewrite length_app, Hl, IH. lia. Qed.

Lemma blocks_of_bytes bs : is_bytes (concat bs) -> Forall (fun b => length b = 16%nat) bs -> Forall block bs.
Proof.
  unfold is_bytes. induction bs as [|b bs IH]; intros Hb Hl; [constructor|]. cbn [concat] in Hb.
  apply Forall_app in Hb as [? ?]. apply Forall_cons in Hl as [? ?]. constructor; [done|by apply IH].
Qed.

(** ** The exported functions *)

(** PKCS#7 padding of a text. *)
Definition pad_len (len : Z) : Z := 16 - len mod 16.
Definition padded (plain : bytes) : bytes :=
  plain ++ replicate (Z.to_nat (pad_len (zlen plain))) (pad_len (zlen plain)).

Lemma padded_bytes plain : is_bytes plain -> is_bytes (padded plain).
Proof.
  intros Hp. apply Forall_app. split; [done|]. apply Forall_replicate. unfold pad_len, in_range. dlia.
Qed.

Lemma padded_len plain : zlen (padded plain) = (zlen plain / 16 + 1) * 16.
Proof.
  unfold padded. rewrite zlen_app, zlen_replicate. pose proof (zlen_nonneg plain). unfold pad_len. dlia.
Qed.

(** The number of bytes that [aes_encrypt] stores. *)
Definition stores (len : Z) : Z := if len mod 16 =? 0 then len + 32 else (len / 16 + 1) * 16.

(** The buffer of [aes_encrypt] before the cipher runs: the padded text, and after a text
    of whole blocks sixteen bytes more. *)
Definition filled (plain out : bytes) : bytes :=
  padded plain ++ (if zlen plain mod 16 =? 0 then replicate 16 16 else [])
    ++ drop (Z.to_nat (stores (zlen plain))) out.

Lemma aes_encrypt_run junk enc key keyLength iv plain out maxOutLen :
  AesSetKey junk key keyLength (Some iv) AES_ENCRYPTION = Ret (enc, 0) ->
  (zlen plain / 16 + 1) * 16 <= maxOutLen -> stores (zlen plain) <= zlen out ->
  aes_encrypt junk key keyLength iv plain out maxOutLen =
    ('(_, out) ← AesCbcEncrypt (Z.to_nat (zlen plain / 16 + 1)) enc (filled plain out) None 0;
     Ret (out, (zlen plain / 16 + 1) * 16)).
Proof.
  intros Hk Hmax Hlen. pose proof (zlen_nonneg plain). unfold aes_encrypt. rewrite Hk.
  cbn [mbind outcome_bind]. change AES_BLOCK_SIZE with 16. unfold stores in Hlen.
  assert (zlen plain <= zlen out) as Hle by (destruct (Z.eqb_spec (zlen plain mod 16) 0); dlia).
  unfold filled, padded, pad_len, stores. destruct (Z.eqb_spec (zlen plain mod 16) 0) as [E|E].
  - rewrite (proj2 (Z.eqb_eq (zlen plain) _)) by dlia. cbn [negb].
    rewrite (proj2 (Z.ltb_ge maxOutLen _)) by dlia.
    rewrite mem_write_0 by lia. cbn [mbind outcome_bind]. rewrite Z.sub_diag. cbn [Z.ltb Z.compare].
    replace (zlen plain + 16 + 16 - zlen plain) with 32 by lia.
    rewrite mem_fill_app by (autorewrite with zlen; fold (zlen plain); lia). cbn [mbind outcome_bind].
    rewrite E, Z.sub_0_r. cbn [Z.eqb].
    replace ((zlen plain + 16) / 16) with (zlen plain / 16 + 1) by dlia.
    replace (zlen plain + 16) with ((zlen plain / 16 + 1) * 16) by dlia.
    rewrite drop_drop, <-!app_assoc.
    by replace (length plain + Z.to_nat 32)%nat with (Z.to_nat (zlen plain + 32)) by (unfold zlen; lia).
  - rewrite (proj2 (Z.eqb_neq (zlen plain) _)) by dlia. cbn [negb].
    rewrite (proj2 (Z.ltb_ge maxOutLen _)) by dlia.
    rewrite mem_write_0 by lia. cbn [mbind outcome_bind].
    rewrite (proj2 (Z.ltb_lt 0 _)) by dlia.
    replace ((zlen plain / 16 + 1) * 16 - zlen plain) with (16 - zlen plain mod 16) by dlia.
    rewrite mem_fill_app by (autorewrite with zlen; fold (zlen plain); dlia). cbn [mbind outcome_bind].
    replace ((zlen plain / 16 + 1) * 16 / 16) with (zlen plain / 16 + 1) by dlia.
    rewrite u8_small by dlia. rewrite drop_drop, <-!app_assoc.
    by replace (length plain + Z.to_nat (16 - zlen plain mod 16))%nat
      with (Z.to_nat ((zlen plain / 16 + 1) * 16)) by (unfold zlen in *; dlia).
Qed.

(** [aes_encrypt] of a text whose padded form is the blocks [bs]. *)
Lemma aes_encrypt_blocks junk K n key keyLength iv plain out maxOutLen bs :
  AesSetKey junk key keyLength (Some iv) AES_ENCRYPTION = Ret (mk_Aes K (Z.of_nat n) (take 16 iv) (aes_tmp junk), 0) ->
  (forall b, block b -> block (enc_fn K n b)) -> block (take 16 iv) -> Forall block bs ->
  padded plain = concat bs -> length bs = Z.to_nat (zlen plain / 16 + 1) ->
  (zlen plain / 16 + 1) * 16 <= maxOutLen -> stores (zlen plain) <= zlen out ->
  exists post, aes_encrypt junk key keyLength iv plain out maxOutLen =
    Ret (concat (cbc_enc (enc_fn K n) (take 16 iv) bs) ++ post, (zlen plain / 16 + 1) * 16).
Proof.
  intros Hk HE Hreg Hbs Hpad Hlen Hmax Hout.
  rewrite (aes_encrypt_run junk _ key keyLength iv plain out maxOutLen Hk Hmax Hout).
  unfold filled. rewrite Hpad, <-Hlen.
  match goal with |- context [concat bs ++ ?p] =>
    destruct (AesCbcEncrypt_spec K n bs (take 16 iv) (aes_tmp junk) [] p HE Hreg Hbs) as [aes He]; exists p end.
  cbn [app] in He. change (zlen []) with 0 in He. rewrite He. done.
Qed.

(** [aes_decrypt] of the blocks [cs], which decrypt to the blocks of a padded text. *)
Lemma aes_decrypt_blocks junk K n key keyLength iv cs plain out maxOutLen :
  AesSetKey junk key keyLength (Some iv) AES_DECRYPTION = Ret (mk_Aes K (Z.of_nat n) (take 16 iv) (aes_tmp junk), 0) ->
  Forall (fun c => exists p, AesDecrypt (mk_Aes K (Z.of_nat n) [] []) c = Some p /\ block p) cs ->
  block (take 16 iv) -> Forall block cs ->
  concat (cbc_dec (dec_fn K n) (take 16 iv) cs) = padded plain -> length cs = Z.to_nat (zlen plain / 16 + 1) ->
  16 * zlen cs <= maxOutLen -> 16 * zlen cs <= zlen out ->
  exists post, aes_decrypt junk key keyLength iv (concat cs) out maxOutLen = Ret (plain ++ post, zlen plain).
Proof.
  intros Hk HD Hreg Hcs Hplain Hlen Hmax Hout. pose proof (zlen_nonneg plain) as Hp0.
  assert (zlen (concat cs) = 16 * zlen cs) as Hz by (unfold zlen; rewrite concat_blocks_len by done; lia).
  destruct (cut_blocks (length cs) (take (16 * length cs) out)) as (os & Hos & Hol & Ho16).
  { rewrite length_take. unfold zlen in Hout. lia. }
  destruct (AesCbcDecrypt_spec K n cs os (take 16 iv) (aes_tmp junk) [] [] [] (drop (16 * length cs) out)
    HD Hreg Hcs Ho16 Hol eq_refl) as [aes Hdec].
  cbn [app] in Hdec. rewrite app_nil_r, <-Hos, take_drop in Hdec. change (zlen []) with 0 in Hdec.
  unfold aes_decrypt. rewrite Hz, (proj2 (Z.ltb_ge _ _)) by lia. rewrite Hk. cbn [mbind outcome_bind].
  change (0 =? 0) with true. cbn [negb andb]. change AES_BLOCK_SIZE with 16.
  replace (Z.to_nat (16 * zlen cs / 16)) with (length cs) by (unfold zlen; dlia). rewrite Hdec.
  cbn [mbind outcome_bind]. rewrite Hplain.
  assert (16 * zlen cs = zlen plain + pad_len (zlen plain)) as Hsz.
  { unfold zlen at 1. rewrite Hlen. unfold pad_len. dlia. }
  rewrite (mem_get_ok _ _ (pad_len (zlen plain))).
  - cbn [mbind outcome_bind]. unfold padded. rewrite <-app_assoc. eexists. do 2 f_equal. lia.
  - unfold pad_len in Hsz. dlia.
  - rewrite lookup_app_l.
    + unfold padded. rewrite lookup_app_r by (unfold pad_len, zlen in *; dlia).
      apply lookup_replicate_2. unfold pad_len, zlen in *. dlia.
    + pose proof (padded_len plain) as Hpl. unfold pad_len, zlen in *. dlia.
Qed.

(** ** Claims *)

(** A structure with junk in it, as an uninitialised automatic variable has. *)
Definition demo_junk : Aes := mk_Aes (replicate 60 0xdeadbeef) 77 (replicate 16 1) (replicate 16 2).

Lemma demo_junk_ok : keys_ok (aes_key demo_junk).
Proof. split; [done|]. apply Forall_replicate. by vm_compute. Qed.

(** C12: [AesSetKey] followed by [AesEncrypt] is AES as FIPS-197 defines it, for keys of 128,
    192 and 256 bits: the key array holds the words of KeyExpansion, and the block stored
    is the one that Cipher (SubBytes, ShiftRows, MixColumns and AddRoundKey over GF(2^8))
    makes of the input block. *)
Theorem aes_block_is_fips197 junk key keylen n iv b :
  key_len keylen n -> keys_ok (aes_key junk) -> is_bytes key -> keylen <= zlen key -> 16 <= zlen iv ->
  block b ->
  exists aes, AesSetKey junk key keylen (Some iv) AES_ENCRYPTION = Ret (aes, 0) /\
    expanded (be_words (take (Z.to_nat keylen) key)) (Z.to_nat keylen / 4) (4 * n + 4) (aes_key aes) /\
    AesEncrypt aes b = Some (fips_bytes (Cipher n (aes_key aes) (fips_state b))).
Proof.
  intros Hk Hj Hb Hl Hiv Hbl. destruct (key_len_words _ _ Hk) as (Hq & Hq8 & Hk0).
  destruct (AesSetKey_spec junk key keylen n iv AES_ENCRYPTION Hk Hj Hb Hl Hiv) as [Hok He].
  set (user := take (Z.to_nat keylen) key) in *.
  assert (length user = (4 * (Z.to_nat keylen / 4))%nat) as Hul
    by (unfold user; rewrite length_take; unfold zlen in Hl; lia).
  assert (is_bytes user) as Hub by by apply Forall_take.
  eexists. split_and!; [exact He| |].
  - cbn [aes_key]. destruct (expand_expanded keylen n _ Hk (proj1 Hok)) as (He1 & He2 & He3).
    split_and!; [done| |done]. intros i Hi. rewrite He2 by done.
    rewrite <-(load_words_be _ _ Hul Hub). rewrite !list_lookup_total_alt, lookup_app_l; [done|].
    destruct (load_words_spec _ _ Hul Hub) as [-> _]. done.
  - apply AesEncrypt_cipher; [|done|by apply expand_ok|done].
    unfold good_rounds. destruct Hk as [[_ ->]|[[_ ->]|[_ ->]]]; auto.
Qed.

Lemma aes_block_is_fips197_witness :
  exists aes, AesSetKey demo_junk (zrange 32) 32 (Some (replicate 16 0)) AES_ENCRYPTION = Ret (aes, 0) /\
    expanded (be_words (take (Z.to_nat 32) (zrange 32))) (Z.to_nat 32 / 4) (4 * 14 + 4) (aes_key aes) /\
    AesEncrypt aes (zrange 16) = Some (fips_bytes (Cipher 14 (aes_key aes) (fips_state (zrange 16)))).
Proof.
  apply (aes_block_is_fips197 demo_junk (zrange 32) 32 14 (replicate 16 0) (zrange 16)).
  - right. right. split; reflexivity.
  - exact demo_junk_ok.
  - repeat constructor; by vm_compute.
  - by vm_compute.
  - by vm_compute.
  - split; [reflexivity|]. repeat constructor; by vm_compute.
Defined.

(** C32: with an output buffer that has room for what [aes_encrypt] stores, it returns the
    length of the text padded to whole blocks, and [aes_decrypt] with the same key and
    initialization vector returns the length of the text and restores the text,
    whatever the uninitialised structures on the stack held. *)
Theorem aes_roundtrip junk junk' key keyLength n iv plain out maxOutLen out2 maxOutLen2 :
  key_len keyLength n -> keys_ok (aes_key junk) -> keys_ok (aes_key junk') ->
  is_bytes key -> keyLength <= zlen key -> is_bytes iv -> 16 <= zlen iv ->
  is_bytes plain -> zlen plain < 2 ^ 30 ->
  zlen plain + 16 <= maxOutLen -> zlen plain + 32 <= zlen out ->
  zlen plain + 16 <= maxOutLen2 -> zlen plain + 16 <= zlen out2 ->
  exists out' len out2', aes_encrypt junk key keyLength iv plain out maxOutLen = Ret (out', len) /\
    len = (zlen plain / 16 + 1) * 16 /\
    aes_decrypt junk' key keyLength iv (take (Z.to_nat len) out') out2 maxOutLen2 = Ret (out2', zlen plain) /\
    take (length plain) out2' = plain.
Proof.
  intros Hk Hj Hj' Hb Hl Hbiv Hiv Hbp _ Hmax Hout Hmax2 Hout2. pose proof (zlen_nonneg plain) as Hp0.
  destruct (schedules_match junk junk' key keyLength n iv Hk Hj Hj' Hb Hl Hiv) as (K & DK & HK & HDK & He & Hd).
  assert (good_rounds n) as Hn by (unfold good_rounds; destruct Hk as [[_ ->]|[[_ ->]|[_ ->]]]; auto).
  assert (block (take 16 iv)) as Hreg.
  { split; [rewrite length_take; unfold zlen in Hiv; lia|by apply Forall_take]. }
  assert (forall b, block b -> block (enc_fn K n b) /\
    AesDecrypt (mk_Aes DK (Z.of_nat n) [] []) (enc_fn K n b) = Some b) as Hinv.
  { intros b Hbb. destruct (decrypt_encrypt_block K DK n [] [] [] [] b Hn HK HDK Hbb) as (c & Hc & Hbc & Hdc).
    unfold enc_fn. by rewrite Hc. }
  destruct (cut_blocks (Z.to_nat (zlen plain / 16 + 1)) (padded plain)) as (bs & Hpad & Hbl & Hb16).
  { pose proof (padded_len plain) as H. unfold zlen at 1 in H. dlia. }
  assert (Forall block bs) as Hbs by (apply blocks_of_bytes; [rewrite <-Hpad; by apply padded_bytes|done]).
  destruct (aes_encrypt_blocks junk K n key keyLength iv plain out maxOutLen bs) as [post Henc];
    try done; [intros; by apply Hinv|dlia|unfold stores; case_match; dlia|].
  set (cs := cbc_enc (enc_fn K n) (take 16 iv) bs) in *.
  destruct (cbc_enc_all (fun c => exists p, AesDecrypt (mk_Aes DK (Z.of_nat n) [] []) c = Some p /\ block p)
    (enc_fn K n) (take 16 iv) bs) as (Hlc & Hcs & HD); try done.
  { intros b Hbb. destruct (Hinv b Hbb) as [? ?]. eauto. }
  fold cs in Hlc, Hcs, HD. assert (zlen cs = zlen plain / 16 + 1) as Hzc by (unfold zlen at 1; dlia).
  destruct (aes_decrypt_blocks junk' DK n key keyLength iv cs plain out2 maxOutLen2) as [post2 Hdec];
    try done; [|by rewrite Hlc|rewrite Hzc; dlia|rewrite Hzc; dlia|].
  { unfold cs. rewrite cbc_dec_enc; [done| |done|done]. intros b Hbb. destruct (Hinv b Hbb) as [? Hdb].
    split; [done|]. unfold dec_fn. by rewrite Hdb. }
  eexists _, _, _. split_and!; [exact Henc|reflexivity| |apply take_app_length].
  rewrite take_app_length'; [exact Hdec|]. rewrite concat_blocks_len by done. unfold zlen in Hzc. dlia.
Qed.

Lemma aes_roundtrip_witness :
  exists out' len out2', aes_encrypt demo_junk (zrange 16) 16 (replicate 16 7) [1; 2; 3] (replicate 35 0) 19 = Ret (out', len) /\
    len = (zlen [1; 2; 3] / 16 + 1) * 16 /\
    aes_decrypt demo_junk (zrange 16) 16 (replicate 16 7) (take (Z.to_nat len) out') (replicate 19 0) 19
      = Ret (out2', zlen [1; 2; 3]) /\
    take (length [1; 2; 3]) out2' = [1; 2; 3].
Proof.
  apply (aes_roundtrip demo_junk demo_junk (zrange 16) 16 10).
  - left. split; reflexivity.
  - exact demo_junk_ok.
  - exact demo_junk_ok.
  - repeat constructor; by vm_compute.
  - by vm_compute.
  - apply Forall_replicate. by vm_compute.
  - by vm_compute.
  - repeat constructor; by vm_compute.
  - by vm_compute.
  - by vm_compute.
  - by vm_compute.
  - by vm_compute.
  - by vm_compute.
Defined.

(** a text of whole blocks makes [aes_encrypt] store 32 bytes of padding although its
    check only asks for room for the text: with an output buffer of [maxOutLen] bytes
    that passes the check, and even has room for the block of padding that is returned,
    the padding loop writes outside the buffer. *)
Theorem aes_encrypt_padding_overflow junk key keyLength n iv plain out :
  key_len keyLength n -> keys_ok (aes_key junk) -> is_bytes key -> keyLength <= zlen key -> 16 <= zlen iv ->
  zlen plain mod 16 = 0 -> zlen plain <= zlen out < zlen plain + 32 ->
  aes_encrypt junk key keyLength iv plain out (zlen out) = Undef.
Proof.
  intros Hk Hj Hb Hl Hiv Hm Hout. unfold aes_encrypt.
  destruct (AesSetKey_spec junk key keyLength n iv AES_ENCRYPTION Hk Hj Hb Hl Hiv) as [_ ->].
  cbn [mbind outcome_bind]. change AES_BLOCK_SIZE with 16.
  rewrite (proj2 (Z.eqb_eq (zlen plain) _)) by dlia. cbn [negb].
  rewrite (proj2 (Z.ltb_ge (zlen out) _)) by lia. rewrite mem_write_0 by lia. cbn [mbind outcome_bind].
  rewrite Z.sub_diag. cbn [Z.ltb Z.compare]. unfold mem_fill, mem_write.
  rewrite (proj2 (Z.leb_le 0 _)) by lia. rewrite (proj2 (Z.leb_gt (_ + _) _)).
  - by rewrite andb_false_r.
  - autorewrite with zlen. fold (zlen plain). pose proof (zlen_nonneg plain). lia.
Qed.

Lemma aes_encrypt_padding_overflow_witness :
  aes_encrypt demo_junk (zrange 16) 16 (replicate 16 7) (replicate 16 9) (replicate 32 0) (zlen (replicate 32 0)) = Undef.
Proof.
  apply (aes_encrypt_padding_overflow demo_junk (zrange 16) 16 10).
  - left. split; reflexivity.
  - exact demo_junk_ok.
  - repeat constructor; by vm_compute.
  - by vm_compute.
  - by vm_compute.
  - by vm_compute.
  - split; by vm_compute.
Defined.

(** a key length other than 16, 24 and 32 is refused by [AesSetKey], which leaves the
    structure as it is, but [aes_encrypt] does not look at the answer: it goes on with
    rounds that were never set. *)
Theorem aes_encrypt_ignores_key_error junk key keyLength iv plain out maxOutLen :
  keyLength <> 16 -> keyLength <> 24 -> keyLength <> 32 ->
  zlen plain + 16 <= maxOutLen -> zlen plain + 32 <= zlen out ->
  AesSetKey junk key keyLength (Some iv) AES_ENCRYPTION = Ret (junk, BAD_FUNC_ARG) /\
  aes_encrypt junk key keyLength iv plain out maxOutLen = Undef.
Proof.
  intros H1 H2 H3 Hmax Hout.
  assert (AesSetKey junk key keyLength (Some iv) AES_ENCRYPTION = Ret (junk, BAD_FUNC_ARG)) as Hk.
  { unfold AesSetKey. by rewrite !(proj2 (Z.eqb_neq _ _)) by done. }
  split; [exact Hk|]. unfold aes_encrypt. rewrite Hk. cbn [mbind outcome_bind].
  change AES_BLOCK_SIZE with 16. pose proof (zlen_nonneg plain).
  destruct (Z.eqb_spec (zlen plain) (zlen plain / 16 * 16)) as [E|E]; cbn [negb].
  - rewrite (proj2 (Z.ltb_ge maxOutLen _)) by lia. rewrite mem_write_0 by lia. cbn [mbind outcome_bind].
    rewrite Z.sub_diag. cbn [Z.ltb Z.compare].
    rewrite mem_fill_app by (autorewrite with zlen; fold (zlen plain); lia). done.
  - rewrite (proj2 (Z.ltb_ge maxOutLen _)) by dlia. rewrite mem_write_0 by lia. cbn [mbind outcome_bind].
    rewrite (proj2 (Z.ltb_lt 0 _)) by dlia.
    rewrite mem_fill_app by (autorewrite with zlen; fold (zlen plain); dlia). done.
Qed.

Lemma aes_encrypt_ignores_key_error_witness :
  AesSetKey demo_junk [1; 2] 2 (Some []) AES_ENCRYPTION = Ret (demo_junk, BAD_FUNC_ARG) /\
  aes_encrypt demo_junk [1; 2] 2 [] [5] (replicate 33 0) 33 = Undef.
Proof. apply aes_encrypt_ignores_key_error; by vm_compute. Defined.
