(* ===== verification/DhcpMsg.v ===== *)
(** DHCP messages: src/dhcpc/dhcpmsg.c, [decode_dhcp_msg] and [is_valid_reply] of
    src/dhcpc/dhcpclient.c, and the netmask functions of src/dhcpc/ifc_utils.c.

    [struct dhcp_msg] has no padding, so a message is the list of its 1260 bytes and a
    field is read and written at its offset, in the byte order of the (little-endian)
    machine.  Addresses stay in network order, as in the code. *)

From S2P Require Import Prelude.

(** ** Byte order *)

Definition le16 (b : bytes) : Z := match b with [b0; b1] => b0 + 256 * b1 | _ => 0 end.
Definition be16 (b : bytes) : Z := match b with [b0; b1] => 256 * b0 + b1 | _ => 0 end.
Definition le32 (b : bytes) : Z :=
  match b with [b0; b1; b2; b3] => b0 + 256 * b1 + 65536 * b2 + 16777216 * b3 | _ => 0 end.
Definition bytes16 (w : Z) : bytes := [u8 w; u8 (w ≫ 8)].
Definition bytes32 (w : Z) : bytes := [u8 w; u8 (w ≫ 8); u8 (w ≫ 16); u8 (w ≫ 24)].

(** [ntohl] and [htonl] on the little-endian machine. *)
Definition ntohl (w : Z) : Z :=
  Z.lor (Z.lor (Z.lor (u8 w ≪ 24) (u8 (w ≫ 8) ≪ 16)) (u8 (w ≫ 16) ≪ 8)) (u8 (w ≫ 24)).
Definition htonl (w : Z) : Z := ntohl w.

(** ** Netmasks *)

Definition prefixLengthToIpv4Netmask (prefix_length : Z) : Z :=
  if (prefix_length <=? 0) || (32 <? prefix_length) then 0
  else htonl (u32 (u32 (Z.lnot 0) ≪ (32 - prefix_length))).

(** The loop [while (m & 0x80000000)]; [m] is a 32-bit word, so it shifts at most 32 times. *)
Fixpoint mask_loop (fuel : nat) (m prefixLength : Z) : outcome Z :=
  if Z.land m 0x80000000 =? 0 then Ret prefixLength
  else match fuel with
       | O => Undef
       | S fuel => mask_loop fuel (u32 (m ≪ 1)) (prefixLength + 1)
       end.

Definition ipv4NetmaskToPrefixLength (mask : Z) : outcome Z := mask_loop 32 (ntohl mask) 0.

(** ** Message layout *)

Definition OP_BOOTREQUEST : Z := 1.
Definition OP_BOOTREPLY : Z := 2.
Definition HTYPE_ETHER : Z := 1.
Definition DHCP_MSG_FIXED_SIZE : Z := 236.
Definition sizeof_dhcp_msg : Z := 1260.

Definition OPT_PAD : Z := 0.
Definition OPT_SUBNET_MASK : Z := 1.
Definition OPT_GATEWAY : Z := 3.
Definition OPT_DNS : Z := 6.
Definition OPT_BROADCAST_ADDR : Z := 28.
Definition OPT_REQUESTED_IP : Z := 50.
Definition OPT_LEASE_TIME : Z := 51.
Definition OPT_MESSAGE_TYPE : Z := 53.
Definition OPT_SERVER_ID : Z := 54.
Definition OPT_PARAMETER_LIST : Z := 55.
Definition OPT_END : Z := 255.

Definition DHCPDISCOVER : Z := 1.
Definition DHCPOFFER : Z := 2.
Definition DHCPREQUEST : Z := 3.
Definition DHCPACK : Z := 5.
Definition DHCPNAK : Z := 6.

(** A message in memory; [field msg off n] reads a member. *)
Definition dhcp_msg : Type := bytes.
Definition field (msg : dhcp_msg) (off n : nat) : bytes := take n (drop off msg).

Definition msg_op (msg : dhcp_msg) : Z := msg !!! 0%nat.
Definition msg_htype (msg : dhcp_msg) : Z := msg !!! 1%nat.
Definition msg_hlen (msg : dhcp_msg) : Z := msg !!! 2%nat.
Definition msg_xid (msg : dhcp_msg) : Z := le32 (field msg 4 4).
Definition msg_yiaddr (msg : dhcp_msg) : Z := le32 (field msg 16 4).
Definition msg_chaddr (msg : dhcp_msg) : bytes := field msg 28 16.
Definition msg_options (msg : dhcp_msg) : bytes := field msg 236 1024.

(** A store of a member: all offsets and lengths are within the structure. *)
Definition store (msg : dhcp_msg) (off : nat) (data : bytes) : dhcp_msg :=
  take off msg ++ data ++ drop (off + length data) msg.

(** ** Building messages *)

(** [init_dhcp_msg]: the message and the number of option bytes written. *)
Definition init_dhcp_msg (type : Z) (hwaddr : bytes) (xid : Z) : dhcp_msg * nat :=
  let msg := replicate (Z.to_nat sizeof_dhcp_msg) 0 in
  let msg := store msg 0 [OP_BOOTREQUEST] in
  let msg := store msg 1 [HTYPE_ETHER] in
  let msg := store msg 2 [6] in
  let msg := store msg 3 [0] in
  let msg := store msg 10 [0x80; 0x00] in
  let msg := store msg 4 (bytes32 xid) in
  let msg := store msg 28 (take 6 hwaddr) in
  let msg := store msg 236 [0x63; 0x82; 0x53; 0x63; OPT_MESSAGE_TYPE; 1; u8 type] in
  (msg, 7%nat).

Definition parameter_list : bytes :=
  [OPT_PARAMETER_LIST; 4; OPT_SUBNET_MASK; OPT_GATEWAY; OPT_DNS; OPT_BROADCAST_ADDR].

Definition init_dhcp_discover_msg (hwaddr : bytes) (xid : Z) : dhcp_msg * Z :=
  let '(msg, x) := init_dhcp_msg DHCPDISCOVER hwaddr xid in
  let opts := parameter_list ++ [OPT_END] in
  (store msg (236 + x) opts, DHCP_MSG_FIXED_SIZE + (Z.of_nat x + zlen opts)).

Definition init_dhcp_request_msg (hwaddr : bytes) (xid ipaddr serveraddr : Z) : dhcp_msg * Z :=
  let '(msg, x) := init_dhcp_msg DHCPREQUEST hwaddr xid in
  let opts := parameter_list ++ [OPT_REQUESTED_IP; 4] ++ bytes32 ipaddr
                ++ [OPT_SERVER_ID; 4] ++ bytes32 serveraddr ++ [OPT_END] in
  (store msg (236 + x) opts, DHCP_MSG_FIXED_SIZE + (Z.of_nat x + zlen opts)).

(** ** Reading messages *)

Record dhcp_info := mk_info {
  type : Z;
  ipaddr : Z;
  gateway : Z;
  prefixLength : Z;
  dns1 : Z;
  dns2 : Z;
  serveraddr : Z;
  lease : Z
}.

#[export] Instance dhcp_info_eq_dec : EqDecision dhcp_info.
Proof. solve_decision. Defined.

Definition no_info : dhcp_info := mk_info 0 0 0 0 0 0 0 0.

Definition set_type v i := mk_info v (ipaddr i) (gateway i) (prefixLength i) (dns1 i) (dns2 i) (serveraddr i) (lease i).
Definition set_ipaddr v i := mk_info (type i) v (gateway i) (prefixLength i) (dns1 i) (dns2 i) (serveraddr i) (lease i).
Definition set_gateway v i := mk_info (type i) (ipaddr i) v (prefixLength i) (dns1 i) (dns2 i) (serveraddr i) (lease i).
Definition set_prefix v i := mk_info (type i) (ipaddr i) (gateway i) v (dns1 i) (dns2 i) (serveraddr i) (lease i).
Definition set_dns1 v i := mk_info (type i) (ipaddr i) (gateway i) (prefixLength i) v (dns2 i) (serveraddr i) (lease i).
Definition set_dns2 v i := mk_info (type i) (ipaddr i) (gateway i) (prefixLength i) (dns1 i) v (serveraddr i) (lease i).
Definition set_server v i := mk_info (type i) (ipaddr i) (gateway i) (prefixLength i) (dns1 i) (dns2 i) v (lease i).
Definition set_lease v i := mk_info (type i) (ipaddr i) (gateway i) (prefixLength i) (dns1 i) (dns2 i) (serveraddr i) v.

(** The [switch(opt)]; [x] is the position of the option's data in [options]. *)
Definition decode_option (options : bytes) (opt x optlen : Z) (info : dhcp_info) : outcome dhcp_info :=
  if opt =? OPT_SUBNET_MASK then
    if 4 <=? optlen then
      mask ← mem_read options x 4;
      p ← ipv4NetmaskToPrefixLength (le32 mask);
      Ret (set_prefix (u32 p) info)
    else Ret info
  else if opt =? OPT_GATEWAY then
    if 4 <=? optlen then b ← mem_read options x 4; Ret (set_gateway (le32 b) info) else Ret info
  else if opt =? OPT_DNS then
    info ← (if 4 <=? optlen then b ← mem_read options x 4; Ret (set_dns1 (le32 b) info) else Ret info);
    if 8 <=? optlen then b ← mem_read options (x + 4) 4; Ret (set_dns2 (le32 b) info) else Ret info
  else if opt =? OPT_LEASE_TIME then
    if 4 <=? optlen then b ← mem_read options x 4; Ret (set_lease (ntohl (le32 b)) info) else Ret info
  else if opt =? OPT_SERVER_ID then
    if 4 <=? optlen then b ← mem_read options x 4; Ret (set_server (le32 b) info) else Ret info
  else if opt =? OPT_MESSAGE_TYPE then
    b ← mem_get options x; Ret (set_type b info)
  else Ret info.

(** The loop [while (len > 2)]; each iteration takes at least one byte off [len]. *)
Fixpoint decode_loop (fuel : nat) (options : bytes) (x len : Z) (info : dhcp_info) : outcome dhcp_info :=
  if len <=? 2 then Ret info else
  match fuel with
  | O => Undef
  | S fuel =>
      opt ← mem_get options x;
      if opt =? OPT_PAD then decode_loop fuel options (x + 1) (len - 1) info
      else if opt =? OPT_END then Ret info
      else
        optlen ← mem_get options (x + 1);
        let len := len - 2 in
        if len <? optlen then Ret info
        else
          info ← decode_option options opt (x + 2) optlen info;
          decode_loop fuel options (x + 2 + optlen) (len - optlen) info
  end.

(** [decode_dhcp_msg]: what is left in [*info], and the returned value. *)
Definition decode_dhcp_msg (msg : dhcp_msg) (len : Z) : outcome (dhcp_info * Z) :=
  let info := no_info in
  if len <? DHCP_MSG_FIXED_SIZE + 4 then Ret (info, -1) else
  let len := len - (DHCP_MSG_FIXED_SIZE + 4) in
  let options := msg_options msg in
  if negb (bool_decide (take 4 options = [0x63; 0x82; 0x53; 0x63])) then Ret (info, -1) else
  info ← decode_loop (Z.to_nat len) options 4 len info;
  Ret (set_ipaddr (msg_yiaddr msg) info, 0).

(** [is_valid_reply] *)
Definition is_valid_reply (msg reply : dhcp_msg) (sz : Z) : bool :=
  if sz <? DHCP_MSG_FIXED_SIZE then false
  else if negb (msg_op reply =? OP_BOOTREPLY) then false
  else if negb (msg_xid reply =? msg_xid msg) then false
  else if negb (msg_htype reply =? msg_htype msg) then false
  else if negb (msg_hlen reply =? msg_hlen msg) then false
  else bool_decide (take (Z.to_nat (msg_hlen msg)) (msg_chaddr msg)
                    = take (Z.to_nat (msg_hlen msg)) (msg_chaddr reply)).
