(* ===== verification/DhcpMsgSpec.v ===== *)
(** Properties of the DHCP messages ([DhcpMsg]): netmasks, the safety of the option parser,
    the reading of well-formed options, and the messages that the client builds. *)

From S2P Require Import Prelude DhcpMsg.

(** ** Netmasks *)

Lemma land_top m : is_u32 m -> (Z.land m 0x80000000 =? 0) = negb (Z.testbit m 31).
Proof.
  intros Hm. change 0x80000000 with (2 ^ 31). destruct (Z.testbit m 31) eqn:E; cbn [negb].
  - apply Z.eqb_neq. intros H0. assert (Z.testbit (Z.land m (2 ^ 31)) 31 = false) as Hb by by rewrite H0.
    rewrite Z.land_spec, E, Z.pow2_bits_true in Hb by lia. done.
  - apply Z.eqb_eq, Z.bits_inj'. intros i Hi. rewrite Z.land_spec, Z.bits_0.
    destruct (decide (i = 31)) as [->|Hne]; [by rewrite E|].
    rewrite Z.pow2_bits_false by lia. apply andb_false_r.
Qed.

(** The loop counts the leading ones of the mask. *)
Lemma mask_loop_spec fuel m k :
  is_u32 m -> (fuel + k = 32)%nat -> (forall i, 0 <= i < Z.of_nat k -> Z.testbit m (31 - i) = true) ->
  exists p, mask_loop fuel (u32 (m ≪ Z.of_nat k)) (Z.of_nat k) = Ret p /\ Z.of_nat k <= p <= 32 /\
    (forall i, 0 <= i < p -> Z.testbit m (31 - i) = true) /\ (p < 32 -> Z.testbit m (31 - p) = false).
Proof.
  intros Hm. revert k. induction fuel as [|fuel IH]; intros k Hk Hones; cbn [mask_loop];
    rewrite land_top by (apply wrap_range; lia); unfold u32, wrap;
    rewrite Z.mod_pow2_bits_low, Z.shiftl_spec by lia.
  - rewrite (Z.testbit_neg_r m) by lia. cbn [negb]. exists (Z.of_nat k). split_and!; [done|lia|lia|done|lia].
  - destruct (Z.testbit m (31 - Z.of_nat k)) eqn:E; cbn [negb].
    + destruct (IH (S k) ltac:(lia)) as (p & Hp & Hr & H1 & H2).
      { intros i Hi. destruct (decide (i = Z.of_nat k)) as [->|]; [done|]. apply Hones. lia. }
      exists p. split_and!; [|lia|lia|done|done]. rewrite <-Hp. f_equal; [|lia].
      unfold u32. rewrite !Z.shiftl_mul_pow2 by lia. unfold wrap. rewrite Zmult_mod_idemp_l.
      replace (Z.of_nat (S k)) with (Z.of_nat k + 1) by lia. rewrite Z.pow_add_r by lia. f_equal. lia.
    + exists (Z.of_nat k). split_and!; [done|lia|lia|done|done].
Qed.

Lemma ntohl_range w : is_u32 (ntohl w).
Proof.
  pose proof (wrap_range 8 w ltac:(lia)). pose proof (wrap_range 8 (w ≫ 8) ltac:(lia)).
  pose proof (wrap_range 8 (w ≫ 16) ltac:(lia)). pose proof (wrap_range 8 (w ≫ 24) ltac:(lia)).
  unfold ntohl, u8, in_range in *. rewrite <-!Z.lor_assoc.
  rewrite (lor_add (wrap 8 (w ≫ 16)) _ 8), (lor_add (wrap 8 (w ≫ 8)) _ 16), (lor_add (wrap 8 w) _ 24) by lia. lia.
Qed.

Lemma ipv4NetmaskToPrefixLength_total mask :
  exists p, ipv4NetmaskToPrefixLength mask = Ret p /\ 0 <= p <= 32.
Proof.
  destruct (mask_loop_spec 32 (ntohl mask) 0 (ntohl_range mask) eq_refl ltac:(lia)) as (p & Hp & Hr & _).
  exists p. split; [|lia]. unfold ipv4NetmaskToPrefixLength. rewrite <-Hp. f_equal.
  rewrite Z.shiftl_0_r, u32_small; [done|]. apply ntohl_range.
Qed.

(** ** Safety of the option parser *)

Lemma mem_get_in {A} (l : list A) i : 0 <= i < zlen l -> exists x, mem_get l i = Ret x /\ l !! Z.to_nat i = Some x.
Proof.
  intros Hi. destruct (lookup_lt_is_Some_2 l (Z.to_nat i)) as [x Hx]; [unfold zlen in Hi; lia|].
  exists x. split; [|done]. apply mem_get_ok; [lia|done].
Qed.

Lemma decode_option_safe options opt x optlen info :
  0 <= x < zlen options -> x + optlen <= zlen options ->
  exists info', decode_option options opt x optlen info = Ret info'.
Proof.
  intros Hx Ho. destruct (mem_get_in options x Hx) as (b & Hb & _). unfold decode_option.
  destruct (Z.eqb_spec opt OPT_SUBNET_MASK), (Z.eqb_spec opt OPT_GATEWAY), (Z.eqb_spec opt OPT_DNS),
    (Z.eqb_spec opt OPT_LEASE_TIME), (Z.eqb_spec opt OPT_SERVER_ID), (Z.eqb_spec opt OPT_MESSAGE_TYPE).
  all: destruct (Z.leb_spec 4 optlen), (Z.leb_spec 8 optlen); try (exfalso; lia); cbn [mbind outcome_bind].
  all: rewrite ?mem_read_ok by lia; cbn [mbind outcome_bind]; rewrite ?Hb; cbn [mbind outcome_bind]; eauto.
  all: match goal with |- context [ipv4NetmaskToPrefixLength ?m] =>
         destruct (ipv4NetmaskToPrefixLength_total m) as (p & -> & _) end; cbn [mbind outcome_bind]; eauto.
Qed.

Lemma decode_loop_safe fuel options x len info :
  is_bytes options -> 0 <= x -> x + len <= zlen options -> len <= Z.of_nat fuel ->
  exists info', decode_loop fuel options x len info = Ret info'.
Proof.
  intros Hb. revert x len info. induction fuel as [|fuel IH]; intros x len info Hx Hl Hf; cbn [decode_loop];
    (destruct (Z.leb_spec len 2); [by eauto|]); [lia|].
  destruct (mem_get_in options x ltac:(lia)) as (opt & -> & _). cbn [mbind outcome_bind].
  destruct (opt =? OPT_PAD); [apply IH; lia|]. destruct (opt =? OPT_END); [by eauto|].
  destruct (mem_get_in options (x + 1) ltac:(lia)) as (optlen & -> & Ho). cbn [mbind outcome_bind].
  pose proof (Forall_lookup_1 _ _ _ _ Hb Ho) as Hr. unfold in_range in Hr.
  destruct (Z.ltb_spec (len - 2) optlen); [by eauto|].
  destruct (decode_option_safe options opt (x + 2) optlen info) as [info' ->]; [lia|lia|].
  cbn [mbind outcome_bind]. apply IH; lia.
Qed.

Lemma msg_options_len msg : zlen msg = sizeof_dhcp_msg -> zlen (msg_options msg) = 1024.
Proof.
  unfold sizeof_dhcp_msg, msg_options, field. intros H. autorewrite with zlen. lia.
Qed.

(** ** Options as type-length-value triples *)

(** The pad is a single byte. *)
Definition enc_opt (o : Z * bytes) : bytes := if o.1 =? OPT_PAD then [o.1] else o.1 :: zlen o.2 :: o.2.

(** A pad, which has no data, or an option with data that fits its length byte; a message type has at least
    one byte.  The end mark is no option. *)
Definition valid_opt (o : Z * bytes) : Prop :=
  0 <= o.1 < 255 /\ is_bytes o.2 /\ zlen o.2 <= 255 /\ (o.1 = OPT_MESSAGE_TYPE -> o.2 <> []) /\ (o.1 = OPT_PAD -> o.2 = []).

(** What an option says: the meaning that RFC 2132 gives to the codes the client asks for. *)
Definition prefix_of (mask : Z) : Z :=
  match ipv4NetmaskToPrefixLength mask with Ret p => p | _ => 0 end.
Definition apply_opt (info : dhcp_info) (o : Z * bytes) : dhcp_info :=
  let '(code, d) := o in
  let has n := (n <=? length d)%nat in
  if code =? OPT_SUBNET_MASK then if has 4%nat then set_prefix (prefix_of (le32 (take 4 d))) info else info
  else if code =? OPT_GATEWAY then if has 4%nat then set_gateway (le32 (take 4 d)) info else info
  else if code =? OPT_DNS then
    let info := if has 4%nat then set_dns1 (le32 (take 4 d)) info else info in
    if has 8%nat then set_dns2 (le32 (take 4 (drop 4 d))) info else info
  else if code =? OPT_LEASE_TIME then if has 4%nat then set_lease (ntohl (le32 (take 4 d))) info else info
  else if code =? OPT_SERVER_ID then if has 4%nat then set_server (le32 (take 4 d)) info else info
  else if code =? OPT_MESSAGE_TYPE then set_type (hd 0 d) info
  else info.

Lemma read_front {A} (pre d post : list A) (k n : nat) :
  (k + n <= length d)%nat ->
  mem_read (pre ++ d ++ post) (zlen pre + Z.of_nat k) (Z.of_nat n) = Ret (take n (drop k d)).
Proof.
  intros Hn. rewrite mem_read_ok by (autorewrite with zlen; unfold zlen; lia).
  rewrite Nat2Z.id. replace (Z.to_nat (zlen pre + Z.of_nat k)) with (length pre + k)%nat by (unfold zlen; lia).
  rewrite <-drop_drop, drop_app_length, drop_app_le by lia. by rewrite take_app_le by (rewrite length_drop; lia).
Qed.

Lemma decode_option_apply pre o post info :
  valid_opt o ->
  decode_option (pre ++ o.2 ++ post) o.1 (zlen pre) (zlen o.2) info = Ret (apply_opt info o).
Proof.
  destruct o as [code d]. cbn [fst snd]. intros (_ & Hb & Hlen & Hty & _). cbn [fst snd] in *.
  pose proof (read_front pre d post 0 4) as R0. pose proof (read_front pre d post 4 4) as R4.
  rewrite Z.add_0_r in R0. change (Z.of_nat 4) with 4 in *. rewrite drop_0 in R0.
  assert (forall n : nat, (Z.of_nat n <=? zlen d) = (n <=? length d)%nat) as Hle.
  { intros n. unfold zlen. destruct (Nat.leb_spec n (length d)); [apply Z.leb_le|apply Z.leb_gt]; lia. }
  pose proof (Hle 4%nat) as H4. pose proof (Hle 8%nat) as H8. unfold decode_option, apply_opt.
  change (Z.of_nat 4) with 4 in H4. change (Z.of_nat 8) with 8 in H8. rewrite H4, H8.
  destruct (code =? OPT_SUBNET_MASK).
  { destruct (Nat.leb_spec 4 (length d)); [|done]. rewrite R0 by lia. cbn [mbind outcome_bind].
    unfold prefix_of. destruct (ipv4NetmaskToPrefixLength_total (le32 (take 4 d))) as (p & -> & Hp).
    cbn [mbind outcome_bind]. by rewrite u32_small by lia. }
  destruct (code =? OPT_GATEWAY).
  { destruct (Nat.leb_spec 4 (length d)); [|done]. by rewrite R0 by lia. }
  destruct (code =? OPT_DNS).
  { destruct (Nat.leb_spec 4 (length d)), (Nat.leb_spec 8 (length d)); try lia; cbn [mbind outcome_bind].
    - rewrite R0 by lia. cbn [mbind outcome_bind]. by rewrite R4 by lia.
    - by rewrite R0 by lia.
    - done. }
  destruct (code =? OPT_LEASE_TIME).
  { destruct (Nat.leb_spec 4 (length d)); [|done]. by rewrite R0 by lia. }
  destruct (code =? OPT_SERVER_ID).
  { destruct (Nat.leb_spec 4 (length d)); [|done]. by rewrite R0 by lia. }
  destruct (Z.eqb_spec code OPT_MESSAGE_TYPE) as [E|]; [|done].
  destruct d as [|b d]; [by specialize (Hty E)|].
  rewrite (mem_get_ok _ _ b); [done|apply zlen_nonneg|].
  rewrite zlen_nat, lookup_app_r by lia. by rewrite Nat.sub_diag.
Qed.

Lemma mem_get_app {A} (pre : list A) x post off :
  off = zlen pre -> mem_get (pre ++ x :: post) off = Ret x.
Proof.
  intros ->. apply mem_get_ok; [apply zlen_nonneg|].
  rewrite zlen_nat, lookup_app_r by lia. by rewrite Nat.sub_diag.
Qed.

(** Options that end within one byte are pads, which say nothing. *)
Lemma apply_pads opts info :
  Forall valid_opt opts -> zlen (concat (enc_opt <$> opts)) <= 1 -> foldl apply_opt info opts = info.
Proof.
  intros Hv. revert info. induction Hv as [|[code d] opts (_ & _ & _ & _ & Hp) Hv IH]; intros info Hl; [done|].
  change (concat (enc_opt <$> (code, d) :: opts)) with (enc_opt (code, d) ++ concat (enc_opt <$> opts)) in Hl.
  rewrite zlen_app in Hl. pose proof (zlen_nonneg (concat (enc_opt <$> opts))). pose proof (zlen_nonneg d).
  unfold enc_opt at 1 in Hl. cbn [fst snd] in *. destruct (Z.eqb_spec code OPT_PAD) as [->|].
  - rewrite (Hp eq_refl) in *. change (zlen [OPT_PAD]) with 1 in Hl. apply IH. lia.
  - rewrite !zlen_cons in Hl. lia.
Qed.

Lemma decode_loop_opts opts pre rest fuel len info :
  Forall valid_opt opts -> zlen (concat (enc_opt <$> opts)) + 1 <= len <= Z.of_nat fuel ->
  decode_loop fuel (pre ++ concat (enc_opt <$> opts) ++ OPT_END :: rest) (zlen pre) len info =
    Ret (foldl apply_opt info opts).
Proof.
  intros Hv. revert pre fuel len info. induction Hv as [|o opts Ho Hv IH]; intros pre fuel len info Hlen.
  { destruct fuel as [|fuel]; cbn [decode_loop]; (destruct (Z.leb_spec len 2); [done|]); [lia|].
    change (pre ++ concat (enc_opt <$> []) ++ OPT_END :: rest) with (pre ++ OPT_END :: rest).
    by rewrite (mem_get_app pre OPT_END rest (zlen pre)). }
  destruct (Z.leb_spec len 2) as [Hshort|Hlong].
  { rewrite apply_pads by (by constructor || lia). destruct fuel; cbn [decode_loop]; by rewrite (proj2 (Z.leb_le len 2)). }
  change (concat (enc_opt <$> o :: opts)) with (enc_opt o ++ concat (enc_opt <$> opts)) in *.
  rewrite zlen_app in Hlen. destruct o as [code d]. unfold enc_opt at 1 in Hlen. unfold enc_opt at 1.
  destruct Ho as (Hc & Hb & Hl & Hty & Hpad). cbn [fst snd] in *. pose proof (zlen_nonneg d).
  pose proof (zlen_nonneg (concat (enc_opt <$> opts))).
  destruct fuel as [|fuel]; [lia|]. cbn [decode_loop]. rewrite (proj2 (Z.leb_gt len 2)) by done.
  destruct (Z.eqb_spec code OPT_PAD) as [->|Hnp].
  { rewrite (Hpad eq_refl). change (zlen [OPT_PAD]) with 1 in Hlen. cbn [app].
    rewrite (mem_get_app pre OPT_PAD _ (zlen pre)) by done. cbn [mbind outcome_bind]. rewrite Z.eqb_refl.
    rewrite (cons_middle OPT_PAD), app_assoc. specialize (IH (pre ++ [OPT_PAD]) fuel (len - 1) info ltac:(lia)).
    rewrite zlen_app in IH. change (zlen [OPT_PAD]) with 1 in IH. exact IH. }
  rewrite !zlen_cons in Hlen. cbn [app]. rewrite (mem_get_app pre code _ (zlen pre)) by done. cbn [mbind outcome_bind].
  rewrite (proj2 (Z.eqb_neq code OPT_PAD)) by done.
  destruct (Z.eqb_spec code OPT_END); [unfold OPT_END in *; lia|].
  rewrite (cons_middle code), app_assoc.
  rewrite (mem_get_app _ (zlen d) _ (zlen pre + 1)) by by rewrite zlen_app. cbn [mbind outcome_bind].
  destruct (Z.ltb_spec (len - 2) (zlen d)); [lia|].
  rewrite (cons_middle (zlen d)), app_assoc, <-(app_assoc d).
  set (pre' := (pre ++ [code]) ++ [zlen d]).
  replace (zlen pre + 2) with (zlen pre') by (unfold pre'; autorewrite with zlen; lia).
  pose proof (decode_option_apply pre' (code, d) (concat (enc_opt <$> opts) ++ OPT_END :: rest) info) as Hd.
  cbn [fst snd] in Hd. rewrite Hd by done. cbn [mbind outcome_bind].
  rewrite app_assoc. rewrite <-zlen_app. rewrite IH by lia. done.
Qed.

Lemma decode_options_spec msg len opts rest :
  Forall valid_opt opts ->
  msg_options msg = [0x63; 0x82; 0x53; 0x63] ++ concat (enc_opt <$> opts) ++ OPT_END :: rest ->
  DHCP_MSG_FIXED_SIZE + 4 + zlen (concat (enc_opt <$> opts)) + 1 <= len ->
  decode_dhcp_msg msg len = Ret (set_ipaddr (msg_yiaddr msg) (foldl apply_opt no_info opts), 0).
Proof.
  intros Hv Ho Hl. unfold decode_dhcp_msg. pose proof (zlen_nonneg (concat (enc_opt <$> opts))).
  rewrite (proj2 (Z.ltb_ge len _)) by lia. rewrite Ho. cbn [take app]. rewrite bool_decide_true by done.
  cbn [negb]. pose proof (decode_loop_opts opts [0x63; 0x82; 0x53; 0x63] rest
    (Z.to_nat (len - (DHCP_MSG_FIXED_SIZE + 4))) (len - (DHCP_MSG_FIXED_SIZE + 4)) no_info Hv ltac:(lia)) as Hd.
  change (zlen [0x63; 0x82; 0x53; 0x63]) with 4 in Hd. cbn [app] in Hd. by rewrite Hd.
Qed.

(** ** Claims *)

(** The decoder never reads outside the message. *)
Lemma decode_total msg len :
  is_bytes msg -> zlen msg = sizeof_dhcp_msg -> len <= sizeof_dhcp_msg ->
  exists info ret, decode_dhcp_msg msg len = Ret (info, ret) /\ (ret = 0 \/ ret = -1).
Proof.
  intros Hb Hm Hl. unfold decode_dhcp_msg. destruct (Z.ltb_spec len (DHCP_MSG_FIXED_SIZE + 4)); [by eauto 6|].
  case_match; [by eauto 6|]. unfold DHCP_MSG_FIXED_SIZE, sizeof_dhcp_msg in *.
  destruct (decode_loop_safe (Z.to_nat (len - (236 + 4))) (msg_options msg) 4 (len - (236 + 4)) no_info)
    as [info ->]; [|lia|rewrite msg_options_len by done; lia|lia|].
  - apply Forall_take, Forall_drop, Hb.
  - cbn [mbind outcome_bind]. eauto 6.
Qed.

(** C33: [decode_dhcp_msg] of any received bytes returns without reading outside the options of
    the message, for every length up to the size of the structure. *)
Theorem decode_dhcp_msg_safe msg len :
  is_bytes msg -> zlen msg = sizeof_dhcp_msg -> len <= sizeof_dhcp_msg ->
  exists info ret, decode_dhcp_msg msg len = Ret (info, ret) /\ (ret = 0 \/ ret = -1).
Proof. apply decode_total. Qed.

Lemma decode_dhcp_msg_safe_witness :
  exists info ret, decode_dhcp_msg (replicate 1260 0x63) 1260 = Ret (info, ret) /\ (ret = 0 \/ ret = -1).
Proof.
  apply decode_dhcp_msg_safe; [|by vm_compute|by vm_compute]. apply Forall_replicate. by vm_compute.
Defined.

(** C34: [decode_dhcp_msg] reads the options that RFC 2132 encodes: for a message whose options
    are the cookie, any list of well-formed options with pads between them and the end mark, the information is
    what the options say, later ones overriding earlier ones, with the offered address
    of the fixed part. *)
Theorem decode_dhcp_msg_options msg len opts rest :
  Forall valid_opt opts ->
  msg_options msg = [0x63; 0x82; 0x53; 0x63] ++ concat (enc_opt <$> opts) ++ OPT_END :: rest ->
  DHCP_MSG_FIXED_SIZE + 4 + zlen (concat (enc_opt <$> opts)) + 1 <= len ->
  decode_dhcp_msg msg len = Ret (set_ipaddr (msg_yiaddr msg) (foldl apply_opt no_info opts), 0).
Proof. apply decode_options_spec. Qed.

Lemma decode_dhcp_msg_options_witness :
  decode_dhcp_msg (replicate 236 0 ++ [0x63; 0x82; 0x53; 0x63; 53; 1; 2; 0; 0; 1; 4; 255; 255; 255; 0; 0; 255] ++ replicate 1007 0) 256
  = Ret (mk_info 2 0 0 24 0 0 0 0, 0).
Proof.
  rewrite (decode_dhcp_msg_options _ 256 [(53, [2]); (0, []); (0, []); (1, [255; 255; 255; 0]); (0, [])] (replicate 1007 0)).
  - by vm_compute.
  - repeat constructor; by vm_compute.
  - by vm_compute.
  - by vm_compute.
Defined.

(** the two netmask functions agree: a prefix length survives the way to a mask and back,
    and [ipv4NetmaskToPrefixLength] of any mask ends with the number of its leading ones. *)
Theorem netmask_prefix_roundtrip :
  (forall n, 0 <= n <= 32 -> ipv4NetmaskToPrefixLength (prefixLengthToIpv4Netmask n) = Ret n) /\
  (forall mask, exists p, ipv4NetmaskToPrefixLength mask = Ret p /\ 0 <= p <= 32 /\
    (forall i, 0 <= i < p -> Z.testbit (ntohl mask) (31 - i) = true) /\
    (p < 32 -> Z.testbit (ntohl mask) (31 - p) = false)).
Proof.
  split.
  - intros n Hn.
    assert (forallb (fun n => match ipv4NetmaskToPrefixLength (prefixLengthToIpv4Netmask n) with
      Ret m => m =? n | _ => false end) (zrange 33) = true) as H by (by vm_compute).
    pose proof (zrange_forall 33 _ H n ltac:(lia)) as Hc. cbv beta in Hc.
    destruct (ipv4NetmaskToPrefixLength _); [|done|done]. apply Z.eqb_eq in Hc. by subst.
  - intros mask. destruct (mask_loop_spec 32 (ntohl mask) 0 (ntohl_range mask) eq_refl ltac:(lia))
      as (p & Hp & Hr & H1 & H2).
    exists p. split_and!; [|lia|lia|done|done]. unfold ipv4NetmaskToPrefixLength. rewrite <-Hp. f_equal.
    rewrite Z.shiftl_0_r, u32_small; [done|]. apply ntohl_range.
Qed.

(** ** Messages of the client *)

Lemma le32_bytes32 w : is_u32 w -> le32 (bytes32 w) = w.
Proof.
  unfold in_range. intros Hw. unfold le32, bytes32, u8, wrap. rewrite !Z.shiftr_div_pow2 by lia. dlia.
Qed.

Lemma bytes32_bytes w : is_bytes (bytes32 w).
Proof. repeat constructor; apply wrap_range; lia. Qed.

(** The parts of a message that [init_dhcp_msg] sets, for the discover and the request. *)
Record built (msg : dhcp_msg) (hwaddr : bytes) (xid : Z) (opts : list (Z * bytes)) : Prop := {
  built_len : zlen msg = sizeof_dhcp_msg;
  built_op : msg_op msg = OP_BOOTREQUEST;
  built_htype : msg_htype msg = HTYPE_ETHER;
  built_hlen : msg_hlen msg = 6;
  built_xid : msg_xid msg = xid;
  built_chaddr : take 6 (msg_chaddr msg) = hwaddr;
  built_yiaddr : msg_yiaddr msg = 0;
  built_options : exists rest,
    msg_options msg = [0x63; 0x82; 0x53; 0x63] ++ concat (enc_opt <$> opts) ++ OPT_END :: rest
}.

Definition discover_opts : list (Z * bytes) :=
  [(OPT_MESSAGE_TYPE, [DHCPDISCOVER]);
   (OPT_PARAMETER_LIST, [OPT_SUBNET_MASK; OPT_GATEWAY; OPT_DNS; OPT_BROADCAST_ADDR])].
Definition request_opts (ip server : Z) : list (Z * bytes) :=
  [(OPT_MESSAGE_TYPE, [DHCPREQUEST]);
   (OPT_PARAMETER_LIST, [OPT_SUBNET_MASK; OPT_GATEWAY; OPT_DNS; OPT_BROADCAST_ADDR]);
   (OPT_REQUESTED_IP, bytes32 ip); (OPT_SERVER_ID, bytes32 server)].

Lemma discover_built hwaddr xid :
  length hwaddr = 6%nat -> is_u32 xid -> built (init_dhcp_discover_msg hwaddr xid).1 hwaddr xid discover_opts.
Proof.
  intros Hh Hx. do 6 (destruct hwaddr as [|? hwaddr]; [done|]). destruct hwaddr; [|done].
  split; try reflexivity.
  - etrans; [|apply (le32_bytes32 xid Hx)]. reflexivity.
  - eexists. reflexivity.
Qed.

Lemma request_built hwaddr xid ip server :
  length hwaddr = 6%nat -> is_u32 xid ->
  built (init_dhcp_request_msg hwaddr xid ip server).1 hwaddr xid (request_opts ip server).
Proof.
  intros Hh Hx. do 6 (destruct hwaddr as [|? hwaddr]; [done|]). destruct hwaddr; [|done].
  split; try reflexivity.
  - etrans; [|apply (le32_bytes32 xid Hx)]. reflexivity.
  - eexists. reflexivity.
Qed.

Lemma valid_reply_built msg hwaddr xid opts reply sz :
  built msg hwaddr xid opts ->
  is_valid_reply msg reply sz = true <->
  DHCP_MSG_FIXED_SIZE <= sz /\ msg_op reply = OP_BOOTREPLY /\ msg_xid reply = xid /\
  msg_htype reply = HTYPE_ETHER /\ msg_hlen reply = 6 /\ take 6 (msg_chaddr reply) = hwaddr.
Proof.
  intros [_ _ Ht Hl Hx Hc _ _]. unfold is_valid_reply. rewrite Ht, Hl, Hx. change (Z.to_nat 6) with 6%nat.
  rewrite Hc. destruct (Z.ltb_spec sz DHCP_MSG_FIXED_SIZE); [split; [done|lia]|].
  destruct (Z.eqb_spec (msg_op reply) OP_BOOTREPLY), (Z.eqb_spec (msg_xid reply) xid),
    (Z.eqb_spec (msg_htype reply) HTYPE_ETHER), (Z.eqb_spec (msg_hlen reply) 6); cbn [negb].
  all: rewrite ?bool_decide_eq_true; split; [intros; split_and!; congruence|].
  all: intros (? & ? & ? & ? & ? & ?); congruence.
Qed.

(** the request that the client sends is well formed: the fixed part carries the hardware
    address and the transaction, the options are the message type, the parameter list, the
    requested address and the server, and reading it back with [decode_dhcp_msg] gives
    a DHCPREQUEST for that server; the discover message is well formed likewise. *)
Theorem client_messages_wellformed hwaddr xid ip server :
  length hwaddr = 6%nat -> is_u32 xid -> is_u32 ip -> is_u32 server ->
  let '(discover, dsize) := init_dhcp_discover_msg hwaddr xid in
  let '(request, rsize) := init_dhcp_request_msg hwaddr xid ip server in
  built discover hwaddr xid discover_opts /\ built request hwaddr xid (request_opts ip server) /\
  decode_dhcp_msg discover dsize = Ret (set_type DHCPDISCOVER no_info, 0) /\
  decode_dhcp_msg request rsize = Ret (set_server server (set_type DHCPREQUEST no_info), 0).
Proof.
  intros Hh Hx Hi Hs. pose proof (discover_built hwaddr xid Hh Hx) as Hd.
  pose proof (request_built hwaddr xid ip server Hh Hx) as Hr.
  assert (exists d, init_dhcp_discover_msg hwaddr xid = (d, 250)) as [d Ed] by (eexists; reflexivity).
  assert (exists r, init_dhcp_request_msg hwaddr xid ip server = (r, 262)) as [r Er] by (eexists; reflexivity).
  rewrite Ed in *. rewrite Er in *. cbn [fst] in *. split_and!; [done|done|..].
  - destruct (built_options _ _ _ _ Hd) as [rest Ho].
    rewrite (decode_options_spec d 250 discover_opts rest); [|repeat constructor; by vm_compute|done|by vm_compute].
    rewrite (built_yiaddr _ _ _ _ Hd). reflexivity.
  - destruct (built_options _ _ _ _ Hr) as [rest Ho].
    rewrite (decode_options_spec r 262 (request_opts ip server) rest); [| |done|by vm_compute].
    + rewrite (built_yiaddr _ _ _ _ Hr). rewrite <-(le32_bytes32 server Hs) at 2. reflexivity.
    + repeat apply Forall_cons_2; [by vm_compute; repeat constructor..| | |constructor].
      all: unfold valid_opt; cbn [fst snd]; split_and!; try done; apply bytes32_bytes.
Qed.

Lemma client_messages_wellformed_witness :
  let '(discover, dsize) := init_dhcp_discover_msg [2; 0; 0; 0; 0; 1] 77 in
  let '(request, rsize) := init_dhcp_request_msg [2; 0; 0; 0; 0; 1] 77 5 9 in
  built discover [2; 0; 0; 0; 0; 1] 77 discover_opts /\
  built request [2; 0; 0; 0; 0; 1] 77 (request_opts 5 9) /\
  decode_dhcp_msg discover dsize = Ret (set_type DHCPDISCOVER no_info, 0) /\
  decode_dhcp_msg request rsize = Ret (set_server 9 (set_type DHCPREQUEST no_info), 0).
Proof. apply (client_messages_wellformed [2; 0; 0; 0; 0; 1] 77 5 9); by vm_compute. Defined.

(** against a message that the client built, [is_valid_reply] accepts exactly the boot
    replies of the transaction that are addressed to the client's hardware address. *)
Theorem is_valid_reply_iff hwaddr xid ip server reply sz :
  length hwaddr = 6%nat -> is_u32 xid ->
  forall msg, msg = (init_dhcp_discover_msg hwaddr xid).1 \/ msg = (init_dhcp_request_msg hwaddr xid ip server).1 ->
  is_valid_reply msg reply sz = true <->
  DHCP_MSG_FIXED_SIZE <= sz /\ msg_op reply = OP_BOOTREPLY /\ msg_xid reply = xid /\
  msg_htype reply = HTYPE_ETHER /\ msg_hlen reply = 6 /\ take 6 (msg_chaddr reply) = hwaddr.
Proof.
  intros Hh Hx msg [-> | ->]; eapply valid_reply_built; [by apply discover_built|by apply request_built].
Qed.

Lemma is_valid_reply_iff_witness :
  is_valid_reply (init_dhcp_discover_msg [2; 0; 0; 0; 0; 1] 77).1 (replicate 1260 0) 300 = true <->
  DHCP_MSG_FIXED_SIZE <= 300 /\ msg_op (replicate 1260 0) = OP_BOOTREPLY /\ msg_xid (replicate 1260 0) = 77 /\
  msg_htype (replicate 1260 0) = HTYPE_ETHER /\ msg_hlen (replicate 1260 0) = 6 /\
  take 6 (msg_chaddr (replicate 1260 0)) = [2; 0; 0; 0; 0; 1].
Proof.
  apply (is_valid_reply_iff [2; 0; 0; 0; 0; 1] 77 0 0); [by vm_compute|by vm_compute|by constructor].
Defined.
