(* ===== verification/DhcpPacket.v ===== *)
(** IP and UDP framing of DHCP messages: src/dhcpc/packet.c.

    [send_packet] gives the bytes that [sendmsg] is handed (the three parts of the iovec);
    [receive_packet] works on the buffer that [read] filled, whose tail is whatever the
    stack held.  16-bit words are loaded as the little-endian machine does. *)

From S2P Require Import Prelude DhcpMsg.

Definition IPVERSION : Z := 4.
Definition IPDEFTTL : Z := 64.
Definition IPPROTO_UDP : Z := 17.
Definition PORT_BOOTP_SERVER : Z := 67.
Definition PORT_BOOTP_CLIENT : Z := 68.
Definition sizeof_iphdr : Z := 20.
Definition sizeof_udphdr : Z := 8.
Definition sizeof_packet : Z := 1288.

(** ** Checksums *)

(** [while (count > 1) sum += *up++] and the odd byte. *)
Fixpoint sum_words (b : bytes) (sum : Z) : Z :=
  match b with
  | b0 :: b1 :: b => sum_words b (u32 (sum + (b0 + 256 * b1)))
  | [b0] => u32 (sum + b0)
  | [] => sum
  end.

(** [while ((upper16 = (sum >> 16)) != 0)]: the value decreases in every iteration; three are
    enough for a 32-bit sum. *)
Fixpoint fold_carry (fuel : nat) (sum : Z) : outcome Z :=
  let upper16 := sum ≫ 16 in
  if upper16 =? 0 then Ret sum
  else match fuel with
       | O => Undef
       | S fuel => fold_carry fuel (u32 (Z.land sum 0xffff + upper16))
       end.

Definition checksum (buffer : bytes) (startsum : Z) : outcome Z :=
  fold_carry 3 (sum_words buffer startsum).

Definition finish_sum (sum : Z) : Z := Z.land (u32 (Z.lnot sum)) 0xffff.

(** ** Headers *)

(** [htons] of a value converted to 16 bits: the two bytes in memory. *)
Definition net16 (v : Z) : bytes := [u8 (v ≫ 8); u8 v].

(** [struct iphdr] as filled by [send_packet]; [check] is a host-order word. *)
Definition iphdr (tot_len check saddr daddr : Z) : bytes :=
  [0x45; 0] ++ net16 tot_len ++ [0; 0; 0; 0; IPDEFTTL; IPPROTO_UDP] ++ bytes16 check
    ++ bytes32 saddr ++ bytes32 daddr.

Definition udphdr (sport dport len check : Z) : bytes :=
  net16 sport ++ net16 dport ++ net16 len ++ bytes16 check.

(** The bytes handed to [sendmsg]: [size] bytes of the message after the two headers. *)
Definition send_packet (msg : dhcp_msg) (size saddr daddr sport dport : Z) : outcome bytes :=
  data ← mem_read msg 0 size;
  let tot_len := sizeof_iphdr + sizeof_udphdr + size in
  ipsum ← checksum (iphdr tot_len 0 saddr daddr) 0;
  let ip := iphdr tot_len (finish_sum ipsum) saddr daddr in
  let udp0 := udphdr sport dport (sizeof_udphdr + size) 0 in
  udpsum ← checksum (bytes32 saddr) 0;
  udpsum ← checksum (bytes32 daddr) udpsum;
  udpsum ← checksum (net16 IPPROTO_UDP) udpsum;
  udpsum ← checksum (net16 (sizeof_udphdr + size)) udpsum;
  udpsum ← checksum udp0 udpsum;
  udpsum ← checksum data udpsum;
  let udp := udphdr sport dport (sizeof_udphdr + size) (finish_sum udpsum) in
  Ret (ip ++ udp ++ data).

(** ** Receiving *)

Definition get_be16 (p : bytes) (off : nat) : Z := be16 (take 2 (drop off p)).

(** The filter at the top of [receive_packet]. *)
Definition packet_is_valid (packet : bytes) (nread : Z) : bool :=
  if nread <? sizeof_iphdr + sizeof_udphdr then false
  else if negb (packet !!! 0%nat ≫ 4 =? IPVERSION) || negb (Z.land (packet !!! 0%nat) 15 =? sizeof_iphdr ≫ 2)
  then false
  else if nread <? get_be16 packet 2 then false
  else if negb (packet !!! 9%nat =? IPPROTO_UDP) then false
  else if negb (get_be16 packet 22 =? PORT_BOOTP_CLIENT) then false
  else true.

(** The IP header turned into the pseudo header: zero but for the addresses, the protocol and
    the UDP length. *)
Definition pseudo_header (packet : bytes) : bytes :=
  [0; 0] ++ take 2 (drop 24 packet) ++ [0; 0; 0; 0; 0; IPPROTO_UDP; 0; 0] ++ take 8 (drop 12 packet).

(** [receive_packet] after a [read] of [nread] bytes into [packet]: the returned value and
    what is in [*msg], which is [old] at the call. *)
Definition receive_packet (packet : bytes) (nread : Z) (old : dhcp_msg) : outcome (Z * dhcp_msg) :=
  if nread <? 0 then Ret (-1, old) else
  if negb (packet_is_valid packet nread) then Ret (-1, old) else
  ipsum ← checksum (take 20 packet) 0;
  if negb (finish_sum ipsum =? 0) then Ret (-1, old) else
  let dhcp_size := get_be16 packet 24 - sizeof_udphdr in
  let nread := get_be16 packet 2 in
  let temp := le16 (take 2 (drop 26 packet)) in
  let packet0 := pseudo_header packet ++ take 6 (drop 20 packet) ++ [0; 0] ++ drop 28 packet in
  covered ← mem_read packet0 0 nread;
  udpsum ← checksum covered 0;
  let sum := finish_sum udpsum in
  let sum := if sum =? 0 then finish_sum sum else sum in
  if negb (temp =? sum) then Ret (-1, old) else
  (* a negative size becomes a huge size_t *)
  data ← (if dhcp_size <? 0 then Undef else mem_read (drop 28 packet) 0 dhcp_size);
  msg ← mem_write old 0 data;
  Ret (dhcp_size, msg).
