(* ===== verification/DhcpPacketSpec.v ===== *)
(** Properties of the IP and UDP framing ([DhcpPacket]): the checksum is the ones' complement
    sum of RFC 1071, what [send_packet] sends is what [receive_packet] delivers, and two
    defects of these functions. *)

From S2P Require Import Prelude DhcpMsg DhcpMsgSpec DhcpPacket.

(** ** The ones' complement sum *)

(** The plain sum of the 16-bit words. *)
Fixpoint wsum (b : bytes) : Z :=
  match b with b0 :: b1 :: b => (b0 + 256 * b1) + wsum b | [b0] => b0 | [] => 0 end.

(** Its residue modulo 65535 with end-around carry: zero only for zero. *)
Definition fold16 (s : Z) : Z := if s =? 0 then 0 else (s - 1) mod 65535 + 1.

Lemma wsum_range b : is_bytes b -> 0 <= wsum b <= 65535 * zlen b.
Proof.
  unfold is_bytes. induction b as [|a|a c b IH] using list_ind2; intros Hb; [done|..].
  - apply Forall_cons in Hb as [Ha _]. cbn [wsum]. unfold in_range in Ha. rewrite zlen_cons.
    change (zlen (@nil Z)) with 0. lia.
  - rewrite !Forall_cons in Hb. destruct Hb as (Ha & Hc & Hb). specialize (IH Hb).
    cbn [wsum]. rewrite !zlen_cons. unfold in_range in *. lia.
Qed.

Lemma wsum_app b c : Nat.Even (length b) -> wsum (b ++ c) = wsum b + wsum c.
Proof.
  induction b as [|a|a d b IH] using list_ind2; intros He.
  - done.
  - destruct He as [k Hk]. cbn in Hk. lia.
  - cbn [app wsum]. rewrite IH; [lia|]. destruct He as [k Hk]. exists (k - 1)%nat. cbn in Hk. lia.
Qed.

Lemma sum_words_wsum b s : is_bytes b -> 0 <= s -> s + wsum b < 2 ^ 32 -> sum_words b s = s + wsum b.
Proof.
  unfold is_bytes. revert s. induction b as [|a|a c b IH] using list_ind2; intros s Hb Hs Hlt; cbn [sum_words wsum] in *.
  - lia.
  - apply Forall_cons in Hb as [Ha _]. unfold in_range in Ha. rewrite u32_small; lia.
  - rewrite !Forall_cons in Hb. destruct Hb as (Ha & Hc & Hb). pose proof (wsum_range b Hb).
    unfold in_range in *. rewrite u32_small by lia. rewrite IH; [lia|done|lia|lia].
Qed.

(** One step of the carry loop. *)
Lemma carry_step s :
  0 <= s < 2 ^ 32 -> u32 (Z.land s 0xffff + s ≫ 16) = s - 65535 * (s / 65536).
Proof.
  intros Hs. change 0xffff with (2 ^ 16 - 1). rewrite land_mask by lia. rewrite Z.shiftr_div_pow2 by lia.
  rewrite u32_small; dlia.
Qed.

Lemma fold16_step s : 65536 <= s -> fold16 (s - 65535 * (s / 65536)) = fold16 s.
Proof.
  intros Hs. unfold fold16. destruct (Z.eqb_spec s 0); [lia|].
  destruct (Z.eqb_spec (s - 65535 * (s / 65536)) 0); [dlia|].
  f_equal. replace (s - 65535 * (s / 65536) - 1) with (s - 1 + (- (s / 65536)) * 65535) by lia.
  apply Z_mod_plus_full.
Qed.

Lemma fold16_small s : 0 <= s < 65536 -> fold16 s = s.
Proof. intros Hs. unfold fold16. destruct (Z.eqb_spec s 0); [lia|]. rewrite Z.mod_small; lia. Qed.

Lemma fold16_range s : 0 <= s -> 0 <= fold16 s <= 65535 /\ (fold16 s = 0 -> s = 0).
Proof. intros Hs. unfold fold16. destruct (Z.eqb_spec s 0); dlia. Qed.

(** The loop ends after at most two carries. *)
Lemma fold_carry_fold16 s : 0 <= s < 2 ^ 32 -> fold_carry 3 s = Ret (fold16 s).
Proof.
  intros Hs.
  assert (forall fuel s, 0 <= s < 65536 -> fold_carry fuel s = Ret (fold16 s)) as H0.
  { intros fuel t Ht. destruct fuel; cbn [fold_carry]; rewrite Z.shiftr_div_pow2, Z.div_small by lia;
      by rewrite fold16_small. }
  assert (forall fuel s, 0 <= s < 2 ^ 32 -> fold_carry (S fuel) s =
    if s <? 65536 then Ret (fold16 s) else fold_carry fuel (s - 65535 * (s / 65536))) as Hstep.
  { intros fuel t Ht. destruct (Z.ltb_spec t 65536); [apply H0; lia|]. cbn [fold_carry].
    rewrite carry_step by done. rewrite Z.shiftr_div_pow2 by lia.
    destruct (Z.eqb_spec (t / 2 ^ 16) 0); [dlia|done]. }
  rewrite Hstep by done. destruct (Z.ltb_spec s 65536); [done|]. rewrite <-fold16_step by done.
  set (s1 := s - 65535 * (s / 65536)). assert (0 <= s1 < 131071) as Hs1 by (unfold s1; dlia).
  rewrite Hstep by lia. destruct (Z.ltb_spec s1 65536); [done|]. rewrite <-fold16_step by done.
  apply H0. dlia.
Qed.

Lemma checksum_fold16 b s :
  is_bytes b -> 0 <= s -> s + wsum b < 2 ^ 32 -> checksum b s = Ret (fold16 (s + wsum b)).
Proof.
  intros Hb Hs Hlt. unfold checksum. rewrite sum_words_wsum by done. apply fold_carry_fold16.
  pose proof (wsum_range b Hb). lia.
Qed.

Lemma fold16_add s t : 0 <= s -> 0 <= t -> fold16 (fold16 s + t) = fold16 (s + t).
Proof.
  intros Hs Ht. unfold fold16 at 2. destruct (Z.eqb_spec s 0) as [->|Hne]; [done|]. unfold fold16.
  destruct (Z.eqb_spec (s + t) 0); [lia|]. destruct (Z.eqb_spec ((s - 1) mod 65535 + 1 + t) 0); [dlia|].
  f_equal. replace ((s - 1) mod 65535 + 1 + t - 1) with ((s - 1) mod 65535 + t) by lia.
  rewrite Zplus_mod_idemp_l. f_equal. lia.
Qed.

Lemma finish_sum_spec s : 0 <= s <= 65535 -> finish_sum s = 65535 - s.
Proof.
  intros Hs. unfold finish_sum, u32, wrap, Z.lnot. change 0xffff with (2 ^ 16 - 1).
  rewrite land_mask by lia. dlia.
Qed.

(** A sum completed with its finished value adds up to all ones. *)
Lemma fold16_complete s : 0 <= s -> fold16 (s + (65535 - fold16 s)) = 65535.
Proof.
  intros Hs. unfold fold16. destruct (Z.eqb_spec s 0) as [->|Hne]; [done|].
  destruct (Z.eqb_spec (s + (65535 - ((s - 1) mod 65535 + 1))) 0); dlia.
Qed.

(** ** Headers *)

Lemma net16_bytes v : is_bytes (net16 v).
Proof. repeat constructor; apply wrap_range; lia. Qed.
Lemma bytes16_bytes v : is_bytes (bytes16 v).
Proof. repeat constructor; apply wrap_range; lia. Qed.

Lemma be16_net16 v : 0 <= v < 65536 -> be16 (net16 v) = v.
Proof. intros Hv. unfold be16, net16, u8, wrap. rewrite Z.shiftr_div_pow2 by lia. dlia. Qed.
Lemma le16_bytes16 v : 0 <= v < 65536 -> le16 (bytes16 v) = v.
Proof. intros Hv. unfold le16, bytes16, u8, wrap. rewrite Z.shiftr_div_pow2 by lia. dlia. Qed.

Lemma iphdr_len tot_len check saddr daddr : zlen (iphdr tot_len check saddr daddr) = 20.
Proof. reflexivity. Qed.
Lemma udphdr_len sport dport len check : zlen (udphdr sport dport len check) = 8.
Proof. reflexivity. Qed.

Lemma iphdr_bytes tot_len check saddr daddr : is_bytes (iphdr tot_len check saddr daddr).
Proof.
  unfold iphdr, is_bytes. rewrite !Forall_app. split_and!; [|apply net16_bytes| |apply bytes16_bytes|apply bytes32_bytes..].
  all: repeat (apply Forall_cons_2; [by vm_compute|]); apply Forall_nil_2.
Qed.

Lemma udphdr_bytes sport dport len check : is_bytes (udphdr sport dport len check).
Proof.
  unfold udphdr, is_bytes. rewrite !Forall_app. split_and!; [apply net16_bytes..|apply bytes16_bytes].
Qed.

(** The word of the checksum field enters the sum once. *)
Lemma iphdr_wsum tot_len check saddr daddr :
  0 <= check < 65536 -> wsum (iphdr tot_len check saddr daddr) = wsum (iphdr tot_len 0 saddr daddr) + check.
Proof.
  intros Hc. unfold iphdr, net16, bytes16, bytes32. cbn [app wsum].
  pose proof (le16_bytes16 check Hc) as H. unfold le16, bytes16 in H.
  change (u8 (0 ≫ 8)) with 0. change (u8 0) with 0. lia.
Qed.

(** What the sums of [send_packet] run over. *)
Definition udp_total (saddr daddr sport dport len : Z) (data : bytes) : Z :=
  wsum (bytes32 saddr) + wsum (bytes32 daddr) + wsum (net16 IPPROTO_UDP) + wsum (net16 len)
    + wsum (udphdr sport dport len 0) + wsum data.

(** The checksum that [send_packet] puts into the UDP header. *)
Definition udp_check (saddr daddr sport dport len : Z) (data : bytes) : Z :=
  65535 - fold16 (udp_total saddr daddr sport dport len data).

Lemma word_sums : (forall v, 0 <= wsum (net16 v) <= 65535) /\ (forall v, 0 <= wsum (bytes32 v) <= 131070) /\
  (forall sport dport len check, 0 <= wsum (udphdr sport dport len check) <= 262140).
Proof.
  assert (forall v, 0 <= u8 v < 256) as H by (intros v; apply wrap_range; lia).
  assert (forall v, 0 <= wsum (net16 v) <= 65535) as H16.
  { intros v. unfold net16. cbn [wsum]. pose proof (H v). pose proof (H (v ≫ 8)). lia. }
  split_and!; [done| |].
  - intros v. unfold bytes32. cbn [wsum]. pose proof (H v). pose proof (H (v ≫ 8)).
    pose proof (H (v ≫ 16)). pose proof (H (v ≫ 24)). lia.
  - intros s d l c. unfold udphdr, net16, bytes16. cbn [app wsum].
    pose proof (H s). pose proof (H (s ≫ 8)). pose proof (H d). pose proof (H (d ≫ 8)).
    pose proof (H l). pose proof (H (l ≫ 8)). pose proof (H c). pose proof (H (c ≫ 8)). lia.
Qed.

(** One more part of a running checksum. *)
Lemma checksum_next b s :
  is_bytes b -> 0 <= s -> wsum b < 2 ^ 31 -> checksum b (fold16 s) = Ret (fold16 (s + wsum b)).
Proof.
  intros Hb Hs Hw. pose proof (wsum_range b Hb). destruct (fold16_range s Hs) as [Hf _].
  rewrite checksum_fold16 by (done || lia). by rewrite fold16_add by lia.
Qed.

Lemma udp_sums saddr daddr sport dport len data :
  is_bytes data -> wsum data < 2 ^ 31 ->
  (s ← checksum (bytes32 saddr) 0; s ← checksum (bytes32 daddr) s; s ← checksum (net16 IPPROTO_UDP) s;
   s ← checksum (net16 len) s; s ← checksum (udphdr sport dport len 0) s; checksum data s)
  = Ret (fold16 (udp_total saddr daddr sport dport len data)).
Proof.
  intros Hd Hw. destruct word_sums as (W16 & W32 & WU). unfold udp_total.
  pose proof (W32 saddr). pose proof (W32 daddr). pose proof (W16 IPPROTO_UDP). pose proof (W16 len).
  pose proof (WU sport dport len 0).
  apply bind_Ret. eexists. split; [apply checksum_fold16; apply bytes32_bytes || lia|]. rewrite Z.add_0_l.
  apply bind_Ret. eexists. split; [apply checksum_next; apply bytes32_bytes || lia|].
  apply bind_Ret. eexists. split; [apply checksum_next; apply net16_bytes || lia|].
  apply bind_Ret. eexists. split; [apply checksum_next; apply net16_bytes || lia|].
  apply bind_Ret. eexists. split; [apply checksum_next; apply udphdr_bytes || lia|].
  apply checksum_next; done || lia.
Qed.

(** The packet that [send_packet] hands to the socket. *)
Lemma send_packet_spec msg size saddr daddr sport dport :
  is_bytes msg -> zlen msg = sizeof_dhcp_msg -> 0 <= size <= sizeof_dhcp_msg ->
  send_packet msg size saddr daddr sport dport =
    Ret (iphdr (28 + size) (65535 - fold16 (wsum (iphdr (28 + size) 0 saddr daddr))) saddr daddr
      ++ udphdr sport dport (8 + size) (udp_check saddr daddr sport dport (8 + size) (take (Z.to_nat size) msg))
      ++ take (Z.to_nat size) msg).
Proof.
  unfold sizeof_dhcp_msg. intros Hb Hz Hs. unfold send_packet, sizeof_iphdr, sizeof_udphdr.
  replace (20 + 8 + size) with (28 + size) by lia.
  apply bind_Ret. eexists. split; [apply mem_read_ok; lia|]. rewrite Z2Nat.inj_0, drop_0.
  assert (is_bytes (take (Z.to_nat size) msg)) as Hd by by apply Forall_take.
  pose proof (wsum_range _ Hd) as Hwd. rewrite zlen_take in Hwd.
  pose proof (udp_sums saddr daddr sport dport (8 + size) _ Hd ltac:(lia)) as Hu.
  set (data := take (Z.to_nat size) msg) in *.
  pose proof (wsum_range _ (iphdr_bytes (28 + size) 0 saddr daddr)) as Hwi.
  rewrite iphdr_len in Hwi.
  apply bind_Ret. eexists. split; [apply checksum_fold16; apply iphdr_bytes || lia|]. rewrite Z.add_0_l.
  rewrite finish_sum_spec by exact (proj1 (fold16_range _ (proj1 Hwi))).
  repeat (apply bind_Ret in Hu as (? & ? & Hu)).
  repeat (apply bind_Ret; eexists; split; [eassumption|]). apply f_equal.
  rewrite finish_sum_spec; [reflexivity|]. destruct word_sums as (W16 & W32 & WU). unfold udp_total.
  pose proof (W32 saddr). pose proof (W32 daddr). pose proof (W16 IPPROTO_UDP). pose proof (W16 (8 + size)).
  pose proof (WU sport dport (8 + size) 0). apply fold16_range. lia.
Qed.

(** ** Receiving what was sent *)

Section Receive.
Context (size ulen saddr daddr sport ipcheck check : Z) (data junk : bytes).
Context (Hsize : 0 <= size <= 1260) (Hulen : 0 <= ulen < 65536) (Hdata : zlen data = size) (Hbytes : is_bytes data).
Context (Hcheck : 0 <= check < 65536).

(** The buffer of [receive_packet]: a packet of [size] bytes of data whose UDP header
    announces the length [ulen], and the rest of the stack slot. *)
Definition wire : bytes :=
  iphdr (28 + size) ipcheck saddr daddr ++ udphdr sport PORT_BOOTP_CLIENT ulen check ++ data ++ junk.

Lemma wire_tot_len : get_be16 wire 2 = 28 + size.
Proof. change (get_be16 wire 2) with (be16 (net16 (28 + size))). apply be16_net16. lia. Qed.

Lemma wire_udp_len : get_be16 wire 24 = ulen.
Proof. change (get_be16 wire 24) with (be16 (net16 ulen)). apply be16_net16. lia. Qed.

Lemma wire_check : le16 (take 2 (drop 26 wire)) = check.
Proof. change (take 2 (drop 26 wire)) with (bytes16 check). by apply le16_bytes16. Qed.

Lemma wire_valid : packet_is_valid wire (28 + size) = true.
Proof.
  unfold packet_is_valid. rewrite wire_tot_len. change (wire !!! 0%nat) with 0x45. change (wire !!! 9%nat) with IPPROTO_UDP.
  change (get_be16 wire 22) with (be16 (net16 PORT_BOOTP_CLIENT)).
  unfold sizeof_iphdr, sizeof_udphdr.
  rewrite (proj2 (Z.ltb_ge _ _)) by lia. cbn. rewrite (proj2 (Z.ltb_ge _ _)) by lia. done.
Qed.

(** The bytes that the receiver sums: the pseudo header, the UDP header and the data. *)
Definition pseudo_udp : bytes :=
  ([0; 0] ++ net16 ulen ++ [0; 0; 0; 0; 0; IPPROTO_UDP; 0; 0] ++ bytes32 saddr ++ bytes32 daddr)
    ++ net16 sport ++ net16 PORT_BOOTP_CLIENT ++ net16 ulen ++ [0; 0].

Lemma wire_pseudo :
  pseudo_header wire ++ take 6 (drop 20 wire) ++ [0; 0] ++ drop 28 wire = pseudo_udp ++ data ++ junk.
Proof. reflexivity. Qed.

Lemma pseudo_udp_bytes : is_bytes (pseudo_udp ++ data).
Proof.
  unfold pseudo_udp, is_bytes. rewrite !Forall_app. split_and!; try apply net16_bytes; try apply bytes32_bytes; try done.
  all: repeat (apply Forall_cons_2; [by vm_compute|]); apply Forall_nil_2.
Qed.

Lemma pseudo_udp_wsum :
  wsum (pseudo_udp ++ data) = udp_total saddr daddr sport PORT_BOOTP_CLIENT ulen data.
Proof.
  rewrite wsum_app by by exists 14%nat. unfold udp_total, pseudo_udp, udphdr, net16, bytes32, bytes16. cbn [app wsum].
  change (u8 (0 ≫ 8)) with 0. change (u8 0) with 0. change (u8 (IPPROTO_UDP ≫ 8)) with 0.
  change (u8 IPPROTO_UDP) with 17. change IPPROTO_UDP with 17. lia.
Qed.
End Receive.

(** What [receive_packet] makes of a packet with correct checksums. *)
Lemma receive_wire size ulen saddr daddr sport data junk old :
  0 <= size <= 1260 -> 0 <= ulen < 65536 -> zlen data = size -> is_bytes data ->
  let check := udp_check saddr daddr sport PORT_BOOTP_CLIENT ulen data in
  receive_packet (wire size ulen saddr daddr sport (65535 - fold16 (wsum (iphdr (28 + size) 0 saddr daddr))) check data junk)
    (28 + size) old =
  if check =? 0 then Ret (-1, old) else
  if ulen <? 8 then Undef else
  d ← mem_read (data ++ junk) 0 (ulen - 8); msg ← mem_write old 0 d; Ret (ulen - 8, msg).
Proof.
  intros Hs Hu Hd Hb check. set (ic := 65535 - fold16 _).
  pose proof (wsum_range _ (iphdr_bytes (28 + size) 0 saddr daddr)) as Hwi.
  rewrite iphdr_len in Hwi.
  pose proof (proj1 (fold16_range _ (proj1 Hwi))) as Hf.
  assert (0 <= ic < 65536) as Hic by (unfold ic; lia).
  pose proof (pseudo_udp_bytes ulen saddr daddr sport data Hb) as Hpb.
  pose proof (wsum_range _ Hpb) as Hwp. rewrite (pseudo_udp_wsum ulen saddr daddr sport data), zlen_app in Hwp.
  assert (zlen (pseudo_udp ulen saddr daddr sport) = 28) as Hp28 by reflexivity. rewrite Hp28 in Hwp.
  destruct (fold16_range _ (proj1 Hwp)) as [Hfu Hfu0].
  assert (0 <= check < 65536) as Hc by (unfold check, udp_check; lia).
  assert (checksum (iphdr (28 + size) ic saddr daddr) 0 = Ret 65535) as Hipsum.
  { pose proof (wsum_range _ (iphdr_bytes (28 + size) ic saddr daddr)) as Hw'.
    rewrite iphdr_len in Hw'.
    rewrite checksum_fold16 by (apply iphdr_bytes || lia). rewrite iphdr_wsum by lia. rewrite Z.add_0_l.
    f_equal. apply fold16_complete. lia. }
  assert (mem_read (pseudo_udp ulen saddr daddr sport ++ data ++ junk) 0 (28 + size)
    = Ret (pseudo_udp ulen saddr daddr sport ++ data)) as Hread.
  { rewrite app_assoc. change (?a ++ junk) with ([] ++ a ++ junk). apply mem_read_app; [done|].
    rewrite zlen_app, Hp28. lia. }
  assert (checksum (pseudo_udp ulen saddr daddr sport ++ data) 0
    = Ret (fold16 (udp_total saddr daddr sport PORT_BOOTP_CLIENT ulen data))) as Hudp.
  { rewrite <-(pseudo_udp_wsum ulen saddr daddr sport data). rewrite checksum_fold16; [done|done|lia|].
    rewrite pseudo_udp_wsum. lia. }
  unfold receive_packet. rewrite (proj2 (Z.ltb_ge (28 + size) 0)) by lia. rewrite wire_valid by done. cbn [negb].
  change (take 20 (wire size ulen saddr daddr sport ic check data junk)) with (iphdr (28 + size) ic saddr daddr).
  rewrite Hipsum, bind_ret_l. change (negb (finish_sum 65535 =? 0)) with false. cbn iota.
  rewrite wire_tot_len, wire_udp_len, wire_pseudo by done. rewrite wire_check by done.
  rewrite Hread, bind_ret_l, Hudp, bind_ret_l.
  rewrite finish_sum_spec by done. fold (udp_check saddr daddr sport PORT_BOOTP_CLIENT ulen data). fold check.
  destruct (Z.eqb_spec check 0) as [E|E]; [by rewrite E|].
  rewrite Z.eqb_refl. cbn [negb]. unfold sizeof_udphdr.
  change (drop 28 (wire size ulen saddr daddr sport ic check data junk)) with (data ++ junk).
  destruct (Z.ltb_spec (ulen - 8) 0), (Z.ltb_spec ulen 8); try lia; done.
Qed.

(** ** Claims *)

(** C31: a message sent with [send_packet] to the client port is delivered by [receive_packet]
    unchanged, whatever its size: the checksums that one computes are those that the other verifies.  The
    only messages that are refused are those whose UDP checksum comes out as zero, because [send_packet] does
    not send 0xffff for it. *)
Theorem dhcp_packet_roundtrip msg size saddr daddr sport junk old :
  is_bytes msg -> zlen msg = sizeof_dhcp_msg -> 0 <= size <= sizeof_dhcp_msg ->
  zlen old = sizeof_dhcp_msg ->
  exists packet, send_packet msg size saddr daddr sport PORT_BOOTP_CLIENT = Ret packet /\
    zlen packet = 28 + size /\
    receive_packet (packet ++ junk) (zlen packet) old =
      if udp_check saddr daddr sport PORT_BOOTP_CLIENT (8 + size) (take (Z.to_nat size) msg) =? 0 then Ret (-1, old)
      else Ret (size, take (Z.to_nat size) msg ++ drop (Z.to_nat size) old).
Proof.
  intros Hb Hm Hs Ho. eexists. split; [by apply send_packet_spec|]. unfold sizeof_dhcp_msg in *.
  set (data := take (Z.to_nat size) msg) in *.
  assert (zlen data = size) as Hd by (unfold data; rewrite zlen_take; lia).
  assert (length data = Z.to_nat size) as Hdl by (unfold zlen in Hd; lia).
  match goal with |- zlen ?p = _ /\ _ => assert (zlen p = 28 + size) as Hp end.
  { rewrite !zlen_app, Hd, iphdr_len, udphdr_len. lia. }
  split; [exact Hp|]. rewrite Hp, <-!app_assoc.
  pose proof (receive_wire size (8 + size) saddr daddr sport data junk old ltac:(lia) ltac:(lia) Hd
    ltac:(by apply Forall_take)) as Hr. cbn zeta in Hr. unfold wire in Hr. rewrite Hr. case_match; [done|].
  rewrite (proj2 (Z.ltb_ge (8 + size) 8)) by lia.
  replace (8 + size - 8) with size by lia.
  apply bind_Ret. exists data. split.
  { change (data ++ junk) with ([] ++ data ++ junk). apply mem_read_app; [done|by rewrite Hd]. }
  apply bind_Ret. eexists. split; [apply mem_write_0; lia|]. by rewrite Hdl.
Qed.

Lemma dhcp_packet_roundtrip_witness :
  exists packet, send_packet (replicate 1260 3) 300 0 0xffffffff 67 PORT_BOOTP_CLIENT = Ret packet /\
    zlen packet = 28 + 300 /\
    receive_packet (packet ++ replicate 960 7) (zlen packet) (replicate 1260 0) =
      if udp_check 0 0xffffffff 67 PORT_BOOTP_CLIENT (8 + 300) (take (Z.to_nat 300) (replicate 1260 3)) =? 0
      then Ret (-1, replicate 1260 0)
      else Ret (300, take (Z.to_nat 300) (replicate 1260 3) ++ drop (Z.to_nat 300) (replicate 1260 0)).
Proof.
  apply (dhcp_packet_roundtrip (replicate 1260 3) 300 0 0xffffffff 67 (replicate 960 7) (replicate 1260 0)).
  - apply Forall_replicate. by vm_compute.
  - by vm_compute.
  - by vm_compute.
  - by vm_compute.
Defined.

(** [receive_packet] trusts the length in the UDP header: a packet of 28 bytes with correct
    checksums that announces less than a header or more than a message makes the final
    [memcpy] leave the message, whatever else is on the stack. *)
Theorem receive_packet_length_unchecked ulen saddr daddr sport junk old :
  0 <= ulen < 65536 -> ulen < 8 \/ 8 + sizeof_dhcp_msg < ulen -> zlen old = sizeof_dhcp_msg ->
  udp_check saddr daddr sport PORT_BOOTP_CLIENT ulen [] <> 0 ->
  exists packet, zlen packet = 28 /\ packet_is_valid (packet ++ junk) 28 = true /\
    get_be16 packet 24 = ulen /\ receive_packet (packet ++ junk) 28 old = Undef.
Proof.
  unfold sizeof_dhcp_msg. intros Hu Hbad Ho Hc.
  pose proof (receive_wire 0 ulen saddr daddr sport [] junk old ltac:(lia) Hu eq_refl ltac:(by constructor)) as Hr.
  cbn zeta in Hr. unfold wire in Hr. cbn [app] in Hr. rewrite app_assoc in Hr.
  match type of Hr with receive_packet (?p ++ junk) _ _ = _ => exists p end.
  split_and!; [by rewrite zlen_app, iphdr_len, udphdr_len| | |etrans; [exact Hr|]].
  - rewrite <-app_assoc. apply (wire_valid 0 ulen saddr daddr sport _ _ [] junk). lia.
  - etrans; [|apply (be16_net16 ulen); lia]. reflexivity.
  - rewrite (proj2 (Z.eqb_neq _ 0) Hc). destruct (Z.ltb_spec ulen 8); [done|].
    destruct (decide (ulen - 8 <= zlen junk)) as [Hj|Hj].
    2: { unfold mem_read. rewrite (proj2 (Z.leb_gt (0 + (ulen - 8)) (zlen junk))) by lia.
         by rewrite andb_false_r. }
    rewrite mem_read_ok by lia. rewrite bind_ret_l. set (d := take _ _).
    assert (zlen d = ulen - 8) as Hd
      by (unfold d; autorewrite with zlen; change (Z.to_nat 0) with 0%nat; lia).
    unfold mem_write. rewrite (proj2 (Z.leb_gt (0 + zlen d) (zlen old))) by lia. done.
Qed.

Lemma receive_packet_length_unchecked_witness :
  exists packet, zlen packet = 28 /\ packet_is_valid (packet ++ replicate 1260 0) 28 = true /\
    get_be16 packet 24 = 2000 /\ receive_packet (packet ++ replicate 1260 0) 28 (replicate 1260 0) = Undef.
Proof.
  apply (receive_packet_length_unchecked 2000 0x0100000a 0xffffffff 67).
  - by vm_compute.
  - right. by vm_compute.
  - by vm_compute.
  - by vm_compute.
Defined.

(** [send_packet] does not replace a UDP checksum of zero by all ones, as RFC 768 asks, and
    [receive_packet] expects all ones: the discover message of one transaction in some
    65536 is sent with the checksum zero and refused by the receiving side. *)
Theorem send_packet_zero_checksum :
  exists xid packet,
    let '(msg, size) := init_dhcp_discover_msg [2; 0; 0; 0; 0; 1] xid in
    send_packet msg size 0 0xffffffff 67 PORT_BOOTP_CLIENT = Ret packet /\
    take 2 (drop 26 packet) = [0; 0] /\
    receive_packet (packet ++ replicate 1010 0) (zlen packet) (replicate 1260 0) = Ret (-1, replicate 1260 0).
Proof.
  exists 15715.
  exists (match send_packet (init_dhcp_discover_msg [2; 0; 0; 0; 0; 1] 15715).1 250 0 0xffffffff 67 PORT_BOOTP_CLIENT
          with Ret p => p | _ => [] end).
  vm_compute. repeat split.
Qed.
