(* ===== verification/DhcpClient.v ===== *)
(** The DHCP client: the state machine of [dhcp_init_ifc] in src/dhcpc/dhcpclient.c.

    The answers of [poll] and [read] are the events of the machine; a step handles one event
    up to the next [poll].  [dhcp_configure] ends the machine with the information that is
    stored in [last_good_info] and given to [ifc_configure]. *)

From S2P Require Import Prelude DhcpMsg DhcpMsgSpec DhcpPacket DhcpPacketSpec.

Definition TIMEOUT_INITIAL : Z := 4000.
Definition TIMEOUT_MAX : Z := 32000.
Definition EINTR : Z := 4.
Definition ENXIO : Z := 6.
Definition EAGAIN : Z := 11.
Definition ENETDOWN : Z := 100.

Inductive phase := STATE_SELECTING | STATE_REQUESTING.

#[export] Instance phase_eq_dec : EqDecision phase.
Proof. solve_decision. Defined.

(** The automatic variables of [dhcp_init_ifc] that live across iterations. *)
Record client := mk_client {
  state : phase;
  timeout : Z;
  xid : Z;
  info : dhcp_info;
  discover_msg : dhcp_msg;
  request_msg : dhcp_msg;
  reply : dhcp_msg
}.

(** What [poll] and then [read] report. *)
Inductive event :=
| PollTimeout
| PollError (errno : Z)
| ReadError (errno : Z)
| Packet (packet : bytes) (nread : Z).

(** After an event: another iteration, with the packets handed to the socket, or the end
    with the information given to [dhcp_configure], or with an error. *)
Inductive result :=
| Continue (c : client) (sent : list bytes)
| Configured (i : dhcp_info)
| Failed.

(** ** dump_dhcp_msg

    The text goes to the log, which is not modelled; what is read to write it is.  The buffer of
    [dump_dhcp_msg] starts uninitialised, [None], and to log it is to read it up to its NUL. *)

Abbreviation buffer := (list (option Z)).

Fixpoint read_text (b : buffer) : outcome bytes :=
  match b with
  | Some x :: b => if x =? 0 then Ret [] else t ← read_text b; Ret (x :: t)
  | _ => Undef
  end.

(** [snprintf] of [text] to [buf + cp], where the [n] bytes up to the end are left. *)
Definition snprintf (buf : buffer) (cp n : Z) (text : bytes) : outcome buffer :=
  if n =? 0 then Ret buf else mem_write buf cp (Some <$> take (Z.to_nat (n - 1)) text ++ [0]).

Definition hex_digit (d : Z) : Z := if d <? 10 then 48 + d else 87 + d.

(** [hex2str], from the byte [i] of [array] on, with [len] bytes to go; each prints as four characters. *)
Fixpoint hex2str (len : nat) (buf : buffer) (cp : Z) (array : bytes) (i : Z) : outcome buffer :=
  match len with
  | O => Ret buf
  | S len =>
      b ← mem_get array i;
      buf ← snprintf buf cp (u64 (zlen buf - cp)) [32; hex_digit (Z.shiftr b 4); hex_digit (Z.land b 15); 32];
      hex2str len buf (cp + 4) array (i + 1)
  end.

(** The strings of the message are made printable in place: the bytes up to the first NUL are treated, then the
    last byte is cleared. *)
Fixpoint printable (b : bytes) : bytes :=
  match b with
  | [] => []
  | x :: b => if x =? 0 then x :: b else (if (x <? 32) || (127 <? x) then 46 else x) :: printable b
  end.
Definition dump_string (msg : dhcp_msg) (off n : nat) : dhcp_msg :=
  store (store msg off (printable (field msg off n))) (off + n - 1) [0].

Definition OPT_DOMAIN_NAME : Z := 15.
Definition OPT_MESSAGE : Z := 56.

(** The loop over the options; [x] is the position in [options]. *)
Fixpoint dump_loop (fuel : nat) (buf : buffer) (options : bytes) (x len : Z) : outcome () :=
  if len <=? 2 then Ret () else
  match fuel with
  | O => Undef
  | S fuel =>
      opt ← mem_get options x;
      if opt =? 0 then dump_loop fuel buf options (x + 1) (len - 1)
      else if opt =? OPT_END then Ret ()
      else
        let len := len - 2 in
        optsz ← mem_get options (x + 1);
        if len <? optsz then Ret ()
        else
          buf ← (if (opt =? OPT_DOMAIN_NAME) || (opt =? OPT_MESSAGE) then
                   let n := if optsz <? 2048 - 1 then optsz else 2048 - 1 in
                   d ← mem_read options (x + 2) n;
                   buf ← mem_write buf 0 (Some <$> d);
                   mem_set buf n (Some 0)
                 else hex2str (Z.to_nat optsz) buf 0 options (x + 2));
          _ ← (if opt =? OPT_MESSAGE_TYPE then mem_get options (x + 2) else Ret 0);
          _ ← read_text buf;
          dump_loop fuel buf options (x + optsz + 2) (len - optsz)
  end.

Definition dump_dhcp_msg (msg : dhcp_msg) (len : Z) : outcome dhcp_msg :=
  if len <? DHCP_MSG_FIXED_SIZE then Ret msg else
  let len := len - DHCP_MSG_FIXED_SIZE in
  let c := if 16 <? msg_hlen msg then 16 else msg_hlen msg in
  buf ← hex2str (Z.to_nat c) (replicate 2048 None) 0 (msg_chaddr msg) 0;
  _ ← read_text buf;
  let msg := dump_string (dump_string msg 44 64) 108 128 in
  _ ← read_text (Some <$> field msg 44 64);
  _ ← read_text (Some <$> field msg 108 128);
  if len <? 4 then Ret msg else
  _ ← dump_loop (Z.to_nat (len - 4)) buf (msg_options msg) 4 (len - 4);
  Ret msg.

Section Machine.
Context (hwaddr : bytes).

(** [send_message]: a failing [sendmsg] is only logged. *)
Definition send_message (msg : dhcp_msg) (size : Z) : outcome bytes :=
  send_packet msg size 0 0xffffffff PORT_BOOTP_CLIENT PORT_BOOTP_SERVER.

(** The code at the label [transmit]. *)
Definition transmit (c : client) : outcome result :=
  match state c with
  | STATE_SELECTING =>
      let '(msg, size) := init_dhcp_discover_msg hwaddr (xid c) in
      p ← send_message msg size;
      Ret (Continue (mk_client (state c) (timeout c) (xid c) (info c) msg (request_msg c) (reply c)) [p])
  | STATE_REQUESTING =>
      let '(msg, size) := init_dhcp_request_msg hwaddr (xid c) (ipaddr (info c)) (serveraddr (info c)) in
      p ← send_message msg size;
      Ret (Continue (mk_client (state c) (timeout c) (xid c) (info c) (discover_msg c) msg (reply c)) [p])
  end.

(** The part of the loop after a successful [receive_packet] of [r] bytes. *)
Definition handle_reply (c : client) (r : Z) : outcome result :=
  rep ← dump_dhcp_msg (reply c) r;
  '(i, _) ← decode_dhcp_msg rep r;
  let msg := match state c with STATE_SELECTING => discover_msg c | STATE_REQUESTING => request_msg c end in
  let c := mk_client (state c) (timeout c) (xid c) i (discover_msg c) (request_msg c) rep in
  if negb (is_valid_reply msg rep r) then Ret (Continue c [])
  else match state c with
       | STATE_SELECTING =>
           if type i =? DHCPOFFER
           then transmit (mk_client STATE_REQUESTING TIMEOUT_INITIAL (u32 (xid c + 1)) i
                            (discover_msg c) (request_msg c) rep)
           else Ret (Continue c [])
       | STATE_REQUESTING =>
           if type i =? DHCPACK then Ret (Configured i)
           else if type i =? DHCPNAK then Ret Failed
           else Ret (Continue c [])
       end.

Definition step (c : client) (e : event) : outcome result :=
  match e with
  | PollTimeout =>
      if TIMEOUT_MAX <=? timeout c then
        if type (info c) =? DHCPOFFER then Ret (Configured (info c)) else Ret Failed
      else transmit (mk_client (state c) (timeout c * 2) (xid c) (info c) (discover_msg c) (request_msg c) (reply c))
  | PollError errno =>
      if (errno =? EAGAIN) || (errno =? EINTR) then Ret (Continue c []) else Ret Failed
  | ReadError errno =>
      if (errno =? ENETDOWN) || (errno =? ENXIO) then Ret Failed else Ret (Continue c [])
  | Packet packet nread =>
      '(r, rep) ← receive_packet packet nread (reply c);
      let c := mk_client (state c) (timeout c) (xid c) (info c) (discover_msg c) (request_msg c) rep in
      if r <? 0 then Ret (Continue c []) else handle_reply c r
  end.

(** [dhcp_init_ifc] up to the first [poll]: [msecs] is the clock, and everything but
    [info.type] is uninitialised. *)
Definition start (msecs : Z) (junk : dhcp_info) (d rq rp : dhcp_msg) : outcome result :=
  transmit (mk_client STATE_SELECTING TIMEOUT_INITIAL (u32 msecs) (set_type 0 junk) d rq rp).

(** The machine over a sequence of events: the packets sent and, when it ended within the
    sequence, how. *)
Fixpoint run (c : client) (es : list event) : outcome (list bytes * result) :=
  match es with
  | [] => Ret ([], Continue c [])
  | e :: es =>
      r ← step c e;
      match r with
      | Continue c sent => '(more, fin) ← run c es; Ret (sent ++ more, fin)
      | fin => Ret ([], fin)
      end
  end.

Definition dhcp_init_ifc (msecs : Z) (junk : dhcp_info) (d rq rp : dhcp_msg) (es : list event)
    : outcome (list bytes * result) :=
  r ← start msecs junk d rq rp;
  match r with
  | Continue c sent => '(more, fin) ← run c es; Ret (sent ++ more, fin)
  | fin => Ret ([], fin)
  end.
End Machine.

(** ** The messages *)

Lemma store_len msg off data : (off + length data <= length msg)%nat -> length (store msg off data) = length msg.
Proof. intros. unfold store. rewrite !length_app, length_take, length_drop. lia. Qed.

Lemma store_bytes msg off data : is_bytes msg -> is_bytes data -> is_bytes (store msg off data).
Proof. intros. unfold store, is_bytes. rewrite !Forall_app. split_and!; [by apply Forall_take|done|by apply Forall_drop]. Qed.

(** A store does not touch the members outside it. *)
Lemma field_store msg off data o n :
  (o + n <= off \/ off + length data <= o)%nat -> (off + length data <= length msg)%nat ->
  field (store msg off data) o n = field msg o n.
Proof.
  intros Hd Hl. unfold field, store. destruct Hd as [Hd|Hd].
  - rewrite drop_app_le by (rewrite length_take; lia). rewrite take_app_le by (rewrite length_drop, length_take; lia).
    rewrite skipn_firstn_comm, take_take. f_equal. lia.
  - rewrite drop_app_ge by (rewrite length_take; lia). rewrite length_take.
    rewrite drop_app_ge by lia. rewrite drop_drop. do 2 f_equal. lia.
Qed.

Lemma printable_len b : length (printable b) = length b.
Proof. induction b as [|x b IH]; [done|]. cbn [printable]. case_match; cbn; lia. Qed.

Lemma printable_bytes b : is_bytes b -> is_bytes (printable b).
Proof.
  unfold is_bytes. induction 1 as [|x b Hx Hb IH]; [constructor|]. cbn [printable].
  case_match; constructor; try done. case_match; [by vm_compute|done].
Qed.

(** A received message: the 1260 bytes of the structure. *)
Definition msg_ok (msg : dhcp_msg) : Prop := is_bytes msg /\ length msg = 1260%nat.

Lemma dump_string_ok msg off n :
  msg_ok msg -> (off + n <= 1260)%nat -> (0 < n)%nat ->
  msg_ok (dump_string msg off n) /\
  forall o k, (o + k <= off \/ off + n <= o)%nat -> field (dump_string msg off n) o k = field msg o k.
Proof.
  intros [Hb Hl] Hn Hpos. unfold dump_string.
  assert (length (printable (field msg off n)) = n) as Hp.
  { rewrite printable_len. unfold field. rewrite length_take, length_drop. lia. }
  assert (length (store msg off (printable (field msg off n))) = length msg) as Hs by (apply store_len; lia).
  split; [split|].
  - apply store_bytes; [|by constructor]. apply store_bytes; [done|]. apply printable_bytes.
    apply Forall_take, Forall_drop, Hb.
  - rewrite store_len; [lia|cbn; lia].
  - intros o k Hd. rewrite field_store by (cbn [length]; lia). apply field_store; lia.
Qed.

(** What is left of a message after it was logged. *)
Definition printed (msg : dhcp_msg) (len : Z) : dhcp_msg :=
  if len <? DHCP_MSG_FIXED_SIZE then msg else dump_string (dump_string msg 44 64) 108 128.

Lemma printed_ok msg len :
  msg_ok msg -> msg_ok (printed msg len) /\
  (forall o k, (o + k <= 44 \/ 236 <= o)%nat -> field (printed msg len) o k = field msg o k).
Proof.
  intros Hm. unfold printed. case_match; [done|].
  destruct (dump_string_ok msg 44 64 Hm ltac:(lia) ltac:(lia)) as [H1 F1].
  destruct (dump_string_ok _ 108 128 H1 ltac:(lia) ltac:(lia)) as [H2 F2].
  split; [done|]. intros o k Ho. rewrite F2 by lia. apply F1. lia.
Qed.

(** ** What the log reads *)

(** The buffer holds a string. *)
Definition text_in (buf : buffer) : Prop := exists b rest, buf = (Some <$> b) ++ Some 0 :: rest.

Lemma read_text_in buf : text_in buf -> exists t, read_text buf = Ret t.
Proof.
  intros (b & rest & ->). induction b as [|x b [t IH]]; cbn; [eauto|]. case_match; [eauto|]. rewrite IH. cbn. eauto.
Qed.

Lemma text_in_bytes l : 0 ∈ l -> text_in (Some <$> l).
Proof. intros (l1 & l2 & ->)%list_elem_of_split. exists l1, (Some <$> l2). by rewrite fmap_app, fmap_cons. Qed.

(** [hex2str] of at least one byte leaves a string, and of none leaves the buffer as it was. *)
Lemma hex2str_ok array n : forall buf b rest i,
  buf = (Some <$> b) ++ rest -> zlen buf = 2048 -> zlen b + 4 * Z.of_nat n + 1 <= 2048 -> 0 <= i -> i + Z.of_nat n <= zlen array ->
  exists buf', hex2str n buf (zlen b) array i = Ret buf' /\ zlen buf' = 2048 /\ (n = 0%nat -> buf' = buf) /\ (n <> 0%nat -> text_in buf').
Proof.
  induction n as [|n IH]; intros buf b rest i Eb Hl Hc Hi Ha; [by exists buf|]. cbn [hex2str].
  destruct (mem_get_in array i ltac:(lia)) as (y & -> & _). rewrite bind_ret_l. set (text := [32; _; _; 32]).
  pose proof (zlen_nonneg b). rewrite Hl. unfold snprintf. rewrite u64_small by lia. rewrite (proj2 (Z.eqb_neq _ 0)) by lia.
  rewrite (take_ge text) by (cbn; lia).
  assert (zlen rest = 2048 - zlen b) as Hr by (rewrite Eb, zlen_app in Hl; unfold zlen in *; rewrite length_fmap in Hl; lia).
  assert (mem_write buf (zlen b) (Some <$> text ++ [0]) = Ret ((Some <$> b ++ text) ++ Some 0 :: drop 5 rest)) as Hw.
  { rewrite Eb, <-(take_drop 5 rest) at 1. rewrite mem_write_app.
    - f_equal. rewrite !fmap_app. by rewrite <-!app_assoc.
    - unfold zlen. by rewrite length_fmap.
    - rewrite length_take, Nat.min_l; [done|]. unfold zlen in *. lia. }
  rewrite Hw, bind_ret_l. replace (zlen b + 4) with (zlen (b ++ text)) by (rewrite zlen_app; reflexivity).
  destruct (IH ((Some <$> b ++ text) ++ Some 0 :: drop 5 rest) (b ++ text) (Some 0 :: drop 5 rest) (i + 1)) as (buf' & E & Hl' & H0 & H1); [done| | |lia|lia|].
  { rewrite <-Hl. unfold zlen. by rewrite (mem_write_len _ _ _ _ Hw). }
  { rewrite zlen_app. change (zlen text) with 4. lia. }
  exists buf'. split_and!; [done|done|done|]. intros _. destruct n as [|n]; [|by apply H1]. rewrite H0 by done.
  by exists (b ++ text), (drop 5 rest).
Qed.

Lemma hex2str_in array n buf i : text_in buf -> zlen buf = 2048 -> Z.of_nat n <= 255 -> 0 <= i -> i + Z.of_nat n <= zlen array ->
  exists buf', hex2str n buf 0 array i = Ret buf' /\ zlen buf' = 2048 /\ text_in buf'.
Proof.
  intros Ht Hl Hn Hi Ha. destruct (hex2str_ok array n buf [] buf i) as (buf' & E & Hl' & H0 & H1); [done..|change (zlen (@nil Z)) with 0; lia|done|done|].
  exists buf'. split_and!; [done|done|]. destruct n; [by rewrite H0|by apply H1].
Qed.

Lemma dump_loop_safe fuel : forall buf options x len,
  is_bytes options -> zlen buf = 2048 -> text_in buf -> 0 <= x -> x + len <= zlen options -> len <= Z.of_nat fuel ->
  dump_loop fuel buf options x len = Ret ().
Proof.
  induction fuel as [|fuel IH]; intros buf options x len Hb Hl Ht Hx Ho Hf; cbn [dump_loop]; (destruct (Z.leb_spec len 2); [done|]); [lia|].
  destruct (mem_get_in options x ltac:(lia)) as (opt & -> & _). rewrite bind_ret_l.
  destruct (opt =? 0); [apply IH; (done || lia)|]. destruct (opt =? OPT_END); [done|].
  destruct (mem_get_in options (x + 1) ltac:(lia)) as (n & -> & Hn). rewrite bind_ret_l.
  pose proof (Forall_lookup_1 _ _ _ _ Hb Hn) as Hr. unfold in_range in Hr. destruct (Z.ltb_spec (len - 2) n); [done|].
  match goal with |- (?m ≫= _) = _ => assert (exists buf', m = Ret buf' /\ zlen buf' = 2048 /\ text_in buf') as (buf' & -> & Hl' & Ht') end.
  { destruct (_ || _); [|apply hex2str_in; (done || lia)]. rewrite (proj2 (Z.ltb_lt n (2048 - 1))) by lia. cbn zeta.
    rewrite mem_read_ok by lia. rewrite bind_ret_l. set (d := take _ _).
    assert (length d = Z.to_nat n) as Hd by (unfold d; rewrite length_take, length_drop; unfold zlen in *; lia).
    assert (zlen (Some <$> d) = n) as Hdz by (unfold zlen; rewrite length_fmap; lia).
    assert (zlen (Some <$> d) <= zlen buf) as Hle by lia. pose proof (mem_write_0 _ _ Hle) as Hw. rewrite Hw, bind_ret_l.
    pose proof (mem_write_len _ _ _ _ Hw) as Hwl. rewrite mem_set_ok by (unfold zlen in *; rewrite Hwl; lia).
    eexists. split_and!; [done|unfold zlen in *; by rewrite length_insert, Hwl|].
    exists d, (drop (Z.to_nat n + 1) buf). rewrite insert_app_r_alt by (rewrite length_fmap; lia). rewrite length_fmap, Hd, Nat.sub_diag. f_equal.
    destruct (lookup_lt_is_Some_2 buf (Z.to_nat n)) as [y Hy]; [unfold zlen in Hl; lia|]. rewrite (drop_S buf y _ Hy). cbn. by rewrite Nat.add_1_r. }
  rewrite bind_ret_l. match goal with |- (?m ≫= _) = _ => assert (exists y, m = Ret y) as [y ->] end.
  { case_match; [|eauto]. destruct (mem_get_in options (x + 2) ltac:(lia)) as (y & -> & _). eauto. }
  rewrite bind_ret_l. destruct (read_text_in buf' Ht') as [t ->]. rewrite bind_ret_l. apply IH; (done || lia).
Qed.

Lemma dump_string_text msg off n : (off + n <= length msg)%nat -> (0 < n)%nat -> 0 ∈ field (dump_string msg off n) off n.
Proof.
  intros Hl Hn. apply list_elem_of_lookup. exists (n - 1)%nat. unfold field. rewrite lookup_take_lt, lookup_drop by lia.
  unfold dump_string. assert (length (store msg off (printable (field msg off n))) = length msg) as Hs.
  { apply store_len. rewrite printable_len. unfold field. rewrite length_take, length_drop. lia. }
  unfold store at 1. rewrite lookup_app_r by (rewrite length_take; lia). rewrite length_take. 
  replace (off + (n - 1) - _)%nat with 0%nat by lia. done.
Qed.

(** A message is logged when it is shorter than the fixed part or names the length of its hardware address;
    otherwise the buffer is read that nothing was written to. *)
Lemma dump_dhcp_msg_cases msg len : msg_ok msg -> len <= 1260 ->
  dump_dhcp_msg msg len = if (236 <=? len) && (msg_hlen msg =? 0) then Undef else Ret (printed msg len).
Proof.
  intros Hm Hlen. unfold dump_dhcp_msg, printed, DHCP_MSG_FIXED_SIZE. destruct (Z.ltb_spec len 236); [by rewrite (proj2 (Z.leb_gt 236 len))|].
  rewrite (proj2 (Z.leb_le 236 len)) by done. cbn [andb]. destruct Hm as [Hb Hl].
  destruct (lookup_lt_is_Some_2 msg 2%nat ltac:(lia)) as [h Hh]. unfold msg_hlen. rewrite (list_lookup_total_correct _ _ _ Hh).
  pose proof (Forall_lookup_1 _ _ _ _ Hb Hh) as Hr. unfold in_range in Hr. destruct (Z.eqb_spec h 0) as [->|Hne]; [done|].
  set (c := if 16 <? h then 16 else h). assert (1 <= c <= 16) as Hc by (unfold c; case_match; lia).
  assert (zlen (msg_chaddr msg) = 16) as Hch by (unfold zlen, msg_chaddr, field; rewrite length_take, length_drop; lia).
  destruct (hex2str_ok (msg_chaddr msg) (Z.to_nat c) (replicate 2048 None) [] (replicate 2048 None) 0) as (buf & E & Hbl & _ & Ht);
    [done|done|change (zlen (@nil Z)) with 0; lia|done|lia|]. change (zlen (@nil Z)) with 0 in E. rewrite E, bind_ret_l. specialize (Ht ltac:(lia)).
  destruct (read_text_in buf Ht) as [t ->]. rewrite bind_ret_l.
  destruct (dump_string_ok msg 44 64 (conj Hb Hl) ltac:(lia) ltac:(lia)) as [H1 F1].
  destruct (dump_string_ok _ 108 128 H1 ltac:(lia) ltac:(lia)) as [H2 F2].
  destruct (read_text_in (Some <$> field (dump_string (dump_string msg 44 64) 108 128) 44 64)) as [t1 ->].
  { apply text_in_bytes. rewrite F2 by lia. apply dump_string_text; lia. }
  destruct (read_text_in (Some <$> field (dump_string (dump_string msg 44 64) 108 128) 108 128)) as [t2 ->].
  { apply text_in_bytes, dump_string_text; [rewrite (proj2 H1)|]; lia. }
  rewrite !bind_ret_l. case_match; [done|]. rewrite dump_loop_safe; [done|..].
  - apply Forall_take, Forall_drop, H2.
  - done.
  - done.
  - lia.
  - unfold zlen, msg_options, field. rewrite length_take, length_drop, (proj2 H2). lia.
  - lia.
Qed.

Lemma init_dhcp_msg_ok type hwaddr xid :
  is_bytes hwaddr -> (6 <= length hwaddr)%nat -> msg_ok (init_dhcp_msg type hwaddr xid).1.
Proof.
  intros Hh Hl. unfold init_dhcp_msg. cbn [fst].
  assert (forall l, is_bytes l -> (length l <= 10)%nat -> forall m off, (off <= 1240)%nat -> msg_ok m -> msg_ok (store m off l)) as Hst.
  { intros l Hb Hlen m off Ho [Hm Hml]. split; [by apply store_bytes|]. rewrite store_len; [done|lia]. }
  assert (msg_ok (replicate (Z.to_nat sizeof_dhcp_msg) 0)) as H0.
  { split; [apply Forall_replicate; by vm_compute|done]. }
  repeat apply Hst; try done; try lia.
  all: try (apply bytes32_bytes || (apply Forall_take; exact Hh)).
  all: try (rewrite length_take; lia).
  all: try (unfold bytes32; cbn [length]; lia).
  all: repeat (apply Forall_cons_2; [first [by vm_compute|apply wrap_range; lia]|]); apply Forall_nil_2.
Qed.

Lemma init_dhcp_msg_pair type hwaddr xid : init_dhcp_msg type hwaddr xid = ((init_dhcp_msg type hwaddr xid).1, 7%nat).
Proof. reflexivity. Qed.

Lemma discover_ok hwaddr xid :
  is_bytes hwaddr -> length hwaddr = 6%nat ->
  msg_ok (init_dhcp_discover_msg hwaddr xid).1 /\ (init_dhcp_discover_msg hwaddr xid).2 = 250.
Proof.
  intros Hh Hl. pose proof (init_dhcp_msg_ok DHCPDISCOVER hwaddr xid Hh ltac:(lia)) as [Hb Hm]. split; [|done].
  unfold init_dhcp_discover_msg. rewrite init_dhcp_msg_pair. cbn [fst snd]. split.
  - apply store_bytes; [exact Hb|]. repeat (apply Forall_cons_2; [by vm_compute|]); apply Forall_nil_2.
  - rewrite store_len; [exact Hm|]. rewrite Hm. cbn. lia.
Qed.

Lemma request_ok hwaddr xid ip server :
  is_bytes hwaddr -> length hwaddr = 6%nat ->
  msg_ok (init_dhcp_request_msg hwaddr xid ip server).1 /\ (init_dhcp_request_msg hwaddr xid ip server).2 = 262.
Proof.
  intros Hh Hl. pose proof (init_dhcp_msg_ok DHCPREQUEST hwaddr xid Hh ltac:(lia)) as [Hb Hm]. split; [|done].
  unfold init_dhcp_request_msg. rewrite init_dhcp_msg_pair. cbn [fst snd]. split.
  - apply store_bytes; [exact Hb|].
    repeat (apply Forall_cons_2; [first [by vm_compute|apply wrap_range; lia]|]); apply Forall_nil_2.
  - rewrite store_len; [exact Hm|]. rewrite Hm. cbn. lia.
Qed.

(** ** The invariant of the machine *)

(** Printing a message leaves what the client reads of it alone. *)
Lemma printed_decode msg len : msg_ok msg -> decode_dhcp_msg (printed msg len) len = decode_dhcp_msg msg len.
Proof.
  intros Hm. destruct (printed_ok msg len Hm) as [_ Hf].
  unfold decode_dhcp_msg, msg_options, msg_yiaddr. by rewrite !Hf by lia.
Qed.

Lemma field_get msg o : (o < length msg)%nat -> field msg o 1 = [msg !!! o].
Proof.
  intros Ho. unfold field. destruct (lookup_lt_is_Some_2 msg o Ho) as [x Hx].
  by rewrite (drop_S msg x o Hx), (list_lookup_total_correct msg o x Hx).
Qed.

Lemma printed_valid msg rep len :
  msg_ok rep -> is_valid_reply msg (printed rep len) len = is_valid_reply msg rep len.
Proof.
  intros Hm. destruct (printed_ok rep len Hm) as [[_ Hl'] Hf]. destruct Hm as [_ Hl].
  assert (forall o, (o < 44)%nat -> printed rep len !!! o = rep !!! o) as Hg.
  { intros o Ho. pose proof (Hf o 1%nat ltac:(lia)) as H. rewrite !field_get in H by lia. by injection H. }
  unfold is_valid_reply, msg_op, msg_htype, msg_hlen, msg_xid, msg_chaddr. by rewrite !Hg, !Hf by lia.
Qed.

(** A packet that the final [memcpy] of [receive_packet] can take. *)
Definition event_ok (e : event) : Prop :=
  match e with
  | Packet packet nread =>
      is_bytes packet /\ zlen packet = sizeof_packet /\ nread <= sizeof_packet /\ 8 <= get_be16 packet 24 <= 1268
  | _ => True
  end.

Lemma checksum_total b : is_bytes b -> zlen b <= sizeof_packet -> exists v, checksum b 0 = Ret v.
Proof.
  unfold sizeof_packet. intros Hb Hl. pose proof (wsum_range b Hb). rewrite checksum_fold16; [eauto|done|lia|lia].
Qed.

Lemma pseudo_packet_ok packet :
  is_bytes packet -> zlen packet = sizeof_packet ->
  let p0 := pseudo_header packet ++ take 6 (drop 20 packet) ++ [0; 0] ++ drop 28 packet in
  is_bytes p0 /\ zlen p0 = sizeof_packet.
Proof.
  intros Hb Hl p0. unfold sizeof_packet in *. unfold p0, pseudo_header. split.
  - unfold is_bytes in *. rewrite !Forall_app. split_and!; auto using Forall_take, Forall_drop.
    all: repeat (apply Forall_cons_2; [by vm_compute|]); apply Forall_nil_2.
  - autorewrite with zlen. unfold zlen in *. cbn [length]. lia.
Qed.

Lemma be16_nonneg b : is_bytes b -> 0 <= be16 b.
Proof.
  intros Hb. destruct b as [|x [|y [|? ?]]]; cbn [be16]; try lia.
  apply Forall_cons in Hb as [Hx Hb]. apply Forall_cons in Hb as [Hy _]. unfold in_range in *. lia.
Qed.

(** Of such packets [receive_packet] makes a message or reports -1. *)
Lemma receive_total packet nread old :
  event_ok (Packet packet nread) -> msg_ok old ->
  exists r rep, receive_packet packet nread old = Ret (r, rep) /\ msg_ok rep /\ r <= sizeof_dhcp_msg /\
    (236 <= r -> msg_hlen rep = packet !!! 30%nat).
Proof.
  intros (Hb & Hl & Hn & Hu) Ho. unfold receive_packet.
  destruct (nread <? 0); [eexists _, _; split_and!; [done|done|by vm_compute|lia]|].
  destruct (packet_is_valid packet nread) eqn:Ev; [|eexists _, _; split_and!; [done|done|by vm_compute|lia]].
  cbn [negb].
  assert (0 <= get_be16 packet 2 <= nread) as Htot.
  { unfold packet_is_valid in Ev. split.
    - apply be16_nonneg, Forall_take, Forall_drop, Hb.
    - do 2 (case_match; [done|]). destruct (Z.ltb_spec nread (get_be16 packet 2)); [done|lia]. }
  destruct (checksum_total (take 20 packet)) as [v ->].
  { by apply Forall_take. } { autorewrite with zlen. lia. }
  rewrite bind_ret_l. case_match; [eexists _, _; split_and!; [done|done|by vm_compute|lia]|].
  pose proof (pseudo_packet_ok packet Hb Hl) as Hp. cbn zeta in Hp. set (p0 := pseudo_header packet ++ _) in *.
  destruct Hp as [Hpb Hpl].
  rewrite (mem_read_ok p0) by lia. rewrite bind_ret_l.
  destruct (checksum_total (take (Z.to_nat (get_be16 packet 2)) (drop (Z.to_nat 0) p0))) as [v' ->].
  { by apply Forall_take, Forall_drop. } { change (Z.to_nat 0) with 0%nat. rewrite drop_0. autorewrite with zlen. lia. }
  rewrite bind_ret_l. case_match; [eexists _, _; split_and!; [done|done|by vm_compute|lia]|].
  unfold sizeof_udphdr. rewrite (proj2 (Z.ltb_ge _ 0)) by lia.
  rewrite mem_read_ok by (autorewrite with zlen; unfold sizeof_packet in *; lia).
  rewrite bind_ret_l. change (drop (Z.to_nat 0) (drop 28 packet)) with (drop 28 packet).
  set (d := take _ _). destruct Ho as [Hob Hol].
  assert (zlen d = get_be16 packet 24 - 8) as Hd.
  { unfold d. autorewrite with zlen. unfold sizeof_packet in *. lia. }
  rewrite mem_write_0 by (rewrite Hd; unfold zlen; lia). rewrite bind_ret_l.
  eexists _, _. split_and!; [done|split|unfold sizeof_dhcp_msg; lia|].
  - apply Forall_app. split; [by apply Forall_take, Forall_drop|by apply Forall_drop].
  - rewrite length_app, length_drop. unfold zlen in Hd. lia.
  - intros Hr. unfold msg_hlen. etrans; [apply lookup_total_app_l; unfold zlen in Hd; lia|].
    unfold d. by rewrite !list_lookup_total_alt, lookup_take_lt, lookup_drop by lia.
Qed.

Section Invariant.
Context (hwaddr : bytes) (xid0 : Z) (Hhw : is_bytes hwaddr) (Hhl : length hwaddr = 6%nat).

(** [receive_packet] takes nothing from the event. *)
Definition refused (e : event) : Prop :=
  match e with Packet packet nread => exists old r rep, receive_packet packet nread old = Ret (r, rep) /\ r < 0 | _ => True end.

(** The information was read from the last packet that was received, valid as a reply or not. *)
Definition decoded_from (es : list event) (i : dhcp_info) : Prop :=
  exists es1 packet nread es2 old len msg ret, es = es1 ++ Packet packet nread :: es2 /\ Forall refused es2 /\
    receive_packet packet nread old = Ret (len, msg) /\ 0 <= len /\ decode_dhcp_msg msg len = Ret (i, ret).

(** The last event is a reply to the request of this run that acknowledges it. *)
Definition acknowledged (es : list event) (i : dhcp_info) : Prop :=
  exists es1 packet nread old len msg ret, es = es1 ++ [Packet packet nread] /\
    receive_packet packet nread old = Ret (len, msg) /\ decode_dhcp_msg msg len = Ret (i, ret) /\
    type i = DHCPACK /\ DHCP_MSG_FIXED_SIZE <= len /\ msg_op msg = OP_BOOTREPLY /\
    msg_xid msg = u32 (xid0 + 1) /\ take 6 (msg_chaddr msg) = hwaddr.

Definition is_timeout (e : event) : Z := match e with PollTimeout => 1 | _ => 0 end.
Definition timeouts (es : list event) : Z := foldr (fun e n => is_timeout e + n) 0 es.

(** At least four waits expired, the last event is the last of them, and the last packet received makes an offer. *)
Definition offered (es : list event) (i : dhcp_info) : Prop :=
  type i = DHCPOFFER /\ decoded_from es i /\ 4 <= timeouts es /\ exists es1, es = es1 ++ [PollTimeout].

Lemma timeouts_app es es' : timeouts (es ++ es') = timeouts es + timeouts es'.
Proof. induction es as [|e es IH]; [done|]. unfold timeouts in *. cbn [app foldr]. lia. Qed.
Lemma timeouts_nonneg es : 0 <= timeouts es.
Proof. induction es as [|e es IH]; [done|]. unfold timeouts in *. cbn [foldr]. destruct e; cbn [is_timeout]; lia. Qed.

Definition timeout_ok (t : Z) : Prop := t = 4000 \/ t = 8000 \/ t = 16000 \/ t = 32000.

(** The rounds of waiting that are left: four per state. *)
Definition rounds_left (t : Z) : Z := if t =? 4000 then 4 else if t =? 8000 then 3 else if t =? 16000 then 2 else 1.

(** The message of the current state belongs to the current transaction; [es] are the events
    so far. *)
Record client_ok (es : list event) (c : client) : Prop := {
  ok_timeout : timeout_ok (timeout c);
  ok_xid : xid c = u32 (match state c with STATE_SELECTING => xid0 | STATE_REQUESTING => xid0 + 1 end);
  ok_reply : msg_ok (reply c);
  ok_info : type (info c) = 0 \/ decoded_from es (info c);
  ok_waits : 4 - rounds_left (timeout c) <= timeouts es;
  ok_msg : match state c with
           | STATE_SELECTING => built (discover_msg c) hwaddr (xid c) discover_opts
           | STATE_REQUESTING => exists ip server, built (request_msg c) hwaddr (xid c) (request_opts ip server)
           end
}.

Definition budget (c : client) : Z :=
  (match state c with STATE_SELECTING => 4 | STATE_REQUESTING => 0 end) + rounds_left (timeout c).

Lemma rounds_left_pos t : 1 <= rounds_left t.
Proof. unfold rounds_left. repeat case_match; lia. Qed.

Lemma decoded_from_snoc es e i : refused e -> decoded_from es i -> decoded_from (es ++ [e]) i.
Proof.
  intros He (es1 & p & n & es2 & old & len & msg & ret & -> & Hr & H). exists es1, p, n, (es2 ++ [e]), old, len, msg, ret.
  split; [by rewrite <-app_assoc|]. split; [|done]. apply Forall_app. auto.
Qed.

Lemma send_message_total msg size :
  msg_ok msg -> 0 <= size <= 1260 -> exists p, send_message msg size = Ret p.
Proof.
  intros [Hb Hl] Hs. unfold send_message.
  rewrite send_packet_spec; [by eauto|done|unfold zlen, sizeof_dhcp_msg; lia|done].
Qed.

(** [transmit] sends one packet and sets the message of the state. *)
Lemma transmit_ok es c :
  timeout_ok (timeout c) -> msg_ok (reply c) -> (type (info c) = 0 \/ decoded_from es (info c)) ->
  xid c = u32 (match state c with STATE_SELECTING => xid0 | STATE_REQUESTING => xid0 + 1 end) ->
  4 - rounds_left (timeout c) <= timeouts es ->
  exists c' p, transmit hwaddr c = Ret (Continue c' [p]) /\ client_ok es c' /\ budget c' = budget c.
Proof.
  intros Ht Hr Hi Hx Hw. unfold transmit.
  assert (is_u32 (xid c)) as Hxr by (rewrite Hx; apply wrap_range; lia).
  destruct (state c) eqn:Es.
  - destruct (discover_ok hwaddr (xid c) Hhw Hhl) as [Hok Hsz].
    pose proof (discover_built hwaddr (xid c) Hhl Hxr) as Hb.
    destruct (init_dhcp_discover_msg hwaddr (xid c)) as [msg size]. cbn [fst snd] in *. subst size.
    destruct (send_message_total msg 250 Hok ltac:(lia)) as [p ->]. rewrite bind_ret_l.
    eexists _, p. split_and!; [reflexivity| |unfold budget; cbn; by rewrite Es]. by split.
  - destruct (request_ok hwaddr (xid c) (ipaddr (info c)) (serveraddr (info c)) Hhw Hhl) as [Hok Hsz].
    pose proof (request_built hwaddr (xid c) (ipaddr (info c)) (serveraddr (info c)) Hhl Hxr) as Hb.
    destruct (init_dhcp_request_msg hwaddr (xid c) _ _) as [msg size]. cbn [fst snd] in *. subst size.
    destruct (send_message_total msg 262 Hok ltac:(lia)) as [p ->]. rewrite bind_ret_l.
    eexists _, p. split_and!; [reflexivity| |unfold budget; cbn; by rewrite Es]. split; cbn; eauto.
Qed.

Lemma transmit_keeps c : exists c' p, transmit hwaddr c = Ret (Continue c' [p]) /\ info c' = info c /\ timeout c' = timeout c.
Proof.
  unfold transmit. destruct (state c).
  - destruct (discover_ok hwaddr (xid c) Hhw Hhl) as [Hok Hsz]. destruct (init_dhcp_discover_msg hwaddr (xid c)) as [msg size]. cbn [fst snd] in *.
    destruct (send_message_total msg size Hok ltac:(lia)) as [p ->]. rewrite bind_ret_l. by eexists _, p.
  - destruct (request_ok hwaddr (xid c) (ipaddr (info c)) (serveraddr (info c)) Hhw Hhl) as [Hok Hsz].
    destruct (init_dhcp_request_msg hwaddr (xid c) _ _) as [msg size]. cbn [fst snd] in *.
    destruct (send_message_total msg size Hok ltac:(lia)) as [p ->]. rewrite bind_ret_l. by eexists _, p.
Qed.

(** What a step comes to: it continues within the budget, fails, or configures. *)
Definition step_post (es : list event) (cost : Z) (b : Z) (r : result) : Prop :=
  match r with
  | Continue c sent => client_ok es c /\ budget c + Z.max cost (zlen sent) <= b
  | Configured i => acknowledged es i \/ offered es i
  | Failed => True
  end.

(** The message of a packet that names the length of its hardware address. *)
Definition named (e : event) : Prop := match e with Packet packet _ => packet !!! 30%nat <> 0 | _ => True end.

Lemma client_ok_snoc es e c : refused e -> client_ok es c -> client_ok (es ++ [e]) c.
Proof.
  intros He []. split; try done; [destruct ok_info0; eauto using decoded_from_snoc|]. rewrite timeouts_app.
  pose proof (timeouts_nonneg [e]). lia.
Qed.

Lemma no_cost b : b + Z.max 0 (zlen (@nil bytes)) <= b.
Proof. change (zlen (@nil bytes)) with 0. lia. Qed.

(** A received message [rep] of [len] bytes, from the event [e]. *)
Lemma handle_reply_ok es packet nread old c len rep :
  client_ok es c -> receive_packet packet nread old = Ret (len, rep) -> msg_ok rep -> 0 <= len <= sizeof_dhcp_msg ->
  (236 <=? len) && (msg_hlen rep =? 0) = false ->
  exists r, handle_reply hwaddr (mk_client (state c) (timeout c) (xid c) (info c) (discover_msg c) (request_msg c) rep) len = Ret r /\
    step_post (es ++ [Packet packet nread]) 0 (budget c) r.
Proof.
  intros [Ht Hx _ Hi Hw Hm] Hrec Hr Hlen Hnamed. unfold handle_reply. cbn [reply discover_msg request_msg state timeout xid].
  unfold sizeof_dhcp_msg in Hlen. rewrite dump_dhcp_msg_cases, Hnamed, bind_ret_l by (done || lia). rewrite printed_decode by done.
  destruct (decode_total rep len) as (i & ret & Hdec & _);
    [apply Hr|unfold zlen; by rewrite (proj2 Hr)|unfold sizeof_dhcp_msg; lia|].
  rewrite Hdec, bind_ret_l. set (es' := es ++ [Packet packet nread]).
  assert (decoded_from es' i) as Hfrom by (exists es, packet, nread, [], old, len, rep, ret; split_and!; (done || lia)).
  assert (timeouts es' = timeouts es) as Hw' by (unfold es'; rewrite timeouts_app; cbn; lia).
  pose proof (proj1 (printed_ok rep len Hr)) as Hdump.
  assert (step_post es' 0 (budget c)
    (Continue (mk_client (state c) (timeout c) (xid c) i (discover_msg c) (request_msg c) (printed rep len)) []))
    as Hstay by (split; [split; cbn; auto; by rewrite Hw'|apply no_cost]).
  rewrite printed_valid by done.
  destruct (is_valid_reply _ rep len) eqn:Ev; cbn [negb]; [|eexists; split; [done|exact Hstay]].
  destruct (state c) eqn:Es; cbn [state].
  - destruct (Z.eqb_spec (type i) DHCPOFFER); [|eexists; split; [done|exact Hstay]].
    destruct (transmit_ok es' (mk_client STATE_REQUESTING TIMEOUT_INITIAL (u32 (xid c + 1)) i
      (discover_msg c) (request_msg c) (printed rep len)))
      as (c' & p & Htr & Hok & Hb); [by left|done|by right| |apply timeouts_nonneg|].
    { cbn. rewrite Hx. unfold u32, wrap. by rewrite Zplus_mod_idemp_l. }
    eexists. split; [exact Htr|]. split; [done|]. rewrite Hb. change (zlen [p]) with 1. unfold budget. rewrite Es. cbn.
    pose proof (rounds_left_pos (timeout c)). lia.
  - destruct (Z.eqb_spec (type i) DHCPACK).
    { eexists. split; [done|]. left. destruct Hm as (ip & server & Hm).
      apply (valid_reply_built _ _ _ _ _ _ Hm) in Ev as (? & ? & Hxid & _ & _ & ?).
      exists es, packet, nread, old, len, rep, ret. split_and!; try done. by rewrite Hxid. }
    destruct (type i =? DHCPNAK); (eexists; split; [done|]); [done|exact Hstay].
Qed.

Lemma poll_timeout_ok es c : client_ok es c ->
  exists r, step hwaddr c PollTimeout = Ret r /\ step_post (es ++ [PollTimeout]) 1 (budget c) r.
Proof.
  intros Hc. pose proof (client_ok_snoc es PollTimeout c I Hc) as [_ Hx Hr Hi _ _]. destruct Hc as [Ht _ _ _ Hw _]. cbn [step].
  assert (timeouts (es ++ [PollTimeout]) = timeouts es + 1) as Hn by (rewrite timeouts_app; done).
  destruct (Z.leb_spec TIMEOUT_MAX (timeout c)) as [Hto|Hto].
  - destruct (Z.eqb_spec (type (info c)) DHCPOFFER) as [Eo|]; [|by eexists].
    eexists. split; [done|]. right. split_and!; [done|destruct Hi as [Hi|Hi]; [by rewrite Hi in Eo|done]| |by exists es].
    unfold TIMEOUT_MAX in Hto. assert (timeout c = 32000) as Et by (unfold timeout_ok in Ht; lia). rewrite Et in Hw.
    change (rounds_left 32000) with 1 in Hw. lia.
  - unfold TIMEOUT_MAX in Hto.
    destruct (transmit_ok (es ++ [PollTimeout])
      (mk_client (state c) (timeout c * 2) (xid c) (info c) (discover_msg c) (request_msg c) (reply c)))
      as (c' & p & -> & Hok & Hb); [|done..| |].
    { unfold timeout_ok in *. cbn. lia. }
    { rewrite Hn. cbn. destruct Ht as [Ht|[Ht|[Ht|Ht]]]; rewrite Ht in *; try lia; revert Hw; vm_compute rounds_left; lia. }
    eexists. split; [done|]. split; [done|]. rewrite Hb. change (zlen [p]) with 1.
    unfold budget, rounds_left. cbn [state timeout is_timeout].
    destruct Ht as [Ht|[Ht|[Ht|Ht]]]; rewrite Ht in *; try lia; case_match; by vm_compute.
Qed.

(** A step returns, unless it logs a message that names no length of its hardware address. *)
Lemma step_ok es e c :
  client_ok es c -> event_ok e ->
  (~ named e /\ step hwaddr c e = Undef) \/
  exists r, step hwaddr c e = Ret r /\ step_post (es ++ [e]) (is_timeout e) (budget c) r.
Proof.
  intros Hc He. destruct e as [|errno|errno|packet nread].
  - right. by apply poll_timeout_ok.
  - right. pose proof (client_ok_snoc es (PollError errno) c I Hc). cbn [step].
    destruct (_ || _); (eexists; split; [done|]); [|done]. split; [done|]. apply no_cost.
  - right. pose proof (client_ok_snoc es (ReadError errno) c I Hc). cbn [step].
    destruct (_ || _); (eexists; split; [done|]); [done|]. split; [done|]. apply no_cost.
  - cbn [step is_timeout].
    destruct (receive_total packet nread (reply c) He (ok_reply _ _ Hc)) as (len & rep & Hrec & Hrep & Hlen & Hh).
    rewrite Hrec, bind_ret_l. destruct (Z.ltb_spec len 0) as [Hneg|Hpos].
    { right. eexists. split; [done|]. split; [|apply no_cost].
      assert (refused (Packet packet nread)) as Href by (exists (reply c), len, rep; auto).
      apply (client_ok_snoc es _ c Href) in Hc as []. by split. }
    destruct ((236 <=? len) && (msg_hlen rep =? 0)) eqn:En.
    + left. apply andb_true_iff in En as [Hf Hz]. apply Z.leb_le in Hf. apply Z.eqb_eq in Hz.
      split; [intros Hne; apply Hne; by rewrite <-Hh|]. unfold handle_reply. cbn [reply]. unfold sizeof_dhcp_msg in Hlen.
      rewrite dump_dhcp_msg_cases by (done || lia). by rewrite (proj2 (Z.leb_le 236 len)), Hz.
    + right. by apply (handle_reply_ok es packet nread (reply c)).
Qed.

Lemma budget_pos c : 1 <= budget c.
Proof. unfold budget. pose proof (rounds_left_pos (timeout c)). case_match; lia. Qed.

(** How a run over the events [es], which follow [es0], can end. *)
Definition ends (es0 es : list event) (b : Z) (fin : result) : Prop :=
  match fin with
  | Continue c' _ => budget c' + timeouts es <= b
  | Configured i => exists es1 es2, es = es1 ++ es2 /\ (acknowledged (es0 ++ es1) i \/ offered (es0 ++ es1) i)
  | Failed => True
  end.

Lemma run_ok es0 es c :
  client_ok es0 c -> Forall event_ok es ->
  (~ Forall named es /\ run hwaddr c es = Undef) \/
  exists sent fin, run hwaddr c es = Ret (sent, fin) /\ zlen sent + 1 <= budget c /\ ends es0 es (budget c) fin.
Proof.
  intros Hc He. revert es0 c Hc. induction He as [|e es He Hes IH]; intros es0 c Hc.
  { right. eexists _, _. split; [done|]. pose proof (budget_pos c). change (zlen (@nil bytes)) with 0. cbn [ends timeouts foldr]. lia. }
  destruct (step_ok es0 e c Hc He) as [[Hn Hu]|(r & Hr & Hpost)]; cbn [run].
  { left. rewrite Hu. split; [|done]. by intros [? ?]%Forall_cons. }
  rewrite Hr, bind_ret_l. destruct r as [c1 s1|i|].
  - destruct Hpost as [Hc1 Hb]. destruct (IH _ _ Hc1) as [[Hn Hu]|(sent & fin & Hrun & Hs & Hfin)].
    { left. rewrite Hu. split; [|done]. by intros [? ?]%Forall_cons. }
    right. rewrite Hrun, bind_ret_l. eexists _, fin. split; [done|]. split; [rewrite zlen_app; lia|].
    destruct fin as [c'|i|]; [|destruct Hfin as (es1 & es2 & -> & Hi); exists (e :: es1), es2; split; [done|]; by rewrite <-!app_assoc in Hi|done].
    cbn [ends] in *. change (timeouts (e :: es)) with (is_timeout e + timeouts es). lia.
  - right. eexists _, _. split; [done|]. split; [apply budget_pos|]. by exists [e], es.
  - right. eexists _, _. split; [done|]. split; [apply budget_pos|done].
Qed.

Lemma init_ifc_ok junk d rq rp es :
  msg_ok rp -> Forall event_ok es ->
  (~ Forall named es /\ dhcp_init_ifc hwaddr xid0 junk d rq rp es = Undef) \/
  exists sent fin, dhcp_init_ifc hwaddr xid0 junk d rq rp es = Ret (sent, fin) /\ zlen sent <= 8 /\ ends [] es 8 fin.
Proof.
  intros Hr He. unfold dhcp_init_ifc, start.
  destruct (transmit_ok [] (mk_client STATE_SELECTING TIMEOUT_INITIAL (u32 xid0) (set_type 0 junk) d rq rp))
    as (c & p & -> & Hok & Hb); [by left|done|by left|done|done|].
  rewrite bind_ret_l. change (budget _) with 8 in Hb at 2.
  destruct (run_ok [] es c Hok He) as [[Hn ->]|(sent & fin & -> & Hs & Hfin)]; [by left|]. right. rewrite bind_ret_l, Hb in *.
  eexists _, fin. split; [done|]. split; [rewrite zlen_app; change (zlen [p]) with 1; lia|].
  destruct fin; [|done..]. done.
Qed.
End Invariant.

(** The waits that are left expire: the client is configured with the offer that it has. *)
Lemma waits_configure hwaddr c es i :
  is_bytes hwaddr -> length hwaddr = 6%nat -> info c = i -> type i = DHCPOFFER -> timeout_ok (timeout c) ->
  exists sent, run hwaddr c (replicate (Z.to_nat (rounds_left (timeout c))) PollTimeout ++ es) = Ret (sent, Configured i).
Proof.
  intros Hh Hl <- Ht Hto.
  assert (forall n c, is_timeout PollTimeout = 1 -> type (info c) = DHCPOFFER -> timeout c = 32000 / 2 ^ Z.of_nat n -> (n <= 3)%nat ->
    exists sent, run hwaddr c (replicate (S n) PollTimeout ++ es) = Ret (sent, Configured (info c))) as Hrun.
  { clear c Ht Hto. induction n as [|n IH]; intros c _ Ht Hto Hn.
    - change (replicate 1 PollTimeout ++ es) with (PollTimeout :: es). cbn [run step]. rewrite Hto. cbn. rewrite Ht. cbn. eauto.
    - change (replicate (S (S n)) PollTimeout ++ es) with (PollTimeout :: replicate (S n) PollTimeout ++ es). cbn [run step].
      assert (timeout c * 2 = 32000 / 2 ^ Z.of_nat n /\ timeout c < TIMEOUT_MAX) as [H2 Hmax] by (rewrite Hto; destruct n as [|[|[|]]]; first [lia|by vm_compute]).
      rewrite (proj2 (Z.leb_gt _ _)) by done. set (c1 := mk_client _ _ _ _ _ _ _).
      destruct (transmit_keeps hwaddr Hh Hl c1) as (c2 & p & -> & Ei & Et). rewrite bind_ret_l.
      destruct (IH c2) as [sent E]; [done|by rewrite Ei|by rewrite Et|lia|]. rewrite E, bind_ret_l, Ei. eauto. }
  destruct Hto as [E|[E|[E|E]]]; rewrite E.
  - apply (Hrun 3%nat c); [done|done|by rewrite E|lia].
  - apply (Hrun 2%nat c); [done|done|by rewrite E|lia].
  - apply (Hrun 1%nat c); [done|done|by rewrite E|lia].
  - apply (Hrun 0%nat c); [done|done|by rewrite E|lia].
Qed.

(** ** Claims *)

(** C13: against any network, [dhcp_init_ifc] stays within its memory, sends at most eight packets, and ends
    after at most eight expired waits: the back-off runs four rounds in each of the two states.  The packets fit
    the receive buffer, their UDP header announces at least its own size and at most a message, and their
    messages name the length of the hardware address; without that the client reads memory that was never
    written ([unnamed_address_undefined]) or copies out of its buffers ([DhcpPacketSpec]). *)
Theorem dhcp_init_ifc_terminates hwaddr msecs junk d rq rp es :
  is_bytes hwaddr -> length hwaddr = 6%nat -> msg_ok rp -> Forall event_ok es -> Forall named es ->
  exists sent fin, dhcp_init_ifc hwaddr msecs junk d rq rp es = Ret (sent, fin) /\ zlen sent <= 8 /\
    (8 <= timeouts es -> fin = Failed \/ exists i, fin = Configured i).
Proof.
  intros Hh Hl Hr He Hn. destruct (init_ifc_ok hwaddr msecs Hh Hl junk d rq rp es Hr He) as [[? _]|(sent & fin & Hrun & Hs & Hf)]; [done|].
  exists sent, fin. split_and!; [done|done|]. intros Ht. destruct fin as [c'| |]; [|eauto..].
  cbn [ends] in Hf. pose proof (budget_pos hwaddr Hl c'). lia.
Qed.

Definition zero_msg : dhcp_msg := replicate 1260 0.

(** A reply of [type] with the transaction [xid] for the client of the examples, as it arrives in
    the receive buffer. *)
Definition server_reply (ty xid yiaddr : Z) : bytes :=
  let msg := init_dhcp_msg ty [2; 0; 0; 0; 0; 1] xid in
  let msg := store (store (store msg.1 0 [OP_BOOTREPLY]) 16 (bytes32 yiaddr)) 243 [OPT_END] in
  match send_packet msg 300 0x0100000a 0xffffffff PORT_BOOTP_SERVER PORT_BOOTP_CLIENT with
  | Ret p => p ++ replicate 960 0
  | _ => []
  end.

Definition received (ty xid yiaddr : Z) : event := Packet (server_reply ty xid yiaddr) 328.

Definition example_run (es : list event) : outcome (list bytes * result) :=
  dhcp_init_ifc [2; 0; 0; 0; 0; 1] 1000 no_info zero_msg zero_msg zero_msg es.

Definition sent_of (es : list event) : list bytes := match example_run es with Ret (s, _) => s | _ => [] end.

Lemma received_ok ty xid yiaddr :
  bool_decide (is_bytes (server_reply ty xid yiaddr)) && (zlen (server_reply ty xid yiaddr) =? 1288)
    && (get_be16 (server_reply ty xid yiaddr) 24 =? 308) = true ->
  event_ok (received ty xid yiaddr).
Proof.
  rewrite !andb_true_iff, bool_decide_eq_true, !Z.eqb_eq. intros [[Hb Hl] Hu]. unfold event_ok, received, sizeof_packet.
  rewrite Hu. split_and!; [done|done|lia|lia|lia].
Qed.

Definition good_run : list event := [received DHCPOFFER 1000 7; received DHCPACK 1001 7].

Lemma dhcp_init_ifc_terminates_witness :
  exists sent fin,
    dhcp_init_ifc [2; 0; 0; 0; 0; 1] 1000 no_info zero_msg zero_msg zero_msg (received DHCPOFFER 1000 7 :: replicate 8 PollTimeout) = Ret (sent, fin) /\
    zlen sent <= 8 /\ (8 <= timeouts (received DHCPOFFER 1000 7 :: replicate 8 PollTimeout) -> fin = Failed \/ exists i, fin = Configured i).
Proof.
  apply dhcp_init_ifc_terminates.
  - repeat constructor; by vm_compute.
  - reflexivity.
  - split; [apply Forall_replicate; by vm_compute|reflexivity].
  - apply Forall_cons_2; [apply received_ok; vm_compute; reflexivity|]. apply Forall_replicate. exact I.
  - apply Forall_cons_2; [by vm_compute|]. apply Forall_replicate. exact I.
Defined.

(** C14: when the interface is configured, the event that led to it is a reply to this client that carries the
    transaction of its request and acknowledges it; or it is an expired wait, at least the fourth, and the last
    packet that was received makes an offer. *)
Theorem dhcp_configured_origin hwaddr msecs junk d rq rp es sent i :
  is_bytes hwaddr -> length hwaddr = 6%nat -> msg_ok rp -> Forall event_ok es ->
  dhcp_init_ifc hwaddr msecs junk d rq rp es = Ret (sent, Configured i) ->
  exists es1 es2, es = es1 ++ es2 /\ (acknowledged hwaddr msecs es1 i \/ offered es1 i).
Proof.
  intros Hh Hl Hr He Hrun. destruct (init_ifc_ok hwaddr msecs Hh Hl junk d rq rp es Hr He) as [[_ Hu]|(s' & fin & Hrun' & _ & Hf)]; [by rewrite Hrun in Hu|].
  rewrite Hrun in Hrun'. by simplify_eq.
Qed.

Lemma dhcp_configured_origin_witness :
  exists es1 es2, good_run = es1 ++ es2 /\
    (acknowledged [2; 0; 0; 0; 0; 1] 1000 es1 (mk_info 5 7 0 0 0 0 0 0) \/ offered es1 (mk_info 5 7 0 0 0 0 0 0)).
Proof.
  apply (dhcp_configured_origin [2; 0; 0; 0; 0; 1] 1000 no_info zero_msg zero_msg zero_msg good_run (sent_of good_run)).
  - repeat constructor; by vm_compute.
  - reflexivity.
  - split; [apply Forall_replicate; by vm_compute|reflexivity].
  - apply Forall_cons_2; [|apply Forall_cons_2; [|apply Forall_nil_2]]; apply received_ok; vm_compute; reflexivity.
  - vm_compute. reflexivity.
Defined.

(** C40: a packet that [is_valid_reply] rejects still replaces [info], because [decode_dhcp_msg] runs before the
    check.  Whatever the state of the client and whatever it was offered before, when such a packet decodes to an
    offer and no other packet comes, the waits that are left expire and the interface is configured with it. *)
Theorem rejected_reply_is_configured hwaddr xid0 es0 es c packet nread len rep i ret :
  is_bytes hwaddr -> length hwaddr = 6%nat -> client_ok hwaddr xid0 es0 c -> event_ok (Packet packet nread) -> named (Packet packet nread) ->
  receive_packet packet nread (reply c) = Ret (len, rep) -> 0 <= len ->
  is_valid_reply (match state c with STATE_SELECTING => discover_msg c | STATE_REQUESTING => request_msg c end) rep len = false ->
  decode_dhcp_msg rep len = Ret (i, ret) -> type i = DHCPOFFER ->
  exists sent, run hwaddr c (Packet packet nread :: replicate (Z.to_nat (rounds_left (timeout c))) PollTimeout ++ es) = Ret (sent, Configured i).
Proof.
  intros Hh Hl Hc He Hn Hrec Hlen Hv Hd Ht. destruct (receive_total packet nread (reply c) He (ok_reply _ _ _ _ Hc)) as (len' & rep' & Hrec' & Hrep & Hle & Hhl).
  rewrite Hrec in Hrec'. injection Hrec' as <- <-. cbn [run step]. rewrite Hrec, bind_ret_l, (proj2 (Z.ltb_ge len 0)) by done.
  unfold handle_reply. cbn [reply state discover_msg request_msg timeout xid]. unfold sizeof_dhcp_msg in Hle.
  rewrite dump_dhcp_msg_cases by done. replace ((236 <=? len) && (msg_hlen rep =? 0)) with false.
  2:{ destruct (Z.leb_spec 236 len); [|done]. rewrite Hhl by done. symmetry. by apply Z.eqb_neq. }
  rewrite bind_ret_l, printed_decode, Hd, bind_ret_l, printed_valid, Hv by done. cbn [negb]. rewrite bind_ret_l.
  set (c1 := mk_client _ _ _ _ _ _ _). assert (info c1 = i) as Hi by done. assert (timeout c1 = timeout c) as Etc by done.
  assert (exists sent, run hwaddr c1 (replicate (Z.to_nat (rounds_left (timeout c))) PollTimeout ++ es) = Ret (sent, Configured i)) as [sent ->].
  { rewrite <-Etc. assert (timeout_ok (timeout c1)) as Hto by apply Hc. clearbody c1. clear -Hh Hl Hi Ht Hto. by apply waits_configure. }
  rewrite bind_ret_l. eauto.
Qed.

(** The client that was offered the address 7 and has asked for it; then a stray offer of the address 9 comes,
    under another transaction. *)
Definition asking : client :=
  match start [2; 0; 0; 0; 0; 1] 1000 no_info zero_msg zero_msg zero_msg with
  | Ret (Continue c _) => match step [2; 0; 0; 0; 0; 1] c (received DHCPOFFER 1000 7) with Ret (Continue c _) => c | _ => c end
  | _ => mk_client STATE_SELECTING 0 0 no_info zero_msg zero_msg zero_msg
  end.
Definition stray : Z * dhcp_msg :=
  match receive_packet (server_reply DHCPOFFER 4242 9) 328 (reply asking) with Ret r => r | _ => (0, zero_msg) end.

Lemma asking_ok : client_ok [2; 0; 0; 0; 0; 1] 1000 [received DHCPOFFER 1000 7] asking.
Proof.
  split.
  - left. vm_compute. reflexivity.
  - vm_compute. reflexivity.
  - split; [by apply (bool_decide_unpack _); vm_compute|vm_compute; reflexivity].
  - right. exists [], (server_reply DHCPOFFER 1000 7), 328, [], zero_msg, 300,
      (match receive_packet (server_reply DHCPOFFER 1000 7) 328 zero_msg with Ret (_, m) => m | _ => zero_msg end), 0.
    split; [reflexivity|]. split; [constructor|]. split; [vm_compute; reflexivity|]. split; [by vm_compute|]. vm_compute. reflexivity.
  - vm_compute. discriminate.
  - replace (state asking) with STATE_REQUESTING by (vm_compute; reflexivity). exists 7, 0.
    replace (request_msg asking) with (init_dhcp_request_msg [2; 0; 0; 0; 0; 1] 1001 7 0).1 by (vm_compute; reflexivity).
    replace (xid asking) with 1001 by (vm_compute; reflexivity). apply request_built; by vm_compute.
Qed.

Lemma rejected_reply_is_configured_witness :
  exists sent, run [2; 0; 0; 0; 0; 1] asking
    (Packet (server_reply DHCPOFFER 4242 9) 328 :: replicate (Z.to_nat (rounds_left (timeout asking))) PollTimeout ++ []) =
      Ret (sent, Configured (mk_info DHCPOFFER 9 0 0 0 0 0 0)).
Proof.
  apply (rejected_reply_is_configured [2; 0; 0; 0; 0; 1] 1000 [received DHCPOFFER 1000 7] [] asking (server_reply DHCPOFFER 4242 9) 328
    stray.1 stray.2 (mk_info DHCPOFFER 9 0 0 0 0 0 0) 0).
  - repeat constructor; by vm_compute.
  - reflexivity.
  - exact asking_ok.
  - apply received_ok. vm_compute. reflexivity.
  - by vm_compute.
  - vm_compute. reflexivity.
  - by vm_compute.
  - vm_compute. reflexivity.
  - vm_compute. reflexivity.
  - reflexivity.
Defined.

(** A packet whose message has the length 0 for its hardware address makes the client log a buffer that nothing
    was written to. *)
Definition unnamed_packet : bytes :=
  match send_packet (store (init_dhcp_msg DHCPOFFER [2; 0; 0; 0; 0; 1] 1000).1 2 [0]) 300 0x0100000a 0xffffffff PORT_BOOTP_SERVER PORT_BOOTP_CLIENT with
  | Ret p => p ++ replicate 960 0
  | _ => []
  end.
Example unnamed_address_undefined : example_run [Packet unnamed_packet 328] = Undef.
Proof. vm_compute. reflexivity. Qed.
