(* ===== verification/Merkle.v ===== *)
(** Iterated hash functions: what src/crypto/sha1.c and src/crypto/md5.c have in common.

    A compression function is folded over the 64-byte blocks of the padded message.  An
    implementation keeps the chaining value and a buffer with the bytes of the last,
    incomplete block; [absorbed] relates the two, and the lemmas below are the three ways in
    which an update moves it: filling the buffer, completing its block, and taking whole
    blocks from the data. *)

From S2P Require Import Prelude.

(** 32-bit words of four bytes in both orders. *)
Definition word_le (b : bytes) : Z :=
  Z.lor (b !!! 0%nat) (Z.lor (b !!! 1%nat ≪ 8) (Z.lor (b !!! 2%nat ≪ 16) (b !!! 3%nat ≪ 24))).
Definition word_be (b : bytes) : Z :=
  Z.lor (b !!! 3%nat) (Z.lor (b !!! 2%nat ≪ 8) (Z.lor (b !!! 1%nat ≪ 16) (b !!! 0%nat ≪ 24))).

Definition bytes_le (w : Z) : bytes := [u8 w; u8 (w ≫ 8); u8 (w ≫ 16); u8 (w ≫ 24)].
Definition bytes_be (w : Z) : bytes := [u8 (w ≫ 24); u8 (w ≫ 16); u8 (w ≫ 8); u8 w].

(** The message followed by the bit one, zeros up to the end of a block but eight bytes, and
    the eight bytes [len]. *)
Definition pad (len msg : bytes) : bytes :=
  msg ++ [0x80] ++ replicate (Z.to_nat ((55 - zlen msg) mod 64)) 0 ++ len.

Section Merkle.
Context {S : Type} (compress : S -> bytes -> S).

Fixpoint absorb (n : nat) (st : S) (msg : bytes) : S :=
  match n with
  | O => st
  | Datatypes.S n => absorb n (compress st (take 64 msg)) (drop 64 msg)
  end.

(** All whole blocks of a message. *)
Definition absorb_all (st : S) (msg : bytes) : S := absorb (length msg / 64) st msg.

Lemma absorb_prefix n st a b : (64 * n <= length a)%nat -> absorb n st (a ++ b) = absorb n st a.
Proof.
  revert st a. induction n as [|n IH]; intros st a Ha; [done|]. cbn [absorb].
  rewrite take_app_le, drop_app_le by lia. apply IH. rewrite length_drop. lia.
Qed.

Lemma absorb_app n k st a b :
  length a = (64 * n)%nat -> absorb (n + k) st (a ++ b) = absorb k (absorb n st a) b.
Proof.
  revert st a. induction n as [|n IH]; intros st a Ha.
  - by apply nil_length_inv in Ha as ->.
  - cbn [absorb Nat.add]. rewrite take_app_le, drop_app_le by lia. apply IH. rewrite length_drop. lia.
Qed.

Context (iv : S).

(** The state after the message [msg]: the whole blocks went into the chaining value and
    [buffer] starts with the rest. *)
Record absorbed (msg : bytes) (st : S) (buffer : bytes) : Prop := {
  absorbed_len : length buffer = 64%nat;
  absorbed_state : st = absorb_all iv msg;
  absorbed_rest : take (length msg mod 64) buffer = drop (64 * (length msg / 64)) msg
}.

Lemma absorbed_nil buffer : length buffer = 64%nat -> absorbed [] iv buffer.
Proof. intros. by split. Qed.

(** Data that stays within the block. *)
Lemma absorbed_fill msg st buffer data :
  absorbed msg st buffer -> (length msg mod 64 + length data < 64)%nat ->
  let j := (length msg mod 64)%nat in
  absorbed (msg ++ data) st (take j buffer ++ data ++ drop (j + length data) buffer).
Proof.
  intros [Hl Hs Hr] Hd j. subst j. pose proof (Nat.div_mod_eq (length msg) 64) as Hm.
  pose proof (Nat.mod_upper_bound (length msg) 64 ltac:(lia)).
  assert (length (msg ++ data) / 64 = length msg / 64)%nat as Hq.
  { rewrite length_app. symmetry. apply (Nat.div_unique _ 64 _ (length msg mod 64 + length data)); lia. }
  assert (length (msg ++ data) mod 64 = length msg mod 64 + length data)%nat as Hr'.
  { rewrite length_app. symmetry. apply (Nat.mod_unique _ 64 (length msg / 64)); lia. }
  split.
  - rewrite !length_app, length_take, length_drop. lia.
  - unfold absorb_all. rewrite Hq, absorb_prefix by lia. done.
  - rewrite Hq, Hr', Hr. rewrite drop_app_le by lia. rewrite app_assoc, take_app_le.
    2: { rewrite length_app, length_drop. lia. }
    apply take_ge. rewrite length_app, length_drop. lia.
Qed.

(** Data that completes the block. *)
Lemma absorbed_flush msg st buffer data :
  absorbed msg st buffer -> (length msg mod 64 + length data = 64)%nat ->
  let buffer' := take (length msg mod 64) buffer ++ data in
  absorbed (msg ++ data) (compress st buffer') buffer' /\ (length (msg ++ data) mod 64 = 0)%nat.
Proof.
  intros [Hl Hs Hr] Hd buffer'. subst buffer'. pose proof (Nat.div_mod_eq (length msg) 64) as Hm.
  assert (length (msg ++ data) = 64 * Datatypes.S (length msg / 64))%nat as Hlen by (rewrite length_app; lia).
  assert (length (msg ++ data) / 64 = Datatypes.S (length msg / 64))%nat as Hq.
  { rewrite Hlen, Nat.mul_comm. apply Nat.div_mul. lia. }
  assert (length (msg ++ data) mod 64 = 0)%nat as H0.
  { rewrite Hlen, Nat.mul_comm. apply Nat.Div0.mod_mul. }
  split; [split|done].
  - rewrite Hr, length_app, length_drop. lia.
  - set (q := (length msg / 64)%nat) in *. set (a := take (64 * q) msg). set (r := drop (64 * q) msg) in *.
    assert (msg = a ++ r) as Hsplit by (symmetry; apply take_drop).
    assert (length a = 64 * q)%nat as Ha by (unfold a; rewrite length_take; lia).
    unfold absorb_all. rewrite Hq, Hr. replace (Datatypes.S q) with (q + 1)%nat by lia.
    rewrite Hsplit, <-app_assoc, absorb_app by done. cbn [absorb].
    rewrite take_ge by (rewrite length_app; unfold r; rewrite length_drop; lia). f_equal.
    rewrite Hs. unfold absorb_all. fold q. rewrite Hsplit. apply absorb_prefix. lia.
  - rewrite H0, Hq. rewrite drop_ge by lia. by rewrite take_0.
Qed.

(** Whole blocks of the data, at a block boundary. *)
Lemma absorbed_blocks msg st buffer n data :
  absorbed msg st buffer -> (length msg mod 64 = 0)%nat -> length data = (64 * n)%nat ->
  absorbed (msg ++ data) (absorb n st data) buffer /\ (length (msg ++ data) mod 64 = 0)%nat.
Proof.
  intros [Hl Hs Hr] H0 Hd. pose proof (Nat.div_mod_eq (length msg) 64) as Hm.
  assert (length (msg ++ data) = (length msg / 64 + n) * 64)%nat as Hlen by (rewrite length_app; lia).
  assert (length (msg ++ data) / 64 = length msg / 64 + n)%nat as Hq by (rewrite Hlen; apply Nat.div_mul; lia).
  assert (length (msg ++ data) mod 64 = 0)%nat as Hz by (rewrite Hlen; apply Nat.Div0.mod_mul).
  split; [split|done].
  - done.
  - unfold absorb_all. rewrite Hq, absorb_app by lia. by rewrite Hs.
  - rewrite Hz, Hq. rewrite drop_ge by lia. by rewrite take_0.
Qed.

(** Any data at a block boundary: whole blocks, then the start of the buffer. *)
Lemma absorbed_aligned msg st buffer data :
  absorbed msg st buffer -> (length msg mod 64 = 0)%nat ->
  let n := (length data / 64)%nat in
  let d := drop (64 * n) data in
  absorbed (msg ++ data) (absorb n st data) (d ++ drop (length d) buffer) /\ (length d < 64)%nat.
Proof.
  intros Ha H0 n d. pose proof (Nat.div_mod_eq (length data) 64) as Hm. fold n in Hm.
  pose proof (Nat.mod_upper_bound (length data) 64 ltac:(lia)).
  assert (length d < 64)%nat as Hd by (unfold d; rewrite length_drop; lia).
  assert (length (take (64 * n) data) = 64 * n)%nat as Ht by (rewrite length_take; lia).
  destruct (absorbed_blocks msg st buffer n (take (64 * n) data) Ha H0 Ht) as [Hb H1].
  pose proof (absorbed_fill _ _ _ d Hb ltac:(rewrite H1; lia)) as Hf. cbv zeta in Hf.
  rewrite H1, <-app_assoc in Hf. unfold d in Hf at 1. rewrite take_drop in Hf. split; [|done].
  rewrite <-(take_drop (64 * n) data) at 2. by rewrite absorb_prefix by lia.
Qed.

(** Any data that completes the block. *)
Lemma absorbed_stream msg st buffer data :
  absorbed msg st buffer -> (64 <= length msg mod 64 + length data)%nat ->
  let j := (length msg mod 64)%nat in
  let b := take j buffer ++ take (64 - j) data in
  let rest := drop (64 - j) data in
  let d := drop (64 * (length rest / 64)) rest in
  absorbed (msg ++ data) (absorb (length rest / 64) (compress st b) rest) (d ++ drop (length d) b)
  /\ (length d < 64)%nat /\ length b = 64%nat.
Proof.
  intros Ha Hd j b rest d. pose proof (Nat.mod_upper_bound (length msg) 64 ltac:(lia)).
  destruct (absorbed_flush msg st buffer (take (64 - j) data) Ha) as [Hfl H0].
  { fold j. rewrite length_take. unfold j in *. lia. }
  destruct (absorbed_aligned _ _ _ rest Hfl H0) as [Hal Hlt].
  rewrite <-app_assoc in Hal. unfold rest in Hal at 1. rewrite take_drop in Hal.
  split_and!; [exact Hal|exact Hlt|apply (absorbed_len _ _ _ Hfl)].
Qed.
End Merkle.

(** Compression functions that agree on blocks of bytes. *)
Lemma absorb_ext {S} (f g : S -> bytes -> S) n st msg :
  (forall st b, is_bytes b -> length b = 64%nat -> f st b = g st b) ->
  is_bytes msg -> (64 * n <= length msg)%nat -> absorb f n st msg = absorb g n st msg.
Proof.
  intros Hfg. revert st msg. induction n as [|n IH]; intros st msg Hb Hl; [done|]. cbn [absorb].
  rewrite Hfg by (apply Forall_take, Hb || (rewrite length_take; lia)).
  apply IH; [by apply Forall_drop|rewrite length_drop; lia].
Qed.

(** ** Words and bytes *)

(** A rotation of a 32-bit word to the left. *)
Definition rotl (x n : Z) : Z := Z.lor (u32 (x ≪ n)) (x ≫ (32 - n)).

Lemma shiftl_byte b n : is_u8 b -> 0 <= n <= 24 -> is_u32 (b ≪ n).
Proof.
  unfold in_range. intros Hb Hn. rewrite Z.shiftl_mul_pow2 by lia. pose proof (pow2_pos n ltac:(lia)).
  pose proof (Z.pow_le_mono_r 2 n 24 ltac:(lia) ltac:(lia)). change (2 ^ 32) with (2 ^ 8 * 2 ^ 24). nia.
Qed.

Lemma word_be_range b : is_bytes b -> length b = 4%nat -> is_u32 (word_be b).
Proof.
  intros Hb Hl. destruct b as [|b0 [|b1 [|b2 [|b3 [|]]]]]; try done. unfold is_bytes in Hb. rewrite !Forall_cons in Hb.
  destruct Hb as (H0 & H1 & H2 & H3 & _). unfold word_be. cbn [lookup_total list_lookup_total].
  repeat (apply lor_range; [lia| |]); try (apply shiftl_byte; [done|lia]). unfold in_range in *. lia.
Qed.
Lemma word_le_range b : is_bytes b -> length b = 4%nat -> is_u32 (word_le b).
Proof.
  intros Hb Hl. destruct b as [|b0 [|b1 [|b2 [|b3 [|]]]]]; try done. unfold is_bytes in Hb. rewrite !Forall_cons in Hb.
  destruct Hb as (H0 & H1 & H2 & H3 & _). unfold word_le. cbn [lookup_total list_lookup_total].
  repeat (apply lor_range; [lia| |]); try (apply shiftl_byte; [done|lia]). unfold in_range in *. lia.
Qed.

(** The two masked rotations exchange the byte orders. *)
Lemma swap_word b :
  is_bytes b -> length b = 4%nat ->
  Z.lor (Z.land (rotl (word_le b) 24) 0xFF00FF00) (Z.land (rotl (word_le b) 8) 0x00FF00FF) = word_be b.
Proof.
  intros Hb Hl. pose proof (word_le_range b Hb Hl) as Hw.
  assert (forall n, 0 <= n <= 32 -> is_u32 (rotl (word_le b) n)) as Hrot.
  { intros n Hn. apply lor_range; [lia|apply wrap_range; lia|]. apply shiftr_range; [lia|done]. }
  apply (bits_eq 32); [lia| |by apply word_be_range|].
  { apply lor_range; [lia|..]; (apply land_range; [lia|apply Hrot; lia|done]). }
  destruct b as [|b0 [|b1 [|b2 [|b3 [|]]]]]; try done. unfold is_bytes in Hb. rewrite !Forall_cons in Hb.
  destruct Hb as (H0 & H1 & H2 & H3 & _). unfold word_be, word_le. cbn [lookup_total list_lookup_total].
  rewrite <-(wrap_small 8 b0), <-(wrap_small 8 b1), <-(wrap_small 8 b2), <-(wrap_small 8 b3) by done.
  clear. intros n Hn. unfold rotl, u32, wrap.
  do 32 (destruct n as [|n]; [clear Hn; eval_bits; by repeat case (Z.testbit _ _)|]).
  exfalso. lia.
Qed.

(** The bytes of a word do not see the wrap-around. *)
Lemma u8_u32_shiftr x n : 0 <= n <= 24 -> u8 (u32 x ≫ n) = u8 (x ≫ n).
Proof.
  intros Hn. unfold u8, u32, wrap. rewrite !Z.shiftr_div_pow2 by lia.
  apply Z.bits_inj'. intros i Hi. destruct (decide (i < 8)).
  - rewrite !Z.mod_pow2_bits_low, !Z.div_pow2_bits, Z.mod_pow2_bits_low by lia. done.
  - by rewrite !Z.mod_pow2_bits_high by lia.
Qed.

Lemma u8_u32 x : u8 (u32 x) = u8 x.
Proof. pose proof (u8_u32_shiftr x 0 ltac:(lia)) as H. by rewrite !Z.shiftr_0_r in H. Qed.

Lemma length_bytes w : is_bytes (bytes_be w) /\ is_bytes (bytes_le w).
Proof. split; repeat constructor; apply wrap_range; lia. Qed.
