(* ===== verification/Sha1.v ===== *)
(** SHA-1: src/crypto/sha1.c, built without [SPARC64_GCC_WORKAROUND] for a little-endian
    machine. *)

From S2P Require Import Prelude Merkle.

(** The macro [rol] on [u_int]. *)
Definition rol (value bits : Z) : Z := rotl value bits.

(** The five working variables [a] to [e], and also [context->state]. *)
Definition regs : Type := Z * Z * Z * Z * Z.

(** [blk0(i)] and [blk(i)]: the value of the expression and the block that it leaves. *)
Definition blk0 (l : list Z) (i : nat) : Z * list Z :=
  let v := Z.lor (Z.land (rol (l !!! i) 24) 0xFF00FF00) (Z.land (rol (l !!! i) 8) 0x00FF00FF) in
  (v, <[i := v]> l).
Definition blk (l : list Z) (i : nat) : Z * list Z :=
  let at_ n := l !!! Nat.land (i + n) 15 in
  let v := rol (Z.lxor (Z.lxor (Z.lxor (at_ 13%nat) (at_ 8%nat)) (at_ 2%nat)) (at_ 0%nat)) 1 in
  (v, <[Nat.land i 15 := v]> l).

(** A round [z+=f(w,x,y)+block+k+rol(v,5);w=rol(w,30);].  Every use of the macros shifts the
    five variables by one place, [R(v,w,x,y,z,i)] being followed by [R(z,v,w,x,y,i+1)], so the
    result lists them in the order of the next use; after 80 rounds the order is the first one
    again. *)
Definition round (f : Z -> Z -> Z -> Z) (block : list Z -> nat -> Z * list Z) (k : Z) (i : nat)
    (s : regs * list Z) : regs * list Z :=
  let '((v, w, x, y, z), l) := s in
  let '(b, l) := block l i in
  let z := u32 (z + (f w x y + b + k + rol v 5)) in
  let w := rol w 30 in
  ((z, v, w, x, y), l).

Definition R0 := round (fun w x y => Z.lxor (Z.land w (Z.lxor x y)) y) blk0 0x5A827999.
Definition R1 := round (fun w x y => Z.lxor (Z.land w (Z.lxor x y)) y) blk 0x5A827999.
Definition R2 := round (fun w x y => Z.lxor (Z.lxor w x) y) blk 0x6ED9EBA1.
Definition R3 := round (fun w x y => Z.lor (Z.land (Z.lor w x) y) (Z.land w x)) blk 0x8F1BBCDC.
Definition R4 := round (fun w x y => Z.lxor (Z.lxor w x) y) blk 0xCA62C1D6.

(** The 80 uses in the body of [SHA1Transform]. *)
Definition rounds : list (regs * list Z -> regs * list Z) :=
  (R0 <$> seq 0 16) ++ (R1 <$> seq 16 4) ++ (R2 <$> seq 20 20) ++ (R3 <$> seq 40 20) ++ (R4 <$> seq 60 20).

(** The view of the 64 bytes of the workspace as [u_int l[16]]. *)
Definition load_block (buffer : bytes) : list Z :=
  (fun i => word_le (take 4 (drop (4 * i) buffer))) <$> seq 0 16.

Definition add_regs (s t : regs) : regs :=
  let '(a, b, c, d, e) := s in
  let '(a', b', c', d', e') := t in
  (u32 (a + a'), u32 (b + b'), u32 (c + c'), u32 (d + d'), u32 (e + e')).

Definition SHA1Transform (state : regs) (buffer : bytes) : regs :=
  let '(s, _) := foldl (fun s r => r s) (state, load_block buffer) rounds in
  add_regs state s.

Record SHA1_CTX := mk_ctx { state : regs; count0 : Z; count1 : Z; buffer : bytes }.

Definition SHA1Init (context : SHA1_CTX) : SHA1_CTX :=
  mk_ctx (0x67452301, 0xEFCDAB89, 0x98BADCFE, 0x10325476, 0xC3D2E1F0) 0 0 (buffer context).

(** [for ( ; i + 63 < len; i += 64)]; every iteration takes a block of [data]. *)
Fixpoint transform_loop (fuel : nat) (st : regs) (data : bytes) (i len : Z) : outcome (regs * Z) :=
  if u32 (i + 63) <? len then
    match fuel with
    | O => Undef
    | S fuel =>
        block ← mem_read data i 64;
        transform_loop fuel (SHA1Transform st block) data (u32 (i + 64)) len
    end
  else Ret (st, i).

Definition SHA1Update (context : SHA1_CTX) (data : bytes) (len : Z) : outcome SHA1_CTX :=
  let j := count0 context in
  let count0' := u32 (j + u32 (len ≪ 3)) in
  let count1' := if count0' <? j then u32 (count1 context + ((len ≫ 29) + 1)) else count1 context in
  let j := Z.land (j ≫ 3) 63 in
  if 63 <? u32 (j + len) then
    let i := 64 - j in
    d ← mem_read data 0 i;
    b ← mem_write (buffer context) j d;
    '(st, i) ← transform_loop (Z.to_nat (len / 64)) (SHA1Transform (state context) b) data i len;
    d ← mem_read data i (len - i);
    b ← mem_write b 0 d;
    Ret (mk_ctx st count0' count1' b)
  else
    d ← mem_read data 0 len;
    b ← mem_write (buffer context) j d;
    Ret (mk_ctx (state context) count0' count1' b).

(** [while ((context->count[0] & 504) != 448)]; at most 63 zeros are added. *)
Fixpoint pad_loop (fuel : nat) (context : SHA1_CTX) : outcome SHA1_CTX :=
  if Z.land (count0 context) 504 =? 448 then Ret context
  else match fuel with
       | O => Undef
       | S fuel => context ← SHA1Update context [0] 1; pad_loop fuel context
       end.

Definition digest_of (s : regs) : bytes :=
  let '(a, b, c, d, e) := s in bytes_be a ++ bytes_be b ++ bytes_be c ++ bytes_be d ++ bytes_be e.

Definition SHA1Final (context : SHA1_CTX) : outcome bytes :=
  let finalcount := bytes_be (count1 context) ++ bytes_be (count0 context) in
  context ← SHA1Update context [0x80] 1;
  context ← pad_loop 63 context;
  context ← SHA1Update context finalcount 8;
  Ret (digest_of (state context)).

(** [SHA1_digest]; [ctx] is what the stack holds. *)
Definition SHA1_digest (ctx : SHA1_CTX) (buf : bytes) (len : Z) : outcome bytes :=
  context ← SHA1Update (SHA1Init ctx) buf len;
  SHA1Final context.

Definition blank : SHA1_CTX := mk_ctx (0, 0, 0, 0, 0) 0 0 (replicate 64 0).

Example sha1_abc :
  SHA1_digest blank [97; 98; 99] 3 =
  Ret [0xa9; 0x99; 0x3e; 0x36; 0x47; 0x06; 0x81; 0x6a; 0xba; 0x3e; 0x25; 0x71; 0x78; 0x50; 0xc2; 0x6c; 0x9c; 0xd0; 0xd8; 0x9d].
Proof. vm_compute. reflexivity. Qed.
