(* ===== verification/Sha1Spec.v ===== *)
(** SHA-1 as FIPS 180-4 defines it, and that src/crypto/sha1.c computes it. *)

From S2P Require Import Prelude Merkle Sha1.

(** ** FIPS 180-4 *)

Definition Ch (x y z : Z) : Z := Z.lxor (Z.land x y) (Z.land (Z.lnot x) z).
Definition Parity (x y z : Z) : Z := Z.lxor (Z.lxor x y) z.
Definition Maj (x y z : Z) : Z := Z.lxor (Z.lxor (Z.land x y) (Z.land x z)) (Z.land y z).

Definition sha1_f (t : nat) : Z -> Z -> Z -> Z :=
  if (t <? 20)%nat then Ch else if (t <? 40)%nat then Parity else if (t <? 60)%nat then Maj else Parity.
Definition sha1_K (t : nat) : Z :=
  if (t <? 20)%nat then 0x5a827999 else if (t <? 40)%nat then 0x6ed9eba1
  else if (t <? 60)%nat then 0x8f1bbcdc else 0xca62c1d6.

(** The message schedule [W_0 .. W_79] of a block. *)
Definition extend (ws : list Z) : list Z :=
  let t := length ws in
  let w n := ws !!! (t - n)%nat in
  ws ++ [rotl (Z.lxor (Z.lxor (Z.lxor (w 3%nat) (w 8%nat)) (w 14%nat)) (w 16%nat)) 1].
Definition block_words (block : bytes) : list Z :=
  (fun i => word_be (take 4 (drop (4 * i) block))) <$> seq 0 16.
Definition schedule (block : bytes) : list Z := Nat.iter 64 extend (block_words block).

Definition sha1_round (W : nat -> Z) (s : regs) (t : nat) : regs :=
  let '(a, b, c, d, e) := s in
  (u32 (rotl a 5 + sha1_f t b c d + e + sha1_K t + W t), a, rotl b 30, c, d).

Definition sha1_compress (H : regs) (block : bytes) : regs :=
  add_regs H (foldl (sha1_round (fun t => schedule block !!! t)) H (seq 0 80)).

Definition sha1_iv : regs := (0x67452301, 0xefcdab89, 0x98badcfe, 0x10325476, 0xc3d2e1f0).

(** The length of the message in bits, as eight bytes. *)
Definition length_be (n : Z) : bytes := bytes_be (8 * n / 2 ^ 32) ++ bytes_be (8 * n).

Definition sha1 (msg : bytes) : bytes :=
  digest_of (absorb_all sha1_compress sha1_iv (pad (length_be (zlen msg)) msg)).

(** ** The compression function *)

Lemma Ch_spec w x y : Z.lxor (Z.land w (Z.lxor x y)) y = Ch w x y.
Proof.
  apply Z.bits_inj'. intros i Hi. unfold Ch. rewrite !Z.lxor_spec, !Z.land_spec, Z.lxor_spec, Z.lnot_spec by lia.
  by destruct (Z.testbit w i), (Z.testbit x i), (Z.testbit y i).
Qed.

Lemma Maj_spec w x y : Z.lor (Z.land (Z.lor w x) y) (Z.land w x) = Maj w x y.
Proof.
  apply Z.bits_inj'. intros i Hi. unfold Maj. rewrite !Z.lxor_spec, !Z.lor_spec, !Z.land_spec, Z.lor_spec.
  by destruct (Z.testbit w i), (Z.testbit x i), (Z.testbit y i).
Qed.

Section Transform.
Context (raw : list Z) (W : nat -> Z).
Context (Hraw : forall i, (i < 16)%nat ->
  Z.lor (Z.land (rol (raw !!! i) 24) 0xFF00FF00) (Z.land (rol (raw !!! i) 8) 0x00FF00FF) = W i).
Context (HW : forall t, (t < 64)%nat -> W (16 + t)%nat =
  rotl (Z.lxor (Z.lxor (Z.lxor (W (13 + t)%nat) (W (8 + t)%nat)) (W (2 + t)%nat)) (W t)) 1).

(** The contents of the sixteen words before round [t]: a ring of the last sixteen [W_i], or
    the words not yet swapped. *)
Definition ring (t : nat) : list Z :=
  (fun j => if (j <? t mod 16)%nat then W (16 * (t / 16) + j)
            else if (t <? 16)%nat then raw !!! j else W (16 * (t / 16) + j - 16)) <$> seq 0 16.

Lemma blk0_ring t : (t < 16)%nat -> blk0 (ring t) t = (W t, ring (S t)).
Proof.
  intros Ht. assert (ring t !!! t = raw !!! t) as E.
  { do 16 (destruct t as [|t]; [reflexivity|]). lia. }
  unfold blk0. rewrite E, Hraw by done. f_equal. clear E.
  do 16 (destruct t as [|t]; [reflexivity|]). lia.
Qed.

Lemma blk_ring t : (16 <= t < 80)%nat -> blk (ring t) t = (W t, ring (S t)).
Proof.
  intros Ht. replace t with (16 + (t - 16))%nat by lia. assert (t - 16 < 64)%nat as H by lia.
  generalize dependent (t - 16)%nat. clear t Ht Hraw. intros t Ht. unfold blk, rol.
  match goal with |- (?v, _) = _ => assert (v = W (16 + t)%nat) as -> end.
  { rewrite HW by done. do 64 (destruct t as [|t]; [reflexivity|]). lia. }
  f_equal. do 64 (destruct t as [|t]; [reflexivity|]). lia.
Qed.

(** A run of rounds of one kind. *)
Lemma rounds_run R n k s :
  (forall t s, (n <= t < n + k)%nat -> R t (s, ring t) = (sha1_round W s t, ring (S t))) ->
  foldl (fun s r => r s) (s, ring n) (R <$> seq n k) = (foldl (sha1_round W) s (seq n k), ring (n + k)).
Proof.
  revert n s. induction k as [|k IH]; intros n s HR; [by rewrite Nat.add_0_r|].
  cbn [seq fmap list_fmap foldl]. rewrite HR by lia. rewrite IH by (intros; apply HR; lia). do 2 f_equal. lia.
Qed.

(** One round of the code is one round of the standard. *)
Lemma round_step f block k t s :
  block (ring t) t = (W t, ring (S t)) -> (forall x y z, f x y z = sha1_f t x y z) -> k = sha1_K t ->
  round f block k t (s, ring t) = (sha1_round W s t, ring (S t)).
Proof.
  intros Hb Hf ->. destruct s as [[[[v w] x] y] z]. unfold round. rewrite Hb. unfold sha1_round, rol.
  rewrite Hf. do 5 f_equal. f_equal. lia.
Qed.

Lemma all_rounds s : foldl (fun s r => r s) (s, ring 0) rounds = (foldl (sha1_round W) s (seq 0 80), ring 80).
Proof.
  change (seq 0 80) with (seq 0 16 ++ seq 16 4 ++ seq 20 20 ++ seq 40 20 ++ seq 60 20).
  unfold rounds. rewrite !foldl_app.
  repeat rewrite rounds_run; [reflexivity|..].
  all: intros t s' Ht; apply round_step; [by (apply blk0_ring || apply blk_ring); lia|..].
  all: unfold sha1_f, sha1_K; destruct (Nat.ltb_spec t 20), (Nat.ltb_spec t 40), (Nat.ltb_spec t 60); try (exfalso; lia).
  all: intros; first [reflexivity|apply Ch_spec|apply Maj_spec].
Qed.
End Transform.

Lemma iter_extend n ws :
  (16 <= length ws)%nat ->
  exists vs, Nat.iter n extend ws = ws ++ vs /\ length vs = n /\
    forall t, (t < n)%nat -> (ws ++ vs) !!! (length ws + t)%nat =
      let w k := (ws ++ vs) !!! (length ws + t - k)%nat in
      rotl (Z.lxor (Z.lxor (Z.lxor (w 3%nat) (w 8%nat)) (w 14%nat)) (w 16%nat)) 1.
Proof.
  intros Hl. induction n as [|n (vs & Hit & Hn & Hw)].
  { exists []. split_and!; [by rewrite app_nil_r|done|lia]. }
  change (Nat.iter (S n) extend ws) with (extend (Nat.iter n extend ws)). rewrite Hit. unfold extend at 1.
  match goal with |- context [ [?v] ] => set (v0 := v) end.
  exists (vs ++ [v0]). rewrite app_assoc. split_and!; [done|rewrite length_app; cbn; lia|].
  intros t Ht. cbn zeta.
  assert (forall i, (i < length ws + n)%nat -> ((ws ++ vs) ++ [v0]) !!! i = (ws ++ vs) !!! i) as Hpre.
  { intros i Hi. apply lookup_total_app_l. rewrite length_app. lia. }
  destruct (decide (t = n)) as [->|Hne].
  - rewrite !(Hpre (_ - _)%nat) by lia. rewrite lookup_total_app_r by (rewrite length_app; lia).
    rewrite length_app. replace (length ws + n - (length ws + length vs))%nat with 0%nat by lia.
    cbn. unfold v0. rewrite length_app, Hn. done.
  - rewrite !Hpre by lia. apply Hw. lia.
Qed.

Lemma schedule_spec block :
  (forall i, (i < 16)%nat -> schedule block !!! i = word_be (take 4 (drop (4 * i) block))) /\
  (forall t, (t < 64)%nat -> schedule block !!! (16 + t)%nat =
    let w k := schedule block !!! (16 + t - k)%nat in
    rotl (Z.lxor (Z.lxor (Z.lxor (w 3%nat) (w 8%nat)) (w 14%nat)) (w 16%nat)) 1).
Proof.
  destruct (iter_extend 64 (block_words block)) as (vs & Hs & Hl & Hw); [done|]. unfold schedule. rewrite Hs. split.
  - intros i Hi. rewrite lookup_total_app_l by done. unfold block_words.
    apply list_lookup_total_correct. rewrite list_lookup_fmap, lookup_seq_lt by done. done.
  - exact Hw.
Qed.

(** [SHA1Transform] is the compression function of the standard. *)
Lemma transform_spec st block :
  is_bytes block -> length block = 64%nat -> SHA1Transform st block = sha1_compress st block.
Proof.
  intros Hb Hl. destruct (schedule_spec block) as [H0 H1]. set (W := fun t => schedule block !!! t).
  assert (load_block block = ring (load_block block) W 0) as Hring by reflexivity.
  unfold SHA1Transform. rewrite Hring, all_rounds; [reflexivity|..].
  - intros i Hi. unfold W, rol. rewrite H0 by done.
    assert (load_block block !!! i = word_le (take 4 (drop (4 * i) block))) as ->.
    { apply list_lookup_total_correct. unfold load_block. rewrite list_lookup_fmap, lookup_seq_lt by done. done. }
    apply swap_word; [by apply Forall_take, Forall_drop|rewrite length_take, length_drop; lia].
  - intros t Ht. unfold W. rewrite H1 by done. cbn zeta. repeat f_equal; lia.
Qed.
#[local] Opaque SHA1Transform.

(** ** Streaming *)

(** The context after the message [msg]. *)
Record ctx_ok (msg : bytes) (c : SHA1_CTX) : Prop := {
  ctx_absorbed : absorbed SHA1Transform sha1_iv msg (state c) (buffer c);
  ctx_count0 : count0 c = u32 (8 * zlen msg);
  ctx_count1 : count1 c = u32 (8 * zlen msg / 2 ^ 32)
}.

Lemma ctx_used msg c : ctx_ok msg c -> Z.land (count0 c ≫ 3) 63 = zlen msg mod 64.
Proof.
  intros [_ Hc _]. rewrite Hc. change 63 with (2 ^ 6 - 1). rewrite land_mask, Z.shiftr_div_pow2 by lia.
  unfold u32, wrap. pose proof (zlen_nonneg msg). dlia.
Qed.

(** The counters, for data of less than 2^29 bytes. *)
Lemma count_update n len :
  0 <= n -> 0 <= len < 2 ^ 29 ->
  let c0 := u32 (8 * n) in
  let c0' := u32 (c0 + u32 (len ≪ 3)) in
  c0' = u32 (8 * (n + len)) /\
  (if c0' <? c0 then u32 (u32 (8 * n / 2 ^ 32) + ((len ≫ 29) + 1)) else u32 (8 * n / 2 ^ 32))
  = u32 (8 * (n + len) / 2 ^ 32).
Proof.
  intros Hn Hlen c0 c0'.   assert (c0' = u32 (8 * (n + len))) as Hc.
  { unfold c0', c0, u32. rewrite Z.shiftl_mul_pow2 by lia. autorewrite with wrap. f_equal. lia. }
  split; [done|]. rewrite Z.shiftr_div_pow2, (Z.div_small len) by lia.
  rewrite Hc. unfold c0, u32. rewrite wrap_add_l. unfold wrap.
  destruct (Z.ltb_spec ((8 * (n + len)) mod 2 ^ 32) ((8 * n) mod 2 ^ 32)); f_equal; dlia.
Qed.

Lemma transform_loop_spec fuel st data i len :
  0 <= i <= len -> zlen data = len -> len + 64 <= 2 ^ 32 -> (len - i) / 64 <= Z.of_nat fuel ->
  let n := Z.to_nat ((len - i) / 64) in
  transform_loop fuel st data i len =
    Ret (absorb SHA1Transform n st (drop (Z.to_nat i) data), i + 64 * Z.of_nat n).
Proof.
  revert st i. induction fuel as [|fuel IH]; intros st i Hi Hd Hlen Hf n; cbn [transform_loop].
  all: rewrite u32_small by lia; destruct (Z.ltb_spec (i + 63) len).
  - exfalso. dlia.
  - assert (n = 0%nat) as -> by (unfold n; dlia). cbn [absorb]. do 2 f_equal. lia.
  - rewrite mem_read_ok by lia. rewrite bind_ret_l, u32_small by lia.
    rewrite IH; [|lia|done|done|dlia]. assert (n = S (Z.to_nat ((len - (i + 64)) / 64))) as -> by (unfold n; dlia).
    cbn [absorb]. rewrite drop_drop. change (Z.to_nat 64) with 64%nat.
    replace (Z.to_nat i + 64)%nat with (Z.to_nat (i + 64)) by lia. do 2 f_equal. lia.
  - assert (n = 0%nat) as -> by (unfold n; dlia). cbn [absorb]. do 2 f_equal. lia.
Qed.

(** A step of the buffer and the chaining value is a step of the context. *)
Lemma update_absorbed msg c data :
  ctx_ok msg c -> zlen data + 64 <= 2 ^ 32 ->
  exists st b, absorbed SHA1Transform sha1_iv (msg ++ data) st b /\
    SHA1Update c data (zlen data) =
      let c0 := u32 (count0 c + u32 (zlen data ≪ 3)) in
      Ret (mk_ctx st c0 (if c0 <? count0 c then u32 (count1 c + ((zlen data ≫ 29) + 1)) else count1 c) b).
Proof.
  intros Hc Hlen. unfold SHA1Update. rewrite (ctx_used msg c Hc). destruct Hc as [Ha _ _].
  pose proof (absorbed_len _ _ _ _ _ Ha) as Hbl. pose proof (zlen_nonneg data).
  assert (zlen msg mod 64 = Z.of_nat (length msg mod 64)) as Hj by (unfold zlen; by rewrite Nat2Z.inj_mod).
  set (j := (length msg mod 64)%nat) in *. assert (j < 64)%nat as Hj64 by (apply Nat.mod_upper_bound; lia).
  rewrite Hj, u32_small by lia. destruct (Z.ltb_spec 63 (Z.of_nat j + zlen data)) as [Hbig|Hsmall].
  - destruct (absorbed_stream _ _ _ _ _ data Ha) as (Hst & Hd & Hb1); [fold j; unfold zlen in *; lia|].
    fold j in Hst, Hd, Hb1. set (d1 := take (64 - j) data) in *. set (rest := drop (64 - j) data) in *.
    set (b1 := take j (buffer c) ++ d1) in *. set (d2 := drop (64 * (length rest / 64)) rest) in *.
    eexists _, _. split; [exact Hst|].
    assert (zlen data = 64 - Z.of_nat j + zlen rest) as Hzl by (unfold rest, zlen in *; rewrite length_drop; lia).
    assert (length d1 = 64 - j)%nat as Hd1 by (unfold d1; rewrite length_take; unfold zlen in *; lia).
    assert ((zlen data - (64 - Z.of_nat j)) / 64 = Z.of_nat (length rest / 64)) as Hn.
    { rewrite Nat2Z.inj_div. fold (zlen rest). f_equal. lia. }
    pose proof (Nat.Div0.mul_div_le (length rest) 64) as Hle.
    rewrite mem_read_ok by lia. change (drop (Z.to_nat 0) data) with data.
    assert (Z.to_nat (64 - Z.of_nat j) = 64 - j)%nat as Hnj by lia. rewrite Hnj. fold d1. rewrite bind_ret_l.
    rewrite mem_write_ok by (unfold zlen; lia). rewrite bind_ret_l, Nat2Z.id.
    rewrite (drop_ge (buffer c)) by lia. rewrite app_nil_r. fold b1.
    rewrite transform_loop_spec; [|lia|done|lia|rewrite Z2Nat.id by dlia; dlia].
    rewrite bind_ret_l, Hn, Nat2Z.id, Hnj. fold rest.
    rewrite mem_read_ok by (unfold zlen in *; lia).
    replace (Z.to_nat (64 - Z.of_nat j + 64 * Z.of_nat (length rest / 64))) with (64 - j + 64 * (length rest / 64))%nat by lia.
    rewrite <-drop_drop. fold rest. fold d2.
    rewrite take_ge by (unfold d2; rewrite length_drop; unfold zlen in *; lia).
    rewrite bind_ret_l, mem_write_0, bind_ret_l by (unfold zlen; lia). done.
  - eexists _, _. split; [apply (absorbed_fill _ _ _ _ _ data Ha); fold j; unfold zlen in *; lia|].
    rewrite mem_read_ok by lia. change (drop (Z.to_nat 0) data) with data. rewrite zlen_nat, firstn_all, bind_ret_l.
    rewrite mem_write_ok by (unfold zlen in *; lia). rewrite Nat2Z.id. done.
Qed.

Lemma update_ok msg c data :
  ctx_ok msg c -> zlen data < 2 ^ 29 ->
  exists c', SHA1Update c data (zlen data) = Ret c' /\ ctx_ok (msg ++ data) c'.
Proof.
  intros Hc Hl. pose proof (zlen_nonneg data). pose proof (zlen_nonneg msg).
  destruct (update_absorbed msg c data Hc ltac:(lia)) as (st & b & Ha & Hu).
  eexists. split; [exact Hu|]. destruct (count_update (zlen msg) (zlen data)) as [E0 E1]; [lia|lia|].
  destruct Hc as [_ Hc0 Hc1]. rewrite Hc0, Hc1.
  split; cbn [state buffer count0 count1]; [exact Ha|..]; rewrite zlen_app; done.
Qed.

(** ** Finalisation *)

(** [(count[0] & 504)] is eight times the bytes in the buffer. *)
Lemma count_mod msg c : ctx_ok msg c -> Z.land (count0 c) 504 = 8 * (zlen msg mod 64).
Proof.
  intros [_ Hc _]. rewrite Hc.
  assert (forall x, 0 <= x -> Z.land (8 * x) 504 = 8 * (x mod 64)) as H.
  { intros x Hx. replace (8 * x) with (x ≪ 3) by (rewrite Z.shiftl_mul_pow2; lia).
    change 504 with (63 ≪ 3). rewrite <-Z.shiftl_land. change 63 with (2 ^ 6 - 1).
    rewrite land_mask, Z.shiftl_mul_pow2 by lia. change (2 ^ 6) with 64. lia. }
  pose proof (zlen_nonneg msg). unfold u32, wrap.
  replace ((8 * zlen msg) mod 2 ^ 32) with (8 * (zlen msg mod 2 ^ 29)) by dlia.
  rewrite H by dlia. dlia.
Qed.

Lemma pad_loop_ok fuel msg c :
  ctx_ok msg c -> (56 - zlen msg) mod 64 <= Z.of_nat fuel ->
  exists c', pad_loop fuel c = Ret c' /\
    ctx_ok (msg ++ replicate (Z.to_nat ((56 - zlen msg) mod 64)) 0) c'.
Proof.
  revert msg c. induction fuel as [|fuel IH]; intros msg c Hc Hf; pose proof (zlen_nonneg msg).
  all: cbn [pad_loop]; rewrite (count_mod msg c Hc); destruct (Z.eqb_spec (8 * (zlen msg mod 64)) 448) as [E|E].
  - exists c. assert ((56 - zlen msg) mod 64 = 0) as -> by dlia. by rewrite app_nil_r.
  - exfalso. dlia.
  - exists c. assert ((56 - zlen msg) mod 64 = 0) as -> by dlia. by rewrite app_nil_r.
  - destruct (update_ok msg c [0] Hc ltac:(done)) as (c' & Hu & Hc'). change (zlen [0]) with 1 in Hu.
    rewrite Hu, bind_ret_l. assert (zlen (msg ++ [0]) = zlen msg + 1) as Hz by (rewrite zlen_app; done).
    destruct (IH _ _ Hc') as (c'' & Hp & Hc''); [rewrite Hz; dlia|]. exists c''. split; [done|].
    rewrite Hz, <-app_assoc in Hc''.
    replace (Z.to_nat ((56 - zlen msg) mod 64)) with (S (Z.to_nat ((56 - (zlen msg + 1)) mod 64))) by dlia.
    done.
Qed.

Lemma final_ok msg c :
  ctx_ok msg c -> is_bytes msg -> zlen msg < 2 ^ 61 -> SHA1Final c = Ret (sha1 msg).
Proof.
  intros Hc Hb Hlen. unfold SHA1Final. pose proof (zlen_nonneg msg).
  assert (bytes_be (count1 c) ++ bytes_be (count0 c) = length_be (zlen msg)) as ->.
  { destruct Hc as [_ -> ->]. unfold length_be, bytes_be.
    by rewrite !u8_u32_shiftr, !u8_u32 by lia. }
  destruct (update_ok msg c [0x80] Hc ltac:(done)) as (c1 & Hu & Hc1). change (zlen [0x80]) with 1 in Hu.
  rewrite Hu, bind_ret_l. assert (zlen (msg ++ [0x80]) = zlen msg + 1) as Hz by (rewrite zlen_app; done).
  destruct (pad_loop_ok 63 _ c1 Hc1) as (c2 & Hp & Hc2); [rewrite Hz; dlia|]. rewrite Hp, bind_ret_l.
  destruct (update_ok _ c2 (length_be (zlen msg)) Hc2 ltac:(done)) as (c3 & Hu3 & Hc3).
  change (zlen (length_be _)) with 8 in Hu3. rewrite Hu3, bind_ret_l. f_equal. unfold sha1. f_equal.
  rewrite Hz in Hc3. replace (56 - (zlen msg + 1)) with (55 - zlen msg) in Hc3 by lia.
  rewrite <-!app_assoc in Hc3. fold (pad (length_be (zlen msg)) msg) in Hc3.
  destruct Hc3 as [[_ -> _] _ _]. unfold absorb_all. apply absorb_ext; [apply transform_spec| |].
  - unfold pad, is_bytes. rewrite !Forall_app. split_and!; [done|by repeat constructor| |].
    + apply Forall_replicate. by vm_compute.
    + unfold length_be, bytes_be. rewrite !Forall_app. split; repeat constructor; apply wrap_range; lia.
  - apply Nat.Div0.mul_div_le.
Qed.

(** ** Claims *)

(** The calls of a client: one [SHA1Update] per chunk, then [SHA1Final]. *)
Fixpoint updates (c : SHA1_CTX) (chunks : list bytes) : outcome SHA1_CTX :=
  match chunks with
  | [] => Ret c
  | d :: chunks => c ← SHA1Update c d (zlen d); updates c chunks
  end.

Lemma updates_ok msg c chunks :
  ctx_ok msg c -> Forall (fun d => zlen d < 2 ^ 29) chunks ->
  exists c', updates c chunks = Ret c' /\ ctx_ok (msg ++ concat chunks) c'.
Proof.
  intros Hc Hs. revert msg c Hc. induction Hs as [|d chunks Hd Hs IH]; intros msg c Hc; cbn [updates concat].
  { exists c. by rewrite app_nil_r. }
  destruct (update_ok msg c d Hc Hd) as (c1 & -> & Hc1). rewrite bind_ret_l.
  destruct (IH _ _ Hc1) as (c' & Hu & Hc'). exists c'. by rewrite <-app_assoc in Hc'.
Qed.

Lemma init_ok c : length (buffer c) = 64%nat -> ctx_ok [] (SHA1Init c).
Proof. intros. split; [|done..]. by apply absorbed_nil. Qed.

(** C16: a message given to [SHA1Update] in any pieces of less than 2^29 bytes, with whatever the
    context held before [SHA1Init], has the digest of FIPS 180-4: the ring of sixteen
    words, the byte swapping, the buffering and the padding one byte at a time compute the
    standard function.  The bound is that of the code: the length of a larger piece is lost ([sha1_count_lost]). *)
Theorem sha1_streaming_correct c chunks :
  length (buffer c) = 64%nat -> is_bytes (concat chunks) ->
  Forall (fun d => zlen d < 2 ^ 29) chunks -> zlen (concat chunks) < 2 ^ 61 ->
  (c ← updates (SHA1Init c) chunks; SHA1Final c) = Ret (sha1 (concat chunks)).
Proof.
  intros Hl Hb Hs Hlen. destruct (updates_ok [] (SHA1Init c) chunks (init_ok c Hl) Hs) as (c' & -> & Hc').
  rewrite bind_ret_l. by apply final_ok.
Qed.

Lemma sha1_streaming_correct_witness :
  (c ← updates (SHA1Init blank) [[97]; []; replicate 200 98; [99; 100]]; SHA1Final c)
  = Ret (sha1 ([97] ++ [] ++ replicate 200 98 ++ [99; 100] ++ [])).
Proof.
  apply (sha1_streaming_correct blank [[97]; []; replicate 200 98; [99; 100]]).
  - reflexivity.
  - unfold is_bytes. cbn [concat app]. apply Forall_cons_2; [by vm_compute|]. apply Forall_app. split.
    + apply Forall_replicate. by vm_compute.
    + by repeat constructor.
  - repeat constructor; by vm_compute.
  - by vm_compute.
Defined.

(** the bit counter of [SHA1Update] loses the length of large pieces: [len >> 29] is added to
    the high word only when the low word wraps, so after a piece of 2^29 bytes both words
    are what they were. *)
Theorem sha1_count_lost msg c data :
  ctx_ok msg c -> zlen data = 2 ^ 29 ->
  exists c', SHA1Update c data (zlen data) = Ret c' /\ count0 c' = count0 c /\ count1 c' = count1 c.
Proof.
  intros Hc Hl. destruct (update_absorbed msg c data Hc ltac:(lia)) as (st & b & _ & Hu).
  eexists. split; [exact Hu|]. rewrite Hl. change (u32 (2 ^ 29 ≪ 3)) with 0. rewrite Z.add_0_r.
  assert (u32 (count0 c) = count0 c) as ->.
  { rewrite (ctx_count0 _ _ Hc). unfold u32. apply wrap_wrap. }
  cbn [count0 count1]. by rewrite (proj2 (Z.ltb_ge _ _)) by lia.
Qed.

Lemma sha1_count_lost_witness :
  exists c', SHA1Update (SHA1Init blank) (replicate (Z.to_nat (2 ^ 29)) 0) (zlen (replicate (Z.to_nat (2 ^ 29)) 0)) = Ret c'
    /\ count0 c' = 0 /\ count1 c' = 0.
Proof.
  apply (sha1_count_lost [] (SHA1Init blank) (replicate (Z.to_nat (2 ^ 29)) 0)).
  - by apply init_ok.
  - rewrite zlen_replicate, Z2Nat.id; [reflexivity|lia].
Defined.
