(* ===== verification/Md5.v ===== *)
(** MD5: src/crypto/md5.c, built for x86, where [SET] and [GET] read the words of the block in
    place ([ctx->block] is not used) and [unsigned long] has 64 bits. *)

From S2P Require Import Prelude Merkle.

(** The macros of the four rounds. *)
Inductive macro := mF | mG | mH | mH2 | mI.

Definition eval_macro (f : macro) (x y z : Z) : Z :=
  match f with
  | mF => Z.lxor z (Z.land x (Z.lxor y z))
  | mG => Z.lxor y (Z.land z (Z.lxor x y))
  | mH => Z.lxor (Z.lxor x y) z
  | mH2 => Z.lxor x (Z.lxor y z)
  | mI => Z.lxor y (Z.lor x (u32 (Z.lnot z)))
  end.

(** The working variables, in the order in which a [STEP] names them. *)
Definition regs : Type := Z * Z * Z * Z.

(** [STEP(f, a, b, c, d, x, t, s)]; the next use is [STEP(f, d, a, b, c, ..)], so the result is in
    that order, and in the first order again after a multiple of four uses. *)
Definition STEP (f : macro) (x t s : Z) (r : regs) : regs :=
  let '(a, b, c, d) := r in
  let a := u32 (a + (eval_macro f b c d + x + t)) in
  let a := Z.lor (u32 (a ≪ s)) (Z.land a 0xffffffff ≫ (32 - s)) in
  let a := u32 (a + b) in
  (d, a, b, c).

(** The 64 uses in [body]: the macro, the word of the block, the constant and the rotation. *)
Definition steps : list (macro * nat * Z * Z) :=
  [
   (mF, 0%nat, 0xd76aa478, 7); (mF, 1%nat, 0xe8c7b756, 12); (mF, 2%nat, 0x242070db, 17); (mF, 3%nat, 0xc1bdceee, 22);
   (mF, 4%nat, 0xf57c0faf, 7); (mF, 5%nat, 0x4787c62a, 12); (mF, 6%nat, 0xa8304613, 17); (mF, 7%nat, 0xfd469501, 22);
   (mF, 8%nat, 0x698098d8, 7); (mF, 9%nat, 0x8b44f7af, 12); (mF, 10%nat, 0xffff5bb1, 17); (mF, 11%nat, 0x895cd7be, 22);
   (mF, 12%nat, 0x6b901122, 7); (mF, 13%nat, 0xfd987193, 12); (mF, 14%nat, 0xa679438e, 17); (mF, 15%nat, 0x49b40821, 22);
   (mG, 1%nat, 0xf61e2562, 5); (mG, 6%nat, 0xc040b340, 9); (mG, 11%nat, 0x265e5a51, 14); (mG, 0%nat, 0xe9b6c7aa, 20);
   (mG, 5%nat, 0xd62f105d, 5); (mG, 10%nat, 0x02441453, 9); (mG, 15%nat, 0xd8a1e681, 14); (mG, 4%nat, 0xe7d3fbc8, 20);
   (mG, 9%nat, 0x21e1cde6, 5); (mG, 14%nat, 0xc33707d6, 9); (mG, 3%nat, 0xf4d50d87, 14); (mG, 8%nat, 0x455a14ed, 20);
   (mG, 13%nat, 0xa9e3e905, 5); (mG, 2%nat, 0xfcefa3f8, 9); (mG, 7%nat, 0x676f02d9, 14); (mG, 12%nat, 0x8d2a4c8a, 20);
   (mH, 5%nat, 0xfffa3942, 4); (mH2, 8%nat, 0x8771f681, 11); (mH, 11%nat, 0x6d9d6122, 16); (mH2, 14%nat, 0xfde5380c, 23);
   (mH, 1%nat, 0xa4beea44, 4); (mH2, 4%nat, 0x4bdecfa9, 11); (mH, 7%nat, 0xf6bb4b60, 16); (mH2, 10%nat, 0xbebfbc70, 23);
   (mH, 13%nat, 0x289b7ec6, 4); (mH2, 0%nat, 0xeaa127fa, 11); (mH, 3%nat, 0xd4ef3085, 16); (mH2, 6%nat, 0x04881d05, 23);
   (mH, 9%nat, 0xd9d4d039, 4); (mH2, 12%nat, 0xe6db99e5, 11); (mH, 15%nat, 0x1fa27cf8, 16); (mH2, 2%nat, 0xc4ac5665, 23);
   (mI, 0%nat, 0xf4292244, 6); (mI, 7%nat, 0x432aff97, 10); (mI, 14%nat, 0xab9423a7, 15); (mI, 5%nat, 0xfc93a039, 21);
   (mI, 12%nat, 0x655b59c3, 6); (mI, 3%nat, 0x8f0ccc92, 10); (mI, 10%nat, 0xffeff47d, 15); (mI, 1%nat, 0x85845dd1, 21);
   (mI, 8%nat, 0x6fa87e4f, 6); (mI, 15%nat, 0xfe2ce6e0, 10); (mI, 6%nat, 0xa3014314, 15); (mI, 13%nat, 0x4e0811a1, 21);
   (mI, 4%nat, 0xf7537e82, 6); (mI, 11%nat, 0xbd3af235, 10); (mI, 2%nat, 0x2ad7d2bb, 15); (mI, 9%nat, 0xeb86d391, 21)].

(** [SET(n)] and [GET(n)] *)
Definition GET (block : bytes) (n : nat) : Z := word_le (take 4 (drop (4 * n) block)).

(** One iteration of [body]. *)
Definition body_block (r : regs) (block : bytes) : regs :=
  let '(saved_a, saved_b, saved_c, saved_d) := r in
  let '(a, b, c, d) := foldl (fun r '(f, n, t, s) => STEP f (GET block n) t s r) r steps in
  (u32 (a + saved_a), u32 (b + saved_b), u32 (c + saved_c), u32 (d + saved_d)).

(** [do { .. ptr += 64; } while (size -= 64)]: the variables and the offset that [ptr] reached. *)
Fixpoint body (fuel : nat) (r : regs) (data : bytes) (ptr size : Z) : outcome (regs * Z) :=
  match fuel with
  | O => Undef
  | S fuel =>
      block ← mem_read data ptr 64;
      let r := body_block r block in
      let ptr := ptr + 64 in
      let size := u64 (size - 64) in
      if size =? 0 then Ret (r, ptr) else body fuel r data ptr size
  end.

Record MD5_CTX := mk_ctx { lo : Z; hi : Z; abcd : regs; buffer : bytes }.

Definition MD5_Init (ctx : MD5_CTX) : MD5_CTX :=
  mk_ctx 0 0 (0x67452301, 0xefcdab89, 0x98badcfe, 0x10325476) (buffer ctx).

(** The part of [MD5_Update] after the buffered block; [off] is where [data] points to. *)
Definition update_rest (lo hi : Z) (r : regs) (b : bytes) (data : bytes) (off size : Z) : outcome MD5_CTX :=
  '(r, off, size) ←
    (if 64 <=? size then
       '(r, off) ← body (Z.to_nat (size / 64)) r data off (Z.land size (u64 (Z.lnot 0x3f)));
       Ret (r, off, Z.land size 0x3f)
     else Ret (r, off, size));
  d ← mem_read data off size;
  b ← mem_write b 0 d;
  Ret (mk_ctx lo hi r b).

Definition MD5_Update (ctx : MD5_CTX) (data : bytes) (size : Z) : outcome MD5_CTX :=
  let saved_lo := lo ctx in
  let lo' := Z.land (u64 (saved_lo + size)) 0x1fffffff in
  let hi' := if lo' <? saved_lo then u32 (hi ctx + 1) else hi ctx in
  let hi' := u32 (hi' + size ≫ 29) in
  let used := Z.land saved_lo 0x3f in
  if negb (used =? 0) then
    let available := 64 - used in
    if size <? available then
      d ← mem_read data 0 size;
      b ← mem_write (buffer ctx) used d;
      Ret (mk_ctx lo' hi' (abcd ctx) b)
    else
      d ← mem_read data 0 available;
      b ← mem_write (buffer ctx) used d;
      '(r, _) ← body 1 (abcd ctx) b 0 64;
      update_rest lo' hi' r b data available (size - available)
  else update_rest lo' hi' (abcd ctx) (buffer ctx) data 0 size.

Definition digest_of (r : regs) : bytes :=
  let '(a, b, c, d) := r in bytes_le a ++ bytes_le b ++ bytes_le c ++ bytes_le d.

(** [MD5_Final]: the sixteen bytes; the context is cleared. *)
Definition MD5_Final (ctx : MD5_CTX) : outcome (bytes * MD5_CTX) :=
  let used := Z.land (lo ctx) 0x3f in
  b ← mem_set (buffer ctx) used 0x80;
  let used := used + 1 in
  let available := 64 - used in
  '(r, b, used, available) ←
    (if available <? 8 then
       b ← mem_fill b used 0 available;
       '(r, _) ← body 1 (abcd ctx) b 0 64;
       Ret (r, b, 0, 64)
     else Ret (abcd ctx, b, used, available));
  b ← mem_fill b used 0 (available - 8);
  let lo' := u32 (lo ctx ≪ 3) in
  b ← mem_write b 56 (bytes_le lo' ++ bytes_le (hi ctx));
  '(r, _) ← body 1 r b 0 64;
  Ret (digest_of r, mk_ctx 0 0 (0, 0, 0, 0) (replicate 64 0)).

Definition blank : MD5_CTX := mk_ctx 0 0 (0, 0, 0, 0) (replicate 64 0).

Example md5_abc :
  (c ← MD5_Update (MD5_Init blank) [97; 98; 99] 3; '(d, _) ← MD5_Final c; Ret d) =
  Ret [0x90; 0x01; 0x50; 0x98; 0x3c; 0xd2; 0x4f; 0xb0; 0xd6; 0x96; 0x3f; 0x7d; 0x28; 0xe1; 0x7f; 0x72].
Proof. vm_compute. reflexivity. Qed.
