(* ===== verification/Md5Spec.v ===== *)
(** MD5 as RFC 1321 defines it, and that src/crypto/md5.c computes it. *)

From S2P Require Import Prelude Merkle Md5.

(** ** RFC 1321 *)

(** In the first two functions the complement only meets a word in a conjunction. *)
Definition md5_f (round : nat) (x y z : Z) : Z :=
  match round with
  | 0%nat => Z.lor (Z.land x y) (Z.land (Z.lnot x) z)
  | 1%nat => Z.lor (Z.land x z) (Z.land y (Z.lnot z))
  | 2%nat => Z.lxor (Z.lxor x y) z
  | _ => Z.lxor y (Z.lor x (u32 (Z.lnot z)))
  end.

(** The word of the block that step [i] uses, and its rotation. *)
Definition md5_k (i : nat) : nat :=
  match (i / 16)%nat with
  | 0%nat => i
  | 1%nat => (5 * i + 1) mod 16
  | 2%nat => (3 * i + 5) mod 16
  | _ => (7 * i) mod 16
  end.
Definition md5_s (i : nat) : Z :=
  nth (i mod 4) (nth (i / 16) [[7; 12; 17; 22]; [5; 9; 14; 20]; [4; 11; 16; 23]; [6; 10; 15; 21]] []) 0.

(** [T[i] = floor(2^32 * abs(sin(i)))]: the series of the sine in fixed point with 256 bits after
    the point, far more than the largest term at 64 needs. *)
Fixpoint sine_series (fuel : nat) (k x2 term sum : Z) : Z :=
  match fuel with
  | O => sum
  | S fuel =>
      let term := - (term * x2) / ((k + 1) * (k + 2)) in
      sine_series fuel (k + 2) x2 term (sum + term)
  end.
Definition sine (x : Z) : Z := sine_series 110 1 (x * x) (x ≪ 256) (x ≪ 256).
Definition md5_T (i : nat) : Z := Z.abs (sine (Z.of_nat i)) ≫ 224.

Definition md5_step (X : nat -> Z) (r : regs) (i : nat) : regs :=
  let '(a, b, c, d) := r in
  (d, u32 (b + rotl (u32 (a + md5_f (i / 16) b c d + X (md5_k i) + md5_T (S i))) (md5_s i)), b, c).

Definition md5_compress (r : regs) (block : bytes) : regs :=
  let '(a, b, c, d) := foldl (md5_step (fun n => word_le (take 4 (drop (4 * n) block)))) r (seq 0 64) in
  let '(aa, bb, cc, dd) := r in
  (u32 (a + aa), u32 (b + bb), u32 (c + cc), u32 (d + dd)).

Definition md5_iv : regs := (0x67452301, 0xefcdab89, 0x98badcfe, 0x10325476).

(** The low 64 bits of the length in bits, low-order word first. *)
Definition length_le (n : Z) : bytes := bytes_le (8 * n) ++ bytes_le (8 * n / 2 ^ 32).

Definition md5 (msg : bytes) : bytes :=
  digest_of (absorb_all md5_compress md5_iv (pad (length_le (zlen msg)) msg)).

(** ** The compression function *)

Definition macro_round (f : macro) : nat :=
  match f with mF => 0 | mG => 1 | mH | mH2 => 2 | mI => 3 end.

(** The table of the source is the rule of the RFC. *)
Lemma steps_table :
  (fun '(f, n, t, s) => (macro_round f, n, t, s)) <$> steps =
  (fun i => ((i / 16)%nat, md5_k i, md5_T (S i), md5_s i)) <$> seq 0 64.
Proof. vm_compute. reflexivity. Qed.

Lemma macro_spec f x y z : eval_macro f x y z = md5_f (macro_round f) x y z.
Proof.
  destruct f; cbn [eval_macro md5_f macro_round]; [| |done|by rewrite Z.lxor_assoc|done].
  all: apply Z.bits_inj'; intros i Hi; rewrite !Z.lxor_spec, !Z.lor_spec, !Z.land_spec, !Z.lxor_spec, !Z.lnot_spec by lia.
  all: by destruct (Z.testbit x i), (Z.testbit y i), (Z.testbit z i).
Qed.

Lemma STEP_spec f n t s i X r :
  (macro_round f, n, t, s) = ((i / 16)%nat, md5_k i, md5_T (S i), md5_s i) ->
  STEP f (X n) t s r = md5_step X r i.
Proof.
  intros Heq. apply pair_eq in Heq as [Heq ->]. apply pair_eq in Heq as [Heq ->]. apply pair_eq in Heq as [Hf ->].
  destruct r as [[[a b] c] d]. unfold STEP, md5_step. rewrite macro_spec, Hf.
  assert (forall x, Z.land (u32 x) 0xffffffff = u32 x) as ->.
  { intros x. change 0xffffffff with (2 ^ 32 - 1). rewrite land_mask by lia. apply Zmod_mod. }
  replace (a + (md5_f (i / 16) b c d + X (md5_k i) + md5_T (S i)))
    with (a + md5_f (i / 16) b c d + X (md5_k i) + md5_T (S i)) by lia.
  unfold rotl. do 3 f_equal. f_equal. apply Z.add_comm.
Qed.

(** [body] computes the compression function, block by block. *)
Lemma body_block_spec r block : body_block r block = md5_compress r block.
Proof.
  unfold body_block, md5_compress, GET. set (X := fun n => word_le (take 4 (drop (4 * n) block))).
  assert (forall l idx r, (fun '(f, n, t, s) => (macro_round f, n, t, s)) <$> l =
    (fun i => ((i / 16)%nat, md5_k i, md5_T (S i), md5_s i)) <$> idx ->
    foldl (fun r '(f, n, t, s) => STEP f (X n) t s r) r l = foldl (md5_step X) r idx) as Hfold.
  { intros l. induction l as [|[[[f n] t] s] l IH]; intros [|i idx] r0 Heq; try done.
    rewrite !fmap_cons in Heq. pose proof (f_equal (fun l => head l) Heq) as Hh. apply (f_equal (fun l => tail l)) in Heq as Ht.
    cbn [head tail] in Hh, Ht. apply (inj Some) in Hh.
    cbn [foldl]. rewrite (STEP_spec f n t s i X r0 Hh). by apply IH. }
  rewrite <-(Hfold steps (seq 0 64) r steps_table). destruct r as [[[a b] c] d]. done.
Qed.
#[local] Opaque body_block md5_T steps.

Lemma body_spec n r data ptr :
  0 <= ptr -> ptr + 64 * Z.of_nat (S n) <= zlen data -> 64 * Z.of_nat (S n) < 2 ^ 64 ->
  body (S n) r data ptr (64 * Z.of_nat (S n)) =
    Ret (absorb body_block (S n) r (drop (Z.to_nat ptr) data), ptr + 64 * Z.of_nat (S n)).
Proof.
  revert r ptr. induction n as [|n IH]; intros r ptr Hp Hd Hs.
  - cbn [body]. rewrite mem_read_ok by lia. rewrite bind_ret_l. done.
  - change (body (S (S n))) with (fun r data ptr size =>
      block ← mem_read data ptr 64;
      if u64 (size - 64) =? 0 then Ret (body_block r block, ptr + 64)
      else body (S n) (body_block r block) data (ptr + 64) (u64 (size - 64))).
    cbv beta. rewrite mem_read_ok by lia. rewrite bind_ret_l, u64_small by lia.
    rewrite (proj2 (Z.eqb_neq _ 0)) by lia.
    replace (64 * Z.of_nat (S (S n)) - 64) with (64 * Z.of_nat (S n)) by lia. rewrite IH by lia.
    set (x := drop (Z.to_nat ptr) data).
    change (absorb body_block (S (S n)) r x) with (absorb body_block (S n) (body_block r (take 64 x)) (drop 64 x)).
    unfold x at 3. rewrite drop_drop. replace (Z.to_nat ptr + 64)%nat with (Z.to_nat (ptr + 64)) by lia.
    change (Z.to_nat 64) with 64%nat. do 2 f_equal. lia.
Qed.

Lemma body_one r b : length b = 64%nat -> body 1 r b 0 64 = Ret (body_block r b, 64).
Proof.
  intros Hl. pose proof (body_spec 0 r b 0) as H. change (64 * Z.of_nat 1) with 64 in H.
  rewrite H by (unfold zlen; lia). cbn [absorb]. change (drop (Z.to_nat 0) b) with b. by rewrite take_ge by lia.
Qed.

(** ** Streaming *)

Record ctx_ok (msg : bytes) (c : MD5_CTX) : Prop := {
  ctx_absorbed : absorbed body_block md5_iv msg (abcd c) (buffer c);
  ctx_lo : lo c = zlen msg mod 2 ^ 29;
  ctx_hi : hi c = u32 (zlen msg / 2 ^ 29)
}.

Lemma md5_ctx_used msg c : ctx_ok msg c -> Z.land (lo c) 0x3f = zlen msg mod 64.
Proof.
  intros [_ Hc _]. rewrite Hc. change 0x3f with (2 ^ 6 - 1). rewrite land_mask by lia. dlia.
Qed.

Lemma md5_count_update n size :
  0 <= n -> 0 <= size < 2 ^ 64 - 2 ^ 29 ->
  let lo' := Z.land (u64 (n mod 2 ^ 29 + size)) 0x1fffffff in
  lo' = (n + size) mod 2 ^ 29 /\
  u32 ((if lo' <? n mod 2 ^ 29 then u32 (u32 (n / 2 ^ 29) + 1) else u32 (n / 2 ^ 29)) + size ≫ 29)
  = u32 ((n + size) / 2 ^ 29).
Proof.
  intros Hn Hs lo'. assert (lo' = (n + size) mod 2 ^ 29) as Hlo.
  { unfold lo'. rewrite u64_small by dlia. change 0x1fffffff with (2 ^ 29 - 1). rewrite land_mask by lia. dlia. }
  split; [done|]. rewrite Hlo, Z.shiftr_div_pow2 by lia. unfold u32.
  destruct (Z.ltb_spec ((n + size) mod 2 ^ 29) (n mod 2 ^ 29)).
  - rewrite wrap_add_l, <-Z.add_assoc, wrap_add_l. f_equal. dlia.
  - rewrite wrap_add_l. f_equal. dlia.
Qed.

(** [size & ~0x3f] *)
Lemma land_high x : 0 <= x < 2 ^ 64 -> Z.land x (u64 (Z.lnot 0x3f)) = 64 * (x / 64).
Proof.
  intros Hx. transitivity (Z.ldiff x (Z.ones 6)).
  - apply Z.bits_inj'. intros i Hi. rewrite Z.land_spec, Z.ldiff_spec. unfold u64, wrap.
    destruct (decide (i < 64)).
    + rewrite Z.mod_pow2_bits_low, Z.lnot_spec by lia. done.
    + rewrite Z.mod_pow2_bits_high by lia. rewrite <-(Z.mod_small x (2 ^ 64)), Z.mod_pow2_bits_high by lia. done.
  - rewrite Z.ldiff_ones_r, Z.shiftl_mul_pow2, Z.shiftr_div_pow2 by lia. change (2 ^ 6) with 64. lia.
Qed.

Lemma update_rest_ok msg lo hi r b data off :
  absorbed body_block md5_iv msg r b -> (length msg mod 64 = 0)%nat -> 0 <= off <= zlen data -> zlen data < 2 ^ 64 ->
  exists r' b', update_rest lo hi r b data off (zlen data - off) = Ret (mk_ctx lo hi r' b') /\
    absorbed body_block md5_iv (msg ++ drop (Z.to_nat off) data) r' b'.
Proof.
  intros Ha H0 Hoff Hlen. set (rest := drop (Z.to_nat off) data).
  assert (zlen data - off = zlen rest) as Hz by (unfold rest; rewrite zlen_drop; lia). rewrite Hz.
  destruct (absorbed_aligned _ _ _ _ _ rest Ha H0) as [Hal Hd].
  set (n := (length rest / 64)%nat) in *. set (d := drop (64 * n) rest) in *.
  eexists _, _. split; [|exact Hal].
  pose proof (absorbed_len _ _ _ _ _ Ha) as Hb. pose proof (Nat.div_mod_eq (length rest) 64) as Hm. fold n in Hm.
  pose proof (Nat.mod_upper_bound (length rest) 64 ltac:(lia)).
  assert (forall m, m = Z.of_nat (64 * n) ->
    mem_read data (off + m) (zlen rest - m) = Ret d) as Hread.
  { intros m ->. rewrite mem_read_ok by (unfold zlen in *; lia). f_equal.
    replace (Z.to_nat (off + Z.of_nat (64 * n))) with (Z.to_nat off + 64 * n)%nat by lia.
    rewrite <-drop_drop. fold rest. apply take_ge. unfold d. rewrite length_drop. unfold zlen. lia. }
  unfold update_rest. destruct (Z.leb_spec 64 (zlen rest)) as [Hge|Hlt].
  - assert (exists k, n = S k) as [k Hk] by (exists (n - 1)%nat; unfold zlen in *; lia).
    rewrite land_high by (pose proof (zlen_nonneg rest); lia).
    replace (64 * (zlen rest / 64)) with (64 * Z.of_nat n) by (unfold n; by rewrite Nat2Z.inj_div).
    rewrite Z2Nat.inj_div, zlen_nat by (try apply zlen_nonneg; lia). change (Z.to_nat 64) with 64%nat. fold n.
    rewrite Hk, body_spec by (unfold zlen in *; lia). rewrite !bind_ret_l, <-Hk. cbn beta iota.
    change 0x3f with (2 ^ 6 - 1). rewrite land_mask by lia.
    replace (zlen rest mod 2 ^ 6) with (zlen rest - 64 * Z.of_nat n) by (unfold n; rewrite Nat2Z.inj_div; fold (zlen rest); dlia).
    rewrite (Hread (64 * Z.of_nat n)) by lia. rewrite bind_ret_l, mem_write_0 by (unfold zlen; lia). done.
  - assert (n = 0%nat) as Hn by (unfold zlen in *; lia). rewrite bind_ret_l. cbn beta iota.
    specialize (Hread 0 ltac:(lia)). rewrite Z.add_0_r, Z.sub_0_r in Hread.
    rewrite Hread, bind_ret_l, mem_write_0 by (unfold zlen; lia). by rewrite Hn.
Qed.

Lemma md5_update_ok msg c data :
  ctx_ok msg c -> zlen data < 2 ^ 64 - 2 ^ 29 ->
  exists c', MD5_Update c data (zlen data) = Ret c' /\ ctx_ok (msg ++ data) c'.
Proof.
  intros Hc Hlen. pose proof (zlen_nonneg data). pose proof (zlen_nonneg msg).
  destruct (md5_count_update (zlen msg) (zlen data)) as [E0 E1]; [lia|lia|].
  pose proof (md5_ctx_used msg c Hc) as Hu. destruct Hc as [Ha Hlo Hhi]. unfold MD5_Update. rewrite Hu, Hlo, Hhi.
  set (lo' := Z.land _ 0x1fffffff) in *. set (hi' := u32 (_ + zlen data ≫ 29)) in *.
  assert (forall r b, absorbed body_block md5_iv (msg ++ data) r b -> ctx_ok (msg ++ data) (mk_ctx lo' hi' r b)) as Hok.
  { intros r b Hab. split; [done|..]; cbn; by rewrite zlen_app. }
  pose proof (absorbed_len _ _ _ _ _ Ha) as Hb.
  assert (zlen msg mod 64 = Z.of_nat (length msg mod 64)) as Hj by (unfold zlen; by rewrite Nat2Z.inj_mod).
  set (j := (length msg mod 64)%nat) in *. assert (j < 64)%nat as Hj64 by (apply Nat.mod_upper_bound; lia).
  rewrite Hj. destruct (Z.eqb_spec (Z.of_nat j) 0) as [Ez|Enz]; cbn [negb].
  { destruct (update_rest_ok msg lo' hi' (abcd c) (buffer c) data 0 Ha ltac:(lia) ltac:(lia) ltac:(lia)) as (r & b & Hr & Hab).
    rewrite Z.sub_0_r in Hr. eauto. }
  destruct (Z.ltb_spec (zlen data) (64 - Z.of_nat j)) as [Hlt|Hge].
  { eexists. rewrite mem_read_ok by lia. change (drop (Z.to_nat 0) data) with data. rewrite zlen_nat, firstn_all, bind_ret_l.
    rewrite mem_write_ok by (unfold zlen in *; lia). rewrite Nat2Z.id. split; [done|]. apply Hok.
    apply (absorbed_fill _ _ _ _ _ data Ha). fold j. unfold zlen in *. lia. }
  set (d1 := take (64 - j) data).
  assert (length d1 = 64 - j)%nat as Hd1 by (unfold d1; rewrite length_take; unfold zlen in *; lia).
  destruct (absorbed_flush _ _ _ _ _ d1 Ha ltac:(fold j; lia)) as [Hfl Hz]. fold j in Hfl.
  rewrite mem_read_ok by lia. change (drop (Z.to_nat 0) data) with data.
  replace (Z.to_nat (64 - Z.of_nat j)) with (64 - j)%nat by lia. fold d1. rewrite bind_ret_l.
  rewrite mem_write_ok by (unfold zlen; lia). rewrite bind_ret_l, Nat2Z.id, (drop_ge (buffer c)), app_nil_r by lia.
  rewrite body_one by apply (absorbed_len _ _ _ _ _ Hfl). rewrite bind_ret_l.
  destruct (update_rest_ok _ lo' hi' _ _ data (64 - Z.of_nat j) Hfl Hz ltac:(lia) ltac:(lia)) as (r & b & Hr & Hab).
  replace (Z.to_nat (64 - Z.of_nat j)) with (64 - j)%nat in Hab by lia.
  rewrite <-app_assoc in Hab. unfold d1 in Hab. rewrite take_drop in Hab. eauto.
Qed.

(** ** Finalisation *)

(** A block that a byte list fills exactly is compressed at once. *)
Lemma absorb_tail msg st b data :
  absorbed body_block md5_iv msg st b -> (length msg mod 64 + length data = 64)%nat ->
  absorb_all body_block md5_iv (msg ++ data) = body_block st (take (length msg mod 64) b ++ data) /\
  absorbed body_block md5_iv (msg ++ data) (body_block st (take (length msg mod 64) b ++ data))
    (take (length msg mod 64) b ++ data) /\ (length (msg ++ data) mod 64 = 0)%nat.
Proof.
  intros Ha Hd. destruct (absorbed_flush _ _ _ _ _ data Ha Hd) as [Hf H0].
  split_and!; [symmetry; apply (absorbed_state _ _ _ _ _ Hf)|exact Hf|exact H0].
Qed.

(** The stores of [MD5_Final]: the bit one, then [n] zeros. *)
Lemma set_fill (pre post : bytes) v n :
  0 <= n < zlen post ->
  (b ← mem_set (pre ++ post) (zlen pre) v; mem_fill b (zlen pre + 1) 0 n) =
  Ret (pre ++ (v :: replicate (Z.to_nat n) 0) ++ drop (S (Z.to_nat n)) post).
Proof.
  intros Hn. destruct post as [|x post]; [unfold zlen in Hn; cbn in Hn; lia|]. rewrite zlen_cons in Hn.
  pose proof (zlen_nonneg pre). pose proof (zlen_nonneg post).
  rewrite mem_set_ok by (rewrite zlen_app, zlen_cons; lia). rewrite bind_ret_l, zlen_nat.
  rewrite insert_app_r_alt, Nat.sub_diag by lia. cbn [insert list_insert].
  rewrite (app_assoc pre [v] post : pre ++ v :: post = _).
  replace (zlen pre + 1) with (zlen (pre ++ [v])) by (rewrite zlen_app; done).
  rewrite mem_fill_app by lia. by rewrite <-app_assoc.
Qed.

(** The last block: the length goes to its end. *)
Lemma last_block msg st b data len (z : MD5_CTX) :
  absorbed body_block md5_iv msg st b -> (length msg mod 64 + length data = 56)%nat -> length len = 8%nat ->
  (b' ← mem_write (take (length msg mod 64) b ++ data ++ drop 56 b) 56 len; '(r, _) ← body 1 st b' 0 64; Ret (digest_of r, z)) =
  Ret (digest_of (absorb_all body_block md5_iv (msg ++ data ++ len)), z).
Proof.
  intros Ha Hd Hl. pose proof (absorbed_len _ _ _ _ _ Ha) as Hb.
  destruct (absorb_tail msg st b (data ++ len) Ha) as [-> _]; [rewrite length_app; lia|].
  set (pre := take (length msg mod 64) b ++ data).
  assert (length pre = 56%nat) as Hp by (unfold pre; rewrite length_app, length_take; lia).
  rewrite (app_assoc _ data). fold pre. rewrite <-(app_nil_r (pre ++ drop 56 b)), <-app_assoc.
  rewrite mem_write_app by (unfold zlen; rewrite ?length_drop; lia). rewrite app_nil_r, bind_ret_l.
  rewrite body_one by (rewrite length_app; lia). rewrite bind_ret_l. do 4 f_equal. unfold pre. by rewrite <-app_assoc.
Qed.

(** The counters are the length field. *)
Lemma length_field msg c :
  ctx_ok msg c -> bytes_le (u32 (lo c ≪ 3)) ++ bytes_le (hi c) = length_le (zlen msg).
Proof.
  intros [_ -> ->]. unfold length_le. pose proof (zlen_nonneg msg). rewrite Z.shiftl_mul_pow2 by lia.
  replace (u32 (zlen msg mod 2 ^ 29 * 2 ^ 3)) with (u32 (8 * zlen msg)) by (unfold u32, wrap; dlia).
  replace (zlen msg / 2 ^ 29) with (8 * zlen msg / 2 ^ 32) by dlia.
  unfold bytes_le. by rewrite !u8_u32_shiftr, !u8_u32 by lia.
Qed.

Lemma final_absorb msg c :
  ctx_ok msg c ->
  MD5_Final c = Ret (digest_of (absorb_all body_block md5_iv (pad (length_le (zlen msg)) msg)), blank).
Proof.
  intros Hc. pose proof (md5_ctx_used msg c Hc) as Hu. pose proof (length_field msg c Hc) as Hlen.
  destruct Hc as [Ha _ _]. pose proof (absorbed_len _ _ _ _ _ Ha) as Hb.
  assert (zlen msg mod 64 = Z.of_nat (length msg mod 64)) as Hj by (unfold zlen; by rewrite Nat2Z.inj_mod).
  unfold MD5_Final. rewrite Hlen, Hu, Hj. set (j := (length msg mod 64)%nat) in *.
  assert (j < 64)%nat as Hj64 by (apply Nat.mod_upper_bound; lia).
  set (pre := take j (buffer c)). set (post := drop j (buffer c)).
  assert (buffer c = pre ++ post) as Hbuf by (symmetry; apply take_drop).
  assert (zlen pre = Z.of_nat j) as Hpre by (unfold pre, zlen; rewrite length_take; lia).
  assert (zlen post = 64 - Z.of_nat j) as Hpost by (unfold post, zlen; rewrite length_drop; lia).
  pose proof (set_fill pre post 0x80) as Hsf. rewrite <-Hbuf, Hpre in Hsf.
  assert (exists b, mem_set (buffer c) (Z.of_nat j) 0x80 = Ret b) as [b Hset].
  { rewrite mem_set_ok by (unfold zlen; lia). eauto. }
  rewrite Hset in Hsf |- *. rewrite bind_ret_l. setoid_rewrite bind_ret_l in Hsf.
  unfold pad. set (len := length_le (zlen msg)). assert (length len = 8%nat) as Hl8 by reflexivity.
  replace (Z.to_nat ((55 - zlen msg) mod 64)) with
    (if decide (j < 56)%nat then (55 - j)%nat else (63 - j + 56)%nat) by (case_decide; dlia).
  destruct (Z.ltb_spec (64 - (Z.of_nat j + 1)) 8) as [Hlt|Hge]; case_decide; try lia.
  - rewrite Hsf by lia. rewrite bind_ret_l. rewrite (drop_ge post) by (unfold zlen in Hpost; lia). rewrite app_nil_r.
    set (data := 0x80 :: _). assert (length data = 64 - j)%nat as Hdl.
    { unfold data. cbn [length]. rewrite length_replicate. lia. }
    destruct (absorb_tail msg (abcd c) (buffer c) data Ha ltac:(fold j; lia)) as (_ & Hfl & Hz).
    fold j pre in Hfl. rewrite body_one by apply (absorbed_len _ _ _ _ _ Hfl). rewrite !bind_ret_l. cbn beta iota.
    pose proof (absorbed_len _ _ _ _ _ Hfl) as Hfb.
    pose proof (mem_fill_app [] (pre ++ data) 0 56 ltac:(unfold zlen; lia)) as Hfill.
    change (64 - 8) with 56. change (zlen []) with 0 in Hfill. cbn [app] in Hfill. rewrite Hfill, bind_ret_l.
    pose proof (last_block _ _ _ (replicate 56 0) len blank Hfl ltac:(rewrite Hz, length_replicate; lia) Hl8) as Hlast.
    rewrite Hz, take_0 in Hlast. change (Z.to_nat 56) with 56%nat.
    etrans; [exact Hlast|]. do 4 f_equal. rewrite replicate_add, <-!app_assoc. unfold data. replace (Z.to_nat (64 - (Z.of_nat j + 1))) with (63 - j)%nat by lia.
    done.
  - rewrite bind_ret_l. cbn beta iota. rewrite Hsf by lia. rewrite bind_ret_l.
    set (data := 0x80 :: _). assert (length data = 56 - j)%nat as Hdl.
    { unfold data. cbn [length]. rewrite length_replicate. lia. }
    pose proof (last_block _ _ _ data len blank Ha ltac:(fold j; lia) Hl8) as Hlast. fold j pre in Hlast.
    assert (drop (S (Z.to_nat (64 - (Z.of_nat j + 1) - 8))) post = drop 56 (buffer c)) as ->.
    { unfold post. rewrite drop_drop. f_equal. lia. }
    etrans; [exact Hlast|]. do 4 f_equal. unfold data. by replace (Z.to_nat (64 - (Z.of_nat j + 1) - 8)) with (55 - j)%nat by lia.
Qed.

(** ** Claims *)

(** The calls of a client: one [MD5_Update] per chunk, then [MD5_Final]. *)
Fixpoint updates (c : MD5_CTX) (chunks : list bytes) : outcome MD5_CTX :=
  match chunks with
  | [] => Ret c
  | d :: chunks => c ← MD5_Update c d (zlen d); updates c chunks
  end.

Lemma md5_updates_ok msg c chunks :
  ctx_ok msg c -> Forall (fun d => zlen d < 2 ^ 64 - 2 ^ 29) chunks ->
  exists c', updates c chunks = Ret c' /\ ctx_ok (msg ++ concat chunks) c'.
Proof.
  intros Hc Hs. revert msg c Hc. induction Hs as [|d chunks Hd Hs IH]; intros msg c Hc; cbn [updates concat].
  { exists c. by rewrite app_nil_r. }
  destruct (md5_update_ok msg c d Hc Hd) as (c1 & -> & Hc1). rewrite bind_ret_l.
  destruct (IH _ _ Hc1) as (c' & Hu & Hc'). exists c'. by rewrite <-app_assoc in Hc'.
Qed.

(** C17: a message given to [MD5_Update] in any pieces has the digest of RFC 1321, whatever the context
    held before [MD5_Init], and [MD5_Final] leaves a cleared context: the constants are
    the sines of the RFC, and the buffering, the 29-bit counter and the padding compute the
    standard function, for messages of any length. *)
Theorem md5_streaming_correct c chunks :
  length (buffer c) = 64%nat -> Forall (fun d => zlen d < 2 ^ 64 - 2 ^ 29) chunks ->
  (c ← updates (MD5_Init c) chunks; MD5_Final c) = Ret (md5 (concat chunks), blank).
Proof.
  intros Hl Hs. assert (ctx_ok [] (MD5_Init c)) as Hi by (split; [by apply absorbed_nil|done..]).
  destruct (md5_updates_ok [] (MD5_Init c) chunks Hi Hs) as (c' & -> & Hc').
  rewrite bind_ret_l, (final_absorb _ _ Hc'). unfold md5. do 3 f_equal. cbn [app].
  unfold absorb_all. generalize (length (pad (length_le (zlen (concat chunks))) (concat chunks)) / 64)%nat as n.
  generalize (pad (length_le (zlen (concat chunks))) (concat chunks)) as m. generalize md5_iv as st. intros st m n.
  revert st m. induction n as [|n IH]; intros st m; [done|]. cbn [absorb]. by rewrite body_block_spec.
Qed.

Lemma md5_streaming_correct_witness :
  (c ← updates (MD5_Init blank) [[97]; []; replicate 200 98; [99; 100]]; MD5_Final c)
  = Ret (md5 ([97] ++ [] ++ replicate 200 98 ++ [99; 100] ++ []), blank).
Proof.
  apply (md5_streaming_correct blank [[97]; []; replicate 200 98; [99; 100]]).
  - reflexivity.
  - repeat constructor; by vm_compute.
Defined.
