(* ===== verification/Json.v ===== *)
(** JSON trees and the parser: src/json/cJSON.c.

    A node is modelled with the list of its children instead of the [next]/[prev] links, which
    the parser and the printer only follow in order.  The [double]s and the functions of the C
    library on them are an interface.  The allocator may refuse any size. *)

From S2P Require Import Prelude.

(** ** Characters *)

Definition quote : Z := 34.
Definition backslash : Z := 92.
Definition comma : Z := 44.
Definition colon : Z := 58.
Definition lbracket : Z := 91.
Definition rbracket : Z := 93.
Definition lbrace : Z := 123.
Definition rbrace : Z := 125.

Definition str_null : bytes := [110; 117; 108; 108].
Definition str_false : bytes := [102; 97; 108; 115; 101].
Definition str_true : bytes := [116; 114; 117; 101].

Definition is_digit (c : Z) : bool := (48 <=? c) && (c <=? 57).

(** ** Numbers

    [strtod] gives the value and the number of characters used; [sprintf_g15] and [sprintf_g17]
    are the formats [%1.15g] and [%1.17g]. *)

Class CDouble := {
  double : Type;
  dzero : double;
  of_int : Z -> double;
  to_int : double -> Z;
  dle : double -> double -> bool;
  deq : double -> double -> bool;
  is_finite : double -> bool;
  strtod : bytes -> double * nat;
  sscanf_lg : bytes -> option double;
  sprintf_g15 : double -> bytes;
  sprintf_g17 : double -> bytes
}.

Definition INT_MAX : Z := 2147483647.
Definition INT_MIN : Z := -2147483648.

(** ** Trees *)

Definition cJSON_Invalid : Z := 0.
Definition cJSON_False : Z := 1.
Definition cJSON_True : Z := 2.
Definition cJSON_NULL : Z := 4.
Definition cJSON_Number : Z := 8.
Definition cJSON_String : Z := 16.
Definition cJSON_Array : Z := 32.
Definition cJSON_Object : Z := 64.
Definition cJSON_Raw : Z := 128.
Definition cJSON_IsReference : Z := 256.
Definition cJSON_StringIsConst : Z := 512.
Definition CJSON_NESTING_LIMIT : Z := 1000.

Section Json.
Context `{CDouble}.

(** [valuestring] and [string] are the bytes of their buffers up to the final NUL. *)
#[local] Set Warnings "-register-all".
Inductive cJSON := Item {
  type : Z;
  valuestring : option bytes;
  valueint : Z;
  valuedouble : double;
  string : option bytes;
  child : list cJSON
}.

(** [cJSON_New_Item]: a cleared node. *)
Definition new_item : cJSON := Item 0 None 0 dzero None [].

Definition set_type (t : Z) (i : cJSON) : cJSON :=
  Item t (valuestring i) (valueint i) (valuedouble i) (string i) (child i).
Definition set_valueint (v : Z) (i : cJSON) : cJSON :=
  Item (type i) (valuestring i) v (valuedouble i) (string i) (child i).
Definition set_valuestring (s : option bytes) (i : cJSON) : cJSON :=
  Item (type i) s (valueint i) (valuedouble i) (string i) (child i).
Definition set_string (s : option bytes) (i : cJSON) : cJSON :=
  Item (type i) (valuestring i) (valueint i) (valuedouble i) s (child i).
Definition set_child (c : list cJSON) (i : cJSON) : cJSON :=
  Item (type i) (valuestring i) (valueint i) (valuedouble i) (string i) c.

(** [cJSON_SetNumberHelper], also the end of [parse_number] and [cJSON_CreateNumber]. *)
Definition int_of_double (number : double) : Z :=
  if dle (of_int INT_MAX) number then INT_MAX
  else if dle number (of_int INT_MIN) then INT_MIN
  else to_int number.
Definition cJSON_SetNumberHelper (object : cJSON) (number : double) : cJSON :=
  Item (type object) (valuestring object) (int_of_double number) number (string object) (child object).

(** ** The parse buffer *)

Context (can_alloc : Z -> bool) (content : bytes).

Definition length_ : Z := zlen content.

(** The bytes from an offset on. *)
Definition rest_at (offset : Z) : bytes := drop (Z.to_nat offset) content.

(** [can_access_at_index(buffer, 0) && buffer_at_offset(buffer)[0] == c] *)
Definition next_is (offset c : Z) : bool :=
  match rest_at offset with x :: _ => x =? c | [] => false end.

Fixpoint whitespace (rest : bytes) : Z :=
  match rest with
  | c :: rest => if c <=? 32 then 1 + whitespace rest else 0
  | [] => 0
  end.

Definition buffer_skip_whitespace (offset : Z) : Z :=
  let offset := offset + whitespace (rest_at offset) in
  if offset =? length_ then offset - 1 else offset.

Definition skip_utf8_bom (offset : Z) : Z :=
  if (offset + 4 <? length_) && bool_decide (take 3 (rest_at offset) = [0xEF; 0xBB; 0xBF])
  then offset + 3 else offset.

(** ** Numbers *)

(** The characters that are copied to [number_c_string], at most 63. *)
Definition number_char (c : Z) : bool :=
  is_digit c || (c =? 43) || (c =? 45) || (c =? 101) || (c =? 69) || (c =? 46).
Fixpoint number_prefix (n : nat) (rest : bytes) : bytes :=
  match n, rest with
  | S n, c :: rest => if number_char c then c :: number_prefix n rest else []
  | _, _ => []
  end.

(** The parse functions return the item, or nothing on failure, and the offset they leave. *)
Definition parse_number (item : cJSON) (offset : Z) : option cJSON * Z :=
  let number_c_string := number_prefix 63 (rest_at offset) in
  let '(number, used) := strtod number_c_string in
  if (used =? 0)%nat then (None, offset)
  else (Some (set_type cJSON_Number (cJSON_SetNumberHelper item number)), offset + Z.of_nat used).

(** ** Strings *)

Definition hex_digit (c : Z) : option Z :=
  if (48 <=? c) && (c <=? 57) then Some (c - 48)
  else if (65 <=? c) && (c <=? 70) then Some (10 + c - 65)
  else if (97 <=? c) && (c <=? 102) then Some (10 + c - 97)
  else None.

(** The loop over [n] digits; 0 for an invalid one. *)
Fixpoint hex_loop (n : nat) (input : bytes) (i : Z) (h : Z) : outcome Z :=
  match n with
  | O => Ret h
  | S n =>
      c ← mem_get input i;
      match hex_digit c with
      | Some d => let h := h + d in hex_loop n input (i + 1) (if (n =? 0)%nat then h else h ≪ 4)
      | None => Ret 0
      end
  end.
Definition parse_hex4 (input : bytes) (i : Z) : outcome Z := hex_loop 4 input i 0.

(** The encoding loop: [n] continuation bytes, stored from the last one down. *)
Fixpoint utf8_tail (n : nat) (codepoint : Z) (acc : bytes) : Z * bytes :=
  match n with
  | O => (codepoint, acc)
  | S n => utf8_tail n (codepoint ≫ 6) (u8 (Z.land (Z.lor codepoint 0x80) 0xBF) :: acc)
  end.

Definition utf8_encode (codepoint : Z) : option bytes :=
  if codepoint <? 0x80 then Some [Z.land codepoint 0x7F]
  else
    let enc n mark :=
      let '(cp, tail) := utf8_tail n codepoint [] in Some (u8 (Z.land (Z.lor cp mark) 0xFF) :: tail) in
    if codepoint <? 0x800 then enc 1%nat 0xC0
    else if codepoint <? 0x10000 then enc 2%nat 0xE0
    else if codepoint <=? 0x10FFFF then enc 3%nat 0xF0
    else None.

(** [utf16_literal_to_utf8] at the start of [input], of which [avail] bytes are before
    [input_end]: the length of the sequence and its encoding, or nothing. *)
Definition utf16_literal_to_utf8 (input : bytes) (avail : Z) : outcome (option (Z * bytes)) :=
  if avail <? 6 then Ret None else
  first_code ← parse_hex4 input 2;
  if (0xDC00 <=? first_code) && (first_code <=? 0xDFFF) then Ret None
  else if (0xD800 <=? first_code) && (first_code <=? 0xDBFF) then
    if avail - 6 <? 6 then Ret None else
    s0 ← mem_get input 6;
    s1 ← mem_get input 7;
    if negb (s0 =? backslash) || negb (s1 =? 117) then Ret None else
    second_code ← parse_hex4 input 8;
    if (second_code <? 0xDC00) || (0xDFFF <? second_code) then Ret None else
    let codepoint := 0x10000 + Z.lor (Z.land first_code 0x3FF ≪ 10) (Z.land second_code 0x3FF) in
    Ret (option_map (fun b => (12, b)) (utf8_encode codepoint))
  else Ret (option_map (fun b => (6, b)) (utf8_encode first_code)).

(** The search for the closing quote: the bytes before it and the escapes among them. *)
Fixpoint scan_string (rest : bytes) (n skipped : Z) : option (Z * Z) :=
  match rest with
  | [] => None
  | c :: rest =>
      if c =? quote then Some (n, skipped)
      else if c =? backslash then
        match rest with
        | [] => None
        | _ :: rest => scan_string rest (n + 2) (skipped + 1)
        end
      else scan_string rest (n + 1) skipped
  end.

(** [*output_pointer++ = b], in a buffer of [cap] bytes. *)
Definition put (cap : Z) (out b : bytes) : outcome bytes :=
  if zlen out + zlen b <=? cap then Ret (out ++ b) else Undef.

Definition simple_escape (c : Z) : option Z :=
  if c =? 98 then Some 8
  else if c =? 102 then Some 12
  else if c =? 110 then Some 10
  else if c =? 114 then Some 13
  else if c =? 116 then Some 9
  else if (c =? quote) || (c =? backslash) || (c =? 47) then Some c
  else None.

(** The loop [while (input_pointer < input_end)]: [input] starts at [input_pointer] and [avail] is
    [input_end - input_pointer].  On failure the result is how much was left. *)
Fixpoint decode_string (fuel : nat) (input : bytes) (avail : Z) (out : bytes) (cap : Z) : outcome (Z + bytes) :=
  if avail <=? 0 then Ret (inr out) else
  match fuel with
  | O => Undef
  | S fuel =>
      c ← mem_get input 0;
      if negb (c =? backslash) then
        out ← put cap out [c]; decode_string fuel (drop 1 input) (avail - 1) out cap
      else
        e ← mem_get input 1;
        match simple_escape e with
        | Some x => out ← put cap out [x]; decode_string fuel (drop 2 input) (avail - 2) out cap
        | None =>
            if e =? 117 then
              u ← utf16_literal_to_utf8 input avail;
              match u with
              | None => Ret (inl avail)
              | Some (n, b) =>
                  out ← put cap out b; decode_string fuel (drop (Z.to_nat n) input) (avail - n) out cap
              end
            else Ret (inl avail)
        end
  end.

Definition parse_string (item : cJSON) (offset : Z) : outcome (option cJSON * Z) :=
  c ← mem_get content offset;
  if negb (c =? quote) then Ret (None, offset + 1) else
  match scan_string (rest_at (offset + 1)) 0 0 with
  | None => Ret (None, offset + 1)
  | Some (n, skipped) =>
      let allocation_length := n + 1 - skipped in
      if negb (can_alloc (allocation_length + 1)) then Ret (None, offset + 1) else
      d ← decode_string (Z.to_nat n) (rest_at (offset + 1)) n [] (allocation_length + 1);
      match d with
      | inl remaining => Ret (None, offset + 1 + (n - remaining))
      | inr out =>
          _ ← put (allocation_length + 1) out [0];
          Ret (Some (set_valuestring (Some out) (set_type cJSON_String item)), offset + 1 + n + 1)
      end
  end.

(** ** Values *)

Definition starts_with (s : bytes) (offset : Z) : bool :=
  (offset + zlen s <=? length_) && bool_decide (take (length s) (rest_at offset) = s).

(** [parse_value] and, at their calls, [parse_array] and [parse_object]; the loops over the elements
    collect the items in order.  [fuel] bounds the calls and iterations. *)
Fixpoint parse_value (fuel : nat) (item : cJSON) (offset depth : Z) : outcome (option cJSON * Z) :=
  match fuel with
  | O => Undef
  | S fuel =>
      if starts_with str_null offset then Ret (Some (set_type cJSON_NULL item), offset + 4)
      else if starts_with str_false offset then Ret (Some (set_type cJSON_False item), offset + 5)
      else if starts_with str_true offset then
        Ret (Some (set_valueint 1 (set_type cJSON_True item)), offset + 4)
      else if next_is offset quote then parse_string item offset
      else if next_is offset 45 || (match rest_at offset with c :: _ => is_digit c | [] => false end)
      then Ret (parse_number item offset)
      else if next_is offset lbracket then
        (* parse_array *)
        if CJSON_NESTING_LIMIT <=? depth then Ret (None, offset) else
        let offset := buffer_skip_whitespace (offset + 1) in
        if next_is offset rbracket then
          Ret (Some (set_child [] (set_type cJSON_Array item)), offset + 1)
        else if length_ <=? offset then Ret (None, offset - 1)
        else
          '(elements, offset) ← array_loop fuel (offset - 1) (depth + 1);
          match elements with
          | Some l =>
              if next_is offset rbracket
              then Ret (Some (set_child l (set_type cJSON_Array item)), offset + 1)
              else Ret (None, offset)
          | None => Ret (None, offset)
          end
      else if next_is offset lbrace then
        (* parse_object *)
        if CJSON_NESTING_LIMIT <=? depth then Ret (None, offset) else
        let offset := buffer_skip_whitespace (offset + 1) in
        if next_is offset rbrace then
          Ret (Some (set_child [] (set_type cJSON_Object item)), offset + 1)
        else if length_ <=? offset then Ret (None, offset - 1)
        else
          '(elements, offset) ← object_loop fuel (offset - 1) (depth + 1);
          match elements with
          | Some l =>
              if next_is offset rbrace
              then Ret (Some (set_child l (set_type cJSON_Object item)), offset + 1)
              else Ret (None, offset)
          | None => Ret (None, offset)
          end
      else Ret (None, offset)
  end
with array_loop (fuel : nat) (offset depth : Z) : outcome (option (list cJSON) * Z) :=
  match fuel with
  | O => Undef
  | S fuel =>
      if negb (can_alloc 64) then Ret (None, offset) else
      let offset := buffer_skip_whitespace (offset + 1) in
      '(v, offset) ← parse_value fuel new_item offset depth;
      match v with
      | None => Ret (None, offset)
      | Some v =>
          let offset := buffer_skip_whitespace offset in
          if next_is offset comma then
            '(l, offset) ← array_loop fuel offset depth;
            Ret (option_map (cons v) l, offset)
          else Ret (Some [v], offset)
      end
  end
with object_loop (fuel : nat) (offset depth : Z) : outcome (option (list cJSON) * Z) :=
  match fuel with
  | O => Undef
  | S fuel =>
      if negb (can_alloc 64) then Ret (None, offset) else
      let offset := buffer_skip_whitespace (offset + 1) in
      '(k, offset) ← parse_string new_item offset;
      match k with
      | None => Ret (None, offset)
      | Some k =>
          let offset := buffer_skip_whitespace offset in
          let item := set_valuestring None (set_string (valuestring k) k) in
          if negb (next_is offset colon) then Ret (None, offset) else
          let offset := buffer_skip_whitespace (offset + 1) in
          '(v, offset) ← parse_value fuel item offset depth;
          match v with
          | None => Ret (None, offset)
          | Some v =>
              let offset := buffer_skip_whitespace offset in
              if next_is offset comma then
                '(l, offset) ← object_loop fuel offset depth;
                Ret (option_map (cons v) l, offset)
              else Ret (Some [v], offset)
          end
      end
  end.
(** The equations of the three functions. *)
Lemma parse_value_S fuel item offset depth :
  parse_value (S fuel) item offset depth =
      if starts_with str_null offset then Ret (Some (set_type cJSON_NULL item), offset + 4)
      else if starts_with str_false offset then Ret (Some (set_type cJSON_False item), offset + 5)
      else if starts_with str_true offset then
        Ret (Some (set_valueint 1 (set_type cJSON_True item)), offset + 4)
      else if next_is offset quote then parse_string item offset
      else if next_is offset 45 || (match rest_at offset with c :: _ => is_digit c | [] => false end)
      then Ret (parse_number item offset)
      else if next_is offset lbracket then
        (* parse_array *)
        if CJSON_NESTING_LIMIT <=? depth then Ret (None, offset) else
        let offset := buffer_skip_whitespace (offset + 1) in
        if next_is offset rbracket then
          Ret (Some (set_child [] (set_type cJSON_Array item)), offset + 1)
        else if length_ <=? offset then Ret (None, offset - 1)
        else
          '(elements, offset) ← array_loop fuel (offset - 1) (depth + 1);
          match elements with
          | Some l =>
              if next_is offset rbracket
              then Ret (Some (set_child l (set_type cJSON_Array item)), offset + 1)
              else Ret (None, offset)
          | None => Ret (None, offset)
          end
      else if next_is offset lbrace then
        (* parse_object *)
        if CJSON_NESTING_LIMIT <=? depth then Ret (None, offset) else
        let offset := buffer_skip_whitespace (offset + 1) in
        if next_is offset rbrace then
          Ret (Some (set_child [] (set_type cJSON_Object item)), offset + 1)
        else if length_ <=? offset then Ret (None, offset - 1)
        else
          '(elements, offset) ← object_loop fuel (offset - 1) (depth + 1);
          match elements with
          | Some l =>
              if next_is offset rbrace
              then Ret (Some (set_child l (set_type cJSON_Object item)), offset + 1)
              else Ret (None, offset)
          | None => Ret (None, offset)
          end
      else Ret (None, offset).
Proof. reflexivity. Qed.

Lemma array_loop_S fuel offset depth :
  array_loop (S fuel) offset depth =
      if negb (can_alloc 64) then Ret (None, offset) else
      let offset := buffer_skip_whitespace (offset + 1) in
      '(v, offset) ← parse_value fuel new_item offset depth;
      match v with
      | None => Ret (None, offset)
      | Some v =>
          let offset := buffer_skip_whitespace offset in
          if next_is offset comma then
            '(l, offset) ← array_loop fuel offset depth;
            Ret (option_map (cons v) l, offset)
          else Ret (Some [v], offset)
      end.
Proof. reflexivity. Qed.

Lemma object_loop_S fuel offset depth :
  object_loop (S fuel) offset depth =
      if negb (can_alloc 64) then Ret (None, offset) else
      let offset := buffer_skip_whitespace (offset + 1) in
      '(k, offset) ← parse_string new_item offset;
      match k with
      | None => Ret (None, offset)
      | Some k =>
          let offset := buffer_skip_whitespace offset in
          let item := set_valuestring None (set_string (valuestring k) k) in
          if negb (next_is offset colon) then Ret (None, offset) else
          let offset := buffer_skip_whitespace (offset + 1) in
          '(v, offset) ← parse_value fuel item offset depth;
          match v with
          | None => Ret (None, offset)
          | Some v =>
              let offset := buffer_skip_whitespace offset in
              if next_is offset comma then
                '(l, offset) ← object_loop fuel offset depth;
                Ret (option_map (cons v) l, offset)
              else Ret (Some [v], offset)
          end
      end.
Proof. reflexivity. Qed.
End Json.

(** [cJSON_ParseWithOpts] of the string [value], which ends at its first NUL: the item, and the
    position that is stored in [*return_parse_end] and, on failure, in [global_error]. *)
Definition cJSON_ParseWithOpts `{CDouble} (can_alloc : Z -> bool) (value : bytes) (require_null_terminated : bool)
    : outcome (option cJSON * Z) :=
  let content := value ++ [0] in
  let fail offset :=
    Ret (None, if offset <? length_ content then offset
               else if 0 <? length_ content then length_ content - 1 else 0) in
  if negb (can_alloc 64) then fail 0 else
  let offset := buffer_skip_whitespace content (skip_utf8_bom content 0) in
  '(v, offset) ← parse_value can_alloc content (S (2 * length content)) new_item offset 0;
  match v with
  | None => fail offset
  | Some v =>
      if require_null_terminated then
        let offset := buffer_skip_whitespace content offset in
        if (length_ content <=? offset) || negb (next_is content offset 0) then fail offset
        else Ret (Some v, offset)
      else Ret (Some v, offset)
  end.

Definition cJSON_Parse `{CDouble} (can_alloc : Z -> bool) (value : bytes) : outcome (option cJSON) :=
  '(v, _) ← cJSON_ParseWithOpts can_alloc value false; Ret v.
