(* ===== verification/JsonSafe.v ===== *)
(** Memory safety and termination of the parser of src/json/cJSON.c. *)

From S2P Require Import Prelude Json.

(** What the parser relies on of [strtod]: [endptr] is within the string. *)
Class StrtodBounded `{CDouble} : Prop := strtod_used s : ((strtod s).2 <= length s)%nat.

(** ** Strings *)

(** The escapes of a string, read from left to right; [skip] says that the first byte is the
    second of an escape. *)
Fixpoint pairs (skip : bool) (l : bytes) : Z :=
  match l with
  | [] => 0
  | c :: l => if skip then pairs false l else if c =? backslash then 1 + pairs true l else pairs false l
  end.

Lemma pairs_nonneg f l : 0 <= pairs f l.
Proof. revert f. induction l as [|c l IH]; intros f; [done|]. cbn [pairs]. repeat case_match; auto. pose proof (IH true). lia. Qed.

(** At most one escape starts in any two bytes. *)
Lemma pairs_window k f l : exists f', pairs f l <= Z.of_nat k + pairs f' (drop (2 * k) l).
Proof.
  revert f l. induction k as [|k IH]; intros f l; [exists f; rewrite drop_0; lia|].
  destruct l as [|x [|y l]].
  - exists false. rewrite drop_ge by (cbn [length]; lia). cbn [pairs]. lia.
  - exists false. rewrite drop_ge by (cbn [length]; lia). cbn [pairs]. destruct f, (x =? backslash); lia.
  - replace (2 * S k)%nat with (S (S (2 * k))) by lia. cbn [drop].
    assert (exists f', pairs f (x :: y :: l) <= 1 + pairs f' l) as [f1 H1].
    { cbn [pairs]. pose proof (pairs_nonneg true l). pose proof (pairs_nonneg false l).
      destruct f, (x =? backslash), (y =? backslash); (exists true; lia) || (exists false; lia). }
    destruct (IH f1 l) as [f2 H2]. exists f2. lia.
Qed.

Lemma pairs_half f l : 2 * pairs f l <= zlen l + 1.
Proof.
  revert f. induction l as [|x|x y l IH] using list_ind2; intros f.
  - done.
  - cbn [pairs]. rewrite zlen_cons. repeat case_match; unfold zlen; cbn; lia.
  - rewrite !zlen_cons. pose proof (IH true). pose proof (IH false).
    cbn [pairs]. destruct f, (x =? backslash), (y =? backslash); lia.
Qed.

Lemma scan_string_spec rest n k n' k' :
  scan_string rest n k = Some (n', k') ->
  exists pre post, rest = pre ++ quote :: post /\ n' = n + zlen pre /\ k' = k + pairs false pre.
Proof.
  remember (length rest) as m eqn:Hm. assert (length rest <= m)%nat as Hle by lia. clear Hm. revert rest n k Hle.
  induction m as [|m IH]; intros rest n k Hle; (destruct rest as [|c rest]; [done|]); cbn [length] in Hle; [lia|].
  cbn [scan_string]. destruct (Z.eqb_spec c quote) as [->|Hq].
  { intros [= <- <-]. exists [], rest. split_and!; [done|change (zlen []) with 0; lia|cbn; lia]. }
  destruct (Z.eqb_spec c backslash) as [->|Hb].
  - destruct rest as [|d rest]; [done|]. cbn [length] in Hle. intros (pre & post & -> & -> & ->)%IH; [|lia].
    exists (backslash :: d :: pre), post. split_and!; [done|rewrite !zlen_cons; lia|cbn; lia].
  - intros (pre & post & -> & -> & ->)%IH; [|lia]. exists (c :: pre), post.
    split_and!; [done|rewrite zlen_cons; lia|]. cbn [pairs]. by rewrite (proj2 (Z.eqb_neq _ _) Hb).
Qed.

Lemma hex_digit_range c d : hex_digit c = Some d -> 0 <= d < 16.
Proof. unfold hex_digit. repeat case_match; intros; simplify_eq; bools; lia. Qed.

Lemma hex_loop_total n input i p :
  0 <= i -> i + Z.of_nat (S n) <= zlen input -> (n <= 3)%nat -> 0 <= p < 16 ^ (3 - Z.of_nat n) ->
  exists v, hex_loop (S n) input i (16 * p) = Ret v /\ 0 <= v < 0x10000.
Proof.
  revert i p. induction n as [|n IH]; intros i p Hi Hl Hn Hp.
  all: destruct (lookup_lt_is_Some_2 input (Z.to_nat i)) as [c Hc]; [unfold zlen in Hl; lia|].
  all: cbn [hex_loop]; rewrite (mem_get_ok input i c Hi Hc), bind_ret_l.
  all: destruct (hex_digit c) as [d|] eqn:Hd; [apply hex_digit_range in Hd|exists 0; split; [done|lia]].
  - cbn [Nat.eqb]. eexists. split; [done|]. change (3 - Z.of_nat 0) with 3 in Hp. lia.
  - cbn [Nat.eqb]. rewrite Z.shiftl_mul_pow2 by lia. replace ((16 * p + d) * 2 ^ 4) with (16 * (16 * p + d)) by lia.
    apply IH; [lia|lia|lia|]. replace (3 - Z.of_nat n) with (Z.succ (3 - Z.of_nat (S n))) by lia.
    rewrite Z.pow_succ_r by lia. lia.
Qed.

Lemma parse_hex4_total input i :
  0 <= i -> i + 4 <= zlen input -> exists v, parse_hex4 input i = Ret v /\ 0 <= v < 0x10000.
Proof. intros. apply (hex_loop_total 3 input i 0); lia || done. Qed.

Lemma utf8_encode_len cp b :
  utf8_encode cp = Some b -> 1 <= zlen b <= 4 /\ (cp < 0x10000 -> zlen b <= 3).
Proof.
  unfold utf8_encode. repeat case_match; intros; simplify_eq; bools; unfold zlen; cbn; try lia.
  all: match goal with H : utf8_tail _ _ _ = _ |- _ => cbn in H; simplify_eq; cbn; lia end.
Qed.

Lemma utf16_total input avail :
  avail <= zlen input ->
  exists u, utf16_literal_to_utf8 input avail = Ret u /\
    match u with
    | Some (n, b) => (n = 6 \/ n = 12) /\ n <= avail /\ 1 <= zlen b /\ 2 * zlen b <= n
    | None => True
    end.
Proof.
  intros Hl. unfold utf16_literal_to_utf8. destruct (Z.ltb_spec avail 6); [by eexists|].
  destruct (parse_hex4_total input 2) as (fc & -> & Hfc); [lia|lia|]. rewrite bind_ret_l.
  case_match; [by eexists|]. case_match.
  - destruct (Z.ltb_spec (avail - 6) 6); [by eexists|].
    destruct (lookup_lt_is_Some_2 input 6) as [s0 Hs0]; [unfold zlen in *; lia|].
    destruct (lookup_lt_is_Some_2 input 7) as [s1 Hs1]; [unfold zlen in *; lia|].
    rewrite (mem_get_ok input 6 s0), (mem_get_ok input 7 s1), !bind_ret_l by done.
    case_match; [by eexists|].
    destruct (parse_hex4_total input 8) as (sc & -> & Hsc); [lia|lia|]. rewrite bind_ret_l.
    case_match; [by eexists|]. eexists. split; [done|].
    destruct (utf8_encode _) as [b|] eqn:E; [|done]. apply utf8_encode_len in E. cbn. lia.
  - eexists. split; [done|]. destruct (utf8_encode fc) as [b|] eqn:E; [|done]. apply utf8_encode_len in E. cbn. lia.
Qed.

Lemma put_ok cap out b : zlen out + zlen b <= cap -> put cap out b = Ret (out ++ b).
Proof. intros. unfold put. by rewrite (proj2 (Z.leb_le _ _)) by done. Qed.

(** The loop of [parse_string] never reads beyond the closing quote nor writes beyond what was
    allocated: every byte of output has one of input, and every escape saves one. *)
Lemma decode_string_total fuel input avail out cap f :
  avail <= Z.of_nat fuel -> (0 <= avail -> avail < zlen input) ->
  (avail <= 0 -> zlen out + 1 <= cap) ->
  (0 <= avail -> zlen out + avail - pairs f (take (Z.to_nat avail) input) <= cap - 2) ->
  exists r, decode_string fuel input avail out cap = Ret r /\
    match r with inl k => 0 < k <= avail | inr out => zlen out + 1 <= cap end.
Proof.
  revert input avail out f. induction fuel as [|fuel IH]; intros input avail out f Hf Hl H0 Hc; cbn [decode_string].
  all: destruct (Z.leb_spec avail 0) as [Hz|Hpos]; [exists (inr out); split; [done|lia]|].
  { lia. }
  specialize (Hl ltac:(lia)). specialize (Hc ltac:(lia)).
  set (l := take (Z.to_nat avail) input) in *.
  assert (zlen l = avail) as Hzl by (unfold l; rewrite zlen_take; lia).
  assert (forall k b, (0 < k)%nat -> 1 <= zlen b -> zlen b <= Z.of_nat k -> (Z.of_nat (2 * k) <= avail \/ k = 1%nat) ->
    exists r, (out ← put cap out b; decode_string fuel (drop (2 * k) input) (avail - Z.of_nat (2 * k)) out cap) = Ret r /\
      match r with inl k => 0 < k <= avail | inr out => zlen out + 1 <= cap end) as Hstep.
  { intros k b Hk Hb1 Hb Ha. destruct (pairs_window k f l) as [f' Hp]. pose proof (pairs_half f l).
    pose proof (pairs_nonneg f' (drop (2 * k) l)).
    assert (drop (2 * k) l = take (Z.to_nat (avail - Z.of_nat (2 * k))) (drop (2 * k) input)) as Hdrop.
    { unfold l. rewrite skipn_firstn_comm. f_equal. lia. }
    rewrite put_ok, bind_ret_l by lia.
    destruct (IH (drop (2 * k) input) (avail - Z.of_nat (2 * k)) (out ++ b) f') as (r & Hr & Hpost).
    - lia.
    - rewrite zlen_drop. lia.
    - intros Hend. rewrite zlen_app. destruct Ha as [Ha| ->]; [rewrite drop_ge in Hp by (unfold zlen in Hzl; lia); cbn [pairs] in Hp; lia|].
      rewrite drop_ge in Hp by (unfold zlen in Hzl; lia). cbn [pairs] in Hp. lia.
    - intros Hge. rewrite zlen_app, <-Hdrop. lia.
    - exists r. split; [done|]. destruct r; lia. }
  destruct (lookup_lt_is_Some_2 input 0) as [c Hc0]; [unfold zlen in Hl; lia|].
  rewrite (mem_get_ok input 0 c), bind_ret_l by done.
  destruct (Z.eqb_spec c backslash) as [->|Hb]; cbn [negb].
  - destruct (lookup_lt_is_Some_2 input 1) as [e He]; [unfold zlen in Hl; lia|].
    rewrite (mem_get_ok input 1 e), bind_ret_l by done.
    destruct (simple_escape e) as [x|].
    + apply (Hstep 1%nat [x]); [lia|by vm_compute|by vm_compute|by right].
    + destruct (e =? 117); [|exists (inl avail); split; [done|lia]].
      destruct (utf16_total input avail ltac:(lia)) as (u & -> & Hu). rewrite bind_ret_l.
      destruct u as [[n b]|]; [|exists (inl avail); split; [done|lia]]. destruct Hu as (Hn & Hna & Hb1 & Hb2).
      destruct Hn as [-> | ->]; [apply (Hstep 3%nat b)|apply (Hstep 6%nat b)]; lia || (left; lia).
  - pose proof (pairs_half f l).
    rewrite put_ok, bind_ret_l by (change (zlen [c]) with 1; lia).
    assert (l = c :: take (Z.to_nat (avail - 1)) (drop 1 input)) as Hlc.
    { unfold l. destruct input as [|c' input]; [done|]. cbn in Hc0. simplify_eq. cbn [drop].
      by replace (Z.to_nat avail) with (S (Z.to_nat (avail - 1))) by lia. }
    assert (pairs f l = pairs false (take (Z.to_nat (avail - 1)) (drop 1 input))) as Hpl.
    { rewrite Hlc. cbn [pairs]. rewrite (proj2 (Z.eqb_neq _ _) Hb). by destruct f. }
    destruct (IH (drop 1 input) (avail - 1) (out ++ [c]) false) as (r & Hr & Hpost).
    + lia.
    + rewrite zlen_drop. lia.
    + intros Hend. rewrite zlen_app. change (zlen [c]) with 1.
      rewrite Hpl in Hc. replace (Z.to_nat (avail - 1)) with 0%nat in Hc by lia. rewrite take_0 in Hc. cbn [pairs] in Hc. lia.
    + intros Hge. rewrite zlen_app, <-Hpl. change (zlen [c]) with 1. lia.
    + exists r. split; [done|]. destruct r; lia.
Qed.

(** ** Values *)

Section Parser.
Context `{CDouble} `{!StrtodBounded} (can_alloc : Z -> bool) (value : bytes).

Abbreviation content := (value ++ [0]).
Abbreviation len := (length_ content).

Lemma len_pos : 1 <= len.
Proof. unfold length_. rewrite zlen_app. change (zlen [0]) with 1. pose proof (zlen_nonneg value). lia. Qed.

Lemma rest_len offset : 0 <= offset <= len -> zlen (rest_at content offset) = len - offset.
Proof. intros Ho. unfold rest_at. rewrite zlen_drop. unfold length_ in *. lia. Qed.

(** Bytes that are matched are before the final NUL. *)
Lemma rest_prefix offset pre post :
  0 <= offset -> rest_at content offset = pre ++ post -> pre <> [] -> last pre <> Some 0 -> offset + zlen pre <= len - 1.
Proof.
  intros Ho Hr Hne Hl. unfold rest_at, length_ in *. rewrite zlen_app. change (zlen [0]) with 1.
  assert (zlen (value ++ [0]) = zlen value + 1) as Hz by (rewrite zlen_app; done).
  assert (zlen (drop (Z.to_nat offset) (value ++ [0])) = zlen pre + zlen post) as Hd by (rewrite Hr, zlen_app; done).
  rewrite zlen_drop, Hz in Hd. pose proof (zlen_nonneg post).
  assert (0 < zlen pre) by (destruct pre; [done|rewrite zlen_cons; pose proof (zlen_nonneg pre); lia]).
  destruct (decide (offset + zlen pre = zlen value + 1)) as [He|]; [exfalso|lia].
  assert (post = []) as -> by (destruct post; [done|rewrite zlen_cons in Hd; pose proof (zlen_nonneg post); lia]).
  rewrite app_nil_r in Hr. apply Hl. rewrite <-Hr. rewrite drop_app_le by (unfold zlen in *; lia). apply last_snoc.
Qed.

Lemma whitespace_range rest : 0 <= whitespace rest <= zlen rest.
Proof. induction rest as [|c rest IH]; [done|]. cbn [whitespace]. rewrite zlen_cons. case_match; lia. Qed.

Lemma skip_range offset : 0 <= offset <= len - 1 -> offset <= buffer_skip_whitespace content offset <= len - 1.
Proof.
  intros Ho. unfold buffer_skip_whitespace. pose proof (whitespace_range (rest_at content offset)) as Hw.
  rewrite rest_len in Hw by lia. destruct (Z.eqb_spec (offset + whitespace (rest_at content offset)) len); lia.
Qed.

Lemma next_is_bound offset c :
  0 <= offset -> c <> 0 -> next_is content offset c = true -> offset + 1 <= len - 1.
Proof.
  intros Ho Hc. unfold next_is. destruct (rest_at content offset) as [|x r] eqn:Hr; [done|].
  intros Hx%Z.eqb_eq. subst x. apply (rest_prefix offset [c] r Ho Hr); [done|]. cbn. congruence.
Qed.

Lemma starts_with_bound s offset :
  0 <= offset -> s <> [] -> last s <> Some 0 -> starts_with content s offset = true -> offset + zlen s <= len - 1.
Proof.
  intros Ho Hne Hl. unfold starts_with. rewrite andb_true_iff. intros [_ Ht%bool_decide_eq_true].
  apply (rest_prefix offset s (drop (length s) (rest_at content offset)) Ho); [|done|done].
  rewrite <-Ht at 1. by rewrite take_drop.
Qed.

(** What a parse function may do at [offset]: it returns, and when it succeeds it has moved on
    and left the final NUL. *)
Definition progress {A} (offset : Z) (r : outcome (option A * Z)) : Prop :=
  exists v offset', r = Ret (v, offset') /\ 0 <= offset' /\ (is_Some v -> offset < offset' <= len - 1).

Lemma progress_fail {A} offset offset' : 0 <= offset' -> progress (A := A) offset (Ret (None, offset')).
Proof. intros. exists None, offset'. split_and!; [done|done|by intros []]. Qed.

Lemma progress_ok {A} offset offset' (v : A) :
  0 <= offset -> offset < offset' <= len - 1 -> progress offset (Ret (Some v, offset')).
Proof. intros. exists (Some v), offset'. split_and!; [done|lia|done]. Qed.

Lemma parse_string_total item offset :
  0 <= offset <= len - 1 -> progress offset (parse_string can_alloc content item offset).
Proof.
  intros Ho. unfold parse_string. pose proof (rest_len offset ltac:(lia)) as Hlen.
  destruct (rest_at content offset) as [|c rest] eqn:Hr; [change (zlen []) with 0 in Hlen; lia|].
  assert (content !! Z.to_nat offset = Some c) as Hc.
  { rewrite <-(Nat.add_0_r (Z.to_nat offset)), <-lookup_drop. unfold rest_at in Hr. by rewrite Hr. }
  rewrite (mem_get_ok content offset c), bind_ret_l by (done || lia).
  destruct (Z.eqb_spec c quote) as [->|]; cbn [negb]; [|apply progress_fail; lia].
  assert (rest_at content (offset + 1) = rest) as Hrest.
  { unfold rest_at in *. replace (Z.to_nat (offset + 1)) with (Z.to_nat offset + 1)%nat by lia.
    by rewrite <-drop_drop, Hr. }
  rewrite Hrest. destruct (scan_string rest 0 0) as [[n skipped]|] eqn:Hs; [|apply progress_fail; lia].
  apply scan_string_spec in Hs as (pre & post & -> & -> & ->). rewrite !Z.add_0_l.
  case_match; [apply progress_fail; lia|]. pose proof (zlen_nonneg pre).
  assert (offset + zlen (quote :: pre ++ [quote]) <= len - 1) as Hend.
  { apply (rest_prefix offset _ post); [lia|by rewrite Hr; cbn; rewrite <-app_assoc|done|].
    rewrite app_comm_cons, last_snoc. done. }
  rewrite zlen_cons, zlen_app in Hend. change (zlen [quote]) with 1 in Hend.
  destruct (decode_string_total (Z.to_nat (zlen pre)) (pre ++ quote :: post) (zlen pre) []
    (zlen pre + 1 - pairs false pre + 1) false) as (r & -> & Hpost).
  - lia.
  - intros _. rewrite zlen_app, zlen_cons. pose proof (zlen_nonneg post). lia.
  - intros Hz. change (zlen []) with 0. pose proof (pairs_half false pre). lia.
  - intros _. rewrite zlen_nat, take_app_length. change (zlen []) with 0. lia.
  - rewrite bind_ret_l. destruct r as [k|out]; [apply progress_fail; lia|].
    rewrite put_ok, bind_ret_l by (change (zlen [0]) with 1; lia). apply progress_ok; lia.
Qed.

Lemma parse_number_total item offset :
  0 <= offset -> progress offset (Ret (parse_number content item offset)).
Proof.
  intros Ho. unfold parse_number. set (s := number_prefix 63 _). pose proof (strtod_used s) as Hu.
  destruct (strtod s) as [d used]. cbn [snd] in Hu. destruct (Nat.eqb_spec used 0) as [|Hused]; [apply progress_fail; lia|].
  assert (exists post, rest_at content offset = s ++ post /\ Forall (fun c => number_char c = true) s) as (post & Hr & Hs).
  { unfold s. generalize 63%nat as n. generalize (rest_at content offset) as l.
    induction l as [|c l IH]; intros [|n]; try (by eexists; split; [|constructor]).
    cbn [number_prefix]. destruct (number_char c) eqn:Hc; [|by eexists; split; [|constructor]].
    destruct (IH n) as (post & Hl & Hf). exists post. split; [cbn; by f_equal|by constructor]. }
  assert (offset + zlen s <= len - 1) as Hb.
  { apply (rest_prefix offset s post Ho Hr).
    - intros ->. cbn in Hu. lia.
    - intros Hl. rewrite last_Some in Hl. destruct Hl as [l' ->]. apply Forall_app in Hs as [_ Hs].
      apply Forall_cons in Hs as [Hs _]. done. }
  apply progress_ok; [done|]. unfold zlen in Hb. lia.
Qed.

(** The three mutually recursive functions return, with two units of fuel for every byte left. *)
Definition value_total (fuel : nat) : Prop := forall item offset depth,
  0 <= offset <= len - 1 -> 2 * (len - offset) + 1 <= Z.of_nat fuel ->
  progress offset (parse_value can_alloc content fuel item offset depth).
Definition array_total (fuel : nat) : Prop := forall offset depth,
  0 <= offset <= len - 2 -> 2 * (len - offset) <= Z.of_nat fuel ->
  progress offset (array_loop can_alloc content fuel offset depth).
Definition object_total (fuel : nat) : Prop := forall offset depth,
  0 <= offset <= len - 2 -> 2 * (len - offset) <= Z.of_nat fuel ->
  progress offset (object_loop can_alloc content fuel offset depth).

Lemma value_step fuel : array_total fuel -> object_total fuel -> value_total (S fuel).
Proof.
  intros IHa IHo item offset depth Ho Hf. pose proof len_pos. rewrite parse_value_S. cbv zeta.
  destruct (starts_with content str_null offset) eqn:E1.
  { apply starts_with_bound in E1; [|lia|done|done]. apply progress_ok; [lia|]. change (zlen str_null) with 4 in E1. lia. }
  destruct (starts_with content str_false offset) eqn:E2.
  { apply starts_with_bound in E2; [|lia|done|done]. apply progress_ok; [lia|]. change (zlen str_false) with 5 in E2. lia. }
  destruct (starts_with content str_true offset) eqn:E3.
  { apply starts_with_bound in E3; [|lia|done|done]. apply progress_ok; [lia|]. change (zlen str_true) with 4 in E3. lia. }
  clear E1 E2 E3. destruct (next_is content offset quote); [by apply parse_string_total|].
  destruct (_ || _); [apply parse_number_total; lia|].
  destruct (next_is content offset lbracket) eqn:Ea; [|destruct (next_is content offset lbrace) eqn:Eo].
  - apply next_is_bound in Ea; [|lia|done]. destruct (_ <=? depth); [apply progress_fail; lia|].
    pose proof (skip_range (offset + 1) ltac:(lia)) as Hskip. set (o1 := buffer_skip_whitespace content (offset + 1)) in *.
    destruct (next_is content o1 rbracket) eqn:E1.
    { apply next_is_bound in E1; [|lia|done]. apply progress_ok; lia. }
    destruct (Z.leb_spec len o1); [lia|].
    destruct (IHa (o1 - 1) (depth + 1) ltac:(lia) ltac:(lia)) as (l & o2 & -> & Hnn & Hp). rewrite bind_ret_l.
    destruct l as [l|]; [|by apply progress_fail]. destruct (Hp ltac:(eauto)) as [Hlt Hle].
    destruct (next_is content o2 rbracket) eqn:E2; [|by apply progress_fail].
    apply next_is_bound in E2; [|lia|done]. apply progress_ok; lia.
  - apply next_is_bound in Eo; [|lia|done]. destruct (_ <=? depth); [apply progress_fail; lia|].
    pose proof (skip_range (offset + 1) ltac:(lia)) as Hskip. set (o1 := buffer_skip_whitespace content (offset + 1)) in *.
    destruct (next_is content o1 rbrace) eqn:E1.
    { apply next_is_bound in E1; [|lia|done]. apply progress_ok; lia. }
    destruct (Z.leb_spec len o1); [lia|].
    destruct (IHo (o1 - 1) (depth + 1) ltac:(lia) ltac:(lia)) as (l & o2 & -> & Hnn & Hp). rewrite bind_ret_l.
    destruct l as [l|]; [|by apply progress_fail]. destruct (Hp ltac:(eauto)) as [Hlt Hle].
    destruct (next_is content o2 rbrace) eqn:E2; [|by apply progress_fail].
    apply next_is_bound in E2; [|lia|done]. apply progress_ok; lia.
  - apply progress_fail. lia.
Qed.

Lemma array_step fuel : value_total fuel -> array_total fuel -> array_total (S fuel).
Proof.
  intros IHv IHa offset depth Ho Hf. pose proof len_pos. rewrite array_loop_S. cbv zeta. destruct (can_alloc 64); cbn [negb]; [|apply progress_fail; lia].
  pose proof (skip_range (offset + 1) ltac:(lia)) as Hskip. set (o1 := buffer_skip_whitespace content (offset + 1)) in *.
  destruct (IHv new_item o1 depth ltac:(lia) ltac:(lia)) as (v & o2 & -> & Hnn & Hp). rewrite bind_ret_l.
  destruct v as [v|]; [|by apply progress_fail]. destruct (Hp ltac:(eauto)) as [Hlt Hle].
  pose proof (skip_range o2 ltac:(lia)) as Hskip2. set (o3 := buffer_skip_whitespace content o2) in *.
  destruct (next_is content o3 comma) eqn:E; [|apply progress_ok; lia].
  apply next_is_bound in E; [|lia|done].
  destruct (IHa o3 depth ltac:(lia) ltac:(lia)) as (l & o4 & -> & Hnn4 & Hp4). rewrite bind_ret_l.
  destruct l as [l|]; [|by apply progress_fail]. destruct (Hp4 ltac:(eauto)). apply progress_ok; lia.
Qed.

Lemma object_step fuel : value_total fuel -> object_total fuel -> object_total (S fuel).
Proof.
  intros IHv IHo offset depth Ho Hf. pose proof len_pos. rewrite object_loop_S. cbv zeta. destruct (can_alloc 64); cbn [negb]; [|apply progress_fail; lia].
  pose proof (skip_range (offset + 1) ltac:(lia)) as Hskip. set (o1 := buffer_skip_whitespace content (offset + 1)) in *.
  destruct (parse_string_total new_item o1 ltac:(lia)) as (k & o2 & -> & Hnnk & Hpk). rewrite bind_ret_l.
  destruct k as [k|]; [|by apply progress_fail]. destruct (Hpk ltac:(eauto)) as [Hltk Hlek].
  pose proof (skip_range o2 ltac:(lia)) as Hskip2. set (o3 := buffer_skip_whitespace content o2) in *.
  destruct (next_is content o3 colon) eqn:Ec; cbn [negb]; [|apply progress_fail; lia].
  apply next_is_bound in Ec; [|lia|done].
  pose proof (skip_range (o3 + 1) ltac:(lia)) as Hskip3. set (o4 := buffer_skip_whitespace content (o3 + 1)) in *.
  destruct (IHv (set_valuestring None (set_string (valuestring k) k)) o4 depth ltac:(lia) ltac:(lia))
    as (v & o5 & -> & Hnn & Hp). rewrite bind_ret_l.
  destruct v as [v|]; [|by apply progress_fail]. destruct (Hp ltac:(eauto)) as [Hlt Hle].
  pose proof (skip_range o5 ltac:(lia)) as Hskip5. set (o6 := buffer_skip_whitespace content o5) in *.
  destruct (next_is content o6 comma) eqn:E; [|apply progress_ok; lia].
  apply next_is_bound in E; [|lia|done].
  destruct (IHo o6 depth ltac:(lia) ltac:(lia)) as (l & o7 & -> & Hnn7 & Hp7). rewrite bind_ret_l.
  destruct l as [l|]; [|by apply progress_fail]. destruct (Hp7 ltac:(eauto)). apply progress_ok; lia.
Qed.

Lemma parse_total fuel : value_total fuel /\ array_total fuel /\ object_total fuel.
Proof.
  pose proof len_pos. induction fuel as [|fuel (IHv & IHa & IHo)].
  - split_and!; intros ?; intros; lia.
  - auto using value_step, array_step, object_step.
Qed.
End Parser.

(** ** Claims *)

(** C15: [cJSON_ParseWithOpts] of any string, well-formed or not, returns: no read leaves the string and
    no write leaves the buffers allocated for its parts, whether or not allocations
    succeed, and the position that it reports lies within the string. *)
Theorem cJSON_Parse_safe `{CDouble} `{!StrtodBounded} can_alloc value opt :
  exists v pos, cJSON_ParseWithOpts can_alloc value opt = Ret (v, pos) /\ 0 <= pos <= zlen value.
Proof.
  assert (length_ (value ++ [0]) = zlen value + 1) as Hlen by (unfold length_; rewrite zlen_app; done).
  pose proof (zlen_nonneg value) as Hv. unfold cJSON_ParseWithOpts. rewrite Hlen.
  assert (forall offset, 0 <= offset -> exists v pos,
    Ret (@None cJSON, if offset <? zlen value + 1 then offset else if 0 <? zlen value + 1 then zlen value + 1 - 1 else 0)
      = Ret (v, pos) /\ 0 <= pos <= zlen value) as Hfail.
  { intros offset Ho. eexists _, _. split; [done|]. destruct (Z.ltb_spec offset (zlen value + 1)); [lia|].
    rewrite (proj2 (Z.ltb_lt 0 _)) by lia. lia. }
  destruct (can_alloc 64); cbn [negb]; [|by apply Hfail].
  assert (0 <= skip_utf8_bom (value ++ [0]) 0 <= length_ (value ++ [0]) - 1) as Hb.
  { unfold skip_utf8_bom. destruct (_ && _) eqn:E; [apply andb_true_iff in E as [E%Z.ltb_lt _]|]; lia. }
  pose proof (skip_range value _ Hb) as Hs.
  destruct (parse_total can_alloc value (S (2 * length (value ++ [0])))) as (Hpv & _ & _).
  destruct (Hpv new_item (buffer_skip_whitespace (value ++ [0]) (skip_utf8_bom (value ++ [0]) 0)) 0)
    as (v & o & -> & Ho & Hp); [lia| |].
  { rewrite Nat2Z.inj_succ, Nat2Z.inj_mul. fold (zlen (value ++ [0])). change (zlen (value ++ [0])) with (length_ (value ++ [0])). lia. }
  rewrite bind_ret_l. destruct v as [v|]; [|by apply Hfail]. destruct (Hp ltac:(eauto)) as [Hlt Hle].
  pose proof (skip_range value o ltac:(lia)) as Hs2.
  destruct opt; [|eexists _, _; split; [done|lia]].
  destruct (_ || _); [apply Hfail; lia|]. eexists _, _. split; [done|lia].
Qed.
