(* ===== verification/JsonNum.v ===== *)
(** The functions of the C library that src/json/cJSON.c applies to numbers: what the development
    assumes of them, and an instance that shows that the assumptions can hold.  The instance
    has the integers below 10^15 as its finite numbers, which [%1.15g] prints in decimal. *)

From S2P Require Import Prelude Json JsonSafe.

(** [%1.17g] is exact for a [double], a text of [%1.15g] is used when [sscanf] recovers the number
    from it, and both formats give at most 24 characters of a number. *)
Class DoubleLaws `{CDouble} : Prop := {
  laws_strtod :: StrtodBounded;
  laws_g17 d : is_finite d = true -> strtod (sprintf_g17 d) = (d, length (sprintf_g17 d));
  laws_g15 d d' : is_finite d = true -> sscanf_lg (sprintf_g15 d) = Some d' -> deq d' d = true ->
    strtod (sprintf_g15 d) = (d, length (sprintf_g15 d));
  laws_text d s : is_finite d = true -> s = sprintf_g15 d \/ s = sprintf_g17 d ->
    zlen s <= 24 /\ Forall (fun c => number_char c = true) s /\
    exists c s', s = c :: s' /\ (c = 45 \/ is_digit c = true)
}.

(** ** Decimal integers *)

Fixpoint digits (fuel : nat) (n : Z) : bytes :=
  match fuel with
  | O => []
  | S fuel => (if n <? 10 then [] else digits fuel (n / 10)) ++ [48 + n mod 10]
  end.

Definition decimal (n : Z) : bytes := if n <? 0 then 45 :: digits 15 (- n) else digits 15 n.

(** The digits at the start of a text: their value after [acc] and their number. *)
Fixpoint read_digits (s : bytes) (acc : Z) (used : nat) : Z * nat :=
  match s with
  | c :: s => if is_digit c then read_digits s (10 * acc + (c - 48)) (S used) else (acc, used)
  | [] => (acc, used)
  end.

Definition read_decimal (s : bytes) : Z * nat :=
  match s with
  | 45 :: s => let '(n, used) := read_digits s 0 0 in if (used =? 0)%nat then (0, 0%nat) else (- n, S used)
  | _ => read_digits s 0 0
  end.

#[export] Instance int_double : CDouble := {|
  double := Z;
  dzero := 0;
  of_int := id;
  to_int := id;
  dle := Z.leb;
  deq := Z.eqb;
  is_finite n := Z.abs n <? 10 ^ 15;
  strtod := read_decimal;
  sscanf_lg s := let '(n, used) := read_decimal s in if (used =? 0)%nat then None else Some n;
  sprintf_g15 := decimal;
  sprintf_g17 := decimal
|}.

Lemma read_digits_used s acc used : (read_digits s acc used).2 = (used + (read_digits s 0 0).2)%nat /\ ((read_digits s acc used).2 <= used + length s)%nat.
Proof.
  assert (forall s acc used, exists k, (read_digits s acc used).2 = (used + k)%nat /\ (k <= length s)%nat /\
    forall acc' used', (read_digits s acc' used').2 = (used' + k)%nat) as H.
  { clear. induction s as [|c s IH]; intros acc used; cbn [read_digits].
    - exists 0%nat. cbn. split_and!; [lia|lia|intros; lia].
    - destruct (is_digit c).
      + destruct (IH (10 * acc + (c - 48)) (S used)) as (k & H1 & H2 & H3). exists (S k).
        split_and!; [lia|cbn; lia|]. intros acc' used'. rewrite H3. lia.
      + exists 0%nat. cbn. split_and!; [lia|lia|intros; lia]. }
  destruct (H s acc used) as (k & H1 & H2 & H3). rewrite H1, (H3 0 0%nat). lia.
Qed.

#[export] Instance int_strtod : StrtodBounded.
Proof.
  intros s. change (strtod s) with (read_decimal s). destruct s as [|c s]; [done|].
  assert (forall l, ((read_digits l 0 0).2 <= length l)%nat) as Hl by (intros l; apply (proj2 (read_digits_used l 0 0))).
  unfold read_decimal. destruct (decide (c = 45)) as [->|Hc].
  - pose proof (Hl s). destruct (read_digits s 0 0) as [n used]. cbn in *. destruct (Nat.eqb_spec used 0); cbn; lia.
  - pose proof (Hl (c :: s)) as H. repeat case_match; try done.
Qed.

(** The digits of [n] read back as [n]. *)
Lemma digits_spec fuel n :
  0 <= n < 10 ^ Z.of_nat fuel -> (0 < fuel)%nat ->
  (0 < length (digits fuel n) <= fuel)%nat /\ Forall (fun c => is_digit c = true) (digits fuel n) /\
  forall rest acc used, read_digits (digits fuel n ++ rest) acc used =
    read_digits rest (acc * 10 ^ zlen (digits fuel n) + n) (used + length (digits fuel n)).
Proof.
  revert n. induction fuel as [|fuel IH]; intros n Hn Hf; [lia|]. cbn [digits].
  assert (is_digit (48 + n mod 10) = true) as Hd.
  { unfold is_digit. apply andb_true_iff. rewrite !Z.leb_le. dlia. }
  destruct (Z.ltb_spec n 10) as [Hlt|Hge].
  - cbn [app length]. split_and!; [lia|lia|by constructor|]. intros rest acc used.
    cbn [app read_digits]. rewrite Hd. change (zlen [48 + n mod 10]) with 1. f_equal; [|lia].
    rewrite Z.mod_small by lia. lia.
  - assert (0 < fuel)%nat as Hf0.
    { destruct fuel; [|lia]. change (10 ^ Z.of_nat 1) with 10 in Hn. lia. }
    destruct (IH (n / 10)) as (Hl & Hall & Hread).
    { rewrite Nat2Z.inj_succ, Z.pow_succ_r in Hn by lia. split; [dlia|]. apply Z.div_lt_upper_bound; lia. }
    { done. }
    rewrite length_app. split_and!; [cbn; lia|cbn; lia|apply Forall_app; split; [done|by constructor]|].
    intros rest acc used. rewrite <-app_assoc, Hread. cbn [app read_digits]. rewrite Hd.
    rewrite zlen_app. change (zlen [48 + n mod 10]) with 1. rewrite Z.pow_add_r by (unfold zlen; lia).
    f_equal; [|cbn; lia]. pose proof (Z.div_mod n 10 ltac:(lia)). lia.
Qed.

Lemma read_decimal_decimal n : Z.abs n < 10 ^ 15 -> read_decimal (decimal n) = (n, length (decimal n)).
Proof.
  intros Hn. unfold decimal. destruct (Z.ltb_spec n 0).
  - destruct (digits_spec 15 (- n) ltac:(lia) ltac:(lia)) as (Hl & _ & Hr).
    specialize (Hr [] 0 0%nat). rewrite app_nil_r in Hr. cbn [read_decimal]. rewrite Hr. cbn [read_digits Nat.add].
    destruct (Nat.eqb_spec (length (digits 15 (- n))) 0); [lia|]. cbn [length]. f_equal. lia.
  - destruct (digits_spec 15 n ltac:(lia) ltac:(lia)) as (Hl & Hall & Hr).
    specialize (Hr [] 0 0%nat). rewrite app_nil_r in Hr. cbn [read_digits Nat.add] in Hr.
    destruct (digits 15 n) as [|c s] eqn:E; [cbn in Hl; lia|]. apply Forall_cons in Hall as [Hc _].
    assert (c <> 45) by (intros ->; done).
    transitivity (read_digits (c :: s) 0 0); [unfold read_decimal; repeat case_match; done|]. by rewrite Hr.
Qed.

Lemma decimal_text n : Z.abs n < 10 ^ 15 ->
  zlen (decimal n) <= 24 /\ Forall (fun c => number_char c = true) (decimal n) /\
  exists c s', decimal n = c :: s' /\ (c = 45 \/ is_digit c = true).
Proof.
  intros Hn.
  assert (forall l, Forall (fun c => is_digit c = true) l -> Forall (fun c => number_char c = true) l) as Hnum.
  { intros l Hl. eapply Forall_impl; [exact Hl|]. intros c Hc. cbv beta in Hc |- *. unfold number_char. by rewrite Hc. }
  unfold decimal. destruct (Z.ltb_spec n 0).
  - destruct (digits_spec 15 (- n) ltac:(lia) ltac:(lia)) as (Hl & Hall & _). split_and!.
    + rewrite zlen_cons. unfold zlen. lia.
    + constructor; [done|]. by apply Hnum.
    + eexists _, _. split; [done|by left].
  - destruct (digits_spec 15 n ltac:(lia) ltac:(lia)) as (Hl & Hall & _). split_and!.
    + unfold zlen. lia.
    + by apply Hnum.
    + destruct (digits 15 n) as [|c s]; [cbn in Hl; lia|]. apply Forall_cons in Hall as [Hc _]. eauto.
Qed.

#[export] Instance int_double_laws : DoubleLaws.
Proof.
  split; [apply _|..].
  - intros d Hd%Z.ltb_lt. by apply read_decimal_decimal.
  - intros d d' Hd%Z.ltb_lt _ _. by apply read_decimal_decimal.
  - intros d s Hd%Z.ltb_lt [-> | ->]; by apply decimal_text.
Qed.

(** A text that is not JSON, read without an excess and refused at its end. *)
Lemma cJSON_Parse_safe_witness :
  exists v pos, cJSON_ParseWithOpts (fun _ => true) [91; 49; 44; 34; 92; 117] true = Ret (v, pos) /\ 0 <= pos <= 6.
Proof. exact (cJSON_Parse_safe (fun _ => true) [91; 49; 44; 34; 92; 117] true). Defined.

(** The escape [\uZZZZ], whose digits are none, is accepted as the character NUL. *)
Theorem invalid_hex_accepted :
  match cJSON_Parse (fun _ => true) [34; 92; 117; 90; 90; 90; 90; 34] with
  | Ret (Some item) => (type item, valuestring item)
  | _ => (0, None)
  end = (cJSON_String, Some [0]).
Proof. vm_compute. reflexivity. Qed.
