(* ===== verification/JsonPrint.v ===== *)
(** The printer of src/json/cJSON.c.

    The output buffer is modelled with its contents and its life: it can be grown with [realloc]
    or by hand, freed, and filled by a caller.  A write outside the allocation, a read of a
    string without a NUL in it and a second [free] are [Undef]. *)

From S2P Require Import Prelude Json.

Inductive block := Null | Live (b : bytes) | Dangling.

Record printbuffer := mk_pb {
  buffer : block;
  plength : Z;
  poffset : Z;
  pdepth : Z;
  noalloc : bool;
  format : bool
}.

Definition set_buffer (b : block) (p : printbuffer) : printbuffer :=
  mk_pb b (plength p) (poffset p) (pdepth p) (noalloc p) (format p).
Definition set_offset (o : Z) (p : printbuffer) : printbuffer :=
  mk_pb (buffer p) (plength p) o (pdepth p) (noalloc p) (format p).
Definition set_depth (d : Z) (p : printbuffer) : printbuffer :=
  mk_pb (buffer p) (plength p) (poffset p) d (noalloc p) (format p).

(** [strlen] of the bytes of a buffer. *)
Fixpoint strlen (l : bytes) : outcome Z :=
  match l with
  | [] => Undef
  | c :: l => if c =? 0 then Ret 0 else n ← strlen l; Ret (1 + n)
  end.

(** The C string in a buffer. *)
Fixpoint cstr (l : bytes) : bytes :=
  match l with
  | [] => []
  | c :: l => if c =? 0 then [] else c :: cstr l
  end.

Definition free (b : block) : outcome block :=
  match b with Null => Ret Null | Live _ => Ret Dangling | Dangling => Undef end.

(** [output_pointer[..] = data] *)
Definition poke (p : printbuffer) (at_ : Z) (data : bytes) : outcome printbuffer :=
  match buffer p with
  | Live b => b ← mem_write b at_ data; Ret (set_buffer (Live b) p)
  | _ => Undef
  end.

Section Print.
(** [have_realloc] is [hooks.reallocate != NULL]; [junk] is what fresh memory holds. *)
Context `{CDouble} (can_alloc : Z -> bool) (have_realloc : bool) (junk : Z).

(** A block of [newsize] bytes that starts with [kept]. *)
Definition resize (kept : bytes) (newsize : Z) : bytes :=
  take (Z.to_nat newsize) kept ++ replicate (Z.to_nat newsize - length kept) junk.

(** [ensure]: the pointer is the offset in the buffer, or nothing for [NULL]. *)
Definition ensure (p : printbuffer) (needed : Z) : outcome (option Z * printbuffer) :=
  match buffer p with
  | Null => Ret (None, p)
  | Dangling => Undef
  | Live b =>
      if (0 <? plength p) && (plength p <=? poffset p) then Ret (None, p)
      else if INT_MAX <? needed then Ret (None, p)
      else
        let needed := needed + (poffset p + 1) in
        if needed <=? plength p then Ret (Some (poffset p), p)
        else if noalloc p then Ret (None, p)
        else if (INT_MAX / 2 <? needed) && negb (needed <=? INT_MAX) then Ret (None, p)
        else
          let newsize := if INT_MAX / 2 <? needed then INT_MAX else needed * 2 in
          if negb (can_alloc newsize) then
            Ret (None, mk_pb Null 0 (poffset p) (pdepth p) (noalloc p) (format p))
          else
            kept ← (if have_realloc then Ret b else mem_read b 0 (poffset p + 1));
            Ret (Some (poffset p), mk_pb (Live (resize kept newsize)) newsize (poffset p) (pdepth p) (noalloc p) (format p))
  end.

Definition update_offset (p : printbuffer) : outcome printbuffer :=
  match buffer p with
  | Null => Ret p
  | Dangling => Undef
  | Live b => n ← strlen (drop (Z.to_nat (poffset p)) b); Ret (set_offset (poffset p + n) p)
  end.

(** ** Scalars *)

(** The text that [print_number] makes of the number. *)
Definition number_text (d : double) : bytes :=
  if negb (is_finite d) then str_null
  else
    let s := sprintf_g15 d in
    match sscanf_lg s with
    | Some test => if deq test d then s else sprintf_g17 d
    | None => sprintf_g17 d
    end.

Definition print_number (d : double) (p : printbuffer) : outcome (bool * printbuffer) :=
  let number_buffer := number_text d in
  if 25 <? zlen number_buffer then Ret (false, p) else
  '(ptr, p) ← ensure p (zlen number_buffer);
  match ptr with
  | None => Ret (false, p)
  | Some ptr =>
      p ← poke p ptr number_buffer;
      p ← poke p (ptr + zlen number_buffer) [0];
      Ret (true, set_offset (poffset p + zlen number_buffer) p)
  end.

(** The bytes after the backslash, for a character that is escaped. *)
Definition hex_char (n : Z) : Z := if n <? 10 then 48 + n else 87 + n.
Definition escape_tail (c : Z) : bytes :=
  if c =? backslash then [backslash]
  else if c =? quote then [quote]
  else if c =? 8 then [98]
  else if c =? 12 then [102]
  else if c =? 10 then [110]
  else if c =? 13 then [114]
  else if c =? 9 then [116]
  else [117; 48; 48; hex_char (c ≫ 4); hex_char (Z.land c 15)].

(** The first loop: how many bytes the escapes add. *)
Definition escape_extra (c : Z) : Z :=
  if (c =? quote) || (c =? backslash) || (c =? 8) || (c =? 12) || (c =? 10) || (c =? 13) || (c =? 9) then 1
  else if c <? 32 then 5 else 0.
Definition escape_characters (s : bytes) : Z := foldr (fun c n => escape_extra c + n) 0 s.

(** The second loop; [sprintf] also stores a NUL, which the next character overwrites. *)
Fixpoint copy_escaped (s : bytes) (p : printbuffer) (ptr : Z) : outcome printbuffer :=
  match s with
  | [] => Ret p
  | c :: s =>
      if (31 <? c) && negb (c =? quote) && negb (c =? backslash) then
        p ← poke p ptr [c]; copy_escaped s p (ptr + 1)
      else
        p ← poke p ptr [backslash];
        let tail := escape_tail c in
        p ← poke p (ptr + 1) (if 1 <? zlen tail then tail ++ [0] else tail);
        copy_escaped s p (ptr + 1 + zlen tail)
  end.

Definition print_string_ptr (input : option bytes) (p : printbuffer) : outcome (bool * printbuffer) :=
  match input with
  | None =>
      '(ptr, p) ← ensure p 3;
      match ptr with
      | None => Ret (false, p)
      | Some ptr => p ← poke p ptr [quote; quote; 0]; Ret (true, p)
      end
  | Some input =>
      let s := cstr input in
      let escapes := escape_characters s in
      let output_length := zlen s + escapes in
      '(ptr, p) ← ensure p (output_length + 3);
      match ptr with
      | None => Ret (false, p)
      | Some ptr =>
          p ← poke p ptr [quote];
          p ← (if escapes =? 0 then poke p (ptr + 1) s else copy_escaped s p (ptr + 1));
          p ← poke p (ptr + output_length + 1) [quote];
          p ← poke p (ptr + output_length + 2) [0];
          Ret (true, p)
      end
  end.

(** A constant text with its NUL. *)
Definition print_text (s : bytes) (p : printbuffer) : outcome (bool * printbuffer) :=
  '(ptr, p) ← ensure p (zlen s + 1);
  match ptr with
  | None => Ret (false, p)
  | Some ptr => p ← poke p ptr (s ++ [0]); Ret (true, p)
  end.

Definition print_raw (s : option bytes) (p : printbuffer) : outcome (bool * printbuffer) :=
  match s with
  | None =>
      if noalloc p then Ret (false, p)
      else b ← free (buffer p); Ret (false, set_buffer b p)
  | Some s => print_text (cstr s) p
  end.

(** ** Containers *)

(** [ensure] and then a store of bytes, of which the first [advance] are passed. *)
Definition emit (needed : Z) (data : bytes) (advance : Z) (p : printbuffer) : outcome (bool * printbuffer) :=
  '(ptr, p) ← ensure p needed;
  match ptr with
  | None => Ret (false, p)
  | Some ptr => p ← poke p ptr data; Ret (true, set_offset (poffset p + advance) p)
  end.

(** Runs the rest unless printing failed. *)
Definition andthen (m : outcome (bool * printbuffer)) (k : printbuffer -> outcome (bool * printbuffer))
    : outcome (bool * printbuffer) :=
  '(ok, p) ← m; if (ok : bool) then k p else Ret (false, p).
Notation "'let?' p := m 'in' k" := (andthen m (fun p => k)) (at level 10, p name, k at level 200).

Definition tabs (n : Z) : bytes := replicate (Z.to_nat n) 9.

(** [print_array] and [print_object], over a printer of the elements. *)
Section Elements.
Context (print_value : cJSON -> printbuffer -> outcome (bool * printbuffer)).

Fixpoint array_elements (l : list cJSON) (p : printbuffer) : outcome (bool * printbuffer) :=
  match l with
  | [] => Ret (true, p)
  | e :: l =>
      let? p := print_value e p in
      p ← update_offset p;
      let? p :=
        match l with
        | [] => Ret (true, p)
        | _ =>
            let length := if format p then 2 else 1 in
            emit (length + 1) (comma :: (if format p then [32] else []) ++ [0]) length p
        end in
      array_elements l p
  end.

Fixpoint object_elements (l : list cJSON) (p : printbuffer) : outcome (bool * printbuffer) :=
  match l with
  | [] => Ret (true, p)
  | e :: l =>
      let? p := (if format p then emit (pdepth p) (tabs (pdepth p)) (pdepth p) p else Ret (true, p)) in
      let? p := print_string_ptr (string e) p in
      p ← update_offset p;
      let length := if format p then 2 else 1 in
      let? p := emit length (colon :: if format p then [9] else []) length p in
      let? p := print_value e p in
      p ← update_offset p;
      let next := match l with [] => false | _ => true end in
      let length := (if format p then 1 else 0) + (if next then 1 else 0) in
      let? p := emit (length + 1) ((if next then [comma] else []) ++ (if format p then [10] else []) ++ [0]) length p in
      object_elements l p
  end.

Definition print_array (l : list cJSON) (p : printbuffer) : outcome (bool * printbuffer) :=
  let? p := emit 1 [lbracket] 1 p in
  let p := set_depth (pdepth p + 1) p in
  let? p := array_elements l p in
  let? p := emit 2 [rbracket; 0] 0 p in
  Ret (true, set_depth (pdepth p - 1) p).

Definition print_object (l : list cJSON) (p : printbuffer) : outcome (bool * printbuffer) :=
  let length := if format p then 2 else 1 in
  let? p := emit (length + 1) (lbrace :: if format p then [10] else []) length p in
  let p := set_depth (pdepth p + 1) p in
  let? p := object_elements l p in
  let? p := emit (if format p then pdepth p + 1 else 2)
    ((if format p then tabs (pdepth p - 1) else []) ++ [rbrace; 0]) 0 p in
  Ret (true, set_depth (pdepth p - 1) p).
End Elements.

(** [print_value]; the guard of the recursion needs the loops in line. *)
Fixpoint print_value (item : cJSON) (p : printbuffer) : outcome (bool * printbuffer) :=
  match item with
  | Item ty vs _ vd _ ch =>
      let t := Z.land ty 0xFF in
      if t =? cJSON_NULL then print_text str_null p
      else if t =? cJSON_False then print_text str_false p
      else if t =? cJSON_True then print_text str_true p
      else if t =? cJSON_Number then print_number vd p
      else if t =? cJSON_Raw then print_raw vs p
      else if t =? cJSON_String then print_string_ptr vs p
      else if t =? cJSON_Array then print_array print_value ch p
      else if t =? cJSON_Object then print_object print_value ch p
      else Ret (false, p)
  end.

(** ** Entry points *)

(** [print]: the text with its NUL, or nothing for [NULL]. *)
Definition print (item : cJSON) (fmt : bool) : outcome (option bytes) :=
  if negb (can_alloc 256) then Ret None else
  '(ok, p) ← print_value item (mk_pb (Live (replicate 256 junk)) 0 0 0 false fmt);
  if negb ok then _ ← free (buffer p); Ret None
  else
    p ← update_offset p;
    match buffer p with
    | Live b =>
        if have_realloc then
          if can_alloc (plength p) then Ret (Some (resize b (plength p))) else Ret None
        else
          if can_alloc (poffset p + 1) then
            kept ← mem_read b 0 (Z.min (plength p) (poffset p + 1));
            printed ← mem_set (resize kept (poffset p + 1)) (poffset p) 0;
            Ret (Some printed)
          else Ret None
    | _ => Undef
    end.

Definition cJSON_Print (item : cJSON) : outcome (option bytes) := print item true.
Definition cJSON_PrintUnformatted (item : cJSON) : outcome (option bytes) := print item false.

Definition cJSON_PrintBuffered (item : cJSON) (prebuffer : Z) (fmt : bool) : outcome (option bytes) :=
  if prebuffer <? 0 then Ret None
  else if negb (can_alloc prebuffer) then Ret None
  else
    '(ok, p) ← print_value item (mk_pb (Live (replicate (Z.to_nat prebuffer) junk)) prebuffer 0 0 false fmt);
    if negb ok then _ ← free (buffer p); Ret None
    else match buffer p with Live b => Ret (Some b) | _ => Undef end.

(** [cJSON_PrintPreallocated] into the [len] bytes [buf] of the caller. *)
Definition cJSON_PrintPreallocated (item : cJSON) (buf : bytes) (fmt : bool) : outcome (bool * bytes) :=
  '(ok, p) ← print_value item (mk_pb (Live buf) (zlen buf) 0 0 true fmt);
  match buffer p with Live b => Ret (ok, b) | _ => Undef end.
End Print.
