(* ===== verification/JsonRender.v ===== *)
(** The text that the printer of src/json/cJSON.c produces, and that it keeps to its buffer. *)

From S2P Require Import Prelude Json JsonSafe JsonNum JsonPrint.

Notation "'let?' p := m 'in' k" := (andthen m (fun p => k)) (at level 10, p name, k at level 200).

(** ** The text of a tree *)

Definition escape (c : Z) : bytes :=
  if (31 <? c) && negb (c =? quote) && negb (c =? backslash) then [c] else backslash :: escape_tail c.

Definition render_string (s : option bytes) : bytes :=
  quote :: concat (escape <$> cstr (default [] s)) ++ [quote].

Section Render.
Context `{CDouble} (fmt : bool).

Definition opt (s : bytes) : bytes := if fmt then s else [].

Section Elements.
Context (render : cJSON -> bytes) (depth : Z).
Fixpoint render_elements (l : list cJSON) : bytes :=
  match l with
  | [] => []
  | e :: l => render e ++ (match l with [] => [] | _ => comma :: opt [32] end) ++ render_elements l
  end.
Fixpoint render_members (l : list cJSON) : bytes :=
  match l with
  | [] => []
  | e :: l =>
      opt (tabs depth) ++ render_string (string e) ++ (colon :: opt [9]) ++ render e
        ++ ((match l with [] => [] | _ => [comma] end) ++ opt [10]) ++ render_members l
  end.
End Elements.

Fixpoint render (depth : Z) (item : cJSON) : bytes :=
  match item with
  | Item ty vs _ vd _ ch =>
      let t := Z.land ty 0xFF in
      if t =? cJSON_NULL then str_null
      else if t =? cJSON_False then str_false
      else if t =? cJSON_True then str_true
      else if t =? cJSON_Number then number_text vd
      else if t =? cJSON_Raw then cstr (default [] vs)
      else if t =? cJSON_String then render_string vs
      else if t =? cJSON_Array then [lbracket] ++ render_elements (render (depth + 1)) ch ++ [rbracket]
      else (lbrace :: opt [10]) ++ render_members (render (depth + 1)) (depth + 1) ch ++ opt (tabs depth) ++ [rbrace]
  end.
End Render.

Definition byte_string (s : option bytes) : bool :=
  forallb (fun c => (0 <=? c) && (c <? 256)) (default [] s).

(** The nodes that can be printed: every type is known, raw text is there and text is bytes. *)
Fixpoint renderable `{CDouble} (item : cJSON) : bool :=
  match item with
  | Item ty vs _ _ st ch =>
      let t := Z.land ty 0xFF in
      byte_string vs && byte_string st &&
      ((t =? cJSON_NULL) || (t =? cJSON_False) || (t =? cJSON_True) || (t =? cJSON_Number) || (t =? cJSON_String)
       || ((t =? cJSON_Raw) && (match vs with Some _ => true | None => false end))
       || (((t =? cJSON_Array) || (t =? cJSON_Object)) && forallb renderable ch))
  end.

(** Induction on a tree through the lists of children. *)
Lemma cJSON_ind' `{CDouble} (P : cJSON -> Prop) :
  (forall ty vs vi vd st ch, Forall P ch -> P (Item ty vs vi vd st ch)) -> forall i, P i.
Proof.
  intros HP. fix IH 1. intros [ty vs vi vd st ch]. apply HP.
  induction ch as [|c ch IHch]; constructor; [apply IH|exact IHch].
Qed.

(** ** No NUL inside *)

Definition no_nul (s : bytes) : Prop := Forall (fun c => c <> 0) s.

Lemma no_nul_app s t : no_nul (s ++ t) <-> no_nul s /\ no_nul t.
Proof. apply Forall_app. Qed.

Lemma cstr_no_nul s : no_nul (cstr s).
Proof. induction s as [|c s IH]; [constructor|]. cbn [cstr]. destruct (Z.eqb_spec c 0); [constructor|by constructor]. Qed.

Lemma strlen_app s t : no_nul s -> strlen (s ++ 0 :: t) = Ret (zlen s).
Proof.
  induction 1 as [|c s Hc Hs IH]; [done|]. cbn [app strlen]. rewrite (proj2 (Z.eqb_neq c 0) Hc), IH, bind_ret_l.
  by rewrite zlen_cons.
Qed.

Lemma cstr_app s t : no_nul s -> cstr (s ++ 0 :: t) = s.
Proof. induction 1 as [|c s Hc Hs IH]; [done|]. cbn [app cstr]. rewrite (proj2 (Z.eqb_neq c 0)) by done. by f_equal. Qed.

Lemma hex_char_pos n : 0 <= n -> hex_char n <> 0.
Proof. intros. unfold hex_char. case_match; lia. Qed.

Lemma escape_no_nul c : 0 <= c -> c <> 0 -> no_nul (escape c).
Proof.
  intros Hc Hne. unfold escape. destruct (_ && _); [by constructor|]. constructor; [done|]. unfold escape_tail.
  repeat (destruct (_ =? _); [by constructor|]).
  do 3 (apply Forall_cons_2; [done|]).
  apply Forall_cons_2; [apply hex_char_pos; by apply Z.shiftr_nonneg|].
  apply Forall_cons_2; [apply hex_char_pos; apply Z.land_nonneg; by left|]. apply Forall_nil_2.
Qed.

(** ** What printing does to the buffer *)

Section Spec.
Context `{CDouble} `{!DoubleLaws} (can_alloc : Z -> bool) (have_realloc : bool) (junk : Z).

(** A buffer that can be printed to. *)
Definition pb_ok (p : printbuffer) : Prop :=
  exists b, buffer p = Live b /\ 0 <= poffset p /\
    ((plength p = zlen b /\ poffset p < plength p) \/
     (plength p = 0 /\ poffset p = 0 /\ (noalloc p = true \/ have_realloc = true \/ 1 <= zlen b))).

(** From [p] to [p'] the bytes [data] were written at the offset, which then moved by [k]. *)
Definition wrote (p p' : printbuffer) (data : bytes) (k : Z) : Prop :=
  exists b b' rest, buffer p = Live b /\ buffer p' = Live b' /\
    b' = take (Z.to_nat (poffset p)) b ++ data ++ rest /\ length (take (Z.to_nat (poffset p)) b) = Z.to_nat (poffset p) /\
    0 <= poffset p /\ 0 <= k <= zlen data /\ poffset p' = poffset p + k /\ poffset p' < zlen b' /\
    plength p' = zlen b' /\ pdepth p' = pdepth p /\ noalloc p' = noalloc p /\ format p' = format p /\
    (noalloc p = true -> zlen b' = zlen b).

Lemma wrote_ok p p' data k : wrote p p' data k -> pb_ok p'.
Proof. intros (b & b' & rest & _ & Hb' & _ & _ & Ho & Hk & Ho' & Hlt & Hl & _). exists b'. split_and!; [done|lia|left; lia]. Qed.

Lemma wrote_prefix p p' r x k : wrote p p' (r ++ x) k -> k <= zlen r -> wrote p p' r k.
Proof.
  intros (b & b' & rest & Hb & Hb' & Eb & Ht & Ho & Hk & Ho' & Hlt & Hl & Hd & Hn & Hf & Hz) Hkr.
  exists b, b', (x ++ rest). split_and!; try done; try lia. by rewrite Eb, <-app_assoc.
Qed.

Lemma wrote_depth p p' r k d : wrote p p' r k -> wrote (set_depth d p) (set_depth d p') r k.
Proof.
  intros (b & b' & rest & Hb & Hb' & Hrest). exists b, b', rest. cbn. split_and!; try done; try apply Hrest.
Qed.

(** Consecutive writes. *)
Lemma wrote_app p p1 p2 r1 r2 k :
  wrote p p1 r1 (zlen r1) -> wrote p1 p2 r2 k -> wrote p p2 (r1 ++ r2) (zlen r1 + k).
Proof.
  intros (b & b1 & rest & Hb & Hb1 & Eb1 & Ht & Ho & _ & Ho1 & Hlt1 & Hl1 & Hd1 & Hn1 & Hf1 & Hz1)
    (b1' & b2 & rest2 & Hb1' & Hb2 & Eb2 & Ht2 & Ho2 & Hk & Ho2' & Hlt2 & Hl2 & Hd2 & Hn2 & Hf2 & Hz2).
  assert (b1' = b1) as -> by congruence. exists b, b2, rest2.
  assert (take (Z.to_nat (poffset p1)) b1 = take (Z.to_nat (poffset p)) b ++ r1) as Hpre.
  { rewrite Eb1, app_assoc. apply take_app_length'. rewrite length_app, Ht, Ho1. unfold zlen. lia. }
  split_and!; try done; try congruence.
  - rewrite Eb2, Hpre. by rewrite <-!app_assoc.
  - pose proof (zlen_nonneg r1). lia.
  - rewrite zlen_app. lia.
  - lia.
  - intros Hna. rewrite Hz2 by congruence. auto.
Qed.

(** Enough memory for [n] more bytes: the heap never refuses, or a buffer of the caller that has
    5 bytes to spare. *)
Definition roomy (p : printbuffer) (n : Z) : Prop :=
  poffset p + n + 8 <= INT_MAX /\
  ((forall size, can_alloc size = true) /\ noalloc p = false \/
   noalloc p = true /\ plength p = match buffer p with Live b => zlen b | _ => 0 end /\ poffset p + n + 5 <= plength p).

Lemma roomy_mono p n n' : n <= n' -> roomy p n' -> roomy p n.
Proof. intros Hn [Hb [Hr|(Hna & Hl & Hr)]]; (split; [lia|]); [by left|right; split_and!; [done|done|lia]]. Qed.

Lemma ensure_spec p needed :
  pb_ok p -> 0 <= needed ->
  exists r p', ensure can_alloc have_realloc junk p needed = Ret (r, p') /\
    (forall ptr, r = Some ptr -> ptr = poffset p /\
      exists b b', buffer p = Live b /\ buffer p' = Live b' /\
        take (Z.to_nat (poffset p)) b' = take (Z.to_nat (poffset p)) b /\
        length (take (Z.to_nat (poffset p)) b) = Z.to_nat (poffset p) /\
        poffset p + needed + 1 <= zlen b' /\ poffset p' = poffset p /\ plength p' = zlen b' /\
        pdepth p' = pdepth p /\ noalloc p' = noalloc p /\ format p' = format p /\
        (noalloc p = true -> zlen b' = zlen b)) /\
    (r = None -> buffer p' <> Dangling /\ (noalloc p = true -> p' = p)) /\
    (forall n, roomy p n -> needed <= n + 4 -> is_Some r).
Proof.
  intros (b & Hb & Ho & Hlen) Hn. unfold ensure. rewrite Hb.
  assert (length (take (Z.to_nat (poffset p)) b) = Z.to_nat (poffset p)) as Ht.
  { rewrite length_take. unfold zlen in *. lia. }
  assert ((0 <? plength p) && (plength p <=? poffset p) = false) as ->.
  { apply andb_false_iff. rewrite Z.ltb_ge, Z.leb_gt. lia. }
  assert (forall p', buffer p' = buffer p \/ buffer p' = Null -> buffer p' <> Dangling) as Hnd.
  { intros p' [-> | ->]; [by rewrite Hb|done]. }
  destruct (Z.ltb_spec INT_MAX needed) as [Hbig|Hsm].
  { eexists None, p. split_and!; [done|done|intros _; auto|]. intros n [Hr _]. lia. }
  destruct (Z.leb_spec (needed + (poffset p + 1)) (plength p)) as [Hfit|Hgrow].
  { eexists (Some _), p. split_and!; [done| |done|intros; by eexists].
    intros ptr [= <-]. split; [done|]. exists b, b. split_and!; try done; lia. }
  destruct (noalloc p) eqn:Hna.
  { eexists None, p. split_and!; [done|done|intros _; auto|]. intros n [_ [[_ Hr]|(_ & _ & Hr)]] Hle; [congruence|lia]. }
  destruct ((INT_MAX / 2 <? needed + (poffset p + 1)) && negb (needed + (poffset p + 1) <=? INT_MAX)) eqn:Hov.
  { eexists None, p. split_and!; [done|done|intros _; auto|]. intros n [Hr _] Hle.
    apply andb_true_iff in Hov as [_ Hov%negb_true_iff%Z.leb_gt]. lia. }
  set (newsize := if INT_MAX / 2 <? needed + (poffset p + 1) then INT_MAX else (needed + (poffset p + 1)) * 2).
  assert (needed + (poffset p + 1) <= newsize) as Hnew.
  { unfold newsize. destruct (Z.ltb_spec (INT_MAX / 2) (needed + (poffset p + 1))); [|lia].
    cbn [andb] in Hov. apply negb_false_iff, Z.leb_le in Hov. lia. }
  destruct (can_alloc newsize) eqn:Hca; cbn [negb].
  2: { eexists None, _. split_and!; [done|done| |intros n [_ [[Hr _]|(Hr & _)]]; congruence].
       intros _. split; [by apply Hnd; right|congruence]. }
  assert (exists kept, (if have_realloc then Ret b else mem_read b 0 (poffset p + 1)) = Ret kept /\
    take (Z.to_nat (poffset p)) kept = take (Z.to_nat (poffset p)) b) as (kept & -> & Hkept).
  { destruct have_realloc eqn:Hre; [by exists b|].
    assert (poffset p + 1 <= zlen b) as Hle by (destruct Hlen as [?|(? & ? & [?|[?|?]])]; [lia|congruence|congruence|lia]).
    eexists. split; [apply mem_read_ok; lia|]. change (drop (Z.to_nat 0) b) with b. rewrite take_take. f_equal. lia. }
  rewrite bind_ret_l. eexists (Some _), _. split_and!; [done| |done|intros; by eexists].
  intros ptr [= <-]. split; [done|]. eexists b, _. split_and!; [done|reflexivity| |done| |done| |done|done|done|congruence].
  - unfold resize. rewrite take_app_le.
    + rewrite take_take. rewrite Nat.min_l by lia. exact Hkept.
    + rewrite <-Hkept in Ht. rewrite length_take in *. lia.
  - unfold resize. autorewrite with zlen. unfold zlen. lia.
  - cbn. unfold resize. autorewrite with zlen. unfold zlen. lia.
Qed.

(** After a failure the buffer is gone or still there, and the caller's buffer keeps its size. *)
Definition safe (p p' : printbuffer) : Prop :=
  buffer p' <> Dangling /\
  (noalloc p = true -> exists b b', buffer p = Live b /\ buffer p' = Live b' /\ zlen b' = zlen b).

(** The step [m] from [p] returns; when it succeeds the result satisfies [Q], when it fails it is
    safe, and it succeeds when there is room for [n] bytes. *)
Definition does (Q : printbuffer -> Prop) (p : printbuffer) (m : outcome (bool * printbuffer)) (n : Z) : Prop :=
  exists ok p', m = Ret (ok, p') /\ (ok = true -> Q p') /\ (ok = false -> safe p p') /\ (roomy p n -> ok = true).

(** [m] writes [r] and moves behind it, or writes it with a NUL and moves at most behind it. *)
Definition appends (p : printbuffer) (m : outcome (bool * printbuffer)) (r : bytes) : Prop :=
  does (fun p' => wrote p p' r (zlen r)) p m (zlen r).
Definition terminates (p : printbuffer) (m : outcome (bool * printbuffer)) (r : bytes) : Prop :=
  does (fun p' => exists k, k <= zlen r /\ wrote p p' (r ++ [0]) k) p m (zlen r).

Lemma wrote_safe p p1 p' r k : wrote p p1 r k -> safe p1 p' -> safe p p'.
Proof.
  intros (b & b1 & rest & Hb & Hb1 & _ & _ & _ & _ & _ & _ & _ & _ & Hn & _ & Hz) [Hd Hs]. split; [done|].
  intros Hna. destruct Hs as (b1' & b' & Hb1' & Hb' & Hz'); [congruence|]. exists b, b'. split_and!; [done|done|].
  assert (b1' = b1) as -> by congruence. rewrite Hz'. auto.
Qed.

Lemma wrote_roomy p p1 r n : wrote p p1 r (zlen r) -> roomy p (zlen r + n) -> roomy p1 n.
Proof.
  intros (b & b1 & rest & Hb & Hb1 & _ & _ & _ & _ & Ho & _ & Hl & _ & Hn & _ & Hz) (Hmax & [[Hc Hna]|(Hna & Hlen & Hr)]).
  - split; [lia|]. left. split; [done|congruence].
  - rewrite Hb in Hlen. specialize (Hz Hna). split; [lia|]. right. rewrite Hb1. split_and!; [congruence|done|lia].
Qed.

Lemma andthen_does Q Q2 p m k n n2 :
  does Q p m n -> 0 <= n2 ->
  (forall p1, Q p1 -> (forall p', safe p1 p' -> safe p p') /\ (roomy p (n + n2) -> roomy p1 n2) /\ does Q2 p1 (k p1) n2) ->
  does Q2 p (andthen m k) (n + n2).
Proof.
  intros (ok & p1 & -> & HQ & Hs & Hr) Hn2 Hk. unfold andthen. rewrite bind_ret_l. destruct ok.
  - destruct (Hk p1 (HQ eq_refl)) as (Hsafe & Hroom & ok & p2 & -> & HQ2 & Hs2 & Hr2).
    exists ok, p2. split_and!; auto.
  - exists false, p1. split_and!; [done|done|auto|]. intros Hroom. apply Hr. revert Hroom. apply roomy_mono. lia.
Qed.

Lemma andthen_appends p m k r r2 :
  appends p m r -> (forall p1, wrote p p1 r (zlen r) -> appends p1 (k p1) r2) -> appends p (andthen m k) (r ++ r2).
Proof.
  intros Hm Hk. unfold appends. rewrite zlen_app. eapply andthen_does; [exact Hm|apply zlen_nonneg|].
  intros p1 Hw. cbv beta in Hw. split_and!; [intros p'; by apply (wrote_safe p p1 p' r (zlen r))|by apply wrote_roomy|].
  destruct (Hk p1 Hw) as (ok & p2 & Hp2 & HQ & Hs & Hr). exists ok, p2. split_and!; [done| |done|done].
  intros Hok. eapply wrote_app; eauto.
Qed.

Lemma andthen_terminates p m k r r2 :
  appends p m r -> (forall p1, wrote p p1 r (zlen r) -> terminates p1 (k p1) r2) -> terminates p (andthen m k) (r ++ r2).
Proof.
  intros Hm Hk. unfold terminates. rewrite zlen_app. eapply andthen_does; [exact Hm|apply zlen_nonneg|].
  intros p1 Hw. cbv beta in Hw. split_and!; [intros p'; by apply (wrote_safe p p1 p' r (zlen r))|by apply wrote_roomy|].
  destruct (Hk p1 Hw) as (ok & p2 & Hp2 & HQ & Hs & Hr). exists ok, p2. split_and!; [done| |done|done].
  intros Hok. destruct (HQ Hok) as (k' & Hk' & Hw2). exists (zlen r + k'). split; [lia|].
  rewrite <-app_assoc. eapply wrote_app; eauto.
Qed.

(** [update_offset] after a text with its NUL. *)
Lemma update_offset_spec p p1 r k :
  wrote p p1 (r ++ [0]) k -> k <= zlen r -> no_nul r ->
  exists p2, update_offset p1 = Ret p2 /\ wrote p p2 r (zlen r).
Proof.
  intros (b & b1 & rest & Hb & Hb1 & Eb & Ht & Ho & Hk & Ho1 & Hlt & Hl & Hd & Hn & Hf & Hz) Hkr Hr.
  unfold update_offset. rewrite Hb1.
  assert (drop (Z.to_nat (poffset p1)) b1 = drop (Z.to_nat k) r ++ 0 :: rest) as ->.
  { rewrite Eb, Ho1. rewrite <-app_assoc. replace (Z.to_nat (poffset p + k)) with (Z.to_nat (poffset p) + Z.to_nat k)%nat by lia.
    rewrite <-drop_drop, drop_app_length' by done. rewrite drop_app_le by (unfold zlen in *; lia). done. }
  rewrite strlen_app by by apply Forall_drop. rewrite bind_ret_l. eexists. split; [done|].
  exists b, b1, (0 :: rest). cbn. rewrite zlen_drop. assert (zlen b1 = poffset p + zlen r + 1 + zlen rest) as Hzb.
  { rewrite Eb. rewrite !zlen_app. change (zlen [0]) with 1. unfold zlen at 1. rewrite Ht. lia. }
  pose proof (zlen_nonneg rest). pose proof (zlen_nonneg r). split_and!; try done; try lia. by rewrite Eb, <-app_assoc.
Qed.

Lemma andthen_assoc m f g : andthen (andthen m f) g = andthen m (fun p => andthen (f p) g).
Proof. destruct m as [[[] p]| |]; done. Qed.

Lemma update_appends p m r :
  terminates p m r -> no_nul r -> appends p (andthen m (fun p => p ← update_offset p; Ret (true, p))) r.
Proof.
  intros (ok & p1 & -> & HQ & Hs & Hr) Hnul. unfold andthen. rewrite bind_ret_l. destruct ok.
  - destruct (HQ eq_refl) as (k & Hk & Hw). destruct (update_offset_spec p p1 r k Hw Hk Hnul) as (p2 & -> & Hw2).
    rewrite bind_ret_l. by exists true, p2.
  - exists false, p1. split_and!; auto. done.
Qed.

Lemma andthen_update p m k r r2 :
  terminates p m r -> no_nul r -> (forall p1, wrote p p1 r (zlen r) -> appends p1 (k p1) r2) ->
  appends p (andthen m (fun p => p ← update_offset p; k p)) (r ++ r2).
Proof.
  intros Hm Hnul Hk. pose proof (andthen_appends _ _ k _ _ (update_appends p m r Hm Hnul) Hk) as H1.
  rewrite andthen_assoc in H1. eapply (eq_rect _ (fun m => appends p m (r ++ r2)) H1).
  unfold andthen. destruct m as [[[] p1]| |]; [|done..]. cbn. destruct (update_offset p1); done.
Qed.

(** ** Stores *)

Lemma poke_spec p at_ data b :
  buffer p = Live b -> 0 <= at_ -> at_ + zlen data <= zlen b ->
  poke p at_ data = Ret (set_buffer (Live (take (Z.to_nat at_) b ++ data ++ drop (Z.to_nat at_ + length data) b)) p).
Proof. intros Hb Ha Hl. unfold poke. rewrite Hb, mem_write_ok by done. done. Qed.

(** [ensure] followed by stores that leave [data] at the offset. *)
Lemma ensure_stores p needed data adv n (k : Z -> printbuffer -> outcome printbuffer) :
  pb_ok p -> 0 <= needed -> zlen data <= needed + 1 -> 0 <= adv <= needed -> adv <= zlen data -> needed <= n + 4 ->
  (forall p1 b, buffer p1 = Live b -> poffset p1 = poffset p -> 0 <= poffset p -> poffset p + needed + 1 <= zlen b ->
    exists rest, k (poffset p) p1 = Ret (set_buffer (Live (take (Z.to_nat (poffset p)) b ++ data ++ rest)) p1) /\
      zlen (take (Z.to_nat (poffset p)) b ++ data ++ rest) = zlen b) ->
  does (fun p' => wrote p p' data adv) p
    ('(ptr, p) ← ensure can_alloc have_realloc junk p needed;
     match ptr with
     | None => Ret (false, p)
     | Some ptr => p ← k ptr p; Ret (true, set_offset (poffset p + adv) p)
     end) n.
Proof.
  intros Hp Hn Hd Hadv Hadv2 Hneed Hk.
  destruct (ensure_spec p needed Hp Hn) as (r & p1 & -> & Hsome & Hnone & Hroom). rewrite bind_ret_l.
  destruct r as [ptr|].
  - destruct (Hsome ptr eq_refl) as (-> & b & b1 & Hb & Hb1 & Ht & Htl & Hfit & Ho & Hl & Hdp & Hna & Hf & Hz).
    assert (0 <= poffset p) as Hpo by (destruct Hp as (? & _ & ? & _); done).
    destruct (Hk p1 b1 Hb1 Ho Hpo Hfit) as (rest & -> & Hzl). rewrite bind_ret_l. eexists true, _.
    split_and!; [done| |done|done]. intros _. eexists b, _, rest. cbn. rewrite Ht in *.
    split_and!; try done; try lia. intros Hno. rewrite Hzl. auto.
  - destruct Hp as (b & Hb & _). destruct (Hnone eq_refl) as [Hnd Hsame]. exists false, p1.
    split_and!; [done|done| |].
    + intros _. split; [done|]. intros Hna. rewrite (Hsame Hna). by exists b, b.
    + intros Hr. destruct (Hroom n Hr Hneed) as [? ?]. done.
Qed.

(** A single store. *)
Lemma poke_at p b data n :
  buffer p = Live b -> 0 <= n -> n + zlen data <= zlen b ->
  exists rest, poke p n data = Ret (set_buffer (Live (take (Z.to_nat n) b ++ data ++ rest)) p) /\
    zlen (take (Z.to_nat n) b ++ data ++ rest) = zlen b.
Proof.
  intros Hb Hn Hl. eexists. split; [by apply poke_spec|]. autorewrite with zlen. unfold zlen in *. lia.
Qed.

Lemma emit_wrote p needed data adv n :
  pb_ok p -> 0 <= needed -> zlen data <= needed + 1 -> 0 <= adv <= needed -> adv <= zlen data -> needed <= n + 4 ->
  does (fun p' => wrote p p' data adv) p (emit can_alloc have_realloc junk needed data adv p) n.
Proof.
  intros Hp Hn Hd Hadv Hadv2 Hneed. apply (ensure_stores p needed data adv n (fun ptr p => poke p ptr data)); try done.
  intros p1 b Hb Ho Hpo Hfit. apply poke_at; [done|done|lia].
Qed.

Lemma does_impl (Q Q' : printbuffer -> Prop) p m n n' :
  does Q p m n -> (forall p', Q p' -> Q' p') -> n <= n' -> does Q' p m n'.
Proof.
  intros (ok & p' & -> & HQ & Hs & Hr) Hi Hn. exists ok, p'. split_and!; [done|auto|done|].
  intros Hroom. apply Hr. by apply (roomy_mono p n n').
Qed.

Lemma emit_appends p needed r x adv :
  pb_ok p -> adv = zlen r -> zlen r <= needed -> zlen (r ++ x) <= needed + 1 -> needed <= zlen r + 4 ->
  appends p (emit can_alloc have_realloc junk needed (r ++ x) adv p) r.
Proof.
  intros Hp -> H1 H2 H3. pose proof (zlen_nonneg r). pose proof (zlen_nonneg x). rewrite zlen_app in H2.
  eapply does_impl; [apply (emit_wrote p needed (r ++ x) (zlen r) (zlen r)); rewrite ?zlen_app; (done || lia)| |lia].
  intros p' Hw. eapply wrote_prefix; [exact Hw|lia].
Qed.

Lemma emit_terminates p needed r :
  pb_ok p -> zlen r <= needed <= zlen r + 4 ->
  terminates p (emit can_alloc have_realloc junk needed (r ++ [0]) 0 p) r.
Proof.
  intros Hp Hn. pose proof (zlen_nonneg r).
  eapply does_impl; [apply (emit_wrote p needed (r ++ [0]) 0 (zlen r)); rewrite ?zlen_app; change (zlen [0]) with 1; (done || lia)| |lia].
  intros p' Hw. exists 0. split; [lia|done].
Qed.

Lemma set_offset_id p : set_offset (poffset p + 0) p = p.
Proof. destruct p. unfold set_offset. cbn. f_equal. lia. Qed.

Lemma print_text_terminates p s : pb_ok p -> terminates p (print_text can_alloc have_realloc junk s p) s.
Proof.
  intros Hp. pose proof (zlen_nonneg s). pose proof (emit_terminates p (zlen s + 1) s Hp ltac:(lia)) as He.
  unfold emit in He. unfold print_text. destruct (ensure _ _ _ p _) as [[[ptr|] p1]| |]; [|done..].
  rewrite bind_ret_l in *. destruct (poke p1 ptr (s ++ [0])) as [p2| |]; [|done..].
  rewrite bind_ret_l in *. by rewrite set_offset_id in He.
Qed.

(** Two stores side by side are one store. *)
Lemma poke_app p at_ d1 d2 b :
  buffer p = Live b -> 0 <= at_ -> at_ + zlen d1 + zlen d2 <= zlen b ->
  (p1 ← poke p at_ d1; poke p1 (at_ + zlen d1) d2) = poke p at_ (d1 ++ d2).
Proof.
  intros Hb Ha Hl. pose proof (zlen_nonneg d1). pose proof (zlen_nonneg d2).
  rewrite (poke_spec p at_ d1 b), bind_ret_l by (done || lia).
  rewrite (poke_spec p at_ (d1 ++ d2) b) by (rewrite ?zlen_app; done || lia).
  assert (length (take (Z.to_nat at_) b) = Z.to_nat at_) as Ht by (rewrite length_take; unfold zlen in *; lia).
  erewrite poke_spec; [|reflexivity|lia|].
  2: { autorewrite with zlen. unfold zlen in *. lia. }
  unfold set_buffer. cbn. do 3 f_equal.
  replace (Z.to_nat (at_ + zlen d1)) with (Z.to_nat at_ + length d1)%nat by (unfold zlen; lia).
  set (pre := take (Z.to_nat at_) b) in *. rewrite <-!app_assoc, <-Ht.
  rewrite take_app_add, take_app_length, <-app_assoc. do 3 f_equal.
  rewrite <-Nat.add_assoc, drop_app_add, drop_app_add, drop_drop, length_app. f_equal. lia.
Qed.

(** ** Scalars *)

Lemma number_text_ok d : zlen (number_text d) <= 24 /\ no_nul (number_text d).
Proof.
  assert (forall s, Forall (fun c => number_char c = true) s -> no_nul s) as Hn.
  { intros s Hs. eapply Forall_impl; [exact Hs|]. intros c Hc ->. done. }
  unfold number_text. destruct (is_finite d) eqn:Hf; cbn [negb].
  - destruct (laws_text d _ Hf (or_introl eq_refl)) as (H1 & H2 & _).
    destruct (laws_text d _ Hf (or_intror eq_refl)) as (H3 & H4 & _).
    repeat case_match; auto.
  - split; [done|]. by repeat constructor.
Qed.

Lemma print_number_terminates p d :
  pb_ok p -> terminates p (print_number can_alloc have_realloc junk d p) (number_text d).
Proof.
  intros Hp. destruct (number_text_ok d) as [Hlen Hnul]. unfold print_number.
  rewrite (proj2 (Z.ltb_ge _ _)) by lia. set (t := number_text d) in *. pose proof (zlen_nonneg t).
  eapply does_impl; [|intros p' Hw; exists (zlen t); split; [lia|exact Hw]|reflexivity].
  refine (eq_rect _ (fun m => does _ p m _) (ensure_stores p (zlen t) (t ++ [0]) (zlen t) (zlen t)
    (fun ptr p => p ← poke p ptr t; poke p (ptr + zlen t) [0]) Hp _ _ _ _ _ _) _ _);
    rewrite ?zlen_app; change (zlen [0]) with 1; try lia.
  - intros p1 b Hb Ho Hpo Hfit. rewrite (poke_app p1 (poffset p) t [0] b) by (done || change (zlen [0]) with 1; lia).
    apply poke_at; [done|done|]. rewrite zlen_app. change (zlen [0]) with 1. lia.
  - destruct (ensure _ _ _ p _) as [[[ptr|] p1]| |]; [|done..]. rewrite !bind_ret_l.
    destruct (poke p1 ptr t); done.
Qed.

(** The escapes. *)
Lemma escape_length c : zlen (escape c) = 1 + escape_extra c.
Proof.
  unfold escape, escape_extra, escape_tail. 
  destruct (Z.eqb_spec c quote) as [->|?]; [done|]. destruct (Z.eqb_spec c backslash) as [->|?]; [done|].
  destruct (Z.ltb_spec 31 c) as [?|?]; cbn [negb andb orb].
  - rewrite !(proj2 (Z.eqb_neq _ _)) by lia. rewrite (proj2 (Z.ltb_ge _ _)) by lia. done.
  - repeat (destruct (_ =? _); [done|]). by rewrite (proj2 (Z.ltb_lt _ _)) by lia.
Qed.

Lemma escapes_length s : zlen (concat (escape <$> s)) = zlen s + escape_characters s.
Proof.
  induction s as [|c s IH]; [done|]. unfold escape_characters in *. cbn [foldr].
  change (concat (escape <$> c :: s)) with (escape c ++ concat (escape <$> s)).
  rewrite zlen_app, escape_length, zlen_cons, IH. lia.
Qed.

Lemma escape_extra_nonneg c : 0 <= escape_extra c.
Proof. unfold escape_extra. repeat case_match; lia. Qed.

Lemma escape_characters_nonneg s : 0 <= escape_characters s.
Proof. induction s as [|c s IH]; [done|]. unfold escape_characters in *. cbn. pose proof (escape_extra_nonneg c). lia. Qed.

Lemma no_escapes s : escape_characters s = 0 -> concat (escape <$> s) = s.
Proof.
  induction s as [|c s IH]; [done|]. unfold escape_characters. cbn [foldr]. intros Hsum.
  pose proof (escape_extra_nonneg c). pose proof (escape_characters_nonneg s) as Hs. unfold escape_characters in *.
  change (escape c ++ concat (escape <$> s) = c :: s). rewrite IH by lia.
  assert (escape_extra c = 0) as Hc by lia. unfold escape_extra in Hc. unfold escape.
  destruct (c =? quote); [done|]. destruct (c =? backslash); [done|].
  repeat (destruct (c =? _); [done|]). cbn [orb] in Hc. destruct (Z.ltb_spec c 32); [done|].
  by rewrite (proj2 (Z.ltb_lt 31 c)) by lia.
Qed.

(** [sprintf] stores a NUL that the following byte overwrites. *)
Lemma copy_escaped_spec s p ptr b :
  buffer p = Live b -> 0 <= ptr -> ptr + zlen (concat (escape <$> s)) + 1 <= zlen b ->
  exists rest, copy_escaped s p ptr = Ret (set_buffer (Live (take (Z.to_nat ptr) b ++ concat (escape <$> s) ++ rest)) p) /\
    zlen (take (Z.to_nat ptr) b ++ concat (escape <$> s) ++ rest) = zlen b.
Proof.
  revert p ptr b. induction s as [|c s IH]; intros p ptr b Hb Hptr Hfit.
  { exists (drop (Z.to_nat ptr) b). cbn. rewrite take_drop. split; [|done]. destruct p; cbn in *. by subst. }
  change (concat (escape <$> c :: s)) with (escape c ++ concat (escape <$> s)) in *.
  rewrite zlen_app in Hfit. pose proof (zlen_nonneg (concat (escape <$> s))).
  assert (exists r1 p1, copy_escaped (c :: s) p ptr = copy_escaped s p1 (ptr + zlen (escape c)) /\ p1 = set_buffer (Live (take (Z.to_nat ptr) b ++ escape c ++ r1)) p /\
    zlen (take (Z.to_nat ptr) b ++ escape c ++ r1) = zlen b) as (r1 & p1 & -> & -> & Hz1).
  { cbn [copy_escaped]. unfold escape in *. destruct (_ && _).
    - change (zlen [c]) with 1 in *. destruct (poke_at p b [c] ptr Hb) as (r1 & -> & Hz); [done|change (zlen [c]) with 1; lia|].
      rewrite bind_ret_l. eauto.
    - rewrite zlen_cons in *. set (tl := escape_tail c) in *. pose proof (zlen_nonneg tl).
      assert (exists x, (if 1 <? zlen tl then tl ++ [0] else tl) = tl ++ x /\ zlen x <= 1) as (x & -> & Hx).
      { destruct (1 <? zlen tl); [by exists [0]|]. exists []. by rewrite app_nil_r. }
      destruct (poke_at p b (backslash :: tl ++ x) ptr Hb) as (r1 & Hp1 & Hz); [done|rewrite zlen_cons, zlen_app; lia|].
      exists (x ++ r1). eexists. rewrite <-bind_assoc.
      pose proof (poke_app p ptr [backslash] (tl ++ x) b Hb) as Hpa. change (zlen [backslash]) with 1 in Hpa.
      rewrite zlen_app in Hpa. rewrite Hpa by lia.
      cbn [app]. rewrite Hp1, bind_ret_l. rewrite Z.add_assoc. split; [reflexivity|].
      cbn [app] in Hz |- *. rewrite <-app_assoc in Hz |- *. done. }
  assert (length (take (Z.to_nat ptr) b) = Z.to_nat ptr) as Ht.
  { rewrite length_take. pose proof (zlen_nonneg (escape c)). unfold zlen in *. lia. }
  pose proof (zlen_nonneg (escape c)) as Hec.
  edestruct (IH (set_buffer (Live (take (Z.to_nat ptr) b ++ escape c ++ r1)) p) (ptr + zlen (escape c)))
    as (rest & -> & Hz2); [reflexivity|lia|lia|].
  assert (take (Z.to_nat (ptr + zlen (escape c))) (take (Z.to_nat ptr) b ++ escape c ++ r1) = take (Z.to_nat ptr) b ++ escape c) as Htk.
  { rewrite app_assoc. apply take_app_length'. rewrite length_app, Ht. unfold zlen. lia. }
  rewrite Htk in Hz2 |- *. exists rest. rewrite <-!app_assoc in *. split; [done|lia].
Qed.

(** A store right behind the bytes [pre]. *)
Lemma poke_next p pre x data :
  buffer p = Live (pre ++ x) -> zlen data <= zlen x ->
  exists rest, poke p (zlen pre) data = Ret (set_buffer (Live (pre ++ data ++ rest)) p) /\
    zlen rest = zlen x - zlen data.
Proof.
  intros Hb Hl. pose proof (zlen_nonneg pre). destruct (poke_at p (pre ++ x) data (zlen pre) Hb) as (rest & -> & Hz);
    [done|rewrite zlen_app; lia|].
  rewrite zlen_nat, take_app_length in *. exists rest. split; [done|]. rewrite !zlen_app in Hz. lia.
Qed.

(** The body of a string, with or without escapes. *)
Lemma string_body s p pre x :
  buffer p = Live (pre ++ x) -> zlen s + escape_characters s + 1 <= zlen x ->
  exists rest, (if escape_characters s =? 0 then poke p (zlen pre) s else copy_escaped s p (zlen pre)) =
      Ret (set_buffer (Live (pre ++ concat (escape <$> s) ++ rest)) p) /\
    zlen rest = zlen x - (zlen s + escape_characters s).
Proof.
  intros Hb Hl. rewrite <-escapes_length in *. destruct (Z.eqb_spec (escape_characters s) 0) as [He|He].
  - rewrite (no_escapes s He) in *. apply poke_next; [done|lia].
  - destruct (copy_escaped_spec s p (zlen pre) (pre ++ x) Hb (zlen_nonneg pre)) as (rest & -> & Hz); [rewrite zlen_app; lia|].
    rewrite zlen_nat, take_app_length in *. exists rest. split; [done|]. rewrite !zlen_app in Hz. lia.
Qed.

Definition string_stores (s : bytes) (ptr : Z) (p : printbuffer) : outcome printbuffer :=
  p ← poke p ptr [quote];
  p ← (if escape_characters s =? 0 then poke p (ptr + 1) s else copy_escaped s p (ptr + 1));
  p ← poke p (ptr + (zlen s + escape_characters s) + 1) [quote];
  poke p (ptr + (zlen s + escape_characters s) + 2) [0].

Lemma string_stores_spec s p pre x :
  buffer p = Live (pre ++ x) -> zlen s + escape_characters s + 3 <= zlen x ->
  exists rest, string_stores s (zlen pre) p =
      Ret (set_buffer (Live (pre ++ (quote :: concat (escape <$> s) ++ [quote; 0]) ++ rest)) p) /\
    zlen rest = zlen x - (zlen s + escape_characters s + 3).
Proof.
  intros Hb Hl. pose proof (escape_characters_nonneg s) as Hen. pose proof (zlen_nonneg s). unfold string_stores.
  destruct (poke_next p pre x [quote] Hb) as (r1 & -> & Hz1); [change (zlen [quote]) with 1; lia|].
  rewrite bind_ret_l. change (zlen [quote]) with 1 in *. set (E := concat (escape <$> s)).
  set (p1 := set_buffer _ _).
  assert (zlen pre + 1 = zlen (pre ++ [quote])) as -> by (rewrite zlen_app; done).
  destruct (string_body s p1 (pre ++ [quote]) r1) as (r2 & -> & Hz2); [by unfold p1; cbn; rewrite <-app_assoc|lia|].
  rewrite bind_ret_l. set (p2 := set_buffer _ _). fold E in p2.
  assert (zlen E = zlen s + escape_characters s) as HE by apply escapes_length.
  assert (zlen pre + (zlen s + escape_characters s) + 1 = zlen ((pre ++ [quote]) ++ E)) as ->.
  { rewrite !zlen_app. change (zlen [quote]) with 1. lia. }
  destruct (poke_next p2 ((pre ++ [quote]) ++ E) r2 [quote]) as (r3 & -> & Hz3); [by unfold p2; cbn; rewrite <-!app_assoc|change (zlen [quote]) with 1; lia|].
  rewrite bind_ret_l. set (p3 := set_buffer _ _). change (zlen [quote]) with 1 in *.
  assert (zlen pre + (zlen s + escape_characters s) + 2 = zlen (((pre ++ [quote]) ++ E) ++ [quote])) as ->.
  { rewrite !zlen_app. change (zlen [quote]) with 1. lia. }
  destruct (poke_next p3 (((pre ++ [quote]) ++ E) ++ [quote]) r3 [0]) as (r4 & -> & Hz4); [by unfold p3; cbn; rewrite <-!app_assoc|change (zlen [0]) with 1; lia|].
  exists r4. change (zlen [0]) with 1 in *. split; [|lia]. unfold p3, p2, p1, set_buffer. cbn. do 3 f_equal. by rewrite <-!app_assoc.
Qed.

Lemma print_string_ptr_none_terminates p :
  pb_ok p -> terminates p (print_string_ptr can_alloc have_realloc junk None p) (render_string None).
Proof.
  intros Hp. pose proof (emit_terminates p 3 [quote; quote] Hp ltac:(done)) as He.
  unfold emit in He. unfold print_string_ptr. destruct (ensure _ _ _ p _) as [[[ptr|] p1]| |]; [|done..].
  rewrite bind_ret_l in *. cbn [app] in He. destruct (poke p1 ptr _) as [p2| |]; [|done..].
  rewrite bind_ret_l in *. by rewrite set_offset_id in He.
Qed.

Lemma print_string_ptr_terminates p s :
  pb_ok p -> terminates p (print_string_ptr can_alloc have_realloc junk s p) (render_string s).
Proof.
  intros Hp. destruct s as [s0|]; [|by apply print_string_ptr_none_terminates].
  unfold print_string_ptr, render_string. change (cstr (default [] (Some s0))) with (cstr s0). set (s := cstr s0).
  pose proof (escape_characters_nonneg s) as Hen. pose proof (zlen_nonneg s).
  assert (zlen (quote :: concat (escape <$> s) ++ [quote]) = zlen s + escape_characters s + 2) as Hr.
  { rewrite zlen_cons, zlen_app, escapes_length. change (zlen [quote]) with 1. lia. }
  eapply does_impl; [|intros p' Hw; exists 0; split; [lia|exact Hw]|reflexivity]. rewrite Hr.
  set (r := quote :: _) in *.
  refine (eq_rect _ (fun m => does _ p m _) (ensure_stores p (zlen s + escape_characters s + 3) (r ++ [0]) 0
    (zlen s + escape_characters s + 2)
    (string_stores s) Hp _ _ _ _ _ _) _ _); rewrite ?zlen_app, ?Hr; change (zlen [0]) with 1; try lia.
  - intros p1 b Hb Ho Hpo Hfit. set (pre := take (Z.to_nat (poffset p)) b).
    assert (zlen pre = poffset p) as Hpre by (unfold pre; rewrite zlen_take; lia).
    rewrite <-(take_drop (Z.to_nat (poffset p)) b) in Hb. fold pre in Hb.
    destruct (string_stores_spec s p1 pre _ Hb) as (rest & Hst & Hz); [rewrite zlen_drop; lia|].
    rewrite Hpre in Hst. exists rest. rewrite zlen_drop in Hz. split; [rewrite Hst; unfold r; cbn [app]; by rewrite <-!app_assoc|].
    rewrite !zlen_app, Hpre, Hr, Hz. change (zlen [0]) with 1. lia.
  - destruct (ensure _ _ _ p _) as [[[ptr|] p1]| |]; [|done..]. rewrite !bind_ret_l. unfold string_stores. rewrite !bind_assoc.
    destruct (poke p1 ptr [quote]) as [p2| |]; [|done..]. rewrite !bind_ret_l, !bind_assoc.
    destruct (if escape_characters s =? 0 then _ else _) as [p3| |]; [|done..]. rewrite !bind_ret_l, !bind_assoc.
    destruct (poke p3 _ [quote]) as [p4| |]; [|done..]. rewrite !bind_ret_l.
    destruct (poke p4 _ [0]) as [p5| |]; [|done..]. rewrite !bind_ret_l. by rewrite set_offset_id.
Qed.

(** ** Containers *)

(** Inside a container the buffer has a length. *)
Definition ready (p : printbuffer) : Prop :=
  exists b, buffer p = Live b /\ 0 <= poffset p < plength p /\ plength p = zlen b.

Lemma ready_ok p : ready p -> pb_ok p.
Proof. intros (b & Hb & Ho & Hl). exists b. split_and!; [done|lia|left; lia]. Qed.

Lemma wrote_ready p p' r k : wrote p p' r k -> ready p'.
Proof. intros (b & b' & rest & _ & Hb' & _ & _ & Ho & Hk & Ho' & Hlt & Hl & _). exists b'. split_and!; [done|lia|lia|done]. Qed.

Lemma wrote_same p p' r k : wrote p p' r k -> pdepth p' = pdepth p /\ format p' = format p.
Proof. intros (b & b' & rest & Hrest). split; apply Hrest. Qed.

Lemma appends_nil p : ready p -> appends p (Ret (true, p)) [].
Proof.
  intros (b & Hb & Ho & Hl). exists true, p. split_and!; [done| |done|done]. intros _.
  exists b, b, (drop (Z.to_nat (poffset p)) b). change (zlen []) with 0.
  split_and!; try done; try lia; [by rewrite app_nil_l, take_drop|]. rewrite length_take. unfold zlen in *. lia.
Qed.

(** A container prints its elements one level deeper. *)
Lemma nest_terminates p m r :
  terminates (set_depth (pdepth p + 1) p) m r ->
  terminates p (andthen m (fun p => Ret (true, set_depth (pdepth p - 1) p))) r.
Proof.
  intros (ok & p' & -> & HQ & Hs & Hr). unfold andthen. rewrite bind_ret_l. destruct ok.
  - eexists true, _. split_and!; [done| |done|done]. intros _. destruct (HQ eq_refl) as (k & Hk & Hw).
    exists k. split; [done|]. pose proof (wrote_same _ _ _ _ Hw) as [Hd _]. cbn in Hd.
    apply (wrote_depth _ _ _ _ (pdepth p)) in Hw. replace (pdepth p' - 1) with (pdepth p) by lia.
    replace (set_depth (pdepth p) (set_depth (pdepth p + 1) p)) with p in Hw by by destruct p. done.
  - eexists false, _. split_and!; [done|done|exact Hs|exact Hr].
Qed.

(** What the printer of the elements must do, at one depth. *)
Definition printer_at (fmt : bool) (d : Z) (pr : printbuffer -> outcome (bool * printbuffer)) (r : bytes) : Prop :=
  no_nul r /\ forall p, pb_ok p -> format p = fmt -> pdepth p = d -> terminates p (pr p) r.

Section Elements.
Context (fmt : bool) (d : Z) (pr : cJSON -> printbuffer -> outcome (bool * printbuffer)) (rd : cJSON -> bytes).

Lemma array_elements_appends l :
  Forall (fun e => printer_at fmt d (pr e) (rd e)) l ->
  forall p, ready p -> format p = fmt -> pdepth p = d ->
  appends p (array_elements can_alloc have_realloc junk pr l p) (render_elements fmt rd l).
Proof.
  induction 1 as [|e l [Hnul He] Hl IH]; intros p Hp Hf Hd; [by apply appends_nil|].
  cbn [array_elements render_elements].
  apply andthen_update; [by apply He; [apply ready_ok|..]|done|]. intros p1 Hw1.
  pose proof (wrote_same _ _ _ _ Hw1) as [Hd1 Hf1]. pose proof (wrote_ready _ _ _ _ Hw1) as Hp1.
  apply andthen_appends.
  - destruct l as [|e2 l]; [by apply appends_nil|]. rewrite Hf1, Hf. unfold opt.
    destruct fmt; [apply (emit_appends p1 3 [comma; 32] [0])|apply (emit_appends p1 2 [comma] [0])]; (done || by apply ready_ok).
  - intros p2 Hw2. pose proof (wrote_same _ _ _ _ Hw2) as [Hd2 Hf2]. apply IH; [by eapply wrote_ready|congruence|congruence].
Qed.

Lemma zlen_tabs n : 0 <= n -> zlen (tabs n) = n.
Proof. intros. unfold tabs. rewrite zlen_replicate. lia. Qed.

Lemma object_elements_appends l :
  0 <= d -> Forall (fun e => no_nul (render_string (string e)) /\ printer_at fmt d (pr e) (rd e)) l ->
  forall p, ready p -> format p = fmt -> pdepth p = d ->
  appends p (object_elements can_alloc have_realloc junk pr l p) (render_members fmt rd d l).
Proof.
  intros Hd0. induction 1 as [|e l (Hnk & Hnul & He) Hl IH]; intros p Hp Hf Hd; [by apply appends_nil|].
  cbn [object_elements render_members]. apply andthen_appends.
  { rewrite Hf. unfold opt. destruct fmt; [|by apply appends_nil]. rewrite Hd. pose proof (zlen_tabs d Hd0).
    rewrite <-(app_nil_r (tabs d)) at 1. apply emit_appends; rewrite ?app_nil_r; (lia || by apply ready_ok). }
  intros p1 Hw1. pose proof (wrote_same _ _ _ _ Hw1) as [Hd1 Hf1]. apply andthen_update; [apply print_string_ptr_terminates; by eapply wrote_ok|done|].
  intros p2 Hw2. pose proof (wrote_same _ _ _ _ Hw2) as [Hd2 Hf2]. pose proof (wrote_ok _ _ _ _ Hw2) as Hp2. apply andthen_appends.
  { rewrite Hf2, Hf1, Hf. unfold opt.
    destruct fmt; [apply (emit_appends p2 2 [colon; 9] [])|apply (emit_appends p2 1 [colon] [])]; done. }
  intros p3 Hw3. pose proof (wrote_same _ _ _ _ Hw3) as [Hd3 Hf3]. pose proof (wrote_ok _ _ _ _ Hw3) as Hp3.
  apply andthen_update; [apply He; [done|congruence|congruence]|done|].
  intros p4 Hw4. pose proof (wrote_same _ _ _ _ Hw4) as [Hd4 Hf4]. pose proof (wrote_ok _ _ _ _ Hw4) as Hp4. apply andthen_appends.
  { rewrite Hf4, Hf3, Hf2, Hf1, Hf. unfold opt. rewrite app_assoc. destruct fmt, l;
      [apply (emit_appends p4 2 [10] [0])|apply (emit_appends p4 3 [comma; 10] [0])
      |apply (emit_appends p4 1 [] [0])|apply (emit_appends p4 2 [comma] [0])]; done. }
  intros p5 Hw5. pose proof (wrote_same _ _ _ _ Hw5) as [Hd5 Hf5]. apply IH; [by eapply wrote_ready|congruence|congruence].
Qed.
End Elements.

(** The three parts of a container: the opening, the elements one level deeper, the end. *)
Lemma container_terminates p open elems close r1 r2 r3 :
  appends p open r1 ->
  (forall p1, wrote p p1 r1 (zlen r1) ->
    appends (set_depth (pdepth p1 + 1) p1) (elems (set_depth (pdepth p1 + 1) p1)) r2) ->
  (forall p2, pb_ok p2 -> pdepth p2 = pdepth p + 1 -> format p2 = format p -> terminates p2 (close p2) r3) ->
  terminates p (let? p := open in let? p := elems (set_depth (pdepth p + 1) p) in
    let? p := close p in Ret (true, set_depth (pdepth p - 1) p)) (r1 ++ r2 ++ r3).
Proof.
  intros Ho He Hc. apply andthen_terminates; [done|]. intros p1 Hw1. pose proof (wrote_same _ _ _ _ Hw1) as [Hd1 Hf1].
  rewrite <-andthen_assoc. apply nest_terminates. apply andthen_terminates; [by apply He|].
  intros p2 Hw2. pose proof (wrote_same _ _ _ _ Hw2) as [Hd2 Hf2]. cbn in Hd2, Hf2.
  apply Hc; [by eapply wrote_ok|congruence|congruence].
Qed.

Lemma wrote_nested p p1 r k dd : wrote p p1 r k -> ready (set_depth dd p1).
Proof. intros Hw. destruct (wrote_ready _ _ _ _ Hw) as (b & Hb). by exists b. Qed.

Lemma print_array_terminates fmt d pr rd l p :
  Forall (fun e => printer_at fmt (d + 1) (pr e) (rd e)) l ->
  pb_ok p -> format p = fmt -> pdepth p = d ->
  terminates p (print_array can_alloc have_realloc junk pr l p) ([lbracket] ++ render_elements fmt rd l ++ [rbracket]).
Proof.
  intros Hl Hp Hf Hd. unfold print_array. apply container_terminates.
  - by apply (emit_appends p 1 [lbracket] []).
  - intros p1 Hw. pose proof (wrote_same _ _ _ _ Hw) as [Hd1 Hf1].
    apply (array_elements_appends fmt (d + 1)); [done|by eapply wrote_nested|cbn; congruence|cbn; congruence].
  - intros p2 Hp2 _ _. by apply (emit_terminates p2 2 [rbracket]).
Qed.

Lemma print_object_terminates fmt d pr rd l p :
  0 <= d -> Forall (fun e => no_nul (render_string (string e)) /\ printer_at fmt (d + 1) (pr e) (rd e)) l ->
  pb_ok p -> format p = fmt -> pdepth p = d ->
  terminates p (print_object can_alloc have_realloc junk pr l p)
    ((lbrace :: opt fmt [10]) ++ render_members fmt rd (d + 1) l ++ opt fmt (tabs d) ++ [rbrace]).
Proof.
  intros Hd0 Hl Hp Hf Hd. unfold print_object. apply container_terminates.
  - rewrite Hf. destruct fmt; [apply (emit_appends p 3 [lbrace; 10] [])|apply (emit_appends p 2 [lbrace] [])]; done.
  - intros p1 Hw. pose proof (wrote_same _ _ _ _ Hw) as [Hd1 Hf1].
    apply (object_elements_appends fmt (d + 1)); [lia|done|by eapply wrote_nested|cbn; congruence|cbn; congruence].
  - intros p2 Hp2 Hd2 Hf2. rewrite Hf2, Hf, Hd2, Hd. unfold opt. replace (d + 1 - 1) with d by lia. destruct fmt.
    + change (tabs d ++ [rbrace; 0]) with (tabs d ++ [rbrace] ++ [0]). rewrite app_assoc.
      apply emit_terminates; [done|]. rewrite zlen_app, zlen_tabs by done. change (zlen [rbrace]) with 1. lia.
    + by apply (emit_terminates p2 2 [rbrace]).
Qed.

(** ** No NUL in the text *)

Lemma byte_string_cons c s : byte_string (Some (c :: s)) = true -> 0 <= c /\ byte_string (Some s) = true.
Proof. cbn. intros [[Hc _]%andb_true_iff Hs]%andb_true_iff. split; [by apply Z.leb_le|done]. Qed.

Lemma render_string_no_nul s : byte_string s = true -> no_nul (render_string s).
Proof.
  intros Hs. constructor; [done|]. apply no_nul_app. split; [|by repeat constructor].
  assert (exists l, default [] s = l /\ byte_string (Some l) = true) as (l & -> & Hl) by (destruct s; eauto).
  clear Hs. induction l as [|c l IH]; [constructor|]. apply byte_string_cons in Hl as [Hc Hl]. cbn [cstr].
  destruct (Z.eqb_spec c 0) as [?|Hne]; [constructor|].
  change (no_nul (escape c ++ concat (escape <$> cstr l))). apply no_nul_app. split; [by apply escape_no_nul|auto].
Qed.

Lemma opt_no_nul fmt s : no_nul s -> no_nul (opt fmt s).
Proof. intros. destruct fmt; [done|constructor]. Qed.

Lemma tabs_no_nul n : no_nul (tabs n).
Proof. unfold tabs. by apply Forall_replicate. Qed.

Lemma render_elements_no_nul fmt rd l : Forall (fun e => no_nul (rd e)) l -> no_nul (render_elements fmt rd l).
Proof.
  induction 1 as [|e l He Hl IH]; [constructor|]. cbn [render_elements]. rewrite !no_nul_app. split_and!; [done| |done].
  destruct l; [constructor|]. constructor; [done|]. apply opt_no_nul. by repeat constructor.
Qed.

Lemma render_members_no_nul fmt rd d l :
  Forall (fun e => no_nul (render_string (string e)) /\ no_nul (rd e)) l -> no_nul (render_members fmt rd d l).
Proof.
  induction 1 as [|e l [Hk He] Hl IH]; [constructor|]. cbn [render_members]. rewrite !no_nul_app. split_and!; try done.
  - apply opt_no_nul, tabs_no_nul.
  - constructor; [done|]. apply opt_no_nul. by repeat constructor.
  - destruct l; by repeat constructor.
  - apply opt_no_nul. by repeat constructor.
Qed.

(** ** Values *)

Lemma printer_at_intro fmt d pr r :
  no_nul r -> (forall p, pb_ok p -> format p = fmt -> pdepth p = d -> terminates p (pr p) r) -> printer_at fmt d pr r.
Proof. done. Qed.

Lemma print_value_terminates item : forall fmt d,
  0 <= d -> renderable item = true ->
  printer_at fmt d (print_value can_alloc have_realloc junk item) (render fmt d item).
Proof.
  induction item as [ty vs vi vd st ch IH] using cJSON_ind'. intros fmt d Hd Hr.
  cbn [renderable] in Hr. apply andb_true_iff in Hr as [[Hvs Hst]%andb_true_iff Hr].
  assert (forallb renderable ch = true ->
    Forall (fun e => no_nul (render_string (string e)) /\
      printer_at fmt (d + 1) (print_value can_alloc have_realloc junk e) (render fmt (d + 1) e)) ch) as Hch.
  { intros Hall. apply Forall_forall. intros e He. rewrite Forall_forall in IH.
    assert (renderable e = true) as Hre. { rewrite forallb_forall in Hall. by apply Hall, list_elem_of_In. }
    split; [|apply IH; [done|lia|done]]. apply render_string_no_nul. destruct e.
    cbn [renderable] in Hre. by apply andb_true_iff in Hre as [[_ ?]%andb_true_iff _]. }
  cbn [print_value render]. set (t := Z.land ty 255) in *.
  destruct (Z.eqb_spec t cJSON_NULL); [by split; [repeat constructor|intros; apply print_text_terminates]|].
  destruct (Z.eqb_spec t cJSON_False); [by split; [repeat constructor|intros; apply print_text_terminates]|].
  destruct (Z.eqb_spec t cJSON_True); [by split; [repeat constructor|intros; apply print_text_terminates]|].
  destruct (Z.eqb_spec t cJSON_Number); [by split; [apply number_text_ok|intros; apply print_number_terminates]|].
  destruct (Z.eqb_spec t cJSON_Raw) as [e|?].
  { split; [apply cstr_no_nul|]. intros p Hp _ _. unfold print_raw. destruct vs as [s|]; [by apply print_text_terminates|].
    by rewrite e in Hr. }
  destruct (Z.eqb_spec t cJSON_String); [by split; [apply render_string_no_nul|intros; apply print_string_ptr_terminates]|].
  destruct (Z.eqb_spec t cJSON_Array) as [Ha|Ha].
  { specialize (Hch Hr). split.
    - rewrite !no_nul_app. split_and!; [by repeat constructor| |by repeat constructor].
      apply render_elements_no_nul. eapply Forall_impl; [exact Hch|]. by intros e (_ & ? & _).
    - intros p Hp Hf Hdp. apply (print_array_terminates fmt d); try done. eapply Forall_impl; [exact Hch|]. by intros e [_ ?]. }
  destruct (Z.eqb_spec t cJSON_Object) as [Ho|Ho]; [|by destruct (t =? cJSON_Raw)].
  specialize (Hch Hr). split.
  - rewrite !no_nul_app. split_and!.
    + constructor; [done|]. apply opt_no_nul. by repeat constructor.
    + apply render_members_no_nul. eapply Forall_impl; [exact Hch|]. by intros e (? & ? & _).
    + apply opt_no_nul, tabs_no_nul.
    + by repeat constructor.
  - intros p Hp Hf Hdp. by apply (print_object_terminates fmt d).
Qed.

(** ** The entry points *)

(** A buffer at offset 0 that was printed to starts with the text. *)
Lemma wrote_start p p' r k :
  wrote p p' r k -> poffset p = 0 ->
  exists b' rest, buffer p' = Live b' /\ b' = r ++ rest /\ plength p' = zlen b' /\ poffset p' = k /\ 0 <= k <= zlen r.
Proof.
  intros (b & b' & rest & Hb & Hb' & Eb & _ & _ & Hk & Ho & _ & Hl & _) Hp. rewrite Hp in Eb. cbn in Eb.
  exists b', rest. split_and!; try done; lia.
Qed.

(** The block that [print] returns in the end. *)
Lemma print_shrinks b text rest :
  b = text ++ 0 :: rest ->
  exists r,
    (if have_realloc then if can_alloc (zlen b) then Ret (Some (resize junk b (zlen b))) else Ret None
     else if can_alloc (zlen text + 1) then
       kept ← mem_read b 0 (Z.min (zlen b) (zlen text + 1));
       printed ← mem_set (resize junk kept (zlen text + 1)) (zlen text) 0;
       Ret (Some printed)
     else Ret None) = Ret r /\
    (forall out, r = Some out -> exists rest, out = text ++ 0 :: rest) /\
    ((forall size, can_alloc size = true) -> is_Some r).
Proof.
  intros Eb. pose proof (zlen_nonneg text). pose proof (zlen_nonneg rest).
  assert (zlen b = zlen text + 1 + zlen rest) as Hzb by (rewrite Eb, zlen_app, zlen_cons; lia).
  assert (Hno : forall n, can_alloc n = false -> (forall size, can_alloc size = true) -> is_Some (@None bytes)).
  { intros n Hn Hc. by rewrite Hc in Hn. }
  destruct have_realloc.
  { destruct (can_alloc (zlen b)) eqn:Hca; eexists; (split_and!; [done| |eauto]); [|done].
    intros out [= <-]. exists rest. unfold resize. rewrite zlen_nat, Nat.sub_diag, firstn_all. cbn. by rewrite app_nil_r. }
  destruct (can_alloc (zlen text + 1)) eqn:Hca; [|exists None; (split_and!; [done|done|eauto])].
  rewrite mem_read_ok, bind_ret_l by lia.
  assert (resize junk (take (Z.to_nat (Z.min (zlen b) (zlen text + 1))) (drop (Z.to_nat 0) b)) (zlen text + 1) = text ++ [0]) as ->.
  { change (drop (Z.to_nat 0) b) with b. rewrite Z.min_r by lia.
    rewrite Eb. replace (Z.to_nat (zlen text + 1)) with (length text + 1)%nat by (unfold zlen; lia).
    rewrite take_app_add. cbn [take]. rewrite take_0. unfold resize.
    replace (Z.to_nat (zlen text + 1)) with (length (text ++ [0])) by (rewrite length_app; unfold zlen; cbn; lia).
    rewrite firstn_all, Nat.sub_diag. apply app_nil_r. }
  rewrite mem_set_ok, bind_ret_l by (rewrite zlen_app; change (zlen [0]) with 1; lia). eexists. split_and!; [done| |by eexists].
  intros out [= <-]. exists []. rewrite zlen_nat, insert_app_r_alt, Nat.sub_diag by lia. done.
Qed.

Lemma print_spec item fmt :
  renderable item = true ->
  exists r, print can_alloc have_realloc junk item fmt = Ret r /\
    (forall out, r = Some out -> exists rest, out = render fmt 0 item ++ 0 :: rest) /\
    ((forall size, can_alloc size = true) -> zlen (render fmt 0 item) + 8 <= INT_MAX -> is_Some r).
Proof.
  intros Hr. destruct (print_value_terminates item fmt 0 ltac:(lia) Hr) as [Hnul Hprint].
  set (text := render fmt 0 item) in *. unfold print.
  destruct (can_alloc 256) eqn:H256; cbn [negb].
  2: { exists None. split_and!; [done|done|]. intros Hc. congruence. }
  set (p0 := mk_pb _ _ _ _ _ _).
  assert (pb_ok p0) as Hp0. { eexists. split_and!; [done|done|]. right. split_and!; [done|done|]. by do 2 right. }
  destruct (Hprint p0 Hp0 eq_refl eq_refl) as (ok & p1 & -> & HQ & Hs & Hroom). rewrite bind_ret_l.
  destruct ok; cbn [negb].
  - destruct (HQ eq_refl) as (k & Hk & Hw).
    destruct (update_offset_spec p0 p1 text k Hw Hk Hnul) as (p2 & Hu & Hw2). rewrite Hu, bind_ret_l.
    assert (buffer p2 = buffer p1) as Hsame.
    { unfold update_offset in Hu. destruct (buffer p1) as [|b1|] eqn:Eb; [congruence| |done].
      destruct (strlen _); [|done..]. rewrite bind_ret_l in Hu. injection Hu as <-. done. }
    destruct (wrote_start _ _ _ _ Hw eq_refl) as (b1 & rest & Hb1 & Eb1 & _).
    destruct (wrote_start _ _ _ _ Hw2 eq_refl) as (b2 & rest2 & Hb2 & _ & Hl2 & Ho2 & _).
    assert (b2 = b1) as -> by congruence. rewrite Hb2, Hl2, Ho2. rewrite <-app_assoc in Eb1. cbn [app] in Eb1.
    destruct (print_shrinks b1 text rest Eb1) as (r & -> & Ht & Hsome). exists r. auto.
  - destruct (Hs eq_refl) as [Hnd _]. exists None. destruct (buffer p1); [..|done]; (split_and!; [done|done|]);
      intros Hc Hmax; (assert (false = true) by (apply Hroom; split; [cbn; lia|left; done])); done.
Qed.

(** C29: For a tree of known node types, [cJSON_Print] and [cJSON_PrintUnformatted] never touch
    memory outside their buffers; what they return starts with the text of the tree and its NUL,
    and they return it when no allocation fails and the text is shorter than [INT_MAX - 8]. *)
Theorem print_renders item fmt :
  renderable item = true ->
  exists r, print can_alloc have_realloc junk item fmt = Ret r /\
    (forall out, r = Some out -> exists rest, out = render fmt 0 item ++ 0 :: rest) /\
    ((forall size, can_alloc size = true) -> zlen (render fmt 0 item) + 8 <= INT_MAX -> is_Some r).
Proof. apply print_spec. Qed.

(** C30: [cJSON_PrintPreallocated] never writes outside the buffer of the caller, whatever its
    size; when it returns true the buffer holds the text of the tree with its NUL, and it
    returns true when the buffer has 5 bytes more than the text, as the header promises. *)
Theorem cJSON_PrintPreallocated_bounded item buf fmt :
  renderable item = true ->
  exists ok out, cJSON_PrintPreallocated can_alloc have_realloc junk item buf fmt = Ret (ok, out) /\ zlen out = zlen buf /\
    (ok = true -> exists rest, out = render fmt 0 item ++ 0 :: rest) /\
    (zlen (render fmt 0 item) + 5 <= zlen buf -> zlen (render fmt 0 item) + 8 <= INT_MAX -> ok = true).
Proof.
  intros Hr. destruct (print_value_terminates item fmt 0 ltac:(lia) Hr) as [Hnul Hprint].
  set (text := render fmt 0 item) in *. unfold cJSON_PrintPreallocated. set (p0 := mk_pb _ _ _ _ _ _).
  pose proof (zlen_nonneg buf).
  assert (pb_ok p0) as Hp0.
  { exists buf. split_and!; [done|done|]. destruct (decide (zlen buf = 0)); [right|left]; cbn; [auto|lia]. }
  destruct (Hprint p0 Hp0 eq_refl eq_refl) as (ok & p1 & -> & HQ & Hs & Hroom). rewrite bind_ret_l.
  assert (zlen text + 5 <= zlen buf -> zlen text + 8 <= INT_MAX -> ok = true) as Hok.
  { intros H5 H8. apply Hroom. split; [cbn; lia|right; cbn; split_and!; [done|done|lia]]. }
  destruct ok.
  - destruct (HQ eq_refl) as (k & Hk & Hw). destruct (wrote_start _ _ _ _ Hw eq_refl) as (b1 & rest & Hb1 & Eb1 & _).
    rewrite Hb1. eexists _, _. split_and!; [done| | |done].
    + destruct Hw as (b & b' & r & Hb & Hb' & _ & _ & _ & _ & _ & _ & _ & _ & _ & _ & Hz).
      injection Hb as <-. assert (b' = b1) as -> by congruence. by apply Hz.
    + intros _. exists rest. by rewrite Eb1, <-app_assoc.
  - destruct (Hs eq_refl) as [_ (b & b' & Hb & -> & Hz)]; [done|]. injection Hb as <-. by eexists _, _.
Qed.
End Spec.

Definition sample : @cJSON int_double :=
  Item cJSON_Object None 0 0 None
    [Item cJSON_Number None 42 42 (Some [97]) [];
     Item cJSON_Array None 0 0 (Some [98; 10]) [Item cJSON_String (Some [104; 34]) 0 0 None []; Item cJSON_True None 1 0 None []]].

Lemma print_renders_witness :
  renderable sample = true /\ exists out rest,
    print (fun _ => true) false 7 sample true = Ret (Some out) /\ out = render true 0 sample ++ 0 :: rest.
Proof.
  split; [reflexivity|].
  destruct (print_renders (fun _ => true) false 7 sample true eq_refl) as (r & Hr & Ht & Hs).
  destruct Hs as [out ->]; [reflexivity|vm_compute; discriminate|]. destruct (Ht out eq_refl) as [rest Hrest].
  exists out, rest. split; assumption.
Defined.

Lemma cJSON_PrintPreallocated_bounded_witness :
  renderable sample = true /\ exists out,
    cJSON_PrintPreallocated (fun _ => false) false 7 sample (replicate 64 1) false = Ret (true, out) /\ zlen out = 64.
Proof.
  split; [reflexivity|].
  destruct (cJSON_PrintPreallocated_bounded (fun _ => false) false 7 sample (replicate 64 1) false eq_refl)
    as (ok & out & Hr & Hz & Ht & Hs).
  exists out. rewrite Hr, Hz. split; [|reflexivity]. rewrite Hs; [reflexivity|vm_compute; discriminate..].
Defined.

(** ** Where the code fails *)

(** A raw node without text: [print_value] frees the buffer and [print] frees it again. *)
Theorem raw_null_double_free `{CDouble} can_alloc have_realloc junk fmt vi vd st :
  can_alloc 256 = true ->
  print can_alloc have_realloc junk (Item cJSON_Raw None vi vd st []) fmt = Undef.
Proof. intros Ha. unfold print. by rewrite Ha. Qed.

(** Without [realloc], the first growth of an empty buffer copies a byte that is not there. *)
Theorem print_buffered_empty_overread `{CDouble} can_alloc junk fmt st :
  (forall size, can_alloc size = true) ->
  cJSON_PrintBuffered can_alloc false junk (Item cJSON_NULL None 0 dzero st []) 0 fmt = Undef.
Proof. intros Ha. unfold cJSON_PrintBuffered. rewrite Ha. cbn -[print_text]. unfold print_text, ensure. cbn. by rewrite Ha. Qed.
