(* ===== verification/JsonRoundTrip.v ===== *)
(** What the printer of src/json/cJSON.c writes is read back by its parser as the same tree. *)

From S2P Require Import Prelude Json JsonSafe JsonNum JsonPrint JsonRender.

(** ** Trees that the parser builds *)

Definition text (s : bytes) : Prop := Forall (fun c => 1 <= c < 256) s.

Section Canonical.
Context `{CDouble}.

(** Every field that a node does not use has the value of a new item. *)
#[local] Set Warnings "-register-all".
Inductive canonical : cJSON -> Prop :=
| canonical_null st : canonical (Item cJSON_NULL None 0 dzero st [])
| canonical_false st : canonical (Item cJSON_False None 0 dzero st [])
| canonical_true st : canonical (Item cJSON_True None 1 dzero st [])
| canonical_number d st : is_finite d = true -> canonical (Item cJSON_Number None (int_of_double d) d st [])
| canonical_string s st : text s -> canonical (Item cJSON_String (Some s) 0 dzero st [])
| canonical_array st l :
    Forall (fun e => string e = None /\ canonical e) l -> canonical (Item cJSON_Array None 0 dzero st l)
| canonical_object st l :
    Forall (fun e => (exists k, string e = Some k /\ text k) /\ canonical e) l ->
    canonical (Item cJSON_Object None 0 dzero st l).

(** The depth of the containers. *)
Fixpoint nesting (item : cJSON) : Z :=
  match item with
  | Item ty _ _ _ _ ch =>
      if (ty =? cJSON_Array) || (ty =? cJSON_Object) then 1 + foldr (fun e n => Z.max (nesting e) n) 0 ch else 0
  end.

Lemma nesting_child ch e : e ∈ ch -> nesting e <= foldr (fun e n => Z.max (nesting e) n) 0 ch.
Proof.
  induction 1 as [e l|e e' l He IH]; cbn; [apply Z.le_max_l|]. etrans; [exact IH|apply Z.le_max_r].
Qed.
End Canonical.

(** ** Escapes are read back *)

Lemma hex_digit_char n : 0 <= n < 16 -> hex_digit (hex_char n) = Some n.
Proof.
  intros Hn. refine (_ (zrange_forall 16 (fun n => bool_decide (hex_digit (hex_char n) = Some n)) eq_refl n Hn)).
  apply bool_decide_eq_true.
Qed.

Lemma hex_loop_step n input i h (k : nat) c d :
  i = Z.of_nat k -> input !! k = Some c -> hex_digit c = Some d ->
  hex_loop (S n) input i h = hex_loop n input (i + 1) (if (n =? 0)%nat then h + d else (h + d) ≪ 4).
Proof. intros -> Hc Hd. cbn [hex_loop]. by rewrite (mem_get_nat _ _ _ Hc), bind_ret_l, Hd. Qed.

Lemma parse_hex4_escape c tl :
  0 <= c < 256 ->
  parse_hex4 (backslash :: 117 :: 48 :: 48 :: hex_char (c ≫ 4) :: hex_char (Z.land c 15) :: tl) 2 = Ret c.
Proof.
  intros Hc. unfold parse_hex4. rewrite Z.shiftr_div_pow2 by lia.
  change (Z.land c 15) with (Z.land c (2 ^ 4 - 1)). rewrite land_mask by lia.
  erewrite (hex_loop_step 3 _ _ _ 2); [|done..]. erewrite (hex_loop_step 2 _ _ _ 3); [|done..].
  erewrite (hex_loop_step 1 _ _ _ 4); [|done|done|apply hex_digit_char; dlia].
  erewrite (hex_loop_step 0 _ _ _ 5); [|done|done|apply hex_digit_char; dlia].
  cbn [Nat.eqb hex_loop]. rewrite !Z.shiftl_mul_pow2 by lia. f_equal. dlia.
Qed.

(** The three forms of an escape. *)
Inductive escaped (c : Z) : bytes -> Prop :=
| escaped_plain : c <> quote -> c <> backslash -> escaped c [c]
| escaped_simple e : simple_escape e = Some c -> escaped c [backslash; e]
| escaped_hex : c < 32 -> escaped c [backslash; 117; 48; 48; hex_char (c ≫ 4); hex_char (Z.land c 15)].

Lemma escape_escaped c : escaped c (escape c).
Proof.
  unfold escape, escape_tail. destruct (Z.eqb_spec c backslash) as [->|?]; [by apply escaped_simple|].
  destruct (Z.eqb_spec c quote) as [->|?]; [by apply escaped_simple|]. rewrite !andb_true_r.
  destruct (Z.ltb_spec 31 c); [by apply escaped_plain|].
  destruct (Z.eqb_spec c 8) as [->|?]; [by apply escaped_simple|].
  destruct (Z.eqb_spec c 12) as [->|?]; [by apply escaped_simple|].
  destruct (Z.eqb_spec c 10) as [->|?]; [by apply escaped_simple|].
  destruct (Z.eqb_spec c 13) as [->|?]; [by apply escaped_simple|].
  destruct (Z.eqb_spec c 9) as [->|?]; [by apply escaped_simple|]. apply escaped_hex. lia.
Qed.

Lemma hex_char_plain n : 0 <= n < 16 -> hex_char n <> quote /\ hex_char n <> backslash.
Proof. unfold hex_char, quote, backslash. intros. case_match; bools; lia. Qed.

Lemma scan_plain c tl n k : c <> quote /\ c <> backslash -> scan_string (c :: tl) n k = scan_string tl (n + 1) k.
Proof. intros [Hq Hb]. cbn [scan_string]. by rewrite !(proj2 (Z.eqb_neq _ _)). Qed.

Lemma scan_pair e tl n k : scan_string (backslash :: e :: tl) n k = scan_string tl (n + 2) (k + 1).
Proof. done. Qed.

(** A character takes more bytes in its escape than the scan skips. *)
Lemma scan_escape c tl n k :
  1 <= c < 256 -> exists j, scan_string (escape c ++ tl) n k = scan_string tl (n + zlen (escape c)) (k + j) /\
    0 <= j < zlen (escape c).
Proof.
  intros Hc. destruct (escape_escaped c) as [Hq Hb|e He|Hlt]; cbn [app].
  - exists 0. rewrite scan_plain, Z.add_0_r by done. done.
  - exists 1. by rewrite scan_pair.
  - exists 1. rewrite scan_pair.
    rewrite !scan_plain; [|apply hex_char_plain|apply hex_char_plain|done|done].
    2: { change 15 with (2 ^ 4 - 1). rewrite land_mask by lia. dlia. }
    2: { rewrite Z.shiftr_div_pow2 by lia. dlia. }
    split; [|done]. f_equal. change (zlen _) with 6. lia.
Qed.

Lemma scan_escapes s tl n k :
  text s -> exists j, scan_string (concat (escape <$> s) ++ quote :: tl) n k = Some (n + zlen (concat (escape <$> s)), k + j) /\
    0 <= j /\ zlen s + j <= zlen (concat (escape <$> s)).
Proof.
  intros Hs. revert n k. induction Hs as [|c s Hc Hs IH]; intros n k.
  - exists 0. cbn. by rewrite !Z.add_0_r.
  - change (concat (escape <$> c :: s)) with (escape c ++ concat (escape <$> s)). rewrite <-app_assoc.
    destruct (scan_escape c (concat (escape <$> s) ++ quote :: tl) n k Hc) as (j & -> & Hj).
    destruct (IH (n + zlen (escape c)) (k + j)) as (j' & -> & Hj' & Hle). exists (j + j'). rewrite zlen_app, zlen_cons.
    split_and!; [|lia|lia]. do 2 f_equal; lia.
Qed.

Lemma decode_escape fuel c tl a out cap :
  1 <= c < 256 -> 0 <= a -> zlen out + 1 <= cap ->
  decode_string (S fuel) (escape c ++ tl) (zlen (escape c) + a) out cap = decode_string fuel tl a (out ++ [c]) cap.
Proof.
  intros Hc Ha Hcap. assert (put cap out [c] = Ret (out ++ [c])) as Hput by by apply put_ok.
  destruct (escape_escaped c) as [Hq Hb|e He|Hlt]; cbn [decode_string app]; rewrite !zlen_cons, zlen_nil; rewrite (proj2 (Z.leb_gt _ _)) by lia.
  - rewrite (mem_get_ok _ 0 c) by done. rewrite bind_ret_l, (proj2 (Z.eqb_neq _ _)) by done. cbn [negb].
    rewrite Hput, bind_ret_l. change (drop 1 (c :: tl)) with tl. f_equal. lia.
  - rewrite (mem_get_ok _ 0 backslash), (mem_get_ok _ 1 e) by done. rewrite !bind_ret_l. cbn [negb Z.eqb]. 
    change (backslash =? backslash) with true. cbn [negb]. rewrite He, Hput, bind_ret_l. change (drop 2 (backslash :: e :: tl)) with tl. f_equal. lia.
  - rewrite (mem_get_ok _ 0 backslash), (mem_get_ok _ 1 117) by done. rewrite !bind_ret_l.
    change (backslash =? backslash) with true. cbn [negb]. change (simple_escape 117) with (@None Z). cbv iota.
    change (117 =? 117) with true. cbv iota. unfold utf16_literal_to_utf8.
    rewrite (proj2 (Z.ltb_ge _ _)) by lia. rewrite parse_hex4_escape, bind_ret_l by lia.
    rewrite (proj2 (Z.leb_gt 0xDC00 c)), (proj2 (Z.leb_gt 0xD800 c)) by lia. cbn [andb]. unfold utf8_encode. rewrite (proj2 (Z.ltb_lt c 128)) by lia.
    change 127 with (2 ^ 7 - 1). rewrite land_mask, Z.mod_small by lia. cbn [option_map]. rewrite !bind_ret_l, Hput, bind_ret_l.
    cbn. f_equal. lia.
Qed.

Lemma decode_escapes s fuel tl out cap :
  text s -> (length s <= fuel)%nat -> zlen out + zlen s <= cap ->
  decode_string fuel (concat (escape <$> s) ++ tl) (zlen (concat (escape <$> s))) out cap = Ret (inr (out ++ s)).
Proof.
  intros Hs. revert fuel out. induction Hs as [|c s Hc Hs IH]; intros fuel out Hf Hcap.
  - rewrite app_nil_r. by destruct fuel.
  - destruct fuel as [|fuel]; [cbn in Hf; lia|]. rewrite zlen_cons in Hcap. pose proof (zlen_nonneg s).
    change (concat (escape <$> c :: s)) with (escape c ++ concat (escape <$> s)). rewrite <-app_assoc, zlen_app.
    rewrite decode_escape; [|done|apply zlen_nonneg|lia]. cbn in Hf.
    rewrite IH, <-app_assoc; [done|lia|]. rewrite zlen_app. change (zlen [c]) with 1. lia.
Qed.

(** ** Reading the text of a tree *)

Section Reader.
Context `{CDouble} `{!DoubleLaws} (can_alloc : Z -> bool) (content : bytes).
Hypothesis Halloc : forall size, can_alloc size = true.

(** The unread bytes at an offset. *)
Definition at_ (offset : Z) (rest : bytes) : Prop := 0 <= offset /\ rest_at content offset = rest.

Lemma at_app o a rest : at_ o (a ++ rest) -> at_ (o + zlen a) rest.
Proof.
  unfold at_, rest_at. intros [Ho Hr]. pose proof (zlen_nonneg a). split; [lia|].
  replace (Z.to_nat (o + zlen a)) with (Z.to_nat o + length a)%nat by (unfold zlen; lia).
  by rewrite <-drop_drop, Hr, drop_app_length.
Qed.

Lemma at_cons o c rest : at_ o (c :: rest) -> at_ (o + 1) rest.
Proof. apply (at_app o [c]). Qed.

Lemma at_length o rest : at_ o rest -> rest <> [] -> length_ content = o + zlen rest.
Proof.
  unfold at_, rest_at, length_. intros [Ho Hr] Hne. assert (zlen rest = Z.max 0 (zlen content - o)) as Hz.
  { rewrite <-Hr, zlen_drop. lia. }
  assert (0 < zlen rest) by (destruct rest; [done|rewrite zlen_cons; pose proof (zlen_nonneg rest); lia]). lia.
Qed.

Lemma at_next o x rest c : at_ o (x :: rest) -> next_is content o c = (x =? c).
Proof. intros [_ Hr]. unfold next_is. by rewrite Hr. Qed.

Lemma at_get o x rest : at_ o (x :: rest) -> mem_get content o = Ret x.
Proof.
  intros [Ho Hr]. apply mem_get_ok; [done|]. unfold rest_at in Hr.
  rewrite <-(Nat.add_0_r (Z.to_nat o)), <-lookup_drop, Hr. done.
Qed.

Lemma at_starts_ne o x rest d s : at_ o (x :: rest) -> x <> d -> starts_with content (d :: s) o = false.
Proof.
  intros [_ Hr] Hne. unfold starts_with. rewrite Hr. apply andb_false_intro2, bool_decide_eq_false.
  cbn. congruence.
Qed.

Lemma at_starts o s rest : at_ o (s ++ rest) -> s <> [] -> starts_with content s o = true.
Proof.
  intros Hat Hne. unfold starts_with. rewrite (at_length _ _ Hat) by by destruct s. destruct Hat as [_ ->].
  rewrite take_app_length, bool_decide_eq_true_2, andb_true_r, zlen_app by done. apply Z.leb_le.
  pose proof (zlen_nonneg rest). lia.
Qed.

(** White space before a byte that is none. *)
Lemma at_skip o ws c rest :
  at_ o (ws ++ c :: rest) -> Forall (fun x => x <= 32) ws -> 32 < c ->
  buffer_skip_whitespace content o = o + zlen ws.
Proof.
  intros Hat Hws Hc. pose proof (at_length _ _ Hat ltac:(by destruct ws)) as Hlen. destruct Hat as [Ho Hr].
  unfold buffer_skip_whitespace. rewrite Hr.
  assert (whitespace (ws ++ c :: rest) = zlen ws) as ->.
  { clear Hlen Hr. induction Hws as [|x ws Hx _ IH]; cbn [app whitespace].
    - by rewrite (proj2 (Z.leb_gt _ _)).
    - rewrite (proj2 (Z.leb_le _ _)) by done. rewrite zlen_cons. f_equal. exact IH. }
  rewrite Hlen, zlen_app, zlen_cons. pose proof (zlen_nonneg rest). by rewrite (proj2 (Z.eqb_neq _ _)) by lia.
Qed.

Lemma at_skip0 o c rest : at_ o (c :: rest) -> 32 < c -> buffer_skip_whitespace content o = o.
Proof. intros Hat Hc. rewrite (at_skip o [] c rest) by done. apply Z.add_0_r. Qed.

Lemma parse_string_reads item o s rest :
  text s -> at_ o (render_string (Some s) ++ rest) ->
  parse_string can_alloc content item o =
    Ret (Some (set_valuestring (Some s) (set_type cJSON_String item)), o + zlen (render_string (Some s))).
Proof.
  intros Hs Hat. assert (cstr s = s) as Hcs.
  { clear Hat. induction Hs as [|c s Hc _ IH]; [done|]. cbn [cstr]. rewrite (proj2 (Z.eqb_neq c 0)) by lia. by f_equal. }
  unfold render_string in *. change (default [] (Some s)) with s in *. rewrite Hcs in *. cbn [app] in Hat.
  unfold parse_string. rewrite (at_get _ _ _ Hat), bind_ret_l. change (quote =? quote) with true. cbn [negb].
  apply at_cons in Hat as [_ ->]. rewrite <-app_assoc. cbn [app].
  destruct (scan_escapes s rest 0 0 Hs) as (j & -> & Hj & Hle). rewrite Halloc. cbn [negb Z.add].
  set (E := concat (escape <$> s)) in *. pose proof (zlen_nonneg s).
  unfold E. rewrite (decode_escapes s); [|done|fold E; unfold zlen in *; lia|fold E; change (zlen []) with 0; lia].
  rewrite bind_ret_l. cbn [app]. fold E. rewrite put_ok, bind_ret_l by (change (zlen [0]) with 1; lia).
  rewrite zlen_cons, zlen_app. change (zlen [quote]) with 1. do 2 f_equal. lia.
Qed.

(** ** Values *)

(** What follows a value does not continue a number. *)
Definition delimited (rest : bytes) : Prop := match rest with c :: _ => number_char c = false | [] => True end.

Lemma parse_number_reads ty0 st o d rest :
  is_finite d = true -> at_ o (number_text d ++ rest) -> delimited rest ->
  parse_number content (Item ty0 None 0 dzero st []) o =
    (Some (Item cJSON_Number None (int_of_double d) d st []), o + zlen (number_text d)).
Proof.
  intros Hfin Hat Hdel.
  assert (exists s, number_text d = s /\ (s = sprintf_g15 d \/ s = sprintf_g17 d) /\ strtod s = (d, length s)) as (s & Es & Hs & Hstr).
  { unfold number_text. rewrite Hfin. cbn [negb]. destruct (sscanf_lg (sprintf_g15 d)) as [t|] eqn:Et.
    - destruct (deq t d) eqn:Ed; eexists; (split_and!; [done|auto|]); [by eapply laws_g15|by apply laws_g17].
    - eexists. split_and!; [done|auto|by apply laws_g17]. }
  rewrite Es in *. destruct (laws_text d s Hfin Hs) as (Hlen & Hch & c & s' & Ec & _).
  assert (forall n s, (length s <= n)%nat -> Forall (fun c => number_char c = true) s -> number_prefix n (s ++ rest) = s) as Hpre.
  { clear -Hdel. intros n s Hn Hs. revert n Hn. induction Hs as [|c s Hc _ IH]; intros [|n] Hn; cbn in *; try lia; [done| |].
    - unfold delimited in Hdel. destruct rest as [|c rest]; [done|]. by rewrite Hdel.
    - rewrite Hc. f_equal. apply IH. lia. }
  assert (length s <= 63)%nat as Hle by (clear -Hlen; unfold zlen in Hlen; lia).
  unfold parse_number. rewrite (proj2 Hat), Hpre, Hstr by done.
  destruct (Nat.eqb_spec (length s) 0) as [E0|_]; [by rewrite Ec in E0|done].
Qed.

(** The choice that [parse_value] makes when the text is not a literal. *)
Lemma parse_value_choice fuel item o depth x rest :
  at_ o (x :: rest) -> x <> 110 -> x <> 102 -> x <> 116 ->
  x = quote /\ parse_value can_alloc content (S fuel) item o depth = parse_string can_alloc content item o \/
  (x = 45 \/ is_digit x = true) /\ parse_value can_alloc content (S fuel) item o depth = Ret (parse_number content item o) \/
  x <> quote /\ x <> 45 /\ is_digit x = false.
Proof.
  intros Hat H1 H2 H3. rewrite parse_value_S. unfold str_null, str_false, str_true.
  rewrite !(at_starts_ne o x rest) by done. rewrite !(at_next o x rest) by done. rewrite (proj2 Hat).
  destruct (Z.eqb_spec x quote); [by left|]. right. destruct (Z.eqb_spec x 45); [by left; auto|].
  destruct (is_digit x); [by left; auto|]. by right.
Qed.

Definition value_reads (fmt : bool) (d : Z) (item : cJSON) : Prop :=
  forall fuel ty0 o depth rest,
    at_ o (render fmt d item ++ rest) -> delimited rest ->
    2 * zlen (render fmt d item) <= Z.of_nat fuel -> depth + nesting item <= CJSON_NESTING_LIMIT ->
    parse_value can_alloc content fuel (Item ty0 None 0 dzero (string item) []) o depth =
      Ret (Some item, o + zlen (render fmt d item)).

(** The first byte of a value. *)
Definition value_head (s : bytes) : Prop := exists c t, s = c :: t /\ 32 < c /\ c <> rbracket /\ c <> 239.

Lemma value_reads_head_nonempty s : value_head s -> 1 <= zlen s.
Proof. intros (c & t & -> & _). rewrite zlen_cons. pose proof (zlen_nonneg t). lia. Qed.

Lemma array_loop_reads fmt d l :
  l <> [] -> Forall (fun e => string e = None /\ value_head (render fmt d e) /\ value_reads fmt d e) l ->
  forall fuel o depth ws rest,
  at_ (o + 1) (ws ++ render_elements fmt (render fmt d) l ++ rbracket :: rest) -> Forall (fun x => x <= 32) ws ->
  2 * zlen (render_elements fmt (render fmt d) l) + 1 <= Z.of_nat fuel ->
  Forall (fun e => depth + nesting e <= CJSON_NESTING_LIMIT) l ->
  array_loop can_alloc content fuel o depth =
    Ret (Some l, o + 1 + zlen ws + zlen (render_elements fmt (render fmt d) l)).
Proof.
  induction l as [|e l IH]; [done|]. intros _ [(Hst & Hhead & He) Hl]%Forall_cons fuel o depth ws rest Hat Hws Hfuel [Hne Hn]%Forall_cons.
  pose proof (value_reads_head_nonempty _ Hhead) as Hpos. cbn [render_elements] in *.
  set (r := render fmt d e) in *. set (sep := match l with [] => [] | _ => _ end) in *.
  set (rl := render_elements fmt (render fmt d) l) in *. rewrite !zlen_app in *. pose proof (zlen_nonneg sep). pose proof (zlen_nonneg rl).
  destruct fuel as [|fuel]; [lia|]. rewrite array_loop_S, Halloc. cbn [negb]. cbv zeta.
  destruct Hhead as (c & t & Er & Hc & _).
  assert (buffer_skip_whitespace content (o + 1) = o + 1 + zlen ws) as ->.
  { eapply at_skip; [|exact Hws|exact Hc]. rewrite Er in Hat. exact Hat. }
  apply at_app in Hat. rewrite <-!app_assoc in Hat.
  pose proof (He fuel 0 (o + 1 + zlen ws) depth _ Hat ltac:(unfold sep, rl; by destruct fmt, l) ltac:(fold r; lia) Hne) as Hv.
  rewrite Hst in Hv. change new_item with (Item 0 None 0 dzero None []). rewrite Hv, bind_ret_l.
  apply at_app in Hat. fold r in Hat |- *. set (o2 := o + 1 + zlen ws + zlen r) in *. destruct l as [|e2 l].
  - cbn [app] in Hat. rewrite (at_skip0 o2 rbracket rest) by done. rewrite (at_next _ _ _ comma Hat). change (rbracket =? comma) with false. cbv iota.
    do 2 f_equal. unfold o2. change (zlen sep) with 0. change (zlen rl) with 0. lia.
  - unfold sep in Hat. cbn [app] in Hat. rewrite (at_skip0 o2 comma _ Hat) by done. rewrite (at_next _ _ _ comma Hat).
    change (comma =? comma) with true. cbv iota. apply at_cons in Hat.
    rewrite (IH ltac:(done) Hl fuel o2 depth (opt fmt [32]) rest Hat); [|destruct fmt; by repeat constructor|fold rl; lia|done].
    rewrite bind_ret_l. cbn [option_map]. do 2 f_equal. unfold o2, sep. rewrite zlen_cons. fold rl. lia.
Qed.

(** The members of an object from the first name on. *)
Definition members_text (fmt : bool) (d : Z) (e : cJSON) (l : list cJSON) : bytes :=
  render_string (string e) ++ (colon :: opt fmt [9]) ++ render fmt d e
    ++ ((match l with [] => [] | _ => [comma] end) ++ opt fmt [10]) ++ render_members fmt (render fmt d) d l.

Lemma render_members_cons fmt d e l :
  render_members fmt (render fmt d) d (e :: l) = opt fmt (tabs d) ++ members_text fmt d e l.
Proof. done. Qed.

Lemma opt_space fmt s : Forall (fun x => x <= 32) s -> Forall (fun x => x <= 32) (opt fmt s).
Proof. by destruct fmt. Qed.

Lemma tabs_space n : Forall (fun x => x <= 32) (tabs n).
Proof. unfold tabs. by apply Forall_replicate. Qed.

Lemma render_string_head s : exists t, render_string s = quote :: t.
Proof. by eexists. Qed.

(** One member, up to what follows its value. *)
Lemma object_member_reads fmt d e key fuel o depth ws rest :
  string e = Some key -> text key -> value_head (render fmt d e) -> value_reads fmt d e ->
  at_ (o + 1) (ws ++ render_string (string e) ++ (colon :: opt fmt [9]) ++ render fmt d e ++ rest) ->
  Forall (fun x => x <= 32) ws -> delimited rest ->
  2 * zlen (render fmt d e) <= Z.of_nat fuel -> depth + nesting e <= CJSON_NESTING_LIMIT ->
  exists o2, o2 = o + 1 + zlen ws + zlen (render_string (string e)) + zlen (colon :: opt fmt [9]) + zlen (render fmt d e) /\
    at_ o2 rest /\
    object_loop can_alloc content (S fuel) o depth =
      let offset := buffer_skip_whitespace content o2 in
      if next_is content offset comma then
        '(l, offset) ← object_loop can_alloc content fuel offset depth; Ret (option_map (cons e) l, offset)
      else Ret (Some [e], offset).
Proof.
  intros Hkey Htext Hhead He Hat Hws Hdel Hfuel Hne. rewrite Hkey in *. set (k := render_string (Some key)) in *.
  set (r := render fmt d e) in *. eexists. split; [reflexivity|]. rewrite object_loop_S, Halloc. cbn [negb]. cbv zeta.
  assert (buffer_skip_whitespace content (o + 1) = o + 1 + zlen ws) as ->.
  { eapply (at_skip (o + 1) ws quote); [exact Hat|done|done]. }
  apply at_app in Hat. rewrite (parse_string_reads new_item _ key _ Htext Hat), bind_ret_l. apply at_app in Hat. fold k in Hat |- *.
  set (o1 := o + 1 + zlen ws + zlen k) in *. cbn [app] in Hat.
  rewrite (at_skip0 o1 colon _ Hat), (at_next _ _ _ colon Hat) by done. change (colon =? colon) with true. cbn [negb].
  apply at_cons in Hat. destruct Hhead as (c & t & Er & Hc & _).
  assert (buffer_skip_whitespace content (o1 + 1) = o1 + zlen (colon :: opt fmt [9])) as ->.
  { rewrite zlen_cons, Z.add_assoc. eapply (at_skip (o1 + 1) (opt fmt [9]) c); [|apply opt_space; by repeat constructor|done].
    rewrite Er in Hat. exact Hat. }
  apply at_app in Hat. replace (o1 + 1 + zlen (opt fmt [9])) with (o1 + zlen (colon :: opt fmt [9])) in Hat by (rewrite zlen_cons; lia).
  pose proof (He fuel 16 _ depth _ Hat Hdel Hfuel Hne) as Hv. rewrite Hkey in Hv.
  change (set_valuestring None _) with (Item cJSON_String None 0 dzero (Some key) []).
  change cJSON_String with 16. rewrite Hv, bind_ret_l. apply at_app in Hat. split; [exact Hat|done].
Qed.

Lemma object_loop_reads fmt d l : forall e,
  Forall (fun e => (exists k, string e = Some k /\ text k) /\ value_head (render fmt d e) /\ value_reads fmt d e) (e :: l) ->
  forall fuel o depth ws tl rest,
  at_ (o + 1) (ws ++ members_text fmt d e l ++ tl ++ rbrace :: rest) ->
  Forall (fun x => x <= 32) ws -> Forall (fun x => x <= 32) tl -> delimited (tl ++ rbrace :: rest) ->
  2 * zlen (members_text fmt d e l) + 1 <= Z.of_nat fuel ->
  Forall (fun e => depth + nesting e <= CJSON_NESTING_LIMIT) (e :: l) ->
  object_loop can_alloc content fuel o depth =
    Ret (Some (e :: l), o + 1 + zlen ws + zlen (members_text fmt d e l) + zlen tl).
Proof.
  induction l as [|e2 l IH]; intros e [((key & Hkey & Htext) & Hhead & He) Hl]%Forall_cons fuel o depth ws tl rest Hat Hws Htl Hdel Hfuel [Hne Hn]%Forall_cons;
    pose proof (value_reads_head_nonempty _ Hhead) as Hpos; pose proof (zlen_nonneg (render_string (string e))).
  - unfold members_text in *. cbn [render_members] in *. rewrite ?app_nil_r, ?app_nil_l in *. rewrite <-!app_assoc in Hat.
    rewrite !zlen_app in *. pose proof (zlen_nonneg (opt fmt [10])). pose proof (zlen_nonneg (colon :: opt fmt [9])).
    destruct fuel as [|fuel]; [lia|].
    destruct (object_member_reads fmt d e key fuel o depth ws (opt fmt [10] ++ tl ++ rbrace :: rest)) as (o2 & Ho2 & Hat2 & ->);
      try done; [by destruct fmt|lia|]. cbv zeta.
    assert (buffer_skip_whitespace content o2 = o2 + zlen (opt fmt [10] ++ tl)) as ->.
    { eapply (at_skip o2 _ rbrace rest); [by rewrite <-app_assoc|apply Forall_app; split; [apply opt_space; by repeat constructor|done]|done]. }
    rewrite app_assoc in Hat2. apply at_app in Hat2. rewrite (at_next _ _ _ comma Hat2). change (rbrace =? comma) with false. cbv iota.
    do 2 f_equal. rewrite zlen_app. lia.
  - unfold members_text in Hat, Hfuel |- *. rewrite !render_members_cons in *. rewrite <-!app_assoc in Hat.
    rewrite !zlen_app in *. pose proof (zlen_nonneg (opt fmt [10])). pose proof (zlen_nonneg (colon :: opt fmt [9])).
    pose proof (zlen_nonneg (members_text fmt d e2 l)). pose proof (zlen_nonneg (opt fmt (tabs d))). change (zlen [comma]) with 1 in *.
    destruct fuel as [|fuel]; [lia|].
    destruct (object_member_reads fmt d e key fuel o depth ws _ Hkey Htext Hhead He Hat Hws) as (o2 & Ho2 & Hat2 & ->); [done|lia|done|].
    cbv zeta. cbn [app] in Hat2. rewrite (at_skip0 o2 comma _ Hat2), (at_next _ _ _ comma Hat2) by done.
    change (comma =? comma) with true. cbv iota. apply at_cons in Hat2. rewrite app_assoc in Hat2.
    rewrite (IH e2 Hl fuel o2 depth _ tl rest Hat2); [|by apply Forall_app; split; apply opt_space; [repeat constructor|apply tabs_space]|done|done|lia|done].
    rewrite bind_ret_l. cbn [option_map]. do 2 f_equal. rewrite zlen_app. lia.
Qed.

(** ** Trees *)

Lemma render_array fmt d st l :
  render fmt d (Item cJSON_Array None 0 dzero st l) = lbracket :: render_elements fmt (render fmt (d + 1)) l ++ [rbracket].
Proof. done. Qed.

Lemma render_object fmt d st l :
  render fmt d (Item cJSON_Object None 0 dzero st l) =
    lbrace :: opt fmt [10] ++ render_members fmt (render fmt (d + 1)) (d + 1) l ++ opt fmt (tabs d) ++ [rbrace].
Proof. done. Qed.

(** The children of a container are one level deeper. *)
Lemma nesting_children ty st l depth :
  ty = cJSON_Array \/ ty = cJSON_Object -> depth + nesting (Item ty None 0 dzero st l) <= CJSON_NESTING_LIMIT ->
  depth < CJSON_NESTING_LIMIT /\ Forall (fun e => depth + 1 + nesting e <= CJSON_NESTING_LIMIT) l.
Proof.
  intros Hty Hn. assert (depth + (1 + foldr (fun e n => Z.max (nesting e) n) 0 l) <= CJSON_NESTING_LIMIT) as Hd by by destruct Hty as [-> | ->].
  assert (0 <= foldr (fun e n => Z.max (nesting e) n) 0 l) as H0' by (clear; induction l; cbn; lia).
  split; [lia|]. apply Forall_forall. intros e He. pose proof (nesting_child l e He). lia.
Qed.

Lemma parse_array_reads fmt d st l :
  Forall (fun e => string e = None /\ value_head (render fmt (d + 1) e) /\ value_reads fmt (d + 1) e) l ->
  value_reads fmt d (Item cJSON_Array None 0 dzero st l).
Proof.
  intros Hl fuel ty0 o depth rest Hat Hdel Hfuel Hnest. apply nesting_children in Hnest as [Hdepth Hn]; [|by left].
  rewrite render_array in *. cbn [string app] in *. set (rl := render_elements fmt (render fmt (d + 1)) l) in *.
  rewrite zlen_cons, zlen_app in *. change (zlen [rbracket]) with 1 in *. pose proof (zlen_nonneg rl).
  destruct fuel as [|fuel]; [lia|]. rewrite parse_value_S. unfold str_null, str_false, str_true.
  rewrite !(at_starts_ne o lbracket _ _ _ Hat) by done. rewrite !(at_next o lbracket _ _ Hat), (proj2 Hat). cbn [Z.eqb].
  change (is_digit lbracket) with false. cbn [orb Pos.eqb quote lbracket lbrace]. rewrite (proj2 (Z.leb_gt _ _)) by done.
  apply at_cons in Hat. rewrite <-app_assoc in Hat. cbn [app] in Hat. destruct l as [|e l].
  - cbn [render_elements app] in Hat. subst rl. cbn [render_elements app] in Hat. rewrite (at_skip0 _ _ _ Hat) by done. cbv zeta.
    rewrite (at_next _ _ _ rbracket Hat). cbn. change (zlen []) with 0. do 2 f_equal. lia.
  - assert (exists c t, rl = c :: t /\ 32 < c /\ c <> rbracket) as (c & t & Er & Hc & Hcr).
    { apply Forall_cons in Hl as [(_ & (c & t & E & ? & ? & _) & _) _]. subst rl. cbn [render_elements]. rewrite E. cbn [app]. eauto 10. }
    assert (Hat' := Hat). rewrite Er in Hat'. cbn [app] in Hat'. rewrite (at_skip0 _ _ _ Hat' Hc). cbv zeta.
    rewrite (at_next _ _ _ rbracket Hat'), (proj2 (Z.eqb_neq c rbracket)) by done.
    rewrite (at_length _ _ Hat' ltac:(done)), zlen_cons. pose proof (zlen_nonneg (t ++ rbracket :: rest)). rewrite (proj2 (Z.leb_gt _ _)) by lia.
    rewrite (array_loop_reads fmt (d + 1) (e :: l) ltac:(done) Hl fuel (o + 1 - 1) (depth + 1) [] rest); [|..]; fold rl; [|by replace (o + 1 - 1 + 1) with (o + 1) by lia|done|lia|done].
    rewrite bind_ret_l. change (zlen []) with 0. apply at_app in Hat. replace (o + 1 - 1 + 1 + 0 + zlen rl) with (o + 1 + zlen rl) by lia.
    rewrite (at_next _ _ _ rbracket Hat). change (rbracket =? rbracket) with true. cbv iota. do 2 f_equal. lia.
Qed.

Lemma parse_object_reads fmt d st l :
  Forall (fun e => (exists k, string e = Some k /\ text k) /\ value_head (render fmt (d + 1) e) /\ value_reads fmt (d + 1) e) l ->
  value_reads fmt d (Item cJSON_Object None 0 dzero st l).
Proof.
  intros Hl fuel ty0 o depth rest Hat Hdel Hfuel Hnest. apply nesting_children in Hnest as [Hdepth Hn]; [|by right].
  rewrite render_object in *. cbn [string app] in *. set (tl := opt fmt (tabs d)) in *.
  assert (Forall (fun x => x <= 32) tl) as Htl by apply opt_space, tabs_space.
  assert (delimited (tl ++ rbrace :: rest)) as Hdel2.
  { unfold tl, opt, tabs. destruct fmt; [|done]. by destruct (Z.to_nat d). }
  rewrite zlen_cons, !zlen_app in *. change (zlen [rbrace]) with 1 in *. pose proof (zlen_nonneg tl). pose proof (zlen_nonneg (opt fmt [10])).
  pose proof (zlen_nonneg (render_members fmt (render fmt (d + 1)) (d + 1) l)).
  destruct fuel as [|fuel]; [lia|]. rewrite parse_value_S. unfold str_null, str_false, str_true.
  rewrite !(at_starts_ne o lbrace _ _ _ Hat) by done. rewrite !(at_next o lbrace _ _ Hat), (proj2 Hat).
  change (is_digit lbrace) with false. cbn [orb Z.eqb Pos.eqb quote lbracket lbrace]. rewrite (proj2 (Z.leb_gt _ _)) by done.
  apply at_cons in Hat. rewrite <-!app_assoc in Hat. cbn [app] in Hat. destruct l as [|e l].
  - cbn [render_members app] in *. rewrite app_assoc in Hat.
    assert (Forall (fun x => x <= 32) (opt fmt [10] ++ tl)) as Hws by (apply Forall_app; split; [apply opt_space; by repeat constructor|done]).
    rewrite (at_skip _ (opt fmt [10] ++ tl) rbrace rest Hat) by done.
    cbv zeta. apply at_app in Hat. rewrite (at_next _ _ _ rbrace Hat). rewrite zlen_app in *. change (zlen []) with 0. cbn. do 2 f_equal. lia.
  - rewrite render_members_cons in *. rewrite zlen_app in *. set (m := members_text fmt (d + 1) e l) in *. pose proof (zlen_nonneg m).
    set (ind := opt fmt (tabs (d + 1))) in *. pose proof (zlen_nonneg ind).
    assert (exists t, m = quote :: t) as [t Et]. { unfold m, members_text. destruct (render_string_head (string e)) as [t ->]. by eexists. }
    rewrite <-app_assoc, (app_assoc (opt fmt [10])) in Hat. set (ws := opt fmt [10] ++ ind) in *.
    assert (Forall (fun x => x <= 32) ws) as Hws by (apply Forall_app; split; apply opt_space; [by repeat constructor|apply tabs_space]).
    assert (Hat' := Hat). rewrite Et in Hat'. cbn [app] in Hat'. rewrite (at_skip _ ws quote _ Hat') by done. cbv zeta.
    assert (zlen ws = zlen (opt fmt [10]) + zlen ind) as Hwsl by apply zlen_app.
    apply at_app in Hat, Hat'. rewrite (at_next _ _ _ rbrace Hat'). change (quote =? rbrace) with false. cbv iota.
    rewrite (at_length _ _ Hat' ltac:(done)), zlen_cons. pose proof (zlen_nonneg (t ++ tl ++ rbrace :: rest)). rewrite (proj2 (Z.leb_gt _ _)) by lia.
    rewrite (object_loop_reads fmt (d + 1) l e Hl fuel (o + 1 + zlen ws - 1) (depth + 1) [] tl rest); fold m;
      [|by replace (o + 1 + zlen ws - 1 + 1) with (o + 1 + zlen ws) by lia|done|done|done|lia|done].
    rewrite bind_ret_l. change (zlen []) with 0. rewrite app_assoc in Hat. apply at_app in Hat. rewrite zlen_app in Hat.
    replace (o + 1 + zlen ws - 1 + 1 + 0 + zlen m + zlen tl) with (o + 1 + zlen ws + (zlen m + zlen tl)) by lia.
    rewrite (at_next _ _ _ rbrace Hat). change (rbrace =? rbrace) with true. cbv iota. do 2 f_equal. lia.
Qed.

Lemma canonical_reads item : forall fmt d,
  canonical item -> value_head (render fmt d item) /\ value_reads fmt d item.
Proof.
  induction item as [ty vs vi vd st ch IH] using cJSON_ind'. intros fmt d Hc. rewrite Forall_forall in IH.
  inversion Hc as [|? |? |? ? Hf|? ? Hs|? ? Hl|? ? Hl]; subst.
  - split; [by eexists _, _|]. intros fuel ty0 o depth rest Hat _ Hfuel _. destruct fuel; [done|].
    rewrite parse_value_S. by rewrite (at_starts o str_null rest Hat).
  - split; [by eexists _, _|]. intros fuel ty0 o depth rest Hat _ Hfuel _. destruct fuel; [done|].
    rewrite parse_value_S. unfold str_null. rewrite (at_starts_ne o 102 _ _ _ Hat) by done. by rewrite (at_starts o str_false rest Hat).
  - split; [by eexists _, _|]. intros fuel ty0 o depth rest Hat _ Hfuel _. destruct fuel; [done|].
    rewrite parse_value_S. unfold str_null, str_false. rewrite !(at_starts_ne o 116 _ _ _ Hat) by done.
    by rewrite (at_starts o str_true rest Hat).
  - change (render fmt d (Item cJSON_Number None (int_of_double vd) vd st [])) with (number_text vd).
    assert (exists c t, number_text vd = c :: t /\ (c = 45 \/ is_digit c = true)) as (c & t & Et & Hcd).
    { unfold number_text. rewrite Hf. cbn [negb].
      destruct (laws_text vd _ Hf (or_introl eq_refl)) as (_ & _ & H15). destruct (laws_text vd _ Hf (or_intror eq_refl)) as (_ & _ & H17).
      repeat case_match; done. }
    assert (45 <= c <= 57) as Hrange. { unfold is_digit in Hcd. destruct Hcd as [->|Hcd]; [lia|]. bools. lia. }
    split; [exists c, t; unfold rbracket; split_and!; [done|lia..]|].
    intros fuel ty0 o depth rest Hat Hdel Hfuel _. change (render fmt d _) with (number_text vd) in *.
    destruct fuel; [rewrite Et, zlen_cons in Hfuel; pose proof (zlen_nonneg t); lia|]. assert (Hat' := Hat). rewrite Et in Hat'.
    destruct (parse_value_choice fuel (Item ty0 None 0 dzero st []) o depth c _ Hat') as [[Hq _]|[[_ Hp]|(_ & H45 & Hnd)]]; [lia..| | |].
    + unfold quote in Hq. lia.
    + cbn [string]. rewrite Hp. by rewrite (parse_number_reads ty0 st o vd rest).
    + destruct Hcd; congruence.
  - split; [by eexists _, _|]. intros fuel ty0 o depth rest Hat Hdel Hfuel _. destruct fuel; [done|].
    change (render fmt d _) with (render_string (Some s)) in *.
    destruct (parse_value_choice fuel (Item ty0 None 0 dzero st []) o depth quote _ Hat) as [[_ Hp]|[[[?|?] _]|(? & _)]]; [done|done|done| |done|done|done].
    cbn [string]. rewrite Hp. by rewrite (parse_string_reads _ o s rest).
  - split; [by eexists _, _|]. apply parse_array_reads. rewrite Forall_forall in Hl |- *. intros e He.
    destruct (Hl e He) as [Hst Hce]. split; [done|]. by apply IH.
  - split; [by eexists _, _|]. apply parse_object_reads. rewrite Forall_forall in Hl |- *. intros e He.
    destruct (Hl e He) as [Hst Hce]. split; [done|]. by apply IH.
Qed.
End Reader.

Section Claims.
Context `{CDouble} `{!DoubleLaws} (can_alloc : Z -> bool) (have_realloc : bool) (junk : Z).

(** Such a tree can be printed. *)
Lemma text_byte_string s : text s -> byte_string (Some s) = true.
Proof.
  intros Hs. apply forallb_forall. intros c Hc%list_elem_of_In. pose proof (proj1 (Forall_forall _ _) Hs c Hc) as Hr. cbv beta in Hr.
  apply andb_true_iff. rewrite Z.leb_le, Z.ltb_lt. lia.
Qed.

Lemma canonical_renderable item :
  canonical item -> (forall k, string item = Some k -> text k) -> renderable item = true.
Proof.
  induction item as [ty vs vi vd st ch IH] using cJSON_ind'. intros Hc Hk. rewrite Forall_forall in IH. cbn [string] in Hk.
  assert (byte_string st = true) as Hst by (destruct st; [by apply text_byte_string, Hk|done]).
  inversion Hc as [|? |? |? ? Hf|? ? Hs|? ? Hl|? ? Hl]; subst; cbn [renderable]; rewrite Hst, ?andb_true_r; try done.
  - by rewrite (text_byte_string _ Hs).
  - change (forallb renderable ch = true). apply forallb_forall. intros e He%list_elem_of_In. rewrite Forall_forall in Hl.
    destruct (Hl e He) as [Hs Hce]. apply IH; [done|done|]. intros k. congruence.
  - change (forallb renderable ch = true). apply forallb_forall. intros e He%list_elem_of_In. rewrite Forall_forall in Hl.
    destruct (Hl e He) as [(k & Hs & Ht) Hce]. apply IH; [done|done|]. intros k'. congruence.
Qed.

Lemma parse_render item fmt opt_null :
  (forall size, can_alloc size = true) -> canonical item -> string item = None -> nesting item <= CJSON_NESTING_LIMIT ->
  exists pos, cJSON_ParseWithOpts can_alloc (render fmt 0 item) opt_null = Ret (Some item, pos).
Proof.
  intros Halloc Hc Hst Hn. unfold cJSON_ParseWithOpts. rewrite Halloc. cbn [negb].
  set (t := render fmt 0 item). set (content := t ++ [0]).
  destruct (canonical_reads can_alloc content Halloc item fmt 0 Hc) as [(c & t' & Et & Hch & _ & Hbom) Hreads]. fold t in Et.
  assert (at_ content 0 (t ++ [0])) as Hat by done.
  assert (skip_utf8_bom content 0 = 0) as ->.
  { unfold skip_utf8_bom. rewrite (proj2 Hat), Et. rewrite bool_decide_eq_false_2; [by rewrite andb_false_r|]. cbn. congruence. }
  assert (buffer_skip_whitespace content 0 = 0) as ->.
  { eapply (at_skip0 content 0 c (t' ++ [0])); [|done]. by rewrite Et in Hat. }
  pose proof (Hreads (S (2 * length content)) 0 0 0 [0] Hat ltac:(done)) as Hp. rewrite Hst in Hp. fold t in Hp.
  change new_item with (Item 0 None 0 dzero None []). cbv zeta. rewrite Hp, bind_ret_l; [|unfold content; rewrite length_app; unfold zlen; lia|done].
  change (0 + zlen t) with (zlen t).
  destruct opt_null; [|by eexists].
  apply at_app in Hat. rewrite Z.add_0_l in Hat. pose proof (at_length _ _ _ Hat ltac:(done)) as Hlen. change (zlen [0]) with 1 in Hlen.
  assert (buffer_skip_whitespace content (zlen t) = zlen t) as ->.
  { unfold buffer_skip_whitespace. rewrite (proj2 Hat). cbn [whitespace]. change (0 <=? 32) with true. cbv iota.
    rewrite Hlen. rewrite (proj2 (Z.eqb_eq _ _)) by lia. lia. }
  rewrite Hlen, (proj2 (Z.leb_gt _ _)) by lia. rewrite (at_next _ _ _ _ 0 Hat). by eexists.
Qed.

(** C5: A tree as the parser builds them (numbers finite, strings without NUL, at most 1000 levels)
    that is printed, with or without white space, and parsed again is the same tree, when no
    allocation fails and the text is shorter than [INT_MAX - 8]. *)
Theorem print_parse_roundtrip item fmt :
  (forall size, can_alloc size = true) -> canonical item -> string item = None -> nesting item <= CJSON_NESTING_LIMIT ->
  zlen (render fmt 0 item) + 8 <= INT_MAX ->
  exists out, print can_alloc have_realloc junk item fmt = Ret (Some out) /\
    cJSON_Parse can_alloc (cstr out) = Ret (Some item).
Proof.
  intros Halloc Hc Hst Hn Hlen.
  assert (renderable item = true) as Hr by (apply canonical_renderable; [done|rewrite Hst; done]).
  destruct (print_spec can_alloc have_realloc junk item fmt Hr) as (r & Hp & Hout & Hsome).
  destruct (Hsome Halloc Hlen) as [out ->]. destruct (Hout out eq_refl) as [rest ->]. eexists. split; [exact Hp|].
  destruct (print_value_terminates can_alloc have_realloc junk item fmt 0 ltac:(lia) Hr) as [Hnul _].
  assert (cstr (render fmt 0 item ++ 0 :: rest) = render fmt 0 item) as -> by by apply cstr_app.
  unfold cJSON_Parse. destruct (parse_render item fmt false Halloc Hc Hst Hn) as [pos ->]. done.
Qed.
End Claims.

Lemma sample_canonical : canonical sample.
Proof.
  assert (forall s, forallb (fun c => (1 <=? c) && (c <? 256)) s = true -> text s) as Ht.
  { intros s Hs. apply Forall_forall. intros c Hc%list_elem_of_In. rewrite forallb_forall in Hs. specialize (Hs c Hc). cbv beta in Hs. bools. lia. }
  refine (canonical_object (H := int_double) None _ _). repeat apply Forall_cons_2; [..|apply Forall_nil_2].
  - split; [exists [97]; split; [reflexivity|by apply Ht]|]. by refine (canonical_number (H := int_double) 42 _ _).
  - split; [exists [98; 10]; split; [reflexivity|by apply Ht]|]. refine (canonical_array (H := int_double) _ _ _).
    repeat apply Forall_cons_2; [..|apply Forall_nil_2]; (split; [reflexivity|]).
    + refine (canonical_string (H := int_double) _ _ _). by apply Ht.
    + exact (canonical_true (H := int_double) None).
Qed.

Lemma print_parse_roundtrip_witness :
  exists out, print (fun _ => true) true 0 sample true = Ret (Some out) /\
    cJSON_Parse (fun _ => true) (cstr out) = Ret (Some sample).
Proof.
  apply print_parse_roundtrip.
  - reflexivity.
  - apply sample_canonical.
  - reflexivity.
  - vm_compute. discriminate.
  - vm_compute. discriminate.
Defined.
