(* ===== verification/Epoll.v ===== *)
(** The event loop: src/epoll/epoll_loop.c and, on top of its timeouts, src/epoll/timeout.c.

    The structures that the loop allocates are blocks of a heap; a use of a block that was freed is
    [Undef].  The kernel is an interface.  The functions of the application are programs of
    calls of the loop; its destroy functions are recorded and make no calls. *)

From stdpp Require Import gmap.
From S2P Require Import Prelude.

(** ** The kernel *)

Abbreviation ptr := nat.

Inductive ctl_op := EPOLL_CTL_ADD | EPOLL_CTL_DEL | EPOLL_CTL_MOD.

Inductive syscall :=
| epoll_create1
| epoll_ctl (epfd : Z) (op : ctl_op) (fd events : Z) (data : ptr)
| timerfd_create
| timerfd_settime (fd sec nsec : Z)
| signalfd
| sigprocmask
| read (fd : Z)
| close (fd : Z).

(** [sys] is the answer of a system call, negative on failure; [epoll_wait] gives the events with their
    pointers, or nothing on failure; [malloc] gives a block beside the live ones, or nothing;
    [interest] is the interest list of an epoll descriptor: the pointers given with the descriptors. *)
Class Kernel := {
  kernel : Type;
  sys : syscall -> kernel -> Z * kernel;
  epoll_wait : Z -> kernel -> option (list (Z * ptr)) * kernel;
  malloc_block : gset ptr -> kernel -> option ptr * kernel;
  ssi_signo : kernel -> Z;
  interest : kernel -> Z -> gmap Z ptr
}.

(** ** Data *)

Definition EINVAL : Z := 22.
Definition ENOMEM : Z := 12.
Definition ENXIO : Z := 6.
Definition EIO : Z := 5.
Definition EPOLLIN : Z := 1.
Definition EPOLLERR : Z := 8.
Definition EPOLLHUP : Z := 16.
Definition EPOLLONESHOT : Z := 2 ^ 30.
Definition EXIT_SUCCESS : Z := 0.
Definition EXIT_FAILURE : Z := 1.
Definition MAX_MAINLOOP_ENTRIES : Z := 128.

(** A [void *user_data]: a value of the application or a block of the loop. *)
Inductive user_data := User (v : Z) | Block (p : ptr).

(** Function pointers: of the application, by number, or of the two files. *)
Inductive event_func := UserEvent (f : nat) | timeout_callback | signal_callback.
Inductive timeout_func := UserTimeout (f : nat) | timer_callback.
Inductive destroy_func := UserDestroy (f : nat) | timeout_destroy | timer_destroy.

Record mainloop_data := mk_mainloop_data {
  md_fd : Z;
  md_events : Z;
  md_callback : event_func;
  md_destroy : option destroy_func;
  md_user_data : user_data
}.

Record timeout_data := mk_timeout_data {
  td_fd : Z;
  td_callback : timeout_func;
  td_destroy : option destroy_func;
  td_user_data : user_data
}.

(** [struct timeout_data] of timeout.c. *)
Record timer_data := mk_timer_data {
  tm_id : Z;
  tm_func : nat;
  tm_destroy : option nat;
  tm_timeout : Z;
  tm_user_data : Z
}.

Record signal_data := mk_signal_data {
  sd_fd : Z;
  sd_callback : nat;
  sd_destroy : option nat;
  sd_user_data : Z
}.

Inductive block :=
| Mainloop (d : mainloop_data)
| Timeout (d : timeout_data)
| Timer (d : timer_data)
| Signal (d : signal_data).

(** The static variables, the heap, the kernel, and the calls of destroy functions so far. *)
Record loop `{Kernel} := mk_loop {
  epoll_fd : Z;
  epoll_terminate : bool;
  exit_status : Z;
  mainloop_list : gmap Z ptr;
  g_signal_data : option ptr;
  heap : gmap ptr block;
  destroyed : list (nat * Z);
  kern : kernel
}.

Section Loop.
Context `{Kernel}.

Definition set_epoll_fd x s := mk_loop _ x (epoll_terminate s) (exit_status s) (mainloop_list s) (g_signal_data s) (heap s) (destroyed s) (kern s).
Definition set_terminate x s := mk_loop _ (epoll_fd s) x (exit_status s) (mainloop_list s) (g_signal_data s) (heap s) (destroyed s) (kern s).
Definition set_exit_status x s := mk_loop _ (epoll_fd s) (epoll_terminate s) x (mainloop_list s) (g_signal_data s) (heap s) (destroyed s) (kern s).
Definition set_list x s := mk_loop _ (epoll_fd s) (epoll_terminate s) (exit_status s) x (g_signal_data s) (heap s) (destroyed s) (kern s).
Definition set_signal x s := mk_loop _ (epoll_fd s) (epoll_terminate s) (exit_status s) (mainloop_list s) x (heap s) (destroyed s) (kern s).
Definition set_heap x s := mk_loop _ (epoll_fd s) (epoll_terminate s) (exit_status s) (mainloop_list s) (g_signal_data s) x (destroyed s) (kern s).
Definition set_destroyed x s := mk_loop _ (epoll_fd s) (epoll_terminate s) (exit_status s) (mainloop_list s) (g_signal_data s) (heap s) x (kern s).
Definition set_kern x s := mk_loop _ (epoll_fd s) (epoll_terminate s) (exit_status s) (mainloop_list s) (g_signal_data s) (heap s) (destroyed s) x.

(** ** Effects *)

Definition M (A : Type) : Type := loop -> outcome (A * loop).
#[global] Instance M_ret : MRet M := fun A a s => Ret (a, s).
#[global] Instance M_bind : MBind M := fun A B f m s => '(a, s) ← m s; f a s.

Definition modify (f : loop -> loop) : M () := fun s => Ret ((), f s).
Definition get {A} (f : loop -> A) : M A := fun s => Ret (f s, s).
Definition undef {A} : M A := fun _ => Undef.

Definition call (c : syscall) : M Z := fun s => let '(r, k) := sys c (kern s) in Ret (r, set_kern k s).

Definition malloc (b : block) : M (option ptr) := fun s =>
  let '(p, k) := malloc_block (dom (heap s)) (kern s) in
  match p with
  | Some p => Ret (Some p, set_heap (<[p := b]> (heap s)) (set_kern k s))
  | None => Ret (None, set_kern k s)
  end.

Definition free (p : ptr) : M () := fun s =>
  match heap s !! p with
  | Some _ => Ret ((), set_heap (delete p (heap s)) s)
  | None => Undef
  end.

Definition load (p : ptr) : M block := fun s =>
  match heap s !! p with Some b => Ret (b, s) | None => Undef end.
Definition store (p : ptr) (b : block) : M () := fun s =>
  match heap s !! p with Some _ => Ret ((), set_heap (<[p := b]> (heap s)) s) | None => Undef end.

Definition load_mainloop (p : ptr) : M mainloop_data := b ← load p; match b with Mainloop d => mret d | _ => undef end.
Definition load_timeout (p : ptr) : M timeout_data := b ← load p; match b with Timeout d => mret d | _ => undef end.
Definition load_timer (p : ptr) : M timer_data := b ← load p; match b with Timer d => mret d | _ => undef end.
Definition load_signal (p : ptr) : M signal_data := b ← load p; match b with Signal d => mret d | _ => undef end.

(** ** Initialisation and end *)

Definition epoll_init : M () :=
  fd ← call epoll_create1;
  modify (fun s => set_terminate false (set_list ∅ (set_epoll_fd fd s))).

Definition epoll_quit : M () := modify (set_terminate true).
Definition epoll_exit_success : M () := modify (fun s => set_terminate true (set_exit_status EXIT_SUCCESS s)).
Definition epoll_exit_failure : M () := modify (fun s => set_terminate true (set_exit_status EXIT_FAILURE s)).

(** ** Destroy functions *)

Definition user_destroy (f : nat) (v : Z) : M () := modify (fun s => set_destroyed (destroyed s ++ [(f, v)]) s).

(** [timeout_destroy] of timeout.c. *)
Definition run_timer_destroy (p : ptr) : M () :=
  d ← load_timer p;
  _ ← match tm_destroy d with Some f => user_destroy f (tm_user_data d) | None => mret () end;
  free p.

(** [timeout_destroy] of epoll_loop.c. *)
Definition run_timeout_destroy (p : ptr) : M () :=
  d ← load_timeout p;
  _ ← call (close (td_fd d));
  _ ← store p (Timeout (mk_timeout_data (-1) (td_callback d) (td_destroy d) (td_user_data d)));
  _ ← match td_destroy d, td_user_data d with
      | None, _ => mret ()
      | Some (UserDestroy f), User v => user_destroy f v
      | Some timer_destroy, Block q => run_timer_destroy q
      | _, _ => undef
      end;
  free p.

Definition run_destroy (f : destroy_func) (u : user_data) : M () :=
  match f, u with
  | UserDestroy f, User v => user_destroy f v
  | timeout_destroy, Block p => run_timeout_destroy p
  | timer_destroy, Block p => run_timer_destroy p
  | _, _ => undef
  end.

(** ** Descriptors *)

Definition bad_fd (fd : Z) : bool := (fd <? 0) || (MAX_MAINLOOP_ENTRIES - 1 <? fd).

Definition epoll_add_fd (fd events : Z) (callback : option event_func) (user : user_data)
    (destroy : option destroy_func) : M Z :=
  match callback with
  | None => mret (- EINVAL)
  | Some callback =>
      if bad_fd fd then mret (- EINVAL) else
      p ← malloc (Mainloop (mk_mainloop_data fd events callback destroy user));
      match p with
      | None => mret (- ENOMEM)
      | Some p =>
          epfd ← get epoll_fd;
          err ← call (epoll_ctl epfd EPOLL_CTL_ADD fd events p);
          if err <? 0 then _ ← free p; mret err
          else _ ← modify (fun s => set_list (<[fd := p]> (mainloop_list s)) s); mret 0
      end
  end.

Definition epoll_modify_fd (fd events : Z) : M Z :=
  if bad_fd fd then mret (- EINVAL) else
  p ← get (fun s => mainloop_list s !! fd);
  match p with
  | None => mret (- ENXIO)
  | Some p =>
      d ← load_mainloop p;
      epfd ← get epoll_fd;
      err ← call (epoll_ctl epfd EPOLL_CTL_MOD (md_fd d) events p);
      if err <? 0 then mret err
      else
        _ ← store p (Mainloop (mk_mainloop_data (md_fd d) events (md_callback d) (md_destroy d) (md_user_data d)));
        mret 0
  end.

(** The rest of [epoll_remove_fd] and of the last loop of [epoll_run]: 0 stands for [NULL]. *)
Definition drop_entry (p : ptr) : M Z :=
  d ← load_mainloop p;
  epfd ← get epoll_fd;
  err ← call (epoll_ctl epfd EPOLL_CTL_DEL (md_fd d) 0 0%nat);
  _ ← match md_destroy d with Some f => run_destroy f (md_user_data d) | None => mret () end;
  _ ← free p;
  mret err.

Definition epoll_remove_fd (fd : Z) : M Z :=
  if bad_fd fd then mret (- EINVAL) else
  p ← get (fun s => mainloop_list s !! fd);
  match p with
  | None => mret (- ENXIO)
  | Some p =>
      _ ← modify (fun s => set_list (delete fd (mainloop_list s)) s);
      drop_entry p
  end.

(** ** Timeouts *)

Definition timeout_set (fd msec : Z) : M Z :=
  let sec := msec / 1000 in
  call (timerfd_settime fd sec ((msec - sec * 1000) * 1000 * 1000)).

Definition epoll_add_timeout (msec : Z) (callback : option timeout_func) (user : user_data)
    (destroy : option destroy_func) : M Z :=
  match callback with
  | None => mret (- EINVAL)
  | Some callback =>
      p ← malloc (Timeout (mk_timeout_data 0 callback destroy user));
      match p with
      | None => mret (- ENOMEM)
      | Some p =>
          fd ← call timerfd_create;
          _ ← store p (Timeout (mk_timeout_data fd callback destroy user));
          if fd <? 0 then _ ← free p; mret (- EIO) else
          err ← (if 0 <? msec then timeout_set fd msec else mret 0);
          if err <? 0 then _ ← call (close fd); _ ← free p; mret (- EIO) else
          err ← epoll_add_fd fd (Z.lor EPOLLIN EPOLLONESHOT) (Some timeout_callback) (Block p) (Some timeout_destroy);
          if err <? 0 then _ ← call (close fd); _ ← free p; mret (- EIO) else mret fd
      end
  end.

Definition epoll_modify_timeout (id msec : Z) : M Z :=
  err ← (if 0 <? msec then timeout_set id msec else mret 0);
  if err <? 0 then mret (- EIO) else
  err ← epoll_modify_fd id (Z.lor EPOLLIN EPOLLONESHOT);
  if err <? 0 then mret (- EIO) else mret 0.

Definition epoll_remove_timeout (id : Z) : M Z := epoll_remove_fd id.

(** timeout.c; [new0] writes to what [malloc] returned, also when that is [NULL]. *)
Definition timeout_add (timeout : Z) (func : nat) (v : Z) (destroy : option nat) : M Z :=
  p ← malloc (Timer (mk_timer_data 0 func destroy timeout v));
  match p with
  | None => undef
  | Some p =>
      id ← epoll_add_timeout timeout (Some timer_callback) (Block p) (Some timer_destroy);
      _ ← store p (Timer (mk_timer_data id func destroy timeout v));
      if id <? 0 then _ ← free p; mret 0 else mret id
  end.

Definition timeout_remove (id : Z) : M () :=
  if id =? 0 then mret () else _ ← epoll_remove_timeout id; mret ().

Definition epoll_set_signal (has_mask : bool) (callback : option nat) (v : Z) (destroy : option nat) : M Z :=
  match has_mask, callback with
  | true, Some callback =>
      p ← malloc (Signal (mk_signal_data (-1) callback destroy v));
      match p with
      | None => mret (- ENOMEM)
      | Some p =>
          old ← get g_signal_data;
          _ ← match old with Some q => free q | None => mret () end;
          _ ← modify (set_signal (Some p));
          mret 0
      end
  | _, _ => mret (- EINVAL)
  end.

(** ** The application *)

(** The calls that functions of the application make. *)
Inductive request :=
| AddFd (fd events : Z) (f : option nat) (v : Z) (destroy : option nat)
| ModifyFd (fd events : Z)
| RemoveFd (fd : Z)
| AddTimeout (msec : Z) (f : option nat) (v : Z) (destroy : option nat)
| ModifyTimeout (id msec : Z)
| RemoveTimeout (id : Z)
| TimeoutAdd (timeout : Z) (f : nat) (v : Z) (destroy : option nat)
| TimeoutRemove (id : Z)
| Quit | ExitSuccess | ExitFailure.

Definition perform (r : request) : M Z :=
  match r with
  | AddFd fd events f v d => epoll_add_fd fd events (option_map UserEvent f) (User v) (option_map UserDestroy d)
  | ModifyFd fd events => epoll_modify_fd fd events
  | RemoveFd fd => epoll_remove_fd fd
  | AddTimeout msec f v d => epoll_add_timeout msec (option_map UserTimeout f) (User v) (option_map UserDestroy d)
  | ModifyTimeout id msec => epoll_modify_timeout id msec
  | RemoveTimeout id => epoll_remove_timeout id
  | TimeoutAdd timeout f v d => timeout_add timeout f v d
  | TimeoutRemove id => _ ← timeout_remove id; mret 0
  | Quit => _ ← epoll_quit; mret 0
  | ExitSuccess => _ ← epoll_exit_success; mret 0
  | ExitFailure => _ ← epoll_exit_failure; mret 0
  end.

(** A function: it ends with a result, or makes a call and goes on with the answer. *)
Inductive program := Done (r : bool) | Request (r : request) (k : Z -> program).

Fixpoint exec (p : program) : M bool :=
  match p with
  | Done r => mret r
  | Request r k => x ← perform r; exec (k x)
  end.

Record application := {
  on_event : nat -> Z -> Z -> Z -> program;
  on_timeout : nat -> Z -> Z -> program;
  on_timer : nat -> Z -> program;
  on_signal : nat -> Z -> Z -> program
}.

Context (app : application).

(** ** Dispatch *)

(** [timeout_callback] of timeout.c. *)
Definition run_timer_callback (p : ptr) : M () :=
  d ← load_timer p;
  again ← exec (on_timer app (tm_func d) (tm_user_data d));
  err ← (if (again : bool) then d ← load_timer p; epoll_modify_timeout (tm_id d) (tm_timeout d) else mret 1);
  if err =? 0 then mret () else
  d ← load_timer p;
  _ ← epoll_remove_timeout (tm_id d);
  mret ().

(** [timeout_callback] of epoll_loop.c. *)
Definition run_timeout_callback (events : Z) (p : ptr) : M () :=
  if negb (Z.land events (Z.lor EPOLLERR EPOLLHUP) =? 0) then mret () else
  d ← load_timeout p;
  result ← call (read (td_fd d));
  if negb (result =? 8) then mret () else
  match td_callback d, td_user_data d with
  | UserTimeout f, User v => _ ← exec (on_timeout app f (td_fd d) v); mret ()
  | timer_callback, Block q => run_timer_callback q
  | _, _ => undef
  end.

Definition run_signal_callback (fd events : Z) (p : ptr) : M () :=
  if negb (Z.land events (Z.lor EPOLLERR EPOLLHUP) =? 0) then epoll_quit else
  result ← call (read fd);
  if negb (result =? 128) then mret () else
  d ← load_signal p;
  signo ← get (fun s => ssi_signo (kern s));
  _ ← exec (on_signal app (sd_callback d) signo (sd_user_data d));
  mret ().

(** One event of [epoll_run]. *)
Definition dispatch (events : Z) (p : ptr) : M () :=
  d ← load_mainloop p;
  match md_callback d, md_user_data d with
  | UserEvent f, User v => _ ← exec (on_event app f (md_fd d) events v); mret ()
  | timeout_callback, Block q => run_timeout_callback events q
  | signal_callback, Block q => run_signal_callback (md_fd d) events q
  | _, _ => undef
  end.

Fixpoint dispatch_all (l : list (Z * ptr)) : M () :=
  match l with
  | [] => mret ()
  | (events, p) :: l => _ ← dispatch events p; dispatch_all l
  end.

(** The loop [while (!epoll_terminate)]: whether it ended within [fuel] rounds. *)
Fixpoint rounds (fuel : nat) : M bool :=
  stop ← get epoll_terminate;
  if (stop : bool) then mret true else
  match fuel with
  | O => mret false
  | S fuel =>
      events ← (fun s => let '(e, k) := epoll_wait (epoll_fd s) (kern s) in Ret (e, set_kern k s));
      match events with
      | None => rounds fuel
      | Some l => _ ← dispatch_all l; rounds fuel
      end
  end.

(** The start of [epoll_run]: whether it goes on. *)
Definition start_signals : M bool :=
  g ← get g_signal_data;
  match g with
  | None => mret true
  | Some p =>
      err ← call sigprocmask;
      if err <? 0 then mret false else
      d ← load_signal p;
      fd ← call signalfd;
      _ ← store p (Signal (mk_signal_data fd (sd_callback d) (sd_destroy d) (sd_user_data d)));
      if fd <? 0 then mret false else
      err ← epoll_add_fd fd EPOLLIN (Some signal_callback) (Block p) None;
      if err <? 0 then _ ← call (close fd); mret false else mret true
  end.

Definition stop_signals : M () :=
  g ← get g_signal_data;
  match g with
  | None => mret ()
  | Some p =>
      d ← load_signal p;
      _ ← epoll_remove_fd (sd_fd d);
      d ← load_signal p;
      _ ← call (close (sd_fd d));
      match sd_destroy d with Some f => user_destroy f (sd_user_data d) | None => mret () end
  end.

(** The last loop, from entry [i] on. *)
Fixpoint remove_entries (n : nat) (i : Z) : M () :=
  match n with
  | O => mret ()
  | S n =>
      p ← get (fun s => mainloop_list s !! i);
      _ ← modify (fun s => set_list (delete i (mainloop_list s)) s);
      _ ← match p with Some p => drop_entry p | None => mret 0 end;
      remove_entries n (i + 1)
  end.

(** [epoll_run]: the status, or nothing when [fuel] rounds are not enough. *)
Definition epoll_run (fuel : nat) : M (option Z) :=
  ok ← start_signals;
  if negb ok then mret (Some EXIT_FAILURE) else
  ended ← rounds fuel;
  if negb ended then mret None else
  _ ← stop_signals;
  _ ← remove_entries (Z.to_nat MAX_MAINLOOP_ENTRIES) 0;
  epfd ← get epoll_fd;
  _ ← call (close epfd);
  _ ← modify (set_epoll_fd 0);
  status ← get exit_status;
  mret (Some status).
End Loop.
