(* ===== verification/EpollSpec.v ===== *)
(** The event loop keeps its table, its heap and the interest list of the kernel in step. *)

From stdpp Require Import gmap.
From S2P Require Import Prelude Epoll.

(** ** The kernel

    From epoll_ctl(2), epoll_wait(2), timerfd_create(2), signalfd(2) and close(2). *)

Class KernelLaws `{Kernel} : Prop := {
  create_law k r k' : sys epoll_create1 k = (r, k') -> interest k' r = ∅;
  add_law epfd fd events p k r k' :
    sys (epoll_ctl epfd EPOLL_CTL_ADD fd events p) k = (r, k') ->
    r < 0 /\ interest k' epfd = interest k epfd \/
    0 <= r /\ fd <> epfd /\ interest k epfd !! fd = None /\ interest k' epfd = <[fd := p]> (interest k epfd);
  mod_law epfd fd events p k r k' :
    sys (epoll_ctl epfd EPOLL_CTL_MOD fd events p) k = (r, k') -> interest k epfd !! fd = Some p ->
    interest k' epfd = interest k epfd;
  del_law epfd fd events p k r k' :
    sys (epoll_ctl epfd EPOLL_CTL_DEL fd events p) k = (r, k') -> is_Some (interest k epfd !! fd) ->
    interest k' epfd = delete fd (interest k epfd);
  timerfd_law k fd k' :
    sys timerfd_create k = (fd, k') -> interest k' = interest k /\
    (0 <= fd -> interest k fd = ∅ /\ forall epfd, interest k epfd !! fd = None);
  signalfd_law k fd k' :
    sys signalfd k = (fd, k') -> interest k' = interest k /\
    (0 <= fd -> interest k fd = ∅ /\ forall epfd, interest k epfd !! fd = None);
  settime_law fd sec nsec k r k' : sys (timerfd_settime fd sec nsec) k = (r, k') -> interest k' = interest k;
  sigprocmask_law k r k' : sys sigprocmask k = (r, k') -> interest k' = interest k;
  read_law fd k r k' : sys (read fd) k = (r, k') -> interest k' = interest k;
  close_law fd k r k' epfd :
    sys (close fd) k = (r, k') -> interest k' epfd = if decide (epfd = fd) then ∅ else delete fd (interest k epfd);
  wait_law epfd k l k' :
    epoll_wait epfd k = (Some l, k') -> interest k' = interest k /\
    exists fds, NoDup fds /\ Forall2 (fun fd e => interest k epfd !! fd = Some (snd e)) fds l;
  wait_error_law epfd k k' : epoll_wait epfd k = (None, k') -> interest k' = interest k;
  malloc_law live k p k' : malloc_block live k = (Some p, k') -> (p ∉ live) /\ interest k' = interest k;
  malloc_error_law live k k' : malloc_block live k = (None, k') -> interest k' = interest k
}.

(** ** The invariant *)

(** The descriptor that a block belongs to. *)
Definition label (b : block) : option Z :=
  match b with
  | Mainloop d => Some (md_fd d)
  | Timeout d => Some (td_fd d)
  | Timer d => Some (tm_id d)
  | Signal _ => None
  end.

Definition by_user (d : option destroy_func) : Prop := d = None \/ exists f, d = Some (UserDestroy f).

(** The blocks of a registered descriptor [fd] whose entry is [p]. *)
Inductive group (h : gmap ptr block) (g : option ptr) (fd : Z) (p : ptr) : list ptr -> Prop :=
| group_event ev f d v :
    h !! p = Some (Mainloop (mk_mainloop_data fd ev (UserEvent f) d (User v))) -> by_user d -> group h g fd p [p]
| group_timeout q ev f d v :
    h !! p = Some (Mainloop (mk_mainloop_data fd ev timeout_callback (Some timeout_destroy) (Block q))) ->
    h !! q = Some (Timeout (mk_timeout_data fd (UserTimeout f) d (User v))) -> by_user d -> group h g fd p [p; q]
| group_timer q r ev f d msec v :
    h !! p = Some (Mainloop (mk_mainloop_data fd ev timeout_callback (Some timeout_destroy) (Block q))) ->
    h !! q = Some (Timeout (mk_timeout_data fd timer_callback (Some timer_destroy) (Block r))) ->
    h !! r = Some (Timer (mk_timer_data fd f d msec v)) -> group h g fd p [p; q; r]
| group_signal q ev d :
    h !! p = Some (Mainloop (mk_mainloop_data fd ev signal_callback None (Block q))) ->
    g = Some q -> h !! q = Some (Signal d) -> sd_fd d = fd -> group h g fd p [p].

Section Invariant.
Context `{Kernel} `{!KernelLaws}.

Record inv (s : loop) : Prop := {
  inv_list fd p : mainloop_list s !! fd = Some p ->
    bad_fd fd = false /\ fd <> epoll_fd s /\ exists l, group (heap s) (g_signal_data s) fd p l;
  inv_kern : interest (kern s) (epoll_fd s) = mainloop_list s;
  inv_heap x b : heap s !! x = Some b ->
    match label b with
    | Some fd => exists p l, mainloop_list s !! fd = Some p /\ group (heap s) (g_signal_data s) fd p l /\ x ∈ l
    | None => g_signal_data s = Some x
    end;
  inv_signal x : g_signal_data s = Some x -> exists d, heap s !! x = Some (Signal d)
}.

(** ** Groups *)

Lemma group_labels h g fd p l x : group h g fd p l -> x ∈ l -> exists b, h !! x = Some b /\ label b = Some fd.
Proof.
  intros Hg Hx. destruct Hg; repeat (apply elem_of_cons in Hx as [->|Hx]); try (by inversion Hx);
    eexists; (split; [eassumption|done]).
Qed.

Lemma group_head h g fd p l : group h g fd p l -> p ∈ l /\ NoDup l.
Proof.
  intros Hg. destruct Hg as [? ? ? ? Hp|? ? ? ? ? Hp Hq|? ? ? ? ? ? ? Hp Hq Hr|? ? ? Hp]; (split; [apply elem_of_cons; by left|]);
    repeat (apply NoDup_cons; split; [|try apply NoDup_nil_2]); set_unfold; naive_solver congruence.
Qed.

(** A group lives in the blocks of its descriptor and in those of the signals. *)
Lemma group_mono h h' g fd p l :
  group h g fd p l -> (forall x b, h !! x = Some b -> label b = Some fd \/ label b = None -> h' !! x = Some b) ->
  group h' g fd p l.
Proof.
  intros Hg Hh. destruct Hg.
  - eapply group_event; [apply Hh; [eassumption|by left]|done].
  - eapply group_timeout; [apply Hh; [eassumption|by left]|apply Hh; [eassumption|by left]|done].
  - eapply group_timer; apply Hh; try eassumption; by left.
  - eapply group_signal; [apply Hh; [eassumption|by left]|done|apply Hh; [eassumption|by right]|done].
Qed.

(** The group of an entry is determined by the heap. *)
Lemma group_unique h g fd p l l' : group h g fd p l -> group h g fd p l' -> l = l'.
Proof. intros Hg Hg'. destruct Hg, Hg'; simplify_eq; done. Qed.

(** ** Running programs *)

Lemma bindM {A B} (m : M A) (f : A -> M B) s a s' : m s = Ret (a, s') -> (m ≫= f) s = f a s'.
Proof. intros Hm. unfold mbind, M_bind. by rewrite Hm. Qed.

(** Only the kernel moved, and not the interest list. *)
Definition quiet (s s' : loop) : Prop :=
  exists k, s' = set_kern k s /\ interest k (epoll_fd s) = interest (kern s) (epoll_fd s).

Lemma quiet_refl s : quiet s s.
Proof. exists (kern s). by destruct s. Qed.

Lemma quiet_trans s1 s2 s3 : quiet s1 s2 -> quiet s2 s3 -> quiet s1 s3.
Proof. intros (k2 & -> & H2) (k3 & -> & H3). exists k3. split; [done|]. cbn in *. congruence. Qed.

Lemma inv_quiet s s' : inv s -> quiet s s' -> inv s'.
Proof. intros Hs (k & -> & Hk). split; cbn; try apply Hs. rewrite Hk. apply Hs. Qed.

Lemma call_run c s : exists r k, sys c (kern s) = (r, k) /\ call c s = Ret (r, set_kern k s).
Proof. unfold call. destruct (sys c (kern s)) as [r k]. eauto. Qed.

(** System calls that leave the interest lists alone. *)
Definition calm (c : syscall) : Prop :=
  match c with timerfd_create | timerfd_settime _ _ _ | signalfd | sigprocmask | read _ => True | _ => False end.

Lemma call_calm c s : calm c -> exists r s', call c s = Ret (r, s') /\ quiet s s'.
Proof.
  intros Hc. destruct (call_run c s) as (r & k & Hsys & ->). eexists _, _. split; [done|]. exists k. split; [done|].
  enough (interest k = interest (kern s)) as -> by done. destruct c; try done;
    [by apply timerfd_law in Hsys as [? _]|by eapply settime_law|by apply signalfd_law in Hsys as [? _]|by eapply sigprocmask_law|by eapply read_law].
Qed.

(** [close] of a descriptor that the loop does not watch. *)
Lemma close_quiet fd s :
  interest (kern s) (epoll_fd s) !! fd = None -> (epoll_fd s = fd -> interest (kern s) fd = ∅) ->
  exists r s', call (close fd) s = Ret (r, s') /\ quiet s s'.
Proof.
  intros Hnone Hempty. destruct (call_run (close fd) s) as (r & k & Hsys & ->). eexists _, _. split; [done|]. exists k.
  split; [done|]. rewrite (close_law _ _ _ _ _ Hsys). destruct (decide _) as [<-|?]; [by rewrite Hempty|by apply delete_id].
Qed.

Lemma malloc_run b s :
  (exists s', malloc b s = Ret (None, s') /\ quiet s s') \/
  (exists p s', malloc b s = Ret (Some p, set_heap (<[p := b]> (heap s)) s') /\ quiet s s' /\ heap s !! p = None).
Proof.
  unfold malloc. destruct (malloc_block (dom (heap s)) (kern s)) as [[p|] k] eqn:Hm.
  - right. apply malloc_law in Hm as [Hp Hk]. exists p, (set_kern k s). split_and!; [done|by exists k; rewrite Hk|].
    by apply not_elem_of_dom.
  - left. apply malloc_error_law in Hm. eexists. split; [done|]. exists k. by rewrite Hm.
Qed.

Lemma free_run p b s : heap s !! p = Some b -> free p s = Ret ((), set_heap (delete p (heap s)) s).
Proof. intros Hp. unfold free. by rewrite Hp. Qed.

Lemma store_run p b b' s : heap s !! p = Some b -> store p b' s = Ret ((), set_heap (<[p := b']> (heap s)) s).
Proof. intros Hp. unfold store. by rewrite Hp. Qed.

(** ** Registration *)

(** [s'] is [s] with the descriptor [fd] registered at [p] and the heap [h]. *)
Definition registered (s s' : loop) (fd : Z) (p : ptr) (h : gmap ptr block) : Prop :=
  bad_fd fd = false /\ fd <> epoll_fd s /\ interest (kern s) (epoll_fd s) !! fd = None /\
  exists k, s' = set_list (<[fd := p]> (mainloop_list s)) (set_heap h (set_kern k s)) /\
    interest k (epoll_fd s) = <[fd := p]> (interest (kern s) (epoll_fd s)).

Lemma epoll_add_fd_run fd ev cb u d s :
  exists r s', epoll_add_fd fd ev (Some cb) u d s = Ret (r, s') /\
    (r < 0 /\ quiet s s' \/
     r = 0 /\ exists p, heap s !! p = None /\
       registered s s' fd p (<[p := Mainloop (mk_mainloop_data fd ev cb d u)]> (heap s))).
Proof.
  unfold epoll_add_fd. destruct (bad_fd fd) eqn:Hbad.
  { eexists _, _. split; [done|]. left. split; [done|apply quiet_refl]. }
  destruct (malloc_run (Mainloop (mk_mainloop_data fd ev cb d u)) s) as [(s1 & Hm & Hq)|(p & s1 & Hm & Hq & Hp)].
  { rewrite (bindM _ _ _ _ _ Hm). eexists _, _. split; [done|]. by left. }
  rewrite (bindM _ _ _ _ _ Hm). set (s2 := set_heap _ s1) in *. rewrite (bindM _ _ _ (epoll_fd s2) s2) by done.
  destruct Hq as (k & -> & Hk). cbn in s2.
  destruct (call_run (epoll_ctl (epoll_fd s2) EPOLL_CTL_ADD fd ev p) s2) as (r & k' & Hsys & Hc). rewrite (bindM _ _ _ _ _ Hc).
  apply add_law in Hsys as [[Hr Hsame]|(Hr & Hne & Hnone & Hins)]; cbn in *.
  - rewrite (proj2 (Z.ltb_lt _ _)) by done. rewrite (bindM _ _ _ _ _ (free_run p _ _ (lookup_insert_eq _ _ _))).
    eexists _, _. split; [done|]. left. split; [done|]. exists k'. split; [|congruence].
    cbn. rewrite delete_insert_id by done. by destruct s.
  - rewrite (proj2 (Z.ltb_ge _ _)) by done. eexists _, _. split; [reflexivity|]. right. split; [done|]. exists p. split; [done|].
    split_and!; [done|done|congruence|]. exists k'. split; [by destruct s|]. rewrite Hins. by rewrite Hk.
Qed.

(** The entry of a timeout and its data. *)
Definition timeout_blocks (p q : ptr) (fd : Z) cb d u (h : gmap ptr block) : gmap ptr block :=
  <[p := Mainloop (mk_mainloop_data fd (Z.lor EPOLLIN EPOLLONESHOT) timeout_callback (Some timeout_destroy) (Block q))]>
    (<[q := Timeout (mk_timeout_data fd cb d u)]> h).

Lemma quiet_heap h s s' : quiet s s' -> quiet (set_heap h s) (set_heap h s').
Proof. intros (k & -> & Hk). by exists k. Qed.

(** A new block that is given back. *)
Lemma free_new q b s s' :
  heap s !! q = None -> quiet (set_heap (<[q := b]> (heap s)) s) s' ->
  exists s2, free q s' = Ret ((), s2) /\ quiet s s2.
Proof.
  intros Hq (k & -> & Hk). rewrite (free_run q b) by apply lookup_insert_eq. eexists. split; [done|]. exists k. split; [|done].
  cbn. rewrite delete_insert_id by done. by destruct s.
Qed.

(** The same after [close] of a descriptor that was just made. *)
Lemma close_free_new {A} fd q b s s' (x : A) :
  heap s !! q = None -> quiet (set_heap (<[q := b]> (heap s)) s) s' ->
  (epoll_fd s = fd -> interest (kern s) fd = ∅) -> interest (kern s) (epoll_fd s) !! fd = None ->
  exists s2, (_ ← call (close fd); _ ← free q; mret x) s' = Ret (x, s2) /\ quiet s s2.
Proof.
  intros Hq Hs He Hn. assert (Hs' := Hs). destruct Hs' as (k & E & Hk). destruct (close_quiet fd s') as (r & s3 & Hc & Hs3).
  - subst s'. cbn in *. by rewrite Hk.
  - subst s'. cbn in *. intros <-. rewrite Hk. by apply He.
  - rewrite (bindM _ _ _ _ _ Hc). destruct (free_new q b s s3 Hq) as (s2 & Hf & Hs2); [by eapply quiet_trans|].
    rewrite (bindM _ _ _ _ _ Hf). eexists. by split.
Qed.

Lemma timeout_set_run fd msec s :
  exists r s', (if 0 <? msec then timeout_set fd msec else mret 0) s = Ret (r, s') /\ quiet s s'.
Proof.
  destruct (0 <? msec).
  - by apply call_calm.
  - eexists _, _. split; [done|apply quiet_refl].
Qed.

Lemma epoll_add_timeout_run msec cb u d s :
  exists r s', epoll_add_timeout msec (Some cb) u d s = Ret (r, s') /\
    (r < 0 /\ quiet s s' \/
     0 <= r /\ exists p q, heap s !! p = None /\ heap s !! q = None /\ p <> q /\
       registered s s' r p (timeout_blocks p q r cb d u (heap s))).
Proof.
  unfold epoll_add_timeout.
  destruct (malloc_run (Timeout (mk_timeout_data 0 cb d u)) s) as [(s1 & Hm & Hq)|(q & s1 & Hm & Hq & Hp)].
  { rewrite (bindM _ _ _ _ _ Hm). eexists _, _. split; [done|]. by left. }
  rewrite (bindM _ _ _ _ _ Hm). clear Hm. destruct Hq as (k & -> & Hk).
  destruct (call_run timerfd_create (set_heap (<[q:=Timeout (mk_timeout_data 0 cb d u)]> (heap s)) (set_kern k s))) as (fd & k1 & Hsys & Hc).
  rewrite (bindM _ _ _ _ _ Hc). clear Hc. apply timerfd_law in Hsys as [Hk1 Hfresh].
  rewrite (bindM _ _ _ _ _ (store_run q _ _ _ (lookup_insert_eq _ _ _))). cbn in *. rewrite insert_insert_eq.
  set (b := Timeout (mk_timeout_data fd cb d u)). set (s2 := set_heap _ _).
  assert (quiet (set_heap (<[q := b]> (heap s)) s) s2) as Hs2 by (exists k1; cbn; split; [done|congruence]).
  destruct (Z.ltb_spec fd 0) as [Hneg|Hpos].
  { destruct (free_new q b s s2 Hp Hs2) as (s3 & Hf & Hs3). rewrite (bindM _ _ _ _ _ Hf). eexists _, _. split; [done|]. by left. }
  destruct (Hfresh Hpos) as [Hempty Hnone].
  assert (epoll_fd s = fd -> interest (kern s) fd = ∅) as He by (intros <-; congruence).
  assert (interest (kern s) (epoll_fd s) !! fd = None) as Hn by (rewrite <-Hk; apply Hnone).
  destruct (timeout_set_run fd msec s2) as (r & s3 & Hset & Hs3). rewrite (bindM _ _ _ _ _ Hset).
  assert (quiet (set_heap (<[q := b]> (heap s)) s) s3) as Hs3' by by eapply quiet_trans.
  destruct (Z.ltb_spec r 0).
  { destruct (close_free_new fd q b s s3 (- EIO) Hp Hs3' He Hn) as (s4 & -> & Hs4). eexists _, _. split; [done|]. by left. }
  destruct (epoll_add_fd_run fd (Z.lor EPOLLIN EPOLLONESHOT) timeout_callback (Block q) (Some timeout_destroy) s3)
    as (r' & s4 & Hadd & Hres). rewrite (bindM _ _ _ _ _ Hadd). destruct Hres as [[Hr' Hs4]|(-> & p & Hpn & Hreg)].
  - rewrite (proj2 (Z.ltb_lt _ _)) by done.
    destruct (close_free_new fd q b s s4 (- EIO) Hp (quiet_trans _ _ _ Hs3' Hs4) He Hn) as (s5 & -> & Hs5).
    eexists _, _. split; [done|]. by left.
  - eexists _, _. split; [done|]. right. split; [done|]. destruct Hs3' as (k3 & -> & Hk3). cbn in *.
    apply lookup_insert_None in Hpn as [Hpn Hqp]. exists p, q. split_and!; try done.
    destruct Hreg as (Hb & Hne & _ & k4 & -> & Hk4). cbn in *. split_and!; try done. exists k4. split; [by destruct s|]. congruence.
Qed.

Lemma timeout_add_run msec f v d s :
  is_Some (malloc_block (dom (heap s)) (kern s)).1 ->
  exists r s', timeout_add msec f v d s = Ret (r, s') /\
    (r = 0 /\ quiet s s' \/
     0 <= r /\ exists p q x, heap s !! p = None /\ heap s !! q = None /\ heap s !! x = None /\ p <> q /\ p <> x /\ q <> x /\
       registered s s' r p (<[x := Timer (mk_timer_data r f d msec v)]>
         (timeout_blocks p q r timer_callback (Some timer_destroy) (Block x) (heap s)))).
Proof.
  intros Hmem. unfold timeout_add. set (b0 := Timer (mk_timer_data 0 f d msec v)).
  destruct (malloc_run b0 s) as [(s1 & Hm & Hq)|(x & s1 & Hm & Hq & Hx)].
  { exfalso. unfold malloc in Hm. destruct Hmem as [y Hy].
    destruct (malloc_block _ _) as [[?|] ?]; [done|]. cbn in Hy. done. }
  rewrite (bindM _ _ _ _ _ Hm). clear Hm. apply (quiet_heap (<[x := b0]> (heap s))) in Hq.
  set (s2 := set_heap _ s1) in *.
  destruct (epoll_add_timeout_run msec timer_callback (Block x) (Some timer_destroy) s2) as (id & s3 & Hadd & Hres).
  rewrite (bindM _ _ _ _ _ Hadd). destruct Hres as [[Hid Hs3]|(Hid & p & q & Hp & Hqn & Hpq & Hreg)].
  - pose proof (quiet_trans _ _ _ Hq Hs3) as (k & -> & Hk). rewrite (bindM _ _ _ _ _ (store_run x _ _ _ (lookup_insert_eq _ _ _))).
    rewrite (proj2 (Z.ltb_lt _ _)) by done. cbn. rewrite insert_insert_eq.
    match goal with |- context [(free x ≫= _) ?st] =>
      destruct (free_new x (Timer (mk_timer_data id f d msec v)) s st Hx) as (s4 & Hf & Hs4); [by exists k|] end.
    rewrite (bindM _ _ _ _ _ Hf). eexists _, _. split; [done|]. by left.
  - destruct Hq as (k & -> & Hk). cbn in *. apply lookup_insert_None in Hp as [Hp Hxp], Hqn as [Hqn Hxq].
    destruct Hreg as (Hb & Hne & Hnone & k3 & -> & Hk3). cbn in *.
    match goal with |- context [(store x ?b ≫= _) ?st] =>
      assert (heap st !! x = Some b0) as Hst; [cbn; unfold timeout_blocks; rewrite !lookup_insert_ne by done; apply lookup_insert_eq|] end.
    rewrite (bindM _ _ _ _ _ (store_run x b0 _ _ Hst)).
    rewrite (proj2 (Z.ltb_ge _ _)) by done. eexists _, _. split; [done|]. right. split; [done|]. exists p, q, x.
    split_and!; try done. split_and!; [done|done|congruence|]. exists k3. split; [|congruence].
    cbn. f_equal. f_equal. unfold timeout_blocks.
    rewrite (insert_insert_ne _ q x), (insert_insert_ne _ p x), insert_insert_eq by done.
    rewrite (insert_insert_ne _ x p), (insert_insert_ne _ x q) by done. done.
Qed.

(** A new descriptor with the blocks [l] keeps the invariant. *)
Lemma inv_register s s' fd p h l :
  inv s -> registered s s' fd p h -> heap s ⊆ h -> group h (g_signal_data s) fd p l ->
  (forall x b, h !! x = Some b -> heap s !! x = Some b \/ x ∈ l) -> inv s'.
Proof.
  intros Hs (Hb & Hne & Hnone & k & -> & Hk) Hsub Hg Hnew. rewrite (inv_kern s Hs) in *.
  assert (forall fd' p' l', group (heap s) (g_signal_data s) fd' p' l' -> group h (g_signal_data s) fd' p' l') as Hmono.
  { intros. eapply group_mono; [done|]. intros x b Hx _. by eapply lookup_weaken. }
  split; cbn.
  - intros fd' p' [[<- <-]|[Hfd Hp']]%lookup_insert_Some; [by eauto|].
    destruct (inv_list s Hs fd' p' Hp') as (? & ? & l' & Hl'). eauto.
  - done.
  - intros x b Hx. destruct (Hnew x b Hx) as [Hold|Hin].
    + pose proof (inv_heap s Hs x b Hold) as Hb'. destruct (label b) as [fd'|]; [|done].
      destruct Hb' as (p' & l' & Hp' & Hl' & Hin). exists p', l'. split_and!; [|by apply Hmono|done].
      rewrite lookup_insert_ne by congruence. done.
    + destruct (group_labels _ _ _ _ _ x Hg Hin) as (b' & Hb' & Hlab). assert (b' = b) as -> by congruence. rewrite Hlab.
      exists p, l. split_and!; [apply lookup_insert_eq|done|done].
  - intros x Hx. destruct (inv_signal s Hs x Hx) as [d Hd]. exists d. by eapply lookup_weaken.
Qed.

(** ** Removal *)

(** The call of the application that destroying a block makes. *)
Definition block_destroy (b : block) : list (nat * Z) :=
  match b with
  | Mainloop d => match md_destroy d, md_user_data d with Some (UserDestroy f), User v => [(f, v)] | _, _ => [] end
  | Timeout d => match td_destroy d, td_user_data d with Some (UserDestroy f), User v => [(f, v)] | _, _ => [] end
  | Timer d => match tm_destroy d with Some f => [(f, tm_user_data d)] | None => [] end
  | Signal _ => []
  end.
Definition owed (h : gmap ptr block) (l : list ptr) : list (nat * Z) :=
  flat_map (fun x => match h !! x with Some b => block_destroy b | None => [] end) l.

Definition delete_all (l : list ptr) (h : gmap ptr block) : gmap ptr block := foldr delete h l.

Lemma delete_all_lookup l h x : delete_all l h !! x = if decide (x ∈ l) then None else h !! x.
Proof.
  induction l as [|y l IH]; [by rewrite decide_False by set_solver|]. change (delete_all (y :: l) h) with (delete y (delete_all l h)).
  destruct (decide (x = y)) as [->|Hne].
  - rewrite lookup_delete_eq, decide_True by set_solver. done.
  - rewrite lookup_delete_ne by done. rewrite IH. destruct (decide (x ∈ l)); [rewrite decide_True by set_solver|rewrite decide_False by set_solver]; done.
Qed.

Lemma load_mainloop_run p d s : heap s !! p = Some (Mainloop d) -> load_mainloop p s = Ret (d, s).
Proof. intros Hp. unfold load_mainloop, mbind, M_bind, load. by rewrite Hp. Qed.
Lemma load_timeout_run p d s : heap s !! p = Some (Timeout d) -> load_timeout p s = Ret (d, s).
Proof. intros Hp. unfold load_timeout, mbind, M_bind, load. by rewrite Hp. Qed.
Lemma load_timer_run p d s : heap s !! p = Some (Timer d) -> load_timer p s = Ret (d, s).
Proof. intros Hp. unfold load_timer, mbind, M_bind, load. by rewrite Hp. Qed.
Lemma load_signal_run p d s : heap s !! p = Some (Signal d) -> load_signal p s = Ret (d, s).
Proof. intros Hp. unfold load_signal, mbind, M_bind, load. by rewrite Hp. Qed.

(** What is left of [s] when the blocks [l] of [fd] are gone. *)
Definition dropped (s s' : loop) (fd : Z) (l : list ptr) : Prop :=
  exists k, s' = set_destroyed (destroyed s ++ owed (heap s) l) (set_heap (delete_all l (heap s)) (set_kern k s)) /\
    interest k (epoll_fd s) = delete fd (interest (kern s) (epoll_fd s)).

(** [timeout_destroy] of epoll_loop.c, for both kinds of timeouts. *)
Lemma run_timeout_destroy_run s fd p q l g :
  group (heap s) g fd p (p :: q :: l) -> fd <> epoll_fd s ->
  exists s', run_timeout_destroy q s = Ret ((), s') /\ dropped s s' fd (q :: l).
Proof.
  intros Hg Hne. unfold run_timeout_destroy.
  destruct (call_run (close fd) s) as (r & k & Hsys & Hc). pose proof (close_law _ _ _ _ (epoll_fd s) Hsys) as Hk.
  rewrite decide_False in Hk by done.
  inversion Hg as [|? ? f d v Hp Hq Hd|? x ? f d msec v Hp Hq Hx|]; subst.
  - rewrite (bindM _ _ _ _ _ (load_timeout_run q _ s Hq)). cbn [td_fd]. rewrite (bindM _ _ _ _ _ Hc).
    rewrite (bindM _ _ _ _ _ (store_run q _ _ (set_kern k s) Hq)). cbn [td_destroy td_user_data].
    destruct Hd as [->|[f' ->]].
    + rewrite (bindM _ _ _ () _ eq_refl). erewrite free_run by apply lookup_insert_eq. eexists. split; [done|].
      exists k. split; [|done]. cbn. unfold owed. cbn. rewrite Hq. cbn. rewrite app_nil_r, delete_insert_eq. by destruct s.
    + rewrite (bindM _ _ _ () _ eq_refl). erewrite free_run by apply lookup_insert_eq. eexists. split; [done|].
      exists k. split; [|done]. cbn. unfold owed. cbn. rewrite Hq. cbn. by rewrite delete_insert_eq.
  - assert (q <> x) as Hqx by congruence.
    rewrite (bindM _ _ _ _ _ (load_timeout_run q _ s Hq)). cbn [td_fd]. rewrite (bindM _ _ _ _ _ Hc).
    rewrite (bindM _ _ _ _ _ (store_run q _ _ (set_kern k s) Hq)). cbn [td_destroy td_user_data]. set (s1 := set_heap _ _).
    assert (heap s1 !! x = Some (Timer (mk_timer_data fd f d msec v))) as Hx1 by (cbn; by rewrite lookup_insert_ne).
    assert (exists s2, run_timer_destroy x s1 = Ret ((), s2) /\
      s2 = set_destroyed (destroyed s ++ owed (heap s) [q; x]) (set_heap (delete x (heap s1)) s1)) as (s2 & Hrun & ->).
    { unfold run_timer_destroy. rewrite (bindM _ _ _ _ _ (load_timer_run x _ s1 Hx1)). cbn [tm_destroy tm_user_data].
      unfold owed. cbn. rewrite Hq, Hx. cbn. destruct d as [f'|].
      - rewrite (bindM _ _ _ () _ eq_refl). erewrite free_run by exact Hx1. by eexists.
      - rewrite (bindM _ _ _ () _ eq_refl). erewrite free_run by exact Hx1. eexists. split; [done|]. rewrite app_nil_r. by destruct s. }
    rewrite (bindM _ _ _ _ _ Hrun). erewrite free_run by (cbn; rewrite lookup_delete_ne by done; apply lookup_insert_eq).
    eexists. split; [done|]. exists k. split; [|done]. unfold s1. cbn. f_equal. f_equal.
    rewrite (delete_insert_ne _ x q), delete_insert_eq, delete_delete by done. done.
Qed.

(** The destroy function of an entry, called with the kernel [k] after the entry left the interest list. *)
Lemma entry_destroy_run s k g fd p l ev cb dst u :
  group (heap s) g fd p l -> fd <> epoll_fd s ->
  heap s !! p = Some (Mainloop (mk_mainloop_data fd ev cb dst u)) ->
  interest k (epoll_fd s) = delete fd (interest (kern s) (epoll_fd s)) ->
  exists l1 s2, (match dst with Some f => run_destroy f u | None => mret () end) (set_kern k s) = Ret ((), s2) /\
    l = p :: l1 /\ exists k2, s2 = set_destroyed (destroyed s ++ owed (heap s) l) (set_heap (delete_all l1 (heap s)) (set_kern k2 s)) /\
    interest k2 (epoll_fd s) = delete fd (interest (kern s) (epoll_fd s)).
Proof.
  intros Hg Hne Hp Hk.
  assert (forall l1, owed (heap s) (p :: l1) = block_destroy (Mainloop (mk_mainloop_data fd ev cb dst u)) ++ owed (heap s) l1) as Howed.
  { intros l1. unfold owed. cbn [flat_map]. by rewrite Hp. }
  assert (forall q l1, l = p :: q :: l1 -> dst = Some timeout_destroy -> u = Block q -> exists l1 s2,
    run_destroy timeout_destroy (Block q) (set_kern k s) = Ret ((), s2) /\ l = p :: l1 /\
    exists k2, s2 = set_destroyed (destroyed s ++ owed (heap s) l1) (set_heap (delete_all l1 (heap s)) (set_kern k2 s)) /\
      interest k2 (epoll_fd s) = delete fd (interest (kern s) (epoll_fd s))) as Htimeout.
  { intros q l1 -> -> ->. destruct (run_timeout_destroy_run (set_kern k s) fd p q l1 g Hg Hne) as (s2 & Hrun & k2 & -> & Hk2).
    eexists (q :: l1), _. split_and!; [exact Hrun|done|]. exists k2. split; [done|]. cbn in Hk2. rewrite Hk2, Hk. apply delete_delete_eq. }
  destruct Hg as [ev' f d' v Hp' Hd|q ev' f d' v Hp' Hq Hd|q x ev' f d' msec v Hp' Hq Hx|q ev' d' Hp' Hq Hd]; simplify_eq.
  - destruct Hd as [->|[f' ->]]; (eexists [], _; split_and!; [reflexivity|done|]); exists k; (split; [|done]);
      rewrite Howed; cbn; rewrite ?app_nil_r; by destruct s.
  - destruct (Htimeout q [] eq_refl eq_refl eq_refl) as (l1 & s2 & ? & [= <-] & ?). eexists _, _. split_and!; [done|done|]. by rewrite Howed.
  - destruct (Htimeout q [x] eq_refl eq_refl eq_refl) as (l1 & s2 & ? & [= <-] & ?). eexists _, _. split_and!; [done|done|]. by rewrite Howed.
  - eexists [], _. split_and!; [reflexivity|done|]. exists k. split; [|done]. rewrite Howed. cbn. rewrite ?app_nil_r. by destruct s.
Qed.

Lemma drop_entry_run s g fd p l :
  group (heap s) g fd p l -> fd <> epoll_fd s -> is_Some (interest (kern s) (epoll_fd s) !! fd) ->
  exists r s', drop_entry p s = Ret (r, s') /\ dropped s s' fd l.
Proof.
  intros Hg Hne Hreg. unfold drop_entry.
  assert (exists ev cb dst u, heap s !! p = Some (Mainloop (mk_mainloop_data fd ev cb dst u))) as (ev & cb & dst & u & Hp) by (destruct Hg; eauto).
  rewrite (bindM _ _ _ _ _ (load_mainloop_run p _ s Hp)), (bindM _ _ _ (epoll_fd s) s) by done. cbn [md_fd md_destroy md_user_data].
  destruct (call_run (epoll_ctl (epoll_fd s) EPOLL_CTL_DEL fd 0 0%nat) s) as (r & k & Hsys & Hc). rewrite (bindM _ _ _ _ _ Hc).
  pose proof (del_law _ _ _ _ _ _ _ Hsys Hreg) as Hk. pose proof (group_head _ _ _ _ _ Hg) as [_ Hnd].
  destruct (entry_destroy_run s k g fd p l ev cb dst u Hg Hne Hp Hk) as (l1 & s2 & Hrun & -> & k2 & -> & Hk2).
  rewrite (bindM _ _ _ _ _ Hrun). set (s2 := set_destroyed _ _). apply NoDup_cons in Hnd as [Hnin _].
  assert (heap s2 !! p = Some (Mainloop (mk_mainloop_data fd ev cb dst u))) as Hp2 by (cbn; rewrite delete_all_lookup, decide_False by done; done).
  rewrite (bindM _ _ _ _ _ (free_run p _ s2 Hp2)). eexists _, _. split; [done|]. by exists k2.
Qed.

(** A descriptor that is gone with its blocks. *)
Lemma inv_unregister s s' fd p l :
  inv s -> mainloop_list s !! fd = Some p -> group (heap s) (g_signal_data s) fd p l ->
  dropped (set_list (delete fd (mainloop_list s)) s) s' fd l -> inv s'.
Proof.
  intros Hs Hp Hg (k & -> & Hk). cbn in *. rewrite (inv_kern s Hs) in Hk.
  assert (forall fd' p' l', fd' <> fd -> group (heap s) (g_signal_data s) fd' p' l' ->
    group (delete_all l (heap s)) (g_signal_data s) fd' p' l') as Hmono.
  { intros fd' p' l' Hne Hl'. eapply group_mono; [done|]. intros x b Hx Hlab. rewrite delete_all_lookup. rewrite decide_False; [done|].
    intros Hin. destruct (group_labels _ _ _ _ _ x Hg Hin) as (b' & Hb' & Hlab'). assert (b' = b) as -> by congruence.
    rewrite Hlab' in Hlab. destruct Hlab as [[= ?]|?]; done. }
  split; cbn.
  - intros fd' p' [Hne Hp']%lookup_delete_Some. destruct (inv_list s Hs fd' p' Hp') as (? & ? & l' & Hl'). eauto 10.
  - done.
  - intros x b. rewrite delete_all_lookup. destruct (decide (x ∈ l)) as [|Hnin]; [done|]. intros Hx.
    pose proof (inv_heap s Hs x b Hx) as Hb. destruct (label b) as [fd'|]; [|done].
    destruct Hb as (p' & l' & Hp' & Hl' & Hin). exists p', l'. assert (fd' <> fd) as Hne.
    { intros ->. assert (p' = p) as -> by congruence. by rewrite (group_unique _ _ _ _ _ _ Hg Hl') in Hnin. }
    split_and!; [by rewrite lookup_delete_ne by congruence|by apply Hmono|done].
  - intros x Hx. destruct (inv_signal s Hs x Hx) as [d Hd]. exists d. rewrite delete_all_lookup, decide_False; [done|].
    intros Hin. destruct (group_labels _ _ _ _ _ x Hg Hin) as (b' & Hb' & Hlab'). by simplify_eq/=.
Qed.

(** ** What a call leaves alone *)

(** A block up to its events. *)
Definition relax (b : block) : block :=
  match b with
  | Mainloop d => Mainloop (mk_mainloop_data (md_fd d) 0 (md_callback d) (md_destroy d) (md_user_data d))
  | _ => b
  end.

(** No entry is the one of the signals. *)
Definition no_signal (h : gmap ptr block) : Prop :=
  forall x d, h !! x = Some (Mainloop d) -> md_callback d <> signal_callback.

(** Descriptors outside [A] stay registered, with their blocks; the variables for the signals and
    the end of the loop are kept. *)
Record frame (A : Z -> Prop) (s s' : loop) : Prop := {
  frame_fd : epoll_fd s' = epoll_fd s;
  frame_signal : g_signal_data s' = g_signal_data s;
  frame_terminate : epoll_terminate s = true -> epoll_terminate s' = true;
  frame_signals x d : heap s !! x = Some (Signal d) -> heap s' !! x = Some (Signal d);
  frame_list fd p : ~ A fd -> mainloop_list s !! fd = Some p -> mainloop_list s' !! fd = Some p;
  frame_heap fd x b : ~ A fd -> is_Some (mainloop_list s !! fd) -> heap s !! x = Some b -> label b = Some fd ->
    exists b', heap s' !! x = Some b' /\ relax b' = relax b;
  frame_no_signal : no_signal (heap s) -> no_signal (heap s')
}.

Lemma relax_label b b' : relax b' = relax b -> label b' = label b.
Proof. intros Heq. destruct b, b'; cbn in *; try discriminate; injection Heq; congruence. Qed.

Lemma frame_refl A s : frame A s s.
Proof. split; eauto. Qed.

Lemma frame_trans A s1 s2 s3 : frame A s1 s2 -> frame A s2 s3 -> frame A s1 s3.
Proof.
  intros F1 F2. split.
  - rewrite (frame_fd _ _ _ F2). apply F1.
  - rewrite (frame_signal _ _ _ F2). apply F1.
  - intros. by apply F2, F1.
  - intros x d Hx. by apply F2, F1.
  - intros fd p HA Hp. apply F2; [done|]. by apply F1.
  - intros fd x b HA [p Hp] Hx Hlab. destruct (frame_heap _ _ _ F1 fd x b HA ltac:(by exists p) Hx Hlab) as (b1 & Hb1 & Hr1).
    destruct (frame_heap _ _ _ F2 fd x b1 HA) as (b2 & Hb2 & Hr2); [exists p; by apply F1|done|by rewrite (relax_label _ _ Hr1)|].
    exists b2. split; [done|congruence].
  - intros. by apply F2, F1.
Qed.

Lemma frame_mono (A B : Z -> Prop) s s' : (forall fd, A fd -> B fd) -> frame A s s' -> frame B s s'.
Proof. intros HAB F. split; try apply F; intros; eapply F; eauto. Qed.

Lemma quiet_frame A s s' : quiet s s' -> frame A s s'.
Proof. intros (k & -> & _). split; cbn; eauto. Qed.

Lemma register_frame A s s' fd p h :
  registered s s' fd p h -> inv s -> heap s ⊆ h -> (no_signal (heap s) -> no_signal h) -> frame A s s'.
Proof.
  intros (_ & _ & Hnone & k & -> & _) Hs Hsub Hno. rewrite (inv_kern s Hs) in Hnone. split; cbn; eauto.
  - intros x d Hx. by eapply lookup_weaken.
  - intros fd' p' _ Hp'. rewrite lookup_insert_ne by congruence. done.
  - intros fd' x b _ _ Hx _. exists b. split; [by eapply lookup_weaken|done].
Qed.

Lemma dropped_frame (A : Z -> Prop) s s' fd p l :
  A fd -> inv s -> mainloop_list s !! fd = Some p -> group (heap s) (g_signal_data s) fd p l ->
  dropped (set_list (delete fd (mainloop_list s)) s) s' fd l -> frame A s s'.
Proof.
  intros HA Hs Hp Hg (k & -> & _).
  assert (forall x b, heap s !! x = Some b -> label b <> Some fd -> delete_all l (heap s) !! x = Some b) as Hkeep.
  { intros x b Hx Hlab. rewrite delete_all_lookup, decide_False; [done|]. intros Hin.
    destruct (group_labels _ _ _ _ _ x Hg Hin) as (b' & Hb' & Hlab'). congruence. }
  split; cbn; eauto.
  - intros fd' p' HA' Hp'. rewrite lookup_delete_ne by congruence. done.
  - intros fd' x b HA' _ Hx Hlab. exists b. split; [|done]. apply Hkeep; [done|]. congruence.
  - intros Hno x d. rewrite delete_all_lookup. destruct (decide _); [done|]. apply Hno.
Qed.

(** A call keeps the invariant and changes only what it may. *)
Definition sound {A} (P : Z -> Prop) (m : M A) : Prop :=
  forall s, inv s -> exists a s', m s = Ret (a, s') /\ inv s' /\ frame P s s'.

Lemma sound_ret {A} P (a : A) : sound P (mret a).
Proof. intros s Hs. exists a, s. split_and!; [done|done|apply frame_refl]. Qed.

Lemma sound_bind {A B} P (m : M A) (f : A -> M B) : sound P m -> (forall a, sound P (f a)) -> sound P (m ≫= f).
Proof.
  intros Hm Hf s Hs. destruct (Hm s Hs) as (a & s1 & Hrun & Hs1 & F1). destruct (Hf a s1 Hs1) as (b & s2 & Hrun2 & Hs2 & F2).
  exists b, s2. rewrite (bindM _ _ _ _ _ Hrun). split_and!; [done|done|by eapply frame_trans].
Qed.

Lemma sound_mono {A} (P Q : Z -> Prop) (m : M A) : (forall fd, P fd -> Q fd) -> sound P m -> sound Q m.
Proof. intros HPQ Hm s Hs. destruct (Hm s Hs) as (a & s1 & Hrun & Hs1 & F1). exists a, s1. split_and!; [done|done|by eapply frame_mono]. Qed.

Lemma sound_quiet {A} P (m : M A) : (forall s, exists a s', m s = Ret (a, s') /\ quiet s s') -> sound P m.
Proof.
  intros Hm s Hs. destruct (Hm s) as (a & s' & Hrun & Hq). exists a, s'. split_and!; [done|by eapply inv_quiet|by apply quiet_frame].
Qed.

(** ** The calls *)

Lemma by_user_map d : by_user (option_map UserDestroy d).
Proof. destruct d; [right; by eexists|by left]. Qed.

(** A registration of new blocks [l], by [inv_register] and [register_frame]. *)
Lemma registered_ok P s s' fd p h l :
  inv s -> registered s s' fd p h -> heap s ⊆ h -> group h (g_signal_data s) fd p l ->
  (forall x b, h !! x = Some b -> heap s !! x = Some b \/ x ∈ l) -> (no_signal (heap s) -> no_signal h) -> inv s' /\ frame P s s'.
Proof. intros. split; [by eapply inv_register|by eapply register_frame]. Qed.

Lemma quiet_ok P s s' : inv s -> quiet s s' -> inv s' /\ frame P s s'.
Proof. intros. split; [by eapply inv_quiet|by apply quiet_frame]. Qed.

Lemma no_signal_insert h p b :
  no_signal h -> (match b with Mainloop d => md_callback d <> signal_callback | _ => True end) -> no_signal (<[p := b]> h).
Proof. intros Hno Hb x d [[<- ->]|[_ Hx]]%lookup_insert_Some; [done|by eapply Hno]. Qed.

Lemma sound_add_fd P fd ev f v d : sound P (epoll_add_fd fd ev (option_map UserEvent f) (User v) (option_map UserDestroy d)).
Proof.
  destruct f as [f|]; [|apply sound_ret]. intros s Hs.
  destruct (epoll_add_fd_run fd ev (UserEvent f) (User v) (option_map UserDestroy d) s) as (r & s' & Hrun & [[_ Hq]|(_ & p & Hp & Hreg)]);
    exists r, s'; (split; [done|]); [by apply quiet_ok|].
  eapply (registered_ok _ _ _ _ _ _ [p]); [done|done|by apply insert_subseteq|eapply group_event; [apply lookup_insert_eq|apply by_user_map]|
    |intros; by apply no_signal_insert].
  intros x b [[<- _]|[_ ?]]%lookup_insert_Some; [right; set_solver|by left].
Qed.

Lemma timeout_blocks_sub p q fd cb d u h : h !! p = None -> h !! q = None -> p <> q -> h ⊆ timeout_blocks p q fd cb d u h.
Proof. intros. etrans; [by apply insert_subseteq|]. apply insert_subseteq. by rewrite lookup_insert_ne. Qed.

Lemma sound_add_timeout P msec f v d : sound P (epoll_add_timeout msec (option_map UserTimeout f) (User v) (option_map UserDestroy d)).
Proof.
  destruct f as [f|]; [|apply sound_ret]. intros s Hs.
  destruct (epoll_add_timeout_run msec (UserTimeout f) (User v) (option_map UserDestroy d) s)
    as (r & s' & Hrun & [[_ Hq]|(_ & p & q & Hp & Hq & Hpq & Hreg)]); exists r, s'; (split; [done|]); [by apply quiet_ok|].
  eapply (registered_ok _ _ _ _ _ _ [p; q]); [done|done|by apply timeout_blocks_sub|eapply group_timeout| |intros; unfold timeout_blocks; repeat (apply no_signal_insert; [|done]); done].
  - apply lookup_insert_eq.
  - unfold timeout_blocks. rewrite lookup_insert_ne by done. apply lookup_insert_eq.
  - apply by_user_map.
  - unfold timeout_blocks. intros x b [[<- _]|[_ [[<- _]|[_ ?]]%lookup_insert_Some]]%lookup_insert_Some; [right; set_solver|right; set_solver|by left].
Qed.

Lemma timeout_add_ok P msec f v d s : is_Some (malloc_block (dom (heap s)) (kern s)).1 -> inv s ->
  exists r s', timeout_add msec f v d s = Ret (r, s') /\ inv s' /\ frame P s s'.
Proof.
  intros Hmem Hs. destruct (timeout_add_run msec f v d s Hmem) as (r & s' & Hrun & [[_ Hq]|(_ & p & q & x & Hp & Hq & Hx & Hpq & Hpx & Hqx & Hreg)]);
    exists r, s'; (split; [done|]); [by apply quiet_ok|].
  assert (timeout_blocks p q r timer_callback (Some timer_destroy) (Block x) (heap s) !! x = None) as Hnew.
  { unfold timeout_blocks. by rewrite !lookup_insert_ne. }
  eapply (registered_ok _ _ _ _ _ _ [p; q; x]); [done|done| |eapply group_timer| |intros; unfold timeout_blocks; repeat (apply no_signal_insert; [|done]); done].
  - etrans; [by apply (timeout_blocks_sub p q)|]. by apply insert_subseteq.
  - rewrite lookup_insert_ne by done. apply lookup_insert_eq.
  - rewrite lookup_insert_ne by done. unfold timeout_blocks. rewrite lookup_insert_ne by done. apply lookup_insert_eq.
  - apply lookup_insert_eq.
  - unfold timeout_blocks. intros y b [[<- _]|[_ [[<- _]|[_ [[<- _]|[_ ?]]%lookup_insert_Some]]%lookup_insert_Some]]%lookup_insert_Some;
      [right; set_solver|right; set_solver|right; set_solver|by left].
Qed.

Lemma sound_timeout_add P msec f v d : (forall live k, is_Some (malloc_block live k).1) -> sound P (timeout_add msec f v d).
Proof. intros Hmem s Hs. by apply timeout_add_ok. Qed.

Lemma sound_remove_fd (P : Z -> Prop) fd : P fd -> sound P (epoll_remove_fd fd).
Proof.
  intros HP. unfold epoll_remove_fd. destruct (bad_fd fd); [apply sound_ret|]. intros s Hs.
  rewrite (bindM _ _ _ (mainloop_list s !! fd) s) by done. destruct (mainloop_list s !! fd) as [p|] eqn:Hp; [|by apply sound_ret].
  rewrite (bindM _ _ _ () (set_list (delete fd (mainloop_list s)) s)) by done.
  destruct (inv_list s Hs fd p Hp) as (_ & Hne & l & Hg).
  destruct (drop_entry_run (set_list (delete fd (mainloop_list s)) s) (g_signal_data s) fd p l) as (r & s' & Hrun & Hd); [done|done| |].
  { cbn. rewrite (inv_kern s Hs), Hp. by eexists. }
  exists r, s'. split_and!; [done|by eapply inv_unregister|by eapply dropped_frame].
Qed.

Lemma relax_mainloop b fd ev cb d u :
  relax b = relax (Mainloop (mk_mainloop_data fd ev cb d u)) -> exists ev', b = Mainloop (mk_mainloop_data fd ev' cb d u).
Proof. destruct b as [[]| | |]; cbn; intros [=]; subst. by eexists. Qed.

Lemma relax_other b b' : (match b with Mainloop _ => False | _ => True end) -> relax b' = relax b -> b' = b.
Proof. destruct b, b'; cbn; intros; done. Qed.

(** A group survives changes of events. *)
Lemma group_relax h h' g fd p l :
  group h g fd p l ->
  (forall x b, h !! x = Some b -> label b = Some fd \/ label b = None -> exists b', h' !! x = Some b' /\ relax b' = relax b) ->
  group h' g fd p l.
Proof.
  intros Hg Hh.
  assert (forall p ev cb d u, h !! p = Some (Mainloop (mk_mainloop_data fd ev cb d u)) ->
    exists ev', h' !! p = Some (Mainloop (mk_mainloop_data fd ev' cb d u))) as Hm.
  { intros x ev cb d u Hx. destruct (Hh _ _ Hx (or_introl eq_refl)) as (b' & Hb' & [ev' ->]%relax_mainloop). eauto. }
  assert (forall x b, h !! x = Some b -> (match b with Mainloop _ => False | _ => True end) -> label b = Some fd \/ label b = None ->
    h' !! x = Some b) as Ho.
  { intros x b Hx Hb Hlab. destruct (Hh _ _ Hx Hlab) as (b' & Hb' & Hr). by rewrite (relax_other b b' Hb Hr) in Hb'. }
  destruct Hg as [ev f d v Hp|q ev f d v Hp Hq|q x ev f d msec v Hp Hq Hx|q ev d Hp ? Hq]; destruct (Hm _ _ _ _ _ Hp) as [ev' Hp'].
  - by eapply group_event.
  - eapply group_timeout; [exact Hp'|apply Ho; [exact Hq|done|by left]|done].
  - eapply group_timer; [exact Hp'|apply Ho; [exact Hq|done|by left]|apply Ho; [exact Hx|done|by left]].
  - eapply group_signal; [exact Hp'|done|apply Ho; [exact Hq|done|by right]|done].
Qed.

Lemma sound_modify_fd P fd ev : sound P (epoll_modify_fd fd ev).
Proof.
  unfold epoll_modify_fd. destruct (bad_fd fd); [apply sound_ret|]. intros s Hs.
  rewrite (bindM _ _ _ (mainloop_list s !! fd) s) by done. destruct (mainloop_list s !! fd) as [p|] eqn:Hp; [|by apply sound_ret].
  destruct (inv_list s Hs fd p Hp) as (_ & Hne & l & Hg).
  assert (exists ev0 cb d u, heap s !! p = Some (Mainloop (mk_mainloop_data fd ev0 cb d u))) as (ev0 & cb & d & u & Hb) by (destruct Hg; eauto).
  rewrite (bindM _ _ _ _ _ (load_mainloop_run p _ s Hb)), (bindM _ _ _ (epoll_fd s) s) by done. cbn [md_fd].
  destruct (call_run (epoll_ctl (epoll_fd s) EPOLL_CTL_MOD fd ev p) s) as (r & k & Hsys & Hc). rewrite (bindM _ _ _ _ _ Hc).
  assert (quiet s (set_kern k s)) as Hq. { exists k. split; [done|]. eapply mod_law; [done|]. by rewrite (inv_kern s Hs). }
  destruct (quiet_ok P s _ Hs Hq) as [Hs1 F1].
  destruct (r <? 0); [by exists r, (set_kern k s)|]. set (b' := Mainloop _).
  rewrite (bindM _ _ _ _ _ (store_run p _ b' (set_kern k s) Hb)). eexists 0, _. split; [done|].
  assert (forall x b, heap s !! x = Some b -> exists b1, <[p := b']> (heap s) !! x = Some b1 /\ relax b1 = relax b) as Hrel.
  { intros x b Hx. destruct (decide (x = p)) as [->|Hxp]; [|exists b; by rewrite lookup_insert_ne].
    exists b'. rewrite lookup_insert_eq. split; [done|]. by assert (b = Mainloop (mk_mainloop_data fd ev0 cb d u)) as -> by congruence. }
  assert (forall fd' p' l', group (heap s) (g_signal_data s) fd' p' l' -> group (<[p := b']> (heap s)) (g_signal_data s) fd' p' l') as Hmono.
  { intros. eapply group_relax; [done|]. intros. by apply Hrel. }
  split.
  - destruct Hs1 as [H1 H2 H3 H4]. cbn in *. split; cbn.
    + intros fd' p' Hp'. destruct (H1 fd' p' Hp') as (? & ? & l' & Hl'). eauto.
    + done.
    + intros x b Hx. assert (exists b0, heap s !! x = Some b0 /\ label b = label b0) as (b0 & Hb0 & ->).
      { apply lookup_insert_Some in Hx as [[<- <-]|[_ Hx]]; [by eexists|by eexists]. }
      pose proof (H3 x b0 Hb0) as Hlab. destruct (label b0); [|done]. destruct Hlab as (p' & l' & ? & ? & ?). eauto 10.
    + intros x Hx. destruct (H4 x Hx) as [sd Hsd]. exists sd. rewrite lookup_insert_ne; [done|]. intros ->. congruence.
  - split; cbn; eauto.
    + intros x sd Hx. rewrite lookup_insert_ne; [done|]. intros ->. congruence.
    + intros Hno. apply no_signal_insert; [done|]. cbn. exact (Hno _ _ Hb).
Qed.

Lemma sound_modify_timeout P id msec : sound P (epoll_modify_timeout id msec).
Proof.
  apply sound_bind; [apply sound_quiet; intros; apply timeout_set_run|]. intros r. destruct (r <? 0); [apply sound_ret|].
  apply sound_bind; [apply sound_modify_fd|]. intros r'. destruct (r' <? 0); apply sound_ret.
Qed.

Lemma sound_modify_end P (f : loop -> loop) :
  (forall s, f s = set_terminate true s \/ exists z, f s = set_terminate true (set_exit_status z s)) -> sound P (modify f).
Proof.
  intros Hf s Hs. exists (), (f s). split; [done|].
  destruct (Hf s) as [->|[z ->]]; (split; [destruct Hs; split; cbn; eauto|split; cbn; eauto]).
Qed.

(** What a program of the application may do: remove the descriptors in [P], and use timeout.c
    only when memory cannot run out. *)
Definition request_ok (P : Z -> Prop) (r : request) : Prop :=
  match r with
  | RemoveFd fd | RemoveTimeout fd | TimeoutRemove fd => P fd
  | TimeoutAdd _ _ _ _ => forall live k, is_Some (malloc_block live k).1
  | _ => True
  end.

Inductive program_ok (P : Z -> Prop) : program -> Prop :=
| ok_done r : program_ok P (Done r)
| ok_request r k : request_ok P r -> (forall z, program_ok P (k z)) -> program_ok P (Request r k).

Lemma sound_perform P r : request_ok P r -> sound P (perform r).
Proof.
  intros Hr. destruct r; cbn [perform].
  - apply sound_add_fd.
  - apply sound_modify_fd.
  - by apply sound_remove_fd.
  - apply sound_add_timeout.
  - apply sound_modify_timeout.
  - by apply sound_remove_fd.
  - by apply sound_timeout_add.
  - apply sound_bind; [|intros; apply sound_ret]. unfold timeout_remove. destruct (id =? 0); [apply sound_ret|].
    apply sound_bind; [by apply sound_remove_fd|intros; apply sound_ret].
  - apply sound_bind; [apply sound_modify_end; auto|intros; apply sound_ret].
  - apply sound_bind; [apply sound_modify_end; eauto|intros; apply sound_ret].
  - apply sound_bind; [apply sound_modify_end; eauto|intros; apply sound_ret].
Qed.

Lemma sound_exec P p : program_ok P p -> sound P (exec p).
Proof. induction 1 as [r|r k Hr _ IH]; cbn [exec]; [apply sound_ret|]. apply sound_bind; [by apply sound_perform|done]. Qed.

(** ** Memory *)

Definition anything : Z -> Prop := fun _ => True.

(** The program comes to a [timeout_add] that gets no memory. *)
Inductive starved : program -> loop -> Prop :=
| starved_now msec f v d k s : (malloc_block (dom (heap s)) (kern s)).1 = None -> starved (Request (TimeoutAdd msec f v d) k) s
| starved_later r k s z s' : perform r s = Ret (z, s') -> starved (k z) s' -> starved (Request r k) s.

(** Without a condition on the program: it returns, or it writes to the null pointer of [new0]. *)
Lemma exec_cases p : forall s, inv s ->
  (exists r s', exec p s = Ret (r, s') /\ inv s' /\ frame anything s s') \/ (starved p s /\ exec p s = Undef).
Proof.
  induction p as [r|r k IH]; intros s Hs; [left; by apply sound_ret|]. cbn [exec].
  assert ((exists z s', perform r s = Ret (z, s') /\ inv s' /\ frame anything s s') \/
    (exists msec f v d, r = TimeoutAdd msec f v d) /\ (malloc_block (dom (heap s)) (kern s)).1 = None) as [(z & s1 & Hrun & Hs1 & F1)|[(msec & f & v & d & ->) Hnone]].
  { destruct (decide (is_Some (malloc_block (dom (heap s)) (kern s)).1)) as [Hmem|Hnone].
    - left. destruct r as [| | | | | |msec f v d| | | |]; try by apply (sound_perform anything). by apply (timeout_add_ok anything msec f v d).
    - apply eq_None_not_Some in Hnone. destruct r as [| | | | | |msec f v d| | | |]; try (left; by apply (sound_perform anything)). right. eauto 10. }
  - rewrite (bindM _ _ _ _ _ Hrun). destruct (IH z s1 Hs1) as [(x & s2 & Hrun2 & Hs2 & F2)|[Hst Hu]].
    + left. exists x, s2. split_and!; [done|done|by eapply frame_trans].
    + right. split; [by eapply starved_later|done].
  - right. split; [by apply starved_now|]. cbn [perform]. unfold timeout_add, mbind, M_bind, malloc. by destruct (malloc_block _ _) as [[?|] ?].
Qed.

(** ** Dispatch *)

(** The functions of the application remove no descriptor but the one they are called for; those of
    timeout.c, which is removed by their result, and of the signals remove none. *)
Record application_ok (app : application) : Prop := {
  ok_event f fd ev v : program_ok (eq fd) (on_event app f fd ev v);
  ok_timeout f fd v : program_ok (eq fd) (on_timeout app f fd v);
  ok_timer f v : program_ok (fun _ => False) (on_timer app f v);
  ok_signal f signo v : program_ok (fun _ => False) (on_signal app f signo v)
}.

Context (app : application) (Happ : application_ok app).

Lemma run_timer_callback_ok s fd p q x :
  inv s -> mainloop_list s !! fd = Some p -> group (heap s) (g_signal_data s) fd p [p; q; x] ->
  exists s', run_timer_callback app x s = Ret ((), s') /\ inv s' /\ frame (eq fd) s s'.
Proof.
  intros Hs Hp Hg. unfold run_timer_callback.
  assert (exists f d msec v, heap s !! x = Some (Timer (mk_timer_data fd f d msec v))) as (f & d & msec & v & Hx).
  { inversion Hg; subst. eauto. }
  assert (forall s', frame (fun _ => False) s s' -> heap s' !! x = Some (Timer (mk_timer_data fd f d msec v))) as Hkept.
  { intros s' F. destruct (frame_heap _ _ _ F fd x _ (fun f => f) ltac:(by eexists) Hx eq_refl) as (b' & Hb' & Hr).
    by rewrite (relax_other (Timer _) b' I Hr) in Hb'. }
  assert (forall s', frame (fun _ => False) s s' -> frame (eq fd) s s') as Hweak by (intros s' F; eapply frame_mono; [|exact F]; done).
  rewrite (bindM _ _ _ _ _ (load_timer_run x _ s Hx)). cbn [tm_func tm_user_data].
  destruct (sound_exec _ _ (ok_timer app Happ f v) s Hs) as (again & s1 & Hrun & Hs1 & F1). rewrite (bindM _ _ _ _ _ Hrun).
  assert (exists r s2, (if (again : bool) then d ← load_timer x; epoll_modify_timeout (tm_id d) (tm_timeout d) else mret 1) s1 = Ret (r, s2) /\
    inv s2 /\ frame (fun _ => False) s1 s2) as (r & s2 & Hrun2 & Hs2 & F2).
  { destruct again; [|by apply sound_ret]. rewrite (bindM _ _ _ _ _ (load_timer_run x _ s1 (Hkept _ F1))). by apply sound_modify_timeout. }
  rewrite (bindM _ _ _ _ _ Hrun2). pose proof (frame_trans _ _ _ _ F1 F2) as F12.
  destruct (r =? 0); [exists s2; split_and!; [done|done|by apply Hweak]|].
  rewrite (bindM _ _ _ _ _ (load_timer_run x _ s2 (Hkept _ F12))). cbn [tm_id].
  destruct (sound_remove_fd (eq fd) fd eq_refl s2 Hs2) as (r3 & s3 & Hrun3 & Hs3 & F3).
  unfold epoll_remove_timeout. rewrite (bindM _ _ _ _ _ Hrun3). exists s3. split_and!; [done|done|].
  eapply frame_trans; [by apply Hweak|done].
Qed.

Lemma dispatch_ok s fd ev p :
  inv s -> mainloop_list s !! fd = Some p ->
  exists s', dispatch app ev p s = Ret ((), s') /\ inv s' /\ frame (eq fd) s s'.
Proof.
  intros Hs Hp. destruct (inv_list s Hs fd p Hp) as (_ & _ & l & Hg). unfold dispatch.
  assert (forall m : M bool, sound (eq fd) m -> exists s', (_ ← m; mret ()) s = Ret ((), s') /\ inv s' /\ frame (eq fd) s s') as Hm.
  { intros m Hm. destruct (sound_bind (eq fd) m (fun _ => mret ()) Hm (fun _ => sound_ret _ ()) s Hs) as ([] & s' & ?). eauto. }
  inversion Hg as [ev' f d v Hb|q ev' f d v Hb Hq|q x ev' f d msec v Hb Hq Hx|q ev' d Hb Hq Hsd Hfd]; subst l;
    rewrite (bindM _ _ _ _ _ (load_mainloop_run p _ s Hb)); cbn [md_callback md_user_data md_fd].
  - apply Hm, sound_exec, Happ.
  - unfold run_timeout_callback. destruct (negb _); [exists s; split_and!; [done|done|apply frame_refl]|].
    rewrite (bindM _ _ _ _ _ (load_timeout_run q _ s Hq)). cbn [td_fd td_callback td_user_data].
    destruct (call_calm (read fd) s I) as (r & s1 & Hc & Hq1). rewrite (bindM _ _ _ _ _ Hc). destruct (quiet_ok (eq fd) s s1 Hs Hq1) as [Hs1 F1].
    destruct (negb _); [by exists s1|].
    destruct (sound_bind (eq fd) _ (fun _ => mret ()) (sound_exec _ _ (ok_timeout app Happ f fd v)) (fun _ => sound_ret _ ()) s1 Hs1) as ([] & s2 & Hrun & Hs2 & F2).
    exists s2. split_and!; [exact Hrun|done|by eapply frame_trans].
  - unfold run_timeout_callback. destruct (negb _); [exists s; split_and!; [done|done|apply frame_refl]|].
    rewrite (bindM _ _ _ _ _ (load_timeout_run q _ s Hq)). cbn [td_fd td_callback td_user_data].
    destruct (call_calm (read fd) s I) as (r & s1 & Hc & Hq1). rewrite (bindM _ _ _ _ _ Hc). destruct (quiet_ok (eq fd) s s1 Hs Hq1) as [Hs1 F1].
    destruct (negb _); [by exists s1|]. destruct Hq1 as (k & -> & Hk).
    destruct (run_timer_callback_ok (set_kern k s) fd p q x Hs1 Hp Hg) as (s2 & Hrun & Hs2 & F2). exists s2. split_and!; [exact Hrun|done|by eapply frame_trans].
  - unfold run_signal_callback. destruct (negb _).
    { destruct (sound_modify_end (eq fd) (set_terminate true) ltac:(auto) s Hs) as ([] & s' & ?). eauto. }
    destruct (call_calm (read fd) s I) as (r & s1 & Hc & Hq1). rewrite (bindM _ _ _ _ _ Hc). destruct (quiet_ok (eq fd) s s1 Hs Hq1) as [Hs1 F1].
    destruct (negb _); [by exists s1|]. rewrite (bindM _ _ _ _ _ (load_signal_run q _ s1 (frame_signals _ _ _ F1 q d Hsd))).
    rewrite (bindM _ _ _ (ssi_signo (kern s1)) s1) by done.
    destruct (sound_bind (fun _ => False) _ (fun _ => mret ()) (sound_exec _ _ (ok_signal app Happ (sd_callback d) (ssi_signo (kern s1)) (sd_user_data d))) (fun _ => sound_ret _ ()) s1 Hs1) as ([] & s2 & Hrun & Hs2 & F2).
    exists s2. split_and!; [exact Hrun|done|]. eapply frame_trans; [exact F1|]. eapply frame_mono; [|exact F2]. done.
Qed.
End Invariant.
