(* ===== verification/EpollRun.v ===== *)
(** Runs of the event loop of src/epoll: it stays in its memory and leaves nothing behind. *)

From stdpp Require Import gmap.
From S2P Require Import Prelude Epoll EpollSpec.

Section Run.
Context `{Kernel} `{!KernelLaws} (app : application).

(** ** Rounds *)



(** ** The signals *)

(** Groups do not depend on the signal block before the loop runs. *)
Lemma inv_set_signal s h g x d k :
  inv s -> no_signal (heap s) -> (forall y b, label b <> None -> h !! y = Some b <-> heap s !! y = Some b) ->
  g = Some x -> h !! x = Some (Signal d) -> (forall y d, h !! y = Some (Signal d) -> y = x) ->
  interest k (epoll_fd s) = interest (kern s) (epoll_fd s) ->
  inv (set_signal g (set_heap h (set_kern k s))) /\ no_signal h.
Proof.
  intros Hs Hno Hh -> Hx Huniq Hk.
  assert (forall fd p l, group (heap s) (g_signal_data s) fd p l -> group h (Some x) fd p l) as Hg.
  { intros fd p l Hg. destruct Hg as [ev f d' v Hp|q ev f d' v Hp Hq|q y ev f d' msec v Hp Hq Hy|q ev d' Hp].
    - eapply group_event; [by apply Hh|done].
    - eapply group_timeout; [by apply Hh|by apply Hh|done].
    - eapply group_timer; by apply Hh.
    - by destruct (Hno _ _ Hp). }
  split.
  - split; cbn.
    + intros fd p Hp. destruct (inv_list s Hs fd p Hp) as (? & ? & l & ?). eauto.
    + rewrite Hk. apply Hs.
    + intros y b Hy. destruct (label b) as [fd|] eqn:Hlab.
      * apply Hh in Hy; [|congruence]. pose proof (inv_heap s Hs y b Hy) as Hb. rewrite Hlab in Hb.
        destruct Hb as (p & l & ? & ? & ?). eauto 10.
      * destruct b; try done. f_equal. symmetry. by eapply Huniq.
    + intros y [= <-]. by eexists.
  - intros y d' Hy. apply Hh in Hy; [|done]. by eapply Hno.
Qed.

(** A loop that does not run. *)
Definition idle (s : loop) : Prop := inv s /\ no_signal (heap s).

Lemma signal_block s y d : inv s -> heap s !! y = Some (Signal d) -> g_signal_data s = Some y.
Proof. intros Hs Hy. exact (inv_heap s Hs y _ Hy). Qed.

Lemma epoll_set_signal_ok m c v d s :
  idle s -> exists r s', epoll_set_signal m c v d s = Ret (r, s') /\ idle s'.
Proof.
  intros [Hs Hno]. unfold epoll_set_signal. destruct m, c as [c|]; try (eexists _, s; by split).
  set (b := Signal _). destruct (malloc_run b s) as [(s1 & Hm & Hq)|(p & s1 & Hm & Hq & Hp)]; rewrite (bindM _ _ _ _ _ Hm).
  { eexists _, s1. split; [done|]. destruct (quiet_ok anything s s1 Hs Hq) as [Hs1 F1]. split; [done|]. by apply F1. }
  destruct Hq as (k & -> & Hk). set (s2 := set_heap _ _). rewrite (bindM _ _ _ (g_signal_data s) s2) by done.
  assert (forall y d, heap s !! y = Some (Signal d) -> g_signal_data s = Some y) as Hsig by (intros; by eapply signal_block).
  destruct (g_signal_data s) as [q|] eqn:Hg.
  - destruct (inv_signal s Hs q Hg) as [dq Hdq]. assert (p <> q) as Hpq by congruence.
    assert (heap s2 !! q = Some (Signal dq)) as Hq2 by (cbn; by rewrite lookup_insert_ne).
    rewrite (bindM _ _ _ _ _ (free_run q _ s2 Hq2)). cbn. eexists _, _. split; [done|].
    change (idle (set_signal (Some p) (set_heap (delete q (<[p := b]> (heap s))) (set_kern k s)))).
    apply (inv_set_signal s (delete q (<[p := b]> (heap s))) (Some p) p (mk_signal_data (-1) c d v) k); [done|done| |done| | |done].
    + intros y b' Hlab. rewrite lookup_delete_Some, lookup_insert_Some. split.
      * intros [_ [[-> <-]|[_ ?]]]; [done|done].
      * intros Hy. assert (q <> y) by (intros <-; rewrite Hdq in Hy; by simplify_eq/=). split; [done|]. right. split; [congruence|done].
    + rewrite lookup_delete_ne by done. apply lookup_insert_eq.
    + intros y d'. rewrite lookup_delete_Some, lookup_insert_Some. intros [Hqy [[-> _]|[_ Hy]]]; [done|]. apply Hsig in Hy. congruence.
  - rewrite (bindM _ _ _ () s2) by done. cbn. eexists _, _. split; [done|].
    change (idle (set_signal (Some p) (set_heap (<[p := b]> (heap s)) (set_kern k s)))).
    apply (inv_set_signal s (<[p := b]> (heap s)) (Some p) p (mk_signal_data (-1) c d v) k); [done|done| |done|apply lookup_insert_eq| |done].
    + intros y b' Hlab. rewrite lookup_insert_Some. split; [intros [[-> <-]|[_ ?]]; done|]. intros Hy. right. split; [congruence|done].
    + intros y d'. rewrite lookup_insert_Some. intros [[-> _]|[_ Hy]]; [done|]. apply Hsig in Hy. congruence.
Qed.

(** The states between [epoll_init] and [epoll_run]. *)
Inductive setup : loop -> Prop :=
| setup_init s s' : heap s = ∅ -> g_signal_data s = None -> epoll_init s = Ret ((), s') -> setup s'
| setup_exec p r s s' : setup s -> exec p s = Ret (r, s') -> setup s'
| setup_signal m c v d r s s' : setup s -> epoll_set_signal m c v d s = Ret (r, s') -> setup s'.

Lemma setup_idle s : setup s -> idle s.
Proof.
  induction 1 as [s s' Hh Hg Hinit|p r s s' _ [Hs Hno] Hexec|m c v d r s s' _ Hs Hset].
  - unfold epoll_init in Hinit. destruct (call_run epoll_create1 s) as (fd & k & Hsys & Hc). rewrite (bindM _ _ _ _ _ Hc) in Hinit.
    injection Hinit as <-. split; [|cbn; rewrite Hh; intros x d; by rewrite lookup_empty].
    split; cbn; rewrite ?Hh, ?Hg; [done|by eapply create_law|intros x b; by rewrite lookup_empty|done].
  - destruct (exec_cases p s Hs) as [(r' & s2 & Hrun & Hs2 & F)|[_ Hu]]; [|by rewrite Hu in Hexec]. rewrite Hrun in Hexec. injection Hexec as _ <-.
    split; [done|]. by apply F.
  - destruct (epoll_set_signal_ok m c v d s Hs) as (r' & s2 & Hrun & Hs2). rewrite Hrun in Hset. by injection Hset as _ <-.
Qed.



(** ** The end *)






(** C23: From [epoll_init] on, whatever descriptors and timeouts the program adds, changes and
    removes, and whatever the kernel and [malloc] answer, every call returns without touching freed memory, and
    the table, the blocks and the interest list of the kernel agree.  The one exception is a call of [timeout_add]
    for which [malloc] has no memory: its [new0] then writes to a null pointer. *)
Theorem epoll_setup_invariant s p :
  setup s -> inv s /\ ((exists r s', exec p s = Ret (r, s') /\ inv s') \/ (starved p s /\ exec p s = Undef)).
Proof.
  intros [Hs _]%setup_idle. split; [done|]. destruct (exec_cases p s Hs) as [(r & s' & ? & ? & _)|?]; [left; eauto|by right].
Qed.


(** ** Ending the loop *)






End Run.
