(* ===== verification/EpollKernel.v ===== *)
(** A kernel that satisfies what the event loop relies on, and runs of the loop on it.

    It has one epoll instance, descriptor 3, reports every registered descriptor at each wait and
    never runs out of memory. *)

From stdpp Require Import gmap.
From S2P Require Import Prelude Epoll EpollSpec EpollRun.

Record toy := mk_toy { toy_interest : gmap Z ptr; toy_next : Z }.

Definition toy_new_fd (k : toy) : Z * toy :=
  let fd := toy_next k in
  if (fd =? 3) || (match toy_interest k !! fd with Some _ => true | None => false end) then (-1, k)
  else (fd, mk_toy (toy_interest k) (fd + 1)).

Definition toy_sys (c : syscall) (k : toy) : Z * toy :=
  match c with
  | epoll_create1 => (3, mk_toy ∅ (toy_next k))
  | epoll_ctl epfd EPOLL_CTL_ADD fd _ p =>
      if negb (epfd =? 3) || (fd =? 3) || (match toy_interest k !! fd with Some _ => true | None => false end) then (-1, k)
      else (0, mk_toy (<[fd := p]> (toy_interest k)) (toy_next k))
  | epoll_ctl epfd EPOLL_CTL_DEL fd _ _ =>
      if epfd =? 3 then (0, mk_toy (delete fd (toy_interest k)) (toy_next k)) else (-1, k)
  | epoll_ctl _ EPOLL_CTL_MOD _ _ _ => (0, k)
  | timerfd_create | signalfd => toy_new_fd k
  | timerfd_settime _ _ _ | sigprocmask => (0, k)
  | read _ => (8, k)
  | close fd => (0, mk_toy (if fd =? 3 then ∅ else delete fd (toy_interest k)) (toy_next k))
  end.

#[export] Instance toy_kernel : Kernel := {|
  kernel := toy;
  sys := toy_sys;
  epoll_wait epfd k := if epfd =? 3 then (Some ((fun x => (EPOLLIN, snd x)) <$> map_to_list (toy_interest k)), k) else (None, k);
  malloc_block live k := (Some (fresh live), k);
  ssi_signo k := 2;
  interest k epfd := if epfd =? 3 then toy_interest k else ∅
|}.

Lemma toy_new_fd_law k fd k' :
  toy_new_fd k = (fd, k') -> interest k' = interest k /\ (0 <= fd -> interest k fd = ∅ /\ forall epfd, interest k epfd !! fd = None).
Proof.
  unfold toy_new_fd. destruct (Z.eqb_spec (toy_next k) 3) as [|Hne]; cbn [orb]; [intros [= <- <-]; split; [done|lia]|].
  destruct (toy_interest k !! toy_next k) eqn:E; intros [= <- <-]; (split; [done|]); [lia|]. intros _. cbn.
  rewrite (proj2 (Z.eqb_neq _ _)) by done. split; [done|]. intros epfd. by destruct (epfd =? 3).
Qed.

#[export] Instance toy_laws : KernelLaws.
Proof.
  split; cbn.
  - by intros k r k' [= <- <-].
  - intros epfd fd ev p k r k'. destruct (Z.eqb_spec epfd 3) as [->|?]; cbn [negb orb]; [|intros [= <- <-]; by left].
    destruct (Z.eqb_spec fd 3) as [?|?]; cbn [orb]; [intros [= <- <-]; by left|].
    destruct (toy_interest k !! fd) eqn:E; intros [= <- <-]; [by left|right]. done.
  - by intros epfd fd ev p k r k' [= <- <-].
  - intros epfd fd ev p k r k'. destruct (Z.eqb_spec epfd 3) as [->|?]; intros [= <- <-]; [done|by intros [? ?]].
  - apply toy_new_fd_law.
  - apply toy_new_fd_law.
  - by intros fd sec nsec k r k' [= <- <-].
  - by intros k r k' [= <- <-].
  - by intros fd k r k' [= <- <-].
  - intros fd k r k' epfd [= <- <-]. cbn. destruct (Z.eqb_spec epfd 3) as [->|?].
    + destruct (Z.eqb_spec fd 3) as [->|?]; [by rewrite decide_True|by rewrite decide_False by congruence].
    + destruct (decide _); [done|]. by rewrite delete_empty.
  - intros epfd k l k'. destruct (Z.eqb_spec epfd 3) as [->|?]; [|done]. intros [= <- <-]. split; [done|].
    exists ((map_to_list (toy_interest k)).*1). split; [apply NoDup_fst_map_to_list|].
    rewrite Forall2_fmap. apply Forall_Forall2_diag, Forall_forall. intros [fd p] Hin. cbn. by apply elem_of_map_to_list.
  - intros epfd k k'. destruct (epfd =? 3); [done|]. by intros [= <-].
  - intros live k p k' [= <- <-]. split; [apply is_fresh|done].
  - by intros live k k' [=].
Qed.

(** ** Runs *)

Definition boot : loop := mk_loop _ 0 false 0 ∅ None ∅ [] (mk_toy ∅ 10).
Definition after (p : program) : loop :=
  match (_ ← epoll_init; exec p) boot with Ret (_, s) => s | _ => boot end.

Lemma after_setup p : program_ok anything p -> setup (after p).
Proof.
  intros Hp. unfold after. destruct (epoll_init boot) as [[[] s]| |] eqn:Hi; [|done..]. rewrite (bindM _ _ _ _ _ Hi).
  assert (setup s) as Hs by by eapply (setup_init boot). pose proof (setup_idle s Hs) as [Hinv _].
  destruct (sound_exec anything p Hp s Hinv) as (r & s' & Hrun & _). rewrite Hrun. by eapply setup_exec.
Qed.

(** Two descriptors and a timer of timeout.c. *)
Definition two_and_timer : program :=
  Request (AddFd 5 EPOLLIN (Some 0%nat) 0 (Some 1%nat)) (fun _ =>
  Request (AddFd 6 EPOLLIN (Some 0%nat) 1 None) (fun _ =>
  Request (TimeoutAdd 250 0 7 (Some 2%nat)) (fun _ => Done true))).

Lemma two_and_timer_ok : program_ok anything two_and_timer.
Proof. repeat (constructor; cbn; intros; eauto). Qed.

(** Descriptor 5 removes itself, 6 ends the loop, the timer runs once. *)
Definition polite : application := {|
  on_event f fd ev v := if v =? 0 then Request (RemoveFd fd) (fun _ => Done true) else Request Quit (fun _ => Done true);
  on_timeout f fd v := Done true;
  on_timer f v := Done false;
  on_signal f signo v := Request Quit (fun _ => Done true)
|}.


Lemma epoll_setup_invariant_witness :
  inv (after two_and_timer) /\ ((exists r s', exec (Request (RemoveFd 6) (fun _ => Done true)) (after two_and_timer) = Ret (r, s') /\ inv s') \/
    (starved (Request (RemoveFd 6) (fun _ => Done true)) (after two_and_timer) /\ exec (Request (RemoveFd 6) (fun _ => Done true)) (after two_and_timer) = Undef)).
Proof. apply (epoll_setup_invariant (after two_and_timer) (Request (RemoveFd 6) (fun _ => Done true))). apply after_setup, two_and_timer_ok. Defined.


(** The run ends, and both destroy functions of the application were called once. *)
Example polite_run :
  match epoll_run polite 3 (after two_and_timer) with
  | Ret (r, s) => (r, destroyed s, map_to_list (mainloop_list s))
  | _ => (None, [], [])
  end = (Some 0, [(1%nat, 0); (2%nat, 7)], []).
Proof. vm_compute. reflexivity. Qed.


(** ** Where the code fails *)

(** Two descriptors are ready and the function of either one removes the other: the second event of the
    round uses the freed entry. *)
Definition rude : application := {|
  on_event f fd ev v := Request (RemoveFd (11 - fd)) (fun _ => Done true);
  on_timeout f fd v := Done true;
  on_timer f v := Request (TimeoutRemove v) (fun _ => Done true);
  on_signal f signo v := Done true
|}.

Definition two : program :=
  Request (AddFd 5 EPOLLIN (Some 0%nat) 0 None) (fun _ => Request (AddFd 6 EPOLLIN (Some 0%nat) 1 None) (fun _ => Done true)).

Theorem stale_event_used : epoll_run rude 1 (after two) = Undef.
Proof. vm_compute. reflexivity. Qed.

(** A function of timeout.c that removes its own timeout: its data is used after that. *)
Theorem self_removed_timer_used :
  epoll_run rude 1 (after (Request (TimeoutAdd 250 0 10 None) (fun _ => Done true))) = Undef.
Proof. vm_compute. reflexivity. Qed.
