(* ===== verification/Hex.v ===== *)
(** Strings of hexadecimal digits, tokens and the exchange of two values: src/util/utils.c. *)

From S2P Require Import Prelude Util.

(** ** Bytes to digits *)

Definition space : Z := 32.
Definition dot : Z := 46.

Definition flag_spaces (flags : Z) : bool := Z.testbit flags 0.
Definition flag_ascii (flags : Z) : bool := Z.testbit flags 1.
Definition flag_upper (flags : Z) : bool := Z.testbit flags 2.

(** [hexdigits_upper] and [hexdigits_lower] *)
Definition hexdigits (upper : bool) (n : Z) : Z :=
  if n <? 10 then 48 + n else (if upper then 55 else 87) + n.

(** [*pbuf++ = c] *)
Definition put (st : bytes * Z) (c : Z) : outcome (bytes * Z) :=
  buf ← mem_set st.1 st.2 c; Ret (buf, st.2 + 1).

(** The loop over the bytes from [i] on, [n] of them. *)
Fixpoint put_hex (flags : Z) (addr : bytes) (n : nat) (i : Z) (st : bytes * Z) : outcome (bytes * Z) :=
  match n with
  | O => Ret st
  | S n =>
      value ← mem_get addr i;
      st ← put st (hexdigits (flag_upper flags) (Z.land (value ≫ 4) 15));
      st ← put st (hexdigits (flag_upper flags) (Z.land value 15));
      st ← (if flag_spaces flags then put st space else Ret st);
      put_hex flags addr n (i + 1) st
  end.

(** The loop over the printable characters; a [char] of 128 and more is negative. *)
Definition printable (value : Z) : Z := if (value <? space) || (126 <? value) then dot else value.
Fixpoint put_ascii (addr : bytes) (n : nat) (i : Z) (st : bytes * Z) : outcome (bytes * Z) :=
  match n with
  | O => Ret st
  | S n =>
      value ← mem_get addr i;
      st ← put st (printable value);
      put_ascii addr n (i + 1) st
  end.

Definition max_len (size flags : Z) : Z :=
  s32 (if flag_ascii flags then if flag_spaces flags then (size - 1) / 4 else (size - 2) / 3
       else if flag_spaces flags then size / 3 else (size - 1) / 2).

(** The answer and the buffer; [None] is a [NULL] buffer. *)
Definition to_hex_string (addr : bytes) (len : Z) (buf : option bytes) (flags : Z) : outcome (Z * bytes) :=
  match buf with
  | None => Ret (-1, [])
  | Some buf =>
      let size := zlen buf in
      if size <? 3 then Ret (0, buf) else
      let max_len := max_len size flags in
      if max_len =? 0 then Ret (0, buf) else
      let makeEllipsis := u64 max_len <? len in
      let len := if makeEllipsis then u64 (max_len - 1) else len in
      st ← put_hex flags addr (Z.to_nat len) 0 (buf, 0);
      st ← (if makeEllipsis then st ← put st dot; put st dot else Ret st);
      st ← (if flag_ascii flags then
              c ← mem_get st.1 (st.2 - 1);
              st ← (if negb (c =? space) then put st space else Ret st);
              st ← put_ascii addr (Z.to_nat len) 0 st;
              if flag_spaces flags then put st space else Ret st
            else Ret st);
      let st := if flag_spaces flags then (st.1, st.2 - 1) else st in
      st ← put st 0;
      Ret (s32 len, st.1)
  end.

(** ** Digits to bytes *)

Definition toupper (c : Z) : Z := if (97 <=? c) && (c <=? 122) then c - 32 else c.

(** The value of a digit; more than 15 for an error. *)
Definition hex_value (c : Z) : Z :=
  let c := toupper c in
  let c := if 65 <=? c then u8 (c - 55) else c in
  if 48 <=? c then u8 (c - 48) else c.

Fixpoint skip_spaces (s : bytes) : bytes :=
  match s with c :: s' => if c =? space then skip_spaces s' else s | [] => [] end.

(** The loop: [s] is what is left before the NUL and [n] the number of bytes stored. *)
Fixpoint from_hex (fuel : nat) (s : bytes) (out : bytes) (n : Z) : outcome (Z * bytes) :=
  match fuel with
  | O => Undef
  | S fuel =>
      match skip_spaces s with
      | [] => Ret (n, out)
      | c :: s =>
          let msb := hex_value c in
          if 15 <? msb then Ret (- n, out) else
          match s with
          | [] => Ret (n, out)
          | c :: s =>
              let lsb := hex_value c in
              if 15 <? lsb then Ret (- n, out) else
              out ← mem_set out n (u8 (Z.lor (msb ≪ 4) lsb));
              from_hex fuel s out (n + 1)
          end
      end
  end.

(** The argument [size] is not used. *)
Definition from_hex_string (hexstr : bytes) (out : bytes) (size : Z) : outcome (Z * bytes) :=
  from_hex (S (length hexstr)) hexstr out 0.

(** ** Exchange *)

(** [swap(&mem[i], &mem[j])] *)
Definition swap (mem : list Z) (i j : Z) : outcome (list Z) :=
  a ← mem_get mem i; b ← mem_get mem j; mem ← mem_set mem i (Z.lxor a b);
  a ← mem_get mem i; b ← mem_get mem j; mem ← mem_set mem j (Z.lxor a b);
  a ← mem_get mem i; b ← mem_get mem j; mem_set mem i (Z.lxor a b).

(** ** Tokens *)

Definition TOK_MAX_SZ : Z := 32.
Definition TOK_MAX_CNT : Z := 32.

(** [struct token]: the rows of [str] follow each other in memory. *)
Record token := mk_token { tok_str : bytes; tok_cnt : Z }.

(** A [char] as an [int]. *)
Definition signed_char (c : Z) : Z := if c <? 128 then c else c - 256.

(** The loop; [substr] is an offset in [tok->str]. *)
Fixpoint split_loop (sentence : bytes) (sep : Z) (tok : token) (substr : Z) : outcome token :=
  match sentence with
  | [] => Ret tok
  | c :: rest =>
      if signed_char c =? sep then
        let tok := mk_token (tok_str tok) (tok_cnt tok + 1) in
        split_loop rest sep tok (tok_cnt tok * TOK_MAX_SZ)
      else
        str ← mem_set (tok_str tok) substr c;
        split_loop rest sep (mk_token str (tok_cnt tok)) (substr + 1)
  end.

Definition xsplit (tok : token) (sentence : bytes) (sep : Z) : outcome token := split_loop sentence sep tok 0.
