(* ===== verification/HexSpec.v ===== *)
(** The conversions of src/util/utils.c stay in their buffers and are inverse to each other. *)

From S2P Require Import Prelude Util Hex.

(** ** Writing behind a prefix *)

(** The position [st] is behind [t] in a buffer of [n] bytes. *)
Definition wrote (t : bytes) (n : Z) (st : bytes * Z) : Prop :=
  exists rest, st = (t ++ rest, zlen t) /\ zlen t + zlen rest = n.

Lemma put_wrote t n st c : wrote t n st -> zlen t < n -> exists st', put st c = Ret st' /\ wrote (t ++ [c]) n st'.
Proof.
  intros (rest & -> & Hn) Hlt. destruct rest as [|x rest]; [rewrite zlen_nil in Hn; lia|]. unfold put. cbn [fst snd].
  pose proof (zlen_nonneg t). rewrite zlen_cons in Hn. pose proof (zlen_nonneg rest).
  rewrite mem_set_ok, bind_ret_l by (rewrite zlen_app, zlen_cons; lia).
  rewrite zlen_nat, insert_app_r_alt, Nat.sub_diag by lia. eexists. split; [done|]. exists rest.
  rewrite zlen_app, <-app_assoc. change (zlen [c]) with 1. split; [done|lia].
Qed.

(** The digits of the bytes. *)
Definition pair (flags value : Z) : bytes :=
  [hexdigits (flag_upper flags) (Z.land (value ≫ 4) 15); hexdigits (flag_upper flags) (Z.land value 15)]
    ++ (if flag_spaces flags then [space] else []).

Definition width (flags : Z) : Z := if flag_spaces flags then 3 else 2.

Lemma pair_length flags v : zlen (pair flags v) = width flags.
Proof. unfold pair, width. by destruct (flag_spaces flags). Qed.

Lemma pairs_length flags l : zlen (concat (pair flags <$> l)) = width flags * zlen l.
Proof.
  induction l as [|v l IH]; [change (0 = width flags * 0); lia|]. change (concat (pair flags <$> v :: l)) with (pair flags v ++ concat (pair flags <$> l)).
  rewrite zlen_app, zlen_cons, IH, pair_length. lia.
Qed.

(** Reading the bytes of [addr] from [i] on. *)
Lemma drop_lookup (addr : bytes) i v rest : drop i addr = v :: rest -> addr !! i = Some v /\ drop (S i) addr = rest.
Proof.
  intros E. split.
  - rewrite <-(Nat.add_0_r i), <-lookup_drop, E. done.
  - replace (S i) with (i + 1)%nat by lia. by rewrite <-drop_drop, E.
Qed.

Lemma put_hex_wrote flags addr n : forall k i t size st,
  wrote t size st -> (i + n <= length addr)%nat -> k = Z.of_nat i -> zlen t + width flags * Z.of_nat n <= size ->
  exists st', put_hex flags addr n k st = Ret st' /\ wrote (t ++ concat (pair flags <$> take n (drop i addr))) size st'.
Proof.
  induction n as [|n IH]; intros k i t size st Hw Hi -> Hsize; cbn [put_hex].
  { exists st. split; [done|]. rewrite take_0. cbn. by rewrite app_nil_r. }
  destruct (drop i addr) as [|v rest] eqn:Ed; [apply (f_equal length) in Ed; rewrite length_drop in Ed; cbn in Ed; lia|].
  destruct (drop_lookup addr i v rest Ed) as [Hv Hrest]. rewrite (mem_get_nat _ _ _ Hv), bind_ret_l.
  assert (2 <= width flags) by (unfold width; case_match; lia).
  destruct (put_wrote t size st (hexdigits (flag_upper flags) (Z.land (v ≫ 4) 15)) Hw) as (st1 & -> & Hw1); [nia|]. rewrite bind_ret_l.
  destruct (put_wrote _ size st1 (hexdigits (flag_upper flags) (Z.land v 15)) Hw1) as (st2 & -> & Hw2).
  { rewrite zlen_app. change (zlen [_]) with 1. nia. }
  rewrite bind_ret_l, <-app_assoc in *. cbn [app] in Hw2.
  assert (exists st3, (if flag_spaces flags then put st2 space else Ret st2) = Ret st3 /\ wrote (t ++ pair flags v) size st3) as (st3 & -> & Hw3).
  { unfold pair, width in *. destruct (flag_spaces flags).
    - destruct (put_wrote _ size st2 space Hw2) as (st3 & -> & Hw3); [rewrite zlen_app; change (zlen [_; _]) with 2; lia|].
      rewrite <-app_assoc in Hw3. eauto.
    - rewrite app_nil_r. eauto. }
  rewrite bind_ret_l. destruct (IH (Z.of_nat i + 1) (S i) (t ++ pair flags v) size st3 Hw3) as (st4 & -> & Hw4); [lia|lia| |].
  { rewrite zlen_app, pair_length. lia. }
  rewrite Hrest, <-app_assoc in Hw4. exists st4. split; [done|]. exact Hw4.
Qed.

Lemma put_ascii_wrote addr n : forall k i t size st,
  wrote t size st -> (i + n <= length addr)%nat -> k = Z.of_nat i -> zlen t + Z.of_nat n <= size ->
  exists st', put_ascii addr n k st = Ret st' /\ wrote (t ++ (printable <$> take n (drop i addr))) size st'.
Proof.
  induction n as [|n IH]; intros k i t size st Hw Hi -> Hsize; cbn [put_ascii].
  { exists st. split; [done|]. rewrite take_0. cbn. by rewrite app_nil_r. }
  destruct (drop i addr) as [|v rest] eqn:Ed; [apply (f_equal length) in Ed; rewrite length_drop in Ed; cbn in Ed; lia|].
  destruct (drop_lookup addr i v rest Ed) as [Hv Hrest]. rewrite (mem_get_nat _ _ _ Hv), bind_ret_l.
  destruct (put_wrote t size st (printable v) Hw) as (st1 & -> & Hw1); [lia|]. rewrite bind_ret_l.
  destruct (IH (Z.of_nat i + 1) (S i) _ size st1 Hw1) as (st4 & -> & Hw4); [lia|lia| |].
  { rewrite zlen_app. change (zlen [_]) with 1. lia. }
  rewrite Hrest, <-app_assoc in Hw4. exists st4. split; [done|]. exact Hw4.
Qed.

(** ** The whole text *)

(** The bytes [bs] as text; [ell] if not all could be shown. *)
Definition hex_digits (flags : Z) (bs : bytes) (ell : bool) : bytes :=
  concat (pair flags <$> bs) ++ (if ell then [dot; dot] else []).
Definition hex_ascii (flags : Z) (bs : bytes) (ell : bool) : bytes :=
  if flag_ascii flags then
    (if flag_spaces flags && negb ell then [] else [space]) ++ (printable <$> bs) ++ (if flag_spaces flags then [space] else [])
  else [].
Definition hex_body (flags : Z) (bs : bytes) (ell : bool) : bytes := hex_digits flags bs ell ++ hex_ascii flags bs ell.

(** With spaces the last one gives way to the NUL. *)
Definition hex_line (flags : Z) (bs : bytes) (ell : bool) : bytes :=
  if flag_spaces flags then take (length (hex_body flags bs ell) - 1) (hex_body flags bs ell) else hex_body flags bs ell.

Lemma hexdigits_nonspace upper n : 0 <= n < 16 -> hexdigits upper n <> space /\ hexdigits upper n <> 0.
Proof. unfold hexdigits, space. intros. destruct upper; case_match; lia. Qed.

Lemma land15 v : 0 <= Z.land v 15 < 16.
Proof. change 15 with (2 ^ 4 - 1). rewrite land_mask by lia. apply Z.mod_pos_bound. lia. Qed.

(** The last character before the printable ones. *)
Lemma hex_digits_last flags bs ell :
  bs <> [] \/ ell = true ->
  exists t c, hex_digits flags bs ell = t ++ [c] /\ (c = space <-> flag_spaces flags && negb ell = true).
Proof.
  intros Hne. unfold hex_digits. destruct ell.
  { exists (concat (pair flags <$> bs) ++ [dot]), dot. rewrite <-app_assoc. split; [done|]. rewrite andb_false_r. done. }
  rewrite app_nil_r, andb_true_r. destruct Hne as [Hne|]; [|done].
  destruct (exists_last Hne) as (bs' & v & ->). rewrite fmap_app, concat_app.
  change (concat (pair flags <$> [v])) with (pair flags v ++ []). rewrite app_nil_r. set (pre := concat (pair flags <$> bs')). unfold pair. destruct (flag_spaces flags).
  - eexists (pre ++ [_; _]), space. split; [rewrite <-app_assoc; reflexivity|done].
  - eexists (pre ++ [_]), _. split; [rewrite app_nil_r, <-app_assoc; reflexivity|]. split; [|done].
    intros E. by destruct (hexdigits_nonspace (flag_upper flags) _ (land15 v)).
Qed.

(** The room that [max_len] leaves. *)
Lemma hex_room flags size bs (ell : bool) :
  3 <= size -> zlen bs <= max_len size flags - (if ell then 1 else 0) -> size < 2 ^ 31 ->
  zlen (hex_body flags bs ell) + (if flag_spaces flags then 0 else 1) <= size.
Proof.
  intros H3 Hl Hs. assert (max_len size flags = if flag_ascii flags then if flag_spaces flags then (size - 1) / 4 else (size - 2) / 3
       else if flag_spaces flags then size / 3 else (size - 1) / 2) as Hmax.
  { unfold max_len. apply s32_small. destruct (flag_ascii flags), (flag_spaces flags); dlia. }
  rewrite Hmax in Hl. pose proof (zlen_nonneg bs).
  assert (zlen (printable <$> bs) = zlen bs) as Hp by (unfold zlen; by rewrite length_fmap).
  assert (forall b : bool, zlen (if b then [space] else []) = if b then 1 else 0) as Hsp by by intros [].
  assert (forall b : bool, zlen (if b then [] else [space]) = if b then 0 else 1) as Hsp' by by intros [].
  assert (zlen (if ell then [dot; dot] else []) = if ell then 2 else 0) as Hdots by by destruct ell.
  unfold hex_body, hex_digits, hex_ascii. rewrite !zlen_app, pairs_length, Hdots. unfold width.
  destruct (flag_ascii flags); rewrite ?zlen_app, ?Hp, ?Hsp, ?Hsp'; change (zlen []) with 0;
    destruct (flag_spaces flags), ell; cbn [andb negb]; dlia.
Qed.

Lemma max_len_range size flags : 3 <= size < 2 ^ 31 -> 0 <= max_len size flags < 2 ^ 31.
Proof.
  intros Hs. unfold max_len. rewrite s32_small; destruct (flag_ascii flags), (flag_spaces flags); dlia.
Qed.

Lemma put2_wrote t n st c d :
  wrote t n st -> zlen t + 2 <= n -> exists st', (st ← put st c; put st d) = Ret st' /\ wrote (t ++ [c; d]) n st'.
Proof.
  intros Hw Hn. destruct (put_wrote t n st c Hw) as (st1 & -> & Hw1); [lia|]. rewrite bind_ret_l.
  destruct (put_wrote _ n st1 d Hw1) as (st2 & -> & Hw2); [rewrite zlen_app; change (zlen [c]) with 1; lia|].
  rewrite <-app_assoc in Hw2. eauto.
Qed.

Lemma put_if_wrote (b : bool) t n st c :
  wrote t n st -> zlen (t ++ if b then [c] else []) <= n ->
  exists st', (if b then put st c else Ret st) = Ret st' /\ wrote (t ++ if b then [c] else []) n st'.
Proof.
  intros Hw Hn. destruct b; [|rewrite app_nil_r; eauto]. apply put_wrote; [done|]. rewrite zlen_app in Hn. change (zlen [c]) with 1 in Hn. lia.
Qed.

(** The part with the printable characters. *)
Lemma ascii_wrote flags addr n size st ell :
  let bs := take n addr in
  wrote (hex_digits flags bs ell) size st -> (n <= length addr)%nat -> bs <> [] \/ ell = true ->
  zlen (hex_body flags bs ell) <= size ->
  exists st', (if flag_ascii flags then
              c ← mem_get st.1 (st.2 - 1);
              st ← (if negb (c =? space) then put st space else Ret st);
              st ← put_ascii addr n 0 st;
              if flag_spaces flags then put st space else Ret st
            else Ret st) = Ret st' /\ wrote (hex_body flags bs ell) size st'.
Proof.
  intros bs Hw Hn Hne Hsize. unfold hex_body, hex_ascii in *. destruct (flag_ascii flags); [|rewrite app_nil_r; eauto].
  set (t := hex_digits flags bs ell) in *. destruct (hex_digits_last flags bs ell Hne) as (t' & c & Et & Hc). fold t in Et.
  assert (mem_get st.1 (st.2 - 1) = Ret c) as ->.
  { destruct Hw as (rest & -> & _). cbn [fst snd]. rewrite Et, zlen_app. change (zlen [c]) with 1. replace (zlen t' + 1 - 1) with (zlen t') by lia.
    apply mem_get_ok; [apply zlen_nonneg|]. rewrite zlen_nat, <-app_assoc. by rewrite lookup_app_r, Nat.sub_diag by lia. }
  rewrite bind_ret_l. assert (negb (c =? space) = negb (flag_spaces flags && negb ell)) as ->.
  { f_equal. destruct (Z.eqb_spec c space) as [E|E]; [by rewrite (proj1 Hc E)|]. destruct (_ && _); [by destruct E; apply Hc|done]. }
  assert (zlen (printable <$> bs) = zlen bs) as Hp by (unfold zlen; by rewrite length_fmap).
  assert (zlen bs = Z.of_nat n) as Hbs by (unfold bs; rewrite zlen_take; unfold zlen; lia).
  assert ((if flag_spaces flags && negb ell then [] else [space]) = if negb (flag_spaces flags && negb ell) then [space] else []) as E by by destruct (_ && _).
  rewrite E in *. clear E. rewrite !app_assoc in Hsize |- *. pose proof (zlen_nonneg (if flag_spaces flags then [space] else [])).
  rewrite !zlen_app in Hsize. pose proof (zlen_nonneg bs).
  destruct (put_if_wrote (negb (flag_spaces flags && negb ell)) t size st space Hw) as (st1 & -> & Hw1); [rewrite zlen_app; lia|]. rewrite bind_ret_l.
  destruct (put_ascii_wrote addr n 0 0 _ size st1 Hw1) as (st2 & -> & Hw2); [lia|done|rewrite zlen_app; lia|]. rewrite bind_ret_l.
  apply put_if_wrote; [exact Hw2|]. rewrite !zlen_app. unfold bs in *. change (drop 0 addr) with addr. lia.
Qed.

(** The NUL at the end. *)
Lemma nul_wrote flags bs ell size st :
  wrote (hex_body flags bs ell) size st -> hex_body flags bs ell <> [] ->
  zlen (hex_body flags bs ell) + (if flag_spaces flags then 0 else 1) <= size ->
  exists st' rest, put (if flag_spaces flags then (st.1, st.2 - 1) else st) 0 = Ret st' /\
    st'.1 = hex_line flags bs ell ++ 0 :: rest /\ zlen st'.1 = size.
Proof.
  intros Hw Hne Hroom. unfold hex_line. set (body := hex_body flags bs ell) in *.
  assert (exists t, wrote t size (if flag_spaces flags then (st.1, st.2 - 1) else st) /\ zlen t < size /\
    t = if flag_spaces flags then take (length body - 1) body else body) as (t & Hwt & Hlt & Et).
  { destruct (flag_spaces flags); [|exists body; split_and!; [done|lia|done]].
    destruct (exists_last Hne) as (t & c & E). exists t. rewrite E in *. rewrite zlen_app in Hroom. change (zlen [c]) with 1 in Hroom.
    split_and!; [|lia|rewrite length_app, Nat.add_sub; by rewrite take_app_length].
    destruct Hw as (rest & -> & Hz). exists (c :: rest). cbn [fst snd]. rewrite zlen_app in Hz |- *. change (zlen [c]) with 1 in *.
    rewrite zlen_cons, <-app_assoc. split; [cbn; f_equal; lia|lia]. }
  destruct (put_wrote t size _ 0 Hwt Hlt) as (st' & Hput & rest & -> & Hz). exists (((t ++ [0]) ++ rest), zlen (t ++ [0])), rest.
  rewrite <-Et. split_and!; [done|cbn; by rewrite <-app_assoc|cbn; by rewrite zlen_app].
Qed.

(** The stores of [to_hex_string] for [n] bytes. *)
Lemma stores_wrote flags addr n size buf (ell : bool) :
  let bs := take n addr in
  zlen buf = size -> (n <= length addr)%nat -> bs <> [] \/ ell = true ->
  zlen (hex_body flags bs ell) + (if flag_spaces flags then 0 else 1) <= size ->
  exists st' rest,
    (st ← put_hex flags addr n 0 (buf, 0);
     st ← (if ell then st ← put st dot; put st dot else Ret st);
     st ← (if flag_ascii flags then
             c ← mem_get st.1 (st.2 - 1);
             st ← (if negb (c =? space) then put st space else Ret st);
             st ← put_ascii addr n 0 st;
             if flag_spaces flags then put st space else Ret st
           else Ret st);
     put (if flag_spaces flags then (st.1, st.2 - 1) else st) 0) = Ret st' /\
    st'.1 = hex_line flags bs ell ++ 0 :: rest /\ zlen st'.1 = size.
Proof.
  intros bs Hbuf Hn Hne Hroom.
  assert (zlen bs = Z.of_nat n) as Hbs by (unfold bs; rewrite zlen_take; unfold zlen; lia).
  assert (zlen (hex_digits flags bs ell) <= zlen (hex_body flags bs ell)) as Hle.
  { unfold hex_body. rewrite zlen_app. pose proof (zlen_nonneg (hex_ascii flags bs ell)). lia. }
  assert (0 <= if flag_spaces flags then 0 else 1) as Hsp by (case_match; lia).
  assert (zlen (hex_digits flags bs ell) = width flags * Z.of_nat n + (if ell then 2 else 0)) as Hdl.
  { unfold hex_digits. rewrite zlen_app, pairs_length, Hbs. by destruct ell. }
  destruct (put_hex_wrote flags addr n 0 0 [] size (buf, 0)) as (st1 & -> & Hw1); [by exists buf|done|done| |].
  { change (zlen []) with 0. destruct ell; lia. }
  change (drop 0 addr) with addr in Hw1. fold bs in Hw1. cbn [app] in Hw1. rewrite bind_ret_l.
  assert (exists st2, (if ell then st ← put st1 dot; put st dot else Ret st1) = Ret st2 /\ wrote (hex_digits flags bs ell) size st2) as (st2 & -> & Hw2).
  { unfold hex_digits. destruct ell; [|rewrite app_nil_r; eauto]. apply put2_wrote; [done|]. rewrite pairs_length, Hbs. lia. }
  rewrite bind_ret_l. destruct (ascii_wrote flags addr n size st2 ell Hw2 Hn Hne) as (st3 & -> & Hw3); [fold bs; lia|].
  rewrite bind_ret_l. apply nul_wrote; [done| |done].
  destruct (hex_digits_last flags bs ell Hne) as (t & c & E & _). unfold hex_body. rewrite E. by destruct t.
Qed.

Lemma to_hex_string_spec addr len buf flags :
  0 < len <= zlen addr -> zlen buf < 2 ^ 31 ->
  exists n buf', to_hex_string addr len (Some buf) flags = Ret (n, buf') /\ zlen buf' = zlen buf /\ 0 <= n <= len /\
    (len <= max_len (zlen buf) flags -> 3 <= zlen buf -> n = len) /\
    (n = 0 /\ buf' = buf \/ exists rest, buf' = hex_line flags (take (Z.to_nat n) addr) (n <? len) ++ 0 :: rest).
Proof.
  intros Hlen Hsize. unfold to_hex_string. destruct (Z.ltb_spec (zlen buf) 3) as [|H3].
  { eexists _, _. split; [done|]. split_and!; [done|lia|lia|lia|by left]. }
  pose proof (max_len_range (zlen buf) flags ltac:(lia)) as Hm. set (m := max_len (zlen buf) flags) in *. cbv zeta.
  destruct (Z.eqb_spec m 0) as [|Hm0]; [eexists _, _; split; [done|]; split_and!; [done|lia|lia|lia|by left]|].
  rewrite !u64_small by lia. set (ell := m <? len). set (L := if ell then m - 1 else len).
  assert (0 <= L <= len /\ L <= m - (if ell then 1 else 0) /\ (L <? len) = ell /\ (L = 0 -> ell = true) /\ (len <= m -> L = len)) as (HL & HLm & Hell & HL0 & HLl).
  { unfold L, ell. destruct (Z.ltb_spec m len); (split_and!; [lia|lia|lia| |intros; first [done|exfalso; lia]|lia]); [by apply Z.ltb_lt; lia|by apply Z.ltb_ge; lia]. }
  set (n := Z.to_nat L). assert (n <= length addr)%nat as Hn by (unfold n, zlen in *; lia).
  assert (zlen (take n addr) = L) as Hbs by (rewrite zlen_take; unfold n, zlen in *; lia).
  destruct (stores_wrote flags addr n (zlen buf) buf ell) as (st & rest & Hst & Est & Hz); [done|done| | |].
  { destruct (decide (L = 0)) as [E|E]; [right; auto|left]. intros E2. rewrite E2 in Hbs. change (zlen []) with 0 in Hbs. lia. }
  { apply hex_room; [done|by rewrite Hbs|done]. }
  exists L, st.1. split_and!; [|done|lia|lia|auto|right; exists rest; by rewrite Hell].
  revert Hst. destruct (put_hex flags addr n 0 (buf, 0)) as [st1| |]; [|done..]. rewrite !bind_ret_l.
  destruct (if ell then put st1 dot ≫= _ else _) as [st2| |]; [|done..]. rewrite !bind_ret_l.
  destruct (if flag_ascii flags then mem_get _ _ ≫= _ else _) as [st3| |]; [|done..]. rewrite !bind_ret_l.
  assert (L <= m) as HLm' by (clear -HLm; destruct ell; lia).
  intros ->. rewrite bind_ret_l, s32_small by lia. done.
Qed.

(** ** Reading digits back *)

Lemma hex_value_digit upper n : 0 <= n < 16 -> hex_value (hexdigits upper n) = n /\ hexdigits upper n <> space.
Proof.
  intros Hn. refine (_ (zrange_forall 16 (fun n => bool_decide (hex_value (hexdigits upper n) = n)) _ n Hn)).
  - intros E%bool_decide_eq_true. split; [done|]. by apply hexdigits_nonspace.
  - by destruct upper.
Qed.

Lemma byte_of_nibbles v : in_range 8 v -> u8 (Z.lor (Z.land (v ≫ 4) 15 ≪ 4) (Z.land v 15)) = v.
Proof.
  unfold in_range. intros Hv. change 15 with (2 ^ 4 - 1). rewrite !land_mask by lia. pose proof (Z.mod_pos_bound v (2 ^ 4) ltac:(lia)). rewrite lor_add by lia.
  rewrite Z.shiftr_div_pow2 by lia. rewrite u8_small; dlia.
Qed.

(** The pairs of digits with [sep] between them. *)
Fixpoint joined (upper : bool) (sep : bytes) (bs : bytes) : bytes :=
  match bs with
  | [] => []
  | v :: bs =>
      hexdigits upper (Z.land (v ≫ 4) 15) :: hexdigits upper (Z.land v 15)
        :: match bs with [] => [] | _ => sep ++ joined upper sep bs end
  end.

Lemma hex_line_joined flags bs :
  flag_ascii flags = false -> hex_line flags bs false = joined (flag_upper flags) (if flag_spaces flags then [space] else []) bs.
Proof.
  intros Ha. unfold hex_line, hex_body, hex_ascii, hex_digits. rewrite Ha, !app_nil_r.
  assert (concat (pair flags <$> bs) = joined (flag_upper flags) (if flag_spaces flags then [space] else []) bs
    ++ (if flag_spaces flags then match bs with [] => [] | _ => [space] end else [])) as ->.
  { induction bs as [|v bs IH]; [by destruct (flag_spaces flags)|].
    change (concat (pair flags <$> v :: bs)) with (pair flags v ++ concat (pair flags <$> bs)). rewrite IH. unfold pair. cbn [joined].
    destruct (flag_spaces flags), bs; cbn [app]; rewrite ?app_nil_r; done. }
  destruct (flag_spaces flags); [|by rewrite app_nil_r]. destruct bs as [|v bs]; [done|].
  rewrite length_app. cbn [length]. rewrite Nat.add_sub. by rewrite take_app_length.
Qed.

Lemma from_hex_joined upper sep bs : sep = [] \/ sep = [space] -> is_bytes bs -> forall pre fuel out n,
  pre = [] \/ pre = [space] -> (length (joined upper sep bs) < fuel)%nat -> 0 <= n -> n + zlen bs <= zlen out ->
  from_hex fuel (pre ++ joined upper sep bs) out n = Ret (n + zlen bs, take (Z.to_nat n) out ++ bs ++ drop (Z.to_nat n + length bs) out).
Proof.
  intros Hsep Hbs. induction Hbs as [|v bs Hv Hbs IH]; intros pre fuel out n Hpre Hf Hn Hout; (destruct fuel as [|fuel]; [lia|]).
  { assert (skip_spaces (pre ++ joined upper sep []) = []) as E by (destruct Hpre as [-> | ->]; done). cbn [from_hex]. rewrite E.
    change (zlen []) with 0. rewrite Z.add_0_r, app_nil_l, Nat.add_0_r, take_drop. done. }
  cbn [joined] in *. set (d1 := hexdigits upper (Z.land (v ≫ 4) 15)) in *. set (d2 := hexdigits upper (Z.land v 15)) in *.
  set (tl := match bs with [] => [] | _ => _ end) in *.
  destruct (hex_value_digit upper _ (land15 (v ≫ 4))) as [H1 H1']. destruct (hex_value_digit upper _ (land15 v)) as [H2 _]. fold d1 d2 in H1, H1', H2.
  assert (skip_spaces (pre ++ d1 :: d2 :: tl) = d1 :: d2 :: tl) as E.
  { assert (skip_spaces (d1 :: d2 :: tl) = d1 :: d2 :: tl) by (cbn [skip_spaces]; by rewrite (proj2 (Z.eqb_neq _ _))).
    destruct Hpre as [-> | ->]; [done|]. cbn [app skip_spaces]. by rewrite Z.eqb_refl. }
  cbn [from_hex]. rewrite E, H1, H2. pose proof (land15 (v ≫ 4)). pose proof (land15 v). rewrite !(proj2 (Z.ltb_ge _ _)) by lia.
  rewrite zlen_cons in Hout. pose proof (zlen_nonneg bs). rewrite byte_of_nibbles by done. rewrite mem_set_ok, bind_ret_l by lia.
  assert (exists pre', tl = pre' ++ joined upper sep bs /\ (pre' = [] \/ pre' = [space])) as (pre' & -> & Hpre').
  { unfold tl. destruct bs; [exists []; auto|]. by exists sep. }
  rewrite IH; [|done| |lia|rewrite zlen_insert; lia].
  2: { cbn [length] in Hf. rewrite length_app in Hf. lia. }
  rewrite zlen_cons. do 2 f_equal; [lia|]. replace (Z.to_nat (n + 1)) with (S (Z.to_nat n)) by lia.
  assert (Z.to_nat n < length out)%nat by (unfold zlen in *; lia).
  rewrite (take_S_r _ _ v) by (rewrite list_lookup_insert_eq; [done|lia]). rewrite take_insert_ge, <-app_assoc by lia. cbn [app length].
  do 3 f_equal. rewrite drop_insert_lt by lia. f_equal. lia.
Qed.

(** ** Claims *)

(** [to_hex_string] of at least one byte stays in its buffer, whatever the flags and the size below
    2 GiB; unless the buffer is too small for anything, it leaves the text of the bytes it could
    take, with an ellipsis when some are missing, and a NUL; it takes all of them when they fit. *)
Theorem to_hex_string_bounded addr len buf flags :
  0 < len <= zlen addr -> zlen buf < 2 ^ 31 ->
  exists n buf', to_hex_string addr len (Some buf) flags = Ret (n, buf') /\ zlen buf' = zlen buf /\ 0 <= n <= len /\
    (len <= max_len (zlen buf) flags -> 3 <= zlen buf -> n = len) /\
    (n = 0 /\ buf' = buf \/ exists rest, buf' = hex_line flags (take (Z.to_nat n) addr) (n <? len) ++ 0 :: rest).
Proof. apply to_hex_string_spec. Qed.

Lemma to_hex_string_bounded_witness :
  exists n buf', to_hex_string [18; 200; 65] 3 (Some (replicate 12 7)) 3 = Ret (n, buf') /\ zlen buf' = 12.
Proof.
  destruct (to_hex_string_bounded [18; 200; 65] 3 (replicate 12 7) 3) as (n & buf' & E & Hz & _);
    [split; [lia|vm_compute; discriminate]|reflexivity|]. exists n, buf'. split; [exact E|exact Hz].
Defined.

(** C36: What [to_hex_string] writes without the printable characters, in either case and with or
    without spaces, is read back by [from_hex_string] as the same bytes. *)
Theorem hex_string_roundtrip addr buf flags out size :
  is_bytes addr -> addr <> [] -> flag_ascii flags = false -> 3 <= zlen buf < 2 ^ 31 -> zlen addr <= max_len (zlen buf) flags ->
  zlen addr <= zlen out ->
  exists text rest, to_hex_string addr (zlen addr) (Some buf) flags = Ret (zlen addr, text ++ 0 :: rest) /\ Forall (fun c => c <> 0) text /\
    from_hex_string text out size = Ret (zlen addr, addr ++ drop (length addr) out).
Proof.
  intros Hb Hne Ha Hbuf Hfit Hout.
  assert (0 < zlen addr) as Hpos by (destruct addr; [done|rewrite zlen_cons; pose proof (zlen_nonneg addr); lia]).
  destruct (to_hex_string_spec addr (zlen addr) buf flags) as (n & buf' & E & Hz & Hn & Hall & Htext); [lia|lia|].
  rewrite (Hall Hfit ltac:(lia)) in *. destruct Htext as [[? _]|[rest ->]]; [lia|].
  rewrite Z.ltb_irrefl, zlen_nat, firstn_all, hex_line_joined in * by done. set (sep := if flag_spaces flags then [space] else []) in *.
  eexists _, rest. split_and!; [exact E| |].
  - clear -Hb. assert (Forall (fun c => c <> 0) sep) as Hsep by (unfold sep; destruct (flag_spaces flags); repeat constructor; done).
    induction Hb as [|v l _ _ IH]; [constructor|]. cbn [joined].
    constructor; [apply hexdigits_nonspace, land15|]. constructor; [apply hexdigits_nonspace, land15|].
    destruct l; [constructor|]. apply Forall_app. by split.
  - unfold from_hex_string. pose proof (from_hex_joined (flag_upper flags) sep addr) as Hj.
    specialize (Hj ltac:(unfold sep; destruct (flag_spaces flags); auto) Hb [] (S (length (joined (flag_upper flags) sep addr))) out 0 ltac:(by left)).
    cbn [app] in Hj. rewrite Hj by lia. done.
Qed.

Lemma hex_string_roundtrip_witness :
  exists text rest, to_hex_string [1; 171; 255] 3 (Some (replicate 9 7)) 5 = Ret (3, text ++ 0 :: rest) /\
    from_hex_string text [0; 0; 0; 9] 4 = Ret (3, [1; 171; 255; 9]).
Proof.
  destruct (hex_string_roundtrip [1; 171; 255] (replicate 9 7) 5 [0; 0; 0; 9] 4) as (text & rest & H1 & _ & H2).
  - repeat (constructor; [unfold in_range; lia|]). constructor.
  - discriminate.
  - reflexivity.
  - split; [vm_compute; discriminate|reflexivity].
  - vm_compute. discriminate.
  - vm_compute. discriminate.
  - exists text, rest. split; [exact H1|exact H2].
Defined.

(** ** Tokens *)

(** The pieces of a sentence. *)
Fixpoint pieces (sentence : bytes) (sep : Z) (cur : bytes) : list bytes :=
  match sentence with
  | [] => [cur]
  | c :: rest => if signed_char c =? sep then cur :: pieces rest sep [] else pieces rest sep (cur ++ [c])
  end.

(** A row of [struct token]. *)
Definition row (piece : bytes) : bytes := piece ++ replicate (Z.to_nat TOK_MAX_SZ - length piece) 0.
Definition rows (l : list bytes) : bytes :=
  concat (row <$> l) ++ replicate (Z.to_nat (TOK_MAX_CNT * TOK_MAX_SZ) - Z.to_nat TOK_MAX_SZ * length l) 0.

Lemma row_length p : zlen p < TOK_MAX_SZ -> length (row p) = 32%nat.
Proof. unfold row, TOK_MAX_SZ, zlen. intros. rewrite length_app, length_replicate. lia. Qed.

Lemma concat_rows_length l : Forall (fun p => zlen p < TOK_MAX_SZ) l -> length (concat (row <$> l)) = (32 * length l)%nat.
Proof.
  induction 1 as [|p l Hp _ IH]; [done|]. change (concat (row <$> p :: l)) with (row p ++ concat (row <$> l)).
  rewrite length_app, IH, row_length by done. cbn [length]. lia.
Qed.

Lemma row_snoc p c : zlen (p ++ [c]) < TOK_MAX_SZ -> row (p ++ [c]) = <[length p := c]> (row p).
Proof.
  unfold row, TOK_MAX_SZ, zlen. rewrite !length_app. cbn [length]. intros Hp.
  replace (Z.to_nat 32 - length p)%nat with (S (Z.to_nat 32 - (length p + 1))) by lia.
  rewrite insert_app_r_alt, Nat.sub_diag, <-app_assoc by lia. done.
Qed.

Lemma split_loop_rows sentence sep : forall before cur,
  Forall (fun p => zlen p < TOK_MAX_SZ) before ->
  Forall (fun p => zlen p < TOK_MAX_SZ) (pieces sentence sep cur) -> zlen before + zlen (pieces sentence sep cur) <= TOK_MAX_CNT ->
  zlen cur < TOK_MAX_SZ ->
  split_loop sentence sep (mk_token (rows (before ++ [cur])) (zlen before)) (zlen before * TOK_MAX_SZ + zlen cur) =
    Ret (mk_token (rows (before ++ pieces sentence sep cur)) (zlen before + zlen (pieces sentence sep cur) - 1)).
Proof.
  induction sentence as [|c s IH]; intros before cur Hb Hp Hcnt Hcur; cbn [split_loop pieces] in *.
  { change (zlen [cur]) with 1. do 2 f_equal. lia. }
  destruct (signed_char c =? sep).
  - apply Forall_cons in Hp as [_ Hp]. rewrite zlen_cons in Hcnt. cbn [tok_str tok_cnt].
    assert (rows (before ++ [cur]) = rows ((before ++ [cur]) ++ [[]])) as ->.
    { pose proof (zlen_nonneg before). assert (1 <= zlen (pieces s sep [])) as Hpos.
      { clear. generalize (@nil Z). induction s as [|x s IH]; intros cur; cbn [pieces]; [done|]. destruct (_ =? _); [rewrite zlen_cons; specialize (IH []); lia|apply IH]. }
      unfold rows, TOK_MAX_CNT, TOK_MAX_SZ, zlen in *. rewrite (fmap_app row (before ++ [cur])), concat_app, <-app_assoc. f_equal.
      change (concat (row <$> [[]])) with (replicate 32 0 ++ []). rewrite app_nil_r, <-replicate_add. f_equal.
      rewrite !length_app. cbn [length]. lia. }
    specialize (IH (before ++ [cur]) []). rewrite !zlen_app, <-!app_assoc in IH. change (zlen [cur]) with 1 in IH. cbn [app] in IH.
    change (zlen []) with 0 in IH. rewrite Z.add_0_r in IH. rewrite <-app_assoc. cbn [app].
    rewrite IH; [|apply Forall_app; split; [done|by constructor]|done|lia|done]. rewrite zlen_cons. do 2 f_equal. lia.
  - assert (zlen (cur ++ [c]) < TOK_MAX_SZ) as Hcur'.
    { clear -Hp. revert Hp. generalize (cur ++ [c]). clear. induction s as [|x s IH]; intros cur; cbn [pieces].
      - intros Hp. by apply Forall_cons in Hp as [? _].
      - destruct (_ =? _); [intros Hp; by apply Forall_cons in Hp as [? _]|]. intros Hp%IH. rewrite zlen_app in Hp. change (zlen [x]) with 1 in Hp. lia. }
    specialize (IH before (cur ++ [c]) Hb Hp Hcnt Hcur'). cbn [tok_str tok_cnt].
    assert (mem_set (rows (before ++ [cur])) (zlen before * TOK_MAX_SZ + zlen cur) c = Ret (rows (before ++ [cur ++ [c]]))) as ->.
    { assert (forall x, zlen x < TOK_MAX_SZ -> rows (before ++ [x]) =
        concat (row <$> before) ++ row x ++ replicate (Z.to_nat (TOK_MAX_CNT * TOK_MAX_SZ) - 32 * (length before + 1)) 0) as Hrows.
      { intros x Hx. unfold rows. rewrite fmap_app, concat_app, <-app_assoc, length_app. change (concat (row <$> [x])) with (row x ++ []). by rewrite app_nil_r. }
      rewrite !Hrows by done. rewrite (row_snoc _ _ Hcur'). pose proof (concat_rows_length before Hb) as Hcl. pose proof (row_length cur Hcur) as Hrl.
      rewrite mem_set_ok.
      2: { unfold zlen, TOK_MAX_SZ in *. rewrite !length_app, Hcl, Hrl. lia. }
      f_equal. replace (Z.to_nat (zlen before * TOK_MAX_SZ + zlen cur)) with (length (concat (row <$> before)) + length cur)%nat by (unfold zlen, TOK_MAX_SZ in *; lia).
      rewrite insert_app_r. f_equal. rewrite insert_app_l; [done|]. unfold zlen, TOK_MAX_SZ in *. lia. }
    rewrite bind_ret_l. rewrite zlen_app in IH. change (zlen [c]) with 1 in IH. rewrite Z.add_assoc in IH. exact IH.
Qed.

(** [xsplit] of a sentence into a cleared token leaves each piece between separators in its own
    row, terminated by a NUL, and counts the separators, when there are at most 32 pieces of fewer
    than 32 characters. *)
Theorem xsplit_pieces sentence sep :
  Forall (fun p => zlen p < TOK_MAX_SZ) (pieces sentence sep []) -> zlen (pieces sentence sep []) <= TOK_MAX_CNT ->
  xsplit (mk_token (replicate (Z.to_nat (TOK_MAX_CNT * TOK_MAX_SZ)) 0) 0) sentence sep =
    Ret (mk_token (rows (pieces sentence sep [])) (zlen (pieces sentence sep []) - 1)).
Proof. intros Hp Hc. exact (split_loop_rows sentence sep [] [] (Forall_nil_2 _) Hp Hc eq_refl). Qed.

Lemma xsplit_pieces_witness :
  xsplit (mk_token (replicate 1024 0) 0) [36; 71; 44; 51; 50; 44; 44; 49] 44 = Ret (mk_token (rows [[36; 71]; [51; 50]; []; [49]]) 3).
Proof. apply (xsplit_pieces [36; 71; 44; 51; 50; 44; 44; 49] 44); [repeat constructor|vm_compute; discriminate]. Defined.

(** ** Exchange *)

Lemma swap_exchanges mem (i j : nat) a b :
  i <> j -> mem !! i = Some a -> mem !! j = Some b -> swap mem (Z.of_nat i) (Z.of_nat j) = Ret (<[j := a]> (<[i := b]> mem)).
Proof.
  intros Hij Ha Hb. pose proof (lookup_lt_Some _ _ _ Ha). pose proof (lookup_lt_Some _ _ _ Hb). unfold swap.
  rewrite (mem_get_nat mem i a Ha), (mem_get_nat mem j b Hb), !bind_ret_l, mem_set_nat, bind_ret_l by done.
  set (m1 := <[i := _]> mem). assert (length m1 = length mem) as Hl1 by apply length_insert.
  rewrite (mem_get_nat m1 i (Z.lxor a b)) by (unfold m1; rewrite list_lookup_insert_eq; done).
  rewrite (mem_get_nat m1 j b) by (unfold m1; by rewrite list_lookup_insert_ne).
  rewrite !bind_ret_l, Z.lxor_assoc, Z.lxor_nilpotent, Z.lxor_0_r, mem_set_nat, bind_ret_l by lia.
  set (m2 := <[j := _]> m1). rewrite (mem_get_nat m2 i (Z.lxor a b)) by (unfold m2, m1; rewrite list_lookup_insert_ne, list_lookup_insert_eq; done).
  rewrite (mem_get_nat m2 j a) by (unfold m2; rewrite list_lookup_insert_eq; [done|lia]).
  rewrite !bind_ret_l, mem_set_nat by (unfold m2; rewrite length_insert; lia).
  rewrite (Z.lxor_comm a b), Z.lxor_assoc, Z.lxor_nilpotent, Z.lxor_0_r. unfold m2, m1.
  rewrite (list_insert_insert_ne _ i j) by done. by rewrite list_insert_insert_eq.
Qed.

(** ** Where the code fails *)

(** The exchange of a value with itself clears it. *)
Theorem swap_same_clears mem (i : nat) a : mem !! i = Some a -> swap mem (Z.of_nat i) (Z.of_nat i) = Ret (<[i := 0]> mem).
Proof.
  intros Ha. pose proof (lookup_lt_Some _ _ _ Ha). unfold swap. rewrite !(mem_get_nat mem i a Ha), !bind_ret_l, Z.lxor_nilpotent, mem_set_nat, bind_ret_l by done.
  assert (<[i := 0]> mem !! i = Some 0) as H0 by (rewrite list_lookup_insert_eq; done).
  rewrite !(mem_get_nat _ i 0 H0), !bind_ret_l, mem_set_nat by (rewrite length_insert; lia). change (Z.lxor 0 0) with 0.
  rewrite bind_ret_l, list_insert_insert_eq. by rewrite !(mem_get_nat _ i 0 H0), !bind_ret_l, mem_set_nat, list_insert_insert_eq by (rewrite length_insert; lia).
Qed.

(** With spaces and no byte to convert, the NUL goes in front of the buffer. *)
Theorem to_hex_string_underflow addr buf : 3 <= zlen buf < 2 ^ 31 -> to_hex_string addr 0 (Some buf) 1 = Undef.
Proof.
  intros Hb. pose proof (max_len_range (zlen buf) 1 ltac:(lia)) as Hm. unfold to_hex_string. rewrite (proj2 (Z.ltb_ge _ _)) by lia. cbv zeta.
  assert (max_len (zlen buf) 1 <> 0) as Hne. { unfold max_len. cbn -[Z.div]. rewrite s32_small; dlia. }
  rewrite (proj2 (Z.eqb_neq _ _)) by done. rewrite u64_small by lia. rewrite (proj2 (Z.ltb_ge _ _)) by lia. done.
Qed.

(** A bad digit in the first byte gives 0 like an empty string, and the characters from ':' to '?'
    count as digits. *)
Theorem from_hex_string_lenient :
  from_hex_string [71; 49] [0] 1 = Ret (0, [0]) /\ from_hex_string [58; 63] [0] 1 = Ret (1, [175]).
Proof. split; reflexivity. Qed.

(** The size of the destination is not checked. *)
Theorem from_hex_string_overflow : from_hex_string [49; 50; 51; 52] [0] 1 = Undef.
Proof. reflexivity. Qed.
