(* ===== verification/Driver.v ===== *)
(** The table of drivers: src/dm/driver_model.c. *)

From S2P Require Import Prelude.

Definition MAX_DRIVER : Z := 32.

(** The functions of a driver; a driver may leave some out. *)
Record driver_ops := mk_ops {
  ops_read : option (bytes -> Z -> Z * bytes);
  ops_write : option (bytes -> Z -> Z);
  ops_ioctl : option (Z -> Z -> Z)
}.

Record driver := mk_driver {
  fd : Z;
  driver_name : option bytes;
  ops : option driver_ops
}.

(** [struct driver drivers[MAX_DRIVER]] at the start. *)
Definition no_drivers : list driver := replicate (Z.to_nat MAX_DRIVER) (mk_driver 0 None None).

(** The first slot from [i] on that passes a test, or the number of slots. *)
Fixpoint first_slot (test : driver -> bool) (l : list driver) (i : Z) : Z :=
  match l with
  | [] => i
  | d :: l => if test d then i else first_slot test l (i + 1)
  end.

Definition has_name (name : bytes) (d : driver) : bool :=
  match driver_name d with Some n => bool_decide (n = name) | None => false end.
Definition is_free (d : driver) : bool := match driver_name d with Some _ => false | None => true end.

Definition dm_open (drivers : list driver) (name : option bytes) : Z :=
  match name with
  | None => -1
  | Some name =>
      let i := first_slot (has_name name) drivers 0 in
      if i <? MAX_DRIVER then i else -1
  end.

(** The guards of the three calls. *)
Definition slot_ops (drivers : list driver) (fd : Z) : outcome (option driver_ops) :=
  d ← mem_get drivers fd; Ret (ops d).

Definition dm_read (drivers : list driver) (fd : Z) (buf : option bytes) (count : Z) : outcome (Z * option bytes) :=
  match buf with
  | None => Ret (-1, None)
  | Some b =>
      if (fd <? 0) || (MAX_DRIVER <=? fd) || (count <=? 0) then Ret (-1, buf) else
      o ← slot_ops drivers fd;
      match o with
      | Some o =>
          match ops_read o with
          | Some read => let '(r, b) := read b count in Ret (r, Some b)
          | None => Ret (-1, buf)
          end
      | None => Ret (-1, buf)
      end
  end.

Definition dm_write (drivers : list driver) (fd : Z) (buf : option bytes) (count : Z) : outcome Z :=
  match buf with
  | None => Ret (-1)
  | Some b =>
      if (fd <? 0) || (MAX_DRIVER <=? fd) || (count <=? 0) then Ret (-1) else
      o ← slot_ops drivers fd;
      match o with
      | Some o => Ret (match ops_write o with Some write => write b count | None => -1 end)
      | None => Ret (-1)
      end
  end.

Definition dm_ioctl (drivers : list driver) (fd cmd arg : Z) : outcome Z :=
  if (fd <? 0) || (MAX_DRIVER <=? fd) then Ret (-1) else
  o ← slot_ops drivers fd;
  match o with
  | Some o => Ret (match ops_ioctl o with Some ioctl => ioctl cmd arg | None => -1 end)
  | None => Ret (-1)
  end.

Definition driver_register (drivers : list driver) (name : option bytes) (ops : option driver_ops) : outcome (Z * list driver) :=
  match name, ops with
  | Some _, Some _ =>
      let i := first_slot is_free drivers 0 in
      if MAX_DRIVER <=? i then Ret (-1, drivers)
      else drivers ← mem_set drivers i (mk_driver i name ops); Ret (0, drivers)
  | _, _ => Ret (-1, drivers)
  end.

Definition driver_deregister (drivers : list driver) (name : option bytes) : outcome (list driver) :=
  match name with
  | None => Ret drivers
  | Some name =>
      let i := first_slot (has_name name) drivers 0 in
      if MAX_DRIVER <=? i then Ret drivers else mem_set drivers i (mk_driver (-1) None None)
  end.

(** ** The table *)

(** Every used slot has its number and functions. *)
Definition table_ok (l : list driver) : Prop :=
  length l = Z.to_nat MAX_DRIVER /\
  forall (i : nat) d, l !! i = Some d -> is_free d = false -> fd d = Z.of_nat i /\ is_Some (ops d).

Lemma first_slot_spec test l k :
  (exists i d, first_slot test l k = k + Z.of_nat i /\ l !! i = Some d /\ test d = true /\
     forall j d', (j < i)%nat -> l !! j = Some d' -> test d' = false) \/
  (first_slot test l k = k + zlen l /\ Forall (fun d => test d = false) l).
Proof.
  revert k. induction l as [|d l IH]; intros k; cbn [first_slot].
  { right. change (zlen []) with 0. split; [lia|constructor]. }
  destruct (test d) eqn:Ht.
  { left. exists 0%nat, d. split_and!; [lia|done|done|]. intros; lia. }
  destruct (IH (k + 1)) as [(i & d' & -> & Hd & Htest & Hlt)|[-> Hall]].
  - left. exists (S i), d'. split_and!; [lia|done|done|]. intros [|j] d'' Hj Hd''; [by injection Hd'' as <-|]. apply (Hlt j); [lia|done].
  - right. rewrite zlen_cons. split; [lia|by constructor].
Qed.

(** The first slot is determined by what it is. *)
Lemma first_slot_at test l (i : nat) d :
  l !! i = Some d -> test d = true -> (forall j d', (j < i)%nat -> l !! j = Some d' -> test d' = false) -> first_slot test l 0 = Z.of_nat i.
Proof.
  intros Hd Ht Hlt. destruct (first_slot_spec test l 0) as [(i' & d' & -> & Hd' & Ht' & Hlt')|[_ Hall]].
  - destruct (decide (i' = i)) as [->|Hne]; [lia|]. destruct (decide (i < i')%nat) as [Hl|Hl].
    + rewrite (Hlt' i d Hl Hd) in Ht. done.
    + rewrite (Hlt i' d' ltac:(lia) Hd') in Ht'. done.
  - rewrite Forall_lookup in Hall. rewrite (Hall i d Hd) in Ht. done.
Qed.

Lemma first_slot_none test l : Forall (fun d => test d = false) l -> first_slot test l 0 = zlen l.
Proof.
  intros Hall. destruct (first_slot_spec test l 0) as [(i & d & -> & Hd & Ht & _)|[-> _]]; [|lia].
  rewrite Forall_lookup in Hall. rewrite (Hall i d Hd) in Ht. done.
Qed.

(** A slot that fails the test before and after a change does not matter. *)
Lemma first_slot_insert test l (i : nat) d0 d :
  l !! i = Some d0 -> test d0 = false -> test d = false -> first_slot test (<[i := d]> l) 0 = first_slot test l 0.
Proof.
  intros H0 Ht0 Ht. destruct (first_slot_spec test l 0) as [(j & dj & -> & Hj & Htj & Hlt)|[-> Hall]].
  - assert (i <> j) as Hij by congruence. erewrite (first_slot_at test _ j dj); [lia|by rewrite list_lookup_insert_ne|done|].
    intros k dk Hk. destruct (decide (i = k)) as [<-|Hik].
    + rewrite list_lookup_insert_eq by by eapply lookup_lt_Some. by intros [= <-].
    + rewrite list_lookup_insert_ne by done. by apply Hlt.
  - rewrite first_slot_none; [by rewrite zlen_insert|]. apply Forall_insert; done.
Qed.

(** A driver registered under a new name is found by [dm_open] in a slot that holds its number
    and its functions, the descriptors of all other names stay, and after [driver_deregister] the
    name is unknown again and the table is as well-formed as before. *)
Theorem driver_lifecycle l name o l1 :
  table_ok l -> dm_open l (Some name) = -1 -> driver_register l (Some name) (Some o) = Ret (0, l1) ->
  exists i l2, 0 <= i < MAX_DRIVER /\ dm_open l1 (Some name) = i /\ l1 !! Z.to_nat i = Some (mk_driver i (Some name) (Some o)) /\
    (forall name', name' <> name -> dm_open l1 (Some name') = dm_open l (Some name')) /\ table_ok l1 /\
    driver_deregister l1 (Some name) = Ret l2 /\ dm_open l2 (Some name) = -1 /\ table_ok l2.
Proof.
  intros [Hlen Hok] Hnew Hreg. unfold MAX_DRIVER in *.
  assert (zlen l = 32) as Hz by (unfold zlen; lia).
  assert (Forall (fun d => has_name name d = false) l) as Hnone.
  { unfold dm_open in Hnew. destruct (first_slot_spec (has_name name) l 0) as [(i & d & E & Hd & _)|[_ ?]]; [|done].
    rewrite E in Hnew. apply lookup_lt_Some in Hd. unfold MAX_DRIVER in Hnew. rewrite (proj2 (Z.ltb_lt _ _)) in Hnew by (unfold zlen in Hz; lia). lia. }
  unfold driver_register in Hreg. destruct (first_slot_spec is_free l 0) as [(i & d0 & E & Hd0 & Hfree & _)|[E _]]; rewrite E in Hreg.
  2: { rewrite Hz in Hreg. by injection Hreg. }
  pose proof (lookup_lt_Some _ _ _ Hd0) as Hi. unfold MAX_DRIVER in Hreg. rewrite Z.add_0_l, (proj2 (Z.leb_gt _ _)) in Hreg by (unfold zlen in Hz; lia).
  rewrite mem_set_nat, bind_ret_l in Hreg by done. injection Hreg as <-. set (d := mk_driver (Z.of_nat i) (Some name) (Some o)).
  assert (first_slot (has_name name) (<[i := d]> l) 0 = Z.of_nat i) as Hfirst.
  { apply (first_slot_at _ _ i d); [by rewrite list_lookup_insert_eq|by apply bool_decide_eq_true|].
    intros j dj Hj. rewrite list_lookup_insert_ne by lia. intros Hdj. rewrite Forall_lookup in Hnone. by eapply Hnone. }
  assert (forall x, (is_free x = false -> fd x = Z.of_nat i /\ is_Some (ops x)) -> table_ok (<[i := x]> l)) as Htab.
  { intros x Hx. split; [by rewrite length_insert|]. intros j dj. destruct (decide (i = j)) as [<-|Hij].
    - rewrite list_lookup_insert_eq by done. intros [= <-]. exact Hx.
    - rewrite list_lookup_insert_ne by done. apply Hok. }
  exists (Z.of_nat i), (<[i := mk_driver (-1) None None]> l). unfold zlen in Hz. split_and!; [lia|lia| | | | | | |].
  - unfold dm_open. rewrite Hfirst. unfold MAX_DRIVER. by rewrite (proj2 (Z.ltb_lt _ _)) by lia.
  - by rewrite Nat2Z.id, list_lookup_insert_eq.
  - intros name' Hne. unfold dm_open. rewrite (first_slot_insert _ l i d0 d); [done|done| |by apply bool_decide_eq_false; congruence].
    unfold has_name, is_free in *. by destruct (driver_name d0).
  - apply Htab. intros _. split; [done|by eexists].
  - unfold driver_deregister. rewrite Hfirst. unfold MAX_DRIVER. rewrite (proj2 (Z.leb_gt _ _)) by lia.
    rewrite mem_set_nat by (rewrite length_insert; lia). by rewrite list_insert_insert_eq.
  - unfold dm_open. rewrite first_slot_none; [rewrite zlen_insert; unfold zlen; rewrite Hz; done|]. by apply Forall_insert.
  - apply Htab. done.
Qed.

Lemma driver_lifecycle_witness :
  exists i l2, driver_deregister (<[0%nat := mk_driver 0 (Some [117]) (Some (mk_ops None None None))]> no_drivers) (Some [117]) = Ret l2 /\
    dm_open l2 (Some [117]) = -1 /\ i = 0.
Proof.
  destruct (driver_lifecycle no_drivers [117] (mk_ops None None None)
    (<[0%nat := mk_driver 0 (Some [117]) (Some (mk_ops None None None))]> no_drivers)) as (i & l2 & _ & Hi & _ & _ & _ & Hd & Ho & _).
  - split; [reflexivity|]. intros i d Hd. apply lookup_replicate in Hd as [-> _]. discriminate.
  - reflexivity.
  - reflexivity.
  - exists i, l2. split; [exact Hd|]. split; [exact Ho|]. rewrite <-Hi. reflexivity.
Defined.
