(* ===== verification/JsonTree.v ===== *)
(** Editing of JSON trees: the second half of src/json/cJSON.c.

    Nodes and strings are blocks of a heap, linked by the pointers of the source; a use of a
    block that was freed is [Undef].  The allocator is an interface and may refuse any request.
    The functions run on the default hooks. *)

From stdpp Require Import gmap.
From S2P Require Import Prelude Alloc Json.

(** ** Hooks *)

(** A function for memory: of the C library or of the application. *)
Inductive memory_function := library | application (f : nat).
#[export] Instance memory_function_eq_dec : EqDecision memory_function.
Proof. solve_decision. Defined.

Record internal_hooks := mk_hooks {
  allocate : memory_function;
  deallocate : memory_function;
  reallocate : option memory_function
}.

(** [cJSON_InitHooks] of the functions [malloc_fn] and [free_fn], or of a null pointer. *)
Definition cJSON_InitHooks (hooks : option (option memory_function * option memory_function)) : internal_hooks :=
  match hooks with
  | None => mk_hooks library library (Some library)
  | Some (malloc_fn, free_fn) =>
      let a := default library malloc_fn in
      let d := default library free_fn in
      mk_hooks a d (if bool_decide (a = library /\ d = library) then Some library else None)
  end.

(** ** The heap *)

(** [struct cJSON] *)
Record node `{CDouble} := mk_node {
  next : option ptr;
  prev : option ptr;
  child : option ptr;
  type : Z;
  valuestring : option ptr;
  valueint : Z;
  valuedouble : double;
  string : option ptr
}.

(** The nodes, the strings (without the final NUL) and the number of requests so far. *)
Record heap `{CDouble} := mk_heap {
  nodes : gmap ptr node;
  strs : gmap ptr bytes;
  requests : nat
}.

Section Tree.
Context `{CDouble} `{!Allocator}.

Definition set_next x n := mk_node _ x (prev n) (child n) (type n) (valuestring n) (valueint n) (valuedouble n) (string n).
Definition set_prev x n := mk_node _ (next n) x (child n) (type n) (valuestring n) (valueint n) (valuedouble n) (string n).
Definition set_child x n := mk_node _ (next n) (prev n) x (type n) (valuestring n) (valueint n) (valuedouble n) (string n).
Definition set_type x n := mk_node _ (next n) (prev n) (child n) x (valuestring n) (valueint n) (valuedouble n) (string n).
Definition set_valuestring x n := mk_node _ (next n) (prev n) (child n) (type n) x (valueint n) (valuedouble n) (string n).
Definition set_number i d n := mk_node _ (next n) (prev n) (child n) (type n) (valuestring n) i d (string n).
Definition set_string x n := mk_node _ (next n) (prev n) (child n) (type n) (valuestring n) (valueint n) (valuedouble n) x.

(** ** Effects *)

Definition M (A : Type) : Type := heap -> outcome (A * heap).
#[global] Instance M_ret : MRet M := fun A a h => Ret (a, h).
#[global] Instance M_bind : MBind M := fun A B f m h => '(a, h) ← m h; f a h.

Definition undef {A} : M A := fun _ => Undef.
Definition get {A} (f : heap -> A) : M A := fun h => Ret (f h, h).

Definition used (h : heap) : gset ptr := dom (nodes h) ∪ dom (strs h).

Definition load (p : ptr) : M node := fun h =>
  match nodes h !! p with Some n => Ret (n, h) | None => Undef end.
Definition store (p : ptr) (n : node) : M () := fun h =>
  match nodes h !! p with Some _ => Ret ((), mk_heap _ (<[p := n]> (nodes h)) (strs h) (requests h)) | None => Undef end.
(** An assignment to a field of [*p]. *)
Definition update (p : ptr) (f : node -> node) : M () := n ← load p; store p (f n).

Definition load_str (p : ptr) : M bytes := fun h =>
  match strs h !! p with Some s => Ret (s, h) | None => Undef end.

Definition alloc_node (n : node) : M (option ptr) := fun h =>
  match place (requests h) (used h) with
  | Some p => Ret (Some p, mk_heap _ (<[p := n]> (nodes h)) (strs h) (S (requests h)))
  | None => Ret (None, mk_heap _ (nodes h) (strs h) (S (requests h)))
  end.
Definition alloc_str (s : bytes) : M (option ptr) := fun h =>
  match place (requests h) (used h) with
  | Some p => Ret (Some p, mk_heap _ (nodes h) (<[p := s]> (strs h)) (S (requests h)))
  | None => Ret (None, mk_heap _ (nodes h) (strs h) (S (requests h)))
  end.

Definition free_node (p : ptr) : M () := fun h =>
  match nodes h !! p with Some _ => Ret ((), mk_heap _ (delete p (nodes h)) (strs h) (requests h)) | None => Undef end.
Definition free_str (p : ptr) : M () := fun h =>
  match strs h !! p with Some _ => Ret ((), mk_heap _ (nodes h) (delete p (strs h)) (requests h)) | None => Undef end.

(** The number of steps that a walk over distinct nodes can take. *)
Definition fuel_of (h : heap) : nat := S (size (nodes h)).

(** ** Strings *)

Definition tolower (c : Z) : Z := if (65 <=? c) && (c <=? 90) then c + 32 else c.

(** The loop of [case_insensitive_strcmp] on two strings. *)
Fixpoint casecmp (s1 s2 : bytes) : Z :=
  match s1, s2 with
  | [], [] => 0
  | [], c2 :: _ => 0 - tolower c2
  | c1 :: _, [] => tolower c1
  | c1 :: s1, c2 :: s2 => if tolower c1 =? tolower c2 then casecmp s1 s2 else tolower c1 - tolower c2
  end.

Definition case_insensitive_strcmp (string1 string2 : option ptr) : M Z :=
  match string1, string2 with
  | Some p1, Some p2 =>
      if bool_decide (p1 = p2) then mret 0 else
      s1 ← load_str p1; s2 ← load_str p2; mret (casecmp s1 s2)
  | _, _ => mret 1
  end.

(** Whether [strcmp(s1, s2) == 0]; a null pointer is not a string. *)
Definition strcmp_eq (s1 s2 : option ptr) : M bool :=
  match s1, s2 with
  | Some p1, Some p2 => s1 ← load_str p1; s2 ← load_str p2; mret (bool_decide (s1 = s2))
  | _, _ => undef
  end.

Definition cJSON_strdup (s : option ptr) : M (option ptr) :=
  match s with
  | None => mret None
  | Some p => s ← load_str p; alloc_str s
  end.

(** ** Creation and deletion *)

Definition blank : node := mk_node _ None None None 0 None 0 dzero None.

Definition cJSON_New_Item : M (option ptr) := alloc_node blank.

Definition has_flag (flag : Z) (n : node) : bool := negb (Z.land (type n) flag =? 0).
Definition is_reference (n : node) : bool := has_flag cJSON_IsReference n.
Definition is_const (n : node) : bool := has_flag cJSON_StringIsConst n.

Definition free_opt (s : option ptr) : M () := match s with Some s => free_str s | None => mret () end.

Fixpoint delete_loop (fuel : nat) (item : option ptr) : M () :=
  match item with
  | None => mret ()
  | Some p =>
      match fuel with
      | O => undef
      | S fuel =>
          n ← load p;
          let next := next n in
          _ ← (if negb (is_reference n) then delete_loop fuel (child n) else mret ());
          n ← load p;
          _ ← (if negb (is_reference n) then free_opt (valuestring n) else mret ());
          _ ← (if negb (is_const n) then free_opt (string n) else mret ());
          _ ← free_node p;
          delete_loop fuel next
      end
  end.

Definition cJSON_Delete (item : option ptr) : M () :=
  fuel ← get fuel_of; delete_loop fuel item.

(** ** Access *)

Fixpoint count_loop (fuel : nat) (child : option ptr) (size : Z) : M Z :=
  match child with
  | None => mret size
  | Some p =>
      match fuel with
      | O => undef
      | S fuel => n ← load p; count_loop fuel (next n) (u64 (size + 1))
      end
  end.

Definition cJSON_GetArraySize (array : option ptr) : M Z :=
  match array with
  | None => mret 0
  | Some a => n ← load a; fuel ← get fuel_of; size ← count_loop fuel (child n) 0; mret (s32 size)
  end.

Fixpoint nth_loop (index : nat) (current_child : option ptr) : M (option ptr) :=
  match current_child, index with
  | Some p, S index => n ← load p; nth_loop index (next n)
  | _, _ => mret current_child
  end.

Definition get_array_item (array : option ptr) (index : Z) : M (option ptr) :=
  match array with
  | None => mret None
  | Some a => n ← load a; nth_loop (Z.to_nat index) (child n)
  end.

Definition cJSON_GetArrayItem (array : option ptr) (index : Z) : M (option ptr) :=
  if index <? 0 then mret None else get_array_item array index.

Fixpoint find_loop (fuel : nat) (differs : option ptr -> M bool) (current_element : option ptr) : M (option ptr) :=
  match current_element with
  | None => mret None
  | Some p =>
      match fuel with
      | O => undef
      | S fuel =>
          n ← load p;
          d ← differs (string n);
          if (d : bool) then find_loop fuel differs (next n) else mret (Some p)
      end
  end.

Definition get_object_item (object name : option ptr) (case_sensitive : bool) : M (option ptr) :=
  match object, name with
  | Some o, Some _ =>
      n ← load o;
      fuel ← get fuel_of;
      find_loop fuel (fun s => if case_sensitive then e ← strcmp_eq name s; mret (negb e)
                               else c ← case_insensitive_strcmp name s; mret (negb (c =? 0))) (child n)
  | _, _ => mret None
  end.

Definition cJSON_GetObjectItem (object string : option ptr) : M (option ptr) := get_object_item object string false.
Definition cJSON_GetObjectItemCaseSensitive (object string : option ptr) : M (option ptr) := get_object_item object string true.
Definition cJSON_HasObjectItem (object string : option ptr) : M bool :=
  i ← cJSON_GetObjectItem object string; mret (match i with Some _ => true | None => false end).

(** ** Adding *)

Definition suffix_object (prev item : ptr) : M () :=
  _ ← update prev (set_next (Some item)); update item (set_prev (Some prev)).

Definition create_reference (item : option ptr) : M (option ptr) :=
  match item with
  | None => mret None
  | Some i =>
      r ← cJSON_New_Item;
      match r with
      | None => mret None
      | Some r =>
          n ← load i;
          _ ← store r n;
          _ ← update r (set_string None);
          _ ← update r (fun n => set_type (Z.lor (type n) cJSON_IsReference) n);
          _ ← update r (fun n => set_next None (set_prev None n));
          mret (Some r)
      end
  end.

(** The loop [while (child->next)]. *)
Fixpoint last_loop (fuel : nat) (child : ptr) : M ptr :=
  match fuel with
  | O => undef
  | S fuel =>
      n ← load child;
      match next n with None => mret child | Some c => last_loop fuel c end
  end.

Definition cJSON_AddItemToArray (array item : option ptr) : M () :=
  match item, array with
  | Some item, Some array =>
      n ← load array;
      match child n with
      | None => update array (set_child (Some item))
      | Some c => fuel ← get fuel_of; c ← last_loop fuel c; suffix_object c item
      end
  | _, _ => mret ()
  end.

Definition cJSON_AddItemToObjectCS (object name item : option ptr) : M () :=
  match item, name with
  | Some i, Some _ =>
      n ← load i;
      _ ← (if negb (is_const n) then free_opt (string n) else mret ());
      _ ← update i (set_string name);
      _ ← update i (fun n => set_type (Z.lor (type n) cJSON_StringIsConst) n);
      cJSON_AddItemToArray object item
  | _, _ => mret ()
  end.

Definition clear_const (i : ptr) : M () :=
  update i (fun n => set_type (Z.land (type n) (Z.lnot cJSON_StringIsConst)) n).

Definition cJSON_AddItemToObject (object name item : option ptr) : M () :=
  match item with
  | None => mret ()
  | Some i =>
      copy ← cJSON_strdup name;
      _ ← cJSON_AddItemToObjectCS object copy item;
      clear_const i
  end.

Definition cJSON_AddItemReferenceToArray (array item : option ptr) : M () :=
  match array with
  | None => mret ()
  | Some _ => r ← create_reference item; cJSON_AddItemToArray array r
  end.

Definition cJSON_AddItemReferenceToObject (object name item : option ptr) : M () :=
  match object, name with
  | Some _, Some _ => r ← create_reference item; cJSON_AddItemToObject object name r
  | _, _ => mret ()
  end.

(** ** Removing *)

Definition cJSON_DetachItemViaPointer (parent item : option ptr) : M (option ptr) :=
  match parent, item with
  | Some parent, Some i =>
      n ← load i;
      _ ← match prev n with Some q => update q (set_next (next n)) | None => mret () end;
      n ← load i;
      _ ← match next n with Some q => update q (set_prev (prev n)) | None => mret () end;
      n ← load i;
      m ← load parent;
      _ ← (if bool_decide (item = child m) then update parent (set_child (next n)) else mret ());
      _ ← update i (set_prev None);
      _ ← update i (set_next None);
      mret item
  | _, _ => mret None
  end.

Definition cJSON_DetachItemFromArray (array : option ptr) (which : Z) : M (option ptr) :=
  if which <? 0 then mret None else i ← get_array_item array which; cJSON_DetachItemViaPointer array i.

Definition cJSON_DeleteItemFromArray (array : option ptr) (which : Z) : M () :=
  i ← cJSON_DetachItemFromArray array which; cJSON_Delete i.

Definition cJSON_DetachItemFromObject (object name : option ptr) : M (option ptr) :=
  i ← cJSON_GetObjectItem object name; cJSON_DetachItemViaPointer object i.
Definition cJSON_DetachItemFromObjectCaseSensitive (object name : option ptr) : M (option ptr) :=
  i ← cJSON_GetObjectItemCaseSensitive object name; cJSON_DetachItemViaPointer object i.

Definition cJSON_DeleteItemFromObject (object name : option ptr) : M () :=
  i ← cJSON_DetachItemFromObject object name; cJSON_Delete i.
Definition cJSON_DeleteItemFromObjectCaseSensitive (object name : option ptr) : M () :=
  i ← cJSON_DetachItemFromObjectCaseSensitive object name; cJSON_Delete i.

(** ** Inserting and replacing *)

(** [newitem->...] of a null pointer is undefined. *)
Definition cJSON_InsertItemInArray (array : option ptr) (which : Z) (newitem : option ptr) : M () :=
  if which <? 0 then mret () else
  after ← get_array_item array which;
  match after with
  | None => cJSON_AddItemToArray array newitem
  | Some after_inserted =>
      match newitem, array with
      | Some i, Some array =>
          _ ← update i (set_next (Some after_inserted));
          n ← load after_inserted;
          _ ← update i (set_prev (prev n));
          _ ← update after_inserted (set_prev newitem);
          m ← load array;
          if bool_decide (Some after_inserted = child m) then update array (set_child newitem)
          else
            n ← load i;
            match prev n with Some q => update q (set_next newitem) | None => undef end
      | _, _ => undef
      end
  end.

Definition cJSON_ReplaceItemViaPointer (parent item replacement : option ptr) : M bool :=
  match parent, replacement, item with
  | Some parent, Some r, Some i =>
      if bool_decide (r = i) then mret true else
      n ← load i;
      _ ← update r (set_next (next n));
      n ← load i;
      _ ← update r (set_prev (prev n));
      n ← load r;
      _ ← match next n with Some q => update q (set_prev replacement) | None => mret () end;
      n ← load r;
      _ ← match prev n with Some q => update q (set_next replacement) | None => mret () end;
      m ← load parent;
      _ ← (if bool_decide (child m = item) then update parent (set_child replacement) else mret ());
      _ ← update i (set_next None);
      _ ← update i (set_prev None);
      _ ← cJSON_Delete item;
      mret true
  | _, _, _ => mret false
  end.

Definition cJSON_ReplaceItemInArray (array : option ptr) (which : Z) (newitem : option ptr) : M () :=
  if which <? 0 then mret () else
  i ← get_array_item array which;
  _ ← cJSON_ReplaceItemViaPointer array i newitem;
  mret ().

Definition replace_item_in_object (object name replacement : option ptr) (case_sensitive : bool) : M bool :=
  match replacement, name with
  | Some r, Some _ =>
      n ← load r;
      _ ← (if negb (is_const n) then free_opt (string n) else mret ());
      copy ← cJSON_strdup name;
      _ ← update r (set_string copy);
      _ ← clear_const r;
      i ← get_object_item object name case_sensitive;
      _ ← cJSON_ReplaceItemViaPointer object i replacement;
      mret true
  | _, _ => mret false
  end.

Definition cJSON_ReplaceItemInObject (object name newitem : option ptr) : M () :=
  _ ← replace_item_in_object object name newitem false; mret ().
Definition cJSON_ReplaceItemInObjectCaseSensitive (object name newitem : option ptr) : M () :=
  _ ← replace_item_in_object object name newitem true; mret ().

(** ** Creating *)

(** A new item with some fields set. *)
Definition create (f : node -> node) : M (option ptr) :=
  i ← cJSON_New_Item;
  match i with Some p => _ ← update p f; mret i | None => mret None end.

Definition cJSON_CreateNull : M (option ptr) := create (set_type cJSON_NULL).
Definition cJSON_CreateTrue : M (option ptr) := create (set_type cJSON_True).
Definition cJSON_CreateFalse : M (option ptr) := create (set_type cJSON_False).
Definition cJSON_CreateBool (b : Z) : M (option ptr) := create (set_type (if b =? 0 then cJSON_False else cJSON_True)).
Definition cJSON_CreateArray : M (option ptr) := create (set_type cJSON_Array).
Definition cJSON_CreateObject : M (option ptr) := create (set_type cJSON_Object).
Definition cJSON_CreateNumber (num : double) : M (option ptr) :=
  create (fun n => set_number (int_of_double num) num (set_type cJSON_Number n)).

(** [cJSON_CreateString] and [cJSON_CreateRaw]. *)
Definition create_text (ty : Z) (s : option ptr) : M (option ptr) :=
  i ← create (set_type ty);
  match i with
  | None => mret None
  | Some p =>
      v ← cJSON_strdup s;
      _ ← update p (set_valuestring v);
      match v with Some _ => mret i | None => _ ← cJSON_Delete i; mret None end
  end.
Definition cJSON_CreateString (s : option ptr) : M (option ptr) := create_text cJSON_String s.
Definition cJSON_CreateRaw (raw : option ptr) : M (option ptr) := create_text cJSON_Raw raw.

(** The loop that the four functions for arrays share, for the [n] values from [i] on; [p] is the node before. *)
Fixpoint elements {A} (make : A -> M (option ptr)) (l : list A) (n : nat) (i : Z) (a : ptr) (p : option ptr) : M (option ptr) :=
  match n with
  | O => mret (Some a)
  | S n =>
      x ← (fun h => x ← mem_get l i; Ret (x, h));
      c ← make x;
      match c with
      | None => _ ← cJSON_Delete (Some a); mret None
      | Some c =>
          _ ← match p with None => update a (set_child (Some c)) | Some p => suffix_object p c end;
          elements make l n (i + 1) a (Some c)
      end
  end.

Definition create_array {A} (make : A -> M (option ptr)) (numbers : option (list A)) (count : Z) : M (option ptr) :=
  match numbers with
  | None => mret None
  | Some l =>
      if count <? 0 then mret None else
      a ← cJSON_CreateArray;
      match a with
      | None => mret None
      | Some a => elements make l (Z.to_nat count) 0 a None
      end
  end.

Definition cJSON_CreateIntArray (numbers : option (list Z)) (count : Z) : M (option ptr) :=
  create_array (fun i => cJSON_CreateNumber (of_int i)) numbers count.
(** A [float] is given as the [double] it is. *)
Definition cJSON_CreateFloatArray (numbers : option (list double)) (count : Z) : M (option ptr) :=
  create_array cJSON_CreateNumber numbers count.
Definition cJSON_CreateDoubleArray (numbers : option (list double)) (count : Z) : M (option ptr) :=
  create_array cJSON_CreateNumber numbers count.
Definition cJSON_CreateStringArray (strings : option (list (option ptr))) (count : Z) : M (option ptr) :=
  create_array cJSON_CreateString strings count.

(** ** Duplication *)

(** The fields of [item] in the new node, or nothing when memory is short. *)
Definition copy_fields (i p : ptr) : M bool :=
  n ← load i;
  _ ← update p (fun m => set_number (valueint n) (valuedouble n)
                   (set_type (Z.land (type n) (Z.lnot cJSON_IsReference)) m));
  v ← cJSON_strdup (valuestring n);
  _ ← update p (set_valuestring v);
  if bool_decide (is_Some (valuestring n) /\ v = None) then mret false else
  s ← (if is_const n then mret (string n) else cJSON_strdup (string n));
  _ ← update p (set_string s);
  mret (negb (bool_decide (is_Some (string n) /\ s = None))).

(** The loop over the children: [next] is the copy before. *)
Fixpoint copy_children (dup : option ptr -> M (option ptr)) (fuel : nat) (newitem : ptr) (child next : option ptr) : M bool :=
  match child with
  | None => mret true
  | Some c =>
      match fuel with
      | O => undef
      | S fuel =>
          newchild ← dup child;
          match newchild with
          | None => mret false
          | Some k =>
              _ ← match next with
                  | Some q => suffix_object q k
                  | None => update newitem (set_child newchild)
                  end;
              n ← load c;
              copy_children dup fuel newitem (JsonTree.next n) newchild
          end
      end
  end.

Fixpoint duplicate (fuel : nat) (item : option ptr) (recurse : bool) : M (option ptr) :=
  match fuel with
  | O => undef
  | S fuel =>
      match item with
      | None => mret None
      | Some i =>
          p ← cJSON_New_Item;
          match p with
          | None => mret None
          | Some newitem =>
              ok ← copy_fields i newitem;
              ok ← (if ok && recurse then
                      n ← load i;
                      copy_children (fun c => duplicate fuel c true) fuel newitem (child n) None
                    else mret ok);
              if (ok : bool) then mret p else _ ← cJSON_Delete p; mret None
          end
      end
  end.

Definition cJSON_Duplicate (item : option ptr) (recurse : bool) : M (option ptr) :=
  fuel ← get fuel_of; duplicate fuel item recurse.

(** ** Types and comparison *)

Definition has_type (t : Z) (item : option ptr) : M bool :=
  match item with None => mret false | Some i => n ← load i; mret (Z.land (type n) 0xFF =? t) end.

Definition cJSON_IsInvalid := has_type cJSON_Invalid.
Definition cJSON_IsFalse := has_type cJSON_False.
Definition cJSON_IsTrue (item : option ptr) : M bool :=
  match item with None => mret false | Some i => n ← load i; mret (Z.land (type n) 0xff =? cJSON_True) end.
Definition cJSON_IsBool (item : option ptr) : M bool :=
  match item with None => mret false | Some i => n ← load i; mret (negb (Z.land (type n) (Z.lor cJSON_True cJSON_False) =? 0)) end.
Definition cJSON_IsNull := has_type cJSON_NULL.
Definition cJSON_IsNumber := has_type cJSON_Number.
Definition cJSON_IsString := has_type cJSON_String.
Definition cJSON_IsArray := has_type cJSON_Array.
Definition cJSON_IsObject := has_type cJSON_Object.
Definition cJSON_IsRaw := has_type cJSON_Raw.

Definition known_type (t : Z) : bool :=
  bool_decide (t ∈ [cJSON_False; cJSON_True; cJSON_NULL; cJSON_Number; cJSON_String; cJSON_Raw; cJSON_Array; cJSON_Object]).

(** The loop on two arrays. *)
Fixpoint compare_arrays (cmp : option ptr -> option ptr -> M bool) (fuel : nat) (a b : option ptr) : M bool :=
  match a, b with
  | Some x, Some y =>
      match fuel with
      | O => undef
      | S fuel =>
          e ← cmp a b;
          if negb e then mret false else
          n ← load x;
          m ← load y;
          compare_arrays cmp fuel (next n) (next m)
      end
  | _, _ => mret (bool_decide (a = b))
  end.

(** One of the loops on two objects: the elements from [a] on are looked up in [other]. *)
Fixpoint compare_objects (cmp : option ptr -> option ptr -> M bool) (case_sensitive : bool) (fuel : nat) (a other : option ptr) : M bool :=
  match a with
  | None => mret true
  | Some x =>
      match fuel with
      | O => undef
      | S fuel =>
          n ← load x;
          b ← get_object_item other (string n) case_sensitive;
          match b with
          | None => mret false
          | Some _ =>
              e ← cmp a b;
              if negb e then mret false else
              n ← load x;
              compare_objects cmp case_sensitive fuel (next n) other
          end
      end
  end.

Fixpoint compare (fuel : nat) (a b : option ptr) (case_sensitive : bool) : M bool :=
  match fuel with
  | O => undef
  | S fuel =>
      match a, b with
      | Some x, Some y =>
          n ← load x;
          m ← load y;
          let t := Z.land (type n) 0xFF in
          if negb (t =? Z.land (type m) 0xFF) || (t =? cJSON_Invalid) then mret false else
          if negb (known_type t) then mret false else
          if bool_decide (a = b) then mret true else
          let cmp a b := compare fuel a b case_sensitive in
          if bool_decide (t ∈ [cJSON_False; cJSON_True; cJSON_NULL]) then mret true
          else if t =? cJSON_Number then mret (deq (valuedouble n) (valuedouble m))
          else if bool_decide (t ∈ [cJSON_String; cJSON_Raw]) then
            match valuestring n, valuestring m with
            | Some _, Some _ => strcmp_eq (valuestring n) (valuestring m)
            | _, _ => mret false
            end
          else if t =? cJSON_Array then compare_arrays cmp fuel (child n) (child m)
          else
            e ← compare_objects cmp case_sensitive fuel (child n) b;
            if negb e then mret false else
            m ← load y;
            compare_objects cmp case_sensitive fuel (child m) a
      | _, _ => mret false
      end
  end.

(** The comparison goes down in both trees, which takes at most as many steps as there are nodes. *)
Definition cJSON_Compare (a b : option ptr) (case_sensitive : bool) : M bool :=
  fuel ← get fuel_of; compare fuel a b case_sensitive.
End Tree.
