(* ===== verification/JsonTreeSpec.v ===== *)
(** Edited JSON trees stay well linked: what the functions of [JsonTree] do to the lists of children. *)

From stdpp Require Import gmap.
From S2P Require Import Prelude Alloc Json JsonTree.

(** ** Chains of siblings *)

Section Chains.
Context `{CDouble}.
Implicit Types (N : gmap ptr node) (l : list ptr).

Definition first l (nx : option ptr) : option ptr := match l with [] => nx | q :: _ => Some q end.
Definition final (pv : option ptr) l : option ptr := match last l with Some q => Some q | None => pv end.

(** The nodes [l] are linked in both directions, after [pv] and before [nx]. *)
Fixpoint seg N (pv : option ptr) l (nx : option ptr) : Prop :=
  match l with
  | [] => True
  | q :: l => (exists n, N !! q = Some n /\ prev n = pv /\ next n = first l nx) /\ seg N (Some q) l nx
  end.

Lemma final_none l : final None l = last l.
Proof. unfold final. by destruct (last l). Qed.
Lemma first_none l : first l None = head l.
Proof. by destruct l. Qed.
Lemma final_cons pv q l : final pv (q :: l) = final (Some q) l.
Proof. unfold final. rewrite last_cons. by destruct (last l). Qed.
Lemma first_app l1 l2 nx : first (l1 ++ l2) nx = first l1 (first l2 nx).
Proof. by destruct l1. Qed.

Lemma seg_app N pv l1 l2 nx :
  seg N pv (l1 ++ l2) nx <-> seg N pv l1 (first l2 nx) /\ seg N (final pv l1) l2 nx.
Proof.
  revert pv. induction l1 as [|q l1 IH]; intros pv; cbn [app seg]; [by unfold final; cbn; tauto|].
  rewrite IH, first_app, final_cons. tauto.
Qed.

(** A chain depends on the two links of its nodes. *)
Lemma seg_links N N' pv l nx :
  (forall q n, q ∈ l -> N !! q = Some n -> exists n', N' !! q = Some n' /\ next n' = next n /\ prev n' = prev n) ->
  seg N pv l nx -> seg N' pv l nx.
Proof.
  revert pv. induction l as [|q l IH]; intros pv Hl; cbn [seg]; [done|]. intros [(n & Hn & <- & <-) Hs]. split.
  - destruct (Hl q n ltac:(set_solver) Hn) as (n' & ? & ? & ?). eauto.
  - apply IH; [|done]. intros q' m ?. apply Hl. set_solver.
Qed.

Lemma seg_frame N N' pv l nx : (forall q, q ∈ l -> N' !! q = N !! q) -> seg N pv l nx -> seg N' pv l nx.
Proof. intros Hl. apply seg_links. intros q n Hq Hn. exists n. by rewrite Hl. Qed.

Lemma seg_lookup N pv l nx q : seg N pv l nx -> q ∈ l -> is_Some (N !! q).
Proof.
  revert pv. induction l as [|q' l IH]; intros pv; cbn [seg]; [set_solver|]. intros [(n & Hn & _) Hs] [->|Hq]%elem_of_cons; [by eexists|].
  by eapply IH.
Qed.

(** An assignment to the node that a pointer points to, if any. *)
Definition alter_opt (f : node -> node) (o : option ptr) N : gmap ptr node :=
  match o with Some z => alter f z N | None => N end.

Lemma alter_opt_ne f o N q : o <> Some q -> alter_opt f o N !! q = N !! q.
Proof. intros. destruct o; cbn; [|done]. apply lookup_alter_ne. congruence. Qed.

Lemma alter_opt_some f o N q : is_Some (alter_opt f o N !! q) <-> is_Some (N !! q).
Proof.
  destruct (decide (o = Some q)) as [->|Hne]; [|by rewrite alter_opt_ne]. cbn. rewrite lookup_alter_eq. by destruct (N !! q).
Qed.

Lemma seg_outside f o N pv l nx : (forall z, o = Some z -> z ∉ l) -> seg N pv l nx -> seg (alter_opt f o N) pv l nx.
Proof. intros Ho. apply seg_frame. intros q Hq. apply alter_opt_ne. intros E. by apply (Ho q). Qed.
Lemma seg_any_child x z N pv l nx : seg N pv l nx -> seg (alter (set_child x) z N) pv l nx.
Proof.
  apply seg_links. intros q n _ Hn. destruct (decide (z = q)) as [->|Hne].
  - rewrite lookup_alter_eq, Hn. by eexists.
  - rewrite lookup_alter_ne by done. eauto.
Qed.

(** New ends for a chain. *)
Lemma seg_set_next N pv l nx nx' : NoDup l -> seg N pv l nx -> seg (alter_opt (set_next nx') (last l) N) pv l nx'.
Proof.
  destruct l as [|z l _] using rev_ind; [done|]. rewrite last_snoc. intros [_ [Hz _]]%NoDup_app. rewrite !seg_app. cbn [seg first].
  intros [H1 [(m & Hm & Hp & _) _]]. split.
  - apply seg_outside; [|done]. intros ? [= <-] ?. by apply (Hz z); [|left].
  - split; [|done]. exists (set_next nx' m). cbn. by rewrite lookup_alter_eq, Hm.
Qed.
Lemma seg_set_prev N pv pv' l nx : NoDup l -> seg N pv l nx -> seg (alter_opt (set_prev pv') (head l) N) pv' l nx.
Proof.
  destruct l as [|z l]; [done|]. intros [Hz _]%NoDup_cons. cbn [seg head]. intros [(m & Hm & _ & Hp) Hs]. split.
  - exists (set_prev pv' m). cbn. by rewrite lookup_alter_eq, Hm.
  - apply seg_outside; [|done]. by intros ? [= <-].
Qed.

(** The fields that are not links agree. *)
Record same_data (n n' : node) : Prop := {
  same_type : type n' = type n;
  same_valuestring : valuestring n' = valuestring n;
  same_valueint : valueint n' = valueint n;
  same_valuedouble : valuedouble n' = valuedouble n;
  same_string : string n' = string n
}.

(** ** Linked trees *)

(** [K] gives the children of every node; a node is in at most one list, and only once. *)
Record linked N (K : gmap ptr (list ptr)) : Prop := {
  linked_dom p : is_Some (K !! p) <-> is_Some (N !! p);
  linked_child p n l : N !! p = Some n -> K !! p = Some l -> if is_reference n then l = [] else child n = first l None;
  linked_seg p l : K !! p = Some l -> seg N None l None;
  linked_root q n : N !! q = Some n -> (forall p l, K !! p = Some l -> q ∉ l) -> next n = None /\ prev n = None;
  linked_nodup p l : K !! p = Some l -> NoDup l /\ p ∉ l;
  linked_once p p' l l' q : K !! p = Some l -> K !! p' = Some l' -> q ∈ l -> q ∈ l' -> p = p'
}.

(** No list has the node. *)
Definition is_root (K : gmap ptr (list ptr)) (q : ptr) : Prop := forall p l, K !! p = Some l -> q ∉ l.

Lemma same_data_refl n : same_data n n.
Proof. done. Qed.
Lemma same_data_trans n1 n2 n3 : same_data n1 n2 -> same_data n2 n3 -> same_data n1 n3.
Proof. intros [] []. split; congruence. Qed.
Lemma data_reference n n' : same_data n n' -> is_reference n' = is_reference n.
Proof. intros []. unfold is_reference, has_flag. congruence. Qed.

(** A node may have new links when it is in [S], and a new child when it is in [C]. *)
Definition node_evolves (S C : Prop) (n n' : node) : Prop :=
  same_data n n' /\ (S \/ next n' = next n /\ prev n' = prev n) /\ (C \/ child n' = child n).
Definition evolves (S C : ptr -> Prop) N N' : Prop :=
  forall q, match N !! q, N' !! q with
            | Some n, Some n' => node_evolves (S q) (C q) n n'
            | None, None => True
            | _, _ => False
            end.

Lemma evolves_refl S C N : evolves S C N N.
Proof. intros q. destruct (N !! q); [|done]. split_and!; auto using same_data_refl. Qed.
Lemma evolves_alter S C N N' q f :
  evolves S C N N' -> (forall n, node_evolves (S q) (C q) n (f n)) -> evolves S C N (alter f q N').
Proof.
  intros E Hf x. specialize (E x). destruct (decide (q = x)) as [->|Hne]; [|by rewrite lookup_alter_ne].
  rewrite lookup_alter_eq. destruct (N !! x) as [m|], (N' !! x) as [m'|]; [|done..]. cbn. destruct E as (D' & HS' & HC'), (Hf m') as (D & HS & HC).
  split_and!; [by eapply same_data_trans| |].
  - destruct HS as [|[-> ->]]; [by left|done].
  - destruct HC as [HC|HC]; [by left|by rewrite HC].
Qed.
Lemma evolves_alter_opt S C N N' o f :
  evolves S C N N' -> (forall q n, o = Some q -> node_evolves (S q) (C q) n (f n)) -> evolves S C N (alter_opt f o N').
Proof. intros E Hf. destruct o; [|done]. apply evolves_alter; auto. Qed.
Lemma evolves_next (S C : Prop) x n : S -> node_evolves S C n (set_next x n).
Proof. intros. split_and!; [done|by left|by right]. Qed.
Lemma evolves_prev (S C : Prop) x n : S -> node_evolves S C n (set_prev x n).
Proof. intros. split_and!; [done|by left|by right]. Qed.
Lemma evolves_child (S C : Prop) x n : C -> node_evolves S C n (set_child x n).
Proof. intros. split_and!; [done|by right|by left]. Qed.
Lemma evolves_some S C N N' q n : evolves S C N N' -> N !! q = Some n -> exists n', N' !! q = Some n' /\ node_evolves (S q) (C q) n n'.
Proof. intros E Hq. specialize (E q). rewrite Hq in E. destruct (N' !! q); [eauto|done]. Qed.
Lemma evolves_some_inv S C N N' q n' : evolves S C N N' -> N' !! q = Some n' -> exists n, N !! q = Some n /\ node_evolves (S q) (C q) n n'.
Proof. intros E Hq. specialize (E q). rewrite Hq in E. destruct (N !! q); [eauto|done]. Qed.

(** What a change of the children of [p] from [l] to [l'] may do to the nodes. *)
Record relinks N N' (p : ptr) (l l' : list ptr) : Prop := {
  relinks_evolves : evolves (fun q => q ∈ l \/ q ∈ l') (eq p) N N';
  relinks_seg : seg N' None l' None;
  relinks_parent n' : N' !! p = Some n' -> child n' = first l' None;
  relinks_out q n' : q ∈ l -> q ∉ l' -> N' !! q = Some n' -> next n' = None /\ prev n' = None
}.

Lemma relinks_linked N N' K p l l' n :
  linked N K -> K !! p = Some l -> N !! p = Some n -> is_reference n = false -> relinks N N' p l l' ->
  NoDup l' -> p ∉ l' -> (forall q, q ∈ l' -> q ∉ l -> is_root K q) -> linked N' (<[p := l']> K).
Proof.
  intros L Hp Hn Href [E Hseg Hpar Hout] Hnd Hpl' Hnew. split.
  - intros q. transitivity (is_Some (N !! q)).
    + rewrite <-(linked_dom _ _ L). destruct (decide (q = p)) as [->|Hne]; [|by rewrite lookup_insert_ne].
      rewrite lookup_insert_eq, Hp. split; by eexists.
    + specialize (E q). destruct (N !! q), (N' !! q); naive_solver.
  - intros q n' m Hn' Hm. destruct (evolves_some_inv _ _ _ _ _ _ E Hn') as (n0 & Hn0 & D & _ & HC). rewrite (data_reference _ _ D).
    destruct (decide (q = p)) as [->|Hne].
    + rewrite lookup_insert_eq in Hm. simplify_eq. rewrite Href. by apply Hpar.
    + rewrite lookup_insert_ne in Hm by done. destruct HC as [HC|HC]; [congruence|rewrite HC]. by eapply linked_child.
  - intros q m. destruct (decide (q = p)) as [->|Hne]; [rewrite lookup_insert_eq; by intros [= <-]|].
    rewrite lookup_insert_ne by done. intros Hm. eapply seg_links; [|by eapply linked_seg]. intros x nx Hx Hnx.
    destruct (evolves_some _ _ _ _ _ _ E Hnx) as (n' & Hn' & _ & HS & _). exists n'. split; [done|].
    destruct HS as [[Hl|Hl]|HS]; [destruct Hne; by eapply (linked_once _ _ L)| |done].
    destruct (decide (x ∈ l)) as [Hxl|Hxl]; [destruct Hne; by eapply (linked_once _ _ L)|]. by destruct (Hnew x Hl Hxl q m Hm).
  - intros q nq Hq Hroot. assert (q ∉ l') as Hql' by (eapply (Hroot p); by rewrite lookup_insert_eq).
    destruct (decide (q ∈ l)) as [Hql|Hql]; [by eapply Hout|].
    destruct (evolves_some_inv _ _ _ _ _ _ E Hq) as (n0 & Hn0 & _ & [[?|?]|[-> ->]] & _); [done|done|].
    eapply (linked_root _ _ L); [done|]. intros p' m' Hm'. destruct (decide (p' = p)) as [->|Hpp]; [by simplify_eq|].
    apply (Hroot p'). by rewrite lookup_insert_ne.
  - intros q m. destruct (decide (q = p)) as [->|Hne]; [rewrite lookup_insert_eq; by intros [= <-]|].
    rewrite lookup_insert_ne by done. apply (linked_nodup _ _ L).
  - intros p1 p2 l1 l2 q H1 H2 Hq1 Hq2. destruct (decide (p1 = p)) as [->|Hp1], (decide (p2 = p)) as [->|Hp2]; [done| | |].
    + rewrite lookup_insert_eq in H1. rewrite lookup_insert_ne in H2 by done. simplify_eq.
      destruct (decide (q ∈ l)) as [Hl|Hl]; [by eapply (linked_once _ _ L p p2 l l2 q)|]. by destruct (Hnew q Hq1 Hl p2 l2 H2).
    + rewrite lookup_insert_eq in H2. rewrite lookup_insert_ne in H1 by done. simplify_eq.
      destruct (decide (q ∈ l)) as [Hl|Hl]; [by eapply (linked_once _ _ L p1 p l1 l q)|]. by destruct (Hnew q Hq2 Hl p1 l1 H1).
    + rewrite lookup_insert_ne in H1, H2 by done. by eapply (linked_once _ _ L).
Qed.
End Chains.

(** ** The functions on nodes *)

Section Runs.
Context `{CDouble} `{!Allocator}.
Implicit Types (h : heap) (K : gmap ptr (list ptr)).

Definition with_nodes N h : heap := mk_heap _ N (strs h) (requests h).

Lemma runs {A B} (m : M A) (f : A -> M B) h a h1 : m h = Ret (a, h1) -> (m ≫= f) h = f a h1.
Proof. intros E. unfold mbind, M_bind. by rewrite E. Qed.
Lemma load_run p n h : nodes h !! p = Some n -> load p h = Ret (n, h).
Proof. intros E. unfold load. by rewrite E. Qed.
Lemma update_run p f h : is_Some (nodes h !! p) -> update p f h = Ret ((), with_nodes (alter f p (nodes h)) h).
Proof.
  intros [n Hn]. unfold update. rewrite (runs _ _ _ _ _ (load_run p n h Hn)). unfold store. rewrite Hn.
  assert (<[p := f n]> (nodes h) = alter f p (nodes h)) as ->; [|done]. apply map_eq. intros q. destruct (decide (p = q)) as [->|Hne].
  - by rewrite lookup_insert_eq, lookup_alter_eq, Hn.
  - by rewrite lookup_insert_ne, lookup_alter_ne.
Qed.
Lemma update_run' p f N h : is_Some (N !! p) -> update p f (with_nodes N h) = Ret ((), with_nodes (alter f p N) h).
Proof. apply (update_run p f (with_nodes N h)). Qed.
Lemma update_opt_run o f h : (forall p, o = Some p -> is_Some (nodes h !! p)) ->
  (match o with Some p => update p f | None => mret () end) h = Ret ((), with_nodes (alter_opt f o (nodes h)) h).
Proof. destruct o; intros Ho; [apply update_run; by apply Ho|]. cbn. by destruct h. Qed.

Lemma nth_loop_run h pv l i : seg (nodes h) pv l None -> nth_loop i (first l None) h = Ret (l !! i, h).
Proof.
  revert pv i. induction l as [|q l IH]; intros pv i; [by destruct i|]. intros [(n & Hn & _ & Hx) Hs].
  destruct i as [|i]; [done|]. cbn [nth_loop first]. rewrite (runs _ _ _ _ _ (load_run q n h Hn)), Hx. by eapply IH.
Qed.

Lemma last_loop_run h pv l q fuel : seg (nodes h) pv (q :: l) None -> (length l < fuel)%nat ->
  last_loop fuel q h = Ret (default q (last l), h).
Proof.
  revert pv q fuel. induction l as [|q' l IH]; intros pv q [|fuel]; cbn [length]; try lia; intros [(n & Hn & _ & Hx) Hs] Hf;
    cbn [last_loop]; rewrite (runs _ _ _ _ _ (load_run q n h Hn)), Hx; [done|]. cbn [first].
  rewrite (IH (Some q) q' fuel) by (done || lia). by rewrite last_cons; destruct (last l).
Qed.

Lemma walk_fuel h l : NoDup l -> (forall q, q ∈ l -> is_Some (nodes h !! q)) -> (length l < fuel_of h)%nat.
Proof. intros. unfold fuel_of. pose proof (nodup_size (nodes h) l). intuition lia. Qed.

Lemma root_seg N K q : linked N K -> is_root K q -> is_Some (N !! q) -> seg N None [q] None.
Proof.
  intros L Hr [n Hn]. destruct (linked_root _ _ L q n Hn Hr) as [? ?]. split; [|done]. by exists n.
Qed.
Lemma linked_in N K p l q : linked N K -> K !! p = Some l -> q ∈ l -> is_Some (N !! q).
Proof. intros L Hp. eapply seg_lookup. by eapply linked_seg. Qed.
Lemma last_in {A} (l : list A) z : last l = Some z -> z ∈ l.
Proof. rewrite last_lookup. apply list_elem_of_lookup_2. Qed.
Lemma head_in {A} (l : list A) z : head l = Some z -> z ∈ l.
Proof. destruct l; [done|]. intros [= ->]. by left. Qed.

Ltac evolve := repeat (apply evolves_alter_opt || apply evolves_alter || apply evolves_refl);
  intros; (apply evolves_next || apply evolves_prev || apply evolves_child); simplify_eq; eauto using last_in, head_in.

(** The nodes after [q] has become the last child of [p]. *)
Definition append_nodes (N : gmap ptr node) (p : ptr) (l : list ptr) (q : ptr) : gmap ptr node :=
  match last l with
  | None => alter (set_child (Some q)) p N
  | Some z => alter (set_prev (Some z)) q (alter (set_next (Some q)) z N)
  end.

Lemma append_relinks N K p l q n :
  linked N K -> K !! p = Some l -> N !! p = Some n -> is_reference n = false -> is_root K q -> is_Some (N !! q) -> q <> p ->
  relinks N (append_nodes N p l q) p l (l ++ [q]).
Proof.
  intros L Hp Hn Href Hr Hq Hqp. pose proof (Hr p l Hp) as Hql. destruct (linked_nodup _ _ L p l Hp) as [Hnd Hpl].
  pose proof (linked_seg _ _ L p l Hp) as Hseg. pose proof (root_seg _ _ _ L Hr Hq) as Hroot.
  pose proof (linked_child _ _ L p n l Hn Hp) as Hc. rewrite Href in Hc. unfold append_nodes. destruct (last l) as [z|] eqn:Hlast.
  - change (alter _ q _) with (alter_opt (set_prev (Some z)) (head [q]) (alter_opt (set_next (Some q)) (Some z) N)). rewrite <-!Hlast. split.
    + evolve. right. apply elem_of_app. right. by apply (head_in [q]).
    + rewrite seg_app, final_none. split.
      * apply seg_outside; [by intros ? [= <-]|]. by eapply seg_set_next.
      * eapply seg_set_prev; [apply NoDup_singleton|]. apply seg_outside; [|done]. intros z' Hz'%last_in ->%list_elem_of_singleton. done.
    + rewrite !alter_opt_ne by (cbn; congruence || (intros ?%last_in; done)). rewrite Hn. intros n' [= <-]. rewrite first_app. destruct l; [done|exact Hc].
    + intros x n' Hx Hx'. destruct Hx'. apply elem_of_app. by left.
  - apply last_None in Hlast as ->. split.
    + evolve.
    + by apply seg_any_child.
    + intros n'. rewrite lookup_alter_eq, Hn. by intros [= <-].
    + intros ? ? ?%not_elem_of_nil. done.
Qed.

(** [cJSON_AddItemToArray]: the item becomes the last child. *)
Lemma AddItemToArray_run h K p l q n :
  linked (nodes h) K -> K !! p = Some l -> nodes h !! p = Some n -> is_reference n = false ->
  is_root K q -> is_Some (nodes h !! q) -> q <> p ->
  exists N', cJSON_AddItemToArray (Some p) (Some q) h = Ret ((), with_nodes N' h) /\ relinks (nodes h) N' p l (l ++ [q]).
Proof.
  intros L Hp Hn Href Hr Hq Hqp. exists (append_nodes (nodes h) p l q). split; [|by eapply append_relinks].
  destruct (linked_nodup _ _ L p l Hp) as [Hnd Hpl]. pose proof (linked_seg _ _ L p l Hp) as Hseg.
  pose proof (linked_child _ _ L p n l Hn Hp) as Hc. rewrite Href in Hc.
  unfold cJSON_AddItemToArray. rewrite (runs _ _ _ _ _ (load_run p n h Hn)), Hc. destruct l as [|c l']; cbn [first]; [apply update_run; by eexists|].
  rewrite (runs _ _ _ (fuel_of h) h) by done.
  assert (forall z, last (c :: l') = Some z -> is_Some (nodes h !! z)) as Hz by (intros; eapply linked_in; eauto using last_in).
  rewrite (runs _ _ _ (default c (last l')) h).
  2: { eapply last_loop_run; [exact Hseg|]. apply Nat.lt_succ_l, (walk_fuel h (c :: l') Hnd). intros; by eapply linked_in. }
  assert (last (c :: l') = Some (default c (last l'))) as Hlast by (rewrite last_cons; by destruct (last l')). set (z := default c (last l')) in *.
  unfold suffix_object. rewrite (runs _ _ _ _ _ (update_run z _ h (Hz z Hlast))).
  rewrite update_run by (apply (alter_opt_some _ (Some z)); done). unfold append_nodes. by rewrite Hlast.
Qed.

(** The surroundings of a child. *)
Record around (N : gmap ptr node) (p : ptr) (n : node) (l1 : list ptr) (q : ptr) (nq : node) (l2 : list ptr) : Prop := {
  ar_parent : N !! p = Some n;
  ar_item : N !! q = Some nq;
  ar_prev : prev nq = last l1;
  ar_next : next nq = head l2;
  ar_seg1 : seg N None l1 (Some q);
  ar_seg2 : seg N (Some q) l2 None;
  ar_nodup1 : NoDup l1;
  ar_nodup2 : NoDup l2;
  ar_q1 : q ∉ l1;
  ar_q2 : q ∉ l2;
  ar_disj x : x ∈ l1 -> x ∉ l2;
  ar_p1 : p ∉ l1;
  ar_p2 : p ∉ l2;
  ar_pq : p <> q;
  ar_child : child n = first l1 (Some q)
}.

Lemma linked_around N K p n l1 q l2 :
  linked N K -> K !! p = Some (l1 ++ q :: l2) -> N !! p = Some n -> is_reference n = false -> exists nq, around N p n l1 q nq l2.
Proof.
  intros L Hp Hn Href. pose proof (linked_child _ _ L p n _ Hn Hp) as Hc. rewrite Href, first_app in Hc.
  destruct (linked_nodup _ _ L _ _ Hp) as [(Hn1 & Hd & [Hq2 Hn2]%NoDup_cons)%NoDup_app Hpl].
  pose proof (linked_seg _ _ L _ _ Hp) as [H1 [(nq & Hq & Hpv & Hnx) H2]]%seg_app. rewrite final_none in Hpv. rewrite first_none in Hnx.
  exists nq. split; try done; try set_solver.
Qed.

Lemma around_last N p n l1 q nq l2 z : around N p n l1 q nq l2 -> last l1 = Some z -> is_Some (N !! z) /\ z <> q /\ z <> p /\ z ∉ l2.
Proof.
  intros A Hz%last_in. split; [eapply seg_lookup; [apply A|done]|]. pose proof (ar_q1 _ _ _ _ _ _ _ A). pose proof (ar_p1 _ _ _ _ _ _ _ A).
  split_and!; [congruence|congruence|by apply A].
Qed.
Lemma around_head N p n l1 q nq l2 z : around N p n l1 q nq l2 -> head l2 = Some z -> is_Some (N !! z) /\ z <> q /\ z <> p /\ z ∉ l1.
Proof.
  intros A Hz%head_in. split; [eapply seg_lookup; [exact (ar_seg2 _ _ _ _ _ _ _ A)|done]|]. pose proof (ar_q2 _ _ _ _ _ _ _ A). pose proof (ar_p2 _ _ _ _ _ _ _ A).
  split_and!; [congruence|congruence|]. intros Hz'. by apply (ar_disj _ _ _ _ _ _ _ A z).
Qed.

(** The parent when its first child changes. *)
Definition if_first (p : ptr) (l1 : list ptr) : option ptr := match l1 with [] => Some p | _ => None end.
Lemma if_first_inv p l1 q : if_first p l1 = Some q -> p = q.
Proof. destruct l1; cbn; congruence. Qed.

Lemma set_child_run h p x (b : bool) l1 :
  is_Some (nodes h !! p) -> b = match l1 with [] => true | _ => false end ->
  (if b then update p (set_child x) else mret ()) h = Ret ((), with_nodes (alter_opt (set_child x) (if_first p l1) (nodes h)) h).
Proof. intros Hp ->. destruct l1; cbn; [by apply update_run|]. by destruct h. Qed.

Lemma is_first l1 q : q ∉ l1 -> bool_decide (Some q = first l1 (Some q)) = match l1 with [] => true | _ => false end.
Proof. intros Hq. destruct l1; [by apply bool_decide_eq_true|]. apply bool_decide_eq_false. cbn. intros [= ->]. set_solver. Qed.

Lemma seg_if_first x p l1 N pv l nx : seg N pv l nx -> seg (alter_opt (set_child x) (if_first p l1) N) pv l nx.
Proof. destruct l1; cbn; [apply seg_any_child|done]. Qed.

(** [cJSON_DetachItemViaPointer] *)
Lemma Detach_run h K p n l1 q l2 :
  linked (nodes h) K -> K !! p = Some (l1 ++ q :: l2) -> nodes h !! p = Some n -> is_reference n = false ->
  exists N', cJSON_DetachItemViaPointer (Some p) (Some q) h = Ret (Some q, with_nodes N' h) /\ relinks (nodes h) N' p (l1 ++ q :: l2) (l1 ++ l2).
Proof.
  intros L Hp Hn Href. destruct (linked_around _ _ _ _ _ _ _ L Hp Hn Href) as [nq A]. pose proof A as [_ Hq Hpv Hnx H1 H2 Hn1 Hn2 Hq1 Hq2 Hd Hp1 Hp2 Hpq Hc].
  set (N1 := alter_opt (set_next (head l2)) (last l1) (nodes h)). set (N2 := alter_opt (set_prev (last l1)) (head l2) N1).
  set (N3 := alter_opt (set_child (head l2)) (if_first p l1) N2).
  assert (N1 !! q = Some nq) as Hq1' by (unfold N1; rewrite alter_opt_ne; [done|by intros ?%last_in]).
  assert (N2 !! q = Some nq) as Hq2' by (unfold N2; rewrite alter_opt_ne; [done|by intros ?%head_in]).
  assert (N2 !! p = Some n) as Hp2' by (unfold N2, N1; rewrite !alter_opt_ne; [done|by intros ?%last_in|by intros ?%head_in]).
  exists (alter (set_next None) q (alter (set_prev None) q N3)). split.
  - unfold cJSON_DetachItemViaPointer. rewrite (runs _ _ _ _ _ (load_run q nq h Hq)), Hpv, Hnx.
    rewrite (runs _ _ _ _ _ (update_opt_run (last l1) (set_next (head l2)) h ltac:(intros z Hz; by apply (around_last _ _ _ _ _ _ _ _ A)))). fold N1.
    rewrite (runs _ _ _ _ _ (load_run q nq (with_nodes N1 h) Hq1')), Hpv, Hnx. rewrite (runs _ _ _ () (with_nodes N2 h)).
    2: { apply (update_opt_run (head l2) (set_prev (last l1)) (with_nodes N1 h)). intros z Hz. apply alter_opt_some. by apply (around_head _ _ _ _ _ _ _ _ A). }
    rewrite (runs _ _ _ _ _ (load_run q nq (with_nodes N2 h) Hq2')), (runs _ _ _ _ _ (load_run p n (with_nodes N2 h) Hp2')), Hc, Hnx.
    rewrite (runs _ _ _ () (with_nodes N3 h)) by (apply (set_child_run (with_nodes N2 h)); [by eexists|by apply is_first]).
    assert (is_Some (N3 !! q)) as Hs by (apply alter_opt_some; by eexists).
    rewrite (runs _ _ _ _ _ (update_run' q (set_prev None) N3 h Hs)).
    rewrite (runs _ _ _ _ _ (update_run' q (set_next None) _ h (proj2 (alter_opt_some (set_prev None) (Some q) N3 q) Hs))). done.
  - assert (forall l, l = l1 \/ l = l2 -> q ∉ l) as Hout by (intros ? [->| ->]; done).
    split.
    + unfold N3, N2, N1. evolve; rewrite ?elem_of_app, ?elem_of_cons; eauto 6 using last_in, head_in. by eapply if_first_inv.
    + assert (forall l pv nx, l = l1 \/ l = l2 -> seg N2 pv l nx -> seg (alter (set_next None) q (alter (set_prev None) q N3)) pv l nx) as Hf.
      { intros l pv nx Hl Hs. apply (seg_outside _ (Some q)); [intros ? [= <-]; by apply Hout|].
        apply (seg_outside _ (Some q)); [intros ? [= <-]; by apply Hout|]. by apply seg_if_first. }
      rewrite seg_app, final_none, first_none. split; apply Hf; auto; unfold N2, N1.
      * apply seg_outside; [intros z Hz; by apply (around_head _ _ _ _ _ _ _ _ A Hz)|]. by eapply seg_set_next.
      * eapply seg_set_prev; [done|]. apply seg_outside; [intros z Hz; by apply (around_last _ _ _ _ _ _ _ _ A Hz)|done].
    + intros n'. rewrite !lookup_alter_ne by done. unfold N3. destruct l1 as [|c l1]; cbn [if_first alter_opt].
      * rewrite lookup_alter_eq, Hp2'. intros [= <-]. cbn. by rewrite first_none.
      * rewrite Hp2'. intros [= <-]. done.
    + intros x n' Hx Hx'. assert (x = q) as -> by set_solver. rewrite !lookup_alter_eq.
      destruct (N3 !! q); cbn; [|done]. by intros [= <-].
Qed.

Lemma around_seg N p n l1 q nq l2 : around N p n l1 q nq l2 -> seg N (last l1) (q :: l2) None.
Proof. intros []. cbn [seg]. rewrite first_none. eauto. Qed.

Lemma alter_some f p (N : gmap ptr node) q n : N !! q = Some n -> exists n', alter f p N !! q = Some n'.
Proof. intros E. apply (alter_opt_some f (Some p)). by eexists. Qed.

(** The first branch of [cJSON_InsertItemInArray], before child [q]. *)
Lemma Insert_run h K p n l1 q l2 i :
  linked (nodes h) K -> K !! p = Some (l1 ++ q :: l2) -> nodes h !! p = Some n -> is_reference n = false ->
  is_root K i -> is_Some (nodes h !! i) -> i <> p ->
  exists N', cJSON_InsertItemInArray (Some p) (zlen l1) (Some i) h = Ret ((), with_nodes N' h) /\
    relinks (nodes h) N' p (l1 ++ q :: l2) (l1 ++ i :: q :: l2).
Proof.
  intros L Hp Hn Href Hr [ni Hi] Hip. destruct (linked_around _ _ _ _ _ _ _ L Hp Hn Href) as [nq A].
  pose proof A as [_ Hq Hpv Hnx H1 H2 Hn1 Hn2 Hq1 Hq2 Hd Hp1 Hp2 Hpq Hc]. pose proof (around_seg _ _ _ _ _ _ _ A) as H2'.
  assert (i ∉ l1 /\ i <> q /\ i ∉ l2) as (Hi1 & Hiq & Hi2) by (pose proof (Hr _ _ Hp); set_solver).
  set (N2 := alter (set_prev (last l1)) i (alter (set_next (Some q)) i (nodes h))). set (N3 := alter (set_prev (Some i)) q N2).
  set (N4 := alter_opt (set_child (Some i)) (if_first p l1) (alter_opt (set_next (Some i)) (last l1) N3)).
  assert (forall x, x <> i -> N2 !! x = nodes h !! x) as HN2 by (intros; unfold N2; by rewrite !lookup_alter_ne).
  assert (forall x, x <> i -> x <> q -> N3 !! x = nodes h !! x) as HN3 by (intros; unfold N3; rewrite lookup_alter_ne; auto).
  assert (N3 !! i = Some (set_prev (last l1) (set_next (Some q) ni))) as Hi3.
  { unfold N3, N2. by rewrite lookup_alter_ne, !lookup_alter_eq, Hi by done. }
  exists N4. split.
  - unfold cJSON_InsertItemInArray. rewrite (proj2 (Z.ltb_ge _ _)) by (unfold zlen; lia).
    rewrite (runs _ _ _ (Some q) h).
    2: { unfold get_array_item. rewrite (runs _ _ _ _ _ (load_run p n h Hn)), Hc, zlen_nat.
         change (first l1 (Some q)) with (first l1 (first (q :: l2) None)). rewrite <-first_app.
         rewrite (nth_loop_run h None (l1 ++ q :: l2)) by (by eapply linked_seg). by rewrite lookup_app_r, Nat.sub_diag by lia. }
    rewrite (runs _ _ _ _ _ (update_run i (set_next (Some q)) h ltac:(by eexists))).
    rewrite (runs _ _ _ _ _ (load_run q nq (with_nodes _ h) ltac:(cbn; by rewrite lookup_alter_ne))), Hpv.
    rewrite (runs _ _ _ _ _ (update_run' i (set_prev (last l1)) _ h (alter_some (set_next (Some q)) i _ _ _ Hi))). fold N2.
    rewrite (runs _ _ _ _ _ (update_run' q (set_prev (Some i)) N2 h ltac:(rewrite HN2 by done; by eexists))). fold N3.
    rewrite (runs _ _ _ _ _ (load_run p n (with_nodes N3 h) ltac:(cbn; by rewrite HN3))), Hc, is_first by done.
    unfold N4. destruct l1 as [|c l1'] eqn:El1; [by apply update_run'; rewrite HN3; [eexists|..]|].
    rewrite (runs _ _ _ _ _ (load_run i _ (with_nodes N3 h) Hi3)). cbn [prev set_prev if_first alter_opt].
    destruct (last (c :: l1')) as [z|] eqn:Ez; [|by rewrite last_cons in Ez; destruct (last l1')].
    destruct (around_last _ _ _ _ _ _ _ _ A Ez) as ([nz Hz] & ? & ? & _). apply update_run'.
    rewrite HN3; [by eexists| |done]. intros ->. by apply Hi1, last_in.
  - split.
    + unfold N4, N3, N2. evolve; rewrite ?elem_of_app, ?elem_of_cons; eauto 7 using last_in, head_in, if_first_inv.
    + rewrite seg_app, final_none. cbn [first]. split.
      { apply seg_if_first. eapply seg_set_next; [done|]. unfold N3, N2.
        repeat (apply (seg_outside _ (Some _)); [by intros ? [= <-]|]). exact H1. }
      split.
      * exists (set_prev (last l1) (set_next (Some q) ni)). split_and!; [|reflexivity|reflexivity]. unfold N4.
        rewrite !alter_opt_ne; [exact Hi3|by intros ?%last_in|]. by intros <-%if_first_inv.
      * apply seg_if_first. apply seg_outside; [intros z Hz; destruct (around_last _ _ _ _ _ _ _ _ A Hz) as (_ & ? & _ & ?); by rewrite not_elem_of_cons|].
        unfold N3. apply (seg_set_prev N2 (last l1) (Some i) (q :: l2)); [by constructor|]. unfold N2.
        repeat (apply (seg_outside _ (Some _)); [intros ? [= <-]; by rewrite not_elem_of_cons|]). exact H2'.
    + intros n'. unfold N4. destruct l1 as [|c l1']; cbn [if_first alter_opt last first app].
      * rewrite lookup_alter_eq, HN3, Hn by done. by intros [= <-].
      * rewrite alter_opt_ne by (by intros ?%last_in). rewrite HN3, Hn by done. by intros [= <-].
    + set_solver.
Qed.

(** [cJSON_ReplaceItemViaPointer] up to the deletion of the old item. *)
Lemma Replace_run h K p n l1 q l2 r :
  linked (nodes h) K -> K !! p = Some (l1 ++ q :: l2) -> nodes h !! p = Some n -> is_reference n = false ->
  is_root K r -> is_Some (nodes h !! r) -> r <> p ->
  exists N', cJSON_ReplaceItemViaPointer (Some p) (Some q) (Some r) h = (_ ← cJSON_Delete (Some q); mret true) (with_nodes N' h) /\
    relinks (nodes h) N' p (l1 ++ q :: l2) (l1 ++ r :: l2).
Proof.
  intros L Hp Hn Href Hroot [nr Hr] Hrp. destruct (linked_around _ _ _ _ _ _ _ L Hp Hn Href) as [nq A].
  pose proof A as [_ Hq Hpv Hnx H1 H2 Hn1 Hn2 Hq1 Hq2 Hd Hp1 Hp2 Hpq Hc].
  assert (r ∉ l1 /\ r <> q /\ r ∉ l2) as (Hr1 & Hrq & Hr2) by (pose proof (Hroot _ _ Hp); set_solver).
  set (N2 := alter (set_prev (last l1)) r (alter (set_next (head l2)) r (nodes h))).
  set (N4 := alter_opt (set_next (Some r)) (last l1) (alter_opt (set_prev (Some r)) (head l2) N2)).
  set (N5 := alter_opt (set_child (Some r)) (if_first p l1) N4).
  assert (forall x, x <> r -> N2 !! x = nodes h !! x) as HN2 by (intros; unfold N2; by rewrite !lookup_alter_ne).
  assert (forall x, x ∉ l1 -> x ∉ l2 -> N4 !! x = N2 !! x) as HN4.
  { intros. unfold N4. rewrite !alter_opt_ne; [done|by intros ?%head_in|by intros ?%last_in]. }
  set (nr' := set_prev (last l1) (set_next (head l2) nr)).
  assert (N2 !! r = Some nr') as Hr2' by (unfold N2; by rewrite !lookup_alter_eq, Hr).
  exists (alter (set_prev None) q (alter (set_next None) q N5)). split.
  - unfold cJSON_ReplaceItemViaPointer. rewrite bool_decide_eq_false_2 by done.
    rewrite (runs _ _ _ _ _ (load_run q nq h Hq)), Hnx, (runs _ _ _ _ _ (update_run r (set_next (head l2)) h ltac:(by eexists))).
    rewrite (runs _ _ _ _ _ (load_run q nq (with_nodes _ h) ltac:(cbn; by rewrite lookup_alter_ne))), Hpv.
    rewrite (runs _ _ _ _ _ (update_run' r (set_prev (last l1)) _ h (alter_some (set_next (head l2)) r _ _ _ Hr))). fold N2.
    rewrite (runs _ _ _ _ _ (load_run r nr' (with_nodes N2 h) Hr2')). cbn [next nr' set_prev set_next].
    rewrite (runs _ _ _ () (with_nodes (alter_opt (set_prev (Some r)) (head l2) N2) h)).
    2: { apply (update_opt_run (head l2) _ (with_nodes N2 h)). intros z Hz. cbn. rewrite HN2; [by apply (around_head _ _ _ _ _ _ _ _ A)|].
         intros ->. by apply Hr2, head_in. }
    rewrite (runs _ _ _ _ _ (load_run r nr' (with_nodes _ h) ltac:(cbn; rewrite alter_opt_ne; [done|by intros ?%head_in]))). cbn [prev nr' set_prev set_next].
    rewrite (runs _ _ _ () (with_nodes N4 h)).
    2: { apply (update_opt_run (last l1) _ (with_nodes _ h)). intros z Hz. apply alter_opt_some. rewrite HN2; [by apply (around_last _ _ _ _ _ _ _ _ A)|].
         intros ->. by apply Hr1, last_in. }
    rewrite (runs _ _ _ _ _ (load_run p n (with_nodes N4 h) ltac:(cbn; by rewrite HN4, HN2))), Hc.
    rewrite (runs _ _ _ () (with_nodes N5 h)).
    2: { apply (set_child_run (with_nodes N4 h)); [cbn; rewrite HN4, HN2 by done; by eexists|]. rewrite <-(is_first l1 q) by done. by apply bool_decide_ext. }
    assert (is_Some (N5 !! q)) as Hs by (apply alter_opt_some; rewrite HN4, HN2 by done; by eexists).
    rewrite (runs _ _ _ _ _ (update_run' q (set_next None) N5 h Hs)).
    rewrite (runs _ _ _ _ _ (update_run' q (set_prev None) _ h (proj2 (alter_opt_some (set_next None) (Some q) N5 q) Hs))). done.
  - assert (forall l pv nx, q ∉ l -> seg N4 pv l nx -> seg (alter (set_prev None) q (alter (set_next None) q N5)) pv l nx) as Hf.
    { intros l pv nx Hl Hs. do 2 (apply (seg_outside _ (Some q)); [by intros ? [= <-]|]). by apply seg_if_first. }
    split.
    + unfold N5, N4, N2. evolve; rewrite ?elem_of_app, ?elem_of_cons; eauto 7 using last_in, head_in, if_first_inv.
    + rewrite seg_app, final_none. cbn [first]. split; [apply Hf; [done|]|apply Hf; [set_solver|]; split].
      * eapply seg_set_next; [done|]. apply seg_outside; [intros z Hz; by apply (around_head _ _ _ _ _ _ _ _ A Hz)|].
        unfold N2. do 2 (apply (seg_outside _ (Some r)); [by intros ? [= <-]|]). exact H1.
      * exists nr'. rewrite HN4, first_none by done. done.
      * apply seg_outside; [intros z Hz; by apply (around_last _ _ _ _ _ _ _ _ A Hz)|]. eapply seg_set_prev; [done|].
        unfold N2. do 2 (apply (seg_outside _ (Some r)); [by intros ? [= <-]|]). exact H2.
    + intros n'. rewrite !lookup_alter_ne by done. unfold N5. destruct l1 as [|c l1']; cbn [if_first alter_opt last first app].
      * rewrite lookup_alter_eq, HN4, HN2, Hn by done. by intros [= <-].
      * rewrite HN4, HN2, Hn by done. by intros [= <-].
    + intros x n' Hx Hx'. assert (x = q) as -> by set_solver. rewrite !lookup_alter_eq.
      destruct (N5 !! q); cbn; [|done]. by intros [= <-].
Qed.
End Runs.
