(* ===== verification/JsonTreeEdit.v ===== *)
(** Deletion of JSON trees, and any sequence of edits against lists of children. *)

From stdpp Require Import gmap.
From S2P Require Import Prelude Alloc Json JsonTree JsonTreeSpec.

Section Maps.
Context {A : Type}.
Implicit Types (m : gmap ptr A) (ds : list ptr).

Definition remove_all ds m : gmap ptr A := foldr delete m ds.

Lemma lookup_remove_all ds m q : remove_all ds m !! q = if bool_decide (q ∈ ds) then None else m !! q.
Proof.
  induction ds as [|d ds IH]; cbn [remove_all foldr]; [done|]. change (foldr delete m ds) with (remove_all ds m).
  destruct (decide (d = q)) as [->|Hne].
  - rewrite lookup_delete_eq, bool_decide_eq_true_2; [done|by left].
  - rewrite lookup_delete_ne, IH by done. rewrite (bool_decide_ext (q ∈ d :: ds) (q ∈ ds)); [done|]. set_solver.
Qed.
Lemma lookup_remove_in ds m q : q ∈ ds -> remove_all ds m !! q = None.
Proof. intros. by rewrite lookup_remove_all, bool_decide_eq_true_2. Qed.
Lemma lookup_remove_out ds m q : q ∉ ds -> remove_all ds m !! q = m !! q.
Proof. intros. by rewrite lookup_remove_all, bool_decide_eq_false_2. Qed.
Lemma lookup_remove_some ds m q x : remove_all ds m !! q = Some x <-> q ∉ ds /\ m !! q = Some x.
Proof. rewrite lookup_remove_all. case_bool_decide; naive_solver. Qed.
Lemma remove_all_app ds1 ds2 m : remove_all (ds1 ++ ds2) m = remove_all ds2 (remove_all ds1 m).
Proof.
  apply map_eq. intros q. rewrite !lookup_remove_all. repeat case_bool_decide; set_solver.
Qed.
Lemma remove_all_nil m : remove_all [] m = m.
Proof. done. Qed.
Lemma remove_all_ext ds ds' m : (forall q, q ∈ ds <-> q ∈ ds') -> remove_all ds m = remove_all ds' m.
Proof. intros E. apply map_eq. intros q. rewrite !lookup_remove_all. by rewrite (bool_decide_ext _ _ (E q)). Qed.
End Maps.

(** ** Trees *)

(** The trees of the roots [l] have the nodes [ds]. *)
Inductive forest (K : gmap ptr (list ptr)) : list ptr -> list ptr -> Prop :=
| forest_nil : forest K [] []
| forest_cons p l kids ks rs :
    K !! p = Some kids -> forest K kids ks -> forest K l rs -> forest K (p :: l) (p :: ks ++ rs).

Lemma forest_parent K l ds x : forest K l ds -> x ∈ ds -> x ∈ l \/ exists y kids, y ∈ ds /\ K !! y = Some kids /\ x ∈ kids.
Proof.
  induction 1 as [|p l kids ks rs Hp _ IH1 _ IH2]; [set_solver|]. rewrite elem_of_cons, elem_of_app. intros [->|[Hx|Hx]]; [set_solver| |].
  - right. destruct (IH1 Hx) as [Hk|(y & kids' & Hy & ? & ?)]; [exists p, kids; set_solver|exists y, kids'; set_solver].
  - destruct (IH2 Hx) as [Hk|(y & kids' & Hy & ? & ?)]; [set_solver|right; exists y, kids'; set_solver].
Qed.

Lemma forest_roots K l ds x : forest K l ds -> x ∈ l -> x ∈ ds.
Proof. induction 1; set_solver. Qed.
Lemma forest_kids K l ds y kids x : forest K l ds -> y ∈ ds -> K !! y = Some kids -> x ∈ kids -> x ∈ ds.
Proof.
  induction 1 as [|p l kids' ks rs Hp F1 IH1 _ IH2]; [set_solver|]. rewrite elem_of_cons, elem_of_app. intros [->|[Hy|Hy]] Hk Hx; simplify_eq.
  - pose proof (forest_roots _ _ _ x F1 Hx). set_solver.
  - pose proof (IH1 Hy Hk Hx). set_solver.
  - pose proof (IH2 Hy Hk Hx). set_solver.
Qed.
Lemma forest_dom K l ds x : forest K l ds -> x ∈ ds -> is_Some (K !! x).
Proof. induction 1; set_solver. Qed.

(** The nodes of the trees, computed. *)
Fixpoint flatten (fuel : nat) (K : gmap ptr (list ptr)) (l : list ptr) : option (list ptr) :=
  match l with
  | [] => Some []
  | p :: l =>
      match fuel with
      | O => None
      | S fuel =>
          kids ← K !! p;
          ks ← flatten fuel K kids;
          rs ← flatten fuel K l;
          Some (p :: ks ++ rs)
      end
  end.

Lemma flatten_forest fuel K l ds : flatten fuel K l = Some ds -> forest K l ds.
Proof.
  revert l ds. induction fuel as [|fuel IH]; intros [|p l] ds; cbn [flatten]; intros E; simplify_option_eq.
  1,2: constructor.
  econstructor; eauto.
Qed.

(** ** Owned strings *)

Section Owned.
Context `{CDouble} `{!Allocator}.
Implicit Types (h : heap) (K : gmap ptr (list ptr)) (N : gmap ptr node).

(** The strings that a node frees. *)
Definition owns (n : node) : list ptr :=
  (if is_reference n then [] else option_list (valuestring n)) ++ (if is_const n then [] else option_list (string n)).

Definition owned_by N (ds : list ptr) : list ptr :=
  ds ≫= (fun p => match N !! p with Some n => owns n | None => [] end).

Lemma owned_by_cons N p n ds : N !! p = Some n -> owned_by N (p :: ds) = owns n ++ owned_by N ds.
Proof. intros E. unfold owned_by. rewrite bind_cons, E. done. Qed.
Lemma owned_by_app N ds1 ds2 : owned_by N (ds1 ++ ds2) = owned_by N ds1 ++ owned_by N ds2.
Proof. apply bind_app. Qed.
Lemma elem_owned_by N ds s : s ∈ owned_by N ds <-> exists p n, p ∈ ds /\ N !! p = Some n /\ s ∈ owns n.
Proof.
  unfold owned_by. rewrite list_elem_of_bind. split.
  - intros (p & Hs & Hp). destruct (N !! p) as [n|] eqn:E; [|by apply elem_of_nil in Hs]. eauto.
  - intros (p & n & Hp & E & Hs). exists p. by rewrite E.
Qed.

(** Every string to be freed is there, and has one owner. *)
Record owned h : Prop := {
  owned_there p n s : nodes h !! p = Some n -> s ∈ owns n -> is_Some (strs h !! s);
  owned_nodup p n : nodes h !! p = Some n -> NoDup (owns n);
  owned_once p p' n n' s : nodes h !! p = Some n -> nodes h !! p' = Some n' -> s ∈ owns n -> s ∈ owns n' -> p = p'
}.

Lemma owned_by_nodup h ds : owned h -> NoDup ds -> NoDup (owned_by (nodes h) ds).
Proof.
  intros O. induction 1 as [|p ds Hp _ IH]; [constructor|]. destruct (nodes h !! p) as [n|] eqn:E.
  - rewrite (owned_by_cons _ _ _ _ E). apply NoDup_app. split_and!; [by eapply owned_nodup| |done].
    intros s Hs (p' & n' & Hp' & E' & Hs')%elem_owned_by. assert (p = p') as <- by (by eapply (owned_once _ O)). done.
  - unfold owned_by. rewrite bind_cons, E. done.
Qed.

Definition with_both N (S : gmap ptr bytes) h : heap := mk_heap _ N S (requests h).

Lemma free_opt_run o N S h : (forall s, o = Some s -> is_Some (S !! s)) ->
  free_opt o (with_both N S h) = Ret ((), with_both N (remove_all (option_list o) S) h).
Proof. intros Ho. destruct o as [s|]; [|done]. destruct (Ho s eq_refl) as [b E]. unfold free_opt, free_str. cbn. by rewrite E. Qed.

(** The two strings of a node. *)
Lemma free_strings_run {A} n N S h (k : M A) :
  NoDup (owns n) -> (forall s, s ∈ owns n -> is_Some (S !! s)) ->
  (_ ← (if negb (is_reference n) then free_opt (valuestring n) else mret ());
   _ ← (if negb (is_const n) then free_opt (string n) else mret ()); k) (with_both N S h) = k (with_both N (remove_all (owns n) S) h).
Proof.
  intros Hnd Hs. unfold owns in *. apply NoDup_app in Hnd as (_ & Hd & _). set (o1 := if is_reference n then None else valuestring n).
  set (o2 := if is_const n then None else string n).
  assert (forall s, o1 = Some s -> is_Some (S !! s)) as H1 by (unfold o1; intros s E; apply Hs, elem_of_app; left; destruct (is_reference n); [done|]; rewrite E; by left).
  assert (forall s, o2 = Some s -> is_Some (remove_all (option_list o1) S !! s)) as H2.
  { intros s E. rewrite lookup_remove_out.
    - apply Hs, elem_of_app. right. unfold o2 in E. destruct (is_const n); [done|]. rewrite E. by left.
    - intros Hin. apply (Hd s); unfold o1, o2 in *; [by destruct (is_reference n)|]. destruct (is_const n); [done|]. rewrite E. by left. }
  rewrite (runs _ _ _ () (with_both N (remove_all (option_list o1) S) h)).
  2: { rewrite <-free_opt_run by done. unfold o1. by destruct (is_reference n). }
  rewrite (runs _ _ _ () (with_both N (remove_all (option_list o2) (remove_all (option_list o1) S)) h)).
  2: { rewrite <-free_opt_run by done. unfold o2. by destruct (is_const n). }
  rewrite remove_all_app. unfold o1, o2. by destruct (is_reference n), (is_const n).
Qed.

(** The loop of [cJSON_Delete] on the trees of a chain of siblings. *)
Lemma delete_loop_run K h l ds :
  forest K l ds -> linked (nodes h) K -> owned h -> NoDup ds ->
  forall fuel pv N S, (length ds <= fuel)%nat -> seg (nodes h) pv l None ->
    (forall x, x ∈ ds -> N !! x = nodes h !! x) -> (forall s, s ∈ owned_by (nodes h) ds -> is_Some (S !! s)) ->
    delete_loop fuel (first l None) (with_both N S h) = Ret ((), with_both (remove_all ds N) (remove_all (owned_by (nodes h) ds) S) h).
Proof.
  intros F L O. induction F as [|p l kids ks rs Hp F1 IH1 F2 IH2]; intros Hnd fuel pv N S Hf Hseg HN HS; [by destruct fuel|].
  apply NoDup_cons in Hnd as [Hpd (Hnk & Hkr & Hnr)%NoDup_app]. destruct Hseg as [(n & Hn & _ & Hx) Hseg].
  destruct fuel as [|fuel]; cbn [length] in Hf; [lia|]. rewrite length_app in Hf. cbn [first delete_loop].
  rewrite (owned_by_cons _ _ _ _ Hn), owned_by_app in *.
  pose proof (linked_child _ _ L p n kids Hn Hp) as Hc. pose proof (owned_nodup _ O p n Hn) as Hno.
  rewrite (runs _ _ _ _ _ (load_run p n (with_both N S h) ltac:(cbn; rewrite HN; [done|by left]))), Hx.
  set (S1 := remove_all (owned_by (nodes h) ks) S). rewrite (runs _ _ _ () (with_both (remove_all ks N) S1 h)).
  2: { destruct (is_reference n); cbn [negb].
       - subst kids. inversion F1; subst. done.
       - rewrite Hc. apply (IH1 Hnk fuel None); [lia|by eapply linked_seg|set_solver|set_solver]. }
  rewrite (runs _ _ _ _ _ (load_run p n (with_both (remove_all ks N) S1 h) ltac:(cbn; rewrite lookup_remove_out, HN by set_solver; done))).
  rewrite free_strings_run; [|done|].
  2: { intros s Hs. unfold S1. rewrite lookup_remove_out; [apply HS; set_solver|]. intros (p' & n' & Hp' & E' & Hs')%elem_owned_by.
       assert (p = p') as <- by (by eapply (owned_once _ O)). set_solver. }
  rewrite (runs _ _ _ () (with_both (remove_all (p :: ks) N) (remove_all (owns n) S1) h)).
  2: { unfold free_node. cbn. rewrite lookup_remove_out, HN, Hn by set_solver. done. }
  rewrite (IH2 Hnr fuel (Some p)); [|lia|done| |].
  - change (p :: ks ++ rs) with ((p :: ks) ++ rs). unfold S1. rewrite <-(remove_all_app (p :: ks) rs N), <-!remove_all_app.
    rewrite (remove_all_ext (owned_by _ ks ++ _ ++ _) (owns n ++ owned_by (nodes h) ks ++ owned_by (nodes h) rs)); [done|].
    intros q. rewrite !elem_of_app. tauto.
  - intros x Hin. rewrite lookup_remove_out by set_solver. apply HN. set_solver.
  - intros s Hs. unfold S1. rewrite !lookup_remove_out; [apply HS; set_solver| |].
    + intros (p1 & n1 & Hp1 & E1 & Hs1)%elem_owned_by. apply elem_owned_by in Hs as (p2 & n2 & Hp2 & E2 & Hs2).
      assert (p1 = p2) as <- by (by eapply (owned_once _ O)). set_solver.
    + intros Hs1. apply elem_owned_by in Hs as (p2 & n2 & Hp2 & E2 & Hs2). assert (p = p2) as <- by (by eapply (owned_once _ O)). set_solver.
Qed.

Definition removed h (ds : list ptr) : heap := with_both (remove_all ds (nodes h)) (remove_all (owned_by (nodes h) ds) (strs h)) h.

Lemma Delete_run h K q ds :
  linked (nodes h) K -> owned h -> is_root K q -> forest K [q] ds -> NoDup ds -> cJSON_Delete (Some q) h = Ret ((), removed h ds).
Proof.
  intros L O Hr F Hnd. unfold cJSON_Delete. rewrite (runs _ _ _ (fuel_of h) h) by done.
  assert (forall x, x ∈ ds -> is_Some (nodes h !! x)) as Hin by (intros x Hx; apply (linked_dom _ _ L); by eapply forest_dom).
  pose proof (delete_loop_run K h [q] ds F L O Hnd (fuel_of h) None (nodes h) (strs h)) as Hrun.
  replace (with_both (nodes h) (strs h) h) with h in Hrun by (by destruct h). apply Hrun; clear Hrun.
  - pose proof (walk_fuel h ds Hnd Hin). lia.
  - apply (root_seg _ _ _ L Hr), Hin. eapply forest_roots; [done|by left].
  - done.
  - intros s (p & n & _ & Hn & Hs)%elem_owned_by. by eapply owned_there.
Qed.

Lemma remove_linked N K q ds : linked N K -> is_root K q -> forest K [q] ds -> linked (remove_all ds N) (remove_all ds K).
Proof.
  intros L Hr F.
  assert (forall p l x, K !! p = Some l -> p ∉ ds -> x ∈ l -> x ∉ ds) as Hout.
  { intros p l x Hp Hpd Hx Hxd. destruct (forest_parent _ _ _ _ F Hxd) as [->%list_elem_of_singleton|(y & kids & Hy & Hk & Hxk)].
    - by eapply Hr.
    - assert (p = y) as <- by (by eapply (linked_once _ _ L)). done. }
  split.
  - intros p. rewrite !lookup_remove_all. case_bool_decide; [by split; intros [? ?]|apply (linked_dom _ _ L)].
  - intros p n l [_ Hn]%lookup_remove_some [_ Hl]%lookup_remove_some. by eapply linked_child.
  - intros p l [Hpd Hl]%lookup_remove_some. eapply seg_frame; [|by eapply linked_seg]. intros x Hx. apply lookup_remove_out. by eapply Hout.
  - intros x n [Hxd Hn]%lookup_remove_some Hroot. eapply (linked_root _ _ L); [done|]. intros p l Hl Hx.
    destruct (decide (p ∈ ds)) as [Hpd|Hpd]; [by apply Hxd; eapply forest_kids|]. eapply Hroot; [|exact Hx]. by rewrite lookup_remove_out.
  - intros p l [_ Hl]%lookup_remove_some. by eapply linked_nodup.
  - intros p p' l l' x [_ Hl]%lookup_remove_some [_ Hl']%lookup_remove_some. by eapply (linked_once _ _ L).
Qed.

Lemma remove_owned h ds : owned h -> owned (removed h ds).
Proof.
  intros O. split.
  - intros p n s [Hpd Hn]%lookup_remove_some Hs. cbn. rewrite lookup_remove_out; [by eapply owned_there|].
    intros (p' & n' & Hp' & Hn' & Hs')%elem_owned_by. assert (p = p') as <- by (by eapply (owned_once _ O)). done.
  - intros p n [_ Hn]%lookup_remove_some. by eapply owned_nodup.
  - intros p p' n n' s [_ Hn]%lookup_remove_some [_ Hn']%lookup_remove_some. by eapply (owned_once _ O).
Qed.

Lemma data_owns n n' : same_data n n' -> owns n' = owns n.
Proof. intros D. unfold owns. rewrite (data_reference _ _ D). destruct D as [E1 E2 _ _ E3]. unfold is_const, has_flag. by rewrite E1, E2, E3. Qed.

Lemma evolves_owned S C N' h : owned h -> evolves S C (nodes h) N' -> owned (with_nodes N' h).
Proof.
  intros O E.
  assert (forall p n', N' !! p = Some n' -> exists n, nodes h !! p = Some n /\ owns n' = owns n) as Hback.
  { intros p n' Hn'. destruct (evolves_some_inv _ _ _ _ _ _ E Hn') as (n & ? & D & _). eauto using data_owns. }
  split; cbn.
  - intros p n s (n0 & Hn & ->)%Hback Hs. by eapply owned_there.
  - intros p n (n0 & Hn & ->)%Hback. by eapply owned_nodup.
  - intros p p' n n' s (n0 & Hn & ->)%Hback (n1 & Hn1 & ->)%Hback. by eapply (owned_once _ O).
Qed.
End Owned.

(** ** Edits *)

(** The functions that change the children of a node, with their arguments. *)
Inductive edit :=
| Add (array item : ptr)
| Insert (array : ptr) (which : Z) (newitem : ptr)
| Detach (parent item : ptr)
| DetachAt (array : ptr) (which : Z)
| DeleteAt (array : ptr) (which : Z)
| Delete (item : ptr)
| Replace (parent item replacement : ptr)
| ReplaceAt (array : ptr) (which : Z) (newitem : ptr).

(** *** On lists of children *)

Section Abstract.
Context (R : gset ptr).
Implicit Types (K : gmap ptr (list ptr)).

(** The children of a node that is not a reference. *)
Definition children K (p : ptr) : option (list ptr) := if bool_decide (p ∈ R) then None else K !! p.

#[global] Instance is_root_dec K q : Decision (is_root K q) := map_Forall_dec (fun _ l => q ∉ l) K.

(** [q] can become a child of [p]. *)
Definition is_free K (p q : ptr) : bool := bool_decide (is_root K q /\ is_Some (K !! q) /\ q <> p).

Definition without (q : ptr) (l : list ptr) : list ptr := filter (fun x => x <> q) l.
Definition subst (q r : ptr) (l : list ptr) : list ptr := (fun x => if bool_decide (x = q) then r else x) <$> l.

Definition detach K (p q : ptr) : option (gmap ptr (list ptr)) :=
  l ← children K p; if bool_decide (q ∈ l) then Some (<[p := without q l]> K) else None.
Definition delete_tree K (q : ptr) : option (gmap ptr (list ptr)) :=
  ds ← flatten (S (size K)) K [q]; if bool_decide (is_root K q /\ NoDup ds) then Some (remove_all ds K) else None.
Definition replace K (p q r : ptr) : option (gmap ptr (list ptr)) :=
  l ← children K p;
  if bool_decide (q ∈ l) then
    if bool_decide (r = q) then Some K
    else if is_free K p r then delete_tree (<[p := subst q r l]> K) q else None
  else None.

(** The child at an index, if there is one. *)
Definition child_at K (p : ptr) (which : Z) : option (option ptr) :=
  l ← children K p; Some (if which <? 0 then None else l !! Z.to_nat which).

Definition edit_lists K (e : edit) : option (option ptr * gmap ptr (list ptr)) :=
  match e with
  | Add p q => l ← children K p; if is_free K p q then Some (None, <[p := l ++ [q]]> K) else None
  | Insert p which q =>
      l ← children K p;
      if which <? 0 then Some (None, K)
      else if is_free K p q then Some (None, <[p := take (Z.to_nat which) l ++ q :: drop (Z.to_nat which) l]> K) else None
  | Detach p q => K ← detach K p q; Some (Some q, K)
  | DetachAt p which => o ← child_at K p which; match o with Some q => K ← detach K p q; Some (Some q, K) | None => Some (None, K) end
  | DeleteAt p which =>
      o ← child_at K p which;
      match o with Some q => K ← detach K p q; K ← delete_tree K q; Some (None, K) | None => Some (None, K) end
  | Delete q => K ← delete_tree K q; Some (None, K)
  | Replace p q r => K ← replace K p q r; Some (None, K)
  | ReplaceAt p which r => o ← child_at K p which; match o with Some q => K ← replace K p q r; Some (None, K) | None => Some (None, K) end
  end.

Fixpoint edits_lists K (es : list edit) : option (list (option ptr) * gmap ptr (list ptr)) :=
  match es with
  | [] => Some ([], K)
  | e :: es => '(r, K) ← edit_lists K e; '(rs, K) ← edits_lists K es; Some (r :: rs, K)
  end.
End Abstract.
Arguments detach : simpl never.
Arguments delete_tree : simpl never.
Arguments replace : simpl never.

(** *** On the heap *)

Section Concrete.
Context `{CDouble} `{!Allocator}.

(** The call, with the item for the functions that return one. *)
Definition perform (e : edit) : M (option ptr) :=
  match e with
  | Add p q => _ ← cJSON_AddItemToArray (Some p) (Some q); mret None
  | Insert p which q => _ ← cJSON_InsertItemInArray (Some p) which (Some q); mret None
  | Detach p q => cJSON_DetachItemViaPointer (Some p) (Some q)
  | DetachAt p which => cJSON_DetachItemFromArray (Some p) which
  | DeleteAt p which => _ ← cJSON_DeleteItemFromArray (Some p) which; mret None
  | Delete q => _ ← cJSON_Delete (Some q); mret None
  | Replace p q r => _ ← cJSON_ReplaceItemViaPointer (Some p) (Some q) (Some r); mret None
  | ReplaceAt p which r => _ ← cJSON_ReplaceItemInArray (Some p) which (Some r); mret None
  end.

Fixpoint performs (es : list edit) : M (list (option ptr)) :=
  match es with
  | [] => mret []
  | e :: es => r ← perform e; rs ← performs es; mret (r :: rs)
  end.

Context (R : gset ptr).
Implicit Types (h : heap) (K : gmap ptr (list ptr)).

(** The heap has the lists of children [K] and the references are in [R]. *)
Record represents h K : Prop := {
  rep_linked : linked (nodes h) K;
  rep_owned : owned h;
  rep_refs p n : nodes h !! p = Some n -> is_reference n = true -> p ∈ R
}.

(** Nodes may have gone; the others have what they had. *)
Definition kept h h' : Prop := forall p n', nodes h' !! p = Some n' -> exists n, nodes h !! p = Some n /\ same_data n n'.

Lemma kept_trans h1 h2 h3 : kept h1 h2 -> kept h2 h3 -> kept h1 h3.
Proof. intros K1 K2 p n3 (n2 & (n1 & ? & ?)%K1 & ?)%K2. eauto using same_data_trans. Qed.
Lemma kept_refl h : kept h h.
Proof. intros p n Hn. eauto using same_data_refl. Qed.

Definition step_ok h (m : outcome (option ptr * heap)) (o : option ptr) K : Prop :=
  exists h', m = Ret (o, h') /\ represents h' K /\ kept h h'.

Lemma children_node h K p l : represents h K -> children R K p = Some l -> K !! p = Some l /\ exists n, nodes h !! p = Some n /\ is_reference n = false.
Proof.
  intros [L _ Hr] E. unfold children in E. case_bool_decide as Hp; [done|]. split; [done|].
  destruct (proj1 (linked_dom _ _ L p) ltac:(by eexists)) as [n Hn]. exists n. split; [done|]. destruct (is_reference n) eqn:?; [|done]. by destruct Hp; eapply Hr.
Qed.

Lemma relinks_rep h K p l l' n N' :
  represents h K -> K !! p = Some l -> nodes h !! p = Some n -> is_reference n = false -> relinks (nodes h) N' p l l' -> NoDup l' -> p ∉ l' ->
  (forall q, q ∈ l' -> q ∉ l -> is_root K q) -> represents (with_nodes N' h) (<[p := l']> K) /\ kept h (with_nodes N' h).
Proof.
  intros [L O Hr] HK Hn Href Rl Hnd Hp Hnew. pose proof (relinks_evolves _ _ _ _ _ Rl) as E. split; [split|].
  - by eapply relinks_linked.
  - by eapply evolves_owned.
  - intros q n' Hq Hn'. destruct (evolves_some_inv _ _ _ _ _ _ E Hq) as (n0 & Hn0 & D & _). eapply Hr; [done|]. by rewrite <-(data_reference _ _ D).
  - intros q n' Hq. destruct (evolves_some_inv _ _ _ _ _ _ E Hq) as (n0 & Hn0 & D & _). eauto.
Qed.
Lemma relinks_represents h K p l l' N' :
  represents h K -> children R K p = Some l -> relinks (nodes h) N' p l l' -> NoDup l' -> p ∉ l' ->
  (forall q, q ∈ l' -> q ∉ l -> is_root K q) -> represents (with_nodes N' h) (<[p := l']> K) /\ kept h (with_nodes N' h).
Proof. intros Rep Hl. destruct (children_node _ _ _ _ Rep Hl) as (HK & n & Hn & Href). by eapply relinks_rep. Qed.

Lemma delete_represents h K K' q :
  represents h K -> delete_tree K q = Some K' -> exists h', cJSON_Delete (Some q) h = Ret ((), h') /\ represents h' K' /\ kept h h'.
Proof.
  intros [L O Hr] E. unfold delete_tree in E. destruct (flatten _ _ _) as [ds|] eqn:F; cbn in E; [|done]. case_bool_decide as Hc; [|done].
  destruct Hc as [Hroot Hnd]. injection E as <-. apply flatten_forest in F. exists (removed h ds). split; [by eapply Delete_run|]. split; [split|].
  - by eapply remove_linked.
  - by apply remove_owned.
  - intros p n [_ Hn]%lookup_remove_some. by eapply Hr.
  - intros p n [_ Hn]%lookup_remove_some. eauto using same_data_refl.
Qed.

Lemma without_id q l : q ∉ l -> without q l = l.
Proof. intros Hq. unfold without. induction l as [|x l IH]; [done|]. rewrite filter_cons, decide_True by set_solver. rewrite IH; [done|set_solver]. Qed.
Lemma without_split q l1 l2 : q ∉ l1 -> q ∉ l2 -> without q (l1 ++ q :: l2) = l1 ++ l2.
Proof.
  intros H1 H2. unfold without. rewrite filter_app, filter_cons, decide_False by tauto. fold (without q l1) (without q l2). by rewrite !without_id.
Qed.
Lemma subst_id q r l : q ∉ l -> subst q r l = l.
Proof.
  intros Hq. unfold subst. induction l as [|x l IH]; [done|]. cbn. rewrite bool_decide_eq_false_2 by set_solver. rewrite IH; [done|set_solver].
Qed.
Lemma subst_split q r l1 l2 : q ∉ l1 -> q ∉ l2 -> subst q r (l1 ++ q :: l2) = l1 ++ r :: l2.
Proof.
  intros H1 H2. unfold subst. rewrite fmap_app. cbn. rewrite bool_decide_eq_true_2 by done.
  fold (subst q r l1) (subst q r l2). by rewrite !subst_id.
Qed.

Lemma child_split h K p l q : represents h K -> children R K p = Some l -> q ∈ l ->
  exists l1 l2, l = l1 ++ q :: l2 /\ NoDup (l1 ++ q :: l2) /\ p ∉ l1 ++ q :: l2 /\ q ∉ l1 /\ q ∉ l2.
Proof.
  intros Rep Hl (l1 & l2 & ->)%list_elem_of_split. destruct (children_node _ _ _ _ Rep Hl) as (HK & _).
  destruct (linked_nodup _ _ (rep_linked _ _ Rep) _ _ HK) as [Hnd Hp]. exists l1, l2. split_and!; [done..| |].
  - apply NoDup_app in Hnd as (_ & Hd & _). intros Hq. eapply Hd; [exact Hq|by left].
  - by apply NoDup_app in Hnd as (_ & _ & [? _]%NoDup_cons).
Qed.

(** A list with one new node in it. *)
Lemma nodup_insert (q : ptr) l1 l2 : NoDup (l1 ++ l2) -> q ∉ l1 ++ l2 -> NoDup (l1 ++ q :: l2).
Proof. intros Hnd Hq. rewrite <-Permutation_middle. by constructor. Qed.
Lemma nodup_delete (q : ptr) l1 l2 : NoDup (l1 ++ q :: l2) -> NoDup (l1 ++ l2).
Proof. rewrite <-Permutation_middle. by intros [_ ?]%NoDup_cons. Qed.

Lemma detach_ok h K K' p q : represents h K -> detach R K p q = Some K' ->
  exists h', cJSON_DetachItemViaPointer (Some p) (Some q) h = Ret (Some q, h') /\ represents h' K' /\ kept h h'.
Proof.
  intros Rep E. unfold detach in E. destruct (children R K p) as [l|] eqn:Hl; cbn in E; [|done]. case_bool_decide as Hq; [|done]. injection E as <-.
  destruct (child_split _ _ _ _ _ Rep Hl Hq) as (l1 & l2 & -> & Hnd & Hp & Hq1 & Hq2). destruct (children_node _ _ _ _ Rep Hl) as (HK & n & Hn & Href).
  destruct (Detach_run h K p n l1 q l2 (rep_linked _ _ Rep) HK Hn Href) as (N' & Hrun & Hrel). exists (with_nodes N' h). split; [done|].
  rewrite without_split by done. eapply relinks_represents; eauto using nodup_delete; set_solver.
Qed.

Lemma free_spec K p q : is_free K p q = true -> is_root K q /\ is_Some (K !! q) /\ q <> p.
Proof. apply bool_decide_eq_true_1. Qed.

Lemma replace_ok h K K' p q r : represents h K -> replace R K p q r = Some K' ->
  exists h', cJSON_ReplaceItemViaPointer (Some p) (Some q) (Some r) h = Ret (true, h') /\ represents h' K' /\ kept h h'.
Proof.
  intros Rep E. unfold replace in E. destruct (children R K p) as [l|] eqn:Hl; cbn in E; [|done]. case_bool_decide as Hq; [|done].
  case_bool_decide as Hrq.
  { injection E as <-. exists h. split; [|by split; [|apply kept_refl]]. unfold cJSON_ReplaceItemViaPointer. by rewrite bool_decide_eq_true_2. }
  destruct (is_free K p r) eqn:Hf; [|done]. apply free_spec in Hf as (Hroot & Hr%(linked_dom _ _ (rep_linked _ _ Rep)) & Hrp).
  destruct (child_split _ _ _ _ _ Rep Hl Hq) as (l1 & l2 & -> & Hnd & Hp & Hq1 & Hq2). destruct (children_node _ _ _ _ Rep Hl) as (HK & n & Hn & Href).
  rewrite subst_split in E by done. pose proof (Hroot _ _ HK) as Hrl.
  destruct (Replace_run h K p n l1 q l2 r (rep_linked _ _ Rep) HK Hn Href Hroot Hr Hrp) as (N' & Hrun & Hrel).
  destruct (relinks_represents h K p _ (l1 ++ r :: l2) N' Rep Hl Hrel) as [Rep' Hk].
  - apply nodup_insert; [by eapply nodup_delete|]. set_solver.
  - set_solver.
  - intros x Hx Hx'. assert (x = r) as -> by set_solver. done.
  - destruct (delete_represents _ _ _ _ Rep' E) as (h' & Hd & Rep'' & Hk'). exists h'. split; [|by split; [|eapply kept_trans]].
    rewrite Hrun, (runs _ _ _ _ _ Hd). done.
Qed.

Lemma add_ok h K p q l : represents h K -> children R K p = Some l -> is_free K p q = true ->
  exists h', cJSON_AddItemToArray (Some p) (Some q) h = Ret ((), h') /\ represents h' (<[p := l ++ [q]]> K) /\ kept h h'.
Proof.
  intros Rep Hl (Hroot & Hq%(linked_dom _ _ (rep_linked _ _ Rep)) & Hqp)%free_spec. destruct (children_node _ _ _ _ Rep Hl) as (HK & n & Hn & Href).
  destruct (AddItemToArray_run h K p l q n (rep_linked _ _ Rep) HK Hn Href Hroot Hq Hqp) as (N' & Hrun & Hrel). exists (with_nodes N' h). split; [done|].
  destruct (linked_nodup _ _ (rep_linked _ _ Rep) _ _ HK) as [Hnd Hp]. pose proof (Hroot _ _ HK).
  eapply relinks_represents; eauto.
  - apply nodup_insert; by rewrite app_nil_r.
  - set_solver.
  - intros x Hx Hx'. assert (x = q) as -> by set_solver. done.
Qed.

Lemma get_array_item_ok h K p l which : represents h K -> children R K p = Some l -> get_array_item (Some p) which h = Ret (l !! Z.to_nat which, h).
Proof.
  intros Rep Hl. destruct (children_node _ _ _ _ Rep Hl) as (HK & n & Hn & Href). unfold get_array_item.
  pose proof (linked_child _ _ (rep_linked _ _ Rep) p n l Hn HK) as Hc. rewrite Href in Hc.
  rewrite (runs _ _ _ _ _ (load_run p n h Hn)), Hc. eapply nth_loop_run. by eapply (linked_seg _ _ (rep_linked _ _ Rep)).
Qed.

Lemma insert_ok h K p q l which : represents h K -> children R K p = Some l -> is_free K p q = true -> 0 <= which ->
  exists h', cJSON_InsertItemInArray (Some p) which (Some q) h = Ret ((), h') /\
    represents h' (<[p := take (Z.to_nat which) l ++ q :: drop (Z.to_nat which) l]> K) /\ kept h h'.
Proof.
  intros Rep Hl Hfree Hw. destruct (l !! Z.to_nat which) as [a|] eqn:Ha.
  2: { apply lookup_ge_None in Ha. rewrite take_ge, drop_ge by lia. destruct (add_ok h K p q l Rep Hl Hfree) as (h' & Hrun & Hrest).
       exists h'. split; [|done]. unfold cJSON_InsertItemInArray. rewrite (proj2 (Z.ltb_ge _ _)) by lia.
       rewrite (runs _ _ _ _ _ (get_array_item_ok h K p l which Rep Hl)). by rewrite (proj2 (lookup_ge_None l (Z.to_nat which)) Ha). }
  apply free_spec in Hfree as (Hroot & Hq%(linked_dom _ _ (rep_linked _ _ Rep)) & Hqp). destruct (children_node _ _ _ _ Rep Hl) as (HK & n & Hn & Href).
  pose proof (take_drop_middle _ _ _ Ha) as Hmid. assert (zlen (take (Z.to_nat which) l) = which) as Hz.
  { unfold zlen. rewrite length_take_le; [lia|]. apply lookup_lt_Some in Ha. lia. }
  assert (drop (Z.to_nat which) l = a :: drop (S (Z.to_nat which)) l) as Hdrop by (by apply drop_S).
  rewrite Hdrop. set (l1 := take _ l) in *. set (l2 := drop (S _) l) in *. rewrite <-Hmid in *.
  destruct (Insert_run h K p n l1 a l2 q (rep_linked _ _ Rep) HK Hn Href Hroot Hq Hqp) as (N' & Hrun & Hrel). rewrite Hz in Hrun.
  exists (with_nodes N' h). split; [done|]. destruct (linked_nodup _ _ (rep_linked _ _ Rep) _ _ HK) as [Hnd Hp]. pose proof (Hroot _ _ HK).
  eapply relinks_represents; eauto using nodup_insert.
  - set_solver.
  - intros x Hx Hx'. assert (x = q) as -> by set_solver. done.
Qed.

Lemma child_at_spec K p which o : child_at R K p which = Some o ->
  exists l, children R K p = Some l /\ (which < 0 /\ o = None \/ 0 <= which /\ o = l !! Z.to_nat which).
Proof.
  unfold child_at. destruct (children R K p) as [l|]; cbn; [|done]. intros [= <-]. exists l. split; [done|].
  destruct (Z.ltb_spec which 0); auto.
Qed.

(** The steps that first look for the child at an index. *)
Lemma at_index_ok {A} h K p which o (m : option ptr -> M A) :
  represents h K -> child_at R K p which = Some o -> 0 <= which -> (i ← get_array_item (Some p) which; m i) h = m o h.
Proof.
  intros Rep (l & Hl & [[? _]|[_ ->]])%child_at_spec Hw; [lia|]. by rewrite (runs _ _ _ _ _ (get_array_item_ok h K p l which Rep Hl)).
Qed.

Lemma detach_at_ok h K K' p which o r : represents h K -> child_at R K p which = Some o ->
  (match o with Some q => K ← detach R K p q; Some (Some q, K) | None => Some (None, K) end) = Some (r, K') ->
  step_ok h (cJSON_DetachItemFromArray (Some p) which h) r K'.
Proof.
  intros Rep Ho E. unfold cJSON_DetachItemFromArray. destruct (Z.ltb_spec which 0) as [Hw|Hw].
  - apply child_at_spec in Ho as (l & _ & [[_ ->]|[? _]]); [|lia]. simplify_eq. exists h. split; [done|]. split; [done|apply kept_refl].
  - rewrite (at_index_ok h K p which o) by done. destruct o as [q|].
    + destruct (detach R K p q) as [K1|] eqn:Hd; cbn in E; [|done]. injection E as <- <-. destruct (detach_ok h K K1 p q Rep Hd) as (h' & ? & ?). by exists h'.
    + injection E as <- <-. exists h. split; [done|]. split; [done|apply kept_refl].
Qed.

Lemma edit_ok h K K' e r : represents h K -> edit_lists R K e = Some (r, K') -> step_ok h (perform e h) r K'.
Proof.
  intros Rep E. destruct e as [p q|p which q|p q|p which|p which|q|p q x|p which x]; cbn [edit_lists perform] in *.
  - destruct (children R K p) as [l|] eqn:Hl; cbn in E; [|done]. destruct (is_free K p q) eqn:Hf; simplify_eq.
    destruct (add_ok h K p q l Rep Hl Hf) as (h' & Hrun & ?). exists h'. by rewrite (runs _ _ _ _ _ Hrun).
  - destruct (children R K p) as [l|] eqn:Hl; cbn in E; [|done]. destruct (Z.ltb_spec which 0) as [Hw|Hw]; simplify_eq.
    + exists h. unfold cJSON_InsertItemInArray. rewrite (proj2 (Z.ltb_lt _ _)) by done. split; [done|]. split; [done|apply kept_refl].
    + destruct (is_free K p q) eqn:Hf; simplify_eq. destruct (insert_ok h K p q l which Rep Hl Hf Hw) as (h' & Hrun & ?). exists h'. by rewrite (runs _ _ _ _ _ Hrun).
  - destruct (detach R K p q) eqn:Hd; cbn in E; simplify_eq. destruct (detach_ok h K K' p q Rep Hd) as (h' & ? & ?). by exists h'.
  - destruct (child_at R K p which) as [o|] eqn:Ho; cbn in E; [|done]. by eapply detach_at_ok.
  - destruct (child_at R K p which) as [o|] eqn:Ho; cbn in E; [|done].
    destruct o as [q|]; unfold cJSON_DeleteItemFromArray.
    + destruct (detach R K p q) as [K1|] eqn:Hdet; cbn in E; [|done]. destruct (delete_tree K1 q) as [K2|] eqn:Hdel; cbn in E; [|done]. injection E as <- <-.
      destruct (detach_at_ok h K K1 p which (Some q) (Some q) Rep Ho) as (h1 & Hrun & Rep1 & Hk1); [by rewrite Hdet|].
      destruct (delete_represents h1 _ _ q Rep1 Hdel) as (h2 & Hd & Rep2 & Hk2). exists h2. split; [|split; [done|by eapply kept_trans]].
      rewrite (runs _ _ _ () h2); [done|]. by rewrite (runs _ _ _ _ _ Hrun).
    + injection E as <- <-. destruct (detach_at_ok h K K p which None None Rep Ho eq_refl) as (h1 & Hrun & Rep1 & Hk1). exists h1. split; [|done].
      rewrite (runs _ _ _ () h1); [done|]. by rewrite (runs _ _ _ _ _ Hrun).
  - destruct (delete_tree K q) eqn:Hd; cbn in E; simplify_eq. destruct (delete_represents h K K' q Rep Hd) as (h' & Hrun & ?). exists h'. by rewrite (runs _ _ _ _ _ Hrun).
  - destruct (replace R K p q x) eqn:Hd; cbn in E; simplify_eq. destruct (replace_ok h K K' p q x Rep Hd) as (h' & Hrun & ?). exists h'. by rewrite (runs _ _ _ _ _ Hrun).
  - destruct (child_at R K p which) as [o|] eqn:Ho; cbn in E; [|done]. unfold cJSON_ReplaceItemInArray. destruct (Z.ltb_spec which 0) as [Hw|Hw].
    + apply child_at_spec in Ho as (l & _ & [[_ ->]|[? _]]); [|lia]. simplify_eq. exists h. split; [done|]. split; [done|apply kept_refl].
    + destruct o as [q|].
      * destruct (replace R K p q x) as [K1|] eqn:Hd; cbn in E; [|done]. injection E as <- <-. destruct (replace_ok h K K1 p q x Rep Hd) as (h' & Hrun & ?). exists h'. split; [|done]. erewrite runs; [reflexivity|].
        rewrite (at_index_ok h K p which (Some q)) by done. by rewrite (runs _ _ _ _ _ Hrun).
      * injection E as <- <-. exists h. split; [|split; [done|apply kept_refl]]. erewrite runs; [reflexivity|]. by rewrite (at_index_ok h K p which None) by done.
Qed.

Lemma edits_ok es h K K' rs : represents h K -> edits_lists R K es = Some (rs, K') ->
  exists h', performs es h = Ret (rs, h') /\ represents h' K' /\ kept h h'.
Proof.
  revert h K rs. induction es as [|e es IH]; intros h K rs Rep; cbn [edits_lists performs].
  { intros [= <- <-]. exists h. split; [done|]. split; [done|apply kept_refl]. }
  destruct (edit_lists R K e) as [[r K1]|] eqn:E; cbn; [|done]. destruct (edits_lists R K1 es) as [[rs' K2]|] eqn:Es; cbn; [|done]. intros [= <- <-].
  destruct (edit_ok h K K1 e r Rep E) as (h1 & Hrun & Rep1 & Hk1). destruct (IH h1 K1 rs' Rep1 Es) as (h2 & Hrun2 & Rep2 & Hk2).
  exists h2. split; [|split; [done|by eapply kept_trans]]. by rewrite (runs _ _ _ _ _ Hrun), (runs _ _ _ _ _ Hrun2).
Qed.
End Concrete.
