(* ===== verification/JsonTreeNames.v ===== *)
(** Members of JSON objects: adding under a name and finding by name. *)

From stdpp Require Import gmap.
From S2P Require Import Prelude Alloc Json JsonTree JsonTreeSpec JsonTreeEdit.

Section Names.
Context `{CDouble} `{!Allocator}.
Implicit Types (h : heap) (K : gmap ptr (list ptr)) (N : gmap ptr node).

(** ** Finding *)

Definition name_of h (c : ptr) : option bytes := n ← nodes h !! c; s ← string n; strs h !! s.

(** The first of the nodes with a name. *)
Fixpoint lookup_name h (b : bytes) (l : list ptr) : option ptr :=
  match l with
  | [] => None
  | c :: l => if bool_decide (name_of h c = Some b) then Some c else lookup_name h b l
  end.

Lemma lookup_name_app h b l q : lookup_name h b (l ++ [q]) =
  match lookup_name h b l with Some c => Some c | None => if bool_decide (name_of h q = Some b) then Some q else None end.
Proof. induction l as [|c l IH]; [done|]. cbn [lookup_name app]. rewrite IH. by destruct (bool_decide (name_of h c = Some b)). Qed.
Lemma lookup_name_ext h h' b l : (forall c, c ∈ l -> name_of h' c = name_of h c) -> lookup_name h' b l = lookup_name h b l.
Proof.
  induction l as [|c l IH]; intros E; [done|]. cbn. rewrite (E c) by (by left). rewrite IH; [done|]. intros x Hx. apply E. by right.
Qed.

Lemma find_loop_run h nm b pv l fuel :
  strs h !! nm = Some b -> seg (nodes h) pv l None -> (forall c, c ∈ l -> is_Some (name_of h c)) -> (length l <= fuel)%nat ->
  find_loop fuel (fun s => e ← strcmp_eq (Some nm) s; mret (negb e)) (first l None) h = Ret (lookup_name h b l, h).
Proof.
  intros Hb. revert pv fuel. induction l as [|c l IH]; intros pv fuel Hseg Hl Hf; [by destruct fuel|].
  destruct Hseg as [(n & Hn & _ & Hx) Hseg], fuel as [|fuel]; cbn [length] in Hf; [lia|]. cbn [first find_loop lookup_name].
  destruct (Hl c ltac:(by left)) as [bc Hc]. unfold name_of in Hc. rewrite Hn in Hc. cbn in Hc.
  destruct (string n) as [s|] eqn:Hs; cbn in Hc; [|done].
  rewrite (runs _ _ _ _ _ (load_run c n h Hn)), Hs, (runs _ _ _ (negb (bool_decide (b = bc))) h).
  2: { unfold strcmp_eq, load_str, mbind, M_bind. cbn. rewrite Hb. cbn. rewrite Hc. done. }
  unfold name_of. rewrite Hn. cbn. rewrite Hs. cbn. rewrite Hc. rewrite (bool_decide_ext (Some bc = Some b) (b = bc)) by naive_solver.
  case_bool_decide; cbn [negb]; [done|]. rewrite Hx. apply (IH (Some c)); [done|intros x ?; apply Hl; by right|lia].
Qed.

Lemma find_ok R h K o l nm b :
  represents R h K -> children R K o = Some l -> strs h !! nm = Some b -> (forall c, c ∈ l -> is_Some (name_of h c)) ->
  cJSON_GetObjectItemCaseSensitive (Some o) (Some nm) h = Ret (lookup_name h b l, h).
Proof.
  intros Rep Hl Hb Hn. destruct (children_node _ _ _ _ _ Rep Hl) as (HK & n & Ho & Href). pose proof (rep_linked _ _ _ Rep) as L.
  pose proof (linked_child _ _ L o n l Ho HK) as Hc. rewrite Href in Hc.
  unfold cJSON_GetObjectItemCaseSensitive, get_object_item. rewrite (runs _ _ _ _ _ (load_run o n h Ho)), (runs _ _ _ (fuel_of h) h), Hc by done.
  apply (find_loop_run h nm b None); [done|by eapply linked_seg|done|]. destruct (linked_nodup _ _ L o l HK) as [Hnd _].
  pose proof (walk_fuel h l Hnd) as Hf. apply Nat.lt_le_incl, Hf. intros; by eapply linked_in.
Qed.

(** ** Adding *)

(** Links, child and kind of all nodes agree. *)
Definition same_links N N' : Prop :=
  forall q, match N !! q, N' !! q with
            | Some n, Some n' => next n' = next n /\ prev n' = prev n /\ child n' = child n /\ is_reference n' = is_reference n
            | None, None => True
            | _, _ => False
            end.

Lemma same_links_some N N' q n' : same_links N N' -> N' !! q = Some n' ->
  exists n, N !! q = Some n /\ next n' = next n /\ prev n' = prev n /\ child n' = child n /\ is_reference n' = is_reference n.
Proof. intros E Hq. specialize (E q). rewrite Hq in E. destruct (N !! q); [eauto|done]. Qed.

Lemma same_links_linked N N' K : same_links N N' -> linked N K -> linked N' K.
Proof.
  intros E L. split.
  - intros q. rewrite (linked_dom _ _ L). specialize (E q). destruct (N !! q), (N' !! q); naive_solver.
  - intros p n' l (n & Hn & _ & _ & -> & ->)%(same_links_some _ _ _ _ E) Hl. by eapply linked_child.
  - intros p l Hl. eapply seg_links; [|by eapply linked_seg]. intros q n _ Hn. specialize (E q). rewrite Hn in E. destruct (N' !! q); naive_solver.
  - intros q n' (n & Hn & -> & -> & _)%(same_links_some _ _ _ _ E) Hroot. by eapply linked_root.
  - apply (linked_nodup _ _ L).
  - apply (linked_once _ _ L).
Qed.

Lemma same_links_alter N q f :
  (forall n, next (f n) = next n /\ prev (f n) = prev n /\ child (f n) = child n /\ is_reference (f n) = is_reference n) -> same_links N (alter f q N).
Proof.
  intros Hf x. destruct (decide (q = x)) as [->|Hne].
  - rewrite lookup_alter_eq. destruct (N !! x); cbn; [apply Hf|done].
  - rewrite lookup_alter_ne by done. by destruct (N !! x).
Qed.

Lemma flag_set t : Z.land (Z.lor t cJSON_StringIsConst) cJSON_IsReference = Z.land t cJSON_IsReference.
Proof. rewrite Z.land_lor_distr_l. apply Z.lor_0_r. Qed.
Lemma flag_clear t : Z.land (Z.land t (Z.lnot cJSON_StringIsConst)) cJSON_IsReference = Z.land t cJSON_IsReference.
Proof. rewrite <-Z.land_assoc. done. Qed.
Lemma flag_cleared t : Z.land (Z.land t (Z.lnot cJSON_StringIsConst)) cJSON_StringIsConst = 0.
Proof. rewrite <-Z.land_assoc. apply Z.land_0_r. Qed.

(** The string that gives way to a new name. *)
Definition old_name (n : node) : option ptr := if is_const n then None else string n.
Lemma old_name_owned n s : old_name n = Some s -> s ∈ owns n.
Proof. unfold old_name, owns. destruct (is_const n); [done|]. intros ->. apply elem_of_app. right. by left. Qed.

(** A node with the copy [p] of its new name. *)
Definition renamed (n : node) (p : ptr) (n' : node) : Prop :=
  valuestring n' = valuestring n /\ string n' = Some p /\ is_const n' = false /\ is_reference n' = is_reference n.

Lemma renamed_owns n p n' : renamed n p n' -> owns n' = (if is_reference n then [] else option_list (valuestring n)) ++ [p].
Proof. intros (E1 & E2 & E3 & E4). unfold owns. by rewrite E1, E2, E3, E4. Qed.
Lemma owns_value n s : s ∈ (if is_reference n then [] else option_list (valuestring n)) -> s ∈ owns n.
Proof. intros. unfold owns. apply elem_of_app. by left. Qed.

(** What [cJSON_AddItemToObject] leaves: other nodes have the data they had, the item has its new
    name, and the strings are the old ones without the item's former name and with the copy. *)
Record named h h' (q : ptr) (nq : node) (p : ptr) (b : bytes) : Prop := {
  named_strs : strs h' = remove_all (option_list (old_name nq)) (<[p := b]> (strs h));
  named_other c n' : c <> q -> nodes h' !! c = Some n' -> exists n, nodes h !! c = Some n /\ same_data n n';
  named_item n' : nodes h' !! q = Some n' -> renamed nq p n'
}.

Lemma AddItemToObject_run h K o l no q nq nm b p :
  linked (nodes h) K -> K !! o = Some l -> nodes h !! o = Some no -> is_reference no = false -> is_root K q -> nodes h !! q = Some nq -> q <> o ->
  owned h -> strs h !! nm = Some b -> place (requests h) (used h) = Some p ->
  exists h', cJSON_AddItemToObject (Some o) (Some nm) (Some q) h = Ret ((), h') /\ linked (nodes h') (<[o := l ++ [q]]> K) /\ named h h' q nq p b.
Proof.
  intros L HK Ho Href Hroot Hq Hqo O Hb Hplace. set (h1 := with_both (nodes h) (<[p := b]> (strs h)) (mk_heap _ (nodes h) (strs h) (S (requests h)))).
  set (S2 := remove_all (option_list (old_name nq)) (<[p := b]> (strs h))).
  set (N3 := alter (fun n => set_type (Z.lor (type n) cJSON_StringIsConst) n) q (alter (set_string (Some p)) q (nodes h))).
  assert (linked N3 K) as L3.
  { eapply same_links_linked; [|eapply same_links_linked; [|exact L]].
    - apply same_links_alter. intros n. unfold is_reference, has_flag. cbn. by rewrite flag_set.
    - by apply same_links_alter. }
  set (h3 := with_nodes N3 (with_both (nodes h) S2 h1)).
  assert (forall x, x <> q -> N3 !! x = nodes h !! x) as HN3 by (intros; unfold N3; by rewrite !lookup_alter_ne).
  destruct (AddItemToArray_run h3 K o l q no L3 HK ltac:(cbn; by rewrite HN3) Href Hroot) as (N4 & Hadd & Hrel); [cbn; unfold N3; rewrite !lookup_alter_eq, Hq; by eexists|done|].
  pose proof (relinks_evolves _ _ _ _ _ Hrel) as E4. set (N5 := alter (fun n => set_type (Z.land (type n) (Z.lnot cJSON_StringIsConst)) n) q N4).
  assert (exists n4, N4 !! q = Some n4 /\ same_data (set_type (Z.lor (type nq) cJSON_StringIsConst) (set_string (Some p) nq)) n4) as (n4 & Hq4 & D4).
  { assert (N3 !! q = Some (set_type (Z.lor (type nq) cJSON_StringIsConst) (set_string (Some p) nq))) as H3 by (unfold N3; by rewrite !lookup_alter_eq, Hq).
    destruct (evolves_some _ _ _ _ _ _ E4 H3) as (n4 & ? & D & _). by exists n4. }
  exists (with_nodes N5 h3). split_and!.
  - unfold cJSON_AddItemToObject. rewrite (runs _ _ _ (Some p) h1).
    2: { unfold cJSON_strdup, load_str, alloc_str, mbind, M_bind. cbn. rewrite Hb. cbn. by rewrite Hplace. }
    rewrite (runs _ _ _ () (with_nodes N4 h3)).
    2: { unfold cJSON_AddItemToObjectCS. rewrite (runs _ _ _ _ _ (load_run q nq h1 Hq)). rewrite (runs _ _ _ () (with_both (nodes h) S2 h1)).
         2: { change h1 with (with_both (nodes h) (<[p := b]> (strs h)) h1) at 1. unfold S2. rewrite <-free_opt_run.
              - unfold old_name. by destruct (is_const nq).
              - intros s Hs%old_name_owned. destruct (decide (s = p)) as [->|Hne]; [rewrite lookup_insert_eq; by eexists|].
                rewrite lookup_insert_ne by done. by eapply owned_there. }
         rewrite (runs _ _ _ _ _ (update_run q (set_string (Some p)) (with_both (nodes h) S2 h1) ltac:(by eexists))).
         rewrite (runs _ _ _ _ _ (update_run' q (fun n => set_type (Z.lor (type n) cJSON_StringIsConst) n) _ (with_both (nodes h) S2 h1) (alter_some (set_string (Some p)) q _ _ _ Hq))).
         exact Hadd. }
    unfold clear_const. apply update_run'. by eexists.
  - eapply same_links_linked; [|eapply relinks_linked].
    + apply same_links_alter. intros n. unfold is_reference, has_flag. cbn. by rewrite flag_clear.
    + exact L3.
    + exact HK.
    + by rewrite HN3.
    + exact Href.
    + exact Hrel.
    + apply nodup_insert; rewrite app_nil_r; [by eapply linked_nodup|by eapply Hroot].
    + destruct (linked_nodup _ _ L o l HK). set_solver.
    + intros x Hx Hx'. assert (x = q) as -> by set_solver. done.
  - split; [done| |].
    + intros c n' Hc. cbn. unfold N5. rewrite lookup_alter_ne by done. intros Hn'. destruct (evolves_some_inv _ _ _ _ _ _ E4 Hn') as (n & Hn & D & _).
      cbn in Hn. rewrite HN3 in Hn by done. eauto.
    + cbn. unfold N5. rewrite lookup_alter_eq, Hq4. intros n' [= <-]. destruct D4 as [Dt Dv _ _ Ds]. cbn in *. unfold renamed, is_const, is_reference, has_flag. cbn.
      rewrite Dt, Dv, Ds, flag_cleared, flag_clear, flag_set. done.
Qed.

Lemma fresh_string h p s : place (requests h) (used h) = Some p -> is_Some (strs h !! s) -> s <> p.
Proof. intros Hp%place_fresh Hs ->. apply Hp. unfold used. apply elem_of_union. right. by apply elem_of_dom. Qed.

Lemma named_owned h h' q nq p b :
  owned h -> nodes h !! q = Some nq -> place (requests h) (used h) = Some p -> named h h' q nq p b -> owned h'.
Proof.
  intros O Hq Hp [Hs Hother Hitem].
  assert (forall s, is_Some (strs h !! s) -> old_name nq <> Some s -> is_Some (strs h' !! s)) as Hstay.
  { intros s Hin Hne. rewrite Hs, lookup_remove_out.
    - rewrite lookup_insert_ne; [done|]. intros <-. by eapply fresh_string.
    - intros Hx. by destruct (old_name nq); [apply list_elem_of_singleton in Hx as ->|apply elem_of_nil in Hx]. }
  assert (is_Some (strs h' !! p)) as Hpp.
  { rewrite Hs, lookup_remove_out; [rewrite lookup_insert_eq; by eexists|]. intros Hx. destruct (old_name nq) as [s|] eqn:E; [|by apply elem_of_nil in Hx].
    apply list_elem_of_singleton in Hx as <-. eapply fresh_string; [exact Hp| |reflexivity]. eapply (owned_there _ O); [exact Hq|]. by apply old_name_owned. }
  (* a string of a node in the new heap is the copy, or was a string of that node and stays *)
  assert (forall c n' s, nodes h' !! c = Some n' -> s ∈ owns n' ->
            (c = q /\ s = p) \/ (s <> p /\ old_name nq <> Some s /\ exists n, nodes h !! c = Some n /\ s ∈ owns n)) as Hback.
  { intros c n' s Hn' Hin. destruct (decide (c = q)) as [->|Hne].
    - rewrite (renamed_owns _ _ _ (Hitem n' Hn')) in Hin. apply elem_of_app in Hin as [Hin|Hin%list_elem_of_singleton]; [|by left].
      right. pose proof (owns_value _ _ Hin) as Hv. split_and!; [|..|by eauto].
      + eapply fresh_string; [done|]. by eapply owned_there.
      + pose proof (owned_nodup _ O q nq Hq) as Hnd. unfold owns in Hnd. apply NoDup_app in Hnd as (_ & Hd & _). intros Ho. apply (Hd s Hin).
        unfold old_name in Ho. destruct (is_const nq); [done|]. rewrite Ho. by left.
    - destruct (Hother c n' Hne Hn') as (n & Hn & D). rewrite (data_owns _ _ D) in Hin. right. split_and!; [| |by eauto].
      + eapply fresh_string; [done|]. by eapply owned_there.
      + intros Ho%old_name_owned. apply Hne. by eapply (owned_once _ O). }
  split.
  - intros c n' s Hn' Hin. destruct (Hback c n' s Hn' Hin) as [[_ ->]|(_ & Ho & n & Hn & Hin')]; [done|]. apply Hstay; [by eapply owned_there|done].
  - intros c n' Hn'. destruct (decide (c = q)) as [->|Hne].
    + rewrite (renamed_owns _ _ _ (Hitem n' Hn')). pose proof (owned_nodup _ O q nq Hq) as Hnd. unfold owns in Hnd. apply NoDup_app in Hnd as (Hnd & _ & _).
      apply NoDup_app. split_and!; [done| |apply NoDup_singleton]. intros s Hin ->%list_elem_of_singleton.
      eapply fresh_string; [exact Hp| |reflexivity]. eapply (owned_there _ O); [exact Hq|]. by apply owns_value.
    + destruct (Hother c n' Hne Hn') as (n & Hn & D). rewrite (data_owns _ _ D). by eapply owned_nodup.
  - intros c c' n n' s Hc Hc' Hin Hin'.
    destruct (Hback c n s Hc Hin) as [[-> Hsp]|(Hsp & _ & m & Hm & Hm')], (Hback c' n' s Hc' Hin') as [[-> ?]|(? & _ & m' & Hm1 & Hm1')]; try done.
    by eapply (owned_once _ O).
Qed.

Lemma named_represents R h h' K K' q nq p b :
  represents R h K -> nodes h !! q = Some nq -> place (requests h) (used h) = Some p -> named h h' q nq p b -> linked (nodes h') K' -> represents R h' K'.
Proof.
  intros [L O Hr] Hq Hp Hn L'. split; [done|by eapply named_owned|]. intros c n' Hn' Href. destruct (decide (c = q)) as [->|Hne].
  - destruct (named_item _ _ _ _ _ _ Hn n' Hn') as (_ & _ & _ & E). eapply Hr; [exact Hq|congruence].
  - destruct (named_other _ _ _ _ _ _ Hn c n' Hne Hn') as (n & Hc & D). eapply Hr; [exact Hc|]. by rewrite <-(data_reference _ _ D).
Qed.

(** A string that the item does not own stays. *)
Lemma named_string h h' q nq p b s x :
  named h h' q nq p b -> place (requests h) (used h) = Some p -> strs h !! s = Some x -> s ∉ owns nq -> strs h' !! s = Some x.
Proof.
  intros Hn Hp Hs Ho. rewrite (named_strs _ _ _ _ _ _ Hn), lookup_remove_out.
  - rewrite lookup_insert_ne; [done|]. intros <-. eapply fresh_string; [exact Hp| |reflexivity]. by eexists.
  - intros Hx. destruct (old_name nq) as [s'|] eqn:E; [|by apply elem_of_nil in Hx]. apply list_elem_of_singleton in Hx as ->. by apply Ho, old_name_owned.
Qed.
End Names.
