(* ===== verification/JsonTreeMain.v ===== *)
(** What the editing functions of cJSON guarantee, with runs of them. *)

From stdpp Require Import gmap.
From S2P Require Import Prelude Alloc Json JsonTree JsonTreeSpec JsonTreeEdit JsonTreeNames JsonNum.

Section Main.
Context `{CDouble} `{!Allocator}.

(** C7: Any sequence of the functions that add, insert, detach, delete and replace items returns
    without touching freed memory and does to the linked nodes what the same steps do to plain lists of children, with the
    same items returned; nodes keep their type, value and name, and every string keeps its one owner.
    The steps on lists say where the functions may be used: the item to add is no child yet and the
    tree to delete is a tree. *)
Theorem json_edits_refine_lists (R : gset ptr) es h K K' rs :
  represents R h K -> edits_lists R K es = Some (rs, K') ->
  exists h', performs es h = Ret (rs, h') /\ represents R h' K' /\ kept h h'.
Proof. apply edits_ok. Qed.

(** C24: [cJSON_Delete] of a root frees the nodes of its tree and the strings they own, each once,
    and nothing else; references keep their target and constant names are not freed. *)
Theorem cJSON_Delete_exact h K q ds :
  linked (nodes h) K -> owned h -> is_root K q -> forest K [q] ds -> NoDup ds ->
  exists h', cJSON_Delete (Some q) h = Ret ((), h') /\
    (forall p, nodes h' !! p = if bool_decide (p ∈ ds) then None else nodes h !! p) /\
    (forall s, strs h' !! s = if bool_decide (s ∈ owned_by (nodes h) ds) then None else strs h !! s) /\
    linked (nodes h') (remove_all ds K) /\ owned h'.
Proof.
  intros L O Hr F Hnd. exists (removed h ds). split_and!; [by eapply Delete_run|apply lookup_remove_all|apply lookup_remove_all|by eapply remove_linked|by apply remove_owned].
Qed.

(** An item added to an object under a name is found under that name by
    [cJSON_GetObjectItemCaseSensitive], after the members that were there: what a name found
    before is found as before. *)
Theorem object_add_get R h K o l q nq nm b p :
  represents R h K -> children R K o = Some l -> is_free K o q = true -> nodes h !! q = Some nq ->
  (forall c, c ∈ l -> is_Some (name_of h c)) -> (forall c n s, c ∈ l -> nodes h !! c = Some n -> string n = Some s -> s ∉ owns nq) ->
  strs h !! nm = Some b -> place (requests h) (used h) = Some p ->
  exists h', cJSON_AddItemToObject (Some o) (Some nm) (Some q) h = Ret ((), h') /\ represents R h' (<[o := l ++ [q]]> K) /\
    forall nm' b', strs h !! nm' = Some b' -> nm' ∉ owns nq ->
      cJSON_GetObjectItemCaseSensitive (Some o) (Some nm') h' =
        Ret (match lookup_name h b' l with Some c => Some c | None => if bool_decide (b = b') then Some q else None end, h').
Proof.
  intros Rep Hl Hfree Hq Hnames Happ Hb Hp. apply free_spec in Hfree as (Hroot & _ & Hqo). destruct (children_node _ _ _ _ _ Rep Hl) as (HK & no & Ho & Href).
  destruct (AddItemToObject_run h K o l no q nq nm b p) as (h' & Hrun & L' & Hn); try done; [apply Rep..|].
  pose proof (named_represents _ _ _ _ _ _ _ _ _ Rep Hq Hp Hn L') as Rep'. exists h'. split_and!; [done|done|]. intros nm' b' Hb' Ho'.
  assert (forall c, c ∈ l -> name_of h' c = name_of h c) as Hsame.
  { intros c Hc. assert (c <> q) as Hcq by (intros ->; by eapply Hroot). destruct (linked_in _ _ _ _ c L' (lookup_insert_eq _ _ _) ltac:(set_solver)) as [n' Hn'].
    destruct (named_other _ _ _ _ _ _ Hn c n' Hcq Hn') as (n & Hcn & D). destruct (Hnames c Hc) as [x Hx]. unfold name_of in *. rewrite Hcn in Hx |- *. rewrite Hn'.
    cbn in *. rewrite (same_string _ _ D). destruct (string n) as [s|] eqn:Es; cbn in *; [|done]. rewrite Hx. eapply named_string; eauto. }
  assert (name_of h' q = Some b) as Hqb.
  { destruct (linked_in _ _ _ _ q L' (lookup_insert_eq _ _ _) ltac:(set_solver)) as [n' Hn']. destruct (named_item _ _ _ _ _ _ Hn n' Hn') as (_ & Hs & _ & _).
    unfold name_of. rewrite Hn'. cbn. rewrite Hs. cbn. rewrite (named_strs _ _ _ _ _ _ Hn), lookup_remove_out; [by rewrite lookup_insert_eq|].
    intros Hx. destruct (old_name nq) as [s|] eqn:E; [|by apply elem_of_nil in Hx]. apply list_elem_of_singleton in Hx as <-.
    eapply fresh_string; [exact Hp| |reflexivity]. eapply (owned_there _ (rep_owned _ _ _ Rep)); [exact Hq|]. by apply old_name_owned. }
  rewrite (find_ok R h' (<[o := l ++ [q]]> K) o (l ++ [q]) nm' b').
  - rewrite lookup_name_app, (lookup_name_ext h h'), Hqb by done. rewrite (bool_decide_ext (Some b = Some b') (b = b')) by naive_solver. done.
  - done.
  - unfold children in *. case_bool_decide; [done|]. by rewrite lookup_insert_eq.
  - by eapply named_string.
  - intros c [Hc| ->%list_elem_of_singleton]%elem_of_app; [rewrite Hsame by done; auto|by eexists].
Qed.
End Main.

(** ** New items *)

Section New.
Context `{CDouble} `{!Allocator}.

(** A node as the functions of the group [cJSON_Create] leave it. *)
Definition loose (n : node) : Prop := next n = None /\ prev n = None /\ child n = None /\ is_reference n = false /\ owns n = [].

Lemma loose_represents h : map_Forall (fun _ n => loose n) (nodes h) -> represents ∅ h ((fun _ => []) <$> nodes h).
Proof.
  intros Hl.
  assert (forall p l, ((fun _ => []) <$> nodes h) !! p = Some l -> l = ([] : list ptr)) as Hnil.
  { intros p l. rewrite lookup_fmap. destruct (nodes h !! p); cbn; congruence. }
  split; [split|split|].
  - intros p. rewrite lookup_fmap, fmap_is_Some. done.
  - intros p n l Hn ->%Hnil. destruct (Hl p n Hn) as (_ & _ & -> & -> & _). done.
  - intros p l ->%Hnil. done.
  - intros q n Hn _. by destruct (Hl q n Hn) as (-> & -> & _).
  - intros p l ->%Hnil. split; [constructor|apply not_elem_of_nil].
  - intros p p' l l' q ->%Hnil _ []%elem_of_nil.
  - intros p n s Hn. destruct (Hl p n Hn) as (_ & _ & _ & _ & ->). by intros ?%elem_of_nil.
  - intros p n Hn. destruct (Hl p n Hn) as (_ & _ & _ & _ & ->). constructor.
  - intros p p' n n' s Hn. destruct (Hl p n Hn) as (_ & _ & _ & _ & ->). by intros _ ?%elem_of_nil.
  - intros p n Hn Href. destruct (Hl p n Hn) as (_ & _ & _ & E & _). congruence.
Qed.

(** A new item is one more tree. *)
Lemma create_represents R h K f p :
  represents R h K -> loose (f blank) -> place (requests h) (used h) = Some p ->
  exists h', create f h = Ret (Some p, h') /\ represents R h' (<[p := []]> K) /\ nodes h' !! p = Some (f blank) /\
    (forall q, q <> p -> nodes h' !! q = nodes h !! q) /\ strs h' = strs h.
Proof.
  intros [L O Hr] Hl Hp. assert (p ∉ used h) as Hfresh by (by eapply place_fresh). unfold used in Hfresh. rewrite not_elem_of_union, !not_elem_of_dom in Hfresh.
  destruct Hfresh as [Hpn Hps]. set (N1 := <[p := f blank]> (nodes h)). exists (mk_heap _ N1 (strs h) (S (requests h))).
  assert (K !! p = None) as HpK.
  { destruct (K !! p) eqn:E; [|done]. destruct (proj1 (linked_dom _ _ L p) ltac:(by eexists)) as [? ?]. congruence. }
  assert (forall x l, K !! x = Some l -> p ∉ l) as Hpl.
  { intros x l Hx Hin. destruct (linked_in _ _ _ _ p L Hx Hin) as [? ?]. congruence. }
  destruct Hl as (Hnx & Hpv & Hch & Href & How). split_and!; [| |by cbn; unfold N1; rewrite lookup_insert_eq|intros q ?; cbn; unfold N1; by rewrite lookup_insert_ne|done].
  { unfold create, cJSON_New_Item. rewrite (runs _ _ _ (Some p) (mk_heap _ (<[p := blank]> (nodes h)) (strs h) (S (requests h)))) by (unfold alloc_node; by rewrite Hp).
    rewrite (runs _ _ _ () (mk_heap _ N1 (strs h) (S (requests h)))); [done|]. rewrite update_run by (cbn; rewrite lookup_insert_eq; by eexists).
    unfold with_nodes, N1. cbn. do 3 f_equal. apply map_eq. intros q. destruct (decide (p = q)) as [->|Hne].
    - by rewrite lookup_alter_eq, !lookup_insert_eq.
    - by rewrite lookup_alter_ne, !lookup_insert_ne. }
  assert (forall q n, N1 !! q = Some n -> q = p /\ n = f blank \/ q <> p /\ nodes h !! q = Some n) as Hcase.
  { intros q n. unfold N1. destruct (decide (q = p)) as [->|Hne]; [rewrite lookup_insert_eq; intros [= <-]; auto|rewrite lookup_insert_ne by done; auto]. }
  assert (forall q l, <[p := []]> K !! q = Some l -> q = p /\ l = [] \/ q <> p /\ K !! q = Some l) as HcaseK.
  { intros q l. destruct (decide (q = p)) as [->|Hne]; [rewrite lookup_insert_eq; intros [= <-]; auto|rewrite lookup_insert_ne by done; auto]. }
  split; [split|split|]; cbn.
  - intros q. unfold N1. destruct (decide (q = p)) as [->|Hne]; [rewrite !lookup_insert_eq; split; by eexists|]. rewrite !lookup_insert_ne by done. apply (linked_dom _ _ L).
  - intros q n l [[-> ->]|[Hne Hn]]%Hcase [[? ->]|[? Hl]]%HcaseK; try done; [by rewrite Href, Hch|]. by eapply linked_child.
  - intros q l [[-> ->]|[Hne Hl]]%HcaseK; [done|]. eapply seg_frame; [|by eapply linked_seg]. intros x Hx. unfold N1. apply lookup_insert_ne.
    intros <-. by eapply Hpl.
  - intros q n [[-> ->]|[Hne Hn]]%Hcase Hroot; [done|]. eapply linked_root; [done|done|]. intros x l Hx. apply (Hroot x).
    rewrite lookup_insert_ne; [done|]. intros <-. congruence.
  - intros q l [[-> ->]|[Hne Hl]]%HcaseK; [split; [constructor|apply not_elem_of_nil]|]. by eapply linked_nodup.
  - intros x x' l l' q [[-> ->]|[? Hl]]%HcaseK [[-> ->]|[? Hl']]%HcaseK Hq Hq'; try done; [by apply elem_of_nil in Hq|by apply elem_of_nil in Hq'|]. by eapply (linked_once _ _ L).
  - intros q n s [[-> ->]|[Hne Hn]]%Hcase; [rewrite How; by intros ?%elem_of_nil|]. by eapply owned_there.
  - intros q n [[-> ->]|[Hne Hn]]%Hcase; [rewrite How; constructor|]. by eapply owned_nodup.
  - intros q q' n n' s [[-> ->]|[Hne Hn]]%Hcase [[-> ->]|[Hne' Hn']]%Hcase; [done|rewrite How; by intros ?%elem_of_nil|rewrite How; by intros _ ?%elem_of_nil|]. by eapply (owned_once _ O).
  - intros q n [[-> ->]|[Hne Hn]]%Hcase Hr'; [congruence|]. by eapply Hr.
Qed.
End New.

(** ** Runs *)

#[export] Existing Instance roomy.

Definition item (t : Z) : node := set_type t blank.

(** An array, two numbers and an object, not linked yet, and two names. *)
Definition example_nodes : gmap ptr node :=
  <[1%nat := item cJSON_Array]> (<[2%nat := item cJSON_Number]> (<[3%nat := item cJSON_Number]> (<[4%nat := item cJSON_Object]> ∅))).
Definition example : heap := mk_heap _ example_nodes (<[10%nat := [97]]> (<[11%nat := [98]]> ∅)) 0.

Definition example_children : gmap ptr (list ptr) := <[1%nat := []]> (<[2%nat := []]> (<[3%nat := []]> (<[4%nat := []]> ∅))).

Lemma example_represents : represents ∅ example example_children.
Proof.
  replace example_children with ((fun _ : node => [] : list ptr) <$> nodes example) by (cbn [nodes example]; unfold example_nodes; by rewrite !fmap_insert, fmap_empty).
  apply loose_represents. cbn [nodes example]. unfold example_nodes.
  repeat (apply map_Forall_insert_2; [done|]). apply map_Forall_empty.
Qed.

Definition example_edits : list edit := [Add 1 2; Insert 1 0 3; Add 4 1; DetachAt 1 1; ReplaceAt 4 0 2; Delete 4].

Lemma json_edits_refine_lists_witness :
  exists h', performs example_edits example = Ret ([None; None; None; Some 2%nat; None; None], h') /\ represents ∅ h' ∅.
Proof.
  destruct (json_edits_refine_lists ∅ example_edits example example_children ∅ [None; None; None; Some 2%nat; None; None] example_represents) as (h' & Hrun & Rep & _).
  - vm_compute. reflexivity.
  - exists h'. split; [exact Hrun|exact Rep].
Defined.

Lemma cJSON_Delete_exact_witness : exists h', cJSON_Delete (Some 2%nat) example = Ret ((), h') /\ nodes h' !! 2%nat = None /\ strs h' !! 10%nat = Some [97].
Proof.
  destruct (cJSON_Delete_exact example example_children 2 [2%nat]) as (h' & Hrun & Hn & Hs & _).
  - apply example_represents.
  - apply example_represents.
  - apply (bool_decide_unpack _). vm_compute. exact I.
  - apply (forest_cons _ 2%nat [] [] [] []); [reflexivity|constructor|constructor].
  - apply NoDup_singleton.
  - exists h'. split; [exact Hrun|]. split; [rewrite Hn; reflexivity|]. rewrite Hs. reflexivity.
Defined.

Lemma object_add_get_witness :
  exists h', cJSON_AddItemToObject (Some 4%nat) (Some 10%nat) (Some 2%nat) example = Ret ((), h') /\
    cJSON_GetObjectItemCaseSensitive (Some 4%nat) (Some 10%nat) h' = Ret (Some 2%nat, h').
Proof.
  destruct (object_add_get ∅ example example_children 4 [] 2 (item cJSON_Number) 10 [97] (fresh (used example)) example_represents) as (h' & Hrun & _ & Hget).
  - reflexivity.
  - vm_compute. reflexivity.
  - reflexivity.
  - intros c []%elem_of_nil.
  - intros c n s []%elem_of_nil.
  - reflexivity.
  - reflexivity.
  - exists h'. split; [exact Hrun|]. apply (Hget 10%nat [97]); [reflexivity|]. apply not_elem_of_nil.
Defined.

(** ** Where the functions go wrong *)

Definition strings_after (m : outcome (() * heap)) : option (gmap ptr bytes) :=
  match m with Ret (_, h) => Some (strs h) | _ => None end.

(** Without memory for the copy of the name, [cJSON_AddItemToObject] adds nothing but clears the mark
    of a constant name, which [cJSON_Delete] then frees. *)
Theorem constant_name_freed :
  let n := set_string (Some 10%nat) (item (Z.lor cJSON_Number cJSON_StringIsConst)) in
  let h := mk_heap int_double (<[2%nat := n]> example_nodes) (strs example) 0 in
  strings_after ((_ ← cJSON_AddItemToObject (H0 := exhausted) (Some 4%nat) (Some 11%nat) (Some 2%nat); cJSON_Delete (Some 2%nat)) h) =
    Some (<[11%nat := [98]]> ∅).
Proof. vm_compute. reflexivity. Qed.

(** A replacement under its own name frees the name before copying it. *)
Theorem replace_own_name :
  let n := set_string (Some 10%nat) (item cJSON_Number) in
  let h := mk_heap int_double (<[2%nat := n]> example_nodes) (strs example) 0 in
  cJSON_ReplaceItemInObject (Some 4%nat) (Some 10%nat) (Some 2%nat) h = Undef.
Proof. reflexivity. Qed.

(** The exact search in an array compares the name with the null pointer of an element. *)
Theorem search_in_array :
  (_ ← cJSON_AddItemToArray (Some 1%nat) (Some 2%nat); cJSON_GetObjectItemCaseSensitive (Some 1%nat) (Some 10%nat)) example = Undef.
Proof. reflexivity. Qed.

(** An insertion of a null pointer before a child writes to it; at the end it does nothing. *)
Theorem insert_null :
  cJSON_InsertItemInArray (Some 1%nat) 0 None example = Ret ((), example) /\
  (_ ← cJSON_AddItemToArray (Some 1%nat) (Some 2%nat); cJSON_InsertItemInArray (Some 1%nat) 0 None) example = Undef.
Proof. split; reflexivity. Qed.
