(* ===== verification/JsonTreeCopy.v ===== *)
(** Copies of JSON trees: [cJSON_Duplicate]. *)

From stdpp Require Import gmap.
From S2P Require Import Prelude Alloc Json JsonNum JsonRender JsonTree JsonTreeSpec JsonTreeEdit JsonTreeNames JsonTreeMain.

#[local] Arguments owned_by : simpl never.

(** ** The tree that nodes stand for *)

Section Denotes.
Context `{CDouble}.
Implicit Types (N : gmap ptr node) (S : gmap ptr bytes) (K : gmap ptr (list ptr)).

(** The text behind a pointer that may be null. *)
Definition text_of S (o : option ptr) : option (option bytes) :=
  match o with None => Some None | Some s => Some <$> S !! s end.

(** The trees of a chain of siblings, by the links of the nodes. *)
Inductive denotes N S : option ptr -> list cJSON -> Prop :=
| denotes_nil : denotes N S None []
| denotes_cons p n vs st ts rest :
    N !! p = Some n -> text_of S (valuestring n) = Some vs -> text_of S (string n) = Some st ->
    denotes N S (child n) ts -> denotes N S (next n) rest ->
    denotes N S (Some p) (Item (type n) vs (valueint n) (valuedouble n) st ts :: rest).

(** The trees of a list of nodes, by the lists of children. *)
Inductive kdenotes N S K : list ptr -> list cJSON -> Prop :=
| kdenotes_nil : kdenotes N S K [] []
| kdenotes_cons p n l kids vs st ts rest :
    N !! p = Some n -> K !! p = Some kids -> text_of S (valuestring n) = Some vs -> text_of S (string n) = Some st ->
    kdenotes N S K kids ts -> kdenotes N S K l rest ->
    kdenotes N S K (p :: l) (Item (type n) vs (valueint n) (valuedouble n) st ts :: rest).

Lemma text_of_mono S S' o v : S ⊆ S' -> text_of S o = Some v -> text_of S' o = Some v.
Proof.
  intros HS. destruct o as [s|]; cbn; [|done]. destruct (S !! s) as [b|] eqn:E; cbn; [|done]. intros [= <-]. by rewrite (lookup_weaken _ _ _ _ E HS).
Qed.

Lemma denotes_mono N N' S S' o ts : N ⊆ N' -> S ⊆ S' -> denotes N S o ts -> denotes N' S' o ts.
Proof.
  intros HN HS. induction 1 as [|p n vs st ts rest Hn Hv Hs _ IH1 _ IH2]; [constructor|].
  apply (denotes_cons N' S' p n vs st ts rest); [by eapply lookup_weaken|by eapply text_of_mono..|done|done].
Qed.

Lemma denotes_fun N S o ts ts' : denotes N S o ts -> denotes N S o ts' -> ts = ts'.
Proof.
  intros D. revert ts'. induction D as [|p n vs st ts rest Hn Hv Hs _ IH1 _ IH2]; intros ts' D'; inversion D'; subst; [done|].
  assert (n0 = n) as -> by congruence. rewrite (IH1 ts0), (IH2 rest0) by done. congruence.
Qed.

(** A list of nodes whose data stay stands for the same trees. *)
Lemma kdenotes_frame N N' S S' K K' l ts ds :
  forest K l ds -> kdenotes N S K l ts -> S ⊆ S' ->
  (forall p, p ∈ ds -> K' !! p = K !! p) -> (forall p n, p ∈ ds -> N !! p = Some n -> exists n', N' !! p = Some n' /\ same_data n n') ->
  kdenotes N' S' K' l ts.
Proof.
  intros F D HS. revert ds F. induction D as [|p n l kids vs st ts rest Hn Hk Hv Hs D1 IH1 D2 IH2]; intros ds F HK HN; [constructor|].
  inversion F; subst. assert (kids0 = kids) as -> by congruence. destruct (HN p n ltac:(by left) Hn) as (n' & Hn' & [E1 E2 E3 E4 E5]).
  rewrite <-E1, <-E3, <-E4. apply (kdenotes_cons N' S' K' p n' l kids).
  - done.
  - rewrite HK by (by left). done.
  - rewrite E2. by eapply text_of_mono.
  - rewrite E5. by eapply text_of_mono.
  - eapply IH1; [done|..]; intros; [apply HK|eapply HN; [|done]]; set_solver.
  - eapply IH2; [done|..]; intros; [apply HK|eapply HN; [|done]]; set_solver.
Qed.

Lemma kdenotes_app N S K l1 l2 ts1 ts2 : kdenotes N S K l1 ts1 -> kdenotes N S K l2 ts2 -> kdenotes N S K (l1 ++ l2) (ts1 ++ ts2).
Proof. intros D1 D2. induction D1; cbn [app]; [done|]. by econstructor. Qed.

Lemma forest_app K l1 l2 ds1 ds2 : forest K l1 ds1 -> forest K l2 ds2 -> forest K (l1 ++ l2) (ds1 ++ ds2).
Proof. intros F1 F2. induction F1; cbn [app]; [done|]. rewrite <-app_assoc. by econstructor. Qed.
Lemma forest_frame K K' l ds : forest K l ds -> (forall p, p ∈ ds -> K' !! p = K !! p) -> forest K' l ds.
Proof.
  induction 1 as [|p l kids ks rs Hp F1 IH1 F2 IH2]; intros HK; [constructor|]. apply (forest_cons K' p l kids).
  - rewrite HK by (by left). done.
  - apply IH1. intros; apply HK; set_solver.
  - apply IH2. intros; apply HK; set_solver.
Qed.


(** ** Copies and the recursion they need *)

(** The tree of a copy: no node is marked as a reference. *)
Fixpoint copy_of (t : cJSON) : cJSON :=
  match t with
  | Item ty vs vi vd st ch => Item (Z.land ty (Z.lnot cJSON_IsReference)) vs vi vd st (copy_of <$> ch)
  end.

(** The number of calls that can be open, with the steps over siblings. *)
Fixpoint need (t : cJSON) : nat :=
  match t with Item _ _ _ _ _ ch => Datatypes.S (max (length ch) (foldr (fun t m => max (need t) m) 0%nat ch)) end.

Lemma need_child (ch : list cJSON) t : t ∈ ch -> (need t <= foldr (fun t m => max (need t) m) 0 ch)%nat.
Proof. induction 1; cbn; lia. Qed.
End Denotes.

(** ** Trees beside the others *)

Section Fresh.
Context `{CDouble} `{!Allocator} (R : gset ptr).
Implicit Types (h : heap) (N : gmap ptr node) (S : gmap ptr bytes) (K : gmap ptr (list ptr)).

(** From [h] and [K] to [h'] and [K'] there is one more tree, [q] with the nodes [ds], with strings of its own. *)
Record fresh_tree h K h' K' (q : ptr) (ds : list ptr) : Prop := {
  ft_rep : represents R h' K';
  ft_nodes : nodes h ⊆ nodes h';
  ft_strs : strs h ⊆ strs h';
  ft_K : K ⊆ K';
  ft_dom p : is_Some (nodes h' !! p) -> is_Some (nodes h !! p) \/ p ∈ ds;
  ft_new p : p ∈ ds -> nodes h !! p = None;
  ft_sdom s : is_Some (strs h' !! s) -> is_Some (strs h !! s) \/ s ∈ owned_by (nodes h') ds;
  ft_snew s : s ∈ owned_by (nodes h') ds -> strs h !! s = None;
  ft_root : is_root K' q;
  ft_forest : forest K' [q] ds;
  ft_nodup : NoDup ds
}.

Lemma represents_same h h' K : nodes h' = nodes h -> strs h' = strs h -> represents R h K -> represents R h' K.
Proof.
  intros EN ES [L [O1 O2 O3] Hr]. split; [by rewrite EN|split|]; rewrite ?EN, ?ES.
  - intros p n s Hn Hs. by eapply O1.
  - intros p n Hn. by eapply O2.
  - intros p p' n n' s. apply O3.
  - intros p n. apply Hr.
Qed.

(** Deleting it leaves what was there before. *)
Lemma fresh_tree_undo h K h' K' q ds : represents R h K -> fresh_tree h K h' K' q ds ->
  exists h'', cJSON_Delete (Some q) h' = Ret ((), h'') /\ nodes h'' = nodes h /\ strs h'' = strs h /\ represents R h'' K.
Proof.
  intros Rep [Rep' HN HS HK Hd Hnew Hsd Hsnew Hroot F Hnd]. exists (removed h' ds).
  assert (nodes (removed h' ds) = nodes h) as EN.
  { apply map_eq. intros p. cbn. rewrite lookup_remove_all. case_bool_decide as Hp; [by rewrite Hnew|].
    destruct (nodes h !! p) as [n|] eqn:E; [by eapply lookup_weaken|]. destruct (nodes h' !! p) eqn:E'; [|done].
    destruct (Hd p) as [[? ?]|?]; [by eexists|congruence|done]. }
  assert (strs (removed h' ds) = strs h) as ES.
  { apply map_eq. intros s. cbn. rewrite lookup_remove_all. case_bool_decide as Hs; [by rewrite Hsnew|].
    destruct (strs h !! s) as [b|] eqn:E; [by eapply lookup_weaken|]. destruct (strs h' !! s) eqn:E'; [|done].
    destruct (Hsd s) as [[? ?]|?]; [by eexists|congruence|done]. }
  split_and!; [|done|done|by eapply represents_same]. destruct Rep'. by eapply Delete_run.
Qed.

(** New data for a node, possibly with a new string. *)
Lemma set_data_represents h K p n n' S' r :
  represents R h K -> nodes h !! p = Some n -> next n' = next n -> prev n' = prev n -> child n' = child n -> is_reference n' = is_reference n ->
  strs h ⊆ S' -> NoDup (owns n') -> (forall s, s ∈ owns n' -> s ∈ owns n \/ strs h !! s = None /\ is_Some (S' !! s)) ->
  represents R (mk_heap _ (<[p := n']> (nodes h)) S' r) K.
Proof.
  intros [L O Hr] Hp E1 E2 E3 E4 HS Hnd How.
  assert (forall q m, <[p := n']> (nodes h) !! q = Some m -> q = p /\ m = n' \/ q <> p /\ nodes h !! q = Some m) as Hcase.
  { intros q m. destruct (decide (q = p)) as [->|Hne]; [rewrite lookup_insert_eq; intros [= <-]; auto|rewrite lookup_insert_ne by done; auto]. }
  assert (forall s, is_Some (strs h !! s) -> is_Some (S' !! s)) as HS' by (intros s [b Hb]; exists b; by eapply lookup_weaken).
  (* a string of the new data that another node owns was a string of the old data *)
  assert (forall q m s, nodes h !! q = Some m -> s ∈ owns m -> s ∈ owns n' -> s ∈ owns n) as Hold.
  { intros q m s Hq Hs Hs'. destruct (How s Hs') as [?|[Hnone _]]; [done|]. destruct (owned_there _ O q m s Hq Hs) as [? ?]. congruence. }
  split; [|split|]; cbn.
  - eapply same_links_linked; [|exact L]. intros q. destruct (decide (q = p)) as [->|Hne].
    + by rewrite Hp, lookup_insert_eq.
    + rewrite lookup_insert_ne by done. by destruct (nodes h !! q).
  - intros q m s [[-> ->]|[_ Hq]]%Hcase Hs; [|apply HS'; by eapply owned_there]. destruct (How s Hs) as [?|[_ ?]]; [apply HS'; by eapply owned_there|done].
  - intros q m [[-> ->]|[_ Hq]]%Hcase; [done|by eapply owned_nodup].
  - intros q q' m m' s [[-> ->]|[? Hq]]%Hcase [[-> ->]|[? Hq']]%Hcase Hs Hs'; [done|..].
    + eapply (owned_once _ O); [exact Hp|exact Hq'|by eapply Hold|done].
    + eapply (owned_once _ O); [exact Hq|exact Hp|done|by eapply Hold].
    + by eapply (owned_once _ O).
  - intros q m [[-> ->]|[_ Hq]]%Hcase Href; [eapply Hr; [exact Hp|congruence]|by eapply Hr].
Qed.

(** One new node. *)
Definition fresh_node h K h' (q : ptr) (n : node) : Prop :=
  fresh_tree h K h' (<[q := []]> K) q [q] /\ nodes h' = <[q := n]> (nodes h).

(** No request fails. *)
Definition plenty : Prop := forall n used, is_Some (place n used).

Lemma New_Item_run h K : represents R h K ->
  exists o h', cJSON_New_Item h = Ret (o, h') /\ strs h' = strs h /\ (plenty -> is_Some o) /\
    match o with None => nodes h' = nodes h | Some q => fresh_node h K h' q blank end.
Proof.
  intros Rep. unfold cJSON_New_Item, alloc_node. destruct (place (requests h) (used h)) as [q|] eqn:Hp.
  2: { eexists None, _. split_and!; [done|done| |done]. intros Hpl. destruct (Hpl (requests h) (used h)). congruence. }
  eexists (Some q), _. split_and!; [done|done|by eexists|]. split; [|done].
  destruct (create_represents R h K (fun n => n) q Rep) as (h' & _ & Rep' & Hq & Hother & HS); [done|done|].
  assert (nodes h' = <[q := blank]> (nodes h)) as EN.
  { apply map_eq. intros p. destruct (decide (p = q)) as [->|Hne]; [by rewrite Hq, lookup_insert_eq|rewrite lookup_insert_ne by done; auto]. }
  apply place_fresh in Hp. unfold used in Hp. rewrite not_elem_of_union, !not_elem_of_dom in Hp. destruct Hp as [HpN HpS].
  assert (K !! q = None) as HpK.
  { destruct (K !! q) eqn:E; [|done]. destruct (proj1 (linked_dom _ _ (rep_linked _ _ _ Rep) q) ltac:(by eexists)). congruence. }
  assert (owned_by (<[q := blank]> (nodes h)) [q] = []) as Eown by (erewrite owned_by_cons; [|by apply lookup_insert_eq]; done).
  split; cbn; try rewrite Eown.
  - eapply represents_same; [| |exact Rep']; [done|done].
  - by apply insert_subseteq.
  - done.
  - by apply insert_subseteq.
  - intros p. destruct (decide (p = q)) as [->|Hne]; [right; by left|rewrite lookup_insert_ne by done; auto].
  - by intros p ->%list_elem_of_singleton.
  - auto.
  - by intros s ?%elem_of_nil.
  - intros p l. destruct (decide (p = q)) as [->|Hne].
    + rewrite lookup_insert_eq. intros [= <-]. apply not_elem_of_nil.
    + rewrite lookup_insert_ne by done. intros Hl Hin. destruct (linked_in _ _ _ _ q (rep_linked _ _ _ Rep) Hl Hin). congruence.
  - apply (forest_cons _ q [] [] [] []); [by rewrite lookup_insert_eq|constructor|constructor].
  - apply NoDup_singleton.
Qed.

Lemma fresh_node_update h K h1 q n n' S' r :
  fresh_node h K h1 q n -> next n' = next n -> prev n' = prev n -> child n' = child n -> is_reference n' = is_reference n ->
  strs h1 ⊆ S' -> NoDup (owns n') -> (forall s, s ∈ owns n' -> s ∈ owns n \/ strs h1 !! s = None /\ is_Some (S' !! s)) ->
  (forall s, s ∈ owns n -> s ∈ owns n') -> (forall s, is_Some (S' !! s) -> is_Some (strs h1 !! s) \/ s ∈ owns n') ->
  fresh_node h K (mk_heap _ (<[q := n']> (nodes h1)) S' r) q n'.
Proof.
  intros [F EN] E1 E2 E3 E4 HS Hnd How Hkeep Hall. assert (nodes h1 !! q = Some n) as Hq by (rewrite EN; apply lookup_insert_eq).
  pose proof F as [Rep HN HSh HK Hd Hnew Hsd Hsnew Hroot Ff Hndp]. split; [|cbn; by rewrite EN, insert_insert_eq].
  assert (owned_by (nodes h1) [q] = owns n) as Eo by (rewrite (owned_by_cons _ _ _ _ Hq); apply app_nil_r).
  assert (owned_by (<[q := n']> (nodes h1)) [q] = owns n') as Eo' by (erewrite owned_by_cons; [apply app_nil_r|apply lookup_insert_eq]).
  rewrite Eo in *. split; cbn; rewrite ?Eo'; try done.
  - by eapply set_data_represents.
  - rewrite EN, insert_insert_eq. apply insert_subseteq, Hnew. by left.
  - by etrans.
  - intros p. rewrite EN, insert_insert_eq. destruct (decide (p = q)) as [->|Hne]; [right; by left|rewrite lookup_insert_ne by done; auto].
  - intros s [[?|?]%Hsd|?]%Hall; auto.
  - intros s [?|[Hnone _]]%How; [auto|]. destruct (strs h !! s) eqn:E; [|done]. pose proof (lookup_weaken _ _ _ _ E HSh). congruence.
Qed.

Lemma update_insert_run q f n h : nodes h !! q = Some n -> update q f h = Ret ((), mk_heap _ (<[q := f n]> (nodes h)) (strs h) (requests h)).
Proof. intros E. unfold update. rewrite (runs _ _ _ _ _ (load_run q n h E)). unfold store. by rewrite E. Qed.

(** A copy of a string, or nothing. *)
Definition string_copy h h' (o o' : option ptr) (v : option bytes) : Prop :=
  match o' with
  | None => strs h' = strs h
  | Some s => strs h !! s = None /\ is_Some o /\ exists b, v = Some b /\ strs h' = <[s := b]> (strs h)
  end.

Lemma strdup_run h o v : text_of (strs h) o = Some v ->
  exists o' h', cJSON_strdup o h = Ret (o', h') /\ nodes h' = nodes h /\ (plenty -> is_Some o -> is_Some o') /\ string_copy h h' o o' v.
Proof.
  intros Ht. destruct o as [s|]; cbn in Ht.
  2: { exists None, h. split_and!; [done|done|by intros _ [? ?]|done]. }
  destruct (strs h !! s) as [b|] eqn:Hs; cbn in Ht; [|done]. injection Ht as <-. unfold cJSON_strdup. rewrite (runs _ _ _ b h) by (unfold load_str; by rewrite Hs).
  unfold alloc_str. destruct (place (requests h) (used h)) as [p|] eqn:Hp.
  - eexists (Some p), _. split_and!; [done|done|by eexists|]. cbn. split_and!; [|by eexists|by eauto].
    apply place_fresh in Hp. unfold used in Hp. rewrite not_elem_of_union, !not_elem_of_dom in Hp. tauto.
  - eexists None, _. split_and!; [done|done| |done]. intros Hpl. destruct (Hpl (requests h) (used h)). congruence.
Qed.

Lemma string_copy_text h h' o o' v : text_of (strs h) o = Some v -> string_copy h h' o o' v -> (is_Some o -> is_Some o') ->
  text_of (strs h') o' = Some v /\ strs h ⊆ strs h'.
Proof.
  intros Ht Hc Hs. destruct o' as [s|]; cbn in *.
  - destruct Hc as (Hn & _ & b & -> & ->). rewrite lookup_insert_eq. split; [done|by apply insert_subseteq].
  - rewrite Hc. destruct o; [by destruct Hs|]. cbn in Ht. done.
Qed.
Lemma string_copy_sub h h' o o' v : string_copy h h' o o' v -> strs h ⊆ strs h'.
Proof. destruct o' as [s|]; cbn; [|by intros ->]. intros (Hn & _ & b & _ & ->). by apply insert_subseteq. Qed.

(** The two strings of a new node, filled in with copies. *)
Lemma fresh_node_value h K h1 q n o o' v h2 :
  fresh_node h K h1 q n -> is_reference n = false -> valuestring n = None -> string n = None -> string_copy h1 h2 o o' v -> nodes h2 = nodes h1 ->
  fresh_node h K (mk_heap _ (<[q := set_valuestring o' n]> (nodes h2)) (strs h2) (requests h2)) q (set_valuestring o' n).
Proof.
  intros F Href Hv Hst Hc EN. rewrite EN. assert (owns n = []) as En by (unfold owns; rewrite Href, Hv, Hst; by destruct (is_const n)).
  assert (owns (set_valuestring o' n) = option_list o') as En'.
  { clear En. unfold owns, is_reference, is_const, has_flag in *. cbn. rewrite Href, Hst. destruct (negb (Z.land (type n) cJSON_StringIsConst =? 0)); apply app_nil_r. }
  eapply fresh_node_update; [exact F|done..| | | | |]; rewrite ?En, ?En'.
  - by eapply string_copy_sub.
  - destruct o'; [apply NoDup_singleton|constructor].
  - intros s Hs. right. destruct o' as [x|]; [|by apply elem_of_nil in Hs]. apply list_elem_of_singleton in Hs as ->.
    destruct Hc as (Hn & _ & b & _ & ->). rewrite lookup_insert_eq. split; [done|by eexists].
  - by intros s ?%elem_of_nil.
  - intros s Hs. destruct o' as [x|]; cbn in Hc.
    + destruct Hc as (_ & _ & b & _ & E). rewrite E in Hs. destruct (decide (s = x)) as [->|Hne]; [right; by left|rewrite lookup_insert_ne in Hs by done; auto].
    + rewrite Hc in Hs. auto.
Qed.

Lemma fresh_node_name h K h1 q n o o' v h2 :
  fresh_node h K h1 q n -> is_reference n = false -> is_const n = false -> string n = None -> string_copy h1 h2 o o' v -> nodes h2 = nodes h1 ->
  fresh_node h K (mk_heap _ (<[q := set_string o' n]> (nodes h2)) (strs h2) (requests h2)) q (set_string o' n).
Proof.
  intros F Href Hcst Hst Hc EN. rewrite EN. assert (owns n = option_list (valuestring n)) as En by (unfold owns; rewrite Href, Hcst, Hst; apply app_nil_r).
  assert (owns (set_string o' n) = option_list (valuestring n) ++ option_list o') as En'.
  { clear En. unfold owns, is_reference, is_const, has_flag in *. cbn. by rewrite Href, Hcst. }
  destruct F as [F EN1]. pose proof (ft_rep _ _ _ _ _ _ F) as Rep1. assert (nodes h1 !! q = Some n) as Hq by (rewrite EN1; apply lookup_insert_eq).
  eapply fresh_node_update; [by split|done..| | | | |]; rewrite ?En, ?En'.
  - by eapply string_copy_sub.
  - apply NoDup_app. split_and!; [destruct (valuestring n); [apply NoDup_singleton|constructor]| |destruct o'; [apply NoDup_singleton|constructor]].
    intros s Hs Hs'. destruct o' as [x|]; [|by apply elem_of_nil in Hs']. apply list_elem_of_singleton in Hs' as ->. destruct Hc as (Hn & _).
    destruct (owned_there _ (rep_owned _ _ _ Rep1) q n x Hq) as [? ?]; [by rewrite En|congruence].
  - intros s [Hs|Hs]%elem_of_app; [by left|]. right. destruct o' as [x|]; [|by apply elem_of_nil in Hs]. apply list_elem_of_singleton in Hs as ->.
    destruct Hc as (Hn & _ & b & _ & ->). rewrite lookup_insert_eq. split; [done|by eexists].
  - intros s Hs. apply elem_of_app. by left.
  - intros s Hs. rewrite elem_of_app. destruct o' as [x|]; cbn in Hc.
    + destruct Hc as (_ & _ & b & _ & E). rewrite E in Hs. destruct (decide (s = x)) as [->|Hne]; [right; right; by left|rewrite lookup_insert_ne in Hs by done; auto].
    + rewrite Hc in Hs. auto.
Qed.

(** A shared constant name. *)
Lemma fresh_node_const h K h1 q n o :
  fresh_node h K h1 q n -> is_const n = true -> fresh_node h K (mk_heap _ (<[q := set_string o n]> (nodes h1)) (strs h1) (requests h1)) q (set_string o n).
Proof.
  intros F Hc. assert (owns (set_string o n) = owns n) as E by (unfold owns, is_reference, is_const, has_flag in *; cbn; by rewrite Hc).
  destruct F as [F EN]. assert (nodes h1 !! q = Some n) as Hq by (rewrite EN; apply lookup_insert_eq).
  eapply fresh_node_update; [by split|done..| | | | |]; rewrite ?E; auto. eapply (owned_nodup _ (rep_owned _ _ _ (ft_rep _ _ _ _ _ _ F))), Hq.
Qed.

Lemma reference_cleared t : Z.land (Z.land t (Z.lnot cJSON_IsReference)) cJSON_IsReference = 0.
Proof. rewrite <-Z.land_assoc. apply Z.land_0_r. Qed.
Lemma const_kept t : Z.land (Z.land t (Z.lnot cJSON_IsReference)) cJSON_StringIsConst = Z.land t cJSON_StringIsConst.
Proof. by rewrite <-Z.land_assoc. Qed.

(** The node [n'] has the data of [n], as [cJSON_Duplicate] copies them. *)
Record copied_fields S (n n' : node) (vs st : option bytes) : Prop := {
  cf_type : type n' = Z.land (type n) (Z.lnot cJSON_IsReference);
  cf_int : valueint n' = valueint n;
  cf_double : valuedouble n' = valuedouble n;
  cf_value : text_of S (valuestring n') = Some vs;
  cf_name : text_of S (string n') = Some st;
  cf_reference : is_reference n' = false
}.

Lemma copy_fields_run h K h1 i n q vs st :
  fresh_node h K h1 q blank -> strs h1 = strs h -> nodes h !! i = Some n -> text_of (strs h) (valuestring n) = Some vs -> text_of (strs h) (string n) = Some st ->
  exists ok h2 n2, copy_fields i q h1 = Ret (ok, h2) /\ fresh_node h K h2 q n2 /\ (plenty -> ok = true) /\
    (ok = true -> copied_fields (strs h2) n n2 vs st).
Proof.
  intros F ES Hi Hv Hs. pose proof F as [Ft EN]. assert (nodes h1 !! q = Some blank) as Hq by (rewrite EN; apply lookup_insert_eq).
  set (n1 := set_number (valueint n) (valuedouble n) (set_type (Z.land (type n) (Z.lnot cJSON_IsReference)) blank)).
  set (h1' := mk_heap _ (<[q := n1]> (nodes h1)) (strs h1) (requests h1)).
  assert (is_reference n1 = false) as Hr1 by (unfold is_reference, has_flag; cbn; by rewrite reference_cleared).
  assert (is_const n1 = is_const n) as Hc1 by (unfold is_const, has_flag; cbn; by rewrite const_kept).
  assert (owns n1 = []) as Eo by (unfold owns; rewrite Hr1; cbn; by destruct (is_const n1)).
  assert (fresh_node h K h1' q n1) as F1.
  { eapply fresh_node_update; [exact F|done..| | | | |]; rewrite ?Eo; try done; [constructor|by intros s ?%elem_of_nil|auto]. }
  unfold copy_fields. rewrite (runs _ _ _ _ _ (load_run i n h1 ltac:(by eapply lookup_weaken; [|eapply ft_nodes]))).
  rewrite (runs _ _ _ _ _ (update_insert_run q _ blank h1 Hq)). fold n1. fold h1'.
  assert (text_of (strs h1') (valuestring n) = Some vs) as Hv1 by (cbn; by rewrite ES).
  destruct (strdup_run h1' _ _ Hv1) as (v & h2 & Ev & EN2 & Hpl2 & Hcopy2). rewrite (runs _ _ _ _ _ Ev).
  pose proof (fresh_node_value h K h1' q n1 _ v vs h2 F1 Hr1 eq_refl eq_refl Hcopy2 EN2) as F2.
  rewrite (runs _ _ _ _ _ (update_insert_run q (set_valuestring v) n1 h2 ltac:(rewrite EN2; apply lookup_insert_eq))). set (n2 := set_valuestring v n1) in *.
  set (h2' := mk_heap _ _ (strs h2) (requests h2)) in *. case_bool_decide as Hf.
  { eexists false, h2', n2. split_and!; [done|done| |done]. intros Hpl. destruct Hf as [Hvs ->]. by destruct (Hpl2 Hpl Hvs). }
  assert (is_Some (valuestring n) -> is_Some v) as Hvv by (intros Hx; destruct v; [by eexists|tauto]).
  destruct (string_copy_text h1' h2 _ _ _ Hv1 Hcopy2 Hvv) as [Hv2 Hsub2].
  assert (text_of (strs h2') (string n) = Some st) as Hs2 by (eapply text_of_mono; [exact Hsub2|]; cbn; by rewrite ES).
  assert (nodes h2' !! q = Some n2) as Hq2 by (apply lookup_insert_eq).
  destruct (is_const n) eqn:Hc.
  - rewrite (runs _ _ _ (string n) h2') by done. rewrite (runs _ _ _ _ _ (update_insert_run q (set_string (string n)) n2 h2' Hq2)).
    pose proof (fresh_node_const h K h2' q n2 (string n) F2 ltac:(done)) as F3. eexists _, _, _. split_and!; [reflexivity|exact F3| |].
    + intros _. apply negb_true_iff, bool_decide_eq_false. intros [[? E] E']. congruence.
    + intros _. split; try done.
  - destruct (strdup_run h2' _ _ Hs2) as (s & h3 & Es & EN3 & Hpl3 & Hcopy3). rewrite (runs _ _ _ _ _ Es).
    rewrite (runs _ _ _ _ _ (update_insert_run q (set_string s) n2 h3 ltac:(by rewrite EN3))).
    pose proof (fresh_node_name h K h2' q n2 _ s st h3 F2 Hr1 Hc1 eq_refl Hcopy3 EN3) as F3. eexists _, _, _. split_and!; [reflexivity|exact F3| |].
    + intros Hpl. apply negb_true_iff, bool_decide_eq_false. intros [Hx ->]. by destruct (Hpl3 Hpl Hx).
    + intros Hok%negb_true_iff%bool_decide_eq_false. assert (is_Some (string n) -> is_Some s) as Hss by (intros Hx; destruct s; [by eexists|tauto]).
      destruct (string_copy_text h2' h3 _ _ _ Hs2 Hcopy3 Hss) as [Hs3 Hsub3]. split; try done. cbn. by eapply text_of_mono.
Qed.

(** ** Children *)

Lemma node_eq (n n' : node) : same_data n n' -> next n' = next n -> prev n' = prev n -> child n' = child n -> n' = n.
Proof. destruct n, n'. intros []. cbn in *. intros. by subst. Qed.

Lemma owned_by_data N N' ds : (forall p n, p ∈ ds -> N !! p = Some n -> exists n', N' !! p = Some n' /\ same_data n n') ->
  (forall p, p ∈ ds -> is_Some (N !! p)) -> owned_by N' ds = owned_by N ds.
Proof.
  intros HN Hin. induction ds as [|p ds IH]; [done|]. destruct (Hin p ltac:(by left)) as [n Hn]. destruct (HN p n ltac:(by left) Hn) as (n' & Hn' & D).
  rewrite (owned_by_cons _ _ _ _ Hn), (owned_by_cons _ _ _ _ Hn'), (data_owns _ _ D), IH; [done|..]; intros; [eapply HN; [|done]|apply Hin]; by right.
Qed.

Lemma fresh_in h K h' K' q ds p : fresh_tree h K h' K' q ds -> p ∈ ds -> is_Some (nodes h' !! p).
Proof. intros F Hp. apply (linked_dom _ _ (rep_linked _ _ _ (ft_rep _ _ _ _ _ _ F))). eapply forest_dom; [by eapply ft_forest|done]. Qed.
Lemma fresh_known h K h' K' q ds p : represents R h K -> fresh_tree h K h' K' q ds -> is_Some (K !! p) -> p ∉ ds /\ K' !! p = K !! p.
Proof.
  intros Rep F [l Hl]. split.
  - intros Hp%(ft_new _ _ _ _ _ _ F). destruct (proj1 (linked_dom _ _ (rep_linked _ _ _ Rep) p) ltac:(by eexists)). congruence.
  - rewrite Hl. eapply lookup_weaken; [exact Hl|by eapply ft_K].
Qed.

(** The roots stay roots. *)
Lemma fresh_root h K h' K' q ds x : represents R h K -> fresh_tree h K h' K' q ds -> is_root K x -> is_Some (nodes h !! x) -> is_root K' x.
Proof.
  intros Rep F Hr [n Hx] p l Hl Hin. destruct (K !! p) as [l0|] eqn:E.
  - destruct (fresh_known _ _ _ _ _ _ p Rep F ltac:(by eexists)) as [_ E']. rewrite E' in Hl. by eapply (Hr p l); [congruence|].
  - assert (p ∈ ds) as Hp.
    { destruct (ft_dom _ _ _ _ _ _ F p) as [Hin'|?]; [|apply (linked_dom _ _ (rep_linked _ _ _ Rep)) in Hin'; rewrite E in Hin'; by destruct Hin'|done].
      apply (linked_dom _ _ (rep_linked _ _ _ (ft_rep _ _ _ _ _ _ F))). by eexists. }
    pose proof (forest_kids _ _ _ _ _ _ (ft_forest _ _ _ _ _ _ F) Hp Hl Hin) as Hxd. rewrite (ft_new _ _ _ _ _ _ F x Hxd) in Hx. done.
Qed.

(** A copy under construction: the new node [q] has the children [l], which stand for [ts]. *)
Record growing h K h1 K1 (q : ptr) (n : node) ds (l : list ptr) (ts : list cJSON) : Prop := {
  gr_fresh : fresh_tree h K h1 K1 q ds;
  gr_kids : K1 !! q = Some l;
  gr_node : exists n1, nodes h1 !! q = Some n1 /\ same_data n n1;
  gr_reference : is_reference n = false;
  gr_denotes : kdenotes (nodes h1) (strs h1) K1 l ts
}.

Lemma forest_single K q l ds : forest K [q] ds -> K !! q = Some l -> exists ks, ds = q :: ks /\ forest K l ks.
Proof. intros F Hl. inversion F as [|? ? ? ks rs Hq F1 F2]; subst. inversion F2; subst. exists ks. rewrite app_nil_r. split; [done|congruence]. Qed.

Lemma attach_run h1 q l k : (forall z, last l = Some z -> is_Some (nodes h1 !! z)) -> is_Some (nodes h1 !! q) -> is_Some (nodes h1 !! k) ->
  (match last l with Some z => suffix_object z k | None => update q (set_child (Some k)) end) h1 = Ret ((), with_nodes (append_nodes (nodes h1) q l k) h1).
Proof.
  intros Hz Hq Hk. unfold append_nodes. destruct (last l) as [z|]; [|by apply update_run]. unfold suffix_object.
  rewrite (runs _ _ _ _ _ (update_run z _ h1 (Hz z eq_refl))). apply update_run'. by apply (alter_opt_some _ (Some z)).
Qed.

Lemma growing_attach h K h1 K1 q n ds1 l ts h2 K2 k ds2 t :
  represents R h K -> growing h K h1 K1 q n ds1 l ts -> fresh_tree h1 K1 h2 K2 k ds2 -> kdenotes (nodes h2) (strs h2) K2 [k] [t] ->
  exists ds, growing h K (with_nodes (append_nodes (nodes h2) q l k) h2) (<[q := l ++ [k]]> K2) q n ds (l ++ [k]) (ts ++ [t]).
Proof.
  intros Rep [F1 Hl (n1 & Hn1 & D1) Href Hden] F2 Hk. pose proof (ft_rep _ _ _ _ _ _ F1) as Rep1. pose proof (ft_rep _ _ _ _ _ _ F2) as Rep2.
  assert (is_Some (nodes h1 !! q)) as Hq1 by (by eexists). assert (nodes h2 !! q = Some n1) as Hq2 by (by eapply lookup_weaken; [|eapply ft_nodes]).
  destruct (fresh_known _ _ _ _ _ _ q Rep1 F2 ltac:(by eexists)) as [Hqds2 EK2]. rewrite Hl in EK2.
  assert (k ∈ ds2) as Hkds by (eapply forest_roots; [by eapply ft_forest|by left]). assert (k <> q) as Hkq by congruence.
  destruct (forest_single _ _ _ _ (ft_forest _ _ _ _ _ _ F1) Hl) as (ks & -> & Fks). pose proof (ft_nodup _ _ _ _ _ _ F1) as [Hqks Hndks]%NoDup_cons.
  assert (is_reference n1 = false) as Href1 by (by rewrite (data_reference _ _ D1)).
  pose proof (append_relinks _ _ _ _ _ _ (rep_linked _ _ _ Rep2) EK2 Hq2 Href1 (ft_root _ _ _ _ _ _ F2) (fresh_in _ _ _ _ _ _ _ F2 Hkds) Hkq) as Rl.
  set (N3 := append_nodes (nodes h2) q l k) in *. pose proof (relinks_evolves _ _ _ _ _ Rl) as E.
  destruct (linked_nodup _ _ (rep_linked _ _ _ Rep2) q l EK2) as [Hndl Hql]. pose proof (ft_root _ _ _ _ _ _ F2 q l EK2) as Hkl.
  destruct (relinks_rep R h2 K2 q l (l ++ [k]) n1 N3 Rep2 EK2 Hq2 Href1 Rl) as [Rep3 _].
  { apply nodup_insert; by rewrite app_nil_r. }
  { rewrite elem_of_app, list_elem_of_singleton. intros [?|?]; congruence. }
  { intros x [?| ->%list_elem_of_singleton]%elem_of_app Hx; [done|]. by eapply ft_root. }
  assert (forall p m, nodes h2 !! p = Some m -> exists m', N3 !! p = Some m' /\ same_data m m') as Hdata.
  { intros p m Hm. destruct (evolves_some _ _ _ _ _ _ E Hm) as (m' & ? & D & _). eauto. }
  assert (forall p, p ∈ l -> p ∈ ks) as Hlks by (intros; by eapply forest_roots).
  assert (forall p, is_Some (nodes h !! p) -> p ∉ q :: ks) as Hold by (intros p [m Hm] Hp%(ft_new _ _ _ _ _ _ F1); congruence).
  assert (forall p, p ∈ ds2 -> p ∉ q :: ks) as Hdisj.
  { intros p Hp Hp'. pose proof (ft_new _ _ _ _ _ _ F2 p Hp) as Hnone. destruct (fresh_in _ _ _ _ _ _ p F1 Hp'). congruence. }
  assert (owned_by N3 (q :: ks) = owned_by (nodes h1) (q :: ks)) as Eo1.
  { apply owned_by_data; [|intros; by eapply fresh_in]. intros p m _ Hm. eapply Hdata, lookup_weaken; [exact Hm|by eapply ft_nodes]. }
  assert (owned_by N3 ds2 = owned_by (nodes h2) ds2) as Eo2 by (apply owned_by_data; [intros; by eapply Hdata|intros; by eapply fresh_in]).
  assert (forall p, p ∈ ks -> <[q := l ++ [k]]> K2 !! p = K1 !! p) as HK3.
  { intros p Hp. rewrite lookup_insert_ne by congruence. apply (fresh_known _ _ _ _ _ _ p Rep1 F2). eapply forest_dom; [by eapply ft_forest|by right]. }
  assert (forall p, p ∈ ds2 -> <[q := l ++ [k]]> K2 !! p = K2 !! p) as HK3' by (intros p Hp; apply lookup_insert_ne; congruence).
  exists ((q :: ks) ++ ds2). split; [split|..].
  - exact Rep3.
  - cbn. apply map_subseteq_spec. intros p m Hm. assert (nodes h2 !! p = Some m) as Hm2.
    { eapply lookup_weaken; [eapply lookup_weaken; [exact Hm|by eapply ft_nodes]|by eapply ft_nodes]. }
    destruct (evolves_some _ _ _ _ _ _ E Hm2) as (m' & Hm' & D & HS & HC). rewrite Hm'. f_equal. assert (p ∉ q :: ks) as Hp by (apply Hold; by eexists).
    rewrite not_elem_of_cons in Hp. destruct Hp as [Hpq Hpk]. assert (p <> k) as Hpk'.
    { intros ->. pose proof (ft_new _ _ _ _ _ _ F2 k Hkds) as Hnone. rewrite (lookup_weaken _ _ _ _ Hm (ft_nodes _ _ _ _ _ _ F1)) in Hnone. done. }
    destruct HS as [[?|[?|?%list_elem_of_singleton]%elem_of_app]|[? ?]]; [by destruct Hpk; apply Hlks..|done|]. destruct HC as [?|?]; [congruence|]. by apply node_eq.
  - etrans; [by eapply ft_strs|]. by eapply (ft_strs _ _ _ _ _ _ F2).
  - apply map_subseteq_spec. intros p x Hx. rewrite lookup_insert_ne.
    + eapply lookup_weaken; [eapply lookup_weaken; [exact Hx|by eapply ft_K]|by eapply ft_K].
    + intros <-. destruct (fresh_known _ _ _ _ _ _ q Rep F1 ltac:(by eexists)) as [Hx' _]. apply Hx'. by left.
  - intros p Hp. cbn in Hp. rewrite elem_of_app.
    assert (is_Some (nodes h2 !! p)) as [[? |?]%(ft_dom _ _ _ _ _ _ F1)|?]%(ft_dom _ _ _ _ _ _ F2); auto.
    destruct Hp as [m' Hm']. destruct (evolves_some_inv _ _ _ _ _ _ E Hm') as (m & -> & _). by eexists.
  - intros p [Hp|Hp]%elem_of_app; [by eapply ft_new|]. pose proof (ft_new _ _ _ _ _ _ F2 p Hp) as Hnone.
    destruct (nodes h !! p) eqn:Ep; [|done]. by rewrite (lookup_weaken _ _ _ _ Ep (ft_nodes _ _ _ _ _ _ F1)) in Hnone.
  - intros s Hs. cbn [nodes with_nodes] in *. rewrite owned_by_app, elem_of_app, Eo1, Eo2. destruct (ft_sdom _ _ _ _ _ _ F2 s Hs) as [[?|?]%(ft_sdom _ _ _ _ _ _ F1)|?]; auto.
  - intros s. cbn [nodes with_nodes]. rewrite owned_by_app, elem_of_app, Eo1, Eo2. intros [Hs|Hs]; [by eapply ft_snew|].
    pose proof (ft_snew _ _ _ _ _ _ F2 s Hs) as Hnone. destruct (strs h !! s) eqn:Ep; [|done]. by rewrite (lookup_weaken _ _ _ _ Ep (ft_strs _ _ _ _ _ _ F1)) in Hnone.
  - intros p x. destruct (decide (p = q)) as [->|Hne].
    + rewrite lookup_insert_eq. intros [= <-]. rewrite elem_of_app, list_elem_of_singleton. intros [?|?]; congruence.
    + rewrite lookup_insert_ne by done. by apply (fresh_root _ _ _ _ _ _ q Rep1 F2 (ft_root _ _ _ _ _ _ F1) Hq1).
  - cbn [app]. rewrite <-(app_nil_r (ks ++ ds2)). apply (forest_cons _ q [] (l ++ [k]) (ks ++ ds2) []); [by rewrite lookup_insert_eq| |constructor].
    apply forest_app; [eapply forest_frame; [exact Fks|exact HK3]|eapply forest_frame; [by eapply ft_forest|exact HK3']].
  - apply NoDup_app. split_and!; [by constructor| |by eapply ft_nodup]. intros p Hp Hp'. by eapply Hdisj.
  - by rewrite lookup_insert_eq.
  - destruct (Hdata q n1 Hq2) as (n3 & ? & D3). exists n3. split; [done|by eapply same_data_trans].
  - done.
  - apply kdenotes_app.
    + eapply kdenotes_frame; [exact Fks|exact Hden|by eapply (ft_strs _ _ _ _ _ _ F2)|exact HK3|].
      intros p m Hp Hm. eapply Hdata, lookup_weaken; [exact Hm|by eapply ft_nodes].
    + eapply kdenotes_frame; [by eapply ft_forest|exact Hk|done|exact HK3'|]. intros p m _ Hm. by eapply Hdata.
Qed.

(** What a call of [duplicate] on an item that stands for [t] leaves: a copy, or nothing and no new block. *)
Definition dup_post h K (o : option ptr) h' (t : cJSON) : Prop :=
  (plenty -> is_Some o) /\
  match o with
  | None => nodes h' = nodes h /\ strs h' = strs h
  | Some q => exists K' ds, fresh_tree h K h' K' q ds /\ kdenotes (nodes h') (strs h') K' [q] [copy_of t]
  end.

Lemma growing_same h K h1 h2 K1 q n ds l ts :
  nodes h2 = nodes h1 -> strs h2 = strs h1 -> growing h K h1 K1 q n ds l ts -> growing h K h2 K1 q n ds l ts.
Proof.
  intros EN ES [[Rep HN HS HK Hd Hnew Hsd Hsnew Hr F Hnd] Hl Hn Href Hden]. split; rewrite ?EN, ?ES; try done. split; rewrite ?EN, ?ES; try done. by eapply represents_same.
Qed.

(** The children [child] of the source, whose copies [dup] makes. *)
Lemma copy_children_run dup h K q n child src :
  represents R h K -> denotes (nodes h) (strs h) child src ->
  (forall c t rest, denotes (nodes h) (strs h) (Some c) (t :: rest) -> t ∈ src -> forall h1 K1, represents R h1 K1 -> nodes h ⊆ nodes h1 -> strs h ⊆ strs h1 ->
     exists o h2, dup (Some c) h1 = Ret (o, h2) /\ dup_post h1 K1 o h2 t) ->
  forall fuel h1 K1 ds l ts, (length src <= fuel)%nat -> growing h K h1 K1 q n ds l ts ->
  exists ok h2 K2 ds2 l2 ts2, copy_children dup fuel q child (last l) h1 = Ret (ok, h2) /\ (plenty -> ok = true) /\ strs h1 ⊆ strs h2 /\
    growing h K h2 K2 q n ds2 l2 ts2 /\ (ok = true -> ts2 = ts ++ (copy_of <$> src)).
Proof.
  intros Rep Hd. induction Hd as [|c nc vs st cts rest Hc Hv Hs Hd1 _ Hd2 IH]; intros Hdup fuel h1 K1 ds l ts Hf Hg.
  { exists true, h1, K1, ds, l, ts. split_and!; [by destruct fuel|done|done|done|]. cbn. by rewrite app_nil_r. }
  destruct fuel as [|fuel]; cbn [length] in Hf; [lia|]. cbn [copy_children]. set (t := Item _ _ _ _ _ _) in *.
  pose proof (gr_fresh _ _ _ _ _ _ _ _ _ Hg) as F1.
  destruct (Hdup c t rest) with (h1 := h1) (K1 := K1) as (o & h2 & Hrun & Hpl & Hpost); [by econstructor|by left|by eapply ft_rep|by eapply ft_nodes|by eapply ft_strs|].
  rewrite (runs _ _ _ _ _ Hrun). destruct o as [k|].
  2: { destruct Hpost as [EN ES]. exists false, h2, K1, ds, l, ts. split_and!; [done| |by rewrite ES|by eapply growing_same|done]. intros Hp. by destruct (Hpl Hp). }
  destruct Hpost as (K2 & ds2 & F2 & Hk). destruct (growing_attach _ _ _ _ _ _ _ _ _ _ _ _ _ _ Rep Hg F2 Hk) as (ds3 & Hg3).
  rewrite (runs _ _ _ () (with_nodes (append_nodes (nodes h2) q l k) h2)).
  2: { destruct (gr_node _ _ _ _ _ _ _ _ _ Hg) as (n1 & Hn1 & _). apply attach_run.
       - intros z Hz%last_in. destruct (linked_in _ _ _ _ z (rep_linked _ _ _ (ft_rep _ _ _ _ _ _ F1)) (gr_kids _ _ _ _ _ _ _ _ _ Hg) Hz) as [nz ?].
         exists nz. eapply lookup_weaken; [done|by eapply ft_nodes].
       - exists n1. eapply lookup_weaken; [done|by eapply ft_nodes].
       - eapply fresh_in; [exact F2|]. eapply forest_roots; [by eapply ft_forest|by left]. }
  set (h3 := with_nodes _ h2) in *. assert (nodes h3 !! c = Some nc) as Hc3 by (eapply lookup_weaken; [exact Hc|eapply ft_nodes, gr_fresh; exact Hg3]).
  rewrite (runs _ _ _ _ _ (load_run c nc h3 Hc3)). rewrite <-(last_snoc k l).
  destruct (IH ltac:(intros; eapply Hdup; [done|by right|done..]) fuel h3 _ ds3 (l ++ [k]) _ ltac:(lia) Hg3) as (ok & h4 & K4 & ds4 & l4 & ts4 & Hrun4 & Hpl4 & HS4 & Hg4 & Hts).
  exists ok, h4, K4, ds4, l4, ts4. split_and!; [exact Hrun4|done| |done|].
  - etrans; [by eapply (ft_strs _ _ _ _ _ _ F2)|exact HS4].
  - intros Hok. by rewrite (Hts Hok), <-app_assoc.
Qed.

Lemma growing_start h K h1 q n : fresh_node h K h1 q n -> is_reference n = false -> growing h K h1 (<[q := []]> K) q n [q] [] [].
Proof.
  intros [F EN] Href. split; [done|by rewrite lookup_insert_eq| |done|constructor]. exists n. rewrite EN, lookup_insert_eq. split; [done|apply same_data_refl].
Qed.

(** The end of a failed copy. *)
Lemma abandon_run h K h1 K1 q ds t : represents R h K -> fresh_tree h K h1 K1 q ds -> (plenty -> False) ->
  exists o h', (_ ← cJSON_Delete (Some q); mret None) h1 = Ret (o, h') /\ dup_post h K o h' t.
Proof.
  intros Rep F Hpl. destruct (fresh_tree_undo _ _ _ _ _ _ Rep F) as (h2 & Hrun & EN & ES & _). exists None, h2. rewrite (runs _ _ _ _ _ Hrun).
  split; [done|]. split; [intros Hp; by destruct (Hpl Hp)|done].
Qed.

Lemma duplicate_run fuel : forall h K i n vs st ts,
  represents R h K -> nodes h !! i = Some n -> text_of (strs h) (valuestring n) = Some vs -> text_of (strs h) (string n) = Some st ->
  denotes (nodes h) (strs h) (child n) ts -> let t := Item (type n) vs (valueint n) (valuedouble n) st ts in (need t <= fuel)%nat ->
  exists o h', duplicate fuel (Some i) true h = Ret (o, h') /\ dup_post h K o h' t.
Proof.
  induction fuel as [|fuel IH]; intros h K i n vs st ts Rep Hi Hv Hs Hd t Hn; cbn [need t] in Hn; [lia|]. apply le_S_n in Hn. cbn [duplicate].
  destruct (New_Item_run h K Rep) as (o & h1 & Hnew & ES1 & Hpl1 & Ho). rewrite (runs _ _ _ _ _ Hnew). destruct o as [q|].
  2: { exists None, h1. split; [done|]. split; [intros Hp; by destruct (Hpl1 Hp)|done]. }
  destruct (copy_fields_run h K h1 i n q vs st Ho ES1 Hi Hv Hs) as (ok & h2 & n2 & Hcf & F2 & Hpl2 & Hfields). rewrite (runs _ _ _ _ _ Hcf).
  destruct ok; cbn [andb].
  2: { rewrite (runs _ _ _ false h2) by done. eapply abandon_run; [done|by destruct F2|]. intros Hp. by specialize (Hpl2 Hp). }
  pose proof (Hfields eq_refl) as Hf. clear Hfields Hpl2. pose proof (growing_start _ _ _ _ _ F2 (cf_reference _ _ _ _ _ Hf)) as Hg.
  assert (nodes h2 !! i = Some n) as Hi2 by (eapply lookup_weaken; [exact Hi|eapply ft_nodes, F2]).
  destruct (copy_children_run (fun c => duplicate fuel c true) h K q n2 (child n) ts Rep Hd) with (fuel := fuel) (h1 := h2) (K1 := <[q := []]> K) (ds := [q]) (l := [] : list ptr) (ts := [] : list cJSON)
    as (ok & h3 & K3 & ds3 & l3 & ts3 & Hrun3 & Hpl3 & HS3 & Hg3 & Hts).
  { intros c t' rest Hc Ht h1' K1' Rep' HN HS. inversion Hc as [|? nc vsc stc tsc ? Hnc Hvc Hsc Hdc]; subst.
    eapply IH; [exact Rep'|by eapply lookup_weaken|by eapply text_of_mono..|by eapply denotes_mono|]. pose proof (need_child _ _ Ht). lia. }
  { lia. }
  { exact Hg. }
  rewrite (runs _ _ _ ok h3) by (rewrite (runs _ _ _ _ _ (load_run i n h2 Hi2)); exact Hrun3).
  destruct ok.
  - exists (Some q), h3. split; [done|]. split; [by eexists|]. exists K3, ds3. split; [by eapply gr_fresh|].
    destruct (gr_node _ _ _ _ _ _ _ _ _ Hg3) as (n3 & Hn3 & [E1 E2 E3 E4 E5]). pose proof (gr_denotes _ _ _ _ _ _ _ _ _ Hg3) as Hden. rewrite (Hts eq_refl) in Hden. cbn [app] in Hden.
    destruct Hf as [T1 T2 T3 T4 T5 _]. cbn [copy_of t]. rewrite <-T1, <-T2, <-T3, <-E1, <-E3, <-E4.
    eapply kdenotes_cons; [exact Hn3|by eapply gr_kids|rewrite E2; by eapply text_of_mono|rewrite E5; by eapply text_of_mono|exact Hden|constructor].
  - eapply abandon_run; [done|by eapply gr_fresh|]. intros Hp. by specialize (Hpl3 Hp).
Qed.
End Fresh.

(** ** The depth of a tree in memory *)

Section Depth.
Context `{CDouble}.
Implicit Types (N : gmap ptr node) (S : gmap ptr bytes).

(** The node [i] stands for [t]. *)
Definition item_denotes N S (i : ptr) (t : cJSON) : Prop :=
  exists n vs st ts, N !! i = Some n /\ text_of S (valuestring n) = Some vs /\ text_of S (string n) = Some st /\ denotes N S (child n) ts /\
    t = Item (type n) vs (valueint n) (valuedouble n) st ts.

Lemma item_denotes_fun N S i t t' : item_denotes N S i t -> item_denotes N S i t' -> t = t'.
Proof.
  intros (n & vs & st & ts & Hn & Hv & Hs & Hd & ->) (n' & vs' & st' & ts' & Hn' & Hv' & Hs' & Hd' & ->). assert (n' = n) as -> by congruence.
  rewrite (denotes_fun _ _ _ _ _ Hd' Hd). congruence.
Qed.

Fixpoint tree_size (t : cJSON) : nat :=
  match t with Item _ _ _ _ _ ch => Datatypes.S (foldr (fun t m => tree_size t + m)%nat 0%nat ch) end.
Lemma tree_size_child (ch : list cJSON) t : t ∈ ch -> (tree_size t <= foldr (fun t m => tree_size t + m) 0 ch)%nat.
Proof. induction 1; cbn; lia. Qed.

(** The nodes of a chain are different. *)
Lemma chain_nodes N S o ts : denotes N S o ts ->
  exists cs, length cs = length ts /\ NoDup cs /\ (forall c, c ∈ cs -> exists t, t ∈ ts /\ item_denotes N S c t) /\
    (forall t, t ∈ ts -> exists c, item_denotes N S c t) /\ (forall c, c ∈ cs -> exists ts', denotes N S (Some c) ts' /\ (length ts' <= length ts)%nat).
Proof.
  intros D. induction D as [|p n vs st ts rest Hn Hv Hs D1 _ D2 (cs & Hlen & Hnd & Hitem & Hall & Hshort)].
  { exists []. split_and!; [done|constructor|..]; by intros ? ?%elem_of_nil. }
  assert (item_denotes N S p (Item (type n) vs (valueint n) (valuedouble n) st ts)) as Hp by (by exists n, vs, st, ts).
  exists (p :: cs). split_and!; cbn [length].
  - by rewrite Hlen.
  - constructor; [|done]. intros (ts' & D' & Hle)%Hshort. assert (denotes N S (Some p) (Item (type n) vs (valueint n) (valuedouble n) st ts :: rest)) as D0 by by econstructor.
    rewrite (denotes_fun _ _ _ _ _ D' D0) in Hle. cbn in Hle. lia.
  - intros c [->|Hc]%elem_of_cons; [eexists; split; [by left|done]|]. destruct (Hitem c Hc) as (t & Ht & ?). exists t. split; [by right|done].
  - intros t [->|Ht]%elem_of_cons; [by exists p|by apply Hall].
  - intros c [->|Hc]%elem_of_cons; [eexists; split; [by econstructor|done]|]. destruct (Hshort c Hc) as (ts' & ? & ?). exists ts'. split; [done|lia].
Qed.

(** [path] are the nodes above. *)
Lemma need_path N S t : forall i path, item_denotes N S i t -> NoDup path ->
  (forall a, a ∈ path -> exists ta, item_denotes N S a ta /\ (tree_size t < tree_size ta)%nat) -> (need t + length path <= Datatypes.S (size N))%nat.
Proof.
  induction t as [ty vs vi vd st ch IH] using cJSON_ind'. intros i path Hi Hnd Hpath. rewrite Forall_forall in IH.
  assert (i ∉ path) as Hip.
  { intros (ta & Ha & Hlt)%Hpath. rewrite (item_denotes_fun _ _ _ _ _ Ha Hi) in Hlt. lia. }
  assert (denotes N S (match N !! i with Some n => child n | None => None end) ch) as Hch.
  { destruct Hi as (n & vs' & st' & ts & -> & _ & _ & Hd & [= _ _ _ _ _ <-]). done. }
  destruct (chain_nodes _ _ _ _ Hch) as (cs & Hlen & Hndc & Hitem & Hall & _).
  assert (forall a, a ∈ i :: path -> forall t, t ∈ ch -> exists ta, item_denotes N S a ta /\ (tree_size t < tree_size ta)%nat) as Habove.
  { intros a Ha t Ht. pose proof (tree_size_child _ _ Ht). apply elem_of_cons in Ha as [->|(ta & Hta & Hlt)%Hpath].
    - eexists. split; [exact Hi|]. cbn. lia.
    - exists ta. split; [done|]. cbn [tree_size] in Hlt. lia. }
  assert (length (cs ++ i :: path) <= size N)%nat as Hsize.
  { apply nodup_size.
    - apply NoDup_app. split_and!; [done| |by constructor]. intros c (t & Ht & Hc)%Hitem Ha. destruct (Habove c Ha t Ht) as (ta & Hta & Hlt).
      rewrite (item_denotes_fun _ _ _ _ _ Hta Hc) in Hlt. lia.
    - assert (forall a t, item_denotes N S a t -> is_Some (N !! a)) as Hsome by (intros a t (n & ? & ? & ? & -> & _); by eexists).
      intros a [(t & _ & Hc)%Hitem|[->|(ta & Hta & _)%Hpath]%elem_of_cons]%elem_of_app; eauto. }
  rewrite length_app in Hsize. cbn [length] in Hsize. cbn [need].
  assert (foldr (fun t m => max (need t) m) 0 ch + Datatypes.S (length path) <= Datatypes.S (size N))%nat as Hdeep; [|lia].
  clear Hch Hlen Hitem Hndc. assert (forall t, t ∈ ch -> need t + Datatypes.S (length path) <= Datatypes.S (size N))%nat as Hkids.
  { intros t Ht. destruct (Hall t Ht) as [c Hc]. apply (IH t Ht c (i :: path) Hc); [by constructor|]. intros a Ha. by apply Habove. }
  clear -Hkids Hsize. induction ch as [|t ch IHch]; cbn; [lia|]. pose proof (Hkids t ltac:(by left)). 
  assert (foldr (fun t m => max (need t) m) 0 ch + Datatypes.S (length path) <= Datatypes.S (size N))%nat by (apply IHch; intros; apply Hkids; by right). lia.
Qed.

Lemma need_bound N S i t : item_denotes N S i t -> (need t <= Datatypes.S (size N))%nat.
Proof. intros Hi. pose proof (need_path N S t i [] Hi (NoDup_nil_2) ltac:(by intros ? ?%elem_of_nil)). cbn in *. lia. Qed.
End Depth.

(** ** Claims *)

Section Claims.
Context `{CDouble} `{!Allocator}.

(** C25: [cJSON_Duplicate] of an item returns for every tree in memory.  It leaves all nodes and strings
    as they were and gives a new tree with nodes and strings of its own, which has the values, names and
    children of the item, with targets copied in the place of references; when memory runs out on the way it
    returns a null pointer and frees everything it has allocated. *)
Theorem cJSON_Duplicate_copies R h K i t :
  represents R h K -> item_denotes (nodes h) (strs h) i t ->
  exists o h', cJSON_Duplicate (Some i) true h = Ret (o, h') /\ (plenty -> is_Some o) /\
    match o with
    | None => nodes h' = nodes h /\ strs h' = strs h
    | Some q => exists K' ds, fresh_tree R h K h' K' q ds /\ kdenotes (nodes h') (strs h') K' [q] [copy_of t]
    end.
Proof.
  intros Rep Hi. pose proof (need_bound _ _ _ _ Hi) as Hneed. destruct Hi as (n & vs & st & ts & Hn & Hv & Hs & Hd & ->).
  unfold cJSON_Duplicate. rewrite (runs _ _ _ (fuel_of h) h) by done.
  destruct (duplicate_run R (fuel_of h) h K i n vs st ts Rep Hn Hv Hs Hd Hneed) as (o & h' & Hrun & Hpl & Hpost). exists o, h'. done.
Qed.
End Claims.

(** ** A copy *)

(** The array of the example with a number in it. *)
Definition filled : heap := with_nodes (append_nodes (nodes example) 1 [] 2) example.

Lemma filled_represents : represents ∅ filled (<[1%nat := [2%nat]]> example_children).
Proof.
  assert (is_root example_children 2) as Hr by (apply (bool_decide_unpack _); vm_compute; exact I).
  apply (relinks_represents ∅ example example_children 1 [] [2%nat]).
  - apply example_represents.
  - reflexivity.
  - apply (append_relinks (nodes example) example_children 1 [] 2 (item cJSON_Array)); [apply example_represents|reflexivity..|done|by eexists|done].
  - apply NoDup_singleton.
  - apply (bool_decide_unpack _). exact I.
  - intros q ->%list_elem_of_singleton _. exact Hr.
Qed.

Definition number : @cJSON int_double := Item cJSON_Number None 0 (valuedouble blank) None [].

Lemma cJSON_Duplicate_copies_witness :
  exists q h' K' ds, cJSON_Duplicate (Some 1%nat) true filled = Ret (Some q, h') /\
    kdenotes (nodes h') (strs h') K' [q] [Item cJSON_Array None 0 (valuedouble blank) None [number]] /\ fresh_tree ∅ filled (<[1%nat := [2%nat]]> example_children) h' K' q ds.
Proof.
  destruct (cJSON_Duplicate_copies ∅ filled (<[1%nat := [2%nat]]> example_children) 1 (Item cJSON_Array None 0 (valuedouble blank) None [number])) as (o & h' & Hrun & Hpl & Hpost).
  - apply filled_represents.
  - eexists _, _, _, _. split; [reflexivity|]. split; [reflexivity|]. split; [reflexivity|]. split; [|reflexivity].
    refine (denotes_cons (nodes filled) (strs filled) 2%nat (item cJSON_Number) None None [] [] _ _ _ _ _); [reflexivity|reflexivity|reflexivity|constructor|constructor].
  - destruct Hpl as [q ->]; [intros n used; by eexists|]. destruct Hpost as (K' & ds & Hf & Hd). exists q, h', K', ds. done.
Defined.
