(* ===== verification/JsonMinify.v ===== *)
(** Removal of white space and comments from JSON text: [cJSON_Minify] of src/json/cJSON.c. *)

From S2P Require Import Prelude Json JsonPrint JsonRender JsonNum JsonRoundTrip.

(** ** The function *)

Definition slash : Z := 47.
Definition star : Z := 42.
Definition newline : Z := 10.

(** The buffer, and the offsets of [json] and [into] in it. *)
Definition state : Type := bytes * Z * Z.

(** [*into++ = *json++] *)
Definition copy (st : state) : outcome state :=
  let '(mem, json, into) := st in
  c ← mem_get mem json; mem ← mem_set mem into c; Ret (mem, json + 1, into + 1).

(** [while ( *json && *json != '\n') json++] *)
Fixpoint skip_line (fuel : nat) (mem : bytes) (json : Z) : outcome Z :=
  match fuel with
  | O => Undef
  | S fuel =>
      c ← mem_get mem json;
      if (c =? 0) || (c =? newline) then Ret json else skip_line fuel mem (json + 1)
  end.

(** The loop over a comment in slashes and stars, up to the closing pair. *)
Fixpoint skip_block (fuel : nat) (mem : bytes) (json : Z) : outcome Z :=
  match fuel with
  | O => Undef
  | S fuel =>
      c ← mem_get mem json;
      if c =? 0 then Ret json
      else if c =? star then
        d ← mem_get mem (json + 1);
        if d =? slash then Ret json else skip_block fuel mem (json + 1)
      else skip_block fuel mem (json + 1)
  end.

(** The loop over the inside of a string. *)
Fixpoint copy_string (fuel : nat) (st : state) : outcome state :=
  match fuel with
  | O => Undef
  | S fuel =>
      c ← mem_get st.1.1 st.1.2;
      if (c =? 0) || (c =? quote) then Ret st
      else
        st ← (if c =? backslash then copy st else Ret st);
        st ← copy st;
        copy_string fuel st
  end.

Definition is_space (c : Z) : bool := (c =? 32) || (c =? 9) || (c =? 13) || (c =? newline).

Fixpoint minify_loop (fuel : nat) (st : state) : outcome state :=
  match fuel with
  | O => Undef
  | S fuel =>
      let '(mem, json, into) := st in
      c ← mem_get mem json;
      if c =? 0 then Ret st
      else if is_space c then minify_loop fuel (mem, json + 1, into)
      else
        d ← (if c =? slash then mem_get mem (json + 1) else Ret 0);
        if (c =? slash) && (d =? slash) then
          json ← skip_line fuel mem json; minify_loop fuel (mem, json, into)
        else if (c =? slash) && (d =? star) then
          json ← skip_block fuel mem json; minify_loop fuel (mem, json + 2, into)
        else if c =? quote then
          st ← copy st; st ← copy_string fuel st; st ← copy st; minify_loop fuel st
        else st ← copy st; minify_loop fuel st
  end.

(** The buffer after the call; each step of a loop passes a byte of it. *)
Definition cJSON_Minify (json : option bytes) : outcome (option bytes) :=
  match json with
  | None => Ret None
  | Some mem =>
      '(mem, _, into) ← minify_loop (S (length mem)) (mem, 0, 0);
      mem ← mem_set mem into 0;
      Ret (Some mem)
  end.

(** ** The text it leaves *)

(** The inside of a string, every backslash followed by a character. *)
Inductive string_body : bytes -> Prop :=
| body_nil : string_body []
| body_plain c s : c <> 0 -> c <> quote -> c <> backslash -> string_body s -> string_body (c :: s)
| body_escape c s : c <> 0 -> string_body s -> string_body (backslash :: c :: s).

(** The pair that closes a comment does not occur. *)
Fixpoint no_close (s : bytes) : Prop :=
  match s with
  | a :: r => a <> 0 /\ match r with b :: _ => ~ (a = star /\ b = slash) | [] => True end /\ no_close r
  | [] => True
  end.

(** [minifies t u]: the text [t], with complete strings and comments, becomes [u]. *)
Inductive minifies : bytes -> bytes -> Prop :=
| min_nil : minifies [] []
| min_space c t u : is_space c = true -> minifies t u -> minifies (c :: t) u
| min_other c t u : c <> 0 -> is_space c = false -> c <> slash -> c <> quote -> minifies t u -> minifies (c :: t) (c :: u)
| min_string s t u : string_body s -> minifies t u -> minifies (quote :: s ++ quote :: t) (quote :: s ++ quote :: u)
| min_slash c t u : c <> slash -> c <> star -> minifies (c :: t) u -> minifies (slash :: c :: t) (slash :: u)
| min_line s t u : Forall (fun c => c <> 0 /\ c <> newline) s -> minifies t u -> minifies (slash :: slash :: s ++ newline :: t) u
| min_block s t u : no_close (star :: s ++ [star]) -> minifies t u -> minifies (slash :: star :: s ++ star :: slash :: t) u.

Lemma minifies_app t1 u1 t2 u2 : minifies t1 u1 -> minifies t2 u2 -> minifies (t1 ++ t2) (u1 ++ u2).
Proof.
  intros H1 H2. induction H1; cbn [app]; rewrite <-?app_assoc; cbn [app]; [done|..]; by constructor.
Qed.

(** ** The run *)

(** The text still to be read follows a gap that [into] has left behind. *)
Definition at_text (dn gap t : bytes) : state := (dn ++ gap ++ t, zlen dn + zlen gap, zlen dn).

Lemma read_text (dn gap t : bytes) c : mem_get (dn ++ gap ++ c :: t) (zlen dn + zlen gap) = Ret c.
Proof.
  rewrite <-zlen_app, app_assoc. unfold zlen. apply mem_get_nat. by rewrite lookup_app_r, Nat.sub_diag by done.
Qed.
Lemma read_next (dn gap t : bytes) c d : mem_get (dn ++ gap ++ c :: d :: t) (zlen dn + zlen gap + 1) = Ret d.
Proof.
  pose proof (read_text dn (gap ++ [c]) t d) as E. rewrite zlen_app, <-(app_assoc gap) in E. cbn [app] in E. rewrite <-E. f_equal. change (zlen [c]) with 1. lia.
Qed.

(** Skipping widens the gap. *)
Lemma skip_text (dn gap s t : bytes) : (dn ++ gap ++ s ++ t, zlen dn + zlen gap + zlen s, zlen dn) = at_text dn (gap ++ s) t.
Proof. unfold at_text. rewrite zlen_app, <-!app_assoc. do 2 f_equal. lia. Qed.

Lemma ret_state (mem : bytes) (a b a' b' : Z) : a = a' -> b = b' -> Ret (mem, a, b) = Ret (mem, a', b').
Proof. by intros -> ->. Qed.

(** Copying moves it. *)
Lemma copy_text (dn gap t : bytes) c : exists gap', copy (at_text dn gap (c :: t)) = Ret (at_text (dn ++ [c]) gap' t) /\ length gap' = length gap.
Proof.
  unfold copy, at_text. rewrite read_text, bind_ret_l.
  assert (mem_set (dn ++ gap ++ c :: t) (zlen dn) c = Ret (<[length dn := c]> (dn ++ gap ++ c :: t))) as ->.
  { unfold zlen. apply mem_set_nat. rewrite !length_app. cbn. lia. }
  rewrite bind_ret_l, <-(Nat.add_0_r (length dn)), insert_app_r. destruct gap as [|g gap]; cbn [app].
  - exists []. split; [|done]. change (<[0%nat := c]> (c :: t)) with (c :: t). rewrite <-app_assoc, zlen_app. cbn [app]. apply ret_state; change (zlen [c]) with 1; try change (zlen []) with 0; lia.
  - exists (gap ++ [c]). split; [|rewrite length_app; cbn; lia]. rewrite <-!app_assoc, !zlen_app, zlen_cons. cbn [app].
    change (<[0%nat := c]> (g :: gap ++ c :: t)) with (c :: gap ++ c :: t).
    apply ret_state; change (zlen [c]) with 1; try change (zlen []) with 0; lia.
Qed.

Lemma copy_string_run s t fuel dn gap : string_body s -> (length s < fuel)%nat ->
  exists gap', copy_string fuel (at_text dn gap (s ++ quote :: t)) = Ret (at_text (dn ++ s) gap' (quote :: t)) /\ length gap' = length gap.
Proof.
  intros Hs. revert fuel dn gap. induction Hs as [|c s H0 Hq Hb Hs IH|c s H0 Hs IH]; intros [|fuel] dn gap Hf; cbn [length] in Hf; try lia; cbn [app copy_string].
  - exists gap. cbn [at_text fst snd]. rewrite read_text, bind_ret_l, app_nil_r. done.
  - cbn [at_text fst snd]. rewrite read_text, bind_ret_l, !(proj2 (Z.eqb_neq _ _)) by done. cbn [orb]. rewrite bind_ret_l.
    destruct (copy_text dn gap (s ++ quote :: t) c) as (g1 & E1 & L1). rewrite E1, bind_ret_l.
    destruct (IH fuel (dn ++ [c]) g1) as (g2 & E2 & L2); [lia|]. exists g2. rewrite E2, <-app_assoc. split; [done|congruence].
  - cbn [at_text fst snd]. rewrite read_text, bind_ret_l. change (backslash =? 0) with false. change (backslash =? quote) with false. change (backslash =? backslash) with true.
    cbn [orb]. destruct (copy_text dn gap (c :: s ++ quote :: t) backslash) as (g1 & E1 & L1). rewrite E1, bind_ret_l.
    destruct (copy_text (dn ++ [backslash]) g1 (s ++ quote :: t) c) as (g2 & E2 & L2). rewrite E2, bind_ret_l.
    destruct (IH fuel ((dn ++ [backslash]) ++ [c]) g2) as (g3 & E3 & L3); [lia|]. exists g3. rewrite E3, <-!app_assoc. split; [done|congruence].
Qed.

Lemma skip_step (dn gap t : bytes) c : dn ++ gap ++ c :: t = dn ++ (gap ++ [c]) ++ t /\ zlen dn + zlen gap + 1 = zlen dn + zlen (gap ++ [c]).
Proof. rewrite <-app_assoc, zlen_app. split; [done|]. change (zlen [c]) with 1. lia. Qed.

Lemma skip_line_run s t fuel (dn gap : bytes) : Forall (fun c => c <> 0 /\ c <> newline) s -> (length s < fuel)%nat ->
  skip_line fuel (dn ++ gap ++ s ++ newline :: t) (zlen dn + zlen gap) = Ret (zlen dn + zlen gap + zlen s).
Proof.
  intros Hs. revert fuel gap. induction Hs as [|c s [H0 Hn] Hs IH]; intros [|fuel] gap Hf; cbn [length] in Hf; try lia; cbn [app skip_line]; rewrite read_text, bind_ret_l.
  - change (newline =? 0) with false. rewrite Z.eqb_refl. change (zlen []) with 0. by rewrite Z.add_0_r.
  - rewrite !(proj2 (Z.eqb_neq _ _)) by done. cbn [orb]. destruct (skip_step dn gap (s ++ newline :: t) c) as [-> ->].
    rewrite IH by lia. rewrite zlen_app, !zlen_cons. change (@zlen Z []) with 0. f_equal. lia.
Qed.

Lemma skip_block_run s t fuel (dn gap : bytes) : no_close (s ++ [star]) -> (length s < fuel)%nat ->
  skip_block fuel (dn ++ gap ++ s ++ star :: slash :: t) (zlen dn + zlen gap) = Ret (zlen dn + zlen gap + zlen s).
Proof.
  revert fuel gap. induction s as [|c s IH]; intros [|fuel] gap Hc Hf; cbn [length] in Hf; try lia; cbn [app skip_block no_close] in *; rewrite read_text, bind_ret_l.
  - change (star =? 0) with false. rewrite Z.eqb_refl, read_next, bind_ret_l. change (slash =? slash) with true. change (zlen []) with 0. by rewrite Z.add_0_r.
  - destruct Hc as (H0 & Hpair & Hc). rewrite (proj2 (Z.eqb_neq c 0)) by done.
    assert (skip_block fuel (dn ++ gap ++ c :: s ++ star :: slash :: t) (zlen dn + zlen gap + 1) = Ret (zlen dn + zlen gap + zlen (c :: s))) as Hrec.
    { destruct (skip_step dn gap (s ++ star :: slash :: t) c) as [-> ->]. rewrite IH by (done || lia). rewrite zlen_app, !zlen_cons. change (@zlen Z []) with 0. f_equal. lia. }
    destruct (Z.eqb_spec c star) as [->|]; [|done].
    assert (exists d r, s ++ star :: slash :: t = d :: r /\ d <> slash) as (d & r & E & Hd).
    { destruct s as [|d s]; [by exists star, (slash :: t)|]. exists d, (s ++ star :: slash :: t). split; [done|]. cbn in Hpair. tauto. }
    rewrite E, read_next, bind_ret_l, (proj2 (Z.eqb_neq d slash)), <-E by done. done.
Qed.

Lemma minify_loop_run t u fuel dn gap rest : minifies t u -> (length t < fuel)%nat ->
  exists gap', minify_loop fuel (at_text dn gap (t ++ 0 :: rest)) = Ret (at_text (dn ++ u) gap' (0 :: rest)).
Proof.
  intros Hm. revert fuel dn gap. induction Hm as [|c t u Hc Hm IH|c t u H0 Hs Hsl Hq Hm IH|s t u Hs Hm IH|c t u H1 H2 Hm IH|s t u Hs Hm IH|s t u Hs Hm IH];
    intros [|fuel] dn gap Hf; cbn [length] in Hf; try lia; cbn [app minify_loop]; unfold at_text at 1; rewrite read_text, bind_ret_l.
  - exists gap. by rewrite app_nil_r.
  - assert (c <> 0) by (intros ->; done). rewrite (proj2 (Z.eqb_neq c 0)), Hc by done.
    destruct (skip_step dn gap (t ++ 0 :: rest) c) as [-> ->]. apply (IH fuel dn (gap ++ [c])). lia.
  - rewrite (proj2 (Z.eqb_neq c 0)), Hs, !(proj2 (Z.eqb_neq c _)) by done. rewrite bind_ret_l. cbn [andb].
    destruct (copy_text dn gap (t ++ 0 :: rest) c) as (g1 & E1 & _). rewrite E1, bind_ret_l.
    destruct (IH fuel (dn ++ [c]) g1) as (g2 & E2); [lia|]. exists g2. by rewrite E2, <-app_assoc.
  - rewrite length_app in Hf. cbn [length] in Hf. change (quote =? 0) with false. change (is_space quote) with false. change (quote =? slash) with false.
    cbv iota. rewrite bind_ret_l. cbn [andb]. rewrite Z.eqb_refl.
    rewrite <-app_assoc. cbn [app]. destruct (copy_text dn gap (s ++ quote :: t ++ 0 :: rest) quote) as (g1 & E1 & _). rewrite E1, bind_ret_l.
    destruct (copy_string_run s (t ++ 0 :: rest) fuel (dn ++ [quote]) g1 Hs) as (g2 & E2 & _); [lia|]. rewrite E2, bind_ret_l.
    destruct (copy_text ((dn ++ [quote]) ++ s) g2 (t ++ 0 :: rest) quote) as (g3 & E3 & _). rewrite E3, bind_ret_l.
    destruct (IH fuel (((dn ++ [quote]) ++ s) ++ [quote]) g3) as (g4 & E4); [lia|]. exists g4. rewrite E4, <-!app_assoc. done.
  - change (slash =? 0) with false. change (is_space slash) with false. rewrite Z.eqb_refl, read_next, bind_ret_l, !(proj2 (Z.eqb_neq c _)) by done.
    cbn [andb]. change (slash =? quote) with false. destruct (copy_text dn gap (c :: t ++ 0 :: rest) slash) as (g1 & E1 & _). rewrite E1, bind_ret_l.
    destruct (IH fuel (dn ++ [slash]) g1) as (g2 & E2); [cbn; lia|]. exists g2. cbn [app] in E2. by rewrite E2, <-app_assoc.
  - rewrite length_app in Hf. cbn [length] in Hf. change (slash =? 0) with false. change (is_space slash) with false. rewrite Z.eqb_refl, read_next, bind_ret_l.
    rewrite Z.eqb_refl. cbn [andb]. rewrite <-app_assoc. cbn [app].
    assert (Forall (fun c => c <> 0 /\ c <> newline) (slash :: slash :: s)) as Hs' by (repeat constructor; done).
    pose proof (skip_line_run (slash :: slash :: s) (t ++ 0 :: rest) fuel dn gap Hs') as E. cbn [app length] in E. rewrite E, bind_ret_l by lia.
    pose proof (skip_text dn gap (slash :: slash :: s) (newline :: t ++ 0 :: rest)) as E'. cbn [app] in E'. rewrite E'.
    destruct fuel as [|fuel]; [lia|]. cbn [minify_loop]. unfold at_text at 1. rewrite read_text, bind_ret_l. change (newline =? 0) with false. change (is_space newline) with true. cbv iota.
    destruct (skip_step dn (gap ++ slash :: slash :: s) (t ++ 0 :: rest) newline) as [-> ->]. apply (IH fuel dn). lia.
  - rewrite length_app in Hf. cbn [length] in Hf. change (slash =? 0) with false. change (is_space slash) with false. rewrite Z.eqb_refl, read_next, bind_ret_l.
    change (star =? slash) with false. rewrite Z.eqb_refl. cbn [andb]. rewrite <-app_assoc. cbn [app].
    assert (no_close ((slash :: star :: s) ++ [star])) as Hs' by (cbn [app no_close] in *; split_and!; [done|intros [? ?]; done|apply Hs..]).
    pose proof (skip_block_run (slash :: star :: s) (t ++ 0 :: rest) fuel dn gap Hs') as E. cbn [app length] in E. rewrite E, bind_ret_l by lia.
    pose proof (skip_text dn gap ((slash :: star :: s) ++ [star; slash]) (t ++ 0 :: rest)) as E'. rewrite <-app_assoc, (zlen_app (slash :: _)) in E'. cbn [app] in E'.
    change (zlen [star; slash]) with 2 in E'. rewrite Z.add_assoc in E'. rewrite E'. apply (IH fuel dn). lia.
Qed.

(** ** Printed text *)

Definition plain (c : Z) : bool := negb ((c =? 0) || is_space c || (c =? slash) || (c =? quote)).

Lemma minifies_plain s : forallb plain s = true -> minifies s s.
Proof.
  induction s as [|c s IH]; cbn [forallb]; [constructor|]. intros [Hc Hs]%andb_true_iff. unfold plain in Hc. rewrite negb_true_iff, !orb_false_iff in Hc.
  destruct Hc as [[[H0%Z.eqb_neq Hsp] Hsl%Z.eqb_neq] Hq%Z.eqb_neq]. apply min_other; auto.
Qed.
Lemma minifies_space s : forallb is_space s = true -> minifies s [].
Proof. induction s as [|c s IH]; cbn [forallb]; [constructor|]. intros [Hc Hs]%andb_true_iff. apply min_space; auto. Qed.

Lemma string_body_app s t : string_body s -> string_body t -> string_body (s ++ t).
Proof. induction 1; intros; cbn [app]; [done|apply body_plain; auto|apply body_escape; auto]. Qed.

Lemma hex_char_body n s : 0 <= n < 16 -> string_body s -> string_body (hex_char n :: s).
Proof. intros Hn Hs. destruct (hex_char_plain n Hn). apply body_plain; [apply hex_char_pos; lia|done..]. Qed.

Lemma escape_body c : 1 <= c < 256 -> string_body (escape c).
Proof.
  intros Hc. destruct (escape_escaped c) as [Hq Hb|e He|Hlt].
  - apply body_plain; [lia|done|done|constructor].
  - apply body_escape; [|constructor]. intros ->. done.
  - apply body_escape; [done|]. do 2 (apply body_plain; [done..|]).
    apply hex_char_body; [rewrite Z.shiftr_div_pow2 by lia; dlia|]. apply hex_char_body; [change 15 with (2 ^ 4 - 1); rewrite land_mask by lia; dlia|constructor].
Qed.

Lemma minifies_render_string s : text s -> minifies (render_string (Some s)) (render_string (Some s)).
Proof.
  intros Hs. unfold render_string. cbn [default]. assert (string_body (concat (escape <$> cstr s))) as Hb; [|apply (min_string _ [] []); [done|constructor]].
  induction Hs as [|c s Hc Hs IH]; [constructor|]. cbn [cstr]. rewrite (proj2 (Z.eqb_neq c 0)) by lia. apply string_body_app; [by apply escape_body|exact IH].
Qed.

Lemma tabs_are_space n : forallb is_space (tabs n) = true.
Proof. unfold tabs. by induction (Z.to_nat n). Qed.

Section Printed.
Context `{CDouble} `{!DoubleLaws}.

Lemma minifies_number d : is_finite d = true -> minifies (number_text d) (number_text d).
Proof.
  intros Hf. apply minifies_plain. assert (forall s, Forall (fun c => number_char c = true) s -> forallb plain s = true) as Hall.
  { induction 1 as [|c s Hc Hs IH]; [done|]. cbn [forallb]. rewrite IH, andb_true_r. unfold number_char, plain, is_space, is_digit, slash, quote, newline in *.
    apply negb_true_iff. rewrite !orb_true_iff, andb_true_iff in Hc. rewrite !orb_false_iff. lia. }
  apply Hall. unfold number_text. rewrite Hf. cbn [negb]. repeat case_match; eapply laws_text; eauto.
Qed.

(** Without its white space, formatted text is the unformatted text. *)
Lemma minifies_render item : forall d d', canonical item -> minifies (render true d item) (render false d' item).
Proof.
  induction item as [ty vs vi vd st ch IH] using cJSON_ind'. intros d d' Hc. rewrite Forall_forall in IH.
  inversion Hc as [| | |? ? Hf|? ? Hs|? ? Hl|? ? Hl]; subst; cbn [render]; try by apply minifies_plain.
  - by apply minifies_number.
  - by apply minifies_render_string.
  - apply (minifies_app [lbracket] [lbracket]); [by apply minifies_plain|]. apply minifies_app; [|by apply minifies_plain]. clear Hc.
    induction Hl as [|e l [_ He] Hl IHl]; cbn [render_elements]; [constructor|].
    apply minifies_app; [apply IH; [by left|done]|]. apply minifies_app; [|apply IHl; intros; apply IH; [by right|done]].
    destruct l; [constructor|]. cbn. apply (minifies_app [comma] [comma]); [by apply minifies_plain|by apply minifies_space].
  - apply (minifies_app [lbrace; 10] [lbrace]); [apply (minifies_app [lbrace] [lbrace]); [by apply minifies_plain|by apply minifies_space]|].
    apply minifies_app.
    2: { apply (minifies_app _ []); [apply minifies_space, tabs_are_space|by apply minifies_plain]. }
    clear Hc. induction Hl as [|e l [(k & Hk & Ht) He] Hl IHl]; cbn [render_members]; [constructor|].
    apply (minifies_app _ []); [apply minifies_space, tabs_are_space|]. rewrite Hk. apply minifies_app; [by apply minifies_render_string|].
    apply minifies_app; [apply (minifies_app [colon] [colon]); [by apply minifies_plain|by apply minifies_space]|].
    apply minifies_app; [apply IH; [by left|done]|]. apply minifies_app; [|apply IHl; intros; apply IH; [by right|done]].
    apply minifies_app; [by destruct l; apply minifies_plain|by apply minifies_space].
Qed.
End Printed.

Lemma minify_run t u rest : minifies t u -> exists rest', cJSON_Minify (Some (t ++ 0 :: rest)) = Ret (Some (u ++ 0 :: rest')).
Proof.
  intros Hm. unfold cJSON_Minify. destruct (minify_loop_run t u (S (length (t ++ 0 :: rest))) [] [] rest Hm) as (gap & E); [rewrite length_app; lia|].
  unfold at_text at 1 in E. cbn [app] in E. change (zlen [] + zlen []) with 0 in E. change (zlen []) with 0 in E. rewrite E, bind_ret_l. unfold at_text. cbv iota beta.
  assert (exists x r, gap ++ 0 :: rest = x :: r) as (x & r & Er) by (destruct gap; cbn; eauto). rewrite Er. cbn [app].
  rewrite mem_set_ok by (rewrite zlen_app, zlen_cons; pose proof (zlen_nonneg u); pose proof (zlen_nonneg r); lia).
  rewrite bind_ret_l, zlen_nat, <-(Nat.add_0_r (length u)), insert_app_r. exists r. done.
Qed.

(** [cJSON_Minify] of text with complete strings and comments stays inside the buffer, ends, and
    leaves the text without the white space and the comments outside of its strings, with a NUL. *)
Theorem cJSON_Minify_strips t u rest :
  minifies t u -> exists rest', cJSON_Minify (Some (t ++ 0 :: rest)) = Ret (Some (u ++ 0 :: rest')).
Proof. apply minify_run. Qed.

Lemma cJSON_Minify_strips_witness :
  exists rest, cJSON_Minify (Some ([91; 32; 47; 42; 42; 49; 42; 47; 34; 32; 92; 34; 34; 9; 47; 47; 120; 10; 93] ++ 0 :: [7])) =
    Ret (Some ([91; 34; 32; 92; 34; 34; 93] ++ 0 :: rest)).
Proof.
  apply cJSON_Minify_strips. apply min_other; [discriminate|reflexivity|discriminate|discriminate|]. apply min_space; [reflexivity|].
  apply (min_block [42; 49]). { cbn. unfold star, slash. intuition discriminate. }
  apply (min_string [32; 92; 34]). { apply body_plain; [discriminate..|]. apply body_escape; [discriminate|constructor]. }
  apply min_space; [reflexivity|]. apply (min_line [120]); [repeat constructor; discriminate|].
  apply min_other; [discriminate|reflexivity|discriminate|discriminate|constructor].
Defined.

Section Claims.
Context `{CDouble} `{!DoubleLaws} (can_alloc : Z -> bool) (have_realloc : bool) (junk : Z).

(** C28: A tree as the parser builds them, printed with white space by [cJSON_Print] and
    then minified, is the text that [cJSON_PrintUnformatted] prints, when no allocation fails and the
    texts are shorter than [INT_MAX - 8]. *)
Theorem minify_print item :
  (forall size, can_alloc size = true) -> canonical item -> string item = None ->
  zlen (render true 0 item) + 8 <= INT_MAX -> zlen (render false 0 item) + 8 <= INT_MAX ->
  exists out out' short, print can_alloc have_realloc junk item true = Ret (Some out) /\ cJSON_Minify (Some out) = Ret (Some out') /\
    print can_alloc have_realloc junk item false = Ret (Some short) /\ cstr out' = cstr short.
Proof.
  intros Halloc Hc Hst Hlen Hlen'. assert (renderable item = true) as Hr by (apply canonical_renderable; [done|rewrite Hst; done]).
  destruct (print_spec can_alloc have_realloc junk item true Hr) as (r & Hp & Hout & Hsome).
  destruct (Hsome Halloc Hlen) as [out ->]. destruct (Hout out eq_refl) as [rest ->].
  destruct (print_spec can_alloc have_realloc junk item false Hr) as (r & Hp' & Hout' & Hsome').
  destruct (Hsome' Halloc Hlen') as [short ->]. destruct (Hout' short eq_refl) as [rest' ->].
  destruct (minify_run _ _ rest (minifies_render item 0 0 Hc)) as (rest'' & Hm).
  destruct (print_value_terminates can_alloc have_realloc junk item false 0 ltac:(lia) Hr) as [Hnul _].
  eexists _, _, _. split_and!; [exact Hp|exact Hm|exact Hp'|]. by rewrite !cstr_app.
Qed.
End Claims.

Lemma minify_print_witness :
  exists out out' short, print (fun _ => true) true 0 sample true = Ret (Some out) /\ cJSON_Minify (Some out) = Ret (Some out') /\
    print (fun _ => true) true 0 sample false = Ret (Some short) /\ cstr out' = cstr short.
Proof.
  apply minify_print.
  - reflexivity.
  - apply sample_canonical.
  - reflexivity.
  - vm_compute. discriminate.
  - vm_compute. discriminate.
Defined.

(** ** Incomplete text *)

(** A string or a comment that is not closed makes the function read past the end of the text. *)
Theorem minify_overread : cJSON_Minify (Some [34; 97; 0]) = Undef /\ cJSON_Minify (Some [47; 42; 97; 0]) = Undef.
Proof. split; reflexivity. Qed.
