(* ===== verification/Queue.v ===== *)
(** The linked queue of the GATT server: src/bt/btgatt_server/src/shared/queue.c.

    Queues and their entries are blocks of a heap; a use of a block that was freed is [Undef].
    The elements are pointers of the callers.  Functions that are called for elements are programs on the
    same heap, so they may work on any queue, and on a [world] of their own. *)

From stdpp Require Import gmap.
From S2P Require Import Prelude Alloc.

(** [struct queue_entry] and [struct queue] *)
Record queue_entry := mk_entry {
  e_data : Z;
  e_next : option ptr
}.

Record queue := mk_queue {
  q_ref_count : Z;
  q_head : option ptr;
  q_tail : option ptr;
  q_entries : Z
}.

Definition set_next x e := mk_entry (e_data e) x.
Definition set_ref_count x q := mk_queue x (q_head q) (q_tail q) (q_entries q).
Definition set_head x q := mk_queue (q_ref_count q) x (q_tail q) (q_entries q).
Definition set_tail x q := mk_queue (q_ref_count q) (q_head q) x (q_entries q).
Definition set_entries x q := mk_queue (q_ref_count q) (q_head q) (q_tail q) x.

(** The queues, the entries, the number of requests for memory so far, and what the callers keep. *)
Record mem (W : Type) := mk_mem {
  queues : gmap ptr queue;
  cells : gmap ptr queue_entry;
  requests : nat;
  world : W
}.
Arguments mk_mem {W} _ _ _ _.
Arguments queues {W} _.
Arguments cells {W} _.
Arguments requests {W} _.
Arguments world {W} _.

Section Queue.
Context {W : Type} `{!Allocator}.

(** ** Effects *)

Definition M (A : Type) : Type := mem W -> outcome (A * mem W).
#[global] Instance M_ret : MRet M := fun A a m => Ret (a, m).
#[global] Instance M_bind : MBind M := fun A B f x m => '(a, m) ← x m; f a m.

Definition undef {A} : M A := fun _ => Undef.

Definition with_queues x (m : mem W) := mk_mem x (cells m) (requests m) (world m).
Definition with_cells x (m : mem W) := mk_mem (queues m) x (requests m) (world m).

Definition load_queue (p : ptr) : M queue := fun m =>
  match queues m !! p with Some q => Ret (q, m) | None => Undef end.
Definition load_entry (p : ptr) : M queue_entry := fun m =>
  match cells m !! p with Some e => Ret (e, m) | None => Undef end.
(** Assignments to the fields of [*p]. *)
Definition update_queue (p : ptr) (f : queue -> queue) : M () := fun m =>
  match queues m !! p with Some q => Ret ((), with_queues (<[p := f q]> (queues m)) m) | None => Undef end.
Definition update_entry (p : ptr) (f : queue_entry -> queue_entry) : M () := fun m =>
  match cells m !! p with Some e => Ret ((), with_cells (<[p := f e]> (cells m)) m) | None => Undef end.

Definition free_queue (p : ptr) : M () := fun m =>
  match queues m !! p with Some _ => Ret ((), with_queues (delete p (queues m)) m) | None => Undef end.
Definition free_entry (p : ptr) : M () := fun m =>
  match cells m !! p with Some _ => Ret ((), with_cells (delete p (cells m)) m) | None => Undef end.

Definition used (m : mem W) : gset ptr := dom (queues m) ∪ dom (cells m).

(** [new0]: without memory, [btd_malloc] calls [abort]. *)
Definition new_queue (q : queue) : M ptr := fun m =>
  match place (requests m) (used m) with
  | Some p => Ret (p, mk_mem (<[p := q]> (queues m)) (cells m) (S (requests m)) (world m))
  | None => Exit 134
  end.
Definition new_entry (e : queue_entry) : M ptr := fun m =>
  match place (requests m) (used m) with
  | Some p => Ret (p, mk_mem (queues m) (<[p := e]> (cells m)) (S (requests m)) (world m))
  | None => Exit 134
  end.

(** The number of steps that a walk over distinct entries can take. *)
Definition walk_fuel : M nat := fun m => Ret (S (size (cells m)), m).

(** ** Life of a queue *)

Definition queue_ref (queue : option ptr) : M (option ptr) :=
  match queue with
  | None => mret None
  | Some q => _ ← update_queue q (fun x => set_ref_count (s32 (q_ref_count x + 1)) x); mret (Some q)
  end.

Definition queue_unref (q : ptr) : M () :=
  _ ← update_queue q (fun x => set_ref_count (s32 (q_ref_count x - 1)) x);
  x ← load_queue q;
  if q_ref_count x =? 0 then free_queue q else mret ().

Definition queue_new : M (option ptr) :=
  q ← new_queue (mk_queue 0 None None 0);
  queue_ref (Some q).

Definition queue_entry_new (data : Z) : M ptr := new_entry (mk_entry data None).

(** ** Additions *)

Definition queue_push_tail (queue : option ptr) (data : Z) : M bool :=
  match queue with
  | None => mret false
  | Some q =>
      entry ← queue_entry_new data;
      x ← load_queue q;
      _ ← match q_tail x with
          | Some t => update_entry t (set_next (Some entry))
          | None => mret ()
          end;
      _ ← update_queue q (set_tail (Some entry));
      x ← load_queue q;
      _ ← match q_head x with
          | None => update_queue q (set_head (Some entry))
          | Some _ => mret ()
          end;
      _ ← update_queue q (fun x => set_entries (u32 (q_entries x + 1)) x);
      mret true
  end.

Definition queue_push_head (queue : option ptr) (data : Z) : M bool :=
  match queue with
  | None => mret false
  | Some q =>
      entry ← queue_entry_new data;
      x ← load_queue q;
      _ ← update_entry entry (set_next (q_head x));
      _ ← update_queue q (set_head (Some entry));
      x ← load_queue q;
      _ ← match q_tail x with
          | None => update_queue q (set_tail (Some entry))
          | Some _ => mret ()
          end;
      _ ← update_queue q (fun x => set_entries (u32 (q_entries x + 1)) x);
      mret true
  end.

(** The first entry from [entry] on whose data satisfy [p], with the entry before it. *)
Fixpoint search (fuel : nat) (p : Z -> M bool) (prev entry : option ptr) : M (option (option ptr * ptr)) :=
  match entry, fuel with
  | None, _ => mret None
  | Some _, O => undef
  | Some e, S fuel =>
      x ← load_entry e;
      p (e_data x) ≫= fun b : bool =>
      if b then mret (Some (prev, e)) else search fuel p (Some e) (e_next x)
  end.

Definition queue_push_after (queue : option ptr) (entry data : Z) : M bool :=
  match queue with
  | None => mret false
  | Some q =>
      fuel ← walk_fuel;
      x ← load_queue q;
      found ← search fuel (fun d => mret (d =? entry)) None (q_head x);
      match found with
      | None => mret false
      | Some (_, qentry) =>
          new_entry ← queue_entry_new data;
          e ← load_entry qentry;
          _ ← update_entry new_entry (set_next (e_next e));
          _ ← match e_next e with
              | None => update_queue q (set_tail (Some new_entry))
              | Some _ => mret ()
              end;
          _ ← update_entry qentry (set_next (Some new_entry));
          _ ← update_queue q (fun x => set_entries (u32 (q_entries x + 1)) x);
          mret true
      end
  end.

(** ** Access *)

(** The null pointer is 0. *)
Definition queue_pop_head (queue : option ptr) : M Z :=
  match queue with
  | None => mret 0
  | Some q =>
      x ← load_queue q;
      match q_head x with
      | None => mret 0
      | Some entry =>
          e ← load_entry entry;
          _ ← match e_next e with
              | None => _ ← update_queue q (set_head None); update_queue q (set_tail None)
              | Some n => update_queue q (set_head (Some n))
              end;
          e ← load_entry entry;
          _ ← free_entry entry;
          _ ← update_queue q (fun x => set_entries (u32 (q_entries x - 1)) x);
          mret (e_data e)
      end
  end.

Definition queue_peek_head (queue : option ptr) : M Z :=
  match queue with
  | None => mret 0
  | Some q =>
      x ← load_queue q;
      match q_head x with
      | None => mret 0
      | Some entry => e ← load_entry entry; mret (e_data e)
      end
  end.

Definition queue_peek_tail (queue : option ptr) : M Z :=
  match queue with
  | None => mret 0
  | Some q =>
      x ← load_queue q;
      match q_tail x with
      | None => mret 0
      | Some entry => e ← load_entry entry; mret (e_data e)
      end
  end.

(** The loop of [queue_foreach] from [entry] on.  The function may add entries, so the number of
    rounds is not bounded by the model. *)
Fixpoint foreach_loop (fuel : nat) (q : ptr) (function : Z -> M ()) (entry : option ptr) : M () :=
  match fuel with
  | O => undef
  | S fuel =>
      match entry with
      | None => mret ()
      | Some e =>
          x ← load_queue q;
          match q_head x with
          | None => mret ()
          | Some _ =>
              if 1 <? q_ref_count x then
                c ← load_entry e;
                _ ← function (e_data c);
                foreach_loop fuel q function (e_next c)
              else mret ()
          end
      end
  end.

Definition queue_foreach (fuel : nat) (queue : option ptr) (function : option (Z -> M ())) : M () :=
  match queue, function with
  | Some q, Some function =>
      x ← load_queue q;
      match q_head x with
      | None => mret ()
      | Some entry =>
          _ ← queue_ref (Some q);
          _ ← foreach_loop fuel q function (Some entry);
          queue_unref q
      end
  | _, _ => mret ()
  end.

Definition direct_match (a b : Z) : M bool := mret (a =? b).

Definition queue_find (queue : option ptr) (function : option (Z -> Z -> M bool)) (match_data : Z) : M Z :=
  match queue with
  | None => mret 0
  | Some q =>
      let function := default direct_match function in
      fuel ← walk_fuel;
      x ← load_queue q;
      found ← search fuel (fun d => function d match_data) None (q_head x);
      match found with
      | Some (_, e) => c ← load_entry e; mret (e_data c)
      | None => mret 0
      end
  end.

(** ** Removals *)

(** The statements that take [entry] out of the queue behind [prev]; the result is its data. *)
Definition unlink (q : ptr) (prev : option ptr) (entry : ptr) : M Z :=
  e ← load_entry entry;
  _ ← match prev with
      | Some p => update_entry p (set_next (e_next e))
      | None => update_queue q (set_head (e_next e))
      end;
  e ← load_entry entry;
  _ ← match e_next e with
      | None => update_queue q (set_tail prev)
      | Some _ => mret ()
      end;
  _ ← free_entry entry;
  _ ← update_queue q (fun x => set_entries (u32 (q_entries x - 1)) x);
  mret (e_data e).

Definition queue_remove (queue : option ptr) (data : Z) : M bool :=
  match queue with
  | None => mret false
  | Some q =>
      fuel ← walk_fuel;
      x ← load_queue q;
      found ← search fuel (fun d => mret (d =? data)) None (q_head x);
      match found with
      | Some (prev, entry) => _ ← unlink q prev entry; mret true
      | None => mret false
      end
  end.

Definition queue_remove_if (queue : option ptr) (function : option (Z -> Z -> M bool)) (user_data : Z) : M Z :=
  match queue with
  | None => mret 0
  | Some q =>
      let function := default direct_match function in
      fuel ← walk_fuel;
      x ← load_queue q;
      found ← search fuel (fun d => function d user_data) None (q_head x);
      match found with
      | Some (prev, entry) => unlink q prev entry
      | None => mret 0
      end
  end.

Definition call_destroy (destroy : option (Z -> M ())) (data : Z) : M () :=
  match destroy with Some d => d data | None => mret () end.

(** The two loops of [queue_remove_all]. *)
Fixpoint remove_matching (fuel : nat) (q : ptr) (function : Z -> Z -> M bool) (user_data : Z) (destroy : option (Z -> M ())) (count : Z) : M Z :=
  match fuel with
  | O => undef
  | S fuel =>
      x ← load_queue q;
      data ← queue_remove_if (Some q) (Some function) user_data;
      y ← load_queue q;
      if q_entries x =? q_entries y then mret count
      else
        _ ← call_destroy destroy data;
        remove_matching fuel q function user_data destroy (u32 (count + 1))
  end.

Fixpoint free_chain (fuel : nat) (entry : option ptr) (destroy : option (Z -> M ())) (count : Z) : M Z :=
  match entry, fuel with
  | None, _ => mret count
  | Some _, O => undef
  | Some tmp, S fuel =>
      e ← load_entry tmp;
      _ ← call_destroy destroy (e_data e);
      _ ← free_entry tmp;
      free_chain fuel (e_next e) destroy (u32 (count + 1))
  end.

Definition queue_remove_all (fuel : nat) (queue : option ptr) (function : option (Z -> Z -> M bool)) (user_data : Z) (destroy : option (Z -> M ())) : M Z :=
  match queue with
  | None => mret 0
  | Some q =>
      x ← load_queue q;
      match function with
      | Some function =>
          match q_head x with
          | Some _ => remove_matching fuel q function user_data destroy 0
          | None => mret 0
          end
      | None =>
          _ ← update_queue q (set_head None);
          _ ← update_queue q (set_tail None);
          _ ← update_queue q (set_entries 0);
          free_chain fuel (q_head x) destroy 0
      end
  end.

Definition queue_destroy (fuel : nat) (queue : option ptr) (destroy : option (Z -> M ())) : M () :=
  match queue with
  | None => mret ()
  | Some q => _ ← queue_remove_all fuel (Some q) None 0 destroy; queue_unref q
  end.

(** ** Size *)

Definition queue_get_entries (queue : option ptr) : M (option ptr) :=
  match queue with
  | None => mret None
  | Some q => x ← load_queue q; mret (q_head x)
  end.

Definition queue_length (queue : option ptr) : M Z :=
  match queue with
  | None => mret 0
  | Some q => x ← load_queue q; mret (q_entries x)
  end.

Definition queue_isempty (queue : option ptr) : M bool :=
  match queue with
  | None => mret true
  | Some q => x ← load_queue q; mret (q_entries x =? 0)
  end.
End Queue.
