(* ===== verification/QueueSpec.v ===== *)
(** What the queue of [Queue] means: every queue stands for a list, and every operation does to the linked
    entries what it does to the list. *)

From stdpp Require Import gmap.
From S2P Require Import Prelude Alloc Queue.

(** ** Runs *)

Section Wp.
Context {W : Type} `{!Allocator}.
Implicit Types (m : mem W).

(** [x] from [m] returns a result with [P], or stops in [abort] because the allocator refused a request. *)
Definition wp {A} (x : M A) (P : A -> mem W -> Prop) m : Prop :=
  match x m with
  | Ret (a, m) => P a m
  | Exit c => c = 134 /\ exists n used, place n used = None
  | Undef => False
  end.

Lemma wp_ret {A} (a : A) P m : P a m -> wp (mret a) P m.
Proof. done. Qed.
Lemma wp_bind {A B} (x : M A) (f : A -> M B) P m : wp x (fun a => wp (f a) P) m -> wp (x ≫= f) P m.
Proof. unfold wp, mbind, M_bind, mbind, outcome_bind. by destruct (x m) as [[a m']| |]. Qed.
Lemma bind_run {A B} (x : M A) (f : A -> M B) m a m1 : x m = Ret (a, m1) -> (x ≫= f) m = f a m1.
Proof. intros Hx. unfold mbind, M_bind. by rewrite Hx. Qed.
Lemma wp_mono {A} (x : M A) (P P' : A -> mem W -> Prop) m : wp x P m -> (forall a m, P a m -> P' a m) -> wp x P' m.
Proof. unfold wp. destruct (x m) as [[a m']| |]; auto. Qed.
Lemma wp_load_queue p q P m : queues m !! p = Some q -> P q m -> wp (load_queue p) P m.
Proof. unfold wp, load_queue. by intros ->. Qed.
Lemma wp_load_entry p e P m : cells m !! p = Some e -> P e m -> wp (load_entry p) P m.
Proof. unfold wp, load_entry. by intros ->. Qed.
Lemma wp_update_queue p q f P m : queues m !! p = Some q -> P () (with_queues (<[p := f q]> (queues m)) m) -> wp (update_queue p f) P m.
Proof. unfold wp, update_queue. by intros ->. Qed.
Lemma wp_update_entry p e f P m : cells m !! p = Some e -> P () (with_cells (<[p := f e]> (cells m)) m) -> wp (update_entry p f) P m.
Proof. unfold wp, update_entry. by intros ->. Qed.
Lemma wp_free_queue p q P m : queues m !! p = Some q -> P () (with_queues (delete p (queues m)) m) -> wp (free_queue p) P m.
Proof. unfold wp, free_queue. by intros ->. Qed.
Lemma wp_free_entry p e P m : cells m !! p = Some e -> P () (with_cells (delete p (cells m)) m) -> wp (free_entry p) P m.
Proof. unfold wp, free_entry. by intros ->. Qed.
Lemma wp_new_queue q P m :
  (forall p, queues m !! p = None -> P p (mk_mem (<[p := q]> (queues m)) (cells m) (S (requests m)) (world m))) -> wp (new_queue q) P m.
Proof.
  intros HP. unfold wp, new_queue. destruct (place (requests m) (used m)) as [p|] eqn:E; [|by eauto].
  apply HP. apply place_fresh in E. unfold used in E. apply not_elem_of_dom. set_solver.
Qed.
Lemma wp_new_entry e P m :
  (forall p, cells m !! p = None -> P p (mk_mem (queues m) (<[p := e]> (cells m)) (S (requests m)) (world m))) -> wp (new_entry e) P m.
Proof.
  intros HP. unfold wp, new_entry. destruct (place (requests m) (used m)) as [p|] eqn:E; [|by eauto].
  apply HP. apply place_fresh in E. unfold used in E. apply not_elem_of_dom. set_solver.
Qed.
Lemma wp_walk_fuel (P : nat -> mem W -> Prop) m : P (S (size (cells m))) m -> wp walk_fuel P m.
Proof. done. Qed.
End Wp.



Ltac heap_simpl := cbn [queues cells requests world with_queues with_cells q_ref_count q_head q_tail q_entries e_data e_next set_next set_ref_count set_head set_tail set_entries].

(** One step of a run; the lookups it needs are left when they are not at hand. *)
Ltac wp_step :=
  lazymatch goal with
  | |- wp (mret _) _ _ => apply wp_ret
  | |- wp (_ ≫= _) _ _ => apply wp_bind
  | |- wp (load_queue _) _ _ => eapply wp_load_queue; [heap_simpl; by simpl_map|]
  | |- wp (load_entry _) _ _ => eapply wp_load_entry; [heap_simpl; by simpl_map|]
  | |- wp (update_queue _ _) _ _ => eapply wp_update_queue; [heap_simpl; by simpl_map|]
  | |- wp (update_entry _ _) _ _ => eapply wp_update_entry; [heap_simpl; by simpl_map|]
  | |- wp (free_queue _) _ _ => eapply wp_free_queue; [heap_simpl; by simpl_map|]
  | |- wp (free_entry _) _ _ => eapply wp_free_entry; [heap_simpl; by simpl_map|]
  | |- wp (new_entry _) _ _ => apply wp_new_entry
  | |- wp (new_queue _) _ _ => apply wp_new_queue
  | |- wp walk_fuel _ _ => apply wp_walk_fuel
  end; heap_simpl.

(** ** Chains of entries *)

(** Entries with their data. *)
Abbreviation entry_list := (list (ptr * Z)).

Definition first (es : entry_list) (x : option ptr) : option ptr := match es with [] => x | (p, _) :: _ => Some p end.
Definition final (x : option ptr) (es : entry_list) : option ptr := match last es with None => x | Some (p, _) => Some p end.

(** [es] are linked in this order and end at [x]. *)
Fixpoint chain (C : gmap ptr queue_entry) (es : entry_list) (x : option ptr) : Prop :=
  match es with
  | [] => True
  | (p, d) :: es => C !! p = Some (mk_entry d (first es x)) /\ chain C es x
  end.

Lemma first_entry_app es1 es2 x : first (es1 ++ es2) x = first es1 (first es2 x).
Proof. by destruct es1 as [|[]]. Qed.
Lemma final_snoc x es p d : final x (es ++ [(p, d)]) = Some p.
Proof. unfold final. by rewrite last_snoc. Qed.
Lemma final_entry_cons x p d es : final x ((p, d) :: es) = final (Some p) es.
Proof. unfold final. rewrite last_cons. by destruct (last es) as [[]|]. Qed.
Lemma chain_app C es1 es2 x : chain C (es1 ++ es2) x <-> chain C es1 (first es2 x) /\ chain C es2 x.
Proof. induction es1 as [|[p d] es1 IH]; cbn; [tauto|]. rewrite IH, first_entry_app. tauto. Qed.
Lemma chain_frame C C' es x : (forall p, p ∈ es.*1 -> C' !! p = C !! p) -> chain C es x -> chain C' es x.
Proof.
  induction es as [|[p d] es IH]; cbn; [done|]. intros HC [Hp Hes]. split; [rewrite HC by (by left); done|].
  apply IH; [|done]. intros; apply HC; by right.
Qed.
Lemma chain_lookup C es x p : chain C es x -> p ∈ es.*1 -> is_Some (C !! p).
Proof. induction es as [|[p' d] es IH]; cbn; [by intros _ ?%elem_of_nil|]. intros [Hp Hes] [->|?]%elem_of_cons; [by eexists|by apply IH]. Qed.

(** The entries before the first whose data satisfy [p], and the rest. *)
Fixpoint break (p : Z -> bool) (es : entry_list) : entry_list * entry_list :=
  match es with
  | [] => ([], [])
  | (e, d) :: es => if p d then ([], (e, d) :: es) else let '(es1, es2) := break p es in ((e, d) :: es1, es2)
  end.

Lemma break_app p es : es = (break p es).1 ++ (break p es).2.
Proof. induction es as [|[e d] es IH]; cbn; [done|]. destruct (p d); [done|]. destruct (break p es). cbn in *. by f_equal. Qed.

Lemma break_hit p es : match (break p es).2 with (_, d) :: _ => p d = true | [] => True end.
Proof. induction es as [|[e d] es IH]; cbn; [done|]. destruct (p d) eqn:E; [done|]. by destruct (break p es). Qed.

Lemma break_miss p es : Forall (fun x => p x.2 = false) (break p es).1.
Proof. induction es as [|[e d] es IH]; cbn; [done|]. destruct (p d) eqn:E; [done|]. destruct (break p es). by constructor. Qed.

Lemma wp_search {W} `{!Allocator} (m : mem W) p f fuel es prev P :
  chain (cells m) es None -> (length es <= fuel)%nat -> (forall d, d ∈ es.*2 -> p d m = Ret (f d, m)) ->
  P (match break f es with (_, []) => None | (es1, (e, _) :: _) => Some (final prev es1, e) end) m ->
  wp (search fuel p prev (first es None)) P m.
Proof.
  revert fuel prev P. induction es as [|[e d] es IH]; intros fuel prev P Hc Hf Hp HP; [by destruct fuel|]. cbn in Hc, Hf. destruct Hc as [He Hc].
  destruct fuel as [|fuel]; [lia|]. cbn [first search]. do 3 wp_step. unfold wp at 1. rewrite Hp by (by left). cbn [break] in HP.
  destruct (f d); [done|]. apply IH; [done|lia|intros; apply Hp; by right|]. destruct (break f es) as [es1 [|[e' d'] es2]]; [done|]. by rewrite final_entry_cons in HP.
Qed.

(** ** The queues of a heap *)

Definition block (x : Z * entry_list) : queue := mk_queue x.1 (first x.2 None) (final None x.2) (u32 (zlen x.2)).

(** [Q] gives the entries of every queue, with its reference count; [X] are entries that were taken out of a
    queue and not freed yet.  No entry is in two places and none is anywhere else. *)
Record represents {W} (X : gmap ptr queue_entry) (m : mem W) (Q : gmap ptr (Z * entry_list)) : Prop := {
  rep_queues : queues m = block <$> Q;
  rep_chain q r es : Q !! q = Some (r, es) -> chain (cells m) es None;
  rep_nodup q r es : Q !! q = Some (r, es) -> NoDup es.*1;
  rep_once q q' r r' es es' e : Q !! q = Some (r, es) -> Q !! q' = Some (r', es') -> e ∈ es.*1 -> e ∈ es'.*1 -> q = q';
  rep_extra : X ⊆ cells m;
  rep_apart q r es e : Q !! q = Some (r, es) -> e ∈ es.*1 -> X !! e = None;
  rep_owned e : is_Some (cells m !! e) -> is_Some (X !! e) \/ exists q r es, Q !! q = Some (r, es) /\ e ∈ es.*1
}.
Arguments rep_queues {W X} m Q _.
Arguments rep_chain {W X} m Q _ q r es _.
Arguments rep_nodup {W X} m Q _ q r es _.
Arguments rep_once {W X} m Q _ q q' r r' es es' e _ _ _ _.
Arguments rep_extra {W X} m Q _.
Arguments rep_apart {W X} m Q _ q r es e _ _.
Arguments rep_owned {W X} m Q _ e _.

Section Represents.
Context {W : Type} {X : gmap ptr queue_entry}.
Implicit Types (m : mem W) (Q : gmap ptr (Z * entry_list)).

Lemma rep_lookup m Q q r es : represents X m Q -> Q !! q = Some (r, es) -> queues m !! q = Some (block (r, es)).
Proof. intros R Hq. rewrite (rep_queues m Q R), lookup_fmap, Hq. done. Qed.

Lemma rep_fuel m Q q r es : represents X m Q -> Q !! q = Some (r, es) -> (length es <= size (cells m))%nat.
Proof.
  intros R Hq. rewrite <-(length_fmap fst es). apply nodup_size; [by eapply rep_nodup|]. intros e He.
  eapply chain_lookup; [by eapply rep_chain|done].
Qed.

Lemma rep_fresh m Q q r es e : represents X m Q -> Q !! q = Some (r, es) -> cells m !! e = None -> e ∉ es.*1.
Proof. intros R Hq He Hin. destruct (chain_lookup _ _ _ e (rep_chain m Q R q r es Hq) Hin). congruence. Qed.

(** One queue has changed: entries were added, removed or linked again. *)
Lemma represents_update m m' Q q r es r' es' :
  represents X m Q -> Q !! q = Some (r, es) ->
  queues m' = <[q := block (r', es')]> (queues m) -> chain (cells m') es' None -> NoDup es'.*1 ->
  (forall e, e ∉ es.*1 -> e ∉ es'.*1 -> cells m' !! e = cells m !! e) ->
  (forall e, e ∉ es.*1 -> e ∈ es'.*1 -> cells m !! e = None) ->
  (forall e, e ∈ es.*1 -> e ∉ es'.*1 -> cells m' !! e = None) ->
  represents X m' (<[q := (r', es')]> Q).
Proof.
  intros R Hq HQ Hc Hnd Hsame Hnew Hgone.
  assert (forall q' r0 es0 e, q' <> q -> Q !! q' = Some (r0, es0) -> e ∈ es0.*1 -> e ∉ es.*1 /\ e ∉ es'.*1) as Hother.
  { intros q' r0 es0 e Hne Hq' He. assert (e ∉ es.*1) as Hes by (intros ?; by apply Hne, (rep_once m Q R q' q r0 r es0 es e)).
    split; [done|]. intros Hes'. by eapply rep_fresh; [exact R|exact Hq'|by apply Hnew|]. }
  assert (forall q' r0 es0, <[q := (r', es')]> Q !! q' = Some (r0, es0) -> (q' = q /\ r0 = r' /\ es0 = es') \/ (q' <> q /\ Q !! q' = Some (r0, es0))) as Hcase.
  { intros q' r0 es0. destruct (decide (q' = q)) as [->|]; [rewrite lookup_insert_eq; intros [= <- <-]; by left|rewrite lookup_insert_ne by done; by right]. }
  split.
  - by rewrite HQ, (rep_queues m Q R), fmap_insert.
  - intros q' r0 es0 [(-> & -> & ->)|[Hne Hq']]%Hcase; [done|]. eapply chain_frame; [|by eapply rep_chain].
    intros e He. by apply Hsame; eapply Hother.
  - intros q' r0 es0 [(-> & -> & ->)|[Hne Hq']]%Hcase; [done|]. by eapply rep_nodup.
  - intros q1 q2 r1 r2 es1 es2 e [(-> & -> & ->)|[Hne1 Hq1]]%Hcase [(-> & -> & ->)|[Hne2 Hq2]]%Hcase He1 He2; try done.
    + by destruct (Hother q2 r2 es2 e Hne2 Hq2 He2).
    + by destruct (Hother q1 r1 es1 e Hne1 Hq1 He1).
    + by eapply (rep_once m Q R).
  - apply map_subseteq_spec. intros e x Hx. pose proof (lookup_weaken _ _ _ _ Hx (rep_extra m Q R)) as Hm.
    assert (e ∉ es.*1) as Hes by (intros He; by rewrite (rep_apart m Q R _ _ _ _ Hq He) in Hx). rewrite Hsame; [done|done|].
    intros He. by rewrite Hnew in Hm.
  - intros q' r0 es0 e [(-> & -> & ->)|[Hne Hq']]%Hcase He; [|by eapply rep_apart].
    destruct (decide (e ∈ es.*1)) as [Hin|Hn]; [by eapply rep_apart|]. apply eq_None_not_Some. intros [x Hx].
    pose proof (lookup_weaken _ _ _ _ Hx (rep_extra m Q R)) as Hm. by rewrite Hnew in Hm.
  - intros e He. destruct (decide (e ∈ es'.*1)) as [|Hn']; [right; exists q, r', es'; by rewrite lookup_insert_eq|].
    destruct (decide (e ∈ es.*1)) as [Hin|Hn]; [rewrite Hgone in He by done; by destruct He|]. rewrite Hsame in He by done.
    destruct (rep_owned m Q R e He) as [?|(q' & r0 & es0 & Hq' & He')]; [by left|]. right. exists q', r0, es0. rewrite lookup_insert_ne; [done|].
    intros <-. rewrite Hq in Hq'. by injection Hq' as <- <-.
Qed.
End Represents.

(** ** Insertion and removal of one entry *)

(** The link behind [es] set to [x]. *)
Definition relink (C : gmap ptr queue_entry) (es : entry_list) (x : option ptr) : gmap ptr queue_entry :=
  match last es with Some (t, d) => <[t := mk_entry d x]> C | None => C end.

Lemma relink_other C es x e : e ∉ es.*1 -> relink C es x !! e = C !! e.
Proof.
  intros He. unfold relink. destruct es as [|[t d] es _] using rev_ind; [done|]. rewrite last_snoc.
  rewrite fmap_app, elem_of_app in He. apply lookup_insert_ne. intros ->. apply He. right. by left.
Qed.

Lemma chain_relink C es x y : NoDup es.*1 -> chain C es y -> chain (relink C es x) es x.
Proof.
  intros Hnd Hc. unfold relink. destruct es as [|[t d] es _] using rev_ind; [done|]. rewrite last_snoc. apply chain_app in Hc as [Hc _].
  rewrite fmap_app in Hnd. apply NoDup_app in Hnd as (_ & Hnd & _). apply chain_app. split; [|cbn; by rewrite lookup_insert_eq].
  eapply chain_frame; [|exact Hc]. intros p Hp. apply lookup_insert_ne. intros ->. eapply Hnd; [done|by left].
Qed.

Lemma final_app x es1 es2 : final x (es1 ++ es2) = final (final x es1) es2.
Proof. unfold final. rewrite last_app. by destruct (last es2) as [[]|]. Qed.

Section Changes.
Context {W : Type} {X : gmap ptr queue_entry}.
Implicit Types (m : mem W) (Q : gmap ptr (Z * entry_list)).

Lemma fmap_middle es1 es2 (p : ptr) (d : Z) : (es1 ++ (p, d) :: es2).*1 = es1.*1 ++ p :: es2.*1.
Proof. by rewrite fmap_app. Qed.

Lemma represents_insert m m' Q q r es1 es2 p d :
  represents X m Q -> Q !! q = Some (r, es1 ++ es2) -> cells m !! p = None ->
  queues m' = <[q := block (r, es1 ++ (p, d) :: es2)]> (queues m) ->
  cells m' = relink (<[p := mk_entry d (first es2 None)]> (cells m)) es1 (Some p) ->
  represents X m' (<[q := (r, es1 ++ (p, d) :: es2)]> Q).
Proof.
  intros R Hq Hp HQ HC. pose proof (rep_chain m Q R _ _ _ Hq) as [Hc1 Hc2]%chain_app. pose proof (rep_nodup m Q R _ _ _ Hq) as Hnd.
  pose proof (rep_fresh m Q _ _ _ p R Hq Hp) as Hf. rewrite fmap_app in Hnd, Hf. rewrite elem_of_app in Hf. apply NoDup_app in Hnd as (Hnd1 & Hdis & Hnd2).
  assert (forall e, e ∉ es1.*1 -> cells m' !! e = <[p := mk_entry d (first es2 None)]> (cells m) !! e) as Hother by (intros e He; by rewrite HC, relink_other).
  eapply represents_update; [done..| | | | |]; rewrite ?fmap_middle, ?fmap_app.
  - apply chain_app. split.
    + rewrite HC. eapply chain_relink; [done|]. eapply chain_frame; [|exact Hc1]. intros e He. apply lookup_insert_ne. intros ->. apply Hf. by left.
    + cbn. split; [rewrite Hother by tauto; by rewrite lookup_insert_eq|]. eapply chain_frame; [|exact Hc2].
      intros e He. rewrite Hother by (intros ?; by eapply Hdis). apply lookup_insert_ne. intros ->. apply Hf. by right.
  - apply NoDup_app. split; [done|]. split; [|constructor; [tauto|done]]. intros e He [->|He']%elem_of_cons; [tauto|by eapply Hdis].
  - intros e _ He. rewrite elem_of_app, elem_of_cons in He. rewrite Hother by tauto. apply lookup_insert_ne. intros ->. tauto.
  - intros e He He'. rewrite elem_of_app, elem_of_cons in He'. rewrite elem_of_app in He. assert (e = p) as -> by tauto. done.
  - intros e He He'. rewrite elem_of_app, elem_of_cons in He'. rewrite elem_of_app in He. tauto.
Qed.

Lemma represents_remove m m' Q q r es1 e d es2 :
  represents X m Q -> Q !! q = Some (r, es1 ++ (e, d) :: es2) ->
  queues m' = <[q := block (r, es1 ++ es2)]> (queues m) ->
  cells m' = delete e (relink (cells m) es1 (first es2 None)) ->
  represents X m' (<[q := (r, es1 ++ es2)]> Q).
Proof.
  intros R Hq HQ HC. pose proof (rep_chain m Q R _ _ _ Hq) as [Hc1 [_ Hc2]]%chain_app. pose proof (rep_nodup m Q R _ _ _ Hq) as Hnd.
  rewrite fmap_middle in Hnd. apply NoDup_app in Hnd as (Hnd1 & Hdis & [He2 Hnd2]%NoDup_cons).
  assert (e ∉ es1.*1) as He1 by (intros ?; eapply Hdis; [done|by left]).
  assert (forall e', e' ∉ es1.*1 -> e' <> e -> cells m' !! e' = cells m !! e') as Hother by (intros e' ? ?; by rewrite HC, lookup_delete_ne, relink_other).
  eapply represents_update; [done..| | | | |]; rewrite ?fmap_middle, ?fmap_app.
  - apply chain_app. split.
    + eapply chain_frame; [|by eapply chain_relink]. intros e' He'. rewrite HC. apply lookup_delete_ne. by intros ->.
    + eapply chain_frame; [|exact Hc2]. intros e' He'. apply Hother; [|by intros ->]. intros ?. eapply Hdis; [done|by right].
  - apply NoDup_app. split; [done|]. split; [|done]. intros e' ? ?. eapply Hdis; [done|by right].
  - intros e' He' _. rewrite elem_of_app, elem_of_cons in He'. apply Hother; [|intros ->]; tauto.
  - intros e' He' He''. rewrite elem_of_app, elem_of_cons in He'. rewrite elem_of_app in He''. tauto.
  - intros e' He' He''. rewrite elem_of_app, elem_of_cons in He'. rewrite elem_of_app in He''. assert (e' = e) as -> by tauto. rewrite HC. apply lookup_delete_eq.
Qed.
End Changes.

(** ** The operations *)

Section Operations.
Context {W : Type} `{!Allocator} {X : gmap ptr queue_entry}.
Implicit Types (m : mem W) (Q : gmap ptr (Z * entry_list)).

Lemma u32_succ es1 (x : ptr * Z) es2 : u32 (u32 (zlen (es1 ++ es2)) + 1) = u32 (zlen (es1 ++ x :: es2)).
Proof. unfold u32. rewrite wrap_add_l. f_equal. rewrite !zlen_app, zlen_cons. lia. Qed.
Lemma u32_pred es1 (x : ptr * Z) es2 : u32 (u32 (zlen (es1 ++ x :: es2)) - 1) = u32 (zlen (es1 ++ es2)).
Proof. unfold u32. rewrite wrap_sub_l. f_equal. rewrite !zlen_app, zlen_cons. lia. Qed.

Lemma push_tail_wp m Q q r es d (P : bool -> mem W -> Prop) :
  represents X m Q -> Q !! q = Some (r, es) ->
  (forall p m', represents X m' (<[q := (r, es ++ [(p, d)])]> Q) -> world m' = world m -> P true m') ->
  wp (queue_push_tail (Some q) d) P m.
Proof.
  intros R Hq HP. pose proof (rep_lookup m Q q r es R Hq) as Hl. pose proof (rep_chain m Q R q r es Hq) as Hc.
  unfold queue_push_tail, queue_entry_new. unfold block in Hl. cbn [fst snd] in Hl.
  wp_step. wp_step. intros p Hp. pose proof (rep_fresh m Q q r es p R Hq Hp) as Hpes. rewrite <-(app_nil_r es) in Hq.
  assert (P true (mk_mem (<[q := mk_queue r (first (es ++ [(p, d)]) None) (Some p) (u32 (u32 (zlen es) + 1))]> (queues m))
    (relink (<[p := mk_entry d None]> (cells m)) es (Some p)) (S (requests m)) (world m))) as Hdone.
  { apply (HP p); [|done]. apply (represents_insert m _ Q q r es [] p d); [done..| |done]. heap_simpl. f_equal. unfold block. cbn [fst snd].
    rewrite final_snoc. by rewrite <-u32_succ, app_nil_r. }
  destruct es as [|[t dt] es _] using rev_ind.
  - cbn [final first last] in Hl. repeat wp_step. rewrite !insert_insert_eq. exact Hdone.
  - rewrite final_snoc in Hl. apply chain_app in Hc as [_ [Hc _]]. cbn [first] in Hc. assert (t <> p) as Htp by (intros ->; apply Hpes; rewrite fmap_app; set_solver).
    assert (is_Some (first (es ++ [(t, dt)]) None)) as [h Hh] by (destruct es as [|[]]; by eexists). rewrite Hh in Hl. repeat wp_step.
    rewrite !insert_insert_eq. assert (first ((es ++ [(t, dt)]) ++ [(p, d)]) None = Some h) as Hh' by (rewrite <-Hh; by destruct es as [|[]]).
    rewrite Hh' in Hdone. unfold relink in Hdone. rewrite last_snoc in Hdone. exact Hdone.
Qed.

Lemma push_head_wp m Q q r es d (P : bool -> mem W -> Prop) :
  represents X m Q -> Q !! q = Some (r, es) ->
  (forall p m', represents X m' (<[q := (r, (p, d) :: es)]> Q) -> world m' = world m -> P true m') ->
  wp (queue_push_head (Some q) d) P m.
Proof.
  intros R Hq HP. pose proof (rep_lookup m Q q r es R Hq) as Hl.
  unfold queue_push_head, queue_entry_new. unfold block in Hl. cbn [fst snd] in Hl.
  wp_step. wp_step. intros p Hp.
  assert (P true (mk_mem (<[q := mk_queue r (Some p) (final (Some p) es) (u32 (u32 (zlen es) + 1))]> (queues m))
    (<[p := mk_entry d (first es None)]> (cells m)) (S (requests m)) (world m))) as Hdone.
  { apply (HP p); [|done]. apply (represents_insert m _ Q q r [] es p d); [done..| |done]. heap_simpl. f_equal. unfold block. cbn [fst snd app first].
    rewrite final_entry_cons. f_equal. apply (u32_succ [] (p, d) es). }
  destruct (final None es) as [t|] eqn:Ht; repeat wp_step; rewrite !insert_insert_eq.
  - unfold final in *. destruct (last es) as [[]|]; [|done]. rewrite Ht in Hdone. exact Hdone.
  - unfold final in *. destruct (last es) as [[]|]; [done|]. exact Hdone.
Qed.

(** Where [es1] is empty the link to change is the head of the queue. *)
Lemma push_after_wp m Q q r es x d (P : bool -> mem W -> Prop) :
  represents X m Q -> Q !! q = Some (r, es) ->
  (forall es1 e es2 p m', break (fun d => d =? x) es = (es1, (e, x) :: es2) ->
    represents X m' (<[q := (r, es1 ++ (e, x) :: (p, d) :: es2)]> Q) -> world m' = world m -> P true m') ->
  ((break (fun d => d =? x) es).2 = [] -> P false m) ->
  wp (queue_push_after (Some q) x d) P m.
Proof.
  intros R Hq HP HP'. pose proof (rep_lookup m Q q r es R Hq) as Hl. pose proof (rep_chain m Q R q r es Hq) as Hc. unfold block in Hl. cbn [fst snd] in Hl.
  unfold queue_push_after, queue_entry_new. do 4 wp_step. wp_step. apply (wp_search m _ (fun d => d =? x)); [done|pose proof (rep_fuel m Q q r es R Hq); lia|done|].
  pose proof (break_app (fun d => d =? x) es) as Happ. pose proof (break_hit (fun d => d =? x) es) as Hhit.
  destruct (break _ es) as [es1 [|[e x'] es2]] eqn:Eb; cbn [fst snd] in *; [by wp_step; apply HP'|].
  apply Z.eqb_eq in Hhit as ->. assert (es = (es1 ++ [(e, x)]) ++ es2) as Hes by (by rewrite <-app_assoc).
  rewrite Hes in Hc. apply chain_app in Hc as [[_ [He _]]%chain_app _]. cbn [first] in He. wp_step. wp_step. intros p Hp.
  assert (e <> p) as Hep by (intros ->; congruence).
  assert (P true (mk_mem (<[q := block (r, (es1 ++ [(e, x)]) ++ (p, d) :: es2)]> (queues m))
    (relink (<[p := mk_entry d (first es2 None)]> (cells m)) (es1 ++ [(e, x)]) (Some p)) (S (requests m)) (world m))) as Hdone.
  { apply (HP es1 e es2 p); [done| |done]. rewrite Hes in Hq.
    assert (es1 ++ (e, x) :: (p, d) :: es2 = (es1 ++ [(e, x)]) ++ (p, d) :: es2) as -> by (by rewrite <-app_assoc).
    by apply (represents_insert m _ Q q r _ es2 p d R Hq Hp). }
  unfold relink in Hdone. rewrite last_snoc in Hdone. unfold block in Hdone. cbn [fst snd] in Hdone.
  rewrite <-u32_succ, <-Hes, final_app, final_entry_cons in Hdone. replace (first ((es1 ++ [(e, x)]) ++ (p, d) :: es2) None) with (first es None) in Hdone by (rewrite Hes; by destruct es1 as [|[]]).
  assert (final None es = final (Some e) es2) as Hfin by (by rewrite Hes, final_app, final_snoc). rewrite Hfin in Hl.
  destruct es2 as [|[e2 d2] es2]; cbn [first] in *; rewrite ?final_entry_cons in Hl, Hdone; repeat wp_step; rewrite !insert_insert_eq; exact Hdone.
Qed.

(** The statements that take out one entry. *)
Lemma unlink_wp m Q q r es1 e d es2 (P : Z -> mem W -> Prop) :
  represents X m Q -> Q !! q = Some (r, es1 ++ (e, d) :: es2) ->
  (forall m', represents X m' (<[q := (r, es1 ++ es2)]> Q) -> world m' = world m -> P d m') ->
  wp (unlink q (final None es1) e) P m.
Proof.
  intros R Hq HP. pose proof (rep_lookup m Q _ _ _ R Hq) as Hl. pose proof (rep_chain m Q R _ _ _ Hq) as [Hc1 [He _]]%chain_app. cbn [first] in Hc1.
  pose proof (rep_nodup m Q R _ _ _ Hq) as Hnd. rewrite fmap_middle in Hnd. apply NoDup_app in Hnd as (_ & Hdis & _).
  assert (P d (mk_mem (<[q := block (r, es1 ++ es2)]> (queues m)) (delete e (relink (cells m) es1 (first es2 None))) (requests m) (world m))) as Hdone
    by (apply HP; [by eapply represents_remove|done]).
  unfold block in Hl, Hdone. cbn [fst snd] in Hl, Hdone. rewrite final_app, final_entry_cons in Hl. rewrite <-(u32_pred es1 (e, d) es2), final_app, first_entry_app in Hdone. rewrite first_entry_app in Hl. cbn [first] in Hl.
  unfold unlink. destruct es1 as [|[t dt] es1 _] using rev_ind.
  - cbn [final last first relink] in *. destruct es2 as [|[e2 d2] es2]; cbn [first] in *; rewrite ?final_entry_cons in *; repeat wp_step; rewrite ?insert_insert_eq; exact Hdone.
  - rewrite final_snoc in *. unfold relink in Hdone. rewrite last_snoc in Hdone. apply chain_app in Hc1 as [_ [Ht _]].
    assert (t <> e) as Hte by (intros ->; eapply Hdis; [rewrite fmap_app; apply elem_of_app; right; by left|by left]).
    assert (forall x, first (es1 ++ [(t, dt)]) x = first (es1 ++ [(t, dt)]) None) as Hf by (by destruct es1 as [|[]]). rewrite Hf in Hl, Hdone.
    destruct es2 as [|[e2 d2] es2]; cbn [first] in *; rewrite ?final_entry_cons in *; repeat wp_step; rewrite ?insert_insert_eq; exact Hdone.
Qed.

Lemma pop_head_wp m Q q r es (P : Z -> mem W -> Prop) :
  represents X m Q -> Q !! q = Some (r, es) ->
  match es with
  | [] => P 0 m
  | (e, d) :: es => forall m', represents X m' (<[q := (r, es)]> Q) -> world m' = world m -> P d m'
  end ->
  wp (queue_pop_head (Some q)) P m.
Proof.
  intros R Hq HP. pose proof (rep_lookup m Q _ _ _ R Hq) as Hl. pose proof (rep_chain m Q R _ _ _ Hq) as Hc. unfold block in Hl. cbn [fst snd] in Hl.
  unfold queue_pop_head. destruct es as [|[e d] es]; cbn [first] in *; [by repeat wp_step|]. destruct Hc as [He _].
  assert (P d (mk_mem (<[q := block (r, es)]> (queues m)) (delete e (cells m)) (requests m) (world m))) as Hdone
    by (apply HP; [by apply (represents_remove m _ Q q r [] e d es)|done]).
  unfold block in Hdone. cbn [fst snd] in Hdone. rewrite <-(u32_pred [] (e, d) es : _ = u32 (zlen es)) in Hdone. rewrite final_entry_cons in Hl.
  destruct es as [|[e2 d2] es]; cbn [first] in *; rewrite ?final_entry_cons in *; repeat wp_step; rewrite ?insert_insert_eq; exact Hdone.
Qed.

Lemma peek_head_wp m Q q r es (P : Z -> mem W -> Prop) :
  represents X m Q -> Q !! q = Some (r, es) -> P (default 0 (head es.*2)) m -> wp (queue_peek_head (Some q)) P m.
Proof.
  intros R Hq HP. pose proof (rep_lookup m Q _ _ _ R Hq) as Hl. pose proof (rep_chain m Q R _ _ _ Hq) as Hc. unfold block in Hl. cbn [fst snd] in Hl.
  unfold queue_peek_head. destruct es as [|[e d] es]; cbn [first] in *; [by repeat wp_step|]. destruct Hc as [He _]. by repeat wp_step.
Qed.

Lemma peek_tail_wp m Q q r es (P : Z -> mem W -> Prop) :
  represents X m Q -> Q !! q = Some (r, es) -> P (default 0 (last es.*2)) m -> wp (queue_peek_tail (Some q)) P m.
Proof.
  intros R Hq HP. pose proof (rep_lookup m Q _ _ _ R Hq) as Hl. pose proof (rep_chain m Q R _ _ _ Hq) as Hc. unfold block in Hl. cbn [fst snd] in Hl.
  unfold queue_peek_tail. destruct es as [|[e d] es _] using rev_ind; [by repeat wp_step|]. apply chain_app in Hc as [_ [He _]].
  rewrite final_snoc in Hl. rewrite fmap_last, last_snoc in HP. by repeat wp_step.
Qed.

Lemma size_wp m Q q r es (P : Z -> mem W -> Prop) :
  represents X m Q -> Q !! q = Some (r, es) -> P (u32 (zlen es)) m -> wp (queue_length (Some q)) P m.
Proof. intros R Hq HP. pose proof (rep_lookup m Q _ _ _ R Hq) as Hl. unfold queue_length. by repeat wp_step. Qed.

Lemma isempty_wp m Q q r es (P : bool -> mem W -> Prop) :
  represents X m Q -> Q !! q = Some (r, es) -> P (u32 (zlen es) =? 0) m -> wp (queue_isempty (Some q)) P m.
Proof. intros R Hq HP. pose proof (rep_lookup m Q _ _ _ R Hq) as Hl. unfold queue_isempty. by repeat wp_step. Qed.

(** A search in the list of a queue. *)
Lemma queue_search_wp m Q q r es p f (P : option (option ptr * ptr) -> mem W -> Prop) :
  represents X m Q -> Q !! q = Some (r, es) ->
  (forall d, d ∈ es.*2 -> p d m = Ret (f d, m)) ->
  (match break f es with (_, []) => P None m | (es1, (e, d) :: es2) => P (Some (final None es1, e)) m end) ->
  wp (search (S (size (cells m))) p None (first es None)) P m.
Proof.
  intros R Hq Hp HP. apply (wp_search m p f); [by eapply rep_chain|pose proof (rep_fuel m Q q r es R Hq); lia|done|].
  by destruct (break f es) as [es1 [|[e d] es2]].
Qed.

Lemma find_wp m Q q r es function x f (P : Z -> mem W -> Prop) :
  represents X m Q -> Q !! q = Some (r, es) -> (forall d, d ∈ es.*2 -> default direct_match function d x m = Ret (f d, m)) ->
  P (match (break f es).2 with (_, d) :: _ => d | [] => 0 end) m -> wp (queue_find (Some q) function x) P m.
Proof.
  intros R Hq Hp HP. pose proof (rep_lookup m Q _ _ _ R Hq) as Hl. unfold block in Hl. cbn [fst snd] in Hl.
  unfold queue_find. do 5 wp_step. eapply (queue_search_wp m Q q r es _ f); [done..|]. pose proof (break_app f es) as Happ.
  destruct (break _ es) as [es1 [|[e d] es2]]; cbn [fst snd] in *; [by wp_step|].
  pose proof (rep_chain m Q R _ _ _ Hq) as Hc. rewrite Happ in Hc. apply chain_app in Hc as [_ [He _]]. by repeat wp_step.
Qed.

Lemma remove_if_wp m Q q r es function x f (P : Z -> mem W -> Prop) :
  represents X m Q -> Q !! q = Some (r, es) -> (forall d, d ∈ es.*2 -> default direct_match function d x m = Ret (f d, m)) ->
  (match break f es with
   | (_, []) => P 0 m
   | (es1, (e, d) :: es2) => forall m', represents X m' (<[q := (r, es1 ++ es2)]> Q) -> world m' = world m -> P d m'
   end) -> wp (queue_remove_if (Some q) function x) P m.
Proof.
  intros R Hq Hp HP. pose proof (rep_lookup m Q _ _ _ R Hq) as Hl. unfold block in Hl. cbn [fst snd] in Hl.
  unfold queue_remove_if. do 5 wp_step. eapply (queue_search_wp m Q q r es _ f); [done..|]. pose proof (break_app f es) as Happ.
  destruct (break _ es) as [es1 [|[e d] es2]]; cbn [fst snd] in *; [by wp_step|]. rewrite Happ in Hq. by eapply unlink_wp.
Qed.

Lemma remove_wp m Q q r es x (P : bool -> mem W -> Prop) :
  represents X m Q -> Q !! q = Some (r, es) ->
  (match break (fun d => d =? x) es with
   | (_, []) => P false m
   | (es1, (e, d) :: es2) => forall m', represents X m' (<[q := (r, es1 ++ es2)]> Q) -> world m' = world m -> P true m'
   end) -> wp (queue_remove (Some q) x) P m.
Proof.
  intros R Hq HP. pose proof (rep_lookup m Q _ _ _ R Hq) as Hl. unfold block in Hl. cbn [fst snd] in Hl.
  unfold queue_remove. do 5 wp_step. eapply (queue_search_wp m Q q r es _ (fun d => d =? x)); [done..|]. pose proof (break_app (fun d => d =? x) es) as Happ.
  destruct (break _ es) as [es1 [|[e d] es2]]; cbn [fst snd] in *; [by wp_step|]. rewrite Happ in Hq. wp_step. eapply unlink_wp; [done..|].
  intros m' R' Hw. wp_step. by apply HP.
Qed.
End Operations.

(** ** Entries out of a queue *)

Fixpoint cells_of (es : entry_list) : gmap ptr queue_entry :=
  match es with [] => ∅ | (p, d) :: es => <[p := mk_entry d (first es None)]> (cells_of es) end.

Lemma cells_of_None es e : e ∉ es.*1 -> cells_of es !! e = None.
Proof. induction es as [|[p d] es IH]; cbn; [done|]. intros [? ?]%not_elem_of_cons. rewrite lookup_insert_ne by done. by apply IH. Qed.
Lemma cells_of_Some es e : is_Some (cells_of es !! e) -> e ∈ es.*1.
Proof.
  intros He. destruct (decide (e ∈ es.*1)) as [|Hn]; [done|]. rewrite cells_of_None in He by done. by destruct He.
Qed.
Lemma cells_of_chain C es : chain C es None -> NoDup es.*1 -> cells_of es ⊆ C.
Proof.
  induction es as [|[p d] es IH]; cbn; [intros; apply map_empty_subseteq|]. intros [Hp Hc] [_ Hnd]%NoDup_cons. apply insert_subseteq_l; [done|by apply IH].
Qed.

Section Detach.
Context {W : Type}.
Implicit Types (m : mem W) (Q : gmap ptr (Z * entry_list)) (X : gmap ptr queue_entry).

Lemma represents_detach X m m' Q q r es :
  represents X m Q -> Q !! q = Some (r, es) -> queues m' = <[q := block (r, [])]> (queues m) -> cells m' = cells m ->
  represents (cells_of es ∪ X) m' (<[q := (r, [])]> Q).
Proof.
  intros R Hq HQ HC. pose proof (rep_nodup m Q R _ _ _ Hq) as Hnd. pose proof (rep_chain m Q R _ _ _ Hq) as Hch.
  assert (forall q' r' es', <[q := (r, [])]> Q !! q' = Some (r', es') -> es' = [] \/ (q' <> q /\ Q !! q' = Some (r', es'))) as Hcase
    by (intros q' r' es' [[_ [= _ <-]]|[? ?]]%lookup_insert_Some; [by left|by right]).
  split; rewrite ?HC.
  - by rewrite HQ, (rep_queues m Q R), fmap_insert.
  - intros q' r' es' [->|[_ ?]]%Hcase; [done|]. by eapply rep_chain.
  - intros q' r' es' [->|[_ ?]]%Hcase; [constructor|]. by eapply rep_nodup.
  - intros q1 q2 r1 r2 es1 es2 e [->|[_ H1]]%Hcase [->|[_ H2]]%Hcase He1 He2; [by apply elem_of_nil in He1..|by apply elem_of_nil in He2|]. by eapply (rep_once m Q R).
  - apply map_union_least; [by apply cells_of_chain|by apply (rep_extra m Q R)].
  - intros q' r' es' e [->|[Hne Hq']]%Hcase He; [by apply elem_of_nil in He|]. apply lookup_union_None. split; [|by eapply rep_apart].
    apply cells_of_None. intros He'. apply Hne. by eapply (rep_once m Q R).
  - intros e He. destruct (rep_owned m Q R e He) as [[x Hx]|(q' & r' & es' & Hq' & He')].
    + left. destruct (cells_of es !! e) as [y|] eqn:E; [exists y; by apply lookup_union_Some_l|exists x; by rewrite lookup_union_r].
    + destruct (decide (q' = q)) as [->|]; [|right; exists q', r', es'; by rewrite lookup_insert_ne].
      rewrite Hq in Hq'. injection Hq' as <- <-. left. destruct (cells_of es !! e) as [y|] eqn:E; [exists y; by apply lookup_union_Some_l|].
      exfalso. clear -E He' Hnd. induction es as [|[p d] es IH]; cbn in *; [by apply elem_of_nil in He'|]. apply NoDup_cons in Hnd as [_ Hnd].
      apply lookup_insert_None in E as [E Hne]. apply elem_of_cons in He' as [->|He']; [done|by apply IH].
Qed.

Lemma represents_free X m Q e x :
  represents (<[e := x]> X) m Q -> X !! e = None -> represents X (with_cells (delete e (cells m)) m) Q.
Proof.
  intros R He. assert (forall q r es, Q !! q = Some (r, es) -> e ∉ es.*1) as Hout.
  { intros q r es Hq Hin. pose proof (rep_apart m Q R q r es e Hq Hin) as Hx. by rewrite lookup_insert_eq in Hx. }
  split; heap_simpl.
  - apply (rep_queues m Q R).
  - intros q r es Hq. eapply chain_frame; [|by eapply (rep_chain m Q R)]. intros p Hp. apply lookup_delete_ne. intros ->. by eapply Hout.
  - apply (rep_nodup m Q R).
  - apply (rep_once m Q R).
  - pose proof (rep_extra m Q R) as HX. apply map_subseteq_spec. intros p y Hp. assert (p <> e) as Hne by congruence. rewrite lookup_delete_ne by done.
    eapply lookup_weaken; [|exact HX]. by rewrite lookup_insert_ne.
  - intros q r es p Hq Hp. pose proof (rep_apart m Q R q r es p Hq Hp) as Hx. apply lookup_insert_None in Hx. tauto.
  - intros p [Hne Hp]%lookup_delete_is_Some. destruct (rep_owned m Q R p Hp) as [Hx|?]; [left; by rewrite lookup_insert_ne in Hx|by right].
Qed.
End Detach.
