(* ===== verification/QueueMain.v ===== *)
(** The queue as a whole: the operations that call functions for elements, the lists that queues stand for,
    and the theorems. *)

From stdpp Require Import gmap.
From S2P Require Import Prelude Util Alloc Queue QueueSpec.

(** ** Life *)

Section Life.
Context {W : Type} `{!Allocator} {X : gmap ptr queue_entry}.
Implicit Types (m : mem W) (Q : gmap ptr (Z * entry_list)).

Definition with_world x m : mem W := mk_mem (queues m) (cells m) (requests m) x.

Lemma represents_world m Q w : represents X m Q -> represents X (with_world w m) Q.
Proof. by intros []. Qed.

Lemma new_wp m Q (P : option ptr -> mem W -> Prop) :
  represents X m Q ->
  (forall p m', Q !! p = None -> represents X m' (<[p := (1, [])]> Q) -> world m' = world m -> P (Some p) m') ->
  wp queue_new P m.
Proof.
  intros R HP. unfold queue_new, queue_ref. wp_step. wp_step. intros p Hp. repeat wp_step. apply (HP p); [|split|done]; heap_simpl.
  - rewrite (rep_queues m Q R), lookup_fmap in Hp. by destruct (Q !! p).
  - by rewrite insert_insert_eq, (rep_queues m Q R), fmap_insert.
  - intros q r es. destruct (decide (q = p)) as [->|]; [rewrite lookup_insert_eq; by intros [= <- <-]|]. rewrite lookup_insert_ne by done. by apply R.
  - intros q r es. destruct (decide (q = p)) as [->|]; [rewrite lookup_insert_eq; intros [= <- <-]; constructor|]. rewrite lookup_insert_ne by done. by apply R.
  - intros q q' r r' es es' e. destruct (decide (q = p)) as [->|]; [rewrite lookup_insert_eq; intros [= <- <-] _ ?%elem_of_nil; done|].
    destruct (decide (q' = p)) as [->|]; [rewrite lookup_insert_eq; intros _ [= <- <-] _ ?%elem_of_nil; done|]. rewrite !lookup_insert_ne by done. by apply R.
  - apply (rep_extra m Q R).
  - intros q r es e. destruct (decide (q = p)) as [->|]; [rewrite lookup_insert_eq; intros [= <- <-] ?%elem_of_nil; done|]. rewrite lookup_insert_ne by done. by apply R.
  - intros e [?|(q & r & es & Hq & He)]%(rep_owned m Q R); [by left|]. right. exists q, r, es. split; [|done]. rewrite lookup_insert_ne; [done|]. intros <-.
    rewrite (rep_queues m Q R), lookup_fmap, Hq in Hp. done.
Qed.

(** One reference less: an empty queue without references is freed. *)
Lemma unref_wp m Q q r es (P : () -> mem W -> Prop) :
  represents X m Q -> Q !! q = Some (r, es) -> 0 <= r - 1 < 2 ^ 31 ->
  (1 < r -> forall m', represents X m' (<[q := (r - 1, es)]> Q) -> world m' = world m -> P () m') ->
  (r = 1 -> es = [] /\ forall m', represents X m' (delete q Q) -> world m' = world m -> P () m') ->
  wp (queue_unref q) P m.
Proof.
  intros R Hq Hr HP HP0. pose proof (rep_lookup m Q _ _ _ R Hq) as Hl. unfold block in Hl. cbn [fst snd] in Hl.
  unfold queue_unref. do 4 wp_step. rewrite s32_small by lia. destruct (Z.eqb_spec (r - 1) 0) as [Hz|Hz].
  - destruct HP0 as [-> HP0]; [lia|]. wp_step. apply HP0; [|done]. split; heap_simpl.
    + by rewrite delete_insert_eq, (rep_queues m Q R), fmap_delete.
    + intros q' r' es' [? Hq']%lookup_delete_Some. by eapply R.
    + intros q' r' es' [? Hq']%lookup_delete_Some. by eapply R.
    + intros q1 q2 r1 r2 es1 es2 e [? H1]%lookup_delete_Some [? H2]%lookup_delete_Some. by eapply R.
    + apply (rep_extra m Q R).
    + intros q' r' es' e [? Hq']%lookup_delete_Some. by eapply R.
    + intros e [?|(q' & r' & es' & Hq' & He)]%(rep_owned m Q R); [by left|]. right. exists q', r', es'. split; [|done]. rewrite lookup_delete_ne; [done|].
      intros <-. rewrite Hq in Hq'. injection Hq' as <- <-. by apply elem_of_nil in He.
  - wp_step. apply HP; [lia| |done]. eapply represents_update; [done..| | | | |]; heap_simpl; [by eapply rep_chain|by eapply rep_nodup|done|done|done].
Qed.

End Life.

(** ** Removal of many elements *)

Section Removal.
Context {W : Type} `{!Allocator}.
Implicit Types (m : mem W) (Q : gmap ptr (Z * entry_list)) (X : gmap ptr queue_entry).

(** What the removal of all elements asks of the destroy function; [J l] holds while the elements [l] are
    left. *)
Definition destroys (destroy : option (Z -> M ())) (J : list Z -> gmap ptr (Z * entry_list) -> W -> Prop) : Prop :=
  forall X m Q d l, represents X m Q -> J (d :: l) Q (world m) ->
  wp (call_destroy destroy d) (fun _ m' => exists Q', represents X m' Q' /\ J l Q' (world m')) m.

Lemma free_chain_wp destroy J es : destroys destroy J -> forall X m Q count fuel (P : Z -> mem W -> Prop),
  represents (cells_of es ∪ X) m Q -> NoDup es.*1 -> (forall e, e ∈ es.*1 -> X !! e = None) -> (length es <= fuel)%nat -> is_u32 count -> J es.*2 Q (world m) ->
  (forall m' Q', represents X m' Q' -> J [] Q' (world m') -> P (u32 (count + zlen es)) m') ->
  wp (free_chain fuel (first es None) destroy count) P m.
Proof.
  intros HJ. induction es as [|[e d] es IH]; intros X m Q count fuel P R Hnd HX Hf Hcount Hj HP.
  { destruct fuel; cbn [first free_chain]; wp_step; specialize (HP m Q); rewrite zlen_nil, Z.add_0_r, u32_small in HP by done; apply HP; try done; cbn in R; by rewrite (left_id ∅ (∪)) in R. }
  cbn in Hnd. apply NoDup_cons in Hnd as [Hnin Hnd]. destruct fuel as [|fuel]; cbn in Hf; [lia|]. cbn [first free_chain].
  cbn [cells_of] in R. rewrite <-insert_union_l in R.
  assert (forall m' Q', represents (<[e := mk_entry d (first es None)]> (cells_of es ∪ X)) m' Q' -> cells m' !! e = Some (mk_entry d (first es None))) as Hlook
    by (intros m' Q' R'; eapply lookup_weaken; [|apply (rep_extra m' Q' R')]; by rewrite lookup_insert_eq).
  assert ((cells_of es ∪ X) !! e = None) as Hnone by (apply lookup_union_None; split; [by apply cells_of_None|apply HX; by left]).
  pose proof (Hlook m Q R) as Hl. do 3 wp_step. eapply wp_mono; [eapply HJ; [exact R|exact Hj]|]. cbn. intros _ m1 (Q1 & R1 & Hj1). pose proof (Hlook m1 Q1 R1) as Hl1. do 2 wp_step.
  eapply (IH X _ Q1); [by eapply represents_free|done|intros; apply HX; by right|lia|apply wrap_range; lia|done|]. intros m' Q' R' Hj'.
  replace (u32 (u32 (count + 1) + zlen es)) with (u32 (count + zlen ((e, d) :: es))); [by eapply HP|].
  unfold u32. rewrite wrap_add_l. f_equal. rewrite zlen_cons. lia.
Qed.

Lemma remove_all_wp destroy J X m Q q r es fuel x (P : Z -> mem W -> Prop) :
  destroys destroy J -> represents X m Q -> Q !! q = Some (r, es) -> (length es <= fuel)%nat -> J es.*2 (<[q := (r, [])]> Q) (world m) ->
  (forall m' Q', represents X m' Q' -> J [] Q' (world m') -> P (u32 (zlen es)) m') ->
  wp (queue_remove_all fuel (Some q) None x destroy) P m.
Proof.
  intros HJ R Hq Hf Hj HP. pose proof (rep_lookup m Q _ _ _ R Hq) as Hl. unfold block in Hl. cbn [fst snd] in Hl.
  unfold queue_remove_all. do 8 wp_step. eapply free_chain_wp; [exact HJ| | | |done|done| |].
  - eapply (represents_detach X m _ Q q r es); [done..| |done]. heap_simpl. by rewrite !insert_insert_eq.
  - by eapply (rep_nodup m Q R).
  - intros e He. by eapply (rep_apart m Q R).
  - done.
  - intros m' Q' R' Hj'. rewrite Z.add_0_l. by eapply HP.
Qed.

Lemma destroy_wp destroy J X m Q q es fuel (P : () -> mem W -> Prop) :
  destroys destroy J -> (forall Q w, J [] Q w -> Q !! q = Some (1, [])) ->
  represents X m Q -> Q !! q = Some (1, es) -> (length es <= fuel)%nat -> J es.*2 (<[q := (1, [])]> Q) (world m) ->
  (forall m' Q', represents X m' (delete q Q') -> J [] Q' (world m') -> P () m') ->
  wp (queue_destroy fuel (Some q) destroy) P m.
Proof.
  intros HJ Hend R Hq Hf Hj HP. unfold queue_destroy. wp_step. eapply remove_all_wp; [done..|]. intros m' Q' R' Hj'.
  eapply unref_wp; [done|by eapply Hend|lia|lia|]. intros _. split; [done|]. intros m'' R'' Hw'. apply (HP m'' Q'); [done|by rewrite Hw'].
Qed.

(** What the removal of the matching elements asks of the functions; [K l] holds while the queue has the
    elements [l], of which the match function picks those with [f]. *)
Definition selects X (q : ptr) (r : Z) (function : Z -> Z -> M bool) (x : Z) (destroy : option (Z -> M ())) (f : Z -> bool) (K : list Z -> gmap ptr (Z * entry_list) -> W -> Prop) : Prop :=
  (forall m Q es d, represents X m Q -> Q !! q = Some (r, es) -> K es.*2 Q (world m) -> d ∈ es.*2 -> function d x m = Ret (f d, m)) /\
  (forall m Q es1 e d es2, represents X m (<[q := (r, es1 ++ es2)]> Q) -> Q !! q = Some (r, es1 ++ (e, d) :: es2) -> K (es1 ++ (e, d) :: es2).*2 Q (world m) ->
    Forall (fun x => f x.2 = false) es1 -> f d = true ->
    wp (call_destroy destroy d) (fun _ m' => exists Q' es', represents X m' Q' /\ Q' !! q = Some (r, es') /\ es'.*2 = (es1 ++ es2).*2 /\ K (es1 ++ es2).*2 Q' (world m')) m).

Lemma filter_out {A} (f : A -> bool) (es : list (ptr * A)) : Forall (fun x => f x.2 = false) es -> filter (fun d => f d = true) es.*2 = [].
Proof. induction 1 as [|[e d] es Hd _ IH]; cbn; [done|]. cbn in Hd. rewrite decide_False by congruence. done. Qed.
Lemma filter_in {A} (f : A -> bool) (es : list (ptr * A)) : Forall (fun x => f x.2 = false) es -> filter (fun d => f d = false) es.*2 = es.*2.
Proof. induction 1 as [|[e d] es Hd _ IH]; cbn; [done|]. cbn in Hd. rewrite decide_True by done. by f_equal. Qed.

Lemma remove_matching_wp X q r function x destroy f K fuel : selects X q r function x destroy f K -> forall m Q es count (P : Z -> mem W -> Prop),
  represents X m Q -> Q !! q = Some (r, es) -> (length es < fuel)%nat -> is_u32 count -> K es.*2 Q (world m) ->
  (forall m' Q' es', represents X m' Q' -> Q' !! q = Some (r, es') -> es'.*2 = filter (fun d => f d = false) es.*2 -> K es'.*2 Q' (world m') ->
    P (u32 (count + zlen (filter (fun d => f d = true) es.*2))) m') ->
  wp (remove_matching fuel q function x destroy count) P m.
Proof.
  intros [Hmatch Hdestroy]. induction fuel as [|fuel IH]; intros m Q es count P R Hq Hf Hcount HK HP; [lia|].
  pose proof (rep_lookup m Q _ _ _ R Hq) as Hl. unfold block in Hl. cbn [fst snd] in Hl. cbn [remove_matching]. do 3 wp_step.
  eapply (remove_if_wp m Q q r es _ x f); [done|done|intros; by eapply Hmatch|]. pose proof (break_app f es) as Happ. pose proof (break_hit f es) as Hhit.
  pose proof (break_miss f es) as Hmiss. destruct (break f es) as [es1 [|[e d] es2]] eqn:Eb; cbn [fst snd] in *.
  - do 2 wp_step. rewrite Z.eqb_refl. wp_step. rewrite app_nil_r in Happ. subst es1. specialize (HP m Q es R Hq).
    rewrite (filter_out _ _ Hmiss), (filter_in _ _ Hmiss), zlen_nil, Z.add_0_r, u32_small in HP by done. by apply HP.
  - intros m1 R1 Hw1. pose proof (rep_lookup m1 _ q r _ R1 ltac:(by rewrite lookup_insert_eq)) as Hl1. unfold block in Hl1. cbn [fst snd] in Hl1. do 2 wp_step.
    destruct (Z.eqb_spec (u32 (zlen es)) (u32 (zlen (es1 ++ es2)))) as [Heq|_].
    { rewrite Happ, <-(u32_pred es1 (e, d) es2) in Heq. exfalso. revert Heq. unfold u32, wrap. dlia. }
    rewrite Happ in Hq, HK. wp_step. eapply wp_mono; [apply (Hdestroy m1 Q es1 e d es2); [done|done|by rewrite Hw1|done|done]|].
    cbn. intros _ m2 (Q2 & es' & R2 & Hq2 & Hes & HK2). rewrite <-Hes in HK2. eapply (IH _ Q2 es'); [done|done| |apply wrap_range; lia|done|].
    + pose proof (f_equal length Hes) as Hlen. rewrite Happ in Hf. rewrite !length_fmap, !length_app in *. cbn in Hf. lia.
    + intros m' Q' es'' R' Hq' Hes'' HK'.
      assert (filter (fun d => f d = true) es.*2 = d :: filter (fun d => f d = true) es'.*2) as Hfil.
      { rewrite Hes, Happ, !fmap_app, !filter_app, (filter_out _ _ Hmiss). cbn. by rewrite decide_True. }
      replace (u32 (u32 (count + 1) + zlen (filter (fun d => f d = true) es'.*2))) with (u32 (count + zlen (filter (fun d => f d = true) es.*2))).
      2: { rewrite Hfil. unfold u32. rewrite wrap_add_l. f_equal. rewrite zlen_cons. lia. }
      apply (HP m' Q' es''); [done|done| |done].
      rewrite Hes'', Hes, Happ, !fmap_app, !filter_app. f_equal. cbn. rewrite decide_False; [done|]. by rewrite Hhit.
Qed.

(** A function for elements that works on the world of the caller only. *)
Definition keeps_queues (destroy : option (Z -> M ())) (g : Z -> W -> W) : Prop :=
  forall d m (P : () -> mem W -> Prop), P () (with_world (g d (world m)) m) -> wp (call_destroy destroy d) P m.
Definition after (g : Z -> W -> W) (l : list Z) (w : W) : W := foldl (fun w d => g d w) w l.

Lemma keeps_destroys destroy g Q0 w0 : keeps_queues destroy g -> destroys destroy (fun l Q w => Q = Q0 /\ after g l w = w0).
Proof. intros Hg X m Q d l R [-> Hw]. apply Hg. exists Q0. split; [by apply represents_world|done]. Qed.

(** A match function that depends on the element only. *)
Definition pure_match (f : Z -> Z -> bool) (d x : Z) : M (W := W) bool := mret (f d x).

Lemma keeps_selects destroy g X q r f x Q0 w0 : keeps_queues destroy g ->
  selects X q r (pure_match f) x destroy (fun d => f d x) (fun l Q w => (exists es, Q = <[q := (r, es)]> Q0) /\ after g (filter (fun d => f d x = true) l) w = w0).
Proof.
  intros Hg. split; [done|]. intros m Q es1 e d es2 R Hq [[es ->] Hw] Hmiss Hd. rewrite insert_insert_eq in R. apply Hg.
  exists (<[q := (r, es1 ++ es2)]> Q0), (es1 ++ es2). split; [by apply represents_world|]. rewrite lookup_insert_eq. split_and!; [done|done|by eexists|].
  rewrite fmap_app, filter_app, (filter_out (fun d => f d x) _ Hmiss) in Hw |- *. cbn in Hw. by rewrite decide_True in Hw.
Qed.
End Removal.

(** ** Visits *)

Section Foreach.
Context {W : Type} `{!Allocator}.
Implicit Types (m : mem W) (Q : gmap ptr (Z * entry_list)) (X : gmap ptr queue_entry).

(** What [queue_foreach] asks of the function: it may change the queue up to the element it is called for,
    and so remove this element, and add elements behind the next one, or destroy the queue; the next element, whose
    entry was fetched before the call, stays next.  [J n l] holds while the elements [l] are left to visit, in at
    most [n] rounds, and [D] when the queue is destroyed. *)
Definition visits_by X (q : ptr) (function : Z -> M ()) (J : nat -> list Z -> gmap ptr (Z * entry_list) -> W -> Prop) (D : gmap ptr (Z * entry_list) -> W -> Prop) : Prop :=
  forall n m Q es1 e d es2, represents X m Q -> Q !! q = Some (2, es1 ++ (e, d) :: es2) -> J n (d :: es2.*2) Q (world m) -> exists n', n = S n' /\
  wp (function d) (fun _ m' => exists Q', represents X m' Q' /\
    ((exists es1' es2', Q' !! q = Some (2, es1' ++ es2') /\ head es2' = head es2 /\ J n' es2'.*2 Q' (world m')) \/ (Q' !! q = Some (1, []) /\ D Q' (world m')))) m.

Lemma first_head (es es' : entry_list) o : head es' = head es -> first es' o = first es o.
Proof. destruct es as [|[e d] es], es' as [|[e' d'] es']; cbn; congruence. Qed.

Lemma foreach_loop_by X q function J D fuel : visits_by X q function J D -> forall n m Q es1 es2 (P : () -> mem W -> Prop),
  represents X m Q -> Q !! q = Some (2, es1 ++ es2) -> (n < fuel)%nat -> J n es2.*2 Q (world m) ->
  (forall n' m' Q' es', represents X m' Q' -> Q' !! q = Some (2, es') -> J n' [] Q' (world m') -> P () m') ->
  (forall m' Q', represents X m' Q' -> Q' !! q = Some (1, []) -> D Q' (world m') -> P () m') ->
  wp (foreach_loop fuel q function (first es2 None)) P m.
Proof.
  intros Hv. induction fuel as [|fuel IH]; intros n m Q es1 es2 P R Hq Hf Hj HP HPd; [lia|]. cbn [foreach_loop].
  destruct es2 as [|[e d] es2]; cbn [first].
  { wp_step. by eapply HP. }
  pose proof (rep_lookup m Q _ _ _ R Hq) as Hl. unfold block in Hl. cbn [fst snd] in Hl. wp_step. wp_step. rewrite first_entry_app. cbn [first].
  assert (is_Some (first es1 (Some e))) as [h ->] by (destruct es1 as [|[]]; by eexists). change (1 <? 2) with true. cbv iota beta.
  pose proof (rep_chain m Q R _ _ _ Hq) as [_ [He _]]%chain_app. destruct (Hv n m Q es1 e d es2 R Hq Hj) as (n' & -> & Hcall).
  do 3 wp_step. eapply wp_mono; [exact Hcall|]. cbn. intros _ m1 (Q1 & R1 & [(es1' & es2' & Hq1 & Hhead & Hj1)|[Hq1 Hd]]).
  - rewrite <-(first_head es2 es2' None Hhead). eapply (IH n' m1 Q1 es1'); [done..|lia|done|done|done].
  - assert (P () m1) as Hstop by (by eapply HPd). pose proof (rep_lookup m1 Q1 _ _ _ R1 Hq1) as Hl1. unfold block in Hl1. cbn [fst snd first] in Hl1.
    destruct fuel as [|fuel]; [lia|]. cbn [foreach_loop]. destruct (first es2 None) as [e2|]; [|by wp_step]. do 2 wp_step. by wp_step.
Qed.

Lemma foreach_by X q function J D n m Q es fuel (P : () -> mem W -> Prop) : visits_by X q function J D ->
  represents X m Q -> Q !! q = Some (1, es) -> (n < fuel)%nat -> J n es.*2 (<[q := (2, es)]> Q) (world m) ->
  (es = [] -> P () m) ->
  (forall n' m' Q' es', represents X m' (<[q := (1, es')]> Q') -> Q' !! q = Some (2, es') -> J n' [] Q' (world m') -> P () m') ->
  (forall m' Q', represents X m' (delete q Q') -> Q' !! q = Some (1, []) -> D Q' (world m') -> P () m') ->
  wp (queue_foreach fuel (Some q) (Some function)) P m.
Proof.
  intros Hv R Hq Hf Hj HP0 HP HPd. pose proof (rep_lookup m Q _ _ _ R Hq) as Hl. unfold block in Hl. cbn [fst snd] in Hl. unfold queue_foreach. wp_step. wp_step.
  destruct (first es None) as [h|] eqn:Hh; [|wp_step; apply HP0; by destruct es as [|[]]].
  unfold queue_ref. do 5 wp_step. rewrite <-Hh, s32_small by lia. eapply (foreach_loop_by X q function J D fuel Hv n _ (<[q := (2, es)]> Q) []).
  - eapply represents_update; [done..| | | | | |]; heap_simpl; [|by eapply rep_chain|by eapply rep_nodup|done|done|done]. done.
  - by rewrite lookup_insert_eq.
  - done.
  - done.
  - intros n' m' Q' es' R' Hq' Hj'. eapply unref_wp; [done|done|lia|..]; [|lia]. intros _ m'' R'' Hw''. eapply HP; [done|done|by rewrite Hw''].
  - intros m' Q' R' Hq' Hd. eapply unref_wp; [done|done|lia|lia|]. intros _. split; [done|]. intros m'' R'' Hw''. eapply HPd; [done|done|by rewrite Hw''].
Qed.

(** A function that leaves what is behind the element as it is. *)
Definition visits X (q : ptr) (function : Z -> M ()) (J : list Z -> gmap ptr (Z * entry_list) -> W -> Prop) : Prop :=
  forall m Q es1 e d es2, represents X m Q -> Q !! q = Some (2, es1 ++ (e, d) :: es2) -> J (d :: es2.*2) Q (world m) ->
  wp (function d) (fun _ m' => exists Q', represents X m' Q' /\ ((exists es1', Q' !! q = Some (2, es1' ++ es2)) \/ Q' !! q = Some (1, [])) /\ J es2.*2 Q' (world m')) m.

Lemma visits_behind X q function J : visits X q function J ->
  visits_by X q function (fun n l Q w => (length l <= n)%nat /\ J l Q w) (fun Q w => exists l, J l Q w).
Proof.
  intros Hv n m Q es1 e d es2 R Hq [Hn Hj]. destruct n as [|n]; [cbn in Hn; lia|]. exists n. split; [done|]. eapply wp_mono; [by eapply Hv|].
  cbn. intros _ m1 (Q1 & R1 & [[es1' Hq1]|Hq1] & Hj1); exists Q1; (split; [done|]).
  - left. exists es1', es2. split_and!; [done|done|cbn in Hn; lia|done].
  - right. split; [done|]. by eexists.
Qed.

Lemma foreach_wp X q function J m Q es fuel (P : () -> mem W -> Prop) : visits X q function J ->
  represents X m Q -> Q !! q = Some (1, es) -> (length es < fuel)%nat -> J es.*2 (<[q := (2, es)]> Q) (world m) ->
  (es = [] -> P () m) ->
  (forall m' Q' es', represents X m' (<[q := (1, es')]> Q') -> Q' !! q = Some (2, es') -> J [] Q' (world m') -> P () m') ->
  (forall m' Q' l, represents X m' (delete q Q') -> Q' !! q = Some (1, []) -> J l Q' (world m') -> P () m') ->
  wp (queue_foreach fuel (Some q) (Some function)) P m.
Proof.
  intros Hv R Hq Hf Hj HP0 HP HPd. eapply (foreach_by X q function _ _ (length es)); [by apply visits_behind|done|done|done|split; [by rewrite length_fmap|done]|done|..].
  - intros n' m' Q' es' R' Hq' [_ Hj']. by eapply HP.
  - intros m' Q' R' Hq' [l Hj']. by eapply HPd.
Qed.

(** What one call does: [step d w rest o w'] when the call for [d] turns the world [w] of the caller into [w'] and
    leaves [o] of the elements [rest] behind it, or destroys the queue. *)
Context (step : Z -> W -> list Z -> option (list Z) -> W -> Prop).

Definition may_visit (q : ptr) (function : Z -> M ()) : Prop :=
  forall m Q es1 e d es2, represents ∅ m Q -> Q !! q = Some (2, es1 ++ (e, d) :: es2) ->
  wp (function d) (fun _ m' => exists Q', represents ∅ m' Q' /\
    ((exists es1' es2', Q' !! q = Some (2, es1' ++ es2') /\ head es2' = head es2 /\ step d (world m) es2.*2 (Some es2'.*2) (world m')) \/
     (Q' !! q = Some (1, []) /\ step d (world m) es2.*2 None (world m')))) m.

(** The calls for the list [l]: the elements that are visited, and whether the queue is destroyed.  When the last
    one is called for, nothing is next any more, whatever the function adds. *)
Inductive visited : list Z -> W -> list Z -> bool -> W -> Prop :=
| visited_all w : visited [] w [] false w
| visited_next d rest w rest' w1 v b w2 : step d w rest (Some rest') w1 -> head rest' = head rest -> visited rest' w1 v b w2 -> visited (d :: rest) w (d :: v) b w2
| visited_gone d rest w w1 : step d w rest None w1 -> visited (d :: rest) w [d] true w1.

(** The calls end within [n] rounds: a function that goes on adding elements would keep the loop going. *)
Fixpoint within (n : nat) (l : list Z) (w : W) : Prop :=
  match l, n with
  | [], _ => True
  | _ :: _, O => False
  | d :: rest, S n => forall rest' w1, step d w rest (Some rest') w1 -> head rest' = head rest -> within n rest' w1
  end.

Definition visiting (all : list Z) (w0 : W) (n : nat) (l : list Z) (Q : gmap ptr (Z * entry_list)) (w : W) : Prop :=
  within n l w /\ exists pre, forall v b w', visited l w v b w' -> visited all w0 (pre ++ v) b w'.

Lemma may_visit_visits q function all w0 : may_visit q function ->
  visits_by ∅ q function (visiting all w0) (fun _ w => exists v, visited all w0 v true w).
Proof.
  intros Hv n m Q es1 e d es2 R Hq [Hn [pre Hpre]]. destruct n as [|n]; [done|]. exists n. split; [done|]. eapply wp_mono; [by eapply Hv|].
  cbn. intros _ m1 (Q1 & R1 & [(es1' & es2' & Hq1 & Hhead & Hstep)|[Hq1 Hstep]]); exists Q1; (split; [done|]).
  - left. assert (head es2'.*2 = head es2.*2) as Hhead2 by (destruct es2, es2'; cbn in *; congruence). exists es1', es2'. do 2 (split; [done|]). split; [by eapply Hn|].
    exists (pre ++ [d]). intros v b w' Hvis. rewrite <-app_assoc. apply Hpre. by eapply visited_next.
  - right. split; [done|]. exists (pre ++ [d]). apply Hpre. by apply visited_gone.
Qed.
End Foreach.

(** ** Lists *)

(** The first element with [p], the list without it, and the list with [d] behind it. *)
Fixpoint find_first (p : Z -> bool) (l : list Z) : option Z :=
  match l with [] => None | x :: l => if p x then Some x else find_first p l end.
Fixpoint remove_first (p : Z -> bool) (l : list Z) : list Z :=
  match l with [] => [] | x :: l => if p x then l else x :: remove_first p l end.
Fixpoint insert_after (p : Z -> bool) (d : Z) (l : list Z) : list Z :=
  match l with [] => [] | x :: l => if p x then x :: d :: l else x :: insert_after p d l end.

Lemma zlen_fmap {A B} (f : A -> B) l : zlen (f <$> l) = zlen l.
Proof. unfold zlen. by rewrite length_fmap. Qed.

Lemma break_lists p es :
  match break p es with
  | (es1, []) => find_first p es.*2 = None
  | (es1, (e, d) :: es2) => find_first p es.*2 = Some d /\ remove_first p es.*2 = (es1 ++ es2).*2 /\ forall p' d', insert_after p d' es.*2 = (es1 ++ (e, d) :: (p', d') :: es2).*2
  end.
Proof.
  induction es as [|[e d] es IH]; cbn; [done|]. destruct (p d); [done|]. destruct (break p es) as [es1 [|[e' d'] es2]]; cbn; [done|].
  destruct IH as (IH1 & IH2 & IH3). split_and!; [done|by f_equal|]. intros p' d0. by rewrite (IH3 p').
Qed.

(** Without a function, elements are compared as pointers. *)
Definition matches (f : option (Z -> Z -> bool)) (x d : Z) : bool := match f with Some f => f d x | None => d =? x end.

(** The operations on one queue. *)
Inductive list_op :=
| PushTail (d : Z)
| PushHead (d : Z)
| PushAfter (entry d : Z)
| PopHead
| PeekHead
| PeekTail
| Find (function : option (Z -> Z -> bool)) (match_data : Z)
| Remove (d : Z)
| RemoveIf (function : option (Z -> Z -> bool)) (user_data : Z)
| RemoveAll (function : option (Z -> Z -> bool)) (user_data : Z)
| Length
| IsEmpty.

(** What an operation means for the list: the result, the list after it and the elements it destroys.  The
    null pointer and [false] are 0. *)
Definition list_step (o : list_op) (l : list Z) : Z * list Z * list Z :=
  match o with
  | PushTail d => (1, l ++ [d], [])
  | PushHead d => (1, d :: l, [])
  | PushAfter x d => match find_first (fun y => y =? x) l with Some _ => (1, insert_after (fun y => y =? x) d l, []) | None => (0, l, []) end
  | PopHead => match l with [] => (0, [], []) | d :: l => (d, l, []) end
  | PeekHead => (default 0 (head l), l, [])
  | PeekTail => (default 0 (last l), l, [])
  | Find f x => (default 0 (find_first (matches f x) l), l, [])
  | Remove x => match find_first (fun y => y =? x) l with Some _ => (1, remove_first (fun y => y =? x) l, []) | None => (0, l, []) end
  | RemoveIf f x =>
      match find_first (matches f x) l with
      | Some d => (d, remove_first (matches f x) l, [])
      | None => (0, l, [])
      end
  | RemoveAll (Some f) x => (u32 (zlen (filter (fun d => f d x = true) l)), filter (fun d => f d x = false) l, filter (fun d => f d x = true) l)
  | RemoveAll None _ => (u32 (zlen l), [], l)
  | Length => (u32 (zlen l), l, [])
  | IsEmpty => (Z.b2z (u32 (zlen l) =? 0), l, [])
  end.

Inductive operation := New | Destroy (q : ptr) | On (q : ptr) (o : list_op).

(** Whether the queue that an operation uses is there. *)
Definition live (A : gmap ptr (list Z)) (o : operation) : Prop :=
  match o with New => True | Destroy q | On q _ => is_Some (A !! q) end.

(** The meaning of an operation for all lists; [w] are the elements destroyed so far. *)
Definition effect (o : operation) (A : gmap ptr (list Z)) (w : list Z) (x : Z) (A' : gmap ptr (list Z)) (w' : list Z) : Prop :=
  match o with
  | New => exists p, x = Z.of_nat p /\ A !! p = None /\ A' = <[p := []]> A /\ w' = w
  | Destroy q => exists l, A !! q = Some l /\ x = 0 /\ A' = delete q A /\ w' = w ++ l
  | On q o => exists l, A !! q = Some l /\ let '(y, l', ds) := list_step o l in x = y /\ A' = <[q := l']> A /\ w' = w ++ ds
  end.

Section Client.
Context `{!Allocator}.

(** The caller's destroy function writes down the element. *)
Definition note (d : Z) : M () := fun m : mem (list Z) => Ret ((), with_world (world m ++ [d]) m).

Definition answer (x : M (W := list Z) bool) : M (W := list Z) Z := b ← x; mret (Z.b2z b).

Definition perform (o : operation) : M Z :=
  fuel ← walk_fuel;
  match o with
  | New => q ← queue_new; mret (match q with Some p => Z.of_nat p | None => 0 end)
  | Destroy q => _ ← queue_destroy fuel (Some q) (Some note); mret 0
  | On q (PushTail d) => answer (queue_push_tail (Some q) d)
  | On q (PushHead d) => answer (queue_push_head (Some q) d)
  | On q (PushAfter x d) => answer (queue_push_after (Some q) x d)
  | On q PopHead => queue_pop_head (Some q)
  | On q PeekHead => queue_peek_head (Some q)
  | On q PeekTail => queue_peek_tail (Some q)
  | On q (Find f x) => queue_find (Some q) (pure_match <$> f) x
  | On q (Remove d) => answer (queue_remove (Some q) d)
  | On q (RemoveIf f x) => queue_remove_if (Some q) (pure_match <$> f) x
  | On q (RemoveAll f x) => queue_remove_all fuel (Some q) (pure_match <$> f) x (Some note)
  | On q Length => queue_length (Some q)
  | On q IsEmpty => answer (queue_isempty (Some q))
  end.

(** The memory holds exactly the queues for the lists [A], each with one reference. *)
Definition holds (m : mem (list Z)) (A : gmap ptr (list Z)) : Prop :=
  exists Q, represents ∅ m Q /\ A = (fun x => x.2.*2) <$> Q /\ forall q r es, Q !! q = Some (r, es) -> r = 1.

Lemma holds_lookup m A q l : holds m A -> A !! q = Some l ->
  exists Q es, represents ∅ m Q /\ A = (fun x => x.2.*2) <$> Q /\ (forall q r es, Q !! q = Some (r, es) -> r = 1) /\ Q !! q = Some (1, es) /\ l = es.*2.
Proof.
  intros (Q & R & -> & Hr) Hq. rewrite lookup_fmap in Hq. destruct (Q !! q) as [[r es]|] eqn:E; [|done]. injection Hq as <-.
  exists Q, es. split_and!; try done. by rewrite <-(Hr _ _ _ E).
Qed.

Lemma holds_insert m Q q es : represents ∅ m (<[q := (1, es)]> Q) -> (forall q r es, Q !! q = Some (r, es) -> r = 1) ->
  holds m (<[q := es.*2]> ((fun x => x.2.*2) <$> Q)).
Proof.
  intros R Hr. eexists. split; [exact R|]. split; [by rewrite fmap_insert|]. intros q' r' es' [[_ [= <- <-]]|[_ ?]]%lookup_insert_Some; [done|by eapply Hr].
Qed.

Lemma note_keeps : keeps_queues (Some note) (fun d w => w ++ [d]).
Proof. by intros d m P HP. Qed.
Lemma after_note l w : after (fun d w => w ++ [d]) l w = w ++ l.
Proof. revert w. induction l as [|d l IH]; intros w; cbn; [by rewrite app_nil_r|]. fold (after (fun d w => w ++ [d]) l (w ++ [d])). by rewrite IH, <-app_assoc. Qed.

Abbreviation lists Q := ((fun x : Z * entry_list => x.2.*2) <$> Q).

(** The end of an operation that leaves the entries [es'] in the queue, or leaves it as it is. *)
Lemma done_changed m m' Q q es o y l' ds es' :
  (forall q r es, Q !! q = Some (r, es) -> r = 1) -> Q !! q = Some (1, es) -> list_step o es.*2 = (y, l', ds) ->
  represents ∅ m' (<[q := (1, es')]> Q) -> es'.*2 = l' -> world m' = world m ++ ds ->
  exists A', effect (On q o) (lists Q) (world m) y A' (world m') /\ holds m' A'.
Proof.
  intros Hr Hq Hs R' <- Hw. eexists. split; [|by apply holds_insert]. exists es.*2. rewrite lookup_fmap, Hq. split; [done|]. by rewrite Hs.
Qed.
Lemma done_same m Q q es o y :
  (forall q r es, Q !! q = Some (r, es) -> r = 1) -> represents ∅ m Q -> Q !! q = Some (1, es) -> list_step o es.*2 = (y, es.*2, []) ->
  exists A', effect (On q o) (lists Q) (world m) y A' (world m) /\ holds m A'.
Proof. intros Hr R Hq Hs. eapply done_changed; [done..| |done|by rewrite app_nil_r]. by rewrite insert_id. Qed.

Section On.
Context (m : mem (list Z)) (Q : gmap ptr (Z * entry_list)) (q : ptr) (es : entry_list).
Context (Hr : forall q r es, Q !! q = Some (r, es) -> r = 1) (R : represents ∅ m Q) (Hq : Q !! q = Some (1, es)).

Abbreviation correct o := (wp (perform (On q o)) (fun x m' => exists A', effect (On q o) (lists Q) (world m) x A' (world m') /\ holds m' A') m).

Ltac start := unfold perform, answer; do 2 wp_step.
Ltac changed := eapply done_changed; [exact Hr|exact Hq|reflexivity|eassumption|try done|by rewrite app_nil_r].
Ltac same := eapply done_same; [exact Hr|exact R|exact Hq|].

Lemma pushes_correct d : correct (PushTail d) /\ correct (PushHead d).
Proof.
  split; start; wp_step; [eapply push_tail_wp|eapply push_head_wp]; try done; intros p m' R' Hw; wp_step; changed. by rewrite fmap_app.
Qed.

Lemma push_after_correct x d : correct (PushAfter x d).
Proof.
  start. wp_step. pose proof (break_lists (fun y => y =? x) es) as Hb. eapply push_after_wp; [done|done| |].
  - intros es1 e es2 p m' Eb R' Hw. rewrite Eb in Hb. destruct Hb as (Hb1 & _ & Hb2). wp_step.
    eapply done_changed; [exact Hr|exact Hq|cbn; by rewrite Hb1|done|by rewrite (Hb2 p)|by rewrite app_nil_r].
  - intros Eb. destruct (break _ es) as [es1 es2]. cbn in Eb. subst es2. wp_step. same. cbn. by rewrite Hb.
Qed.

Lemma pop_correct : correct PopHead.
Proof.
  start. eapply pop_head_wp; [done..|]. destruct es as [|[e d] es0]; [by same|]. intros m' R' Hw. changed.
Qed.

Lemma reads_correct f x : correct PeekHead /\ correct PeekTail /\ correct (Find f x) /\ correct Length /\ correct IsEmpty.
Proof.
  split_and!; start; [eapply peek_head_wp|eapply peek_tail_wp|eapply (find_wp m Q q 1 es _ x (matches f x))|eapply size_wp|wp_step; eapply isempty_wp; [done..|wp_step]]; try done; try (by destruct f); same; try done.
  - cbn [list_step]. pose proof (break_lists (matches f x) es) as Hb.
    destruct (break _ es) as [es1 [|[e d] es2]]; cbn [snd]; [by rewrite Hb|]. by destruct Hb as (-> & _).
  - cbn [list_step]. by rewrite zlen_fmap.
  - cbn [list_step]. by rewrite zlen_fmap.
Qed.

Lemma removes_correct f x : correct (Remove x) /\ correct (RemoveIf f x).
Proof.
  split; start.
  - wp_step. eapply remove_wp; [done..|]. pose proof (break_lists (fun y => y =? x) es) as Hb. destruct (break _ es) as [es1 [|[e d'] es2]].
    + wp_step. same. cbn. by rewrite Hb.
    + intros m' R' Hw. wp_step. destruct Hb as (Hb1 & Hb2 & _).
      eapply done_changed; [exact Hr|exact Hq|cbn; by rewrite Hb1|done|done|by rewrite app_nil_r].
  - eapply (remove_if_wp m Q q 1 es _ x (matches f x)); [done..|by destruct f|]. pose proof (break_lists (matches f x) es) as Hb. destruct (break _ es) as [es1 [|[e d'] es2]].
    + same. cbn [list_step]. by rewrite Hb.
    + intros m' R' Hw. destruct Hb as (Hb1 & Hb2 & _).
      eapply done_changed; [exact Hr|exact Hq|cbn [list_step]; by rewrite Hb1|done|done|by rewrite app_nil_r].
Qed.

Lemma remove_all_correct f x : correct (RemoveAll f x).
Proof.
  pose proof (rep_fuel _ _ _ _ _ R Hq) as Hfuel. start. destruct f as [f|]; cbn [fmap option_fmap option_map].
  - pose proof (rep_lookup m Q _ _ _ R Hq) as Hl. unfold block in Hl. cbn [fst snd] in Hl. unfold queue_remove_all. wp_step. wp_step.
    destruct (first es None) as [h|] eqn:Eh; [|destruct es as [|[]]; [by wp_step; same|done]].
    eapply remove_matching_wp; [apply (keeps_selects _ _ ∅ q 1 f x Q (world m ++ filter (fun d => f d x = true) es.*2) note_keeps)|done|done|lia|done| |].
    + split; [exists es; by rewrite insert_id|]. by rewrite after_note.
    + intros m' Q' es' R' Hq' Hes' [[es0 ->] Hw]. rewrite lookup_insert_eq in Hq'. injection Hq' as ->. rewrite Z.add_0_l.
      eapply done_changed; [exact Hr|exact Hq|reflexivity|done|done|]. rewrite after_note in Hw.
      assert (filter (fun d => f d x = true) es'.*2 = []) as Hnil; [|by rewrite Hnil, app_nil_r in Hw].
      rewrite Hes'. clear. induction es.*2 as [|d l IH]; cbn; [done|]. destruct (f d x) eqn:E; [by rewrite decide_False|]. rewrite decide_True by done. cbn. by rewrite decide_False by congruence.
  - eapply (remove_all_wp (Some note)); [apply (keeps_destroys _ _ (<[q := (1, [])]> Q) (world m ++ es.*2) note_keeps)|done|done|lia| |].
    + split; [done|]. by rewrite after_note.
    + intros m' Q' R' [-> Hw]. cbn in Hw. eapply done_changed; [exact Hr|exact Hq|cbn; by rewrite zlen_fmap|done|done|done].
Qed.

Lemma on_correct o : correct o.
Proof.
  destruct o as [d|d|x d| | | |f x|d|f x|f x| |].
  1, 2: apply pushes_correct.
  all: try apply pop_correct.
  all: try apply (reads_correct None 0).
  - apply push_after_correct.
  - apply (reads_correct f x).
  - apply (removes_correct None d).
  - apply (removes_correct f x).
  - apply remove_all_correct.
Qed.
End On.

Lemma perform_wp m A o : holds m A -> live A o ->
  wp (perform o) (fun x m' => exists A', effect o A (world m) x A' (world m') /\ holds m' A') m.
Proof.
  intros Hh Hl. destruct o as [|q|q o]; cbn [live] in Hl.
  - unfold perform. do 2 wp_step. destruct Hh as (Q & R & -> & Hr). wp_step. eapply new_wp; [done|]. intros p m' Hp R' Hw. wp_step.
    eexists. split; [|by apply holds_insert]. exists p. split_and!; try done. by rewrite lookup_fmap, Hp.
  - unfold perform. do 2 wp_step. destruct Hl as [l Hq]. destruct (holds_lookup m A q l Hh Hq) as (Q & es & R & -> & Hr & HQ & ->). wp_step.
    pose proof (rep_fuel _ _ _ _ _ R HQ). eapply (destroy_wp (Some note)); [apply (keeps_destroys _ _ (<[q := (1, [])]> Q) (world m ++ es.*2) note_keeps)| |done|done|lia| |].
    { intros Q' w [-> _]. apply lookup_insert_eq. }
    { split; [done|]. by rewrite after_note. }
    intros m' Q' R' [-> Hw]. wp_step. cbn in Hw. rewrite delete_insert_eq in R'.
    eexists. split; [by exists es.*2|]. exists (delete q Q). split; [done|]. split; [by rewrite fmap_delete|].
    intros q' r' es' [_ ?]%lookup_delete_Some. by eapply Hr.
  - destruct Hl as [l Hq]. destruct (holds_lookup m A q l Hh Hq) as (Q & es & R & -> & Hr & HQ & ->). by apply (on_correct m Q q es).
Qed.
End Client.

(** ** Claims *)

Section Claims.
Context `{!Allocator}.

(** A caller decides on each operation from the results [xs] so far. *)
Fixpoint performs (n : nat) (client : list Z -> operation) (xs : list Z) : M (W := list Z) (list Z) :=
  match n with
  | O => mret xs
  | S n => x ← perform (client xs); performs n client (xs ++ [x])
  end.

Fixpoint effects (n : nat) (client : list Z -> operation) (xs : list Z) (A : gmap ptr (list Z)) (w xs' : list Z) (A' : gmap ptr (list Z)) (w' : list Z) : Prop :=
  match n with
  | O => xs' = xs /\ A' = A /\ w' = w
  | S n => exists x A1 w1, effect (client xs) A w x A1 w1 /\ effects n client (xs ++ [x]) A1 w1 xs' A' w'
  end.

(** By the lists, the caller never uses a queue that is not there. *)
Fixpoint behaves (n : nat) (client : list Z -> operation) (xs : list Z) (A : gmap ptr (list Z)) (w : list Z) : Prop :=
  match n with
  | O => True
  | S n => live A (client xs) /\ forall x A1 w1, effect (client xs) A w x A1 w1 -> behaves n client (xs ++ [x]) A1 w1
  end.

(** C9: queue.c implements lists.  Any caller that, by the lists, only uses queues that are there gets from
    every operation the result that the lists give, and the destroy function is called for the same elements
    in the same order; no freed block is used, and at the end the heap holds the entries of the lists and
    nothing else.  The only other end is [abort] when the allocator refuses a request. *)
Theorem queue_refines_lists n client : forall xs m A, holds m A -> behaves n client xs A (world m) ->
  wp (performs n client xs) (fun xs' m' => exists A', effects n client xs A (world m) xs' A' (world m') /\ holds m' A') m.
Proof.
  induction n as [|n IH]; intros xs m A Hh Hb; cbn [performs].
  - wp_step. exists A. by split.
  - destruct Hb as [Hl Hb]. wp_step. eapply wp_mono; [by apply perform_wp|]. cbn. intros x m1 (A1 & Hx & Hh1). specialize (Hb _ _ _ Hx).
    eapply wp_mono; [by apply IH|]. cbn. intros xs' m' (A' & He & Hh'). exists A'. split; [|done]. by exists x, A1, (world m1).
Qed.

(** C27: [queue_foreach] calls the function for the elements in order, although the function may remove the
    element it is called for, change what is before it, add elements behind the next one, which are visited as
    well, or destroy the queue, which ends the visits and frees the queue when they are over.  The next element
    stays next, what is added while the last one is visited is not visited, and the calls end within [n] rounds. *)
Theorem queue_foreach_visits {W} step q function (m : mem W) Q es n fuel :
  may_visit step q function -> represents ∅ m Q -> Q !! q = Some (1, es) -> within step n es.*2 (world m) -> (n < fuel)%nat ->
  wp (queue_foreach fuel (Some q) (Some function)) (fun _ m' => exists Q' v b, represents ∅ m' Q' /\
    visited step es.*2 (world m) v b (world m') /\ if (b : bool) then Q' !! q = None else exists es', Q' !! q = Some (1, es')) m.
Proof.
  intros Hv R Hq Hn Hf. eapply (foreach_by ∅ q function); [exact (may_visit_visits step q function es.*2 (world m) Hv)|done|done|exact Hf|..].
  - split; [done|]. by exists [].
  - intros ->. exists Q, [], false. split_and!; [done|constructor|by eexists].
  - intros n' m' Q' es' R' Hq' (_ & pre & Hpre). eexists _, _, false. split_and!; [done|apply Hpre; constructor|]. eexists. by rewrite lookup_insert_eq.
  - intros m' Q' R' _ [v Hvis]. eexists _, v, true. split_and!; [done|done|]. by rewrite lookup_delete_eq.
Qed.
End Claims.

(** ** Runs *)

#[local] Existing Instance roomy.

Definition nothing : mem (list Z) := mk_mem ∅ ∅ 0 [].

Lemma nothing_represents : represents ∅ nothing ∅.
Proof. split; intros; by try rewrite fmap_empty; try (destruct H; done). Qed.
Lemma nothing_holds : holds nothing ∅.
Proof. exists ∅. split; [apply nothing_represents|]. split; [by rewrite fmap_empty|done]. Qed.

(** A new queue, two additions and its end. *)
Definition caller (xs : list Z) : operation :=
  match xs with
  | [] => New
  | [q] => On (Z.to_nat q) (PushTail 5)
  | [q; _] => On (Z.to_nat q) (PushHead 6)
  | q :: _ => Destroy (Z.to_nat q)
  end.

Lemma queue_refines_lists_witness : exists xs m, performs 4 caller [] nothing = Ret (xs, m) /\ holds m ∅ /\ world m = [6; 5].
Proof.
  assert (behaves 4 caller [] ∅ []) as Hb.
  { split; [done|]. intros x A1 w1 (p & -> & Hp & -> & ->). cbn. rewrite Nat2Z.id.
    split; [by rewrite lookup_insert_eq|]. intros x A1 w1 (l & Hl & -> & -> & ->). rewrite insert_insert_eq.
    split; [by rewrite lookup_insert_eq|]. intros x A1 w1 (l' & Hl' & -> & -> & ->). rewrite insert_insert_eq.
    split; [by rewrite lookup_insert_eq|done]. }
  pose proof (queue_refines_lists 4 caller [] nothing ∅ nothing_holds Hb) as Hwp. unfold wp in Hwp.
  destruct (performs 4 caller [] nothing) as [[xs m]| |]; [|by destruct Hwp as (_ & ? & ? & ?)|done].
  exists xs, m. split; [done|]. destruct Hwp as (A' & (x & A1 & w1 & (p & -> & Hp & -> & ->) & x2 & A2 & w2 & Hx2 & x3 & A3 & w3 & Hx3 & x4 & A4 & w4 & Hx4 & -> & -> & ->) & Hh).
  cbn in Hx2, Hx3, Hx4. rewrite Nat2Z.id in *. destruct Hx2 as (l & Hl & -> & -> & ->). rewrite lookup_insert_eq in Hl. injection Hl as <-.
  destruct Hx3 as (l & Hl & -> & -> & ->). rewrite lookup_insert_eq in Hl. injection Hl as <-. destruct Hx4 as (l & Hl & -> & -> & ->).
  rewrite lookup_insert_eq in Hl. injection Hl as <-. split; [|done]. by rewrite !delete_insert_eq, delete_id in Hh.
Defined.

(** Every element is written down and taken out of the queue; for 5, another element is added. *)
Definition drain (q : ptr) (d : Z) : M (W := list Z) () :=
  _ ← queue_remove (Some q) d; _ ← (if d =? 5 then queue_push_tail (Some q) 7 else mret true); note d.
Definition drained (d : Z) (w : list Z) (rest : list Z) (o : option (list Z)) (w' : list Z) : Prop :=
  o = Some (if (d =? 5) && negb (bool_decide (rest = [])) then rest ++ [7] else rest) /\ w' = w ++ [d].

Lemma break_before p es1 e d es2 : p d = true -> exists a y b, break p (es1 ++ (e, d) :: es2) = (a, y :: b ++ es2).
Proof.
  intros Hd. induction es1 as [|[e1 d1] es1 IH]; cbn; [rewrite Hd; by exists [], (e, d), []|]. destruct (p d1).
  - exists [], (e1, d1), (es1 ++ [(e, d)]). by rewrite <-app_assoc.
  - destruct IH as (a & y & b & ->). by eexists _, _, _.
Qed.

Lemma drain_visits q : may_visit drained q (drain q).
Proof.
  intros m Q es1 e d es2 R Hq. unfold drain. wp_step. eapply remove_wp; [done..|].
  destruct (break_before (fun y => y =? d) es1 e d es2 ltac:(apply Z.eqb_refl)) as (a & [e' d'] & b & ->). intros m' R' Hw. wp_step. destruct (d =? 5) eqn:E5.
  - eapply push_tail_wp; [done|by rewrite lookup_insert_eq|]. intros p m2 R2 Hw2. rewrite insert_insert_eq in R2. unfold wp, note. cbn. rewrite Hw2, Hw.
    eexists. split; [by apply represents_world|]. left. destruct es2 as [|y es2].
    + exists ((a ++ b ++ []) ++ [(p, 7)]), []. rewrite lookup_insert_eq, (app_nil_r (_ ++ [_])). split_and!; [done|done|]. unfold drained. by rewrite E5.
    + exists (a ++ b), ((y :: es2) ++ [(p, 7)]). rewrite lookup_insert_eq, <-!app_assoc. split_and!; [done|done|]. unfold drained. rewrite E5. by rewrite fmap_app.
  - wp_step. unfold wp, note. cbn. rewrite Hw. exists (<[q := (2, a ++ b ++ es2)]> Q). split; [by apply represents_world|].
    left. exists (a ++ b), es2. rewrite lookup_insert_eq, <-app_assoc. split_and!; [done|done|]. unfold drained. by rewrite E5.
Qed.

Lemma drained_stays l w v b w' : visited drained l w v b w' -> b = false.
Proof. induction 1 as [| |? ? ? ? [? _]]; done. Qed.

(** A queue with the elements 5 and 6. *)
Definition pair : mem (list Z) :=
  mk_mem {[1%nat := mk_queue 1 (Some 2%nat) (Some 3%nat) 2]} (<[2%nat := mk_entry 5 (Some 3%nat)]> {[3%nat := mk_entry 6 None]}) 3 [].

Lemma pair_represents : represents ∅ pair {[1%nat := (1, [(2%nat, 5); (3%nat, 6)])]}.
Proof.
  assert (forall q r es, ({[1%nat := (1, [(2%nat, 5); (3%nat, 6)])]} : gmap ptr (Z * entry_list)) !! q = Some (r, es) -> q = 1%nat /\ es = [(2%nat, 5); (3%nat, 6)]) as Hone
    by (by intros q r es [<- [= <- <-]]%lookup_singleton_Some).
  split.
  - reflexivity.
  - by intros q r es [_ ->]%Hone.
  - intros q r es [_ ->]%Hone. apply (bool_decide_unpack _). exact I.
  - by intros q q' r r' es es' e [-> _]%Hone [-> _]%Hone.
  - apply map_empty_subseteq.
  - intros. apply lookup_empty.
  - cbn. intros e [x Hx]. right. exists 1%nat, 1, [(2%nat, 5); (3%nat, 6)]. split; [done|].
    apply lookup_insert_Some in Hx as [[<- _]|[_ [<- _]%lookup_singleton_Some]]; set_solver.
Qed.

Lemma queue_foreach_visits_witness : exists m Q', queue_foreach 4 (Some 1%nat) (Some (drain 1)) pair = Ret ((), m) /\ represents ∅ m Q' /\
  exists v, visited drained [5; 6] [] v false (world m) /\ world m = [5; 6; 7].
Proof.
  assert (within drained 3 [5; 6] []) as Hn by (intros ? ? [[= ->] ->] _ ? ? [[= ->] ->] _ ? ? [[= ->] ->] _; exact I).
  pose proof (queue_foreach_visits drained 1 (drain 1) pair _ [(2%nat, 5); (3%nat, 6)] 3 4 (drain_visits 1) pair_represents ltac:(reflexivity) Hn ltac:(lia)) as Hwp.
  assert (match queue_foreach 4 (Some 1%nat) (Some (drain 1)) pair with Ret (_, m) => world m | _ => [] end = [5; 6; 7]) as Hw by reflexivity.
  unfold wp in Hwp. destruct (queue_foreach _ _ _ _) as [[[] m]| |]; [|by destruct Hwp as (_ & ? & ? & ?)|done].
  destruct Hwp as (Q' & v & b & R & Hvis & _). exists m, Q'. split; [done|]. split; [done|].
  rewrite (drained_stays _ _ _ _ _ Hvis) in Hvis. by exists v.
Defined.

(** An element that is added when the last one is visited is not. *)
Example foreach_last_added : match queue_foreach 4 (Some 1%nat) (Some (fun d => _ ← (if d =? 6 then queue_push_tail (Some 1%nat) 7 else mret true); note d)) pair with Ret (_, m) => world m | _ => [] end = [5; 6].
Proof. reflexivity. Qed.

(** A function that takes out the element after its own leaves a pointer to a freed entry. *)
Theorem foreach_next_removed : queue_foreach 3 (Some 1%nat) (Some (fun _ => _ ← queue_remove (Some 1%nat) 6; mret ())) pair = Undef.
Proof. reflexivity. Qed.
