(* ===== verification/Uuid.v ===== *)
(** Bluetooth UUIDs: src/bt/btgatt_server/lib/uuid.c, with the byte orders of uuid_to_le and le_to_uuid of
    src/bt/btgatt_server/src/shared/gatt-db.c.

    The theorems show that [bt_uuid_cmp] compares the 128-bit UUIDs that the short forms stand for and that
    the little-endian form of an attribute gives the UUID back. *)

From S2P Require Import Prelude.

(** ** Data *)

(** The tag with the member of the union it selects; a 128-bit UUID is 16 bytes, the first one the most
    significant. *)
Inductive bt_uuid_t :=
| BT_UUID_UNSPEC
| BT_UUID16 (v : Z)
| BT_UUID32 (v : Z)
| BT_UUID128 (v : bytes).

Definition bt_uuid_len (uuid : bt_uuid_t) : Z :=
  match uuid with BT_UUID_UNSPEC => 0 | BT_UUID16 _ => 2 | BT_UUID32 _ => 4 | BT_UUID128 _ => 16 end.

Definition bluetooth_base_uuid : bytes :=
  [0x00; 0x00; 0x00; 0x00; 0x00; 0x00; 0x10; 0x00; 0x80; 0x00; 0x00; 0x80; 0x5F; 0x9B; 0x34; 0xFB].

Definition BASE_UUID16_OFFSET : Z := 2.
Definition BASE_UUID32_OFFSET : Z := 0.

(** The bytes of [htons] and [htonl] in memory. *)
Definition be16 (v : Z) : bytes := [u8 (v ≫ 8); u8 v].
Definition be32 (v : Z) : bytes := [u8 (v ≫ 24); u8 (v ≫ 16); u8 (v ≫ 8); u8 v].

(** ** Conversions *)

Definition bt_uuid16_to_uuid128 (v : Z) : outcome bytes := mem_write bluetooth_base_uuid BASE_UUID16_OFFSET (be16 v).
Definition bt_uuid32_to_uuid128 (v : Z) : outcome bytes := mem_write bluetooth_base_uuid BASE_UUID32_OFFSET (be32 v).

(** The 16 bytes written to [dst]; a UUID without a type writes nothing, so what is read there then has no
    value. *)
Definition bt_uuid_to_uuid128 (src : bt_uuid_t) : outcome bytes :=
  match src with
  | BT_UUID128 v => Ret v
  | BT_UUID32 v => bt_uuid32_to_uuid128 v
  | BT_UUID16 v => bt_uuid16_to_uuid128 v
  | BT_UUID_UNSPEC => Undef
  end.

Definition bt_uuid16_create (v : Z) : bt_uuid_t := BT_UUID16 v.
Definition bt_uuid32_create (v : Z) : bt_uuid_t := BT_UUID32 v.
Definition bt_uuid128_create (v : bytes) : bt_uuid_t := BT_UUID128 v.

(** [memcmp] of two areas of the same length; C fixes the sign only. *)
Fixpoint memcmp (a b : bytes) : Z :=
  match a, b with
  | x :: a, y :: b => if x <? y then -1 else if y <? x then 1 else memcmp a b
  | _, _ => 0
  end.

Definition bt_uuid128_cmp (u1 u2 : bytes) : Z := memcmp u1 u2.

Definition bt_uuid_cmp (uuid1 uuid2 : bt_uuid_t) : outcome Z :=
  u1 ← bt_uuid_to_uuid128 uuid1;
  u2 ← bt_uuid_to_uuid128 uuid2;
  Ret (bt_uuid128_cmp u1 u2).

(** [bswap_128], [put_le16] and the readings of little-endian numbers. *)
Definition bswap_128 (src : bytes) : bytes := reverse src.
Definition put_le16 (v : Z) : bytes := [u8 v; u8 (v ≫ 8)].
Definition get_le16 (l : bytes) : outcome Z :=
  match l with a :: b :: _ => Ret (a + b * 2 ^ 8) | _ => Undef end.
Definition get_le32 (l : bytes) : outcome Z :=
  match l with a :: b :: c :: d :: _ => Ret (a + b * 2 ^ 8 + c * 2 ^ 16 + d * 2 ^ 24) | _ => Undef end.

(** The bytes that [bt_uuid_to_le] writes; [None] is [-EINVAL]. *)
Definition bt_uuid_to_le (src : bt_uuid_t) : outcome (option bytes) :=
  match src with
  | BT_UUID16 v => Ret (Some (put_le16 v))
  | BT_UUID32 v => u ← bt_uuid32_to_uuid128 v; Ret (Some (bswap_128 u))
  | BT_UUID128 v => Ret (Some (bswap_128 v))
  | BT_UUID_UNSPEC => Ret None
  end.

(** The same in gatt-db.c: the bytes written, whose number is the result. *)
Definition uuid_to_le (uuid : bt_uuid_t) : outcome bytes :=
  match uuid with
  | BT_UUID16 v => Ret (put_le16 v)
  | _ => uuid128 ← bt_uuid_to_uuid128 uuid; Ret (bswap_128 uuid128)
  end.

(** [le_to_uuid(src, len, uuid)]; [None] is [false]. *)
Definition le_to_uuid (src : bytes) (len : Z) : outcome (option bt_uuid_t) :=
  if len =? 2 then v ← get_le16 src; Ret (Some (bt_uuid16_create v))
  else if len =? 4 then v ← get_le32 src; Ret (Some (bt_uuid32_create v))
  else if negb (len =? 16) then Ret None
  else u128 ← mem_read src 0 16; Ret (Some (bt_uuid128_create (bswap_128 u128))).

(** ** Well-formed UUIDs *)

Definition uuid_ok (uuid : bt_uuid_t) : Prop :=
  match uuid with
  | BT_UUID_UNSPEC => False
  | BT_UUID16 v => is_u16 v
  | BT_UUID32 v => is_u32 v
  | BT_UUID128 v => is_bytes v /\ length v = 16%nat
  end.

#[export] Instance uuid_ok_dec uuid : Decision (uuid_ok uuid).
Proof. destruct uuid; cbn; unfold is_bytes; apply _. Defined.

(** The 128-bit UUID that a UUID stands for. *)
Definition full (uuid : bt_uuid_t) : bytes :=
  match uuid with
  | BT_UUID_UNSPEC => []
  | BT_UUID16 v => [0; 0] ++ be16 v ++ drop 4 bluetooth_base_uuid
  | BT_UUID32 v => be32 v ++ drop 4 bluetooth_base_uuid
  | BT_UUID128 v => v
  end.

Lemma to_uuid128_full uuid : uuid_ok uuid -> bt_uuid_to_uuid128 uuid = Ret (full uuid).
Proof. by destruct uuid. Qed.

Lemma full_ok uuid : uuid_ok uuid -> is_bytes (full uuid) /\ length (full uuid) = 16%nat.
Proof.
  destruct uuid as [|v|v|v]; cbn [uuid_ok]; [done|..]; intros Hv; [..|done]; split; try done; unfold is_bytes, full, be16, be32; rewrite ?Forall_app.
  - split_and!; repeat constructor; try apply wrap_range; lia.
  - split_and!; repeat constructor; try apply wrap_range; lia.
Qed.

Lemma memcmp_zero a b : length a = length b -> memcmp a b = 0 <-> a = b.
Proof.
  revert b. induction a as [|x a IH]; intros [|y b]; cbn; try done. intros [= Hl]. destruct (Z.ltb_spec x y); [split; [done|intros [= ? ?]; lia]|].
  destruct (Z.ltb_spec y x); [split; [done|intros [= ? ?]; lia]|]. rewrite IH by done. split; [intros ->; f_equal; lia|by intros [= -> ->]].
Qed.

(** The comparison of well-formed UUIDs. *)
Lemma uuid_cmp_full u1 u2 : uuid_ok u1 -> uuid_ok u2 -> exists c, bt_uuid_cmp u1 u2 = Ret c /\ (c = 0 <-> full u1 = full u2).
Proof.
  intros H1 H2. unfold bt_uuid_cmp. rewrite !to_uuid128_full by done. eexists. split; [done|]. apply memcmp_zero.
  destruct (full_ok u1 H1) as [_ ->], (full_ok u2 H2) as [_ ->]. done.
Qed.

Lemma le16_put v : is_u16 v -> get_le16 (put_le16 v) = Ret v.
Proof. unfold get_le16, put_le16, u8, wrap, in_range. intros Hv. f_equal. rewrite Z.shiftr_div_pow2 by lia. dlia. Qed.

Lemma be16_inj v w : is_u16 v -> is_u16 w -> be16 v = be16 w -> v = w.
Proof. unfold be16, u8, wrap, in_range. intros Hv Hw. rewrite !Z.shiftr_div_pow2 by lia. intros [= H1 H2]. revert H1 H2. dlia. Qed.

(** What a little-endian form gives back: the UUID itself, with a 32-bit one in its long form. *)
Definition long (uuid : bt_uuid_t) : bt_uuid_t := match uuid with BT_UUID32 v => BT_UUID128 (full uuid) | _ => uuid end.

Lemma long_full uuid : full (long uuid) = full uuid.
Proof. by destruct uuid. Qed.
Lemma long_ok uuid : uuid_ok uuid -> uuid_ok (long uuid).
Proof. destruct uuid; try done. intros Hv. by apply (full_ok (BT_UUID32 v)). Qed.

Lemma le_roundtrip uuid rest : uuid_ok uuid ->
  exists l, uuid_to_le uuid = Ret l /\ is_bytes l /\ (zlen l = 2 \/ zlen l = 16) /\ le_to_uuid (l ++ rest) (zlen l) = Ret (Some (long uuid)).
Proof.
  intros Hok. pose proof (full_ok uuid Hok) as [Hb Hlen]. assert (is_bytes (reverse (full uuid))) as Hb' by (by apply Forall_reverse).
  assert (zlen (reverse (full uuid)) = 16) as Hl' by (unfold zlen; by rewrite length_reverse, Hlen).
  assert (le_to_uuid (reverse (full uuid) ++ rest) (zlen (reverse (full uuid))) = Ret (Some (BT_UUID128 (full uuid)))) as Hle.
  { rewrite Hl'. cbn. rewrite mem_read_ok by (rewrite ?zlen_app, ?Hl'; pose proof (zlen_nonneg rest); lia). cbn [mbind outcome_bind]. do 2 f_equal.
    change (Z.to_nat 0) with 0%nat. rewrite drop_0, take_app_length' by (rewrite length_reverse; lia). unfold bt_uuid128_create, bswap_128. by rewrite reverse_involutive. }
  destruct uuid as [|v|v|v]; cbn [uuid_ok] in Hok; [done|..]; unfold uuid_to_le; rewrite ?to_uuid128_full by done; cbn [mbind outcome_bind].
  - exists (put_le16 v). split; [done|]. split; [repeat constructor; apply wrap_range; lia|]. split; [by left|]. unfold le_to_uuid.
    change (zlen (put_le16 v) =? 2) with true. change (get_le16 (put_le16 v ++ rest)) with (get_le16 (put_le16 v)). by rewrite le16_put.
  - exists (reverse (full (BT_UUID32 v))). split; [done|]. split; [done|]. split; [by right|]. exact Hle.
  - exists (reverse (full (BT_UUID128 v))). split; [done|]. split; [done|]. split; [by right|]. exact Hle.
Qed.
