(* ===== verification/GattDb.v ===== *)
(** The attribute database of the GATT server: src/bt/btgatt_server/src/shared/gatt-db.c.

    The database, its services with their attributes, the pending reads and writes and the registered
    observers are blocks of a heap, beside the queues of [Queue] that hold pointers to them; a use of a block
    that was freed is [Undef].  The functions of the application are an interface: programs on the same heap.
    There is one database, and it is never a null pointer in a call; a null attribute is [None]. *)

From stdpp Require Import gmap.
From S2P Require Import Prelude Alloc Queue Uuid.

(** ** Data *)

(** The attribute at an index of a service. *)
Abbreviation attr := (ptr * nat)%type.

(** A pointer as it is kept in a queue; never null. *)
Definition addr {A} `{Countable A} (x : A) : Z := Z.pos (encode x).
Definition of_addr {A} `{Countable A} (z : Z) : outcome A :=
  match z with Z.pos p => of_option (decode p) | _ => Undef end.

Arguments addr : simpl never.
Arguments of_addr : simpl never.

(** Bytes of a buffer; [None] was never written. *)
Abbreviation raw := (list (option Z)).

Inductive event :=
| ReadDone (func : nat) (attrib : attr) (err : Z) (value : option raw) (length user_data : Z)
| WriteDone (func : nat) (attrib : attr) (err user_data : Z)
| ReadFunc (func : nat) (attrib : attr) (id offset opcode att user_data : Z)
| WriteFunc (func : nat) (attrib : attr) (id offset : Z) (value : bytes) (len opcode att user_data : Z)
| ServiceChanged (func : nat) (attrib : attr) (user_data : Z)
| Destroyed (func : nat) (user_data : Z).

Inductive timer := read_timeout_of (p : ptr) | write_timeout_of (p : ptr).

(** [struct pending_read] and [struct pending_write] *)
Record pending := mk_pending {
  p_attrib : attr;
  p_id : Z;
  p_timeout_id : Z;
  p_func : nat;
  p_user_data : Z
}.

Record notify := mk_notify {
  n_id : Z;
  n_service_added : option nat;
  n_service_removed : option nat;
  n_destroy : option nat;
  n_user_data : Z
}.

Record gatt_db_attribute := mk_attribute {
  a_handle : Z;
  a_uuid : bt_uuid_t;
  a_permissions : Z;
  a_value_len : Z;
  a_value : option raw;
  a_read_func : option nat;
  a_write_func : option nat;
  a_user_data : Z;
  a_read_id : Z;
  a_pending_reads : option ptr;
  a_write_id : Z;
  a_pending_writes : option ptr
}.

(** An element of [service->attributes]: null, a pointer to a freed attribute, or an attribute. *)
Inductive slot := Null | Dangling | Attr (a : gatt_db_attribute).

Record gatt_db_service := mk_service {
  s_active : bool;
  s_claimed : bool;
  s_num_handles : Z;
  s_attributes : list slot
}.

Record gatt_db := mk_db {
  d_ref_count : Z;
  d_next_handle : Z;
  d_services : option ptr;
  d_notify_list : option ptr;
  d_next_notify_id : Z
}.

(** The heap beside the queues; [g_db] is [None] when the database was freed, [g_found] is the counter of the
    search under way ([None] was not set), [g_app] is of the application. *)
Record gatt (A : Type) := mk_gatt {
  g_db : option gatt_db;
  g_services : gmap ptr gatt_db_service;
  g_notifies : gmap ptr notify;
  g_reads : gmap ptr pending;
  g_writes : gmap ptr pending;
  g_found : option Z;
  g_app : A
}.
Arguments mk_gatt {A} _ _ _ _ _ _ _.
Arguments g_db {A} _.
Arguments g_services {A} _.
Arguments g_notifies {A} _.
Arguments g_reads {A} _.
Arguments g_writes {A} _.
Arguments g_found {A} _.
Arguments g_app {A} _.

(** The functions of the application, and the timers of the main loop. *)
Class App (A : Type) := {
  call : event -> M (W := gatt A) ();
  timeout_add : Z -> timer -> M (W := gatt A) Z;
  timeout_remove : Z -> M (W := gatt A) ()
}.

Definition ATTRIBUTE_TIMEOUT : Z := 5000.
Definition BT_ATT_PERM_READ : Z := 0x01.
Definition BT_ATT_ERROR_INVALID_OFFSET : Z := 0x07.
Definition ECANCELED : Z := 125.
Definition ETIMEDOUT : Z := 110.
Definition UINT16_MAX : Z := 65535.

Definition primary_service_uuid : bt_uuid_t := BT_UUID16 0x2800.
Definition secondary_service_uuid : bt_uuid_t := BT_UUID16 0x2801.
Definition included_service_uuid : bt_uuid_t := BT_UUID16 0x2802.
Definition characteristic_uuid : bt_uuid_t := BT_UUID16 0x2803.

Section GattDb.
Context `{!Allocator} {A : Type}.
Abbreviation M := (Queue.M (W := gatt A)).
Abbreviation mem := (Queue.mem (gatt A)).

(** ** The heap *)

Definition with_gatt (g : gatt A) (m : mem) : mem := mk_mem (queues m) (cells m) (requests m) g.

Definition set_db x (g : gatt A) := mk_gatt x (g_services g) (g_notifies g) (g_reads g) (g_writes g) (g_found g) (g_app g).
Definition set_services x (g : gatt A) := mk_gatt (g_db g) x (g_notifies g) (g_reads g) (g_writes g) (g_found g) (g_app g).
Definition set_notifies x (g : gatt A) := mk_gatt (g_db g) (g_services g) x (g_reads g) (g_writes g) (g_found g) (g_app g).
Definition set_reads x (g : gatt A) := mk_gatt (g_db g) (g_services g) (g_notifies g) x (g_writes g) (g_found g) (g_app g).
Definition set_writes x (g : gatt A) := mk_gatt (g_db g) (g_services g) (g_notifies g) (g_reads g) x (g_found g) (g_app g).
Definition set_found x (g : gatt A) := mk_gatt (g_db g) (g_services g) (g_notifies g) (g_reads g) (g_writes g) x (g_app g).

Definition set_app (x : A) (g : gatt A) : gatt A := mk_gatt (g_db g) (g_services g) (g_notifies g) (g_reads g) (g_writes g) (g_found g) x.

Definition lift {B} (x : outcome B) : M B := fun m => b ← x; Ret (b, m).
(** A part of the heap that must be there. *)
Definition fetch {B} (f : gatt A -> option B) : M B := fun m => b ← of_option (f (world m)); Ret (b, m).
Definition modify (f : gatt A -> gatt A) : M () := fun m => Ret ((), with_gatt (f (world m)) m).

(** A request for a block beside the blocks [used]; [new0] calls [abort] without memory, [malloc0] and
    [realloc] give null. *)
Definition request (used : gset ptr) : M (option ptr) := fun m =>
  Ret (place (requests m) used, mk_mem (queues m) (cells m) (S (requests m)) (world m)).
Definition new0 (used : gatt A -> gset ptr) : M ptr := fun m =>
  match place (requests m) (used (world m)) with
  | Some p => Ret (p, mk_mem (queues m) (cells m) (S (requests m)) (world m))
  | None => Exit 134
  end.
Definition try_alloc : M bool := o ← request ∅; mret (match o with Some _ => true | None => false end).

Definition load_db : M gatt_db := fetch g_db.
Definition update_db (f : gatt_db -> gatt_db) : M () := d ← load_db; modify (set_db (Some (f d))).
Definition load_service (s : ptr) : M gatt_db_service := fetch (fun g => g_services g !! s).
Definition update_service (s : ptr) (f : gatt_db_service -> gatt_db_service) : M () :=
  x ← load_service s; modify (fun g => set_services (<[s := f x]> (g_services g)) g).

Definition set_ref x d := mk_db x (d_next_handle d) (d_services d) (d_notify_list d) (d_next_notify_id d).
Definition set_next_handle x d := mk_db (d_ref_count d) x (d_services d) (d_notify_list d) (d_next_notify_id d).
Definition set_notify_list x d := mk_db (d_ref_count d) (d_next_handle d) (d_services d) x (d_next_notify_id d).
Definition set_next_notify_id x d := mk_db (d_ref_count d) (d_next_handle d) (d_services d) (d_notify_list d) x.

Definition set_active x s := mk_service x (s_claimed s) (s_num_handles s) (s_attributes s).
Definition set_claimed x s := mk_service (s_active s) x (s_num_handles s) (s_attributes s).
Definition set_num_handles x s := mk_service (s_active s) (s_claimed s) x (s_attributes s).
Definition set_attributes x s := mk_service (s_active s) (s_claimed s) (s_num_handles s) x.

(** [service->attributes[i]], null or not; an index outside of the array is undefined, and so is what
    follows from a pointer to a freed attribute. *)
Definition attribute_at (s : ptr) (i : nat) : M (option gatt_db_attribute) :=
  x ← load_service s;
  match s_attributes x !! i with
  | Some Null => mret None
  | Some (Attr a) => mret (Some a)
  | _ => undef
  end.
Definition store_attribute (s : ptr) (i : nat) (a : slot) : M () :=
  x ← load_service s;
  if decide (i < length (s_attributes x))%nat then update_service s (set_attributes (<[i := a]> (s_attributes x))) else undef.

Definition load_attr (p : attr) : M gatt_db_attribute := o ← attribute_at p.1 p.2; lift (of_option o).
Definition update_attr (p : attr) (f : gatt_db_attribute -> gatt_db_attribute) : M () :=
  a ← load_attr p; store_attribute p.1 p.2 (Attr (f a)).

Definition set_handle x a := mk_attribute x (a_uuid a) (a_permissions a) (a_value_len a) (a_value a) (a_read_func a) (a_write_func a) (a_user_data a) (a_read_id a) (a_pending_reads a) (a_write_id a) (a_pending_writes a).
Definition set_value l v a := mk_attribute (a_handle a) (a_uuid a) (a_permissions a) l v (a_read_func a) (a_write_func a) (a_user_data a) (a_read_id a) (a_pending_reads a) (a_write_id a) (a_pending_writes a).
Definition set_read_id x a := mk_attribute (a_handle a) (a_uuid a) (a_permissions a) (a_value_len a) (a_value a) (a_read_func a) (a_write_func a) (a_user_data a) x (a_pending_reads a) (a_write_id a) (a_pending_writes a).
Definition set_write_id x a := mk_attribute (a_handle a) (a_uuid a) (a_permissions a) (a_value_len a) (a_value a) (a_read_func a) (a_write_func a) (a_user_data a) (a_read_id a) (a_pending_reads a) x (a_pending_writes a).
Definition set_attribute_data (read_func write_func : option nat) (permissions user_data : Z) a :=
  mk_attribute (a_handle a) (a_uuid a) permissions (a_value_len a) (a_value a) read_func write_func user_data (a_read_id a) (a_pending_reads a) (a_write_id a) (a_pending_writes a).

Definition load_read (p : ptr) : M pending := fetch (fun g => g_reads g !! p).
Definition load_write (p : ptr) : M pending := fetch (fun g => g_writes g !! p).
Definition load_notify (p : ptr) : M notify := fetch (fun g => g_notifies g !! p).

(** The bytes of a stored value; bytes that were never written have no value. *)
Definition known (v : option raw) : outcome bytes :=
  v ← of_option v; of_option (mapM id v).

(** The pointer behind an element of a queue. *)
Definition at_addr {B} `{Countable B} (z : Z) : M B := lift (of_addr z).

(** ** Pending reads and writes *)

Context {app : App A}.
(** The rounds that the walks over queues which call functions may take. *)
Context (fuel : nat).

Definition free_read (p : ptr) : M () := _ ← load_read p; modify (fun g => set_reads (delete p (g_reads g)) g).
Definition free_write (p : ptr) : M () := _ ← load_write p; modify (fun g => set_writes (delete p (g_writes g)) g).

Definition pending_read_result (p : ptr) (err : Z) (data : option raw) (length : Z) : M () :=
  x ← load_read p;
  _ ← if 0 <? p_timeout_id x then timeout_remove (p_timeout_id x) else mret ();
  x ← load_read p;
  _ ← call (ReadDone (p_func x) (p_attrib x) err data length (p_user_data x));
  free_read p.

Definition pending_read_free (data : Z) : M () :=
  p ← at_addr data; pending_read_result p (- ECANCELED) None 0.

Definition pending_write_result (p : ptr) (err : Z) : M () :=
  x ← load_write p;
  _ ← if 0 <? p_timeout_id x then timeout_remove (p_timeout_id x) else mret ();
  x ← load_write p;
  _ ← call (WriteDone (p_func x) (p_attrib x) err (p_user_data x));
  free_write p.

Definition pending_write_free (data : Z) : M () :=
  p ← at_addr data; pending_write_result p (- ECANCELED).

(** ** Attributes and services *)

(** The attribute in slot [i] of [s]; afterwards the slot has a pointer to freed memory. *)
Definition attribute_destroy (s : ptr) (i : nat) : M () :=
  o ← attribute_at s i;
  match o with
  | None => mret ()
  | Some a =>
      _ ← queue_destroy fuel (a_pending_reads a) (Some pending_read_free);
      _ ← queue_destroy fuel (a_pending_writes a) (Some pending_write_free);
      store_attribute s i Dangling
  end.

(** [val] are the [len] bytes that are copied.  Without memory for them the attribute is freed again. *)
Definition new_attribute (handle : Z) (type : bt_uuid_t) (val : bytes) : M (option gatt_db_attribute) :=
  _ ← new0 (fun _ => ∅);
  let len := zlen val in
  ok ← if len =? 0 then mret true else try_alloc;
  if negb ok then mret None
  else
    reads ← queue_new;
    writes ← queue_new;
    mret (Some (mk_attribute handle type 0 (u16 len) (if len =? 0 then None else Some (Some <$> val)) None None 0 0 reads 0 writes)).

Definition gatt_db_ref : M () := update_db (fun d => set_ref (s32 (d_ref_count d + 1)) d).

(** A database as [gatt_db_new] leaves it. *)
Definition gatt_db_new : M () :=
  _ ← new0 (fun _ => ∅);
  services ← queue_new;
  notify_list ← queue_new;
  _ ← modify (set_db (Some (mk_db 0 0x0001 services notify_list 0)));
  gatt_db_ref.

Definition notify_destroy (data : Z) : M () :=
  p ← at_addr data;
  n ← load_notify p;
  _ ← match n_destroy n with Some f => call (Destroyed f (n_user_data n)) | None => mret () end;
  _ ← load_notify p;
  modify (fun g => set_notifies (delete p (g_notifies g)) g).

(** A null function is called as it is. *)
Definition handle_notify (attrib : attr) (added : bool) (data : Z) : M () :=
  p ← at_addr data;
  n ← load_notify p;
  match (if added then n_service_added n else n_service_removed n) with
  | Some f => call (ServiceChanged f attrib (n_user_data n))
  | None => undef
  end.

(** The calls of [notify_service_changed], [gatt_db_unref], [gatt_db_destroy] and [gatt_db_service_destroy] go
    round once: when [gatt_db_destroy] frees the services there is no list of observers any more, so
    [notify_service_changed] returns before it would call [gatt_db_unref]. *)
Definition notify_service_changed (unref : M ()) (s : ptr) (added : bool) : M () :=
  d ← load_db;
  e ← queue_isempty (d_notify_list d);
  if (e : bool) then mret ()
  else
    _ ← load_attr (s, 0%nat);
    _ ← gatt_db_ref;
    d ← load_db;
    _ ← queue_foreach fuel (d_notify_list d) (Some (handle_notify (s, 0%nat) added));
    unref.

(** [attribute_destroy] for the slots from [i] on. *)
Fixpoint destroy_attributes (n : nat) (s : ptr) (i : nat) : M () :=
  match n with
  | O => mret ()
  | S n => _ ← attribute_destroy s i; destroy_attributes n s (S i)
  end.

Definition service_destroy (unref : M ()) (s : ptr) : M () :=
  x ← load_service s;
  _ ← if s_active x then notify_service_changed unref s false else mret ();
  x ← load_service s;
  _ ← destroy_attributes (Z.to_nat (s_num_handles x)) s 0;
  _ ← load_service s;
  modify (fun g => set_services (delete s (g_services g)) g).

Definition gatt_db_destroy : M () :=
  d ← load_db;
  _ ← queue_destroy fuel (d_notify_list d) (Some notify_destroy);
  _ ← update_db (set_notify_list None);
  d ← load_db;
  _ ← queue_destroy fuel (d_services d) (Some (fun data => s ← at_addr data; service_destroy undef s));
  _ ← load_db;
  modify (set_db None).

Definition gatt_db_unref : M () :=
  _ ← update_db (fun d => set_ref (s32 (d_ref_count d - 1)) d);
  d ← load_db;
  if d_ref_count d =? 0 then gatt_db_destroy else mret ().

Definition gatt_db_service_destroy (data : Z) : M () := s ← at_addr data; service_destroy gatt_db_unref s.

Definition gatt_db_isempty : M bool := d ← load_db; queue_isempty (d_services d).

Definition gatt_db_service_create (uuid : bt_uuid_t) (handle : Z) (primary : bool) (num_handles : Z) : M (option ptr) :=
  if num_handles <? 1 then mret None
  else
    s ← new0 (fun g => dom (g_services g));
    _ ← modify (fun g => set_services (<[s := mk_service false false 0 (replicate (Z.to_nat num_handles) Null)]> (g_services g)) g);
    _ ← new0 (fun _ => ∅);
    let type := if primary then primary_service_uuid else secondary_service_uuid in
    value ← lift (uuid_to_le uuid);
    o ← new_attribute handle type value;
    match o with
    | None => _ ← service_destroy gatt_db_unref s; mret None
    | Some a => _ ← store_attribute s 0 (Attr (set_attribute_data None None BT_ATT_PERM_READ 0 a)); mret (Some s)
    end.

(** ** The list of services *)

Definition gatt_db_remove_service (attrib : option attr) : M bool :=
  match attrib with
  | None => mret false
  | Some p =>
      _ ← load_attr p;
      d ← load_db;
      _ ← queue_remove (d_services d) (addr p.1);
      _ ← service_destroy gatt_db_unref p.1;
      mret true
  end.

(** The first and the last handle of a service. *)
Definition gatt_db_service_get_handles (s : ptr) : M (Z * Z) :=
  x ← load_service s;
  a ← load_attr (s, 0%nat);
  mret (a_handle a, u16 (a_handle a + s_num_handles x - 1)).

Definition match_range (start end_ : Z) (a _b : Z) : M bool :=
  s ← at_addr a;
  '(svc_start, svc_end) ← gatt_db_service_get_handles s;
  mret ((svc_start <=? end_) && (start <=? svc_end)).

Definition gatt_db_clear_range (start_handle end_handle : Z) : M bool :=
  if end_handle <? start_handle then mret false
  else
    d ← load_db;
    _ ← if (start_handle =? 1) && (end_handle =? UINT16_MAX)
        then queue_remove_all fuel (d_services d) None 0 (Some gatt_db_service_destroy)
        else queue_remove_all fuel (d_services d) (Some (match_range start_handle end_handle)) 0 (Some gatt_db_service_destroy);
    e ← gatt_db_isempty;
    _ ← if (e : bool) then update_db (set_next_handle 0) else mret ();
    mret true.

Definition gatt_db_clear : M bool := gatt_db_clear_range 1 UINT16_MAX.

(** The loop of [find_insert_loc]: the service in the way, and the last service before the place. *)
Fixpoint insert_loc (n : nat) (entry : option ptr) (start end_ : Z) (after : option ptr) : M (option ptr * option ptr) :=
  match entry, n with
  | None, _ => mret (None, after)
  | Some _, O => undef
  | Some e, S n =>
      x ← load_entry e;
      s ← at_addr (e_data x);
      '(cur_start, cur_end) ← gatt_db_service_get_handles s;
      if (cur_start <=? start) && (start <=? cur_end) then mret (Some s, after)
      else if (cur_start <=? end_) && (end_ <=? cur_end) then mret (Some s, after)
      else if end_ <? cur_start then mret (None, after)
      else insert_loc n (e_next x) start end_ (Some s)
  end.

Definition find_insert_loc (start end_ : Z) : M (option ptr * option ptr) :=
  d ← load_db;
  entry ← queue_get_entries (d_services d);
  n ← walk_fuel;
  insert_loc n entry start end_ None.

Definition get_known (a : gatt_db_attribute) : M bytes := lift (known (a_value a)).

(** [false] leaves the UUID as it was. *)
Definition gatt_db_attribute_get_service_uuid (attrib : option attr) : M (option bt_uuid_t) :=
  match attrib with
  | None => mret None
  | Some p =>
      _ ← load_attr p;
      a ← load_attr (p.1, 0%nat);
      if a_value_len a =? 2 then
        v ← get_known a;
        x ← lift (get_le16 v);
        mret (Some (bt_uuid16_create x))
      else if a_value_len a =? 16 then
        v ← get_known a;
        x ← lift (mem_read v 0 16);
        mret (Some (bt_uuid128_create (bswap_128 x)))
      else mret None
  end.

(** Whether [bt_uuid_cmp] gives 0. *)
Definition uuid_eq (u1 u2 : bt_uuid_t) : M bool := c ← lift (bt_uuid_cmp u1 u2); mret (c =? 0).

Definition gatt_db_insert_service (handle : Z) (uuid : bt_uuid_t) (primary : bool) (num_handles : Z) : M (option attr) :=
  if handle <? 1 then mret None
  else if (num_handles <? 1) || (UINT16_MAX <? handle + num_handles - 1) then mret None
  else
    '(service, after) ← find_insert_loc handle (u16 (handle + num_handles - 1));
    match service with
    | Some s =>
        let type := if primary then primary_service_uuid else secondary_service_uuid in
        o ← gatt_db_attribute_get_service_uuid (Some (s, 0%nat));
        a ← load_attr (s, 0%nat);
        x ← load_service s;
        same_type ← uuid_eq (a_uuid a) type;
        if negb same_type then mret None
        else
          value ← lift (of_option o);
          same_uuid ← uuid_eq value uuid;
          if same_uuid && (s_num_handles x =? num_handles) && (a_handle a =? handle) then mret (Some (s, 0%nat)) else mret None
    | None =>
        o ← gatt_db_service_create uuid handle primary num_handles;
        match o with
        | None => mret None
        | Some s =>
            d ← load_db;
            ok ← match after with
                 | Some after => queue_push_after (d_services d) (addr after) (addr s)
                 | None => queue_push_head (d_services d) (addr s)
                 end;
            if negb ok then _ ← service_destroy gatt_db_unref s; mret None
            else
              _ ← update_attr (s, 0%nat) (set_handle handle);
              _ ← update_service s (set_num_handles num_handles);
              _ ← update_db (fun d => set_next_handle (u16 (Z.max (handle + num_handles) (d_next_handle d))) d);
              mret (Some (s, 0%nat))
        end
    end.

Definition gatt_db_add_service (uuid : bt_uuid_t) (primary : bool) (num_handles : Z) : M (option attr) :=
  d ← load_db;
  gatt_db_insert_service (d_next_handle d) uuid primary num_handles.

(** ** Observers *)

Definition gatt_db_register (service_added service_removed : option nat) (user_data : Z) (destroy : option nat) : M Z :=
  match service_added, service_removed with
  | None, None => mret 0
  | _, _ =>
      p ← new0 (fun g => dom (g_notifies g));
      _ ← update_db (fun d => if d_next_notify_id d <? 1 then set_next_notify_id 1 d else d);
      d ← load_db;
      let id := d_next_notify_id d in
      _ ← modify (fun g => set_notifies (<[p := mk_notify id service_added service_removed destroy user_data]> (g_notifies g)) g);
      _ ← update_db (set_next_notify_id (u32 (id + 1)));
      ok ← queue_push_tail (d_notify_list d) (addr p);
      if (ok : bool) then mret id else _ ← modify (fun g => set_notifies (delete p (g_notifies g)) g); mret 0
  end.

Definition match_notify_id (a id : Z) : M bool := p ← at_addr a; n ← load_notify p; mret (n_id n =? id).

Definition gatt_db_unregister (id : Z) : M bool :=
  if id =? 0 then mret false
  else
    d ← load_db;
    n ← queue_find (d_notify_list d) (Some match_notify_id) id;
    if n =? 0 then mret false
    else
      _ ← queue_remove (d_notify_list d) n;
      _ ← notify_destroy n;
      mret true.

(** ** Attributes of a service *)

(** The loop of [get_attribute_index], with [n] the bound. *)
Fixpoint free_index (k : nat) (s : ptr) (n i : Z) : M Z :=
  match k with
  | O => mret i
  | S k =>
      if i <? n then
        o ← attribute_at s (Z.to_nat i);
        match o with Some _ => free_index k s n (i + 1) | None => mret i end
      else mret i
  end.

Definition get_attribute_index (s : ptr) (end_offset : Z) : M Z :=
  x ← load_service s;
  let n := s_num_handles x - end_offset in
  i ← free_index (Z.to_nat n) s n 0;
  mret (if i =? n then 0 else u16 i).

Definition get_handle_at_index (s : ptr) (index : Z) : M Z := a ← load_attr (s, Z.to_nat index); mret (a_handle a).

Definition attribute_update (s : ptr) (index : Z) : M (option attr) :=
  previous_handle ← get_handle_at_index s (index - 1);
  _ ← update_attr (s, Z.to_nat index) (set_handle (u16 (previous_handle + 1)));
  mret (Some (s, Z.to_nat index)).

Definition service_insert_characteristic (s : ptr) (handle : Z) (uuid : bt_uuid_t) (permissions properties : Z)
    (read_func write_func : option nat) (user_data : Z) : M (option attr) :=
  a0 ← load_attr (s, 0%nat);
  if negb (handle =? 0) && (handle <=? a_handle a0) then mret None
  else if handle =? UINT16_MAX then mret None
  else
    i ← get_attribute_index s 1;
    if i =? 0 then mret None
    else
      handle ← if handle =? 0 then h ← get_handle_at_index s (i - 1); mret (u16 (h + 2)) else mret handle;
      le ← lift (uuid_to_le uuid);
      let value := [properties] ++ put_le16 handle ++ le in
      o ← new_attribute (u16 (handle - 1)) characteristic_uuid value;
      match o with
      | None => mret None
      | Some a =>
          _ ← store_attribute s (Z.to_nat i) (Attr (set_attribute_data None None BT_ATT_PERM_READ 0 a));
          let i := i + 1 in
          o ← new_attribute handle uuid [];
          match o with
          | None =>
              _ ← store_attribute s (Z.to_nat i) Null;
              _ ← store_attribute s (Z.to_nat (i - 1)) Dangling;
              mret None
          | Some a =>
              _ ← store_attribute s (Z.to_nat i) (Attr (set_attribute_data read_func write_func permissions user_data a));
              mret (Some (s, Z.to_nat i))
          end
      end.

Definition service_insert_descriptor (s : ptr) (handle : Z) (uuid : bt_uuid_t) (permissions : Z)
    (read_func write_func : option nat) (user_data : Z) : M (option attr) :=
  i ← get_attribute_index s 0;
  if i =? 0 then mret None
  else
    a0 ← load_attr (s, 0%nat);
    if negb (handle =? 0) && (handle <=? a_handle a0) then mret None
    else
      handle ← if handle =? 0 then h ← get_handle_at_index s (i - 1); mret (u16 (h + 1)) else mret handle;
      o ← new_attribute handle uuid [];
      match o with
      | None => mret None
      | Some a =>
          _ ← store_attribute s (Z.to_nat i) (Attr (set_attribute_data read_func write_func permissions user_data a));
          mret (Some (s, Z.to_nat i))
      end.

Definition service_insert_included (s : ptr) (handle : Z) (include : attr) : M (option attr) :=
  _ ← load_attr include;
  included ← load_service include.1;
  decl ← load_attr (include.1, 0%nat);
  let included_handle := a_handle decl in
  uuid ← if a_value_len decl =? 2 then v ← get_known decl; lift (mem_read v 0 2) else mret [];
  let value := put_le16 included_handle ++ put_le16 (included_handle + s_num_handles included - 1) ++ uuid in
  index ← get_attribute_index s 0;
  if index =? 0 then mret None
  else
    a0 ← load_attr (s, 0%nat);
    if negb (handle =? 0) && (handle <=? a_handle a0) then mret None
    else
      handle ← if handle =? 0 then h ← get_handle_at_index s (index - 1); mret (u16 (h + 1)) else mret handle;
      o ← new_attribute handle included_service_uuid value;
      match o with
      | None => mret None
      | Some a =>
          _ ← store_attribute s (Z.to_nat index) (Attr (set_attribute_data None None BT_ATT_PERM_READ 0 a));
          attribute_update s index
      end.

Definition find_service_for_handle (data handle : Z) : M bool :=
  s ← at_addr data;
  '(start, end_) ← gatt_db_service_get_handles s;
  mret ((start <=? handle) && (handle <=? end_)).

Definition gatt_db_get_service (handle : Z) : M (option attr) :=
  if handle =? 0 then mret None
  else
    d ← load_db;
    z ← queue_find (d_services d) (Some find_service_for_handle) handle;
    if z =? 0 then mret None
    else s ← at_addr z; _ ← load_service s; mret (Some (s, 0%nat)).

(** The forms that find the service by a handle of the database, that take a handle, and that take the next
    one. *)
Definition gatt_db_insert_characteristic (handle : Z) uuid permissions properties read_func write_func user_data : M (option attr) :=
  o ← gatt_db_get_service handle;
  match o with
  | None => mret None
  | Some p => service_insert_characteristic p.1 handle uuid permissions properties read_func write_func user_data
  end.
Definition gatt_db_service_insert_characteristic (attrib : option attr) (handle : Z) uuid permissions properties read_func write_func user_data : M (option attr) :=
  match attrib with
  | None => mret None
  | Some p => if handle =? 0 then mret None else _ ← load_attr p; service_insert_characteristic p.1 handle uuid permissions properties read_func write_func user_data
  end.
Definition gatt_db_service_add_characteristic (attrib : option attr) uuid permissions properties read_func write_func user_data : M (option attr) :=
  match attrib with
  | None => mret None
  | Some p => _ ← load_attr p; service_insert_characteristic p.1 0 uuid permissions properties read_func write_func user_data
  end.
Definition gatt_db_insert_descriptor (handle : Z) uuid permissions read_func write_func user_data : M (option attr) :=
  o ← gatt_db_get_service handle;
  match o with
  | None => mret None
  | Some p => service_insert_descriptor p.1 handle uuid permissions read_func write_func user_data
  end.
Definition gatt_db_service_insert_descriptor (attrib : option attr) (handle : Z) uuid permissions read_func write_func user_data : M (option attr) :=
  match attrib with
  | None => mret None
  | Some p => if handle =? 0 then mret None else _ ← load_attr p; service_insert_descriptor p.1 handle uuid permissions read_func write_func user_data
  end.
Definition gatt_db_service_add_descriptor (attrib : option attr) uuid permissions read_func write_func user_data : M (option attr) :=
  match attrib with
  | None => mret None
  | Some p => _ ← load_attr p; service_insert_descriptor p.1 0 uuid permissions read_func write_func user_data
  end.
Definition gatt_db_insert_included (handle : Z) (include : attr) : M (option attr) :=
  o ← gatt_db_get_service handle;
  match o with
  | None => mret None
  | Some p => service_insert_included p.1 handle include
  end.
Definition gatt_db_service_insert_included (attrib : option attr) (handle : Z) (include : option attr) : M (option attr) :=
  match attrib, include with
  | Some p, Some include => if handle =? 0 then mret None else _ ← load_attr p; service_insert_included p.1 handle include
  | _, _ => mret None
  end.
Definition gatt_db_service_add_included (attrib include : option attr) : M (option attr) :=
  match attrib, include with
  | Some p, Some include => _ ← load_attr p; service_insert_included p.1 0 include
  | _, _ => mret None
  end.

Definition gatt_db_service_set_active (attrib : option attr) (active : bool) : M bool :=
  match attrib with
  | None => mret false
  | Some p =>
      _ ← load_attr p;
      x ← load_service p.1;
      if Bool.eqb (s_active x) active then mret true
      else
        _ ← update_service p.1 (set_active active);
        _ ← notify_service_changed gatt_db_unref p.1 active;
        mret true
  end.
Definition gatt_db_service_get_active (attrib : option attr) : M bool :=
  match attrib with
  | None => mret false
  | Some p => _ ← load_attr p; x ← load_service p.1; mret (s_active x)
  end.
Definition gatt_db_service_set_claimed (attrib : option attr) (claimed : bool) : M bool :=
  match attrib with
  | None => mret false
  | Some p => _ ← load_attr p; _ ← update_service p.1 (set_claimed claimed); mret true
  end.
Definition gatt_db_service_get_claimed (attrib : option attr) : M bool :=
  match attrib with
  | None => mret false
  | Some p => _ ← load_attr p; x ← load_service p.1; mret (s_claimed x)
  end.
End GattDb.
