(* ===== verification/GattAccess.v ===== *)
(** Searches in the attribute database, and reads and writes of its attributes: the second half of
    src/bt/btgatt_server/src/shared/gatt-db.c. *)

From stdpp Require Import gmap.
From S2P Require Import Prelude Alloc Queue Uuid GattDb.

Section Access.
Context `{!Allocator} {A : Type} {app : App A}.
(** The rounds that the walks over queues which call functions may take. *)
Context (fuel : nat).
Abbreviation M := (Queue.M (W := gatt A)).

(** ** Searches *)

(** [for (i = ...; i < service->num_handles; i++)] over the attributes that are there; [body] tells whether
    the loop goes on. *)
Fixpoint for_attributes (k : nat) (s : ptr) (i : nat) (body : nat -> gatt_db_attribute -> M bool) : M () :=
  match k with
  | O => mret ()
  | S k =>
      x ← load_service s;
      if Z.of_nat i <? s_num_handles x then
        o ← attribute_at s i;
        match o with
        | None => for_attributes k s (S i) body
        | Some a => body i a ≫= fun go : bool => if go then for_attributes k s (S i) body else mret ()
        end
      else mret ()
  end.

Definition each_attribute (s : ptr) (body : nat -> gatt_db_attribute -> M bool) : M () :=
  x ← load_service s; for_attributes (Z.to_nat (s_num_handles x)) s 0 body.

(** The loop of [gatt_db_read_by_group_type] over the entries of the list of services. *)
Fixpoint group_loop (n : nat) (entry : option ptr) (start_handle end_handle : Z) (type : bt_uuid_t) (queue : option ptr) (uuid_size : Z) : M () :=
  match entry, n with
  | None, _ => mret ()
  | Some _, O => undef
  | Some e, S n =>
      c ← load_entry e;
      s ← at_addr (e_data c);
      let next_service uuid_size := group_loop n (e_next c) start_handle end_handle type queue uuid_size in
      x ← load_service s;
      if negb (s_active x) then next_service uuid_size
      else
        a ← load_attr (s, 0%nat);
        uuid_eq type (a_uuid a) ≫= fun same : bool =>
        if negb same then next_service uuid_size
        else
          let grp_start := a_handle a in
          let grp_end := u16 (grp_start + s_num_handles x - 1) in
          if (grp_end <? start_handle) || (end_handle <? grp_start) then next_service uuid_size
          else if (grp_start <? start_handle) || (end_handle <? grp_start) then next_service uuid_size
          else if negb (uuid_size =? 0) && negb (uuid_size =? a_value_len a) then mret ()
          else
            _ ← queue_push_tail queue (addr (s, 0%nat));
            next_service (a_value_len a)
  end.

Definition gatt_db_read_by_group_type (start_handle end_handle : Z) (type : bt_uuid_t) (queue : option ptr) : M () :=
  d ← load_db;
  entry ← queue_get_entries (d_services d);
  n ← walk_fuel;
  group_loop n entry start_handle end_handle type queue 0.

(** [memcmp] of the stored value, which must have been written. *)
Definition same_value (a : gatt_db_attribute) (value : option bytes) : M bool :=
  match value with
  | None => mret true
  | Some v =>
      if negb (zlen v =? a_value_len a) then mret false
      else if zlen v =? 0 then mret true
      else
        stored ← lift (of_option (a_value a));
        stored ← lift (mem_read stored 0 (zlen v));
        stored ← lift (known (Some stored));
        mret (memcmp stored v =? 0)
  end.

Definition find_by_type (uuid : bt_uuid_t) (start_handle end_handle : Z) (value : option bytes) (func : attr -> M ()) (data : Z) : M () :=
  s ← at_addr data;
  x ← load_service s;
  if negb (s_active x) then mret ()
  else each_attribute s (fun i attribute =>
    if (a_handle attribute <? start_handle) || (end_handle <? a_handle attribute) then mret true
    else
      uuid_eq uuid (a_uuid attribute) ≫= fun same : bool =>
      if negb same then mret true
      else
        same_value attribute value ≫= fun same : bool =>
        if negb same then mret true
        else
          _ ← modify (fun g => set_found ((fun n => u32 (n + 1)) <$> g_found g) g);
          _ ← func (s, i);
          mret true).

(** A search with a counter of its own. *)
Definition counting (found : option Z) (search : M ()) : M (option Z) :=
  outer ← fetch (fun g => Some (g_found g));
  _ ← modify (set_found found);
  _ ← search;
  n ← fetch (fun g => Some (g_found g));
  _ ← modify (set_found outer);
  mret n.

Definition gatt_db_find_by_type (start_handle end_handle : Z) (type : bt_uuid_t) (func : attr -> M ()) : M (option Z) :=
  counting (Some 0) (d ← load_db; queue_foreach fuel (d_services d) (Some (find_by_type type start_handle end_handle None func))).

(** Here the counter is not set before the search. *)
Definition gatt_db_find_by_type_value (start_handle end_handle : Z) (type : bt_uuid_t) (value : bytes) (func : attr -> M ()) : M (option Z) :=
  counting None (d ← load_db; queue_foreach fuel (d_services d) (Some (find_by_type type start_handle end_handle (Some value) func))).

Definition read_by_type (queue : option ptr) (uuid : bt_uuid_t) (start_handle end_handle : Z) (data : Z) : M () :=
  s ← at_addr data;
  x ← load_service s;
  if negb (s_active x) then mret ()
  else each_attribute s (fun i attribute =>
    if a_handle attribute <? start_handle then mret true
    else if end_handle <? a_handle attribute then mret false
    else
      uuid_eq uuid (a_uuid attribute) ≫= fun same : bool =>
      if negb same then mret true
      else _ ← queue_push_tail queue (addr (s, i)); mret true).

Definition gatt_db_read_by_type (start_handle end_handle : Z) (type : bt_uuid_t) (queue : option ptr) : M () :=
  d ← load_db; queue_foreach fuel (d_services d) (Some (read_by_type queue type start_handle end_handle)).

Definition find_information (queue : option ptr) (start_handle end_handle : Z) (data : Z) : M () :=
  s ← at_addr data;
  x ← load_service s;
  if negb (s_active x) then mret ()
  else
    a ← load_attr (s, 0%nat);
    if a_handle a + s_num_handles x - 1 <? start_handle then mret ()
    else each_attribute s (fun i attribute =>
      if a_handle attribute <? start_handle then mret true
      else if end_handle <? a_handle attribute then mret false
      else _ ← queue_push_tail queue (addr (s, i)); mret true).

Definition gatt_db_find_information (start_handle end_handle : Z) (queue : option ptr) : M () :=
  d ← load_db; queue_foreach fuel (d_services d) (Some (find_information queue start_handle end_handle)).

Definition foreach_service_in_range (func : attr -> M ()) (uuid : option bt_uuid_t) (start end_ : Z) (data : Z) : M () :=
  s ← at_addr data;
  svc_start ← get_handle_at_index s 0;
  if (end_ <? svc_start) || (svc_start <? start) then mret ()
  else
    match uuid with
    | None => func (s, 0%nat)
    | Some uuid =>
        o ← gatt_db_attribute_get_service_uuid (Some (s, 0%nat));
        u ← lift (of_option o);
        uuid_eq u uuid ≫= fun same : bool => if same then func (s, 0%nat) else mret ()
    end.

Definition gatt_db_foreach_service_in_range (uuid : option bt_uuid_t) (func : attr -> M ()) (start_handle end_handle : Z) : M () :=
  if end_handle <? start_handle then mret ()
  else d ← load_db; queue_foreach fuel (d_services d) (Some (foreach_service_in_range func uuid start_handle end_handle)).

Definition gatt_db_foreach_service (uuid : option bt_uuid_t) (func : attr -> M ()) : M () :=
  gatt_db_foreach_service_in_range uuid func 0x0001 0xffff.

Definition gatt_db_service_foreach (attrib : option attr) (uuid : option bt_uuid_t) (func : attr -> M ()) : M () :=
  match attrib with
  | None => mret ()
  | Some p =>
      _ ← load_attr p;
      each_attribute p.1 (fun i a =>
        match uuid with
        | None => _ ← func (p.1, i); mret true
        | Some uuid => uuid_eq uuid (a_uuid a) ≫= fun same : bool => if same then _ ← func (p.1, i); mret true else mret true
        end)
  end.

Definition gatt_db_service_foreach_char (attrib : option attr) (func : attr -> M ()) : M () :=
  gatt_db_service_foreach attrib (Some characteristic_uuid) func.
Definition gatt_db_service_foreach_incl (attrib : option attr) (func : attr -> M ()) : M () :=
  gatt_db_service_foreach attrib (Some included_service_uuid) func.

(** The attributes behind the value of a characteristic, up to the next declaration. *)
Definition gatt_db_service_foreach_desc (attrib : option attr) (func : attr -> M ()) : M () :=
  match attrib with
  | None => mret ()
  | Some p =>
      a ← load_attr p;
      uuid_eq characteristic_uuid (a_uuid a) ≫= fun is_char : bool =>
      if negb is_char then mret ()
      else
        x ← load_service p.1;
        for_attributes (Z.to_nat (s_num_handles x)) p.1 (p.2 + 2) (fun i a =>
          uuid_eq characteristic_uuid (a_uuid a) ≫= fun next_char : bool =>
          if next_char then mret false
          else
            uuid_eq included_service_uuid (a_uuid a) ≫= fun next_incl : bool =>
            if next_incl then mret false else _ ← func (p.1, i); mret true)
  end.

(** The loop of [gatt_db_get_attribute]. *)
Fixpoint attribute_loop (k : nat) (s : ptr) (i : nat) (handle : Z) : M (option attr) :=
  match k with
  | O => mret None
  | S k =>
      o ← attribute_at s i;
      match o with
      | Some a => if a_handle a =? handle then mret (Some (s, i)) else attribute_loop k s (S i) handle
      | None => attribute_loop k s (S i) handle
      end
  end.

Definition gatt_db_get_attribute (handle : Z) : M (option attr) :=
  o ← gatt_db_get_service handle;
  match o with
  | None => mret None
  | Some p => x ← load_service p.1; attribute_loop (Z.to_nat (s_num_handles x)) p.1 0 handle
  end.

Definition find_service_with_uuid (uuid : bt_uuid_t) (data _x : Z) : M bool :=
  s ← at_addr data;
  o ← gatt_db_attribute_get_service_uuid (Some (s, 0%nat));
  svc_uuid ← lift (of_option o);
  uuid_eq uuid svc_uuid.

Definition gatt_db_get_service_with_uuid (uuid : option bt_uuid_t) : M (option attr) :=
  match uuid with
  | None => mret None
  | Some uuid =>
      d ← load_db;
      z ← queue_find (d_services d) (Some (find_service_with_uuid uuid)) 0;
      if z =? 0 then mret None
      else s ← at_addr z; _ ← load_service s; mret (Some (s, 0%nat))
  end.

(** ** What an attribute says *)

Definition gatt_db_attribute_get_type (attrib : option attr) : M (option bt_uuid_t) :=
  match attrib with None => mret None | Some p => a ← load_attr p; mret (Some (a_uuid a)) end.
Definition gatt_db_attribute_get_handle (attrib : option attr) : M Z :=
  match attrib with None => mret 0 | Some p => a ← load_attr p; mret (a_handle a) end.
Definition gatt_db_attribute_get_permissions (attrib : option attr) : M Z :=
  match attrib with None => mret 0 | Some p => a ← load_attr p; mret (a_permissions a) end.
Definition gatt_db_attribute_get_user_data (attrib : option attr) : M Z :=
  match attrib with None => mret 0 | Some p => a ← load_attr p; mret (a_user_data a) end.

Definition gatt_db_attribute_get_service_handles (attrib : option attr) : M (option (Z * Z)) :=
  match attrib with
  | None => mret None
  | Some p => _ ← load_attr p; h ← gatt_db_service_get_handles p.1; mret (Some h)
  end.

(** The bytes from [off] on of a value of [len] bytes. *)
Definition value_from (a : gatt_db_attribute) (off : Z) : M bytes := v ← get_known a; lift (mem_read v off (a_value_len a - off)).

(** Start, end, whether it is primary, and the UUID of the service; the UUID may be asked for or not. *)
Definition gatt_db_attribute_get_service_data (attrib : option attr) (want_uuid : bool) : M (option (Z * Z * bool * option bt_uuid_t)) :=
  match attrib with
  | None => mret None
  | Some p =>
      _ ← load_attr p;
      decl ← load_attr (p.1, 0%nat);
      '(start, end_) ← gatt_db_service_get_handles p.1;
      uuid_eq (a_uuid decl) secondary_service_uuid ≫= fun secondary : bool =>
      if negb want_uuid then mret (Some (start, end_, negb secondary, None))
      else
        v ← value_from decl 0;
        u ← lift (le_to_uuid v (a_value_len decl));
        match u with
        | Some u => mret (Some (start, end_, negb secondary, Some u))
        | None => mret None
        end
  end.

(** Handle, handle of the value, properties and UUID of a characteristic; without the extended properties. *)
Definition gatt_db_attribute_get_char_data (attrib : option attr) : M (option (Z * Z * Z * bt_uuid_t)) :=
  match attrib with
  | None => mret None
  | Some p =>
      a ← load_attr p;
      uuid_eq characteristic_uuid (a_uuid a) ≫= fun is_char : bool =>
      if negb is_char then mret None
      else
        match a_value a with
        | None => mret None
        | Some _ =>
            if negb (a_value_len a =? 5) && negb (a_value_len a =? 19) then mret None
            else
              v ← value_from a 0;
              properties ← lift (mem_get v 0);
              value_handle ← lift (get_le16 (drop 1 v));
              u ← lift (le_to_uuid (drop 3 v) (a_value_len a - 3));
              match u with
              | Some u => mret (Some (a_handle a, value_handle, properties, u))
              | None => mret None
              end
        end
  end.

(** Handle of the declaration, start and end of the included service. *)
Definition gatt_db_attribute_get_incl_data (attrib : option attr) : M (option (Z * Z * Z)) :=
  match attrib with
  | None => mret None
  | Some p =>
      a ← load_attr p;
      uuid_eq included_service_uuid (a_uuid a) ≫= fun is_incl : bool =>
      if negb is_incl then mret None
      else
        match a_value a with
        | None => mret None
        | Some _ =>
            if (a_value_len a <? 4) || (6 <? a_value_len a) then mret None
            else
              v ← value_from a 0;
              start_handle ← lift (get_le16 v);
              end_handle ← lift (get_le16 (drop 2 v));
              mret (Some (a_handle a, start_handle, end_handle))
        end
  end.

(** ** Reads *)

(** The timer of a pending read. *)
Definition set_timeout x p := mk_pending (p_attrib p) (p_id p) x (p_func p) (p_user_data p).

Definition read_timeout (p : ptr) : M bool :=
  x ← load_read p;
  _ ← modify (fun g => set_reads (<[p := set_timeout 0 x]> (g_reads g)) g);
  a ← load_attr (p_attrib x);
  _ ← queue_remove (a_pending_reads a) (addr p);
  _ ← pending_read_result p (- ETIMEDOUT) None 0;
  mret false.

Definition gatt_db_attribute_read (attrib : option attr) (offset opcode att : Z) (func : option nat) (user_data : Z) : M bool :=
  match attrib, func with
  | Some q, Some func =>
      a ← load_attr q;
      match a_read_func a with
      | Some read_func =>
          p ← new0 (fun g => dom (g_reads g));
          let id := u32 (a_read_id a + 1) in
          _ ← update_attr q (set_read_id id);
          _ ← modify (fun g => set_reads (<[p := mk_pending q id 0 func user_data]> (g_reads g)) g);
          t ← timeout_add ATTRIBUTE_TIMEOUT (read_timeout_of p);
          _ ← modify (fun g => set_reads (<[p := mk_pending q id t func user_data]> (g_reads g)) g);
          a ← load_attr q;
          _ ← queue_push_tail (a_pending_reads a) (addr p);
          a ← load_attr q;
          _ ← call (ReadFunc read_func q id offset opcode att (a_user_data a));
          mret true
      | None =>
          if a_value_len a <? offset then
            _ ← call (ReadDone func q BT_ATT_ERROR_INVALID_OFFSET None 0 user_data);
            mret true
          else
            value ← if offset =? a_value_len a then mret None
                    else v ← lift (of_option (a_value a)); v ← lift (mem_read v offset (a_value_len a - offset)); mret (Some v);
            _ ← call (ReadDone func q 0 value (a_value_len a - offset) user_data);
            mret true
      end
  | _, _ => mret false
  end.

Definition find_pending_read (data id : Z) : M bool := p ← at_addr data; x ← load_read p; mret (p_id x =? id).
Definition find_pending_write (data id : Z) : M bool := p ← at_addr data; x ← load_write p; mret (p_id x =? id).

Definition gatt_db_attribute_read_result (attrib : option attr) (id err : Z) (value : option raw) (length : Z) : M bool :=
  match attrib with
  | None => mret false
  | Some q =>
      if id =? 0 then mret false
      else
        a ← load_attr q;
        z ← queue_remove_if (a_pending_reads a) (Some find_pending_read) id;
        if z =? 0 then mret false
        else p ← at_addr z; _ ← pending_read_result p err value length; mret true
  end.

(** ** Writes *)

Definition write_timeout (p : ptr) : M bool :=
  x ← load_write p;
  _ ← modify (fun g => set_writes (<[p := set_timeout 0 x]> (g_writes g)) g);
  a ← load_attr (p_attrib x);
  _ ← queue_remove (a_pending_writes a) (addr p);
  _ ← pending_write_result p (- ETIMEDOUT);
  mret false.

(** [realloc]: the old bytes up to the new size, then bytes that were never written. *)
Definition resize (v : option raw) (n : Z) : raw :=
  take (Z.to_nat n) (default [] v ++ replicate (Z.to_nat n) None).

(** The value stored by a write of [data] at [offset]; [None] without memory. *)
Definition write_value (a : gatt_db_attribute) (offset : Z) (data : bytes) : M (option gatt_db_attribute) :=
  let len := zlen data in
  let grow := match a_value a with None => true | Some _ => (a_value_len a <=? offset) || (u32 (a_value_len a - offset) <? len) end in
  ok ← if grow then try_alloc else mret true;
  if negb ok then mret None
  else
    a ← if grow then
          let buf := resize (a_value a) (len + offset) in
          buf ← if a_value_len a =? 0 then lift (mem_write buf 0 (replicate (Z.to_nat offset) (Some 0))) else mret buf;
          mret (set_value (u16 (len + offset)) (Some buf) a)
        else mret a;
    v ← lift (of_option (a_value a));
    v ← lift (mem_write v offset (Some <$> data));
    mret (Some (set_value (a_value_len a) (Some v) a)).

Definition gatt_db_attribute_write (attrib : option attr) (offset : Z) (value : bytes) (opcode att : Z) (func : option nat) (user_data : Z) : M bool :=
  match attrib, func with
  | Some q, Some func =>
      a ← load_attr q;
      match a_write_func a with
      | Some write_func =>
          p ← new0 (fun g => dom (g_writes g));
          let id := u32 (a_write_id a + 1) in
          _ ← update_attr q (set_write_id id);
          _ ← modify (fun g => set_writes (<[p := mk_pending q id 0 func user_data]> (g_writes g)) g);
          t ← timeout_add ATTRIBUTE_TIMEOUT (write_timeout_of p);
          _ ← modify (fun g => set_writes (<[p := mk_pending q id t func user_data]> (g_writes g)) g);
          a ← load_attr q;
          _ ← queue_push_tail (a_pending_writes a) (addr p);
          a ← load_attr q;
          _ ← call (WriteFunc write_func q id offset value (zlen value) opcode att (a_user_data a));
          mret true
      | None =>
          if zlen value =? 0 then
            _ ← call (WriteDone func q 0 user_data);
            mret true
          else
            o ← write_value a offset value;
            match o with
            | None => mret false
            | Some a =>
                _ ← update_attr q (fun _ => a);
                _ ← call (WriteDone func q 0 user_data);
                mret true
            end
      end
  | _, _ => mret false
  end.

Definition gatt_db_attribute_write_result (attrib : option attr) (id err : Z) : M bool :=
  match attrib with
  | None => mret false
  | Some q =>
      if id =? 0 then mret false
      else
        a ← load_attr q;
        z ← queue_remove_if (a_pending_writes a) (Some find_pending_write) id;
        if z =? 0 then mret false
        else p ← at_addr z; _ ← pending_write_result p err; mret true
  end.

Definition gatt_db_attribute_reset (attrib : option attr) : M bool :=
  match attrib with
  | None => mret false
  | Some q =>
      a ← load_attr q;
      match a_value a with
      | None => mret true
      | Some _ => if a_value_len a =? 0 then mret true else _ ← update_attr q (set_value 0 None); mret true
      end
  end.
End Access.
