(* ===== verification/GattSpec.v ===== *)
(** What the attribute database keeps true, and what its operations do. *)

From stdpp Require Import gmap.
From S2P Require Import Prelude Util Alloc Queue QueueSpec QueueMain Uuid GattDb.

(** ** Pointers in queues *)

Lemma addr_inj {B} `{Countable B} (x y : B) : addr x = addr y -> x = y.
Proof. unfold addr. intros [= E]. by apply (inj encode). Qed.
Lemma addr_not_null {B} `{Countable B} (x : B) : (addr x =? 0) = false.
Proof. done. Qed.
Lemma of_addr_addr {B} `{Countable B} (x : B) : of_addr (addr x) = Ret x.
Proof. unfold of_addr, addr. by rewrite decode_encode. Qed.
Lemma addr_eqb {B} `{Countable B} (x y : B) : (addr x =? addr y) = bool_decide (x = y).
Proof. case_bool_decide as E; [subst; apply Z.eqb_refl|]. apply Z.eqb_neq. by intros ?%addr_inj. Qed.

(** A request that the allocator does not grant. *)
Definition refused `{!Allocator} : Prop := exists n used, place n used = None.

Section Steps.
Context `{!Allocator} {A : Type}.
Abbreviation M := (Queue.M (W := gatt A)).
Abbreviation mem := (Queue.mem (gatt A)).
Implicit Types (m : mem) (g : gatt A).

(** ** Steps on the heap of the database *)

Lemma wp_lift {B} (x : B) (P : B -> mem -> Prop) m : P x m -> wp (lift (Ret x)) P m.
Proof. done. Qed.
Lemma wp_at_addr {B} `{Countable B} (x : B) (P : B -> mem -> Prop) m : P x m -> wp (at_addr (addr x)) P m.
Proof. unfold at_addr, lift, wp. by rewrite of_addr_addr. Qed.
Lemma wp_fetch {B} f (x : B) (P : B -> mem -> Prop) m : f (world m) = Some x -> P x m -> wp (fetch f) P m.
Proof. unfold wp, fetch. by intros ->. Qed.
Lemma wp_modify f (P : () -> mem -> Prop) m : P () (with_gatt (f (world m)) m) -> wp (modify f) P m.
Proof. done. Qed.
Lemma wp_load_db d (P : gatt_db -> mem -> Prop) m : g_db (world m) = Some d -> P d m -> wp load_db P m.
Proof. apply wp_fetch. Qed.
Lemma wp_update_db d f (P : () -> mem -> Prop) m : g_db (world m) = Some d -> P () (with_gatt (set_db (Some (f d)) (world m)) m) -> wp (update_db f) P m.
Proof. intros Hd HP. unfold update_db. apply wp_bind. by eapply wp_load_db. Qed.
Lemma wp_load_service s x (P : gatt_db_service -> mem -> Prop) m : g_services (world m) !! s = Some x -> P x m -> wp (load_service s) P m.
Proof. intros Hs. by apply wp_fetch. Qed.
Lemma wp_update_service s x f (P : () -> mem -> Prop) m : g_services (world m) !! s = Some x ->
  P () (with_gatt (set_services (<[s := f x]> (g_services (world m))) (world m)) m) -> wp (update_service s f) P m.
Proof. intros Hs HP. unfold update_service. apply wp_bind. by eapply wp_load_service. Qed.
Lemma wp_attribute_at s i x v (P : option gatt_db_attribute -> mem -> Prop) m :
  g_services (world m) !! s = Some x -> s_attributes x !! i = Some v -> v <> Dangling -> P (match v with Attr a => Some a | _ => None end) m -> wp (attribute_at s i) P m.
Proof. intros Hs Hi Hv HP. unfold attribute_at. apply wp_bind. eapply wp_load_service; [done|]. rewrite Hi. by destruct v. Qed.
Lemma wp_load_attr s i x a (P : gatt_db_attribute -> mem -> Prop) m :
  g_services (world m) !! s = Some x -> s_attributes x !! i = Some (Attr a) -> P a m -> wp (load_attr (s, i)) P m.
Proof. intros Hs Hi HP. unfold load_attr. apply wp_bind. by eapply wp_attribute_at. Qed.
Lemma wp_store_attribute s i x v (P : () -> mem -> Prop) m :
  g_services (world m) !! s = Some x -> (i < length (s_attributes x))%nat ->
  P () (with_gatt (set_services (<[s := set_attributes (<[i := v]> (s_attributes x)) x]> (g_services (world m))) (world m)) m) -> wp (store_attribute s i v) P m.
Proof.
  intros Hs Hi HP. unfold store_attribute. apply wp_bind. eapply wp_load_service; [done|]. rewrite decide_True by done. by eapply wp_update_service.
Qed.
Lemma wp_update_attr s i x a f (P : () -> mem -> Prop) m :
  g_services (world m) !! s = Some x -> s_attributes x !! i = Some (Attr a) ->
  P () (with_gatt (set_services (<[s := set_attributes (<[i := Attr (f a)]> (s_attributes x)) x]> (g_services (world m))) (world m)) m) -> wp (update_attr (s, i) f) P m.
Proof.
  intros Hs Hi HP. unfold update_attr. apply wp_bind. eapply wp_load_attr; [done..|]. eapply wp_store_attribute; [done| |done]. by eapply lookup_lt_Some.
Qed.
Lemma wp_new0 used (P : ptr -> mem -> Prop) m :
  (forall p, p ∉ used (world m) -> P p (mk_mem (queues m) (cells m) (S (requests m)) (world m))) -> wp (new0 used) P m.
Proof.
  intros HP. unfold wp, new0. destruct (place _ _) as [p|] eqn:E; [|by eauto]. apply HP. by eapply place_fresh.
Qed.
Lemma wp_try_alloc (P : bool -> mem -> Prop) m : (forall b, b = true \/ refused -> P b (mk_mem (queues m) (cells m) (S (requests m)) (world m))) -> wp try_alloc P m.
Proof. intros HP. unfold wp, try_alloc, request. cbn. apply HP. destruct (place _ _) eqn:E; [by left|right; eexists _, _; exact E]. Qed.
End Steps.

Ltac gatt_simpl := cbn [queues cells requests world with_gatt with_queues with_cells g_db g_services g_notifies g_reads g_writes g_found g_app
  set_db set_services set_notifies set_reads set_writes set_found set_app
  d_ref_count d_next_handle d_services d_notify_list d_next_notify_id set_ref set_next_handle set_notify_list set_next_notify_id
  s_active s_claimed s_num_handles s_attributes set_active set_claimed set_num_handles set_attributes
  a_handle a_uuid a_permissions a_value_len a_value a_read_func a_write_func a_user_data a_read_id a_pending_reads a_write_id a_pending_writes
  set_handle set_value set_read_id set_write_id set_attribute_data negb andb orb fst snd].

Ltac gatt_step :=
  lazymatch goal with
  | |- wp (lift (Ret _)) _ _ => apply wp_lift
  | |- wp (lift (of_option (Some _))) _ _ => apply wp_lift
  | |- wp (at_addr (addr _)) _ _ => apply wp_at_addr
  | |- wp load_db _ _ => eapply wp_load_db; [gatt_simpl; done|]
  | |- wp (update_db _) _ _ => eapply wp_update_db; [gatt_simpl; done|]
  | |- wp (load_service _) _ _ => eapply wp_load_service; [gatt_simpl; by simpl_map|]
  | |- wp (update_service _ _) _ _ => eapply wp_update_service; [gatt_simpl; by simpl_map|]
  | |- wp (modify _) _ _ => apply wp_modify
  | |- wp (new0 _) _ _ => apply wp_new0
  | |- wp try_alloc _ _ => apply wp_try_alloc
  | |- _ => wp_step
  end; gatt_simpl.

(** ** The invariant *)

(** What a queue of the database is for. *)
Inductive owner := Services | Observers | Reads (p : attr) | Writes (p : attr).

(** Blocks that wait in a queue of [p]. *)
Definition waiting (b : gmap ptr pending) (p : attr) (l : list Z) : Prop :=
  exists ps, l = addr <$> ps /\ NoDup ps /\ forall x, x ∈ ps -> exists y, b !! x = Some y /\ p_attrib y = p.

Section Invariant.
Context `{!Allocator} {A : Type}.
Abbreviation mem := (Queue.mem (gatt A)).
Implicit Types (m : mem) (g : gatt A) (own : gmap ptr owner) (Q : gmap ptr (Z * entry_list)).

Definition queue_ok g (ss : list ptr) (o : owner) (l : list Z) : Prop :=
  match o with
  | Services => l = addr <$> ss
  | Observers => exists ns, l = addr <$> ns /\ NoDup ns /\ forall n, n ∈ ns -> exists x, g_notifies g !! n = Some x /\ is_Some (n_service_added x) /\ is_Some (n_service_removed x)
  | Reads p => waiting (g_reads g) p l
  | Writes p => waiting (g_writes g) p l
  end.

(** An attribute has its two queues. *)
Definition attribute_ok own (p : attr) (a : gatt_db_attribute) : Prop :=
  exists qr qw, a_pending_reads a = Some qr /\ own !! qr = Some (Reads p) /\ a_pending_writes a = Some qw /\ own !! qw = Some (Writes p).

(** The declaration of a service. *)
Definition decl (x : gatt_db_service) : option gatt_db_attribute := match s_attributes x !! 0%nat with Some (Attr a) => Some a | _ => None end.
Definition first_handle (x : gatt_db_service) : Z := match decl x with Some a => a_handle a | None => 0 end.
Definition last_handle (x : gatt_db_service) : Z := first_handle x + s_num_handles x - 1.

(** The value of a declaration is a UUID. *)
Definition names_service (a : gatt_db_attribute) : Prop :=
  exists u l, uuid_ok u /\ uuid_to_le u = Ret l /\ a_value a = Some (Some <$> l) /\ a_value_len a = zlen l /\ uuid_ok (a_uuid a).

Record service_ok own (s : ptr) (x : gatt_db_service) : Prop := {
  so_size : s_num_handles x = zlen (s_attributes x);
  so_decl : exists a, decl x = Some a /\ names_service a;
  so_first : 1 <= first_handle x;
  so_last : last_handle x <= UINT16_MAX;
  so_slot i v : s_attributes x !! i = Some v -> v = Null \/ exists a, v = Attr a /\ attribute_ok own (s, i) a
}.

(** The database of [m], with the services [ss] in this order. *)
Record database (X : gmap ptr queue_entry) m (Q : gmap ptr (Z * entry_list)) own (d : gatt_db) (ss : list ptr) : Prop := {
  db_rep : represents X m Q;
  db_there : g_db (world m) = Some d;
  db_services : exists q, d_services d = Some q /\ own !! q = Some Services;
  db_observers : exists q, d_notify_list d = Some q /\ own !! q = Some Observers;
  db_queue q o : own !! q = Some o -> exists es, Q !! q = Some (1, es) /\ queue_ok (world m) ss o es.*2;
  db_owner q q' o : own !! q = Some o -> own !! q' = Some o -> q = q';
  db_reads q s i : own !! q = Some (Reads (s, i)) ->
    exists x a, g_services (world m) !! s = Some x /\ s_attributes x !! i = Some (Attr a) /\ a_pending_reads a = Some q;
  db_writes q s i : own !! q = Some (Writes (s, i)) ->
    exists x a, g_services (world m) !! s = Some x /\ s_attributes x !! i = Some (Attr a) /\ a_pending_writes a = Some q;
  db_nodup : NoDup ss;
  db_service s : s ∈ ss -> exists x, g_services (world m) !! s = Some x /\ service_ok own s x;
  db_refs : 1 <= d_ref_count d < 2 ^ 31 - 1
}.

Lemma represents_frame X m m' Q : represents X m Q -> queues m' = queues m -> cells m' = cells m -> represents X m' Q.
Proof. intros [] HQ HC. split; rewrite ?HQ, ?HC; done. Qed.

Lemma attribute_mono own own' p a : own ⊆ own' -> attribute_ok own p a -> attribute_ok own' p a.
Proof. intros Ho (qr & qw & H1 & H2 & H3 & H4). exists qr, qw. split_and!; try done; by eapply lookup_weaken. Qed.
Lemma service_mono own own' s x : own ⊆ own' -> service_ok own s x -> service_ok own' s x.
Proof.
  intros Ho [H1 H2 H3 H4 H5]. split; try done. intros i v Hv. destruct (H5 i v Hv) as [?|(a & -> & Ha)]; [by left|]. right. exists a. split; [done|]. by eapply attribute_mono.
Qed.

(** An attribute behind the declaration. *)
Lemma decl_store x i v : i <> 0%nat -> decl (set_attributes (<[i := v]> (s_attributes x)) x) = decl x.
Proof. intros Hi. unfold decl. cbn. by rewrite list_lookup_insert_ne. Qed.
Lemma service_store own own' s x i a : service_ok own s x -> own ⊆ own' -> i <> 0%nat -> attribute_ok own' (s, i) a ->
  service_ok own' s (set_attributes (<[i := Attr a]> (s_attributes x)) x).
Proof.
  intros Hs Ho Hi Ha. destruct (service_mono _ _ _ _ Ho Hs) as [H1 H2 H3 H4 H5]. split; unfold last_handle, first_handle in *; rewrite ?decl_store by done; try done.
  - cbn. by rewrite zlen_insert.
  - cbn. intros j v Hv. destruct (decide (j = i)) as [->|]; [|rewrite list_lookup_insert_ne in Hv by done; by apply H5].
    apply list_lookup_insert_Some in Hv as [(_ & <- & _)|[? _]]; [|done]. right. by exists a.
Qed.

(** A block that is not of the database. *)
Lemma database_fresh X m Q own d ss q : database X m Q own d ss -> Q !! q = None -> own !! q = None.
Proof. intros D Hq. destruct (own !! q) as [o|] eqn:E; [|done]. destruct (db_queue _ _ _ _ _ _ D q o E) as (es & ? & _). congruence. Qed.

(** A service that is not in the list. *)
Lemma database_new_service X m m' Q own d ss s x :
  database X m Q own d ss -> g_services (world m) !! s = None ->
  represents X m' Q -> world m' = set_services (<[s := x]> (g_services (world m))) (world m) -> database X m' Q own d ss.
Proof.
  intros D Hs R Hw. destruct D as [_ H2 H3 H4 H5 H6 H7 H8 H9 H10 H11]. split; rewrite ?Hw; gatt_simpl; try done.
  - intros q s' i Ho. destruct (H7 q s' i Ho) as (x' & a & Hx & ?). exists x', a. split; [|done]. rewrite lookup_insert_ne; [done|]. intros <-. congruence.
  - intros q s' i Ho. destruct (H8 q s' i Ho) as (x' & a & Hx & ?). exists x', a. split; [|done]. rewrite lookup_insert_ne; [done|]. intros <-. congruence.
  - intros s' Hin. destruct (H10 s' Hin) as (x' & Hx & ?). exists x'. split; [|done]. rewrite lookup_insert_ne; [done|]. intros <-. congruence.
Qed.

Definition own_attribute (p : attr) (qr qw : ptr) own : gmap ptr owner := <[qw := Writes p]> (<[qr := Reads p]> own).

Lemma own_attribute_mono X m Q own d ss p qr qw : database X m Q own d ss -> Q !! qr = None -> Q !! qw = None -> qr <> qw -> own ⊆ own_attribute p qr qw own.
Proof.
  intros D Hr Hw Hne. unfold own_attribute. etransitivity; [|apply insert_subseteq]; [apply insert_subseteq|rewrite lookup_insert_ne by done]; by eapply database_fresh.
Qed.

(** An attribute with its two queues. *)
Lemma database_store X m m' Q own d ss s x i a qr qw :
  database X m Q own d ss -> Q !! qr = None -> Q !! qw = None -> qr <> qw ->
  g_services (world m) !! s = Some x -> s_attributes x !! i = Some Null -> i <> 0%nat \/ s ∉ ss -> a_pending_reads a = Some qr -> a_pending_writes a = Some qw ->
  represents X m' (<[qw := (1, [])]> (<[qr := (1, [])]> Q)) ->
  world m' = set_services (<[s := set_attributes (<[i := Attr a]> (s_attributes x)) x]> (g_services (world m))) (world m) ->
  database X m' (<[qw := (1, [])]> (<[qr := (1, [])]> Q)) (own_attribute (s, i) qr qw own) d ss.
Proof.
  intros D Hr Hw Hne Hx Hi Hsi Har Haw R HW. pose proof (own_attribute_mono _ _ _ _ _ _ (s, i) qr qw D Hr Hw Hne) as Hmono.
  assert (forall q o, own_attribute (s, i) qr qw own !! q = Some o -> (q = qw /\ o = Writes (s, i)) \/ (q = qr /\ o = Reads (s, i)) \/ own !! q = Some o) as Hcase.
  { unfold own_attribute. intros q o [[<- <-]|[_ [[<- <-]|[_ ?]]%lookup_insert_Some]]%lookup_insert_Some; auto. }
  assert (forall q, own !! q <> Some (Reads (s, i))) as Hnr by (intros q Ho; destruct (db_reads _ _ _ _ _ _ D q s i Ho) as (x' & a' & ? & ? & _); congruence).
  assert (forall q, own !! q <> Some (Writes (s, i))) as Hnw by (intros q Ho; destruct (db_writes _ _ _ _ _ _ D q s i Ho) as (x' & a' & ? & ? & _); congruence).
  assert (forall q o, own !! q = Some o -> q <> qr /\ q <> qw) as Hold.
  { intros q o Ho. split; intros ->; by rewrite (database_fresh _ _ _ _ _ _ _ D) in Ho. }
  assert ((i < length (s_attributes x))%nat) as Hlt by (by eapply lookup_lt_Some).
  pose proof D as [_ H2 H3 H4 H5 H6 H7 H8 H9 H10 H11]. split; rewrite ?HW; gatt_simpl; try done.
  - destruct H3 as (q & ? & ?). exists q. split; [done|]. by eapply lookup_weaken.
  - destruct H4 as (q & ? & ?). exists q. split; [done|]. by eapply lookup_weaken.
  - intros q o [[-> ->]|[[-> ->]|Ho]]%Hcase.
    + exists []. split; [by rewrite lookup_insert_eq|]. exists []. split_and!; [done|constructor|by intros ? ?%elem_of_nil].
    + exists []. split; [by rewrite lookup_insert_ne, lookup_insert_eq|]. exists []. split_and!; [done|constructor|by intros ? ?%elem_of_nil].
    + destruct (H5 q o Ho) as (es & ? & Hok). destruct (Hold q o Ho). exists es. split; [by rewrite !lookup_insert_ne|]. by destruct o.
  - intros q q' o [[-> ->]|[[-> ->]|Ho]]%Hcase [[-> E]|[[-> E]|Ho']]%Hcase; subst; try done; try (by apply Hnr in Ho'); try (by apply Hnw in Ho'); try (by apply Hnr in Ho); try (by apply Hnw in Ho).
    by eapply H6.
  - intros q s' i' [[-> E]|[[-> [= -> ->]]|Ho]]%Hcase; [done|eexists _, a; rewrite lookup_insert_eq; split_and!; [done|by apply list_lookup_insert_eq|done]|].
    destruct (H7 q s' i' Ho) as (x' & a' & Hx' & Ha' & ?). destruct (decide (s' = s)) as [->|]; [|exists x', a'; by rewrite lookup_insert_ne].
    assert (x' = x) as -> by congruence. eexists _, a'. rewrite lookup_insert_eq. split_and!; [done| |done]. cbn. rewrite list_lookup_insert_ne; [done|]. intros ->. congruence.
  - intros q s' i' [[-> [= -> ->]]|[[-> E]|Ho]]%Hcase; [eexists _, a; rewrite lookup_insert_eq; split_and!; [done|by apply list_lookup_insert_eq|done]|done|].
    destruct (H8 q s' i' Ho) as (x' & a' & Hx' & Ha' & ?). destruct (decide (s' = s)) as [->|]; [|exists x', a'; by rewrite lookup_insert_ne].
    assert (x' = x) as -> by congruence. eexists _, a'. rewrite lookup_insert_eq. split_and!; [done| |done]. cbn. rewrite list_lookup_insert_ne; [done|]. intros ->. congruence.
  - intros s' Hin. destruct (H10 s' Hin) as (x' & Hx' & Hok). destruct (decide (s' = s)) as [->|]; [|exists x'; rewrite lookup_insert_ne by done; split; [done|by eapply service_mono]].
    assert (x' = x) as -> by congruence. destruct Hsi as [Hi0|]; [|done]. eexists. rewrite lookup_insert_eq. split; [done|].
    apply (service_store own); [done..|]. exists qr, qw. unfold own_attribute. by rewrite lookup_insert_eq, lookup_insert_ne, lookup_insert_eq.
Qed.
End Invariant.

(** ** New attributes and services *)

Section Create.
Context `{!Allocator} {A : Type} {app : App A} (fuel : nat).
Abbreviation mem := (Queue.mem (gatt A)).
Implicit Types (m : mem) (g : gatt A) (own : gmap ptr owner) (Q : gmap ptr (Z * entry_list)).

Lemma new_attribute_wp X m Q handle type val (P : option gatt_db_attribute -> mem -> Prop) :
  represents X m Q ->
  (forall m', val <> [] -> refused -> represents X m' Q -> world m' = world m -> P None m') ->
  (forall m' qr qw, Q !! qr = None -> Q !! qw = None -> qr <> qw -> represents X m' (<[qw := (1, [])]> (<[qr := (1, [])]> Q)) -> world m' = world m ->
    P (Some (mk_attribute handle type 0 (u16 (zlen val)) (if zlen val =? 0 then None else Some (Some <$> val)) None None 0 0 (Some qr) 0 (Some qw))) m') ->
  wp (new_attribute handle type val) P m.
Proof.
  intros R HN HS. unfold new_attribute. do 2 gatt_step. intros _ _. gatt_step.
  assert (forall m', represents X m' Q -> world m' = world m ->
    wp (reads ← queue_new; writes ← queue_new; mret (Some (mk_attribute handle type 0 (u16 (zlen val)) (if zlen val =? 0 then None else Some (Some <$> val)) None None 0 0 reads 0 writes))) P m') as Hqueues.
  { intros m' R' Hw. gatt_step. eapply new_wp; [done|]. intros qr m1 Hr R1 Hw1. gatt_step. eapply new_wp; [done|]. intros qw m2 Hq R2 Hw2. gatt_step.
    apply lookup_insert_None in Hq as [Hq Hne]. eapply HS; [done..|congruence]. }
  destruct (zlen val =? 0) eqn:E; gatt_simpl.
  - gatt_step. apply Hqueues; [by eapply represents_frame|done].
  - gatt_step. intros [] Hb.
    + apply Hqueues; [by eapply represents_frame|done].
    + gatt_simpl. gatt_step. apply HN; [by intros ->|by destruct Hb|by eapply represents_frame|done].
Qed.

(** The service that [gatt_db_service_create] leaves outside of the list, with its declaration. *)
Definition fresh_service (n : Z) (a : gatt_db_attribute) : gatt_db_service := mk_service false false 0 (<[0%nat := Attr a]> (replicate (Z.to_nat n) Null)).
Definition service_type (primary : bool) : bt_uuid_t := if primary then primary_service_uuid else secondary_service_uuid.

Lemma service_create_wp X m Q own d ss uuid handle primary n (P : option ptr -> mem -> Prop) :
  database X m Q own d ss -> uuid_ok uuid -> 1 <= n ->
  (forall m', database X m' Q own d ss -> world m' = world m -> P None m') ->
  (forall m' Q' s a qr qw, Q !! qr = None -> Q !! qw = None -> qr <> qw -> g_services (world m) !! s = None ->
    Q' = <[qw := (1, [])]> (<[qr := (1, [])]> Q) -> database X m' Q' (own_attribute (s, 0%nat) qr qw own) d ss ->
    world m' = set_services (<[s := fresh_service n a]> (g_services (world m))) (world m) ->
    a_handle a = handle -> a_uuid a = service_type primary -> names_service a -> attribute_ok (own_attribute (s, 0%nat) qr qw own) (s, 0%nat) a -> P (Some s) m') ->
  wp (gatt_db_service_create fuel uuid handle primary n) P m.
Proof.
  intros D Hu Hn HN HS. destruct (le_roundtrip uuid [] Hu) as (l & Hl & _ & Hlen & _). unfold gatt_db_service_create.
  destruct (Z.ltb_spec n 1); [lia|]. do 2 gatt_step. intros s Hs%not_elem_of_dom. do 4 gatt_step. intros _ _. gatt_step.
  rewrite Hl. do 2 gatt_step.
  set (m1 := mk_mem _ _ _ _).
  assert (database X m1 Q own d ss) as D1 by (eapply (database_new_service X m); [done|done|by eapply represents_frame; [apply D|..]|done]).
  eapply (new_attribute_wp X m1 Q); [apply D1|..].
  - intros m' _ _ R' Hw. gatt_step. unfold service_destroy. gatt_step.
    eapply wp_load_service; [rewrite Hw; unfold m1; gatt_simpl; by rewrite lookup_insert_eq|]. gatt_simpl. do 2 gatt_step. gatt_step.
    eapply wp_load_service; [rewrite Hw; unfold m1; gatt_simpl; by rewrite lookup_insert_eq|]. gatt_simpl. gatt_step. change (Z.to_nat 0) with 0%nat. cbn [destroy_attributes]. gatt_step. gatt_step.
    eapply wp_load_service; [rewrite Hw; unfold m1; gatt_simpl; by rewrite lookup_insert_eq|]. gatt_simpl. do 2 gatt_step.
    assert (set_services (delete s (g_services (world m'))) (world m') = world m) as Hback.
    { rewrite Hw. unfold m1. gatt_simpl. rewrite delete_insert_eq, delete_id by done. by destruct (world m). }
    apply HN; gatt_simpl; [|by rewrite Hback]. rewrite Hback. destruct D as [? ? ? ? ? ? ? ? ? ? ?]. split; gatt_simpl; try done. by eapply represents_frame.
  - intros m' qr qw Hr Hw Hne R' HW. set (a := mk_attribute _ _ _ _ _ _ _ _ _ _ _ _).
    gatt_step. eapply wp_store_attribute; [rewrite HW; unfold m1; gatt_simpl; by rewrite lookup_insert_eq|gatt_simpl; rewrite length_replicate; lia|]. gatt_simpl. gatt_step.
    assert (s ∉ ss) as Hss by (intros Hin; destruct (db_service _ _ _ _ _ _ D s Hin) as (x & ? & _); congruence).
    eapply (HS _ _ s (set_attribute_data None None BT_ATT_PERM_READ 0 a) qr qw); [done..| | | | | |].
    + eapply (database_store X m1 _ Q own d ss s _ 0 (set_attribute_data None None BT_ATT_PERM_READ 0 a) qr qw); [done..| | | | | | |]; gatt_simpl; [unfold m1; gatt_simpl; by rewrite lookup_insert_eq| |by right|done|done|by eapply represents_frame|].
      * gatt_simpl. apply lookup_replicate_2. lia.
      * by rewrite HW.
    + gatt_simpl. rewrite HW. unfold m1. gatt_simpl. unfold fresh_service. by rewrite insert_insert_eq.
    + done.
    + done.
    + exists uuid, l. split_and!; [done|done| | |by destruct primary]; gatt_simpl; unfold a; gatt_simpl.
      * destruct (Z.eqb_spec (zlen l) 0); [lia|done].
      * apply u16_small. lia.
    + exists qr, qw. unfold own_attribute. gatt_simpl. rewrite lookup_insert_eq, lookup_insert_ne, lookup_insert_eq by done. done.
Qed.
End Create.

(** ** The place of a service *)

(** [find_insert_loc] by the first and last handles of the services. *)
Fixpoint locate (r : ptr -> Z * Z) (ss : list ptr) (start end_ : Z) (after : option ptr) : option ptr * option ptr :=
  match ss with
  | [] => (None, after)
  | s :: ss =>
      if ((r s).1 <=? start) && (start <=? (r s).2) then (Some s, after)
      else if ((r s).1 <=? end_) && (end_ <=? (r s).2) then (Some s, after)
      else if end_ <? (r s).1 then (None, after)
      else locate r ss start end_ (Some s)
  end.

(** A free place: behind the services that end before it, or lie inside of the new range. *)
Lemma locate_free r ss start end_ : forall after after', locate r ss start end_ after = (None, after') ->
  exists l1 l2, ss = l1 ++ l2 /\ after' = match last l1 with Some s => Some s | None => after end /\
    Forall (fun s => (r s).2 < end_ /\ ((r s).2 < start \/ start < (r s).1)) l1 /\ match l2 with s :: _ => end_ < (r s).1 | [] => True end.
Proof.
  induction ss as [|s ss IH]; intros after after'; cbn; [intros [= <-]; by exists [], []|].
  destruct (_ && _) eqn:E1; [done|]. destruct ((_ <=? end_) && _) eqn:E2; [done|]. apply andb_false_iff in E1, E2. destruct (Z.ltb_spec end_ (r s).1).
  - intros [= <-]. by exists [], (s :: ss).
  - intros (l1 & l2 & -> & -> & Hl1 & Hl2)%IH. exists (s :: l1), l2. split_and!; [done| |constructor; [|done]|done].
    + rewrite last_cons. by destruct (last l1).
    + rewrite !Z.leb_gt in *. lia.
Qed.
Lemma locate_taken r ss start end_ : forall after s after', locate r ss start end_ after = (Some s, after') -> s ∈ ss.
Proof.
  induction ss as [|s' ss IH]; intros after s after'; cbn; [done|]. destruct (_ && _); [intros [= <- _]; by left|]. destruct ((_ <=? end_) && _); [intros [= <- _]; by left|].
  destruct (_ <? _); [done|]. intros ?%IH. by right.
Qed.

Section Insert.
Context `{!Allocator} {A : Type} {app : App A} (fuel : nat).
Abbreviation mem := (Queue.mem (gatt A)).
Implicit Types (m : mem) (g : gatt A) (own : gmap ptr owner) (Q : gmap ptr (Z * entry_list)).

Definition range g (s : ptr) : Z * Z := match g_services g !! s with Some x => (first_handle x, last_handle x) | None => (0, 0) end.

Lemma decl_lookup x a : decl x = Some a <-> s_attributes x !! 0%nat = Some (Attr a).
Proof. unfold decl. destruct (s_attributes x !! 0%nat) as [[]|]; split; congruence. Qed.

Lemma load_service_run m s x : g_services (world m) !! s = Some x -> load_service s m = Ret (x, m).
Proof. intros Hs. unfold load_service, fetch. by rewrite Hs. Qed.
Lemma load_attr_run m s i x a : g_services (world m) !! s = Some x -> s_attributes x !! i = Some (Attr a) -> load_attr (s, i) m = Ret (a, m).
Proof.
  intros Hs Hi. unfold load_attr. rewrite (bind_run _ _ _ (Some a) m); [done|]. cbn [fst snd]. unfold attribute_at. rewrite (bind_run _ _ _ _ _ (load_service_run m s x Hs)). by rewrite Hi.
Qed.
Lemma at_addr_run {B} `{Countable B} (x : B) m : at_addr (addr x) m = Ret (x, m).
Proof. unfold at_addr, lift. by rewrite of_addr_addr. Qed.

Lemma service_bounds own s x : service_ok own s x -> 1 <= first_handle x <= last_handle x /\ last_handle x <= UINT16_MAX.
Proof.
  intros [H1 (a & Ha & _) H3 H4 _]. apply decl_lookup, lookup_lt_Some in Ha. unfold last_handle in *. unfold zlen in *. lia.
Qed.

Lemma get_handles_run m s x own : g_services (world m) !! s = Some x -> service_ok own s x -> gatt_db_service_get_handles s m = Ret ((first_handle x, last_handle x), m).
Proof.
  intros Hs Hok. pose proof (service_bounds _ _ _ Hok) as Hb. destruct Hok as [_ (a & Ha & _) _ _ _]. unfold gatt_db_service_get_handles.
  rewrite (bind_run _ _ _ _ _ (load_service_run m s x Hs)), (bind_run _ _ _ _ _ (load_attr_run m s 0 x a Hs (proj1 (decl_lookup x a) Ha))).
  unfold last_handle, first_handle in *. rewrite Ha in *. unfold UINT16_MAX in *. by rewrite u16_small by lia.
Qed.

Lemma insert_loc_wp X m Q own d ss start end_ : database X m Q own d ss -> forall es ss2 after n (P : _ -> mem -> Prop),
  chain (cells m) es None -> es.*2 = addr <$> ss2 -> (forall s, s ∈ ss2 -> s ∈ ss) -> (length es <= n)%nat ->
  P (locate (range (world m)) ss2 start end_ after) m -> wp (insert_loc n (first es None) start end_ after) P m.
Proof.
  intros D. induction es as [|[e z] es IH]; intros [|s ss2] after n P Hc Hes Hin Hn HP; try done; [by destruct n|].
  destruct n as [|n]; cbn in Hn; [lia|]. cbn [first insert_loc]. destruct Hc as [He Hc]. cbn in Hes. injection Hes as -> Hes. do 3 gatt_step. gatt_step.
  destruct (db_service _ _ _ _ _ _ D s ltac:(apply Hin; by left)) as (x & Hx & Hok). gatt_step. unfold wp at 1. rewrite (get_handles_run m s x own Hx Hok).
  cbn [locate] in HP. unfold range in HP at 1 2 3 4 5. rewrite Hx in HP. cbn [fst snd] in HP.
  destruct (_ && _); [done|]. destruct ((_ <=? end_) && _); [done|]. destruct (_ <? _); [done|]. apply (IH ss2); [done|done|intros; apply Hin; by right|lia|done].
Qed.

Lemma find_insert_loc_wp X m Q own d ss start end_ (P : _ -> mem -> Prop) :
  database X m Q own d ss -> P (locate (range (world m)) ss start end_ None) m -> wp (find_insert_loc start end_) P m.
Proof.
  intros D HP. unfold find_insert_loc. destruct (db_services _ _ _ _ _ _ D) as (q & Hq & Ho). destruct (db_queue _ _ _ _ _ _ D q _ Ho) as (es & HQ & Hes).
  pose proof (db_rep _ _ _ _ _ _ D) as R. pose proof (db_there _ _ _ _ _ _ D) as Hd. do 3 gatt_step. rewrite Hq. unfold queue_get_entries.
  pose proof (rep_lookup m Q _ _ _ R HQ) as Hl. unfold block in Hl. cbn [fst snd] in Hl. do 3 gatt_step. do 2 gatt_step.
  eapply insert_loc_wp; [done|by eapply (rep_chain m Q R)|done|done| |done]. pose proof (rep_fuel m Q _ _ _ R HQ). lia.
Qed.

Lemma uuid_eq_run m u1 u2 : uuid_ok u1 -> uuid_ok u2 -> uuid_eq u1 u2 m = Ret (bool_decide (full u1 = full u2), m).
Proof.
  intros H1 H2. destruct (uuid_cmp_full u1 u2 H1 H2) as (c & Hc & Hz). unfold uuid_eq. rewrite (bind_run _ _ _ c m) by (unfold lift; by rewrite Hc).
  unfold mret, M_ret. do 2 f_equal. case_bool_decide; [apply Z.eqb_eq|apply Z.eqb_neq]; tauto.
Qed.
Lemma uuid_eq_wp m u1 u2 (P : bool -> mem -> Prop) : uuid_ok u1 -> uuid_ok u2 -> P (bool_decide (full u1 = full u2)) m -> wp (uuid_eq u1 u2) P m.
Proof. intros H1 H2 HP. unfold wp. by rewrite uuid_eq_run. Qed.

Lemma known_some (l : bytes) : known (Some (Some <$> l)) = Ret l.
Proof. unfold known. cbn. assert (mapM id (Some <$> l) = Some l) as ->; [|done]. induction l as [|b l IH]; cbn; [done|]. by rewrite IH. Qed.

(** The UUID in the declaration of a service. *)
Lemma service_uuid_wp m s x a (P : option bt_uuid_t -> mem -> Prop) :
  g_services (world m) !! s = Some x -> decl x = Some a -> names_service a ->
  (forall u, uuid_ok u -> P (Some u) m) -> wp (gatt_db_attribute_get_service_uuid (Some (s, 0%nat))) P m.
Proof.
  intros Hs Ha%decl_lookup (u & l & Hu & Hl & Hv & Hlen & _) HP. unfold gatt_db_attribute_get_service_uuid. cbn [fst snd].
  destruct (le_roundtrip u [] Hu) as (l' & Hl' & _ & Hlen' & Hle). rewrite Hl in Hl'. injection Hl' as <-. rewrite app_nil_r in Hle.
  gatt_step. eapply wp_load_attr; [done..|]. gatt_step. eapply wp_load_attr; [done..|]. rewrite Hlen. unfold le_to_uuid in Hle.
  destruct Hlen' as [E|E]; rewrite E in *; cbn in Hle; apply bind_Ret in Hle as (v & Hle & [= Hu']).
  - change (2 =? 2) with true. cbv iota. unfold get_known. rewrite Hv, known_some. do 3 gatt_step. rewrite Hle. do 2 gatt_step. rewrite Hu'. by apply HP, long_ok.
  - change (16 =? 2) with false. change (16 =? 16) with true. cbv iota. unfold get_known. rewrite Hv, known_some. do 3 gatt_step. rewrite Hle. do 2 gatt_step. rewrite Hu'. by apply HP, long_ok.
Qed.

(** The attributes that were there are still there, with their queues. *)
Definition keeps_attributes (sv sv' : gmap ptr gatt_db_service) : Prop :=
  forall s x i a, sv !! s = Some x -> s_attributes x !! i = Some (Attr a) ->
  exists x' a', sv' !! s = Some x' /\ s_attributes x' !! i = Some (Attr a') /\ a_pending_reads a' = a_pending_reads a /\ a_pending_writes a' = a_pending_writes a.

(** Another list of services. *)
Lemma database_relist X m m' Q own d d' ss ss' q es es' sv :
  database X m Q own d ss -> own !! q = Some Services -> Q !! q = Some (1, es) -> represents X m' (<[q := (1, es')]> Q) -> es'.*2 = addr <$> ss' -> NoDup ss' ->
  world m' = set_db (Some d') (set_services sv (world m)) -> d_services d' = d_services d -> d_notify_list d' = d_notify_list d -> d_ref_count d' = d_ref_count d ->
  (forall s, s ∈ ss' -> exists x, sv !! s = Some x /\ service_ok own s x) -> keeps_attributes (g_services (world m)) sv ->
  database X m' (<[q := (1, es')]> Q) own d' ss'.
Proof.
  intros [H1 H2 H3 H4 H5 H6 H7 H8 H9 H10 H11] Ho Hq R Hes Hnd Hw Hd1 Hd2 Hd3 Hall Hkeep. split; rewrite ?Hw; gatt_simpl; rewrite ?Hd1, ?Hd2, ?Hd3; try done.
  - intros q' o Ho'. destruct (decide (q' = q)) as [->|Hne].
    + rewrite Ho in Ho'. injection Ho' as <-. exists es'. by rewrite lookup_insert_eq.
    + destruct (H5 q' o Ho') as (es0 & ? & Hok). exists es0. rewrite lookup_insert_ne by done. split; [done|].
      destruct o; try done. exfalso. apply Hne. by eapply H6.
  - intros q' s i Ho'. destruct (H7 q' s i Ho') as (x & a & Hx & Ha & Hp). destruct (Hkeep s x i a Hx Ha) as (x' & a' & ? & ? & E & _). exists x', a'. by rewrite E.
  - intros q' s i Ho'. destruct (H8 q' s i Ho') as (x & a & Hx & Ha & Hp). destruct (Hkeep s x i a Hx Ha) as (x' & a' & ? & ? & _ & E). exists x', a'. by rewrite E.
Qed.

Lemma insert_after_addr (l1 l2 : list ptr) a s : last l1 = Some a -> NoDup (l1 ++ l2) ->
  find_first (fun y => y =? addr a) (addr <$> (l1 ++ l2)) = Some (addr a) /\
  insert_after (fun y => y =? addr a) (addr s) (addr <$> (l1 ++ l2)) = addr <$> (l1 ++ s :: l2).
Proof.
  intros Hl Hnd. assert (exists l0, l1 = l0 ++ [a]) as [l0 ->] by (destruct l1 as [|b l0 _] using rev_ind; [done|]; rewrite last_snoc in Hl; injection Hl as ->; by eexists).
  rewrite <-!app_assoc in *. clear Hl. induction l0 as [|b l0 IH]; cbn; [by rewrite Z.eqb_refl|]. cbn in Hnd. apply NoDup_cons in Hnd as [Hb Hnd].
  rewrite addr_eqb, bool_decide_false; [|intros ->; apply Hb; set_solver]. destruct (IH Hnd) as [IH1 IH2]. cbn in IH1, IH2. by rewrite IH1, IH2.
Qed.

(** [queue_push_after] or [queue_push_head] for the place that was found. *)
Lemma push_place_wp X m Q own d ss l1 l2 s (P : bool -> mem -> Prop) :
  database X m Q own d ss -> ss = l1 ++ l2 ->
  (forall m' q es es', own !! q = Some Services -> Q !! q = Some (1, es) -> represents X m' (<[q := (1, es')]> Q) -> es'.*2 = addr <$> (l1 ++ s :: l2) -> world m' = world m -> P true m') ->
  wp (match last l1 with Some after => queue_push_after (d_services d) (addr after) (addr s) | None => queue_push_head (d_services d) (addr s) end) P m.
Proof.
  intros D -> HP. destruct (db_services _ _ _ _ _ _ D) as (q & -> & Ho). destruct (db_queue _ _ _ _ _ _ D q _ Ho) as (es & HQ & Hes). cbn in Hes.
  pose proof (db_rep _ _ _ _ _ _ D) as R. destruct (last l1) as [a|] eqn:Hl.
  - destruct (insert_after_addr l1 l2 a s Hl (db_nodup _ _ _ _ _ _ D)) as [Hf Hi]. rewrite <-Hes in Hf, Hi. pose proof (break_lists (fun y => y =? addr a) es) as Hb.
    eapply push_after_wp; [done|done| |].
    + intros es1 e es2 p m' Eb R' Hw. rewrite Eb in Hb. destruct Hb as (_ & _ & Hb). rewrite (Hb p) in Hi. by eapply HP.
    + intros Eb. destruct (break _ es) as [es1 es2]. cbn in Eb. subst es2. congruence.
  - apply last_None in Hl as ->. eapply push_head_wp; [done|done|]. intros p m' R' Hw. eapply HP; [done|done|done| |done]. cbn. by rewrite Hes.
Qed.

(** What [gatt_db_insert_service] does: nothing, or a new service at the place. *)
Definition inserted m d ss (handle n : Z) (r : option attr) m' d' ss' : Prop :=
  exists l1 l2 s x, ss = l1 ++ l2 /\ ss' = l1 ++ s :: l2 /\ s ∉ ss /\ r = Some (s, 0%nat) /\
    g_services (world m') !! s = Some x /\ first_handle x = handle /\ s_num_handles x = n /\ s_active x = false /\ (forall i v, i <> 0%nat -> s_attributes x !! i = Some v -> v = Null) /\
    Forall (fun s => (range (world m) s).2 < handle + n - 1 /\ ((range (world m) s).2 < handle \/ handle < (range (world m) s).1)) l1 /\
    match l2 with s :: _ => handle + n - 1 < (range (world m) s).1 | [] => True end /\
    d' = set_next_handle (u16 (Z.max (handle + n) (d_next_handle d))) d /\ (forall s', s' <> s -> g_services (world m') !! s' = g_services (world m) !! s').

Lemma set_services_same g : set_services (g_services g) g = g.
Proof. by destruct g. Qed.

(** The new service, its number of handles set. *)
Lemma fresh_service_ok own s n a handle :
  1 <= n -> 1 <= handle -> handle + n - 1 <= UINT16_MAX -> a_handle a = handle -> names_service a -> attribute_ok own (s, 0%nat) a ->
  service_ok own s (set_num_handles n (fresh_service n a)) /\ first_handle (fresh_service n a) = handle.
Proof.
  intros Hn Hh Hl Ha Hname Hok. assert (0 < length (replicate (Z.to_nat n) Null))%nat as Hlen by (rewrite length_replicate; lia).
  assert (decl (fresh_service n a) = Some a) as Hdecl by (apply decl_lookup; cbn; by apply list_lookup_insert_eq).
  assert (first_handle (fresh_service n a) = handle) as Hf by (unfold first_handle; by rewrite Hdecl). split; [|done]. split; unfold last_handle; cbn [s_num_handles s_attributes set_num_handles fresh_service].
  - rewrite zlen_insert, zlen_replicate. lia.
  - by exists a.
  - change (first_handle (set_num_handles n (fresh_service n a))) with (first_handle (fresh_service n a)). lia.
  - change (first_handle (set_num_handles n (fresh_service n a))) with (first_handle (fresh_service n a)). lia.
  - intros i v [(<- & <- & _)|[_ [-> _]%lookup_replicate]]%list_lookup_insert_Some; [right; by exists a|by left].
Qed.

Lemma insert_service_wp X m Q own d ss handle uuid primary n (P : option attr -> mem -> Prop) :
  database X m Q own d ss -> uuid_ok uuid -> is_u16 handle -> is_u16 n ->
  (forall r m', database X m' Q own d ss -> world m' = world m -> (forall p, r = Some p -> p.1 ∈ ss) -> P r m') ->
  (forall r m' Q' own' d' ss', database X m' Q' own' d' ss' -> inserted m d ss handle n r m' d' ss' -> P r m') ->
  wp (gatt_db_insert_service fuel handle uuid primary n) P m.
Proof.
  intros D Hu Hh Hn Hsame Hnew. unfold gatt_db_insert_service. destruct (Z.ltb_spec handle 1) as [|Hh1]; [gatt_step; by apply Hsame|].
  destruct (Z.ltb_spec n 1) as [|Hn1]; cbn [orb]; [gatt_step; by apply Hsame|]. destruct (Z.ltb_spec UINT16_MAX (handle + n - 1)) as [|Hl]; [gatt_step; by apply Hsame|].
  unfold UINT16_MAX in Hl. rewrite u16_small by lia. gatt_step. eapply find_insert_loc_wp; [done|]. destruct (locate _ _ _ _ _) as [[s|] after] eqn:El; gatt_simpl.
  - pose proof (locate_taken _ _ _ _ _ _ _ El) as Hs. destruct (db_service _ _ _ _ _ _ D s Hs) as (x & Hx & Hok). destruct (so_decl _ _ _ Hok) as (a & Ha & Hname).
    gatt_step. eapply service_uuid_wp; [done..|]. intros u Hu'. gatt_step. eapply wp_load_attr; [done|by apply decl_lookup|]. do 2 gatt_step. gatt_step.
    assert (uuid_ok (a_uuid a)) as Hua by (by destruct Hname as (? & ? & _ & _ & _ & _ & ?)). eapply uuid_eq_wp; [done|by destruct primary|].
    assert (forall p, Some (s, 0%nat) = Some p -> p.1 ∈ ss) as Hp by (by intros p [= <-]).
    destruct (negb _); [gatt_step; by apply Hsame|]. do 3 gatt_step. apply uuid_eq_wp; [done|done|]. destruct (_ && _); gatt_step; by apply Hsame.
  - apply locate_free in El as (l1 & l2 & -> & Hafter & Hl1 & Hl2). gatt_step. eapply service_create_wp; [done|done|lia| |].
    { intros m' D' Hw. gatt_step. by apply Hsame. }
    intros m1 Q1 s a qr qw Hqr Hqw Hqne Hs0 HQ1 D1 Hw1 Hah Hat Hname Hattr. pose proof (db_there _ _ _ _ _ _ D1) as Hd1. do 3 gatt_step.
    assert (s ∉ l1 ++ l2) as Hs by (intros Hin; destruct (db_service _ _ _ _ _ _ D s Hin) as (x & ? & _); congruence).
    assert (after = last l1) as -> by (rewrite Hafter; by destruct (last l1)). eapply push_place_wp; [done|done|].
    intros m2 q es es' Ho HQ R2 Hes' Hw2. cbn [negb]. assert (s_attributes (fresh_service n a) !! 0%nat = Some (Attr a)) as Ha0 by (apply list_lookup_insert_eq; rewrite length_replicate; lia).
    gatt_step. eapply wp_update_attr; [rewrite Hw2, Hw1; gatt_simpl; by rewrite lookup_insert_eq|done|]. gatt_simpl. do 2 gatt_step. gatt_step.
    rewrite Hw2, Hw1. gatt_simpl. eapply wp_update_db; [gatt_simpl; exact (db_there _ _ _ _ _ _ D)|]. gatt_simpl. gatt_step.
    assert (set_handle handle a = a) as -> by (rewrite <-Hah; by destruct a). assert (set_attributes (<[0%nat := Attr a]> (s_attributes (fresh_service n a))) (fresh_service n a) = fresh_service n a) as ->
      by (by rewrite list_insert_id).
    rewrite !insert_insert_eq. destruct (fresh_service_ok _ s n a handle Hn1 Hh1 ltac:(unfold UINT16_MAX; lia) Hah Hname Hattr) as [Hok Hfirst].
    eapply (Hnew _ _ (<[q := (1, es')]> Q1) (own_attribute (s, 0%nat) qr qw own) (set_next_handle (u16 ((handle + n) `max` d_next_handle d)) d) (l1 ++ s :: l2)).
    + eapply (database_relist X m1 _ Q1 _ d _ (l1 ++ l2)); [done|done|done|by eapply represents_frame|done| |gatt_simpl; by rewrite Hw1|done|done|done| |].
      * rewrite <-Permutation_middle. constructor; [done|]. by eapply db_nodup.
      * intros s' Hin. destruct (decide (s' = s)) as [->|Hne]; [eexists; split; [by rewrite lookup_insert_eq|done]|].
        destruct (db_service _ _ _ _ _ _ D1 s' ltac:(set_solver)) as (x & Hx & Hokx). rewrite Hw1 in Hx. cbn in Hx. rewrite lookup_insert_ne in Hx by done. exists x. by rewrite lookup_insert_ne.
      * rewrite Hw1. gatt_simpl. intros s' x i v Hx Hv. destruct (decide (s' = s)) as [->|Hne].
        -- rewrite lookup_insert_eq in Hx. injection Hx as <-. eexists _, v. by rewrite lookup_insert_eq.
        -- rewrite lookup_insert_ne in Hx by done. exists x, v. by rewrite lookup_insert_ne.
    + exists l1, l2, s, (set_num_handles n (fresh_service n a)). gatt_simpl. rewrite lookup_insert_eq. split_and!; try done.
      * intros i v Hi [(<- & _)|[_ [-> _]%lookup_replicate]]%list_lookup_insert_Some; done.
      * intros s' Hne. by rewrite lookup_insert_ne.
Qed.
End Insert.
