(* ===== verification/GattDestroy.v ===== *)
(** Removal of services from the attribute database: every pending read and write is answered, and every block of
    the service is freed. *)

From stdpp Require Import gmap.
From S2P Require Import Prelude Util Alloc Queue QueueSpec QueueMain Uuid GattDb GattAccess GattSpec.

(** ** The application *)

(** An attribute that is in use. *)
Definition live {A} (g : gatt A) (p : attr) : Prop := exists x a, g_services g !! p.1 = Some x /\ s_attributes x !! p.2 = Some (Attr a).

(** The calls of the functions of an attribute, which have a request to answer. *)
Definition asks (e : event) : option attr :=
  match e with ReadFunc _ p _ _ _ _ _ | WriteFunc _ p _ _ _ _ _ _ _ => Some p | _ => None end.

(** What such a function does, step by step: it changes the state of the application, and answers requests. *)
Inductive reaction (A : Type) :=
| Own (x : A)
| AnswerRead (p : attr) (id err : Z) (value : option raw) (length : Z)
| AnswerWrite (p : attr) (id err : Z).
Arguments Own {A} x.
Arguments AnswerRead {A} p id err value length.
Arguments AnswerWrite {A} p id err.

Definition to_live {A} (g : gatt A) (r : reaction A) : Prop :=
  match r with Own _ => True | AnswerRead p _ _ _ _ | AnswerWrite p _ _ => live g p end.

Section Reactions.
Context `{!Allocator} {A : Type} {app : App A}.

Definition react (r : reaction A) : Queue.M (W := gatt A) () :=
  match r with
  | Own x => modify (set_app x)
  | AnswerRead p id err value length => _ ← gatt_db_attribute_read_result (Some p) id err value length; mret ()
  | AnswerWrite p id err => _ ← gatt_db_attribute_write_result (Some p) id err; mret ()
  end.
Fixpoint react_all (rs : list (reaction A)) : Queue.M (W := gatt A) () :=
  match rs with [] => mret () | r :: rs => _ ← react r; react_all rs end.
End Reactions.

(** What the database asks of the application: the functions of attributes may answer requests, at once or
    later, or leave them; all other functions change the state of the application only. *)
Class Polite `{!Allocator} {A} (app : App A) : Prop := {
  call_asked e p (m : mem (gatt A)) : asks e = Some p -> live (world m) p -> exists rs, Forall (to_live (world m)) rs /\ call e m = react_all rs m;
  call_quiet e (m : mem (gatt A)) P : asks e = None -> (forall x, P () (with_gatt (set_app x (world m)) m)) -> wp (call e) P m;
  timeout_add_quiet n t (m : mem (gatt A)) P : (forall i x, P i (with_gatt (set_app x (world m)) m)) -> wp (timeout_add n t) P m;
  timeout_remove_quiet i (m : mem (gatt A)) P : (forall x, P () (with_gatt (set_app x (world m)) m)) -> wp (timeout_remove i) P m
}.

Section Pending.
Context `{!Allocator} {A : Type} {app : App A} `{!Polite app} (fuel : nat).
Abbreviation mem := (Queue.mem (gatt A)).
Implicit Types (m : mem) (g : gatt A) (own : gmap ptr owner) (Q : gmap ptr (Z * entry_list)).

Lemma pending_read_result_wp p err data len y m (P : () -> mem -> Prop) : g_reads (world m) !! p = Some y ->
  (forall a, P () (with_gatt (set_app a (set_reads (delete p (g_reads (world m))) (world m))) m)) -> wp (pending_read_result p err data len) P m.
Proof.
  intros Hp HP. unfold pending_read_result, load_read, free_read. gatt_step. eapply wp_fetch; [done|]. gatt_step.
  assert (forall a (P' : () -> mem -> Prop), (forall a', P' () (with_gatt (set_app a' (set_reads (delete p (g_reads (world m))) (world m))) m)) ->
    wp (x ← load_read p; _ ← call (ReadDone (p_func x) (p_attrib x) err data len (p_user_data x)); free_read p) P' (with_gatt (set_app a (world m)) m)) as Hrest.
  { intros a P' HP'. gatt_step. eapply wp_fetch; [done|]. gatt_step. apply call_quiet; [done|]. intros x. unfold free_read. gatt_step. eapply wp_fetch; [done|]. gatt_step. apply HP'. }
  destruct (0 <? p_timeout_id y).
  - apply timeout_remove_quiet. intros x. by apply Hrest.
  - gatt_step. specialize (Hrest (g_app (world m)) P). destruct m as [q c r [db sv no re wr fo a]]. by apply Hrest.
Qed.
Lemma pending_read_free_wp p y m (P : () -> mem -> Prop) : g_reads (world m) !! p = Some y ->
  (forall a, P () (with_gatt (set_app a (set_reads (delete p (g_reads (world m))) (world m))) m)) -> wp (pending_read_free (addr p)) P m.
Proof. intros Hp HP. unfold pending_read_free. do 2 gatt_step. by eapply pending_read_result_wp. Qed.

Lemma pending_write_result_wp p err y m (P : () -> mem -> Prop) : g_writes (world m) !! p = Some y ->
  (forall a, P () (with_gatt (set_app a (set_writes (delete p (g_writes (world m))) (world m))) m)) -> wp (pending_write_result p err) P m.
Proof.
  intros Hp HP. unfold pending_write_result, load_write, free_write. gatt_step. eapply wp_fetch; [done|]. gatt_step.
  assert (forall a (P' : () -> mem -> Prop), (forall a', P' () (with_gatt (set_app a' (set_writes (delete p (g_writes (world m))) (world m))) m)) ->
    wp (x ← load_write p; _ ← call (WriteDone (p_func x) (p_attrib x) err (p_user_data x)); free_write p) P' (with_gatt (set_app a (world m)) m)) as Hrest.
  { intros a P' HP'. gatt_step. eapply wp_fetch; [done|]. gatt_step. apply call_quiet; [done|]. intros x. unfold free_write. gatt_step. eapply wp_fetch; [done|]. gatt_step. apply HP'. }
  destruct (0 <? p_timeout_id y).
  - apply timeout_remove_quiet. intros x. by apply Hrest.
  - gatt_step. specialize (Hrest (g_app (world m)) P). destruct m as [q c r [db sv no re wr fo a]]. by apply Hrest.
Qed.
Lemma pending_write_free_wp p y m (P : () -> mem -> Prop) : g_writes (world m) !! p = Some y ->
  (forall a, P () (with_gatt (set_app a (set_writes (delete p (g_writes (world m))) (world m))) m)) -> wp (pending_write_free (addr p)) P m.
Proof. intros Hp HP. unfold pending_write_free. do 2 gatt_step. by eapply pending_write_result_wp. Qed.
End Pending.

(** A queue of pending reads or writes, in the table [tbl]. *)
Section Drain.
Context `{!Allocator} {A : Type} {app : App A} (fuel : nat).
Abbreviation mem := (Queue.mem (gatt A)).
Implicit Types (m : mem) (Q : gmap ptr (Z * entry_list)).
Context (tbl : gatt A -> gmap ptr pending) (put : gmap ptr pending -> gatt A -> gatt A) (free : Z -> Queue.M (W := gatt A) ()).
Context (put_put : forall t t' g a a', set_app a (put t (set_app a' (put t' g))) = set_app a (put t g)).
Context (tbl_put : forall t g a, tbl (set_app a (put t g)) = t) (put_tbl : forall g, set_app (g_app g) (put (tbl g) g) = g).
Context (free_wp : forall p y m P, tbl (world m) !! p = Some y -> (forall a, P () (with_gatt (set_app a (put (delete p (tbl (world m))) (world m))) m)) -> wp (free (addr p)) P m).

(** The blocks of [l] are left, and all of other attributes. *)
Definition draining Q0 (w0 : gatt A) (p : attr) (l : list Z) Q (w : gatt A) : Prop :=
  Q = Q0 /\ exists t a, w = set_app a (put t w0) /\ waiting t p l /\ forall x y, tbl w0 !! x = Some y -> p_attrib y <> p -> t !! x = Some y.

Lemma free_drains Q0 w0 p : destroys (Some free) (draining Q0 w0 p).
Proof.
  intros X m Q z l R (-> & t & a & Hw & (ps & Hl & Hnd & Hps) & Hkeep). destruct ps as [|x ps]; [done|]. cbn in Hl. injection Hl as -> ->.
  apply NoDup_cons in Hnd as [Hx Hnd]. destruct (Hps x ltac:(by left)) as (y & Hy & Hpy). cbn [call_destroy].
  eapply free_wp; [rewrite Hw, tbl_put; done|]. intros a'. exists Q0. split; [by eapply represents_frame|]. split; [done|].
  exists (delete x t), a'. gatt_simpl. rewrite Hw, tbl_put, put_put. split; [done|]. split.
  - exists ps. split_and!; [done..|]. intros x' Hx'. destruct (Hps x' ltac:(by right)) as (y' & ? & ?). exists y'. rewrite lookup_delete_ne by (by intros ->). done.
  - intros x' y' Hx' Hy'. specialize (Hkeep x' y' Hx' Hy'). rewrite lookup_delete_ne; [done|]. intros ->. congruence.
Qed.

Lemma drain_wp X m Q q es p (P : () -> mem -> Prop) :
  represents X m Q -> Q !! q = Some (1, es) -> waiting (tbl (world m)) p es.*2 -> (length es <= fuel)%nat ->
  (forall m' t a, represents X m' (delete q Q) -> world m' = set_app a (put t (world m)) -> (forall x y, tbl (world m) !! x = Some y -> p_attrib y <> p -> t !! x = Some y) -> P () m') ->
  wp (queue_destroy fuel (Some q) (Some free)) P m.
Proof.
  intros R Hq Hwait Hf HP. eapply destroy_wp; [apply (free_drains (<[q := (1, [])]> Q) (world m) p)| |done|done|done| |].
  - intros Q' w [-> _]. apply lookup_insert_eq.
  - split; [done|]. exists (tbl (world m)), (g_app (world m)). by rewrite put_tbl.
  - intros m' Q' R' (-> & t & a & Hw & _ & Hkeep). rewrite delete_insert_eq in R'. by eapply HP.
Qed.
End Drain.

(** ** Attributes *)

Section Destroy.
Context `{!Allocator} {A : Type} {app : App A} `{!Polite app} (fuel : nat).
Abbreviation mem := (Queue.mem (gatt A)).
Implicit Types (m : mem) (g : gatt A) (own : gmap ptr owner) (Q : gmap ptr (Z * entry_list)).

(** Every queue is short enough for the walks. *)
Definition fits Q : Prop := forall q r es, Q !! q = Some (r, es) -> (length es < fuel)%nat.

Lemma fits_delete Q q : fits Q -> fits (delete q Q).
Proof. intros Hf q' r es [_ ?]%lookup_delete_Some. by eapply Hf. Qed.

(** All but the blocks of one attribute. *)
Definition others (p : attr) (t t' : gmap ptr pending) : Prop := forall x y, t !! x = Some y -> p_attrib y <> p -> t' !! x = Some y.

Lemma waiting_others p p' t t' l : p' <> p -> others p t t' -> waiting t p' l -> waiting t' p' l.
Proof.
  intros Hne Ho (ps & -> & Hnd & Hps). exists ps. split_and!; [done..|]. intros x Hx. destruct (Hps x Hx) as (y & Hy & Hp). exists y. split; [|done].
  apply Ho; [done|]. congruence.
Qed.

(** The owners without the queues of an attribute. *)
Definition disown (qr qw : ptr) own : gmap ptr owner := delete qw (delete qr own).

Lemma database_drop X m m' Q own d ss s x i a qr qw :
  database X m Q own d ss -> s ∉ ss -> g_services (world m) !! s = Some x -> s_attributes x !! i = Some (Attr a) ->
  own !! qr = Some (Reads (s, i)) -> own !! qw = Some (Writes (s, i)) -> represents X m' (delete qw (delete qr Q)) ->
  g_db (world m') = g_db (world m) -> g_notifies (world m') = g_notifies (world m) ->
  g_services (world m') = <[s := set_attributes (<[i := Dangling]> (s_attributes x)) x]> (g_services (world m)) ->
  others (s, i) (g_reads (world m)) (g_reads (world m')) -> others (s, i) (g_writes (world m)) (g_writes (world m')) ->
  database X m' (delete qw (delete qr Q)) (disown qr qw own) d ss.
Proof.
  intros [H1 H2 H3 H4 H5 H6 H7 H8 H9 H10 H11] Hs Hx Hi Hr Hw R E1 E2 E3 Or Ow. unfold disown.
  assert (forall q o, own !! q = Some o -> o <> Reads (s, i) -> o <> Writes (s, i) -> delete qw (delete qr own) !! q = Some o) as Hkeep
    by (intros q o Ho ? ?; rewrite !lookup_delete_ne; [done|intros ->; congruence..]).
  assert (forall q o, delete qw (delete qr own) !! q = Some o -> q <> qw /\ q <> qr /\ own !! q = Some o) as Hold
    by (intros q o [? [? ?]%lookup_delete_Some]%lookup_delete_Some; done).
  assert (forall q o, delete qw (delete qr own) !! q = Some o -> o <> Reads (s, i) /\ o <> Writes (s, i)) as Hneq
    by (intros q o (Nw & Nr & Ho)%Hold; split; intros ->; [apply Nr|apply Nw]; by eapply H6).
  split; rewrite ?E1; try done.
  - destruct H3 as (q & ? & ?). exists q. split; [done|]. by apply Hkeep.
  - destruct H4 as (q & ? & ?). exists q. split; [done|]. by apply Hkeep.
  - intros q o Ho. destruct (Hneq q o Ho) as [N1 N2]. apply Hold in Ho as (? & ? & Ho). destruct (H5 q o Ho) as (es & HQ & Hok). exists es.
    split; [by rewrite !lookup_delete_ne|]. destruct o; cbn in *; [done|by rewrite E2|..]; (eapply waiting_others; [|done|done]); congruence.
  - intros q q' o (_ & _ & Ho)%Hold (_ & _ & Ho')%Hold. by eapply H6.
  - intros q s' i' Ho. destruct (Hneq _ _ Ho) as [N1 N2]. apply Hold in Ho as (_ & _ & Ho). destruct (H7 q s' i' Ho) as (x' & a' & Hx' & Ha' & Hp). rewrite E3.
    destruct (decide (s' = s)) as [->|]; [|exists x', a'; by rewrite lookup_insert_ne]. assert (x' = x) as -> by congruence. eexists _, a'.
    rewrite lookup_insert_eq. split_and!; [done| |done]. cbn. rewrite list_lookup_insert_ne; [done|]. congruence.
  - intros q s' i' Ho. destruct (Hneq _ _ Ho) as [N1 N2]. apply Hold in Ho as (_ & _ & Ho). destruct (H8 q s' i' Ho) as (x' & a' & Hx' & Ha' & Hp). rewrite E3.
    destruct (decide (s' = s)) as [->|]; [|exists x', a'; by rewrite lookup_insert_ne]. assert (x' = x) as -> by congruence. eexists _, a'.
    rewrite lookup_insert_eq. split_and!; [done| |done]. cbn. rewrite list_lookup_insert_ne; [done|]. congruence.
  - intros s' Hin. destruct (H10 s' Hin) as (x' & Hx' & [K1 K2 K3 K4 K5]). assert (s' <> s) as Hne by (by intros ->). exists x'. rewrite E3, lookup_insert_ne by done. split; [done|].
    split; try done. intros j v Hv. destruct (K5 j v Hv) as [?|(a' & -> & qr' & qw' & ? & ? & ? & ?)]; [by left|]. right. exists a'. split; [done|].
    exists qr', qw'. split_and!; [done|apply Hkeep; congruence|done|apply Hkeep; congruence].
Qed.

(** The queues of all but the attributes [gone] stay. *)
Definition spares (gone : attr -> Prop) own own' Q Q' : Prop :=
  forall q o, own !! q = Some o -> match o with Reads p | Writes p => ~ gone p | _ => True end -> own' !! q = Some o /\ Q' !! q = Q !! q.

Lemma spares_refl gone own Q : spares gone own own Q Q.
Proof. by intros q o Ho _. Qed.
Lemma spares_trans gone gone' own own1 own2 Q Q1 Q2 :
  (forall p, gone' p -> gone p) -> spares gone' own own1 Q Q1 -> spares gone own1 own2 Q1 Q2 -> spares gone own own2 Q Q2.
Proof.
  intros Hg S1 S2 q o Ho Hn. destruct (S1 q o Ho) as [Ho1 HQ1]; [destruct o; try done; intros ?; by apply Hn, Hg|]. destruct (S2 q o Ho1 Hn) as [Ho2 HQ2]. split; [done|congruence].
Qed.
Lemma spares_service gone own own' Q Q' s x : spares gone own own' Q Q' -> (forall i, ~ gone (s, i)) -> service_ok own s x -> service_ok own' s x.
Proof.
  intros Hsp Hg [K1 K2 K3 K4 K5]. split; try done. intros i v Hv. destruct (K5 i v Hv) as [?|(a & -> & qr & qw & ? & Hr & ? & Hw)]; [by left|]. right. exists a. split; [done|].
  exists qr, qw. split_and!; [done|by apply (Hsp _ _ Hr (Hg i))|done|by apply (Hsp _ _ Hw (Hg i))].
Qed.

(** A slot that [attribute_destroy] can work on. *)
Definition slot_ok own (p : attr) (v : slot) : Prop := v = Null \/ exists a, v = Attr a /\ attribute_ok own p a.

Lemma slot_spared gone own own' Q Q' p v : spares gone own own' Q Q' -> ~ gone p -> slot_ok own p v -> slot_ok own' p v.
Proof.
  intros Hsp Hg [->|(a & -> & qr & qw & ? & Hr & ? & Hw)]; [by left|]. right. exists a. split; [done|]. exists qr, qw.
  split_and!; [done|by apply (Hsp _ _ Hr Hg)|done|by apply (Hsp _ _ Hw Hg)].
Qed.

(** What stays in the heap while a service is taken down. *)
Definition same_world g g' : Prop := g_db g' = g_db g /\ g_notifies g' = g_notifies g /\ g_found g' = g_found g.

Lemma attribute_destroy_wp X m Q own d ss s x i v (P : () -> mem -> Prop) :
  database X m Q own d ss -> fits Q -> s ∉ ss -> g_services (world m) !! s = Some x -> s_attributes x !! i = Some v -> slot_ok own (s, i) v ->
  (forall m' Q' own' v', (forall a, v' <> Attr a) -> database X m' Q' own' d ss -> fits Q' -> spares (fun p => p = (s, i)) own own' Q Q' -> same_world (world m) (world m') ->
    g_services (world m') = <[s := set_attributes (<[i := v']> (s_attributes x)) x]> (g_services (world m)) -> P () m') ->
  wp (attribute_destroy fuel s i) P m.
Proof.
  intros D Hf Hs Hx Hi Hv HP. unfold attribute_destroy. gatt_step. eapply wp_attribute_at; [done|done|by destruct Hv as [->|(a & -> & _)]|].
  destruct Hv as [->|(a & -> & qr & qw & Har & Hr & Haw & Hw)]; gatt_simpl.
  { gatt_step. eapply (HP m Q own Null); [done|done|done|apply spares_refl|done|]. rewrite list_insert_id by done. rewrite insert_id; [done|]. rewrite Hx. by destruct x. }
  destruct (db_queue _ _ _ _ _ _ D qr _ Hr) as (er & Qr & Wr). destruct (db_queue _ _ _ _ _ _ D qw _ Hw) as (ew & Qw & Ww).
  assert (qr <> qw) as Hne by (intros ->; congruence). rewrite Har, Haw. gatt_step.
  eapply (drain_wp fuel g_reads set_reads pending_read_free); [by intros ? ? []|done|by intros []|apply pending_read_free_wp|apply D|done|exact Wr|apply Nat.lt_le_incl; by eapply Hf|].
  intros m1 t1 a1 R1 W1 O1. gatt_step.
  eapply (drain_wp fuel g_writes set_writes pending_write_free); [by intros ? ? []|done|by intros []|apply pending_write_free_wp|exact R1|by rewrite lookup_delete_ne|rewrite W1; exact Ww|apply Nat.lt_le_incl; by eapply Hf|].
  intros m2 t2 a2 R2 W2 O2. assert (g_services (world m2) = g_services (world m)) as E by (by rewrite W2, W1). eapply wp_store_attribute; [by rewrite E|by eapply lookup_lt_Some|].
  rewrite E. eapply (HP _ (delete qw (delete qr Q)) (disown qr qw own) Dangling).
  - done.
  - eapply (database_drop X m); [done..|by eapply represents_frame|gatt_simpl; by rewrite W2, W1|gatt_simpl; by rewrite W2, W1|done| |]; gatt_simpl; rewrite W2; [rewrite W1; exact O1|].
    rewrite W1 in O2. exact O2.
  - by apply fits_delete, fits_delete.
  - intros q o Ho Hn. unfold disown. rewrite !lookup_delete_ne; [done|..]; intros <-; rewrite Ho in Hr || rewrite Ho in Hw; simplify_eq; by destruct Hn.
  - split_and!; gatt_simpl; by rewrite W2, W1.
  - done.
Qed.

Lemma destroy_attributes_wp X d ss s n : s ∉ ss -> forall i m Q own x (P : () -> mem -> Prop),
  database X m Q own d ss -> fits Q -> g_services (world m) !! s = Some x -> (length (s_attributes x) = i + n)%nat ->
  (forall j v, (i <= j)%nat -> s_attributes x !! j = Some v -> slot_ok own (s, j) v) ->
  (forall m' Q' own' x', (forall j a, s_attributes x' !! j = Some (Attr a) -> (j < i)%nat /\ s_attributes x !! j = Some (Attr a)) ->
    database X m' Q' own' d ss -> fits Q' -> spares (fun p => p.1 = s) own own' Q Q' -> same_world (world m) (world m') ->
    g_services (world m') = <[s := x']> (g_services (world m)) -> P () m') ->
  wp (destroy_attributes fuel n s i) P m.
Proof.
  intros Hs. induction n as [|n IH]; intros i m Q own x P D Hf Hx Hlen Hslots HP; cbn [destroy_attributes].
  { gatt_step. eapply (HP m Q own x); [|done|done|apply spares_refl|done|by rewrite insert_id]. intros j a Hj. split; [|done]. apply lookup_lt_Some in Hj. lia. }
  assert (is_Some (s_attributes x !! i)) as [v Hv] by (apply lookup_lt_is_Some; lia). gatt_step. eapply attribute_destroy_wp; [done..|by apply (Hslots i)|].
  intros m1 Q1 own1 v' Hv' D1 Hf1 S1 W1 E1. eapply (IH (S i)); [done|done|rewrite E1; by rewrite lookup_insert_eq|cbn; rewrite length_insert; lia| |].
  - cbn. intros j v0 Hj Hv0. rewrite list_lookup_insert_ne in Hv0 by lia. eapply slot_spared; [done| |apply Hslots; [lia|done]]. intros [= ->]. lia.
  - intros m2 Q2 own2 x' Hx' D2 Hf2 S2 (W2 & W2' & W2'') E2. eapply (HP m2 Q2 own2 x'); [|done|done| | |by rewrite E2, E1, insert_insert_eq].
    + cbn in Hx'. intros j a [Hj Ha]%Hx'. apply list_lookup_insert_Some in Ha as [(-> & -> & _)|[? ?]]; [by destruct (Hv' a)|]. split; [lia|done].
    + eapply spares_trans; [|done|done]. by intros p ->.
    + destruct W1 as (? & ? & ?). split_and!; congruence.
Qed.

(** ** Observers *)

(** A call of every observer changes the state of the application only. *)
Lemma database_app X m m' Q own d ss a : database X m Q own d ss -> represents X m' Q -> world m' = set_app a (world m) -> database X m' Q own d ss.
Proof. intros [H1 H2 H3 H4 H5 H6 H7 H8 H9 H10 H11] R Hw. split; rewrite ?Hw; done. Qed.

(** A service without attributes in use is freed. *)
Lemma database_forget X m Q own d ss s : database X m Q own d ss -> s ∉ ss ->
  (forall q i, own !! q <> Some (Reads (s, i)) /\ own !! q <> Some (Writes (s, i))) ->
  database X (with_gatt (set_services (delete s (g_services (world m))) (world m)) m) Q own d ss.
Proof.
  intros [H1 H2 H3 H4 H5 H6 H7 H8 H9 H10 H11] Hs Hno. split; gatt_simpl; try done.
  - by eapply represents_frame.
  - intros q s' i Ho. destruct (H7 q s' i Ho) as (x & a & Hx & ?). exists x, a. rewrite lookup_delete_ne; [done|]. intros <-. by destruct (Hno q i) as [? _].
  - intros q s' i Ho. destruct (H8 q s' i Ho) as (x & a & Hx & ?). exists x, a. rewrite lookup_delete_ne; [done|]. intros <-. by destruct (Hno q i) as [_ ?].
  - intros s' Hin. destruct (H10 s' Hin) as (x & Hx & ?). exists x. rewrite lookup_delete_ne; [done|]. by intros <-.
Qed.

Lemma handle_notify_wp p added n x m (P : () -> mem -> Prop) :
  g_notifies (world m) !! n = Some x -> is_Some (n_service_added x) -> is_Some (n_service_removed x) ->
  (forall a, P () (with_gatt (set_app a (world m)) m)) -> wp (handle_notify p added (addr n)) P m.
Proof.
  intros Hn [f Hf] [f' Hf'] HP. unfold handle_notify, load_notify. do 3 gatt_step. eapply wp_fetch; [done|]. rewrite Hf, Hf'. destruct added; by apply call_quiet.
Qed.

Lemma notify_wp X m Q own d ss s x a added (P : () -> mem -> Prop) :
  database X m Q own d ss -> fits Q -> g_services (world m) !! s = Some x -> s_attributes x !! 0%nat = Some (Attr a) ->
  (forall m' b, database X m' Q own d ss -> world m' = set_app b (world m) -> P () m') ->
  wp (notify_service_changed fuel (gatt_db_unref fuel) s added) P m.
Proof.
  intros D Hf Hx Ha HP. destruct (db_observers _ _ _ _ _ _ D) as (q & Hq & Ho). destruct (db_queue _ _ _ _ _ _ D q _ Ho) as (es & HQ & ns & Hes & Hnd & Hns).
  pose proof (db_rep _ _ _ _ _ _ D) as R. pose proof (db_there _ _ _ _ _ _ D) as Hd. pose proof (db_refs _ _ _ _ _ _ D) as Hrefs.
  unfold notify_service_changed. do 3 gatt_step. rewrite Hq. eapply isempty_wp; [done..|]. destruct (_ =? 0); gatt_simpl.
  { gatt_step. apply (HP m (g_app (world m))); [done|by destruct (world m)]. }
  gatt_step. eapply wp_load_attr; [done..|]. unfold gatt_db_ref. repeat gatt_step. rewrite s32_small by lia. rewrite Hq.
  assert (forall m', represents X m' Q -> (exists b, world m' = set_app b (set_db (Some (set_ref (d_ref_count d + 1) d)) (world m))) -> wp (gatt_db_unref fuel) P m') as Hend.
  { intros m' R' [b Hw]. unfold gatt_db_unref. gatt_step. eapply wp_update_db; [by rewrite Hw|]. rewrite Hw. repeat gatt_step. rewrite s32_small by lia.
    replace (d_ref_count d + 1 - 1) with (d_ref_count d) by lia. destruct (Z.eqb_spec (d_ref_count d) 0); [lia|]. gatt_step.
    assert (forall g : gatt A, g_db g = Some d -> set_db (Some (set_ref (d_ref_count d) (set_ref (d_ref_count d + 1) d))) (set_app b (set_db (Some (set_ref (d_ref_count d + 1) d)) g)) = set_app b g) as Hback
      by (intros [] Hg; cbn in Hg; rewrite Hg; unfold set_db, set_app, set_ref; cbn; destruct d; done).
    rewrite Hback by done. eapply (HP _ b); [|done]. eapply database_app; [done|by eapply represents_frame|done]. }
  eapply (foreach_wp X q (handle_notify (s, 0%nat) added) (fun l Q' w => Q' = <[q := (2, es)]> Q /\ (exists ns', l = addr <$> ns' /\ (forall n, n ∈ ns' -> n ∈ ns)) /\
    exists b, w = set_app b (set_db (Some (set_ref (d_ref_count d + 1) d)) (world m)))).
  - intros m1 Q1 es1 e z es2 R1 Hq1 (-> & (ns' & Hl & Hin) & b & Hw). destruct ns' as [|n ns']; [done|]. cbn in Hl. injection Hl as -> Hl.
    destruct (Hns n ltac:(apply Hin; by left)) as (y & Hy & Hya & Hyr). eapply handle_notify_wp; [rewrite Hw; exact Hy|done|done|]. intros b'. eexists. split; [by eapply represents_frame|].
    rewrite lookup_insert_eq in Hq1. injection Hq1 as Hes1. split; [left; exists (es1 ++ [(e, addr n)]); rewrite lookup_insert_eq, Hes1; by rewrite <-app_assoc|]. split; [done|].
    split; [exists ns'; split; [done|intros; apply Hin; by right]|]. exists b'. gatt_simpl. by rewrite Hw.
  - by eapply represents_frame.
  - done.
  - by eapply Hf.
  - split; [done|]. split; [by exists ns|]. exists (g_app (world m)). by destruct (world m).
  - intros ->. eapply Hend; [by eapply represents_frame|]. gatt_simpl. exists (g_app (world m)). by destruct (world m).
  - intros m' Q' es' R' Hq' (-> & _ & Hw). rewrite lookup_insert_eq in Hq'. injection Hq' as <-. rewrite insert_insert_eq, insert_id in R' by done. by eapply Hend.
  - intros m' Q' l R' Hq' (-> & _ & Hw). by rewrite lookup_insert_eq in Hq'.
Qed.

(** ** Services *)

Lemma service_destroy_wp X m Q own d ss s x (P : () -> mem -> Prop) :
  database X m Q own d ss -> fits Q -> s ∉ ss -> g_services (world m) !! s = Some x -> service_ok own s x ->
  (forall m' Q' own', database X m' Q' own' d ss -> fits Q' -> spares (fun p => p.1 = s) own own' Q Q' -> same_world (world m) (world m') ->
    g_services (world m') = delete s (g_services (world m)) -> P () m') ->
  wp (service_destroy fuel (gatt_db_unref fuel) s) P m.
Proof.
  intros D Hf Hs Hx Hok HP. destruct (so_decl _ _ _ Hok) as (a & Ha%decl_lookup & _). unfold service_destroy. do 2 gatt_step. gatt_step.
  assert (forall m1 b (P' : () -> mem -> Prop), database X m1 Q own d ss -> world m1 = set_app b (world m) ->
    (forall m' Q' own', database X m' Q' own' d ss -> fits Q' -> spares (fun p => p.1 = s) own own' Q Q' -> same_world (world m) (world m') ->
      g_services (world m') = delete s (g_services (world m)) -> P' () m') ->
    wp (x ← load_service s; _ ← destroy_attributes fuel (Z.to_nat (s_num_handles x)) s 0; _ ← load_service s; modify (fun g => set_services (delete s (g_services g)) g)) P' m1) as Hrest.
  { intros m1 b P' D1 W1 HP'. gatt_step. eapply wp_load_service; [by rewrite W1|]. gatt_step.
    eapply destroy_attributes_wp; [done|done|done|by rewrite W1| | |].
    - rewrite (so_size _ _ _ Hok). unfold zlen. lia.
    - intros j v _ Hv. by apply (so_slot _ _ _ Hok).
    - intros m2 Q2 own2 x' Hx' D2 Hf2 S2 (W2 & W2' & W2'') E2. rewrite W1 in E2, W2, W2', W2''. gatt_step. eapply wp_load_service; [rewrite E2; by rewrite lookup_insert_eq|]. gatt_step.
      eapply (HP' _ Q2 own2); gatt_simpl; [|done|done|by split_and!|rewrite E2; gatt_simpl; by rewrite delete_insert_eq].
      eapply database_forget; [done|done|]. intros q i. assert (g_services (world m2) !! s = Some x') as Hsx by (rewrite E2; apply lookup_insert_eq). split; intros Ho.
      + destruct (db_reads _ _ _ _ _ _ D2 q s i Ho) as (x0 & a0 & ? & Ha0 & _). assert (x0 = x') as -> by congruence. apply Hx' in Ha0. lia.
      + destruct (db_writes _ _ _ _ _ _ D2 q s i Ho) as (x0 & a0 & ? & Ha0 & _). assert (x0 = x') as -> by congruence. apply Hx' in Ha0. lia. }
  destruct (s_active x); [|gatt_step; apply (Hrest m (g_app (world m))); [done|by destruct (world m)|done]].
  eapply notify_wp; [done..|]. intros m1 b D1 W1. by eapply Hrest.
Qed.
End Destroy.
