(* ===== verification/GattServices.v ===== *)
(** The list of services of the attribute database: removals of one service and of a range of handles. *)

From stdpp Require Import gmap.
From S2P Require Import Prelude Util Alloc Queue QueueSpec QueueMain Uuid GattDb GattSpec GattDestroy.

Lemma filter_all {B} (P : B -> Prop) `{!forall x, Decision (P x)} (l : list B) : (forall x, x ∈ l -> P x) -> filter P l = l.
Proof. induction l as [|x l IH]; intros Hall; [done|]. rewrite filter_cons_True by (apply Hall; by left). f_equal. apply IH. intros; apply Hall; by right. Qed.
Lemma filter_no_elem {B} (P : B -> Prop) `{!forall x, Decision (P x)} (l : list B) : (forall x, x ∈ l -> ~ P x) -> filter P l = [].
Proof. induction l as [|x l IH]; intros Hall; [done|]. rewrite filter_cons_False by (apply Hall; by left). apply IH. intros; apply Hall; by right. Qed.

Lemma remove_first_addr (ss : list ptr) s : NoDup ss -> s ∈ ss ->
  find_first (fun y => y =? addr s) (addr <$> ss) = Some (addr s) /\ remove_first (fun y => y =? addr s) (addr <$> ss) = addr <$> filter (fun t => t <> s) ss.
Proof.
  induction ss as [|t ss IH]; intros Hnd Hs; [by apply elem_of_nil in Hs|]. apply NoDup_cons in Hnd as [Ht Hnd]. cbn [fmap list_fmap find_first remove_first]. rewrite addr_eqb. case_bool_decide as E.
  - subst t. split; [done|]. rewrite filter_cons_False by (intros H; by apply H). f_equal. symmetry. apply filter_all. intros t Ht' ->. done.
  - apply elem_of_cons in Hs as [->|Hs]; [done|]. destruct (IH Hnd Hs) as [IH1 IH2]. rewrite filter_cons_True by done. cbn. by rewrite IH1, IH2.
Qed.

(** Whether a service has a handle of a range. *)
Definition meets (start end_ : Z) (r : Z * Z) : bool := (r.1 <=? end_) && (start <=? r.2).

Section Services.
Context `{!Allocator} {A : Type} {app : App A} `{!Polite app} (fuel : nat).
Abbreviation mem := (Queue.mem (gatt A)).
Implicit Types (m : mem) (g : gatt A) (own : gmap ptr owner) (Q : gmap ptr (Z * entry_list)).

Lemma database_move X X' m m' Q own d ss : database X m Q own d ss -> represents X' m' Q -> world m' = world m -> database X' m' Q own d ss.
Proof. intros [H1 H2 H3 H4 H5 H6 H7 H8 H9 H10 H11] R Hw. split; rewrite ?Hw; done. Qed.

(** Some services are not listed any more. *)
Lemma database_unlist X X' m m' Q own d ss ss' q es es' :
  database X m Q own d ss -> own !! q = Some Services -> Q !! q = Some (1, es) -> represents X' m' (<[q := (1, es')]> Q) -> es'.*2 = addr <$> ss' ->
  NoDup ss' -> (forall s, s ∈ ss' -> s ∈ ss) -> world m' = world m -> database X' m' (<[q := (1, es')]> Q) own d ss'.
Proof.
  intros [H1 H2 H3 H4 H5 H6 H7 H8 H9 H10 H11] Ho Hq R Hes Hnd Hin Hw. split; rewrite ?Hw; auto.
  intros q' o Ho'. destruct (decide (q' = q)) as [->|Hne].
  - rewrite Ho in Ho'. injection Ho' as <-. exists es'. by rewrite lookup_insert_eq.
  - destruct (H5 q' o Ho') as (es0 & ? & Hok). exists es0. rewrite lookup_insert_ne by done. split; [done|]. destruct o; try done. destruct Hne. by eapply H6.
Qed.

Lemma fits_insert Q q es es' : fits fuel Q -> Q !! q = Some (1, es) -> (length es' <= length es)%nat -> fits fuel (<[q := (1, es')]> Q).
Proof. intros Hf Hq Hlen q' r es0 [[<- [= <- <-]]|[_ ?]]%lookup_insert_Some; [specialize (Hf _ _ _ Hq); lia|by eapply Hf]. Qed.

Lemma service_unless own s x i v : service_ok own s x -> s_attributes x !! i = Some v -> v <> Dangling.
Proof. intros Hok Hi ->. destruct (so_slot _ _ _ Hok i _ Hi) as [?|(a & ? & _)]; done. Qed.

(** Of the services [ss] only [ss'] are left, as they were. *)
Record kept g g' (ss ss' : list ptr) : Prop := {
  kept_same s : s ∈ ss' -> g_services g' !! s = g_services g !! s;
  kept_gone s : s ∈ ss -> s ∉ ss' -> g_services g' !! s = None;
  kept_old : g_services g' ⊆ g_services g;
  kept_world : same_world g g'
}.

Lemma kept_all g ss : kept g g ss ss.
Proof. by split. Qed.
(** One more service is freed. *)
Lemma kept_next g g1 g2 ss l1 s l2 : kept g g1 ss (l1 ++ s :: l2) -> s ∉ l1 ++ l2 -> g_services g2 = delete s (g_services g1) -> same_world g1 g2 -> kept g g2 ss (l1 ++ l2).
Proof.
  intros [K1 K2 K3 (W1 & W2 & W3)] Hs E (V1 & V2 & V3). split; rewrite ?E.
  - intros t Ht. rewrite lookup_delete_ne by (by intros ->). apply K1. set_solver.
  - intros t Ht Hn. destruct (decide (t = s)) as [->|]; [apply lookup_delete_eq|]. rewrite lookup_delete_ne by done. apply K2; [done|set_solver].
  - etransitivity; [apply delete_subseteq|done].
  - split_and!; congruence.
Qed.

Lemma remove_service_wp X m Q own d ss s i x a (P : bool -> mem -> Prop) :
  database X m Q own d ss -> fits fuel Q -> s ∈ ss -> g_services (world m) !! s = Some x -> s_attributes x !! i = Some (Attr a) ->
  (forall m' Q' own', database X m' Q' own' d (filter (fun t => t <> s) ss) -> fits fuel Q' -> kept (world m) (world m') ss (filter (fun t => t <> s) ss) -> P true m') ->
  wp (gatt_db_remove_service fuel (Some (s, i))) P m.
Proof.
  intros D Hf Hs Hx Ha HP. destruct (db_services _ _ _ _ _ _ D) as (q & Hq & Ho). destruct (db_queue _ _ _ _ _ _ D q _ Ho) as (es & HQ & Hes). cbn in Hes.
  destruct (db_service _ _ _ _ _ _ D s Hs) as (x' & Hx' & Hok). assert (x' = x) as -> by congruence.
  pose proof (db_rep _ _ _ _ _ _ D) as R. pose proof (db_there _ _ _ _ _ _ D) as Hd. pose proof (db_nodup _ _ _ _ _ _ D) as Hnd.
  unfold gatt_db_remove_service. gatt_step. eapply wp_load_attr; [done..|]. do 3 gatt_step. rewrite Hq. eapply remove_wp; [done..|].
  destruct (remove_first_addr ss s Hnd Hs) as [Hfind Hrem]. rewrite <-Hes in Hfind, Hrem. pose proof (break_lists (fun y => y =? addr s) es) as Hb. pose proof (break_app (fun y => y =? addr s) es) as Happ.
  destruct (break _ es) as [es1 [|[e z] es2]]; [congruence|]. destruct Hb as (_ & Hb & _). cbn [fst snd] in Happ. intros m1 R1 Hw1.
  assert (database X m1 (<[q := (1, es1 ++ es2)]> Q) own d (filter (fun t => t <> s) ss)) as D1.
  { eapply database_unlist; [done..|congruence|by apply NoDup_filter|intros t Ht%list_elem_of_filter; tauto|done]. }
  gatt_step. eapply service_destroy_wp; [done| |intros Hin%list_elem_of_filter; tauto|by rewrite Hw1|done|].
  - eapply fits_insert; [done..|]. rewrite Happ, !length_app. cbn. lia.
  - intros m2 Q2 own2 D2 Hf2 _ W2 E2. gatt_step. eapply HP; [done|done|]. rewrite Hw1 in *. split; rewrite ?E2; [| |apply delete_subseteq|done].
    + intros t [Ht _]%list_elem_of_filter. by rewrite lookup_delete_ne.
    + intros t Ht Hn. destruct (decide (t = s)) as [->|]; [apply lookup_delete_eq|]. destruct Hn. by apply list_elem_of_filter.
Qed.

(** ** Ranges *)

Definition addr_meets g (start end_ z : Z) : bool := match of_addr z with Ret s => meets start end_ (range g s) | _ => false end.

Lemma addr_meets_addr g start end_ s : addr_meets g start end_ (addr s) = meets start end_ (range g s).
Proof. unfold addr_meets. by rewrite of_addr_addr. Qed.

Lemma filter_addr g start end_ (ss : list ptr) :
  filter (fun d => addr_meets g start end_ d = false) (addr <$> ss) = addr <$> filter (fun s => meets start end_ (range g s) = false) ss.
Proof.
  induction ss as [|s ss IH]; [done|]. rewrite fmap_cons. destruct (meets start end_ (range g s)) eqn:E.
  - rewrite filter_cons_False by (rewrite addr_meets_addr; congruence). rewrite filter_cons_False by congruence. done.
  - rewrite filter_cons_True by (rewrite addr_meets_addr; congruence). rewrite filter_cons_True by congruence. rewrite fmap_cons. by f_equal.
Qed.

Lemma range_same g g' s : g_services g' !! s = g_services g !! s -> range g' s = range g s.
Proof. unfold range. by intros ->. Qed.

Lemma match_range_run X m Q own d ss s start end_ y : database X m Q own d ss -> s ∈ ss -> match_range start end_ (addr s) y m = Ret (meets start end_ (range (world m) s), m).
Proof.
  intros D Hs. destruct (db_service _ _ _ _ _ _ D s Hs) as (x & Hx & Hok). unfold match_range.
  rewrite (bind_run _ _ _ _ _ (at_addr_run s m)), (bind_run _ _ _ _ _ (get_handles_run m s x own Hx Hok)). unfold range, meets. by rewrite Hx.
Qed.

(** What is kept while the services in a range go. *)
Definition clearing X (w0 : gatt A) (d : gatt_db) (q : ptr) (ss0 : list ptr) (l : list Z) Q (w : gatt A) : Prop :=
  exists m own ss, world m = w /\ database X m Q own d ss /\ own !! q = Some Services /\ fits fuel Q /\ l = addr <$> ss /\ (forall s, s ∈ ss -> s ∈ ss0) /\ kept w0 w ss0 ss.

Lemma fmap_split {B C} (f : B -> C) (l : list B) l1 c l2 : f <$> l = l1 ++ c :: l2 -> exists k1 b k2, l = k1 ++ b :: k2 /\ l1 = f <$> k1 /\ c = f b /\ l2 = f <$> k2.
Proof.
  revert l1. induction l as [|b l IH]; intros [|c1 l1] E; cbn in E; try done; injection E as <- E.
  - by exists [], b, l.
  - destruct (IH l1 E) as (k1 & b' & k2 & -> & -> & -> & ->). by exists (b :: k1), b', k2.
Qed.

Lemma clear_selects X w0 d q ss0 start end_ :
  selects X q 1 (match_range start end_) 0 (Some (gatt_db_service_destroy fuel)) (addr_meets w0 start end_) (clearing X w0 d q ss0).
Proof.
  split.
  - intros m Q es z R HQ (m1 & own & ss & Hw & D & Ho & Hf & Hes & Hss & Hk) Hz. rewrite Hes in Hz. apply list_elem_of_fmap in Hz as (s & -> & Hs).
    rewrite addr_meets_addr, (match_range_run X m Q own d ss s) by (done || by eapply database_move). do 2 f_equal. f_equal. apply range_same. by apply (kept_same _ _ _ _ Hk).
  - intros m Q es1 e z es2 R HQ (m1 & own & ss & Hw & D & Ho & Hf & Hes & Hss & Hk) _ Hz. rewrite fmap_app in Hes. cbn in Hes.
    apply eq_sym, fmap_split in Hes as (l1 & s & l2 & -> & E1 & -> & E2). pose proof (db_nodup _ _ _ _ _ _ D) as Hnd.
    assert (s ∉ l1 ++ l2 /\ NoDup (l1 ++ l2)) as [Hs Hnd'] by (by apply NoDup_cons; rewrite Permutation_middle).
    assert (database X m (<[q := (1, es1 ++ es2)]> Q) own d (l1 ++ l2)) as D1.
    { eapply database_unlist; [exact D|done|done|done|by rewrite fmap_app, E1, E2, fmap_app|done|set_solver|done]. }
    destruct (db_service _ _ _ _ _ _ D s ltac:(set_solver)) as (x & Hx & Hok). cbn [call_destroy]. unfold gatt_db_service_destroy. do 2 gatt_step.
    eapply service_destroy_wp; [done|eapply fits_insert; [done..|rewrite !length_app; cbn; lia]|done|by rewrite <-Hw|done|].
    intros m2 Q2 own2 D2 Hf2 S2 W2 E. destruct (S2 q _ Ho I) as [Ho2 HQ2]. rewrite lookup_insert_eq in HQ2. exists Q2, (es1 ++ es2). split_and!; [apply D2|done|done|].
    exists m2, own2, (l1 ++ l2). split_and!; [done|done|done|done|by rewrite !fmap_app, E1, E2|set_solver|by eapply kept_next].
Qed.

(** What is kept while all services go: [l] are still to be freed. *)
Definition emptying (w0 : gatt A) (d : gatt_db) (q : ptr) (ss0 : list ptr) (l : list Z) Q (w : gatt A) : Prop :=
  exists X m own ps, world m = w /\ database X m Q own d [] /\ own !! q = Some Services /\ fits fuel Q /\ l = addr <$> ps /\ NoDup ps /\
    (forall s, s ∈ ps -> exists x, g_services w !! s = Some x /\ service_ok own s x) /\ kept w0 w ss0 ps.

Lemma clear_destroys w0 d q ss0 : destroys (Some (gatt_db_service_destroy fuel)) (emptying w0 d q ss0).
Proof.
  intros X m Q z l R (X1 & m1 & own & ps & Hw & D & Ho & Hf & Hl & Hnd & Hps & Hk). destruct ps as [|s ps]; [done|]. cbn in Hl. injection Hl as -> ->.
  apply NoDup_cons in Hnd as [Hs Hnd]. destruct (Hps s ltac:(by left)) as (x & Hx & Hok). cbn [call_destroy]. unfold gatt_db_service_destroy. do 2 gatt_step.
  eapply service_destroy_wp; [by eapply database_move|done|by intros ?%elem_of_nil|done|done|]. intros m2 Q2 own2 D2 Hf2 S2 W2 E. exists Q2. split; [apply D2|].
  exists X, m2, own2, ps. split_and!; [done|done|by apply (S2 q _ Ho I)|done|done|done| |by apply (kept_next w0 (world m) _ _ [] s ps)].
  intros t Ht. destruct (Hps t ltac:(by right)) as (y & Hy & Hoky). assert (t <> s) as Hne by (by intros ->). exists y. rewrite E, lookup_delete_ne by done. split; [done|].
  eapply spares_service; [done| |done]. by intros i.
Qed.

(** After the removals the next handle is 0 when no service is left. *)
Lemma reset_handle_wp X m Q own d ss (P : bool -> mem -> Prop) :
  database X m Q own d ss ->
  (forall m' d', database X m' Q own d' ss -> d' = d \/ d' = set_next_handle 0 d -> (ss = [] -> d_next_handle d' = 0) ->
    world m' = set_db (Some d') (world m) -> P true m') ->
  wp (e ← gatt_db_isempty; _ ← if (e : bool) then update_db (set_next_handle 0) else mret (); mret true) P m.
Proof.
  intros D HP. destruct (db_services _ _ _ _ _ _ D) as (q & Hq & Ho). destruct (db_queue _ _ _ _ _ _ D q _ Ho) as (es & HQ & Hes). cbn in Hes.
  pose proof (db_rep _ _ _ _ _ _ D) as R. pose proof (db_there _ _ _ _ _ _ D) as Hd. unfold gatt_db_isempty. do 3 gatt_step. rewrite Hq. eapply isempty_wp; [done..|].
  destruct (u32 (zlen es) =? 0) eqn:E; do 2 gatt_step.
  - gatt_step. eapply (HP _ (set_next_handle 0 d)); gatt_simpl; [|by right|done|done]. destruct D as [H1 H2 H3 H4 H5 H6 H7 H8 H9 H10 H11]. split; gatt_simpl; try done. by eapply represents_frame.
  - gatt_step. eapply (HP m d); [done|by left| |rewrite <-Hd; by destruct (world m)]. intros ->. destruct es; [done|discriminate].
Qed.

Lemma clear_range_wp X m Q own d ss start end_ (P : bool -> mem -> Prop) :
  database X m Q own d ss -> fits fuel Q -> (end_ < start -> P false m) ->
  (forall m' Q' own' d' ss', start <= end_ -> ss' = filter (fun s => meets start end_ (range (world m) s) = false) ss -> database X m' Q' own' d' ss' ->
    d' = d \/ d' = set_next_handle 0 d -> (ss' = [] -> d_next_handle d' = 0) ->
    (exists g, kept (world m) g ss ss' /\ world m' = set_db (Some d') g) -> P true m') ->
  wp (gatt_db_clear_range fuel start end_) P m.
Proof.
  intros D Hf HF HT. destruct (db_services _ _ _ _ _ _ D) as (q & Hq & Ho). destruct (db_queue _ _ _ _ _ _ D q _ Ho) as (es & HQ & Hes). cbn in Hes.
  pose proof (db_rep _ _ _ _ _ _ D) as R. pose proof (db_there _ _ _ _ _ _ D) as Hd. pose proof (db_nodup _ _ _ _ _ _ D) as Hnd.
  unfold gatt_db_clear_range. destruct (Z.ltb_spec end_ start) as [|Hle]; [gatt_step; by apply HF|]. do 3 gatt_step. rewrite Hq. destruct (_ && _) eqn:Efull.
  - apply andb_true_iff in Efull as [->%Z.eqb_eq ->%Z.eqb_eq].
    assert (filter (fun s => meets 1 UINT16_MAX (range (world m) s) = false) ss = []) as Hnone.
    { apply filter_no_elem. intros s Hs. destruct (db_service _ _ _ _ _ _ D s Hs) as (x & Hx & Hok%service_bounds). unfold meets, range. rewrite Hx. cbn [fst snd]. lia. }
    eapply (remove_all_wp _ (emptying (world m) d q ss)); [apply clear_destroys|done|done|apply Nat.lt_le_incl; by eapply Hf| |].
    + exists (cells_of es ∪ X), (with_queues (<[q := block (1, [])]> (queues m)) m), own, ss. split_and!; [done| |done| |done|done|apply D|apply kept_all].
      * eapply (database_unlist X _ m _ _ _ _ ss []); [done|done|done|by eapply represents_detach|done|constructor|by intros ? ?%elem_of_nil|done].
      * eapply fits_insert; [done..|]. cbn. lia.
    + intros m' Q' R' (X1 & m1 & own1 & ps & Hw & D1 & _ & _ & Hps & _ & _ & Hk). apply eq_sym, fmap_nil_inv in Hps as ->. eapply reset_handle_wp; [by eapply database_move|]. intros m2 d2 D2 Hd2 Hz2 E2.
      eapply HT; [done|symmetry; exact Hnone|done|done|done|]. exists (world m'). by rewrite E2.
  - unfold queue_remove_all. pose proof (rep_lookup m Q _ _ _ R HQ) as Hl. unfold block in Hl. cbn [fst snd] in Hl. do 2 gatt_step. heap_simpl. destruct (first es None) eqn:Efirst; cycle 1.
    { destruct es as [|[] ?]; [|done]. apply eq_sym, fmap_nil_inv in Hes as ->. gatt_step. eapply reset_handle_wp; [done|]. intros m2 d2 D2 Hd2 Hz2 E2.
      eapply HT; [done|done|done|done|done|]. exists (world m). split; [apply kept_all|done]. }
    eapply (remove_matching_wp X q 1 _ _ _ _ _ fuel (clear_selects X (world m) d q ss start end_)); [done|done|by eapply Hf|done| |].
    + exists m, own, ss. split_and!; try done.
    + intros m' Q' es' R' HQ' Hes' (m1 & own1 & ss1 & Hw & D1 & _ & Hf1 & Hss1 & Hin & Hk). eapply reset_handle_wp; [by eapply database_move|]. intros m2 d2 D2 Hd2 Hz2 E2.
      assert (ss1 = filter (fun s => meets start end_ (range (world m) s) = false) ss) as ->.
      { rewrite Hes', Hes, filter_addr in Hss1. apply (inj (fmap addr)). congruence. }
      eapply HT; [done|done|done|done|done|]. exists (world m'). by rewrite E2.
Qed.
End Services.
