(* ===== verification/GattAttrs.v ===== *)
(** Attributes of a service: characteristics, descriptors and included services get the next slots and handles
    of their service. *)

From stdpp Require Import gmap.
From S2P Require Import Prelude Util Alloc Queue QueueSpec QueueMain Uuid GattDb GattSpec.

(** The attribute that [new_attribute] makes and [set_attribute_data] completes. *)
Definition attribute_of (handle : Z) (type : bt_uuid_t) (val : bytes) (rf wf : option nat) (perm ud : Z) (qr qw : ptr) : gatt_db_attribute :=
  mk_attribute handle type perm (u16 (zlen val)) (if zlen val =? 0 then None else Some (Some <$> val)) rf wf ud 0 (Some qr) 0 (Some qw).

(** The first [k] slots have attributes, the others none. *)
Definition packed (k : nat) (x : gatt_db_service) : Prop :=
  (1 <= k <= length (s_attributes x))%nat /\ forall i v, s_attributes x !! i = Some v -> if decide (i < k)%nat then exists a, v = Attr a else v = Null.

Definition put_slot (i : nat) (a : gatt_db_attribute) (x : gatt_db_service) : gatt_db_service := set_attributes (<[i := Attr a]> (s_attributes x)) x.

Lemma packed_filled k x i : packed k x -> (i < k)%nat -> exists a, s_attributes x !! i = Some (Attr a).
Proof.
  intros [Hk Hp] Hi. destruct (lookup_lt_is_Some_2 (s_attributes x) i) as [v Hv]; [lia|]. specialize (Hp i v Hv). rewrite decide_True in Hp by done.
  destruct Hp as [a ->]. by exists a.
Qed.
Lemma packed_free k x i : packed k x -> (k <= i < length (s_attributes x))%nat -> s_attributes x !! i = Some Null.
Proof.
  intros [Hk Hp] Hi. destruct (lookup_lt_is_Some_2 (s_attributes x) i) as [v Hv]; [lia|]. specialize (Hp i v Hv). rewrite decide_False in Hp by lia. congruence.
Qed.
Lemma packed_put k x a : packed k x -> (k < length (s_attributes x))%nat -> packed (S k) (put_slot k a x).
Proof.
  intros [Hk Hp] Hlt. split; [cbn; rewrite length_insert; lia|]. cbn. intros i v [(<- & <- & _)|[Hne Hv]]%list_lookup_insert_Some.
  - rewrite decide_True by lia. by exists a.
  - specialize (Hp i v Hv). destruct (decide (i < k)%nat), (decide (i < S k)%nat); try lia; done.
Qed.
Lemma decl_put i a x : i <> 0%nat -> decl (put_slot i a x) = decl x.
Proof. apply decl_store. Qed.
Lemma put_slot_other i j a x : i <> j -> s_attributes (put_slot i a x) !! j = s_attributes x !! j.
Proof. intros. cbn. by rewrite list_lookup_insert_ne. Qed.
Lemma put_slot_here i a x : (i < length (s_attributes x))%nat -> s_attributes (put_slot i a x) !! i = Some (Attr a).
Proof. intros. cbn. by rewrite list_lookup_insert_eq. Qed.

Section Attrs.
Context `{!Allocator} {A : Type} {app : App A} (fuel : nat).
Abbreviation mem := (Queue.mem (gatt A)).
Implicit Types (m : mem) (g : gatt A) (own : gmap ptr owner) (Q : gmap ptr (Z * entry_list)).

(** The heap with another service at [s]. *)
Definition with_service (s : ptr) (x : gatt_db_service) g : gatt A := set_services (<[s := x]> (g_services g)) g.

Lemma place_attribute_wp {B} (K1 K2 : Queue.M B) X m Q own d ss s x i handle type val rf wf perm ud (P : B -> mem -> Prop) :
  database X m Q own d ss -> g_services (world m) !! s = Some x -> s_attributes x !! i = Some Null -> i <> 0%nat ->
  (forall m', val <> [] -> refused -> database X m' Q own d ss -> world m' = world m -> wp K1 P m') ->
  (forall m' Q' own' qr qw, own ⊆ own' -> database X m' Q' own' d ss ->
    world m' = with_service s (put_slot i (attribute_of handle type val rf wf perm ud qr qw) x) (world m) -> wp K2 P m') ->
  wp (o ← new_attribute handle type val; match o with None => K1 | Some a => _ ← store_attribute s i (Attr (set_attribute_data rf wf perm ud a)); K2 end) P m.
Proof.
  intros D Hx Hi Hi0 H1 H2. gatt_step. eapply new_attribute_wp; [apply D|..].
  - intros m' Hv Href R' Hw. eapply H1; [done|done| |done]. destruct D as [K0 ? ? ? ? ? ? ? ? ? ?]. split; rewrite ?Hw; done.
  - intros m' qr qw Hr Hw Hne R' HW. gatt_step. eapply wp_store_attribute; [by rewrite HW|by eapply lookup_lt_Some|].
    eapply (H2 _ _ (own_attribute (s, i) qr qw own) qr qw); [by eapply own_attribute_mono| |by rewrite HW].
    eapply (database_store X m _ Q own d ss s x i (attribute_of handle type val rf wf perm ud qr qw)); [done..|by left|done|done|by eapply represents_frame|gatt_simpl; by rewrite HW].
Qed.

Lemma free_index_wp m s x k : g_services (world m) !! s = Some x -> packed k x -> forall c i n (P : Z -> mem -> Prop),
  (n <= length (s_attributes x))%nat -> (i <= k)%nat -> (i <= n)%nat -> (n - i <= c)%nat ->
  P (Z.of_nat (Nat.min k n)) m -> wp (free_index c s (Z.of_nat n) (Z.of_nat i)) P m.
Proof.
  intros Hx Hp. induction c as [|c IH]; intros i n P Hn Hi Hin Hc HP; cbn [free_index].
  { gatt_step. replace i with (Nat.min k n) by lia. done. }
  destruct (Z.ltb_spec (Z.of_nat i) (Z.of_nat n)) as [Hlt|Hge].
  - gatt_step. rewrite Nat2Z.id. destruct (decide (i < k)%nat) as [Hik|Hik].
    + destruct (packed_filled k x i Hp Hik) as [a Ha]. eapply wp_attribute_at; [done..|]. cbv iota. replace (Z.of_nat i + 1) with (Z.of_nat (S i)) by lia. apply IH; [lia..|done].
    + assert (i = k) as -> by lia. eapply wp_attribute_at; [done|eapply packed_free; [done|lia]|done|]. cbv iota. gatt_step. by replace (Nat.min k n) with k in HP by lia.
  - gatt_step. by replace (Nat.min k n) with i in HP by lia.
Qed.

(** The index of the first free slot before the last [off] slots, or 0. *)
Definition free_slot (k : nat) (x : gatt_db_service) (off : Z) : Z := if Z.of_nat k <? s_num_handles x - off then Z.of_nat k else 0.

Lemma get_index_wp m own s x k off (P : Z -> mem -> Prop) :
  g_services (world m) !! s = Some x -> service_ok own s x -> packed k x -> 0 <= off <= 1 -> P (free_slot k x off) m -> wp (get_attribute_index s off) P m.
Proof.
  intros Hx Hok Hp Hoff HP. pose proof (service_bounds _ _ _ Hok) as Hb. pose proof (so_size _ _ _ Hok) as Hsz. unfold last_handle, UINT16_MAX in Hb.
  assert (1 <= s_num_handles x) as H1 by (destruct Hp as [? _]; unfold zlen in Hsz; lia).
  unfold get_attribute_index. do 3 gatt_step. set (n := Z.to_nat (s_num_handles x - off)). replace (s_num_handles x - off) with (Z.of_nat n) by lia. change 0 with (Z.of_nat 0) at 1.
  eapply (free_index_wp m s x k); [done|done|unfold n, zlen in *; lia|lia|lia|lia|]. gatt_step. unfold free_slot in HP.
  destruct (Z.eqb_spec (Z.of_nat (Nat.min k n)) (Z.of_nat n)) as [E|E]; destruct (Z.ltb_spec (Z.of_nat k) (s_num_handles x - off)); try lia; [done|].
  replace (Nat.min k n) with k by lia. rewrite u16_small; [done|]. lia.
Qed.

Lemma wp_handle_at m s x i a (P : Z -> mem -> Prop) :
  g_services (world m) !! s = Some x -> s_attributes x !! Z.to_nat i = Some (Attr a) -> P (a_handle a) m -> wp (get_handle_at_index s i) P m.
Proof. intros Hx Ha HP. unfold get_handle_at_index. gatt_step. by eapply wp_load_attr. Qed.

(** The handle of the attribute before slot [k]. *)
Definition handle_before (k : nat) (x : gatt_db_service) : Z := match s_attributes x !! Nat.pred k with Some (Attr a) => a_handle a | _ => 0 end.

(** The handle asked for, or the next one but [step - 1]. *)
Definition next_free (k : nat) (x : gatt_db_service) (handle step : Z) : Z := if handle =? 0 then u16 (handle_before k x + step) else handle.

Lemma next_free_wp m s x k handle step (P : Z -> mem -> Prop) :
  g_services (world m) !! s = Some x -> packed k x -> P (next_free k x handle step) m ->
  wp (if handle =? 0 then h ← get_handle_at_index s (Z.of_nat k - 1); mret (u16 (h + step)) else mret handle) P m.
Proof.
  intros Hx Hp HP. unfold next_free, handle_before in HP. destruct (handle =? 0); [|by gatt_step]. destruct (packed_filled k x (Nat.pred k) Hp) as [a Ha]; [destruct Hp; lia|].
  rewrite Ha in HP. gatt_step. eapply wp_handle_at; [done| |by gatt_step]. by replace (Z.to_nat (Z.of_nat k - 1)) with (Nat.pred k) by lia.
Qed.

(** Whether a characteristic or a descriptor of [size] attributes fits. *)
Definition accepted (k : nat) (x : gatt_db_service) (handle size : Z) : Prop :=
  (handle = 0 \/ first_handle x < handle) /\ Z.of_nat k + size <= s_num_handles x.

(** The value of the declaration of a characteristic. *)
Definition char_value (properties handle : Z) (le : bytes) : bytes := [properties] ++ put_le16 handle ++ le.

Definition char_added (s : ptr) (x : gatt_db_service) (k : nat) handle uuid le perm props rf wf ud g g' : Prop :=
  exists q1 q2 q3 q4, g' = with_service s (put_slot (S k) (attribute_of handle uuid [] rf wf perm ud q3 q4)
    (put_slot k (attribute_of (u16 (handle - 1)) characteristic_uuid (char_value props handle le) None None BT_ATT_PERM_READ 0 q1 q2) x)) g.

Lemma insert_characteristic_wp X m Q own d ss s x k handle uuid perm props rf wf ud (P : option attr -> mem -> Prop) :
  database X m Q own d ss -> s ∈ ss -> g_services (world m) !! s = Some x -> packed k x -> uuid_ok uuid ->
  (forall m', database X m' Q own d ss -> world m' = world m -> ~ accepted k x handle 2 \/ handle = UINT16_MAX \/ refused -> P None m') ->
  (forall m' Q' own' le h, database X m' Q' own' d ss -> accepted k x handle 2 -> h = next_free k x handle 2 -> uuid_to_le uuid = Ret le ->
    char_added s x k h uuid le perm props rf wf ud (world m) (world m') -> P (Some (s, S k)) m') ->
  wp (service_insert_characteristic s handle uuid perm props rf wf ud) P m.
Proof.
  intros D Hs Hx Hp Hu HN HS. destruct (db_service _ _ _ _ _ _ D s Hs) as (x' & Hx' & Hok). assert (x' = x) as -> by congruence.
  destruct (so_decl _ _ _ Hok) as (a0 & Ha0 & _). destruct (le_roundtrip uuid [] Hu) as (le & Hle & _ & Hlen & _). pose proof (so_size _ _ _ Hok) as Hsz. unfold zlen in Hsz.
  assert (first_handle x = a_handle a0) as Hfirst by (unfold first_handle; by rewrite Ha0). unfold accepted in *. rewrite Hfirst in *.
  unfold service_insert_characteristic. gatt_step. eapply wp_load_attr; [done|by apply decl_lookup|].
  destruct (negb (handle =? 0) && (handle <=? a_handle a0)) eqn:E0.
  { gatt_step. apply HN; [done|done|left]. lia. }
  destruct (Z.eqb_spec handle UINT16_MAX) as [->|Hmax]; [gatt_step; apply HN; [done|done|auto]|]. gatt_step. eapply get_index_wp; [done..|lia|]. unfold free_slot.
  destruct Hp as [Hk Hp']. assert (packed k x) as Hp by done. destruct (Z.ltb_spec (Z.of_nat k) (s_num_handles x - 1)) as [Hroom|Hroom]; cycle 1.
  { change (0 =? 0) with true. cbv iota. gatt_step. apply HN; [done|done|left]. lia. }
  destruct (Z.eqb_spec (Z.of_nat k) 0); [lia|]. gatt_step. eapply next_free_wp; [done..|]. set (h := next_free k x handle 2). gatt_step. rewrite Hle. gatt_step.
  cbv zeta. rewrite Nat2Z.id. fold (char_value props h le).
  eapply place_attribute_wp; [done|done|eapply packed_free; [done|lia]|lia|..].
  { intros m' _ Href D' Hw. gatt_step. apply HN; auto. }
  intros m1 Q1 own1 q1 q2 Ho1 D1 W1. replace (Z.to_nat (Z.of_nat k + 1)) with (S k) by lia.
  eapply place_attribute_wp; [done|rewrite W1; unfold with_service; gatt_simpl; by rewrite lookup_insert_eq| |lia|..].
  { rewrite put_slot_other by lia. eapply packed_free; [done|lia]. }
  { intros m' Hne. by destruct Hne. }
  intros m2 Q2 own2 q3 q4 Ho2 D2 W2. gatt_step. eapply HS; [done|lia|done|done|]. exists q1, q2, q3, q4. rewrite W2, W1. unfold with_service. gatt_simpl. by rewrite insert_insert_eq.
Qed.

Definition desc_added (s : ptr) (x : gatt_db_service) (k : nat) handle uuid perm rf wf ud g g' : Prop :=
  exists q1 q2, g' = with_service s (put_slot k (attribute_of handle uuid [] rf wf perm ud q1 q2) x) g.

Lemma insert_descriptor_wp X m Q own d ss s x k handle uuid perm rf wf ud (P : option attr -> mem -> Prop) :
  database X m Q own d ss -> s ∈ ss -> g_services (world m) !! s = Some x -> packed k x ->
  (~ accepted k x handle 1 -> P None m) ->
  (forall m' Q' own' h, database X m' Q' own' d ss -> accepted k x handle 1 -> h = next_free k x handle 1 ->
    desc_added s x k h uuid perm rf wf ud (world m) (world m') -> P (Some (s, k)) m') ->
  wp (service_insert_descriptor s handle uuid perm rf wf ud) P m.
Proof.
  intros D Hs Hx Hp HN HS. destruct (db_service _ _ _ _ _ _ D s Hs) as (x' & Hx' & Hok). assert (x' = x) as -> by congruence.
  destruct (so_decl _ _ _ Hok) as (a0 & Ha0 & _). pose proof (so_size _ _ _ Hok) as Hsz. unfold zlen in Hsz.
  assert (first_handle x = a_handle a0) as Hfirst by (unfold first_handle; by rewrite Ha0). unfold accepted in *. rewrite Hfirst in *.
  unfold service_insert_descriptor. gatt_step. eapply get_index_wp; [done..|lia|]. unfold free_slot. destruct Hp as [Hk Hp']. assert (packed k x) as Hp by done.
  destruct (Z.ltb_spec (Z.of_nat k) (s_num_handles x - 0)) as [Hroom|Hroom]; cycle 1.
  { change (0 =? 0) with true. cbv iota. gatt_step. apply HN. lia. }
  destruct (Z.eqb_spec (Z.of_nat k) 0); [lia|]. gatt_step. eapply wp_load_attr; [done|by apply decl_lookup|].
  destruct (negb (handle =? 0) && (handle <=? a_handle a0)) eqn:E0.
  { gatt_step. apply HN. lia. }
  gatt_step. eapply next_free_wp; [done..|]. cbv zeta. rewrite Nat2Z.id.
  eapply place_attribute_wp; [done|done|eapply packed_free; [done|lia]|lia|..].
  { intros m' Hne. by destruct Hne. }
  intros m1 Q1 own1 q1 q2 Ho1 D1 W1. gatt_step. eapply HS; [done|lia|done|]. by exists q1, q2.
Qed.
(** ** Included services *)

(** The bytes of the declaration of an included service; a long UUID is left out. *)
Definition incl_value (y : gatt_db_service) (le : bytes) : bytes :=
  put_le16 (first_handle y) ++ put_le16 (last_handle y) ++ (if zlen le =? 2 then le else []).

Definition incl_added (s : ptr) (x : gatt_db_service) (k : nat) handle val g g' : Prop :=
  exists q1 q2, g' = with_service s (put_slot k (attribute_of handle included_service_uuid val None None BT_ATT_PERM_READ 0 q1 q2) x) g.

Lemma set_handle_of h h' type val rf wf perm ud qr qw :
  set_handle h' (attribute_of h type val rf wf perm ud qr qw) = attribute_of h' type val rf wf perm ud qr qw.
Proof. done. Qed.

Lemma put_slot_again i a a' x : put_slot i a' (put_slot i a x) = put_slot i a' x.
Proof. unfold put_slot. cbn. by rewrite list_insert_insert_eq. Qed.

(** Only the handle of an attribute behind the declaration changes. *)
Lemma database_retouch X m m' Q own d ss s x i a a' :
  database X m Q own d ss -> g_services (world m) !! s = Some x -> s_attributes x !! i = Some (Attr a) -> i <> 0%nat ->
  a_pending_reads a' = a_pending_reads a -> a_pending_writes a' = a_pending_writes a -> represents X m' Q -> world m' = with_service s (put_slot i a' x) (world m) ->
  database X m' Q own d ss.
Proof.
  intros [H1 H2 H3 H4 H5 H6 H7 H8 H9 H10 H11] Hx Hi Hi0 Er Ew R Hw. assert (i < length (s_attributes x))%nat as Hlt by (by eapply lookup_lt_Some).
  assert (forall t y j b, g_services (world m) !! t = Some y -> s_attributes y !! j = Some (Attr b) ->
    exists y' b', g_services (world m') !! t = Some y' /\ s_attributes y' !! j = Some (Attr b') /\ a_pending_reads b' = a_pending_reads b /\ a_pending_writes b' = a_pending_writes b) as Hkeep.
  { intros t y j b Hy Hb. rewrite Hw. unfold with_service. gatt_simpl. destruct (decide (t = s)) as [->|]; [|exists y, b; by rewrite lookup_insert_ne]. assert (y = x) as -> by congruence.
    eexists (put_slot i a' x). rewrite lookup_insert_eq. destruct (decide (j = i)) as [->|]; [exists a'; rewrite put_slot_here by done; split_and!; congruence|].
    exists b. by rewrite put_slot_other. }
  split; rewrite ?Hw; try done.
  - intros q t j Ho. rewrite <-Hw. destruct (H7 q t j Ho) as (y & b & Hy & Hb & Hq). destruct (Hkeep t y j b Hy Hb) as (y' & b' & ? & ? & E & _). exists y', b'. by rewrite E.
  - intros q t j Ho. rewrite <-Hw. destruct (H8 q t j Ho) as (y & b & Hy & Hb & Hq). destruct (Hkeep t y j b Hy Hb) as (y' & b' & ? & ? & _ & E). exists y', b'. by rewrite E.
  - intros t Ht. destruct (H10 t Ht) as (y & Hy & Hok). unfold with_service. gatt_simpl. destruct (decide (t = s)) as [->|]; [|exists y; by rewrite lookup_insert_ne].
    assert (y = x) as -> by congruence. exists (put_slot i a' x). rewrite lookup_insert_eq. split; [done|]. eapply service_store; [done|done|done|].
    destruct (so_slot _ _ _ Hok i _ Hi) as [?|(b & [= <-] & qr & qw & ? & ? & ? & ?)]; [done|]. exists qr, qw. by rewrite Er, Ew.
Qed.

Lemma insert_included_wp X m Q own d ss s x k handle t y j b (P : option attr -> mem -> Prop) :
  database X m Q own d ss -> s ∈ ss -> g_services (world m) !! s = Some x -> packed k x ->
  t ∈ ss -> g_services (world m) !! t = Some y -> s_attributes y !! j = Some (Attr b) ->
  (forall m', database X m' Q own d ss -> world m' = world m -> ~ accepted k x handle 1 \/ refused -> P None m') ->
  (forall m' Q' own' h u le, database X m' Q' own' d ss -> accepted k x handle 1 -> h = u16 (handle_before k x + 1) -> uuid_ok u -> uuid_to_le u = Ret le ->
    incl_added s x k h (incl_value y le) (world m) (world m') -> P (Some (s, k)) m') ->
  wp (service_insert_included s handle (t, j)) P m.
Proof.
  intros D Hs Hx Hp Ht Hy Hb HN HS. destruct (db_service _ _ _ _ _ _ D s Hs) as (x' & Hx' & Hok). assert (x' = x) as -> by congruence.
  destruct (db_service _ _ _ _ _ _ D t Ht) as (y' & Hy' & Hoky). assert (y' = y) as -> by congruence.
  destruct (so_decl _ _ _ Hok) as (a0 & Ha0 & _). pose proof (so_size _ _ _ Hok) as Hsz. unfold zlen in Hsz.
  destruct (so_decl _ _ _ Hoky) as (b0 & Hb0 & (u & le & Hu & Hle & Hval & Hlen & _)).
  assert (first_handle x = a_handle a0) as Hfirst by (unfold first_handle; by rewrite Ha0).
  assert (first_handle y = a_handle b0) as Hfirsty by (unfold first_handle; by rewrite Hb0).
  unfold service_insert_included. gatt_step. eapply wp_load_attr; [done..|]. do 2 gatt_step. gatt_step. eapply wp_load_attr; [done|by apply decl_lookup|]. rewrite Hlen. gatt_step.
  rewrite <-Hfirsty. fold (last_handle y).
  destruct Hp as [Hk Hp']. assert (packed k x) as Hp by done.
  assert (forall l, l = (if zlen le =? 2 then le else []) -> wp (
    index ← get_attribute_index s 0;
    if index =? 0 then mret None
    else a0 ← load_attr (s, 0%nat);
      if negb (handle =? 0) && (handle <=? a_handle a0) then mret None
      else handle ← if handle =? 0 then h ← get_handle_at_index s (index - 1); mret (u16 (h + 1)) else mret handle;
        o ← new_attribute handle included_service_uuid (put_le16 (first_handle y) ++ put_le16 (last_handle y) ++ l);
        match o with
        | None => mret None
        | Some a => _ ← store_attribute s (Z.to_nat index) (Attr (set_attribute_data None None BT_ATT_PERM_READ 0 a)); attribute_update s index
        end) P m) as Hrest.
  { intros l ->. gatt_step. eapply get_index_wp; [done..|lia|]. unfold free_slot. unfold accepted in *. rewrite Hfirst in *. destruct (Z.ltb_spec (Z.of_nat k) (s_num_handles x - 0)) as [Hroom|Hroom]; cycle 1.
    { change (0 =? 0) with true. cbv iota. gatt_step. apply HN; [done|done|left]. lia. }
    destruct (Z.eqb_spec (Z.of_nat k) 0); [lia|]. gatt_step. eapply wp_load_attr; [done|by apply decl_lookup|].
    destruct (negb (handle =? 0) && (handle <=? a_handle a0)) eqn:E0.
    { gatt_step. apply HN; [done|done|left]. lia. }
    gatt_step. eapply next_free_wp; [done..|]. rewrite Nat2Z.id. fold (incl_value y le).
    eapply place_attribute_wp; [done|done|eapply packed_free; [done|lia]|lia|..].
    { intros m' _ Href D' Hw. gatt_step. apply HN; auto. }
    intros m1 Q1 own1 q1 q2 Ho1 D1 W1. set (x1 := put_slot k _ x) in W1. assert (g_services (world m1) !! s = Some x1) as Hx1 by (rewrite W1; apply lookup_insert_eq).
    destruct (packed_filled k x (Nat.pred k) Hp) as [ap Hap]; [lia|]. assert (k < length (s_attributes x))%nat as Hlt by lia.
    unfold attribute_update. gatt_step. eapply (wp_handle_at m1 s x1 _ ap); [done|replace (Z.to_nat (Z.of_nat k - 1)) with (Nat.pred k) by lia; unfold x1; rewrite put_slot_other by lia; done|].
    rewrite Nat2Z.id. gatt_step. eapply wp_update_attr; [done|by apply put_slot_here|]. rewrite set_handle_of. gatt_step.
    eapply (HS _ Q1 own1 (u16 (a_handle ap + 1)) u le); [|lia|unfold handle_before; by rewrite Hap|done|done|].
    - eapply (database_retouch X m1 _ Q1 own1 d ss s x1 k _ (attribute_of (u16 (a_handle ap + 1)) included_service_uuid (incl_value y le) None None BT_ATT_PERM_READ 0 q1 q2)); [done|done|by apply put_slot_here|lia|done|done|eapply represents_frame; [apply D1|done|done]|done].
    - exists q1, q2. gatt_simpl. rewrite W1. fold (put_slot k (attribute_of (u16 (a_handle ap + 1)) included_service_uuid (incl_value y le) None None BT_ATT_PERM_READ 0 q1 q2) x1).
      unfold x1. rewrite put_slot_again. unfold with_service. gatt_simpl. by rewrite insert_insert_eq. }
  destruct (Z.eqb_spec (zlen le) 2) as [E|E].
  - unfold get_known. rewrite Hval, known_some. do 2 gatt_step. rewrite mem_read_ok by lia. gatt_step. apply Hrest. change (drop (Z.to_nat 0) le) with le. rewrite take_ge; [done|unfold zlen in E; lia].
  - gatt_step. by apply Hrest.
Qed.
End Attrs.
