(* ===== verification/GattFind.v ===== *)
(** Order of the attribute database: services with disjoint ranges, attributes with rising handles, and the
    searches by handle that rely on it. *)

From stdpp Require Import gmap.
From Stdlib Require Import Sorted.
From S2P Require Import Prelude Util Alloc Queue QueueSpec QueueMain Uuid GattDb GattAccess GattSpec GattAttrs.

(** ** Handles of a service *)

(** The handles of the attributes rise and are of the range of the service. *)
Record rising (x : gatt_db_service) : Prop := {
  rise_order i j a b : s_attributes x !! i = Some (Attr a) -> s_attributes x !! j = Some (Attr b) -> (i < j)%nat -> a_handle a < a_handle b;
  rise_range i a : s_attributes x !! i = Some (Attr a) -> first_handle x <= a_handle a <= last_handle x
}.

Lemma rising_inj x i j a b : rising x -> s_attributes x !! i = Some (Attr a) -> s_attributes x !! j = Some (Attr b) -> a_handle a = a_handle b -> i = j.
Proof.
  intros Hr Ha Hb E. destruct (Nat.lt_trichotomy i j) as [H|[H|H]]; [|done|].
  - pose proof (rise_order _ Hr _ _ _ _ Ha Hb H). lia.
  - pose proof (rise_order _ Hr _ _ _ _ Hb Ha H). lia.
Qed.

Lemma first_put i a x : i <> 0%nat -> first_handle (put_slot i a x) = first_handle x.
Proof. intros. unfold first_handle. by rewrite decl_put. Qed.
Lemma last_put i a x : i <> 0%nat -> last_handle (put_slot i a x) = last_handle x.
Proof. intros. unfold last_handle. by rewrite first_put. Qed.

(** One more attribute with a handle above the others. *)
Lemma rising_put k x a : rising x -> packed k x -> (k < length (s_attributes x))%nat -> handle_before k x < a_handle a <= last_handle x -> rising (put_slot k a x).
Proof.
  intros Hr Hp Hlt Ha. destruct Hp as [Hk Hp']. assert (packed k x) as Hp by done. assert (k <> 0%nat) as Hk0 by lia.
  destruct (packed_filled k x (Nat.pred k) Hp ltac:(lia)) as [b Hb]. unfold handle_before in Ha. rewrite Hb in Ha.
  assert (forall i c, s_attributes x !! i = Some (Attr c) -> (i < k)%nat /\ a_handle c <= a_handle b) as Hbelow.
  { intros i c Hc. assert (i < k)%nat as Hi by (pose proof (Hp' i _ Hc) as E; destruct (decide (i < k)%nat); done). split; [done|].
    destruct (decide (i = Nat.pred k)) as [->|]; [assert (c = b) as -> by congruence; lia|]. apply Z.lt_le_incl. eapply rise_order; [done..|lia]. }
  pose proof (rise_range _ Hr _ _ Hb) as Hfirst. split.
  - intros i j c c' Hc Hc' Hij. cbn in Hc, Hc'. apply list_lookup_insert_Some in Hc as [(<- & [= <-] & _)|[Hik Hc]], Hc' as [(<- & [= <-] & _)|[Hjk Hc']]; [lia| | |by eapply rise_order].
    + apply Hbelow in Hc'. lia.
    + apply Hbelow in Hc. lia.
  - intros i c Hc. rewrite first_put, last_put by done. cbn in Hc. apply list_lookup_insert_Some in Hc as [(<- & [= <-] & _)|[Hik Hc]]; [lia|by eapply rise_range].
Qed.

Lemma before_put k a x : (k < length (s_attributes x))%nat -> handle_before (S k) (put_slot k a x) = a_handle a.
Proof. intros. unfold handle_before. cbn [Nat.pred]. by rewrite put_slot_here. Qed.

Section Find.
Context `{!Allocator} {A : Type} {app : App A} (fuel : nat).
Abbreviation mem := (Queue.mem (gatt A)).
Implicit Types (m : mem) (g : gatt A) (own : gmap ptr owner) (Q : gmap ptr (Z * entry_list)).

(** ** Order of the services *)

Definition ordered g (ss : list ptr) : Prop := StronglySorted (fun s t => (range g s).2 < (range g t).1) ss.

(** A service whose range has the handle. *)
Definition covers g (s : ptr) (h : Z) : Prop := (range g s).1 <= h <= (range g s).2.

Lemma ordered_unique g ss s t h : ordered g ss -> s ∈ ss -> t ∈ ss -> covers g s h -> covers g t h -> s = t.
Proof.
  unfold covers. induction 1 as [|u ss Ho IH Hall]; intros Hs Ht Cs Ct; [by apply elem_of_nil in Hs|]. rewrite Forall_forall in Hall.
  apply elem_of_cons in Hs as [->|Hs], Ht as [->|Ht]; [done| | |by apply IH].
  - specialize (Hall t Ht). lia.
  - specialize (Hall s Hs). lia.
Qed.

Lemma ordered_same g g' ss : (forall s, s ∈ ss -> range g' s = range g s) -> ordered g ss -> ordered g' ss.
Proof.
  intros E. induction 1 as [|u ss Ho IH Hall]; constructor.
  - apply IH. intros; apply E; by right.
  - rewrite Forall_forall in *. intros t Ht. rewrite (E u), (E t) by (by constructor). by apply Hall.
Qed.

Lemma ordered_filter g (P : ptr -> Prop) `{!forall s, Decision (P s)} ss : ordered g ss -> ordered g (filter P ss).
Proof.
  induction 1 as [|u ss Ho IH Hall]; [constructor|]. rewrite filter_cons. case_decide; [|done]. constructor; [done|]. rewrite Forall_forall in *.
  intros t [_ Ht]%list_elem_of_filter. by apply Hall.
Qed.

(** A new range between the others. *)
Lemma ordered_insert g l1 s l2 : ordered g (l1 ++ l2) -> (range g s).1 <= (range g s).2 -> (forall t, t ∈ l2 -> (range g t).1 <= (range g t).2) ->
  Forall (fun t => (range g t).2 < (range g s).1) l1 -> match l2 with t :: _ => (range g s).2 < (range g t).1 | [] => True end -> ordered g (l1 ++ s :: l2).
Proof.
  induction l1 as [|u l1 IH]; cbn; intros Ho Hs H2 Hall Hl2.
  - constructor; [done|]. destruct l2 as [|t l2]; [constructor|]. apply StronglySorted_inv in Ho as [_ Ho]. constructor; [done|]. eapply Forall_impl; [exact Ho|]. cbn.
    intros v Hv. specialize (H2 t ltac:(by left)). lia.
  - apply StronglySorted_inv in Ho as [Ho Hu]. apply Forall_cons in Hall as [Hus Hall]. constructor; [by apply IH|]. rewrite Forall_app, Forall_cons in *. tauto.
Qed.

(** ** Searches by handle *)

Definition covers_addr g (h z : Z) : bool := match of_addr z with Ret s => ((range g s).1 <=? h) && (h <=? (range g s).2) | _ => false end.

Lemma covers_addr_spec g h (s : ptr) : covers_addr g h (addr s) = true <-> covers g s h.
Proof. unfold covers_addr, covers. rewrite of_addr_addr. lia. Qed.

Lemma get_service_wp X m Q own d ss handle (P : option attr -> mem -> Prop) :
  database X m Q own d ss ->
  ((forall s, s ∈ ss -> ~ covers (world m) s handle) -> P None m) ->
  (forall s, s ∈ ss -> covers (world m) s handle -> P (Some (s, 0%nat)) m) ->
  wp (gatt_db_get_service handle) P m.
Proof.
  intros D HN HS. destruct (db_services _ _ _ _ _ _ D) as (q & Hq & Ho). destruct (db_queue _ _ _ _ _ _ D q _ Ho) as (es & HQ & Hes). cbn in Hes.
  pose proof (db_rep _ _ _ _ _ _ D) as R. pose proof (db_there _ _ _ _ _ _ D) as Hd.
  assert (forall s, s ∈ ss -> exists x, g_services (world m) !! s = Some x /\ range (world m) s = (first_handle x, last_handle x) /\ service_ok own s x) as Hall.
  { intros s Hs. destruct (db_service _ _ _ _ _ _ D s Hs) as (x & Hx & Hok). exists x. unfold range. by rewrite Hx. }
  unfold gatt_db_get_service. destruct (Z.eqb_spec handle 0) as [->|Hh].
  { gatt_step. apply HN. intros s Hs. destruct (Hall s Hs) as (x & _ & E & Hok%service_bounds). unfold covers. rewrite E. cbn. lia. }
  do 3 gatt_step. rewrite Hq. eapply (find_wp m Q q 1 es _ _ (covers_addr (world m) handle)); [done|done| |].
  - intros z Hz. rewrite Hes in Hz. apply list_elem_of_fmap in Hz as (s & -> & Hs). destruct (Hall s Hs) as (x & Hx & E & Hok).
    change (find_service_for_handle (addr s) handle m = Ret (covers_addr (world m) handle (addr s), m)). unfold find_service_for_handle. rewrite (bind_run _ _ _ _ _ (at_addr_run s m)), (bind_run _ _ _ _ _ (get_handles_run m s x own Hx Hok)).
    unfold covers_addr. by rewrite of_addr_addr, E.
  - pose proof (break_app (covers_addr (world m) handle) es) as Happ. pose proof (break_hit (covers_addr (world m) handle) es) as Hhit. pose proof (break_miss (covers_addr (world m) handle) es) as Hmiss.
    destruct (break _ es) as [es1 [|[e z] es2]]; cbn [fst snd] in *; subst es.
    + change (0 =? 0) with true. cbv iota. gatt_step. apply HN. intros s Hs Hc%covers_addr_spec. rewrite app_nil_r in Hes.
      assert (addr s ∈ es1.*2) as Hin by (rewrite Hes; by apply list_elem_of_fmap_2). apply list_elem_of_fmap in Hin as (y & Hy & Hin).
      rewrite Forall_forall in Hmiss. specialize (Hmiss y Hin). cbn in Hmiss. congruence.
    + assert (z ∈ addr <$> ss) as Hin by (rewrite <-Hes, fmap_app; set_solver). apply list_elem_of_fmap in Hin as (s & -> & Hs). rewrite addr_not_null.
      destruct (Hall s Hs) as (x & Hx & _). do 3 gatt_step. gatt_step. apply HS; [done|]. by apply covers_addr_spec.
Qed.

(** The attribute of a slot, if it has this handle. *)
Definition at_handle (x : gatt_db_service) (i : nat) (h : Z) : Prop := exists a, s_attributes x !! i = Some (Attr a) /\ a_handle a = h.

Lemma attribute_loop_wp m s x own h : g_services (world m) !! s = Some x -> service_ok own s x -> forall n i (P : option attr -> mem -> Prop),
  (i + n = length (s_attributes x))%nat -> (forall j, (j < i)%nat -> ~ at_handle x j h) ->
  ((forall j, ~ at_handle x j h) -> P None m) -> (forall j, at_handle x j h -> (forall j', (j' < j)%nat -> ~ at_handle x j' h) -> P (Some (s, j)) m) ->
  wp (attribute_loop n s i h) P m.
Proof.
  intros Hx Hok. induction n as [|n IH]; intros i P Hn Hbefore HN HS; cbn [attribute_loop].
  { gatt_step. apply HN. intros j (a & Ha & Hh). apply (Hbefore j); [apply lookup_lt_Some in Ha; lia|by exists a]. }
  destruct (lookup_lt_is_Some_2 (s_attributes x) i) as [v Hv]; [lia|]. gatt_step.
  assert ((forall a, v = Attr a -> a_handle a <> h) -> forall j, (j < S i)%nat -> ~ at_handle x j h) as Hnext.
  { intros Hno j Hj (a & Ha & Hh). destruct (decide (j = i)) as [->|]; [apply (Hno a); congruence|]. apply (Hbefore j); [lia|by exists a]. }
  destruct (so_slot _ _ _ Hok i v Hv) as [->|(a & -> & _)]; eapply wp_attribute_at; [done|exact Hv|done| |done|exact Hv|done|]; cbv iota.
  - apply IH; [lia|by apply Hnext|done|done].
  - destruct (Z.eqb_spec (a_handle a) h) as [E|E]; [gatt_step; apply HS; [by exists a|done]|]. apply IH; [lia| |done|done]. apply Hnext. by intros b [= <-].
Qed.

Lemma get_attribute_wp X m Q own d ss handle (P : option attr -> mem -> Prop) :
  database X m Q own d ss ->
  ((forall s, s ∈ ss -> ~ covers (world m) s handle) -> P None m) ->
  (forall s x, s ∈ ss -> covers (world m) s handle -> g_services (world m) !! s = Some x -> (forall i, ~ at_handle x i handle) -> P None m) ->
  (forall s x i, s ∈ ss -> covers (world m) s handle -> g_services (world m) !! s = Some x -> at_handle x i handle -> P (Some (s, i)) m) ->
  wp (gatt_db_get_attribute handle) P m.
Proof.
  intros D HN HN' HS. unfold gatt_db_get_attribute. gatt_step. eapply get_service_wp; [done|intros; by gatt_step; auto|]. intros s Hs Hc.
  destruct (db_service _ _ _ _ _ _ D s Hs) as (x & Hx & Hok). do 2 gatt_step. eapply attribute_loop_wp; [done|done| |lia|by eapply HN'|]; [|intros; by eapply HS].
  pose proof (so_size _ _ _ Hok). unfold zlen in *. lia.
Qed.

(** With order the attribute of a handle is the one that is found. *)
Lemma get_attribute_found X m Q own d ss s x i a (P : option attr -> mem -> Prop) :
  database X m Q own d ss -> ordered (world m) ss -> s ∈ ss -> g_services (world m) !! s = Some x -> rising x -> s_attributes x !! i = Some (Attr a) ->
  P (Some (s, i)) m -> wp (gatt_db_get_attribute (a_handle a)) P m.
Proof.
  intros D Ho Hs Hx Hr Ha HP. assert (covers (world m) s (a_handle a)) as Hc by (unfold covers, range; rewrite Hx; by eapply rise_range).
  eapply get_attribute_wp; [done|..].
  - intros Hno. by destruct (Hno s Hs).
  - intros t y Ht Ct Hy Hno. assert (t = s) as -> by (by eapply ordered_unique). assert (y = x) as -> by congruence. destruct (Hno i). by exists a.
  - intros t y j Ht Ct Hy (b & Hb & E). assert (t = s) as -> by (by eapply ordered_unique). assert (y = x) as -> by congruence.
    by assert (i = j) as <- by (by eapply rising_inj).
Qed.

(** ** The declaration of a characteristic *)

Lemma char_data_wp m s x i h uuid le props perm qr qw (P : _ -> mem -> Prop) :
  g_services (world m) !! s = Some x -> uuid_ok uuid -> uuid_to_le uuid = Ret le -> is_u8 props -> is_u16 h ->
  s_attributes x !! i = Some (Attr (attribute_of (u16 (h - 1)) characteristic_uuid (char_value props h le) None None perm 0 qr qw)) ->
  P (Some (u16 (h - 1), h, props, long uuid)) m -> wp (gatt_db_attribute_get_char_data (Some (s, i))) P m.
Proof.
  intros Hx Hu Hle Hprops Hh Ha HP. destruct (le_roundtrip uuid [] Hu) as (l & Hl & _ & Hlen & Hback). assert (l = le) as -> by congruence. rewrite app_nil_r in Hback.
  assert (zlen (char_value props h le) = 3 + zlen le) as Hn by (unfold char_value; rewrite !zlen_app; change (zlen [props]) with 1; change (zlen (put_le16 h)) with 2; lia). assert (u16 (3 + zlen le) = 3 + zlen le) as Hn16 by (apply u16_small; lia).
  unfold gatt_db_attribute_get_char_data. gatt_step. eapply wp_load_attr; [done..|]. cbn [a_uuid a_value a_value_len a_handle attribute_of]. gatt_step.
  eapply uuid_eq_wp; [done|done|]. rewrite bool_decide_true by done. cbn [negb]. rewrite Hn, Hn16. destruct (Z.eqb_spec (3 + zlen le) 0); [lia|].
  assert (negb (3 + zlen le =? 5) && negb (3 + zlen le =? 19) = false) as -> by lia. unfold value_from, get_known. cbn [a_value a_value_len attribute_of].
  destruct (Z.eqb_spec (zlen (char_value props h le)) 0) as [|_]; [lia|]. rewrite known_some, Hn, Hn16. do 3 gatt_step.
  rewrite mem_read_ok by lia. change (drop (Z.to_nat 0) (char_value props h le)) with (char_value props h le). rewrite take_ge by (unfold zlen in *; lia). do 2 gatt_step.
  change (mem_get (char_value props h le) 0) with (Ret props). do 2 gatt_step. change (get_le16 (drop 1 (char_value props h le))) with (get_le16 (put_le16 h)). rewrite le16_put by done. do 2 gatt_step.
  change (drop 3 (char_value props h le)) with le. replace (3 + zlen le - 3) with (zlen le) by lia. rewrite Hback. do 2 gatt_step. done.
Qed.
End Find.
