(* ===== verification/GattObserve.v ===== *)
(** Flags of services and the observers of the attribute database. *)

From stdpp Require Import gmap.
From S2P Require Import Prelude Util Alloc Queue QueueSpec QueueMain Uuid GattDb GattSpec GattDestroy GattServices GattAttrs.

Section Observe.
Context `{!Allocator} {A : Type} {app : App A} `{!Polite app} (fuel : nat).
Abbreviation mem := (Queue.mem (gatt A)).
Implicit Types (m : mem) (g : gatt A) (own : gmap ptr owner) (Q : gmap ptr (Z * entry_list)).

(** ** Flags *)

(** Flags of a service are not of the invariant. *)
Lemma database_flag X m m' Q own d ss s x x' :
  database X m Q own d ss -> g_services (world m) !! s = Some x -> s_attributes x' = s_attributes x -> s_num_handles x' = s_num_handles x ->
  represents X m' Q -> world m' = with_service s x' (world m) -> database X m' Q own d ss.
Proof.
  intros [H1 H2 H3 H4 H5 H6 H7 H8 H9 H10 H11] Hx Ea En R Hw. split; rewrite ?Hw; try done; unfold with_service; gatt_simpl.
  - intros q t j Ho. destruct (H7 q t j Ho) as (y & b & Hy & Hb & Hq). destruct (decide (t = s)) as [->|]; [|exists y, b; by rewrite lookup_insert_ne].
    assert (y = x) as -> by congruence. exists x', b. by rewrite lookup_insert_eq, Ea.
  - intros q t j Ho. destruct (H8 q t j Ho) as (y & b & Hy & Hb & Hq). destruct (decide (t = s)) as [->|]; [|exists y, b; by rewrite lookup_insert_ne].
    assert (y = x) as -> by congruence. exists x', b. by rewrite lookup_insert_eq, Ea.
  - intros t Ht. destruct (H10 t Ht) as (y & Hy & Hok). destruct (decide (t = s)) as [->|]; [|exists y; by rewrite lookup_insert_ne].
    assert (y = x) as -> by congruence. exists x'. rewrite lookup_insert_eq. split; [done|]. assert (decl x' = decl x) as Ed by (unfold decl; by rewrite Ea).
    assert (first_handle x' = first_handle x) as Ef by (unfold first_handle; by rewrite Ed). assert (last_handle x' = last_handle x) as El by (unfold last_handle; by rewrite Ef, En).
    destruct Hok as [K1 K2 K3 K4 K5]. split; rewrite ?Ea, ?En, ?Ed, ?Ef, ?El; try done.
Qed.

Lemma set_claimed_wp X m Q own d ss s i x a claimed (P : bool -> mem -> Prop) :
  database X m Q own d ss -> g_services (world m) !! s = Some x -> s_attributes x !! i = Some (Attr a) ->
  (forall m', database X m' Q own d ss -> world m' = with_service s (set_claimed claimed x) (world m) -> P true m') ->
  wp (gatt_db_service_set_claimed (Some (s, i)) claimed) P m.
Proof.
  intros D Hx Ha HP. unfold gatt_db_service_set_claimed. gatt_step. eapply wp_load_attr; [done..|]. do 2 gatt_step. gatt_step. apply HP; [|done].
  eapply (database_flag X m); [done|done|..]; [| |eapply represents_frame; [apply D|done|done]|reflexivity]; done.
Qed.

Lemma set_active_wp X m Q own d ss s i x a active (P : bool -> mem -> Prop) :
  database X m Q own d ss -> fits fuel Q -> s ∈ ss -> g_services (world m) !! s = Some x -> s_attributes x !! i = Some (Attr a) ->
  (s_active x = active -> P true m) ->
  (forall m' b, s_active x <> active -> database X m' Q own d ss -> world m' = set_app b (with_service s (set_active active x) (world m)) -> P true m') ->
  wp (gatt_db_service_set_active fuel (Some (s, i)) active) P m.
Proof.
  intros D Hf Hs Hx Ha HP HP'. destruct (db_service _ _ _ _ _ _ D s Hs) as (x' & Hx' & Hok). assert (x' = x) as -> by congruence. destruct (so_decl _ _ _ Hok) as (a0 & Ha0%decl_lookup & _).
  unfold gatt_db_service_set_active. gatt_step. eapply wp_load_attr; [done..|]. do 2 gatt_step. destruct (Bool.eqb (s_active x) active) eqn:E.
  { gatt_step. apply HP. by apply eqb_prop. }
  apply eqb_false_iff in E. do 2 gatt_step. gatt_step. eapply (notify_wp fuel X _ Q own d ss s (set_active active x) a0); [|done|gatt_simpl; by rewrite lookup_insert_eq|done|].
  - eapply (database_flag X m); [done|done|..]; [| |eapply represents_frame; [apply D|done|done]|reflexivity]; done.
  - intros m' b D' Hw. gatt_step. by eapply HP'.
Qed.

(** ** Observers *)

Definition watching g (l : list Z) : Prop :=
  exists ns, l = addr <$> ns /\ NoDup ns /\ forall n, n ∈ ns -> exists x, g_notifies g !! n = Some x /\ is_Some (n_service_added x) /\ is_Some (n_service_removed x).

Lemma database_observe X m m' Q own d d' ss q es es' t b :
  database X m Q own d ss -> own !! q = Some Observers -> Q !! q = Some (1, es) -> represents X m' (<[q := (1, es')]> Q) ->
  world m' = set_app b (set_db (Some d') (set_notifies t (world m))) -> watching (world m') es'.*2 ->
  d_services d' = d_services d -> d_notify_list d' = d_notify_list d -> d_ref_count d' = d_ref_count d ->
  database X m' (<[q := (1, es')]> Q) own d' ss.
Proof.
  intros [H1 H2 H3 H4 H5 H6 H7 H8 H9 H10 H11] Ho Hq R Hw Hwatch E1 E2 E3. split; rewrite ?Hw, ?E1, ?E2, ?E3; try done.
  intros q' o Ho'. destruct (decide (q' = q)) as [->|Hne].
  - rewrite Ho in Ho'. injection Ho' as <-. exists es'. rewrite lookup_insert_eq, <-Hw. done.
  - destruct (H5 q' o Ho') as (es0 & ? & Hok). exists es0. rewrite lookup_insert_ne by done. split; [done|]. destruct o; try done. destruct Hne. by eapply H6.
Qed.

(** Only the list of observers and the next id change. *)
Definition observed (d d' : gatt_db) : Prop := exists id, d' = set_next_notify_id id d.

Lemma register_wp X m Q own d ss added removed ud destroy (P : Z -> mem -> Prop) :
  database X m Q own d ss ->
  (forall m' Q' d' id b, database X m' Q' own d' ss -> observed d d' -> (exists t, world m' = set_app b (set_db (Some d') (set_notifies t (world m)))) ->
    id = (if d_next_notify_id d <? 1 then 1 else d_next_notify_id d) -> P id m') ->
  wp (gatt_db_register (Some added) (Some removed) ud destroy) P m.
Proof.
  intros D HP. destruct (db_observers _ _ _ _ _ _ D) as (q & Hq & Ho). destruct (db_queue _ _ _ _ _ _ D q _ Ho) as (es & HQ & (ns & Hes & Hnd & Hns)).
  pose proof (db_there _ _ _ _ _ _ D) as Hd. unfold gatt_db_register. do 2 gatt_step. intros p Hp%not_elem_of_dom. repeat gatt_step.
  set (d1 := if d_next_notify_id d <? 1 then set_next_notify_id 1 d else d).
  set (d' := set_next_notify_id (u32 (d_next_notify_id d1 + 1)) d1). assert (d_notify_list d1 = Some q) as Hq1 by (unfold d1; by destruct (_ <? 1)). rewrite Hq1.
  eapply push_tail_wp; [eapply represents_frame; [apply D|done|done]|done|]. intros e m' R' Hw'. gatt_simpl. gatt_step.
  assert (d_next_notify_id d1 = if d_next_notify_id d <? 1 then 1 else d_next_notify_id d) as Hid by (unfold d1; by destruct (_ <? 1)). rewrite Hid.
  assert (world m' = set_app (g_app (world m)) (set_db (Some d') (set_notifies (<[p := mk_notify (d_next_notify_id d1) (Some added) (Some removed) destroy ud]> (g_notifies (world m))) (world m)))) as W by done.
  eapply (HP m' _ d' _ (g_app (world m))); [|unfold observed, d', d1; destruct (_ <? 1); by eexists|by eexists|done].
  eapply (database_observe X m _ Q own d); [done|done|done|done|exact W| |unfold d', d1; by destruct (_ <? 1)..]. rewrite W. exists (ns ++ [p]). rewrite !fmap_app, Hes. gatt_simpl.
  assert (forall n, n ∈ ns -> n <> p) as Hne by (intros n Hn ->; destruct (Hns p Hn) as (? & ? & _); congruence). split_and!; [done| |].
  - apply NoDup_app. split_and!; [done| |apply NoDup_singleton]. intros n Hn ->%list_elem_of_singleton. by destruct (Hne p Hn).
  - intros n [Hn| ->%list_elem_of_singleton]%elem_of_app; [|eexists; by rewrite lookup_insert_eq]. destruct (Hns n Hn) as (y & Hy & Hya). exists y. rewrite lookup_insert_ne; [done|]. intros <-. by destruct (Hne _ Hn).
Qed.

Definition has_id g (id z : Z) : bool := match of_addr z with Ret n => match g_notifies g !! n with Some x => n_id x =? id | None => false end | _ => false end.

Lemma has_id_run m id (n : ptr) x : g_notifies (world m) !! n = Some x -> match_notify_id (addr n) id m = Ret (has_id (world m) id (addr n), m).
Proof. intros Hn. unfold match_notify_id, has_id. rewrite (bind_run _ _ _ _ _ (at_addr_run n m)), of_addr_addr, Hn. rewrite (bind_run _ _ _ x m); [done|]. unfold load_notify, fetch. by rewrite Hn. Qed.

Lemma unregister_wp X m Q own d ss id (P : bool -> mem -> Prop) :
  database X m Q own d ss -> P false m ->
  (forall m' Q' b, database X m' Q' own d ss -> (exists t, world m' = set_app b (set_db (Some d) (set_notifies t (world m)))) -> P true m') ->
  wp (gatt_db_unregister id) P m.
Proof.
  intros D HF HP. destruct (db_observers _ _ _ _ _ _ D) as (q & Hq & Ho). destruct (db_queue _ _ _ _ _ _ D q _ Ho) as (es & HQ & (ns & Hes & Hnd & Hns)).
  pose proof (db_there _ _ _ _ _ _ D) as Hd. pose proof (db_rep _ _ _ _ _ _ D) as R. unfold gatt_db_unregister. destruct (id =? 0); [by gatt_step|]. do 3 gatt_step. rewrite Hq.
  eapply (find_wp m Q q 1 es _ _ (has_id (world m) id)); [done|done| |].
  { intros z Hz. rewrite Hes in Hz. apply list_elem_of_fmap in Hz as (n & -> & Hn). destruct (Hns n Hn) as (x & Hx & _). by eapply has_id_run. }
  pose proof (break_app (has_id (world m) id) es) as Happ. destruct (break (has_id (world m) id) es) as [es1 [|[e z] es2]]; cbn [fst snd] in *; [change (0 =? 0) with true; cbv iota; by gatt_step|].
  assert (exists n, n ∈ ns /\ z = addr n) as (n & Hn & ->). { assert (z ∈ addr <$> ns) as Hin by (rewrite <-Hes, Happ, fmap_app; set_solver). apply list_elem_of_fmap in Hin as (n & -> & ?). by exists n. }
  rewrite addr_not_null. gatt_step. eapply remove_wp; [done..|]. destruct (remove_first_addr ns n Hnd Hn) as [Hfind Hrem]. rewrite <-Hes in Hfind, Hrem.
  pose proof (break_lists (fun y => y =? addr n) es) as Hb. destruct (break (fun y => y =? addr n) es) as [es1' [|[e' z'] es2']]; [congruence|]. destruct Hb as (_ & Hb & _).
  intros m1 R1 Hw1. destruct (Hns n Hn) as (x & Hx & _). gatt_step. unfold notify_destroy. do 2 gatt_step. gatt_step. unfold load_notify. eapply wp_fetch; [by rewrite Hw1|]. gatt_step.
  assert (forall m2 b, represents X m2 (<[q := (1, es1' ++ es2')]> Q) -> world m2 = set_app b (world m) ->
    wp (_ ← fetch (fun g => g_notifies g !! n); modify (fun g => set_notifies (delete n (g_notifies g)) g)) (fun _ => wp (mret true) P) m2) as Hrest.
  { intros m2 b R2 W2. gatt_step. eapply wp_fetch; [by rewrite W2|]. do 2 gatt_step.
    eapply (HP _ (<[q := (1, es1' ++ es2')]> Q) b); [|exists (delete n (g_notifies (world m))); gatt_simpl; rewrite W2, <-Hd; by destruct (world m)].
    eapply (database_observe X m _ Q own d d ss q es _ (delete n (g_notifies (world m))) b); [done|done|done|by eapply represents_frame|gatt_simpl; rewrite W2, <-Hd; by destruct (world m)| |done..].
    gatt_simpl. rewrite W2. gatt_simpl. exists (filter (fun t => t <> n) ns). split_and!; [congruence|by apply NoDup_filter|]. intros t [Ht Hin]%list_elem_of_filter.
    destruct (Hns t Hin) as (y & Hy & ?). exists y. gatt_simpl. by rewrite lookup_delete_ne. }
  destruct (n_destroy x).
  - apply call_quiet; [done|]. intros b. eapply Hrest; [by eapply represents_frame|gatt_simpl; by rewrite Hw1].
  - gatt_step. apply (Hrest m1 (g_app (world m))); [done|rewrite Hw1; by destruct (world m)].
Qed.
End Observe.
