(* ===== verification/GattRequests.v ===== *)
(** Reads and writes of attributes: a request waits in a queue of its attribute until it is answered, or is
    served from the stored value. *)

From stdpp Require Import gmap.
From S2P Require Import Prelude Util Alloc Queue QueueSpec QueueMain Uuid GattDb GattAccess GattSpec GattDestroy GattServices GattAttrs.

(** ** Stored values *)

(** The value is of the bytes of its block. *)
Definition value_ok (a : gatt_db_attribute) : Prop :=
  match a_value a with Some v => 0 <= a_value_len a <= zlen v /\ a_value_len a <= UINT16_MAX | None => a_value_len a = 0 end.

Definition bytes_of (a : gatt_db_attribute) : raw := take (Z.to_nat (a_value_len a)) (default [] (a_value a)).

Lemma bytes_of_length a : value_ok a -> a_value_len a = zlen (bytes_of a).
Proof.
  unfold value_ok, bytes_of, zlen. rewrite length_take. destruct (a_value a) as [v|]; cbn; intros Hv; lia.
Qed.

(** What a write of [data] at [offset] leaves: the bytes before the offset, the new ones, and the ones behind
    them that were there.  The length is of 16 bits, so this holds below 64 KiB only. *)
Definition written (a a' : gatt_db_attribute) (offset : Z) (data : bytes) : Prop :=
  value_ok a' /\ a' = set_value (a_value_len a') (a_value a') a /\
  (offset + zlen data <= UINT16_MAX -> exists front, zlen front = offset /\ bytes_of a' = front ++ (Some <$> data) ++ drop (Z.to_nat offset + length data) (bytes_of a) /\
    forall i : nat, Z.of_nat i < offset -> Z.of_nat i < a_value_len a -> front !! i = bytes_of a !! i).

(** The bytes of a block after [memcpy]. *)
Lemma mem_write_parts (b : raw) offset data b' : mem_write b offset (Some <$> data) = Ret b' ->
  0 <= offset /\ offset + zlen data <= zlen b /\ b' = take (Z.to_nat offset) b ++ (Some <$> data) ++ drop (Z.to_nat offset + length data) b.
Proof.
  unfold mem_write. case_match eqn:E; [|done]. intros [= <-]. rewrite !andb_true_iff, !Z.leb_le in E. unfold zlen in *. rewrite length_fmap in *. split_and!; [lia..|done].
Qed.

Lemma written_grow a b offset data v : value_ok a -> 0 <= offset -> a_value_len a < offset + zlen data -> zlen b = zlen data + offset ->
  (forall i : nat, Z.of_nat i < offset -> Z.of_nat i < a_value_len a -> b !! i = default [] (a_value a) !! i) ->
  mem_write b offset (Some <$> data) = Ret v -> written a (set_value (u16 (zlen data + offset)) (Some v) a) offset data.
Proof.
  intros Hok Ho Hlt Hb Hold (_ & _ & ->)%mem_write_parts. set (v := take _ b ++ _).
  assert (zlen v = zlen data + offset) as Hv by (unfold v, zlen in *; rewrite !length_app, length_take, length_fmap, length_drop; lia).
  pose proof (wrap_range 16 (zlen data + offset) ltac:(lia)) as Hr. fold (u16 (zlen data + offset)) in Hr. unfold in_range in Hr. pose proof (zlen_nonneg data) as Hd. split; [|split; [done|]].
  - unfold value_ok. cbn [a_value a_value_len set_value]. rewrite Hv. unfold UINT16_MAX. split; [|lia]. split; [lia|]. unfold u16, wrap. apply Z.mod_le; lia.
  - unfold UINT16_MAX. intros Hmax. exists (take (Z.to_nat offset) b). split; [unfold zlen in *; rewrite length_take; lia|]. split.
    + unfold bytes_of at 1. cbn [a_value a_value_len set_value]. change (default [] (Some v)) with v. rewrite u16_small by lia. rewrite take_ge by (unfold zlen in *; lia). unfold v. do 2 f_equal. rewrite !drop_ge; [done| |].
      * pose proof (bytes_of_length a Hok). unfold zlen in *. lia.
      * unfold zlen in *. lia.
    + intros i Hi Hi'. rewrite lookup_take_lt by lia. rewrite Hold by done. unfold bytes_of. by rewrite lookup_take_lt by lia.
Qed.

Lemma written_inside a b offset data v : value_ok a -> 0 <= offset -> offset + zlen data <= a_value_len a -> a_value a = Some b ->
  mem_write b offset (Some <$> data) = Ret v -> written a (set_value (a_value_len a) (Some v) a) offset data.
Proof.
  intros Hok Ho Hle Hb (_ & _ & ->)%mem_write_parts. set (v := take _ b ++ _). unfold value_ok in Hok. rewrite Hb in Hok.
  assert (zlen v = zlen b) as Hv by (unfold v, zlen in *; rewrite !length_app, length_take, length_fmap, length_drop; lia). split; [|split; [done|]].
  - unfold value_ok. cbn [a_value a_value_len set_value]. rewrite Hv. done.
  - intros _. exists (take (Z.to_nat offset) b). split; [unfold zlen in *; rewrite length_take; lia|]. unfold bytes_of. cbn [a_value a_value_len set_value]. rewrite Hb. change (default [] (Some v)) with v. change (default [] (Some b)) with b. unfold zlen in *. split.
    + unfold v. rewrite take_app_ge by (rewrite length_take; lia). rewrite length_take, take_app_ge by (rewrite length_fmap; lia). rewrite length_fmap, skipn_firstn_comm. do 3 f_equal. lia.
    + intros i Hi Hi'. by rewrite !lookup_take_lt by lia.
Qed.

Section Values.
Context `{!Allocator} {A : Type} {app : App A}.
Abbreviation mem := (Queue.mem (gatt A)).
Implicit Types (m : mem).

Lemma write_value_wp m a offset data (P : option gatt_db_attribute -> mem -> Prop) :
  value_ok a -> 0 <= offset -> 0 < zlen data ->
  (forall m', queues m' = queues m -> cells m' = cells m -> world m' = world m -> refused -> P None m') ->
  (forall m' a', queues m' = queues m -> cells m' = cells m -> world m' = world m -> written a a' offset data -> P (Some a') m') ->
  wp (write_value a offset data) P m.
Proof.
  intros Hok Ho Hd HN HS. unfold write_value. set (grow := match a_value a with None => true | Some _ => _ end).
  assert (if grow then a_value_len a < offset + zlen data else offset + zlen data <= a_value_len a /\ is_Some (a_value a)) as Hgrow.
  { unfold grow, value_ok, UINT16_MAX in *. destruct (a_value a) as [v|]; cbn [default] in *; [|lia]. destruct (Z.leb_spec (a_value_len a) offset); cbn [orb]; [lia|].
    rewrite u32_small by lia. destruct (Z.ltb_spec (a_value_len a - offset) (zlen data)); [lia|]. split; [lia|by eexists]. }
  clearbody grow. destruct grow; gatt_step.
  - gatt_step. intros [] Hb; cbn [negb]; [|gatt_step; apply HN; [done..|by destruct Hb]]. do 2 gatt_step.
    assert (zlen (resize (a_value a) (zlen data + offset)) = zlen data + offset) as Hlen by (unfold resize, zlen in *; rewrite length_take, length_app, length_replicate; lia).
    assert (exists b, zlen b = zlen data + offset /\ (forall i : nat, Z.of_nat i < offset -> Z.of_nat i < a_value_len a -> b !! i = default [] (a_value a) !! i) /\
      forall (P' : raw -> mem -> Prop) m1, P' b m1 -> wp (if a_value_len a =? 0 then lift (mem_write (resize (a_value a) (zlen data + offset)) 0 (replicate (Z.to_nat offset) (Some 0))) else mret (resize (a_value a) (zlen data + offset))) P' m1) as (b & Hbl & Hold & Hstep).
    { destruct (Z.eqb_spec (a_value_len a) 0) as [E|E].
      - eexists. split; [|split]; [| |intros P' m1 HP'; rewrite mem_write_ok; [apply wp_lift; exact HP'|done|unfold zlen in *; rewrite length_replicate; lia]]; [|lia].
        unfold zlen in *. rewrite !length_app, length_take, length_drop, !length_replicate. lia.
      - eexists. split; [exact Hlen|]. split; [|intros; by gatt_step]. intros i Hi Hi'. unfold resize. rewrite lookup_take_lt by lia. rewrite lookup_app_l; [done|].
        unfold value_ok in Hok. unfold zlen in *. destruct (a_value a) as [w|]; [change (default [] (Some w)) with w|]; lia. }
    apply Hstep. gatt_step. repeat gatt_step. assert (exists v, mem_write b offset (Some <$> data) = Ret v) as [v Hv].
    { rewrite mem_write_ok; [by eexists|done|]. unfold zlen in *. rewrite length_fmap. lia. }
    rewrite Hv. repeat gatt_step. apply HS; [done..|]. exact (written_grow a b offset data v Hok Ho Hgrow Hbl Hold Hv).
  - destruct Hgrow as [Hin [b Hb]]. gatt_step. cbn [negb]. do 3 gatt_step. rewrite Hb. repeat gatt_step. assert (exists v, mem_write b offset (Some <$> data) = Ret v) as [v Hv].
    { rewrite mem_write_ok; [by eexists|done|]. unfold value_ok in Hok. rewrite Hb in Hok. unfold zlen in *. rewrite length_fmap. lia. }
    rewrite Hv. repeat gatt_step. apply HS; [done..|]. exact (written_inside a b offset data v Hok Ho Hin Hb Hv).
Qed.
End Values.

(** ** Requests *)

Lemma waiting_add t p l x y : waiting t p l -> t !! x = None -> p_attrib y = p -> waiting (<[x := y]> t) p (l ++ [addr x]).
Proof.
  intros (ps & -> & Hnd & Hps) Hx Hy. assert (forall z, z ∈ ps -> z <> x) as Hne by (intros z Hz ->; destruct (Hps x Hz) as (? & ? & _); congruence).
  exists (ps ++ [x]). split_and!; [by rewrite fmap_app| |].
  - apply NoDup_app. split_and!; [done| |apply NoDup_singleton]. intros z Hz ->%list_elem_of_singleton. by destruct (Hne x Hz).
  - intros z [Hz| ->%list_elem_of_singleton]%elem_of_app; [|exists y; by rewrite lookup_insert_eq]. destruct (Hps z Hz) as (w & Hw & ?). exists w.
    rewrite lookup_insert_ne; [done|]. intros <-. by destruct (Hne _ Hz).
Qed.
Lemma waiting_drop t p ps x l : waiting t p (addr <$> ps) -> l = addr <$> filter (fun z => z <> x) ps -> waiting (delete x t) p l.
Proof.
  intros (ps' & E & Hnd & Hps) ->. apply (inj (fmap addr)) in E as <-. exists (filter (fun z => z <> x) ps). split_and!; [done|by apply NoDup_filter|].
  intros z [Hz Hin]%list_elem_of_filter. destruct (Hps z Hin) as (y & Hy & ?). exists y. by rewrite lookup_delete_ne.
Qed.
Lemma others_add p t x y : t !! x = None -> others p t (<[x := y]> t).
Proof. intros Hx z w Hz _. rewrite lookup_insert_ne; [done|]. intros <-. congruence. Qed.
Lemma others_drop p t x y : t !! x = Some y -> p_attrib y = p -> others p t (delete x t).
Proof. intros Hx Hy z w Hz Hw. rewrite lookup_delete_ne; [done|]. intros <-. congruence. Qed.

Section Requests.
Context `{!Allocator} {A : Type} {app : App A} `{!Polite app}.
Abbreviation mem := (Queue.mem (gatt A)).
Implicit Types (m : mem) (g : gatt A) (own : gmap ptr owner) (Q : gmap ptr (Z * entry_list)).

(** A queue of requests has changed, with the table of requests. *)
Lemma database_pending X m m' Q own d ss q o es es' tr tw b :
  database X m Q own d ss -> own !! q = Some o -> Q !! q = Some (1, es) -> represents X m' (<[q := (1, es')]> Q) ->
  world m' = set_app b (set_reads tr (set_writes tw (world m))) -> queue_ok (world m') ss o es'.*2 ->
  (forall p l, o <> Reads p -> waiting (g_reads (world m)) p l -> waiting tr p l) -> (forall p l, o <> Writes p -> waiting (g_writes (world m)) p l -> waiting tw p l) ->
  database X m' (<[q := (1, es')]> Q) own d ss.
Proof.
  intros [H1 H2 H3 H4 H5 H6 H7 H8 H9 H10 H11] Ho Hq R Hw Hok Hr Hww. split; rewrite ?Hw; try done.
  intros q' o' Ho'. destruct (decide (q' = q)) as [->|Hne].
  - rewrite Ho in Ho'. injection Ho' as <-. exists es'. rewrite lookup_insert_eq, <-Hw. done.
  - destruct (H5 q' o' Ho') as (es0 & ? & Hok'). exists es0. rewrite lookup_insert_ne by done. split; [done|].
    assert (o' <> o) as Hoo by (intros ->; apply Hne; by eapply H6). destruct o'; try done; cbn in *; [apply Hr|apply Hww]; congruence.
Qed.

Lemma database_reads X m m' Q own d ss q p es es' t b :
  database X m Q own d ss -> own !! q = Some (Reads p) -> Q !! q = Some (1, es) -> represents X m' (<[q := (1, es')]> Q) ->
  world m' = set_app b (set_reads t (world m)) -> waiting t p es'.*2 -> others p (g_reads (world m)) t -> database X m' (<[q := (1, es')]> Q) own d ss.
Proof.
  intros D Ho Hq R Hw Ht Hot. eapply (database_pending X m _ Q own d ss q (Reads p) es es' t (g_writes (world m)) b); [done..|by rewrite Hw|by rewrite Hw| |done].
  intros p' l Hp. eapply waiting_others; [|done]. congruence.
Qed.
Lemma database_writes X m m' Q own d ss q p es es' t b :
  database X m Q own d ss -> own !! q = Some (Writes p) -> Q !! q = Some (1, es) -> represents X m' (<[q := (1, es')]> Q) ->
  world m' = set_app b (set_writes t (world m)) -> waiting t p es'.*2 -> others p (g_writes (world m)) t -> database X m' (<[q := (1, es')]> Q) own d ss.
Proof.
  intros D Ho Hq R Hw Ht Hot. eapply (database_pending X m _ Q own d ss q (Writes p) es es' (g_reads (world m)) t b); [done..|by rewrite Hw|by rewrite Hw|done|].
  intros p' l Hp. eapply waiting_others; [|done]. congruence.
Qed.

(** The queues of an attribute in use. *)
Lemma attribute_queues X m Q own d ss s x i a : database X m Q own d ss -> s ∈ ss -> g_services (world m) !! s = Some x -> s_attributes x !! i = Some (Attr a) -> attribute_ok own (s, i) a.
Proof.
  intros D Hs Hx Ha. destruct (db_service _ _ _ _ _ _ D s Hs) as (x' & Hx' & Hok). assert (x' = x) as -> by congruence. destruct (so_slot _ _ _ Hok i _ Ha) as [?|(b & [= <-] & ?)]; done.
Qed.

(** What a request leaves: a new block that waits when the function of the attribute is called, or the same
    database. *)
Lemma attribute_read_wp X m Q own d ss s i x a offset opcode att func ud (P : bool -> mem -> Prop) :
  database X m Q own d ss -> s ∈ ss -> g_services (world m) !! s = Some x -> s_attributes x !! i = Some (Attr a) ->
  match a_read_func a with
  | Some rf => i <> 0%nat /\ forall m' Q' p t b id, id = u32 (a_read_id a + 1) -> g_reads (world m) !! p = None -> database X m' Q' own d ss ->
      world m' = set_app b (set_reads (<[p := mk_pending (s, i) id t func ud]> (g_reads (world m))) (with_service s (put_slot i (set_read_id id a) x) (world m))) -> 
      wp (call (ReadFunc rf (s, i) id offset opcode att (a_user_data a))) (fun _ => P true) m'
  | None => value_ok a /\ 0 <= offset /\ forall m' b, database X m' Q own d ss -> world m' = set_app b (world m) -> P true m'
  end -> wp (gatt_db_attribute_read (Some (s, i)) offset opcode att (Some func) ud) P m.
Proof.
  intros D Hs Hx Ha HP. pose proof (db_rep _ _ _ _ _ _ D) as R. destruct (attribute_queues _ _ _ _ _ _ _ _ _ _ D Hs Hx Ha) as (qr & qw & Har & Hor & _ & _).
  destruct (db_queue _ _ _ _ _ _ D qr _ Hor) as (es & HQ & Hes). assert (i < length (s_attributes x))%nat as Hi by (by eapply lookup_lt_Some).
  unfold gatt_db_attribute_read. gatt_step. eapply wp_load_attr; [done..|]. destruct (a_read_func a) as [rf|].
  - destruct HP as [Hi0 HP]. do 2 gatt_step. intros p Hp%not_elem_of_dom. gatt_step. eapply wp_update_attr; [done..|]. gatt_simpl. set (id := u32 (a_read_id a + 1)). fold (put_slot i (set_read_id id a) x).
    do 3 gatt_step. apply timeout_add_quiet. intros t b. gatt_simpl. do 3 gatt_step. rewrite insert_insert_eq.
    eapply (wp_load_attr s i (put_slot i (set_read_id id a) x)); [gatt_simpl; by rewrite lookup_insert_eq|by apply put_slot_here|]. gatt_simpl. rewrite Har. gatt_step.
    eapply push_tail_wp; [eapply represents_frame; [exact R|done|done]|done|]. intros e m1 R1 W1. gatt_step.
    eapply (wp_load_attr s i (put_slot i (set_read_id id a) x)); [rewrite W1; gatt_simpl; by rewrite lookup_insert_eq|by apply put_slot_here|]. gatt_step. eapply wp_mono; [|intros u m' HP'; gatt_step; exact HP']. cbv beta.
    set (y := mk_pending (s, i) id t func ud) in *. set (m2 := with_gatt (with_service s (put_slot i (set_read_id id a) x) (world m)) m).
    assert (database X m2 Q own d ss) as D2 by (eapply (database_retouch X m _ Q own d ss s x i a (set_read_id id a)); [done|done|done|done|done|done|by eapply represents_frame|done]).
    eapply (HP _ (<[qr := (1, es ++ [(e, addr p)])]> Q) p t b id); [done|done| |gatt_simpl; by rewrite W1].
    eapply (database_reads X m2 _ Q own d ss qr (s, i) es _ (<[p := y]> (g_reads (world m))) b); [done|done|done|done|gatt_simpl; by rewrite W1| |by apply others_add].
    rewrite fmap_app. by apply waiting_add.
  - destruct HP as (Hok & Ho & HP). assert (forall b, P true (with_gatt (set_app b (world m)) m)) as Hend.
    { intros b. eapply (HP _ b); [|done]. eapply database_app; [done|by eapply represents_frame|done]. }
    destruct (Z.ltb_spec (a_value_len a) offset); [gatt_step; apply call_quiet; [done|]; intros b; by gatt_step|]. gatt_step. unfold value_ok in Hok. destruct (Z.eqb_spec offset (a_value_len a)) as [E|E].
    + gatt_step. gatt_step. apply call_quiet; [done|]. intros b. by gatt_step.
    + destruct (a_value a) as [v|]; [|lia]. do 3 gatt_step. rewrite mem_read_ok by lia. do 3 gatt_step. apply call_quiet; [done|]. intros b. by gatt_step.
Qed.

(** A write of an attribute without a function stores the bytes. *)
Lemma attribute_write_wp X m Q own d ss s i x a offset data opcode att func ud (P : bool -> mem -> Prop) :
  database X m Q own d ss -> s ∈ ss -> g_services (world m) !! s = Some x -> s_attributes x !! i = Some (Attr a) -> i <> 0%nat ->
  match a_write_func a with
  | Some wf => forall m' Q' p t b id, id = u32 (a_write_id a + 1) -> g_writes (world m) !! p = None -> database X m' Q' own d ss ->
      world m' = set_app b (set_writes (<[p := mk_pending (s, i) id t func ud]> (g_writes (world m))) (with_service s (put_slot i (set_write_id id a) x) (world m))) -> 
      wp (call (WriteFunc wf (s, i) id offset data (zlen data) opcode att (a_user_data a))) (fun _ => P true) m'
  | None => value_ok a /\ 0 <= offset /\
      (forall m' b, zlen data = 0 -> database X m' Q own d ss -> world m' = set_app b (world m) -> P true m') /\
      (forall m', refused -> database X m' Q own d ss -> world m' = world m -> P false m') /\
      (forall m' b a', 0 < zlen data -> written a a' offset data -> database X m' Q own d ss ->
        world m' = set_app b (with_service s (put_slot i a' x) (world m)) -> P true m')
  end -> wp (gatt_db_attribute_write (Some (s, i)) offset data opcode att (Some func) ud) P m.
Proof.
  intros D Hs Hx Ha Hi0 HP. pose proof (db_rep _ _ _ _ _ _ D) as R. destruct (attribute_queues _ _ _ _ _ _ _ _ _ _ D Hs Hx Ha) as (qr & qw & _ & _ & Haw & How).
  destruct (db_queue _ _ _ _ _ _ D qw _ How) as (es & HQ & Hes). assert (i < length (s_attributes x))%nat as Hi by (by eapply lookup_lt_Some).
  unfold gatt_db_attribute_write. gatt_step. eapply wp_load_attr; [done..|]. destruct (a_write_func a) as [wf|].
  - do 2 gatt_step. intros p Hp%not_elem_of_dom. gatt_step. eapply wp_update_attr; [done..|]. gatt_simpl. set (id := u32 (a_write_id a + 1)). fold (put_slot i (set_write_id id a) x).
    do 3 gatt_step. apply timeout_add_quiet. intros t b. gatt_simpl. do 3 gatt_step. rewrite insert_insert_eq.
    eapply (wp_load_attr s i (put_slot i (set_write_id id a) x)); [gatt_simpl; by rewrite lookup_insert_eq|by apply put_slot_here|]. gatt_simpl. rewrite Haw. gatt_step.
    eapply push_tail_wp; [eapply represents_frame; [exact R|done|done]|done|]. intros e m1 R1 W1. gatt_step.
    eapply (wp_load_attr s i (put_slot i (set_write_id id a) x)); [rewrite W1; gatt_simpl; by rewrite lookup_insert_eq|by apply put_slot_here|]. gatt_step. eapply wp_mono; [|intros u m' HP'; gatt_step; exact HP']. cbv beta.
    set (y := mk_pending (s, i) id t func ud) in *. set (m2 := with_gatt (with_service s (put_slot i (set_write_id id a) x) (world m)) m).
    assert (database X m2 Q own d ss) as D2 by (eapply (database_retouch X m _ Q own d ss s x i a (set_write_id id a)); [done|done|done|done|done|done|by eapply represents_frame|done]).
    eapply (HP _ (<[qw := (1, es ++ [(e, addr p)])]> Q) p t b id); [done|done| |gatt_simpl; by rewrite W1].
    eapply (database_writes X m2 _ Q own d ss qw (s, i) es _ (<[p := y]> (g_writes (world m))) b); [done|done|done|done|gatt_simpl; by rewrite W1| |by apply others_add].
    rewrite fmap_app. by apply waiting_add.
  - destruct HP as (Hok & Ho & Hempty & Href & HP). pose proof (zlen_nonneg data) as Hnn. destruct (Z.eqb_spec (zlen data) 0) as [E|E].
    { gatt_step. apply call_quiet; [done|]. intros b. gatt_step. eapply (Hempty _ b); [done| |done]. eapply database_app; [done|by eapply represents_frame|done]. }
    gatt_step. eapply write_value_wp; [done|done|lia|..].
    + intros m1 E1 E2 W1 Hr. gatt_step. apply Href; [done| |done]. eapply database_move; [done|by eapply represents_frame|done].
    + intros m1 a' E1 E2 W1 Hv. gatt_step. eapply wp_update_attr; [by rewrite W1|done|]. gatt_step. apply call_quiet; [done|]. intros b. gatt_step. rewrite W1. gatt_simpl.
      fold (put_slot i a' x). assert (represents X m1 Q) as R1 by (by eapply represents_frame). eapply (HP _ b a'); [lia|done| |done]. destruct Hv as (_ & Ha' & _).
      eapply (database_app X (with_gatt (with_service s (put_slot i a' x) (world m)) m1)); [|by eapply represents_frame|done].
      eapply (database_retouch X m _ Q own d ss s x i a a'); [done|done|done|done|by rewrite Ha'|by rewrite Ha'|by eapply represents_frame|done].
Qed.

Lemma reset_wp X m Q own d ss s i x a (P : bool -> mem -> Prop) :
  database X m Q own d ss -> g_services (world m) !! s = Some x -> s_attributes x !! i = Some (Attr a) -> i <> 0%nat -> value_ok a ->
  P true m ->
  (forall m', database X m' Q own d ss -> world m' = with_service s (put_slot i (set_value 0 None a) x) (world m) -> P true m') ->
  wp (gatt_db_attribute_reset (Some (s, i))) P m.
Proof.
  intros D Hx Ha Hi0 Hok HP0 HP. pose proof (db_rep _ _ _ _ _ _ D) as R. unfold gatt_db_attribute_reset. gatt_step. eapply wp_load_attr; [done..|]. unfold value_ok in Hok.
  destruct (a_value a) as [v|]; [|by gatt_step]. destruct (Z.eqb_spec (a_value_len a) 0); [by gatt_step|]. gatt_step. eapply wp_update_attr; [done..|]. gatt_step. apply HP; [|done].
  eapply (database_retouch X m _ Q own d ss s x i a (set_value 0 None a)); [done|done|done|done|done|done|by eapply represents_frame|done].
Qed.

(** ** Answers *)

Definition is_request (t : gmap ptr pending) (id z : Z) : bool := match of_addr z with Ret p => match t !! p with Some y => p_id y =? id | None => false end | _ => false end.

Lemma find_read_run m id (p : ptr) y : g_reads (world m) !! p = Some y -> find_pending_read (addr p) id m = Ret (is_request (g_reads (world m)) id (addr p), m).
Proof.
  intros Hp. unfold find_pending_read, is_request. rewrite (bind_run _ _ _ _ _ (at_addr_run p m)), of_addr_addr, Hp. rewrite (bind_run _ _ _ y m); [done|]. unfold load_read, fetch. by rewrite Hp.
Qed.
Lemma find_write_run m id (p : ptr) y : g_writes (world m) !! p = Some y -> find_pending_write (addr p) id m = Ret (is_request (g_writes (world m)) id (addr p), m).
Proof.
  intros Hp. unfold find_pending_write, is_request. rewrite (bind_run _ _ _ _ _ (at_addr_run p m)), of_addr_addr, Hp. rewrite (bind_run _ _ _ y m); [done|]. unfold load_write, fetch. by rewrite Hp.
Qed.

(** The entry of a request among those of its queue. *)
Lemma break_request t p (es es1 es2 : entry_list) e z f : waiting t p es.*2 -> break f es = (es1, (e, z) :: es2) ->
  exists n y, z = addr n /\ t !! n = Some y /\ p_attrib y = p /\ waiting (delete n t) p (es1 ++ es2).*2 /\ others p t (delete n t).
Proof.
  intros Hw Hb. pose proof (break_app f es) as Happ. rewrite Hb in Happ. cbn [fst snd] in Happ. destruct Hw as (ps & Hes & Hnd & Hps). rewrite Happ, fmap_app in Hes. cbn in Hes.
  apply eq_sym, fmap_split in Hes as (l1 & n & l2 & -> & E1 & -> & E2). destruct (Hps n ltac:(set_solver)) as (y & Hy & Hp). exists n, y. split_and!; [done..| |by eapply others_drop].
  assert (n ∉ l1 ++ l2 /\ NoDup (l1 ++ l2)) as [Hn Hnd'] by (by apply NoDup_cons; rewrite Permutation_middle).
  exists (l1 ++ l2). rewrite fmap_app, E1, E2, fmap_app. split_and!; [done|done|]. intros k Hk. destruct (Hps k ltac:(set_solver)) as (w & ? & ?). exists w. rewrite lookup_delete_ne; [done|]. by intros <-.
Qed.

Lemma read_result_wp X m Q own d ss s i x a id err value len (P : bool -> mem -> Prop) :
  database X m Q own d ss -> s ∈ ss -> g_services (world m) !! s = Some x -> s_attributes x !! i = Some (Attr a) -> P false m ->
  (forall m' Q' n y b, g_reads (world m) !! n = Some y -> p_attrib y = (s, i) -> p_id y = id -> database X m' Q' own d ss ->
    world m' = set_app b (set_reads (delete n (g_reads (world m))) (world m)) -> P true m') ->
  wp (gatt_db_attribute_read_result (Some (s, i)) id err value len) P m.
Proof.
  intros D Hs Hx Ha HF HP. pose proof (db_rep _ _ _ _ _ _ D) as R. destruct (attribute_queues _ _ _ _ _ _ _ _ _ _ D Hs Hx Ha) as (qr & qw & Har & Hor & _ & _).
  destruct (db_queue _ _ _ _ _ _ D qr _ Hor) as (es & HQ & Hes). unfold gatt_db_attribute_read_result. destruct (id =? 0); [by gatt_step|]. gatt_step. eapply wp_load_attr; [done..|].
  rewrite Har. gatt_step. eapply (remove_if_wp m Q qr 1 es _ _ (is_request (g_reads (world m)) id)); [done|done| |].
  { intros z Hz. destruct Hes as (ps & Hes & _ & Hps). rewrite Hes in Hz. apply list_elem_of_fmap in Hz as (n & -> & Hn). destruct (Hps n Hn) as (y & Hy & _). by eapply find_read_run. }
  pose proof (break_hit (is_request (g_reads (world m)) id) es) as Hhit. destruct (break _ es) as [es1 [|[e z] es2]] eqn:Eb; [change (0 =? 0) with true; cbv iota; by gatt_step|]. cbn in Hhit.
  destruct (break_request _ _ _ _ _ _ _ _ Hes Eb) as (n & y & -> & Hy & Hpy & Hw' & Hot). intros m1 R1 W1. rewrite addr_not_null. do 2 gatt_step. gatt_step. eapply pending_read_result_wp; [by rewrite W1|].
  intros b. gatt_step. unfold is_request in Hhit. rewrite of_addr_addr, Hy in Hhit. eapply (HP _ (<[qr := (1, es1 ++ es2)]> Q) n y b); [done|done|lia| |gatt_simpl; by rewrite W1].
  eapply (database_reads X m _ Q own d ss qr (s, i) es _ (delete n (g_reads (world m))) b); [done|done|done|by eapply represents_frame|gatt_simpl; by rewrite W1|done|done].
Qed.

Lemma write_result_wp X m Q own d ss s i x a id err (P : bool -> mem -> Prop) :
  database X m Q own d ss -> s ∈ ss -> g_services (world m) !! s = Some x -> s_attributes x !! i = Some (Attr a) -> P false m ->
  (forall m' Q' n y b, g_writes (world m) !! n = Some y -> p_attrib y = (s, i) -> p_id y = id -> database X m' Q' own d ss ->
    world m' = set_app b (set_writes (delete n (g_writes (world m))) (world m)) -> P true m') ->
  wp (gatt_db_attribute_write_result (Some (s, i)) id err) P m.
Proof.
  intros D Hs Hx Ha HF HP. pose proof (db_rep _ _ _ _ _ _ D) as R. destruct (attribute_queues _ _ _ _ _ _ _ _ _ _ D Hs Hx Ha) as (qr & qw & _ & _ & Haw & How).
  destruct (db_queue _ _ _ _ _ _ D qw _ How) as (es & HQ & Hes). unfold gatt_db_attribute_write_result. destruct (id =? 0); [by gatt_step|]. gatt_step. eapply wp_load_attr; [done..|].
  rewrite Haw. gatt_step. eapply (remove_if_wp m Q qw 1 es _ _ (is_request (g_writes (world m)) id)); [done|done| |].
  { intros z Hz. destruct Hes as (ps & Hes & _ & Hps). rewrite Hes in Hz. apply list_elem_of_fmap in Hz as (n & -> & Hn). destruct (Hps n Hn) as (y & Hy & _). by eapply find_write_run. }
  pose proof (break_hit (is_request (g_writes (world m)) id) es) as Hhit. destruct (break _ es) as [es1 [|[e z] es2]] eqn:Eb; [change (0 =? 0) with true; cbv iota; by gatt_step|]. cbn in Hhit.
  destruct (break_request _ _ _ _ _ _ _ _ Hes Eb) as (n & y & -> & Hy & Hpy & Hw' & Hot). intros m1 R1 W1. rewrite addr_not_null. do 2 gatt_step. gatt_step. eapply pending_write_result_wp; [by rewrite W1|].
  intros b. gatt_step. unfold is_request in Hhit. rewrite of_addr_addr, Hy in Hhit. eapply (HP _ (<[qw := (1, es1 ++ es2)]> Q) n y b); [done|done|lia| |gatt_simpl; by rewrite W1].
  eapply (database_writes X m _ Q own d ss qw (s, i) es _ (delete n (g_writes (world m))) b); [done|done|done|by eapply represents_frame|gatt_simpl; by rewrite W1|done|done].
Qed.

Lemma read_timeout_wp X m Q own d ss s i x a n y (P : bool -> mem -> Prop) :
  database X m Q own d ss -> s ∈ ss -> g_services (world m) !! s = Some x -> s_attributes x !! i = Some (Attr a) ->
  g_reads (world m) !! n = Some y -> p_attrib y = (s, i) ->
  (forall m' Q' b, database X m' Q' own d ss -> world m' = set_app b (set_reads (delete n (g_reads (world m))) (world m)) -> P false m') ->
  wp (read_timeout n) P m.
Proof.
  intros D Hs Hx Ha Hy Hpy HP. pose proof (db_rep _ _ _ _ _ _ D) as R. destruct (attribute_queues _ _ _ _ _ _ _ _ _ _ D Hs Hx Ha) as (qr & qw & Har & Hor & Haw & How).
  destruct (db_queue _ _ _ _ _ _ D qr _ Hor) as (es & HQ & Hes). unfold read_timeout. gatt_step. unfold load_read. eapply wp_fetch; [done|]. do 3 gatt_step. rewrite Hpy. eapply wp_load_attr; [gatt_simpl; done..|].
  rewrite Har. gatt_step. eapply remove_wp; [eapply represents_frame; [exact R|done|done]|done|].
  assert (forall m1 es', represents X m1 (<[qr := (1, es')]> Q) -> world m1 = set_reads (<[n := set_timeout 0 y]> (g_reads (world m))) (world m) -> waiting (delete n (g_reads (world m))) (s, i) es'.*2 ->
    wp (_ ← pending_read_result n (- ETIMEDOUT) None 0; mret false) P m1) as Hrest.
  { intros m1 es' R1 W1 Hw1. gatt_step. eapply pending_read_result_wp; [rewrite W1; gatt_simpl; by rewrite lookup_insert_eq|]. intros b. gatt_step. rewrite W1. gatt_simpl. rewrite delete_insert_eq.
    eapply (HP _ (<[qr := (1, es')]> Q) b); [|done].
    eapply (database_reads X m _ Q own d ss qr (s, i) es _ (delete n (g_reads (world m))) b); [done|done|done|by eapply represents_frame|done|done|by eapply others_drop]. }
  destruct (break _ es) as [es1 [|[e z] es2]] eqn:Eb.
  - apply (Hrest _ es); [rewrite (insert_id Q) by done; by eapply represents_frame|done|]. pose proof (break_miss (fun d => d =? addr n) es) as Hmiss. pose proof (break_app (fun d => d =? addr n) es) as Happ.
    rewrite Eb in Hmiss, Happ. cbn in Hmiss, Happ. rewrite app_nil_r in Happ. subst es1. destruct Hes as (ps & Hes & Hnd & Hps). exists ps. split_and!; [done..|]. intros k Hk. destruct (Hps k Hk) as (w & Hw & ?). exists w.
    rewrite lookup_delete_ne; [done|]. intros <-. assert (addr n ∈ es.*2) as Hin by (rewrite Hes; by apply list_elem_of_fmap_2). apply list_elem_of_fmap in Hin as (c & Hc & Hin).
    rewrite Forall_forall in Hmiss. specialize (Hmiss c Hin). rewrite <-Hc, Z.eqb_refl in Hmiss. done.
  - intros m1 R1 W1. destruct (break_request _ _ _ _ _ _ _ _ Hes Eb) as (n' & y' & -> & _ & _ & Hw' & _). pose proof (break_hit (fun d => d =? addr n) es) as Hhit. rewrite Eb in Hhit. cbn in Hhit.
    apply Z.eqb_eq, addr_inj in Hhit as ->. by eapply Hrest.
Qed.

Lemma write_timeout_wp X m Q own d ss s i x a n y (P : bool -> mem -> Prop) :
  database X m Q own d ss -> s ∈ ss -> g_services (world m) !! s = Some x -> s_attributes x !! i = Some (Attr a) ->
  g_writes (world m) !! n = Some y -> p_attrib y = (s, i) ->
  (forall m' Q' b, database X m' Q' own d ss -> world m' = set_app b (set_writes (delete n (g_writes (world m))) (world m)) -> P false m') ->
  wp (write_timeout n) P m.
Proof.
  intros D Hs Hx Ha Hy Hpy HP. pose proof (db_rep _ _ _ _ _ _ D) as R. destruct (attribute_queues _ _ _ _ _ _ _ _ _ _ D Hs Hx Ha) as (qr & qw & Har & Hor & Haw & How).
  destruct (db_queue _ _ _ _ _ _ D qw _ How) as (es & HQ & Hes). unfold write_timeout. gatt_step. unfold load_write. eapply wp_fetch; [done|]. do 3 gatt_step. rewrite Hpy. eapply wp_load_attr; [gatt_simpl; done..|].
  rewrite Haw. gatt_step. eapply remove_wp; [eapply represents_frame; [exact R|done|done]|done|].
  assert (forall m1 es', represents X m1 (<[qw := (1, es')]> Q) -> world m1 = set_writes (<[n := set_timeout 0 y]> (g_writes (world m))) (world m) -> waiting (delete n (g_writes (world m))) (s, i) es'.*2 ->
    wp (_ ← pending_write_result n (- ETIMEDOUT); mret false) P m1) as Hrest.
  { intros m1 es' R1 W1 Hw1. gatt_step. eapply pending_write_result_wp; [rewrite W1; gatt_simpl; by rewrite lookup_insert_eq|]. intros b. gatt_step. rewrite W1. gatt_simpl. rewrite delete_insert_eq.
    eapply (HP _ (<[qw := (1, es')]> Q) b); [|done].
    eapply (database_writes X m _ Q own d ss qw (s, i) es _ (delete n (g_writes (world m))) b); [done|done|done|by eapply represents_frame|done|done|by eapply others_drop]. }
  destruct (break _ es) as [es1 [|[e z] es2]] eqn:Eb.
  - apply (Hrest _ es); [rewrite (insert_id Q) by done; by eapply represents_frame|done|]. pose proof (break_miss (fun d => d =? addr n) es) as Hmiss. pose proof (break_app (fun d => d =? addr n) es) as Happ.
    rewrite Eb in Hmiss, Happ. cbn in Hmiss, Happ. rewrite app_nil_r in Happ. subst es1. destruct Hes as (ps & Hes & Hnd & Hps). exists ps. split_and!; [done..|]. intros k Hk. destruct (Hps k Hk) as (w & Hw & ?). exists w.
    rewrite lookup_delete_ne; [done|]. intros <-. assert (addr n ∈ es.*2) as Hin by (rewrite Hes; by apply list_elem_of_fmap_2). apply list_elem_of_fmap in Hin as (c & Hc & Hin).
    rewrite Forall_forall in Hmiss. specialize (Hmiss c Hin). rewrite <-Hc, Z.eqb_refl in Hmiss. done.
  - intros m1 R1 W1. destruct (break_request _ _ _ _ _ _ _ _ Hes Eb) as (n' & y' & -> & _ & _ & Hw' & _). pose proof (break_hit (fun d => d =? addr n) es) as Hhit. rewrite Eb in Hhit. cbn in Hhit.
    apply Z.eqb_eq, addr_inj in Hhit as ->. by eapply Hrest.
Qed.
End Requests.
