(* ===== verification/GattMain.v ===== *)
(** The attribute database under any sequence of its operations. *)

From stdpp Require Import gmap.
From Stdlib Require Import Sorted.
From S2P Require Import Prelude Util Alloc Queue QueueSpec QueueMain Uuid GattDb GattAccess GattSpec GattDestroy GattServices GattAttrs GattFind GattObserve GattRequests.

(** ** Sound databases *)

(** A service as the operations leave it. *)
Record regular (x : gatt_db_service) : Prop := {
  reg_packed : exists k, packed k x;
  reg_rising : rising x;
  reg_values i a : s_attributes x !! i = Some (Attr a) -> value_ok a
}.

(** An attribute that keeps its handle. *)
Lemma regular_retouch x i a a' : regular x -> s_attributes x !! i = Some (Attr a) -> i <> 0%nat -> a_handle a' = a_handle a -> value_ok a' -> regular (put_slot i a' x).
Proof.
  intros [(k & Hk & Hp) [Hr1 Hr2] Hv] Ha Hi E Hok. assert (i < length (s_attributes x))%nat as Hlt by (by eapply lookup_lt_Some).
  assert (forall j b, s_attributes (put_slot i a' x) !! j = Some (Attr b) -> exists c, s_attributes x !! j = Some (Attr c) /\ a_handle b = a_handle c /\ value_ok b) as Hold.
  { intros j b Hb. cbn in Hb. apply list_lookup_insert_Some in Hb as [(<- & [= <-] & _)|[_ Hb]]; [by exists a|]. exists b. split_and!; [done|done|by eapply Hv]. }
  split.
  - exists k. split; [cbn; by rewrite length_insert|]. intros j v Hj. cbn in Hj. apply list_lookup_insert_Some in Hj as [(<- & <- & _)|[_ Hj]]; [|by apply Hp].
    specialize (Hp i _ Ha). destruct (decide (i < k)%nat); [by exists a'|done].
  - split; [intros j l b c (b' & Hb & -> & _)%Hold (c' & Hc & -> & _)%Hold; by apply Hr1|]. intros j b (b' & Hb & -> & _)%Hold. rewrite first_put, last_put by done. by eapply Hr2.
  - intros j b (_ & _ & _ & ?)%Hold. done.
Qed.

Section Sound.
Context `{!Allocator} {A : Type} {app : App A} `{!Polite app} (fuel : nat).
Abbreviation mem := (Queue.mem (gatt A)).
Implicit Types (m : mem) (g : gatt A) (own : gmap ptr owner) (Q : gmap ptr (Z * entry_list)).

Definition next_ok g (d : gatt_db) (ss : list ptr) : Prop :=
  is_u16 (d_next_handle d) /\ (d_next_handle d = 0 \/ forall s, s ∈ ss -> (range g s).2 < d_next_handle d).

(** The services [ss] in the order of their ranges, all of them listed; the next handle is above them, or 0. *)
Record sound m Q own (d : gatt_db) (ss : list ptr) : Prop := {
  sound_db : database ∅ m Q own d ss;
  sound_order : ordered (world m) ss;
  sound_next : next_ok (world m) d ss;
  sound_listed s x : g_services (world m) !! s = Some x -> s ∈ ss /\ regular x
}.
Definition consistent m : Prop := exists Q own d ss, sound m Q own d ss.

(** Nothing about the list or the handles of services has changed. *)
Lemma sound_same_at m m' Q Q' own own' d d' ss :
  sound m Q own d ss -> database ∅ m' Q' own' d' ss -> d_next_handle d' = d_next_handle d ->
  (forall s x', g_services (world m') !! s = Some x' -> exists x, g_services (world m) !! s = Some x /\ first_handle x' = first_handle x /\ last_handle x' = last_handle x /\ regular x') ->
  sound m' Q' own' d' ss.
Proof.
  intros [D Ho [Hn Hn'] Hl] D' Hd Hs. assert (forall s, s ∈ ss -> range (world m') s = range (world m) s) as Hr.
  { intros s Hin. destruct (db_service _ _ _ _ _ _ D' s Hin) as (x' & Hx' & _). destruct (Hs s x' Hx') as (x & Hx & E1 & E2 & _). unfold range. by rewrite Hx, Hx', E1, E2. }
  split; [done|by eapply ordered_same| |].
  - unfold next_ok. rewrite Hd. split; [done|]. destruct Hn' as [?|Hn']; [by left|right]. intros s Hin. rewrite Hr by done. by apply Hn'.
  - intros s x' Hx'. destruct (Hs s x' Hx') as (x & Hx & _ & _ & ?). split; [by eapply Hl|done].
Qed.

(** One service has changed. *)
Lemma sound_service_at m m' Q Q' own own' d ss s x x' b :
  sound m Q own d ss -> database ∅ m' Q' own' d ss -> g_services (world m) !! s = Some x -> g_services (world m') = g_services (set_app b (with_service s x' (world m))) ->
  first_handle x' = first_handle x -> last_handle x' = last_handle x -> regular x' -> sound m' Q' own' d ss.
Proof.
  intros S D' Hx Hw E1 E2 Hr. eapply (sound_same_at m); [done..|]. rewrite Hw. unfold with_service. gatt_simpl. intros t y [[<- <-]|[Hne Hy]]%lookup_insert_Some; [by exists x|].
  exists y. split_and!; [done..|]. by eapply (sound_listed _ _ _ _ _ S).
Qed.

(** ** Databases under any calls *)

(** A service as any calls leave it, whatever handles they give: the attributes are in the first slots. *)
Record tidy (x : gatt_db_service) : Prop := {
  tidy_packed : exists k, packed k x;
  tidy_values i a : s_attributes x !! i = Some (Attr a) -> value_ok a
}.

Lemma tidy_put k x a : tidy x -> packed k x -> (k < length (s_attributes x))%nat -> value_ok a -> tidy (put_slot k a x).
Proof.
  intros [_ Hv] Hp Hlt Hok. split; [exists (S k); by apply packed_put|]. intros i b Hb. cbn in Hb.
  apply list_lookup_insert_Some in Hb as [(_ & [= <-] & _)|[_ Hb]]; [done|by eapply Hv].
Qed.

Lemma tidy_retouch x i a a' : tidy x -> s_attributes x !! i = Some (Attr a) -> value_ok a' -> tidy (put_slot i a' x).
Proof.
  intros [(k & Hk & Hp) Hv] Ha Hok. split.
  - exists k. split; [cbn; by rewrite length_insert|]. intros j v Hj. cbn in Hj. apply list_lookup_insert_Some in Hj as [(<- & <- & _)|[_ Hj]]; [|by apply Hp].
    specialize (Hp i _ Ha). destruct (decide (i < k)%nat); [by exists a'|done].
  - intros j b Hb. cbn in Hb. apply list_lookup_insert_Some in Hb as [(_ & [= <-] & _)|[_ Hb]]; [done|by eapply Hv].
Qed.

Lemma tidy_flag x x' : s_attributes x' = s_attributes x -> tidy x -> tidy x'.
Proof. intros Ea [(k & Hk & Hp) Hv]. split; [exists k; unfold packed|]; by rewrite Ea. Qed.

(** Every service is listed and tidy, and the next handle is one of 16 bits. *)
Record intact m Q own (d : gatt_db) (ss : list ptr) : Prop := {
  in_db : database ∅ m Q own d ss;
  in_next : is_u16 (d_next_handle d);
  in_listed s x : g_services (world m) !! s = Some x -> s ∈ ss /\ tidy x
}.

Lemma intact_service m Q own d ss s x : intact m Q own d ss -> g_services (world m) !! s = Some x -> s ∈ ss /\ tidy x /\ service_ok own s x.
Proof.
  intros I Hx. destruct (in_listed _ _ _ _ _ I s x Hx) as [Hs Ht]. destruct (db_service _ _ _ _ _ _ (in_db _ _ _ _ _ I) s Hs) as (x' & Hx' & Hok).
  assert (x' = x) as -> by congruence. done.
Qed.

(** ** Handles that the database gives *)

(** The attributes have the handles that follow the first one. *)
Definition numbered (x : gatt_db_service) : Prop := forall i a, s_attributes x !! i = Some (Attr a) -> a_handle a = first_handle x + Z.of_nat i.

(** The services in the order of their ranges, below the next handle, and their attributes in theirs. *)
Record layout g (d : gatt_db) (ss : list ptr) : Prop := {
  lay_order : ordered g ss;
  lay_next : next_ok g d ss;
  lay_numbered s x : g_services g !! s = Some x -> numbered x
}.

Lemma numbered_put x i a : numbered x -> i <> 0%nat -> a_handle a = first_handle x + Z.of_nat i -> numbered (put_slot i a x).
Proof.
  intros Hn Hi Ha j b Hb. rewrite first_put by done. cbn in Hb. apply list_lookup_insert_Some in Hb as [(<- & [= <-] & _)|[_ Hb]]; [done|by apply Hn].
Qed.

(** The next handle of a service with room for it. *)
Lemma numbered_next own s x k size : service_ok own s x -> numbered x -> packed k x -> 1 <= size -> Z.of_nat k + size <= s_num_handles x ->
  u16 (handle_before k x + size) = first_handle x + Z.of_nat k + size - 1.
Proof.
  intros Hok Hn Hp Hs Hroom. destruct Hok as [_ _ Hf Hl _]. destruct (packed_filled k x (Nat.pred k) Hp) as [b Hb]; [destruct Hp; lia|]. unfold handle_before. rewrite Hb, (Hn _ _ Hb).
  unfold last_handle, UINT16_MAX in Hl. destruct Hp as [Hk _]. rewrite u16_small; lia.
Qed.

Lemma numbered_rising own s x : service_ok own s x -> numbered x -> rising x.
Proof.
  intros Hok Hn. split.
  - intros i j a b Ha Hb Hlt. rewrite (Hn _ _ Ha), (Hn _ _ Hb). lia.
  - intros i a Ha. rewrite (Hn _ _ Ha). pose proof (lookup_lt_Some _ _ _ Ha) as Hlt. unfold last_handle. rewrite (so_size _ _ _ Hok). unfold zlen. lia.
Qed.

Lemma intact_sound m Q own d ss : intact m Q own d ss -> layout (world m) d ss -> sound m Q own d ss.
Proof.
  intros I [Lo Ln Lh]. split; [apply I|done|done|]. intros s x Hx. destruct (intact_service _ _ _ _ _ _ _ I Hx) as (Hs & [Hp Hv] & Hok). split; [done|].
  split; [done|by eapply numbered_rising, Lh|done].
Qed.

(** What an operation leaves, and that it keeps the handles in order if [given] holds. *)
Definition leads (given : Prop) m (d : gatt_db) (ss : list ptr) m' Q' own' d' ss' : Prop :=
  intact m' Q' own' d' ss' /\ (given -> layout (world m) d ss -> layout (world m') d' ss').
Definition becomes (given : Prop) m (d : gatt_db) (ss : list ptr) m' : Prop := exists Q' own' d' ss', leads given m d ss m' Q' own' d' ss'.

(** Services that keep their handles. *)
Lemma leads_same given m m' Q Q' own own' d d' ss :
  intact m Q own d ss -> database ∅ m' Q' own' d' ss -> d_next_handle d' = d_next_handle d ->
  (forall s x', g_services (world m') !! s = Some x' -> exists x, g_services (world m) !! s = Some x /\ first_handle x' = first_handle x /\ last_handle x' = last_handle x /\
    tidy x' /\ (given -> numbered x -> numbered x')) -> leads given m d ss m' Q' own' d' ss.
Proof.
  intros I D' Hd Hs. split.
  - split; [done|rewrite Hd; apply I|]. intros s x' Hx'. destruct (Hs s x' Hx') as (x & Hx & _ & _ & Ht & _). split; [|done]. by eapply (in_listed _ _ _ _ _ I).
  - intros Hg [Lo [Ln Ln'] Lh]. assert (forall s, s ∈ ss -> range (world m') s = range (world m) s) as Hr.
    { intros s Hin. destruct (db_service _ _ _ _ _ _ D' s Hin) as (x' & Hx' & _). destruct (Hs s x' Hx') as (x & Hx & E1 & E2 & _). unfold range. by rewrite Hx, Hx', E1, E2. }
    split; [by eapply ordered_same| |].
    + unfold next_ok. rewrite Hd. split; [done|]. destruct Ln' as [?|Ln']; [by left|right]. intros s Hin. rewrite Hr by done. by apply Ln'.
    + intros s x' Hx'. destruct (Hs s x' Hx') as (x & Hx & _ & _ & _ & Hn). eapply Hn; [done|]. by eapply Lh.
Qed.

Lemma leads_service given m m' Q Q' own own' d ss s x x' b :
  intact m Q own d ss -> database ∅ m' Q' own' d ss -> g_services (world m) !! s = Some x -> g_services (world m') = g_services (set_app b (with_service s x' (world m))) ->
  first_handle x' = first_handle x -> last_handle x' = last_handle x -> tidy x' -> (given -> numbered x -> numbered x') -> leads given m d ss m' Q' own' d ss.
Proof.
  intros I D' Hx Hw E1 E2 Ht Hn. eapply leads_same; [done..|]. rewrite Hw. unfold with_service. gatt_simpl. intros t y [[<- <-]|[Hne Hy]]%lookup_insert_Some; [by exists x|].
  exists y. split_and!; [done..| |done]. by eapply (in_listed _ _ _ _ _ I).
Qed.

(** An attribute that keeps its handle. *)
Lemma leads_retouch given m m' Q Q' own own' d ss s x i a a' b :
  intact m Q own d ss -> database ∅ m' Q' own' d ss -> g_services (world m) !! s = Some x -> s_attributes x !! i = Some (Attr a) -> i <> 0%nat -> a_handle a' = a_handle a -> value_ok a' ->
  g_services (world m') = g_services (set_app b (with_service s (put_slot i a' x) (world m))) -> leads given m d ss m' Q' own' d ss.
Proof.
  intros I D' Hx Ha Hi E Hv Hw. eapply leads_service; [done..|by rewrite first_put|by rewrite last_put| |].
  - eapply tidy_retouch; [|done|done]. by eapply (in_listed _ _ _ _ _ I).
  - intros _ Hn. apply numbered_put; [done..|]. rewrite E. by apply Hn.
Qed.

(** Only other parts of the heap have changed. *)
Lemma becomes_elsewhere given m m' Q Q' own d d' ss :
  intact m Q own d ss -> database ∅ m' Q' own d' ss -> d_next_handle d' = d_next_handle d -> g_services (world m') = g_services (world m) -> becomes given m d ss m'.
Proof.
  intros I D' Hd Hw. eexists _, _, _, _. eapply leads_same; [done..|]. intros s x Hx. rewrite Hw in Hx. exists x. split_and!; [done..| |done]. by eapply (in_listed _ _ _ _ _ I).
Qed.

Lemma leads_then given m m1 m2 Q1 Q2 own1 d d1 ss ss1 :
  leads given m d ss m1 Q1 own1 d1 ss1 -> database ∅ m2 Q2 own1 d1 ss1 -> g_services (world m2) = g_services (world m1) -> becomes given m d ss m2.
Proof.
  intros [I1 L1] D2 Hw. destruct (becomes_elsewhere given m1 m2 Q1 Q2 own1 d1 d1 ss1 I1 D2 eq_refl Hw) as (Q' & own' & d' & ss' & I' & L'). exists Q', own', d', ss'. split; [done|]. intros G L. by apply L', L1.
Qed.

(** Only some of the services are left. *)
Lemma becomes_kept given m m' g Q Q' own own' d d' ss ss' :
  intact m Q own d ss -> database ∅ m' Q' own' d' ss' -> kept (world m) g ss ss' -> g_services (world m') = g_services g -> (forall s, s ∈ ss' -> s ∈ ss) ->
  (ordered (world m) ss -> ordered (world m) ss') -> d' = d \/ d' = set_next_handle 0 d -> becomes given m d ss m'.
Proof.
  intros I D' [K1 K2 K3 _] Eg Hin Ho' Hd. assert (forall s x, g_services (world m') !! s = Some x -> g_services (world m) !! s = Some x) as Hold by (intros s x Hx; rewrite Eg in Hx; by eapply lookup_weaken).
  exists Q', own', d', ss'. split.
  - split; [done|destruct Hd as [-> | ->]; [apply I|done]|]. intros s x Hx. destruct (in_listed _ _ _ _ _ I s x (Hold _ _ Hx)) as [Hs ?]. split; [|done].
    destruct (decide (s ∈ ss')) as [|Hno]; [done|]. rewrite Eg, K2 in Hx by done. done.
  - intros _ [Lo [Ln Ln'] Lh]. assert (forall s, s ∈ ss' -> range (world m') s = range (world m) s) as Hr by (intros s Hs; unfold range; by rewrite Eg, K1).
    split; [eapply ordered_same; [done|by apply Ho']| |intros s x Hx; by eapply Lh, Hold].
    destruct Hd as [-> | ->]; [|split; [done|by left]]. split; [done|]. destruct Ln' as [?|Ln']; [by left|right]. intros s Hs. rewrite Hr by done. by apply Ln', Hin.
Qed.

Lemma represents_fits X m Q : represents X m Q -> (size (cells m) < fuel)%nat -> fits fuel Q.
Proof. intros R Hf q r es Hq. pose proof (rep_fuel m Q _ _ _ R Hq). lia. Qed.

(** ** New services *)

Lemma fresh_only own s x : service_ok own s x -> (forall i v, i <> 0%nat -> s_attributes x !! i = Some v -> v = Null) ->
  exists a, decl x = Some a /\ names_service a /\ (0 < length (s_attributes x))%nat /\ forall i b, s_attributes x !! i = Some (Attr b) -> i = 0%nat /\ b = a.
Proof.
  intros Hok Hnull. destruct (so_decl _ _ _ Hok) as (a & Ha & Hname). pose proof (proj1 (decl_lookup x a) Ha) as Ha0. exists a. split_and!; [done|done|by eapply lookup_lt_Some|].
  intros i b Hb. destruct (decide (i = 0%nat)) as [->|Hi]; [split; [done|congruence]|]. by specialize (Hnull i _ Hi Hb).
Qed.

Lemma fresh_tidy own s x : service_ok own s x -> (forall i v, i <> 0%nat -> s_attributes x !! i = Some v -> v = Null) -> tidy x.
Proof.
  intros Hok Hnull. destruct (fresh_only own s x Hok Hnull) as (a & Ha & Hname & Hlen & Honly). pose proof (proj1 (decl_lookup x a) Ha) as Ha0. split.
  - exists 1%nat. split; [lia|]. intros i v Hv. destruct (decide (i < 1)%nat) as [Hi|Hi]; [assert (i = 0%nat) as -> by lia; exists a; congruence|]. apply (Hnull i); [lia|done].
  - intros i b [-> ->]%Honly. destruct Hname as (u & l & Hu & Hl & Hv & Hlen' & _). destruct (le_roundtrip u [] Hu) as (l' & Hl' & _ & Hn & _). assert (l' = l) as -> by congruence.
    unfold value_ok. rewrite Hv. unfold zlen in *. rewrite length_fmap. unfold UINT16_MAX. lia.
Qed.

Lemma fresh_numbered own s x : service_ok own s x -> (forall i v, i <> 0%nat -> s_attributes x !! i = Some v -> v = Null) -> numbered x.
Proof. intros Hok Hnull. destruct (fresh_only own s x Hok Hnull) as (a & Ha & _ & _ & Honly). intros i b [-> ->]%Honly. unfold first_handle. rewrite Ha. cbn. lia. Qed.

(** A service that got the next handle is behind all others. *)
Lemma becomes_inserted given m m' Q Q' own own' d d' ss ss' handle n r :
  intact m Q own d ss -> database ∅ m' Q' own' d' ss' -> inserted m d ss handle n r m' d' ss' -> (given -> handle = d_next_handle d /\ handle <> 0) -> becomes given m d ss m'.
Proof.
  intros I D' (l1 & l2 & s & x & -> & -> & Hs & _ & Hx & Hfirst & Hnum & _ & Hnull & Hl1 & Hl2 & -> & Hothers) Hgiven. pose proof (in_db _ _ _ _ _ I) as D.
  destruct (db_service _ _ _ _ _ _ D' s ltac:(apply elem_of_app; right; by left)) as (x' & Hx' & Hok). assert (x' = x) as -> by congruence. pose proof (service_bounds _ _ _ Hok) as Hb.
  exists Q', own', (set_next_handle (u16 ((handle + n) `max` d_next_handle d)) d), (l1 ++ s :: l2). split.
  { split; [done|apply wrap_range; lia|]. intros t y Hy. destruct (decide (t = s)) as [->|Hne].
    - assert (y = x) as -> by congruence. split; [apply elem_of_app; right; by left|by eapply fresh_tidy].
    - rewrite Hothers in Hy by done. destruct (in_listed _ _ _ _ _ I t y Hy) as [Ht ?]. split; [clear -Ht; set_solver|done]. }
  intros [Eh Hh]%Hgiven [Lo [Ln [?|Ln']] Lh]; [congruence|]. rewrite <-Eh in Ln'.
  assert (range (world m') s = (handle, handle + n - 1)) as Hrs by (unfold range; rewrite Hx; unfold last_handle; by rewrite Hfirst, Hnum).
  assert (forall t, t ∈ l1 ++ l2 -> range (world m') t = range (world m) t) as Hrt by (intros t Ht; unfold range; rewrite Hothers; [done|intros ->; by apply Hs]).
  assert (forall t, t ∈ l1 ++ l2 -> (range (world m) t).1 <= (range (world m) t).2) as Hty.
  { intros t Ht. destruct (db_service _ _ _ _ _ _ D t Ht) as (y & Hy & Hoky%service_bounds). unfold range. rewrite Hy. cbn. lia. }
  unfold last_handle in Hb. rewrite Hfirst, Hnum in Hb. unfold UINT16_MAX in *. split.
  - apply ordered_insert; [by eapply ordered_same|rewrite Hrs; cbn; lia| | |].
    + intros t Ht. assert (t ∈ l1 ++ l2) as Ht' by (apply elem_of_app; by right). rewrite Hrt by done. by apply Hty.
    + rewrite Forall_forall. intros t Ht. assert (t ∈ l1 ++ l2) as Ht' by (apply elem_of_app; by left). rewrite Hrs, Hrt by done. by apply Ln'.
    + destruct l2 as [|t l2]; [done|]. rewrite Hrs, Hrt; [done|]. apply elem_of_app. right. by left.
  - unfold next_ok. cbn [d_next_handle set_next_handle]. split; [apply wrap_range; lia|]. rewrite Z.max_l by lia. destruct (decide (handle + n = 65536)) as [E|E]; [left; by rewrite E|right].
    rewrite u16_small by lia. intros t Ht. destruct (decide (t = s)) as [->|Hne]; [rewrite Hrs; cbn; lia|].
    assert (t ∈ l1 ++ l2) as Ht' by (clear -Ht Hne; set_solver). rewrite Hrt by done. specialize (Ln' t Ht'). lia.
  - intros t y Hy. destruct (decide (t = s)) as [->|Hne]; [assert (y = x) as -> by congruence; by eapply fresh_numbered|]. rewrite Hothers in Hy by done. by eapply Lh.
Qed.

Lemma insert_becomes given m Q own d ss handle uuid primary n (P : option attr -> mem -> Prop) :
  intact m Q own d ss -> uuid_ok uuid -> is_u16 handle -> is_u16 n -> (given -> handle = d_next_handle d) -> (forall r m', becomes given m d ss m' -> P r m') ->
  wp (gatt_db_insert_service fuel handle uuid primary n) P m.
Proof.
  intros I Hu Hh Hn Hg HP. destruct (Z.ltb_spec handle 1) as [Hlt|Hge].
  { unfold gatt_db_insert_service. rewrite (proj2 (Z.ltb_lt _ _)) by done. gatt_step. apply HP. by eapply becomes_elsewhere; [|apply I|..]. }
  eapply insert_service_wp; [apply I|done..| |].
  - intros r m' D' W _. apply HP. eapply becomes_elsewhere; [done|done|done|by rewrite W].
  - intros r m' Q' own' d' ss' D' Hi. apply HP. eapply becomes_inserted; [done|done|done|]. intros G. specialize (Hg G). lia.
Qed.

(** ** New attributes *)

Lemma value_ok_of handle type val rf wf perm ud qr qw : zlen val <= UINT16_MAX -> value_ok (attribute_of handle type val rf wf perm ud qr qw).
Proof.
  intros Hle. pose proof (zlen_nonneg val) as H0. unfold value_ok, attribute_of, UINT16_MAX in *. cbn [a_value a_value_len]. rewrite u16_small by lia.
  destruct (Z.eqb_spec (zlen val) 0); [done|]. unfold zlen in *. rewrite length_fmap. lia.
Qed.

(** What an accepted characteristic leaves. *)
Lemma char_leads m Q own d ss s x k handle uuid perm props rf wf ud (P : option attr -> mem -> Prop) :
  intact m Q own d ss -> g_services (world m) !! s = Some x -> packed k x -> uuid_ok uuid ->
  (forall m', becomes (handle = 0) m d ss m' -> ~ accepted k x handle 2 \/ handle = UINT16_MAX \/ refused -> P None m') ->
  (forall m' Q' own' le h, leads (handle = 0) m d ss m' Q' own' d ss -> accepted k x handle 2 -> h = next_free k x handle 2 -> uuid_to_le uuid = Ret le ->
    char_added s x k h uuid le perm props rf wf ud (world m) (world m') -> P (Some (s, S k)) m') ->
  wp (service_insert_characteristic s handle uuid perm props rf wf ud) P m.
Proof.
  intros I Hx Hk Hu HN HS. destruct (intact_service _ _ _ _ _ _ _ I Hx) as (Hs & Ht & Hok). pose proof (so_size _ _ _ Hok) as Hsz. unfold zlen in Hsz.
  eapply insert_characteristic_wp; [apply I|done..| |].
  - intros m' D' W Hwhy. apply HN; [|done]. eapply becomes_elsewhere; [done|done|done|by rewrite W].
  - intros m' Q' own' le h D' Hacc Eh Hle Hadd. pose proof Hacc as [_ Hroom]. destruct (le_roundtrip uuid [] Hu) as (l & Hl' & _ & Hlen & _). assert (l = le) as -> by congruence.
    assert (k <> 0%nat) as Hk0 by (destruct Hk; lia). assert (k < length (s_attributes x))%nat as Hlt by lia. eapply (HS m' Q' own' le h); [|done..]. destruct Hadd as (q1 & q2 & q3 & q4 & W).
    eapply (leads_service _ m m' _ _ _ _ _ _ s x _ (g_app (world m))); [done|done|done|by rewrite W|by rewrite !first_put by lia|by rewrite !last_put by lia| |].
    + apply tidy_put; [apply tidy_put; [done|done|done|]|by apply packed_put|cbn; rewrite length_insert; lia|by apply value_ok_of].
      apply value_ok_of. unfold char_value, zlen in *. rewrite !length_app. cbn [length put_le16]. unfold UINT16_MAX. lia.
    + intros -> Hn. unfold next_free in Eh. change (0 =? 0) with true in Eh. cbv iota in Eh. rewrite (numbered_next own s x k 2) in Eh by (done || lia).
      destruct Hok as [_ _ Hf1 Hl _]. unfold last_handle, UINT16_MAX in Hl. rewrite (u16_small (h - 1)) by lia.
      apply numbered_put; [apply numbered_put; [done|done|cbn; lia]|done|]. rewrite first_put by done. cbn [a_handle attribute_of]. lia.
Qed.

Lemma desc_becomes m Q own d ss s x handle uuid perm rf wf ud (P : option attr -> mem -> Prop) :
  intact m Q own d ss -> g_services (world m) !! s = Some x -> P None m -> (forall r m', becomes (handle = 0) m d ss m' -> P r m') ->
  wp (service_insert_descriptor s handle uuid perm rf wf ud) P m.
Proof.
  intros I Hx HN HP. destruct (intact_service _ _ _ _ _ _ _ I Hx) as (Hs & Ht & Hok). pose proof (so_size _ _ _ Hok) as Hsz. unfold zlen in Hsz. destruct (tidy_packed _ Ht) as [k Hk].
  eapply insert_descriptor_wp; [apply I|done..|]. intros m' Q' own' h D' [_ Hroom] Eh (q1 & q2 & W). apply HP. assert (k <> 0%nat) as Hk0 by (destruct Hk; lia).
  eexists _, _, _, _. eapply (leads_service _ m m' _ _ _ _ _ _ s x _ (g_app (world m))); [done|done|done|by rewrite W|by rewrite first_put|by rewrite last_put| |].
  - apply tidy_put; [done|done|lia|by apply value_ok_of].
  - intros -> Hn. unfold next_free in Eh. change (0 =? 0) with true in Eh. cbv iota in Eh. rewrite (numbered_next own s x k 1) in Eh by (done || lia). apply numbered_put; [done..|]. cbn [a_handle attribute_of]. lia.
Qed.

Lemma incl_becomes given m Q own d ss s x handle include (P : option attr -> mem -> Prop) :
  intact m Q own d ss -> g_services (world m) !! s = Some x -> live (world m) include -> (forall r m', becomes given m d ss m' -> P r m') ->
  wp (service_insert_included s handle include) P m.
Proof.
  intros I Hx (y & b & Hy & Hb) HP. destruct include as [t j]. cbn [fst snd] in *. destruct (intact_service _ _ _ _ _ _ _ I Hx) as (Hs & Ht & Hok). pose proof (so_size _ _ _ Hok) as Hsz. unfold zlen in Hsz.
  destruct (tidy_packed _ Ht) as [k Hk]. destruct (intact_service _ _ _ _ _ _ _ I Hy) as (Hts & _). eapply insert_included_wp; [apply I|done..| |].
  - intros m' D' W _. apply HP. eapply becomes_elsewhere; [done|done|done|by rewrite W].
  - intros m' Q' own' h u le D' [_ Hroom] Eh Hu Hle (q1 & q2 & W). apply HP. assert (k <> 0%nat) as Hk0 by (destruct Hk; lia). destruct (le_roundtrip u [] Hu) as (l & Hl' & _ & Hlen & _). assert (l = le) as -> by congruence.
    eexists _, _, _, _. eapply (leads_service _ m m' _ _ _ _ _ _ s x _ (g_app (world m))); [done|done|done|by rewrite W|by rewrite first_put|by rewrite last_put| |].
    + apply tidy_put; [done|done|lia|]. apply value_ok_of. unfold incl_value, UINT16_MAX. rewrite !zlen_app. destruct (zlen le =? 2); unfold zlen in *; cbn [length put_le16]; lia.
    + intros _ Hn. rewrite (numbered_next own s x k 1) in Eh by (done || lia). apply numbered_put; [done..|]. cbn [a_handle attribute_of]. lia.
Qed.
End Sound.
