(* ===== verification/GattRun.v ===== *)
(** Sequences of operations of the attribute database, from [gatt_db_new] on: no block is used after it was
    freed, and when the handles are left to the database the services and their attributes stay in their order. *)

From stdpp Require Import gmap.
From S2P Require Import Prelude Util Alloc Queue QueueSpec QueueMain Uuid GattDb GattAccess GattSpec GattDestroy GattServices GattAttrs GattFind GattObserve GattRequests GattMain.

(** The operations of the database and of its timers. *)
Inductive operation :=
| AddService (uuid : bt_uuid_t) (primary : bool) (num_handles : Z)
| InsertService (handle : Z) (uuid : bt_uuid_t) (primary : bool) (num_handles : Z)
| RemoveService (p : attr)
| ClearRange (start_handle end_handle : Z)
| AddCharacteristic (p : attr) (uuid : bt_uuid_t) (permissions properties : Z) (read_func write_func : option nat) (user_data : Z)
| InsertCharacteristic (p : attr) (handle : Z) (uuid : bt_uuid_t) (permissions properties : Z) (read_func write_func : option nat) (user_data : Z)
| AddDescriptor (p : attr) (uuid : bt_uuid_t) (permissions : Z) (read_func write_func : option nat) (user_data : Z)
| InsertDescriptor (p : attr) (handle : Z) (uuid : bt_uuid_t) (permissions : Z) (read_func write_func : option nat) (user_data : Z)
| AddIncluded (p include : attr)
| InsertIncluded (p : attr) (handle : Z) (include : attr)
| SetActive (p : attr) (active : bool)
| SetClaimed (p : attr) (claimed : bool)
| Register (service_added service_removed : nat) (user_data : Z) (destroy : option nat)
| Unregister (id : Z)
| Read (p : attr) (offset opcode att : Z) (func : nat) (user_data : Z)
| ReadResult (p : attr) (id err : Z) (value : option raw) (length : Z)
| ReadTimeout (n : ptr)
| Write (p : attr) (offset : Z) (value : bytes) (opcode att : Z) (func : nat) (user_data : Z)
| WriteResult (p : attr) (id err : Z)
| WriteTimeout (n : ptr)
| Reset (p : attr).

Section Run.
Context `{!Allocator} {A : Type} {app : App A} (fuel : nat).
Abbreviation mem := (Queue.mem (gatt A)).
Implicit Types (m : mem) (g : gatt A).

Definition exec (o : operation) : Queue.M (W := gatt A) () :=
  match o with
  | AddService uuid primary n => _ ← gatt_db_add_service fuel uuid primary n; mret ()
  | InsertService handle uuid primary n => _ ← gatt_db_insert_service fuel handle uuid primary n; mret ()
  | RemoveService p => _ ← gatt_db_remove_service fuel (Some p); mret ()
  | ClearRange start end_ => _ ← gatt_db_clear_range fuel start end_; mret ()
  | AddCharacteristic p uuid perm props rf wf ud => _ ← gatt_db_service_add_characteristic (Some p) uuid perm props rf wf ud; mret ()
  | InsertCharacteristic p handle uuid perm props rf wf ud => _ ← gatt_db_service_insert_characteristic (Some p) handle uuid perm props rf wf ud; mret ()
  | AddDescriptor p uuid perm rf wf ud => _ ← gatt_db_service_add_descriptor (Some p) uuid perm rf wf ud; mret ()
  | InsertDescriptor p handle uuid perm rf wf ud => _ ← gatt_db_service_insert_descriptor (Some p) handle uuid perm rf wf ud; mret ()
  | AddIncluded p include => _ ← gatt_db_service_add_included (Some p) (Some include); mret ()
  | InsertIncluded p handle include => _ ← gatt_db_service_insert_included (Some p) handle (Some include); mret ()
  | SetActive p active => _ ← gatt_db_service_set_active fuel (Some p) active; mret ()
  | SetClaimed p claimed => _ ← gatt_db_service_set_claimed (Some p) claimed; mret ()
  | Register added removed ud destroy => _ ← gatt_db_register (Some added) (Some removed) ud destroy; mret ()
  | Unregister id => _ ← gatt_db_unregister id; mret ()
  | Read p offset opcode att func ud => _ ← gatt_db_attribute_read (Some p) offset opcode att (Some func) ud; mret ()
  | ReadResult p id err value len => _ ← gatt_db_attribute_read_result (Some p) id err value len; mret ()
  | ReadTimeout n => _ ← read_timeout n; mret ()
  | Write p offset value opcode att func ud => _ ← gatt_db_attribute_write (Some p) offset value opcode att (Some func) ud; mret ()
  | WriteResult p id err => _ ← gatt_db_attribute_write_result (Some p) id err; mret ()
  | WriteTimeout n => _ ← write_timeout n; mret ()
  | Reset p => _ ← gatt_db_attribute_reset (Some p); mret ()
  end.

(** What a caller must keep to: pointers are to attributes in use, UUIDs are of one of the three kinds, offsets
    are not negative, and the declaration of a service is neither read nor written by itself.  Handles and sizes may
    be any of 16 bits. *)
Definition permitted g (o : operation) : Prop :=
  match o with
  | AddService uuid _ n => uuid_ok uuid /\ is_u16 n
  | InsertService handle uuid _ n => uuid_ok uuid /\ is_u16 handle /\ is_u16 n
  | RemoveService p | SetActive p _ | SetClaimed p _ | ReadResult p _ _ _ _ | WriteResult p _ _ => live g p
  | ClearRange _ _ | Register _ _ _ _ | Unregister _ => True
  | AddCharacteristic p uuid _ _ _ _ _ => live g p /\ uuid_ok uuid
  | InsertCharacteristic p handle uuid _ _ _ _ _ => live g p /\ uuid_ok uuid /\ is_u16 handle
  | AddDescriptor p _ _ _ _ _ => live g p
  | InsertDescriptor p handle _ _ _ _ _ => live g p /\ is_u16 handle
  | AddIncluded p include => live g p /\ live g include
  | InsertIncluded p handle include => live g p /\ live g include /\ is_u16 handle
  | Read p offset _ _ _ _ => live g p /\ p.2 <> 0%nat /\ 0 <= offset
  | ReadTimeout n => exists y, g_reads g !! n = Some y /\ live g (p_attrib y)
  | Write p offset _ _ _ _ _ => live g p /\ p.2 <> 0%nat /\ 0 <= offset
  | WriteTimeout n => exists y, g_writes g !! n = Some y /\ live g (p_attrib y)
  | Reset p => live g p /\ p.2 <> 0%nat
  end.

(** The calls that leave the choice of the handles to the database.  That of an included service is always left
    to it. *)
Definition assigned (o : operation) : Prop :=
  match o with InsertService _ _ _ _ | InsertCharacteristic _ _ _ _ _ _ _ _ | InsertDescriptor _ _ _ _ _ _ _ => False | _ => True end.

Context `{!Polite app}.

Lemma wp_discard {B} (x : Queue.M B) m (P : () -> mem -> Prop) : wp x (fun _ m' => P () m') m -> wp (_ ← x; mret ()) P m.
Proof. intros Hx. apply wp_bind. eapply wp_mono; [exact Hx|]. intros a m'. done. Qed.

(** ** Functions of attributes *)

Definition beside m own d ss m' : Prop := exists Q', database ∅ m' Q' own d ss /\ g_services (world m') = g_services (world m).

Lemma live_same g g' p : g_services g' = g_services g -> live g p -> live g' p.
Proof. unfold live. by intros ->. Qed.

Lemma live_put g g' s x i a : g_services g' = g_services (with_service s (put_slot i a x) g) -> (i < length (s_attributes x))%nat -> live g' (s, i).
Proof. intros E Hi. exists (put_slot i a x), a. rewrite E. cbn [fst snd]. split; [apply lookup_insert_eq|by apply put_slot_here]. Qed.

Lemma react_wp r m Q own d ss : intact m Q own d ss -> to_live (world m) r -> wp (react r) (fun _ => beside m own d ss) m.
Proof.
  intros I Hr. pose proof (in_db _ _ _ _ _ I) as D. assert (beside m own d ss m) as Hsame by (by exists Q). destruct r as [y|[s i] id err value len|[s i] id err]; cbn [react].
  - apply wp_modify. exists Q. split; [|done]. eapply database_app; [done|by eapply represents_frame; [apply D|..]|done].
  - destruct Hr as (x & a & Hx & Ha). apply wp_discard. eapply read_result_wp; [done|by eapply (in_listed _ _ _ _ _ I)|done..|]. intros m' Q' n y b _ _ _ D' W. exists Q'. by rewrite W.
  - destruct Hr as (x & a & Hx & Ha). apply wp_discard. eapply write_result_wp; [done|by eapply (in_listed _ _ _ _ _ I)|done..|]. intros m' Q' n y b _ _ _ D' W. exists Q'. by rewrite W.
Qed.

Lemma react_all_wp rs : forall m Q own d ss, intact m Q own d ss -> Forall (to_live (world m)) rs -> wp (react_all rs) (fun _ => beside m own d ss) m.
Proof.
  induction rs as [|r rs IH]; intros m Q own d ss I Hrs; cbn [react_all]; [gatt_step; exists Q; split; [apply I|done]|]. apply Forall_cons in Hrs as [Hr Hrs].
  gatt_step. eapply wp_mono; [by eapply react_wp|]. cbn. intros _ m1 (Q1 & D1 & E1).
  assert (intact m1 Q1 own d ss) as I1 by (split; [done|apply I|]; rewrite E1; apply (in_listed _ _ _ _ _ I)).
  eapply wp_mono; [eapply IH; [exact I1|]|cbn; intros _ m2 (Q2 & D2 & E2); exists Q2; split; [done|by rewrite E2]].
  eapply Forall_impl; [exact Hrs|]. intros [y|p id err value len|p id err]; [done|by apply live_same..].
Qed.

(** The call of a function of an attribute, at the end of a request. *)
Lemma asked_wp given e p m m1 Q1 own d ss : asks e = Some p -> live (world m1) p -> leads given m d ss m1 Q1 own d ss -> wp (call e) (fun _ => becomes given m d ss) m1.
Proof.
  intros He Hp L. pose proof L as [I1 _]. destruct (call_asked e p m1 He Hp) as (rs & Hrs & E). pose proof (react_all_wp rs m1 Q1 own d ss I1 Hrs) as Hw. unfold wp in *. rewrite E.
  destruct (react_all rs m1) as [[u m2]| |]; [|done..]. destruct Hw as (Q2 & D2 & E2). by eapply leads_then.
Qed.

(** ** One operation *)

(** The operations on the list of services. *)
Lemma exec_services o m Q own d ss : intact m Q own d ss -> permitted (world m) o -> (size (cells m) < fuel)%nat ->
  match o with AddService _ _ _ | InsertService _ _ _ _ | RemoveService _ | ClearRange _ _ => wp (exec o) (fun _ => becomes (assigned o) m d ss) m | _ => True end.
Proof.
  intros I Hp Hf. pose proof (in_db _ _ _ _ _ I) as D. assert (fits fuel Q) as Hfit by (eapply represents_fits; [apply D|done]).
  destruct o as [uuid primary n|handle uuid primary n|[s i]|start end_| | | | | | | | | | | | | | | | |]; try done; cbn [exec permitted assigned] in *; apply wp_discard.
  - destruct Hp as [Hu Hn]. unfold gatt_db_add_service. gatt_step. eapply wp_load_db; [apply D|]. eapply (insert_becomes fuel True); [done|done|apply I|done|done|]. by intros _.
  - destruct Hp as (Hu & Hh & Hn). eapply (insert_becomes fuel False); [done..|]. by intros _.
  - destruct Hp as (x & a & Hx & Ha). cbn [fst snd] in *. eapply remove_service_wp; [done|done|by eapply (in_listed _ _ _ _ _ I)|done|done|]. intros m' Q' own' D' _ Hk.
    eapply becomes_kept; [done|done|done|done|intros t Ht%list_elem_of_filter; tauto|apply ordered_filter|by left].
  - eapply clear_range_wp; [done|done|intros _; by eapply becomes_elsewhere|]. intros m' Q' own' d' ss' _ -> D' Hd' _ (g & Hk & Hw).
    eapply becomes_kept; [done|done|done|by rewrite Hw|intros t Ht%list_elem_of_filter; tauto|apply ordered_filter|done].
Qed.

(** The operations on attributes of a service. *)
Lemma exec_attributes o m Q own d ss : intact m Q own d ss -> permitted (world m) o ->
  match o with
  | AddCharacteristic _ _ _ _ _ _ _ | InsertCharacteristic _ _ _ _ _ _ _ _ | AddDescriptor _ _ _ _ _ _ | InsertDescriptor _ _ _ _ _ _ _ | AddIncluded _ _ | InsertIncluded _ _ _ =>
      wp (exec o) (fun _ => becomes (assigned o) m d ss) m
  | _ => True
  end.
Proof.
  intros I Hp. assert (forall given, becomes given m d ss m) as Hm by (intros given; by eapply becomes_elsewhere; [|apply I|..]).
  assert (forall given given' m', (given' -> given) -> becomes given m d ss m' -> becomes given' m d ss m') as Himp by (intros given given' m' Hg (Q' & own' & d' & ss' & I' & L'); exists Q', own', d', ss'; split; [done|auto]).
  destruct o as [| | | |[s i] uuid perm props rf wf ud|[s i] handle uuid perm props rf wf ud|[s i] uuid perm rf wf ud|[s i] handle uuid perm rf wf ud|[s i] incl|[s i] handle incl| | | | | | | | | | |];
    try done; cbn [exec permitted assigned fst snd] in *; apply wp_discard; try match type of Hp with _ /\ _ => destruct Hp as [Hp Hp2] end; destruct Hp as (x & a & Hx & Ha); cbn [fst snd] in Hx, Ha;
    [unfold gatt_db_service_add_characteristic|unfold gatt_db_service_insert_characteristic|unfold gatt_db_service_add_descriptor|unfold gatt_db_service_insert_descriptor|unfold gatt_db_service_add_included|unfold gatt_db_service_insert_included];
    try (destruct (handle =? 0); [by gatt_step|]); gatt_step; (eapply wp_load_attr; [done..|]); destruct (intact_service _ _ _ _ _ _ _ I Hx) as (_ & Ht & _); destruct (tidy_packed _ Ht) as [k Hk].
  - eapply char_leads; [done..|intros m' Hm' _; eapply Himp; [|done]; done|]. intros m' Q' own' le h L _ _ _ _. eapply Himp; [|by eexists _, _, _, _]. done.
  - destruct Hp2 as [Hu _]. eapply char_leads; [done..|intros m' Hm' _; eapply Himp; [|done]; done|]. intros m' Q' own' le h L _ _ _ _. eapply Himp; [|by eexists _, _, _, _]. done.
  - eapply desc_becomes; [done|done|apply Hm|]. intros _ m' Hm'. by eapply Himp; [|done].
  - eapply desc_becomes; [done|done|apply Hm|]. intros _ m' Hm'. by eapply Himp; [|done].
  - eapply incl_becomes; [done..|]. by intros _.
  - destruct Hp2 as [Hi _]. eapply incl_becomes; [done..|]. by intros _.
Qed.

(** Flags, observers, requests and answers. *)
Lemma exec_requests o m Q own d ss : intact m Q own d ss -> permitted (world m) o -> (size (cells m) < fuel)%nat ->
  match o with
  | SetActive _ _ | SetClaimed _ _ | Register _ _ _ _ | Unregister _ | Read _ _ _ _ _ _ | ReadResult _ _ _ _ _ | ReadTimeout _ | Write _ _ _ _ _ _ _ | WriteResult _ _ _ | WriteTimeout _ | Reset _ =>
      wp (exec o) (fun _ => becomes (assigned o) m d ss) m
  | _ => True
  end.
Proof.
  intros I Hp Hf. pose proof (in_db _ _ _ _ _ I) as D. assert (fits fuel Q) as Hfit by (eapply represents_fits; [apply D|done]). assert (becomes True m d ss m) as Hm by (by eapply becomes_elsewhere).
  assert (forall m' Q' d', database ∅ m' Q' own d' ss -> d_next_handle d' = d_next_handle d -> g_services (world m') = g_services (world m) -> becomes True m d ss m') as Helse by (intros; by eapply becomes_elsewhere).
  destruct o as [| | | | | | | | | |[s i] active|[s i] claimed|added removed ud destroy|id|[s i] offset opcode att func ud|[s i] id err value len|n|[s i] offset data opcode att func ud|[s i] id err|n|[s i]];
    try done; cbn [exec permitted assigned fst snd] in *; apply wp_discard.
  - destruct Hp as (x & a & Hx & Ha). destruct (intact_service _ _ _ _ _ _ _ I Hx) as (Hs & Ht & _). eapply set_active_wp; [done..|]. intros m' b _ D' W.
    eexists _, _, _, _. eapply (leads_service _ m m' _ _ _ _ _ _ s x (set_active active x) b); [done|done|done|by rewrite W|done|done|by eapply (tidy_flag x)|done].
  - destruct Hp as (x & a & Hx & Ha). destruct (intact_service _ _ _ _ _ _ _ I Hx) as (Hs & Ht & _). eapply set_claimed_wp; [done..|]. intros m' D' W.
    eexists _, _, _, _. eapply (leads_service _ m m' _ _ _ _ _ _ s x (set_claimed claimed x) (g_app (world m))); [done|done|done|by rewrite W|done|done|by eapply (tidy_flag x)|done].
  - eapply register_wp; [done|]. intros m' Q' d' id b D' [n ->] [t W] _. eapply Helse; [done|done|by rewrite W].
  - eapply unregister_wp; [done|done|]. intros m' Q' b D' [t W]. eapply Helse; [done|done|by rewrite W].
  - destruct Hp as ((x & a & Hx & Ha) & Hi & Ho). cbn [fst snd] in *. destruct (intact_service _ _ _ _ _ _ _ I Hx) as (Hs & Ht & _). pose proof (tidy_values _ Ht _ _ Ha) as Hv. eapply attribute_read_wp; [done..|].
    destruct (a_read_func a); [split; [done|]|split_and!; [done|done|]].
    + intros m' Q' p t b id Hid _ D' W. eapply (asked_wp True _ (s, i)); [done|eapply (live_put (world m) _ s x i (set_read_id id a)); [by rewrite W|by eapply lookup_lt_Some]|].
      eapply (leads_retouch _ m m' _ _ _ _ _ _ s x i a (set_read_id id a) b); [done|done|done|done|done|done|done|by rewrite W].
    + intros m' b D' W. eapply Helse; [done|done|by rewrite W].
  - destruct Hp as (x & a & Hx & Ha). destruct (intact_service _ _ _ _ _ _ _ I Hx) as (Hs & _). eapply read_result_wp; [done..|]. intros m' Q' n y b _ _ _ D' W. eapply Helse; [done|done|by rewrite W].
  - destruct Hp as (y & Hy & (x & a & Hx & Ha)). destruct (intact_service _ _ _ _ _ _ _ I Hx) as (Hs & _). eapply read_timeout_wp; [done|done|done|done|done|by destruct (p_attrib y)|].
    intros m' Q' b D' W. eapply Helse; [done|done|by rewrite W].
  - destruct Hp as ((x & a & Hx & Ha) & Hi & Ho). cbn [fst snd] in *. destruct (intact_service _ _ _ _ _ _ _ I Hx) as (Hs & Ht & _). pose proof (tidy_values _ Ht _ _ Ha) as Hv. eapply attribute_write_wp; [done..|].
    destruct (a_write_func a); [|split_and!; [done..| | |]].
    + intros m' Q' p t b id Hid _ D' W. eapply (asked_wp True _ (s, i)); [done|eapply (live_put (world m) _ s x i (set_write_id id a)); [by rewrite W|by eapply lookup_lt_Some]|].
      eapply (leads_retouch _ m m' _ _ _ _ _ _ s x i a (set_write_id id a) b); [done|done|done|done|done|done|done|by rewrite W].
    + intros m' b _ D' W. eapply Helse; [done|done|by rewrite W].
    + intros m' _ D' W. eapply Helse; [done|done|by rewrite W].
    + intros m' b a' Hd (Hok & Ea & _) D' W. eexists _, _, _, _. eapply (leads_retouch _ m m' _ _ _ _ _ _ s x i a a' b); [done|done|done|done|done|by rewrite Ea|done|by rewrite W].
  - destruct Hp as (x & a & Hx & Ha). destruct (intact_service _ _ _ _ _ _ _ I Hx) as (Hs & _). eapply write_result_wp; [done..|]. intros m' Q' n y b _ _ _ D' W. eapply Helse; [done|done|by rewrite W].
  - destruct Hp as (y & Hy & (x & a & Hx & Ha)). destruct (intact_service _ _ _ _ _ _ _ I Hx) as (Hs & _). eapply write_timeout_wp; [done|done|done|done|done|by destruct (p_attrib y)|].
    intros m' Q' b D' W. eapply Helse; [done|done|by rewrite W].
  - destruct Hp as ((x & a & Hx & Ha) & Hi). cbn [fst snd] in *. destruct (intact_service _ _ _ _ _ _ _ I Hx) as (Hs & Ht & _). pose proof (tidy_values _ Ht _ _ Ha) as Hv. eapply reset_wp; [done..|].
    intros m' D' W. eexists _, _, _, _. eapply (leads_retouch _ m m' _ _ _ _ _ _ s x i a (set_value 0 None a) (g_app (world m))); [done|done|done|done|done|done|done|by rewrite W].
Qed.

Lemma exec_becomes o m Q own d ss : intact m Q own d ss -> permitted (world m) o -> (size (cells m) < fuel)%nat -> wp (exec o) (fun _ => becomes (assigned o) m d ss) m.
Proof.
  intros I Hp Hf. pose proof (exec_services o m Q own d ss I Hp Hf). pose proof (exec_attributes o m Q own d ss I Hp). pose proof (exec_requests o m Q own d ss I Hp Hf). by destruct o.
Qed.

(** ** From a new database on *)

(** The heap before [gatt_db_new]. *)
Definition start (a : A) (n : nat) : mem := mk_mem ∅ ∅ n (mk_gatt None ∅ ∅ ∅ ∅ None a).

(** The states that calls of the kind [may] lead to. *)
Inductive reachable (may : operation -> Prop) : mem -> Prop :=
| reach_new a n m : gatt_db_new (start a n) = Ret ((), m) -> reachable may m
| reach_step m o m' : reachable may m -> may o -> permitted (world m) o -> (size (cells m) < fuel)%nat -> exec o m = Ret ((), m') -> reachable may m'.

Definition any_call (o : operation) : Prop := True.

Lemma new_intact a n : wp gatt_db_new (fun _ m => exists Q own d ss, intact m Q own d ss /\ layout (world m) d ss) (start a n).
Proof.
  assert (represents ∅ (start a n) ∅) as R0 by (split; cbn; try done; intros; by rewrite lookup_empty in * ).
  unfold gatt_db_new. do 2 gatt_step. intros _ _. gatt_step. eapply new_wp; [by eapply represents_frame|]. intros q1 m1 _ R1 W1. gatt_step. eapply new_wp; [done|]. intros q2 m2 Hq2 R2 W2.
  apply lookup_insert_None in Hq2 as [_ Hne]. do 2 gatt_step. unfold gatt_db_ref. gatt_step. rewrite W2, W1. gatt_simpl. change (s32 (0 + 1)) with 1.
  set (d := mk_db 1 1 (Some q1) (Some q2) 0).
  assert (forall q o, (<[q2 := Observers]> (<[q1 := Services]> (∅ : gmap ptr owner))) !! q = Some o -> (q = q2 /\ o = Observers) \/ (q = q1 /\ o = Services)) as Hcase.
  { intros q o [[<- <-]|[_ [[<- <-]|[_ E]]%lookup_insert_Some]]%lookup_insert_Some; [by left|by right|by rewrite lookup_empty in E]. }
  exists (<[q2 := (1, [])]> (<[q1 := (1, [])]> ∅)), (<[q2 := Observers]> (<[q1 := Services]> ∅)), d, []. assert (forall s x, g_services (world m2) !! s = Some x -> False) as Hnone by (intros s x; rewrite W2, W1; apply lookup_empty_Some).
  split; split; gatt_simpl; try done.
  - split; gatt_simpl; try done.
    + by eapply represents_frame.
    + exists q1. split; [done|]. rewrite lookup_insert_ne by done. apply lookup_insert_eq.
    + exists q2. split; [done|]. apply lookup_insert_eq.
    + intros q o [[-> ->]|[-> ->]]%Hcase.
      * exists []. split; [apply lookup_insert_eq|]. exists []. split_and!; [done|constructor|by intros ? ?%elem_of_nil].
      * exists []. split; [rewrite lookup_insert_ne by done; apply lookup_insert_eq|done].
    + intros q q' o [[-> ->]|[-> ->]]%Hcase [[-> ?]|[-> ?]]%Hcase; done.
    + intros q s i [[_ E]|[_ E]]%Hcase; done.
    + intros q s i [[_ E]|[_ E]]%Hcase; done.
    + constructor.
    + by intros s ?%elem_of_nil.
  - constructor.
  - split; [done|]. right. by intros s ?%elem_of_nil.
Qed.

Lemma wp_ret_inv {B} (x : Queue.M B) P m b m' : wp x P m -> x m = Ret (b, m') -> P b m'.
Proof. unfold wp. intros Hw E. by rewrite E in Hw. Qed.

Lemma reachable_intact may m : reachable may m -> exists Q own d ss, intact m Q own d ss /\ ((forall o, may o -> assigned o) -> layout (world m) d ss).
Proof.
  induction 1 as [a n m Hm|m o m' _ (Q & own & d & ss & I & L) Ho Hp Hf Hm].
  - destruct (wp_ret_inv _ _ _ _ _ (new_intact a n) Hm) as (Q & own & d & ss & I & L). by exists Q, own, d, ss.
  - destruct (wp_ret_inv _ _ _ _ _ (exec_becomes o m Q own d ss I Hp Hf) Hm) as (Q' & own' & d' & ss' & I' & L'). exists Q', own', d', ss'. split; [done|]. intros Hall. apply L'; [by apply Hall|by apply L].
Qed.

Lemma assigned_sound m : reachable assigned m -> exists Q own d ss, sound m Q own d ss /\ intact m Q own d ss /\ layout (world m) d ss.
Proof. intros (Q & own & d & ss & I & L)%reachable_intact. exists Q, own, d, ss. split_and!; [|done|by apply L]. by apply intact_sound, L. Qed.

Lemma reachable_consistent m : reachable assigned m -> consistent m.
Proof. intros (Q & own & d & ss & S & _)%assigned_sound. by exists Q, own, d, ss. Qed.

(** C8: In every state that operations reach from [gatt_db_new] on, with any handles and whatever the allocator
    does, every service is in the list once, its attributes are in its first slots, each with its own queues of
    the requests that wait, and every block is where it should be ([intact]); no operation uses a freed block or
    reads outside of an array there, and it leaves such a state.  The functions of attributes may answer requests
    while they are called ([Polite]).  When the handles are left to the database, the services are moreover in the
    order of their disjoint ranges, and the attributes of each have the handles that follow its first one
    ([layout]). *)
Theorem gatt_db_reachable_sound may m : reachable may m -> exists Q own d ss, intact m Q own d ss /\
  ((forall o, may o -> assigned o) -> layout (world m) d ss) /\
  forall o, permitted (world m) o -> (size (cells m) < fuel)%nat ->
    wp (exec o) (fun _ m' => exists Q' own' d' ss', intact m' Q' own' d' ss' /\ (assigned o -> layout (world m) d ss -> layout (world m') d' ss')) m.
Proof. intros (Q & own & d & ss & I & L)%reachable_intact. exists Q, own, d, ss. split_and!; [done|done|]. intros o Hp Hf. by apply (exec_becomes o m Q own d ss). Qed.

(** ** Handles *)

Definition handle_of g (p : attr) (h : Z) : Prop := exists x a, g_services g !! p.1 = Some x /\ s_attributes x !! p.2 = Some (Attr a) /\ a_handle a = h.

Lemma sound_handle m Q own d ss p h : sound m Q own d ss -> handle_of (world m) p h -> p.1 ∈ ss /\ covers (world m) p.1 h.
Proof.
  intros S (x & a & Hx & Ha & <-). destruct (sound_listed _ _ _ _ _ S _ _ Hx) as [Hs Hr]. split; [done|]. unfold covers, range. rewrite Hx. by eapply rise_range, Ha; apply Hr.
Qed.

Lemma sound_handle_inj m Q own d ss p q h : sound m Q own d ss -> handle_of (world m) p h -> handle_of (world m) q h -> p = q.
Proof.
  intros S Hp Hq. destruct (sound_handle _ _ _ _ _ _ _ S Hp) as [Hs Cs], (sound_handle _ _ _ _ _ _ _ S Hq) as [Ht Ct].
  pose proof (ordered_unique _ _ _ _ _ (sound_order _ _ _ _ _ S) Hs Ht Cs Ct) as E. destruct p as [s i], q as [t j]. cbn in E. subst t.
  destruct Hp as (x & a & Hx & Ha & Ea), Hq as (y & b & Hy & Hb & Eb). cbn in *. assert (y = x) as -> by congruence. f_equal.
  eapply rising_inj; [apply (sound_listed _ _ _ _ _ S _ _ Hx)|done|done|congruence].
Qed.

(** A handle is that of at most one attribute of the database, and [gatt_db_get_attribute] finds it, and
    finds nothing for any other handle. *)
Theorem gatt_db_get_attribute_exact m h : reachable assigned m ->
  (forall p q, handle_of (world m) p h -> handle_of (world m) q h -> p = q) /\
  wp (gatt_db_get_attribute h) (fun r m' => m' = m /\ forall p, r = Some p <-> handle_of (world m) p h) m.
Proof.
  intros (Q & own & d & ss & S)%reachable_consistent. split; [intros p q; by eapply sound_handle_inj|]. eapply get_attribute_wp; [apply S|..].
  - intros Hno. split; [done|]. intros p. split; [done|]. intros [Hs Hc]%(sound_handle _ _ _ _ _ _ _ S). by destruct (Hno _ Hs).
  - intros s x Hs Hc Hx Hno. split; [done|]. intros p. split; [done|]. intros Hp. pose proof (sound_handle _ _ _ _ _ _ _ S Hp) as [Hs' Hc'].
    pose proof (ordered_unique _ _ _ _ _ (sound_order _ _ _ _ _ S) Hs Hs' Hc Hc') as ->. destruct Hp as (y & a & Hy & Ha & Ea). assert (y = x) as -> by congruence. destruct (Hno p.2). by exists a.
  - intros s x i Hs Hc Hx (a & Ha & Ea). assert (handle_of (world m) (s, i) h) as Hh by (by exists x, a). split; [done|]. intros p. split; [by intros [= <-]|]. intros Hp. f_equal. by eapply sound_handle_inj.
Qed.
End Run.

(** ** An application that keeps a record of its calls *)

(** A function of an attribute answers its request at once, as those of the example server do. *)
Definition answer_to (e : event) : list (reaction (list event)) :=
  match e with
  | ReadFunc _ p id _ _ _ _ => [AnswerRead p id 0 (Some [Some 1]) 1]
  | WriteFunc _ p id _ _ _ _ _ _ => [AnswerWrite p id 0]
  | _ => []
  end.

Definition note (e : event) : Queue.M (W := gatt (list event)) () := modify (fun g => set_app (g_app g ++ [e]) g).

#[local] Instance notes `{!Allocator} : App (list event) := {| call := note; timeout_add _ _ := mret 1; timeout_remove _ := mret () |}.
#[export] Instance recorder `{!Allocator} : App (list event) := {
  call e := match asks e with Some _ => _ ← note e; react_all (app := notes) (answer_to e) | None => note e end;
  timeout_add _ _ := mret 1;
  timeout_remove _ := mret ()
}.
#[local] Remove Hints notes : typeclass_instances.

#[export] Instance recorder_polite `{!Allocator} : Polite recorder.
Proof.
  split.
  - intros e p m He Hp. exists (Own (g_app (world m) ++ [e]) :: answer_to e). destruct e; try done; injection He as ->; (split; [by repeat constructor|done]).
  - intros e m P He HP. destruct e; try done; apply wp_modify, HP.
  - intros n t [q c r [db sv no re wr fo a]] P HP. apply wp_ret. apply (HP 1 a).
  - intros i [q c r [db sv no re wr fo a]] P HP. apply wp_ret. apply (HP a).
Qed.

(** ** Runs *)

Section Runs.
#[local] Existing Instance roomy.
Abbreviation mem := (Queue.mem (gatt (list event))).

Definition demo_uuid : bt_uuid_t := BT_UUID16 0x180D.
Definition run_of (x : outcome (() * mem)) : mem := match x with Ret (_, m) => m | _ => start [] 0 end.

(** A new database, with a service of four handles, with a characteristic. *)
Definition demo0 : mem := run_of (gatt_db_new (start [] 0)).
Definition demo1 : mem := run_of (exec 99 (AddService demo_uuid true 4) demo0).
Definition demo_service : ptr := match map_to_list (g_services (world demo1)) with (s, _) :: _ => s | [] => 0%nat end.
Lemma demo_reach0 may : reachable 99 may demo0.
Proof. eapply (reach_new 99 may [] 0). vm_compute. reflexivity. Qed.
Lemma demo_reach1 (may : operation -> Prop) : may (AddService demo_uuid true 4) -> reachable 99 may demo1.
Proof.
  intros Hmay. eapply (reach_step 99 may demo0 (AddService demo_uuid true 4)); [apply demo_reach0|exact Hmay|split; vm_compute; split; congruence|vm_compute; lia|]. vm_compute. reflexivity.
Qed.

(** A descriptor outside of the range of the service, with functions. *)
Definition demo_odd : mem := run_of (exec 99 (InsertDescriptor (demo_service, 0%nat) 9 demo_uuid 3 (Some 1%nat) (Some 2%nat) 0) demo1).
Lemma demo_odd_reach : reachable 99 any_call demo_odd.
Proof.
  eapply (reach_step 99 any_call demo1 (InsertDescriptor (demo_service, 0%nat) 9 demo_uuid 3 (Some 1%nat) (Some 2%nat) 0)); [by apply demo_reach1|done|split; [eexists _, _; split; vm_compute; reflexivity|vm_compute; split; congruence]|vm_compute; lia|].
  vm_compute. reflexivity.
Qed.

Lemma gatt_db_reachable_sound_witness : exists Q own d ss, intact demo_odd Q own d ss /\
  wp (exec 99 (Read (demo_service, 1%nat) 0 0 0 5 6)) (fun _ m' => exists Q' own' d' ss', intact m' Q' own' d' ss' /\
    (True -> layout (world demo_odd) d ss -> layout (world m') d' ss')) demo_odd.
Proof.
  destruct (gatt_db_reachable_sound 99 any_call demo_odd demo_odd_reach) as (Q & own & d & ss & I & _ & Hstep). exists Q, own, d, ss. split; [exact I|].
  apply (Hstep (Read (demo_service, 1%nat) 0 0 0 5 6)); [|vm_compute; lia]. split; [eexists _, _; split; vm_compute; reflexivity|split; [done|lia]].
Defined.

(** The function of the descriptor answers while it is called: the request does not wait any more. *)
Example read_answered : match exec 99 (Read (demo_service, 1%nat) 0 0 0 5 6) demo_odd with
  | Ret (_, m) => (g_app (world m), g_reads (world m)) | _ => ([], ∅) end
  = ([ReadFunc 1 (demo_service, 1%nat) 1 0 0 0 0; ReadDone 5 (demo_service, 1%nat) 0 (Some [Some 1]) 1 6], ∅).
Proof. vm_compute. reflexivity. Qed.

Lemma gatt_db_get_attribute_exact_witness :
  wp (gatt_db_get_attribute 1) (fun r m' => m' = demo1 /\ forall p, r = Some p <-> handle_of (world demo1) p 1) demo1.
Proof. exact (proj2 (gatt_db_get_attribute_exact 99 demo1 1 (demo_reach1 assigned I))). Defined.
End Runs.
