(* ===== verification/GattLook.v ===== *)
(** What a client of the attribute database sees: a characteristic that was added is found with the data it was
    added with, bytes that were written are read back, and what happens at the edges of the range of handles. *)

From stdpp Require Import gmap.
From S2P Require Import Prelude Util Alloc Queue QueueSpec QueueMain Uuid GattDb GattAccess GattSpec GattDestroy GattServices GattAttrs GattFind GattRequests GattMain GattRun.

(** ** Characteristics *)

Section Look.
Context `{!Allocator} {A : Type} {app : App A} `{!Polite app} (fuel : nat).
Abbreviation mem := (Queue.mem (gatt A)).
Implicit Types (m : mem).

(** A characteristic is added and looked up by its handles: the attribute of its value, and what its
    declaration says. *)
Definition add_and_look (p : attr) uuid permissions properties read_func write_func user_data : Queue.M (W := gatt A) (option (attr * option attr * option (Z * Z * Z * bt_uuid_t))) :=
  r ← gatt_db_service_add_characteristic (Some p) uuid permissions properties read_func write_func user_data;
  match r with
  | None => mret None
  | Some v =>
      h ← gatt_db_attribute_get_handle (Some v);
      found ← gatt_db_get_attribute h;
      decl ← gatt_db_get_attribute (h - 1);
      data ← gatt_db_attribute_get_char_data decl;
      mret (Some (v, found, data))
  end.

(** C26: A characteristic that is added to a service of a database that gave all handles itself is found: the
    handle of its value leads to the attribute that was returned, and the handle before it to a declaration with
    both handles, the properties and the UUID that were given (a 32-bit UUID in its long form).  They are the next
    two handles of the range of the service; the characteristic is refused only when the service has no two free
    slots or there is no memory. *)
Theorem gatt_db_characteristic_roundtrip m p uuid permissions properties read_func write_func user_data :
  reachable fuel assigned m -> live (world m) p -> uuid_ok uuid -> is_u8 properties ->
  wp (add_and_look p uuid permissions properties read_func write_func user_data) (fun r _ =>
    match r with
    | None => refused \/ exists x k, g_services (world m) !! p.1 = Some x /\ packed k x /\ s_num_handles x < Z.of_nat k + 2
    | Some (v, found, data) => found = Some v /\ exists x k h, g_services (world m) !! p.1 = Some x /\ packed k x /\ v = (p.1, S k) /\
        h = first_handle x + Z.of_nat k + 1 /\ h <= last_handle x /\ data = Some (h - 1, h, properties, long uuid)
    end) m.
Proof.
  intros (Q & own & d & ss & _ & In & L)%assigned_sound Hlive Hu Hprops; [|done]. destruct Hlive as (x & a & Hx & Ha). destruct p as [s i]. cbn [fst snd] in *.
  destruct (intact_service _ _ _ _ _ _ _ In Hx) as (Hs & Ht & Hok). destruct (tidy_packed _ Ht) as [k Hk]. unfold add_and_look, gatt_db_service_add_characteristic. do 2 gatt_step. eapply wp_load_attr; [done..|].
  eapply char_leads; [done..| |].
  { intros m' _ Hwhy. gatt_step. destruct Hwhy as [Hno|[?|?]]; [right|done|by left]. exists x, k. split_and!; [done|done|]. unfold accepted in Hno. lia. }
  intros m' Q' own' le h [In' L'] [_ Hroom] Eh Hle (q1 & q2 & q3 & q4 & W). pose proof (intact_sound _ _ _ _ _ In' (L' eq_refl L)) as So'. pose proof (so_size _ _ _ Hok) as Hsz. unfold zlen in Hsz.
  unfold next_free in Eh. change (0 =? 0) with true in Eh. cbv iota in Eh. rewrite (numbered_next own s x k 2 Hok (lay_numbered _ _ _ L s x Hx) Hk) in Eh by lia.
  destruct Hok as [_ _ Hf Hlast _]. assert (h <= last_handle x) as Hh by (unfold last_handle; lia). unfold UINT16_MAX in Hlast.
  set (a1 := attribute_of (u16 (h - 1)) _ _ _ _ _ _ q1 q2) in W. set (a2 := attribute_of h uuid _ _ _ _ _ q3 q4) in W. set (x' := put_slot (S k) a2 (put_slot k a1 x)) in W.
  assert (g_services (world m') !! s = Some x') as Hx' by (rewrite W; apply lookup_insert_eq).
  assert (s_attributes x' !! S k = Some (Attr a2)) as H2 by (apply put_slot_here; cbn; rewrite length_insert; lia).
  assert (s_attributes x' !! k = Some (Attr a1)) as H1 by (unfold x'; rewrite put_slot_other by lia; apply put_slot_here; lia).
  assert (a_handle a1 = h - 1) as E1 by (apply u16_small; lia). pose proof (reg_rising _ (proj2 (sound_listed _ _ _ _ _ So' s x' Hx'))) as Hrise.
  unfold gatt_db_attribute_get_handle. do 2 gatt_step. eapply wp_load_attr; [done..|]. do 2 gatt_step. eapply (get_attribute_found ∅ m' Q' own' d ss s x' (S k) a2); [apply So'|apply So'|done..|].
  gatt_step. change (a_handle a2 - 1) with (h - 1). rewrite <-E1. eapply (get_attribute_found ∅ m' Q' own' d ss s x' k a1); [apply So'|apply So'|done..|]. gatt_step.
  eapply char_data_wp; [exact Hx'|done|exact Hle|done| |exact H1|]; [unfold in_range; lia|]. gatt_step. split; [done|]. exists x, k, h. split_and!; [done|done|done|lia|done|].
  change (a_handle a1) with (u16 (h - 1)) in E1. by rewrite E1.
Qed.

(** ** Ends of the range of handles *)

(** After [gatt_db_clear] no service can be added any more: the next handle is 0 and stays 0. *)
Theorem gatt_db_clear_stops_add may m uuid primary n : reachable fuel may m -> (size (cells m) < fuel)%nat ->
  wp (_ ← gatt_db_clear fuel; gatt_db_add_service fuel uuid primary n) (fun r m' => r = None /\ gatt_db_isempty m' = Ret (true, m')) m.
Proof.
  intros (Q & own & d & ss & So & _)%reachable_intact Hf; [|done]. pose proof (in_db _ _ _ _ _ So) as D. gatt_step. unfold gatt_db_clear.
  eapply clear_range_wp; [done|eapply represents_fits; [apply D|done]|done|]. intros m' Q' own' d' ss' _ Hss D' _ Hz _.
  assert (ss' = []) as ->.
  { rewrite Hss. apply filter_no_elem. intros s Hs. destruct (db_service _ _ _ _ _ _ D s Hs) as (x & Hx & Hok%service_bounds). unfold meets, range. rewrite Hx. cbn [fst snd]. lia. }
  unfold gatt_db_add_service. gatt_step. eapply wp_load_db; [apply D'|]. rewrite Hz by done. unfold gatt_db_insert_service. change (0 <? 1) with true. cbv iota. gatt_step. split; [done|].
  destruct (db_services _ _ _ _ _ _ D') as (q & Hq & Ho). destruct (db_queue _ _ _ _ _ _ D' q _ Ho) as (es & HQ & Hes). destruct es as [|[]]; [|done].
  pose proof (rep_lookup m' Q' _ _ _ (db_rep _ _ _ _ _ _ D') HQ) as Hl. unfold gatt_db_isempty. rewrite (bind_run _ _ _ d' m') by (unfold load_db, fetch; by rewrite (db_there _ _ _ _ _ _ D')).
  rewrite Hq. unfold queue_isempty. rewrite (bind_run _ _ _ (block (1, [])) m') by (unfold load_queue; by rewrite Hl). done.
Qed.
End Look.

(** ** Values *)

Section Values.
Context `{!Allocator}.
Abbreviation mem := (Queue.mem (gatt (list event))).
Implicit Types (m : mem).

Definition write_and_read (p : attr) (offset : Z) (data : bytes) (opcode att : Z) (func func' : nat) (user_data : Z) : Queue.M (W := gatt (list event)) bool :=
  ok ← gatt_db_attribute_write (Some p) offset data opcode att (Some func) user_data;
  if (ok : bool) then gatt_db_attribute_read (Some p) offset opcode att (Some func') user_data else mret false.

(** Bytes written to an attribute of a reachable database that has no functions of its own are confirmed,
    and a read from the same offset delivers them, followed by the bytes that were stored behind them; without
    memory the write fails and nothing is called. *)
Theorem gatt_db_write_read fuel may m p x a offset data opcode att func func' user_data :
  reachable fuel may m -> g_services (world m) !! p.1 = Some x -> s_attributes x !! p.2 = Some (Attr a) -> p.2 <> 0%nat -> a_read_func a = None -> a_write_func a = None ->
  0 <= offset -> 0 < zlen data -> offset + zlen data <= UINT16_MAX ->
  wp (write_and_read p offset data opcode att func func' user_data) (fun r m' =>
    let rest := drop (Z.to_nat offset + length data) (bytes_of a) in
    (r = false /\ refused /\ g_app (world m') = g_app (world m)) \/
    (r = true /\ g_app (world m') = g_app (world m) ++ [WriteDone func p 0 user_data; ReadDone func' p 0 (Some ((Some <$> data) ++ rest)) (zlen data + zlen rest) user_data])) m.
Proof.
  intros (Q & own & d & ss & So & _)%reachable_intact Hx Ha Hi Hr Hw Ho Hd Hmax; [|exact _]. destruct p as [s i]. cbn [fst snd] in *. destruct (in_listed _ _ _ _ _ So s x Hx) as [_ Ht].
  pose proof (tidy_values _ Ht _ _ Ha) as Hv. assert (i < length (s_attributes x))%nat as Hlt by (by eapply lookup_lt_Some).
  unfold write_and_read. gatt_step. unfold gatt_db_attribute_write. gatt_step. eapply wp_load_attr; [done..|]. rewrite Hw. destruct (Z.eqb_spec (zlen data) 0); [lia|]. gatt_step.
  eapply write_value_wp; [done..| |].
  { intros m' _ _ W Href. do 2 gatt_step. left. by rewrite W. }
  intros m1 a' _ _ W1 (Hv' & Ea & Hback). destruct (Hback Hmax) as (front & Hfront & Hbytes & _). pose proof (bytes_of_length a' Hv') as Hlen.
  gatt_step. eapply wp_update_attr; [by rewrite W1|done|]. gatt_step. apply wp_modify. gatt_step. rewrite W1. gatt_simpl. fold (put_slot i a' x).
  unfold gatt_db_attribute_read. gatt_step. eapply (wp_load_attr s i (put_slot i a' x) a'); [gatt_simpl; apply lookup_insert_eq|by apply put_slot_here|].
  assert (a_read_func a' = None) as -> by (by rewrite Ea). rewrite Hbytes in Hlen. rewrite !zlen_app, Hfront in Hlen. set (rest := drop _ (bytes_of a)) in *. pose proof (zlen_nonneg rest) as Hrest.
  assert (zlen (Some <$> data) = zlen data) as Hdl by (unfold zlen; by rewrite length_fmap). destruct (Z.ltb_spec (a_value_len a') offset); [lia|]. gatt_step. destruct (Z.eqb_spec offset (a_value_len a')); [lia|].
  unfold value_ok in Hv'. unfold bytes_of in Hbytes. destruct (a_value a') as [v|]; [|lia]. change (default [] (Some v)) with v in Hbytes. do 3 gatt_step. rewrite mem_read_ok by lia. do 3 gatt_step. apply wp_modify. gatt_step. right. split; [done|].
  gatt_simpl. rewrite <-app_assoc. cbn [app].
  assert (take (Z.to_nat (a_value_len a' - offset)) (drop (Z.to_nat offset) v) = (Some <$> data) ++ rest) as ->.
  { transitivity (drop (Z.to_nat offset) (take (Z.to_nat (a_value_len a')) v)); [rewrite skipn_firstn_comm; f_equal; lia|]. rewrite Hbytes, drop_app_length'; [done|]. unfold zlen in Hfront. lia. }
  by replace (a_value_len a' - offset) with (zlen data + zlen rest) by lia.
Qed.
End Values.

(** ** Runs *)

Section Looks.
#[local] Existing Instance roomy.

Lemma demo_permits : permitted (world demo1) (AddCharacteristic (demo_service, 0%nat) (BT_UUID16 0x2A37) 3 2 None None 7).
Proof. split; [eexists _, _; split; vm_compute; reflexivity|vm_compute; split; congruence]. Qed.

Lemma gatt_db_characteristic_roundtrip_witness :
  wp (add_and_look (demo_service, 0%nat) (BT_UUID16 0x2A37) 3 2 None None 7) (fun r _ =>
    match r with
    | None => refused \/ exists x k, g_services (world demo1) !! demo_service = Some x /\ packed k x /\ s_num_handles x < Z.of_nat k + 2
    | Some (v, found, data) => found = Some v /\ exists x k h, g_services (world demo1) !! demo_service = Some x /\ packed k x /\ v = (demo_service, S k) /\
        h = first_handle x + Z.of_nat k + 1 /\ h <= last_handle x /\ data = Some (h - 1, h, 2, long (BT_UUID16 0x2A37))
    end) demo1.
Proof. apply (gatt_db_characteristic_roundtrip 99 demo1 (demo_service, 0%nat)); [exact (demo_reach1 assigned I)|exact (proj1 demo_permits)|exact (proj2 demo_permits)|vm_compute; split; congruence]. Defined.

Lemma gatt_db_clear_stops_add_witness :
  wp (_ ← gatt_db_clear 99; gatt_db_add_service 99 demo_uuid true 4) (fun r m' => r = None /\ gatt_db_isempty m' = Ret (true, m')) demo1.
Proof. apply (gatt_db_clear_stops_add 99 any_call demo1); [exact (demo_reach1 any_call I)|vm_compute; lia]. Defined.

Definition demo2 : Queue.mem (gatt (list event)) := run_of (exec 99 (AddCharacteristic (demo_service, 0%nat) (BT_UUID16 0x2A37) 3 2 None None 7) demo1).

Lemma demo_reach2 : reachable 99 any_call demo2.
Proof. eapply (reach_step 99 any_call demo1); [exact (demo_reach1 any_call I)|done|exact demo_permits|vm_compute; lia|]. vm_compute. reflexivity. Qed.

Lemma gatt_db_write_read_witness : exists a,
  wp (write_and_read (demo_service, 2%nat) 1 [10; 20] 0 0 5 6 7) (fun r m' =>
    let rest := drop (Z.to_nat 1 + length [10; 20]) (bytes_of a) in
    (r = false /\ refused /\ g_app (world m') = g_app (world demo2)) \/
    (r = true /\ g_app (world m') = g_app (world demo2) ++
      [WriteDone 5 (demo_service, 2%nat) 0 7; ReadDone 6 (demo_service, 2%nat) 0 (Some ((Some <$> [10; 20]) ++ rest)) (zlen [10; 20] + zlen rest) 7])) demo2.
Proof.
  eexists. eapply (gatt_db_write_read 99 any_call demo2 (demo_service, 2%nat)); [exact demo_reach2|vm_compute; reflexivity|vm_compute; reflexivity|done|reflexivity|reflexivity|lia|vm_compute; reflexivity|vm_compute; congruence].
Defined.

(** A service that is inserted around another one is accepted: the ranges [3..10] and [5..6] overlap. *)
Example insert_around :
  let m := run_of (exec 99 (InsertService 5 demo_uuid true 2) demo0) in
  match gatt_db_insert_service 99 3 demo_uuid true 8 m with
  | Ret (Some p, m') => (fun x => (first_handle x, last_handle x)) <$> (map_to_list (g_services (world m'))).*2 = [(5, 6); (3, 10)] \/ (fun x => (first_handle x, last_handle x)) <$> (map_to_list (g_services (world m'))).*2 = [(3, 10); (5, 6)]
  | _ => False
  end.
Proof. vm_compute. auto. Qed.

(** A service with the handles 1 to 4 and a descriptor at 4: a characteristic gets the handles 5 and 6 and is
    accepted, but is not found, nor is it in the range of its service. *)
Example added_past_end :
  match (_ ← gatt_db_service_insert_descriptor (Some (demo_service, 0%nat)) 4 demo_uuid 3 None None 0; add_and_look (demo_service, 0%nat) demo_uuid 3 2 None None 7) demo1 with
  | Ret (Some (v, found, data), m) => (found, data, (fun x => last_handle x) <$> g_services (world m) !! demo_service)
  | _ => (None, None, None)
  end = (None, None, Some 4).
Proof. vm_compute. reflexivity. Qed.

(** An observer with one function only makes the notification of a new service call a null pointer. *)
Example notify_null : (
  _ ← gatt_db_register None (Some 1%nat) 0 None;
  gatt_db_service_set_active 99 (Some (demo_service, 0%nat)) true) demo1 = Undef.
Proof. vm_compute. reflexivity. Qed.
End Looks.
