(* ===== verification/ServerState.v ===== *)
(** The state of the GATT server of src/bt/btgatt_server/src/shared/gatt-server.c, its interface to the transport,
    and the tests that its requests share.

    The blocks of the server are in the state of the application of [GattDb]; a use of a block that was freed, or of
    the server after that, is [Undef].  There is one server, so the pointers to it are left out. *)

From stdpp Require Import gmap.
From S2P Require Import Prelude Alloc Queue Uuid GattDb GattAccess.

(** ** Constants *)

Definition BT_ATT_SECURITY_MEDIUM : Z := 2.
Definition BT_ATT_SECURITY_HIGH : Z := 3.
Definition BT_ATT_SECURITY_FIPS : Z := 4.
Definition BT_ATT_DEFAULT_LE_MTU : Z := 23.
Definition DEFAULT_MAX_PREP_QUEUE_LEN : Z := 30.

Definition BT_ATT_OP_ERROR_RSP : Z := 0x01.
Definition BT_ATT_OP_MTU_REQ : Z := 0x02.
Definition BT_ATT_OP_MTU_RSP : Z := 0x03.
Definition BT_ATT_OP_FIND_INFO_REQ : Z := 0x04.
Definition BT_ATT_OP_FIND_INFO_RSP : Z := 0x05.
Definition BT_ATT_OP_FIND_BY_TYPE_REQ : Z := 0x06.
Definition BT_ATT_OP_FIND_BY_TYPE_RSP : Z := 0x07.
Definition BT_ATT_OP_READ_BY_TYPE_REQ : Z := 0x08.
Definition BT_ATT_OP_READ_BY_TYPE_RSP : Z := 0x09.
Definition BT_ATT_OP_READ_REQ : Z := 0x0a.
Definition BT_ATT_OP_READ_RSP : Z := 0x0b.
Definition BT_ATT_OP_READ_BLOB_REQ : Z := 0x0c.
Definition BT_ATT_OP_READ_BLOB_RSP : Z := 0x0d.
Definition BT_ATT_OP_READ_MULT_REQ : Z := 0x0e.
Definition BT_ATT_OP_READ_MULT_RSP : Z := 0x0f.
Definition BT_ATT_OP_READ_BY_GRP_TYPE_REQ : Z := 0x10.
Definition BT_ATT_OP_READ_BY_GRP_TYPE_RSP : Z := 0x11.
Definition BT_ATT_OP_WRITE_REQ : Z := 0x12.
Definition BT_ATT_OP_WRITE_RSP : Z := 0x13.
Definition BT_ATT_OP_WRITE_CMD : Z := 0x52.
Definition BT_ATT_OP_PREP_WRITE_REQ : Z := 0x16.
Definition BT_ATT_OP_PREP_WRITE_RSP : Z := 0x17.
Definition BT_ATT_OP_EXEC_WRITE_REQ : Z := 0x18.
Definition BT_ATT_OP_EXEC_WRITE_RSP : Z := 0x19.
Definition BT_ATT_OP_HANDLE_VAL_NOT : Z := 0x1B.

Definition BT_ATT_ERROR_INVALID_HANDLE : Z := 0x01.
Definition BT_ATT_ERROR_READ_NOT_PERMITTED : Z := 0x02.
Definition BT_ATT_ERROR_WRITE_NOT_PERMITTED : Z := 0x03.
Definition BT_ATT_ERROR_INVALID_PDU : Z := 0x04.
Definition BT_ATT_ERROR_AUTHENTICATION : Z := 0x05.
Definition BT_ATT_ERROR_REQUEST_NOT_SUPPORTED : Z := 0x06.
Definition BT_ATT_ERROR_PREPARE_QUEUE_FULL : Z := 0x09.
Definition BT_ATT_ERROR_ATTRIBUTE_NOT_FOUND : Z := 0x0A.
Definition BT_ATT_ERROR_INSUFFICIENT_ENCRYPTION_KEY_SIZE : Z := 0x0C.
Definition BT_ATT_ERROR_UNLIKELY : Z := 0x0E.
Definition BT_ATT_ERROR_INSUFFICIENT_ENCRYPTION : Z := 0x0F.
Definition BT_ATT_ERROR_UNSUPPORTED_GROUP_TYPE : Z := 0x10.
Definition BT_ATT_ERROR_INSUFFICIENT_RESOURCES : Z := 0x11.
Definition BT_ERROR_ALREADY_IN_PROGRESS : Z := 0xfe.
Definition BT_ERROR_OUT_OF_RANGE : Z := 0xff.

Definition BT_ATT_PERM_WRITE : Z := 0x02.
Definition BT_ATT_PERM_READ_ENCRYPT : Z := 0x04.
Definition BT_ATT_PERM_WRITE_ENCRYPT : Z := 0x08.
Definition BT_ATT_PERM_ENCRYPT : Z := 0x0C.
Definition BT_ATT_PERM_READ_AUTHEN : Z := 0x10.
Definition BT_ATT_PERM_WRITE_AUTHEN : Z := 0x20.
Definition BT_ATT_PERM_AUTHEN : Z := 0x30.
Definition BT_ATT_PERM_SECURE : Z := 0x0300.
Definition BT_GATT_CHRC_PROP_EXT_PROP : Z := 0x80.
Definition BT_GATT_CHRC_EXT_PROP_RELIABLE_WRITE : Z := 0x01.
Definition READ_MASK : Z := Z.lor (Z.lor BT_ATT_PERM_READ BT_ATT_PERM_READ_AUTHEN) BT_ATT_PERM_READ_ENCRYPT.
Definition WRITE_MASK : Z := Z.lor (Z.lor BT_ATT_PERM_WRITE BT_ATT_PERM_WRITE_AUTHEN) BT_ATT_PERM_WRITE_ENCRYPT.

Definition ext_desc_uuid : bt_uuid_t := BT_UUID16 0x2900.

(** ** Data *)

(** The functions of the server that the database calls, by number; any other number is of the application. *)
Definition read_complete : nat := 0.
Definition read_by_type_complete : nat := 1.
Definition attribute_read : nat := 2.
Definition read_multiple_complete : nat := 3.
Definition ext_prop_value : nat := 4.
Definition write_complete : nat := 0.
Definition prep_write_complete : nat := 1.
Definition exec_write_complete : nat := 2.

(** [op->server] is null when the server was freed before the operation. *)
Record async_read_op := mk_read_op {
  ro_server : bool;
  ro_opcode : Z;
  ro_done : bool;
  ro_pdu : option raw;
  ro_pdu_len : Z;
  ro_value_len : Z;
  ro_db_data : option ptr
}.

Record async_write_op := mk_write_op {
  wo_server : bool;
  wo_opcode : Z
}.

Record prep_write_data := mk_prep {
  pw_value : raw;
  pw_handle : Z;
  pw_offset : Z;
  pw_length : Z;
  pw_reliable_supported : bool
}.

(** The request is kept until the database has agreed to it. *)
Record prep_write_complete_data := mk_complete {
  pc_pdu : bytes;
  pc_length : Z
}.

Record read_multiple_resp_data := mk_multi {
  rm_handles : list Z;
  rm_cur_handle : Z;
  rm_num_handles : Z;
  rm_rsp_data : raw;
  rm_length : Z;
  rm_mtu : Z
}.

(** [sv_ids] are the numbers of the registered functions, in the order of [handled]. *)
Record bt_gatt_server := mk_server {
  sv_ref_count : Z;
  sv_ids : list Z;
  sv_mtu : Z;
  sv_min_enc_size : Z;
  sv_prep_queue : option ptr;
  sv_max_prep_queue_len : Z;
  sv_pending_read_op : option ptr;
  sv_pending_write_op : option ptr
}.

(** [struct find_by_type_val_data] *)
Record find_by_type_val_data := mk_find {
  fv_pdu : raw;
  fv_len : Z;
  fv_mtu : Z;
  fv_ecode : Z
}.

(** The blocks of the server, its variables that functions of the database fill in while it waits for them
    ([None] outside of their scope), the transport and the state of the application. *)
Record srv (T U : Type) := mk_srv {
  v_server : option bt_gatt_server;
  v_read_ops : gmap ptr async_read_op;
  v_write_ops : gmap ptr async_write_op;
  v_preps : gmap ptr prep_write_data;
  v_completes : gmap ptr prep_write_complete_data;
  v_multis : gmap ptr read_multiple_resp_data;
  v_iov : option (option raw * Z);
  v_find : option find_by_type_val_data;
  v_ext_prop : option Z;
  v_att : T;
  v_user : U
}.
Arguments mk_srv {T U} _ _ _ _ _ _ _ _ _ _ _.
Arguments v_server {T U} _.
Arguments v_read_ops {T U} _.
Arguments v_write_ops {T U} _.
Arguments v_preps {T U} _.
Arguments v_completes {T U} _.
Arguments v_multis {T U} _.
Arguments v_iov {T U} _.
Arguments v_find {T U} _.
Arguments v_ext_prop {T U} _.
Arguments v_att {T U} _.
Arguments v_user {T U} _.

(** What the server needs of [struct bt_att]: the size of the messages of the connection, its security level and
    key size, a place for messages, and the functions for messages of the peer.  A message and a registration have a
    number, 0 when they were refused. *)
Class Transport (T : Type) := {
  att_mtu : T -> Z;
  att_set_mtu : Z -> T -> T;
  att_security : T -> Z * Z;
  att_send : Z -> raw -> T -> Z * T;
  att_register : Z -> T -> Z * T;
  att_unregister : Z -> T -> T
}.

Definition ENOENT : Z := 2.
Definition ENOMEM : Z := 12.
Definition EOVERFLOW : Z := 75.
Definition EALREADY : Z := 114.

Definition att_ecode_from_error (err : Z) : Z :=
  if (0 <? err) && (err <? 255) then err
  else if err =? - ENOENT then BT_ATT_ERROR_INVALID_HANDLE
  else if err =? - ENOMEM then BT_ATT_ERROR_INSUFFICIENT_RESOURCES
  else if err =? - EALREADY then BT_ERROR_ALREADY_IN_PROGRESS
  else if err =? - EOVERFLOW then BT_ERROR_OUT_OF_RANGE
  else BT_ATT_ERROR_UNLIKELY.

Section State.
Context `{!Allocator} {T U : Type} `{!Transport T}.
Abbreviation M := (Queue.M (W := gatt (srv T U))).

(** ** The state of the server *)

Definition set_server x (v : srv T U) := mk_srv x (v_read_ops v) (v_write_ops v) (v_preps v) (v_completes v) (v_multis v) (v_iov v) (v_find v) (v_ext_prop v) (v_att v) (v_user v).
Definition set_read_ops x (v : srv T U) := mk_srv (v_server v) x (v_write_ops v) (v_preps v) (v_completes v) (v_multis v) (v_iov v) (v_find v) (v_ext_prop v) (v_att v) (v_user v).
Definition set_write_ops x (v : srv T U) := mk_srv (v_server v) (v_read_ops v) x (v_preps v) (v_completes v) (v_multis v) (v_iov v) (v_find v) (v_ext_prop v) (v_att v) (v_user v).
Definition set_preps x (v : srv T U) := mk_srv (v_server v) (v_read_ops v) (v_write_ops v) x (v_completes v) (v_multis v) (v_iov v) (v_find v) (v_ext_prop v) (v_att v) (v_user v).
Definition set_completes x (v : srv T U) := mk_srv (v_server v) (v_read_ops v) (v_write_ops v) (v_preps v) x (v_multis v) (v_iov v) (v_find v) (v_ext_prop v) (v_att v) (v_user v).
Definition set_multis x (v : srv T U) := mk_srv (v_server v) (v_read_ops v) (v_write_ops v) (v_preps v) (v_completes v) x (v_iov v) (v_find v) (v_ext_prop v) (v_att v) (v_user v).
Definition set_iov x (v : srv T U) := mk_srv (v_server v) (v_read_ops v) (v_write_ops v) (v_preps v) (v_completes v) (v_multis v) x (v_find v) (v_ext_prop v) (v_att v) (v_user v).
Definition set_find x (v : srv T U) := mk_srv (v_server v) (v_read_ops v) (v_write_ops v) (v_preps v) (v_completes v) (v_multis v) (v_iov v) x (v_ext_prop v) (v_att v) (v_user v).
Definition set_ext_prop x (v : srv T U) := mk_srv (v_server v) (v_read_ops v) (v_write_ops v) (v_preps v) (v_completes v) (v_multis v) (v_iov v) (v_find v) x (v_att v) (v_user v).
Definition set_att (x : T) (v : srv T U) := mk_srv (v_server v) (v_read_ops v) (v_write_ops v) (v_preps v) (v_completes v) (v_multis v) (v_iov v) (v_find v) (v_ext_prop v) x (v_user v).

Definition set_refs x s := mk_server x (sv_ids s) (sv_mtu s) (sv_min_enc_size s) (sv_prep_queue s) (sv_max_prep_queue_len s) (sv_pending_read_op s) (sv_pending_write_op s).
Definition set_ids x s := mk_server (sv_ref_count s) x (sv_mtu s) (sv_min_enc_size s) (sv_prep_queue s) (sv_max_prep_queue_len s) (sv_pending_read_op s) (sv_pending_write_op s).
Definition set_mtu x s := mk_server (sv_ref_count s) (sv_ids s) x (sv_min_enc_size s) (sv_prep_queue s) (sv_max_prep_queue_len s) (sv_pending_read_op s) (sv_pending_write_op s).
Definition set_pending_read x s := mk_server (sv_ref_count s) (sv_ids s) (sv_mtu s) (sv_min_enc_size s) (sv_prep_queue s) (sv_max_prep_queue_len s) x (sv_pending_write_op s).
Definition set_pending_write x s := mk_server (sv_ref_count s) (sv_ids s) (sv_mtu s) (sv_min_enc_size s) (sv_prep_queue s) (sv_max_prep_queue_len s) (sv_pending_read_op s) x.

Definition look {B} (f : srv T U -> option B) : M B := fetch (fun g => f (g_app g)).
Definition change (f : srv T U -> srv T U) : M () := modify (fun g => set_app (f (g_app g)) g).

Definition load_server : M bt_gatt_server := look v_server.
Definition update_server (f : bt_gatt_server -> bt_gatt_server) : M () := s ← load_server; change (set_server (Some (f s))).
Definition load_read_op (p : ptr) : M async_read_op := look (fun v => v_read_ops v !! p).
Definition store_read_op (p : ptr) (x : async_read_op) : M () := change (fun v => set_read_ops (<[p := x]> (v_read_ops v)) v).
Definition load_prep (p : ptr) : M prep_write_data := look (fun v => v_preps v !! p).
Definition store_prep (p : ptr) (x : prep_write_data) : M () := change (fun v => set_preps (<[p := x]> (v_preps v)) v).
Definition load_multi (p : ptr) : M read_multiple_resp_data := look (fun v => v_multis v !! p).

(** [server->att]: the server must be there. *)
Definition bt_att_get_mtu : M Z := _ ← load_server; look (fun v => Some (att_mtu (v_att v))).
Definition bt_att_get_security : M (Z * Z) := _ ← load_server; look (fun v => Some (att_security (v_att v))).
Definition bt_att_send (opcode : Z) (pdu : raw) : M Z :=
  _ ← load_server;
  '(id, t) ← look (fun v => Some (att_send opcode pdu (v_att v)));
  _ ← change (set_att t);
  mret id.

Definition bt_att_send_error_rsp (opcode handle error : Z) : M Z :=
  _ ← load_server;
  if opcode =? 0 then mret 0
  else bt_att_send BT_ATT_OP_ERROR_RSP (Some <$> ([opcode] ++ put_le16 handle ++ [att_ecode_from_error error])).

(** The first [n] bytes of an area; nothing is read from a null pointer for no bytes. *)
Definition copy_from (value : option raw) (n : Z) : M raw := lift (mem_read (default [] value) 0 n).

(** Bytes of a request. *)
Definition le16_at (pdu : bytes) (off : nat) : M Z := lift (get_le16 (drop off pdu)).

(** ** Permissions *)

Definition check_min_key_size (min_size size : Z) : bool :=
  if (min_size =? 0) || (size =? 0) then true else min_size <=? size.

Definition has (perm mask : Z) : bool := negb (Z.land perm mask =? 0).

(** One of the three tests of the security level: [None] goes on. *)
Definition check_level (server : bt_gatt_server) (security enc_size level error : Z) : option Z :=
  if security <? level then Some error
  else if negb (check_min_key_size (sv_min_enc_size server) enc_size) then Some BT_ATT_ERROR_INSUFFICIENT_ENCRYPTION_KEY_SIZE
  else None.

Definition check_permissions (attrib : attr) (mask : Z) : M Z :=
  perm ← gatt_db_attribute_get_permissions (Some attrib);
  if negb (perm =? 0) && has mask BT_ATT_PERM_READ && negb (has perm BT_ATT_PERM_READ) then mret BT_ATT_ERROR_READ_NOT_PERMITTED
  else if negb (perm =? 0) && has mask BT_ATT_PERM_WRITE && negb (has perm BT_ATT_PERM_WRITE) then mret BT_ATT_ERROR_WRITE_NOT_PERMITTED
  else
    let perm := Z.land perm mask in
    if perm =? 0 then mret 0
    else
      '(security, enc_size) ← bt_att_get_security;
      server ← load_server;
      if security <? 0 then mret BT_ATT_ERROR_UNLIKELY
      else
        match (if has perm BT_ATT_PERM_SECURE then check_level server security enc_size BT_ATT_SECURITY_FIPS BT_ATT_ERROR_AUTHENTICATION else None) with
        | Some e => mret e
        | None =>
            match (if has perm BT_ATT_PERM_AUTHEN then check_level server security enc_size BT_ATT_SECURITY_HIGH BT_ATT_ERROR_AUTHENTICATION else None) with
            | Some e => mret e
            | None =>
                match (if has perm BT_ATT_PERM_ENCRYPT then check_level server security enc_size BT_ATT_SECURITY_MEDIUM BT_ATT_ERROR_INSUFFICIENT_ENCRYPTION else None) with
                | Some e => mret e
                | None => mret 0
                end
            end
        end.

(** A message of [len] bytes from a buffer, and a buffer of the size of the messages. *)
Definition message (pdu : raw) (len : Z) : M raw := lift (mem_read pdu 0 len).
Definition buffer (mtu : Z) : raw := replicate (Z.to_nat mtu) None.
End State.
