(* ===== verification/ServerFind.v ===== *)
(** The requests of src/bt/btgatt_server/src/shared/gatt-server.c that search the attribute database: Read By Group
    Type, Read By Type, Find Information and Find By Type Value.

    A read that Read By Type starts ends in [read_by_type_read_complete_cb], which starts the next one. *)

From stdpp Require Import gmap.
From S2P Require Import Prelude Alloc Queue Uuid GattDb GattAccess ServerState.

Section Find.
Context `{!Allocator} {T U : Type} `{!Transport T} {app : App (srv T U)} (fuel : nat).
Abbreviation M := (Queue.M (W := gatt (srv T U))).

(** ** Read By Group Type *)

Definition get_uuid_le (uuid : bytes) (len : Z) : outcome (option bt_uuid_t) :=
  if len =? 2 then v ← get_le16 uuid; Ret (Some (bt_uuid16_create v))
  else if len =? 16 then u ← mem_read uuid 0 16; Ret (Some (bt_uuid128_create (bswap_128 u)))
  else Ret None.

(** It fills in the variable [value] of [encode_read_by_grp_type_rsp]. *)
Definition attribute_read_cb (value : option raw) (length : Z) : M () :=
  _ ← look v_iov; change (set_iov (Some (value, length))).

(** The loop, with [data_val_len] as the first attribute set it; the result is the response and its length, or
    [None] for [false]. *)
Fixpoint encode_groups (n : nat) (q : option ptr) (mtu : Z) (pdu : raw) (iter data_val_len : Z) : M (option (raw * Z)) :=
  h ← queue_peek_head q;
  if h =? 0 then mret (Some (pdu, iter))
  else
    match n with
    | O => undef
    | S n =>
        z ← queue_pop_head q;
        p ← at_addr z;
        _ ← change (set_iov (Some (None, 0)));
        ok ← gatt_db_attribute_read (Some p) 0 BT_ATT_OP_READ_BY_GRP_TYPE_REQ 0 (Some attribute_read) 0;
        '(base, len) ← look v_iov;
        if negb ok || (len =? 0) then mret None
        else
          let first := iter =? 0 in
          let data_val_len := if first then u8 (Z.min (Z.min (u32 (mtu - 6)) 251) len) else data_val_len in
          pdu ← if first then lift (mem_set pdu 0 (Some (u8 (data_val_len + 4)))) else mret pdu;
          if negb first && negb (len =? data_val_len) then mret (Some (pdu, iter))
          else
            let iter := if first then 1 else iter in
            if mtu - 1 <? iter + data_val_len + 4 then mret (Some (pdu, iter))
            else
              o ← gatt_db_attribute_get_service_handles (Some p);
              '(start_handle, end_handle) ← lift (of_option o);
              pdu ← lift (mem_write pdu iter (Some <$> put_le16 start_handle));
              pdu ← lift (mem_write pdu (iter + 2) (Some <$> put_le16 end_handle));
              value ← copy_from base data_val_len;
              pdu ← lift (mem_write pdu (iter + 4) value);
              encode_groups n q mtu pdu (iter + data_val_len + 4) data_val_len
    end.

Definition encode_read_by_grp_type_rsp (q : option ptr) (mtu : Z) : M (option (raw * Z)) :=
  n ← walk_fuel;
  r ← encode_groups n q mtu (buffer mtu) 0 0;
  _ ← change (set_iov None);
  mret r.

(** The end of a request with an error. *)
Definition fail_request (q : option ptr) (opcode ehandle ecode : Z) : M () :=
  _ ← queue_destroy fuel q None;
  _ ← bt_att_send_error_rsp opcode ehandle ecode;
  mret ().

Definition read_by_grp_type_cb (opcode : Z) (pdu : bytes) : M () :=
  let length := zlen pdu in
  mtu ← bt_att_get_mtu;
  if negb (length =? 6) && negb (length =? 20) then fail_request None opcode 0 BT_ATT_ERROR_INVALID_PDU
  else
    q ← queue_new;
    start ← le16_at pdu 0;
    end_ ← le16_at pdu 2;
    type ← lift (get_uuid_le (drop 4 pdu) (length - 4));
    if (start =? 0) || (end_ =? 0) then fail_request q opcode 0 BT_ATT_ERROR_INVALID_HANDLE
    else if end_ <? start then fail_request q opcode start BT_ATT_ERROR_INVALID_HANDLE
    else
      type ← lift (of_option type);
      is_prim ← uuid_eq type primary_service_uuid;
      is_snd ← uuid_eq type secondary_service_uuid;
      if negb is_prim && negb is_snd then fail_request q opcode start BT_ATT_ERROR_UNSUPPORTED_GROUP_TYPE
      else
        _ ← gatt_db_read_by_group_type start end_ type q;
        queue_isempty q ≫= fun e : bool =>
        if e then fail_request q opcode start BT_ATT_ERROR_ATTRIBUTE_NOT_FOUND
        else
          r ← encode_read_by_grp_type_rsp q mtu;
          match r with
          | None => fail_request q opcode start BT_ATT_ERROR_UNLIKELY
          | Some (rsp, rsp_len) =>
              _ ← queue_destroy fuel q None;
              rsp ← message rsp (u16 rsp_len);
              _ ← bt_att_send BT_ATT_OP_READ_BY_GRP_TYPE_RSP rsp;
              mret ()
          end.

(** The same with the error first. *)
Definition refuse_request (q : option ptr) (opcode ehandle ecode : Z) : M () :=
  _ ← bt_att_send_error_rsp opcode ehandle ecode;
  queue_destroy fuel q None.

(** ** Read By Type *)

Definition async_read_op_destroy (p : ptr) : M () :=
  op ← load_read_op p;
  _ ← if ro_server op then update_server (set_pending_read None) else mret ();
  _ ← queue_destroy fuel (ro_db_data op) None;
  _ ← load_read_op p;
  change (fun v => set_read_ops (delete p (v_read_ops v)) v).

Definition process_read_by_type (p : ptr) : M () :=
  op ← load_read_op p;
  z ← queue_pop_head (ro_db_data op);
  if ro_done op || (z =? 0) then
    rsp ← copy_from (ro_pdu op) (u16 (ro_pdu_len op));
    _ ← bt_att_send BT_ATT_OP_READ_BY_TYPE_RSP rsp;
    async_read_op_destroy p
  else
    a ← at_addr z;
    let error ecode :=
      h ← gatt_db_attribute_get_handle (Some a);
      _ ← bt_att_send_error_rsp BT_ATT_OP_READ_BY_TYPE_REQ h ecode;
      async_read_op_destroy p in
    ecode ← check_permissions a READ_MASK;
    if negb (ecode =? 0) then error ecode
    else
      gatt_db_attribute_read (Some a) 0 (ro_opcode op) 0 (Some read_by_type_complete) (addr p) ≫= fun ok : bool =>
      if ok then mret () else error BT_ATT_ERROR_UNLIKELY.

Definition set_op_done op := mk_read_op (ro_server op) (ro_opcode op) true (ro_pdu op) (ro_pdu_len op) (ro_value_len op) (ro_db_data op).
Definition set_op_pdu pdu len value_len op := mk_read_op (ro_server op) (ro_opcode op) (ro_done op) pdu len value_len (ro_db_data op).

Definition read_by_type_read_complete_cb (attrib : attr) (err : Z) (value : option raw) (len : Z) (p : ptr) : M () :=
  op ← load_read_op p;
  if negb (ro_server op) then async_read_op_destroy p
  else
    mtu ← bt_att_get_mtu;
    handle ← gatt_db_attribute_get_handle (Some attrib);
    if negb (err =? 0) then
      _ ← bt_att_send_error_rsp BT_ATT_OP_READ_BY_TYPE_REQ handle err;
      async_read_op_destroy p
    else
      let first := ro_pdu_len op =? 0 in
      let value_len := if first then Z.min (Z.min (u32 (mtu - 4)) 253) len else ro_value_len op in
      pdu ← lift (of_option (ro_pdu op));
      pdu ← if first then lift (mem_set pdu 0 (Some (u8 (value_len + 2)))) else mret pdu;
      let pdu_len := if first then 1 else ro_pdu_len op in
      op ← if negb first && negb (len =? value_len) then mret (set_op_done (set_op_pdu (Some pdu) pdu_len value_len op))
           else if u32 (mtu - 1) <? pdu_len + value_len + 2 then mret (set_op_done (set_op_pdu (Some pdu) pdu_len value_len op))
           else
             pdu ← lift (mem_write pdu pdu_len (Some <$> put_le16 handle));
             v ← copy_from value value_len;
             pdu ← lift (mem_write pdu (pdu_len + 2) v);
             let op := set_op_pdu (Some pdu) (pdu_len + value_len + 2) value_len op in
             mret (if pdu_len + value_len + 2 =? u32 (mtu - 1) then set_op_done op else op);
      _ ← store_read_op p op;
      process_read_by_type p.

Definition read_by_type_cb (opcode : Z) (pdu : bytes) : M () :=
  let length := zlen pdu in
  if negb (length =? 6) && negb (length =? 20) then refuse_request None opcode 0 BT_ATT_ERROR_INVALID_PDU
  else
    q ← queue_new;
    start ← le16_at pdu 0;
    end_ ← le16_at pdu 2;
    type ← lift (get_uuid_le (drop 4 pdu) (length - 4));
    if (start =? 0) || (end_ =? 0) then refuse_request q opcode 0 BT_ATT_ERROR_INVALID_HANDLE
    else if end_ <? start then refuse_request q opcode start BT_ATT_ERROR_INVALID_HANDLE
    else
      type ← lift (of_option type);
      _ ← gatt_db_read_by_type fuel start end_ type q;
      queue_isempty q ≫= fun e : bool =>
      if e then refuse_request q opcode start BT_ATT_ERROR_ATTRIBUTE_NOT_FOUND
      else
        server ← load_server;
        match sv_pending_read_op server with
        | Some _ => refuse_request q opcode start BT_ATT_ERROR_UNLIKELY
        | None =>
            p ← new0 (fun g => dom (v_read_ops (g_app g)));
            mtu ← bt_att_get_mtu;
            try_alloc ≫= fun ok : bool =>
            if negb ok then refuse_request q opcode start BT_ATT_ERROR_INSUFFICIENT_RESOURCES
            else
              _ ← store_read_op p (mk_read_op true opcode false (Some (buffer mtu)) 0 0 q);
              _ ← update_server (set_pending_read (Some p));
              process_read_by_type p
        end.

(** ** Find Information *)

(** The loop, with [uuid_len] as the first attribute set it. *)
Fixpoint encode_infos (n : nat) (q : option ptr) (mtu : Z) (pdu : raw) (iter uuid_len : Z) : M (option (raw * Z)) :=
  h ← queue_peek_head q;
  if h =? 0 then mret (Some (pdu, iter))
  else
    match n with
    | O => undef
    | S n =>
        z ← queue_pop_head q;
        p ← at_addr z;
        handle ← gatt_db_attribute_get_handle (Some p);
        type ← gatt_db_attribute_get_type (Some p);
        match type with
        | None => mret None
        | Some type =>
            if handle =? 0 then mret None
            else
              let cur_uuid_len := bt_uuid_len type in
              let go pdu iter uuid_len :=
                if mtu - 1 <? iter + uuid_len + 2 then mret (Some (pdu, iter))
                else
                  pdu ← lift (mem_write pdu iter (Some <$> put_le16 handle));
                  le ← lift (bt_uuid_to_le type);
                  pdu ← match le with Some le => lift (mem_write pdu (iter + 2) (Some <$> le)) | None => mret pdu end;
                  encode_infos n q mtu pdu (iter + uuid_len + 2) uuid_len in
              if iter =? 0 then
                if cur_uuid_len =? 2 then pdu ← lift (mem_set pdu 0 (Some 0x01)); go pdu 1 2
                else if (cur_uuid_len =? 4) || (cur_uuid_len =? 16) then pdu ← lift (mem_set pdu 0 (Some 0x02)); go pdu 1 16
                else mret None
              else if negb (cur_uuid_len =? uuid_len) then mret (Some (pdu, iter))
              else go pdu iter uuid_len
        end
    end.

Definition encode_find_info_rsp (q : option ptr) (mtu : Z) : M (option (raw * Z)) :=
  n ← walk_fuel;
  encode_infos n q mtu (buffer mtu) 0 0.

Definition find_info_cb (opcode : Z) (pdu : bytes) : M () :=
  mtu ← bt_att_get_mtu;
  if negb (zlen pdu =? 4) then refuse_request None opcode 0 BT_ATT_ERROR_INVALID_PDU
  else
    q ← queue_new;
    start ← le16_at pdu 0;
    end_ ← le16_at pdu 2;
    if (start =? 0) || (end_ =? 0) then refuse_request q opcode 0 BT_ATT_ERROR_INVALID_HANDLE
    else if end_ <? start then refuse_request q opcode start BT_ATT_ERROR_INVALID_HANDLE
    else
      _ ← gatt_db_find_information fuel start end_ q;
      queue_isempty q ≫= fun e : bool =>
      if e then refuse_request q opcode start BT_ATT_ERROR_ATTRIBUTE_NOT_FOUND
      else
        r ← encode_find_info_rsp q mtu;
        match r with
        | None => refuse_request q opcode start BT_ATT_ERROR_UNLIKELY
        | Some (rsp, rsp_len) =>
            rsp ← message rsp (u16 rsp_len);
            _ ← bt_att_send BT_ATT_OP_FIND_INFO_RSP rsp;
            queue_destroy fuel q None
        end.

(** ** Find By Type Value *)

Definition find_by_type_val_att_cb (attrib : attr) : M () :=
  data ← look v_find;
  if negb (fv_ecode data =? 0) then mret ()
  else if fv_mtu data - 1 <? fv_len data + 4 then mret ()
  else
    o ← gatt_db_attribute_get_service_data (Some attrib) false;
    '(handle, end_handle, _, _) ← lift (of_option o);
    if (handle =? 0) || (end_handle =? 0) then change (set_find (Some (mk_find (fv_pdu data) (fv_len data) (fv_mtu data) BT_ATT_ERROR_UNLIKELY)))
    else
      pdu ← lift (mem_write (fv_pdu data) (fv_len data) (Some <$> put_le16 handle));
      pdu ← lift (mem_write pdu (fv_len data + 2) (Some <$> put_le16 end_handle));
      change (set_find (Some (mk_find pdu (u16 (fv_len data + 4)) (fv_mtu data) (fv_ecode data)))).

Definition find_by_type_val_cb (opcode : Z) (pdu : bytes) : M () :=
  mtu ← bt_att_get_mtu;
  let fail ehandle ecode := _ ← bt_att_send_error_rsp opcode ehandle ecode; mret () in
  if zlen pdu <? 6 then fail 0 BT_ATT_ERROR_INVALID_PDU
  else
    start ← le16_at pdu 0;
    end_ ← le16_at pdu 2;
    uuid16 ← le16_at pdu 4;
    if end_ <? start then fail start BT_ATT_ERROR_INVALID_HANDLE
    else
      _ ← change (set_find (Some (mk_find (buffer mtu) 0 mtu 0)));
      _ ← gatt_db_find_by_type_value fuel start end_ (bt_uuid16_create uuid16) (drop 6 pdu) find_by_type_val_att_cb;
      data ← look v_find;
      _ ← change (set_find None);
      let ecode := if fv_len data =? 0 then BT_ATT_ERROR_ATTRIBUTE_NOT_FOUND else fv_ecode data in
      if negb (ecode =? 0) then fail start ecode
      else
        rsp ← message (fv_pdu data) (fv_len data);
        _ ← bt_att_send BT_ATT_OP_FIND_BY_TYPE_RSP rsp;
        mret ().
End Find.
