(* ===== verification/ServerAccess.v ===== *)
(** The requests of src/bt/btgatt_server/src/shared/gatt-server.c that read and write attributes: Write, Read, Read
    Blob, Read Multiple, Prepare Write and Execute Write; the size of messages, notifications, and the life of the
    server. *)

From stdpp Require Import gmap.
From S2P Require Import Prelude Alloc Queue Uuid GattDb GattAccess ServerState ServerFind.

Section Access.
Context `{!Allocator} {T U : Type} `{!Transport T} {app : App (srv T U)} (fuel : nat).
Abbreviation M := (Queue.M (W := gatt (srv T U))).

(** A response whose number is not used. *)
Definition send (opcode : Z) (pdu : raw) : M () := _ ← bt_att_send opcode pdu; mret ().
Definition send_error (opcode handle error : Z) : M () := _ ← bt_att_send_error_rsp opcode handle error; mret ().

(** ** Write *)

Definition load_write_op (p : ptr) : M async_write_op := look (fun v => v_write_ops v !! p).

Definition async_write_op_destroy (p : ptr) : M () :=
  op ← load_write_op p;
  _ ← if wo_server op then update_server (set_pending_write None) else mret ();
  change (fun v => set_write_ops (delete p (v_write_ops v)) v).

Definition write_complete_cb (attrib : attr) (err : Z) (p : ptr) : M () :=
  op ← load_write_op p;
  if negb (wo_server op) || (wo_opcode op =? BT_ATT_OP_WRITE_CMD) then async_write_op_destroy p
  else
    handle ← gatt_db_attribute_get_handle (Some attrib);
    _ ← if negb (err =? 0) then send_error (wo_opcode op) handle err else send BT_ATT_OP_WRITE_RSP [];
    async_write_op_destroy p.

Definition write_cb (opcode : Z) (pdu : bytes) : M () :=
  let fail handle ecode := if opcode =? BT_ATT_OP_WRITE_CMD then mret () else send_error opcode handle ecode in
  if zlen pdu <? 2 then fail 0 BT_ATT_ERROR_INVALID_PDU
  else
    handle ← le16_at pdu 0;
    _ ← load_server;
    o ← gatt_db_get_attribute handle;
    match o with
    | None => fail handle BT_ATT_ERROR_INVALID_HANDLE
    | Some attrib =>
        ecode ← check_permissions attrib WRITE_MASK;
        if negb (ecode =? 0) then fail handle ecode
        else
          server ← load_server;
          match sv_pending_write_op server with
          | Some _ => fail handle BT_ATT_ERROR_UNLIKELY
          | None =>
              p ← new0 (fun g => dom (v_write_ops (g_app g)));
              _ ← change (fun v => set_write_ops (<[p := mk_write_op true opcode]> (v_write_ops v)) v);
              _ ← update_server (set_pending_write (Some p));
              gatt_db_attribute_write (Some attrib) 0 (drop 2 pdu) opcode 0 (Some write_complete) (addr p) ≫= fun ok : bool =>
              if ok then mret ()
              else
                _ ← async_write_op_destroy p;
                fail handle BT_ATT_ERROR_UNLIKELY
          end
    end.

(** ** Read and Read Blob *)

Definition get_read_rsp_opcode (opcode : Z) : Z :=
  if opcode =? BT_ATT_OP_READ_REQ then BT_ATT_OP_READ_RSP
  else if opcode =? BT_ATT_OP_READ_BLOB_REQ then BT_ATT_OP_READ_BLOB_RSP
  else 0.

Definition read_complete_cb (attrib : attr) (err : Z) (value : option raw) (len : Z) (p : ptr) : M () :=
  op ← load_read_op p;
  if negb (ro_server op) then async_read_op_destroy fuel p
  else
    mtu ← bt_att_get_mtu;
    handle ← gatt_db_attribute_get_handle (Some attrib);
    if negb (err =? 0) then
      _ ← send_error (ro_opcode op) handle err;
      async_read_op_destroy fuel p
    else
      let rsp_opcode := get_read_rsp_opcode (ro_opcode op) in
      rsp ← copy_from (if len =? 0 then None else value) (u16 (Z.min (u32 (mtu - 1)) len));
      _ ← send rsp_opcode rsp;
      async_read_op_destroy fuel p.

Definition handle_read_req (opcode handle offset : Z) : M () :=
  _ ← load_server;
  o ← gatt_db_get_attribute handle;
  match o with
  | None => send_error opcode handle BT_ATT_ERROR_INVALID_HANDLE
  | Some attrib =>
      ecode ← check_permissions attrib READ_MASK;
      if negb (ecode =? 0) then send_error opcode handle ecode
      else
        server ← load_server;
        match sv_pending_read_op server with
        | Some _ => send_error opcode handle BT_ATT_ERROR_UNLIKELY
        | None =>
            p ← new0 (fun g => dom (v_read_ops (g_app g)));
            _ ← store_read_op p (mk_read_op true opcode false None 0 0 None);
            _ ← update_server (set_pending_read (Some p));
            gatt_db_attribute_read (Some attrib) offset opcode 0 (Some read_complete) (addr p) ≫= fun ok : bool =>
            if ok then mret ()
            else
              _ ← async_read_op_destroy fuel p;
              send_error opcode handle BT_ATT_ERROR_UNLIKELY
        end
  end.

Definition read_cb (opcode : Z) (pdu : bytes) : M () :=
  if negb (zlen pdu =? 2) then send_error opcode 0 BT_ATT_ERROR_INVALID_PDU
  else
    handle ← le16_at pdu 0;
    handle_read_req opcode handle 0.

Definition read_blob_cb (opcode : Z) (pdu : bytes) : M () :=
  if negb (zlen pdu =? 4) then send_error opcode 0 BT_ATT_ERROR_INVALID_PDU
  else
    handle ← le16_at pdu 0;
    offset ← le16_at pdu 2;
    handle_read_req opcode handle offset.

(** ** Read Multiple *)

Definition read_multiple_resp_data_free (p : ptr) : M () :=
  _ ← load_multi p;
  change (fun v => set_multis (delete p (v_multis v)) v).

Definition read_multiple_complete_cb (attrib : attr) (err : Z) (value : option raw) (len : Z) (p : ptr) : M () :=
  data ← load_multi p;
  handle ← gatt_db_attribute_get_handle (Some attrib);
  let fail handle ecode := _ ← send_error BT_ATT_OP_READ_MULT_REQ handle ecode; read_multiple_resp_data_free p in
  if negb (err =? 0) then fail handle err
  else
    ecode ← check_permissions attrib READ_MASK;
    if negb (ecode =? 0) then fail handle ecode
    else
      let len := Z.min len (u64 (rm_mtu data - rm_length data - 1)) in
      v ← copy_from value len;
      rsp_data ← lift (mem_write (rm_rsp_data data) (rm_length data) v);
      let length := rm_length data + len in
      let cur_handle := rm_cur_handle data + 1 in
      _ ← change (fun v => set_multis (<[p := mk_multi (rm_handles data) cur_handle (rm_num_handles data) rsp_data length (rm_mtu data)]> (v_multis v)) v);
      if (u64 (rm_mtu data - 1) <=? length) || (cur_handle =? rm_num_handles data) then
        rsp ← message rsp_data (u16 length);
        _ ← send BT_ATT_OP_READ_MULT_RSP rsp;
        read_multiple_resp_data_free p
      else
        next_handle ← lift (mem_get (rm_handles data) cur_handle);
        _ ← load_server;
        o ← gatt_db_get_attribute next_handle;
        match o with
        | None => fail next_handle BT_ATT_ERROR_INVALID_HANDLE
        | Some next_attr =>
            gatt_db_attribute_read (Some next_attr) 0 BT_ATT_OP_READ_MULT_REQ 0 (Some read_multiple_complete) (addr p) ≫= fun ok : bool =>
            if ok then mret () else fail next_handle BT_ATT_ERROR_UNLIKELY
        end.

(** [get_le16(pdu + i * 2)] for the handles from [i] on. *)
Fixpoint get_handles (n : nat) (pdu : bytes) (i : nat) : M (list Z) :=
  match n with
  | O => mret []
  | S n => h ← le16_at pdu (i * 2); hs ← get_handles n pdu (S i); mret (h :: hs)
  end.

Definition read_multiple_cb (opcode : Z) (pdu : bytes) : M () :=
  if zlen pdu <? 4 then send_error opcode 0 BT_ATT_ERROR_INVALID_PDU
  else
    p ← new0 (fun g => dom (v_multis (g_app g)));
    let num_handles := zlen pdu `div` 2 in
    mtu ← bt_att_get_mtu;
    try_alloc ≫= fun ok : bool =>
    if negb ok then send_error opcode 0 BT_ATT_ERROR_UNLIKELY
    else
      _ ← new0 (fun _ => ∅);
      handles ← get_handles (Z.to_nat num_handles) pdu 0;
      _ ← change (fun v => set_multis (<[p := mk_multi handles 0 num_handles (buffer (mtu - 1)) 0 mtu]> (v_multis v)) v);
      let fail ecode := _ ← read_multiple_resp_data_free p; send_error opcode 0 ecode in
      handle ← lift (mem_get handles 0);
      _ ← load_server;
      o ← gatt_db_get_attribute handle;
      match o with
      | None => fail BT_ATT_ERROR_INVALID_HANDLE
      | Some attrib =>
          gatt_db_attribute_read (Some attrib) 0 opcode 0 (Some read_multiple_complete) (addr p) ≫= fun ok : bool =>
          if ok then mret () else fail BT_ATT_ERROR_UNLIKELY
      end.

(** ** Extended properties of a characteristic: src/bt/btgatt_server/src/shared/gatt-db.c *)

(** It fills in the variable [ext_prop] of [get_char_extended_prop]. *)
Definition read_ext_prop_value (err : Z) (value : option raw) (length : Z) : M () :=
  if negb (err =? 0) || negb (length =? 2) then mret ()
  else
    v ← lift (of_option value);
    b ← lift (mem_get v 0);
    b ← lift (of_option b);
    _ ← look v_ext_prop;
    change (set_ext_prop (Some b)).

Definition read_ext_prop (attrib : attr) : M () :=
  ext_prop ← look v_ext_prop;
  if negb (ext_prop =? 0) then mret ()
  else
    a ← load_attr attrib;
    uuid_eq ext_desc_uuid (a_uuid a) ≫= fun same : bool =>
    if negb same then mret ()
    else _ ← gatt_db_attribute_read (Some attrib) 0 BT_ATT_OP_READ_REQ 0 (Some ext_prop_value) 0; mret ().

Definition get_char_extended_prop (attrib : attr) : M Z :=
  a ← load_attr attrib;
  uuid_eq characteristic_uuid (a_uuid a) ≫= fun same : bool =>
  if negb same then mret 0
  else
    v ← lift (of_option (a_value a));
    b ← lift (mem_get v 0);
    properties ← lift (of_option b);
    if negb (has properties BT_GATT_CHRC_PROP_EXT_PROP) then mret 0
    else
      _ ← change (set_ext_prop (Some 0));
      _ ← gatt_db_service_foreach_desc (Some attrib) read_ext_prop;
      ext_prop ← look v_ext_prop;
      _ ← change (set_ext_prop None);
      mret (u8 ext_prop).

(** [gatt_db_attribute_get_char_data] for the extended properties only. *)
Definition get_char_data_ext_prop (attrib : attr) : M (option Z) :=
  a ← load_attr attrib;
  uuid_eq characteristic_uuid (a_uuid a) ≫= fun same : bool =>
  if negb same then mret None
  else
    match a_value a with
    | None => mret None
    | Some _ =>
        if negb (a_value_len a =? 5) && negb (a_value_len a =? 19) then mret None
        else e ← get_char_extended_prop attrib; mret (Some e)
    end.

(** ** Prepare Write *)

Definition prep_write_data_destroy (data : Z) : M () :=
  p ← at_addr data;
  _ ← load_prep p;
  change (fun v => set_preps (delete p (v_preps v)) v).

(** The new length is of 16 bits, and so is the size of the block; the copy is not.  A block of no bytes is freed. *)
Definition append_prep_data (p : ptr) (value : bytes) : M bool :=
  prep_data ← load_prep p;
  let length := zlen value in
  if length =? 0 then mret true
  else
    let len := u16 (pw_length prep_data + length) in
    try_alloc ≫= fun ok : bool =>
    if len =? 0 then undef
    else if negb ok then mret false
    else
      val ← lift (mem_write (resize (Some (pw_value prep_data)) len) (pw_length prep_data) (Some <$> value));
      _ ← store_prep p (mk_prep val (pw_handle prep_data) (pw_offset prep_data) len (pw_reliable_supported prep_data));
      mret true.

Definition is_reliable_write_supported (handle : Z) : M bool :=
  _ ← load_server;
  o ← gatt_db_get_attribute handle;
  match o with
  | None => mret false
  | Some attrib =>
      o ← get_char_data_ext_prop attrib;
      match o with
      | None => mret false
      | Some ext_prop => mret (has ext_prop BT_GATT_CHRC_EXT_PROP_RELIABLE_WRITE)
      end
  end.

Definition prep_data_new (handle offset : Z) (value : bytes) : M bool :=
  p ← new0 (fun g => dom (v_preps (g_app g)));
  _ ← store_prep p (mk_prep [] 0 0 0 false);
  append_prep_data p value ≫= fun ok : bool =>
  if negb ok then _ ← prep_write_data_destroy (addr p); mret false
  else
    d ← load_prep p;
    _ ← store_prep p (mk_prep (pw_value d) handle offset (pw_length d) (pw_reliable_supported d));
    reliable ← is_reliable_write_supported (u16 (handle - 1));
    d ← load_prep p;
    _ ← store_prep p (mk_prep (pw_value d) (pw_handle d) (pw_offset d) (pw_length d) reliable);
    server ← load_server;
    _ ← queue_push_tail (sv_prep_queue server) (addr p);
    mret true.

Definition store_prep_data (handle offset : Z) (value : bytes) : M bool :=
  server ← load_server;
  z ← queue_peek_tail (sv_prep_queue server);
  if z =? 0 then prep_data_new handle offset value
  else
    p ← at_addr z;
    d ← load_prep p;
    if (pw_handle d =? handle) && (offset =? pw_length d + pw_offset d) then append_prep_data p value
    else prep_data_new handle offset value.

Definition load_complete (p : ptr) : M prep_write_complete_data := look (fun v => v_completes v !! p).

Definition prep_write_complete_cb (err : Z) (p : ptr) : M () :=
  pwcd ← load_complete p;
  handle ← le16_at (pc_pdu pwcd) 0;
  let finish := _ ← load_complete p; change (fun v => set_completes (delete p (v_completes v)) v) in
  if negb (err =? 0) then
    _ ← send_error BT_ATT_OP_PREP_WRITE_REQ handle err;
    finish
  else
    offset ← le16_at (pc_pdu pwcd) 2;
    value ← lift (mem_read (pc_pdu pwcd) 4 (u16 (pc_length pwcd - 4)));
    ok ← store_prep_data handle offset value;
    _ ← if negb ok then send_error BT_ATT_OP_PREP_WRITE_RSP handle BT_ATT_ERROR_INSUFFICIENT_RESOURCES else mret ();
    rsp ← message (Some <$> pc_pdu pwcd) (pc_length pwcd);
    _ ← send BT_ATT_OP_PREP_WRITE_RSP rsp;
    finish.

(** The block for the copy is not tested. *)
Definition prep_write_cb (opcode : Z) (pdu : bytes) : M () :=
  if zlen pdu <? 4 then send_error opcode 0 BT_ATT_ERROR_INVALID_PDU
  else
    server ← load_server;
    n ← queue_length (sv_prep_queue server);
    if sv_max_prep_queue_len server <=? n then send_error opcode 0 BT_ATT_ERROR_PREPARE_QUEUE_FULL
    else
      handle ← le16_at pdu 0;
      offset ← le16_at pdu 2;
      o ← gatt_db_get_attribute handle;
      match o with
      | None => send_error opcode handle BT_ATT_ERROR_INVALID_HANDLE
      | Some attrib =>
          ecode ← check_permissions attrib WRITE_MASK;
          if negb (ecode =? 0) then send_error opcode handle ecode
          else
            p ← new0 (fun g => dom (v_completes (g_app g)));
            ok ← try_alloc;
            _ ← if negb ok then undef else mret ();
            _ ← change (fun v => set_completes (<[p := mk_complete pdu (zlen pdu)]> (v_completes v)) v);
            gatt_db_attribute_write (Some attrib) offset [] BT_ATT_OP_PREP_WRITE_REQ 0 (Some prep_write_complete) (addr p) ≫= fun status : bool =>
            if status then mret () else send_error opcode handle BT_ATT_ERROR_UNLIKELY
      end.

(** ** Execute Write *)

(** The bytes of a prepared write. *)
Definition prepared (d : prep_write_data) : M bytes :=
  v ← lift (mem_read (pw_value d) 0 (pw_length d));
  lift (of_option (mapM id v)).

Definition drop_prepared (q : option ptr) : M () := _ ← queue_remove_all fuel q None 0 (Some prep_write_data_destroy); mret ().

Definition exec_next_prep_write (ehandle err : Z) : M () :=
  server ← load_server;
  let fail err :=
    server ← load_server;
    _ ← drop_prepared (sv_prep_queue server);
    send_error BT_ATT_OP_EXEC_WRITE_REQ ehandle err in
  if negb (err =? 0) then fail err
  else
    z ← queue_pop_head (sv_prep_queue server);
    if z =? 0 then send BT_ATT_OP_EXEC_WRITE_RSP []
    else
      next ← at_addr z;
      d ← load_prep next;
      o ← gatt_db_get_attribute (pw_handle d);
      match o with
      | None => fail BT_ATT_ERROR_UNLIKELY
      | Some attrib =>
          value ← prepared d;
          gatt_db_attribute_write (Some attrib) (pw_offset d) value BT_ATT_OP_EXEC_WRITE_REQ 0 (Some exec_write_complete) 0 ≫= fun status : bool =>
          _ ← prep_write_data_destroy z;
          if status then mret () else fail BT_ATT_ERROR_UNLIKELY
      end.

Definition exec_write_complete_cb (attrib : attr) (err : Z) : M () :=
  handle ← gatt_db_attribute_get_handle (Some attrib);
  exec_next_prep_write handle err.

Definition find_no_reliable_characteristic (data _match_data : Z) : M bool :=
  p ← at_addr data;
  d ← load_prep p;
  mret (negb (pw_reliable_supported d)).

Definition exec_write_cb (opcode : Z) (pdu : bytes) : M () :=
  server ← load_server;
  let fail ehandle ecode := _ ← drop_prepared (sv_prep_queue server); send_error opcode ehandle ecode in
  if negb (zlen pdu =? 1) then fail 0 BT_ATT_ERROR_INVALID_PDU
  else
    flags ← lift (mem_get pdu 0);
    if flags =? 0x00 then
      _ ← drop_prepared (sv_prep_queue server);
      send BT_ATT_OP_EXEC_WRITE_RSP []
    else if negb (flags =? 0x01) then fail 0 BT_ATT_ERROR_INVALID_PDU
    else
      n ← queue_length (sv_prep_queue server);
      z ← if 1 <? n then queue_find (sv_prep_queue server) (Some find_no_reliable_characteristic) 0 else mret 0;
      if negb (z =? 0) then
        p ← at_addr z;
        d ← load_prep p;
        fail (pw_handle d) BT_ATT_ERROR_REQUEST_NOT_SUPPORTED
      else exec_next_prep_write 0 0.

(** ** Size of messages *)

Definition exchange_mtu_cb (opcode : Z) (pdu : bytes) : M () :=
  if negb (zlen pdu =? 2) then send_error opcode 0 BT_ATT_ERROR_INVALID_PDU
  else
    client_rx_mtu ← le16_at pdu 0;
    server ← load_server;
    let final_mtu := u16 (Z.max (Z.min client_rx_mtu (sv_mtu server)) BT_ATT_DEFAULT_LE_MTU) in
    _ ← send BT_ATT_OP_MTU_RSP (Some <$> put_le16 (sv_mtu server));
    _ ← update_server (set_mtu final_mtu);
    change (fun v => set_att (att_set_mtu final_mtu (v_att v)) v).

(** ** Notifications *)

(** A null [value] is [None]. *)
Definition bt_gatt_server_send_notification (handle : Z) (value : option bytes) (length : Z) : M bool :=
  if negb (length =? 0) && bool_decide (value = None) then mret false
  else
    mtu ← bt_att_get_mtu;
    let pdu_len := u16 (Z.min (mtu - 1) (length + 2)) in
    try_alloc ≫= fun ok : bool =>
    if negb ok then mret false
    else
      pdu ← lift (mem_write (buffer pdu_len) 0 (Some <$> put_le16 handle));
      v ← copy_from (match value with Some v => Some (Some <$> v) | None => None end) (pdu_len - 2);
      pdu ← lift (mem_write pdu 2 v);
      id ← bt_att_send BT_ATT_OP_HANDLE_VAL_NOT pdu;
      mret (negb (id =? 0)).

(** ** Life of the server *)

(** The requests that the server registers for, in this order. *)
Definition handled : list Z :=
  [BT_ATT_OP_MTU_REQ; BT_ATT_OP_READ_BY_GRP_TYPE_REQ; BT_ATT_OP_READ_BY_TYPE_REQ; BT_ATT_OP_FIND_INFO_REQ; BT_ATT_OP_FIND_BY_TYPE_REQ;
   BT_ATT_OP_WRITE_REQ; BT_ATT_OP_WRITE_CMD; BT_ATT_OP_READ_REQ; BT_ATT_OP_READ_BLOB_REQ; BT_ATT_OP_READ_MULT_REQ; BT_ATT_OP_PREP_WRITE_REQ;
   BT_ATT_OP_EXEC_WRITE_REQ].

Definition bt_att_unregister (id : Z) : M () := if id =? 0 then mret () else change (fun v => set_att (att_unregister id (v_att v)) v).

Fixpoint unregister_all (ids : list Z) : M () :=
  match ids with [] => mret () | id :: ids => _ ← bt_att_unregister id; unregister_all ids end.

Fixpoint register_all (ops : list Z) : M bool :=
  match ops with
  | [] => mret true
  | op :: ops =>
      '(id, t) ← look (fun v => Some (att_register op (v_att v)));
      _ ← change (set_att t);
      _ ← update_server (fun s => set_ids (sv_ids s ++ [id]) s);
      if id =? 0 then mret false else register_all ops
  end.

Definition gatt_server_register_att_handlers : M bool := register_all handled.

Definition detach_read (p : ptr) : M () :=
  op ← load_read_op p;
  store_read_op p (mk_read_op false (ro_opcode op) (ro_done op) (ro_pdu op) (ro_pdu_len op) (ro_value_len op) (ro_db_data op)).
Definition detach_write (p : ptr) : M () :=
  op ← load_write_op p;
  change (fun v => set_write_ops (<[p := mk_write_op false (wo_opcode op)]> (v_write_ops v)) v).

(** The transport has its own references. *)
Definition bt_gatt_server_free : M () :=
  server ← load_server;
  _ ← unregister_all (sv_ids server);
  _ ← match sv_pending_read_op server with Some p => detach_read p | None => mret () end;
  _ ← match sv_pending_write_op server with Some p => detach_write p | None => mret () end;
  _ ← queue_destroy fuel (sv_prep_queue server) (Some prep_write_data_destroy);
  _ ← gatt_db_unref fuel;
  _ ← load_server;
  change (set_server None).

Definition bt_gatt_server_ref : M () := update_server (fun s => set_refs (s32 (sv_ref_count s + 1)) s).

Definition bt_gatt_server_unref : M () :=
  _ ← update_server (fun s => set_refs (s32 (sv_ref_count s - 1)) s);
  s ← load_server;
  if sv_ref_count s =? 0 then bt_gatt_server_free else mret ().

Definition bt_gatt_server_new (mtu min_enc_size : Z) : M bool :=
  _ ← new0 (fun _ => ∅);
  _ ← gatt_db_ref;
  q ← queue_new;
  _ ← change (set_server (Some (mk_server 0 [] (Z.max mtu BT_ATT_DEFAULT_LE_MTU) min_enc_size q DEFAULT_MAX_PREP_QUEUE_LEN None None)));
  gatt_server_register_att_handlers ≫= fun ok : bool =>
  if negb ok then _ ← bt_gatt_server_free; mret false
  else _ ← bt_gatt_server_ref; mret true.

(** The function for a request of the peer. *)
Definition handler (opcode : Z) (pdu : bytes) : M () :=
  if opcode =? BT_ATT_OP_MTU_REQ then exchange_mtu_cb opcode pdu
  else if opcode =? BT_ATT_OP_READ_BY_GRP_TYPE_REQ then read_by_grp_type_cb fuel opcode pdu
  else if opcode =? BT_ATT_OP_READ_BY_TYPE_REQ then read_by_type_cb fuel opcode pdu
  else if opcode =? BT_ATT_OP_FIND_INFO_REQ then find_info_cb fuel opcode pdu
  else if opcode =? BT_ATT_OP_FIND_BY_TYPE_REQ then find_by_type_val_cb fuel opcode pdu
  else if (opcode =? BT_ATT_OP_WRITE_REQ) || (opcode =? BT_ATT_OP_WRITE_CMD) then write_cb opcode pdu
  else if opcode =? BT_ATT_OP_READ_REQ then read_cb opcode pdu
  else if opcode =? BT_ATT_OP_READ_BLOB_REQ then read_blob_cb opcode pdu
  else if opcode =? BT_ATT_OP_READ_MULT_REQ then read_multiple_cb opcode pdu
  else if opcode =? BT_ATT_OP_PREP_WRITE_REQ then prep_write_cb opcode pdu
  else if opcode =? BT_ATT_OP_EXEC_WRITE_REQ then exec_write_cb opcode pdu
  else mret ().

(** The functions of the server that the database calls, and those of the application. *)
Definition dispatch (user : App (srv T U)) (e : event) : M () :=
  match e with
  | ReadDone func attrib err value length user_data =>
      if decide (func = read_complete) then p ← at_addr user_data; read_complete_cb attrib err value length p
      else if decide (func = read_by_type_complete) then p ← at_addr user_data; read_by_type_read_complete_cb (app := app) fuel attrib err value length p
      else if decide (func = attribute_read) then attribute_read_cb value length
      else if decide (func = read_multiple_complete) then p ← at_addr user_data; read_multiple_complete_cb attrib err value length p
      else if decide (func = ext_prop_value) then read_ext_prop_value err value length
      else call (App := user) e
  | WriteDone func attrib err user_data =>
      if decide (func = write_complete) then p ← at_addr user_data; write_complete_cb attrib err p
      else if decide (func = prep_write_complete) then p ← at_addr user_data; prep_write_complete_cb err p
      else if decide (func = exec_write_complete) then exec_write_complete_cb attrib err
      else call (App := user) e
  | _ => call (App := user) e
  end.
End Access.

(** The server on top of the application, [n] calls deep: a function of the server that the database calls may read
    or write the next attribute, which calls the next function. *)
Fixpoint server_app `{!Allocator} {T U : Type} `{!Transport T} (user : App (srv T U)) (fuel n : nat) : App (srv T U) :=
  {| call := match n with O => fun _ => undef | S n => dispatch (app := server_app user fuel n) fuel user end;
     timeout_add := @timeout_add _ user;
     timeout_remove := @timeout_remove _ user |}.

(** A request of the peer, as the transport hands it over. *)
Definition serve `{!Allocator} {T U : Type} `{!Transport T} (user : App (srv T U)) (fuel : nat) (opcode : Z) (pdu : bytes) : M (W := gatt (srv T U)) () :=
  handler (app := server_app user fuel fuel) fuel opcode pdu.
