(* ===== verification/ServerSteps.v ===== *)
(** Steps of the GATT server: its state, its messages, the tests of permissions, and the searches in the attribute
    database that its requests start with. *)

From stdpp Require Import gmap.
From Stdlib Require Import Sorted.
From S2P Require Import Prelude Util Alloc Queue QueueSpec QueueMain Uuid GattDb GattAccess GattSpec GattDestroy GattServices GattAttrs GattFind GattRequests GattMain.
From S2P Require Import ServerState ServerFind ServerAccess.

(** ** Messages *)

(** A message: its opcode and its bytes. *)
Abbreviation pdu_of := (Z * raw)%type.

Definition error_rsp (opcode handle error : Z) : pdu_of :=
  (BT_ATT_OP_ERROR_RSP, Some <$> ([opcode] ++ put_le16 handle ++ [att_ecode_from_error error])).

(** ** Permissions *)

(** The answer of [check_permissions], for a security level and the sizes of the key. *)
Definition access (perm mask security enc_size : Z) (server : bt_gatt_server) : Z :=
  if negb (perm =? 0) && has mask BT_ATT_PERM_READ && negb (has perm BT_ATT_PERM_READ) then BT_ATT_ERROR_READ_NOT_PERMITTED
  else if negb (perm =? 0) && has mask BT_ATT_PERM_WRITE && negb (has perm BT_ATT_PERM_WRITE) then BT_ATT_ERROR_WRITE_NOT_PERMITTED
  else if Z.land perm mask =? 0 then 0
  else if security <? 0 then BT_ATT_ERROR_UNLIKELY
  else
    default 0 (match (if has (Z.land perm mask) BT_ATT_PERM_SECURE then check_level server security enc_size BT_ATT_SECURITY_FIPS BT_ATT_ERROR_AUTHENTICATION else None) with
      | Some e => Some e
      | None =>
          match (if has (Z.land perm mask) BT_ATT_PERM_AUTHEN then check_level server security enc_size BT_ATT_SECURITY_HIGH BT_ATT_ERROR_AUTHENTICATION else None) with
          | Some e => Some e
          | None => if has (Z.land perm mask) BT_ATT_PERM_ENCRYPT then check_level server security enc_size BT_ATT_SECURITY_MEDIUM BT_ATT_ERROR_INSUFFICIENT_ENCRYPTION else None
          end
      end).

Section Steps.
Context `{!Allocator} {T U : Type} `{!Transport T}.
Abbreviation mem := (Queue.mem (gatt (srv T U))).
Implicit Types (m : mem) (v : srv T U).

(** The state of the server. *)
Definition app_of m : srv T U := g_app (world m).
Definition put_app v m : mem := with_gatt (set_app v (world m)) m.

Lemma put_app_same m : put_app (app_of m) m = m.
Proof. destruct m as [q c r [db sv no re wr fo a]]. done. Qed.
Lemma put_app_twice v v' m : put_app v (put_app v' m) = put_app v m.
Proof. done. Qed.

Lemma set_app_same (g : gatt (srv T U)) : set_app (g_app g) g = g.
Proof. by destruct g. Qed.
Lemma set_iov_same v : v_iov v = None -> set_iov None v = v.
Proof. destruct v. cbn. by intros ->. Qed.
Lemma set_find_same v : v_find v = None -> set_find None v = v.
Proof. destruct v. cbn. by intros ->. Qed.
Lemma set_ext_prop_same v : v_ext_prop v = None -> set_ext_prop None v = v.
Proof. destruct v. cbn. by intros ->. Qed.

Lemma wp_look {B} f (x : B) (P : B -> mem -> Prop) m : f (app_of m) = Some x -> P x m -> wp (look f) P m.
Proof. intros Hf. by apply (wp_fetch (fun g => f (g_app g))). Qed.
Lemma wp_change f (P : () -> mem -> Prop) m : P () (put_app (f (app_of m)) m) -> wp (change f) P m.
Proof. done. Qed.

Lemma wp_load_server s (P : bt_gatt_server -> mem -> Prop) m : v_server (app_of m) = Some s -> P s m -> wp load_server P m.
Proof. apply wp_look. Qed.
Lemma wp_update_server s f (P : () -> mem -> Prop) m : v_server (app_of m) = Some s -> P () (put_app (set_server (Some (f s)) (app_of m)) m) -> wp (update_server f) P m.
Proof. intros Hs HP. unfold update_server. apply wp_bind. by eapply wp_load_server. Qed.

Lemma wp_get_mtu s (P : Z -> mem -> Prop) m : v_server (app_of m) = Some s -> P (att_mtu (v_att (app_of m))) m -> wp bt_att_get_mtu P m.
Proof. intros Hs HP. unfold bt_att_get_mtu. apply wp_bind. by eapply wp_load_server. Qed.

(** The state with one more message. *)
Definition sent (p : pdu_of) v : srv T U := set_att (att_send p.1 p.2 (v_att v)).2 v.

Lemma wp_att_send s op pdu (P : Z -> mem -> Prop) m : v_server (app_of m) = Some s ->
  P (att_send op pdu (v_att (app_of m))).1 (put_app (sent (op, pdu) (app_of m)) m) -> wp (bt_att_send op pdu) P m.
Proof.
  intros Hs HP. unfold bt_att_send. apply wp_bind. eapply wp_load_server; [done|]. apply wp_bind. eapply wp_look; [done|]. unfold sent in HP. cbn [fst snd] in HP.
  destruct (att_send op pdu (v_att (app_of m))) as [id t]. apply wp_bind, wp_change. by apply wp_ret.
Qed.
Lemma wp_send s op pdu (P : () -> mem -> Prop) m : v_server (app_of m) = Some s -> P () (put_app (sent (op, pdu) (app_of m)) m) -> wp (send op pdu) P m.
Proof. intros Hs HP. unfold send. apply wp_bind. by eapply wp_att_send. Qed.
Lemma wp_error_rsp s op h e (P : Z -> mem -> Prop) m : v_server (app_of m) = Some s -> op <> 0 ->
  (forall id, P id (put_app (sent (error_rsp op h e) (app_of m)) m)) -> wp (bt_att_send_error_rsp op h e) P m.
Proof.
  intros Hs Hop HP. unfold bt_att_send_error_rsp. apply wp_bind. eapply wp_load_server; [done|]. destruct (Z.eqb_spec op 0); [done|]. eapply wp_att_send; [done|]. apply HP.
Qed.
Lemma wp_send_error s op h e (P : () -> mem -> Prop) m : v_server (app_of m) = Some s -> op <> 0 ->
  P () (put_app (sent (error_rsp op h e) (app_of m)) m) -> wp (send_error op h e) P m.
Proof. intros Hs Hop HP. unfold send_error. apply wp_bind. by eapply wp_error_rsp. Qed.

Lemma check_permissions_wp server s i x a mask (P : Z -> mem -> Prop) m :
  v_server (app_of m) = Some server -> g_services (world m) !! s = Some x -> s_attributes x !! i = Some (Attr a) ->
  P (access (a_permissions a) mask (att_security (v_att (app_of m))).1 (att_security (v_att (app_of m))).2 server) m -> wp (check_permissions (s, i) mask) P m.
Proof.
  intros Hs Hx Ha HP. unfold check_permissions, gatt_db_attribute_get_permissions. apply wp_bind, wp_bind. eapply wp_load_attr; [done..|]. apply wp_ret. unfold access in HP.
  destruct (_ && negb (has _ BT_ATT_PERM_READ)); [by apply wp_ret|]. destruct (_ && negb (has _ BT_ATT_PERM_WRITE)); [by apply wp_ret|]. destruct (_ =? 0); [by apply wp_ret|].
  unfold bt_att_get_security. apply wp_bind, wp_bind. eapply wp_load_server; [done|]. eapply wp_look; [done|]. destruct (att_security _) as [security enc_size]. cbn [fst snd] in HP.
  apply wp_bind. eapply wp_load_server; [done|]. destruct (security <? 0); [by apply wp_ret|].
  destruct (if has _ BT_ATT_PERM_SECURE then _ else None) as [e|]; [by apply wp_ret|]. destruct (if has _ BT_ATT_PERM_AUTHEN then _ else None) as [e|]; [by apply wp_ret|].
  destruct (if has _ BT_ATT_PERM_ENCRYPT then _ else None) as [e|]; by apply wp_ret.
Qed.

Lemma le16_at_wp pdu off (P : Z -> mem -> Prop) m h : get_le16 (drop off pdu) = Ret h -> P h m -> wp (le16_at pdu off) P m.
Proof. intros E HP. unfold le16_at, lift, wp. by rewrite E. Qed.
End Steps.

(** One step of the server, or of the heap below it. *)
Ltac srv_simpl := cbn [app_of put_app sent set_att set_server set_read_ops set_write_ops set_preps set_completes set_multis set_iov set_find set_ext_prop
  v_server v_read_ops v_write_ops v_preps v_completes v_multis v_iov v_find v_ext_prop v_att v_user]; gatt_simpl.

(** ** The database beside the server *)

Section Database.
Context `{!Allocator} {T U : Type} `{!Transport T} {app : App (srv T U)} (fuel : nat).
Abbreviation mem := (Queue.mem (gatt (srv T U))).
Implicit Types (m : mem) (g : gatt (srv T U)) (own : gmap ptr owner) (Q : gmap ptr (Z * entry_list)).

(** The same database: the state of the server, the counter of a search and the other queues do not matter. *)
Definition same_db g g' : Prop :=
  g_db g' = g_db g /\ g_services g' = g_services g /\ g_notifies g' = g_notifies g /\ g_reads g' = g_reads g /\ g_writes g' = g_writes g.

Lemma same_db_refl g : same_db g g.
Proof. done. Qed.
Lemma same_db_trans g1 g2 g3 : same_db g1 g2 -> same_db g2 g3 -> same_db g1 g3.
Proof. unfold same_db. intros (-> & -> & -> & -> & ->). done. Qed.

Lemma queue_ok_same g g' ss o l : same_db g g' -> queue_ok g ss o l -> queue_ok g' ss o l.
Proof. intros (_ & _ & Hn & Hr & Hw). destruct o; cbn; rewrite ?Hn, ?Hr, ?Hw; done. Qed.

Lemma database_transport m m' Q Q' own d ss :
  database ∅ m Q own d ss -> represents ∅ m' Q' -> (forall q, is_Some (own !! q) -> Q' !! q = Q !! q) -> same_db (world m) (world m') -> database ∅ m' Q' own d ss.
Proof.
  intros [H1 H2 H3 H4 H5 H6 H7 H8 H9 H10 H11] R HQ E. pose proof E as (Hd & Hs & _). split; rewrite ?Hd, ?Hs; try done.
  intros q o Ho. destruct (H5 q o Ho) as (es & Hq & Hok). exists es. rewrite HQ by done. split; [done|]. by eapply queue_ok_same.
Qed.

Lemma sound_transport m m' Q Q' own d ss :
  sound m Q own d ss -> represents ∅ m' Q' -> (forall q, is_Some (own !! q) -> Q' !! q = Q !! q) -> same_db (world m) (world m') -> sound m' Q' own d ss.
Proof.
  intros S R HQ E. eapply (sound_same_at m); [done|by eapply database_transport; [apply S|..]|done|]. destruct E as (_ & Hs & _). intros s x Hx. rewrite Hs in Hx. exists x.
  split_and!; [done..|]. by eapply (sound_listed _ _ _ _ _ S).
Qed.

(** A walk over the services; [I pre] holds when the services [pre] were visited. *)
Lemma services_foreach_wp m Q own d ss function (I : list ptr -> gmap ptr (Z * entry_list) -> gatt (srv T U) -> Prop) (P : () -> mem -> Prop) :
  sound m Q own d ss -> (length ss < fuel)%nat -> I [] Q (world m) ->
  (forall q es, d_services d = Some q -> own !! q = Some Services -> forall pre s post m1 Q1, ss = pre ++ s :: post -> Q1 !! q = Some (1, es) -> represents ∅ m1 (<[q := (2, es)]> Q1) -> I pre Q1 (world m1) ->
    wp (function (addr s)) (fun _ m2 => exists Q2, Q2 !! q = Some (1, es) /\ represents ∅ m2 (<[q := (2, es)]> Q2) /\ I (pre ++ [s]) Q2 (world m2)) m1) ->
  (forall m' Q', represents ∅ m' Q' -> I ss Q' (world m') -> P () m') ->
  wp (d ← load_db; queue_foreach fuel (d_services d) (Some function)) P m.
Proof.
  intros S Hf H0 Hstep HP. pose proof (sound_db _ _ _ _ _ S) as D. destruct (db_services _ _ _ _ _ _ D) as (q & Hq & Ho). destruct (db_queue _ _ _ _ _ _ D q _ Ho) as (es & HQ & Hes). cbn in Hes.
  pose proof (db_rep _ _ _ _ _ _ D) as R. pose proof (db_there _ _ _ _ _ _ D) as Hd. do 2 gatt_step. rewrite Hq.
  eapply (foreach_wp ∅ q function (fun l Q' w => exists pre post Q1, ss = pre ++ post /\ l = addr <$> post /\ Q' = <[q := (2, es)]> Q1 /\ Q1 !! q = Some (1, es) /\ I pre Q1 w)).
  - intros m1 Q1' es1 e z es2 R1 Hq1 (pre & post & Q1 & Hss & Hl & -> & HQ1 & HI). destruct post as [|s post]; [done|]. cbn in Hl. injection Hl as -> Hl.
    eapply wp_mono; [by eapply (Hstep q es Hq Ho pre s post)|]. cbn. intros _ m2 (Q2 & HQ2 & R2 & HI2). exists (<[q := (2, es)]> Q2). split; [done|]. split.
    + left. exists (es1 ++ [(e, addr s)]). rewrite lookup_insert_eq. rewrite lookup_insert_eq in Hq1. injection Hq1 as ->. by rewrite <-app_assoc.
    + exists (pre ++ [s]), post, Q2. split_and!; [by rewrite <-app_assoc|done..].
  - done.
  - done.
  - rewrite <-(length_fmap snd es), Hes, length_fmap. done.
  - exists [], ss, Q. done.
  - intros ->. destruct ss; [|done]. by eapply HP.
  - intros m' Q' es' R' Hq' (pre & post & Q1 & -> & Hl & -> & HQ1 & HI). destruct post; [|done]. rewrite app_nil_r in HP. rewrite lookup_insert_eq in Hq'. injection Hq' as <-.
    rewrite insert_insert_eq, insert_id in R' by done. by eapply HP.
  - intros m' Q' l R' Hq' (pre & post & Q1 & -> & Hl & -> & HQ1 & HI). by rewrite lookup_insert_eq in Hq'.
Qed.
End Database.
