(* ===== verification/ServerPermit.v ===== *)
(** Who may read and write an attribute: the test of the permissions against the security of the connection. *)

From stdpp Require Import gmap.
From S2P Require Import Prelude Util Alloc Queue QueueSpec Uuid GattDb GattAccess GattSpec GattDestroy GattServices GattRequests GattMain ServerState ServerSteps.

(** ** The rule *)

(** The permission at the bit [n] is one of the attribute, and the mask asks for it. *)
Definition both (perm mask n : Z) : bool := Z.testbit perm n && Z.testbit mask n.

(** The level of security that the permissions of att-types.h stand for: FIPS for the secure ones, high for
    authentication, medium for encryption. *)
Definition grade (perm mask : Z) : Z :=
  if both perm mask 8 || both perm mask 9 then BT_ATT_SECURITY_FIPS
  else if both perm mask 4 || both perm mask 5 then BT_ATT_SECURITY_HIGH
  else if both perm mask 2 || both perm mask 3 then BT_ATT_SECURITY_MEDIUM
  else 0.

(** An attribute without permissions is open.  Otherwise it has to have the access that the mask names, and the
    connection the level of security, with keys that are long enough; when nothing of the mask is among the
    permissions the connection is not asked. *)
Definition allowed (perm mask security enc_size min_size : Z) : bool :=
  (perm =? 0) ||
  (implb (Z.testbit mask 0) (Z.testbit perm 0) && implb (Z.testbit mask 1) (Z.testbit perm 1) &&
   ((Z.land perm mask =? 0) ||
    ((0 <=? security) && (grade perm mask <=? security) && ((grade perm mask =? 0) || check_min_key_size min_size enc_size)))).

(** ** The code keeps to it *)

Lemma has_bit perm n : 0 <= n -> has perm (2 ^ n) = Z.testbit perm n.
Proof.
  intros Hn. unfold has. destruct (Z.testbit perm n) eqn:E.
  - apply negb_true_iff, Z.eqb_neq. intros H0. apply (f_equal (fun z => Z.testbit z n)) in H0. rewrite Z.land_spec, Z.pow2_bits_true, E, Z.bits_0 in H0 by done. done.
  - apply negb_false_iff, Z.eqb_eq. apply Z.bits_inj. intros i. rewrite Z.land_spec, Z.bits_0, Z.pow2_bits_eqb by done. destruct (Z.eqb_spec n i) as [->|]; [by rewrite E|by rewrite andb_false_r].
Qed.

Lemma has_lor perm x y : has perm (Z.lor x y) = has perm x || has perm y.
Proof.
  unfold has. rewrite Z.land_lor_distr_r. destruct (Z.eqb_spec (Z.land perm x) 0) as [->|Hx], (Z.eqb_spec (Z.land perm y) 0) as [->|Hy]; cbn [negb orb]; [done|..].
  - by rewrite Z.lor_0_l, (proj2 (Z.eqb_neq _ _) Hy).
  - by rewrite Z.lor_0_r, (proj2 (Z.eqb_neq _ _) Hx).
  - rewrite (proj2 (Z.eqb_neq _ 0)); [done|]. intros [H _]%Z.lor_eq_0_iff. done.
Qed.

Lemma has_read perm : has perm BT_ATT_PERM_READ = Z.testbit perm 0.
Proof. exact (has_bit perm 0 ltac:(done)). Qed.
Lemma has_write perm : has perm BT_ATT_PERM_WRITE = Z.testbit perm 1.
Proof. exact (has_bit perm 1 ltac:(done)). Qed.

(** A group of two permissions. *)
Lemma has_pair perm mask group n : 0 <= n -> group = Z.lor (2 ^ n) (2 ^ (n + 1)) -> has (Z.land perm mask) group = both perm mask n || both perm mask (n + 1).
Proof. intros Hn ->. rewrite has_lor, !has_bit by lia. unfold both. by rewrite !Z.land_spec. Qed.

Lemma check_level_spec server security enc_size level error : check_level server security enc_size level error =
  if security <? level then Some error
  else if negb (check_min_key_size (sv_min_enc_size server) enc_size) then Some BT_ATT_ERROR_INSUFFICIENT_ENCRYPTION_KEY_SIZE else None.
Proof. done. Qed.

Lemma access_denied perm mask security enc_size server n : perm <> 0 -> n = 0 \/ n = 1 -> Z.testbit mask n = true -> Z.testbit perm n = false ->
  access perm mask security enc_size server <> 0.
Proof.
  intros Hp Hn Hm Hb. unfold access. rewrite (proj2 (Z.eqb_neq _ _) Hp), !has_read, !has_write. cbn [negb andb].
  destruct Hn as [-> | ->]; rewrite Hm, Hb; cbn [negb andb]; [done|]. by destruct (_ && _).
Qed.

Lemma access_levels perm mask security enc_size server : perm <> 0 ->
  implb (Z.testbit mask 0) (Z.testbit perm 0) && implb (Z.testbit mask 1) (Z.testbit perm 1) = true ->
  (access perm mask security enc_size server = 0 <->
   (Z.land perm mask =? 0) || ((0 <=? security) && (grade perm mask <=? security) && ((grade perm mask =? 0) || check_min_key_size (sv_min_enc_size server) enc_size)) = true).
Proof.
  intros Hp Hrw. unfold access. rewrite (proj2 (Z.eqb_neq _ _) Hp), !has_read, !has_write. cbn [negb andb].
  assert (Z.testbit mask 0 && negb (Z.testbit perm 0) = false /\ Z.testbit mask 1 && negb (Z.testbit perm 1) = false) as [-> ->].
  { by destruct (Z.testbit mask 0), (Z.testbit perm 0), (Z.testbit mask 1), (Z.testbit perm 1). }
  destruct (Z.land perm mask =? 0); [done|]. cbn [orb]. rewrite (Z.ltb_antisym 0 security). destruct (Z.leb_spec 0 security); [|done]. cbn [negb andb].
  rewrite (has_pair perm mask BT_ATT_PERM_SECURE 8), (has_pair perm mask BT_ATT_PERM_AUTHEN 4), (has_pair perm mask BT_ATT_PERM_ENCRYPT 2) by done.
  unfold grade. rewrite !check_level_spec. change (8 + 1) with 9. change (4 + 1) with 5. change (2 + 1) with 3.
  destruct (both perm mask 8 || both perm mask 9), (both perm mask 4 || both perm mask 5), (both perm mask 2 || both perm mask 3), (check_min_key_size _ _);
    cbn [negb]; unfold BT_ATT_SECURITY_FIPS, BT_ATT_SECURITY_HIGH, BT_ATT_SECURITY_MEDIUM.
  all: repeat match goal with |- context [?x <? ?y] => destruct (Z.ltb_spec x y) | |- context [?x <=? ?y] => destruct (Z.leb_spec x y) end; cbn; try lia; try done.
Qed.

Lemma access_allowed perm mask security enc_size server : access perm mask security enc_size server = 0 <-> allowed perm mask security enc_size (sv_min_enc_size server) = true.
Proof.
  unfold allowed. destruct (Z.eqb_spec perm 0) as [->|Hp]; [by unfold access|]. cbn [orb].
  destruct (implb (Z.testbit mask 0) (Z.testbit perm 0) && implb (Z.testbit mask 1) (Z.testbit perm 1)) eqn:Hrw; [by apply access_levels|].
  cbn [andb]. split; [|done]. intros H0. exfalso. revert H0.
  destruct (Z.testbit mask 0) eqn:M0, (Z.testbit perm 0) eqn:P0; cbn [implb andb] in Hrw.
  2: by apply (access_denied _ _ _ _ _ 0); auto.
  all: destruct (Z.testbit mask 1) eqn:M1, (Z.testbit perm 1) eqn:P1; cbn [implb] in Hrw; try done.
  all: apply (access_denied _ _ _ _ _ 1); auto.
Qed.

(** The masks of the handlers do not name the secure permissions, so that these change nothing for a peer. *)
Lemma secure_ignored perm mask security enc_size min_size : mask = READ_MASK \/ mask = WRITE_MASK -> Z.land perm 0xff <> 0 ->
  allowed perm mask security enc_size min_size = allowed (Z.land perm 0xff) mask security enc_size min_size.
Proof.
  intros Hm Hp. assert (perm <> 0) as Hp0 by (intros ->; by rewrite Z.land_0_l in Hp).
  assert (forall n, 0 <= n < 8 -> Z.testbit (Z.land perm 0xff) n = Z.testbit perm n) as Hbit.
  { intros n Hn. rewrite Z.land_spec. change 0xff with (Z.ones 8). rewrite Z.ones_spec_low by done. by rewrite andb_true_r. }
  assert (Z.land (Z.land perm 0xff) mask = Z.land perm mask) as El by (rewrite <-Z.land_assoc; f_equal; by destruct Hm as [-> | ->]).
  unfold allowed, grade, both. rewrite (proj2 (Z.eqb_neq _ _) Hp), (proj2 (Z.eqb_neq _ _) Hp0), El, (Hbit 0), (Hbit 1), (Hbit 2), (Hbit 3), (Hbit 4), (Hbit 5) by done.
  assert (Z.testbit mask 8 = false /\ Z.testbit mask 9 = false) as [-> ->] by (destruct Hm as [-> | ->]; split; reflexivity). rewrite !andb_false_r. done.
Qed.

Section Permit.
Context `{!Allocator} {T U : Type} `{!Transport T}.
Abbreviation mem := (Queue.mem (gatt (srv T U))).
Implicit Types (m : mem).

(** C19: for any mask, [check_permissions] lets a request pass exactly when the attribute has no permissions, or has
    the access that the mask names and the connection has the level of security and the key size for those of its
    other permissions that the mask asks for: medium for encryption, high for authentication, FIPS for the secure
    ones.  An attribute that has permissions but not to be read or written is refused with the error that says so.
    (The masks of the handlers leave the secure permissions out, [secure_ignored].) *)
Theorem gatt_server_permissions m server p x a mask : v_server (app_of m) = Some server -> g_services (world m) !! p.1 = Some x -> s_attributes x !! p.2 = Some (Attr a) ->
  wp (check_permissions p mask) (fun e m' => m' = m /\
    (e = 0 <-> allowed (a_permissions a) mask (att_security (v_att (app_of m))).1 (att_security (v_att (app_of m))).2 (sv_min_enc_size server) = true) /\
    (a_permissions a <> 0 -> Z.testbit mask 0 = true -> Z.testbit (a_permissions a) 0 = false -> e = BT_ATT_ERROR_READ_NOT_PERMITTED) /\
    (a_permissions a <> 0 -> Z.testbit mask 0 = false -> Z.testbit mask 1 = true -> Z.testbit (a_permissions a) 1 = false -> e = BT_ATT_ERROR_WRITE_NOT_PERMITTED)) m.
Proof.
  intros Hs Hx Ha. destruct p as [s i]. eapply check_permissions_wp; [done..|]. split_and!; [done|apply access_allowed|..].
  - intros Hp Hm Hb. unfold access. by rewrite (proj2 (Z.eqb_neq _ _) Hp), !has_read, Hm, Hb.
  - intros Hp Hm0 Hm Hb. unfold access. by rewrite (proj2 (Z.eqb_neq _ _) Hp), !has_read, !has_write, Hm0, Hm, Hb.
Qed.
End Permit.
