(* ===== verification/ServerReads.v ===== *)
(** Read, Read Blob and Write of the GATT server, for attributes that have their value in the database. *)

From stdpp Require Import gmap.
From S2P Require Import Prelude Util Alloc Queue QueueSpec QueueMain Uuid GattDb GattAccess GattSpec GattDestroy GattServices GattAttrs GattFind GattRequests GattMain GattRun.
From S2P Require Import ServerState ServerFind ServerAccess ServerSteps.

(** ** Attributes with a stored value *)

Section Stored.
Context `{!Allocator} {T U : Type} `{!Transport T} {app : App (srv T U)}.
Abbreviation mem := (Queue.mem (gatt (srv T U))).
Implicit Types (m : mem).

Lemma get_handle_wp s i x a (P : Z -> mem -> Prop) m :
  g_services (world m) !! s = Some x -> s_attributes x !! i = Some (Attr a) -> P (a_handle a) m -> wp (gatt_db_attribute_get_handle (Some (s, i))) P m.
Proof. intros Hx Ha HP. unfold gatt_db_attribute_get_handle. gatt_step. eapply wp_load_attr; [done..|]. by gatt_step. Qed.

(** A read calls the function with the bytes from the offset on. *)
Lemma stored_read_wp s i x a offset opcode att func ud (P : bool -> mem -> Prop) m :
  g_services (world m) !! s = Some x -> s_attributes x !! i = Some (Attr a) -> a_read_func a = None -> value_ok a -> 0 <= offset ->
  (a_value_len a < offset -> wp (call (ReadDone func (s, i) BT_ATT_ERROR_INVALID_OFFSET None 0 ud)) (fun _ => P true) m) ->
  (offset <= a_value_len a -> forall value, default [] value = drop (Z.to_nat offset) (bytes_of a) ->
    wp (call (ReadDone func (s, i) 0 value (a_value_len a - offset) ud)) (fun _ => P true) m) ->
  wp (gatt_db_attribute_read (Some (s, i)) offset opcode att (Some func) ud) P m.
Proof.
  intros Hx Ha Hrf Hok Ho Hbad Hgood. pose proof (bytes_of_length a Hok) as Hlen. unfold gatt_db_attribute_read. gatt_step. eapply wp_load_attr; [done..|]. rewrite Hrf.
  destruct (Z.ltb_spec (a_value_len a) offset) as [Hlt|Hle].
  { gatt_step. eapply wp_mono; [by apply Hbad|]. intros []. by intros; gatt_step. }
  gatt_step. assert (forall value, default [] value = drop (Z.to_nat offset) (bytes_of a) -> wp (_ ← call (ReadDone func (s, i) 0 value (a_value_len a - offset) ud); mret true) P m) as Hend.
  { intros value Hv. gatt_step. eapply wp_mono; [by eapply Hgood|]. intros []. by intros; gatt_step. }
  destruct (Z.eqb_spec offset (a_value_len a)) as [E|E].
  - gatt_step. apply Hend. cbn. rewrite drop_ge; [done|]. unfold zlen in *. lia.
  - unfold value_ok, bytes_of in *. destruct (a_value a) as [v|]; [|lia]. do 3 gatt_step. rewrite mem_read_ok by lia. do 2 gatt_step. apply Hend. cbn.
    rewrite skipn_firstn_comm. f_equal. lia.
Qed.

(** A write stores the bytes and then calls the function. *)
Lemma stored_write_wp s i x a offset data opcode att func ud (P : bool -> mem -> Prop) m :
  g_services (world m) !! s = Some x -> s_attributes x !! i = Some (Attr a) -> a_write_func a = None -> value_ok a -> 0 <= offset ->
  (zlen data = 0 -> wp (call (WriteDone func (s, i) 0 ud)) (fun _ => P true) m) ->
  (forall m', refused -> queues m' = queues m -> cells m' = cells m -> world m' = world m -> P false m') ->
  (forall m' a', 0 < zlen data -> written a a' offset data -> queues m' = queues m -> cells m' = cells m ->
    world m' = with_service s (put_slot i a' x) (world m) -> wp (call (WriteDone func (s, i) 0 ud)) (fun _ => P true) m') ->
  wp (gatt_db_attribute_write (Some (s, i)) offset data opcode att (Some func) ud) P m.
Proof.
  intros Hx Ha Hwf Hok Ho Hempty Href HP. pose proof (zlen_nonneg data) as Hnn. unfold gatt_db_attribute_write. gatt_step. eapply wp_load_attr; [done..|]. rewrite Hwf.
  destruct (Z.eqb_spec (zlen data) 0) as [E|E].
  { gatt_step. eapply wp_mono; [by apply Hempty|]. intros []. by intros; gatt_step. }
  gatt_step. eapply write_value_wp; [done|done|lia|..].
  - intros m' E1 E2 W Hr. gatt_step. by apply Href.
  - intros m' a' E1 E2 W Hw. gatt_step. eapply wp_update_attr; [by rewrite W|done|]. rewrite W. gatt_step.
    eapply wp_mono; [eapply (HP _ a'); [lia|done|done|done|done]|]. intros []. by intros; gatt_step.
Qed.
End Stored.

(** ** Read and Read Blob *)

Section Reads.
Context `{!Allocator} {T U : Type} `{!Transport T} (user : App (srv T U)) (fuel : nat).
Abbreviation mem := (Queue.mem (gatt (srv T U))).
Implicit Types (m : mem) (v : srv T U) (sv : bt_gatt_server).

(** A server that waits for no function of the application, nor of the database. *)
Definition idle v sv : Prop :=
  v_server v = Some sv /\ sv_pending_read_op sv = None /\ sv_pending_write_op sv = None /\ v_iov v = None /\ v_find v = None /\ v_ext_prop v = None.

(** The state while the database serves a read. *)
Definition reading (p : ptr) (opcode : Z) sv v : srv T U :=
  set_server (Some (set_pending_read (Some p) sv)) (set_read_ops (<[p := mk_read_op true opcode false None 0 0 None]> (v_read_ops v)) v).

Lemma reading_end p opcode sv v t : idle v sv -> v_read_ops v !! p = None ->
  set_read_ops (delete p (v_read_ops (reading p opcode sv v))) (set_server (Some (set_pending_read None (set_pending_read (Some p) sv))) (set_att t (reading p opcode sv v))) = set_att t v.
Proof.
  intros (Hs & Hr & _) Hp. unfold reading, set_server, set_read_ops, set_att. cbn. rewrite delete_insert_eq, delete_id by done. destruct v, sv; cbn in *. unfold set_pending_read. cbn. by rewrite Hs, Hr.
Qed.

(** The response to a read of [len] bytes. *)
Definition read_rsp (opcode mtu : Z) (value : raw) : pdu_of := (get_read_rsp_opcode opcode, take (Z.to_nat (mtu - 1)) value).

Lemma read_op_destroy_wp p opcode sv v t (P : () -> mem -> Prop) m :
  idle v sv -> v_read_ops v !! p = None -> app_of m = set_att t (reading p opcode sv v) -> P () (put_app (set_att t v) m) ->
  wp (async_read_op_destroy fuel p) P m.
Proof.
  intros Hv Hp Hm HP. unfold async_read_op_destroy, load_read_op. gatt_step. eapply wp_look; [rewrite Hm; apply lookup_insert_eq|]. cbn [ro_server ro_db_data]. gatt_step.
  eapply wp_update_server; [by rewrite Hm|]. gatt_step. unfold queue_destroy. gatt_step. gatt_step.
  eapply wp_look; [rewrite Hm; apply lookup_insert_eq|]. apply wp_change. rewrite put_app_twice, <-(reading_end p opcode sv v t) in * by done. unfold put_app, app_of in *. gatt_simpl. rewrite Hm. exact HP.
Qed.

Lemma read_complete_wp s i x a p opcode sv v err value len (P : () -> mem -> Prop) m :
  idle v sv -> v_read_ops v !! p = None -> app_of m = reading p opcode sv v -> opcode <> 0 ->
  g_services (world m) !! s = Some x -> s_attributes x !! i = Some (Attr a) -> 1 <= att_mtu (v_att v) <= UINT16_MAX -> len = zlen (default [] value) -> len <= UINT16_MAX ->
  P () (put_app (sent (if err =? 0 then read_rsp opcode (att_mtu (v_att v)) (default [] value) else error_rsp opcode (a_handle a) err) v) m) ->
  wp (read_complete_cb fuel (s, i) err value len p) P m.
Proof.
  intros Hv Hp Hm Hop Hx Ha Hmtu Hlen Hmax HP. unfold UINT16_MAX in *. pose proof (zlen_nonneg (default [] value)) as Hnn. unfold read_complete_cb, load_read_op. gatt_step.
  eapply wp_look; [rewrite Hm; apply lookup_insert_eq|]. cbn [ro_server ro_opcode negb]. gatt_step. eapply wp_get_mtu; [by rewrite Hm|]. gatt_step. eapply get_handle_wp; [done..|].
  assert (v_att (app_of m) = v_att v) as Hatt by (by rewrite Hm). destruct (Z.eqb_spec err 0) as [E|E]; cbn [negb].
  - unfold copy_from. rewrite Hatt, u32_small by lia. rewrite u16_small by lia. rewrite mem_read_ok; [|lia|lia|destruct (Z.eqb_spec len 0); [change (zlen (default [] None)) with 0|]; lia].
    replace (take _ _) with (take (Z.to_nat (att_mtu (v_att v) - 1)) (default [] value)).
    + do 3 gatt_step. eapply wp_send; [by rewrite Hm|]. rewrite Hm. by eapply (read_op_destroy_wp p opcode sv v (att_send _ _ (v_att v)).2).
    + change (Z.to_nat 0) with 0%nat. rewrite drop_0. destruct (Z.eqb_spec len 0) as [E0|_].
      * assert (default [] value = []) as -> by (apply nil_length_inv; unfold zlen in *; lia). etransitivity; [apply take_nil|symmetry; apply take_nil].
      * unfold zlen in *. destruct (decide (Z.to_nat (att_mtu (v_att v) - 1) <= length (default [] value))%nat); [f_equal; lia|]. rewrite !take_ge by lia. done.
  - gatt_step. eapply wp_send_error; [by rewrite Hm|done|]. rewrite Hm. by eapply (read_op_destroy_wp p opcode sv v (att_send _ _ (v_att v)).2).
Qed.

(** ** The attribute of a handle *)

(** What the database has for a handle. *)
Definition found (g : gatt (srv T U)) (h : Z) (o : option gatt_db_attribute) : Prop :=
  match o with
  | Some a => exists s i x, g_services g !! s = Some x /\ s_attributes x !! i = Some (Attr a) /\ a_handle a = h
  | None => forall p, ~ handle_of g p h
  end.

Lemma lookup_wp m Q own d ss h (P : option attr -> mem -> Prop) : sound m Q own d ss ->
  (found (world m) h None -> P None m) ->
  (forall s i x a, s ∈ ss -> g_services (world m) !! s = Some x -> regular x -> s_attributes x !! i = Some (Attr a) -> a_handle a = h -> P (Some (s, i)) m) ->
  wp (gatt_db_get_attribute h) P m.
Proof.
  intros S HN HS. eapply get_attribute_wp; [apply S|..].
  - intros Hno. apply HN. intros p [Hs Hc]%(sound_handle _ _ _ _ _ _ _ S). by destruct (Hno _ Hs).
  - intros s x Hs Hc Hx Hno. apply HN. intros p Hp. pose proof (sound_handle _ _ _ _ _ _ _ S Hp) as [Hs' Hc'].
    pose proof (ordered_unique _ _ _ _ _ (sound_order _ _ _ _ _ S) Hs Hs' Hc Hc') as ->. destruct Hp as (y & a & Hy & Ha & Ea). assert (y = x) as -> by congruence. destruct (Hno p.2). by exists a.
  - intros s x i Hs Hc Hx (a & Ha & Ea). eapply HS; [done|done|by eapply (sound_listed _ _ _ _ _ S)|done|done].
Qed.

(** What is found for a handle is one attribute. *)
Lemma found_unique m Q own d ss h a b : sound m Q own d ss -> found (world m) h (Some a) -> found (world m) h (Some b) -> a = b.
Proof.
  intros S (s & i & x & Hx & Ha & Eh) (t & j & y & Hy & Hb & Eh'). pose proof (sound_handle_inj _ _ _ _ _ (s, i) (t, j) h S) as Hinj. cbn in Hinj.
  assert ((s, i) = (t, j)) as [= -> ->] by (apply Hinj; [by exists x, a|by exists y, b]). congruence.
Qed.

(** The server has given one message to the transport, and nothing else has changed. *)
Definition answered (r : pdu_of) m m' : Prop := queues m' = queues m /\ cells m' = cells m /\ world m' = set_app (sent r (app_of m)) (world m).

(** The test of an attribute with the state of the server. *)
Definition access_of v sv (a : gatt_db_attribute) (mask : Z) : Z := access (a_permissions a) mask (att_security (v_att v)).1 (att_security (v_att v)).2 sv.

(** The answer to a read of a handle that stands for [o]. *)
Definition read_answer v sv (opcode handle offset : Z) (o : option gatt_db_attribute) : pdu_of :=
  match o with
  | None => error_rsp opcode handle BT_ATT_ERROR_INVALID_HANDLE
  | Some a =>
      let e := access_of v sv a READ_MASK in
      if negb (e =? 0) then error_rsp opcode handle e
      else if a_value_len a <? offset then error_rsp opcode handle BT_ATT_ERROR_INVALID_OFFSET
      else read_rsp opcode (att_mtu (v_att v)) (drop (Z.to_nat offset) (bytes_of a))
  end.

Lemma handle_read_wp n m Q own d ss sv opcode handle offset (P : () -> mem -> Prop) :
  sound m Q own d ss -> idle (app_of m) sv -> opcode <> 0 -> 0 <= offset -> 1 <= att_mtu (v_att (app_of m)) <= UINT16_MAX ->
  (forall a, found (world m) handle (Some a) -> a_read_func a = None) ->
  (forall o m', found (world m) handle o -> answered (read_answer (app_of m) sv opcode handle offset o) m m' -> P () m') ->
  wp (handle_read_req (app := server_app user fuel (S n)) fuel opcode handle offset) P m.
Proof.
  intros Sd Hv Hop Ho Hmtu Hplain HP. pose proof Hv as (Hsv & Hpr & _). unfold handle_read_req. gatt_step. eapply wp_load_server; [done|]. gatt_step. eapply lookup_wp; [done|..].
  { intros Hno. eapply wp_send_error; [done|done|]. by apply (HP None). }
  intros s i x a Hs Hx Hreg Ha Eh. assert (found (world m) handle (Some a)) as Hfound by (by exists s, i, x). gatt_step. eapply check_permissions_wp; [done..|]. fold (access_of (app_of m) sv a READ_MASK).
  destruct (Z.eqb_spec (access_of (app_of m) sv a READ_MASK) 0) as [E|E]; cbn [negb]; [|eapply wp_send_error; [done|done|]; apply (HP (Some a)); [done|]; unfold read_answer; destruct (Z.eqb_spec (access_of (app_of m) sv a READ_MASK) 0); done].
  gatt_step. eapply wp_load_server; [done|]. rewrite Hpr. do 2 gatt_step. intros p Hp%not_elem_of_dom. gatt_step. unfold store_read_op. apply wp_change. gatt_step. eapply wp_update_server; [done|]. gatt_step.
  set (m1 := put_app _ _). assert (app_of m1 = reading p opcode sv (app_of m)) as Hm1 by done.
  assert (forall err value len, len = zlen (default [] value) -> len <= UINT16_MAX ->
    (if err =? 0 then read_rsp opcode (att_mtu (v_att (app_of m))) (default [] value) else error_rsp opcode (a_handle a) err) = read_answer (app_of m) sv opcode handle offset (Some a) ->
    wp (@call _ (server_app user fuel (S n)) (ReadDone read_complete (s, i) err value len (addr p))) (fun _ => wp (if true then mret () else _ ← async_read_op_destroy fuel p; send_error opcode handle BT_ATT_ERROR_UNLIKELY) P) m1) as Hdone.
  { intros err value len Hl Hmax Hans. cbn [call server_app]. unfold dispatch. rewrite decide_True by done. do 2 gatt_step. eapply (read_complete_wp s i x a p opcode sv (app_of m)); [done..|]. gatt_step. apply (HP (Some a)); [done|]. by rewrite <-Hans. }
  pose proof (reg_values _ Hreg _ _ Ha) as Hval. pose proof (bytes_of_length a Hval) as Hlen. eapply (stored_read_wp (app := server_app user fuel (S n)) s i x a); [done|done|by apply Hplain|done|done| |].
  - intros Hlt. apply Hdone; [done|done|]. unfold read_answer. rewrite E. cbn [Z.eqb negb]. rewrite (proj2 (Z.ltb_lt _ _)) by done. by rewrite Eh.
  - intros Hle value Hval'. apply Hdone.
    + rewrite Hval'. unfold zlen in *. rewrite length_drop. lia.
    + unfold value_ok, UINT16_MAX in *. destruct (a_value a); lia.
    + unfold read_answer. rewrite E. cbn [Z.eqb negb]. rewrite (proj2 (Z.ltb_ge _ _)) by done. by rewrite Hval'.
Qed.
End Reads.

(** ** Write *)

Section Writes.
Context `{!Allocator} {T U : Type} `{!Transport T} (user : App (srv T U)) (fuel : nat).
Abbreviation mem := (Queue.mem (gatt (srv T U))).
Implicit Types (m : mem) (v : srv T U) (sv : bt_gatt_server).

(** The state while the database serves a write. *)
Definition writing (p : ptr) (opcode : Z) sv v : srv T U :=
  set_server (Some (set_pending_write (Some p) sv)) (set_write_ops (<[p := mk_write_op true opcode]> (v_write_ops v)) v).

Lemma writing_end p opcode sv v t : idle v sv -> v_write_ops v !! p = None ->
  set_write_ops (delete p (v_write_ops (writing p opcode sv v))) (set_server (Some (set_pending_write None (set_pending_write (Some p) sv))) (set_att t (writing p opcode sv v))) = set_att t v.
Proof.
  intros (Hs & _ & Hw & _) Hp. unfold writing, set_server, set_write_ops, set_att. cbn. rewrite delete_insert_eq, delete_id by done. destruct v, sv; cbn in *. unfold set_pending_write. cbn. by rewrite Hs, Hw.
Qed.

Lemma write_op_destroy_wp p opcode sv v t (P : () -> mem -> Prop) m :
  idle v sv -> v_write_ops v !! p = None -> app_of m = set_att t (writing p opcode sv v) -> P () (put_app (set_att t v) m) -> wp (async_write_op_destroy p) P m.
Proof.
  intros Hv Hp Hm HP. unfold async_write_op_destroy, load_write_op. gatt_step. eapply wp_look; [rewrite Hm; apply lookup_insert_eq|]. cbn [wo_server]. gatt_step.
  eapply wp_update_server; [by rewrite Hm|]. apply wp_change. rewrite put_app_twice, <-(writing_end p opcode sv v t) in * by done. unfold put_app, app_of in *. gatt_simpl. rewrite Hm. exact HP.
Qed.

(** A command has no answer. *)
Definition unless_command (opcode : Z) (r : pdu_of) : option pdu_of := if opcode =? BT_ATT_OP_WRITE_CMD then None else Some r.
Definition replied (o : option pdu_of) v : srv T U := match o with Some r => sent r v | None => v end.

Lemma write_complete_wp s i x a p opcode sv v (P : () -> mem -> Prop) m :
  idle v sv -> v_write_ops v !! p = None -> app_of m = writing p opcode sv v -> g_services (world m) !! s = Some x -> s_attributes x !! i = Some (Attr a) ->
  P () (put_app (replied (unless_command opcode (BT_ATT_OP_WRITE_RSP, [])) v) m) -> wp (write_complete_cb (s, i) 0 p) P m.
Proof.
  intros Hv Hp Hm Hx Ha HP. unfold write_complete_cb, load_write_op. gatt_step. eapply wp_look; [rewrite Hm; apply lookup_insert_eq|]. cbn [wo_server wo_opcode negb orb].
  unfold unless_command in HP. destruct (opcode =? BT_ATT_OP_WRITE_CMD).
  - eapply (write_op_destroy_wp p opcode sv v (v_att v)); [done|done|by rewrite Hm|]. replace (set_att (v_att v) v) with v by (by destruct v). exact HP.
  - gatt_step. eapply get_handle_wp; [done..|]. cbn [Z.eqb negb]. gatt_step. eapply wp_send; [by rewrite Hm|]. rewrite Hm. by eapply (write_op_destroy_wp p opcode sv v (att_send _ _ (v_att v)).2).
Qed.

(** The error of a write, if the database has [o] for the handle. *)
Definition write_error v sv (o : option gatt_db_attribute) : option Z :=
  match o with
  | None => Some BT_ATT_ERROR_INVALID_HANDLE
  | Some a => let e := access_of v sv a WRITE_MASK in if e =? 0 then None else Some e
  end.

(** The attribute after a write of [data] at [offset]. *)
Definition stores (a a' : gatt_db_attribute) (offset : Z) (data : bytes) : Prop := if zlen data =? 0 then a' = a else written a a' offset data.

(** The server has answered, or not; the attribute is [a']. *)
Definition answered_with (o : option pdu_of) (s : ptr) (i : nat) (x : gatt_db_service) (a' : gatt_db_attribute) m m' : Prop :=
  queues m' = queues m /\ cells m' = cells m /\ world m' = set_app (replied o (app_of m)) (with_service s (put_slot i a' x) (world m)).

Lemma with_service_same s x i a (g : gatt (srv T U)) : g_services g !! s = Some x -> s_attributes x !! i = Some (Attr a) -> with_service s (put_slot i a x) g = g.
Proof.
  intros Hx Ha. unfold with_service, put_slot. rewrite list_insert_id by done. replace (set_attributes (s_attributes x) x) with x by (by destruct x). rewrite insert_id by done. by destruct g.
Qed.

Lemma write_wp n m Q own d ss sv opcode pdu (P : () -> mem -> Prop) :
  sound m Q own d ss -> idle (app_of m) sv -> opcode <> 0 ->
  (forall h a, get_le16 pdu = Ret h -> found (world m) h (Some a) -> a_write_func a = None) ->
  (forall e h m', queues m' = queues m -> cells m' = cells m -> world m' = set_app (replied (unless_command opcode (error_rsp opcode h e)) (app_of m)) (world m) ->
    (zlen pdu < 2 /\ h = 0 /\ e = BT_ATT_ERROR_INVALID_PDU) \/ (get_le16 pdu = Ret h /\ refused) \/ (get_le16 pdu = Ret h /\ exists o, found (world m) h o /\ write_error (app_of m) sv o = Some e) -> P () m') ->
  (forall h s i x a a' m', get_le16 pdu = Ret h -> s ∈ ss -> g_services (world m) !! s = Some x -> s_attributes x !! i = Some (Attr a) -> a_handle a = h ->
    write_error (app_of m) sv (Some a) = None -> stores a a' 0 (drop 2 pdu) -> answered_with (unless_command opcode (BT_ATT_OP_WRITE_RSP, [])) s i x a' m m' -> P () m') ->
  wp (write_cb (app := server_app user fuel (S n)) opcode pdu) P m.
Proof.
  intros Sd Hv Hop Hplain Herr HP. pose proof Hv as (Hsv & _ & Hpw & _). unfold write_cb.
  assert (forall h e m1, queues m1 = queues m -> cells m1 = cells m -> world m1 = world m ->
    (zlen pdu < 2 /\ h = 0 /\ e = BT_ATT_ERROR_INVALID_PDU) \/ (get_le16 pdu = Ret h /\ refused) \/ (get_le16 pdu = Ret h /\ exists o, found (world m) h o /\ write_error (app_of m) sv o = Some e) ->
    wp (if opcode =? BT_ATT_OP_WRITE_CMD then mret () else send_error opcode h e) P m1) as Hfail.
  { intros h e m1 E1 E2 E3 Hwhy. assert (app_of m1 = app_of m) as Eapp by (unfold app_of; by rewrite E3). specialize (Herr e h). unfold unless_command in Herr. destruct (opcode =? BT_ATT_OP_WRITE_CMD).
    - gatt_step. apply Herr; [done|done| |done]. rewrite E3. unfold app_of. cbn. by destruct (world m).
    - eapply wp_send_error; [by rewrite Eapp|done|]. apply Herr; [done|done| |done]. unfold put_app. gatt_simpl. by rewrite E3, Eapp. }
  destruct (Z.ltb_spec (zlen pdu) 2) as [Hlt|Hge]; [apply Hfail; by auto|]. destruct pdu as [|b0 [|b1 pdu]]; [unfold zlen in Hge; cbn in Hge; lia..|]. cbn [drop] in *. change (drop 0 pdu) with pdu in *. gatt_step. eapply le16_at_wp; [done|]. set (h := _ + _) in *.
  gatt_step. eapply wp_load_server; [done|]. gatt_step. eapply lookup_wp; [done|..].
  { intros Hno. apply Hfail; [done..|]. right; right. split; [done|]. by exists None. }
  intros s i x a Hs Hx Hreg Ha Eh. assert (found (world m) h (Some a)) as Hfound by (by exists s, i, x). gatt_step. eapply check_permissions_wp; [done..|]. fold (access_of (app_of m) sv a WRITE_MASK).
  destruct (Z.eqb_spec (access_of (app_of m) sv a WRITE_MASK) 0) as [E|E]; cbn [negb].
  2: { apply Hfail; [done..|]. right; right. split; [done|]. exists (Some a). split; [done|]. unfold write_error. by rewrite (proj2 (Z.eqb_neq _ _)). }
  assert (write_error (app_of m) sv (Some a) = None) as Hok by (unfold write_error; by rewrite E).
  gatt_step. eapply wp_load_server; [done|]. rewrite Hpw. do 2 gatt_step. intros p Hp%not_elem_of_dom. gatt_step. apply wp_change. gatt_step. eapply wp_update_server; [done|]. gatt_step.
  set (m1 := put_app _ _). assert (app_of m1 = writing p opcode sv (app_of m)) as Hm1 by done.
  assert (forall a' m2, (i < length (s_attributes x))%nat -> queues m2 = queues m -> cells m2 = cells m -> world m2 = with_service s (put_slot i a' x) (world m1) -> stores a a' 0 pdu ->
    wp (@call _ (server_app user fuel (S n)) (WriteDone write_complete (s, i) 0 (addr p))) (fun _ => wp (if true then mret () else _ ← async_write_op_destroy p; if opcode =? BT_ATT_OP_WRITE_CMD then mret () else send_error opcode h BT_ATT_ERROR_UNLIKELY) P) m2) as Hdone.
  { intros a' m2 Hi E1 E2 E3 Hst. cbn [call server_app]. unfold dispatch. rewrite decide_True by done. do 2 gatt_step. eapply (write_complete_wp s i (put_slot i a' x) a' p opcode sv (app_of m)); [done|done|unfold app_of; by rewrite E3|rewrite E3; apply lookup_insert_eq|by apply put_slot_here|].
    gatt_step. eapply (HP h s i x a a'); [done..|]. split_and!; [done..|]. unfold put_app. gatt_simpl. rewrite E3. done. }
  pose proof (reg_values _ Hreg _ _ Ha) as Hval. assert (i < length (s_attributes x))%nat as Hi by (by eapply lookup_lt_Some).
  eapply (stored_write_wp (app := server_app user fuel (S n)) s i x a); [done|done|by eapply Hplain|done|done|..].
  - intros Hz. apply (Hdone a); [done|done|done| |unfold stores; by rewrite Hz]. symmetry. by apply with_service_same.
  - intros m2 Hr E1 E2 E3. gatt_step. eapply (write_op_destroy_wp p opcode sv (app_of m) (v_att (app_of m))); [done|done|unfold app_of; by rewrite E3|]. apply Hfail; [done|done| |by auto].
    unfold put_app. gatt_simpl. rewrite E3. unfold m1, put_app, app_of. gatt_simpl. replace (set_att _ _) with (g_app (world m)) by (by destruct (g_app (world m))). by destruct (world m).
  - intros m2 a' Hd Hw E1 E2 E3. apply (Hdone a'); [done|done|done|done|]. unfold stores. rewrite (proj2 (Z.eqb_neq _ _)) by lia. done.
Qed.
End Writes.
