(* ===== verification/ServerSearch.v ===== *)
(** The searches of the GATT server: what is put into the queue of a request, and how it is encoded. *)

From stdpp Require Import gmap.
From Stdlib Require Import Sorted.
From S2P Require Import Prelude Util Alloc Queue QueueSpec QueueMain Uuid GattDb GattAccess GattSpec GattDestroy GattServices GattAttrs GattFind GattRequests GattMain GattRun.
From S2P Require Import ServerState ServerFind ServerAccess ServerSteps ServerReads.

(** ** Attributes in order *)

(** The attributes of a service with their places. *)
Fixpoint attrs_from (s : ptr) (i : nat) (l : list slot) : list (attr * gatt_db_attribute) :=
  match l with
  | [] => []
  | Attr a :: l => ((s, i), a) :: attrs_from s (S i) l
  | _ :: l => attrs_from s (S i) l
  end.

Lemma attrs_from_lookup s l : forall i p a, (p, a) ∈ attrs_from s i l <-> exists j, p = (s, (i + j)%nat) /\ l !! j = Some (Attr a).
Proof.
  induction l as [|v l IH]; intros i p a; cbn.
  { split; [by intros ?%elem_of_nil|by intros (j & _ & ?)]. }
  assert ((p, a) ∈ attrs_from s (S i) l <-> exists j, p = (s, (i + S j)%nat) /\ l !! j = Some (Attr a)) as HS.
  { rewrite IH. by setoid_rewrite <-Nat.add_succ_comm. }
  destruct v as [| |b].
  - rewrite HS. split; [intros (j & ? & ?); by exists (S j)|]. intros ([|j] & ? & ?); [done|by exists j].
  - rewrite HS. split; [intros (j & ? & ?); by exists (S j)|]. intros ([|j] & ? & ?); [done|by exists j].
  - rewrite elem_of_cons, HS. split.
    + intros [[= -> ->]|(j & ? & ?)]; [exists 0%nat; by rewrite Nat.add_0_r|by exists (S j)].
    + intros ([|j] & -> & E); [left; cbn in E; rewrite Nat.add_0_r; congruence|right; by exists j].
Qed.

(** The handles from [start] to [end_], of the attributes that are asked for. *)
Definition wanted (sel : gatt_db_attribute -> bool) (start end_ : Z) (a : gatt_db_attribute) : bool := (start <=? a_handle a) && (a_handle a <=? end_) && sel a.
Definition pick (sel : gatt_db_attribute -> bool) (start end_ : Z) (l : list (attr * gatt_db_attribute)) : list (attr * gatt_db_attribute) :=
  filter (fun pa => wanted sel start end_ pa.2 = true) l.

Lemma pick_cons sel start end_ pa l : pick sel start end_ (pa :: l) = if wanted sel start end_ pa.2 then pa :: pick sel start end_ l else pick sel start end_ l.
Proof. unfold pick. rewrite filter_cons. destruct (wanted _ _ _ _); [by rewrite decide_True|by rewrite decide_False]. Qed.
Lemma pick_app sel start end_ l1 l2 : pick sel start end_ (l1 ++ l2) = pick sel start end_ l1 ++ pick sel start end_ l2.
Proof. apply filter_app. Qed.
Lemma pick_none sel start end_ l : (forall p a, (p, a) ∈ l -> wanted sel start end_ a = false) -> pick sel start end_ l = [].
Proof.
  induction l as [|[p a] l IH]; intros Hl; [done|]. rewrite pick_cons. cbn. rewrite (Hl p a) by (by left). apply IH. intros p' a' Hin. apply (Hl p'). by right.
Qed.

(** The attributes of the active services. *)
Definition listing {A} (g : gatt A) (ss : list ptr) : list (attr * gatt_db_attribute) :=
  ss ≫= fun s => match g_services g !! s with Some x => if s_active x then attrs_from s 0 (s_attributes x) else [] | None => [] end.

(** ** How many there can be *)

Lemma sorted_bound {A} (f : A -> Z) lo hi l : StronglySorted (fun x y => f x < f y) l -> (forall x, x ∈ l -> lo < f x <= hi) -> lo <= hi -> zlen l <= hi - lo.
Proof.
  revert lo. induction l as [|x l IH]; intros lo Hs Hl Hlo; [unfold zlen; cbn; lia|]. apply StronglySorted_inv in Hs as [Hs Hx]. rewrite Forall_forall in Hx. pose proof (Hl x ltac:(by left)) as Hfx.
  rewrite zlen_cons. specialize (IH (f x) Hs). assert (zlen l <= hi - f x); [|lia]. apply IH; [|lia]. intros y Hy. split; [by apply Hx|]. apply (Hl y). by right.
Qed.

Lemma sorted_app {A} (R : A -> A -> Prop) l1 l2 : StronglySorted R l1 -> StronglySorted R l2 -> (forall x y, x ∈ l1 -> y ∈ l2 -> R x y) -> StronglySorted R (l1 ++ l2).
Proof.
  induction 1 as [|x l1 H1 IH Hx]; intros H2 Hc; [done|]. cbn. constructor; [apply IH; [done|]; intros; apply Hc; [by right|done]|]. rewrite Forall_app. split; [done|]. rewrite Forall_forall. intros y Hy. apply Hc; [by left|done].
Qed.

Lemma attrs_sorted s x l i : rising x -> (forall j v, l !! j = Some v -> s_attributes x !! (i + j)%nat = Some v) -> StronglySorted (fun pa qb => a_handle pa.2 < a_handle qb.2) (attrs_from s i l).
Proof.
  intros Hr. revert i. induction l as [|v l IH]; intros i Hl; cbn; [constructor|].
  assert (forall j w, l !! j = Some w -> s_attributes x !! (S i + j)%nat = Some w) as Hl' by (intros j w Hj; rewrite Nat.add_succ_comm; by apply Hl).
  destruct v as [| |a]; [by apply IH|by apply IH|]. constructor; [by apply IH|]. rewrite Forall_forall. intros [p b] (j & -> & Hj)%attrs_from_lookup. cbn. eapply (rise_order _ Hr i (S i + j)).
  - rewrite <-(Nat.add_0_r i). by apply Hl.
  - by apply Hl'.
  - lia.
Qed.

Lemma listing_elem {A} (g : gatt A) ss p a : (p, a) ∈ listing g ss <-> exists s x i, s ∈ ss /\ g_services g !! s = Some x /\ s_active x = true /\ p = (s, i) /\ s_attributes x !! i = Some (Attr a).
Proof.
  unfold listing. rewrite list_elem_of_bind. split.
  - intros (s & Hin & Hs). destruct (g_services g !! s) as [x|] eqn:Hx; [|by apply elem_of_nil in Hin]. destruct (s_active x) eqn:Ha; [|by apply elem_of_nil in Hin]. apply attrs_from_lookup in Hin as (j & -> & Hj). by exists s, x, j.
  - intros (s & x & i & Hs & Hx & Ha & -> & Hi). exists s. rewrite Hx, Ha. split; [|done]. apply attrs_from_lookup. by exists i.
Qed.

(** Services with their ranges. *)
Definition ranged {A} (g : gatt A) (ss : list ptr) : Prop :=
  forall s, s ∈ ss -> exists x, g_services g !! s = Some x /\ regular x /\ range g s = (first_handle x, last_handle x) /\ 1 <= first_handle x /\ first_handle x <= last_handle x /\ last_handle x <= UINT16_MAX.

Lemma sound_ranged `{!Allocator} {A} (m : Queue.mem (gatt A)) Q own d ss : sound m Q own d ss -> ranged (world m) ss.
Proof.
  intros Sd s Hs. destruct (db_service _ _ _ _ _ _ (sound_db _ _ _ _ _ Sd) s Hs) as (x & Hx & Hok). exists x. destruct (sound_listed _ _ _ _ _ Sd s x Hx) as [_ Hreg]. unfold range. rewrite Hx.
  pose proof (service_bounds _ _ _ Hok). split_and!; done || lia.
Qed.

Lemma listing_sorted {A} (g : gatt A) ss : ordered g ss -> ranged g ss ->
  StronglySorted (fun pa qb => a_handle pa.2 < a_handle qb.2) (listing g ss) /\ StronglySorted (fun s t => (range g s).1 < (range g t).1) ss.
Proof.
  induction 1 as [|s ss Ho IH Hall]; intros Hss; [split; constructor|]. rewrite Forall_forall in Hall. destruct IH as [IH1 IH2]; [intros t Ht; apply Hss; by right|].
  destruct (Hss s ltac:(by left)) as (x & Hx & Hreg & Hr & Hb). split.
  - unfold listing. cbn [mbind list_bind]. rewrite Hx. apply sorted_app; [|exact IH1|].
    + destruct (s_active x); [|constructor]. eapply attrs_sorted; [apply Hreg|done].
    + intros [p a] [p' b] Ha (t & y & j & Ht & Hy & _ & -> & Hj)%listing_elem. destruct (s_active x); [|by apply elem_of_nil in Ha]. apply attrs_from_lookup in Ha as (i & -> & Ha).
      destruct (Hss t ltac:(by right)) as (y' & Hy' & Hregy & Hry & _). assert (y' = y) as -> by congruence. specialize (Hall t Ht). rewrite Hr, Hry in Hall. cbn [fst snd] in *.
      pose proof (rise_range _ (reg_rising _ Hreg) _ _ Ha). pose proof (rise_range _ (reg_rising _ Hregy) _ _ Hj). lia.
  - constructor; [done|]. rewrite Forall_forall. intros t Ht. specialize (Hall t Ht). rewrite Hr in *. cbn [fst snd] in *. lia.
Qed.

(** At most as many attributes and services as handles. *)
Lemma listing_bound `{!Allocator} {A} (m : Queue.mem (gatt A)) Q own d ss : sound m Q own d ss -> zlen (listing (world m) ss) <= UINT16_MAX /\ zlen ss <= UINT16_MAX.
Proof.
  intros Sd. pose proof (sound_ranged _ _ _ _ _ Sd) as Hss. destruct (listing_sorted _ _ (sound_order _ _ _ _ _ Sd) Hss) as [H1 H2]. replace UINT16_MAX with (UINT16_MAX - 0) by lia. split.
  - apply (sorted_bound (fun pa => a_handle pa.2)); [done| |done]. intros [p a] (s & x & i & Hs & Hx & _ & -> & Hi)%listing_elem. destruct (Hss s Hs) as (y & Hy & Hreg & _ & Hb).
    assert (y = x) as -> by congruence. pose proof (rise_range _ (reg_rising _ Hreg) _ _ Hi). cbn. lia.
  - apply (sorted_bound (fun s => (range (world m) s).1)); [done| |done]. intros s Hs. destruct (Hss s Hs) as (x & _ & _ & -> & Hb). cbn. lia.
Qed.

Section Collect.
Context `{!Allocator} {T U : Type} `{!Transport T} {app : App (srv T U)} (fuel : nat).
Abbreviation mem := (Queue.mem (gatt (srv T U))).
Implicit Types (m : mem) (g : gatt (srv T U)) (own : gmap ptr owner) (Q : gmap ptr (Z * entry_list)).

(** Pointers to the attributes. *)
Definition ptrs (l : list (attr * gatt_db_attribute)) : list Z := (fun pa => addr pa.1) <$> l.

(** A body of a loop that puts the attributes that are asked for into the queue [q], and stops behind the last handle. *)
Definition collects q sel start end_ (s : ptr) (x : gatt_db_service) (w : gatt (srv T U)) (body : nat -> gatt_db_attribute -> Queue.M bool) : Prop :=
  forall i a m1 Q1 es1 (P : bool -> mem -> Prop), s_attributes x !! i = Some (Attr a) -> represents ∅ m1 Q1 -> Q1 !! q = Some (1, es1) -> world m1 = w ->
  (end_ < a_handle a -> forall go, P go m1) -> (a_handle a <= end_ -> wanted sel start end_ a = false -> P true m1) ->
  (wanted sel start end_ a = true -> forall e m2, represents ∅ m2 (<[q := (1, es1 ++ [(e, addr (s, i))])]> Q1) -> world m2 = w -> P true m2) -> wp (body i a) P m1.

Lemma for_attributes_wp q sel start end_ s x own w body : collects q sel start end_ s x w body -> g_services w !! s = Some x -> service_ok own s x -> rising x ->
  forall k i m Q es (P : () -> mem -> Prop), (i + k = length (s_attributes x))%nat -> represents ∅ m Q -> Q !! q = Some (1, es) -> world m = w ->
  (forall m' es', represents ∅ m' (<[q := (1, es ++ es')]> Q) -> world m' = w -> es'.*2 = ptrs (pick sel start end_ (attrs_from s i (drop i (s_attributes x)))) -> P () m') ->
  wp (for_attributes k s i body) P m.
Proof.
  intros Hb Hx Hok Hr. induction k as [|k IH]; intros i m Q es P Hk R Hq Hw HP; cbn [for_attributes].
  { gatt_step. rewrite drop_ge in HP by lia. apply (HP m []); [by rewrite app_nil_r, insert_id|done|done]. }
  gatt_step. eapply wp_load_service; [by rewrite Hw|]. pose proof (so_size _ _ _ Hok) as Hsize. unfold zlen in Hsize. rewrite (proj2 (Z.ltb_lt _ _)) by lia.
  destruct (lookup_lt_is_Some_2 (s_attributes x) i) as [v Hv]; [lia|]. rewrite (drop_S _ v) in HP by done. gatt_step.
  destruct (so_slot _ _ _ Hok i v Hv) as [->|(a & -> & _)]; eapply wp_attribute_at; [by rewrite Hw|exact Hv|done| |by rewrite Hw|exact Hv|done|]; cbv iota; cbn [attrs_from] in HP.
  { by eapply (IH (S i)); [lia|..]. }
  gatt_step. eapply (Hb i a m Q es); [done|done|done|done|..].
  - intros Hgt go. assert (pick sel start end_ (attrs_from s (S i) (drop (S i) (s_attributes x))) = []) as Hnil.
    { apply pick_none. intros p b (j & -> & Hj)%attrs_from_lookup. rewrite lookup_drop in Hj. pose proof (rise_order _ Hr _ _ _ _ Hv Hj ltac:(lia)). unfold wanted. lia. }
    rewrite pick_cons in HP. assert (wanted sel start end_ a = false) as Hwa by (unfold wanted; lia). cbn [snd] in HP. rewrite Hwa, Hnil in HP.
    destruct go; [|gatt_step; apply (HP m []); [by rewrite app_nil_r, insert_id|done|done]]. eapply (IH (S i)); [lia|done|done|done|]. by rewrite Hnil.
  - intros Hle Hwa. eapply (IH (S i)); [lia|done|done|done|]. rewrite pick_cons in HP. cbn [snd] in HP. by rewrite Hwa in HP.
  - intros Hwa e m2 R2 Hw2. eapply (IH (S i)); [lia|done|by rewrite lookup_insert_eq|done|]. intros m' es' R' Hw' Hes'. rewrite insert_insert_eq, <-app_assoc in R'.
    apply (HP m' ([(e, addr (s, i))] ++ es')); [done|done|]. rewrite pick_cons. cbn [snd]. rewrite Hwa. cbn. by rewrite Hes'.
Qed.

Lemma gather_wp m Q own d ss q sel start end_ function (P : () -> mem -> Prop) :
  sound m Q own d ss -> own !! q = None -> Q !! q = Some (1, []) -> (length ss < fuel)%nat ->
  (forall s x m1 Q1 es (P1 : () -> mem -> Prop), g_services (world m) !! s = Some x -> regular x -> service_ok own s x -> represents ∅ m1 Q1 -> Q1 !! q = Some (1, es) -> world m1 = world m ->
    (forall m' es', represents ∅ m' (<[q := (1, es ++ es')]> Q1) -> world m' = world m ->
      es'.*2 = ptrs (pick sel start end_ (if s_active x then attrs_from s 0 (s_attributes x) else [])) -> P1 () m') -> wp (function (addr s)) P1 m1) ->
  (forall m' es', represents ∅ m' (<[q := (1, es')]> Q) -> world m' = world m -> es'.*2 = ptrs (pick sel start end_ (listing (world m) ss)) -> P () m') ->
  wp (d ← load_db; queue_foreach fuel (d_services d) (Some function)) P m.
Proof.
  intros Sd Hown Hq Hf Hstep HP.
  eapply (services_foreach_wp fuel m Q own d ss function (fun pre Q1 w => w = world m /\ exists es, Q1 = <[q := (1, es)]> Q /\ es.*2 = ptrs (pick sel start end_ (listing (world m) pre)))); [done|done|..].
  - split; [done|]. exists []. by rewrite insert_id.
  - intros qs ess Hqs Ho pre s post m1 Q1 Hss HQs R1 (Hw & es & -> & Hes). assert (q <> qs) as Hne by congruence. assert (s ∈ ss) as Hs by (rewrite Hss; apply elem_of_app; right; by left).
    destruct (db_service _ _ _ _ _ _ (sound_db _ _ _ _ _ Sd) s Hs) as (x & Hx & Hok). rewrite (insert_insert_ne _ qs q) in R1 by done. eapply (Hstep s x m1 _ es); [done|by eapply (sound_listed _ _ _ _ _ Sd)|done|done|by rewrite lookup_insert_eq|done|].
    intros m' es' R' Hw' Hes'. rewrite insert_insert_eq in R'. exists (<[q := (1, es ++ es')]> Q). rewrite lookup_insert_ne in HQs |- * by done. split; [done|]. split; [by rewrite (insert_insert_ne _ qs q)|].
    split; [done|]. exists (es ++ es'). split; [done|]. unfold listing in *. rewrite fmap_app, Hes, Hes', bind_app, pick_app. cbn. rewrite Hx, app_nil_r. unfold ptrs. by rewrite fmap_app.
  - intros m' Q' R' (Hw & es & -> & Hes). by eapply HP.
Qed.

Lemma service_each_wp q sel start end_ s x own body m Q es (P : () -> mem -> Prop) : collects q sel start end_ s x (world m) body -> g_services (world m) !! s = Some x -> regular x -> service_ok own s x ->
  represents ∅ m Q -> Q !! q = Some (1, es) ->
  (forall m' es', represents ∅ m' (<[q := (1, es ++ es')]> Q) -> world m' = world m -> es'.*2 = ptrs (pick sel start end_ (attrs_from s 0 (s_attributes x))) -> P () m') ->
  wp (each_attribute s body) P m.
Proof.
  intros Hb Hx Hreg Hok R Hq HP. unfold each_attribute. gatt_step. eapply wp_load_service; [done|]. pose proof (so_size _ _ _ Hok) as Hsize. unfold zlen in Hsize.
  eapply (for_attributes_wp q sel start end_ s x own (world m)); [done|done|done|apply Hreg|lia|done|done|done|]. done.
Qed.

Lemma find_information_wp m Q own d ss q start end_ (P : () -> mem -> Prop) :
  sound m Q own d ss -> own !! q = None -> Q !! q = Some (1, []) -> (length ss < fuel)%nat ->
  (forall m' es', represents ∅ m' (<[q := (1, es')]> Q) -> world m' = world m -> es'.*2 = ptrs (pick (fun _ => true) start end_ (listing (world m) ss)) -> P () m') ->
  wp (gatt_db_find_information fuel start end_ (Some q)) P m.
Proof.
  intros Sd Hown Hq Hf HP. eapply (gather_wp m Q own d ss q (fun _ => true) start end_); [done..| |done]. clear P HP.
  intros s x m1 Q1 es P Hx Hreg Hok R1 Hq1 Hw HP. rewrite <-Hw in Hx. unfold find_information. do 2 gatt_step. gatt_step. eapply wp_load_service; [done|].
  destruct (s_active x) eqn:Ea; cbn [negb].
  2: { gatt_step. apply (HP m1 []); [by rewrite app_nil_r, insert_id|done|done]. }
  destruct (so_decl _ _ _ Hok) as (b & Hdecl & _). gatt_step. eapply wp_load_attr; [done|by apply decl_lookup|]. destruct (Z.ltb_spec (a_handle b + s_num_handles x - 1) start) as [Hlt|Hge].
  - gatt_step. apply (HP m1 []); [by rewrite app_nil_r, insert_id|done|]. rewrite pick_none; [done|]. intros p a (j & -> & Hj)%attrs_from_lookup.
    pose proof (rise_range _ (reg_rising _ Hreg) _ _ Hj) as Hr. unfold last_handle, first_handle in Hr. rewrite Hdecl in Hr. unfold wanted. lia.
  - eapply (service_each_wp q (fun _ => true) start end_ s x own); [|done|done|done|done|done|rewrite Hw; exact HP]. clear P HP.
    intros i a m2 Q2 es2 P Ha R2 Hq2 Hw2 HP1 HP2 HP3. unfold wanted in *. destruct (Z.ltb_spec (a_handle a) start); [gatt_step; destruct (Z.leb_spec (a_handle a) end_); [by apply HP2; lia|by apply HP1; lia]|].
    destruct (Z.ltb_spec end_ (a_handle a)); [gatt_step; by apply HP1|]. gatt_step. eapply push_tail_wp; [done|done|]. intros e m3 R3 W3. gatt_step. apply (HP3 ltac:(lia) e m3); [done|congruence].
Qed.

Lemma read_by_type_wp m Q own d ss q type start end_ (P : () -> mem -> Prop) :
  sound m Q own d ss -> own !! q = None -> Q !! q = Some (1, []) -> (length ss < fuel)%nat ->
  uuid_ok type -> (forall s x i a, g_services (world m) !! s = Some x -> s_attributes x !! i = Some (Attr a) -> uuid_ok (a_uuid a)) ->
  (forall m' es', represents ∅ m' (<[q := (1, es')]> Q) -> world m' = world m -> es'.*2 = ptrs (pick (fun a => bool_decide (full type = full (a_uuid a))) start end_ (listing (world m) ss)) -> P () m') ->
  wp (gatt_db_read_by_type fuel start end_ type (Some q)) P m.
Proof.
  intros Sd Hown Hq Hf Ht Hu HP. eapply (gather_wp m Q own d ss q (fun a => bool_decide (full type = full (a_uuid a))) start end_); [done..| |done]. clear P HP.
  intros s x m1 Q1 es P Hx Hreg Hok R1 Hq1 Hw HP. rewrite <-Hw in Hx, Hu. unfold read_by_type. do 2 gatt_step. gatt_step. eapply wp_load_service; [done|].
  destruct (s_active x) eqn:Ea; cbn [negb].
  2: { gatt_step. apply (HP m1 []); [by rewrite app_nil_r, insert_id|done|done]. }
  eapply (service_each_wp q (fun a => bool_decide (full type = full (a_uuid a))) start end_ s x own); [|done|done|done|done|done|rewrite Hw; exact HP]. clear P HP.
  intros i a m2 Q2 es2 P Ha R2 Hq2 Hw2 HP1 HP2 HP3. unfold wanted in *. destruct (Z.ltb_spec (a_handle a) start); [gatt_step; destruct (Z.leb_spec (a_handle a) end_); [by apply HP2; lia|by apply HP1; lia]|].
  destruct (Z.ltb_spec end_ (a_handle a)); [gatt_step; by apply HP1|]. gatt_step. apply uuid_eq_wp; [done|by eapply Hu|]. case_bool_decide as Hsame; cbn [negb].
  - gatt_step. eapply push_tail_wp; [done|done|]. intros e m3 R3 W3. gatt_step. apply (HP3 ltac:(lia) e m3); [done|congruence].
  - gatt_step. apply HP2; [lia|lia].
Qed.
End Collect.

(** ** Groups *)

(** The length of the value of a declaration. *)
Definition decl_len (x : gatt_db_service) : Z := match decl x with Some a => a_value_len a | None => 0 end.

(** Active services of the type whose first handle is asked for. *)
Definition group_wanted {A} (g : gatt A) (type : bt_uuid_t) (start end_ : Z) (s : ptr) : bool :=
  match g_services g !! s with
  | Some x => s_active x && match decl x with Some a => bool_decide (full type = full (a_uuid a)) | None => false end && (start <=? first_handle x) && (first_handle x <=? end_)
  | None => false
  end.
Definition group_len {A} (g : gatt A) (s : ptr) : Z := match g_services g !! s with Some x => decl_len x | None => 0 end.

(** The services from the first that is wanted on, up to one with a value of another length. *)
Fixpoint groups {A} (g : gatt A) (type : bt_uuid_t) (start end_ size : Z) (ss : list ptr) : list ptr :=
  match ss with
  | [] => []
  | s :: ss =>
      if group_wanted g type start end_ s then
        if negb (size =? 0) && negb (size =? group_len g s) then [] else s :: groups g type start end_ (group_len g s) ss
      else groups g type start end_ size ss
  end.

Section Groups.
Context `{!Allocator} {T U : Type} `{!Transport T} {app : App (srv T U)} (fuel : nat).
Abbreviation mem := (Queue.mem (gatt (srv T U))).
Implicit Types (m : mem) (g : gatt (srv T U)) (own : gmap ptr owner) (Q : gmap ptr (Z * entry_list)).

Lemma group_loop_wp own (ss : list ptr) (w : gatt (srv T U)) type start end_ q : uuid_ok type -> (forall s, s ∈ ss -> exists x, g_services w !! s = Some x /\ service_ok own s x) ->
  forall ess ss2 n size m Q qs es (P : () -> mem -> Prop), represents ∅ m Q -> world m = w -> q <> qs -> Q !! qs = Some (1, es ++ ess) -> ess.*2 = addr <$> ss2 -> (forall s, s ∈ ss2 -> s ∈ ss) -> (length ess <= n)%nat ->
  forall qes, Q !! q = Some (1, qes) ->
  (forall m' es', represents ∅ m' (<[q := (1, qes ++ es')]> Q) -> world m' = w -> es'.*2 = (fun s => addr (s, 0%nat)) <$> groups w type start end_ size ss2 -> P () m') ->
  wp (group_loop n (first ess None) start end_ type (Some q) size) P m.
Proof.
  intros Ht Hss. induction ess as [|[e z] ess IH]; intros ss2 n size m Q qs es P R Hw Hne Hqs Hes Hin Hn qes Hq HP.
  { destruct ss2; [|done]. assert (P () m) as HPm by (apply (HP m []); [by rewrite app_nil_r, insert_id|done|done]). by destruct n; cbn [first group_loop]; gatt_step. }
  destruct ss2 as [|s ss2]; [done|]. cbn in Hes. injection Hes as -> Hes. destruct n as [|n]; cbn in Hn; [lia|]. cbn [first group_loop]. destruct (Hss s ltac:(apply Hin; by left)) as (x & Hx & Hok).
  pose proof (rep_chain m Q R _ _ _ Hqs) as [_ [He _]]%chain_app. do 3 gatt_step. gatt_step. gatt_step. eapply wp_load_service; [by rewrite Hw|].
  assert (Q !! qs = Some (1, (es ++ [(e, addr s)]) ++ ess)) as Hqs' by (by rewrite <-app_assoc).
  cbn [groups] in HP. unfold group_wanted in HP at 1. rewrite Hx in HP. destruct (s_active x); cbn [negb andb] in *.
  2: { eapply (IH ss2 n size m Q qs); [done|done|done|exact Hqs'|done|intros; apply Hin; by right|lia|done|done]. }
  destruct (so_decl _ _ _ Hok) as (a & Ha & Hname). assert (uuid_ok (a_uuid a)) as Hua by (by destruct Hname as (? & ? & _ & _ & _ & _ & ?)).
  pose proof (service_bounds _ _ _ Hok) as Hb. assert (group_len w s = a_value_len a) as Hgl by (unfold group_len, decl_len; by rewrite Hx, Ha). rewrite Hgl in HP.
  unfold last_handle, first_handle, UINT16_MAX in *. rewrite Ha in *. gatt_step. eapply wp_load_attr; [by rewrite Hw|by apply decl_lookup|].
  gatt_step. apply uuid_eq_wp; [done|done|]. destruct (bool_decide (full type = full (a_uuid a))); cbn [negb andb] in *.
  2: { eapply (IH ss2 n size m Q qs); [done|done|done|exact Hqs'|done|intros; apply Hin; by right|lia|done|done]. }
  rewrite u16_small by lia. destruct (Z.leb_spec start (a_handle a)); cbn [andb] in HP.
  2: { destruct (_ || _); [|rewrite (proj2 (Z.ltb_lt (a_handle a) start)) by lia; cbn [orb]]; (eapply (IH ss2 n size m Q qs); [done|done|done|exact Hqs'|done|intros; apply Hin; by right|lia|done|done]). }
  destruct (Z.leb_spec (a_handle a) end_).
  2: { rewrite (proj2 (Z.ltb_lt end_ (a_handle a))), orb_true_r by lia. eapply (IH ss2 n size m Q qs); [done|done|done|exact Hqs'|done|intros; apply Hin; by right|lia|done|done]. }
  rewrite !(proj2 (Z.ltb_ge _ _)) by lia. cbn [orb]. destruct (negb (size =? 0) && negb (size =? a_value_len a)).
  { gatt_step. apply (HP m []); [by rewrite app_nil_r, insert_id|done|done]. }
  gatt_step. eapply push_tail_wp; [done|done|]. intros e' m2 R2 W2. eapply (IH ss2 n (a_value_len a) m2 _ qs _); [done|congruence|done|rewrite lookup_insert_ne by done; exact Hqs'|done|intros; apply Hin; by right|lia|by rewrite lookup_insert_eq|].
  intros m' es' R' W' Hes'. rewrite insert_insert_eq, <-app_assoc in R'. apply (HP m' ([(e', addr (s, 0%nat))] ++ es')); [done|done|]. cbn. by rewrite Hes'.
Qed.

Lemma read_by_group_type_wp m Q own d ss q type start end_ (P : () -> mem -> Prop) :
  sound m Q own d ss -> own !! q = None -> Q !! q = Some (1, []) -> uuid_ok type ->
  (forall m' es', represents ∅ m' (<[q := (1, es')]> Q) -> world m' = world m -> es'.*2 = (fun s => addr (s, 0%nat)) <$> groups (world m) type start end_ 0 ss -> P () m') ->
  wp (gatt_db_read_by_group_type start end_ type (Some q)) P m.
Proof.
  intros Sd Hown Hq Ht HP. pose proof (sound_db _ _ _ _ _ Sd) as D. destruct (db_services _ _ _ _ _ _ D) as (qs & Hqs & Ho). destruct (db_queue _ _ _ _ _ _ D qs _ Ho) as (ess & HQ & Hes). cbn in Hes.
  pose proof (db_rep _ _ _ _ _ _ D) as R. pose proof (db_there _ _ _ _ _ _ D) as Hd. unfold gatt_db_read_by_group_type. do 3 gatt_step. rewrite Hqs. unfold queue_get_entries.
  pose proof (rep_lookup m Q _ _ _ R HQ) as Hl. unfold block in Hl. cbn [fst snd] in Hl. do 3 gatt_step. do 2 gatt_step.
  eapply (group_loop_wp own ss (world m) type start end_ q Ht (db_service _ _ _ _ _ _ D) ess ss _ 0 m Q qs []); [done|done|congruence|done|done|done| |done|done].
  pose proof (rep_fuel m Q _ _ _ R HQ). lia.
Qed.
End Groups.
