(* ===== verification/ServerEncode.v ===== *)
(** The responses of the GATT server to Find Information: the attributes in the order of their handles, as many as
    a message takes. *)

From stdpp Require Import gmap.
From S2P Require Import Prelude Util Alloc Queue QueueSpec QueueMain Uuid GattDb GattAccess GattSpec GattDestroy GattServices GattAttrs GattFind GattRequests GattMain GattRun.
From S2P Require Import ServerState ServerFind ServerAccess ServerSteps ServerReads ServerSearch.

(** ** Buffers *)

Lemma buf_write {A} (pre rest data : list A) : zlen data <= zlen rest -> mem_write (pre ++ rest) (zlen pre) data = Ret ((pre ++ data) ++ drop (length data) rest).
Proof.
  intros Hlen. pose proof (zlen_nonneg pre). rewrite mem_write_ok; [|done|rewrite zlen_app; lia]. unfold zlen in *. rewrite Nat2Z.id, take_app_length, <-app_assoc. do 3 f_equal.
  rewrite drop_app_ge by lia. f_equal. lia.
Qed.
Lemma buf_read {A} (pre rest : list A) : mem_read (pre ++ rest) 0 (zlen pre) = Ret pre.
Proof. pose proof (zlen_nonneg pre). rewrite mem_read_ok; [|done|done|rewrite zlen_app; pose proof (zlen_nonneg rest); lia]. unfold zlen. by rewrite Nat2Z.id, drop_0, take_app_length. Qed.
Lemma buffer_zlen mtu : 0 <= mtu -> zlen (buffer mtu) = mtu.
Proof. intros. unfold buffer. rewrite zlen_replicate. lia. Qed.

(** The longest prefix with a property. *)
Fixpoint prefix_with {A} (f : A -> bool) (l : list A) : list A :=
  match l with [] => [] | x :: l => if f x then x :: prefix_with f l else [] end.

(** As many entries of [size] bytes as there is room for. *)
Definition fitting (room size : Z) : nat := Z.to_nat (room / size).

Lemma fitting_none room size : 0 <= room < size -> fitting room size = 0%nat.
Proof. intros. unfold fitting. by rewrite Z.div_small. Qed.
Lemma fitting_one room size : 0 < size <= room -> fitting room size = S (fitting (room - size) size).
Proof.
  intros. unfold fitting. replace room with (room - size + 1 * size) at 1 by lia. rewrite Z.div_add by lia. pose proof (Z.div_pos (room - size) size). lia.
Qed.

(** ** Queues of a request *)

Section Encode.
Context `{!Allocator} {T U : Type} `{!Transport T} {app : App (srv T U)} (fuel : nat).
Abbreviation mem := (Queue.mem (gatt (srv T U))).
Implicit Types (m : mem) (g : gatt (srv T U)) (own : gmap ptr owner) (Q : gmap ptr (Z * entry_list)) (v : srv T U).

Lemma drop_queue_wp m Q q es (P : () -> mem -> Prop) : represents ∅ m (<[q := (1, es)]> Q) -> Q !! q = None -> (length es <= fuel)%nat ->
  (forall m', represents ∅ m' Q -> world m' = world m -> P () m') -> wp (queue_destroy fuel (Some q) None) P m.
Proof.
  intros R Hq Hf HP. eapply (destroy_wp None (fun _ Q' w => Q' = <[q := (1, [])]> Q /\ w = world m)); [|intros Q' w [-> _]; by rewrite lookup_insert_eq|done|by rewrite lookup_insert_eq|done|by rewrite insert_insert_eq|].
  - intros X m1 Q1 d l R1 [-> Hw]. cbn [call_destroy]. gatt_step. by eexists.
  - intros m' Q' R' [-> Hw]. rewrite delete_insert_eq, delete_id in R' by done. by apply HP.
Qed.

(** The server has given one message to the transport; its queues and the database are as before. *)
Definition replies Q (r : pdu_of) m m' : Prop := represents ∅ m' Q /\ world m' = set_app (sent r (app_of m)) (world m).

Lemma answered_replies Q r m m' : represents ∅ m Q -> answered r m m' -> replies Q r m m'.
Proof. intros R (E1 & E2 & E3). split; [by eapply represents_frame|done]. Qed.

(** The queue of the request. *)
Definition with_queue (o : option (ptr * entry_list)) Q : gmap ptr (Z * entry_list) := match o with Some (q, es) => <[q := (1, es)]> Q | None => Q end.
Definition queue_of (o : option (ptr * entry_list)) : option ptr := fst <$> o.

Lemma end_queue_wp m Q o (P : () -> mem -> Prop) : represents ∅ m (with_queue o Q) -> (forall q es, o = Some (q, es) -> Q !! q = None /\ (length es <= fuel)%nat) ->
  (forall m', represents ∅ m' Q -> world m' = world m -> P () m') -> wp (queue_destroy fuel (queue_of o) None) P m.
Proof.
  intros R Ho HP. destruct o as [[q es]|]; [destruct (Ho q es eq_refl); by eapply drop_queue_wp|]. apply wp_ret. by apply HP.
Qed.

Lemma refuse_wp m m0 Q o sv opcode h e (P : () -> mem -> Prop) : represents ∅ m (with_queue o Q) -> (forall q es, o = Some (q, es) -> Q !! q = None /\ (length es <= fuel)%nat) ->
  world m = world m0 -> v_server (app_of m0) = Some sv -> opcode <> 0 -> (forall m', replies Q (error_rsp opcode h e) m0 m' -> P () m') -> wp (refuse_request fuel (queue_of o) opcode h e) P m.
Proof.
  intros R Ho Hw Hsv Hop HP. unfold refuse_request. gatt_step. assert (app_of m = app_of m0) as Ea by (unfold app_of; by rewrite Hw). eapply wp_error_rsp; [by rewrite Ea|done|]. intros _.
  eapply (end_queue_wp _ Q o); [by eapply represents_frame|done|]. intros m' R' W'. apply HP. split; [done|]. rewrite W'. unfold put_app. gatt_simpl. by rewrite Ea, Hw.
Qed.
Lemma fail_wp m m0 Q o sv opcode h e (P : () -> mem -> Prop) : represents ∅ m (with_queue o Q) -> (forall q es, o = Some (q, es) -> Q !! q = None /\ (length es <= fuel)%nat) ->
  world m = world m0 -> v_server (app_of m0) = Some sv -> opcode <> 0 -> (forall m', replies Q (error_rsp opcode h e) m0 m' -> P () m') -> wp (fail_request fuel (queue_of o) opcode h e) P m.
Proof.
  intros R Ho Hw Hsv Hop HP. unfold fail_request. gatt_step. eapply (end_queue_wp m Q o); [done|done|]. intros m' R' W'. gatt_step. assert (app_of m' = app_of m0) as Ea by (unfold app_of; by rewrite W', Hw).
  eapply wp_error_rsp; [by rewrite Ea|done|]. intros _. gatt_step. apply HP. split; [by eapply represents_frame|]. unfold put_app. gatt_simpl. by rewrite Ea, W', Hw.
Qed.
End Encode.

(** ** Find Information *)

(** A UUID as it is sent. *)
Definition uuid_le (uuid : bt_uuid_t) : bytes := match uuid with BT_UUID16 v => put_le16 v | _ => reverse (full uuid) end.
(** The length of the UUIDs of a response, after the first one. *)
Definition le_len (uuid : bt_uuid_t) : Z := match uuid with BT_UUID16 _ => 2 | _ => 16 end.

Lemma uuid_le_ok uuid : uuid_ok uuid -> bt_uuid_to_le uuid = Ret (Some (uuid_le uuid)) /\ zlen (uuid_le uuid) = le_len uuid.
Proof.
  intros Hok. destruct (full_ok uuid Hok) as [_ Hl]. destruct uuid as [|u|u|u]; [done|..]; cbn [bt_uuid_to_le uuid_le le_len]; unfold zlen; rewrite ?length_reverse, ?Hl; split; try done.
Qed.

(** The entry of an attribute, and the entries of a response whose first attribute is [a]: they end before one
    whose UUID has another length than those of the response.  A 32-bit UUID is sent with 16 bytes but counts 4, so
    that it is only ever the first of a response. *)
Definition info (a : gatt_db_attribute) : bytes := put_le16 (a_handle a) ++ uuid_le (a_uuid a).
Definition alike (len : Z) (a : gatt_db_attribute) : bool := bt_uuid_len (a_uuid a) =? len.
Definition find_info_rsp (mtu : Z) (a : gatt_db_attribute) (l : list gatt_db_attribute) : bytes :=
  let len := le_len (a_uuid a) in
  [if len =? 2 then 0x01 else 0x02] ++ concat (info <$> take (fitting (mtu - 2) (len + 2)) (a :: prefix_with (alike len) l)).

(** The attributes that a queue points to. *)
Definition stands {A} (g : gatt A) (l : list (attr * gatt_db_attribute)) : Prop :=
  forall p a, (p, a) ∈ l -> exists x, g_services g !! p.1 = Some x /\ s_attributes x !! p.2 = Some (Attr a) /\ uuid_ok (a_uuid a) /\ 1 <= a_handle a <= UINT16_MAX.

Lemma stands_cons {A} (g : gatt A) p a l : stands g ((p, a) :: l) -> (exists x, g_services g !! p.1 = Some x /\ s_attributes x !! p.2 = Some (Attr a) /\ uuid_ok (a_uuid a) /\ 1 <= a_handle a <= UINT16_MAX) /\ stands g l.
Proof. intros Hl. split; [apply Hl; by left|]. intros p' a' Hin. apply Hl. by right. Qed.

Lemma info_len a : uuid_ok (a_uuid a) -> zlen (info a) = le_len (a_uuid a) + 2.
Proof. intros Hu. unfold info. rewrite zlen_app, (proj2 (uuid_le_ok _ Hu)). change (zlen (put_le16 _)) with 2. lia. Qed.
Lemma alike_len a len : uuid_ok (a_uuid a) -> alike len a = true -> len = 2 \/ len = 16 -> le_len (a_uuid a) = len.
Proof. unfold alike. destruct (a_uuid a); cbn [uuid_ok bt_uuid_len le_len]; intros ? E%Z.eqb_eq; [done|lia..]. Qed.

(** A word of a request. *)
Definition word (pdu : bytes) (off : nat) : Z := match get_le16 (drop off pdu) with Ret h => h | _ => 0 end.

Lemma get_word pdu off : (off + 2 <= length pdu)%nat -> get_le16 (drop off pdu) = Ret (word pdu off).
Proof.
  intros Hlen. unfold word. assert (2 <= length (drop off pdu))%nat as Hd by (rewrite length_drop; lia). destruct (drop off pdu) as [|b0 [|b1 l]]; cbn in Hd; [lia|lia|done].
Qed.

(** All types of attributes are well-formed. *)
Definition typed {A} (g : gatt A) : Prop := forall s x i a, g_services g !! s = Some x -> s_attributes x !! i = Some (Attr a) -> uuid_ok (a_uuid a).

(** The answer to Find Information, for the attributes [l] of the active services. *)
Definition find_info_answer (mtu opcode : Z) (pdu : bytes) (l : list (attr * gatt_db_attribute)) : pdu_of :=
  if negb (zlen pdu =? 4) then error_rsp opcode 0 BT_ATT_ERROR_INVALID_PDU
  else if (word pdu 0 =? 0) || (word pdu 2 =? 0) then error_rsp opcode 0 BT_ATT_ERROR_INVALID_HANDLE
  else if word pdu 2 <? word pdu 0 then error_rsp opcode (word pdu 0) BT_ATT_ERROR_INVALID_HANDLE
  else
    match (pick (fun _ => true) (word pdu 0) (word pdu 2) l).*2 with
    | [] => error_rsp opcode (word pdu 0) BT_ATT_ERROR_ATTRIBUTE_NOT_FOUND
    | a :: l => (BT_ATT_OP_FIND_INFO_RSP, Some <$> find_info_rsp mtu a l)
    end.

Section FindInfo.
Context `{!Allocator} {T U : Type} `{!Transport T} {app : App (srv T U)} (fuel : nat).
Abbreviation mem := (Queue.mem (gatt (srv T U))).
Implicit Types (m : mem) (g : gatt (srv T U)) (own : gmap ptr owner) (Q : gmap ptr (Z * entry_list)) (v : srv T U).

(** The statements that put an entry into the response. *)
Lemma put_info_wp {B} a (pre rest : raw) (K : raw -> Queue.M B) (P : B -> mem -> Prop) m : uuid_ok (a_uuid a) -> zlen (info a) <= zlen rest ->
  wp (K ((pre ++ (Some <$> info a)) ++ drop (length (info a)) rest)) P m ->
  wp (pdu ← lift (mem_write (pre ++ rest) (zlen pre) (Some <$> put_le16 (a_handle a)));
      le ← lift (bt_uuid_to_le (a_uuid a));
      pdu ← match le with Some le => lift (mem_write pdu (zlen pre + 2) (Some <$> le)) | None => mret pdu end;
      K pdu) P m.
Proof.
  intros Hu Hlen HP. destruct (uuid_le_ok _ Hu) as [Hle _]. unfold info in *. rewrite zlen_app in Hlen. change (zlen (put_le16 _)) with 2 in Hlen. pose proof (zlen_nonneg (uuid_le (a_uuid a))).
  rewrite buf_write by (change (zlen (Some <$> put_le16 (a_handle a))) with 2; lia). do 2 gatt_step. rewrite Hle. do 2 gatt_step. gatt_step. change (length (Some <$> put_le16 (a_handle a))) with 2%nat.
  replace (zlen pre + 2) with (zlen (pre ++ (Some <$> put_le16 (a_handle a)))) by (rewrite zlen_app; done). rewrite buf_write; [|unfold zlen in *; rewrite length_fmap, length_drop; lia]. gatt_step.
  rewrite drop_drop, length_fmap in *. rewrite length_app in HP. change (length (put_le16 (a_handle a))) with 2%nat in HP. rewrite fmap_app, app_assoc in HP. exact HP.
Qed.

(** The loop behind the first attribute. *)
Lemma encode_more_wp q mtu len : len = 2 \/ len = 16 -> forall l n pre rest m Q es (P : option (raw * Z) -> mem -> Prop),
  represents ∅ m Q -> Q !! q = Some (1, es) -> es.*2 = ptrs l -> stands (world m) l -> (length l <= n)%nat -> zlen (pre ++ rest) = mtu -> 0 < zlen pre <= mtu - 1 ->
  (forall m' es' rest', represents ∅ m' (<[q := (1, es')]> Q) -> world m' = world m -> (length es' <= length es)%nat ->
    let pre' := pre ++ (Some <$> concat (info <$> take (fitting (mtu - 1 - zlen pre) (len + 2)) (prefix_with (alike len) l.*2))) in P (Some (pre' ++ rest', zlen pre')) m') ->
  wp (encode_infos n (Some q) mtu (pre ++ rest) (zlen pre) len) P m.
Proof.
  intros Hlen. induction l as [|[p a] l IH]; intros n pre rest m Q es P R Hq Hes Hst Hn Hmtu Hpre HP.
  { destruct es; [|done]. destruct n; cbn [encode_infos]; (gatt_step; eapply peek_head_wp; [done|done|]; change (default 0 (head (@nil (ptr * Z)).*2)) with 0; change (0 =? 0) with true; cbv iota; gatt_step);
      (specialize (HP m [] rest); cbn in HP; rewrite take_nil in HP; cbn in HP; rewrite app_nil_r in HP; apply HP; [by rewrite insert_id|done|lia]). }
  destruct es as [|[e z] es]; [done|]. cbn in Hes. injection Hes as -> Hes. apply stands_cons in Hst as [(x & Hx & Ha & Hu & Hh) Hst]. destruct p as [s i]. cbn [fst snd] in *.
  destruct n as [|n]; cbn in Hn; [lia|]. cbn [encode_infos]. gatt_step. eapply peek_head_wp; [done|done|]. change (default 0 (head ((e, addr (s, i)) :: es).*2)) with (addr (s, i)). rewrite addr_not_null. gatt_step. eapply pop_head_wp; [done|done|].
  intros m1 R1 W1. do 2 gatt_step. gatt_step. eapply get_handle_wp; [by rewrite W1|done|]. gatt_step. unfold gatt_db_attribute_get_type. gatt_step. eapply wp_load_attr; [by rewrite W1|done|]. gatt_step.
  rewrite (proj2 (Z.eqb_neq (a_handle a) 0)), (proj2 (Z.eqb_neq (zlen pre) 0)) by lia. cbn [fmap list_fmap prefix_with] in HP. cbn [snd] in HP. change (alike len a) with (bt_uuid_len (a_uuid a) =? len) in HP.
  assert (forall P' : Prop, (forall m' es' rest', represents ∅ m' (<[q := (1, es')]> Q) -> world m' = world m -> (length es' <= length ((e, addr (s, i)) :: es))%nat -> P (Some (pre ++ rest', zlen pre)) m') ->
    P (Some (pre ++ rest, zlen pre)) m1) as Hstop by (intros _ Hs; apply (Hs m1 es rest); [done|done|cbn; lia]).
  revert HP. destruct (Z.eqb_spec (bt_uuid_len (a_uuid a)) len) as [E|E]; intros HP; cbn [negb].
  2: { gatt_step. apply (Hstop True). intros m' es' rest' R' W' L'. specialize (HP m' es' rest' R' W' L'). cbn in HP. rewrite take_nil in HP. cbn in HP. by rewrite app_nil_r in HP. }
  pose proof (alike_len a len Hu ltac:(unfold alike; lia) Hlen) as Hle. pose proof (info_len a Hu) as Hil. destruct (Z.ltb_spec (mtu - 1) (zlen pre + len + 2)) as [Hfull|Hroom].
  { gatt_step. apply (Hstop True). intros m' es' rest' R' W' L'. specialize (HP m' es' rest' R' W' L'). rewrite fitting_none in HP by lia. cbn in HP. by rewrite app_nil_r in HP. }
  rewrite zlen_app in Hmtu. apply put_info_wp; [done|lia|]. rewrite fitting_one in HP by lia. cbn [take] in HP.
  assert (zlen (pre ++ (Some <$> info a)) = zlen pre + len + 2) as Hl' by (rewrite zlen_app, zlen_fmap; lia). rewrite <-Hl'.
  eapply (IH n (pre ++ (Some <$> info a)) (drop (length (info a)) rest) m1 _ es); [done|by rewrite lookup_insert_eq|done|by rewrite W1|lia|rewrite zlen_app, Hl'; unfold zlen in *; rewrite length_drop; lia|lia|].
  intros m' es' rest' R' W' L'. cbn zeta. rewrite insert_insert_eq in R'. specialize (HP m' es' rest' R' ltac:(congruence) ltac:(cbn; lia)). cbn zeta in HP.
  replace (mtu - 1 - zlen (pre ++ (Some <$> info a))) with (mtu - 1 - zlen pre - (len + 2)) by lia. cbn [fmap list_fmap concat] in HP. rewrite fmap_app in HP. by rewrite app_assoc in HP.
Qed.

Lemma encode_find_info_wp q mtu p a l m Q es (P : option (raw * Z) -> mem -> Prop) :
  represents ∅ m Q -> Q !! q = Some (1, es) -> es.*2 = ptrs ((p, a) :: l) -> stands (world m) ((p, a) :: l) -> BT_ATT_DEFAULT_LE_MTU <= mtu ->
  (forall m' es' rest', represents ∅ m' (<[q := (1, es')]> Q) -> world m' = world m -> (length es' <= length es)%nat ->
    P (Some ((Some <$> find_info_rsp mtu a l.*2) ++ rest', zlen (find_info_rsp mtu a l.*2))) m') ->
  wp (encode_find_info_rsp (Some q) mtu) P m.
Proof.
  intros R Hq Hes Hst Hmtu HP. unfold BT_ATT_DEFAULT_LE_MTU in Hmtu. unfold encode_find_info_rsp. do 2 gatt_step. pose proof (rep_fuel m Q _ _ _ R Hq) as Hfuel.
  assert (length es = S (length l)) as Hel by (rewrite <-(length_fmap snd es), Hes; unfold ptrs; rewrite length_fmap; done).
  destruct es as [|[e z] es]; [done|]. cbn in Hes. injection Hes as -> Hes. apply stands_cons in Hst as [(x & Hx & Ha & Hu & Hh) Hst]. destruct p as [s i]. cbn [fst snd] in *.
  cbn [encode_infos]. gatt_step. eapply peek_head_wp; [done|done|]. change (default 0 (head ((e, addr (s, i)) :: es).*2)) with (addr (s, i)). rewrite addr_not_null. gatt_step. eapply pop_head_wp; [done|done|].
  intros m1 R1 W1. do 2 gatt_step. gatt_step. eapply get_handle_wp; [by rewrite W1|done|]. gatt_step. unfold gatt_db_attribute_get_type. gatt_step. eapply wp_load_attr; [by rewrite W1|done|]. gatt_step.
  rewrite (proj2 (Z.eqb_neq (a_handle a) 0)) by lia. change (0 =? 0) with true. cbv iota. pose proof (info_len a Hu) as Hil. set (L := le_len (a_uuid a)) in *. assert (L = 2 \/ L = 16) as HL by (unfold L; destruct (a_uuid a); auto).
  assert (forall f rest, zlen ([Some f] ++ rest) = mtu -> f = (if L =? 2 then 1 else 2) ->
    wp (if mtu - 1 <? 1 + L + 2 then mret (Some ([Some f] ++ rest, 1))
        else pdu ← lift (mem_write ([Some f] ++ rest) 1 (Some <$> put_le16 (a_handle a)));
             le ← lift (bt_uuid_to_le (a_uuid a));
             pdu ← match le with Some le => lift (mem_write pdu (1 + 2) (Some <$> le)) | None => mret pdu end;
             encode_infos (size (cells m)) (Some q) mtu pdu (1 + L + 2) L) P m1) as Hgo.
  { intros f rest Hrest ->. rewrite (proj2 (Z.ltb_ge _ _)) by lia. rewrite zlen_app in Hrest. change (zlen [Some _]) with 1 in Hrest. apply (put_info_wp a [Some (if L =? 2 then 1 else 2)] rest); [done|lia|].
    set (pre := [Some _] ++ _). assert (zlen pre = 1 + L + 2) as Hpre by (unfold pre; rewrite zlen_app, zlen_fmap; change (zlen [Some _]) with 1; lia). rewrite <-Hpre.
    eapply (encode_more_wp q mtu L HL l); [exact R1|by rewrite lookup_insert_eq|done|by rewrite W1|cbn in Hfuel, Hel; lia|rewrite zlen_app, Hpre; unfold zlen in *; rewrite length_drop; lia|lia|].
    intros m' es' rest' R' W' L'. cbn zeta. rewrite insert_insert_eq in R'. specialize (HP m' es' rest' R' ltac:(congruence) ltac:(cbn; lia)).
    assert (pre ++ (Some <$> concat (info <$> take (fitting (mtu - 1 - zlen pre) (L + 2)) (prefix_with (alike L) l.*2))) = Some <$> find_info_rsp mtu a l.*2) as ->; [|by rewrite zlen_fmap].
    assert (mtu - 1 - zlen pre = mtu - 2 - (L + 2)) as -> by lia. unfold find_info_rsp, pre. fold L. rewrite (fitting_one (mtu - 2)) by lia. cbn [take fmap list_fmap concat]. by rewrite !fmap_app, <-app_assoc. }
  assert (forall f, mem_set (buffer mtu) 0 (Some f) = Ret ([Some f] ++ drop 1 (buffer mtu)) /\ zlen ([Some f] ++ drop 1 (buffer mtu)) = mtu) as Hset.
  { intros f. unfold buffer. destruct (Z.to_nat mtu) as [|k] eqn:Ek; [lia|]. split; [done|]. rewrite zlen_app. change (drop 1 (replicate (S k) (@None Z))) with (replicate k (@None Z)). rewrite zlen_replicate. change (zlen [Some f]) with 1. lia. }
  unfold L in Hgo. clear HP. destruct (Hset 1) as [E1 L1], (Hset 2) as [E2 L2]. destruct (a_uuid a) as [|u|u|u] eqn:Eu; [done|..]; cbn [bt_uuid_len le_len Z.eqb Pos.eqb orb] in *.
  - gatt_step. rewrite E1. gatt_step. rewrite <-Eu in *. by apply Hgo.
  - gatt_step. rewrite E2. gatt_step. by apply Hgo.
  - gatt_step. rewrite E2. gatt_step. by apply Hgo.
Qed.

Lemma pick_stands m Q own d ss sel start end_ : sound m Q own d ss -> typed (world m) -> stands (world m) (pick sel start end_ (listing (world m) ss)).
Proof.
  intros Sd Ht p a [_ Hin]%list_elem_of_filter. unfold listing in Hin. apply list_elem_of_bind in Hin as (s & Hin & Hs). destruct (db_service _ _ _ _ _ _ (sound_db _ _ _ _ _ Sd) s Hs) as (x & Hx & Hok).
  rewrite Hx in Hin. destruct (s_active x); [|by apply elem_of_nil in Hin]. apply attrs_from_lookup in Hin as (j & -> & Ha). cbn. exists x. split_and!; [done|done|by eapply Ht|..].
  all: pose proof (service_bounds _ _ _ Hok); destruct (sound_listed _ _ _ _ _ Sd s x Hx) as [_ Hreg]; pose proof (rise_range _ (reg_rising _ Hreg) _ _ Ha); unfold UINT16_MAX in *; lia.
Qed.

Lemma pick_length sel start end_ l : (length (pick sel start end_ l) <= length l)%nat.
Proof. apply length_filter. Qed.

Lemma prefix_with_length {A} (f : A -> bool) l : (length (prefix_with f l) <= length l)%nat.
Proof. induction l as [|x l IH]; cbn; [done|]. destruct (f x); cbn; lia. Qed.

(** The response fits into a message. *)
Lemma find_info_fits mtu a l : (forall b, b ∈ a :: l -> uuid_ok (a_uuid b)) -> BT_ATT_DEFAULT_LE_MTU <= mtu -> 1 <= zlen (find_info_rsp mtu a l) <= mtu - 1.
Proof.
  intros Hu Hmtu. unfold BT_ATT_DEFAULT_LE_MTU in Hmtu. unfold find_info_rsp. set (L := le_len (a_uuid a)). assert (L = 2 \/ L = 16) as HL by (unfold L; destruct (a_uuid a); auto). rewrite zlen_app. change (zlen [_]) with 1.
  assert (forall k, zlen (concat (info <$> take k (a :: prefix_with (alike L) l))) <= Z.of_nat k * (L + 2)) as Hlen.
  { assert (forall k l', (forall b, b ∈ l' -> uuid_ok (a_uuid b)) -> zlen (concat (info <$> take k (prefix_with (alike L) l'))) <= Z.of_nat k * (L + 2)) as Hmore.
    { induction k as [|k IH]; intros l' Hl'; [done|]. destruct l' as [|b l']; [cbn; unfold zlen; cbn; lia|]. cbn [prefix_with]. destruct (alike L b) eqn:Eb; [|cbn; unfold zlen; cbn; lia]. cbn [take fmap list_fmap concat].
      rewrite zlen_app, info_len by (apply Hl'; by left). rewrite (alike_len b L) by (done || by (apply Hl'; left)). specialize (IH l' ltac:(intros; apply Hl'; by right)). lia. }
    intros [|k]; [done|]. cbn [take fmap list_fmap concat]. rewrite zlen_app, info_len by (apply Hu; by left). fold L. specialize (Hmore k l ltac:(intros; apply Hu; by right)). lia. }
  specialize (Hlen (fitting (mtu - 2) (L + 2))). pose proof (zlen_nonneg (concat (info <$> take (fitting (mtu - 2) (L + 2)) (a :: prefix_with (alike L) l)))). split; [lia|].
  unfold fitting in *. rewrite Z2Nat.id in Hlen by (apply Z.div_pos; lia). pose proof (Z.mul_div_le (mtu - 2) (L + 2) ltac:(lia)). lia.
Qed.

Lemma find_info_wp m Q own d ss sv opcode pdu (P : () -> mem -> Prop) :
  sound m Q own d ss -> v_server (app_of m) = Some sv -> opcode <> 0 -> typed (world m) -> BT_ATT_DEFAULT_LE_MTU <= att_mtu (v_att (app_of m)) <= UINT16_MAX ->
  (length ss < fuel)%nat -> (length (listing (world m) ss) < fuel)%nat ->
  (forall m', replies Q (find_info_answer (att_mtu (v_att (app_of m))) opcode pdu (listing (world m) ss)) m m' -> P () m') ->
  wp (find_info_cb fuel opcode pdu) P m.
Proof.
  intros Sd Hsv Hop Ht Hmtu Hf Hl HP. unfold UINT16_MAX in *. pose proof (db_rep _ _ _ _ _ _ (sound_db _ _ _ _ _ Sd)) as R. unfold find_info_cb. gatt_step. eapply wp_get_mtu; [done|]. unfold find_info_answer in HP. revert HP.
  destruct (Z.eqb_spec (zlen pdu) 4) as [Hlen|_]; intros HP; cbn [negb] in *; [|by eapply (refuse_wp fuel m m Q None)]. unfold zlen in Hlen. gatt_step. eapply new_wp; [done|]. intros q m1 Hq R1 W1.
  assert (own !! q = None) as Hown by (by eapply database_fresh; [apply Sd|]). assert (sound m1 (<[q := (1, [])]> Q) own d ss) as S1.
  { eapply (sound_transport m); [done|done|intros q' [o Ho]; rewrite lookup_insert_ne; [done|congruence]|by rewrite W1]. }
  assert (forall es : entry_list, (length es <= fuel)%nat -> forall q' es', Some (q, es) = Some (q', es') -> Q !! q' = None /\ (length es' <= fuel)%nat) as Hqo by (by intros es Hes q' es' [= <- <-]).
  gatt_step. eapply le16_at_wp; [apply get_word; lia|]. gatt_step. eapply le16_at_wp; [apply get_word; lia|]. revert HP. destruct (_ || _); intros HP; [eapply (refuse_wp fuel m1 m Q (Some (q, []))); [done|apply Hqo; cbn; lia|done|done|done|done]|]. revert HP.
  destruct (_ <? _); intros HP; [eapply (refuse_wp fuel m1 m Q (Some (q, []))); [done|apply Hqo; cbn; lia|done|done|done|done]|]. gatt_step.
  eapply (find_information_wp fuel m1 _ own d ss q); [done|done|by rewrite lookup_insert_eq|done|]. rewrite W1. intros m2 es R2 W2 Hes. rewrite insert_insert_eq in R2.
  pose proof (pick_stands m Q own d ss (fun _ => true) (word pdu 0) (word pdu 2) Sd Ht) as Hst. pose proof (pick_length (fun _ => true) (word pdu 0) (word pdu 2) (listing (world m) ss)) as Hpl.
  set (found := pick _ _ _ _) in *. assert (length es = length found) as Hel by (rewrite <-(length_fmap snd es), Hes; apply length_fmap). gatt_step. eapply isempty_wp; [done|by rewrite lookup_insert_eq|]. destruct found as [|[p a] l].
  - destruct es; [|done]. change (u32 (zlen (@nil (ptr * Z))) =? 0) with true. cbv iota. eapply (refuse_wp fuel m2 m Q (Some (q, []))); [done|apply Hqo; cbn; lia|done|done|done|done].
  - destruct (listing_bound _ _ _ _ _ Sd) as [Hb _]. unfold UINT16_MAX, zlen in Hb. cbn [length] in Hel, Hpl. rewrite u32_small by (unfold zlen; lia). rewrite (proj2 (Z.eqb_neq _ _)) by (unfold zlen; lia).
    gatt_step. eapply encode_find_info_wp; [exact R2|by rewrite lookup_insert_eq|done|by rewrite W2|lia|]. intros m3 es3 rest R3 W3 L3. rewrite insert_insert_eq in R3.
    pose proof (find_info_fits (att_mtu (v_att (app_of m))) a l.*2) as Hfit. cbn [fmap list_fmap snd] in HP. set (rsp := find_info_rsp _ _ _) in *. gatt_step. unfold message. rewrite u16_small.
    2: { unfold in_range. cut (1 <= zlen rsp <= att_mtu (v_att (app_of m)) - 1); [lia|]. apply Hfit; [|lia]. intros b Hb'. change (a :: l.*2) with ((p, a) :: l).*2 in Hb'. apply list_elem_of_fmap in Hb' as ([p' b'] & -> & Hin). by destruct (Hst p' b' Hin) as (? & _ & _ & ? & _). }
    rewrite <-(zlen_fmap Some rsp), buf_read. do 2 gatt_step. assert (app_of m3 = app_of m) as Ea by (unfold app_of; by rewrite W3, W2). eapply wp_att_send; [by rewrite Ea|].
    eapply (drop_queue_wp fuel _ Q q es3); [by eapply represents_frame|done|lia|]. intros m' R' W'. apply HP. split; [done|]. rewrite W'. unfold put_app. gatt_simpl. by rewrite Ea, W3, W2.
Qed.
End FindInfo.
