(* ===== verification/ServerGroups.v ===== *)
(** Read By Group Type and Read By Type of the GATT server.  For the second, the chain of reads, each of which starts
    the next one from its callback, gives the answer of a loop over the attributes. *)

From stdpp Require Import gmap.
From S2P Require Import Prelude Util Alloc Queue QueueSpec QueueMain Uuid GattDb GattAccess GattSpec GattDestroy GattServices GattAttrs GattFind GattRequests GattMain GattRun.
From S2P Require Import ServerState ServerFind ServerAccess ServerSteps ServerReads ServerSearch ServerEncode.

(** Attributes that have their value in the database. *)
Definition plain {A} (g : gatt A) : Prop :=
  forall s x i a, g_services g !! s = Some x -> s_attributes x !! i = Some (Attr a) -> a_read_func a = None /\ a_write_func a = None.

(** The entry of a service: its handles and its UUID. *)
Definition group_entry {A} (g : gatt A) (s : ptr) : raw :=
  match g_services g !! s with
  | Some x => (Some <$> put_le16 (first_handle x)) ++ (Some <$> put_le16 (last_handle x)) ++ match decl x with Some a => bytes_of a | None => [] end
  | None => []
  end.

(** The response for the services [l], which have values of [len] bytes. *)
Definition group_rsp {A} (g : gatt A) (mtu len : Z) (l : list ptr) : raw :=
  [Some (len + 4)] ++ concat (group_entry g <$> take (fitting (mtu - 2) (len + 4)) l).

(** What the declaration of a service has. *)
Definition declares {A} (g : gatt A) (len : Z) (s : ptr) : Prop :=
  exists x a own, g_services g !! s = Some x /\ decl x = Some a /\ service_ok own s x /\ a_read_func a = None /\ value_ok a /\ a_value_len a = len.

(** The UUID of a request. *)
Definition request_uuid (pdu : bytes) : bt_uuid_t := if zlen pdu =? 6 then BT_UUID16 (word pdu 4) else BT_UUID128 (reverse (take 16 (drop 4 pdu))).

Lemma word_range pdu off : is_bytes pdu -> (off + 2 <= length pdu)%nat -> is_u16 (word pdu off).
Proof.
  intros Hb Hlen. assert (is_bytes (drop off pdu)) as Hd by (by apply Forall_drop). assert (2 <= length (drop off pdu))%nat as Hl by (rewrite length_drop; lia). unfold word.
  destruct (drop off pdu) as [|b0 [|b1 l]]; cbn in Hl; [lia|lia|]. cbn. apply Forall_cons in Hd as [Hb0 [Hb1 _]%Forall_cons]. unfold in_range in *. lia.
Qed.

Lemma request_uuid_ok pdu : is_bytes pdu -> zlen pdu = 6 \/ zlen pdu = 20 -> get_uuid_le (drop 4 pdu) (zlen pdu - 4) = Ret (Some (request_uuid pdu)) /\ uuid_ok (request_uuid pdu).
Proof.
  intros Hb [E|E]; unfold request_uuid, get_uuid_le; rewrite E; unfold zlen in E; cbn [Z.eqb Pos.eqb Z.sub Z.opp Z.add Z.pos_sub Pos.pred_double].
  - change (6 - 4 =? 2) with true. cbv iota. rewrite get_word by lia. split; [done|]. apply word_range; [done|lia].
  - change (20 - 4 =? 2) with false. change (20 - 4 =? 16) with true. cbv iota. rewrite mem_read_ok; [|lia|lia|unfold zlen; rewrite length_drop; lia]. split; [done|]. cbn. split.
    + apply Forall_reverse. by apply Forall_take, Forall_drop.
    + rewrite length_reverse, length_take, length_drop. lia.
Qed.

(** The answer to Read By Group Type. *)
Definition group_answer {A} (g : gatt A) (mtu opcode : Z) (pdu : bytes) (ss : list ptr) : pdu_of :=
  if negb (zlen pdu =? 6) && negb (zlen pdu =? 20) then error_rsp opcode 0 BT_ATT_ERROR_INVALID_PDU
  else if (word pdu 0 =? 0) || (word pdu 2 =? 0) then error_rsp opcode 0 BT_ATT_ERROR_INVALID_HANDLE
  else if word pdu 2 <? word pdu 0 then error_rsp opcode (word pdu 0) BT_ATT_ERROR_INVALID_HANDLE
  else if negb (bool_decide (full (request_uuid pdu) = full primary_service_uuid)) && negb (bool_decide (full (request_uuid pdu) = full secondary_service_uuid)) then
    error_rsp opcode (word pdu 0) BT_ATT_ERROR_UNSUPPORTED_GROUP_TYPE
  else
    match groups g (request_uuid pdu) (word pdu 0) (word pdu 2) 0 ss with
    | [] => error_rsp opcode (word pdu 0) BT_ATT_ERROR_ATTRIBUTE_NOT_FOUND
    | s :: l => (BT_ATT_OP_READ_BY_GRP_TYPE_RSP, group_rsp g mtu (group_len g s) (s :: l))
    end.

Lemma groups_in {A} (g : gatt A) type start end_ ss : forall size s, s ∈ groups g type start end_ size ss -> s ∈ ss /\ (size <> 0 -> group_len g s = size).
Proof.
  induction ss as [|t ss IH]; intros size s; cbn; [by intros ?%elem_of_nil|]. destruct (group_wanted g type start end_ t).
  - destruct (Z.eqb_spec size 0) as [->|]; cbn [negb andb].
    + intros [->|Hin]%elem_of_cons; [split; [by left|done]|]. destruct (IH _ _ Hin). split; [by right|done].
    + destruct (Z.eqb_spec size (group_len g t)) as [->|]; cbn [negb]; [|by intros ?%elem_of_nil]. intros [->|Hin]%elem_of_cons; [split; [by left|done]|]. destruct (IH _ _ Hin) as [? Hs]. split; [by right|done].
  - intros Hin. destruct (IH _ _ Hin). split; [by right|done].
Qed.
Lemma groups_length {A} (g : gatt A) type start end_ ss : forall size, (length (groups g type start end_ size ss) <= length ss)%nat.
Proof. induction ss as [|t ss IH]; intros size; cbn; [done|]. destruct (group_wanted _ _ _ _ _); [destruct (_ && _)|]; cbn; [lia|specialize (IH (group_len g t)); lia|specialize (IH size); lia]. Qed.

(** All services of a response have values of the length of the first. *)
Lemma groups_alike {A} (g : gatt A) type start end_ ss s l : (forall t, t ∈ ss -> group_len g t <> 0) -> groups g type start end_ 0 ss = s :: l -> forall t, t ∈ s :: l -> t ∈ ss /\ group_len g t = group_len g s.
Proof.
  intros Hnz. induction ss as [|u ss IH]; cbn; [done|]. destruct (group_wanted g type start end_ u).
  - change (0 =? 0) with true. cbn [negb andb]. intros [= <- <-] t [->|Hin]%elem_of_cons; [split; [by left|done]|]. destruct (groups_in _ _ _ _ _ _ _ Hin) as [? Hs]. split; [by right|]. apply Hs, Hnz. by left.
  - intros E t Ht. destruct (IH ltac:(intros; apply Hnz; by right) E t Ht). split; [by right|done].
Qed.

Section Groups.
Context `{!Allocator} {T U : Type} `{!Transport T} (user : App (srv T U)) (fuel : nat).
Abbreviation mem := (Queue.mem (gatt (srv T U))).
Implicit Types (m : mem) (g : gatt (srv T U)) (own : gmap ptr owner) (Q : gmap ptr (Z * entry_list)) (v : srv T U).

Lemma group_entry_len g len s : declares g len s -> zlen (group_entry g s) = len + 4.
Proof.
  intros (x & a & own & Hx & Ha & _ & _ & Hok & <-). unfold group_entry. rewrite Hx, Ha, !zlen_app, <-(bytes_of_length a Hok). change (zlen (Some <$> put_le16 _)) with 2. lia.
Qed.

(** The read of a declaration sets the variable of the caller. *)
Lemma read_decl_wp n s x a len (P : bool -> mem -> Prop) m :
  g_services (world m) !! s = Some x -> s_attributes x !! 0%nat = Some (Attr a) -> a_read_func a = None -> value_ok a -> a_value_len a = len -> is_Some (v_iov (app_of m)) ->
  (forall value, default [] value = bytes_of a -> P true (put_app (set_iov (Some (value, len)) (app_of m)) m)) ->
  wp (gatt_db_attribute_read (app := server_app user fuel (S n)) (Some (s, 0%nat)) 0 BT_ATT_OP_READ_BY_GRP_TYPE_REQ 0 (Some attribute_read) 0) P m.
Proof.
  intros Hx Ha Hrf Hok <- [o Ho] HP. eapply stored_read_wp; [done..| |].
  - intros Hlt. pose proof (bytes_of_length a Hok). pose proof (zlen_nonneg (bytes_of a)). lia.
  - intros _ value Hv. cbn [call server_app]. unfold dispatch. rewrite !decide_False, decide_True by done. unfold attribute_read_cb. gatt_step. eapply wp_look; [done|]. apply wp_change. rewrite Z.sub_0_r. by apply HP.
Qed.

Lemma service_handles_wp s x own (P : option (Z * Z) -> mem -> Prop) m : g_services (world m) !! s = Some x -> service_ok own s x -> P (Some (first_handle x, last_handle x)) m ->
  wp (gatt_db_attribute_get_service_handles (Some (s, 0%nat))) P m.
Proof.
  intros Hx Hok HP. destruct (so_decl _ _ _ Hok) as (a & Ha & _). unfold gatt_db_attribute_get_service_handles. gatt_step. eapply wp_load_attr; [done|by apply decl_lookup|]. gatt_step.
  unfold wp at 1. rewrite (get_handles_run m s x own) by done. by gatt_step.
Qed.

(** The statements that put an entry of a service into the response. *)
Lemma put_group_wp {B} h1 h2 value len (pre rest : raw) (K : raw -> Queue.M B) (P : B -> mem -> Prop) m : zlen (default [] value) = len -> len + 4 <= zlen rest -> 0 <= len ->
  wp (K ((pre ++ ((Some <$> put_le16 h1) ++ (Some <$> put_le16 h2) ++ default [] value)) ++ drop (Z.to_nat (len + 4)) rest)) P m ->
  wp (pdu ← lift (mem_write (pre ++ rest) (zlen pre) (Some <$> put_le16 h1));
      pdu ← lift (mem_write pdu (zlen pre + 2) (Some <$> put_le16 h2));
      value ← copy_from value len;
      pdu ← lift (mem_write pdu (zlen pre + 4) value);
      K pdu) P m.
Proof.
  intros Hval Hlen H0 HP. rewrite buf_write by (change (zlen (Some <$> put_le16 h1)) with 2; lia). change (length (Some <$> put_le16 h1)) with 2%nat. do 2 gatt_step.
  replace (zlen pre + 2) with (zlen (pre ++ (Some <$> put_le16 h1))) by (rewrite zlen_app; done). rewrite buf_write by (change (zlen (Some <$> put_le16 h2)) with 2; unfold zlen in *; rewrite length_drop; lia). change (length (Some <$> put_le16 h2)) with 2%nat. do 2 gatt_step.
  unfold copy_from. rewrite mem_read_ok by lia. rewrite drop_0, take_ge by (unfold zlen in *; lia). do 2 gatt_step.
  replace (zlen pre + 4) with (zlen ((pre ++ (Some <$> put_le16 h1)) ++ (Some <$> put_le16 h2))) by (rewrite !zlen_app; change (zlen (Some <$> put_le16 _)) with 2; lia).
  rewrite buf_write by (unfold zlen in *; rewrite !length_drop; lia). do 2 gatt_step. rewrite !drop_drop. replace (2 + (2 + length (default [] value)))%nat with (Z.to_nat (len + 4)) by (unfold zlen in *; lia).
  rewrite <-!app_assoc in *. exact HP.
Qed.

Lemma encode_groups_wp n v w q mtu len : 0 < len -> len <= mtu - 6 -> len <= 251 -> mtu <= UINT16_MAX -> forall l k pre rest iter dlen m Q es o (P : option (raw * Z) -> mem -> Prop),
  represents ∅ m Q -> Q !! q = Some (1, es) -> es.*2 = (fun s => addr (s, 0%nat)) <$> l -> (forall s, s ∈ l -> declares w len s) -> (length l <= k)%nat -> zlen (pre ++ rest) = mtu -> world m = set_app (set_iov o v) w ->
  (iter = 0 /\ pre = [] /\ l <> [] \/ iter = zlen pre /\ 0 < iter <= mtu - 1 /\ dlen = len) ->
  (forall m' es' rest' o', represents ∅ m' (<[q := (1, es')]> Q) -> world m' = set_app (set_iov o' v) w -> (length es' <= length es)%nat ->
    let pre1 := if iter =? 0 then [Some (len + 4)] else pre in
    let pre' := pre1 ++ concat (group_entry w <$> take (fitting (mtu - 1 - zlen pre1) (len + 4)) l) in P (Some (pre' ++ rest', zlen pre')) m') ->
  wp (encode_groups (app := server_app user fuel (S n)) k (Some q) mtu (pre ++ rest) iter dlen) P m.
Proof.
  intros Hlen0 Hlen1 Hlen2 Hmax. unfold UINT16_MAX in Hmax. induction l as [|s l IH]; intros k pre rest iter dlen m Q es o P R Hq Hes Hd Hk Hmtu Hw Hiter HP.
  { destruct es; [|done]. destruct Hiter as [(_ & _ & ?)|(-> & Hiter & _)]; [done|]. rewrite (proj2 (Z.eqb_neq _ _)) in HP by lia. specialize (HP m [] rest o ltac:(by rewrite insert_id) Hw ltac:(done)). cbn zeta in HP.
    rewrite take_nil in HP. cbn [fmap list_fmap concat] in HP. rewrite app_nil_r in HP.
    destruct k; cbn [encode_groups]; (gatt_step; eapply peek_head_wp; [done|done|]; change (default 0 (head (@nil (ptr * Z)).*2)) with 0; change (0 =? 0) with true; cbv iota; gatt_step); exact HP. }
  destruct es as [|[e z] es]; [done|]. cbn in Hes. injection Hes as -> Hes. destruct (Hd s ltac:(by left)) as (x & a & own & Hx & Ha & Hok & Hrf & Hval & Hvl). pose proof (group_entry_len w len s (Hd s ltac:(by left))) as Hel.
  destruct k as [|k]; cbn in Hk; [lia|]. cbn [encode_groups]. gatt_step. eapply peek_head_wp; [done|done|]. change (default 0 (head ((e, addr (s, 0%nat)) :: es).*2)) with (addr (s, 0%nat)). rewrite addr_not_null. gatt_step.
  eapply pop_head_wp; [done|done|]. intros m1 R1 W1. do 3 gatt_step. apply wp_change. gatt_step. eapply (read_decl_wp n s x a len); [unfold put_app; gatt_simpl; by rewrite W1, Hw|by apply decl_lookup|done|done|done|by eexists|].
  intros value Hv. rewrite put_app_twice. gatt_step. eapply wp_look; [done|]. cbv beta iota. rewrite (proj2 (Z.eqb_neq len 0)) by lia. cbn [negb orb].
  set (m2 := put_app _ m1). assert (world m2 = set_app (set_iov (Some (value, len)) v) w) as W2 by (unfold m2, put_app, app_of; gatt_simpl; by rewrite W1, Hw).
  assert (represents ∅ m2 (<[q := (1, es)]> Q)) as R2 by (by eapply represents_frame). assert (zlen (default [] value) = len) as Hvlen by (rewrite Hv, <-Hvl; symmetry; by apply bytes_of_length).
  pose proof (service_bounds _ _ _ Hok) as Hb. unfold UINT16_MAX in Hb.
  assert (forall pre1 rest1, zlen (pre1 ++ rest1) = mtu -> 0 < zlen pre1 <= mtu - 1 -> pre1 = (if iter =? 0 then [Some (len + 4)] else pre) ->
    wp (if mtu - 1 <? zlen pre1 + len + 4 then mret (Some (pre1 ++ rest1, zlen pre1))
        else
          o ← gatt_db_attribute_get_service_handles (Some (s, 0%nat));
          '(start_handle, end_handle) ← lift (of_option o);
          pdu ← lift (mem_write (pre1 ++ rest1) (zlen pre1) (Some <$> put_le16 start_handle));
          pdu ← lift (mem_write pdu (zlen pre1 + 2) (Some <$> put_le16 end_handle));
          value ← copy_from value len;
          pdu ← lift (mem_write pdu (zlen pre1 + 4) value);
          encode_groups (app := server_app user fuel (S n)) k (Some q) mtu pdu (zlen pre1 + len + 4) len) P m2) as Hgo.
  { intros pre1 rest1 Hm1 Hp1 Epre. rewrite <-Epre in HP. cbn zeta in HP. rewrite zlen_app in Hm1. destruct (Z.ltb_spec (mtu - 1) (zlen pre1 + len + 4)) as [Hfull|Hroom].
    { gatt_step. specialize (HP m2 es rest1 (Some (value, len)) R2 W2 ltac:(cbn; lia)). rewrite fitting_none in HP by lia. cbn in HP. by rewrite app_nil_r in HP. }
    gatt_step. eapply service_handles_wp; [by rewrite W2|done|]. do 2 gatt_step. apply put_group_wp; [done|lia|lia|]. set (entry := _ ++ _ ++ default [] value).
    assert (entry = group_entry w s) as Eent by (unfold group_entry, entry; by rewrite Hx, Ha, Hv). rewrite Eent. replace (zlen pre1 + len + 4) with (zlen (pre1 ++ group_entry w s)) by (rewrite zlen_app; lia).
    eapply (IH k (pre1 ++ group_entry w s) _ _ len m2 _ es (Some (value, len))); [exact R2|by rewrite lookup_insert_eq|done|intros; apply Hd; by right|lia|rewrite !zlen_app; unfold zlen in *; rewrite length_drop; lia|done|right; split_and!; [done|rewrite zlen_app; lia..|done]|].
    intros m' es' rest' o' R' W' L'. cbn zeta. rewrite insert_insert_eq in R'. specialize (HP m' es' rest' o' R' W' ltac:(cbn; lia)). rewrite fitting_one in HP by lia. cbn [take fmap list_fmap concat] in HP. rewrite app_assoc in HP.
    rewrite (proj2 (Z.eqb_neq _ _)) by (rewrite zlen_app; lia). replace (mtu - 1 - zlen (pre1 ++ group_entry w s)) with (mtu - 1 - zlen pre1 - (len + 4)) by (rewrite zlen_app; lia). exact HP. }
  clear HP IH. destruct Hiter as [(-> & -> & _)|(-> & Hiter & ->)].
  - change (0 =? 0) with true in *. cbv iota in *. rewrite u32_small by lia. rewrite u8_small by lia. replace (Z.min (Z.min (mtu - 6) 251) len) with len by lia. gatt_step.
    rewrite u8_small by lia. destruct rest as [|b rest]; [unfold zlen in Hmtu; cbn in Hmtu; lia|]. change (mem_set ([] ++ b :: rest) 0 (Some (len + 4))) with (Ret ([Some (len + 4)] ++ rest)). gatt_step. cbn [negb andb].
    apply (Hgo [Some (len + 4)] rest); [unfold zlen in *; cbn in *; lia|change (zlen [Some (len + 4)]) with 1; lia|done].
  - rewrite (proj2 (Z.eqb_neq (zlen pre) 0)) in * by lia. gatt_step. rewrite Z.eqb_refl. cbn [negb andb]. apply (Hgo pre rest); [done|done|done].
Qed.

Lemma declares_of m Q own d ss s : sound m Q own d ss -> plain (world m) -> s ∈ ss -> declares (world m) (group_len (world m) s) s /\ (group_len (world m) s = 2 \/ group_len (world m) s = 16).
Proof.
  intros Sd Hp Hs. destruct (db_service _ _ _ _ _ _ (sound_db _ _ _ _ _ Sd) s Hs) as (x & Hx & Hok). destruct (so_decl _ _ _ Hok) as (a & Ha & Hname). destruct (sound_listed _ _ _ _ _ Sd s x Hx) as [_ Hreg].
  unfold group_len, decl_len. rewrite Hx, Ha. pose proof (proj1 (decl_lookup _ _) Ha) as Ha0. split.
  - exists x, a, own. split_and!; [done..|by eapply Hp|by eapply reg_values|done].
  - destruct Hname as (u & l & Hu & Hl & _ & -> & _). destruct (le_roundtrip u [] Hu) as (l' & Hl' & _ & Hlen & _). assert (l' = l) as -> by congruence. done.
Qed.

Lemma group_rsp_len g mtu len l : 0 < len -> len + 6 <= mtu -> l <> [] -> (forall s, s ∈ l -> declares g len s) -> 1 <= zlen (group_rsp g mtu len l) <= mtu - 1.
Proof.
  intros H0 Hm _ Hl. unfold group_rsp. rewrite zlen_app. change (zlen [_]) with 1. pose proof (zlen_nonneg (concat (group_entry g <$> take (fitting (mtu - 2) (len + 4)) l))). split; [lia|].
  assert (forall k l, (forall s, s ∈ l -> declares g len s) -> zlen (concat (group_entry g <$> take k l)) <= Z.of_nat k * (len + 4)) as Hlen.
  { induction k as [|k IH]; intros l' Hl'; [done|]. destruct l' as [|s l']; [cbn; unfold zlen; cbn; lia|]. cbn [take fmap list_fmap concat]. rewrite zlen_app, (group_entry_len g len) by (apply Hl'; by left).
    specialize (IH l' ltac:(intros; apply Hl'; by right)). lia. }
  specialize (Hlen (fitting (mtu - 2) (len + 4)) l Hl). unfold fitting in *. rewrite Z2Nat.id in Hlen by (apply Z.div_pos; lia). pose proof (Z.mul_div_le (mtu - 2) (len + 4) ltac:(lia)). lia.
Qed.

Lemma read_by_group_wp n m Q own d ss sv opcode pdu (P : () -> mem -> Prop) :
  sound m Q own d ss -> idle (app_of m) sv -> opcode <> 0 -> plain (world m) -> is_bytes pdu -> BT_ATT_DEFAULT_LE_MTU <= att_mtu (v_att (app_of m)) <= UINT16_MAX -> (length ss < fuel)%nat ->
  (forall m', replies Q (group_answer (world m) (att_mtu (v_att (app_of m))) opcode pdu ss) m m' -> P () m') ->
  wp (read_by_grp_type_cb (app := server_app user fuel (S n)) fuel opcode pdu) P m.
Proof.
  intros Sd Hv Hop Hpl Hb Hmtu Hl HP. unfold UINT16_MAX, BT_ATT_DEFAULT_LE_MTU in Hmtu. pose proof Hv as (Hsv & _ & _ & Hiov & _). pose proof (db_rep _ _ _ _ _ _ (sound_db _ _ _ _ _ Sd)) as R. unfold read_by_grp_type_cb. gatt_step.
  eapply wp_get_mtu; [done|]. unfold group_answer in HP. revert HP. destruct (negb (zlen pdu =? 6) && negb (zlen pdu =? 20)) eqn:Elen; intros HP; [by eapply (fail_wp fuel m m Q None)|].
  assert (zlen pdu = 6 \/ zlen pdu = 20) as Hlen by lia. clear Elen. destruct (request_uuid_ok pdu Hb Hlen) as [Htype Htok]. gatt_step. eapply new_wp; [done|]. intros q m1 Hq R1 W1.
  assert (own !! q = None) as Hown by (by eapply database_fresh; [apply Sd|]). assert (sound m1 (<[q := (1, [])]> Q) own d ss) as S1.
  { eapply (sound_transport m); [done|done|intros q' [o Ho]; rewrite lookup_insert_ne; [done|congruence]|by rewrite W1]. }
  assert (forall es : entry_list, (length es <= fuel)%nat -> forall q' es', Some (q, es) = Some (q', es') -> Q !! q' = None /\ (length es' <= fuel)%nat) as Hqo by (by intros es Hes q' es' [= <- <-]).
  assert (4 <= length pdu)%nat as Hl4 by (unfold zlen in Hlen; lia).
  gatt_step. eapply le16_at_wp; [apply get_word; lia|]. gatt_step. eapply le16_at_wp; [apply get_word; lia|]. rewrite Htype. do 2 gatt_step. revert HP.
  destruct (_ || _); intros HP; [eapply (fail_wp fuel m1 m Q (Some (q, []))); [done|apply Hqo; cbn; lia|done|done|done|done]|]. revert HP.
  destruct (_ <? _); intros HP; [eapply (fail_wp fuel m1 m Q (Some (q, []))); [done|apply Hqo; cbn; lia|done|done|done|done]|]. do 3 gatt_step. apply uuid_eq_wp; [done|done|]. gatt_step. apply uuid_eq_wp; [done|done|]. revert HP.
  destruct (negb _ && _); intros HP; [eapply (fail_wp fuel m1 m Q (Some (q, []))); [done|apply Hqo; cbn; lia|done|done|done|done]|]. gatt_step.
  eapply (read_by_group_type_wp m1 _ own d ss q); [done|done|by rewrite lookup_insert_eq|done|]. rewrite W1. intros m2 es R2 W2 Hes. rewrite insert_insert_eq in R2.
  pose proof (groups_length (world m) (request_uuid pdu) (word pdu 0) (word pdu 2) ss 0) as Hgl. pose proof (groups_alike (world m) (request_uuid pdu) (word pdu 0) (word pdu 2) ss) as Hga.
  set (gs := groups _ _ _ _ _ _) in *. assert (length es = length gs) as Hel by (rewrite <-(length_fmap snd es), Hes; apply length_fmap). gatt_step. eapply isempty_wp; [done|by rewrite lookup_insert_eq|]. destruct gs as [|s l].
  - destruct es; [|done]. change (u32 (zlen (@nil (ptr * Z))) =? 0) with true. cbv iota. eapply (fail_wp fuel m2 m Q (Some (q, []))); [done|apply Hqo; cbn; lia|done|done|done|done].
  - destruct (listing_bound _ _ _ _ _ Sd) as [_ Hbs]. unfold UINT16_MAX, zlen in Hbs. cbn [length] in Hel, Hgl. rewrite u32_small by (unfold zlen; lia). rewrite (proj2 (Z.eqb_neq _ _)) by (unfold zlen; lia).
    assert (forall t, t ∈ s :: l -> declares (world m) (group_len (world m) s) t) as Hdec.
    { intros t Ht. destruct (Hga s l) with (t := t) as [Hts <-]; [|done|done|]; [intros u Hu; destruct (declares_of _ _ _ _ _ _ Sd Hpl Hu) as [_ ?]; lia|]. by eapply declares_of. }
    assert (s ∈ ss) as Hs by (eapply (Hga s l); [|done|by left]; intros u Hu; destruct (declares_of _ _ _ _ _ _ Sd Hpl Hu) as [_ ?]; lia). destruct (declares_of _ _ _ _ _ _ Sd Hpl Hs) as [_ Hglen].
    unfold encode_read_by_grp_type_rsp. do 3 gatt_step. gatt_step.
    assert (0 < group_len (world m) s) as Hg0 by lia. assert (group_len (world m) s <= att_mtu (v_att (app_of m)) - 6) as Hg1 by lia. assert (group_len (world m) s <= 251) as Hg2 by lia. assert (group_len (world m) s + 6 <= att_mtu (v_att (app_of m))) as Hg4 by lia.
    assert (att_mtu (v_att (app_of m)) <= UINT16_MAX) as Hg3 by (unfold UINT16_MAX; lia).
    eapply (encode_groups_wp n (app_of m) (world m) q (att_mtu (v_att (app_of m))) (group_len (world m) s) Hg0 Hg1 Hg2 Hg3 (s :: l) _ [] (buffer _) 0 0 m2 _ es None);
      [exact R2|by rewrite lookup_insert_eq|done|done|pose proof (rep_fuel m2 _ q 1 es R2 ltac:(by rewrite lookup_insert_eq)); cbn; lia|rewrite app_nil_l; apply buffer_zlen; lia| |by left|].
    { rewrite W2, set_iov_same by done. symmetry. apply set_app_same. }
    intros m3 es3 rest o' R3 W3 L3. cbn zeta. change (0 =? 0) with true. cbv iota. rewrite insert_insert_eq in R3. change (zlen [Some (group_len (world m) s + 4)]) with 1. replace (att_mtu (v_att (app_of m)) - 1 - 1) with (att_mtu (v_att (app_of m)) - 2) by lia.
    fold (group_rsp (world m) (att_mtu (v_att (app_of m))) (group_len (world m) s) (s :: l)). pose proof (group_rsp_len (world m) (att_mtu (v_att (app_of m))) (group_len (world m) s) (s :: l) Hg0 Hg4 ltac:(done) Hdec) as Hrl.
    set (rsp := group_rsp _ _ _ _) in *. gatt_step. apply wp_change. do 2 gatt_step. eapply (drop_queue_wp fuel _ Q q es3); [by eapply represents_frame|done|lia|]. intros m4 R4 W4. unfold message. rewrite u16_small by lia. rewrite buf_read. do 3 gatt_step.
    assert (world m4 = world m) as W4'.
    { rewrite W4. unfold put_app, app_of. gatt_simpl. rewrite W3. gatt_simpl. transitivity (set_app (set_iov None (app_of m)) (world m)); [done|]. rewrite set_iov_same by done. apply set_app_same. }
    assert (app_of m4 = app_of m) as Ea by (unfold app_of; by rewrite W4'). eapply wp_att_send; [by rewrite Ea|]. gatt_step. apply HP. split; [by eapply represents_frame|]. unfold put_app. gatt_simpl. by rewrite Ea, W4'.
Qed.
End Groups.

(** ** The answer *)

(** The entry of an attribute, with the first [len] bytes of its value. *)
Definition type_entry (len : Z) (a : gatt_db_attribute) : raw := (Some <$> put_le16 (a_handle a)) ++ take (Z.to_nat len) (bytes_of a).

(** The response after the entries [pre], whose values have [len] bytes; [check] is the test of the permissions. *)
Fixpoint type_loop (check : gatt_db_attribute -> Z) (mtu : Z) (pre : raw) (len : Z) (l : list gatt_db_attribute) : pdu_of :=
  match l with
  | [] => (BT_ATT_OP_READ_BY_TYPE_RSP, pre)
  | a :: l =>
      if negb (check a =? 0) then error_rsp BT_ATT_OP_READ_BY_TYPE_REQ (a_handle a) (check a)
      else if negb (a_value_len a =? len) || (mtu - 1 <? zlen pre + len + 2) then (BT_ATT_OP_READ_BY_TYPE_RSP, pre)
      else
        let pre := pre ++ type_entry len a in
        if zlen pre =? mtu - 1 then (BT_ATT_OP_READ_BY_TYPE_RSP, pre) else type_loop check mtu pre len l
  end.

(** The first attribute sets the length, and only its value may be cut. *)
Definition type_rsp (check : gatt_db_attribute -> Z) (mtu : Z) (a : gatt_db_attribute) (l : list gatt_db_attribute) : pdu_of :=
  if negb (check a =? 0) then error_rsp BT_ATT_OP_READ_BY_TYPE_REQ (a_handle a) (check a)
  else
    let len := Z.min (Z.min (mtu - 4) 253) (a_value_len a) in
    let pre := Some (len + 2) :: type_entry len a in
    if zlen pre =? mtu - 1 then (BT_ATT_OP_READ_BY_TYPE_RSP, pre) else type_loop check mtu pre len l.

Definition type_answer (check : gatt_db_attribute -> Z) (mtu opcode : Z) (pdu : bytes) (l : list (attr * gatt_db_attribute)) : pdu_of :=
  if negb (zlen pdu =? 6) && negb (zlen pdu =? 20) then error_rsp opcode 0 BT_ATT_ERROR_INVALID_PDU
  else if (word pdu 0 =? 0) || (word pdu 2 =? 0) then error_rsp opcode 0 BT_ATT_ERROR_INVALID_HANDLE
  else if word pdu 2 <? word pdu 0 then error_rsp opcode (word pdu 0) BT_ATT_ERROR_INVALID_HANDLE
  else
    match (pick (fun a => bool_decide (full (request_uuid pdu) = full (a_uuid a))) (word pdu 0) (word pdu 2) l).*2 with
    | [] => error_rsp opcode (word pdu 0) BT_ATT_ERROR_ATTRIBUTE_NOT_FOUND
    | a :: l => type_rsp check mtu a l
    end.

Section ByType.
Context `{!Allocator} {T U : Type} `{!Transport T} (user : App (srv T U)) (fuel : nat).
Abbreviation mem := (Queue.mem (gatt (srv T U))).
Implicit Types (m : mem) (w : gatt (srv T U)) (Q : gmap ptr (Z * entry_list)) (v : srv T U) (sv : bt_gatt_server).

(** The state while the operation [op] is pending. *)
Definition with_op (p : ptr) (op : async_read_op) sv v : srv T U :=
  set_server (Some (set_pending_read (Some p) sv)) (set_read_ops (<[p := op]> (v_read_ops v)) v).

Lemma with_op_end p op sv v t : idle v sv -> v_read_ops v !! p = None ->
  set_read_ops (delete p (v_read_ops (with_op p op sv v))) (set_server (Some (set_pending_read None (set_pending_read (Some p) sv))) (set_att t (with_op p op sv v))) = set_att t v.
Proof.
  intros (Hs & Hr & _) Hp. unfold with_op, set_server, set_read_ops, set_att. cbn. rewrite delete_insert_eq, delete_id by done. destruct v, sv; cbn in *. unfold set_pending_read. cbn. by rewrite Hs, Hr.
Qed.

(** The end of an operation. *)
Lemma op_destroy_wp p op q es sv v t w Q (P : () -> mem -> Prop) m :
  idle v sv -> v_read_ops v !! p = None -> ro_server op = true -> ro_db_data op = Some q -> represents ∅ m (<[q := (1, es)]> Q) -> Q !! q = None -> (length es <= fuel)%nat ->
  world m = set_app (set_att t (with_op p op sv v)) w -> (forall m', represents ∅ m' Q -> world m' = set_app (set_att t v) w -> P () m') -> wp (async_read_op_destroy fuel p) P m.
Proof.
  intros Hv Hp Hop Hq R Hnew Hf Hm HP. assert (app_of m = set_att t (with_op p op sv v)) as Ha by (unfold app_of; by rewrite Hm). unfold async_read_op_destroy, load_read_op. gatt_step.
  eapply wp_look; [rewrite Ha; apply lookup_insert_eq|]. rewrite Hop, Hq. gatt_step. eapply wp_update_server; [by rewrite Ha|]. gatt_step. eapply (drop_queue_wp fuel _ Q q es); [by eapply represents_frame|done|done|].
  intros m1 R1 W1. assert (app_of m1 = set_server (Some (set_pending_read None (set_pending_read (Some p) sv))) (set_att t (with_op p op sv v))) as Ha1 by (unfold app_of; rewrite W1; gatt_simpl; by rewrite Ha).
  gatt_step. eapply wp_look; [rewrite Ha1; apply lookup_insert_eq|]. apply wp_change. apply HP; [by eapply represents_frame|]. unfold put_app. gatt_simpl. rewrite Ha1, W1. unfold put_app. gatt_simpl. rewrite Hm.
  rewrite <-(with_op_end p op sv v t) by done. done.
Qed.

(** A message, and the end of the operation. *)
Lemma op_reply_wp p op q es sv v w Q r (P : () -> mem -> Prop) m :
  idle v sv -> v_read_ops v !! p = None -> ro_server op = true -> ro_db_data op = Some q -> represents ∅ m (<[q := (1, es)]> Q) -> Q !! q = None -> (length es <= fuel)%nat ->
  world m = set_app (with_op p op sv v) w -> (forall m', represents ∅ m' Q -> world m' = set_app (sent r v) w -> P () m') ->
  wp (_ ← bt_att_send r.1 r.2; async_read_op_destroy fuel p) P m.
Proof.
  intros Hv Hp Hop Hq R Hnew Hf Hm HP. assert (app_of m = with_op p op sv v) as Ha by (unfold app_of; by rewrite Hm). gatt_step. eapply wp_att_send; [by rewrite Ha|].
  eapply (op_destroy_wp p op q es sv v (att_send r.1 r.2 (v_att v)).2 w Q); [done|done|done|done|by eapply represents_frame|done|done| |exact HP]. unfold put_app. gatt_simpl. by rewrite Ha, Hm.
Qed.
Lemma op_error_wp p op q es sv v w Q opcode h e (P : () -> mem -> Prop) m :
  idle v sv -> v_read_ops v !! p = None -> ro_server op = true -> ro_db_data op = Some q -> represents ∅ m (<[q := (1, es)]> Q) -> Q !! q = None -> (length es <= fuel)%nat ->
  world m = set_app (with_op p op sv v) w -> opcode <> 0 -> (forall m', represents ∅ m' Q -> world m' = set_app (sent (error_rsp opcode h e) v) w -> P () m') ->
  wp (_ ← bt_att_send_error_rsp opcode h e; async_read_op_destroy fuel p) P m.
Proof.
  intros Hv Hp Hop Hq R Hnew Hf Hm Ho HP. assert (app_of m = with_op p op sv v) as Ha by (unfold app_of; by rewrite Hm). gatt_step. eapply wp_error_rsp; [by rewrite Ha|done|]. intros _.
  eapply (op_destroy_wp p op q es sv v (att_send (error_rsp opcode h e).1 (error_rsp opcode h e).2 (v_att v)).2 w Q); [done|done|done|done|by eapply represents_frame|done|done| |exact HP]. unfold put_app. gatt_simpl. by rewrite Ha, Hm.
Qed.

(** The pending operation, after the entries [pre]. *)
Definition typing (opcode : Z) (done : bool) (pre rest : raw) (len : Z) (q : ptr) : async_read_op := mk_read_op true opcode done (Some (pre ++ rest)) (zlen pre) len (Some q).

(** What the request asks for is there, in the database. *)
Definition present w (l : list (attr * gatt_db_attribute)) : Prop :=
  forall p a, (p, a) ∈ l -> exists x, g_services w !! p.1 = Some x /\ s_attributes x !! p.2 = Some (Attr a) /\ a_read_func a = None /\ value_ok a.

Lemma done_wp n p opcode q pre rest len es sv v w Q (P : () -> mem -> Prop) m :
  idle v sv -> v_read_ops v !! p = None -> represents ∅ m (<[q := (1, es)]> Q) -> Q !! q = None -> (length es <= fuel)%nat -> zlen pre <= UINT16_MAX -> forall fin, fin = true \/ es = [] ->
  world m = set_app (with_op p (typing opcode fin pre rest len q) sv v) w ->
  (forall m', represents ∅ m' Q -> world m' = set_app (sent (BT_ATT_OP_READ_BY_TYPE_RSP, pre) v) w -> P () m') ->
  wp (process_read_by_type (app := server_app user fuel n) fuel p) P m.
Proof.
  intros Hv Hp R Hnew Hf Hmax fin Hfin Hm HP. unfold UINT16_MAX in Hmax. pose proof (zlen_nonneg pre). assert (app_of m = with_op p (typing opcode fin pre rest len q) sv v) as Ha by (unfold app_of; by rewrite Hm).
  assert (forall m1 z es', world m1 = world m -> represents ∅ m1 (<[q := (1, es')]> Q) -> (length es' <= fuel)%nat -> fin || (z =? 0) = true ->
    wp (if fin || (z =? 0) then rsp ← copy_from (Some (pre ++ rest)) (u16 (zlen pre)); _ ← bt_att_send BT_ATT_OP_READ_BY_TYPE_RSP rsp; async_read_op_destroy fuel p else undef) P m1) as Hend.
  { intros m1 z es' W1 R1 Hf1 ->. gatt_step. unfold copy_from. rewrite u16_small by lia. change (default [] (Some (pre ++ rest))) with (pre ++ rest). rewrite buf_read. gatt_step.
    eapply (op_reply_wp p (typing opcode fin pre rest len q) q es' sv v w Q (BT_ATT_OP_READ_BY_TYPE_RSP, pre)); [done|done|done|done|done|done|done|by rewrite W1|done]. }
  unfold process_read_by_type, load_read_op. gatt_step. eapply wp_look; [rewrite Ha; apply lookup_insert_eq|]. cbn [typing ro_db_data ro_done ro_pdu ro_pdu_len]. gatt_step. eapply pop_head_wp; [done|by rewrite lookup_insert_eq|].
  destruct es as [|[e d] es].
  - specialize (Hend m 0 [] eq_refl R Hf ltac:(by destruct fin)). destruct (_ || _) eqn:E; [exact Hend|by destruct fin].
  - destruct Hfin as [->|]; [|done]. intros m1 R1 W1. rewrite insert_insert_eq in R1. apply (Hend m1 d es W1 R1); [cbn in Hf; lia|done].
Qed.

(** A read has ended: the entry is added, or the response is complete. *)
Lemma type_complete_wp n s i x a value p opcode q pre rest len0 es sv v w Q (P : () -> mem -> Prop) m :
  let mtu := att_mtu (v_att v) in
  let first := zlen pre =? 0 in
  let len := if first then Z.min (Z.min (mtu - 4) 253) (a_value_len a) else len0 in
  let pre1 := if first then [Some (len + 2)] else pre in
  let rest1 := if first then drop 1 rest else rest in
  idle v sv -> represents ∅ m (<[q := (1, es)]> Q) -> BT_ATT_DEFAULT_LE_MTU <= mtu <= UINT16_MAX -> zlen (pre ++ rest) = mtu -> zlen pre <= mtu - 1 -> 0 <= len0 <= 253 ->
  world m = set_app (with_op p (typing opcode false pre rest len0 q) sv v) w -> g_services w !! s = Some x -> s_attributes x !! i = Some (Attr a) -> value_ok a -> default [] value = bytes_of a ->
  (forall m' fin pre2 rest2, represents ∅ m' (<[q := (1, es)]> Q) -> world m' = set_app (with_op p (typing opcode fin pre2 rest2 len q) sv v) w -> zlen (pre2 ++ rest2) = mtu ->
    (if (negb first && negb (a_value_len a =? len)) || (mtu - 1 <? zlen pre1 + len + 2) then pre2 = pre1 /\ fin = true else pre2 = pre1 ++ type_entry len a /\ fin = (zlen pre2 =? mtu - 1)) ->
    wp (process_read_by_type (app := server_app user fuel n) fuel p) P m') ->
  wp (read_by_type_read_complete_cb (app := server_app user fuel n) fuel (s, i) 0 value (a_value_len a) p) P m.
Proof.
  intros mtu first len pre1 rest1 Hv R Hmtu Hbuf Hpre Hlen0 Hm Hx Ha Hok Hval HP. unfold BT_ATT_DEFAULT_LE_MTU, UINT16_MAX in *. pose proof (bytes_of_length a Hok) as Hal. pose proof (zlen_nonneg (bytes_of a)) as Hnn. pose proof (zlen_nonneg pre) as Hpn.
  assert (app_of m = with_op p (typing opcode false pre rest len0 q) sv v) as Happ by (unfold app_of; by rewrite Hm).
  unfold read_by_type_read_complete_cb, load_read_op. gatt_step. eapply wp_look; [rewrite Happ; apply lookup_insert_eq|]. cbn [typing ro_server ro_pdu ro_pdu_len ro_value_len negb]. gatt_step.
  eapply wp_get_mtu; [by rewrite Happ|]. gatt_step. eapply get_handle_wp; [by rewrite Hm|done|]. change (0 =? 0) with true. cbn [negb]. rewrite Happ. change (att_mtu (v_att (with_op _ _ _ _))) with mtu.
  rewrite !(u32_small (mtu - _)) by lia. fold first. fold len. do 2 gatt_step. assert (0 <= len <= 253) as Hlen by (unfold len; destruct first; lia).
  assert (zlen pre1 + zlen rest1 = mtu /\ 1 <= zlen pre1) as [Hb1 Hp1].
  { unfold pre1, rest1, first in *. rewrite zlen_app in Hbuf. destruct (Z.eqb_spec (zlen pre) 0) as [E|E]; [|lia]. change (zlen [Some (len + 2)]) with 1. unfold zlen in *. rewrite length_drop. lia. }
  assert (wp (if first then lift (mem_set (pre ++ rest) 0 (Some (u8 (len + 2)))) else mret (pre ++ rest)) (fun pdu m' => pdu = pre1 ++ rest1 /\ m' = m) m) as Hset.
  { unfold pre1, rest1, first in *. destruct (Z.eqb_spec (zlen pre) 0) as [E|E]; [|by gatt_step]. destruct pre as [|? ?]; [|unfold zlen in E; cbn in E; lia]. rewrite u8_small by lia. destruct rest as [|b rest]; [unfold zlen in Hbuf; cbn in Hbuf; lia|].
    change (mem_set ([] ++ b :: rest) 0 (Some (len + 2))) with (Ret ([Some (len + 2)] ++ rest)). by gatt_step. }
  gatt_step. eapply wp_mono; [exact Hset|]. cbv beta. intros pdu m' [-> ->]. clear Hset. cbv zeta. assert ((if first then 1 else zlen pre) = zlen pre1) as -> by (unfold pre1; by destruct first).
  remember (negb first && negb (a_value_len a =? len)) as bad eqn:Ebad. set (full_ := mtu - 1 <? zlen pre1 + len + 2) in *.
  assert (forall fin pre2 rest2 m1, m1 = m -> zlen (pre2 ++ rest2) = mtu -> (if bad || full_ then pre2 = pre1 /\ fin = true else pre2 = pre1 ++ type_entry len a /\ fin = (zlen pre2 =? mtu - 1)) ->
    wp (_ ← store_read_op p (typing opcode fin pre2 rest2 len q); process_read_by_type (app := server_app user fuel n) fuel p) P m1) as Hgo.
  { intros fin pre2 rest2 m1 -> Hz Hcase. gatt_step. unfold store_read_op. apply wp_change. eapply (HP _ fin pre2 rest2); [by eapply represents_frame| |done|done]. unfold put_app. gatt_simpl. rewrite Happ, Hm. unfold with_op, set_read_ops, set_server. cbn. rewrite insert_insert_eq. done. }
  gatt_step. destruct bad.
  { gatt_step. apply (Hgo true pre1 rest1); [done|rewrite zlen_app; lia|done]. }
  unfold full_ in *. destruct (Z.ltb_spec (mtu - 1) (zlen pre1 + len + 2)) as [Hfull|Hroom].
  { gatt_step. apply (Hgo true pre1 rest1); [done|rewrite zlen_app; lia|done]. }
  assert (len <= a_value_len a) as Hle by (unfold len in *; destruct first; cbn [negb andb] in *; lia).
  assert (zlen (take (Z.to_nat len) (bytes_of a)) = len) as Htake by (unfold zlen in *; rewrite length_take; lia).
  rewrite buf_write by (rewrite zlen_fmap; change (zlen (put_le16 _)) with 2; lia). do 2 gatt_step. unfold copy_from. rewrite mem_read_ok by (rewrite ?Hval; lia). rewrite Hval. change (Z.to_nat 0) with 0%nat. rewrite drop_0. do 2 gatt_step.
  change (length (Some <$> put_le16 (a_handle a))) with 2%nat. replace (zlen pre1 + 2) with (zlen (pre1 ++ (Some <$> put_le16 (a_handle a)))) by (rewrite zlen_app; done).
  rewrite buf_write by (rewrite Htake; unfold zlen in *; rewrite length_drop; lia). gatt_step. rewrite <-(app_assoc pre1). fold (type_entry len a). gatt_step.
  set (rest2 := drop _ _). assert (zlen ((pre1 ++ type_entry len a) ++ rest2) = mtu) as Hz2.
  { unfold rest2, type_entry. rewrite !zlen_app, Htake, zlen_fmap. change (zlen (put_le16 _)) with 2. unfold zlen in *. rewrite !length_drop. lia. }
  assert (zlen pre1 + len + 2 = zlen (pre1 ++ type_entry len a)) as -> by (unfold type_entry; rewrite !zlen_app, Htake, zlen_fmap; change (zlen (put_le16 _)) with 2; lia).
  specialize (Hgo (zlen (pre1 ++ type_entry len a) =? mtu - 1) (pre1 ++ type_entry len a) rest2 m eq_refl Hz2 ltac:(done)). destruct (zlen (pre1 ++ type_entry len a) =? mtu - 1); gatt_step; exact Hgo.
Qed.

Lemma check_same v sv p op s i x a (P : Z -> mem -> Prop) m : app_of m = with_op p op sv v -> g_services (world m) !! s = Some x -> s_attributes x !! i = Some (Attr a) ->
  P (access_of v sv a READ_MASK) m -> wp (check_permissions (s, i) READ_MASK) P m.
Proof. intros Ha Hx Hi HP. eapply check_permissions_wp; [by rewrite Ha|done|done|]. by rewrite Ha. Qed.

(** The attributes that are still to be read. *)
Lemma type_loop_wp p opcode q sv v w Q : idle v sv -> v_read_ops v !! p = None -> Q !! q = None -> BT_ATT_DEFAULT_LE_MTU <= att_mtu (v_att v) <= UINT16_MAX ->
  forall l n pre rest len es m (P : () -> mem -> Prop), (length l <= n)%nat -> represents ∅ m (<[q := (1, es)]> Q) -> (length es <= fuel)%nat -> es.*2 = ptrs l -> present w l ->
  zlen (pre ++ rest) = att_mtu (v_att v) -> zlen pre <= att_mtu (v_att v) - 1 -> 0 <= len <= 253 -> world m = set_app (with_op p (typing opcode false pre rest len q) sv v) w ->
  (forall m', replies Q (match l.*2 with
      | [] => (BT_ATT_OP_READ_BY_TYPE_RSP, pre)
      | a :: l' => if zlen pre =? 0 then type_rsp (fun a => access_of v sv a READ_MASK) (att_mtu (v_att v)) a l' else type_loop (fun a => access_of v sv a READ_MASK) (att_mtu (v_att v)) pre len (a :: l')
      end) (put_app v m) m' -> P () m') ->
  wp (process_read_by_type (app := server_app user fuel n) fuel p) P m.
Proof.
  intros Hv Hp Hq Hmtu. induction l as [|[[s i] a] l IH]; intros n pre rest len es m P Hn R Hf Hes Hst Hbuf Hpre Hlen Hm HP.
  { destruct es; [|done]. eapply (done_wp n p opcode q pre rest len []); [done|done|done|done|done|unfold UINT16_MAX in *; lia|by right|done|]. intros m' R' W'. apply HP. split; [done|]. rewrite W'. unfold put_app. gatt_simpl. by rewrite Hm. }
  assert (app_of m = with_op p (typing opcode false pre rest len q) sv v) as Happ by (unfold app_of; by rewrite Hm).
  destruct es as [|[e z] es]; [done|]. cbn in Hes. injection Hes as -> Hes. cbn [length] in *. destruct (Hst (s, i) a ltac:(by left)) as (x & Hx & Ha & Hrf & Hok). cbn [fst snd] in Hx, Ha.
  unfold process_read_by_type, load_read_op. gatt_step. eapply wp_look; [rewrite Happ; apply lookup_insert_eq|]. cbn [typing ro_db_data ro_done ro_pdu ro_pdu_len ro_opcode orb]. gatt_step. eapply pop_head_wp; [done|by rewrite lookup_insert_eq|].
  intros m1 R1 W1. rewrite insert_insert_eq in R1. rewrite addr_not_null. do 2 gatt_step. assert (app_of m1 = app_of m) as Ha1 by (unfold app_of; by rewrite W1). gatt_step.
  eapply (check_same v sv); [by rewrite Ha1|by rewrite W1, Hm|done|]. cbn [fmap list_fmap] in HP. cbn [snd] in HP.
  assert (forall e, wp (h ← gatt_db_attribute_get_handle (Some (s, i)); _ ← bt_att_send_error_rsp BT_ATT_OP_READ_BY_TYPE_REQ h e; async_read_op_destroy fuel p)
    (fun _ m' => replies Q (error_rsp BT_ATT_OP_READ_BY_TYPE_REQ (a_handle a) e) (put_app v m) m') m1) as Herr.
  { intros e'. gatt_step. eapply get_handle_wp; [by rewrite W1, Hm|done|]. eapply (op_error_wp p (typing opcode false pre rest len q) q es sv v w Q); [done|done|done|done|done|done|lia|by rewrite W1|done|].
    intros m' R' W'. split; [done|]. rewrite W'. unfold put_app. gatt_simpl. by rewrite Hm. }
  destruct (Z.eqb_spec (access_of v sv a READ_MASK) 0) as [Eacc|Eacc]; cbn [negb].
  2: { eapply wp_mono; [apply Herr|]. intros [] m' Hr. apply HP. unfold type_rsp. cbn [type_loop]. rewrite (proj2 (Z.eqb_neq (access_of v sv a READ_MASK) 0)) by done. cbn [negb]. destruct (zlen pre =? 0); exact Hr. }
  destruct n as [|n]; [lia|]. gatt_step. pose proof (bytes_of_length a Hok) as Hal.
  eapply (stored_read_wp (app := server_app user fuel (S n)) s i x a); [by rewrite W1, Hm|done|done|done|done|pose proof (zlen_nonneg (bytes_of a)); lia|]. intros _ value Hval. change (Z.to_nat 0) with 0%nat in Hval. rewrite drop_0 in Hval. rewrite Z.sub_0_r.
  cbn [call server_app]. unfold dispatch. rewrite decide_False, decide_True by done. do 2 gatt_step.
  eapply (type_complete_wp n s i x a value p opcode q pre rest len es sv v w Q); [done|done|done|done|done|done|by rewrite W1|done|done|done|done|].
  intros m2 fin pre2 rest2 R2 W2 Hz2 Hcase. unfold BT_ATT_DEFAULT_LE_MTU, UINT16_MAX in Hmtu. set (len' := if zlen pre =? 0 then _ else len) in *. assert (0 <= len' <= 253) as Hlen' by (unfold len'; pose proof (zlen_nonneg (bytes_of a)); destruct (zlen pre =? 0); lia).
  assert (forall r, (forall m', replies Q r (put_app v m) m' -> P () m') -> forall m', represents ∅ m' Q -> world m' = set_app (sent r v) w -> wp (mret ()) P m') as Hlast.
  { intros r Hr m' R' W'. gatt_step. apply Hr. split; [done|]. rewrite W'. unfold put_app. gatt_simpl. by rewrite Hm. }
  set (mtu := att_mtu (v_att v)) in *. set (pre1 := if zlen pre =? 0 then [Some (len' + 2)] else pre) in *. pose proof (zlen_nonneg pre) as Hpn.
  set (stop := negb (zlen pre =? 0) && negb (a_value_len a =? len') || (mtu - 1 <? zlen pre1 + len' + 2)) in *. set (check := fun a => access_of v sv a READ_MASK) in *.
  assert (forall m', replies Q (if stop then (BT_ATT_OP_READ_BY_TYPE_RSP, pre1) else
      if zlen (pre1 ++ type_entry len' a) =? mtu - 1 then (BT_ATT_OP_READ_BY_TYPE_RSP, pre1 ++ type_entry len' a) else type_loop check mtu (pre1 ++ type_entry len' a) len' l.*2) (put_app v m) m' -> P () m') as Hans.
  { intros m' Hr. apply HP. clear -Hr Eacc Hlen' Hmtu Hpre. unfold type_rsp. cbn [type_loop]. change (check a) with (access_of v sv a READ_MASK). rewrite Eacc. change (negb (0 =? 0)) with false. cbv iota. unfold stop, pre1, len' in *.
    destruct (Z.eqb_spec (zlen pre) 0) as [E|E]; cbn [negb andb orb] in *; [|exact Hr]. rewrite (proj2 (Z.ltb_ge _ _)) in Hr by (change (zlen [_]) with 1; lia). exact Hr. }
  assert (stop = false -> 0 < zlen (pre1 ++ type_entry len' a) <= mtu - 1) as Hsz.
  { intros [_ E2%Z.ltb_ge]%orb_false_iff. unfold type_entry. rewrite !zlen_app, zlen_fmap. change (zlen (put_le16 _)) with 2. pose proof (zlen_nonneg pre1). unfold zlen in *. rewrite length_take. lia. }
  clear HP. clearbody stop. destruct stop.
  { destruct Hcase as [-> ->]. eapply (done_wp n p opcode q pre1 rest2 len' es sv v w Q _ m2); [done|done|done|done|lia|rewrite zlen_app in Hz2; pose proof (zlen_nonneg rest2); unfold UINT16_MAX; lia|by left|done|by apply Hlast]. }
  destruct Hcase as [-> ->]. revert Hans W2. destruct (Z.eqb_spec (zlen (pre1 ++ type_entry len' a)) (mtu - 1)) as [E|E]; intros Hans W2.
  { eapply (done_wp n p opcode q (pre1 ++ type_entry len' a) rest2 len' es sv v w Q _ m2); [done|done|done|done|lia|unfold UINT16_MAX; lia|by left|done|by apply Hlast]. }
  eapply (IH n (pre1 ++ type_entry len' a) rest2 len' es m2); [lia|done|lia|done|intros p' a' Hin; apply Hst; by right|done| |done|done|].
  { apply Hsz. done. }
  intros m' Hr. gatt_step. apply Hans. rewrite (proj2 (Z.eqb_neq _ 0)) in Hr by (specialize (Hsz eq_refl); lia). destruct l as [|[p' a'] l]; cbn [fmap list_fmap type_loop snd] in *; (destruct Hr as [R' W']; split; [done|]; rewrite W'; unfold put_app; gatt_simpl; by rewrite Hm, W2).
Qed.

Lemma pick_present m Q own d ss sel start end_ : sound m Q own d ss -> plain (world m) -> present (world m) (pick sel start end_ (listing (world m) ss)).
Proof.
  intros Sd Hp p a [_ (s & x & i & Hs & Hx & _ & -> & Hi)%listing_elem]%list_elem_of_filter. exists x. split_and!; [done|done|by eapply Hp|]. destruct (sound_listed _ _ _ _ _ Sd s x Hx) as [_ Hreg]. by eapply reg_values.
Qed.

Lemma read_by_type_request_wp n m Q own d ss sv opcode pdu (P : () -> mem -> Prop) :
  sound m Q own d ss -> idle (app_of m) sv -> opcode <> 0 -> plain (world m) -> typed (world m) -> is_bytes pdu -> BT_ATT_DEFAULT_LE_MTU <= att_mtu (v_att (app_of m)) <= UINT16_MAX ->
  (length ss < fuel)%nat -> (length (listing (world m) ss) < fuel)%nat -> (length (listing (world m) ss) <= n)%nat ->
  (forall m' r, replies Q r m m' -> r = type_answer (fun a => access_of (app_of m) sv a READ_MASK) (att_mtu (v_att (app_of m))) opcode pdu (listing (world m) ss) \/
    (refused /\ r = error_rsp opcode (word pdu 0) BT_ATT_ERROR_INSUFFICIENT_RESOURCES) -> P () m') ->
  wp (read_by_type_cb (app := server_app user fuel n) fuel opcode pdu) P m.
Proof.
  intros Sd Hv Hop Hpl Hty Hb Hmtu Hf Hl Hn HP. pose proof Hv as (Hsv & Hpr & _). pose proof (db_rep _ _ _ _ _ _ (sound_db _ _ _ _ _ Sd)) as R. unfold read_by_type_cb.
  assert (forall m', replies Q (type_answer (fun a => access_of (app_of m) sv a READ_MASK) (att_mtu (v_att (app_of m))) opcode pdu (listing (world m) ss)) m m' -> P () m') as HP1 by (intros m' Hr; by eapply HP; [done|left]).
  unfold type_answer in HP1. revert HP1.
  destruct (negb (zlen pdu =? 6) && negb (zlen pdu =? 20)) eqn:Elen; intros HP1; [by eapply (refuse_wp fuel m m Q None)|].
  assert (zlen pdu = 6 \/ zlen pdu = 20) as Hlen by lia. clear Elen. destruct (request_uuid_ok pdu Hb Hlen) as [Htype Htok]. gatt_step. eapply new_wp; [done|]. intros q m1 Hq R1 W1.
  assert (own !! q = None) as Hown by (by eapply database_fresh; [apply Sd|]). assert (sound m1 (<[q := (1, [])]> Q) own d ss) as S1.
  { eapply (sound_transport m); [done|done|intros q' [o Ho]; rewrite lookup_insert_ne; [done|congruence]|by rewrite W1]. }
  assert (forall es : entry_list, (length es <= fuel)%nat -> forall q' es', Some (q, es) = Some (q', es') -> Q !! q' = None /\ (length es' <= fuel)%nat) as Hqo by (by intros es Hes q' es' [= <- <-]).
  assert (4 <= length pdu)%nat as Hl4 by (unfold zlen in Hlen; lia).
  gatt_step. eapply le16_at_wp; [apply get_word; lia|]. gatt_step. eapply le16_at_wp; [apply get_word; lia|]. rewrite Htype. do 2 gatt_step. revert HP1.
  destruct (_ || _); intros HP1; [eapply (refuse_wp fuel m1 m Q (Some (q, []))); [done|apply Hqo; cbn; lia|done|done|done|done]|]. revert HP1.
  destruct (_ <? _); intros HP1; [eapply (refuse_wp fuel m1 m Q (Some (q, []))); [done|apply Hqo; cbn; lia|done|done|done|done]|]. do 3 gatt_step.
  eapply (ServerSearch.read_by_type_wp fuel m1 _ own d ss q); [done|done|by rewrite lookup_insert_eq|done|done|by rewrite W1|]. rewrite W1. intros m2 es R2 W2 Hes. rewrite insert_insert_eq in R2.
  set (sel := fun a => bool_decide (full (request_uuid pdu) = full (a_uuid a))) in *. pose proof (pick_present m Q own d ss sel (word pdu 0) (word pdu 2) Sd Hpl) as Hst.
  pose proof (pick_length sel (word pdu 0) (word pdu 2) (listing (world m) ss)) as Hpk. set (found := pick _ _ _ _) in *.
  assert (length es = length found) as Hel by (rewrite <-(length_fmap snd es), Hes; apply length_fmap). gatt_step. eapply isempty_wp; [done|by rewrite lookup_insert_eq|]. destruct found as [|[p a] l].
  { destruct es; [|done]. change (u32 (zlen (@nil (ptr * Z))) =? 0) with true. cbv iota. eapply (refuse_wp fuel m2 m Q (Some (q, []))); [done|apply Hqo; cbn; lia|done|done|done|done]. }
  destruct (listing_bound _ _ _ _ _ Sd) as [Hbd _]. unfold UINT16_MAX, zlen in Hbd. cbn [length] in Hel, Hpk. rewrite u32_small by (unfold zlen; lia). rewrite (proj2 (Z.eqb_neq _ _)) by (unfold zlen; lia).
  assert (app_of m2 = app_of m) as Ea by (unfold app_of; by rewrite W2). assert (v_server (app_of m2) = Some sv) as Hsv2 by (by rewrite Ea). gatt_step. eapply wp_load_server; [exact Hsv2|]. rewrite Hpr. do 2 gatt_step. intros o Ho%not_elem_of_dom. rewrite W2 in Ho. gatt_step. eapply wp_get_mtu; [exact Hsv2|]. do 2 gatt_step.
  intros b Hbr. destruct b; cbn [negb].
  2: { destruct Hbr as [|Hbr]; [done|]. eapply (refuse_wp fuel _ m Q (Some (q, es))); [by eapply represents_frame|apply Hqo; lia|done|done|done|]. intros m' Hr. eapply HP; [done|]. right. done. }
  gatt_step. unfold store_read_op. apply wp_change. gatt_step. eapply wp_update_server; [exact Hsv2|].
  eapply (type_loop_wp o opcode q sv (app_of m) (world m) Q Hv Ho Hq Hmtu ((p, a) :: l) n [] (buffer (att_mtu (v_att (app_of m)))) 0 es); [cbn [length]; lia|by eapply represents_frame|lia|done|done| | | | |].
  - unfold BT_ATT_DEFAULT_LE_MTU in Hmtu. apply buffer_zlen. lia.
  - unfold BT_ATT_DEFAULT_LE_MTU in Hmtu. change (zlen []) with 0. lia.
  - done.
  - unfold put_app. gatt_simpl. rewrite W2. unfold app_of. done.
  - intros m' [R' W']. cbn [fmap list_fmap snd] in *. change (zlen [] =? 0) with true in W'. cbv iota in W'. apply HP1. split; [done|]. rewrite W'. unfold put_app, app_of. gatt_simpl. rewrite W2. done.
Qed.
End ByType.
