(* ===== verification/ServerByValue.v ===== *)
(** Find By Type Value of the GATT server: the ranges of the services with an attribute of the given type and
    value, as many as a message takes. *)

From stdpp Require Import gmap.
From S2P Require Import Prelude Util Alloc Queue QueueSpec QueueMain Uuid GattDb GattAccess GattSpec GattDestroy GattServices GattAttrs GattFind GattRequests GattMain GattRun.
From S2P Require Import ServerState ServerFind ServerAccess ServerSteps ServerReads ServerSearch ServerEncode ServerGroups.

(** ** The answer *)

(** Every byte of a value was written. *)
Definition initialised {A} (g : gatt A) : Prop :=
  forall s x i a, g_services g !! s = Some x -> s_attributes x !! i = Some (Attr a) -> exists b : bytes, bytes_of a = Some <$> b.

(** The range of the service of an attribute. *)
Definition range_entry {A} (g : gatt A) (p : attr) : bytes := put_le16 (range g p.1).1 ++ put_le16 (range g p.1).2.

Definition has_value (type : bt_uuid_t) (value : bytes) (a : gatt_db_attribute) : bool :=
  bool_decide (full type = full (a_uuid a)) && bool_decide (bytes_of a = Some <$> value).

Definition value_rsp {A} (g : gatt A) (mtu : Z) (l : list attr) : bytes := concat (range_entry g <$> take (fitting (mtu - 1) 4) l).

Definition value_answer {A} (g : gatt A) (mtu opcode : Z) (pdu : bytes) (l : list (attr * gatt_db_attribute)) : pdu_of :=
  if zlen pdu <? 6 then error_rsp opcode 0 BT_ATT_ERROR_INVALID_PDU
  else if word pdu 2 <? word pdu 0 then error_rsp opcode (word pdu 0) BT_ATT_ERROR_INVALID_HANDLE
  else
    match (pick (has_value (BT_UUID16 (word pdu 4)) (drop 6 pdu)) (word pdu 0) (word pdu 2) l).*1 with
    | [] => error_rsp opcode (word pdu 0) BT_ATT_ERROR_ATTRIBUTE_NOT_FOUND
    | l => (BT_ATT_OP_FIND_BY_TYPE_RSP, Some <$> value_rsp g mtu l)
    end.

Lemma range_entries_len {A} (g : gatt A) l : zlen (concat (range_entry g <$> l)) = 4 * zlen l.
Proof. induction l as [|p l IH]; [done|]. cbn [fmap list_fmap concat]. rewrite zlen_app, zlen_cons, IH. change (zlen (range_entry g p)) with 4. lia. Qed.

Lemma value_rsp_len {A} (g : gatt A) mtu l : 1 <= mtu -> zlen (value_rsp g mtu l) = Z.min (4 * ((mtu - 1) / 4)) (4 * zlen l).
Proof.
  intros Hmtu. unfold value_rsp. rewrite range_entries_len. unfold zlen, fitting. rewrite length_take. pose proof (Z.div_pos (mtu - 1) 4). lia.
Qed.

(** One more service. *)
Lemma value_rsp_more {A} (g : gatt A) mtu l p : 1 <= mtu ->
  value_rsp g mtu (l ++ [p]) = if mtu - 1 <? zlen (value_rsp g mtu l) + 4 then value_rsp g mtu l else value_rsp g mtu l ++ range_entry g p.
Proof.
  intros Hmtu. rewrite value_rsp_len by done. unfold value_rsp. pose proof (Z.div_pos (mtu - 1) 4 ltac:(lia) ltac:(lia)). pose proof (Z.div_mod (mtu - 1) 4 ltac:(lia)) as Hdm. pose proof (Z.mod_pos_bound (mtu - 1) 4 ltac:(lia)) as Hmb.
  destruct (Z.ltb_spec (mtu - 1) (Z.min (4 * ((mtu - 1) / 4)) (4 * zlen l) + 4)) as [Hlt|Hge]; unfold fitting, zlen in *.
  - rewrite take_app_le by lia. done.
  - rewrite (take_ge (l ++ [p])) by (rewrite length_app; cbn; lia). rewrite (take_ge l) by lia. rewrite fmap_app, concat_app. cbn [fmap list_fmap concat]. by rewrite app_nil_r.
Qed.

(** ** Walks over attributes *)

Section Walk.
Context `{!Allocator} {A : Type}.
Abbreviation mem := (Queue.mem (gatt A)).
Implicit Types (m : mem).

(** A walk that ends at the first attribute with [stop]; [J l m] holds when the attributes [l] were visited. *)
Lemma for_attributes_until s x own body stop (J : list (attr * gatt_db_attribute) -> mem -> Prop) : service_ok own s x ->
  (forall l m, J l m -> g_services (world m) !! s = Some x) ->
  (forall l i a m, s_attributes x !! i = Some (Attr a) -> J l m -> wp (body i a) (fun go m' => go = negb (stop a) /\ J (if stop a then l else l ++ [((s, i), a)]) m') m) ->
  forall k i l m (P : () -> mem -> Prop), (length (s_attributes x) <= i + k)%nat -> J l m ->
  (forall m', J (l ++ prefix_with (fun pa => negb (stop pa.2)) (attrs_from s i (drop i (s_attributes x)))) m' -> P () m') -> wp (for_attributes k s i body) P m.
Proof.
  intros Hok Hx Hbody. pose proof (so_size _ _ _ Hok) as Hsize. unfold zlen in Hsize.
  induction k as [|k IH]; intros i l m P Hk HJ HP; cbn [for_attributes].
  { gatt_step. apply HP. rewrite drop_ge by lia. cbn. by rewrite app_nil_r. }
  pose proof (Hx l m HJ) as Hxm. gatt_step. eapply wp_load_service; [done|]. destruct (Z.ltb_spec (Z.of_nat i) (s_num_handles x)) as [Hi|Hi].
  2: { gatt_step. apply HP. rewrite drop_ge by lia. cbn. by rewrite app_nil_r. }
  destruct (lookup_lt_is_Some_2 (s_attributes x) i) as [v Hv]; [lia|]. rewrite (drop_S _ v) in HP by done. gatt_step.
  destruct (so_slot _ _ _ Hok i v Hv) as [->|(a & -> & _)]; eapply wp_attribute_at; [done|exact Hv|done| |done|exact Hv|done|]; cbv iota; cbn [attrs_from] in HP.
  - by eapply (IH (S i) l); [lia|..].
  - gatt_step. eapply wp_mono; [by apply (Hbody l)|]. cbn [prefix_with snd] in HP. cbv beta. intros go m' [-> HJ']. destruct (stop a); cbn [negb] in *.
    + gatt_step. apply HP. by rewrite app_nil_r.
    + eapply (IH (S i)); [lia|exact HJ'|]. by rewrite <-app_assoc.
Qed.

Lemma prefix_all {B} (l : list B) : prefix_with (fun _ => true) l = l.
Proof. induction l as [|x l IH]; cbn; [done|by rewrite IH]. Qed.

(** A walk over all attributes. *)
Lemma for_attributes_visits s x own body (J : list (attr * gatt_db_attribute) -> mem -> Prop) k i l m (P : () -> mem -> Prop) : service_ok own s x ->
  (forall l m, J l m -> g_services (world m) !! s = Some x) ->
  (forall l i a m, s_attributes x !! i = Some (Attr a) -> J l m -> wp (body i a) (fun go m' => go = true /\ J (l ++ [((s, i), a)]) m') m) ->
  (length (s_attributes x) <= i + k)%nat -> J l m -> (forall m', J (l ++ attrs_from s i (drop i (s_attributes x))) m' -> P () m') -> wp (for_attributes k s i body) P m.
Proof. intros Hok Hx Hbody Hk HJ HP. eapply (for_attributes_until s x own body (fun _ => false) J); [done..|]. intros m' HJ'. apply HP. cbn [negb] in HJ'. by rewrite prefix_all in HJ'. Qed.
End Walk.

Section ByValue.
Context `{!Allocator} {T U : Type} `{!Transport T} {app : App (srv T U)} (fuel : nat).
Abbreviation mem := (Queue.mem (gatt (srv T U))).
Implicit Types (m : mem) (w : gatt (srv T U)) (Q : gmap ptr (Z * entry_list)) (v : srv T U) (sv : bt_gatt_server).

(** The state of a search that has found the attributes [l]. *)
Definition find_data (mtu : Z) (enc : bytes) : find_by_type_val_data := mk_find ((Some <$> enc) ++ drop (length enc) (buffer mtu)) (zlen enc) mtu 0.
Definition finding w (mtu : Z) (l : list attr) : gatt (srv T U) := set_found None (set_app (set_find (Some (find_data mtu (value_rsp w mtu l))) (g_app w)) w).

Lemma val_att_wp w mtu l s i x own a (P : () -> mem -> Prop) m : world m = finding w mtu l -> BT_ATT_DEFAULT_LE_MTU <= mtu <= UINT16_MAX ->
  g_services w !! s = Some x -> service_ok own s x -> s_attributes x !! i = Some (Attr a) -> P () (with_gatt (finding w mtu (l ++ [(s, i)])) m) -> wp (find_by_type_val_att_cb (s, i)) P m.
Proof.
  intros Hm Hmtu Hx Hok Ha HP. unfold BT_ATT_DEFAULT_LE_MTU, UINT16_MAX in Hmtu. unfold find_by_type_val_att_cb. gatt_step. eapply wp_look; [unfold app_of; by rewrite Hm|]. cbn [find_data fv_ecode fv_len fv_mtu fv_pdu].
  change (0 =? 0) with true. cbn [negb]. unfold finding in HP. rewrite (value_rsp_more w mtu l) in HP by lia. set (enc := value_rsp w mtu l) in *.
  assert (g_services (world m) !! s = Some x) as Hxm by (by rewrite Hm). pose proof (value_rsp_len w mtu l ltac:(lia)) as Hl. fold enc in Hl. pose proof (zlen_nonneg enc) as Hnn.
  revert HP. destruct (Z.ltb_spec (mtu - 1) (zlen enc + 4)) as [Hfull|Hroom]; intros HP.
  { gatt_step. unfold finding in Hm. fold enc in Hm. rewrite <-Hm in HP. by destruct m. }
  destruct (so_decl _ _ _ Hok) as (b & Hb & Hname). assert (uuid_ok (a_uuid b)) as Hub by (by destruct Hname as (? & ? & _ & _ & _ & _ & ?)). pose proof (service_bounds _ _ _ Hok) as Hbd. unfold UINT16_MAX in Hbd.
  unfold gatt_db_attribute_get_service_data. do 2 gatt_step. eapply wp_load_attr; [done..|]. gatt_step. eapply wp_load_attr; [done|by apply decl_lookup|]. gatt_step. unfold wp at 1. rewrite (get_handles_run m s x own) by done. cbv beta iota.
  gatt_step. apply uuid_eq_wp; [done|done|]. cbn [negb]. do 3 gatt_step. rewrite !(proj2 (Z.eqb_neq _ 0)) by lia. cbn [orb].
  assert (zlen (Some <$> enc) = zlen enc) as Hze by apply zlen_fmap. rewrite <-Hze. assert (zlen (drop (length enc) (buffer mtu)) = mtu - zlen enc) as Hzr by (pose proof (buffer_zlen mtu ltac:(lia)); unfold zlen in *; rewrite length_drop; lia).
  gatt_step. rewrite buf_write by (rewrite zlen_fmap; change (zlen (put_le16 _)) with 2; lia). do 2 gatt_step. rewrite length_fmap. change (length (put_le16 _)) with 2%nat.
  replace (zlen (Some <$> enc) + 2) with (zlen ((Some <$> enc) ++ (Some <$> put_le16 (first_handle x)))) by (rewrite zlen_app; done).
  rewrite buf_write by (rewrite zlen_fmap; change (zlen (put_le16 _)) with 2; unfold zlen in *; rewrite length_drop; lia). gatt_step. apply wp_change. rewrite u16_small by lia.
  assert (enc ++ range_entry w (s, i) = enc ++ put_le16 (first_handle x) ++ put_le16 (last_handle x)) as Eenc by (unfold range_entry, range; cbn [fst]; by rewrite Hx).
  rewrite Eenc in HP. unfold put_app, app_of. rewrite Hm. unfold finding. fold enc. gatt_simpl. unfold find_data in HP at 1. rewrite length_fmap. change (length (put_le16 _)) with 2%nat.
  rewrite !length_app, !zlen_app, !fmap_app, !app_assoc in HP. rewrite !drop_drop, Hze. change (length (put_le16 _)) with 2%nat in HP. change (zlen (put_le16 _)) with 2 in HP.
  exact HP.
Qed.

Lemma set_find_known v fd : v_find v = Some fd -> set_find (Some fd) v = v.
Proof. destruct v. cbn. by intros ->. Qed.

(** The comparison with a value. *)
Lemma same_value_wp a value (b : bytes) (P : bool -> mem -> Prop) m : value_ok a -> bytes_of a = Some <$> b -> P (bool_decide (bytes_of a = Some <$> value)) m -> wp (same_value a (Some value)) P m.
Proof.
  intros Hok Hb HP. pose proof (bytes_of_length a Hok) as Hl. rewrite Hb in HP, Hl. rewrite zlen_fmap in Hl. assert (forall l1 l2 : bytes, Some <$> l1 = Some <$> l2 -> l1 = l2) as Hinj by (intros l1 l2 E; by apply (inj (fmap Some)) in E).
  unfold same_value. destruct (Z.eqb_spec (zlen value) (a_value_len a)) as [E|E]; cbn [negb].
  2: { gatt_step. rewrite bool_decide_false in HP; [done|]. intros ->%Hinj. by destruct E. }
  destruct (Z.eqb_spec (zlen value) 0) as [E0|E0].
  { gatt_step. rewrite bool_decide_true in HP; [done|]. f_equal. assert (b = []) as -> by (apply nil_length_inv; unfold zlen in *; lia). assert (value = []) as -> by (apply nil_length_inv; unfold zlen in *; lia). done. }
  unfold value_ok, bytes_of in *. destruct (a_value a) as [v|]; [|lia]. do 3 gatt_step. rewrite mem_read_ok by lia. change (Z.to_nat 0) with 0%nat. rewrite drop_0. do 2 gatt_step. rewrite E. change (default [] (Some v)) with v in Hb. rewrite Hb, known_some. do 2 gatt_step.
  assert ((memcmp b value =? 0) = bool_decide (Some <$> b = Some <$> value :> raw)) as ->; [|done]. destruct (Z.eqb_spec (memcmp b value) 0) as [Em|Em].
  - apply memcmp_zero in Em as ->; [by rewrite bool_decide_true|]. unfold zlen in *. lia.
  - rewrite bool_decide_false; [done|]. intros ->%Hinj. destruct Em. by apply memcmp_zero.
Qed.

(** The attributes with the type and the value. *)
Lemma find_values_wp m Q own d ss type start end_ value mtu (P : () -> mem -> Prop) :
  sound m Q own d ss -> uuid_ok type -> typed (world m) -> initialised (world m) -> BT_ATT_DEFAULT_LE_MTU <= mtu <= UINT16_MAX -> (length ss < fuel)%nat -> v_find (app_of m) = Some (find_data mtu []) ->
  (forall m', represents ∅ m' Q -> world m' = set_app (set_find (Some (find_data mtu (value_rsp (world m) mtu (pick (has_value type value) start end_ (listing (world m) ss)).*1))) (app_of m)) (world m) -> P () m') ->
  wp (_ ← gatt_db_find_by_type_value fuel start end_ type value find_by_type_val_att_cb; mret ()) P m.
Proof.
  intros Sd Hty Htyped Hinit Hmtu Hf Hv HP. set (w := world m) in *. unfold gatt_db_find_by_type_value, counting. gatt_step. gatt_step. eapply wp_fetch; [done|]. do 2 gatt_step. gatt_step.
  set (m0 := with_gatt _ m). assert (world m0 = finding w mtu []) as Hm0.
  { unfold m0, finding. gatt_simpl. assert (value_rsp w mtu [] = []) as -> by (unfold value_rsp; by rewrite take_nil). by rewrite (set_find_known (g_app w)), set_app_same. }
  assert (sound m0 Q own d ss) as S0 by (eapply (sound_transport m); [done|eapply represents_frame; [apply Sd|done|done]|done|done]).
  eapply (services_foreach_wp fuel m0 Q own d ss _ (fun pre Q1 w1 => Q1 = Q /\ w1 = finding w mtu (pick (has_value type value) start end_ (listing w pre)).*1)); [done|done|by split|..].
  - intros q es _ Ho pre s post m1 Q1 Hss HQ R1 [-> W1]. assert (s ∈ ss) as Hs by (rewrite Hss; apply elem_of_app; right; by left). destruct (db_service _ _ _ _ _ _ (sound_db _ _ _ _ _ Sd) s Hs) as (x & Hx & Hok). fold w in Hx.
    unfold find_by_type. do 2 gatt_step. gatt_step. eapply wp_load_service; [by rewrite W1|]. assert (listing w (pre ++ [s]) = listing w pre ++ if s_active x then attrs_from s 0 (s_attributes x) else []) as Elist.
    { unfold listing. rewrite bind_app. cbn. by rewrite Hx, app_nil_r. }
    destruct (s_active x); cbn [negb].
    2: { gatt_step. exists Q. rewrite Elist, app_nil_r. done. }
    unfold each_attribute. gatt_step. eapply wp_load_service; [by rewrite W1|]. pose proof (so_size _ _ _ Hok) as Hsize. unfold zlen in Hsize.
    eapply (for_attributes_visits s x own _ (fun l m2 => represents ∅ m2 (<[q := (2, es)]> Q) /\ world m2 = finding w mtu (pick (has_value type value) start end_ (listing w pre ++ l)).*1)); [done| | | | |].
    + intros l m2 [_ W2]. by rewrite W2.
    + intros l i a m2 Ha [R2 W2]. rewrite app_assoc, pick_app, pick_cons. cbn [snd]. unfold wanted, has_value.
      assert (wp (mret true) (fun go m' => go = true /\ represents ∅ m' (<[q := (2, es)]> Q) /\ world m' = finding w mtu (pick (has_value type value) start end_ (listing w pre ++ l) ++ []).*1) m2) as Hskip by (gatt_step; by rewrite app_nil_r).
      destruct (_ || _) eqn:Er; [assert ((start <=? a_handle a) && (a_handle a <=? end_) = false) as -> by lia; exact Hskip|]. assert ((start <=? a_handle a) && (a_handle a <=? end_) = true) as -> by lia. cbn [andb].
      gatt_step. apply uuid_eq_wp; [done|by eapply Htyped|]. destruct (bool_decide (full type = full (a_uuid a))); cbn [negb andb]; [|exact Hskip]. destruct (sound_listed _ _ _ _ _ Sd s x Hx) as [_ Hreg].
      destruct (Hinit s x i a Hx Ha) as [b Hb]. gatt_step. eapply same_value_wp; [by eapply reg_values|done|]. destruct (bool_decide (bytes_of a = Some <$> value)); cbn [negb]; [|exact Hskip].
      do 2 gatt_step. gatt_step. eapply (val_att_wp w mtu _ s i x own a); [gatt_simpl; by rewrite W2|done|done|done|done|]. gatt_step. split; [done|]. split; [by eapply represents_frame|]. rewrite fmap_app. done.
    + lia.
    + by rewrite app_nil_r.
    + intros m2 [R2 W2]. exists Q. rewrite Elist. done.
  - intros m1 Q1 R1 [-> W1]. gatt_step. eapply wp_fetch; [done|]. do 2 gatt_step. gatt_step. apply HP; [by eapply represents_frame|]. gatt_simpl. rewrite W1. unfold finding, app_of. fold w. by destruct w.
Qed.

Lemma value_rsp_nil {A} (g : gatt A) mtu l : BT_ATT_DEFAULT_LE_MTU <= mtu -> zlen (value_rsp g mtu l) = 0 <-> l = [].
Proof.
  intros Hmtu. unfold BT_ATT_DEFAULT_LE_MTU in Hmtu. rewrite value_rsp_len by lia. pose proof (Z.div_le_lower_bound (mtu - 1) 4 5 ltac:(lia) ltac:(lia)). split; [|intros ->; change (zlen (@nil attr)) with 0; lia]. destruct l; [done|]. rewrite zlen_cons. pose proof (zlen_nonneg l). lia.
Qed.

Lemma find_by_type_val_wp m Q own d ss sv opcode pdu (P : () -> mem -> Prop) :
  sound m Q own d ss -> idle (app_of m) sv -> opcode <> 0 -> typed (world m) -> initialised (world m) -> is_bytes pdu -> BT_ATT_DEFAULT_LE_MTU <= att_mtu (v_att (app_of m)) <= UINT16_MAX -> (length ss < fuel)%nat ->
  (forall m', replies Q (value_answer (world m) (att_mtu (v_att (app_of m))) opcode pdu (listing (world m) ss)) m m' -> P () m') ->
  wp (find_by_type_val_cb fuel opcode pdu) P m.
Proof.
  intros Sd Hv Hop Hty Hinit Hb Hmtu Hf HP. pose proof Hv as (Hsv & _ & _ & _ & Hfd & _). pose proof (db_rep _ _ _ _ _ _ (sound_db _ _ _ _ _ Sd)) as R. unfold find_by_type_val_cb. gatt_step. eapply wp_get_mtu; [done|]. set (mtu := att_mtu _) in *.
  assert (forall m1 h e, represents ∅ m1 Q -> world m1 = world m -> (forall m', replies Q (error_rsp opcode h e) m m' -> P () m') -> wp (_ ← bt_att_send_error_rsp opcode h e; mret ()) P m1) as Hfail.
  { intros m1 h e R1 W1 HP1. assert (app_of m1 = app_of m) as Ea by (unfold app_of; by rewrite W1). gatt_step. eapply wp_error_rsp; [by rewrite Ea|done|]. intros _. gatt_step. apply HP1. split; [by eapply represents_frame|]. unfold put_app. gatt_simpl. by rewrite Ea, W1. }
  unfold value_answer in HP. revert HP. destruct (Z.ltb_spec (zlen pdu) 6) as [Hlt|Hge]; intros HP; [by apply Hfail|]. unfold zlen in Hge.
  gatt_step. eapply le16_at_wp; [apply get_word; lia|]. gatt_step. eapply le16_at_wp; [apply get_word; lia|]. gatt_step. eapply le16_at_wp; [apply get_word; lia|]. revert HP. destruct (_ <? _); intros HP; [by apply Hfail|].
  gatt_step. apply wp_change. set (m0 := put_app _ _). assert (world m0 = set_app (set_find (Some (find_data mtu [])) (app_of m)) (world m)) as W0 by done.
  assert (sound m0 Q own d ss) as S0 by (eapply (sound_transport m); [done|by eapply represents_frame|done|done]).
  assert (forall (x : Queue.M (option Z)) (k : Queue.M ()) P, wp (_ ← x; mret ()) (fun _ => wp k P) m0 -> wp (_ ← x; k) P m0) as Hdrop.
  { intros x k P0. unfold wp. unfold mbind, M_bind. destruct (x m0) as [[]| |]; done. }
  apply Hdrop. eapply (find_values_wp m0 Q own d ss (BT_UUID16 (word pdu 4)) (word pdu 0) (word pdu 2) (drop 6 pdu) mtu); [done|apply (word_range pdu 4); [done|lia]|done|done|done|done|done|].
  rewrite W0. change (value_rsp (set_app _ (world m))) with (value_rsp (world m)). change (listing (set_app _ (world m))) with (listing (world m)). set (l := (pick _ _ _ _).*1) in *. intros m1 R1 W1.
  gatt_step. eapply wp_look; [unfold app_of; by rewrite W1|]. cbn [find_data fv_len fv_ecode fv_pdu]. gatt_step. apply wp_change. set (m2 := put_app _ _).
  assert (world m2 = world m) as W2.
  { unfold m2, put_app, app_of. gatt_simpl. rewrite W1. gatt_simpl. transitivity (set_app (set_find None (g_app (world m))) (world m)); [done|]. by rewrite set_find_same, set_app_same. }
  assert (represents ∅ m2 Q) as R2 by (by eapply represents_frame). assert (app_of m2 = app_of m) as Ea by (unfold app_of; by rewrite W2).
  pose proof (value_rsp_nil (world m) mtu l ltac:(lia)) as Hnil. destruct (Z.eqb_spec (zlen (value_rsp (world m) mtu l)) 0) as [E|E]; cbn [negb Z.eqb].
  - apply Hnil in E. rewrite E in HP. by apply Hfail.
  - destruct l as [|p0 l0] eqn:El; [by destruct E; apply Hnil|]. rewrite <-El in *. gatt_step. unfold message. rewrite <-(zlen_fmap Some), buf_read. do 2 gatt_step. eapply wp_att_send; [by rewrite Ea|]. gatt_step. apply HP. split; [by eapply represents_frame|].
    unfold put_app. gatt_simpl. by rewrite Ea, W2.
Qed.
End ByValue.
