(* ===== verification/ServerMulti.v ===== *)
(** Read Multiple of the GATT server: the values of the attributes one after the other, up to the size of a
    message. *)

From stdpp Require Import gmap.
From S2P Require Import Prelude Util Alloc Queue QueueSpec QueueMain Uuid GattDb GattAccess GattSpec GattDestroy GattServices GattAttrs GattFind GattRequests GattMain GattRun.
From S2P Require Import ServerState ServerFind ServerAccess ServerSteps ServerReads ServerSearch ServerEncode ServerGroups.

(** ** The answer *)

(** The response after the values [pre], from the attribute [a] and the handles behind it on. *)
Fixpoint multi_loop (check : gatt_db_attribute -> Z) (look : Z -> option gatt_db_attribute) (mtu : Z) (pre : raw) (a : gatt_db_attribute) (hs : list Z) : pdu_of :=
  if negb (check a =? 0) then error_rsp BT_ATT_OP_READ_MULT_REQ (a_handle a) (check a)
  else
    let pre := pre ++ take (Z.to_nat (mtu - 1 - zlen pre)) (bytes_of a) in
    if mtu - 1 <=? zlen pre then (BT_ATT_OP_READ_MULT_RSP, pre)
    else
      match hs with
      | [] => (BT_ATT_OP_READ_MULT_RSP, pre)
      | h :: hs =>
          match look h with
          | None => error_rsp BT_ATT_OP_READ_MULT_REQ h BT_ATT_ERROR_INVALID_HANDLE
          | Some b => multi_loop check look mtu pre b hs
          end
      end.

(** The handles of a request. *)
Definition request_handles (pdu : bytes) : list Z := (fun i => word pdu (i * 2)) <$> seq 0 (Z.to_nat (zlen pdu / 2)).

Definition multi_answer (check : gatt_db_attribute -> Z) (look : Z -> option gatt_db_attribute) (mtu opcode : Z) (pdu : bytes) : pdu_of :=
  if zlen pdu <? 4 then error_rsp opcode 0 BT_ATT_ERROR_INVALID_PDU
  else
    match request_handles pdu with
    | [] => error_rsp opcode 0 BT_ATT_ERROR_INVALID_PDU
    | h :: hs => match look h with None => error_rsp opcode 0 BT_ATT_ERROR_INVALID_HANDLE | Some a => multi_loop check look mtu [] a hs end
    end.

(** ** Attributes by handle *)

(** The attribute with a handle, of any service. *)
Definition entries {A} (g : gatt A) (ss : list ptr) : list (attr * gatt_db_attribute) :=
  ss ≫= fun s => match g_services g !! s with Some x => attrs_from s 0 (s_attributes x) | None => [] end.
Definition place_of {A} (g : gatt A) (ss : list ptr) (h : Z) : option (attr * gatt_db_attribute) := head (filter (fun pa => a_handle pa.2 = h) (entries g ss)).
Definition at_handle {A} (g : gatt A) (ss : list ptr) (h : Z) : option gatt_db_attribute := snd <$> place_of g ss h.

Lemma entries_elem {A} (g : gatt A) ss p a : (p, a) ∈ entries g ss <-> p.1 ∈ ss /\ exists x, g_services g !! p.1 = Some x /\ s_attributes x !! p.2 = Some (Attr a).
Proof.
  unfold entries. rewrite list_elem_of_bind. split.
  - intros (s & Hin & Hs). destruct (g_services g !! s) as [x|] eqn:Hx; [|by apply elem_of_nil in Hin]. apply attrs_from_lookup in Hin as (j & -> & Hj). split; [done|]. by exists x.
  - destruct p as [s i]. cbn. intros (Hs & x & Hx & Ha). exists s. rewrite Hx. split; [|done]. apply attrs_from_lookup. by exists i.
Qed.

Section Multi.
Context `{!Allocator} {T U : Type} `{!Transport T} (user : App (srv T U)) (fuel : nat).
Abbreviation mem := (Queue.mem (gatt (srv T U))).
Implicit Types (m : mem) (w : gatt (srv T U)) (Q : gmap ptr (Z * entry_list)) (v : srv T U) (sv : bt_gatt_server).

(** The state while the request is pending. *)
Definition with_multi (p : ptr) (data : read_multiple_resp_data) v : srv T U := set_multis (<[p := data]> (v_multis v)) v.

Lemma multi_free_wp p data v t (P : () -> mem -> Prop) m : v_multis v !! p = None -> app_of m = set_att t (with_multi p data v) -> P () (put_app (set_att t v) m) -> wp (read_multiple_resp_data_free p) P m.
Proof.
  intros Hp Ha HP. unfold read_multiple_resp_data_free, load_multi. gatt_step. eapply wp_look; [rewrite Ha; apply lookup_insert_eq|]. apply wp_change. rewrite Ha.
  replace (set_multis _ _) with (set_att t v); [done|]. unfold with_multi, set_multis, set_att. cbn. rewrite delete_insert_eq, delete_id by done. by destruct v.
Qed.
Lemma multi_reply_wp p data sv v r (P : () -> mem -> Prop) m : v_server v = Some sv -> v_multis v !! p = None -> app_of m = with_multi p data v -> P () (put_app (sent r v) m) -> wp (_ ← send r.1 r.2; read_multiple_resp_data_free p) P m.
Proof. intros Hs Hp Ha HP. gatt_step. eapply wp_send; [by rewrite Ha|]. eapply (multi_free_wp p data v (att_send r.1 r.2 (v_att v)).2); [done|by rewrite Ha|]. by rewrite put_app_twice. Qed.
Lemma multi_error_wp p data sv v h e (P : () -> mem -> Prop) m : v_server v = Some sv -> v_multis v !! p = None -> app_of m = with_multi p data v ->
  forall opcode, opcode <> 0 -> P () (put_app (sent (error_rsp opcode h e) v) m) -> wp (_ ← send_error opcode h e; read_multiple_resp_data_free p) P m.
Proof.
  intros Hs Hp Ha opcode Hop HP. gatt_step. eapply wp_send_error; [by rewrite Ha|done|]. eapply (multi_free_wp p data v (att_send (error_rsp opcode h e).1 (error_rsp opcode h e).2 (v_att v)).2); [done|by rewrite Ha|]. by rewrite put_app_twice.
Qed.

(** The database, whatever the state of the server is. *)
Lemma sound_beside m m' Q own d ss v : sound m Q own d ss -> represents ∅ m' Q -> world m' = set_app v (world m) -> sound m' Q own d ss.
Proof. intros Sd R W. eapply (sound_transport m); [done|done|done|by rewrite W]. Qed.

(** What is left to do with the next handle. *)
Definition read_next (app : App (srv T U)) (p : ptr) (handles : list Z) (k : Z) : Queue.M (W := gatt (srv T U)) () :=
  next_handle ← lift (mem_get handles k);
  _ ← load_server;
  o ← gatt_db_get_attribute next_handle;
  match o with
  | None => _ ← send_error BT_ATT_OP_READ_MULT_REQ next_handle BT_ATT_ERROR_INVALID_HANDLE; read_multiple_resp_data_free p
  | Some next_attr =>
      gatt_db_attribute_read (Some next_attr) 0 BT_ATT_OP_READ_MULT_REQ 0 (Some read_multiple_complete) (addr p) ≫= fun ok : bool =>
      if ok then mret () else _ ← send_error BT_ATT_OP_READ_MULT_REQ next_handle BT_ATT_ERROR_UNLIKELY; read_multiple_resp_data_free p
  end.

(** One attribute was read. *)
Lemma multi_step_wp app p handles k pre rest mtu sv v w Q s i x a value m (P : () -> mem -> Prop) : let check := fun a => access_of v sv a READ_MASK in
  let pre' := pre ++ take (Z.to_nat (mtu - 1 - zlen pre)) (bytes_of a) in
  v_server v = Some sv -> v_multis v !! p = None -> 1 <= mtu <= UINT16_MAX -> zlen (pre ++ rest) = mtu - 1 -> zlen pre < mtu - 1 -> represents ∅ m Q ->
  world m = set_app (with_multi p (mk_multi handles k (zlen handles) (pre ++ rest) (zlen pre) mtu) v) w ->
  g_services w !! s = Some x -> s_attributes x !! i = Some (Attr a) -> value_ok a -> default [] value = bytes_of a ->
  (check a <> 0 -> forall m', represents ∅ m' Q -> world m' = set_app (sent (error_rsp BT_ATT_OP_READ_MULT_REQ (a_handle a) (check a)) v) w -> P () m') ->
  (check a = 0 -> mtu - 1 <= zlen pre' \/ k + 1 = zlen handles -> forall m', represents ∅ m' Q -> world m' = set_app (sent (BT_ATT_OP_READ_MULT_RSP, pre') v) w -> P () m') ->
  (check a = 0 -> zlen pre' < mtu - 1 -> k + 1 <> zlen handles -> forall m' rest', represents ∅ m' Q -> zlen (pre' ++ rest') = mtu - 1 ->
    world m' = set_app (with_multi p (mk_multi handles (k + 1) (zlen handles) (pre' ++ rest') (zlen pre') mtu) v) w -> wp (read_next app p handles (k + 1)) P m') ->
  wp (read_multiple_complete_cb (app := app) (s, i) 0 value (a_value_len a) p) P m.
Proof.
  intros check pre' Hsv Hp Hmtu Hbuf Hpre R Hm Hx Ha Hok Hval Herr Hdone Hnext. unfold UINT16_MAX in Hmtu. set (data := mk_multi _ _ _ _ _ _) in *.
  assert (app_of m = with_multi p data v) as Happ by (unfold app_of; by rewrite Hm). unfold read_multiple_complete_cb, load_multi. gatt_step. eapply wp_look; [rewrite Happ; apply lookup_insert_eq|]. gatt_step.
  eapply get_handle_wp; [by rewrite Hm|done|]. change (0 =? 0) with true. cbn [negb]. gatt_step. eapply check_permissions_wp; [by rewrite Happ|by rewrite Hm|done|]. rewrite Happ. change (access _ _ _ _ _) with (check a).
  destruct (Z.eqb_spec (check a) 0) as [E|E]; cbn [negb].
  2: { eapply (multi_error_wp p data sv v); [done|done|done|done|]. apply Herr; [done|by eapply represents_frame|]. unfold put_app. gatt_simpl. by rewrite Hm. }
  cbn [data rm_mtu rm_length rm_rsp_data rm_handles rm_cur_handle rm_num_handles]. pose proof (bytes_of_length a Hok) as Hl. pose proof (zlen_nonneg (bytes_of a)) as Hnn. pose proof (zlen_nonneg pre) as Hpn. rewrite !u64_small by (unfold u64; lia).
  set (len := Z.min (a_value_len a) (mtu - zlen pre - 1)). assert (take (Z.to_nat (mtu - 1 - zlen pre)) (bytes_of a) = take (Z.to_nat len) (bytes_of a)) as Etake.
  { unfold len, zlen in *. destruct (decide (a_value_len a <= mtu - 1 - Z.of_nat (length pre))); [rewrite !take_ge by lia; done|f_equal; lia]. }
  gatt_step. unfold copy_from. rewrite mem_read_ok by (rewrite ?Hval; lia). rewrite Hval. change (Z.to_nat 0) with 0%nat. rewrite drop_0, <-Etake. do 2 gatt_step. rewrite zlen_app in Hbuf.
  assert (zlen (take (Z.to_nat (mtu - 1 - zlen pre)) (bytes_of a)) = len) as Hlen by (rewrite Etake; unfold len, zlen in *; rewrite length_take; lia).
  rewrite buf_write by (rewrite Hlen; lia). fold pre'. gatt_step. gatt_step. apply wp_change. set (m1 := put_app _ _). assert (zlen pre + len = zlen pre') as El by (unfold pre'; rewrite zlen_app; lia).
  set (rest' := drop _ rest). assert (zlen (pre' ++ rest') = mtu - 1) as Hbuf'.
  { rewrite zlen_app, <-El. unfold rest', zlen in *. rewrite length_drop. lia. }
  assert (world m1 = set_app (with_multi p (mk_multi handles (k + 1) (zlen handles) (pre' ++ rest') (zlen pre') mtu) v) w) as W1.
  { unfold m1, put_app. gatt_simpl. rewrite Happ, Hm, El. unfold with_multi, set_multis. cbn. by rewrite insert_insert_eq. }
  assert (represents ∅ m1 Q) as R1 by (by eapply represents_frame). rewrite El. rewrite zlen_app in Hbuf'. pose proof (zlen_nonneg rest').
  destruct (_ || _) eqn:Eend.
  - gatt_step. unfold message. rewrite u16_small by (pose proof (zlen_nonneg pre'); unfold in_range; lia). rewrite buf_read. gatt_step.
    eapply (multi_reply_wp p _ sv v (BT_ATT_OP_READ_MULT_RSP, pre')); [done|done|unfold app_of; by rewrite W1|]. apply Hdone; [done|lia|by eapply represents_frame|]. unfold put_app. gatt_simpl. by rewrite W1.
  - apply (Hnext E ltac:(lia) ltac:(lia) m1 rest' R1); [rewrite zlen_app; lia|done].
Qed.

(** What a function that knows the database says about a handle. *)
Lemma look_none m look h : (forall h, found (world m) h (look h)) -> found (world m) h None -> look h = None.
Proof. intros Hl Hno. specialize (Hl h). destruct (look h) as [a|]; [|done]. destruct Hl as (s & i & x & Hx & Ha & E). destruct (Hno (s, i)). by exists x, a. Qed.
Lemma look_some m Q own d ss look h a : sound m Q own d ss -> (forall h, found (world m) h (look h)) -> found (world m) h (Some a) -> look h = Some a.
Proof.
  intros Sd Hl Ha. specialize (Hl h). destruct (look h) as [b|]; [f_equal; by eapply found_unique|]. destruct Ha as (s & i & x & Hx & Ha & E). destruct (Hl (s, i)). by exists x, a.
Qed.

(** The reads, from the one that has ended on. *)
Lemma multi_loop_wp m0 Q own d ss sv look p handles mtu : let v := app_of m0 in let check := fun a => access_of v sv a READ_MASK in
  sound m0 Q own d ss -> plain (world m0) -> v_server v = Some sv -> v_multis v !! p = None -> 1 <= mtu <= UINT16_MAX -> (forall h, found (world m0) h (look h)) ->
  forall hs n k pre rest s i x a value m (P : () -> mem -> Prop), drop (S k) handles = hs -> (length hs <= n)%nat -> (k < length handles)%nat -> zlen (pre ++ rest) = mtu - 1 -> zlen pre < mtu - 1 ->
  represents ∅ m Q -> world m = set_app (with_multi p (mk_multi handles (Z.of_nat k) (zlen handles) (pre ++ rest) (zlen pre) mtu) v) (world m0) ->
  g_services (world m0) !! s = Some x -> s_attributes x !! i = Some (Attr a) -> default [] value = bytes_of a ->
  (forall m', represents ∅ m' Q -> world m' = set_app (sent (multi_loop check look mtu pre a hs) v) (world m0) -> P () m') ->
  wp (read_multiple_complete_cb (app := server_app user fuel n) (s, i) 0 value (a_value_len a) p) P m.
Proof.
  intros v check Sd Hpl Hsv Hp Hmtu Hlook. induction hs as [|h hs IH]; intros n k pre rest s i x a value m P Hhs Hn Hk Hbuf Hpre R Hm Hx Ha Hval HP.
  all: assert (value_ok a) as Hok by (destruct (sound_listed _ _ _ _ _ Sd s x Hx) as [_ Hreg]; by eapply reg_values).
  all: eapply (multi_step_wp _ p handles (Z.of_nat k) pre rest mtu sv v (world m0) Q s i x a value m); [done|done|done|done|done|done|done|done|done|done|done|..].
  all: change (access_of v sv a READ_MASK) with (check a); cbn [multi_loop] in HP.
  - intros E. rewrite (proj2 (Z.eqb_neq _ 0)) in HP by done. exact HP.
  - intros E _. rewrite E in HP. cbn [Z.eqb negb] in HP. destruct (_ <=? _); exact HP.
  - intros _ _ Hne. exfalso. apply Hne. assert (length (drop (S k) handles) = 0%nat) as E by (by rewrite Hhs). rewrite length_drop in E. unfold zlen. lia.
  - intros E. rewrite (proj2 (Z.eqb_neq _ 0)) in HP by done. exact HP.
  - intros E [Hfull|Hend].
    + rewrite E in HP. cbn [Z.eqb negb] in HP. rewrite (proj2 (Z.leb_le _ _)) in HP by done. exact HP.
    + exfalso. assert (length (drop (S k) handles) = S (length hs)) as E' by (by rewrite Hhs). rewrite length_drop in E'. unfold zlen in Hend. lia.
  - intros E Hroom _ m1 rest' R1 Hbuf1 W1. rewrite E in HP. cbn [Z.eqb negb] in HP. rewrite (proj2 (Z.leb_gt _ _)) in HP by done. set (pre' := pre ++ take _ _) in *.
    assert (handles !! S k = Some h /\ drop (S (S k)) handles = hs) as [Hh Hhs'].
    { split; [by rewrite <-(Nat.add_0_r (S k)), <-lookup_drop, Hhs|]. replace (S (S k)) with (S k + 1)%nat by lia. by rewrite <-drop_drop, Hhs. }
    assert (app_of m1 = with_multi p (mk_multi handles (Z.of_nat k + 1) (zlen handles) (pre' ++ rest') (zlen pre') mtu) v) as Ha1 by (unfold app_of; by rewrite W1).
    unfold read_next. assert (mem_get handles (Z.of_nat k + 1) = Ret h) as -> by (replace (Z.of_nat k + 1) with (Z.of_nat (S k)) by lia; by apply mem_get_nat). do 2 gatt_step. gatt_step. eapply wp_load_server; [by rewrite Ha1|]. gatt_step.
    eapply lookup_wp; [by eapply (sound_beside m0)|..].
    + intros Hno. rewrite W1 in Hno. rewrite (look_none m0 look h) in HP by done. eapply (multi_error_wp p _ sv v); [done|done|done|done|]. apply HP; [by eapply represents_frame|]. unfold put_app. gatt_simpl. by rewrite W1.
    + intros t j y b Ht Hy _ Hb Eh. rewrite W1 in Hy. change (g_services (world m0) !! t = Some y) in Hy. assert (look h = Some b) as El by (eapply (look_some m0 Q own d ss); [done|done|]; exists t, j, y; by split_and!). rewrite El in HP.
      destruct n as [|n]; [cbn in Hn; lia|]. destruct (sound_listed _ _ _ _ _ Sd t y Hy) as [_ Hreg]. pose proof (reg_values _ Hreg _ _ Hb) as Hokb. pose proof (bytes_of_length b Hokb) as Hlb. gatt_step.
      eapply (stored_read_wp (app := server_app user fuel (S n)) t j y b); [by rewrite W1|done|by eapply Hpl|done|done|pose proof (zlen_nonneg (bytes_of b)); lia|]. intros _ val' Hval'. change (Z.to_nat 0) with 0%nat in Hval'. rewrite drop_0 in Hval'. rewrite Z.sub_0_r.
      cbn [call server_app]. unfold dispatch. rewrite !decide_False, decide_True by done. do 2 gatt_step.
      eapply (IH n (S k) pre' rest' t j y b val' m1); [done|cbn in Hn; lia|apply lookup_lt_Some in Hh; lia|done|lia|done| |done|done|done|].
      { rewrite W1. by replace (Z.of_nat (S k)) with (Z.of_nat k + 1) by lia. }
      intros m' R' W'. gatt_step. by apply HP.
Qed.

Lemma place_of_found m Q own d ss h : sound m Q own d ss ->
  match place_of (world m) ss h with
  | Some (p, a) => exists x, g_services (world m) !! p.1 = Some x /\ s_attributes x !! p.2 = Some (Attr a) /\ a_handle a = h
  | None => found (world m) h None
  end.
Proof.
  intros Sd. unfold place_of. destruct (filter _ _) as [|[p a] l] eqn:E; cbn.
  - intros [s i] Hp. pose proof Hp as (x & a & Hx & Ha & Eh). cbn in Hx, Ha. assert (((s, i), a) ∈ filter (fun pa : attr * gatt_db_attribute => a_handle pa.2 = h) (entries (world m) ss)) as Hin; [|rewrite E in Hin; by apply elem_of_nil in Hin].
    apply list_elem_of_filter. split; [done|]. apply entries_elem. split; [|by exists x]. by eapply (sound_listed _ _ _ _ _ Sd).
  - assert ((p, a) ∈ filter (fun pa : attr * gatt_db_attribute => a_handle pa.2 = h) (entries (world m) ss)) as Hin by (rewrite E; by left). apply list_elem_of_filter in Hin as [Eh (_ & x & Hx & Ha)%entries_elem]. by exists x.
Qed.
Lemma at_handle_found m Q own d ss : sound m Q own d ss -> forall h, found (world m) h (at_handle (world m) ss h).
Proof. intros Sd h. pose proof (place_of_found m Q own d ss h Sd) as Hp. unfold at_handle. destruct (place_of _ _ _) as [[[s i] a]|]; [|done]. destruct Hp as (x & Hx & Ha & Eh). by exists s, i, x. Qed.

Lemma get_handles_wp pdu n : forall i (P : list Z -> mem -> Prop) m, (2 * (i + n) <= length pdu)%nat -> P ((fun j => word pdu (j * 2)) <$> seq i n) m -> wp (get_handles n pdu i) P m.
Proof.
  induction n as [|n IH]; intros i P m Hlen HP; cbn [get_handles]; [by gatt_step|]. gatt_step. eapply le16_at_wp; [apply get_word; lia|]. gatt_step. apply IH; [lia|]. gatt_step. exact HP.
Qed.

Lemma read_multiple_wp n m Q own d ss sv look opcode pdu (P : () -> mem -> Prop) :
  sound m Q own d ss -> idle (app_of m) sv -> opcode <> 0 -> plain (world m) -> BT_ATT_DEFAULT_LE_MTU <= att_mtu (v_att (app_of m)) <= UINT16_MAX -> (forall h, found (world m) h (look h)) -> zlen pdu / 2 <= Z.of_nat n ->
  (forall m' r, replies Q r m m' -> r = multi_answer (fun a => access_of (app_of m) sv a READ_MASK) look (att_mtu (v_att (app_of m))) opcode pdu \/
    (refused /\ r = error_rsp opcode 0 BT_ATT_ERROR_UNLIKELY) -> P () m') ->
  wp (read_multiple_cb (app := server_app user fuel (S n)) opcode pdu) P m.
Proof.
  intros Sd Hv Hop Hpl Hmtu Hlook Hf HP. pose proof Hv as (Hsv & _). pose proof (db_rep _ _ _ _ _ _ (sound_db _ _ _ _ _ Sd)) as R. unfold BT_ATT_DEFAULT_LE_MTU in Hmtu. unfold read_multiple_cb.
  assert (forall m1 h e, represents ∅ m1 Q -> world m1 = world m -> (forall m', replies Q (error_rsp opcode h e) m m' -> P () m') -> wp (send_error opcode h e) P m1) as Hfail.
  { intros m1 h e R1 W1 HP1. assert (app_of m1 = app_of m) as Ea by (unfold app_of; by rewrite W1). eapply wp_send_error; [by rewrite Ea|done|]. apply HP1. split; [by eapply represents_frame|]. unfold put_app. gatt_simpl. by rewrite Ea, W1. }
  assert (forall m', replies Q (multi_answer (fun a => access_of (app_of m) sv a READ_MASK) look (att_mtu (v_att (app_of m))) opcode pdu) m m' -> P () m') as HP1 by (intros m' Hr; by eapply HP; [done|left]).
  unfold multi_answer in HP1. revert HP1. destruct (Z.ltb_spec (zlen pdu) 4) as [Hlt|Hge]; intros HP1; [by apply Hfail|]. do 2 gatt_step. intros p Hp%not_elem_of_dom. gatt_step. eapply wp_get_mtu; [done|]. do 2 gatt_step.
  set (mtu := att_mtu _) in *.
  intros b Hb. destruct b; cbn [negb].
  2: { destruct Hb as [|Hb]; [done|]. apply Hfail; [by eapply represents_frame|done|]. intros m' Hr. eapply HP; [done|]. by right. }
  do 2 gatt_step. intros _ _. assert (2 <= zlen pdu / 2 /\ 2 * (zlen pdu / 2) <= zlen pdu) as [Hn2 Hn].
  { pose proof (Z.div_le_lower_bound (zlen pdu) 2 2). pose proof (Z.mul_div_le (zlen pdu) 2). lia. }
  gatt_step. apply get_handles_wp; [unfold zlen in *; lia|]. fold (request_handles pdu). assert (zlen (request_handles pdu) = zlen pdu / 2) as Hzl by (unfold request_handles, zlen at 1; rewrite length_fmap, length_seq; lia). rewrite <-Hzl.
  gatt_step. apply wp_change. set (m1 := put_app _ _). revert HP1. destruct (request_handles pdu) as [|h hs] eqn:Ehs; intros HP1; [unfold zlen in *; cbn in *; lia|].
  set (data := mk_multi _ _ _ _ _ _) in m1. assert (world m1 = set_app (with_multi p data (app_of m)) (world m)) as W1 by done. assert (represents ∅ m1 Q) as R1 by (by eapply represents_frame).
  assert (app_of m1 = with_multi p data (app_of m)) as Ha1 by done. change (mem_get (h :: hs) 0) with (Ret h). do 2 gatt_step. gatt_step. eapply wp_load_server; [by rewrite Ha1|]. gatt_step.
  eapply lookup_wp; [by eapply (sound_beside m)|..].
  - intros Hno. rewrite (look_none m look h) in HP1 by done. gatt_step. eapply (multi_free_wp p data (app_of m) (v_att (app_of m))); [done|by rewrite Ha1; destruct (app_of m)|]. apply Hfail; [by eapply represents_frame| |done].
    unfold put_app. gatt_simpl. rewrite W1. gatt_simpl. replace (set_att _ _) with (g_app (world m)) by (unfold app_of; by destruct (g_app (world m))). exact (set_app_same (world m)).
  - intros s i x a Hs Hx _ Ha Eh. assert (look h = Some a) as El by (eapply (look_some m Q own d ss); [done|done|]; exists s, i, x; by split_and!). rewrite El in HP1.
    destruct (sound_listed _ _ _ _ _ Sd s x Hx) as [_ Hreg]. pose proof (reg_values _ Hreg _ _ Ha) as Hok. pose proof (bytes_of_length a Hok) as Hla. gatt_step.
    eapply (stored_read_wp (app := server_app user fuel (S n)) s i x a); [done|done|by eapply Hpl|done|done|pose proof (zlen_nonneg (bytes_of a)); lia|]. intros _ val' Hval'. change (Z.to_nat 0) with 0%nat in Hval'. rewrite drop_0 in Hval'. rewrite Z.sub_0_r.
    cbn [call server_app]. unfold dispatch. rewrite !decide_False, decide_True by done. do 2 gatt_step.
    eapply (multi_loop_wp m Q own d ss sv look p (h :: hs) mtu Sd Hpl Hsv Hp ltac:(lia) Hlook hs n 0 [] (buffer (mtu - 1)) s i x a val' m1); [done| |cbn; lia|apply buffer_zlen; lia|change (zlen []) with 0; lia|done|done|done|done|done|].
    { unfold zlen in *. cbn [length] in *. lia. }
    intros m' R' W'. gatt_step. apply HP1. split; [done|exact W'].
Qed.
End Multi.
