(* ===== verification/ServerPrep.v ===== *)
(** Prepared writes of the GATT server: the extended properties that are asked for before one; pieces that follow each
    other are put together; Execute Write does them in their order, each from the callback of the one before it. *)

From stdpp Require Import gmap.
From S2P Require Import Prelude Util Alloc Queue QueueSpec QueueMain Uuid GattDb GattAccess GattSpec GattDestroy GattServices GattAttrs GattFind GattRequests GattMain GattRun.
From S2P Require Import ServerState ServerFind ServerAccess ServerSteps ServerReads ServerSearch ServerEncode ServerGroups ServerByValue ServerMulti.

(** ** What the descriptors say *)

Definition of_type (type : bt_uuid_t) (a : gatt_db_attribute) : bool := bool_decide (full type = full (a_uuid a)).
Definition first_byte (a : gatt_db_attribute) : Z := match bytes_of a with Some b :: _ => b | _ => 0 end.

(** The descriptors of the characteristic at the index [i]: behind its value, up to the next declaration. *)
Definition descriptors (s : ptr) (x : gatt_db_service) (i : nat) : list (attr * gatt_db_attribute) :=
  prefix_with (fun pa => negb (of_type characteristic_uuid pa.2 || of_type included_service_uuid pa.2)) (attrs_from s (i + 2) (drop (i + 2) (s_attributes x))).

(** The first descriptor of extended properties with two bytes of which the first is not 0. *)
Definition ext_step (cur : Z) (a : gatt_db_attribute) : Z :=
  if (cur =? 0) && of_type ext_desc_uuid a && (a_value_len a =? 2) then first_byte a else cur.
Definition ext_props (l : list gatt_db_attribute) : Z := foldl ext_step 0 l.

Definition char_ext_prop (s : ptr) (x : gatt_db_service) (i : nat) (a : gatt_db_attribute) : option Z :=
  if negb (of_type characteristic_uuid a) then None
  else
    match a_value a with
    | None => None
    | Some _ =>
        if negb (a_value_len a =? 5) && negb (a_value_len a =? 19) then None
        else Some (if has (first_byte a) BT_GATT_CHRC_PROP_EXT_PROP then u8 (ext_props (descriptors s x i).*2) else 0)
    end.

(** Whether reliable writes are supported by the characteristic that is declared at a handle. *)
Definition reliable {A} (g : gatt A) (h : Z) (r : bool) : Prop :=
  (r = false /\ forall p, ~ handle_of g p h) \/
  (exists s i x a, g_services g !! s = Some x /\ s_attributes x !! i = Some (Attr a) /\ a_handle a = h /\
    r = match char_ext_prop s x i a with Some e => has e BT_GATT_CHRC_EXT_PROP_RELIABLE_WRITE | None => false end).

Section Ext.
Context `{!Allocator} {T U : Type} `{!Transport T} (user : App (srv T U)) (fuel : nat).
Abbreviation mem := (Queue.mem (gatt (srv T U))).
Implicit Types (m : mem) (w : gatt (srv T U)) (v : srv T U) (sv : bt_gatt_server).

(** The first byte of a value of at least one byte. *)
Lemma first_byte_get a (b : bytes) (v : raw) : value_ok a -> bytes_of a = Some <$> b -> a_value a = Some v -> 1 <= a_value_len a -> mem_get v 0 = Ret (Some (first_byte a)).
Proof.
  intros Hok Hb Hv Hl. unfold first_byte. unfold value_ok, bytes_of in *. rewrite Hv in *. change (default [] (Some v)) with v in *. destruct v as [|o v]; [unfold zlen in Hok; cbn in Hok; lia|].
  destruct (Z.to_nat (a_value_len a)) eqn:E; [lia|]. cbn [take] in *. destruct b as [|c b]; [done|]. by injection Hb as -> _.
Qed.


(** The state while the variable [ext_prop] is [e]. *)
Definition asking w (e : Z) : gatt (srv T U) := set_app (set_ext_prop (Some e) (g_app w)) w.

Lemma read_ext_prop_wp n w e s i x a (b : bytes) (P : () -> mem -> Prop) m : world m = asking w e -> g_services w !! s = Some x -> s_attributes x !! i = Some (Attr a) ->
  a_read_func a = None -> uuid_ok (a_uuid a) -> value_ok a -> bytes_of a = Some <$> b -> P () (with_gatt (asking w (ext_step e a)) m) -> wp (read_ext_prop (app := server_app user fuel (S n)) (s, i)) P m.
Proof.
  intros Hm Hx Ha Hrf Hu Hok Hb HP. assert (with_gatt (asking w e) m = m) as Hsame by (rewrite <-Hm; by destruct m). unfold read_ext_prop. gatt_step. eapply wp_look; [unfold app_of; by rewrite Hm|]. unfold ext_step in HP.
  destruct (Z.eqb_spec e 0) as [->|E]; cbn [negb andb] in *; [|gatt_step; by rewrite Hsame in HP]. gatt_step. eapply wp_load_attr; [by rewrite Hm|done|]. gatt_step. apply uuid_eq_wp; [done|done|].
  fold (of_type ext_desc_uuid a). destruct (of_type ext_desc_uuid a); cbn [negb andb] in *; [|gatt_step; by rewrite Hsame in HP]. gatt_step. pose proof (bytes_of_length a Hok) as Hlen. pose proof (zlen_nonneg (bytes_of a)) as Hnn.
  eapply (stored_read_wp (app := server_app user fuel (S n)) s i x a); [by rewrite Hm|done|done|done|done|lia|]. intros _ value Hval. change (Z.to_nat 0) with 0%nat in Hval. rewrite drop_0 in Hval. rewrite Z.sub_0_r.
  cbn [call server_app]. unfold dispatch. rewrite !decide_False, decide_True by done. unfold read_ext_prop_value. change (0 =? 0) with true. cbn [negb orb].
  destruct (Z.eqb_spec (a_value_len a) 2) as [E2|E2]; cbn [negb]; [|do 2 gatt_step; by rewrite Hsame in HP].
  destruct value as [o|]; [|rewrite <-Hval in Hlen; change (zlen (default [] None)) with 0 in Hlen; lia]. change (default [] (Some o)) with o in Hval. do 3 gatt_step.
  unfold first_byte in HP. rewrite <-Hval in *. destruct b as [|c b]; [destruct o; [unfold zlen in Hlen; cbn in Hlen; lia|done]|]. rewrite Hb in *. change (mem_get (Some <$> c :: b) 0) with (Ret (Some c)). do 4 gatt_step.
  eapply wp_look; [unfold app_of; by rewrite Hm|]. apply wp_change. gatt_step. replace (put_app _ m) with (with_gatt (asking w c) m); [exact HP|]. unfold put_app, app_of. by rewrite Hm.
Qed.

Lemma ext_prop_wp n w own s i x a (P : Z -> mem -> Prop) m : world m = w -> v_ext_prop (g_app w) = None -> plain w -> typed w -> initialised w ->
  g_services w !! s = Some x -> service_ok own s x -> regular x -> s_attributes x !! i = Some (Attr a) -> of_type characteristic_uuid a = true -> is_Some (a_value a) -> 1 <= a_value_len a ->
  P (if has (first_byte a) BT_GATT_CHRC_PROP_EXT_PROP then u8 (ext_props (descriptors s x i).*2) else 0) m ->
  wp (get_char_extended_prop (app := server_app user fuel (S n)) (s, i)) P m.
Proof.
  intros Hm Hext Hpl Hty Hinit Hx Hok Hreg Ha Htype [val Hval] Hlen HP. destruct (Hinit s x i a Hx Ha) as [b' Hb]. pose proof (reg_values _ Hreg _ _ Ha) as Hv. unfold get_char_extended_prop. gatt_step. eapply wp_load_attr; [by rewrite Hm|done|]. gatt_step.
  apply uuid_eq_wp; [done|by eapply Hty|]. fold (of_type characteristic_uuid a). rewrite Htype. cbn [negb]. rewrite Hval. do 3 gatt_step. rewrite (first_byte_get a b' val) by done. do 3 gatt_step.
  destruct (has _ _); cbn [negb]; [|by gatt_step]. gatt_step. apply wp_change. set (m0 := put_app _ m). assert (world m0 = asking w 0) as W0 by (unfold m0, put_app, app_of; gatt_simpl; by rewrite Hm).
  unfold gatt_db_service_foreach_desc. do 2 gatt_step. eapply wp_load_attr; [by rewrite W0|done|]. gatt_step. apply uuid_eq_wp; [done|by eapply Hty|]. fold (of_type characteristic_uuid a). rewrite Htype. cbn [negb fst snd]. gatt_step. eapply wp_load_service; [by rewrite W0|].
  pose proof (so_size _ _ _ Hok) as Hsize. unfold zlen in Hsize.
  eapply (for_attributes_until s x own _ (fun a => of_type characteristic_uuid a || of_type included_service_uuid a) (fun l m1 => m1 = with_gatt (asking w (ext_props l.*2)) m)); [done|by intros l m1 ->| | | |].
  - intros l j c m1 Hc ->. gatt_step. apply uuid_eq_wp; [done|by eapply Hty|]. fold (of_type characteristic_uuid c). destruct (of_type characteristic_uuid c); cbn [orb negb]; [by gatt_step|]. gatt_step. apply uuid_eq_wp; [done|by eapply Hty|].
    fold (of_type included_service_uuid c). destruct (of_type included_service_uuid c); cbn [negb]; [by gatt_step|]. destruct (Hinit s x j c Hx Hc) as [bc Hbc]. gatt_step.
    eapply (read_ext_prop_wp n w _ s j x c bc); [done|done|done|by eapply Hpl|by eapply Hty|by eapply reg_values|done|]. gatt_step. split; [done|]. rewrite fmap_app. unfold ext_props. by rewrite foldl_app.
  - lia.
  - instantiate (1 := []). unfold m0, put_app, app_of. by rewrite Hm.
  - intros m1 ->. fold (descriptors s x i). rewrite app_nil_l. gatt_step. eapply wp_look; [done|]. gatt_step. apply wp_change. gatt_step. replace (put_app _ _) with m; [done|]. unfold put_app, app_of, asking. gatt_simpl.
    destruct m as [qs cs rs wd]. cbn in *. subst wd. transitivity (mk_mem qs cs rs (set_app (set_ext_prop None (g_app w)) w)); [by rewrite set_ext_prop_same, set_app_same|done].
Qed.

(** Whether a characteristic supports reliable writes. *)
Lemma reliable_wp n m Q own d ss sv h (P : bool -> mem -> Prop) : sound m Q own d ss -> v_server (app_of m) = Some sv -> v_ext_prop (app_of m) = None -> plain (world m) -> typed (world m) -> initialised (world m) ->
  (forall r, reliable (world m) h r -> P r m) -> wp (is_reliable_write_supported (app := server_app user fuel (S n)) h) P m.
Proof.
  intros Sd Hsv Hext Hpl Hty Hinit HP. unfold is_reliable_write_supported. gatt_step. eapply wp_load_server; [done|]. gatt_step. eapply lookup_wp; [done|..].
  { intros Hno. gatt_step. apply HP. by left. }
  intros s i x a Hs Hx Hreg Ha Eh. destruct (db_service _ _ _ _ _ _ (sound_db _ _ _ _ _ Sd) s Hs) as (x' & Hx' & Hok). assert (x' = x) as -> by congruence. specialize (HP (match char_ext_prop s x i a with Some e => has e BT_GATT_CHRC_EXT_PROP_RELIABLE_WRITE | None => false end)).
  assert (reliable (world m) h (match char_ext_prop s x i a with Some e => has e BT_GATT_CHRC_EXT_PROP_RELIABLE_WRITE | None => false end)) as Hr by (right; by exists s, i, x, a). specialize (HP Hr). clear Hr. unfold char_ext_prop in HP.
  unfold get_char_data_ext_prop. do 2 gatt_step. eapply wp_load_attr; [done..|]. gatt_step. apply uuid_eq_wp; [done|by eapply Hty|]. fold (of_type characteristic_uuid a). revert HP. destruct (of_type characteristic_uuid a) eqn:Et; cbn [negb]; intros HP; [|by do 2 gatt_step].
  destruct (a_value a) as [val|] eqn:Ev; [|by do 2 gatt_step]. destruct (_ && _) eqn:El; [by do 2 gatt_step|]. gatt_step. eapply (ext_prop_wp n (world m) own s i x a); [done|done|done|done|done|done|done|done|done|done|by eexists|lia|]. by do 2 gatt_step.
Qed.
End Ext.

(** ** The list of prepared writes *)

Record queued := mk_queued {
  qw_handle : Z;
  qw_offset : Z;
  qw_data : bytes;
  qw_reliable : bool
}.

(** One more piece: it continues the last write, or starts a new one. *)
Definition enqueue (l : list queued) (handle offset : Z) (data : bytes) (r : bool) : list queued :=
  match last l with
  | Some w =>
      if (qw_handle w =? handle) && (offset =? zlen (qw_data w) + qw_offset w) then removelast l ++ [mk_queued (qw_handle w) (qw_offset w) (qw_data w ++ data) (qw_reliable w)]
      else l ++ [mk_queued handle offset data r]
  | None => [mk_queued handle offset data r]
  end.

Definition prep_of (w : queued) : prep_write_data := mk_prep (Some <$> qw_data w) (qw_handle w) (qw_offset w) (zlen (qw_data w)) (qw_reliable w).

(** The answer to Prepare Write and the writes after it; [r] says whether the characteristic supports reliable
    writes. *)
Definition prep_answer (check : gatt_db_attribute -> Z) (look : Z -> option gatt_db_attribute) (max opcode : Z) (pdu : bytes) (r : bool) (l : list queued) : pdu_of * list queued :=
  if zlen pdu <? 4 then (error_rsp opcode 0 BT_ATT_ERROR_INVALID_PDU, l)
  else if max <=? zlen l then (error_rsp opcode 0 BT_ATT_ERROR_PREPARE_QUEUE_FULL, l)
  else
    match look (word pdu 0) with
    | None => (error_rsp opcode (word pdu 0) BT_ATT_ERROR_INVALID_HANDLE, l)
    | Some a =>
        if negb (check a =? 0) then (error_rsp opcode (word pdu 0) (check a), l)
        else ((BT_ATT_OP_PREP_WRITE_RSP, Some <$> pdu), enqueue l (word pdu 0) (word pdu 2) (drop 4 pdu) r)
    end.

Section Prep.
Context `{!Allocator} {T U : Type} `{!Transport T} (user : App (srv T U)) (fuel : nat).
Abbreviation mem := (Queue.mem (gatt (srv T U))).
Implicit Types (m : mem) (g : gatt (srv T U)) (w : queued) (Q : gmap ptr (Z * entry_list)) (v : srv T U) (sv : bt_gatt_server).

(** The queue [q] has the blocks [l]. *)
Definition queues_preps Q (preps : gmap ptr prep_write_data) (q : ptr) (l : list (ptr * queued)) : Prop :=
  exists es, Q !! q = Some (1, es) /\ es.*2 = (fun pw => addr pw.1) <$> l /\ NoDup l.*1 /\ forall p w, (p, w) ∈ l -> preps !! p = Some (prep_of w).

Lemma append_wp p w data v (P : bool -> mem -> Prop) m : ~ refused -> app_of m = v -> v_preps v !! p = Some (prep_of w) -> zlen (qw_data w) + zlen data <= UINT16_MAX ->
  (forall m', queues m' = queues m -> cells m' = cells m ->
    world m' = set_app (set_preps (<[p := prep_of (mk_queued (qw_handle w) (qw_offset w) (qw_data w ++ data) (qw_reliable w))]> (v_preps v)) v) (world m) -> P true m') ->
  wp (append_prep_data p data) P m.
Proof.
  intros Hmem Hv Hp Hmax HP. unfold UINT16_MAX in Hmax. pose proof (zlen_nonneg data) as Hd. pose proof (zlen_nonneg (qw_data w)) as Hw. unfold append_prep_data, load_prep. gatt_step. eapply wp_look; [by rewrite Hv|]. destruct (Z.eqb_spec (zlen data) 0) as [E|E].
  - gatt_step. apply HP; [done|done|]. assert (data = []) as -> by (apply nil_length_inv; unfold zlen in E; lia). rewrite app_nil_r. replace (mk_queued _ _ _ _) with w by (by destruct w). rewrite insert_id by done.
    replace (set_preps (v_preps v) v) with v by (by destruct v). rewrite <-Hv. exact (eq_sym (set_app_same (world m))).
  - cbn [prep_of pw_length pw_value pw_handle pw_offset pw_reliable_supported]. rewrite u16_small by lia. do 2 gatt_step. intros b Hb. rewrite (proj2 (Z.eqb_neq _ _)) by lia. destruct Hb as [->|?]; [|done]. cbn [negb].
    assert (resize (Some (Some <$> qw_data w)) (zlen (qw_data w) + zlen data) = (Some <$> qw_data w) ++ replicate (length data) None) as ->.
    { unfold resize. change (default [] (Some (Some <$> qw_data w))) with (Some <$> qw_data w). rewrite take_app_ge by (rewrite length_fmap; unfold zlen; lia). f_equal. rewrite take_replicate, length_fmap. f_equal. unfold zlen. lia. }
    gatt_step. rewrite <-(zlen_fmap Some (qw_data w)), buf_write by (unfold zlen; rewrite length_fmap, length_replicate; lia). do 2 gatt_step. unfold store_prep. apply wp_change. gatt_step. apply HP; [done|done|]. unfold put_app, app_of in *. gatt_simpl. rewrite Hv. do 4 f_equal.
    unfold prep_of. cbn [qw_data qw_handle qw_offset qw_reliable]. rewrite fmap_app, zlen_app, drop_ge, app_nil_r by (rewrite length_fmap, length_replicate; lia). by rewrite zlen_fmap.
Qed.

Lemma reliable_exists m Q own d ss h : sound m Q own d ss -> exists r, reliable (world m) h r.
Proof.
  intros Sd. pose proof (place_of_found m Q own d ss h Sd) as Hp. destruct (place_of _ _ _) as [[[s i] a]|]; [|exists false; by left]. destruct Hp as (x & Hx & Ha & Eh). eexists. right. by exists s, i, x, a.
Qed.


Lemma load_prep_wp p x (P : prep_write_data -> mem -> Prop) m : v_preps (app_of m) !! p = Some x -> P x m -> wp (load_prep p) P m.
Proof. apply (wp_look (fun v => v_preps v !! p)). Qed.
Lemma store_prep_wp p x (P : () -> mem -> Prop) m : P () (put_app (set_preps (<[p := x]> (v_preps (app_of m))) (app_of m)) m) -> wp (store_prep p x) P m.
Proof. done. Qed.

Lemma set_preps_twice x y v : set_preps x (set_preps y v) = set_preps x v.
Proof. done. Qed.

Lemma prep_data_new_wp n m Q own d ss sv q es handle offset data (P : bool -> mem -> Prop) :
  ~ refused -> sound m Q own d ss -> idle (app_of m) sv -> plain (world m) -> typed (world m) -> initialised (world m) -> sv_prep_queue sv = Some q -> Q !! q = Some (1, es) -> zlen data <= UINT16_MAX ->
  (forall m' p e r, v_preps (app_of m) !! p = None -> reliable (world m) (u16 (handle - 1)) r -> represents ∅ m' (<[q := (1, es ++ [(e, addr p)])]> Q) ->
    world m' = set_app (set_preps (<[p := prep_of (mk_queued handle offset data r)]> (v_preps (app_of m))) (app_of m)) (world m) -> P true m') ->
  wp (prep_data_new (app := server_app user fuel (S n)) handle offset data) P m.
Proof.
  intros Hmem Sd Hv Hpl Hty Hinit Hq HQ Hlen HP. pose proof Hv as (Hsv & _ & _ & _ & _ & Hext). pose proof (db_rep _ _ _ _ _ _ (sound_db _ _ _ _ _ Sd)) as R. set (v := app_of m) in *. unfold prep_data_new. do 2 gatt_step. intros p Hp%not_elem_of_dom. gatt_step. apply store_prep_wp.
  set (m1 := put_app _ _). assert (forall m2, queues m2 = queues m1 -> cells m2 = cells m1 -> represents ∅ m2 Q) as Hrep by (intros m2 E1 E2; by eapply represents_frame).
  gatt_step. eapply (append_wp p (mk_queued 0 0 [] false) data (app_of m1)); [done|done|apply lookup_insert_eq|exact Hlen|]. cbn [qw_handle qw_offset qw_data qw_reliable app]. intros m2 E1 E2 W2. cbn [negb].
  set (w1 := mk_queued 0 0 data false) in *. assert (app_of m2 = set_preps (<[p := prep_of w1]> (v_preps v)) v) as Ha2 by (unfold app_of; rewrite W2; unfold m1, put_app, app_of; gatt_simpl; rewrite set_preps_twice; cbn; by rewrite insert_insert_eq).
  gatt_step. eapply load_prep_wp; [rewrite Ha2; apply lookup_insert_eq|]. gatt_step. apply store_prep_wp. set (m3 := put_app _ _). set (w2 := mk_queued handle offset data false).
  assert (app_of m3 = set_preps (<[p := prep_of w2]> (v_preps v)) v) as Ha3 by (unfold m3, put_app, app_of in *; gatt_simpl; rewrite Ha2, set_preps_twice; cbn; by rewrite insert_insert_eq).
  assert (world m3 = set_app (app_of m3) (world m)) as W3 by (unfold m3, put_app; gatt_simpl; by rewrite W2). assert (represents ∅ m3 Q) as R3 by (by apply Hrep).
  gatt_step. eapply (reliable_wp user fuel n m3 Q own d ss sv); [by eapply (sound_beside m)|by rewrite Ha3|by rewrite Ha3|by rewrite W3|by rewrite W3|by rewrite W3|]. rewrite W3. intros r Hr.
  gatt_step. eapply load_prep_wp; [rewrite Ha3; apply lookup_insert_eq|]. gatt_step. apply store_prep_wp. set (m4 := put_app _ _). set (w3 := mk_queued handle offset data r).
  assert (app_of m4 = set_preps (<[p := prep_of w3]> (v_preps v)) v) as Ha4 by (unfold m4, put_app, app_of in *; gatt_simpl; rewrite Ha3, set_preps_twice; cbn; by rewrite insert_insert_eq).
  assert (world m4 = set_app (app_of m4) (world m)) as W4 by (unfold m4, put_app; gatt_simpl; by rewrite W3). gatt_step. eapply wp_load_server; [by rewrite Ha4|]. rewrite Hq. gatt_step.
  eapply push_tail_wp; [by apply Hrep|done|]. intros e m5 R5 W5. gatt_step. eapply (HP m5 p e r); [done|exact Hr|done|]. by rewrite W5, W4, Ha4.
Qed.

(** The lengths that the server can keep. *)
Definition roomy_for (l : list queued) (data : bytes) : Prop := forall w, w ∈ l -> zlen (qw_data w) + zlen data <= UINT16_MAX.

Lemma queues_add Q preps q l es p e w : queues_preps Q preps q l -> Q !! q = Some (1, es) -> preps !! p = None ->
  queues_preps (<[q := (1, es ++ [(e, addr p)])]> Q) (<[p := prep_of w]> preps) q (l ++ [(p, w)]).
Proof.
  intros (es' & HQ & Hes & Hnd & Hl) HQ' Hp. assert (es' = es) as -> by congruence. exists (es ++ [(e, addr p)]). split; [by rewrite lookup_insert_eq|]. split; [by rewrite !fmap_app, Hes|]. split.
  - rewrite fmap_app. apply NoDup_app. split_and!; [done| |apply NoDup_singleton]. intros p' ([p1 w1] & -> & Hin)%list_elem_of_fmap Heq. cbn in Heq. apply list_elem_of_singleton in Heq as ->. specialize (Hl _ _ Hin). congruence.
  - intros p' w' [Hin|[= -> ->]%list_elem_of_singleton]%elem_of_app; [|by rewrite lookup_insert_eq]. rewrite lookup_insert_ne; [by apply Hl|]. intros <-. specialize (Hl _ _ Hin). congruence.
Qed.

Lemma queues_replace Q preps q l p w w' : queues_preps Q preps q (l ++ [(p, w)]) -> queues_preps Q (<[p := prep_of w']> preps) q (l ++ [(p, w')]).
Proof.
  intros (es & HQ & Hes & Hnd & Hl). exists es. split; [done|]. rewrite !fmap_app in *. split; [done|]. split; [done|]. apply NoDup_app in Hnd as (_ & Hnot & _).
  intros p1 w1 [Hin|[= -> ->]%list_elem_of_singleton]%elem_of_app; [|by rewrite lookup_insert_eq]. rewrite lookup_insert_ne; [apply Hl, elem_of_app; by left|]. intros <-. apply (Hnot p); [|cbn; by left]. apply list_elem_of_fmap. by exists (p, w1).
Qed.

Lemma store_wp n m Q own d ss sv q l handle offset data (P : bool -> mem -> Prop) :
  ~ refused -> sound m Q own d ss -> idle (app_of m) sv -> plain (world m) -> typed (world m) -> initialised (world m) -> sv_prep_queue sv = Some q -> queues_preps Q (v_preps (app_of m)) q l ->
  zlen data <= UINT16_MAX -> roomy_for l.*2 data ->
  (forall m' Q' preps l' r, reliable (world m) (u16 (handle - 1)) r -> represents ∅ m' Q' -> (forall q', q' <> q -> Q' !! q' = Q !! q') -> queues_preps Q' preps q l' ->
    l'.*2 = enqueue l.*2 handle offset data r -> world m' = set_app (set_preps preps (app_of m)) (world m) -> P true m') ->
  wp (store_prep_data (app := server_app user fuel (S n)) handle offset data) P m.
Proof.
  intros Hmem Sd Hv Hpl Hty Hinit Hq Hl Hlen Hroom HP. pose proof Hv as (Hsv & _). pose proof (db_rep _ _ _ _ _ _ (sound_db _ _ _ _ _ Sd)) as R. pose proof Hl as (es & HQ & Hes & Hnd & Hin).
  assert ((forall r, enqueue l.*2 handle offset data r = l.*2 ++ [mk_queued handle offset data r]) -> wp (prep_data_new (app := server_app user fuel (S n)) handle offset data) P m) as Hnew.
  { intros Henq. eapply (prep_data_new_wp n m Q own d ss sv q es); [done|done|done|done|done|done|done|done|done|]. intros m' p e r Hp Hr R' W'.
    eapply (HP m' _ _ (l ++ [(p, mk_queued handle offset data r)]) r); [done|done|intros q' Hne; by rewrite lookup_insert_ne|by apply queues_add| |done]. rewrite fmap_app. by rewrite Henq. }
  unfold store_prep_data. gatt_step. eapply wp_load_server; [done|]. rewrite Hq. gatt_step. eapply peek_tail_wp; [done|done|]. rewrite Hes. destruct l as [|[p w] l _] using rev_ind.
  { change (default 0 (last ((fun pw : ptr * queued => addr pw.1) <$> []))) with 0. change (0 =? 0) with true. cbv iota. by apply Hnew. }
  rewrite fmap_app. cbn [fmap list_fmap]. rewrite last_snoc. change (default 0 (Some (addr (p, w).1))) with (addr p). rewrite addr_not_null. do 2 gatt_step. assert (v_preps (app_of m) !! p = Some (prep_of w)) as Hp by (apply Hin, elem_of_app; right; by left).
  gatt_step. eapply load_prep_wp; [done|]. cbn [prep_of pw_handle pw_offset pw_length]. rewrite fmap_app in HP, Hnew. unfold enqueue in HP, Hnew. change [(p, w)].*2 with [w] in *. rewrite last_snoc in HP, Hnew. destruct (_ && _).
  - eapply (append_wp p w data (app_of m)); [done|done|done|apply Hroom, list_elem_of_fmap; exists (p, w); split; [done|]; apply elem_of_app; right; by left|]. intros m' E1 E2 W'. destruct (reliable_exists m Q own d ss (u16 (handle - 1)) Sd) as [r Hr].
    eapply (HP m' Q _ (l ++ [(p, _)]) r); [done|by eapply represents_frame|done|by eapply queues_replace| |exact W']. rewrite fmap_app, removelast_last. done.
  - apply Hnew. done.
Qed.

(** The server has answered, and has the writes [l] in the queue [q]. *)
Definition replies_preps Q q (r : pdu_of) (l : list queued) m m' : Prop :=
  exists Q' preps ps, represents ∅ m' Q' /\ (forall q', q' <> q -> Q' !! q' = Q !! q') /\ queues_preps Q' preps q ps /\ ps.*2 = l /\
  world m' = set_app (set_preps preps (sent r (app_of m))) (world m).

Lemma set_preps_same v : set_preps (v_preps v) v = v.
Proof. by destruct v. Qed.

Lemma prep_write_wp n m Q own d ss sv look q l opcode pdu (P : () -> mem -> Prop) :
  ~ refused -> sound m Q own d ss -> idle (app_of m) sv -> opcode <> 0 -> plain (world m) -> typed (world m) -> initialised (world m) -> (forall h, found (world m) h (look h)) ->
  sv_prep_queue sv = Some q -> queues_preps Q (v_preps (app_of m)) q l -> zlen l <= UINT16_MAX -> is_bytes pdu -> zlen pdu <= UINT16_MAX -> roomy_for l.*2 (drop 4 pdu) ->
  (forall m' r, reliable (world m) (u16 (word pdu 0 - 1)) r ->
    let (rsp, l') := prep_answer (fun a => access_of (app_of m) sv a WRITE_MASK) look (sv_max_prep_queue_len sv) opcode pdu r l.*2 in replies_preps Q q rsp l' m m' -> P () m') ->
  wp (prep_write_cb (app := server_app user fuel (S (S n))) opcode pdu) P m.
Proof.
  intros Hmem Sd Hv Hop Hpl Hty Hinit Hlook Hq Hl Hmax Hby Hlen Hroom HP. pose proof Hv as (Hsv & _). pose proof (db_rep _ _ _ _ _ _ (sound_db _ _ _ _ _ Sd)) as R. pose proof Hl as (es & HQ & Hes & _). unfold UINT16_MAX in Hmax, Hlen.
  destruct (reliable_exists m Q own d ss (u16 (word pdu 0 - 1)) Sd) as [r0 Hr0]. unfold prep_answer in HP. rewrite zlen_fmap in HP.
  assert (zlen es = zlen l) as Hzl by (unfold zlen; rewrite <-(length_fmap snd es), Hes, length_fmap; done).
  assert (forall h e, (forall m', replies_preps Q q (error_rsp opcode h e) l.*2 m m' -> P () m') -> wp (send_error opcode h e) P m) as Hfail.
  { intros h e HP'. eapply wp_send_error; [done|done|]. apply HP'. exists Q, (v_preps (app_of m)), l. split_and!; [by eapply represents_frame|done|done|done|]. unfold put_app. gatt_simpl. change (v_preps (app_of m)) with (v_preps (sent (error_rsp opcode h e) (app_of m))). by rewrite set_preps_same. }
  unfold prep_write_cb. destruct (Z.ltb_spec (zlen pdu) 4) as [Hlt|Hge]; [apply Hfail; intros m'; by apply (HP m' r0)|]. gatt_step. eapply wp_load_server; [done|]. rewrite Hq. gatt_step. eapply size_wp; [done|done|]. rewrite Hzl, u32_small by (pose proof (zlen_nonneg l); lia).
  destruct (_ <=? _); [apply Hfail; intros m'; by apply (HP m' r0)|]. unfold zlen in Hge, Hlen. gatt_step. eapply le16_at_wp; [apply get_word; lia|]. gatt_step. eapply le16_at_wp; [apply get_word; lia|]. gatt_step. eapply lookup_wp; [done|..].
  { intros Hno. rewrite (look_none m look) in HP by done. apply Hfail. intros m'. by apply (HP m' r0). }
  intros s i x a Hs Hx Hreg Ha Eh. assert (look (word pdu 0) = Some a) as El by (eapply (look_some m Q own d ss); [done|done|]; exists s, i, x; by split_and!). rewrite El in HP. gatt_step. eapply check_permissions_wp; [done..|]. fold (access_of (app_of m) sv a WRITE_MASK).
  destruct (negb _); [apply Hfail; intros m'; by apply (HP m' r0)|]. do 2 gatt_step. intros p Hp%not_elem_of_dom. do 2 gatt_step. intros b [->|?]; [|done]. cbn [negb]. do 2 gatt_step. gatt_step. apply wp_change. set (m1 := put_app _ _).
  set (v1 := set_completes (<[p := mk_complete pdu (zlen pdu)]> (v_completes (app_of m))) (app_of m)) in *. assert (app_of m1 = v1) as Ha1 by done. assert (world m1 = set_app v1 (world m)) as W1 by done. assert (represents ∅ m1 Q) as R1 by (by eapply represents_frame). gatt_step.
  eapply (stored_write_wp (app := server_app user fuel (S (S n))) s i x a); [done|done|by eapply Hpl|by eapply reg_values|apply (word_range pdu 2); [done|lia]| | |].
  2: by intros m2 Href. 2: by intros m2 a' Hd. intros _. cbn [call server_app]. unfold dispatch. rewrite !decide_False, decide_True by done. do 2 gatt_step.
  unfold prep_write_complete_cb, load_complete. gatt_step. eapply wp_look; [rewrite Ha1; apply lookup_insert_eq|]. cbn [pc_pdu pc_length]. gatt_step. eapply le16_at_wp; [apply get_word; lia|]. change (0 =? 0) with true. cbn [negb]. gatt_step. eapply le16_at_wp; [apply get_word; lia|].
  gatt_step. unfold zlen at 1. rewrite u16_small by lia. rewrite mem_read_ok by (unfold zlen; lia). rewrite take_ge by (rewrite length_drop; lia). change (Z.to_nat 4) with 4%nat. gatt_step.
  gatt_step. eapply (store_wp n m1 Q own d ss sv q l); [done|by eapply (sound_beside m)|done|done|done|done|done|done|unfold zlen, UINT16_MAX; rewrite length_drop; lia|done|].
  rewrite W1. change (reliable (set_app v1 (world m))) with (reliable (world m)). intros m2 Q2 preps l2 r Hr R2 HQ2 Hl2 Henq W2. cbn [negb]. assert (app_of m2 = set_preps preps v1) as Ha2 by (unfold app_of; by rewrite W2).
  do 2 gatt_step. gatt_step. unfold message. rewrite mem_read_ok by (rewrite ?zlen_fmap; unfold zlen; lia). change (Z.to_nat 0) with 0%nat. rewrite drop_0, take_ge by (rewrite length_fmap; unfold zlen; lia). do 2 gatt_step. eapply wp_send; [by rewrite Ha2|].
  gatt_step. eapply wp_look; [srv_simpl; rewrite Ha2; apply lookup_insert_eq|]. apply wp_change. gatt_step. apply (HP _ r Hr). exists Q2, preps, l2. split_and!; [by eapply represents_frame|done|done|done|].
  transitivity (set_app (set_completes (delete p (v_completes v1)) (sent (BT_ATT_OP_PREP_WRITE_RSP, Some <$> pdu) (set_preps preps v1))) (world m)).
  - unfold put_app. gatt_simpl. unfold app_of at 1 2. gatt_simpl. by rewrite Ha2, W2.
  - f_equal. unfold v1, set_completes, sent, set_preps, set_att. cbn. by rewrite delete_insert_eq, delete_id.
Qed.
End Prep.

(** ** What the writes do *)

(** The writes [l] are done from the database [g] on, which leaves [g'] and is answered with [r]; [ehandle] is the
    handle that an error names. *)
Inductive executed `{!Allocator} {A} : gatt A -> Z -> list queued -> gatt A -> pdu_of -> Prop :=
| executed_all g ehandle : executed g ehandle [] g (BT_ATT_OP_EXEC_WRITE_RSP, [])
| executed_gone g ehandle w l : (forall p, ~ handle_of g p (qw_handle w)) -> executed g ehandle (w :: l) g (error_rsp BT_ATT_OP_EXEC_WRITE_REQ ehandle BT_ATT_ERROR_UNLIKELY)
| executed_refused g ehandle w l : refused -> executed g ehandle (w :: l) g (error_rsp BT_ATT_OP_EXEC_WRITE_REQ ehandle BT_ATT_ERROR_UNLIKELY)
| executed_write g ehandle w l s i x a a' g' r : g_services g !! s = Some x -> s_attributes x !! i = Some (Attr a) -> a_handle a = qw_handle w -> stores a a' (qw_offset w) (qw_data w) ->
    executed (with_service s (put_slot i a' x) g) (qw_handle w) l g' r -> executed g ehandle (w :: l) g' r.

(** The first write that is not reliable. *)
Definition unreliable (l : list queued) : option queued := head (filter (fun w => qw_reliable w = false) l).

(** The answer to Execute Write when nothing is to be written. *)
Definition exec_refusal (opcode : Z) (pdu : bytes) (l : list queued) : option pdu_of :=
  if negb (zlen pdu =? 1) then Some (error_rsp opcode 0 BT_ATT_ERROR_INVALID_PDU)
  else
    match pdu with
    | flags :: _ =>
        if flags =? 0x00 then Some (BT_ATT_OP_EXEC_WRITE_RSP, [])
        else if negb (flags =? 0x01) then Some (error_rsp opcode 0 BT_ATT_ERROR_INVALID_PDU)
        else if 1 <? zlen l then (fun w => error_rsp opcode (qw_handle w) BT_ATT_ERROR_REQUEST_NOT_SUPPORTED) <$> unreliable l
        else None
    | [] => None
    end.

(** No write is to the declaration of a service. *)
Definition spares {A} (g : gatt A) (h : Z) : Prop := forall p, handle_of g p h -> p.2 <> 0%nat.

(** ** An attribute is written *)

Lemma stores_shape a a' o data : value_ok a -> stores a a' o data -> value_ok a' /\ a' = set_value (a_value_len a') (a_value a') a.
Proof. unfold stores. intros Hok. destruct (_ =? 0); [intros ->; by destruct a|]. by intros (? & ? & _). Qed.

Lemma every_put {A} (F : gatt_db_attribute -> Prop) (g : gatt A) s x i a' : (forall s x i a, g_services g !! s = Some x -> s_attributes x !! i = Some (Attr a) -> F a) -> g_services g !! s = Some x -> F a' ->
  forall t y j b, g_services (with_service s (put_slot i a' x) g) !! t = Some y -> s_attributes y !! j = Some (Attr b) -> F b.
Proof.
  intros Hall Hx Ha' t y j b Hy Hb. unfold with_service in Hy. cbn in Hy. apply lookup_insert_Some in Hy as [[<- <-]|[_ Hy]]; [|by eapply Hall]. cbn in Hb. apply list_lookup_insert_Some in Hb as [(_ & [= <-] & _)|[_ Hb]]; [done|by eapply Hall].
Qed.

Lemma plain_put {A} (g : gatt A) s x i a a' : plain g -> g_services g !! s = Some x -> s_attributes x !! i = Some (Attr a) -> a' = set_value (a_value_len a') (a_value a') a -> plain (with_service s (put_slot i a' x) g).
Proof. intros Hp Hx Ha E. refine (every_put (fun a => a_read_func a = None /\ a_write_func a = None) g s x i a' Hp Hx _). rewrite E. by eapply (Hp s x i a). Qed.
Lemma typed_put {A} (g : gatt A) s x i a a' : typed g -> g_services g !! s = Some x -> s_attributes x !! i = Some (Attr a) -> a' = set_value (a_value_len a') (a_value a') a -> typed (with_service s (put_slot i a' x) g).
Proof. intros Hp Hx Ha E. refine (every_put (fun a => uuid_ok (a_uuid a)) g s x i a' Hp Hx _). rewrite E. by eapply (Hp s x i a). Qed.

Lemma handle_put {A} (g : gatt A) s x i a a' p h : g_services g !! s = Some x -> s_attributes x !! i = Some (Attr a) -> a_handle a' = a_handle a -> handle_of (with_service s (put_slot i a' x) g) p h -> handle_of g p h.
Proof.
  intros Hx Ha E (y & b & Hy & Hb & Eh). unfold with_service in Hy. cbn in Hy. apply lookup_insert_Some in Hy as [[Ep <-]|[_ Hy]]; [|by exists y, b]. cbn in Hb. apply list_lookup_insert_Some in Hb as [(Ei & [= <-] & _)|[_ Hb]].
  - exists x, a. rewrite <-Ep, <-Ei. split_and!; [done|done|congruence].
  - exists x, b. by rewrite <-Ep.
Qed.

Lemma write_sound `{!Allocator} {T U : Type} (m m' : Queue.mem (gatt (srv T U))) Q own d ss s x i a a' o data v : sound m Q own d ss -> g_services (world m) !! s = Some x -> s_attributes x !! i = Some (Attr a) -> i <> 0%nat ->
  stores a a' o data -> represents ∅ m' Q -> world m' = set_app v (with_service s (put_slot i a' x) (world m)) -> sound m' Q own d ss.
Proof.
  intros Sd Hx Ha Hi Hst R W. destruct (sound_listed _ _ _ _ _ Sd s x Hx) as [Hs Hreg]. destruct (stores_shape a a' o data (reg_values _ Hreg _ _ Ha) Hst) as [Hok E].
  assert (sound (with_gatt (with_service s (put_slot i a' x) (world m)) m') Q own d ss) as S1.
  { eapply (sound_service_at m _ Q Q own own d ss s x (put_slot i a' x) (g_app (world m))); [done| |done|done|by rewrite first_put|by rewrite last_put|by eapply (regular_retouch x i a a'); [..|rewrite E|]].
    eapply (database_retouch ∅ m _ Q own d ss s x i a a'); [apply Sd|done|done|done|by rewrite E|by rewrite E|by eapply represents_frame|done]. }
  eapply (sound_transport (with_gatt (with_service s (put_slot i a' x) (world m)) m')); [done|done|done|]. by rewrite W.
Qed.

Section Exec.
Context `{!Allocator} {T U : Type} `{!Transport T} (user : App (srv T U)) (fuel : nat).
Abbreviation mem := (Queue.mem (gatt (srv T U))).
Implicit Types (m : mem) (g : gatt (srv T U)) (w : queued) (Q : gmap ptr (Z * entry_list)) (v : srv T U) (sv : bt_gatt_server).

Lemma prepared_wp w (P : bytes -> mem -> Prop) m : P (qw_data w) m -> wp (prepared (prep_of w)) P m.
Proof.
  intros HP. unfold prepared. cbn [prep_of pw_value pw_length]. gatt_step. pose proof (buf_read (Some <$> qw_data w) []) as E. rewrite app_nil_r, zlen_fmap in E. rewrite E. gatt_step.
  pose proof (known_some (qw_data w)) as Hk. unfold known in Hk. change (of_option (mapM id (Some <$> qw_data w)) = Ret (qw_data w)) in Hk. rewrite Hk. by gatt_step.
Qed.

Lemma prep_destroy_wp p x (P : () -> mem -> Prop) m : v_preps (app_of m) !! p = Some x -> P () (put_app (set_preps (delete p (v_preps (app_of m))) (app_of m)) m) -> wp (prep_write_data_destroy (addr p)) P m.
Proof. intros Hp HP. unfold prep_write_data_destroy. do 2 gatt_step. gatt_step. eapply load_prep_wp; [done|]. by apply wp_change. Qed.

(** The prepared writes are freed, each once. *)
Lemma clear_preps_wp m Q q l (P : Z -> mem -> Prop) : represents ∅ m Q -> queues_preps Q (v_preps (app_of m)) q l -> (length l <= fuel)%nat ->
  (forall n m' preps, represents ∅ m' (<[q := (1, [])]> Q) -> (forall p, p ∉ l.*1 -> preps !! p = v_preps (app_of m) !! p) -> world m' = set_app (set_preps preps (app_of m)) (world m) -> P n m') ->
  wp (queue_remove_all fuel (Some q) None 0 (Some prep_write_data_destroy)) P m.
Proof.
  intros R (es & HQ & Hes & Hnd & Hl) Hf HP.
  eapply (remove_all_wp _ (fun ds Q' g => Q' = <[q := (1, [])]> Q /\ exists ps preps, ds = addr <$> ps /\ NoDup ps /\ (forall p, p ∈ ps -> is_Some (preps !! p)) /\ (forall p, p ∉ l.*1 -> preps !! p = v_preps (app_of m) !! p) /\
    (forall p, p ∈ ps -> p ∈ l.*1) /\ g = set_app (set_preps preps (app_of m)) (world m))); [|done|done|rewrite <-(length_fmap snd es), Hes, length_fmap; done| |].
  - intros X m1 Q1 z ds R1 (-> & ps & preps & Hds & Hndp & Hin & Hout & Hsub & Hw). destruct ps as [|p ps]; [done|]. cbn in Hds. injection Hds as -> ->. apply NoDup_cons in Hndp as [Hnot Hndp]. destruct (Hin p ltac:(by left)) as [x Hx].
    cbn [call_destroy]. eapply prep_destroy_wp; [unfold app_of; by rewrite Hw|]. eexists. split; [by eapply represents_frame|]. split; [done|]. exists ps, (delete p preps). split_and!; [done|done|..].
    + intros p' Hp'. rewrite lookup_delete_ne by congruence. apply Hin. by right.
    + intros p' Hp'. rewrite lookup_delete_ne; [by apply Hout|]. intros <-. apply Hp', Hsub. by left.
    + intros p' Hp'. apply Hsub. by right.
    + unfold put_app, app_of. gatt_simpl. by rewrite Hw.
  - split; [done|]. exists l.*1, (v_preps (app_of m)). split_and!; [by rewrite Hes, <-list_fmap_compose|done| |done|done|].
    + intros p ([p' w] & -> & Hin)%list_elem_of_fmap. exists (prep_of w). by apply Hl.
    + rewrite set_preps_same. symmetry. apply set_app_same.
  - intros m' Q' R' (-> & ps & preps & Hnil & _ & _ & Hout & _ & Hw). by eapply HP.
Qed.

Lemma drop_wp m Q q l (P : () -> mem -> Prop) : represents ∅ m Q -> queues_preps Q (v_preps (app_of m)) q l -> (length l <= fuel)%nat ->
  (forall m' preps, represents ∅ m' (<[q := (1, [])]> Q) -> (forall p, p ∉ l.*1 -> preps !! p = v_preps (app_of m) !! p) -> world m' = set_app (set_preps preps (app_of m)) (world m) -> P () m') ->
  wp (drop_prepared fuel (Some q)) P m.
Proof. intros R Hl Hf HP. unfold drop_prepared. gatt_step. eapply clear_preps_wp; [done..|]. intros n m' preps R' Hout W. gatt_step. by eapply HP. Qed.

(** The database after the writes. *)
Definition exec_ends m Q own d ss q (preps : gmap ptr prep_write_data) (l : list (ptr * queued)) ehandle m' : Prop :=
  exists g' r preps', executed (world m) ehandle l.*2 g' r /\ sound m' (<[q := (1, [])]> Q) own d ss /\ plain g' /\ typed g' /\ (forall p, p ∉ l.*1 -> preps' !! p = preps !! p) /\
  world m' = set_app (set_preps preps' (sent r (app_of m))) g'.

Lemma sound_queue m m' Q own d ss q es v : sound m Q own d ss -> own !! q = None -> represents ∅ m' (<[q := (1, es)]> Q) -> world m' = set_app v (world m) -> sound m' (<[q := (1, es)]> Q) own d ss.
Proof. intros Sd Hq R W. eapply (sound_transport m); [done|done| |by rewrite W]. intros q' [o Ho]. rewrite lookup_insert_ne; [done|congruence]. Qed.

Lemma exec_fail_wp m Q own d ss sv q l ehandle (P : () -> mem -> Prop) : sound m Q own d ss -> own !! q = None -> v_server (app_of m) = Some sv -> sv_prep_queue sv = Some q -> queues_preps Q (v_preps (app_of m)) q l -> (length l <= fuel)%nat ->
  (forall m' preps', sound m' (<[q := (1, [])]> Q) own d ss -> (forall p, p ∉ l.*1 -> preps' !! p = v_preps (app_of m) !! p) ->
    world m' = set_app (set_preps preps' (sent (error_rsp BT_ATT_OP_EXEC_WRITE_REQ ehandle BT_ATT_ERROR_UNLIKELY) (app_of m))) (world m) -> P () m') ->
  wp (server ← load_server; _ ← drop_prepared fuel (sv_prep_queue server); send_error BT_ATT_OP_EXEC_WRITE_REQ ehandle BT_ATT_ERROR_UNLIKELY) P m.
Proof.
  intros Sd Hown Hsv Hq Hl Hf HP. pose proof (db_rep _ _ _ _ _ _ (sound_db _ _ _ _ _ Sd)) as R. gatt_step. eapply wp_load_server; [done|]. rewrite Hq. gatt_step. eapply (drop_wp m Q q l); [done|done|done|]. intros m1 preps' R1 Hout W1.
  assert (app_of m1 = set_preps preps' (app_of m)) as Ha1 by (unfold app_of; by rewrite W1). eapply wp_send_error; [by rewrite Ha1|done|]. rewrite Ha1. eapply (HP _ preps'); [|done|unfold put_app; gatt_simpl; by rewrite W1].
  eapply (sound_queue m); [done|done|by eapply represents_frame|]. unfold put_app. gatt_simpl. by rewrite W1.
Qed.

Lemma queues_pop Q preps q p w l e es : queues_preps Q preps q ((p, w) :: l) -> Q !! q = Some (1, (e, addr p) :: es) -> queues_preps (<[q := (1, es)]> Q) preps q l /\ preps !! p = Some (prep_of w) /\ p ∉ l.*1.
Proof.
  intros (es' & HQ & Hes & Hnd & Hl) HQ'. assert (es' = (e, addr p) :: es) as -> by congruence. apply NoDup_cons in Hnd as [Hnot Hnd]. split; [|split; [apply Hl; by left|done]]. exists es. split; [by rewrite lookup_insert_eq|]. split; [by injection Hes|]. split; [done|].
  intros p' w' Hin. apply Hl. by right.
Qed.

Lemma exec_next_wp own d ss q : own !! q = None -> forall l n m Q sv ehandle (P : () -> mem -> Prop), sound m Q own d ss -> v_server (app_of m) = Some sv -> sv_prep_queue sv = Some q -> plain (world m) -> typed (world m) ->
  queues_preps Q (v_preps (app_of m)) q l -> (length l <= fuel)%nat -> (length l <= n)%nat -> (forall w, w ∈ l.*2 -> spares (world m) (qw_handle w) /\ 0 <= qw_offset w) ->
  (forall m', exec_ends m Q own d ss q (v_preps (app_of m)) l ehandle m' -> P () m') -> wp (exec_next_prep_write (app := server_app user fuel n) fuel ehandle 0) P m.
Proof.
  intros Hown. induction l as [|[p w] l IH]; intros n m Q sv ehandle P Sd Hsv Hq Hpl Hty Hl Hf Hn Hsp HP; pose proof (db_rep _ _ _ _ _ _ (sound_db _ _ _ _ _ Sd)) as R; pose proof Hl as (es & HQ & Hes & Hnd & _).
  { destruct es; [|done]. unfold exec_next_prep_write. gatt_step. eapply wp_load_server; [done|]. change (0 =? 0) with true. cbn [negb]. rewrite Hq. gatt_step. eapply pop_head_wp; [done|done|]. change (0 =? 0) with true. cbv iota. eapply wp_send; [done|]. apply HP.
    exists (world m), (BT_ATT_OP_EXEC_WRITE_RSP, []), (v_preps (app_of m)). split_and!; [constructor| |done|done|done|]; rewrite ?insert_id by done.
    - eapply (sound_beside m); [done|by eapply represents_frame|done].
    - unfold put_app. gatt_simpl. by destruct (app_of m). }
  destruct es as [|[e z] es]; [done|]. assert (z = addr p) as -> by (by injection Hes). destruct (queues_pop Q _ q p w l e es Hl HQ) as (Hl1 & Hp & Hnot). cbn [length] in *.
  unfold exec_next_prep_write. gatt_step. eapply wp_load_server; [done|]. change (0 =? 0) with true. cbn [negb]. rewrite Hq. gatt_step. eapply pop_head_wp; [done|done|]. intros m1 R1 W1. rewrite addr_not_null. do 2 gatt_step. assert (app_of m1 = app_of m) as Ha1 by (unfold app_of; by rewrite W1).
  gatt_step. eapply load_prep_wp; [by rewrite Ha1|]. cbn [prep_of pw_handle pw_offset]. gatt_step. assert (sound m1 (<[q := (1, es)]> Q) own d ss) as S1 by (eapply (sound_queue m _ _ _ _ _ _ _ (app_of m)); [done|done|done|rewrite W1; symmetry; apply set_app_same]).
  eapply lookup_wp; [done|..]; rewrite W1.
  { intros Hno. eapply (exec_fail_wp m1 _ own d ss sv q l ehandle); [done|done|by rewrite Ha1|done|by rewrite Ha1|lia|]. rewrite insert_insert_eq, Ha1, W1. intros m' preps' S' Hout W'. apply HP. eexists _, _, preps'. split_and!; [by apply executed_gone|done|done|done| |exact W'].
    intros p' Hp'. apply Hout. intros Hin. apply Hp'. by right. }
  intros s i x a Hs Hx Hreg Ha Eh. destruct (Hsp w ltac:(by left)) as [Hspw Hofw]. assert (i <> 0%nat) as Hi by (apply (Hspw (s, i)); by exists x, a). gatt_step. apply prepared_wp.
  assert (forall m2 a' ok, ok = true -> stores a a' (qw_offset w) (qw_data w) -> queues m2 = queues m1 -> cells m2 = cells m1 -> world m2 = with_service s (put_slot i a' x) (world m) ->
    wp (@call _ (server_app user fuel n) (WriteDone exec_write_complete (s, i) 0 0)) (fun _ => wp (_ ← prep_write_data_destroy (addr p); if ok : bool then mret () else
      server ← load_server; _ ← drop_prepared fuel (sv_prep_queue server); send_error BT_ATT_OP_EXEC_WRITE_REQ ehandle BT_ATT_ERROR_UNLIKELY) P) m2) as Hdone.
  { intros m2 a' ok -> Hst E1 E2 W2. destruct n as [|n]; [lia|]. destruct (stores_shape a a' _ _ (reg_values _ Hreg _ _ Ha) Hst) as [Hok' E']. assert (app_of m2 = app_of m) as Ha2 by (unfold app_of; by rewrite W2).
    assert (a_handle a' = qw_handle w) as Eh' by (by rewrite E'). cbn [call server_app]. unfold dispatch. rewrite !decide_False, decide_True by done. unfold exec_write_complete_cb. gatt_step. eapply (get_handle_wp s i (put_slot i a' x) a'); [rewrite W2; apply lookup_insert_eq|apply put_slot_here; by eapply lookup_lt_Some|]. rewrite Eh'.
    eapply (IH n m2 (<[q := (1, es)]> Q) sv (qw_handle w)); [|by rewrite Ha2|done|rewrite W2; by eapply plain_put|rewrite W2; by eapply typed_put|by rewrite Ha2|lia|lia| |].
    - eapply (write_sound m1 m2 _ own d ss s x i a a' _ _ (app_of m)); [done|by rewrite W1|done|done|exact Hst|by eapply represents_frame|]. rewrite W2, W1. symmetry. exact (set_app_same (with_service s (put_slot i a' x) (world m))).
    - intros w' Hw'. destruct (Hsp w' ltac:(by right)) as [Hs' ?]. split; [|done]. rewrite W2. intros p' Hp'. apply Hs'. eapply (handle_put _ s x i a a'); [done|done|congruence|done].
    - intros m3 (g' & r & preps' & Hex & S3 & Hpl3 & Hty3 & Hout & W3). rewrite W2 in Hex. rewrite Ha2 in Hout, W3. rewrite insert_insert_eq in S3. assert (app_of m3 = set_preps preps' (sent r (app_of m))) as Ha3 by (unfold app_of; by rewrite W3). gatt_step. eapply prep_destroy_wp; [rewrite Ha3; cbn; by rewrite Hout|].
      gatt_step. apply HP. exists g', r, (delete p preps'). split_and!; [by eapply executed_write|..|done|done| |].
      + eapply (sound_beside m3); [done|eapply represents_frame; [apply S3|done|done]|]. done.
      + intros p' Hp'. rewrite lookup_delete_ne by (intros <-; apply Hp'; by left). apply Hout. intros Hin. apply Hp'. by right.
      + unfold put_app. gatt_simpl. rewrite Ha3, W3. done. }
  gatt_step. eapply (stored_write_wp (app := server_app user fuel n) s i x a); [by rewrite W1|done|by eapply Hpl|by eapply reg_values|done|..].
  - intros Hz. eapply (Hdone m1 a true); [done|unfold stores; by rewrite Hz|done|done|]. rewrite W1. symmetry. by apply with_service_same.
  - intros m2 Href E1 E2 W2. gatt_step. assert (app_of m2 = app_of m) as Ha2 by (unfold app_of; by rewrite W2, W1). eapply prep_destroy_wp; [by rewrite Ha2|]. set (m3 := put_app _ m2). assert (app_of m3 = set_preps (delete p (v_preps (app_of m))) (app_of m)) as Ha3 by (unfold m3, put_app, app_of in *; gatt_simpl; by rewrite Ha2).
    assert (world m3 = set_app (app_of m3) (world m)) as W3 by (unfold m3, put_app; gatt_simpl; by rewrite W2, W1).
    eapply (exec_fail_wp m3 (<[q := (1, es)]> Q) own d ss sv q l ehandle); [|done|by rewrite Ha3|done| |lia|].
    + eapply (sound_beside m1); [done|by eapply represents_frame|by rewrite W3, W1].
    + rewrite Ha3. cbn. destruct Hl1 as (es1 & HQ1 & Hes1 & Hnd1 & Hin1). exists es1. split_and!; [done..|]. intros p' w' Hin. rewrite lookup_delete_ne; [by apply Hin1|]. intros <-. apply Hnot, list_elem_of_fmap. by exists (p, w').
    + rewrite insert_insert_eq, Ha3, W3. intros m' preps' S' Hout W'. apply HP. eexists _, _, preps'. split_and!; [by apply executed_refused|done|done|done| |exact W'].
      intros p' Hp'. rewrite Hout by (intros Hin; apply Hp'; by right). cbn. rewrite lookup_delete_ne; [done|]. intros <-. apply Hp'. by left.
  - intros m2 a' Hd Hw E1 E2 W2. eapply (Hdone m2 a' true); [done|unfold stores; by rewrite (proj2 (Z.eqb_neq _ 0)) by lia|done|done|]. by rewrite W2, W1.
Qed.

(** The server has answered; it has no prepared writes any more. *)
Definition exec_result m Q own d ss q opcode pdu (l : list queued) m' : Prop :=
  exists g' r preps', match exec_refusal opcode pdu l with Some r0 => g' = world m /\ r = r0 | None => executed (world m) 0 l g' r end /\
  sound m' (<[q := (1, [])]> Q) own d ss /\ plain g' /\ typed g' /\ world m' = set_app (set_preps preps' (sent r (app_of m))) g'.

Lemma unreliable_pairs (l : list (ptr * queued)) : unreliable l.*2 = snd <$> head (filter (fun pw => qw_reliable pw.2 = false) l).
Proof. unfold unreliable. induction l as [|[p w] l IH]; [done|]. cbn [fmap list_fmap snd]. rewrite !filter_cons. cbn [snd]. destruct (decide (qw_reliable w = false)); [done|exact IH]. Qed.

(** The search for a write that is not reliable. *)
Lemma find_unreliable_wp m Q q l (P : Z -> mem -> Prop) : represents ∅ m Q -> queues_preps Q (v_preps (app_of m)) q l ->
  (unreliable l.*2 = None -> P 0 m) -> (forall p w, (p, w) ∈ l -> unreliable l.*2 = Some w -> P (addr p) m) -> wp (queue_find (Some q) (Some find_no_reliable_characteristic) 0) P m.
Proof.
  intros R (es & HQ & Hes & Hnd & Hl) Hnone Hsome. set (preps := v_preps (app_of m)) in *.
  set (f := fun z => match of_addr z : outcome ptr with Ret p => match preps !! p with Some x => negb (pw_reliable_supported x) | None => false end | _ => false end).
  assert (forall p w, (p, w) ∈ l -> f (addr p) = negb (qw_reliable w)) as Hf by (intros p w Hin; unfold f; rewrite of_addr_addr, (Hl p w Hin); done).
  eapply find_wp with (f := f); [done|done| |].
  - intros z Hz. rewrite Hes in Hz. apply list_elem_of_fmap in Hz as ([p w] & -> & Hin). cbn [fst]. rewrite (Hf p w Hin). change (default direct_match (Some find_no_reliable_characteristic)) with (find_no_reliable_characteristic (T := T) (U := U)). unfold find_no_reliable_characteristic.
    rewrite (bind_run _ _ _ p m) by (unfold at_addr, lift; by rewrite of_addr_addr). rewrite (bind_run _ _ _ (prep_of w) m) by (unfold load_prep, look, fetch; fold (app_of m); fold preps; by rewrite (Hl p w Hin)). done.
  - assert (match (break f es).2 with (_, z) :: _ => z | [] => 0 end = match filter (fun pw => qw_reliable pw.2 = false) l with pw :: _ => addr pw.1 | [] => 0 end) as ->.
    { clear -Hes Hf. revert l Hes Hf. induction es as [|[e z] es IH]; intros [|[p w] l] Hes Hf; try done. cbn [fmap list_fmap fst snd] in Hes. injection Hes as -> Hes. cbn [break]. rewrite filter_cons. cbn [snd]. rewrite (Hf p w) by (by left). destruct (qw_reliable w) eqn:Er; cbn [negb].
      - rewrite decide_False by done. specialize (IH l Hes ltac:(intros; apply Hf; by right)). destruct (break f es) as [es1 es2]. exact IH.
      - by rewrite decide_True. }
    rewrite unreliable_pairs in Hnone, Hsome. destruct (filter _ l) as [|[p w] l'] eqn:Efl; [by apply Hnone|]. apply (Hsome p w); [|done]. assert ((p, w) ∈ filter (fun pw : ptr * queued => qw_reliable pw.2 = false) l) as Hin by (rewrite Efl; by left). by apply list_elem_of_filter in Hin as [_ ?].
Qed.

Lemma exec_write_wp n m Q own d ss sv q l opcode pdu (P : () -> mem -> Prop) :
  sound m Q own d ss -> idle (app_of m) sv -> opcode <> 0 -> plain (world m) -> typed (world m) -> sv_prep_queue sv = Some q -> own !! q = None -> queues_preps Q (v_preps (app_of m)) q l ->
  (length l <= fuel)%nat -> (length l <= n)%nat -> zlen l <= UINT16_MAX -> (forall w, w ∈ l.*2 -> spares (world m) (qw_handle w) /\ 0 <= qw_offset w) ->
  (forall m', exec_result m Q own d ss q opcode pdu l.*2 m' -> P () m') ->
  wp (exec_write_cb (app := server_app user fuel n) fuel opcode pdu) P m.
Proof.
  intros Sd Hv Hop Hpl Hty Hq Hown Hl Hf Hn Hmax Hsp HP. pose proof Hv as (Hsv & _). pose proof (db_rep _ _ _ _ _ _ (sound_db _ _ _ _ _ Sd)) as R. unfold exec_write_cb. gatt_step. eapply wp_load_server; [done|]. rewrite Hq.
  assert (forall r, exec_refusal opcode pdu l.*2 = Some r -> forall K, (forall m1 v1, app_of m1 = v1 -> v_server v1 = Some sv -> forall P1 : () -> mem -> Prop, P1 () (put_app (sent r v1) m1) -> wp K P1 m1) -> wp (_ ← drop_prepared fuel (Some q); K) P m) as Hdrop.
  { intros r Er K HK. gatt_step. eapply (drop_wp m Q q l); [done|done|done|]. intros m1 preps' R1 Hout W1. assert (app_of m1 = set_preps preps' (app_of m)) as Ha1 by (unfold app_of; by rewrite W1). eapply HK; [exact Ha1|done|]. apply HP. exists (world m), r, preps'. rewrite Er. split_and!; [done|done| |done|done|].
    - eapply (sound_queue m); [done|done|by eapply represents_frame|]. unfold put_app. gatt_simpl. by rewrite W1.
    - unfold put_app. gatt_simpl. by rewrite W1. }
  assert (forall h e, exec_refusal opcode pdu l.*2 = Some (error_rsp opcode h e) -> wp (_ ← drop_prepared fuel (Some q); send_error opcode h e) P m) as Hfail.
  { intros h e Er. apply (Hdrop _ Er). intros m1 v1 Ha1 Hs1 P1 HP1. eapply wp_send_error; [by rewrite Ha1|done|]. by rewrite Ha1. }
  unfold exec_refusal in Hdrop, Hfail, HP. destruct (Z.eqb_spec (zlen pdu) 1) as [Hlen|Hlen]; cbn [negb] in *; [|by apply Hfail]. destruct pdu as [|flags pdu]; [done|]. change (mem_get (flags :: pdu) 0) with (Ret flags). do 2 gatt_step.
  destruct (flags =? 0) eqn:E0.
  { apply (Hdrop _ eq_refl). intros m1 v1 Ha1 Hs1 P1 HP1. eapply wp_send; [by rewrite Ha1|]. by rewrite Ha1. }
  destruct (flags =? 1) eqn:E1; cbn [negb]; [|by apply Hfail]. pose proof Hl as (es & HQ & Hes & _). assert (zlen es = zlen l) as Hzl by (unfold zlen; rewrite <-(length_fmap snd es), Hes, length_fmap; done).
  gatt_step. eapply size_wp; [done|done|]. rewrite Hzl, u32_small by (pose proof (zlen_nonneg l); unfold UINT16_MAX in Hmax; lia). rewrite zlen_fmap in *.
  assert (exec_refusal opcode (flags :: pdu) l.*2 = None -> wp (exec_next_prep_write (app := server_app user fuel n) fuel 0 0) P m) as Hgo.
  { intros Enone. eapply (exec_next_wp own d ss q Hown l n m Q sv 0); [done|done|done|done|done|done|done|done|done|]. intros m' (g' & r & preps' & Hex & S' & Hp' & Ht' & _ & W'). apply HP. exists g', r, preps'. by rewrite Enone. }
  unfold exec_refusal in Hgo. rewrite zlen_fmap in Hgo. rewrite (proj2 (Z.eqb_eq _ _) Hlen), E0, E1 in Hgo. cbn [negb] in Hgo. gatt_step. destruct (1 <? zlen l).
  - eapply (find_unreliable_wp m Q q l); [done|done|..].
    + intros Eu. change (0 =? 0) with true. cbn [negb]. apply Hgo. by rewrite Eu.
    + intros p w Hin Eu. rewrite addr_not_null. cbn [negb]. do 2 gatt_step. gatt_step. eapply load_prep_wp; [by destruct Hl as (? & _ & _ & _ & Hl); apply Hl|]. cbn [prep_of pw_handle]. apply Hfail. by rewrite Eu.
  - gatt_step. change (0 =? 0) with true. cbn [negb]. by apply Hgo.
Qed.
End Exec.
