(* ===== verification/ServerMain.v ===== *)
(** The GATT server as a whole: what a peer is answered, and that no request leads outside of the memory. *)

From stdpp Require Import gmap.
From S2P Require Import Prelude Util Alloc Queue QueueSpec QueueMain Uuid GattDb GattAccess GattSpec GattDestroy GattServices GattAttrs GattFind GattRequests GattMain GattRun.
From S2P Require Import ServerState ServerFind ServerAccess ServerSteps ServerReads ServerSearch ServerEncode ServerGroups ServerByValue ServerMulti ServerPrep.

(** What the server relies on: messages do not change the security of the connection, and the size of messages
    changes only when it is set. *)
Class Connection (T : Type) `{!Transport T} := {
  send_keeps opcode pdu (t : T) : att_mtu (att_send opcode pdu t).2 = att_mtu t;
  send_secure opcode pdu (t : T) : att_security (att_send opcode pdu t).2 = att_security t;
  register_keeps opcode (t : T) : att_mtu (att_register opcode t).2 = att_mtu t;
  set_mtu_sets n (t : T) : BT_ATT_DEFAULT_LE_MTU <= n <= UINT16_MAX -> att_mtu (att_set_mtu n t) = n
}.

(** ** The answers *)

(** The attribute and the offset of Read and Read Blob. *)
Definition read_target (opcode : Z) (pdu : bytes) : option (Z * Z) :=
  if opcode =? BT_ATT_OP_READ_REQ then if zlen pdu =? 2 then Some (word pdu 0, 0) else None
  else if zlen pdu =? 4 then Some (word pdu 0, word pdu 2) else None.

Section Answers.
Context {T U : Type} `{!Transport T}.
Implicit Types (g : gatt (srv T U)) (sv : bt_gatt_server).

(** The answers to the requests that only look at the database, from the state of the server and the services
    [ss] in their order. *)
Definition answer g sv (ss : list ptr) (opcode : Z) (pdu : bytes) : option pdu_of :=
  let mtu := att_mtu (v_att (g_app g)) in
  let check mask a := access_of (g_app g) sv a mask in
  if opcode =? BT_ATT_OP_READ_BY_GRP_TYPE_REQ then Some (group_answer g mtu opcode pdu ss)
  else if opcode =? BT_ATT_OP_READ_BY_TYPE_REQ then Some (type_answer (check READ_MASK) mtu opcode pdu (listing g ss))
  else if opcode =? BT_ATT_OP_FIND_INFO_REQ then Some (find_info_answer mtu opcode pdu (listing g ss))
  else if opcode =? BT_ATT_OP_FIND_BY_TYPE_REQ then Some (value_answer g mtu opcode pdu (listing g ss))
  else if (opcode =? BT_ATT_OP_READ_REQ) || (opcode =? BT_ATT_OP_READ_BLOB_REQ) then
    Some (match read_target opcode pdu with
      | Some (handle, offset) => read_answer (g_app g) sv opcode handle offset (at_handle g ss handle)
      | None => error_rsp opcode 0 BT_ATT_ERROR_INVALID_PDU
      end)
  else if opcode =? BT_ATT_OP_READ_MULT_REQ then Some (multi_answer (check READ_MASK) (at_handle g ss) mtu opcode pdu)
  else None.
End Answers.

(** An answer to a request: the response with its own opcode, or an error that names the request; it fits into a
    message. *)
Definition proper (opcode mtu : Z) (r : pdu_of) : Prop := (r.1 = opcode + 1 \/ exists handle error, r = error_rsp opcode handle error) /\ zlen r.2 <= mtu - 1.

Lemma proper_error opcode mtu h e : BT_ATT_DEFAULT_LE_MTU <= mtu -> proper opcode mtu (error_rsp opcode h e).
Proof. intros Hmtu. unfold BT_ATT_DEFAULT_LE_MTU in Hmtu. split; [right; by exists h, e|]. change (zlen (error_rsp opcode h e).2) with 4. lia. Qed.
#[export] Hint Resolve proper_error : core.

Lemma type_loop_proper check mtu l : BT_ATT_DEFAULT_LE_MTU <= mtu -> forall pre len, 0 <= len -> zlen pre <= mtu - 1 -> proper BT_ATT_OP_READ_BY_TYPE_REQ mtu (type_loop check mtu pre len l).
Proof.
  intros Hmtu. assert (forall pre, zlen pre <= mtu - 1 -> proper BT_ATT_OP_READ_BY_TYPE_REQ mtu (BT_ATT_OP_READ_BY_TYPE_RSP, pre)) as Hok by (intros pre Hp; by split; [left|]).
  induction l as [|a l IH]; intros pre len Hlen Hpre; cbn [type_loop]; [by apply Hok|]. destruct (negb _); [by apply proper_error|]. destruct (_ || _) eqn:E; [by apply Hok|]. apply orb_false_iff in E as [_ E%Z.ltb_ge].
  assert (zlen (pre ++ type_entry len a) <= mtu - 1) as Hz. { unfold type_entry. rewrite !zlen_app, zlen_fmap. change (zlen (put_le16 _)) with 2. unfold zlen in *. rewrite length_take. lia. }
  destruct (_ =? _); [by apply Hok|by apply IH].
Qed.

Lemma type_answer_proper check mtu pdu l : BT_ATT_DEFAULT_LE_MTU <= mtu -> (forall p a, (p, a) ∈ l -> value_ok a) -> proper BT_ATT_OP_READ_BY_TYPE_REQ mtu (type_answer check mtu BT_ATT_OP_READ_BY_TYPE_REQ pdu l).
Proof.
  intros Hmtu Hok. unfold type_answer. destruct (_ && _); [by apply proper_error|]. destruct (_ || _); [by apply proper_error|]. destruct (_ <? _); [by apply proper_error|]. destruct (pick _ _ _ _) as [|[p a] l'] eqn:Epick; [by apply proper_error|]. cbn [fmap list_fmap snd].
  assert (value_ok a) as Ha. { apply (Hok p). assert ((p, a) ∈ (p, a) :: l') as Hin by (by left). rewrite <-Epick in Hin. by apply list_elem_of_filter in Hin as [_ ?]. } pose proof (bytes_of_length a Ha). pose proof (zlen_nonneg (bytes_of a)).
  unfold type_rsp. destruct (negb _); [by apply proper_error|]. unfold BT_ATT_DEFAULT_LE_MTU in Hmtu. set (len := Z.min _ _). assert (zlen (Some (len + 2) :: type_entry len a) <= mtu - 1) as Hz.
  { unfold type_entry. rewrite zlen_cons, zlen_app, zlen_fmap. change (zlen (put_le16 _)) with 2. unfold zlen. rewrite length_take. unfold len. lia. }
  destruct (_ =? _); [by split; [left|]|]. apply type_loop_proper; [by unfold BT_ATT_DEFAULT_LE_MTU|unfold len; lia|done].
Qed.

Lemma multi_loop_proper check look mtu : BT_ATT_DEFAULT_LE_MTU <= mtu -> forall hs pre a, zlen pre <= mtu - 1 -> proper BT_ATT_OP_READ_MULT_REQ mtu (multi_loop check look mtu pre a hs).
Proof.
  intros Hmtu. induction hs as [|h hs IH]; intros pre a Hpre; cbn [multi_loop]; (destruct (negb _); [by apply proper_error|]).
  all: set (pre' := pre ++ _); assert (zlen pre' <= mtu - 1) as Hz by (unfold pre'; rewrite zlen_app; unfold zlen in *; rewrite length_take; lia).
  all: destruct (_ <=? _); [by split; [left|]|]. { by split; [left|]. } destruct (look h); [by apply IH|by apply proper_error].
Qed.

Section Serving.
Context `{!Allocator} {T U : Type} `{!Transport T} `{!Connection T} (user : App (srv T U)) (fuel : nat).
Abbreviation mem := (Queue.mem (gatt (srv T U))).
Implicit Types (m : mem) (g : gatt (srv T U)) (w : queued) (Q : gmap ptr (Z * entry_list)) (v : srv T U) (sv : bt_gatt_server).

(** ** The state between requests *)

(** The declarations of services are for reading only, as [service_create] makes them. *)
Definition guarded {A} (g : gatt A) : Prop := forall s x a, g_services g !! s = Some x -> s_attributes x !! 0%nat = Some (Attr a) -> a_permissions a = BT_ATT_PERM_READ.

Lemma guarded_spares m Q own d ss v sv h a : sound m Q own d ss -> guarded (world m) -> found (world m) h (Some a) -> access_of v sv a WRITE_MASK = 0 -> spares (world m) h.
Proof.
  intros Sd Hg Hfo Hacc [s i] (x & b & Hx & Hb & Eh) Hi. cbn [fst snd] in *. subst i. assert (b = a) as -> by (eapply found_unique; [done| |exact Hfo]; by exists s, 0%nat, x). unfold access_of in Hacc. by rewrite (Hg s x a Hx Hb) in Hacc.
Qed.
Lemma stores_permissions a a' o data : stores a a' o data -> a_permissions a' = a_permissions a.
Proof. unfold stores. destruct (_ =? 0); [by intros ->|]. by intros (_ & -> & _). Qed.
Lemma guarded_put {A} (g : gatt A) s x i a a' o data : guarded g -> g_services g !! s = Some x -> s_attributes x !! i = Some (Attr a) -> stores a a' o data -> guarded (with_service s (put_slot i a' x) g).
Proof.
  intros Hg Hx Ha Hst t y b Hy Hb. unfold with_service in Hy. cbn in Hy. apply lookup_insert_Some in Hy as [[<- <-]|[_ Hy]]; [|by eapply Hg]. cbn in Hb. apply list_lookup_insert_Some in Hb as [(-> & [= <-] & _)|[_ Hb]]; [|by eapply Hg]. rewrite (stores_permissions a a' o data Hst). by eapply Hg.
Qed.
Lemma guarded_executed {A} (g g' : gatt A) eh l r : executed g eh l g' r -> guarded g -> guarded g'.
Proof. induction 1; [done|done|done|]. intros Hg. apply IHexecuted. by eapply guarded_put. Qed.

Record serves m sv (Q : gmap ptr (Z * entry_list)) own d (ss : list ptr) (q : ptr) (ps : list (ptr * queued)) : Prop := {
  sv_sound : sound m Q own d ss;
  sv_idle : idle (app_of m) sv;
  sv_plain : plain (world m);
  sv_typed : typed (world m);
  sv_size : BT_ATT_DEFAULT_LE_MTU <= att_mtu (v_att (app_of m)) <= UINT16_MAX;
  sv_own_size : BT_ATT_DEFAULT_LE_MTU <= sv_mtu sv <= UINT16_MAX;
  sv_queue : sv_prep_queue sv = Some q;
  sv_free : own !! q = None;
  sv_preps : queues_preps Q (v_preps (app_of m)) q ps;
  sv_max : zlen ps <= sv_max_prep_queue_len sv <= UINT16_MAX;
  sv_spared w : w ∈ ps.*2 -> spares (world m) (qw_handle w) /\ 0 <= qw_offset w;
  sv_refs : 2 <= d_ref_count d;
  sv_count : sv_ref_count sv = 1;
  sv_guarded : guarded (world m)
}.

(** The services [ss] in their order and the prepared writes [l]. *)
Definition serving m sv (ss : list ptr) (l : list queued) : Prop := exists Q own d q ps, serves m sv Q own d ss q ps /\ ps.*2 = l.

Lemma idle_sent r v sv : idle v sv -> idle (sent r v) sv.
Proof. done. Qed.

(** An answer changes nothing else. *)
Lemma serves_replies m m' sv Q own d ss q ps r : serves m sv Q own d ss q ps -> replies Q r m m' -> serves m' sv Q own d ss q ps.
Proof.
  intros [H1 H2 H3 H4 H5 H6 H7 H8 H9 H10 H11 H12 H13 H14] [R W]. assert (app_of m' = sent r (app_of m)) as Ha by (unfold app_of; by rewrite W). split; try done; rewrite ?Ha, ?W; try done.
  - by eapply sound_beside.
  - change (v_att (sent r (app_of m))) with (att_send r.1 r.2 (v_att (app_of m))).2. by rewrite send_keeps.
Qed.

(** ** Requests that change nothing *)

Lemma look_unique m Q own d ss look h o : sound m Q own d ss -> (forall h, found (world m) h (look h)) -> found (world m) h o -> look h = o.
Proof. intros Sd Hl Ho. destruct o as [a|]; [by eapply look_some|by eapply look_none]. Qed.

Lemma read_request_wp n m Q own d ss sv opcode pdu (P : () -> mem -> Prop) : opcode = BT_ATT_OP_READ_REQ \/ opcode = BT_ATT_OP_READ_BLOB_REQ ->
  sound m Q own d ss -> idle (app_of m) sv -> plain (world m) -> is_bytes pdu -> BT_ATT_DEFAULT_LE_MTU <= att_mtu (v_att (app_of m)) <= UINT16_MAX ->
  (forall m', replies Q (match read_target opcode pdu with
      | Some (handle, offset) => read_answer (app_of m) sv opcode handle offset (at_handle (world m) ss handle)
      | None => error_rsp opcode 0 BT_ATT_ERROR_INVALID_PDU
      end) m m' -> P () m') ->
  wp (handler (app := server_app user fuel (S n)) fuel opcode pdu) P m.
Proof.
  intros Hop Sd Hv Hpl Hb Hmtu HP. unfold BT_ATT_DEFAULT_LE_MTU in Hmtu. pose proof Hv as (Hsv & _). pose proof (db_rep _ _ _ _ _ _ (sound_db _ _ _ _ _ Sd)) as R.
  assert (opcode <> 0) as Hnz by (by destruct Hop as [->| ->]). assert (forall m', answered (error_rsp opcode 0 BT_ATT_ERROR_INVALID_PDU) m m' -> replies Q (error_rsp opcode 0 BT_ATT_ERROR_INVALID_PDU) m m') as Herr by (intros m' Ha; by apply answered_replies).
  assert (forall h o, is_u16 h -> is_u16 o -> (forall m', replies Q (read_answer (app_of m) sv opcode h o (at_handle (world m) ss h)) m m' -> P () m') ->
    wp (handle_read_req (app := server_app user fuel (S n)) fuel opcode h o) P m) as Hread.
  { intros h o Hh Ho HP'. eapply (handle_read_wp user fuel n m Q own d ss sv); [done|done|done|apply Ho|lia| |].
    - intros a (s & i & x & Hx & Ha & _). by eapply Hpl.
    - intros o' m' Ho' Hans. apply HP'. rewrite (look_unique m Q own d ss (at_handle (world m) ss) h o'); [by apply answered_replies|done|by eapply at_handle_found|done]. }
  destruct Hop as [-> | ->]; cbn [handler]; unfold read_target in HP.
  - change (wp (read_cb (app := server_app user fuel (S n)) fuel BT_ATT_OP_READ_REQ pdu) P m). unfold read_cb. cbn [Z.eqb Pos.eqb BT_ATT_OP_READ_REQ] in HP. destruct (Z.eqb_spec (zlen pdu) 2) as [E|E]; cbn [negb].
    + unfold zlen in E. gatt_step. eapply le16_at_wp; [apply get_word; lia|]. apply Hread; [apply word_range; [done|lia]|done|exact HP].
    + eapply wp_send_error; [done|done|]. apply HP, Herr. done.
  - change (wp (read_blob_cb (app := server_app user fuel (S n)) fuel BT_ATT_OP_READ_BLOB_REQ pdu) P m). unfold read_blob_cb. cbn [Z.eqb Pos.eqb BT_ATT_OP_READ_REQ BT_ATT_OP_READ_BLOB_REQ] in HP. destruct (Z.eqb_spec (zlen pdu) 4) as [E|E]; cbn [negb].
    + unfold zlen in E. gatt_step. eapply le16_at_wp; [apply get_word; lia|]. gatt_step. eapply le16_at_wp; [apply get_word; lia|]. apply Hread; [apply word_range; [done|lia]|apply word_range; [done|lia]|exact HP].
    + eapply wp_send_error; [done|done|]. apply HP, Herr. done.
Qed.

(** Answers when there is no memory. *)
Definition short_of_memory (opcode : Z) (pdu : bytes) (r : pdu_of) : Prop :=
  refused /\ ((opcode = BT_ATT_OP_READ_BY_TYPE_REQ /\ r = error_rsp opcode (word pdu 0) BT_ATT_ERROR_INSUFFICIENT_RESOURCES) \/ (opcode = BT_ATT_OP_READ_MULT_REQ /\ r = error_rsp opcode 0 BT_ATT_ERROR_UNLIKELY)).

Lemma query_wp n m sv Q own d ss q ps opcode pdu r (P : () -> mem -> Prop) : serves m sv Q own d ss q ps -> answer (world m) sv ss opcode pdu = Some r -> is_bytes pdu -> zlen pdu <= UINT16_MAX ->
  UINT16_MAX < Z.of_nat fuel -> UINT16_MAX <= Z.of_nat n -> (opcode = BT_ATT_OP_FIND_BY_TYPE_REQ -> initialised (world m)) ->
  (forall m' r', replies Q r' m m' -> r' = r \/ short_of_memory opcode pdu r' -> P () m') -> wp (handler (app := server_app user fuel (S n)) fuel opcode pdu) P m.
Proof.
  intros [Sd Hv Hpl Hty Hmtu _ _ _ _ _ _ _ _ _] Hans Hb Hlen Hfuel Hn Hinit HP. assert (forall m', replies Q r m m' -> P () m') as HP1 by (intros m' Hr; eapply HP; [done|by left]). destruct (listing_bound _ _ _ _ _ Sd) as [Hl1 Hl2]. unfold UINT16_MAX, zlen in Hl1, Hl2, Hfuel, Hn, Hlen.
  unfold answer in Hans. change (g_app (world m)) with (app_of m) in Hans.
  destruct (Z.eqb_spec opcode BT_ATT_OP_READ_BY_GRP_TYPE_REQ) as [->|N1]; [injection Hans as <-; by eapply (read_by_group_wp user fuel n m Q own d ss sv); [..|lia|]|].
  destruct (Z.eqb_spec opcode BT_ATT_OP_READ_BY_TYPE_REQ) as [->|N2].
  { injection Hans as <-. eapply (read_by_type_request_wp user fuel (S n) m Q own d ss sv); [done|done|done|done|done|done|done|lia|lia|lia|]. intros m' r' Hr [->|[Href ->]]; [by apply HP1|]. eapply HP; [done|]. right. split; [done|]. by left. }
  destruct (Z.eqb_spec opcode BT_ATT_OP_FIND_INFO_REQ) as [->|N3]; [injection Hans as <-; eapply (find_info_wp fuel m Q own d ss sv); [done|apply Hv|done|done|done|lia|lia|done]|].
  destruct (Z.eqb_spec opcode BT_ATT_OP_FIND_BY_TYPE_REQ) as [->|N4]; [injection Hans as <-; eapply (find_by_type_val_wp fuel m Q own d ss sv); [done|done|done|done|by apply Hinit|done|done|lia|done]|].
  destruct ((opcode =? BT_ATT_OP_READ_REQ) || (opcode =? BT_ATT_OP_READ_BLOB_REQ)) eqn:N5; [injection Hans as <-; eapply (read_request_wp n m Q own d ss sv); [lia|done|done|done|done|done|done]|].
  destruct (Z.eqb_spec opcode BT_ATT_OP_READ_MULT_REQ) as [->|N6]; [|done]. injection Hans as <-.
  eapply (read_multiple_wp user fuel n m Q own d ss sv (at_handle (world m) ss)); [done|done|done|done|done|by eapply at_handle_found| |].
  - unfold zlen. pose proof (Z.div_le_upper_bound (Z.of_nat (length pdu)) 2 UINT16_MAX ltac:(lia)). unfold UINT16_MAX in *. lia.
  - intros m' r' Hr [->|[Href ->]]; [by apply HP1|]. eapply HP; [done|]. right. split; [done|]. by right.
Qed.

(** The answers are proper. *)
Lemma answer_proper m Q own d ss sv opcode pdu r : sound m Q own d ss -> plain (world m) -> typed (world m) -> BT_ATT_DEFAULT_LE_MTU <= att_mtu (v_att (app_of m)) ->
  answer (world m) sv ss opcode pdu = Some r -> proper opcode (att_mtu (v_att (app_of m))) r.
Proof.
  intros Sd Hpl Hty Hmtu. unfold answer. change (g_app (world m)) with (app_of m). set (mtu := att_mtu _) in *.
  destruct (Z.eqb_spec opcode BT_ATT_OP_READ_BY_GRP_TYPE_REQ) as [->|N1].
  { intros [= <-]. unfold group_answer. destruct (_ && _); [by apply proper_error|]. destruct (_ || _); [by apply proper_error|]. destruct (_ <? _); [by apply proper_error|]. destruct (negb _ && _); [by apply proper_error|].
    pose proof (groups_alike (world m) (request_uuid pdu) (word pdu 0) (word pdu 2) ss) as Hga. destruct (groups _ _ _ _ _ _) as [|s l]; [by apply proper_error|]. split; [by left|].
    assert (forall u, u ∈ ss -> group_len (world m) u <> 0) as Hnz by (intros u Hu; destruct (declares_of _ _ _ _ _ _ Sd Hpl Hu) as [_ ?]; lia). specialize (Hga s l Hnz eq_refl). destruct (Hga s ltac:(by left)) as [Hs _]. destruct (declares_of _ _ _ _ _ _ Sd Hpl Hs) as [_ Hlen].
    cbn [snd]. unfold BT_ATT_DEFAULT_LE_MTU in Hmtu. apply group_rsp_len; [lia|lia|done|]. intros t Ht. destruct (Hga t Ht) as [Hts <-]. by eapply declares_of. }
  destruct (Z.eqb_spec opcode BT_ATT_OP_READ_BY_TYPE_REQ) as [->|N2]; [intros [= <-]; apply type_answer_proper; [done|]|].
  { intros p a (s & x & i & _ & Hx & _ & _ & Ha)%listing_elem. destruct (sound_listed _ _ _ _ _ Sd s x Hx) as [_ Hreg]. by eapply reg_values. }
  destruct (Z.eqb_spec opcode BT_ATT_OP_FIND_INFO_REQ) as [->|N3].
  { intros [= <-]. unfold find_info_answer. destruct (negb _); [by apply proper_error|]. destruct (_ || _); [by apply proper_error|]. destruct (_ <? _); [by apply proper_error|]. pose proof (pick_stands m Q own d ss (fun _ => true) (word pdu 0) (word pdu 2) Sd Hty) as Hst.
    destruct (pick _ _ _ _) as [|[p a] l]; [by apply proper_error|]. cbn [fmap list_fmap snd]. split; [by left|]. cbn [snd]. rewrite zlen_fmap. apply find_info_fits; [|done]. intros b Hb. change (a :: l.*2) with ((p, a) :: l).*2 in Hb. apply list_elem_of_fmap in Hb as ([p' b'] & -> & Hin). by destruct (Hst p' b' Hin) as (? & _ & _ & ? & _). }
  destruct (Z.eqb_spec opcode BT_ATT_OP_FIND_BY_TYPE_REQ) as [->|N4].
  { intros [= <-]. unfold value_answer. destruct (_ <? _); [by apply proper_error|]. destruct (_ <? _); [by apply proper_error|]. destruct (pick _ _ _ _).*1 as [|p l]; [by apply proper_error|]. split; [by left|]. cbn [snd]. unfold BT_ATT_DEFAULT_LE_MTU in Hmtu.
    rewrite zlen_fmap, value_rsp_len by lia. pose proof (Z.mul_div_le (mtu - 1) 4 ltac:(lia)). lia. }
  destruct ((opcode =? BT_ATT_OP_READ_REQ) || (opcode =? BT_ATT_OP_READ_BLOB_REQ)) eqn:N5.
  { intros [= <-]. destruct (read_target opcode pdu) as [[h o]|]; [|by apply proper_error]. unfold read_answer. destruct (at_handle _ _ _) as [a|]; [|by apply proper_error]. destruct (negb _); [by apply proper_error|]. destruct (_ <? _); [by apply proper_error|].
    split; [left|]. { apply orb_true_iff in N5 as [->%Z.eqb_eq| ->%Z.eqb_eq]; done. } cbn [snd read_rsp]. fold mtu. unfold BT_ATT_DEFAULT_LE_MTU, zlen in *. rewrite length_take. lia. }
  destruct (Z.eqb_spec opcode BT_ATT_OP_READ_MULT_REQ) as [->|N6]; [|done]. intros [= <-]. unfold multi_answer. destruct (_ <? _); [by apply proper_error|]. destruct (request_handles pdu); [by apply proper_error|]. destruct (at_handle _ _ _); [|by apply proper_error].
  apply multi_loop_proper; [done|]. change (zlen []) with 0. unfold BT_ATT_DEFAULT_LE_MTU in Hmtu. lia.
Qed.

(** ** Requests that change the state *)

Lemma mtu_wp m sv Q own d ss q ps pdu (P : () -> mem -> Prop) : serves m sv Q own d ss q ps -> is_bytes pdu ->
  (forall m' r sv', serves m' sv' Q own d ss q ps -> proper BT_ATT_OP_MTU_REQ (att_mtu (v_att (app_of m))) r -> world m' = set_app (app_of m') (world m) ->
    (exists n, v_att (app_of m') = att_set_mtu n (att_send r.1 r.2 (v_att (app_of m))).2) \/ v_att (app_of m') = (att_send r.1 r.2 (v_att (app_of m))).2 -> P () m') ->
  wp (exchange_mtu_cb BT_ATT_OP_MTU_REQ pdu) P m.
Proof.
  intros Hs Hb HP. pose proof Hs as [Sd Hv Hpl Hty Hmtu Hown Hq Hfree Hps Hmax Hsp Hrefs Hcount Hguard]. pose proof Hv as (Hsv & Hidle). pose proof (db_rep _ _ _ _ _ _ (sound_db _ _ _ _ _ Sd)) as R. unfold exchange_mtu_cb. destruct (Z.eqb_spec (zlen pdu) 2) as [E|E]; cbn [negb].
  - unfold zlen in E. gatt_step. eapply le16_at_wp; [apply get_word; lia|]. gatt_step. eapply wp_load_server; [done|]. gatt_step. set (rsp := (BT_ATT_OP_MTU_RSP, Some <$> put_le16 (sv_mtu sv))). eapply wp_send; [done|]. fold rsp. pose proof (word_range pdu 0 Hb ltac:(lia)) as Hw.
    unfold is_u16, in_range, UINT16_MAX, BT_ATT_DEFAULT_LE_MTU in Hw, Hown, Hmtu. rewrite u16_small by (unfold BT_ATT_DEFAULT_LE_MTU; lia). set (n := Z.max _ _). gatt_step. eapply wp_update_server; [done|]. apply wp_change. set (m' := put_app _ _).
    assert (BT_ATT_DEFAULT_LE_MTU <= n <= UINT16_MAX) as Hn by (unfold n, BT_ATT_DEFAULT_LE_MTU, UINT16_MAX; lia). eapply (HP m' rsp (set_mtu n sv)).
    + split; try done.
      * by eapply (sound_beside m); [..|by eapply represents_frame|].
      * change (v_att (app_of m')) with (att_set_mtu n (att_send rsp.1 rsp.2 (v_att (app_of m))).2). by rewrite set_mtu_sets.
    + split; [by left|]. change (zlen rsp.2) with 2. lia.
    + done.
    + left. by exists n.
  - eapply wp_send_error; [done|done|]. eapply (HP _ (error_rsp BT_ATT_OP_MTU_REQ 0 BT_ATT_ERROR_INVALID_PDU) sv); [|apply proper_error; lia|done|by right]. eapply (serves_replies m); [done|]. split; [by eapply represents_frame|done].
Qed.

Lemma serves_write m m' sv Q own d ss q ps s x i a a' o data r : serves m sv Q own d ss q ps -> g_services (world m) !! s = Some x -> s_attributes x !! i = Some (Attr a) -> i <> 0%nat -> stores a a' o data -> represents ∅ m' Q ->
  world m' = set_app (replied r (app_of m)) (with_service s (put_slot i a' x) (world m)) -> serves m' sv Q own d ss q ps.
Proof.
  intros [Sd Hv Hpl Hty Hmtu Hown Hq Hfree Hps Hmax Hsp Hrefs Hcount Hguard] Hx Ha Hi Hst R W. destruct (sound_listed _ _ _ _ _ Sd s x Hx) as [_ Hreg]. destruct (stores_shape a a' o data (reg_values _ Hreg _ _ Ha) Hst) as [Hok E]. assert (app_of m' = replied r (app_of m)) as Ha' by (unfold app_of; by rewrite W).
  split; try done; rewrite ?Ha', ?W.
  - by eapply write_sound.
  - by destruct r.
  - by eapply (plain_put (world m)).
  - by eapply (typed_put (world m)).
  - destruct r as [r|]; [|done]. cbn [replied]. change (v_att (sent r (app_of m))) with (att_send r.1 r.2 (v_att (app_of m))).2. by rewrite send_keeps.
  - by destruct r.
  - intros w Hw. destruct (Hsp w Hw) as [Hsw ?]. split; [|done]. intros p Hp. apply Hsw. by eapply (handle_put (world m) s x i a a'); [..|rewrite E|].
  - by eapply (guarded_put (world m)).
Qed.

(** What the theorems ask of a request: its size, that values it compares were written before, and for prepared
    writes memory and a length below 64 KiB. *)
Record admissible m (l : list queued) (opcode : Z) (pdu : bytes) : Prop := {
  ad_bytes : is_bytes pdu;
  ad_size : zlen pdu <= att_mtu (v_att (app_of m)) - 1;
  ad_known : opcode = BT_ATT_OP_FIND_BY_TYPE_REQ \/ opcode = BT_ATT_OP_PREP_WRITE_REQ -> initialised (world m);
  ad_room : opcode = BT_ATT_OP_PREP_WRITE_REQ -> ~ refused /\ roomy_for l (drop 4 pdu)
}.

(** What the transport has got: one proper answer to a request, nothing for a command. *)
Definition transmitted (opcode : Z) (t t' : T) : Prop :=
  if bool_decide (opcode ∈ handled) && negb (opcode =? BT_ATT_OP_WRITE_CMD) then
    exists r, proper opcode (att_mtu t) r /\ (t' = (att_send r.1 r.2 t).2 \/ (opcode = BT_ATT_OP_MTU_REQ /\ exists n, t' = att_set_mtu n (att_send r.1 r.2 t).2))
  else t' = t.

Definition stepped m sv ss opcode m' : Prop := exists sv' l', serving m' sv' ss l' /\ transmitted opcode (v_att (app_of m)) (v_att (app_of m')).

Lemma stepped_replies m m' sv Q own d ss q ps opcode r : serves m sv Q own d ss q ps -> replies Q r m m' -> opcode ∈ handled -> opcode <> BT_ATT_OP_WRITE_CMD -> proper opcode (att_mtu (v_att (app_of m))) r -> stepped m sv ss opcode m'.
Proof.
  intros Hs Hr Hin Hne Hp. exists sv, ps.*2. split; [exists Q, own, d, q, ps; split; [by eapply serves_replies|done]|]. unfold transmitted. rewrite bool_decide_true, (proj2 (Z.eqb_neq _ _)) by done. cbn [negb andb]. exists r. split; [done|]. left. destruct Hr as [_ W]. unfold app_of. by rewrite W.
Qed.

(** A write of [data] at [offset] to the attribute of the handle [h]. *)
Definition stored g g' (h offset : Z) (data : bytes) (o : option pdu_of) : Prop :=
  exists s i x a a', g_services g !! s = Some x /\ s_attributes x !! i = Some (Attr a) /\ a_handle a = h /\ stores a a' offset data /\ g' = set_app (replied o (g_app g)) (with_service s (put_slot i a' x) g).

(** What Write Request and Write Command do. *)
Definition write_effect m sv opcode pdu m' : Prop :=
  (exists h e, world m' = set_app (replied (unless_command opcode (error_rsp opcode h e)) (app_of m)) (world m) /\
    ((zlen pdu < 2 /\ h = 0 /\ e = BT_ATT_ERROR_INVALID_PDU) \/ (get_le16 pdu = Ret h /\ refused) \/ (get_le16 pdu = Ret h /\ exists o, found (world m) h o /\ write_error (app_of m) sv o = Some e))) \/
  stored (world m) (world m') (word pdu 0) 0 (drop 2 pdu) (unless_command opcode (BT_ATT_OP_WRITE_RSP, [])).

Lemma write_exact n m sv ss l opcode pdu : serving m sv ss l -> opcode = BT_ATT_OP_WRITE_REQ \/ opcode = BT_ATT_OP_WRITE_CMD ->
  wp (write_cb (app := server_app user fuel (S n)) opcode pdu) (fun _ m' => serving m' sv ss l /\ write_effect m sv opcode pdu m') m.
Proof.
  intros (Q & own & d & q & ps & Hs & <-) Hop. pose proof (sv_guarded _ _ _ _ _ _ _ _ Hs) as Hguard. pose proof Hs as [Sd Hv Hpl Hty Hmtu _ _ _ _ _ _ _ _ _]. pose proof (db_rep _ _ _ _ _ _ (sound_db _ _ _ _ _ Sd)) as R.
  eapply (write_wp user fuel n m Q own d ss sv); [done|done|by destruct Hop as [-> | ->]|..].
  - intros h a _ (s & i & x & Hx & Ha & _). by eapply Hpl.
  - intros e h m' E1 E2 W Hwhy. split; [|left; by exists h, e]. assert (app_of m' = replied (unless_command opcode (error_rsp opcode h e)) (app_of m)) as Ha' by (unfold app_of; by rewrite W). exists Q, own, d, q, ps. split; [|done].
    unfold unless_command in *. destruct (opcode =? _); cbn [replied] in *.
    + destruct Hs. unfold app_of in W. rewrite set_app_same in W. assert (app_of m' = app_of m) as Ea by (unfold app_of; by rewrite W). split; rewrite ?Ea, ?W; try done. eapply (sound_beside m _ _ _ _ _ (app_of m)); [done|by eapply represents_frame|]. rewrite W. symmetry. exact (set_app_same (world m)).
    + eapply (serves_replies m); [done|]. split; [by eapply represents_frame|exact W].
  - intros h s i x a a' m' Hh Hs' Hx Ha Eh Hwr Hst (E1 & E2 & W). assert (word pdu 0 = h) as Ew by (unfold word; rewrite drop_0; by rewrite Hh). assert (i <> 0%nat) as Hi. { apply (guarded_spares m Q own d ss (app_of m) sv h a Sd Hguard) with (p := (s, i)); [by exists s, i, x| |by exists x, a]. unfold write_error in Hwr. destruct (Z.eqb_spec (access_of (app_of m) sv a WRITE_MASK) 0); [done|done]. }
    split; [exists Q, own, d, q, ps; split; [|done]; eapply (serves_write m); [done|done|done|done|exact Hst|by eapply represents_frame|exact W]|]. right. exists s, i, x, a, a'. split_and!; [done|done|congruence|done|exact W].
Qed.

Lemma write_step n m sv ss l opcode pdu : serving m sv ss l -> opcode = BT_ATT_OP_WRITE_REQ \/ opcode = BT_ATT_OP_WRITE_CMD -> BT_ATT_DEFAULT_LE_MTU <= att_mtu (v_att (app_of m)) ->
  wp (write_cb (app := server_app user fuel (S n)) opcode pdu) (fun _ m' => stepped m sv ss opcode m') m.
Proof.
  intros Hs Hop Hmtu. eapply wp_mono; [by apply (write_exact n m sv ss l)|]. intros [] m' [Hs' Heff]. exists sv, l. split; [done|].
  assert (exists r, (opcode = BT_ATT_OP_WRITE_REQ -> proper opcode (att_mtu (v_att (app_of m))) r) /\ app_of m' = replied (unless_command opcode r) (app_of m)) as (r & Hp & Ha).
  { destruct Heff as [(h & e & W & _)|(s & i & x & a & a' & _ & _ & _ & _ & W)]; [exists (error_rsp opcode h e)|exists (BT_ATT_OP_WRITE_RSP, [])]; (split; [|unfold app_of at 1; by rewrite W]); intros ->; [by apply proper_error|].
    unfold BT_ATT_DEFAULT_LE_MTU in Hmtu. split; [by left|]. change (zlen (BT_ATT_OP_WRITE_RSP, []).2) with 0. lia. }
  rewrite Ha. unfold transmitted, unless_command. destruct Hop as [-> | ->]; [|done]. cbn. exists r. split; [by apply Hp|]. by left.
Qed.

Lemma enqueue_elem l h o data r w : w ∈ enqueue l h o data r -> (exists w0, w0 ∈ l /\ qw_handle w = qw_handle w0 /\ qw_offset w = qw_offset w0) \/ (qw_handle w = h /\ qw_offset w = o).
Proof.
  unfold enqueue. destruct l as [|w1 l _] using rev_ind; [cbn; intros ->%list_elem_of_singleton; by right|]. rewrite last_snoc. destruct (_ && _).
  - rewrite removelast_last. intros [Hin| ->%list_elem_of_singleton]%elem_of_app; left; [exists w; split; [|done]|exists w1; split; [|done]]; apply elem_of_app; [by left|right; by left].
  - intros [Hin| ->%list_elem_of_singleton]%elem_of_app; [left; by exists w|by right].
Qed.
Lemma enqueue_length l h o data r : zlen (enqueue l h o data r) <= zlen l + 1.
Proof.
  unfold enqueue. destruct l as [|w1 l _] using rev_ind; [cbn; done|]. rewrite last_snoc. destruct (_ && _); rewrite ?removelast_last, !zlen_app; [change (zlen [_]) with 1 at 1|]; change (zlen [_]) with 1; lia.
Qed.

(** What Prepare Write does; [r] says whether reliable writes are supported. *)
Definition prep_effect m sv ss l pdu m' : Prop :=
  exists r rsp l' preps, prep_answer (fun a => access_of (app_of m) sv a WRITE_MASK) (at_handle (world m) ss) (sv_max_prep_queue_len sv) BT_ATT_OP_PREP_WRITE_REQ pdu r l = (rsp, l') /\
    proper BT_ATT_OP_PREP_WRITE_REQ (att_mtu (v_att (app_of m))) rsp /\ serving m' sv ss l' /\ world m' = set_app (set_preps preps (sent rsp (app_of m))) (world m).

Lemma prep_exact n m sv ss l pdu : serving m sv ss l -> admissible m l BT_ATT_OP_PREP_WRITE_REQ pdu ->
  wp (prep_write_cb (app := server_app user fuel (S (S n))) BT_ATT_OP_PREP_WRITE_REQ pdu) (fun _ m' => prep_effect m sv ss l pdu m') m.
Proof.
  intros (Q & own & d & q & ps & Hs & <-) [Hb Hsize Hinit Hroom]. pose proof Hs as [Sd Hv Hpl Hty Hmtu Hown Hq Hfree Hps Hmax Hsp Hrefs Hcount Hguard]. destruct (Hroom eq_refl) as [Hmem Hr]. specialize (Hinit ltac:(tauto)).
  eapply (prep_write_wp user fuel n m Q own d ss sv (at_handle (world m) ss) q ps); [done|done|done|done|done|done|done|by eapply at_handle_found|done|done|lia|done|lia|done|]. intros m' r _.
  destruct (prep_answer _ _ _ _ _ _ _) as [rsp l'] eqn:Eans. intros (Q' & preps & ps' & R' & HQ' & Hps' & Hl' & W').
  assert (proper BT_ATT_OP_PREP_WRITE_REQ (att_mtu (v_att (app_of m))) rsp /\ zlen l' <= sv_max_prep_queue_len sv /\ forall w, w ∈ l' -> spares (world m) (qw_handle w) /\ 0 <= qw_offset w) as (Hprop & Hlen' & Hsp').
  { revert Eans. unfold prep_answer. rewrite zlen_fmap. assert (forall h e, (error_rsp BT_ATT_OP_PREP_WRITE_REQ h e, ps.*2) = (rsp, l') -> proper BT_ATT_OP_PREP_WRITE_REQ (att_mtu (v_att (app_of m))) rsp /\ zlen l' <= sv_max_prep_queue_len sv /\ forall w, w ∈ l' -> spares (world m) (qw_handle w) /\ 0 <= qw_offset w) as Herr.
    { intros h e [= <- <-]. rewrite zlen_fmap. split_and!; [apply proper_error; lia|lia|done]. }
    destruct (Z.ltb_spec (zlen pdu) 4) as [|Hge]; [by apply Herr|]. destruct (Z.leb_spec (sv_max_prep_queue_len sv) (zlen ps)); [by apply Herr|]. pose proof (at_handle_found m Q own d ss Sd (word pdu 0)) as Hfo. destruct (at_handle _ _ _) as [a|]; [|by apply Herr].
    destruct (Z.eqb_spec (access_of (app_of m) sv a WRITE_MASK) 0) as [Hacc|]; cbn [negb]; [|by apply Herr]. intros [= <- <-]. split_and!.
    - split; [by left|]. cbn [snd]. by rewrite zlen_fmap.
    - pose proof (enqueue_length ps.*2 (word pdu 0) (word pdu 2) (drop 4 pdu) r) as Hl. rewrite zlen_fmap in Hl. lia.
    - intros w [(w0 & Hin & -> & ->)|[-> ->]]%enqueue_elem; [by apply Hsp|]. split; [by eapply guarded_spares|]. unfold zlen in Hge. apply (word_range pdu 2); [done|lia]. }
  assert (app_of m' = set_preps preps (sent rsp (app_of m))) as Ha' by (unfold app_of; by rewrite W'). exists r, rsp, l', preps. split_and!; [done|done| |exact W'].
  exists Q', own, d, q, ps'. split; [|done]. assert (zlen ps' = zlen l') as Ez by (by rewrite <-Hl', zlen_fmap). split; rewrite ?Ha', ?W'; try done.
  - eapply (sound_transport m); [done|done| |by rewrite W']. intros q' [o Ho]. apply HQ'. congruence.
  - change (v_att (set_preps preps (sent rsp (app_of m)))) with (att_send rsp.1 rsp.2 (v_att (app_of m))).2. by rewrite send_keeps.
  - rewrite Ez. lia.
  - rewrite Hl'. exact Hsp'.
Qed.

Lemma prep_step n m sv ss l pdu : serving m sv ss l -> admissible m l BT_ATT_OP_PREP_WRITE_REQ pdu ->
  wp (prep_write_cb (app := server_app user fuel (S (S n))) BT_ATT_OP_PREP_WRITE_REQ pdu) (fun _ m' => stepped m sv ss BT_ATT_OP_PREP_WRITE_REQ m') m.
Proof.
  intros Hs Had. eapply wp_mono; [by apply (prep_exact n m sv ss l)|]. intros [] m' (r & rsp & l' & preps & _ & Hp & Hs' & W). exists sv, l'. split; [done|]. unfold transmitted. cbn. exists rsp. split; [done|]. left. unfold app_of. by rewrite W.
Qed.

Lemma executed_proper g eh l g' r mtu : BT_ATT_DEFAULT_LE_MTU <= mtu -> executed g eh l g' r -> proper BT_ATT_OP_EXEC_WRITE_REQ mtu r.
Proof.
  intros Hmtu. induction 1; [|by apply proper_error|by apply proper_error|done]. unfold BT_ATT_DEFAULT_LE_MTU in Hmtu. split; [by left|]. change (zlen _) with 0. lia.
Qed.
Lemma refusal_proper pdu l r mtu : BT_ATT_DEFAULT_LE_MTU <= mtu -> exec_refusal BT_ATT_OP_EXEC_WRITE_REQ pdu l = Some r -> proper BT_ATT_OP_EXEC_WRITE_REQ mtu r.
Proof.
  intros Hmtu. unfold exec_refusal. destruct (negb _); [intros [= <-]; by apply proper_error|]. destruct pdu as [|flags pdu]; [done|]. destruct (flags =? 0); [intros [= <-]; unfold BT_ATT_DEFAULT_LE_MTU in Hmtu; split; [by left|]; change (zlen _) with 0; lia|].
  destruct (negb _); [intros [= <-]; by apply proper_error|]. destruct (_ <? _); [|done]. destruct (unreliable l); [|done]. intros [= <-]. by apply proper_error.
Qed.

(** What Execute Write does: the writes in their order, up to the first that fails. *)
Definition exec_effect m (l : list queued) pdu m' : Prop :=
  exists g' r preps, match exec_refusal BT_ATT_OP_EXEC_WRITE_REQ pdu l with Some r0 => g' = world m /\ r = r0 | None => executed (world m) 0 l g' r end /\
    world m' = set_app (set_preps preps (sent r (app_of m))) g'.

Lemma exec_exact n m sv ss l pdu : serving m sv ss l -> UINT16_MAX < Z.of_nat fuel -> UINT16_MAX <= Z.of_nat n ->
  wp (exec_write_cb (app := server_app user fuel n) fuel BT_ATT_OP_EXEC_WRITE_REQ pdu) (fun _ m' => serving m' sv ss [] /\ exec_effect m l pdu m') m.
Proof.
  intros (Q & own & d & q & ps & Hs & <-) Hf Hn. pose proof Hs as [Sd Hv Hpl Hty Hmtu Hown Hq Hfree Hps Hmax Hsp Hrefs Hcount Hguard]. unfold UINT16_MAX in Hf, Hn, Hmax. assert (Z.of_nat (length ps) <= 65535) as Hl by (unfold zlen in Hmax; lia).
  eapply (exec_write_wp user fuel n m Q own d ss sv q ps); [done|done|done|done|done|done|done|done|lia|lia|unfold UINT16_MAX; lia|done|]. intros m' (g' & r & preps' & Hcase & Sd' & Hpl' & Hty' & W').
  assert (app_of m' = set_preps preps' (sent r (app_of m))) as Ha' by (unfold app_of; by rewrite W'). split; [|by exists g', r, preps'].
  exists (<[q := (1, [])]> Q), own, d, q, []. split; [|done]. split; rewrite ?Ha', ?W'; try done.
  - change (v_att (set_preps preps' (sent r (app_of m)))) with (att_send r.1 r.2 (v_att (app_of m))).2. by rewrite send_keeps.
  - exists []. split_and!; [by rewrite lookup_insert_eq|done|constructor|by intros ? ? ?%elem_of_nil].
  - change (zlen []) with 0. pose proof (zlen_nonneg ps). unfold UINT16_MAX. lia.
  - by intros w ?%elem_of_nil.
  - cut (guarded g'); [done|]. destruct (exec_refusal _ _ _); [by destruct Hcase as [-> _]|by eapply (guarded_executed (world m))].
Qed.

Lemma exec_step n m sv ss l pdu : serving m sv ss l -> UINT16_MAX < Z.of_nat fuel -> UINT16_MAX <= Z.of_nat n -> BT_ATT_DEFAULT_LE_MTU <= att_mtu (v_att (app_of m)) ->
  wp (exec_write_cb (app := server_app user fuel n) fuel BT_ATT_OP_EXEC_WRITE_REQ pdu) (fun _ m' => stepped m sv ss BT_ATT_OP_EXEC_WRITE_REQ m') m.
Proof.
  intros Hs Hf Hn Hmtu. eapply wp_mono; [by apply (exec_exact n m sv ss l)|]. intros [] m' [Hs' (g' & r & preps & Hcase & W)]. exists sv, []. split; [done|]. unfold transmitted. cbn. exists r.
  split; [|left; unfold app_of; by rewrite W]. destruct (exec_refusal _ _ _) as [r0|] eqn:Er; [destruct Hcase as [_ ->]; by eapply refusal_proper|by eapply executed_proper].
Qed.

(** Every request. *)
Lemma step_wp m sv ss l opcode pdu : serving m sv ss l -> admissible m l opcode pdu -> UINT16_MAX + 2 < Z.of_nat fuel -> wp (serve user fuel opcode pdu) (fun _ m' => stepped m sv ss opcode m') m.
Proof.
  intros (Q & own & d & q & ps & Hs & <-) Had Hf. pose proof Hs as [Sd Hv Hpl Hty Hmtu _ _ _ _ _ _ _ _ _]. pose proof Had as [Hb Hsize Hinit Hroom]. unfold serve. assert (exists n, fuel = S (S n) /\ UINT16_MAX <= Z.of_nat n) as (n & En & Hn) by (exists (pred (pred fuel)); unfold UINT16_MAX in *; lia).
  assert (forall k, k = S (S n) -> wp (handler (app := server_app user fuel k) fuel opcode pdu) (fun _ m' => stepped m sv ss opcode m') m) as Hk; [|by apply Hk]. intros k ->.
  destruct (answer (world m) sv ss opcode pdu) as [r|] eqn:Eans.
  { eapply (query_wp (S n) m sv Q own d ss q ps); [done|exact Eans|done|lia|lia|lia|intros ->; apply Hinit; tauto|]. intros m' r' Hr Hwhy. assert (opcode ∈ handled /\ opcode <> BT_ATT_OP_WRITE_CMD) as [Hin Hne].
    { revert Eans. unfold answer. clear. repeat (case_match; [match goal with H : (_ =? _) = true |- _ => apply Z.eqb_eq in H as -> | H : _ || _ = true |- _ => apply orb_true_iff in H as [->%Z.eqb_eq | ->%Z.eqb_eq] end; intros _; (split; [by apply (bool_decide_unpack _)|done])|]). done. }
    eapply (stepped_replies m); [done|done|done|done|]. destruct Hwhy as [->|[_ [[-> ->]|[-> ->]]]]; [by eapply answer_proper; [..|lia|]|apply proper_error; lia|apply proper_error; lia]. }
  unfold handler. unfold answer in Eans. destruct (Z.eqb_spec opcode BT_ATT_OP_MTU_REQ) as [->|N0].
  { eapply (mtu_wp m sv Q own d ss q ps); [done|done|]. intros m' r sv' Hs' Hp _ Hatt. exists sv', ps.*2. split; [by exists Q, own, d, q, ps|]. unfold transmitted. cbn. exists r. split; [done|]. destruct Hatt as [?|?]; [by right|by left]. }
  destruct (Z.eqb_spec opcode BT_ATT_OP_READ_BY_GRP_TYPE_REQ); [done|]. destruct (Z.eqb_spec opcode BT_ATT_OP_READ_BY_TYPE_REQ); [done|]. destruct (Z.eqb_spec opcode BT_ATT_OP_FIND_INFO_REQ); [done|]. destruct (Z.eqb_spec opcode BT_ATT_OP_FIND_BY_TYPE_REQ); [done|].
  destruct ((opcode =? BT_ATT_OP_WRITE_REQ) || (opcode =? BT_ATT_OP_WRITE_CMD)) eqn:Ew.
  { eapply (write_step (S n) m sv ss ps.*2); [by exists Q, own, d, q, ps|lia|lia]. }
  destruct (Z.eqb_spec opcode BT_ATT_OP_READ_REQ); [done|]. destruct (Z.eqb_spec opcode BT_ATT_OP_READ_BLOB_REQ); [done|]. cbn [orb] in Eans. destruct (Z.eqb_spec opcode BT_ATT_OP_READ_MULT_REQ); [done|].
  destruct (Z.eqb_spec opcode BT_ATT_OP_PREP_WRITE_REQ) as [->|N1]; [by eapply prep_step; [exists Q, own, d, q, ps|]|]. destruct (Z.eqb_spec opcode BT_ATT_OP_EXEC_WRITE_REQ) as [->|N2]; [by eapply exec_step; [exists Q, own, d, q, ps|lia|lia|lia]|].
  gatt_step. exists sv, ps.*2. split; [by exists Q, own, d, q, ps|]. unfold transmitted. destruct (bool_decide _) eqn:Ein; [|done]. apply bool_decide_eq_true in Ein. exfalso. unfold handled in Ein. repeat (apply elem_of_cons in Ein as [Ein|Ein]; [lia|]). by apply elem_of_nil in Ein.
Qed.

Lemma answers_wp m sv ss l opcode pdu r : serving m sv ss l -> answer (world m) sv ss opcode pdu = Some r -> is_bytes pdu -> zlen pdu <= UINT16_MAX -> UINT16_MAX + 1 < Z.of_nat fuel ->
  (opcode = BT_ATT_OP_FIND_BY_TYPE_REQ -> initialised (world m)) ->
  wp (serve user fuel opcode pdu) (fun _ m' => serving m' sv ss l /\ exists r', (r' = r \/ short_of_memory opcode pdu r') /\ world m' = set_app (sent r' (app_of m)) (world m)) m.
Proof.
  intros (Q & own & d & q & ps & Hs & <-) Hans Hb Hlen Hf Hinit. unfold serve. assert (exists n, fuel = S n /\ UINT16_MAX <= Z.of_nat n) as (n & En & Hn) by (exists (pred fuel); unfold UINT16_MAX in *; lia).
  assert (forall k, k = S n -> wp (handler (app := server_app user fuel k) fuel opcode pdu) (fun _ m' => serving m' sv ss ps.*2 /\ exists r', (r' = r \/ short_of_memory opcode pdu r') /\ world m' = set_app (sent r' (app_of m)) (world m)) m) as Hk; [|by apply Hk]. intros k ->.
  eapply (query_wp n m sv Q own d ss q ps); [done|exact Hans|done|done|lia|done|done|]. intros m' r' Hr Hwhy. split; [exists Q, own, d, q, ps; split; [by eapply serves_replies|done]|]. exists r'. split; [done|apply Hr].
Qed.

(** ** The theorem *)

(** C3: A request that only looks at the database is answered with the message that [answer] computes from the
    services in their order: the attributes that are asked for, in the order of their handles, as many as fit
    (for Find Information, up to the first whose UUID has another length, or 32 bits), or the error that the
    request, the handle, the permissions or the offset call for.  The attributes are stored values, without
    functions of the application.  The database and the server stay as they are; without memory Read By Type and Read Multiple are answered with an error. *)
Theorem gatt_server_answers m sv ss l opcode pdu r : serving m sv ss l -> answer (world m) sv ss opcode pdu = Some r -> is_bytes pdu -> zlen pdu <= UINT16_MAX -> UINT16_MAX + 1 < Z.of_nat fuel ->
  (opcode = BT_ATT_OP_FIND_BY_TYPE_REQ -> initialised (world m)) ->
  wp (serve user fuel opcode pdu) (fun _ m' => serving m' sv ss l /\ exists r', (r' = r \/ short_of_memory opcode pdu r') /\ world m' = set_app (sent r' (app_of m)) (world m)) m.
Proof. apply answers_wp. Qed.
End Serving.
