(* ===== verification/ServerSession.v ===== *)
(** The life of a GATT server: it is made on top of a database, and then serves one request after the other. *)

From stdpp Require Import gmap.
From S2P Require Import Prelude Util Alloc Queue QueueSpec QueueMain Uuid GattDb GattAccess GattSpec GattDestroy GattServices GattAttrs GattFind GattRequests GattMain GattRun.
From S2P Require Import ServerState ServerFind ServerAccess ServerSteps ServerReads ServerSearch ServerEncode ServerGroups ServerByValue ServerMulti ServerPrep ServerMain.

(** ** A new server *)

Section Life.
Context `{!Allocator} {T U : Type} `{!Transport T} `{!Connection T} (user : App (srv T U)) (fuel : nat).
Abbreviation mem := (Queue.mem (gatt (srv T U))).
Implicit Types (m : mem) (g : gatt (srv T U)) (Q : gmap ptr (Z * entry_list)) (v : srv T U) (sv : bt_gatt_server).

Lemma register_all_wp ops : forall v sv (P : bool -> mem -> Prop) m, app_of m = v -> v_server v = Some sv ->
  (forall ok t ids, att_mtu t = att_mtu (v_att v) -> P ok (put_app (set_att t (set_server (Some (set_ids ids sv)) v)) m)) -> wp (register_all ops) P m.
Proof.
  induction ops as [|op ops IH]; intros v sv P m Ha Hsv HP; cbn [register_all].
  { gatt_step. specialize (HP true (v_att v) (sv_ids sv) eq_refl). replace (set_att _ _) with v in HP; [by rewrite <-Ha, put_app_same in HP|]. destruct v, sv. cbn in *. by rewrite Hsv. }
  gatt_step. eapply wp_look; [done|]. rewrite Ha. pose proof (register_keeps op (v_att v)) as Hk. destruct (att_register op (v_att v)) as [id t]. cbn [snd] in Hk. gatt_step. apply wp_change. rewrite Ha. gatt_step. eapply wp_update_server; [done|]. set (m1 := put_app _ _).
  assert (app_of m1 = set_server (Some (set_ids (sv_ids sv ++ [id]) sv)) (set_att t v)) as Ha1 by done. destruct (id =? 0).
  - gatt_step. apply (HP false t (sv_ids sv ++ [id]) Hk).
  - eapply (IH _ (set_ids (sv_ids sv ++ [id]) sv)); [exact Ha1|done|]. intros ok t' ids Ht'. apply (HP ok t' ids). by rewrite Ht'.
Qed.
Lemma unregister_all_wp ids : forall v sv (P : () -> mem -> Prop) m, app_of m = v -> v_server v = Some sv -> (forall t, P () (put_app (set_att t v) m)) -> wp (unregister_all ids) P m.
Proof.
  induction ids as [|id ids IH]; intros v sv P m Ha Hsv HP; cbn [unregister_all].
  { gatt_step. specialize (HP (v_att v)). replace (set_att _ _) with v in HP; [by rewrite <-Ha, put_app_same in HP|]. by destruct v. }
  gatt_step. unfold bt_att_unregister. destruct (id =? 0); [gatt_step; by eapply IH|]. apply wp_change. rewrite Ha. by eapply (IH (set_att (att_unregister id (v_att v)) v)).
Qed.

(** Only the number of references to the database has changed. *)
Lemma sound_refs m m' Q Q' own d ss n v : sound m Q own d ss -> represents ∅ m' Q' -> (forall q, is_Some (own !! q) -> Q' !! q = Q !! q) -> world m' = set_app v (set_db (Some (set_ref n d)) (world m)) ->
  1 <= n < 2 ^ 31 - 1 -> sound m' Q' own (set_ref n d) ss.
Proof.
  intros Sd R HQ W Hn. assert (database ∅ m' Q' own (set_ref n d) ss) as D.
  { destruct (sound_db _ _ _ _ _ Sd) as [H1 H2 H3 H4 H5 H6 H7 H8 H9 H10 H11]. split; rewrite ?W; try done. intros q o Ho. destruct (H5 q o Ho) as (es & Hq & Hok). exists es. rewrite HQ by done. split; [done|]. by destruct o. }
  eapply (sound_same_at m); [done|done|done|]. intros s x Hx. rewrite W in Hx. exists x. split_and!; [done..|]. by eapply (sound_listed _ _ _ _ _ Sd).
Qed.

(** A server that waits for nothing is freed, with its queue and its prepared writes; it gives back its reference to the database. *)
Lemma server_free_wp m Q own d ss sv q l (P : () -> mem -> Prop) : sound m Q own d ss -> idle (app_of m) sv -> sv_prep_queue sv = Some q -> own !! q = None -> queues_preps Q (v_preps (app_of m)) q l ->
  (length l <= fuel)%nat -> 2 <= d_ref_count d ->
  (forall m' preps t, sound m' (delete q Q) own (set_ref (d_ref_count d - 1) d) ss -> (forall p, p ∉ l.*1 -> preps !! p = v_preps (app_of m) !! p) ->
    world m' = set_app (set_server None (set_preps preps (set_att t (app_of m)))) (set_db (Some (set_ref (d_ref_count d - 1) d)) (world m)) -> P () m') ->
  wp (bt_gatt_server_free fuel) P m.
Proof.
  intros Sd (Hsv & Hr & Hw & _) Hq Hown Hl Hf Hrefs HP. unfold bt_gatt_server_free. gatt_step. eapply wp_load_server; [done|]. gatt_step. eapply unregister_all_wp; [done|done|]. intros t. set (m1 := put_app _ m). rewrite Hr, Hw, Hq. do 4 gatt_step.
  pose proof (sound_db _ _ _ _ _ Sd) as D. pose proof (db_refs _ _ _ _ _ _ D) as Hd. assert (represents ∅ m1 Q) as R1 by (eapply represents_frame; [apply D|done|done]). unfold queue_destroy. do 2 gatt_step.
  eapply (clear_preps_wp fuel m1 Q q l); [done|done|done|]. intros n m2 preps R2 Hout W2. eapply unref_wp; [done|by rewrite lookup_insert_eq|lia|lia|]. intros _. split; [done|]. intros m3 R3 W3. rewrite delete_insert_eq in R3. rewrite W2 in W3.
  gatt_step. unfold gatt_db_unref. gatt_step. eapply wp_update_db; [by rewrite W3; apply D|]. do 2 gatt_step. rewrite s32_small by lia. rewrite (proj2 (Z.eqb_neq _ _)) by (cbn; lia). do 2 gatt_step. eapply wp_load_server; [unfold app_of; gatt_simpl; by rewrite W3|]. apply wp_change.
  assert (forall v : srv T U, set_app v (set_db (Some (set_ref (d_ref_count d - 1) d)) (world m3)) = set_app v (set_db (Some (set_ref (d_ref_count d - 1) d)) (world m))) as Eg by (intros v; by rewrite W3).
  eapply (HP _ preps t); [|done|].
  - eapply (sound_refs m); [exact Sd|by eapply represents_frame|..|lia].
    + intros q' [o Ho]. rewrite lookup_delete_ne; [done|congruence].
    + unfold put_app. gatt_simpl. apply Eg.
  - unfold put_app. gatt_simpl. unfold app_of. gatt_simpl. rewrite W3. done.
Qed.
(** What a new server needs of the database and of the transport: values without functions of the
    application, declarations for reading only, a size of messages that is allowed, and one more reference. *)
Record ready m Q own d ss : Prop := {
  rd_sound : sound m Q own d ss;
  rd_plain : plain (world m);
  rd_typed : typed (world m);
  rd_guarded : guarded (world m);
  rd_size : BT_ATT_DEFAULT_LE_MTU <= att_mtu (v_att (app_of m)) <= UINT16_MAX;
  rd_refs : d_ref_count d < 2 ^ 31 - 2;
  rd_quiet : v_iov (app_of m) = None /\ v_find (app_of m) = None /\ v_ext_prop (app_of m) = None
}.

Lemma server_new_wp m Q own d ss mtu min_enc_size (P : bool -> mem -> Prop) : ready m Q own d ss -> is_u16 mtu -> (1 <= fuel)%nat ->
  (forall m' sv, serving m' sv ss [] -> sv_mtu sv = Z.max mtu BT_ATT_DEFAULT_LE_MTU -> sv_min_enc_size sv = min_enc_size -> sv_ref_count sv = 1 -> P true m') ->
  (forall m', consistent m' -> v_server (app_of m') = None -> g_services (world m') = g_services (world m) -> P false m') ->
  wp (bt_gatt_server_new fuel mtu min_enc_size) P m.
Proof.
  intros [Sd Hpl Hty Hguard Hmtu Hrefs Hquiet] Hm16 Hf Hok Hno. pose proof (sound_db _ _ _ _ _ Sd) as D. pose proof (db_refs _ _ _ _ _ _ D) as Hd. unfold bt_gatt_server_new. do 2 gatt_step. intros _ _. gatt_step. unfold gatt_db_ref. eapply wp_update_db; [apply D|]. rewrite s32_small by lia.
  gatt_step. eapply new_wp; [by eapply represents_frame; [apply D|done|done]|]. intros q m1 Hq R1 W1. gatt_step. apply wp_change. set (sv := mk_server 0 [] _ _ _ _ _ _). set (v1 := set_server (Some sv) _). gatt_step. unfold gatt_server_register_att_handlers.
  eapply (register_all_wp handled v1 sv); [done|done|]. intros ok t ids Ht. set (sv2 := set_ids ids sv). set (v2 := set_att t _). set (m2 := put_app v2 _). set (d2 := set_ref (d_ref_count d + 1) d). set (Q2 := <[q := (1, [])]> Q).
  assert (app_of m1 = app_of m) as Ea by (unfold app_of; rewrite W1; done). assert (world m2 = set_app v2 (set_db (Some d2) (world m))) as W2 by (unfold m2, put_app; gatt_simpl; rewrite W1; done).
  assert (own !! q = None) as Hfree by (by eapply database_fresh). assert (sound m2 Q2 own d2 ss) as S2.
  { eapply (sound_refs m); [exact Sd|by eapply represents_frame| |exact W2|lia]. intros q' [o Ho]. unfold Q2. rewrite lookup_insert_ne; [done|congruence]. }
  assert (app_of m2 = set_att t (set_server (Some sv2) (app_of m))) as Ha2 by (change (app_of m2) with v2; unfold v2, v1; by rewrite Ea). assert (idle (app_of m2) sv2) as Hidle by (rewrite Ha2; by split_and!; try apply Hquiet).
  assert (queues_preps Q2 (v_preps (app_of m2)) q []) as Hpreps. { exists []. split_and!; [unfold Q2; by rewrite lookup_insert_eq|done|constructor|by intros ? ? ?%elem_of_nil]. }
  destruct ok; cbn [negb].
  - gatt_step. unfold bt_gatt_server_ref. eapply wp_update_server; [by apply Hidle|]. gatt_step. set (m3 := put_app _ m2). assert (app_of m3 = set_att t (set_server (Some (set_refs 1 sv2)) (app_of m))) as Ha3 by (unfold m3; gatt_simpl; rewrite Ha2; done).
    assert (world m3 = set_app (app_of m3) (set_db (Some d2) (world m))) as W3 by (unfold m3, put_app; gatt_simpl; rewrite W2; done).
    eapply (Hok m3 (set_refs 1 sv2)); [|done..]. exists Q2, own, d2, q, []. split; [|done]. split; rewrite ?Ha3; try done.
    + eapply (sound_beside m2); [done|by eapply represents_frame; [apply (sound_db _ _ _ _ _ S2)|..]|done].
    + by rewrite W3.
    + by rewrite W3.
    + change (v_att _) with t. rewrite Ht. unfold v1. change (v_att (set_server (Some sv) (app_of m1))) with (v_att (app_of m1)). by rewrite Ea.
    + cbn. unfold is_u16, in_range, BT_ATT_DEFAULT_LE_MTU, UINT16_MAX in *. lia.
    + by rewrite Ha2 in Hpreps.
    + by intros w ?%elem_of_nil.
    + cbn. lia.
    + by rewrite W3.
  - gatt_step. eapply (server_free_wp m2 Q2 own d2 ss sv2 q []); [done|done|done|done|done|cbn; lia|cbn; lia|]. intros m3 preps t3 S3 _ W3. gatt_step. apply Hno; [by exists (delete q Q2), own, (set_ref (d_ref_count d2 - 1) d2), ss|unfold app_of; by rewrite W3|by rewrite W3, W2].
Qed.
(** The last reference is given back. *)
Lemma server_unref_wp m sv ss l : serving m sv ss l -> UINT16_MAX <= Z.of_nat fuel -> wp (bt_gatt_server_unref fuel) (fun _ m' => v_server (app_of m') = None /\ consistent m' /\ g_services (world m') = g_services (world m)) m.
Proof.
  intros (Q & own & d & q & ps & [Sd Hv Hpl Hty Hmtu Hown Hq Hfree Hps Hmax Hsp Hrefs Hcount Hguard] & _) Hf. unfold bt_gatt_server_unref. pose proof (db_rep _ _ _ _ _ _ (sound_db _ _ _ _ _ Sd)) as R. gatt_step. eapply wp_update_server; [apply Hv|]. set (sv' := set_refs _ sv). set (m1 := put_app _ m).
  gatt_step. eapply (wp_load_server sv'); [done|]. assert (sv_ref_count sv' = 0) as -> by (unfold sv'; cbn; by rewrite Hcount). assert (sound m1 Q own d ss) as S1 by (eapply (sound_beside m); [done|by eapply represents_frame|done]).
  eapply (server_free_wp m1 Q own d ss sv' q ps); [done|by split_and!; try apply Hv|done|done|done|unfold zlen in Hmax; lia|done|]. intros m' preps t S' _ W. split_and!; [unfold app_of; by rewrite W|by exists (delete q Q), own, (set_ref (d_ref_count d - 1) d), ss|by rewrite W].
Qed.

(** ** Sessions *)

(** A server is made on a database with the services [ss], and serves requests one after the other. *)
Inductive session (ss : list ptr) : mem -> Prop :=
| session_new m0 Q own d mtu min_enc_size m : ready m0 Q own d ss -> is_u16 mtu -> bt_gatt_server_new fuel mtu min_enc_size m0 = Ret (true, m) -> session ss m
| session_step m sv l opcode pdu m' : session ss m -> serving m sv ss l -> admissible m l opcode pdu -> serve user fuel opcode pdu m = Ret ((), m') -> session ss m'.

Lemma session_serving ss m : UINT16_MAX + 2 < Z.of_nat fuel -> session ss m -> exists sv l, serving m sv ss l.
Proof.
  intros Hf. induction 1 as [m0 Q own d mtu enc m Hr Hm Hnew|m sv l opcode pdu m' _ _ Hs Had Hstep].
  - assert (wp (bt_gatt_server_new fuel mtu enc) (fun b m' => b = true -> exists sv l, serving m' sv ss l) m0) as Hw; [|exact (wp_ret_inv _ _ _ _ _ Hw Hnew eq_refl)]. eapply server_new_wp; [done|done|unfold UINT16_MAX in Hf; lia|intros m' sv Hs _ _ _ _; by exists sv, []|done].
  - destruct (wp_ret_inv _ _ _ _ _ (step_wp user fuel m sv ss l opcode pdu Hs Had Hf) Hstep) as (sv' & l' & Hs' & _). by exists sv', l'.
Qed.

(** C2: From [bt_gatt_server_new] on a consistent database of stored values, without functions of the
    application, through any sequence of admissible requests, the server stays in a state between requests; there
    every admissible request is served without an access outside of the memory or to a freed block, and is answered
    with exactly one message, which is its response or an error that names it and fits into a message; and
    [bt_gatt_server_unref] frees the server and its prepared writes, and leaves the database as it is.  A request is
    admissible when it fits into a message; Find By Type Value and Prepare Write moreover ask that every byte of
    the stored values was written, since they compare values, and Prepare Write that there is memory and that the
    pieces of a prepared write stay below 64 KiB together. *)
Theorem gatt_server_session ss m : UINT16_MAX + 2 < Z.of_nat fuel -> session ss m ->
  exists sv l, serving m sv ss l /\
    (forall opcode pdu, admissible m l opcode pdu -> wp (serve user fuel opcode pdu) (fun _ m' => exists sv' l', serving m' sv' ss l' /\ transmitted opcode (v_att (app_of m)) (v_att (app_of m'))) m) /\
    wp (bt_gatt_server_unref fuel) (fun _ m' => v_server (app_of m') = None /\ consistent m' /\ g_services (world m') = g_services (world m)) m.
Proof.
  intros Hf (sv & l & Hs)%session_serving; [|done]. exists sv, l. split_and!; [done| |by eapply server_unref_wp; [|lia]]. intros opcode pdu Had. by eapply step_wp.
Qed.
End Life.
