(* ===== verification/ServerWrites.v ===== *)
(** Writes over the protocol: what a peer writes it reads, and a long write in pieces is one write. *)

From stdpp Require Import gmap.
From S2P Require Import Prelude Util Alloc Queue QueueSpec QueueMain Uuid GattDb GattAccess GattSpec GattDestroy GattServices GattAttrs GattFind GattRequests GattMain GattRun.
From S2P Require Import ServerState ServerFind ServerAccess ServerSteps ServerReads ServerSearch ServerEncode ServerGroups ServerByValue ServerMulti ServerPrep ServerMain.

(** ** Requests *)

Definition write_pdu (h : Z) (data : bytes) : bytes := put_le16 h ++ data.
Definition prep_pdu (h offset : Z) (data : bytes) : bytes := put_le16 h ++ put_le16 offset ++ data.

(** The pieces of a long write, each behind the one before. *)
Fixpoint pieces (h offset : Z) (chunks : list bytes) : list bytes :=
  match chunks with [] => [] | c :: chunks => prep_pdu h offset c :: pieces h (offset + zlen c) chunks end.

(** Prepare Write with a request, and its answer, which repeats it. *)
Definition prep_request (pdu : bytes) : Z * bytes := (BT_ATT_OP_PREP_WRITE_REQ, pdu).
Definition prep_response (pdu : bytes) : pdu_of := (BT_ATT_OP_PREP_WRITE_RSP, Some <$> pdu).

(** A value after a write at its start. *)
Definition overwritten (old : raw) (data : bytes) : raw := (Some <$> data) ++ drop (length data) old.

Lemma word_put h rest : is_u16 h -> word (put_le16 h ++ rest) 0 = h.
Proof. intros Hh. pose proof (le16_put h Hh) as E. unfold word. change (get_le16 (drop 0 (put_le16 h ++ rest))) with (get_le16 (put_le16 h)). by rewrite E. Qed.
Lemma get_put h rest : is_u16 h -> get_le16 (put_le16 h ++ rest) = Ret h.
Proof. intros Hh. change (get_le16 (put_le16 h ++ rest)) with (get_le16 (put_le16 h)). by apply le16_put. Qed.
Lemma put_bytes h : is_bytes (put_le16 h).
Proof. unfold put_le16. repeat constructor; unfold u8, wrap; apply Z.mod_pos_bound; done. Qed.
Lemma prep_pdu_shape h o data : is_u16 h -> is_u16 o -> word (prep_pdu h o data) 0 = h /\ word (prep_pdu h o data) 2 = o /\ drop 4 (prep_pdu h o data) = data /\ zlen (prep_pdu h o data) = 4 + zlen data.
Proof.
  intros Hh Ho. split_and!; [by apply word_put| |done|].
  - unfold word. change (drop 2 (prep_pdu h o data)) with (put_le16 o ++ data). by rewrite get_put.
  - unfold prep_pdu, zlen. rewrite !length_app. change (length (put_le16 h)) with 2%nat. change (length (put_le16 o)) with 2%nat. lia.
Qed.

Section Writes.
Context `{!Allocator} {T U : Type} `{!Transport T} `{!Connection T} (user : App (srv T U)) (fuel : nat).
Abbreviation mem := (Queue.mem (gatt (srv T U))).
Implicit Types (m : mem) (g : gatt (srv T U)) (w : queued) (Q : gmap ptr (Z * entry_list)) (v : srv T U) (sv : bt_gatt_server).

Definition sends (l : list pdu_of) (t : T) : T := fold_left (fun t r => (att_send r.1 r.2 t).2) l t.

Fixpoint serve_all (l : list (Z * bytes)) : Queue.M (W := gatt (srv T U)) () :=
  match l with [] => mret () | r :: l => _ ← serve user fuel r.1 r.2; serve_all l end.

(** ** The attributes after a write *)

Lemma serving_sound m sv ss l : serving m sv ss l -> exists Q own d, sound m Q own d ss.
Proof. intros (Q & own & d & q & ps & Hs & _). exists Q, own, d. apply Hs. Qed.

Lemma serving_size m sv ss l : serving m sv ss l -> BT_ATT_DEFAULT_LE_MTU <= att_mtu (v_att (app_of m)) <= UINT16_MAX.
Proof. intros (Q & own & d & q & ps & Hs & _). apply Hs. Qed.

(** One attribute was written, the others are as before. *)
Definition changed g g' (h offset : Z) (data : bytes) : Prop :=
  exists s i x a a', g_services g !! s = Some x /\ s_attributes x !! i = Some (Attr a) /\ a_handle a = h /\ stores a a' offset data /\ g_services g' = <[s := put_slot i a' x]> (g_services g).

Lemma stored_changed g g' h offset data o : stored g g' h offset data o -> changed g g' h offset data.
Proof. intros (s & i & x & a & a' & Hx & Ha & Eh & Hst & ->). by exists s, i, x, a, a'. Qed.

Lemma changed_look m m' Q own d Q' own' d' ss h offset data a : sound m Q own d ss -> sound m' Q' own' d' ss -> changed (world m) (world m') h offset data -> at_handle (world m) ss h = Some a ->
  (exists a', at_handle (world m') ss h = Some a' /\ stores a a' offset data) /\ forall h', h' <> h -> at_handle (world m') ss h' = at_handle (world m) ss h'.
Proof.
  intros Sd Sd' (s & i & x & b & a' & Hx & Hb & Eh & Hst & W) Hat. assert (b = a) as ->. { assert (at_handle (world m) ss h = Some b) as E by (eapply (look_unique m Q own d ss (at_handle (world m) ss)); [done|by eapply at_handle_found|by exists s, i, x]). congruence. }
  destruct (sound_listed _ _ _ _ _ Sd s x Hx) as [_ Hreg]. destruct (stores_shape a a' offset data (reg_values _ Hreg _ _ Hb) Hst) as [_ E]. assert (a_handle a' = a_handle a) as Eh' by (by rewrite E).
  assert (g_services (world m') !! s = Some (put_slot i a' x)) as Hx' by (rewrite W; apply lookup_insert_eq). pose proof (at_handle_found m' Q' own' d' ss Sd') as Hf. split.
  - exists a'. split; [|done]. eapply (look_unique m' Q' own' d' ss (at_handle (world m') ss)); [done|done|]. exists s, i, (put_slot i a' x). split_and!; [done| |congruence]. cbn. apply list_lookup_insert_eq. by eapply lookup_lt_Some.
  - intros h' Hne. eapply (look_unique m' Q' own' d' ss (at_handle (world m') ss)); [done|done|]. pose proof (at_handle_found m Q own d ss Sd h') as Hf'. destruct (at_handle (world m) ss h') as [c|].
    + destruct Hf' as (t & j & y & Hy & Hc & Ec). destruct (decide (t = s)) as [->|Ht].
      * assert (y = x) as -> by congruence. exists s, j, (put_slot i a' x). split_and!; [done| |done]. cbn. rewrite list_lookup_insert_ne; [done|]. intros ->. congruence.
      * exists t, j, y. rewrite W. split_and!; [|done|done]. by rewrite lookup_insert_ne.
    + intros p Hp. destruct (Hf' p). assert (handle_of (with_service s (put_slot i a' x) (world m)) p h') as Hp' by (unfold handle_of in *; by rewrite W in Hp). by eapply (handle_put (world m) s x i a a').
Qed.

(** ** Write and Read *)

Lemma serve_write_wp m sv ss l pdu (P : () -> mem -> Prop) : serving m sv ss l -> (1 <= fuel)%nat -> (forall m', serving m' sv ss l -> write_effect m sv BT_ATT_OP_WRITE_REQ pdu m' -> P () m') -> wp (serve user fuel BT_ATT_OP_WRITE_REQ pdu) P m.
Proof.
  intros Hs Hf HP. unfold serve. assert (exists n, fuel = S n) as [n En] by (exists (pred fuel); lia). assert (forall k, k = S n -> wp (handler (app := server_app user fuel k) fuel BT_ATT_OP_WRITE_REQ pdu) P m) as Hk; [|by apply Hk]. intros k ->.
  eapply wp_mono; [eapply (write_exact user fuel n m sv ss l); [done|by left]|]. intros [] m' [Hs' Heff]. by apply HP.
Qed.

Lemma stores_start a a' data : value_ok a -> stores a a' 0 data -> zlen data <= UINT16_MAX -> bytes_of a' = overwritten (bytes_of a) data /\ a_permissions a' = a_permissions a /\ 0 <= a_value_len a'.
Proof.
  intros Hok Hst Hlen. destruct (stores_shape a a' 0 data Hok Hst) as [Hok' E]. assert (0 <= a_value_len a') as Hpos by (unfold value_ok in Hok'; destruct (a_value a'); lia). split; [|by rewrite E]. unfold stores in Hst. destruct (Z.eqb_spec (zlen data) 0) as [Ez|_].
  - destruct data; [by subst a'|unfold zlen in Ez; cbn in Ez; lia].
  - destruct Hst as (_ & _ & Hb). destruct (Hb ltac:(lia)) as (front & Hf & -> & _). destruct front; [done|unfold zlen in Hf; cbn in Hf; lia].
Qed.

(** C20: A value that a peer has written is what it reads: when the permissions of an attribute allow both, Write
    Request with [data] is answered with a Write Response, and Read Request then with as much of the value as fits
    into a message, which is [data] and what the old value had behind its length. *)
Theorem gatt_server_write_read m sv ss l h data a : serving m sv ss l -> is_u16 h -> zlen data <= UINT16_MAX -> at_handle (world m) ss h = Some a ->
  access_of (app_of m) sv a WRITE_MASK = 0 -> access_of (app_of m) sv a READ_MASK = 0 -> UINT16_MAX + 1 < Z.of_nat fuel ->
  wp (serve_all [(BT_ATT_OP_WRITE_REQ, write_pdu h data); (BT_ATT_OP_READ_REQ, put_le16 h)])
    (fun _ m' => serving m' sv ss l /\
      (refused \/ v_att (app_of m') = sends [(BT_ATT_OP_WRITE_RSP, []); (BT_ATT_OP_READ_RSP, take (Z.to_nat (att_mtu (v_att (app_of m)) - 1)) (overwritten (bytes_of a) data))] (v_att (app_of m)))) m.
Proof.
  intros Hs Hh Hlen Hat Hw Hr Hf. unfold UINT16_MAX in Hf. assert (word (write_pdu h data) 0 = h) as Ew by (by apply word_put). cbn [serve_all fst snd]. gatt_step. eapply (serve_write_wp m sv ss l); [done|lia|]. intros m1 Hs1 Heff. gatt_step.
  destruct (serving_sound _ _ _ _ Hs) as (Q & own & d & Sd). destruct (serving_sound _ _ _ _ Hs1) as (Q1 & own1 & d1 & S1). pose proof (serving_size _ _ _ _ Hs1) as Hmtu.
  assert (forall r, answer (world m1) sv ss BT_ATT_OP_READ_REQ (put_le16 h) = Some r -> forall P : () -> mem -> Prop, (forall m', serving m' sv ss l -> world m' = set_app (sent r (app_of m1)) (world m1) -> P () m') -> wp (serve user fuel BT_ATT_OP_READ_REQ (put_le16 h)) P m1) as Hread.
  { intros r Hans P HP. eapply wp_mono; [eapply (answers_wp user fuel m1 sv ss l); [done|exact Hans|apply put_bytes|done|unfold UINT16_MAX; lia|done]|]. intros [] m' (Hs' & r' & [->|[_ [[E _]|[E _]]]] & W); [by apply HP|done|done]. }
  assert (answer (world m1) sv ss BT_ATT_OP_READ_REQ (put_le16 h) = Some (read_answer (app_of m1) sv BT_ATT_OP_READ_REQ h 0 (at_handle (world m1) ss h))) as Hans.
  { unfold answer. cbn -[put_le16 read_answer]. unfold read_target. cbn -[put_le16 word]. pose proof (word_put h [] Hh) as E. rewrite app_nil_r in E. by rewrite E. }
  eapply (Hread _ Hans). intros m' Hs' W'. gatt_step. split; [done|].
  destruct Heff as [(h' & e & W1 & [(Hlt & _)|[[_ Href]|[Hg (o & Hfo & He)]]])|Hst]; [|by left|..].
  - exfalso. unfold write_pdu in Hlt. rewrite zlen_app in Hlt. change (zlen (put_le16 h)) with 2 in Hlt. pose proof (zlen_nonneg data). lia.
  - exfalso. unfold write_pdu in Hg. rewrite get_put in Hg by done. injection Hg as <-. assert (o = Some a) as -> by (rewrite <-Hat; symmetry; eapply (look_unique m Q own d ss (at_handle (world m) ss)); [done|by eapply at_handle_found|done]). cbn in He. by rewrite Hw in He.
  - right. rewrite Ew in Hst. destruct (changed_look m m1 Q own d Q1 own1 d1 ss h _ _ a Sd S1 (stored_changed _ _ _ _ _ _ Hst) Hat) as [(a' & Hat' & Hst') _]. destruct Hst as (s & i & x & b & b' & Hx & Hb & Eh & _ & W1).
    assert (value_ok a) as Hok. { pose proof (at_handle_found m Q own d ss Sd h) as Hfo. rewrite Hat in Hfo. destruct Hfo as (t & j & y & Hy & Ha & _). destruct (sound_listed _ _ _ _ _ Sd t y Hy) as [_ Hreg]. by eapply reg_values. }
    destruct (stores_start a a' _ Hok Hst' Hlen) as (Hbytes & Hperm & Hpos). change (drop 2 (write_pdu h data)) with data in *.
    assert (app_of m1 = sent (BT_ATT_OP_WRITE_RSP, []) (app_of m)) as Ea1 by (unfold app_of; by rewrite W1). unfold app_of at 1. rewrite W'. cbn [g_app set_app]. unfold read_answer. rewrite Hat'. unfold access_of in *. rewrite Ea1, Hperm. cbn [sent v_att set_att fst snd]. rewrite send_secure, send_keeps, Hr. cbn [negb Z.eqb].
    rewrite (proj2 (Z.ltb_ge _ _)) by done. cbn [read_rsp Z.to_nat drop]. by rewrite Hbytes.
Qed.

(** ** Long writes *)

Lemma serve_prep_wp m sv ss l pdu (P : () -> mem -> Prop) : serving m sv ss l -> admissible m l BT_ATT_OP_PREP_WRITE_REQ pdu -> (2 <= fuel)%nat -> (forall m', prep_effect m sv ss l pdu m' -> P () m') -> wp (serve user fuel BT_ATT_OP_PREP_WRITE_REQ pdu) P m.
Proof.
  intros Hs Had Hf HP. unfold serve. assert (exists n, fuel = S (S n)) as [n En] by (exists (pred (pred fuel)); lia). assert (forall k, k = S (S n) -> wp (handler (app := server_app user fuel k) fuel BT_ATT_OP_PREP_WRITE_REQ pdu) P m) as Hk; [|by apply Hk]. intros k ->.
  eapply wp_mono; [by apply (prep_exact user fuel n m sv ss l)|]. intros [] m' Heff. by apply HP.
Qed.

(** The state while the pieces come in: the database is as before, and the prepared writes are one. *)
Definition preparing m m' : Prop := exists preps t, world m' = set_app (set_preps preps (set_att t (app_of m))) (world m) /\ att_mtu t = att_mtu (v_att (app_of m)) /\ att_security t = att_security (v_att (app_of m)).

Lemma preparing_step m m1 m2 preps r : preparing m m1 -> world m2 = set_app (set_preps preps (sent r (app_of m1))) (world m1) -> preparing m m2.
Proof.
  intros (p1 & t1 & W1 & E1 & E2) W2. exists preps, (att_send r.1 r.2 t1).2. rewrite send_keeps, send_secure. split; [|done]. rewrite W2. unfold app_of. by rewrite W1.
Qed.
Lemma preparing_same m m' : preparing m m' -> g_services (world m') = g_services (world m).
Proof. intros (p & t & W & _). by rewrite W. Qed.

(** The prepared writes after the bytes [data] at [offset]; nothing was prepared before. *)
Definition gathered (h offset : Z) (data : bytes) (l : list queued) : Prop := (l = [] /\ data = []) \/ exists r, l = [mk_queued h offset data r].

Lemma gathered_enqueue h offset data l c r : gathered h offset data l -> gathered h offset (data ++ c) (enqueue l h (offset + zlen data) c r).
Proof.
  intros [[-> ->]|[r' ->]]; right.
  - exists r. unfold enqueue. cbn. by rewrite Z.add_0_r.
  - exists r'. unfold enqueue. cbn. rewrite (proj2 (Z.eqb_eq _ _) eq_refl), (proj2 (Z.eqb_eq _ _)) by lia. done.
Qed.

Lemma prepare_wp m sv ss h a offset (P : () -> mem -> Prop) k : is_u16 h -> 0 <= offset -> at_handle (world m) ss h = Some a -> initialised (world m) -> ~ refused -> access_of (app_of m) sv a WRITE_MASK = 0 -> 1 < sv_max_prep_queue_len sv -> (2 <= fuel)%nat ->
  forall chunks m1 data l, preparing m m1 -> serving m1 sv ss l -> gathered h offset data l -> Forall is_bytes chunks -> Forall (fun c => zlen c <= att_mtu (v_att (app_of m)) - 5) chunks -> offset + zlen data + zlen (concat chunks) <= UINT16_MAX ->
  (forall m2 l2, preparing m m2 -> serving m2 sv ss l2 -> gathered h offset (data ++ concat chunks) l2 ->
    v_att (app_of m2) = sends (prep_response <$> pieces h (offset + zlen data) chunks) (v_att (app_of m1)) -> wp (serve_all k) P m2) ->
  wp (serve_all ((prep_request <$> pieces h (offset + zlen data) chunks) ++ k)) P m1.
Proof.
  intros Hh Ho Hat Hini Href Hacc Hmax Hf. induction chunks as [|c chunks IH]; intros m1 data l Hprep Hs Hg Hb Hsz Hlen HP.
  { apply (HP m1 l); [done|done|by rewrite app_nil_r|done]. }
  cbn [pieces fmap list_fmap app serve_all fst snd prep_request]. apply Forall_cons in Hb as [Hbc Hb]. apply Forall_cons in Hsz as [Hszc Hsz]. pose proof (zlen_nonneg c) as Hzc. pose proof (zlen_nonneg data) as Hzd. cbn [concat] in Hlen. rewrite zlen_app in Hlen. pose proof (zlen_nonneg (concat chunks)) as Hzr.
  assert (is_u16 (offset + zlen data)) as Hoff by (unfold is_u16, in_range, UINT16_MAX in *; lia). destruct (prep_pdu_shape h (offset + zlen data) c Hh Hoff) as (E1 & E2 & E3 & E4). set (pdu := prep_pdu h (offset + zlen data) c) in *. pose proof (preparing_same _ _ Hprep) as Eg. pose proof Hprep as (p1 & t1 & W1 & Et1 & Et2).
  assert (att_mtu (v_att (app_of m1)) = att_mtu (v_att (app_of m))) as Emtu by (unfold app_of at 1; rewrite W1; exact Et1).
  assert (admissible m1 l BT_ATT_OP_PREP_WRITE_REQ pdu) as Had.
  { split; [unfold pdu, prep_pdu; apply Forall_app; split; [apply put_bytes|]; apply Forall_app; by split; [apply put_bytes|]|rewrite E4, Emtu; lia| |].
    - intros _. by rewrite W1.
    - intros _. split; [done|]. rewrite E3. destruct Hg as [[-> _]|[r ->]]; [by intros w ?%elem_of_nil|]. intros w ->%list_elem_of_singleton. cbn. unfold UINT16_MAX in *. lia. }
  gatt_step. eapply (serve_prep_wp m1 sv ss l); [done|done|done|]. intros m2 (r & rsp & l' & preps & Eans & _ & Hs2 & W2).
  assert (at_handle (world m1) ss h = Some a) as Hat1 by (by rewrite W1). assert (access_of (app_of m1) sv a WRITE_MASK = 0) as Hacc1 by (unfold access_of, app_of in *; rewrite W1; cbn; by rewrite Et2).
  assert (zlen l <= 1) as Hl1 by (by destruct Hg as [[-> _]|[r' ->]]). unfold prep_answer in Eans. rewrite E4, (proj2 (Z.ltb_ge _ _)), (proj2 (Z.leb_gt _ _)), E1, Hat1, Hacc1, E2, E3 in Eans by lia. cbn in Eans. injection Eans as <- <-.
  assert (offset + zlen data + zlen c = offset + zlen (data ++ c)) as El by (rewrite zlen_app; lia). rewrite El in *. eapply (IH m2 (data ++ c)); [by eapply preparing_step|done|by apply gathered_enqueue|done|done|lia|].
  intros m3 l3 Hp3 Hs3 Hg3 Hv3. apply (HP m3 l3); [done|done|cbn; by rewrite app_assoc|]. rewrite Hv3. cbn [fmap list_fmap pieces]. rewrite El. unfold app_of at 1. rewrite W2. done.
Qed.

Lemma serve_exec_wp m sv ss l pdu (P : () -> mem -> Prop) : serving m sv ss l -> UINT16_MAX + 2 < Z.of_nat fuel -> (forall m', serving m' sv ss [] -> exec_effect m l pdu m' -> P () m') -> wp (serve user fuel BT_ATT_OP_EXEC_WRITE_REQ pdu) P m.
Proof.
  intros Hs Hf HP. unfold UINT16_MAX in Hf. unfold serve. assert (exists n, fuel = S (S n)) as [n En] by (exists (pred (pred fuel)); lia). assert (forall k, k = S (S n) -> wp (handler (app := server_app user fuel k) fuel BT_ATT_OP_EXEC_WRITE_REQ pdu) P m) as Hk; [|by apply Hk]. intros k ->.
  eapply wp_mono; [apply (exec_exact user fuel (S (S n)) m sv ss l); [done|unfold UINT16_MAX; lia|unfold UINT16_MAX; lia]|]. intros [] m' [Hs' Heff]. by apply HP.
Qed.

(** One prepared write is executed. *)
Lemma executed_one m Q own d ss h a offset data r g' rsp : sound m Q own d ss -> at_handle (world m) ss h = Some a -> ~ refused -> executed (world m) 0 [mk_queued h offset data r] g' rsp ->
  rsp = (BT_ATT_OP_EXEC_WRITE_RSP, []) /\ changed (world m) g' h offset data.
Proof.
  intros Sd Hat Href Hex. pose proof (at_handle_found m Q own d ss Sd h) as Hfo. rewrite Hat in Hfo. inversion Hex as [|g eh w l Hno|g eh w l Hr|g eh w l s i x b b' g1 r1 Hx Hb Eh Hst Hrest]; subst; cbn [qw_handle qw_offset qw_data] in *.
  - exfalso. destruct Hfo as (s & i & x & Hx & Ha & Eh). apply (Hno (s, i)). by exists x, a.
  - done.
  - inversion Hrest; subst. split; [done|]. exists s, i, x, b, b'. split_and!; done.
Qed.

(** C18: A long write in pieces is one write: Prepare Write Requests for pieces of which each starts where the one
    before ends are answered with the pieces themselves, and Execute Write Request then stores all their bytes at
    the offset of the first, as one write there does, and changes no other attribute. *)
Theorem gatt_server_long_write m sv ss h a offset chunks : serving m sv ss [] -> is_u16 h -> 0 <= offset -> at_handle (world m) ss h = Some a -> initialised (world m) -> ~ refused ->
  access_of (app_of m) sv a WRITE_MASK = 0 -> 1 < sv_max_prep_queue_len sv -> Forall is_bytes chunks -> Forall (fun c => zlen c <= att_mtu (v_att (app_of m)) - 5) chunks -> offset + zlen (concat chunks) <= UINT16_MAX -> UINT16_MAX + 2 < Z.of_nat fuel ->
  wp (serve_all ((prep_request <$> pieces h offset chunks) ++ [(BT_ATT_OP_EXEC_WRITE_REQ, [1])]))
    (fun _ m' => serving m' sv ss [] /\ (exists a', at_handle (world m') ss h = Some a' /\ stores a a' offset (concat chunks)) /\ (forall h', h' <> h -> at_handle (world m') ss h' = at_handle (world m) ss h') /\
      v_att (app_of m') = sends ((prep_response <$> pieces h offset chunks) ++ [(BT_ATT_OP_EXEC_WRITE_RSP, [])]) (v_att (app_of m))) m.
Proof.
  intros Hs Hh Ho Hat Hini Href Hacc Hmax Hb Hsz Hlen Hf. assert (offset = offset + zlen (@nil Z)) as Eo by (change (zlen []) with 0; lia). rewrite Eo at 1. eapply (prepare_wp m sv ss h a offset); [done..|unfold UINT16_MAX in Hf; lia| |done|by left|done|done|change (zlen []) with 0; lia|].
  { exists (v_preps (app_of m)), (v_att (app_of m)). split; [|done]. unfold app_of. destruct (world m) as [? ? ? ? ? ? []]. done. }
  cbn [app]. rewrite <-Eo. intros m2 l2 Hp2 Hs2 Hg2 Hv2. cbn [serve_all fst snd]. gatt_step. eapply (serve_exec_wp m2 sv ss l2); [done|done|]. intros m3 Hs3 (g' & r & preps & Hcase & W3). gatt_step.
  destruct (serving_sound _ _ _ _ Hs2) as (Q2 & own2 & d2 & S2). destruct (serving_sound _ _ _ _ Hs3) as (Q3 & own3 & d3 & S3). pose proof Hp2 as (p2 & t2 & W2 & _). assert (forall h', at_handle (world m2) ss h' = at_handle (world m) ss h') as Esame by (intros h'; by rewrite W2).
  assert (exec_refusal BT_ATT_OP_EXEC_WRITE_REQ [1] l2 = None) as Enone by (by destruct Hg2 as [[-> _]|[r' ->]]). rewrite Enone in Hcase.
  assert (r = (BT_ATT_OP_EXEC_WRITE_RSP, []) /\ (exists a', at_handle (world m3) ss h = Some a' /\ stores a a' offset (concat chunks)) /\ forall h', h' <> h -> at_handle (world m3) ss h' = at_handle (world m) ss h') as (-> & Hst & Hoth).
  { destruct Hg2 as [[-> Enil]|[r' ->]].
    - inversion Hcase; subst. split; [done|]. assert (forall h', at_handle (world m3) ss h' = at_handle (world m) ss h') as E3 by (intros h'; rewrite <-Esame; by rewrite W3). split; [|done]. exists a. rewrite E3. by rewrite Enil.
    - destruct (executed_one m2 Q2 own2 d2 ss h a offset _ r' g' r S2 ltac:(by rewrite Esame) Href Hcase) as [-> Hch]. split; [done|].
      destruct (changed_look m2 m3 Q2 own2 d2 Q3 own3 d3 ss h offset (concat chunks) a S2 S3) as [Hone Hrest]; [unfold changed in *; by rewrite W3|by rewrite Esame|]. split; [done|]. intros h' Hne. by rewrite Hrest, Esame. }
  split_and!; [done|done|done|]. unfold app_of at 1. rewrite W3. cbn [g_app set_app set_preps v_att sent set_att fst snd]. rewrite Hv2. unfold sends. by rewrite fold_left_app.
Qed.
End Writes.
