(* ===== verification/ServerDemo.v ===== *)
(** A server at work: a database with a characteristic, a connection that keeps the messages, and requests. *)

From stdpp Require Import gmap.
From S2P Require Import Prelude Util Alloc Queue QueueSpec QueueMain Uuid GattDb GattAccess GattSpec GattDestroy GattServices GattAttrs GattFind GattRequests GattMain GattRun GattLook.
From S2P Require Import ServerState ServerFind ServerAccess ServerSteps ServerPermit ServerReads ServerSearch ServerEncode ServerGroups ServerByValue ServerMulti ServerPrep ServerMain ServerSession ServerWrites.

(** ** A connection *)

(** The size of messages, the security level, and the messages in their order. *)
Record link := mk_link { l_mtu : Z; l_security : Z; l_log : list pdu_of }.

#[export] Instance link_transport : Transport link := {
  att_mtu := l_mtu;
  att_set_mtu n t := mk_link n (l_security t) (l_log t);
  att_security t := (l_security t, 16);
  att_send opcode pdu t := (1, mk_link (l_mtu t) (l_security t) (l_log t ++ [(opcode, pdu)]));
  att_register _ t := (1, t);
  att_unregister _ t := t
}.
#[export] Instance link_connection : Connection link.
Proof. by split. Qed.

(** An application that has no functions for attributes. *)
#[export] Instance silent `{!Allocator} : App (srv link ()) := { call _ := mret (); timeout_add _ _ := mret 1; timeout_remove _ := mret () }.
#[export] Instance silent_polite `{!Allocator} : Polite silent.
Proof.
  split.
  - intros e p m _ _. exists []. by split.
  - intros e [q c r [db sv no re wr fo a]] P _ HP. apply wp_ret. apply (HP a).
  - intros n t [q c r [db sv no re wr fo a]] P HP. apply wp_ret. apply (HP 1 a).
  - intros i [q c r [db sv no re wr fo a]] P HP. apply wp_ret. apply (HP a).
Qed.

(** ** A database *)

#[local] Existing Instance roomy.
Abbreviation mem := (Queue.mem (gatt (srv link ()))).

Definition idle_app (security : Z) : srv link () := mk_srv None ∅ ∅ ∅ ∅ ∅ None None None (mk_link 23 security []) ().
Definition ran {B} (x : outcome (B * mem)) : mem := match x with Ret (_, m) => m | _ => start (idle_app 0) 0 end.

(** A service with the handles 1 to 8, in it a characteristic with the value at handle 3 that may be read and
    written, and a descriptor. *)
Definition shop0 : mem := ran (gatt_db_new (start (idle_app 1) 0)).
Definition shop1 : mem := ran (exec 99 (AddService (BT_UUID16 0x180D) true 8) shop0).
Definition shop : ptr := match map_to_list (g_services (world shop1)) with (s, _) :: _ => s | [] => 0%nat end.
Definition add_value : operation := AddCharacteristic (shop, 0%nat) (BT_UUID16 0x2A37) 0x03 0x8A None None 0.
Definition shop2 : mem := ran (exec 99 add_value shop1).
Definition add_descriptor : operation := AddDescriptor (shop, 0%nat) (BT_UUID16 0x2901) 0x01 None None 0.
Definition shop3 : mem := ran (exec 99 add_descriptor shop2).
Definition shop4 : mem := ran (exec 99 (SetActive (shop, 0%nat) true) shop3).

(** The state of the service. *)
Definition shelf (m : mem) : gatt_db_service := default (mk_service false false 0 []) (g_services (world m) !! shop).

Lemma shop_reach0 : reachable 99 assigned shop0.
Proof. eapply (reach_new 99 assigned (idle_app 1) 0). vm_compute. reflexivity. Qed.
Lemma shop_reach1 : reachable 99 assigned shop1.
Proof. eapply (reach_step 99 assigned shop0 (AddService (BT_UUID16 0x180D) true 8)); [exact shop_reach0|done| |vm_compute; lia|vm_compute; reflexivity]. split; vm_compute; split; congruence. Qed.
Lemma shop_reach2 : reachable 99 assigned shop2.
Proof.
  eapply (reach_step 99 assigned shop1 add_value); [exact shop_reach1|done| |vm_compute; lia|vm_compute; reflexivity]. split; [eexists _, _; split; vm_compute; reflexivity|vm_compute; split; congruence].
Qed.
Lemma shop_reach3 : reachable 99 assigned shop3.
Proof. eapply (reach_step 99 assigned shop2 add_descriptor); [exact shop_reach2|done|eexists _, _; split; vm_compute; reflexivity|vm_compute; lia|vm_compute; reflexivity]. Qed.
Lemma shop_reach4 : reachable 99 assigned shop4.
Proof. eapply (reach_step 99 assigned shop3 (SetActive (shop, 0%nat) true)); [exact shop_reach3|done|eexists _, _; split; vm_compute; reflexivity|vm_compute; lia|vm_compute; reflexivity]. Qed.

(** ** What the theorems ask of the database *)

Definition every (f : gatt_db_attribute -> bool) (g : gatt (srv link ())) : bool :=
  forallb (fun sx => forallb (fun v => match v with Attr a => f a | _ => true end) (s_attributes sx.2)) (map_to_list (g_services g)).
Lemma every_attribute f g s x i a : every f g = true -> g_services g !! s = Some x -> s_attributes x !! i = Some (Attr a) -> f a = true.
Proof.
  unfold every. rewrite forallb_forall. intros Hall Hx Ha. specialize (Hall (s, x) ltac:(by apply list_elem_of_In, elem_of_map_to_list)). rewrite forallb_forall in Hall. apply (Hall (Attr a)), list_elem_of_In. by eapply list_elem_of_lookup_2.
Qed.

Definition functionless (a : gatt_db_attribute) : bool := match a_read_func a, a_write_func a with None, None => true | _, _ => false end.
Definition short_type (a : gatt_db_attribute) : bool := match a_uuid a with BT_UUID16 v => (0 <=? v) && (v <=? UINT16_MAX) | _ => false end.
Definition known_value (a : gatt_db_attribute) : bool := forallb (fun o : option Z => match o with Some _ => true | None => false end) (bytes_of a).

Lemma plain_by g : every functionless g = true -> plain g.
Proof. intros Hg s x i a Hx Ha. pose proof (every_attribute _ _ _ _ _ _ Hg Hx Ha) as H. unfold functionless in H. by destruct (a_read_func a), (a_write_func a). Qed.
Lemma typed_by g : every short_type g = true -> typed g.
Proof.
  intros Hg s x i a Hx Ha. pose proof (every_attribute _ _ _ _ _ _ Hg Hx Ha) as H. unfold short_type in H. destruct (a_uuid a) as [|v| |]; try done. apply andb_true_iff in H as [H1%Z.leb_le H2%Z.leb_le]. split; [done|]. unfold UINT16_MAX in H2. cbn. lia.
Qed.
Lemma initialised_by g : every known_value g = true -> initialised g.
Proof.
  intros Hg s x i a Hx Ha. pose proof (every_attribute _ _ _ _ _ _ Hg Hx Ha) as H. unfold known_value in H. induction (bytes_of a) as [|[b|] l IH]; [by exists []| |done]. destruct (IH H) as [l' ->]. by exists (b :: l').
Qed.

Definition read_only (g : gatt (srv link ())) : bool :=
  forallb (fun sx => match s_attributes sx.2 with Attr a :: _ => a_permissions a =? BT_ATT_PERM_READ | _ => true end) (map_to_list (g_services g)).
Lemma guarded_by g : read_only g = true -> guarded g.
Proof.
  unfold read_only. rewrite forallb_forall. intros Hg s x a Hx Ha. specialize (Hg (s, x) ltac:(by apply list_elem_of_In, elem_of_map_to_list)). cbn [snd] in Hg. destruct (s_attributes x) as [|v l]; [done|]. cbn in Ha. injection Ha as ->. by apply Z.eqb_eq.
Qed.

Definition alone (p : ptr) (m : mem) : bool := match map_to_list (g_services (world m)) with [(s, _)] => (s =? p)%nat | _ => false end.
Lemma alone_services p m Q own d ss : sound m Q own d ss -> alone p m = true -> ss = [p].
Proof.
  intros Sd Hm. unfold alone in Hm. destruct (map_to_list _) as [|[s x] [|]] eqn:E; try done. apply Nat.eqb_eq in Hm as ->.
  assert (forall t y, g_services (world m) !! t = Some y -> t = p) as Honly by (intros t y Ht%elem_of_map_to_list; rewrite E in Ht; by apply list_elem_of_singleton in Ht as [= -> _]).
  assert (p ∈ ss) as Hin. { eapply (sound_listed _ _ _ _ _ Sd). apply elem_of_map_to_list. rewrite E. by left. }
  pose proof (db_nodup _ _ _ _ _ _ (sound_db _ _ _ _ _ Sd)) as Hnd. assert (forall t, t ∈ ss -> t = p) as Hall by (intros t Ht; destruct (db_service _ _ _ _ _ _ (sound_db _ _ _ _ _ Sd) t Ht) as (y & Hy & _); by eapply Honly).
  destruct ss as [|t [|t' ss]]; [by apply elem_of_nil in Hin|f_equal; by apply Hall; left|]. exfalso. apply NoDup_cons in Hnd as [Hn _]. apply Hn. rewrite (Hall t), (Hall t'); [by left|right; by left|by left].
Qed.

Lemma shop_ready p m : consistent m -> alone p m = true -> every functionless (world m) = true -> every short_type (world m) = true -> read_only (world m) = true -> v_att (app_of m) = mk_link 23 1 [] ->
  (d_ref_count <$> g_db (world m)) = Some 1 -> v_iov (app_of m) = None /\ v_find (app_of m) = None /\ v_ext_prop (app_of m) = None -> exists Q own d, ready m Q own d [p].
Proof.
  intros (Q & own & d & ss & Sd) Hal Hp Ht Hro Hatt Hd Hq. pose proof (alone_services _ _ _ _ _ _ Sd Hal) as ->. exists Q, own, d. split; [done|by apply plain_by|by apply typed_by|by apply guarded_by|by rewrite Hatt| |done].
  rewrite (db_there _ _ _ _ _ _ (sound_db _ _ _ _ _ Sd)) in Hd. cbn in Hd. injection Hd as ->. lia.
Qed.

(** ** A session *)

Definition steps : nat := Z.to_nat 65540.
Definition opened : mem := ran (bt_gatt_server_new steps 64 0 shop4).
Definition after (l : list (Z * bytes)) : mem := ran (serve_all silent steps l opened).

Lemma steps_enough : UINT16_MAX + 2 < Z.of_nat steps.
Proof. unfold steps, UINT16_MAX. lia. Qed.

Lemma shop4_ready : exists Q own d, ready shop4 Q own d [shop].
Proof.
  assert (alone shop shop4 = true) as H1 by (vm_compute; reflexivity). assert (every functionless (world shop4) = true) as H2 by (vm_compute; reflexivity). assert (every short_type (world shop4) = true) as H3 by (vm_compute; reflexivity).
  assert (read_only (world shop4) = true) as H3' by (vm_compute; reflexivity). assert (v_att (app_of shop4) = mk_link 23 1 []) as H4 by (vm_compute; reflexivity). assert ((d_ref_count <$> g_db (world shop4)) = Some 1) as H5 by (vm_compute; reflexivity).
  apply (shop_ready shop shop4 (reachable_consistent 99 shop4 shop_reach4) H1 H2 H3 H3' H4 H5). vm_compute. split_and!; reflexivity.
Qed.
Lemma opened_new : bt_gatt_server_new steps 64 0 shop4 = Ret (true, opened).
Proof. vm_compute. reflexivity. Qed.
Lemma opened_session : session silent steps [shop] opened.
Proof. destruct shop4_ready as (Q & own & d & Hr). apply (session_new silent steps [shop] shop4 Q own d 64 0); [exact Hr|split; vm_compute; congruence|exact opened_new]. Qed.

Definition server0 : bt_gatt_server := default (mk_server 0 [] 0 0 None 0 None None) (v_server (app_of opened)).
Lemma opened_serving : serving opened server0 [shop] [].
Proof.
  destruct shop4_ready as (Q & own & d & Hr). assert (wp (bt_gatt_server_new steps 64 0) (fun b m' => b = true -> exists sv, serving m' sv [shop] []) shop4) as Hw.
  { eapply server_new_wp; [exact Hr|split; vm_compute; congruence|pose proof steps_enough; unfold UINT16_MAX in *; lia|intros m' sv Hs _ _ _ _; by exists sv|done]. }
  destruct (wp_ret_inv _ _ _ _ _ Hw opened_new eq_refl) as (sv & Q' & own' & d' & q & ps & Hs & Hps). pose proof (sv_idle _ _ _ _ _ _ _ _ Hs) as [Hsv _]. assert (server0 = sv) as -> by (unfold server0; rewrite Hsv; reflexivity). exists Q', own', d', q, ps. split; [exact Hs|exact Hps].
Qed.

#[local] Opaque steps opened shop server0.

(** ** The theorems at work *)

Lemma gatt_server_session_witness : exists sv l, serving opened sv [shop] l /\
  (forall opcode pdu, admissible opened l opcode pdu -> wp (serve silent steps opcode pdu) (fun _ m' => exists sv' l', serving m' sv' [shop] l' /\ transmitted opcode (v_att (app_of opened)) (v_att (app_of m'))) opened) /\
  wp (bt_gatt_server_unref steps) (fun _ m' => v_server (app_of m') = None /\ consistent m' /\ g_services (world m') = g_services (world opened)) opened.
Proof. exact (gatt_server_session silent steps [shop] opened steps_enough opened_session). Defined.

(** Read By Type finds the declaration of the characteristic. *)
Definition declaration : pdu_of := (BT_ATT_OP_READ_BY_TYPE_RSP, Some <$> [7; 2; 0; 0x8A; 3; 0; 0x37; 0x2A]).
Lemma declaration_answer : answer (world opened) server0 [shop] BT_ATT_OP_READ_BY_TYPE_REQ [1; 0; 255; 255; 3; 0x28] = Some declaration.
Proof. vm_compute. reflexivity. Qed.
Lemma gatt_server_answers_witness :
  wp (serve silent steps BT_ATT_OP_READ_BY_TYPE_REQ [1; 0; 255; 255; 3; 0x28]) (fun _ m' => serving m' server0 [shop] [] /\
    exists r', (r' = declaration \/ short_of_memory BT_ATT_OP_READ_BY_TYPE_REQ [1; 0; 255; 255; 3; 0x28] r') /\ world m' = set_app (sent r' (app_of opened)) (world opened)) opened.
Proof.
  apply (gatt_server_answers silent steps opened server0 [shop] [] BT_ATT_OP_READ_BY_TYPE_REQ [1; 0; 255; 255; 3; 0x28] declaration).
  - exact opened_serving.
  - exact declaration_answer.
  - repeat constructor; lia.
  - vm_compute; congruence.
  - pose proof steps_enough; lia.
  - intros E. discriminate E.
Defined.

(** The value of the characteristic. *)
Definition value0 : gatt_db_attribute := default (mk_attribute 0 (BT_UUID16 0) 0 0 None None None 0 0 None 0 None) (at_handle (world opened) [shop] 3).
Lemma value0_there : at_handle (world opened) [shop] 3 = Some value0.
Proof. vm_compute. reflexivity. Qed.
Lemma opened_known : initialised (world opened).
Proof. apply initialised_by. vm_compute. reflexivity. Qed.
Lemma never_refused : ~ refused.
Proof. intros (n & used & E). discriminate E. Qed.

Lemma gatt_server_write_read_witness :
  wp (serve_all silent steps [(BT_ATT_OP_WRITE_REQ, write_pdu 3 [10; 20]); (BT_ATT_OP_READ_REQ, put_le16 3)])
    (fun _ m' => serving m' server0 [shop] [] /\
      (refused \/ v_att (app_of m') = sends [(BT_ATT_OP_WRITE_RSP, []); (BT_ATT_OP_READ_RSP, take (Z.to_nat (att_mtu (v_att (app_of opened)) - 1)) (overwritten (bytes_of value0) [10; 20]))] (v_att (app_of opened)))) opened.
Proof.
  apply (gatt_server_write_read silent steps opened server0 [shop] [] 3 [10; 20] value0).
  - exact opened_serving.
  - split; vm_compute; congruence.
  - vm_compute; congruence.
  - exact value0_there.
  - vm_compute; reflexivity.
  - vm_compute; reflexivity.
  - pose proof steps_enough; lia.
Defined.

Lemma gatt_server_long_write_witness :
  let chunks := [[10; 20; 30]; [40]] in
  wp (serve_all silent steps ((prep_request <$> pieces 3 0 chunks) ++ [(BT_ATT_OP_EXEC_WRITE_REQ, [1])]))
    (fun _ m' => serving m' server0 [shop] [] /\ (exists a', at_handle (world m') [shop] 3 = Some a' /\ stores value0 a' 0 (concat chunks)) /\ (forall h', h' <> 3 -> at_handle (world m') [shop] h' = at_handle (world opened) [shop] h') /\
      v_att (app_of m') = sends ((prep_response <$> pieces 3 0 chunks) ++ [(BT_ATT_OP_EXEC_WRITE_RSP, [])]) (v_att (app_of opened))) opened.
Proof.
  apply (gatt_server_long_write silent steps opened server0 [shop] 3 value0 0 [[10; 20; 30]; [40]]).
  - exact opened_serving.
  - split; vm_compute; congruence.
  - lia.
  - exact value0_there.
  - exact opened_known.
  - exact never_refused.
  - vm_compute; reflexivity.
  - vm_compute; reflexivity.
  - repeat constructor; lia.
  - repeat constructor; vm_compute; congruence.
  - vm_compute; congruence.
  - exact steps_enough.
Defined.

Lemma gatt_server_permissions_witness :
  wp (check_permissions (shop, 2%nat) (Z.lor WRITE_MASK BT_ATT_PERM_SECURE)) (fun e m' => m' = opened /\
    (e = 0 <-> allowed (a_permissions value0) (Z.lor WRITE_MASK BT_ATT_PERM_SECURE) (att_security (v_att (app_of opened))).1 (att_security (v_att (app_of opened))).2 (sv_min_enc_size server0) = true) /\
    (a_permissions value0 <> 0 -> Z.testbit (Z.lor WRITE_MASK BT_ATT_PERM_SECURE) 0 = true -> Z.testbit (a_permissions value0) 0 = false -> e = BT_ATT_ERROR_READ_NOT_PERMITTED) /\
    (a_permissions value0 <> 0 -> Z.testbit (Z.lor WRITE_MASK BT_ATT_PERM_SECURE) 0 = false -> Z.testbit (Z.lor WRITE_MASK BT_ATT_PERM_SECURE) 1 = true -> Z.testbit (a_permissions value0) 1 = false -> e = BT_ATT_ERROR_WRITE_NOT_PERMITTED)) opened.
Proof.
  apply (gatt_server_permissions opened server0 (shop, 2%nat) (shelf opened) value0 (Z.lor WRITE_MASK BT_ATT_PERM_SECURE)); vm_compute; reflexivity.
Defined.

(** ** What a peer can do *)

Definition log_after (l : list (Z * bytes)) : list pdu_of := l_log (v_att (app_of (after l))).

(** The declarations are for reading only. *)
Example declaration_kept :
  log_after [(BT_ATT_OP_WRITE_REQ, write_pdu 1 [0xAA; 0xBB]); (BT_ATT_OP_READ_BY_GRP_TYPE_REQ, [1; 0; 255; 255; 0; 0x28])] =
    [error_rsp BT_ATT_OP_WRITE_REQ 1 BT_ATT_ERROR_WRITE_NOT_PERMITTED; (BT_ATT_OP_READ_BY_GRP_TYPE_RSP, Some <$> [6; 1; 0; 8; 0; 0x0D; 0x18])].
Proof. vm_compute. reflexivity. Qed.

(** A prepared write behind the end of a value is accepted, and the bytes before it, which nothing has written, go
    to the peer with the next read. *)
Example unwritten_bytes_sent :
  log_after [(BT_ATT_OP_WRITE_REQ, write_pdu 3 [1]); (BT_ATT_OP_PREP_WRITE_REQ, prep_pdu 3 4 [7]); (BT_ATT_OP_EXEC_WRITE_REQ, [1]); (BT_ATT_OP_READ_REQ, put_le16 3)] =
    [(BT_ATT_OP_WRITE_RSP, []); (BT_ATT_OP_PREP_WRITE_RSP, Some <$> prep_pdu 3 4 [7]); (BT_ATT_OP_EXEC_WRITE_RSP, []); (BT_ATT_OP_READ_RSP, [Some 1; None; None; None; Some 7])].
Proof. vm_compute. reflexivity. Qed.

(** The bits for secure connections are in neither mask: an attribute that asks for them is read over a connection
    of the lowest level. *)
Example secure_not_enforced : access (Z.lor BT_ATT_PERM_READ BT_ATT_PERM_SECURE) READ_MASK 1 16 server0 = 0.
Proof. vm_compute. reflexivity. Qed.
